(* ===== verification/_CoqProject ===== *)
-Q . S2P
Prelude.v
Fsm.v
RequestLine.v
RequestPath.v
ComplexUri.v
UriNormal.v
Sprintf.v
Chunked.v
ChunkedFilter.v
HeaderLine.v
StatusLine.v
StringNum.v
Strings.v
RoundRobin.v
RoundRobinFair.v
RoundRobinRequest.v
Base64.v
Escape.v
Queue.v
Locations.v
LocationSearch.v
LocationBuild.v
LocationFind.v
Times.v
TimeText.v
TimeCache.v
Atomic.v
Rwlock.v
Shmtx.v
Radix.v
RadixSpec.v
RadixMap.v
RadixTree.v
Bits.v
HuffTables.v
Huffman.v
HuffmanSpec.v
HpackTable.v
HpackRing.v
HpackSpec.v
Hpack.v
HpackBlock.v
HpackRead.v
HpackWrite.v
Rbtree.v
RbtreeSpec.v
RbtreeInsert.v
RbtreeFix.v
RbtreeSplice.v
RbtreeDelete.v
RbtreeTree.v
Timers.v
TimersSpec.v
Hash.v
HashSpec.v
HashWild.v
Crc32.v
StrTree.v
LimitConn.v
LimitConnSpec.v
LimitReq.v
LimitReqSpec.v
LimitReqRate.v
Range.v
RangeParse.v
RangeBody.v
RangeResponse.v
RangeMulti.v
Dns.v
DnsSpec.v
DnsPtr.v
