(* ===== verification/Prelude.v ===== *)
(** * nginx 1.10.0 verification library: root file and prelude

    This library models the parts of nginx that decide what the bytes of a
    connection mean, where a request goes, and the data structures, clocks and
    locks these stand on, and proves what makes them correct.  Source paths are
    relative to [src/nginx-1.10.0/]; the build is that for 64-bit Linux.

    ** The program's parts and how they interact

    A client's bytes arrive in the buffer [r->header_in].  The request line is
    parsed by [ngx_http_parse_request_line]; it leaves pointers into the buffer
    and flags, from which [ngx_http_process_request_uri] makes [r->uri], calling
    [ngx_http_parse_complex_uri] when a flag says that the raw bytes will not do.
    The URI selects a location: [ngx_http_core_find_location] searches the tree
    that [ngx_http_init_static_location_trees] built of the configuration.  The
    header lines are parsed one by one by [ngx_http_parse_header_line], which
    also hashes the lower-cased name for the lookup of its handler.  Over HTTP/2
    the headers come as a compressed block instead, whose handlers use the
    Huffman decoder and the dynamic table.  A body in chunked coding goes through
    [ngx_http_parse_chunked], driven by the body filter or by the filter that
    discards a body.  A parser that reaches the end of the buffer saves its state
    and returns [NGX_AGAIN]; it is called again when more bytes are there.  A
    proxied request asks the balancer of its upstream for a peer; the response is
    parsed by [ngx_http_parse_status_line] and, again, the header line parser; it
    goes to the client through the output filters, of which the chunked filter
    prints its size lines with [ngx_sprintf] and the range filter cuts the parts
    out that a client asks for.  Before that, the limits of connections and of
    the rate of requests may refuse it; their accounts are nodes of red-black
    trees in shared memory.  The timers of all events are one such tree, and the
    names of header fields and servers are found in hash tables.  Numbers, sizes, times and dates of
    headers and of the configuration are read by the conversions of
    [src/core/ngx_string.c], [ngx_parse.c] and [ngx_parse_time.c]; the current
    time comes from the cache of [ngx_times.c].  The workers share memory under
    the locks of [ngx_shmtx.c] and [ngx_rwlock.c].

    ** Files

    - [Prelude]: characters and byte strings, machine integers, memory (a list
      of bytes, with checked and unchecked reads), return codes, the tactics and
      lemmas that the components share.
    - [Fsm]: the loop of all the parsers over the bytes of a buffer, with
      [break], [p--; break] and leaving by label; interface [Switch], what a
      [switch] promises (it looks at no byte above [p]; a byte is read at most
      twice).  From it: the loop ends, it resumes, invariants of the [switch]
      are invariants of the loop.
    - [RequestLine]: [ngx_http_parse_request_line] (src/http/ngx_http_parse.c),
      state by state; class [StrCmp] with the two families of comparison macros
      as its instances.  [RequestPath]: what the flags say of the path.
    - [ComplexUri]: [ngx_http_parse_complex_uri] and
      [ngx_http_process_request_uri] (src/http/ngx_http_request.c).
      [UriNormal]: the reference they implement.
    - [HeaderLine]: [ngx_http_parse_header_line], [ngx_hash_key],
      [ngx_hash_key_lc] (src/core/ngx_hash.c) and the table element of
      [ngx_http_process_request_headers].
    - [StatusLine]: [ngx_http_parse_status_line].
    - [Chunked]: [ngx_http_parse_chunked] and the chunked branches of the body
      filters (src/http/ngx_http_request_body.c).  [ChunkedFilter]:
      [ngx_http_chunked_body_filter]
      (src/http/modules/ngx_http_chunked_filter_module.c).
    - [Sprintf]: [ngx_vslprintf], [ngx_sprintf_num] (src/core/ngx_string.c).
    - [StringNum]: [ngx_atoi] and its kin, [ngx_parse_size],
      [ngx_parse_offset], [ngx_parse_time] (src/core/ngx_parse.c).
    - [Strings]: comparisons and searches of src/core/ngx_string.c.
      [Base64], [Escape]: its encodings.
    - [RoundRobin]: src/http/ngx_http_upstream_round_robin.c: the lists of
      peers, the request's bitmap, choosing and freeing a peer.
      [RoundRobinFair]: fairness.  [RoundRobinRequest]: one request's view.
    - [Queue]: src/core/ngx_queue.c and ngx_queue.h, rings of links in a heap.
    - [Locations]: the tree of locations and its search (src/http/ngx_http.c,
      ngx_http_core_module.c), with [Queue] below it.  [LocationSearch]: the
      search; [LocationBuild]: the tree that is built; [LocationFind]: both
      together, with nested locations and regular expressions.
    - [Times]: [ngx_gmtime], [ngx_timegm] and the printing and parsing of dates
      (src/core/ngx_times.c, ngx_parse_time.c).  [TimeText]: dates as text.
      [TimeCache]: the ring of cached times, with updates, signals and readers
      as the steps of a system.
    - [Atomic]: the atomic operations.  [Rwlock], [Shmtx]: the locks of
      src/core/ngx_rwlock.c and ngx_shmtx.c, whose steps are single accesses to
      the shared words, of any number of processes in any order.
    - [Radix]: src/core/ngx_radix_tree.c, nodes in memory with the list of free
      ones.  [RadixSpec]: what a heap of nodes stands for; [RadixMap]: the
      operations on it; [RadixTree]: the trees of IPv4 and IPv6 networks.
    - [Bits], [HuffTables] (the tables of src/http/v2/ngx_http_v2_huff_encode.c
      and ..._decode.c), [Huffman]: the coder; [HuffmanSpec]: its meaning in bits.
    - [HpackTable]: src/http/v2/ngx_http_v2_table.c, two rings, of entries and of
      bytes.  [HpackRing]: strings in a ring; [HpackSpec]: the list of the
      standard that the rings implement.
    - [Hpack]: the handlers of src/http/v2/ngx_http_v2.c that read a header
      block, with the class [Request] for what becomes of a header.
      [HpackBlock]: resuming; [HpackRead]: the pieces of a block, and safety;
      [HpackWrite]: writing and reading back.
    - [Rbtree]: src/core/ngx_rbtree.c, nodes in a heap with the sentinel; the
      comparison of an insertion is a parameter, of which the plain tree and
      that of timers are instances.  [RbtreeSpec]: the tree a heap stands for,
      as a zipper, with the colors; [RbtreeInsert], [RbtreeFix], [RbtreeSplice],
      [RbtreeDelete]: the parts of the two operations; [RbtreeTree]: sequences
      of calls as a sorted list, and the height.
    - [Timers]: src/event/ngx_event_timer.c with the handlers of events as a
      parameter; [TimersSpec]: what expires, and in which order.
    - [Hash]: [ngx_hash_init] and [ngx_hash_find] (src/core/ngx_hash.c) on
      memory; [HashSpec]: their layout; [HashWild]: the tables of wildcards and
      the lists of keys, with examples.
    - [Crc32]: src/core/ngx_crc32.c and .h with both tables.
    - [StrTree]: red-black trees whose nodes carry strings
      ([ngx_str_rbtree_insert_value] and the callbacks of the limits), with the
      interface [is_index] of a map.
    - [LimitConn]: src/http/modules/ngx_http_limit_conn_module.c;
      [LimitConnSpec]: its counts in any interleaving of requests.
    - [LimitReq]: src/http/modules/ngx_http_limit_req_module.c; [LimitReqSpec]:
      no freed node is used; [LimitReqRate]: the rate it lets through.
    - [Range]: src/http/modules/ngx_http_range_filter_module.c; [RangeParse]:
      what a header asks for; [RangeBody]: the buffers of a body;
      [RangeResponse], [RangeMulti]: the responses with one and several ranges.
    - [Dns]: queries, names and addresses in the messages of
      src/core/ngx_resolver.c; [DnsSpec]: names; [DnsPtr]: addresses.

    ** How state and operations correspond to the code

    A pointer into a buffer is an offset, [NULL] is [None]; a [u_char *] that is
    only read forward is the list of the bytes from it on.  Objects that are
    linked by pointers live in a heap, a map from addresses to records.  A
    [switch] state is a constructor with the name of the source's enumerator
    (prefixed where two parsers share a name) and a [case] is a definition.  A
    struct is a record of the fields that the component reads or writes, a
    function takes it and returns it.  Unsigned and bit-field arithmetic wraps as
    in C ([u8], [u16], [u64]); signed arithmetic is on [Z] where overflow would be
    undefined, and theorems give the bounds.  A read or a write outside its region
    and an exhausted fuel make a result [None] or a fault, never a value.

    ** What the theorems show

    - URIs: every request that is accepted gets a normal path (absolute, with
      slashes merged: no empty, "." or ".." segment before another one, no NUL)
      and no access leaves a buffer; the one-pass parser computes the reference
      "decode, split, resolve", errors included; the fast path agrees with it.
    - Request, header and status lines: exactly which lines are accepted and
      with which pointers, for well-formed lines; the pointers are in order and
      inside the buffer for any input; a parse that is suspended anywhere gives
      the result of an uninterrupted one; both builds of the comparison macros
      agree; the table of methods; the hash and the lower-cased copy of a
      header name are those the lookup uses.
    - Chunked bodies: reading in any number of buffers is the reference
      transducer on the concatenation of their bytes; what the output filter
      sends, the reader reads back; the sizes do not overflow; the length still
      expected is a lower bound; discarding a body goes through the same states.
    - HTTP/2 header blocks: in whatever pieces the bytes come, the handlers
      neither fault nor fail to end and give the result for the whole; what is
      written is read back; the table is the list of the standard; the decoder
      accepts exactly the codes and their padding.
    - Formatted output and numbers: nothing is written past [last]; truncated
      output is a prefix; numbers print and read back; a conversion accepts
      exactly what fits in its type; sizes and times have their meaning, or are
      an error exactly when they do not fit or are out of order.
    - Strings: comparisons are the orders they promise; searches find the first
      occurrence; what is encoded in Base64 or escaped is decoded to itself.
    - Balancer: among working servers, each gets its exact share in every cycle
      and is never a whole request ahead; a request never gets a peer twice, nor
      more peers than its tries; what is chosen; the quarantine of a peer that
      failed; the lists that the configuration makes.
    - Queues are lists, and the sort is the stable one.  Locations: the tree that
      is built finds the exact or the longest location of the configuration, and
      the whole search is the documented one.
    - Radix trees are maps from networks, and a search finds the longest prefix.
    - Dates: the calendar is the Gregorian one; dates are printed and read back;
      the three formats agree; what is accepted is in range.
    - Cached time: a reader sees the second, the milliseconds and the texts of one
      update, unless 64 updates pass it.
    - Locks: exclusion, and that no process sleeps while the lock is free.
    - Red-black trees are sorted lists under any sequence of calls, without a
      bad access and of logarithmic height; trees of strings are maps.  Timers
      expire when they are due, once and in order, whatever their handlers add.
    - Hash tables: a lookup finds the first element of an equal name, inside
      the memory of the table.  Both tables of CRC32 compute the bitwise one.
    - Limits: in any interleaving a zone counts the requests that hold a place,
      at most as many as allowed; the rate of requests let through is bounded;
      no node is used after it is freed.
    - Ranges: the ranges of a header, in the body as long as their sizes do not
      overflow; the response is exactly the bytes of its range or ranges, as
      long as announced.
    - DNS: a name or an address in a query is read back from the answer; the
      reader of names ends and stays in the message and, but for one byte that
      it writes too much, in its memory.

    ** Fuel

    [Fsm.loop] runs at most twice per byte, which [loop_total] shows to be
    enough; [ComplexUri.cu_fuel] and [Chunked.body_fuel] bound their loops by
    the bytes of the input, [StringNum.ngx_parse_time] by the length of the
    line: each has a theorem that the result is never [None] for lack of fuel.
    The digits of a number have the 20 bytes of [temp] in [ngx_sprintf_num],
    shown to be enough.  Loops over a queue and over locations have the length of
    the queue and the depth of the nesting; a radix tree has at most 129 levels
    ([radix_fuel] is 130); loops along a red-black tree have one turn per node of
    the heap ([rb_fuel]), lookups in it as many; the expiry of entries of a limit
    has the three turns of the source; a lookup in a hash bucket has one turn per
    cell of the memory ([find_fuel]); the ranges of a header and the labels of a
    question are bounded by its bytes, and a DNS name by the 128 turns of the
    source; a table of headers has as many turns as entries ([hpack_fuel]); the
    handlers of a header block have eight calls per byte
    ([read_fuel], by the rank of the handlers).

    ** What is not modelled

    Sockets, events, files and processes are system calls; allocation is taken to
    succeed but where a function's answer to its failure is part of the model.
    Doubles in formatted output, the peers of a name resolved at run time and SSL
    sessions are left out of their components; the slab allocator is a parameter
    of the limits, the regular expressions one of the locations.  The handlers
    around the parsers, the upstream state machine, variables, the other filters
    and modules, the other frames of HTTP/2, the caches of the resolver, mail,
    stream, memory pools and the digests but CRC32 are not modelled. *)

From Stdlib Require Export ZArith Lia ZifyBool Ascii String.
From stdpp Require Export prelude.

#[global] Open Scope Z_scope.

Declare Scope nginx_scope.
Delimit Scope nginx_scope with nginx.
#[global] Open Scope nginx_scope.

(** ** Characters and byte strings

    A [u_char] is an integer in [0, 255]; a region of memory is a [list Z].
    [#"/"] is the code of a character, computed when the term is read, so
    that the conditions of the source keep their literals. *)

Definition chr (s : string) : Z :=
  match s with
  | String a _ => Z.of_N (N_of_ascii a)
  | EmptyString => 0
  end.

Notation "# s" :=
  (ltac:(let v := eval vm_compute in (chr s%string) in exact v))
  (at level 8, s at level 0, only parsing) : nginx_scope.

Abbreviation CR := 13 (only parsing).
Abbreviation LF := 10 (only parsing).

Fixpoint bytes (s : string) : list Z :=
  match s with
  | EmptyString => []
  | String a s' => Z.of_N (N_of_ascii a) :: bytes s'
  end.

Definition is_byte (b : Z) : Prop := 0 <= b < 256.

(** ** Machine integers *)

Definition u8 (x : Z) : Z := x mod 2 ^ 8.
Definition u16 (x : Z) : Z := x mod 2 ^ 16.
Definition u32 (x : Z) : Z := x mod 2 ^ 32.
Definition u64 (x : Z) : Z := x mod 2 ^ 64.

(** A 64-bit pattern read as [ngx_int_t] (two's complement). *)
Definition i64 (x : Z) : Z := (x + 2 ^ 63) mod 2 ^ 64 - 2 ^ 63.

(** [objs/ngx_auto_config.h] and [ngx_config.h], 64-bit Linux build. *)
Definition NGX_MAX_INT_T_VALUE : Z := 9223372036854775807.
Definition NGX_MAX_SIZE_T_VALUE : Z := 9223372036854775807.
Definition NGX_MAX_OFF_T_VALUE : Z := 9223372036854775807.
Definition NGX_MAX_TIME_T_VALUE : Z := 9223372036854775807.

(** Return codes of [ngx_core.h]. *)
Definition NGX_OK : Z := 0.
Definition NGX_ERROR : Z := -1.
Definition NGX_AGAIN : Z := -2.
Definition NGX_BUSY : Z := -3.
Definition NGX_DONE : Z := -4.
Definition NGX_DECLINED : Z := -5.

(** ** Memory *)

(** The byte at address [p]; loops that never leave their buffer read with it. *)
Definition byte_at (mem : list Z) (p : Z) : Z :=
  if p <? 0 then 0 else nth (Z.to_nat p) mem 0.

(** A checked read: [None] is an access outside the region. *)
Definition rd (mem : list Z) (p : Z) : option Z :=
  if p <? 0 then None else mem !! Z.to_nat p.

(** The bytes of [mem] at [[i, j)]. *)
Definition slice (mem : list Z) (i j : Z) : list Z :=
  take (Z.to_nat (j - i)) (drop (Z.to_nat i) mem).

(** [ngx_strncmp(a, b, n) == 0] on strings of known contents. *)
Fixpoint bytes_eqb (a b : list Z) : bool :=
  match a, b with
  | [], [] => true
  | x :: a', y :: b' => (x =? y) && bytes_eqb a' b'
  | _, _ => false
  end.

(** ** Tactics *)

(** Case analysis on every boolean test of the goal, with equations. *)
Ltac case_ifs :=
  repeat match goal with
  | |- context [if ?b then _ else _] =>
      lazymatch type of b with bool => destruct b eqn:? end
  end.

(** The same for the tests of a hypothesis. *)
Ltac case_ifs_in H :=
  repeat match type of H with
  | context [if ?b then _ else _] =>
      lazymatch type of b with bool => destruct b eqn:? end
  end.

Create HintDb nginx.

(** A finite range, checked by evaluation. *)
Lemma check_range (P : Z -> bool) n :
  forallb P (seqZ 0 n) = true -> forall x, 0 <= x < n -> P x = true.
Proof.
  intros H x Hx. rewrite forallb_forall in H. apply H, list_elem_of_In, elem_of_seqZ. lia.
Qed.

(** ** Lemmas on memory *)

Lemma byte_at_rd mem p b : rd mem p = Some b -> byte_at mem p = b.
Proof.
  unfold rd, byte_at. case_ifs; [done|]. intros H.
  by apply nth_lookup_Some.
Qed.

Lemma rd_Some mem p :
  0 <= p < Z.of_nat (length mem) -> rd mem p = Some (byte_at mem p).
Proof.
  intros H. unfold rd, byte_at. case_ifs; [lia|].
  rewrite nth_lookup. destruct (mem !! Z.to_nat p) eqn:E; [done|].
  apply lookup_ge_None in E. lia.
Qed.

Lemma rd_None mem p :
  rd mem p = None <-> p < 0 \/ Z.of_nat (length mem) <= p.
Proof.
  unfold rd. case_ifs.
  - split; intros; [lia|done].
  - rewrite lookup_ge_None. lia.
Qed.

Lemma byte_at_range mem p :
  Forall is_byte mem -> is_byte (byte_at mem p).
Proof.
  intros H. unfold byte_at. case_ifs; [unfold is_byte; lia|].
  rewrite nth_lookup. destruct (mem !! Z.to_nat p) eqn:E; simpl.
  - rewrite Forall_lookup in H. eauto.
  - unfold is_byte; lia.
Qed.

Lemma byte_at_app_l l1 l2 p :
  p < Z.of_nat (length l1) -> byte_at (l1 ++ l2) p = byte_at l1 p.
Proof.
  intros H. unfold byte_at. case_ifs; [done|]. rewrite app_nth1; [done|lia].
Qed.

Lemma byte_at_app_r l1 l2 p :
  Z.of_nat (length l1) <= p ->
  byte_at (l1 ++ l2) p = byte_at l2 (p - Z.of_nat (length l1)).
Proof.
  intros H. unfold byte_at. case_ifs; try lia.
  rewrite app_nth2 by lia. f_equal. lia.
Qed.

Lemma byte_at_cons_0 b l : byte_at (b :: l) 0 = b.
Proof. done. Qed.

Lemma byte_at_middle l1 b l2 p :
  p = Z.of_nat (length l1) -> byte_at (l1 ++ b :: l2) p = b.
Proof. intros ->. rewrite byte_at_app_r, Z.sub_diag by lia. done. Qed.

#[export] Hint Resolve byte_at_range : nginx.

Lemma bytes_eqb_eq a b : bytes_eqb a b = true <-> a = b.
Proof.
  revert b. induction a as [|x a IH]; intros [|y b]; cbn; try done.
  rewrite andb_true_iff, Z.eqb_eq, IH. split; [by intros [-> ->]|by intros [= -> ->]].
Qed.

Lemma bytes_eqb_refl a : bytes_eqb a a = true.
Proof. by apply bytes_eqb_eq. Qed.

Lemma bytes_eqb_length a b : length a <> length b -> bytes_eqb a b = false.
Proof.
  intros H. destruct (bytes_eqb a b) eqn:E; [|done].
  apply bytes_eqb_eq in E. by subst.
Qed.

(** *** Slices *)

Lemma length_slice mem i j :
  0 <= i <= j -> j <= Z.of_nat (length mem) -> Z.of_nat (length (slice mem i j)) = j - i.
Proof. intros. unfold slice. rewrite length_take, length_drop. lia. Qed.

Lemma slice_nil mem i j : j <= i -> slice mem i j = [].
Proof. intros. unfold slice. by replace (Z.to_nat (j - i)) with 0%nat by lia. Qed.

Lemma slice_snoc mem i j :
  0 <= i <= j -> j < Z.of_nat (length mem) ->
  slice mem i (j + 1) = slice mem i j ++ [byte_at mem j].
Proof.
  intros Hi Hj. unfold slice.
  replace (Z.to_nat (j + 1 - i)) with (S (Z.to_nat (j - i))) by lia.
  pose proof (rd_Some mem j ltac:(lia)) as Hrd. unfold rd in Hrd.
  destruct (j <? 0) eqn:?; [lia|].
  erewrite take_S_r; [done|]. rewrite lookup_drop, <-Hrd. f_equal. lia.
Qed.

Lemma slice_cons mem i j :
  0 <= i < j -> j <= Z.of_nat (length mem) ->
  slice mem i j = byte_at mem i :: slice mem (i + 1) j.
Proof.
  intros Hi Hj. unfold slice.
  pose proof (rd_Some mem i ltac:(lia)) as Hrd. unfold rd in Hrd.
  destruct (i <? 0) eqn:?; [lia|].
  rewrite (drop_S _ _ _ Hrd).
  replace (Z.to_nat (j - i)) with (S (Z.to_nat (j - (i + 1)))) by lia.
  replace (Z.to_nat (i + 1)) with (S (Z.to_nat i)) by lia. done.
Qed.

Lemma slice_split mem i j k :
  0 <= i <= j -> j <= k -> k <= Z.of_nat (length mem) ->
  slice mem i k = slice mem i j ++ slice mem j k.
Proof.
  intros Hi Hj Hk. unfold slice.
  replace (Z.to_nat (k - i)) with (Z.to_nat (j - i) + Z.to_nat (k - j))%nat by lia.
  rewrite <-take_take_drop, drop_drop. do 2 f_equal. f_equal. lia.
Qed.

Lemma byte_at_slice mem i j k :
  0 <= i -> 0 <= k < j - i -> byte_at (slice mem i j) k = byte_at mem (i + k).
Proof.
  intros Hi Hk. unfold byte_at, slice. case_ifs; try lia.
  rewrite !nth_lookup, lookup_take_lt, lookup_drop by lia. do 2 f_equal. lia.
Qed.

Lemma slice_app_r l1 l2 i j :
  Z.of_nat (length l1) = i -> slice (l1 ++ l2) i j = take (Z.to_nat (j - i)) l2.
Proof.
  intros <-. unfold slice. rewrite Nat2Z.id. by rewrite drop_app_length.
Qed.

Lemma slice_mid l1 l2 l3 i j :
  Z.of_nat (length l1) = i -> i + Z.of_nat (length l2) = j -> slice (l1 ++ l2 ++ l3) i j = l2.
Proof.
  intros Hi Hj. rewrite slice_app_r by done.
  replace (Z.to_nat (j - i)) with (length l2) by lia. apply take_app_length.
Qed.

(** Decides [Forall is_byte] on concrete memory. *)
Definition bytes_ok (mem : list Z) : bool := forallb (fun b => (0 <=? b) && (b <? 256)) mem.

Lemma bytes_ok_spec mem : bytes_ok mem = true -> Forall is_byte mem.
Proof.
  unfold bytes_ok. rewrite forallb_forall, Forall_forall. intros H x Hx.
  apply list_elem_of_In, H in Hx. unfold is_byte. lia.
Qed.

(** ** Text at an address *)

(** The bytes from [p] on are [l]. *)
Definition text_at (mem : list Z) (p : Z) (l : list Z) : Prop :=
  forall k b, l !! k = Some b -> byte_at mem (p + Z.of_nat k) = b.

Lemma text_at_cons mem p c l :
  text_at mem p (c :: l) <-> byte_at mem p = c /\ text_at mem (p + 1) l.
Proof.
  split.
  - intros H. split; [rewrite <-(Z.add_0_r p); exact (H 0%nat c eq_refl)|].
    intros k b Hk. rewrite <-(H (S k) b Hk). f_equal. lia.
  - intros [Hc H] [|k] b Hk; [injection Hk as <-; by rewrite Z.add_0_r|].
    rewrite <-(H k b Hk). f_equal. lia.
Qed.

Lemma text_at_app mem p l1 l2 :
  text_at mem p (l1 ++ l2) <-> text_at mem p l1 /\ text_at mem (p + Z.of_nat (length l1)) l2.
Proof.
  revert p. induction l1 as [|c l1 IH]; intros p.
  - cbn. rewrite Z.add_0_r. split; [by intros H|by intros [_ H]].
  - cbn [app length]. rewrite !text_at_cons, IH, Nat2Z.inj_succ.
    replace (p + Z.succ (Z.of_nat (length l1))) with (p + 1 + Z.of_nat (length l1)) by lia.
    tauto.
Qed.

Lemma text_at_self l : text_at l 0 l.
Proof.
  intros k b H. rewrite Z.add_0_l. unfold byte_at. assert ((Z.of_nat k <? 0) = false) as -> by lia.
  rewrite Nat2Z.id. by apply nth_lookup_Some.
Qed.

Lemma text_at_slice mem p l :
  0 <= p -> p + Z.of_nat (length l) <= Z.of_nat (length mem) -> text_at mem p l ->
  slice mem p (p + Z.of_nat (length l)) = l.
Proof.
  revert p. induction l as [|c l IH]; intros p Hp Hl H; [by rewrite slice_nil by (cbn; lia)|].
  cbn [length] in *. apply text_at_cons in H as [Hc H]. rewrite slice_cons by lia. rewrite Hc.
  f_equal. replace (p + Z.of_nat (S (length l))) with (p + 1 + Z.of_nat (length l)) by lia.
  apply IH; [lia|lia|done].
Qed.
