(* ===== verification/Fsm.v ===== *)
(** * Byte-driven state machines

    The parsers of [ngx_http_parse.c] are loops
      [for (p = b->pos; p < b->last; p++) { ch = *p; switch (state) {...} }]
    whose [switch] either breaks, steps the pointer back ([p--; break;]), or
    leaves the loop through a label or a [return].  This file holds that loop
    once, with the lemmas the parsers share: it terminates, its result does
    not depend on bytes it has not reached, a parse suspended at the end of a
    buffer resumes to the result of one uninterrupted parse, and an invariant
    of the switch is an invariant of the loop. *)

From S2P Require Import Prelude.

(** What one execution of the [switch] does. *)
Inductive action (S R : Type) : Type :=
| Break (s : S)          (** [break;] and the loop's [p++] *)
| Redo (s : S)           (** [p--; break;]: the same byte is read again *)
| Leave (r : R).         (** [goto] a label after the loop, or [return] *)
Arguments Break {S R} s.
Arguments Redo {S R} s.
Arguments Leave {S R} r.

(** How the loop ended, and where [p] was. *)
Inductive ending (S R : Type) : Type :=
| Exhausted (p : Z) (s : S)
| Left (p : Z) (r : R).
Arguments Exhausted {S R} p s.
Arguments Left {S R} p r.

(** The promises of a [switch]: it looks at no byte above [p], and a byte that
    is read again is not read a third time. *)
Class Switch {S R : Type} (step : list Z -> Z -> Z -> S -> action S R) : Prop := {
  switch_local : forall mem mem' p c s,
    (forall i, i <= p -> byte_at mem i = byte_at mem' i) ->
    step mem p c s = step mem' p c s;
  switch_redo_once : forall mem p c s s' s'',
    step mem p c s = Redo s' -> step mem p c s' <> Redo s''
}.

Section Loop.
Context {S R : Type} (step : list Z -> Z -> Z -> S -> action S R).

Fixpoint run (fuel : nat) (mem : list Z) (p last : Z) (s : S) : option (ending S R) :=
  match fuel with
  | O => None
  | Datatypes.S fuel' =>
      if p <? last then
        match step mem p (byte_at mem p) s with
        | Break s' => run fuel' mem (p + 1) last s'
        | Redo s' => run fuel' mem p last s'
        | Leave r => Some (Left p r)
        end
      else Some (Exhausted p s)
  end.

(** Two executions of the [switch] per byte are enough. *)
Definition loop (mem : list Z) (p last : Z) (s : S) : option (ending S R) :=
  run (2 * Z.to_nat (last - p) + 1) mem p last s.

Lemma run_mono fuel fuel' mem p last s e :
  (fuel <= fuel')%nat -> run fuel mem p last s = Some e -> run fuel' mem p last s = Some e.
Proof.
  revert fuel' p s. induction fuel as [|f IH]; intros [|f'] p s Hle; simpl; try done; [lia|].
  destruct (p <? last); [|done].
  destruct (step _ _ _ _); intros; try done; eapply IH; eauto; lia.
Qed.

Context `{!Switch step}.

Lemma run_total mem last n : forall p s,
  (Z.to_nat (last - p) <= n)%nat -> exists e, run (2 * n + 1) mem p last s = Some e.
Proof.
  induction n as [|n IH]; intros p s Hn.
  - simpl. assert ((p <? last) = false) as -> by lia. eauto.
  - replace (2 * Datatypes.S n + 1)%nat with (Datatypes.S (Datatypes.S (2 * n + 1))) by lia.
    cbn [run]. destruct (p <? last) eqn:Hp; [|eauto].
    destruct (step mem p (byte_at mem p) s) as [s'|s'|r] eqn:E; [| |eauto].
    + destruct (IH (p + 1) s') as [e He]; [lia|].
      exists e. change (run (Datatypes.S (2 * n + 1)) mem (p + 1) last s' = Some e).
      eapply run_mono; [|apply He]. lia.
    + destruct (step mem p (byte_at mem p) s') as [s''|s''|r] eqn:E'; [| |eauto].
      * apply IH. lia.
      * exfalso. by apply (switch_redo_once _ _ _ _ _ s'' E).
Qed.

(** The loop always ends: the fuel of [loop] is enough. *)
Lemma loop_total mem p last s : exists e, loop mem p last s = Some e.
Proof. apply run_total. lia. Qed.

Lemma run_loop fuel mem p last s e :
  run fuel mem p last s = Some e -> loop mem p last s = Some e.
Proof.
  intros H. destruct (loop_total mem p last s) as [e' He'].
  assert (e = e') as ->; [|done].
  unfold loop in He'.
  destruct (le_ge_dec fuel (2 * Z.to_nat (last - p) + 1)) as [Hle|Hge].
  - eapply run_mono in H; [|exact Hle]. congruence.
  - eapply run_mono in He'; [|exact Hge]. congruence.
Qed.

(** The loop unfolds as the source reads, with no fuel in sight. *)
Lemma loop_unfold mem p last s :
  loop mem p last s =
    if p <? last then
      match step mem p (byte_at mem p) s with
      | Break s' => loop mem (p + 1) last s'
      | Redo s' => loop mem p last s'
      | Leave r => Some (Left p r)
      end
    else Some (Exhausted p s).
Proof.
  destruct (p <? last) eqn:Hp.
  - destruct (step mem p (byte_at mem p) s) as [s'|s'|r] eqn:E.
    + destruct (loop_total mem (p + 1) last s') as [e He]. rewrite He.
      eapply (run_loop (Datatypes.S _)). cbn [run]. rewrite Hp, E. exact He.
    + destruct (loop_total mem p last s') as [e He]. rewrite He.
      eapply (run_loop (Datatypes.S _)). cbn [run]. rewrite Hp, E. exact He.
    + eapply (run_loop 1). cbn [run]. by rewrite Hp, E.
  - eapply (run_loop 1). cbn [run]. by rewrite Hp.
Qed.

Lemma loop_break mem p last s s' :
  p < last -> step mem p (byte_at mem p) s = Break s' ->
  loop mem p last s = loop mem (p + 1) last s'.
Proof. intros Hp E. rewrite loop_unfold, E. by assert ((p <? last) = true) as -> by lia. Qed.

Lemma loop_redo mem p last s s' :
  p < last -> step mem p (byte_at mem p) s = Redo s' ->
  loop mem p last s = loop mem p last s'.
Proof. intros Hp E. rewrite loop_unfold, E. by assert ((p <? last) = true) as -> by lia. Qed.

Lemma loop_leave mem p last s r :
  p < last -> step mem p (byte_at mem p) s = Leave r ->
  loop mem p last s = Some (Left p r).
Proof. intros Hp E. rewrite loop_unfold, E. by assert ((p <? last) = true) as -> by lia. Qed.

Lemma loop_end mem p last s : last <= p -> loop mem p last s = Some (Exhausted p s).
Proof. intros Hp. rewrite loop_unfold. by assert ((p <? last) = false) as -> by lia. Qed.

(** Suspending at [k] and resuming with more bytes gives the result of one
    parse, whatever the memory above [k] held the first time. *)
Lemma loop_resume mem mem' p k last s :
  p <= k <= last ->
  (forall i, i < k -> byte_at mem i = byte_at mem' i) ->
  loop mem p last s =
    match loop mem' p k s with
    | Some (Exhausted q s') => loop mem q last s'
    | other => other
    end.
Proof.
  intros Hk Hag.
  destruct (loop_total mem' p k s) as [e He]. rewrite He.
  unfold loop in He.
  remember (2 * Z.to_nat (k - p) + 1)%nat as fuel eqn:Hf. clear Hf.
  revert p s Hk He. induction fuel as [|f IH]; intros p s Hk He; [done|].
  cbn [run] in He. destruct (p <? k) eqn:Hp.
  - rewrite loop_unfold. assert ((p <? last) = true) as -> by lia.
    rewrite (switch_local _ mem') by (intros; apply Hag; lia).
    rewrite Hag by lia.
    destruct (step mem' p (byte_at mem' p) s).
    + apply IH; [lia|done].
    + apply IH; [lia|done].
    + by inversion He.
  - inversion He; subst. done.
Qed.

(** An invariant of the [switch] holds when the loop ends. *)
Lemma run_inv (I : Z -> S -> Prop) (Q : Z -> R -> Prop) mem lo last :
  (forall q t t', lo <= q < last -> I q t ->
     step mem q (byte_at mem q) t = Break t' -> I (q + 1) t') ->
  (forall q t t', lo <= q < last -> I q t ->
     step mem q (byte_at mem q) t = Redo t' -> I q t') ->
  (forall q t r, lo <= q < last -> I q t ->
     step mem q (byte_at mem q) t = Leave r -> Q q r) ->
  forall fuel p s e,
  lo <= p <= last -> I p s -> run fuel mem p last s = Some e ->
  match e with
  | Exhausted q t => q = last /\ I q t
  | Left q r => lo <= q < last /\ Q q r
  end.
Proof.
  intros HB HR HL. induction fuel as [|f IH]; intros p s e Hp0 HI He; [done|].
  cbn [run] in He. destruct (p <? last) eqn:Hp.
  - destruct (step mem p (byte_at mem p) s) as [t|t|r] eqn:E.
    + apply (IH (p + 1) t); [lia| |done]. eapply HB; eauto; lia.
    + apply (IH p t); [lia| |done]. apply (HR p s t); auto; lia.
    + inversion He; subst. split; [lia|]. eapply HL; eauto; lia.
  - inversion He; subst. split; [lia|done].
Qed.

Lemma loop_inv (I : Z -> S -> Prop) (Q : Z -> R -> Prop) mem p last s e :
  (forall q t t', p <= q < last -> I q t ->
     step mem q (byte_at mem q) t = Break t' -> I (q + 1) t') ->
  (forall q t t', p <= q < last -> I q t ->
     step mem q (byte_at mem q) t = Redo t' -> I q t') ->
  (forall q t r, p <= q < last -> I q t ->
     step mem q (byte_at mem q) t = Leave r -> Q q r) ->
  p <= last -> I p s -> loop mem p last s = Some e ->
  match e with
  | Exhausted q t => q = last /\ I q t
  | Left q r => p <= q < last /\ Q q r
  end.
Proof.
  intros HB HR HL Hp HI He.
  eapply (run_inv I Q mem p last HB HR HL); [|exact HI|exact He]. lia.
Qed.

End Loop.

(** Two switches that agree on the bytes of the buffer give the same loop. *)
Lemma loop_ext {S R : Type} (step step' : list Z -> Z -> Z -> S -> action S R) mem p last s :
  (forall q t, step mem q (byte_at mem q) t = step' mem q (byte_at mem q) t) ->
  loop step mem p last s = loop step' mem p last s.
Proof.
  intros Hext. unfold loop. generalize (2 * Z.to_nat (last - p) + 1)%nat as fuel.
  intros fuel. revert p s. induction fuel as [|f IH]; intros p s; [done|].
  cbn [run]. rewrite Hext. destruct (p <? last); [|done].
  destruct (step' _ _ _ _); auto.
Qed.

(** ** Mapping the state of a loop *)

Definition action_map {S R} (f : S -> S) (g : R -> R) (a : action S R) : action S R :=
  match a with
  | Break s => Break (f s)
  | Redo s => Redo (f s)
  | Leave r => Leave (g r)
  end.

Definition ending_map {S R} (f : S -> S) (g : R -> R) (e : ending S R) : ending S R :=
  match e with
  | Exhausted p s => Exhausted p (f s)
  | Left p r => Left p (g r)
  end.

(** A part of the state the [switch] only carries along can be changed before
    or after the loop. *)
Lemma loop_map {S R} (f : S -> S) (g : R -> R) (step : list Z -> Z -> Z -> S -> action S R)
    mem p last s :
  (forall q c t, step mem q c (f t) = action_map f g (step mem q c t)) ->
  loop step mem p last (f s) = ending_map f g <$> loop step mem p last s.
Proof.
  intros Hf. unfold loop. generalize (2 * Z.to_nat (last - p) + 1)%nat as fuel.
  intros fuel. revert p s. induction fuel as [|n IH]; intros p s; [done|].
  cbn [run]. destruct (p <? last); [|done].
  rewrite Hf. destruct (step mem p (byte_at mem p) s); cbn [action_map]; auto.
Qed.

(** A run of bytes that all [break] to a state computed from them. *)
Lemma loop_fold {S R : Type} (step : list Z -> Z -> Z -> S -> action S R) `{!Switch step}
    (P : Z -> Prop) (I : S -> Prop) (f : S -> Z -> S) mem last :
  (forall q c t, P c -> I t -> step mem q c t = Break (f t c) /\ I (f t c)) ->
  forall l p s,
  p + Z.of_nat (length l) <= last -> text_at mem p l -> Forall P l -> I s ->
  loop step mem p last s = loop step mem (p + Z.of_nat (length l)) last (fold_left f l s) /\
  I (fold_left f l s).
Proof.
  intros Hstep. induction l as [|c l IH]; intros p s Hl Ht HP HI.
  - cbn. by rewrite Z.add_0_r.
  - cbn [length] in Hl. apply text_at_cons in Ht as [Hc Ht]. inversion HP; subst.
    destruct (Hstep p (byte_at mem p) s) as [Hs HI']; [done|done|].
    destruct (IH (p + 1) (f s (byte_at mem p))) as [E HI'']; [lia|done..|].
    rewrite (loop_break step mem p last s _ ltac:(lia) Hs), E. cbn [fold_left length].
    split; [|done]. f_equal. lia.
Qed.
