(* ===== verification/RequestLine.v ===== *)
(** * ngx_http_parse_request_line ([src/http/ngx_http_parse.c])

    The request line parser: the fields of [ngx_http_request_t] it reads or
    writes, the [switch] state by state, the loop (an instance of [Fsm]) and
    the code after the loop.  Addresses are offsets in the request buffer and
    [NULL] is [None]. *)

From S2P Require Import Prelude Fsm.

(** ** Data *)

Inductive rl_st : Type :=
| sw_start | sw_method | sw_spaces_before_uri | sw_schema | sw_schema_slash
| sw_schema_slash_slash | sw_host_start | sw_host | sw_host_end
| sw_host_ip_literal | sw_port | sw_host_http_09 | sw_after_slash_in_uri
| sw_check_uri | sw_check_uri_http_09 | sw_uri | sw_http_09 | sw_http_H
| sw_http_HT | sw_http_HTT | sw_http_HTTP | sw_first_major_digit
| sw_major_digit | sw_first_minor_digit | sw_minor_digit
| sw_spaces_after_digit | sw_almost_done.

#[export] Instance rl_st_eq_dec : EqDecision rl_st.
Proof. solve_decision. Defined.

(** The fields of [ngx_http_request_t] the parser reads or writes. *)
Record request : Type := mk_request {
  rl_state : rl_st;  (** [r->state], the state saved between calls *)
  method : Z;
  http_major : Z;  (** bit field of 16 bits *)
  http_minor : Z;  (** bit field of 16 bits *)
  http_version : Z;
  complex_uri : bool;
  quoted_uri : bool;
  plus_in_uri : bool;
  space_in_uri : bool;
  request_start : option Z;
  request_end : option Z;
  method_end : option Z;
  schema_start : option Z;
  schema_end : option Z;
  host_start : option Z;
  host_end : option Z;
  port_end : option Z;
  uri_start : option Z;
  uri_end : option Z;
  uri_ext : option Z;
  args_start : option Z;
  http_protocol : option Z  (** [r->http_protocol.data] *)
}.

Definition set_rl_state (v : rl_st) (r : request) : request :=
  mk_request
    v (method r) (http_major r) (http_minor r) (http_version r) (complex_uri r)
    (quoted_uri r) (plus_in_uri r) (space_in_uri r) (request_start r) (request_end r)
    (method_end r) (schema_start r) (schema_end r) (host_start r) (host_end r) (port_end r)
    (uri_start r) (uri_end r) (uri_ext r) (args_start r) (http_protocol r).
Definition set_method (v : Z) (r : request) : request :=
  mk_request
    (rl_state r) v (http_major r) (http_minor r) (http_version r) (complex_uri r)
    (quoted_uri r) (plus_in_uri r) (space_in_uri r) (request_start r) (request_end r)
    (method_end r) (schema_start r) (schema_end r) (host_start r) (host_end r) (port_end r)
    (uri_start r) (uri_end r) (uri_ext r) (args_start r) (http_protocol r).
Definition set_http_major (v : Z) (r : request) : request :=
  mk_request
    (rl_state r) (method r) v (http_minor r) (http_version r) (complex_uri r) (quoted_uri r)
    (plus_in_uri r) (space_in_uri r) (request_start r) (request_end r) (method_end r)
    (schema_start r) (schema_end r) (host_start r) (host_end r) (port_end r) (uri_start r)
    (uri_end r) (uri_ext r) (args_start r) (http_protocol r).
Definition set_http_minor (v : Z) (r : request) : request :=
  mk_request
    (rl_state r) (method r) (http_major r) v (http_version r) (complex_uri r) (quoted_uri r)
    (plus_in_uri r) (space_in_uri r) (request_start r) (request_end r) (method_end r)
    (schema_start r) (schema_end r) (host_start r) (host_end r) (port_end r) (uri_start r)
    (uri_end r) (uri_ext r) (args_start r) (http_protocol r).
Definition set_http_version (v : Z) (r : request) : request :=
  mk_request
    (rl_state r) (method r) (http_major r) (http_minor r) v (complex_uri r) (quoted_uri r)
    (plus_in_uri r) (space_in_uri r) (request_start r) (request_end r) (method_end r)
    (schema_start r) (schema_end r) (host_start r) (host_end r) (port_end r) (uri_start r)
    (uri_end r) (uri_ext r) (args_start r) (http_protocol r).
Definition set_complex_uri (v : bool) (r : request) : request :=
  mk_request
    (rl_state r) (method r) (http_major r) (http_minor r) (http_version r) v (quoted_uri r)
    (plus_in_uri r) (space_in_uri r) (request_start r) (request_end r) (method_end r)
    (schema_start r) (schema_end r) (host_start r) (host_end r) (port_end r) (uri_start r)
    (uri_end r) (uri_ext r) (args_start r) (http_protocol r).
Definition set_quoted_uri (v : bool) (r : request) : request :=
  mk_request
    (rl_state r) (method r) (http_major r) (http_minor r) (http_version r) (complex_uri r) v
    (plus_in_uri r) (space_in_uri r) (request_start r) (request_end r) (method_end r)
    (schema_start r) (schema_end r) (host_start r) (host_end r) (port_end r) (uri_start r)
    (uri_end r) (uri_ext r) (args_start r) (http_protocol r).
Definition set_plus_in_uri (v : bool) (r : request) : request :=
  mk_request
    (rl_state r) (method r) (http_major r) (http_minor r) (http_version r) (complex_uri r)
    (quoted_uri r) v (space_in_uri r) (request_start r) (request_end r) (method_end r)
    (schema_start r) (schema_end r) (host_start r) (host_end r) (port_end r) (uri_start r)
    (uri_end r) (uri_ext r) (args_start r) (http_protocol r).
Definition set_space_in_uri (v : bool) (r : request) : request :=
  mk_request
    (rl_state r) (method r) (http_major r) (http_minor r) (http_version r) (complex_uri r)
    (quoted_uri r) (plus_in_uri r) v (request_start r) (request_end r) (method_end r)
    (schema_start r) (schema_end r) (host_start r) (host_end r) (port_end r) (uri_start r)
    (uri_end r) (uri_ext r) (args_start r) (http_protocol r).
Definition set_request_start (v : option Z) (r : request) : request :=
  mk_request
    (rl_state r) (method r) (http_major r) (http_minor r) (http_version r) (complex_uri r)
    (quoted_uri r) (plus_in_uri r) (space_in_uri r) v (request_end r) (method_end r)
    (schema_start r) (schema_end r) (host_start r) (host_end r) (port_end r) (uri_start r)
    (uri_end r) (uri_ext r) (args_start r) (http_protocol r).
Definition set_request_end (v : option Z) (r : request) : request :=
  mk_request
    (rl_state r) (method r) (http_major r) (http_minor r) (http_version r) (complex_uri r)
    (quoted_uri r) (plus_in_uri r) (space_in_uri r) (request_start r) v (method_end r)
    (schema_start r) (schema_end r) (host_start r) (host_end r) (port_end r) (uri_start r)
    (uri_end r) (uri_ext r) (args_start r) (http_protocol r).
Definition set_method_end (v : option Z) (r : request) : request :=
  mk_request
    (rl_state r) (method r) (http_major r) (http_minor r) (http_version r) (complex_uri r)
    (quoted_uri r) (plus_in_uri r) (space_in_uri r) (request_start r) (request_end r) v
    (schema_start r) (schema_end r) (host_start r) (host_end r) (port_end r) (uri_start r)
    (uri_end r) (uri_ext r) (args_start r) (http_protocol r).
Definition set_schema_start (v : option Z) (r : request) : request :=
  mk_request
    (rl_state r) (method r) (http_major r) (http_minor r) (http_version r) (complex_uri r)
    (quoted_uri r) (plus_in_uri r) (space_in_uri r) (request_start r) (request_end r)
    (method_end r) v (schema_end r) (host_start r) (host_end r) (port_end r) (uri_start r)
    (uri_end r) (uri_ext r) (args_start r) (http_protocol r).
Definition set_schema_end (v : option Z) (r : request) : request :=
  mk_request
    (rl_state r) (method r) (http_major r) (http_minor r) (http_version r) (complex_uri r)
    (quoted_uri r) (plus_in_uri r) (space_in_uri r) (request_start r) (request_end r)
    (method_end r) (schema_start r) v (host_start r) (host_end r) (port_end r) (uri_start r)
    (uri_end r) (uri_ext r) (args_start r) (http_protocol r).
Definition set_host_start (v : option Z) (r : request) : request :=
  mk_request
    (rl_state r) (method r) (http_major r) (http_minor r) (http_version r) (complex_uri r)
    (quoted_uri r) (plus_in_uri r) (space_in_uri r) (request_start r) (request_end r)
    (method_end r) (schema_start r) (schema_end r) v (host_end r) (port_end r) (uri_start r)
    (uri_end r) (uri_ext r) (args_start r) (http_protocol r).
Definition set_host_end (v : option Z) (r : request) : request :=
  mk_request
    (rl_state r) (method r) (http_major r) (http_minor r) (http_version r) (complex_uri r)
    (quoted_uri r) (plus_in_uri r) (space_in_uri r) (request_start r) (request_end r)
    (method_end r) (schema_start r) (schema_end r) (host_start r) v (port_end r)
    (uri_start r) (uri_end r) (uri_ext r) (args_start r) (http_protocol r).
Definition set_port_end (v : option Z) (r : request) : request :=
  mk_request
    (rl_state r) (method r) (http_major r) (http_minor r) (http_version r) (complex_uri r)
    (quoted_uri r) (plus_in_uri r) (space_in_uri r) (request_start r) (request_end r)
    (method_end r) (schema_start r) (schema_end r) (host_start r) (host_end r) v
    (uri_start r) (uri_end r) (uri_ext r) (args_start r) (http_protocol r).
Definition set_uri_start (v : option Z) (r : request) : request :=
  mk_request
    (rl_state r) (method r) (http_major r) (http_minor r) (http_version r) (complex_uri r)
    (quoted_uri r) (plus_in_uri r) (space_in_uri r) (request_start r) (request_end r)
    (method_end r) (schema_start r) (schema_end r) (host_start r) (host_end r) (port_end r) v
    (uri_end r) (uri_ext r) (args_start r) (http_protocol r).
Definition set_uri_end (v : option Z) (r : request) : request :=
  mk_request
    (rl_state r) (method r) (http_major r) (http_minor r) (http_version r) (complex_uri r)
    (quoted_uri r) (plus_in_uri r) (space_in_uri r) (request_start r) (request_end r)
    (method_end r) (schema_start r) (schema_end r) (host_start r) (host_end r) (port_end r)
    (uri_start r) v (uri_ext r) (args_start r) (http_protocol r).
Definition set_uri_ext (v : option Z) (r : request) : request :=
  mk_request
    (rl_state r) (method r) (http_major r) (http_minor r) (http_version r) (complex_uri r)
    (quoted_uri r) (plus_in_uri r) (space_in_uri r) (request_start r) (request_end r)
    (method_end r) (schema_start r) (schema_end r) (host_start r) (host_end r) (port_end r)
    (uri_start r) (uri_end r) v (args_start r) (http_protocol r).
Definition set_args_start (v : option Z) (r : request) : request :=
  mk_request
    (rl_state r) (method r) (http_major r) (http_minor r) (http_version r) (complex_uri r)
    (quoted_uri r) (plus_in_uri r) (space_in_uri r) (request_start r) (request_end r)
    (method_end r) (schema_start r) (schema_end r) (host_start r) (host_end r) (port_end r)
    (uri_start r) (uri_end r) (uri_ext r) v (http_protocol r).
Definition set_http_protocol (v : option Z) (r : request) : request :=
  mk_request
    (rl_state r) (method r) (http_major r) (http_minor r) (http_version r) (complex_uri r)
    (quoted_uri r) (plus_in_uri r) (space_in_uri r) (request_start r) (request_end r)
    (method_end r) (schema_start r) (schema_end r) (host_start r) (host_end r) (port_end r)
    (uri_start r) (uri_end r) (uri_ext r) (args_start r) v.

(** [ngx_http_request.h]: the request methods and the parse errors. *)
Definition NGX_HTTP_UNKNOWN : Z := 0x0001.
Definition NGX_HTTP_GET : Z := 0x0002.
Definition NGX_HTTP_HEAD : Z := 0x0004.
Definition NGX_HTTP_POST : Z := 0x0008.
Definition NGX_HTTP_PUT : Z := 0x0010.
Definition NGX_HTTP_DELETE : Z := 0x0020.
Definition NGX_HTTP_MKCOL : Z := 0x0040.
Definition NGX_HTTP_COPY : Z := 0x0080.
Definition NGX_HTTP_MOVE : Z := 0x0100.
Definition NGX_HTTP_OPTIONS : Z := 0x0200.
Definition NGX_HTTP_PROPFIND : Z := 0x0400.
Definition NGX_HTTP_PROPPATCH : Z := 0x0800.
Definition NGX_HTTP_LOCK : Z := 0x1000.
Definition NGX_HTTP_UNLOCK : Z := 0x2000.
Definition NGX_HTTP_PATCH : Z := 0x4000.
Definition NGX_HTTP_TRACE : Z := 0x8000.

Definition NGX_HTTP_PARSE_INVALID_METHOD : Z := 10.
Definition NGX_HTTP_PARSE_INVALID_REQUEST : Z := 11.
Definition NGX_HTTP_PARSE_INVALID_09_METHOD : Z := 12.

(** ** The table of usual characters *)

Definition usual : list Z :=
  [ 0xffffdbfe; 0x7fff37d6; 0xffffffff; 0xffffffff;
    0xffffffff; 0xffffffff; 0xffffffff; 0xffffffff ].

(** [usual[ch >> 5] & (1 << (ch & 0x1f))] *)
Definition usual_bit (ch : Z) : bool :=
  negb (Z.land (nth (Z.to_nat (Z.shiftr ch 5)) usual 0)
               (Z.shiftl 1 (Z.land ch 0x1f)) =? 0).

(** ** Method names

    The two families of comparison macros: four bytes at a time on a little
    endian machine that allows unaligned access, byte by byte elsewhere. *)

Definition u32_load (mem : list Z) (m : Z) : Z :=
  byte_at mem m + byte_at mem (m + 1) * 2 ^ 8
  + byte_at mem (m + 2) * 2 ^ 16 + byte_at mem (m + 3) * 2 ^ 24.

Definition word4 (c0 c1 c2 c3 : Z) : Z :=
  Z.lor (Z.lor (Z.lor (Z.shiftl c3 24) (Z.shiftl c2 16)) (Z.shiftl c1 8)) c0.

(** The macros, as the operations a build provides. *)
Class StrCmp : Type := {
  str3_cmp : list Z -> Z -> Z -> Z -> Z -> Z -> bool;
  str3Ocmp : list Z -> Z -> Z -> Z -> Z -> Z -> bool;
  str4cmp : list Z -> Z -> Z -> Z -> Z -> Z -> bool;
  str5cmp : list Z -> Z -> Z -> Z -> Z -> Z -> Z -> bool;
  str6cmp : list Z -> Z -> Z -> Z -> Z -> Z -> Z -> Z -> bool;
  str7_cmp : list Z -> Z -> Z -> Z -> Z -> Z -> Z -> Z -> Z -> Z -> bool;
  str8cmp : list Z -> Z -> Z -> Z -> Z -> Z -> Z -> Z -> Z -> Z -> bool;
  str9cmp : list Z -> Z -> Z -> Z -> Z -> Z -> Z -> Z -> Z -> Z -> Z -> bool
}.

Definition is4 (mem : list Z) (m c0 c1 c2 c3 : Z) : bool :=
  u32_load mem m =? word4 c0 c1 c2 c3.

(** [NGX_HAVE_LITTLE_ENDIAN && NGX_HAVE_NONALIGNED] *)
Definition strcmp_words : StrCmp := {|
  str3_cmp mem m c0 c1 c2 c3 := is4 mem m c0 c1 c2 c3;
  str3Ocmp mem m c0 c1 c2 c3 := is4 mem m c0 c1 c2 c3;
  str4cmp mem m c0 c1 c2 c3 := is4 mem m c0 c1 c2 c3;
  str5cmp mem m c0 c1 c2 c3 c4 :=
    is4 mem m c0 c1 c2 c3 && (byte_at mem (m + 4) =? c4);
  str6cmp mem m c0 c1 c2 c3 c4 c5 :=
    is4 mem m c0 c1 c2 c3
    && (Z.land (u32_load mem (m + 4)) 0xffff =? Z.lor (Z.shiftl c5 8) c4);
  str7_cmp mem m c0 c1 c2 c3 c4 c5 c6 c7 :=
    is4 mem m c0 c1 c2 c3 && is4 mem (m + 4) c4 c5 c6 c7;
  str8cmp mem m c0 c1 c2 c3 c4 c5 c6 c7 :=
    is4 mem m c0 c1 c2 c3 && is4 mem (m + 4) c4 c5 c6 c7;
  str9cmp mem m c0 c1 c2 c3 c4 c5 c6 c7 c8 :=
    is4 mem m c0 c1 c2 c3 && is4 mem (m + 4) c4 c5 c6 c7
    && (byte_at mem (m + 8) =? c8)
|}.

(** The other builds. *)
Definition at_is (mem : list Z) (m i c : Z) : bool := byte_at mem (m + i) =? c.

Definition strcmp_bytes : StrCmp := {|
  str3_cmp mem m c0 c1 c2 c3 := at_is mem m 0 c0 && at_is mem m 1 c1 && at_is mem m 2 c2;
  str3Ocmp mem m c0 c1 c2 c3 := at_is mem m 0 c0 && at_is mem m 2 c2 && at_is mem m 3 c3;
  str4cmp mem m c0 c1 c2 c3 :=
    at_is mem m 0 c0 && at_is mem m 1 c1 && at_is mem m 2 c2 && at_is mem m 3 c3;
  str5cmp mem m c0 c1 c2 c3 c4 :=
    at_is mem m 0 c0 && at_is mem m 1 c1 && at_is mem m 2 c2 && at_is mem m 3 c3
    && at_is mem m 4 c4;
  str6cmp mem m c0 c1 c2 c3 c4 c5 :=
    at_is mem m 0 c0 && at_is mem m 1 c1 && at_is mem m 2 c2 && at_is mem m 3 c3
    && at_is mem m 4 c4 && at_is mem m 5 c5;
  str7_cmp mem m c0 c1 c2 c3 c4 c5 c6 c7 :=
    at_is mem m 0 c0 && at_is mem m 1 c1 && at_is mem m 2 c2 && at_is mem m 3 c3
    && at_is mem m 4 c4 && at_is mem m 5 c5 && at_is mem m 6 c6;
  str8cmp mem m c0 c1 c2 c3 c4 c5 c6 c7 :=
    at_is mem m 0 c0 && at_is mem m 1 c1 && at_is mem m 2 c2 && at_is mem m 3 c3
    && at_is mem m 4 c4 && at_is mem m 5 c5 && at_is mem m 6 c6 && at_is mem m 7 c7;
  str9cmp mem m c0 c1 c2 c3 c4 c5 c6 c7 c8 :=
    at_is mem m 0 c0 && at_is mem m 1 c1 && at_is mem m 2 c2 && at_is mem m 3 c3
    && at_is mem m 4 c4 && at_is mem m 5 c5 && at_is mem m 6 c6 && at_is mem m 7 c7
    && at_is mem m 8 c8
|}.

(** [switch (p - m)] of [sw_method]: [None] leaves [r->method] as it is. *)
Definition method_of `{StrCmp} (mem : list Z) (m p : Z) : option Z :=
  let len := p - m in
  if len =? 3 then
    if str3_cmp mem m #"G" #"E" #"T" #" " then Some NGX_HTTP_GET
    else if str3_cmp mem m #"P" #"U" #"T" #" " then Some NGX_HTTP_PUT
    else None
  else if len =? 4 then
    if byte_at mem (m + 1) =? #"O" then
      if str3Ocmp mem m #"P" #"O" #"S" #"T" then Some NGX_HTTP_POST
      else if str3Ocmp mem m #"C" #"O" #"P" #"Y" then Some NGX_HTTP_COPY
      else if str3Ocmp mem m #"M" #"O" #"V" #"E" then Some NGX_HTTP_MOVE
      else if str3Ocmp mem m #"L" #"O" #"C" #"K" then Some NGX_HTTP_LOCK
      else None
    else
      if str4cmp mem m #"H" #"E" #"A" #"D" then Some NGX_HTTP_HEAD
      else None
  else if len =? 5 then
    if str5cmp mem m #"M" #"K" #"C" #"O" #"L" then Some NGX_HTTP_MKCOL
    else if str5cmp mem m #"P" #"A" #"T" #"C" #"H" then Some NGX_HTTP_PATCH
    else if str5cmp mem m #"T" #"R" #"A" #"C" #"E" then Some NGX_HTTP_TRACE
    else None
  else if len =? 6 then
    if str6cmp mem m #"D" #"E" #"L" #"E" #"T" #"E" then Some NGX_HTTP_DELETE
    else if str6cmp mem m #"U" #"N" #"L" #"O" #"C" #"K" then Some NGX_HTTP_UNLOCK
    else None
  else if len =? 7 then
    if str7_cmp mem m #"O" #"P" #"T" #"I" #"O" #"N" #"S" #" " then Some NGX_HTTP_OPTIONS
    else None
  else if len =? 8 then
    if str8cmp mem m #"P" #"R" #"O" #"P" #"F" #"I" #"N" #"D" then Some NGX_HTTP_PROPFIND
    else None
  else if len =? 9 then
    if str9cmp mem m #"P" #"R" #"O" #"P" #"P" #"A" #"T" #"C" #"H"
    then Some NGX_HTTP_PROPPATCH
    else None
  else None.

(** ** The [switch] *)

Inductive rl_exit : Type :=
| Done (r : request)                (** [goto done] *)
| Return (rc : Z) (r : request).    (** [return rc] *)

Definition rl_action : Type := action (rl_st * request) rl_exit.

Definition brk (st : rl_st) (r : request) : rl_action := Break (st, r).
Definition redo (st : rl_st) (r : request) : rl_action := Redo (st, r).
Definition done (r : request) : rl_action := Leave (Done r).
Definition invalid (r : request) : rl_action :=
  Leave (Return NGX_HTTP_PARSE_INVALID_REQUEST r).
Definition invalid_method (r : request) : rl_action :=
  Leave (Return NGX_HTTP_PARSE_INVALID_METHOD r).

(** [c = (u_char) (ch | 0x20); c >= 'a' && c <= 'z'] *)
Definition is_alpha (ch : Z) : bool :=
  let c := u8 (Z.lor ch 0x20) in (#"a" <=? c) && (c <=? #"z").

Definition is_digit (ch : Z) : bool := (#"0" <=? ch) && (ch <=? #"9").

(** [(ch < 'A' || ch > 'Z') && ch != '_'] *)
Definition bad_method_char (ch : Z) : bool :=
  ((ch <? #"A") || (#"Z" <? ch)) && negb (ch =? #"_").

Definition on_start (p ch : Z) (r : request) : rl_action :=
  let r := set_request_start (Some p) r in
  if (ch =? CR) || (ch =? LF) then brk sw_start r
  else if bad_method_char ch then invalid_method r
  else brk sw_method r.

Definition on_method `{StrCmp} (mem : list Z) (p ch : Z) (r : request) : rl_action :=
  if ch =? #" " then
    let r := set_method_end (Some (p - 1)) r in
    let r :=
      match request_start r with
      | Some m =>
          match method_of mem m p with
          | Some v => set_method v r
          | None => r
          end
      | None => r
      end in
    brk sw_spaces_before_uri r
  else if bad_method_char ch then invalid_method r
  else brk sw_method r.

Definition on_spaces_before_uri (p ch : Z) (r : request) : rl_action :=
  if ch =? #"/" then brk sw_after_slash_in_uri (set_uri_start (Some p) r)
  else if is_alpha ch then brk sw_schema (set_schema_start (Some p) r)
  else if ch =? #" " then brk sw_spaces_before_uri r
  else invalid r.

Definition on_schema (p ch : Z) (r : request) : rl_action :=
  if is_alpha ch then brk sw_schema r
  else if ch =? #":" then brk sw_schema_slash (set_schema_end (Some p) r)
  else invalid r.

Definition on_schema_slash (ch : Z) (r : request) : rl_action :=
  if ch =? #"/" then brk sw_schema_slash_slash r else invalid r.

Definition on_schema_slash_slash (ch : Z) (r : request) : rl_action :=
  if ch =? #"/" then brk sw_host_start r else invalid r.

(** use single "/" from request line to preserve pointers *)
Definition single_slash (r : request) : request :=
  set_uri_end ((fun e => e + 2) <$> schema_end r)
    (set_uri_start ((fun e => e + 1) <$> schema_end r) r).

Definition on_host_end (p ch : Z) (r : request) : rl_action :=
  let r := set_host_end (Some p) r in
  if ch =? #":" then brk sw_port r
  else if ch =? #"/" then brk sw_after_slash_in_uri (set_uri_start (Some p) r)
  else if ch =? #" " then brk sw_host_http_09 (single_slash r)
  else invalid r.

(** [sw_host] falls through to [sw_host_end] *)
Definition on_host (p ch : Z) (r : request) : rl_action :=
  if is_alpha ch then brk sw_host r
  else if is_digit ch || (ch =? #".") || (ch =? #"-") then brk sw_host r
  else on_host_end p ch r.

(** [sw_host_start] falls through to [sw_host] *)
Definition on_host_start (p ch : Z) (r : request) : rl_action :=
  let r := set_host_start (Some p) r in
  if ch =? #"[" then brk sw_host_ip_literal r
  else on_host p ch r.

Definition on_host_ip_literal (ch : Z) (r : request) : rl_action :=
  if is_digit ch then brk sw_host_ip_literal r
  else if is_alpha ch then brk sw_host_ip_literal r
  else if ch =? #":" then brk sw_host_ip_literal r
  else if ch =? #"]" then brk sw_host_end r
  else if (ch =? #"-") || (ch =? #".") || (ch =? #"_") || (ch =? #"~")
  then brk sw_host_ip_literal r
  else if (ch =? #"!") || (ch =? #"$") || (ch =? #"&") || (ch =? #"'")
          || (ch =? #"(") || (ch =? #")") || (ch =? #"*") || (ch =? #"+")
          || (ch =? #",") || (ch =? #";") || (ch =? #"=")
  then brk sw_host_ip_literal r
  else invalid r.

Definition on_port (p ch : Z) (r : request) : rl_action :=
  if is_digit ch then brk sw_port r
  else if ch =? #"/" then
    brk sw_after_slash_in_uri (set_uri_start (Some p) (set_port_end (Some p) r))
  else if ch =? #" " then brk sw_host_http_09 (single_slash (set_port_end (Some p) r))
  else invalid r.

(** The cases the three states that follow the URI share. *)
Definition on_host_http_09 (p ch : Z) (r : request) : rl_action :=
  if ch =? #" " then brk sw_host_http_09 r
  else if ch =? CR then brk sw_almost_done (set_http_minor 9 r)
  else if ch =? LF then done (set_http_minor 9 r)
  else if ch =? #"H" then brk sw_http_H (set_http_protocol (Some p) r)
  else invalid r.

(** check "/.", "//", "%", and "\" (Win32) in URI *)
Definition on_after_slash_in_uri (p ch : Z) (r : request) : rl_action :=
  if usual_bit ch then brk sw_check_uri r
  else if ch =? #" " then brk sw_check_uri_http_09 (set_uri_end (Some p) r)
  else if ch =? CR then brk sw_almost_done (set_http_minor 9 (set_uri_end (Some p) r))
  else if ch =? LF then done (set_http_minor 9 (set_uri_end (Some p) r))
  else if ch =? #"." then brk sw_uri (set_complex_uri true r)
  else if ch =? #"%" then brk sw_uri (set_quoted_uri true r)
  else if ch =? #"/" then brk sw_uri (set_complex_uri true r)
  else if ch =? #"?" then brk sw_uri (set_args_start (Some (p + 1)) r)
  else if ch =? #"#" then brk sw_uri (set_complex_uri true r)
  else if ch =? #"+" then brk sw_after_slash_in_uri (set_plus_in_uri true r)
  else if ch =? 0 then invalid r
  else brk sw_check_uri r.

(** check "/", "%" and "\" (Win32) in URI *)
Definition on_check_uri (p ch : Z) (r : request) : rl_action :=
  if usual_bit ch then brk sw_check_uri r
  else if ch =? #"/" then brk sw_after_slash_in_uri (set_uri_ext None r)
  else if ch =? #"." then brk sw_check_uri (set_uri_ext (Some (p + 1)) r)
  else if ch =? #" " then brk sw_check_uri_http_09 (set_uri_end (Some p) r)
  else if ch =? CR then brk sw_almost_done (set_http_minor 9 (set_uri_end (Some p) r))
  else if ch =? LF then done (set_http_minor 9 (set_uri_end (Some p) r))
  else if ch =? #"%" then brk sw_uri (set_quoted_uri true r)
  else if ch =? #"?" then brk sw_uri (set_args_start (Some (p + 1)) r)
  else if ch =? #"#" then brk sw_uri (set_complex_uri true r)
  else if ch =? #"+" then brk sw_check_uri (set_plus_in_uri true r)
  else if ch =? 0 then invalid r
  else brk sw_check_uri r.

(** space+ after URI *)
Definition on_check_uri_http_09 (p ch : Z) (r : request) : rl_action :=
  if ch =? #" " then brk sw_check_uri_http_09 r
  else if ch =? CR then brk sw_almost_done (set_http_minor 9 r)
  else if ch =? LF then done (set_http_minor 9 r)
  else if ch =? #"H" then brk sw_http_H (set_http_protocol (Some p) r)
  else redo sw_check_uri (set_space_in_uri true r).

Definition on_uri (p ch : Z) (r : request) : rl_action :=
  if usual_bit ch then brk sw_uri r
  else if ch =? #" " then brk sw_http_09 (set_uri_end (Some p) r)
  else if ch =? CR then brk sw_almost_done (set_http_minor 9 (set_uri_end (Some p) r))
  else if ch =? LF then done (set_http_minor 9 (set_uri_end (Some p) r))
  else if ch =? #"#" then brk sw_uri (set_complex_uri true r)
  else if ch =? 0 then invalid r
  else brk sw_uri r.

(** space+ after URI *)
Definition on_http_09 (p ch : Z) (r : request) : rl_action :=
  if ch =? #" " then brk sw_http_09 r
  else if ch =? CR then brk sw_almost_done (set_http_minor 9 r)
  else if ch =? LF then done (set_http_minor 9 r)
  else if ch =? #"H" then brk sw_http_H (set_http_protocol (Some p) r)
  else redo sw_uri (set_space_in_uri true r).

(** One letter of "HTTP/". *)
Definition expect (c : Z) (next : rl_st) (ch : Z) (r : request) : rl_action :=
  if ch =? c then brk next r else invalid r.

(** first digit of major HTTP version *)
Definition on_first_major_digit (ch : Z) (r : request) : rl_action :=
  if (ch <? #"1") || (#"9" <? ch) then invalid r
  else brk sw_major_digit (set_http_major (u16 (ch - #"0")) r).

(** major HTTP version or dot *)
Definition on_major_digit (ch : Z) (r : request) : rl_action :=
  if ch =? #"." then brk sw_first_minor_digit r
  else if (ch <? #"0") || (#"9" <? ch) then invalid r
  else brk sw_major_digit (set_http_major (u16 (http_major r * 10 + ch - #"0")) r).

(** first digit of minor HTTP version *)
Definition on_first_minor_digit (ch : Z) (r : request) : rl_action :=
  if (ch <? #"0") || (#"9" <? ch) then invalid r
  else brk sw_minor_digit (set_http_minor (u16 (ch - #"0")) r).

(** minor HTTP version or end of request line *)
Definition on_minor_digit (ch : Z) (r : request) : rl_action :=
  if ch =? CR then brk sw_almost_done r
  else if ch =? LF then done r
  else if ch =? #" " then brk sw_spaces_after_digit r
  else if (ch <? #"0") || (#"9" <? ch) then invalid r
  else brk sw_minor_digit (set_http_minor (u16 (http_minor r * 10 + ch - #"0")) r).

Definition on_spaces_after_digit (ch : Z) (r : request) : rl_action :=
  if ch =? #" " then brk sw_spaces_after_digit r
  else if ch =? CR then brk sw_almost_done r
  else if ch =? LF then done r
  else invalid r.

(** end of request line *)
Definition on_almost_done (p ch : Z) (r : request) : rl_action :=
  let r := set_request_end (Some (p - 1)) r in
  if ch =? LF then done r else invalid r.

Definition rl_step `{StrCmp} (mem : list Z) (p ch : Z) (s : rl_st * request) : rl_action :=
  let (st, r) := s in
  match st with
  | sw_start => on_start p ch r
  | sw_method => on_method mem p ch r
  | sw_spaces_before_uri => on_spaces_before_uri p ch r
  | sw_schema => on_schema p ch r
  | sw_schema_slash => on_schema_slash ch r
  | sw_schema_slash_slash => on_schema_slash_slash ch r
  | sw_host_start => on_host_start p ch r
  | sw_host => on_host p ch r
  | sw_host_end => on_host_end p ch r
  | sw_host_ip_literal => on_host_ip_literal ch r
  | sw_port => on_port p ch r
  | sw_host_http_09 => on_host_http_09 p ch r
  | sw_after_slash_in_uri => on_after_slash_in_uri p ch r
  | sw_check_uri => on_check_uri p ch r
  | sw_check_uri_http_09 => on_check_uri_http_09 p ch r
  | sw_uri => on_uri p ch r
  | sw_http_09 => on_http_09 p ch r
  | sw_http_H => expect #"T" sw_http_HT ch r
  | sw_http_HT => expect #"T" sw_http_HTT ch r
  | sw_http_HTT => expect #"P" sw_http_HTTP ch r
  | sw_http_HTTP => expect #"/" sw_first_major_digit ch r
  | sw_first_major_digit => on_first_major_digit ch r
  | sw_major_digit => on_major_digit ch r
  | sw_first_minor_digit => on_first_minor_digit ch r
  | sw_minor_digit => on_minor_digit ch r
  | sw_spaces_after_digit => on_spaces_after_digit ch r
  | sw_almost_done => on_almost_done p ch r
  end.

(** The code at the label [done]. *)
Definition rl_done (p : Z) (r : request) : Z * request :=
  let r := match request_end r with
           | None => set_request_end (Some p) r
           | Some _ => r
           end in
  let r := set_http_version (http_major r * 1000 + http_minor r) r in
  let r := set_rl_state sw_start r in
  if (http_version r =? 9) && negb (method r =? NGX_HTTP_GET)
  then (NGX_HTTP_PARSE_INVALID_09_METHOD, r)
  else (NGX_OK, r).

(** A buffer: the part [[b_pos, b_last)] of the memory is to be parsed. *)
Record ngx_buf : Type := mk_buf { b_pos : Z; b_last : Z }.

(** The function: its return code, the request and the buffer after it.
    [b->pos] moves on [NGX_AGAIN] and at [done] only. *)
Definition parse_request_line `{StrCmp} (mem : list Z) (r : request) (b : ngx_buf)
    : option (Z * request * ngx_buf) :=
  match loop rl_step mem (b_pos b) (b_last b) (rl_state r, r) with
  | Some (Exhausted p (st, r')) =>
      Some (NGX_AGAIN, set_rl_state st r', mk_buf p (b_last b))
  | Some (Left p (Done r')) =>
      let (rc, r'') := rl_done p r' in Some (rc, r'', mk_buf (p + 1) (b_last b))
  | Some (Left p (Return rc r')) => Some (rc, r', b)
  | None => None
  end.

(** The request as [ngx_http_create_request] leaves it: zeroed memory, an
    unknown method and version 1.0. *)
Definition create_request : request :=
  mk_request sw_start NGX_HTTP_UNKNOWN 0 0 1000 false false false false
    None None None None None None None None None None None None None.

(** ** Case analysis on a step *)

Create HintDb rl.
#[export] Hint Unfold rl_step on_start on_method on_spaces_before_uri on_schema
  on_schema_slash on_schema_slash_slash on_host_start on_host on_host_end
  on_host_ip_literal on_port on_host_http_09 on_after_slash_in_uri on_check_uri
  on_check_uri_http_09 on_uri on_http_09 expect on_first_major_digit
  on_major_digit on_first_minor_digit on_minor_digit on_spaces_after_digit
  on_almost_done brk redo done invalid invalid_method single_slash : rl.

(** Splits [H : rl_step mem p ch (st, r) = a] into the branches of the
    [switch], one goal each, with the tests of the branch in the context. *)
Ltac rl_cases H :=
  autounfold with rl in H; cbn zeta in H;
  case_ifs_in H; try discriminate H; inversion H; subst; clear H.

(** ** The comparison macros *)

Lemma usual_bit_spec ch :
  is_byte ch ->
  usual_bit ch = negb (existsb (Z.eqb ch) [0; 10; 13; 32; 35; 37; 43; 46; 47; 63]).
Proof.
  intros H.
  assert (forallb (fun n => eqb (usual_bit (Z.of_nat n))
    (negb (existsb (Z.eqb (Z.of_nat n)) [0; 10; 13; 32; 35; 37; 43; 46; 47; 63])))
    (seq 0 256) = true) as Hall by reflexivity.
  rewrite forallb_forall in Hall.
  specialize (Hall (Z.to_nat ch)). rewrite Z2Nat.id in Hall by (unfold is_byte in H; lia).
  apply eqb_prop, Hall, in_seq. unfold is_byte in H. lia.
Qed.

Lemma word4_sum c0 c1 c2 c3 :
  is_byte c0 -> is_byte c1 -> is_byte c2 -> is_byte c3 ->
  word4 c0 c1 c2 c3 = c0 + c1 * 2 ^ 8 + c2 * 2 ^ 16 + c3 * 2 ^ 24.
Proof.
  unfold is_byte, word4. intros.
  assert (disj : forall a b n, 0 <= n -> 0 <= a < 2 ^ n ->
            Z.lor (Z.shiftl b n) a = Z.shiftl b n + a).
  { intros a b n Hn Ha. rewrite <-Z.add_lor_land.
    assert (Z.land (Z.shiftl b n) a = 0) as ->; [|lia].
    apply Z.bits_inj'. intros i Hi. rewrite Z.land_spec, Z.bits_0, Z.shiftl_spec by lia.
    destruct (Z.lt_ge_cases i n).
    - by rewrite Z.testbit_neg_r by lia.
    - rewrite <-(Z.mod_small a (2 ^ n)) by lia.
      rewrite Z.mod_pow2_bits_high by lia. apply andb_false_r. }
  assert (Z.lor (Z.shiftl c3 24) (Z.shiftl c2 16) = Z.shiftl (c3 * 2 ^ 8 + c2) 16) as ->.
  { rewrite disj by (rewrite ?Z.shiftl_mul_pow2 by lia; lia).
    rewrite !Z.shiftl_mul_pow2 by lia. lia. }
  rewrite disj by (rewrite ?Z.shiftl_mul_pow2 by lia; lia).
  assert (Z.shiftl (c3 * 2 ^ 8 + c2) 16 + Z.shiftl c1 8
          = Z.shiftl ((c3 * 2 ^ 8 + c2) * 2 ^ 8 + c1) 8) as ->.
  { rewrite !Z.shiftl_mul_pow2 by lia. lia. }
  rewrite disj by lia. rewrite Z.shiftl_mul_pow2 by lia. lia.
Qed.

Lemma is4_bytes mem m c0 c1 c2 c3 :
  Forall is_byte mem -> is_byte c0 -> is_byte c1 -> is_byte c2 -> is_byte c3 ->
  is4 mem m c0 c1 c2 c3 =
    at_is mem m 0 c0 && at_is mem m 1 c1 && at_is mem m 2 c2 && at_is mem m 3 c3.
Proof.
  intros Hm **. unfold is4, at_is, u32_load. rewrite word4_sum by done.
  pose proof (byte_at_range mem m Hm). pose proof (byte_at_range mem (m + 1) Hm).
  pose proof (byte_at_range mem (m + 2) Hm). pose proof (byte_at_range mem (m + 3) Hm).
  rewrite Z.add_0_r. unfold is_byte in *. apply eq_iff_eq_true.
  rewrite !andb_true_iff, !Z.eqb_eq. lia.
Qed.

Lemma u32_land_16 mem m :
  Z.land (u32_load mem m) 0xffff = (byte_at mem m + byte_at mem (m + 1) * 2 ^ 8) mod 2 ^ 16.
Proof.
  change 0xffff with (Z.ones 16). rewrite Z.land_ones by lia. unfold u32_load.
  replace (byte_at mem m + byte_at mem (m + 1) * 2 ^ 8 + byte_at mem (m + 2) * 2 ^ 16
           + byte_at mem (m + 3) * 2 ^ 24)
    with ((byte_at mem m + byte_at mem (m + 1) * 2 ^ 8)
          + (byte_at mem (m + 2) + byte_at mem (m + 3) * 2 ^ 8) * 2 ^ 16) by lia.
  by rewrite Z.mod_add by lia.
Qed.

Lemma is2_bytes mem m c4 c5 :
  Forall is_byte mem -> is_byte c4 -> is_byte c5 ->
  (Z.land (u32_load mem m) 0xffff =? c4 + c5 * 2 ^ 8) = at_is mem m 0 c4 && at_is mem m 1 c5.
Proof.
  intros Hm H4 H5. rewrite u32_land_16. unfold at_is. rewrite Z.add_0_r.
  pose proof (byte_at_range mem m Hm). pose proof (byte_at_range mem (m + 1) Hm).
  unfold is_byte in *. rewrite Z.mod_small by lia.
  apply eq_iff_eq_true. rewrite andb_true_iff, !Z.eqb_eq. lia.
Qed.

Ltac solve_is_byte := unfold is_byte; lia.

Lemma at_is_off mem m k i c : at_is mem (m + k) i c = at_is mem m (k + i) c.
Proof. unfold at_is. by rewrite Z.add_assoc. Qed.

(** Both families recognise the same methods when the byte that ended the
    method is the space the parser has just read. *)
Lemma method_of_builds mem m p :
  Forall is_byte mem -> byte_at mem p = 32 ->
  @method_of strcmp_words mem m p = @method_of strcmp_bytes mem m p.
Proof.
  intros Hm Hp. unfold method_of. cbn [str3_cmp str3Ocmp str4cmp str5cmp str6cmp str7_cmp
    str8cmp str9cmp strcmp_words strcmp_bytes].
  change (Z.lor (Z.shiftl #"E" 8) #"T") with (#"T" + #"E" * 2 ^ 8).
  change (Z.lor (Z.shiftl #"K" 8) #"C") with (#"C" + #"K" * 2 ^ 8).
  rewrite !is4_bytes by (done || solve_is_byte).
  rewrite !is2_bytes by (done || solve_is_byte).
  rewrite !at_is_off. change (4 + 0) with 4. change (4 + 1) with 5.
  change (4 + 2) with 6. change (4 + 3) with 7.
  assert (Hsp : forall k, p - m = k -> at_is mem m k 32 = true).
  { intros k <-. unfold at_is. rewrite Zplus_minus. lia. }
  destruct (p - m =? 3) eqn:L3; [|destruct (p - m =? 4) eqn:L4; [|
    destruct (p - m =? 7) eqn:L7]].
  - rewrite (Hsp 3) by lia. by rewrite !andb_true_r.
  - destruct (byte_at mem (m + 1) =? 79) eqn:HO; [|done].
    change (at_is mem m 1 79 = true) in HO. by rewrite HO, !andb_true_r.
  - rewrite (Hsp 7) by lia. rewrite !andb_true_r, !andb_assoc.
    by assert ((p - m =? 5) = false) as -> by lia; assert ((p - m =? 6) = false) as -> by lia.
  - by rewrite !andb_assoc.
Qed.

Lemma method_of_local mem mem' m p :
  (forall i, i <= p -> byte_at mem i = byte_at mem' i) ->
  @method_of strcmp_bytes mem m p = @method_of strcmp_bytes mem' m p.
Proof.
  intros Hag. unfold method_of.
  cbn [str3_cmp str3Ocmp str4cmp str5cmp str6cmp str7_cmp str8cmp str9cmp strcmp_bytes].
  unfold at_is.
  repeat lazymatch goal with
  | |- (if ?p - ?m =? ?k then _ else _) = _ =>
      destruct (p - m =? k) eqn:?; [by rewrite !Hag by lia|]
  end.
  done.
Qed.

(** The promises of [Fsm.Switch]. *)
#[export] Instance rl_switch : Switch (@rl_step strcmp_bytes).
Proof.
  split.
  - intros mem mem' p c [st r] Hag. destruct st; try done.
    cbn [rl_step]. unfold on_method. destruct (c =? 32); [|done].
    cbn zeta. destruct (request_start _); [|done]. by rewrite (method_of_local mem mem').
  - intros mem p c [st r] s' s'' H.
    destruct st; rl_cases H; intros H; rl_cases H.
Qed.

(** ** The order of the pointers

    [pv] reads a pointer as an integer, [NULL] as [-1], so that the invariant
    is linear arithmetic. *)

Definition pv (o : option Z) : Z := match o with Some x => x | None => -1 end.

(** The request starts at [lo] or after it, and its method is behind [p]. *)
Definition have_method (lo p : Z) (r : request) : Prop :=
  0 <= lo <= pv (request_start r)
  /\ pv (request_start r) <= pv (method_end r) < p.

(** A pointer of the URI: unset, or inside [(u, e]]. *)
Definition inside (o : option Z) (u e : Z) : Prop := pv o = -1 \/ u < pv o <= e.

Definition host_ok (p : Z) (r : request) : Prop :=
  pv (host_start r) = -1 \/ pv (host_start r) <= pv (host_end r) < p.

(** The URI has begun. *)
Definition in_uri (lo p : Z) (r : request) : Prop :=
  have_method lo p r /\ pv (method_end r) < pv (uri_start r) < p
  /\ inside (args_start r) (pv (uri_start r)) p
  /\ inside (uri_ext r) (pv (uri_start r)) p /\ host_ok p r.

(** The URI has ended. *)
Definition past_uri (lo p : Z) (r : request) : Prop :=
  have_method lo p r
  /\ pv (method_end r) < pv (uri_start r) < pv (uri_end r) /\ pv (uri_end r) < p
  /\ inside (args_start r) (pv (uri_start r)) (pv (uri_end r))
  /\ inside (uri_ext r) (pv (uri_start r)) (pv (uri_end r)) /\ host_ok p r.

Definition no_uri (r : request) : Prop :=
  pv (args_start r) = -1 /\ pv (uri_ext r) = -1.

Definition no_host (r : request) : Prop := pv (host_start r) = -1.

(** In the scheme and authority of an absolute URI, [k] bytes past its colon. *)
Definition in_schema (lo p k : Z) (r : request) : Prop :=
  have_method lo p r /\ pv (method_end r) < pv (schema_start r) < pv (schema_end r)
  /\ pv (schema_end r) + k <= p /\ no_uri r.

Definition protocol_ok (p : Z) (r : request) : Prop :=
  pv (http_protocol r) = -1 \/ pv (uri_end r) < pv (http_protocol r) < p.

Definition rl_inv (lo p : Z) (s : rl_st * request) : Prop :=
  let (st, r) := s in
  request_end r = None /\
  match st with
  | sw_start => 0 <= lo <= p /\ no_uri r /\ no_host r /\ pv (http_protocol r) = -1
  | sw_method => 0 <= lo <= pv (request_start r) /\ pv (request_start r) < p
                 /\ no_uri r /\ no_host r /\ pv (http_protocol r) = -1
  | sw_spaces_before_uri => have_method lo p r /\ no_uri r /\ no_host r
                 /\ pv (http_protocol r) = -1
  | sw_schema => have_method lo p r /\ pv (method_end r) < pv (schema_start r) < p
                 /\ no_uri r /\ no_host r /\ pv (http_protocol r) = -1
  | sw_schema_slash => in_schema lo p 1 r /\ no_host r /\ pv (http_protocol r) = -1
  | sw_schema_slash_slash => in_schema lo p 2 r /\ no_host r /\ pv (http_protocol r) = -1
  | sw_host_start => in_schema lo p 3 r /\ pv (http_protocol r) = -1
  | sw_host | sw_host_end | sw_host_ip_literal =>
      in_schema lo p 3 r /\ 0 <= pv (host_start r) < p /\ pv (http_protocol r) = -1
  | sw_port => in_schema lo p 3 r /\ host_ok p r /\ pv (http_protocol r) = -1
  | sw_after_slash_in_uri | sw_check_uri | sw_uri =>
      in_uri lo p r /\ pv (http_protocol r) = -1
  | sw_host_http_09 | sw_check_uri_http_09 | sw_http_09 =>
      past_uri lo p r /\ pv (http_protocol r) = -1
  | _ => past_uri lo p r /\ protocol_ok p r
  end.

(** What [NGX_OK] promises: the parts of the line are in order, inside what
    was read, and every length the callers compute is non-negative. *)
Definition rl_result (lo e : Z) (r : request) : Prop :=
  0 <= lo <= pv (request_start r)
  /\ pv (request_start r) <= pv (method_end r) < pv (uri_start r)
  /\ pv (uri_start r) < pv (uri_end r) <= pv (request_end r)
  /\ pv (request_end r) < e
  /\ inside (args_start r) (pv (uri_start r)) (pv (uri_end r))
  /\ inside (uri_ext r) (pv (uri_start r)) (pv (uri_end r))
  /\ (pv (host_start r) = -1 \/ pv (host_start r) <= pv (host_end r) < e)
  /\ (pv (http_protocol r) = -1
      \/ pv (uri_end r) < pv (http_protocol r) <= pv (request_end r)).

Ltac rl_arith :=
  unfold rl_inv in *;
  repeat match goal with
  | H : _ = @None Z /\ _ |- _ => destruct H
  | |- _ = @None Z /\ _ => split; [by cbn; repeat case_match|]
  end;
  repeat match goal with
  | H : request_end ?r = None |- context [match ?o with Some _ => _ | None => _ end] =>
      change o with (request_end r); rewrite H
  | |- context [match ?o with Some _ => _ | None => _ end] => destruct o eqn:?
  | |- context [_ <$> schema_end ?r] => destruct (schema_end r) eqn:?
  end;
  repeat match goal with
  | H : ?o = @Some Z _ |- _ => apply (f_equal pv) in H
  | H : ?o = @None Z |- _ => apply (f_equal pv) in H
  end;
  unfold rl_result, in_schema, past_uri, in_uri, have_method, no_uri, no_host,
    host_ok, protocol_ok, inside in *;
  cbn in *; lia.

Lemma rl_inv_break lo mem p c s s' :
  rl_inv lo p s -> @rl_step strcmp_bytes mem p c s = Break s' -> rl_inv lo (p + 1) s'.
Proof. destruct s as [st r]. intros HI H. destruct st; rl_cases H; rl_arith. Qed.

Lemma rl_inv_redo lo mem p c s s' :
  rl_inv lo p s -> @rl_step strcmp_bytes mem p c s = Redo s' -> rl_inv lo p s'.
Proof. destruct s as [st r]. intros HI H. destruct st; rl_cases H; rl_arith. Qed.

Lemma rl_done_request p r :
  snd (rl_done p r) =
    let r' := match request_end r with
              | None => set_request_end (Some p) r
              | Some _ => r
              end in
    set_rl_state sw_start (set_http_version (http_major r' * 1000 + http_minor r') r').
Proof. unfold rl_done. cbn zeta. by case_ifs. Qed.

Lemma rl_inv_done lo mem p c s r' :
  rl_inv lo p s -> @rl_step strcmp_bytes mem p c s = Leave (Done r') ->
  rl_result lo (p + 1) (snd (rl_done p r')).
Proof.
  destruct s as [st r]. intros HI H. rewrite rl_done_request. cbn zeta.
  destruct st; rl_cases H; rl_arith.
Qed.

(** The configured build ([objs/ngx_auto_config.h]: little endian, unaligned
    access) uses the word macros; it is the one the theorems below are about. *)
#[export] Existing Instance strcmp_words.

(** The two builds are the same parser. *)
Lemma rl_loop_builds mem p last s :
  Forall is_byte mem ->
  loop (@rl_step strcmp_words) mem p last s = loop (@rl_step strcmp_bytes) mem p last s.
Proof.
  intros Hm. apply loop_ext. intros q [st r]. destruct st; try reflexivity.
  cbn [rl_step]. unfold on_method. destruct (byte_at mem q =? 32) eqn:E; [|done].
  cbn zeta. destruct (request_start _) as [m|]; [|done].
  rewrite method_of_builds; [done|done|lia].
Qed.

(** ** Theorems *)

(** The rewriting lemma of the proofs below: they reason on the byte macros. *)
Lemma request_line_bytes mem r b :
  Forall is_byte mem -> parse_request_line mem r b = @parse_request_line strcmp_bytes mem r b.
Proof. intros Hm. unfold parse_request_line. by rewrite rl_loop_builds. Qed.

(** The parser compiled with the word-at-a-time comparison macros returns
    what the parser compiled with the byte-by-byte macros returns. *)
Theorem parse_request_line_builds mem r b :
  Forall is_byte mem ->
  @parse_request_line strcmp_words mem r b = @parse_request_line strcmp_bytes mem r b.
Proof. apply request_line_bytes. Qed.

(** The parser returns on every input: its loop ends within two executions
    of the [switch] per byte, although two states step the pointer back. *)
Theorem parse_request_line_total mem r b :
  Forall is_byte mem -> exists rc r' b', parse_request_line mem r b = Some (rc, r', b').
Proof.
  intros Hm. rewrite request_line_bytes by done. unfold parse_request_line.
  destruct (loop_total (@rl_step strcmp_bytes) mem (b_pos b) (b_last b) (rl_state r, r))
    as [[p [st r']|p [r'|rc r']] ->]; [eauto| |eauto].
  destruct (rl_done p r'); eauto.
Qed.

(** [r->state] is written after the loop only: the [switch] carries it along. *)
Definition rl_exit_set_state (x : rl_st) (e : rl_exit) : rl_exit :=
  match e with
  | Done r => Done (set_rl_state x r)
  | Return rc r => Return rc (set_rl_state x r)
  end.

Lemma rl_step_set_state mem x q c s :
  @rl_step strcmp_bytes mem q c (fst s, set_rl_state x (snd s)) =
  action_map (fun t => (fst t, set_rl_state x (snd t))) (rl_exit_set_state x)
    (@rl_step strcmp_bytes mem q c s).
Proof.
  destruct s as [st r]. destruct st; cbn [fst snd];
    autounfold with rl; cbn zeta; cbn -[Z.add Z.sub method_of];
    repeat case_match; try reflexivity; simplify_eq; done.
Qed.

(** Two results the callers cannot tell apart: the same code, the same request
    and buffer, except that after a [return] of an error [r->state] and
    [b->pos] are whatever the last suspension left there. *)
Definition same_outcome (x y : Z * request * ngx_buf) : Prop :=
  let '(rc, r, b) := x in
  let '(rc', r', b') := y in
  rc = rc' /\ set_rl_state sw_start r = set_rl_state sw_start r' /\
  (rc <> NGX_HTTP_PARSE_INVALID_METHOD -> rc <> NGX_HTTP_PARSE_INVALID_REQUEST ->
   r = r' /\ b = b').

(** The line arrives in two reads: the first parse sees the bytes below [k],
    and the request is parsed again from where the first parse stopped if that
    returned [NGX_AGAIN], as [ngx_http_process_request_line] does. *)
Definition parse_in_two (mem' mem : list Z) (r : request) (b : ngx_buf) (k : Z)
    : option (Z * request * ngx_buf) :=
  match parse_request_line mem' r (mk_buf (b_pos b) k) with
  | Some (rc, r', b') =>
      if rc =? NGX_AGAIN then parse_request_line mem r' (mk_buf (b_pos b') (b_last b))
      else Some (rc, r', mk_buf (b_pos b') (b_last b))
  | None => None
  end.

Lemma rl_done_set_state p x r : rl_done p (set_rl_state x r) = rl_done p r.
Proof. destruct r as [? ? ? ? ? ? ? ? ? ? []]; reflexivity. Qed.

Lemma rl_done_codes p r : fst (rl_done p r) = NGX_OK \/ fst (rl_done p r) = 12.
Proof. unfold rl_done. cbn zeta. case_ifs; auto. Qed.

(** The codes of a [return] inside the loop. *)
Lemma rl_return_codes mem p s q rc r' :
  forall last, loop (@rl_step strcmp_bytes) mem p last s = Some (Left q (Return rc r')) ->
  rc = NGX_HTTP_PARSE_INVALID_METHOD \/ rc = NGX_HTTP_PARSE_INVALID_REQUEST.
Proof.
  intros last H.
  destruct (Z.le_gt_cases p last) as [Hp|Hp]; [|by rewrite (loop_end (@rl_step strcmp_bytes)) in H by lia].
  pose proof (loop_inv (@rl_step strcmp_bytes) (fun _ _ => True)
    (fun _ e => match e with
     | Return rc _ => rc = NGX_HTTP_PARSE_INVALID_METHOD \/ rc = NGX_HTTP_PARSE_INVALID_REQUEST
     | Done _ => True end) mem p last s (Left q (Return rc r'))) as Hinv.
  apply Hinv; [done|done| |done|done|done].
  intros ? [st r] e _ _ He. destruct e; [done|]. destruct st; rl_cases He; auto.
Qed.

(** C28: a request line received in pieces is parsed to what the whole line is
    parsed to, wherever the line is cut. *)
Theorem parse_request_line_resume mem mem' r b k :
  Forall is_byte mem -> Forall is_byte mem' -> b_pos b <= k <= b_last b ->
  (forall i, i < k -> byte_at mem i = byte_at mem' i) ->
  exists x y, parse_request_line mem r b = Some x
    /\ parse_in_two mem' mem r b k = Some y /\ same_outcome x y.
Proof.
  intros Hm Hm' Hk Hag. unfold parse_in_two.
  rewrite !request_line_bytes by done. unfold parse_request_line at 1 2.
  cbn [b_pos b_last].
  rewrite (loop_resume _ mem mem' _ k) by done.
  destruct (loop_total (@rl_step strcmp_bytes) mem' (b_pos b) k (rl_state r, r)) as [e He].
  rewrite He. destruct e as [q [st r1]|q [r1|rc r1]].
  - change (NGX_AGAIN =? NGX_AGAIN) with true. cbn iota.
    rewrite request_line_bytes by done.
    unfold parse_request_line. cbn [b_pos b_last].
    pose proof (loop_map _ _ _ mem q (b_last b) (st, r1) (fun q c => rl_step_set_state mem st q c))
      as Hmap.
    cbn [fst snd] in Hmap. change (rl_state (set_rl_state st r1)) with st. rewrite Hmap.
    destruct (loop_total (@rl_step strcmp_bytes) mem q (b_last b) (st, r1)) as [e' He'].
    rewrite He'. destruct e' as [q' [st' r2]|q' [r2|rc r2]]; cbn.
    + do 2 eexists. split_and!; [done|done|]. by destruct r2.
    + rewrite rl_done_set_state. destruct (rl_done q' r2).
      do 2 eexists. by split_and!.
    + do 2 eexists. split_and!; [done|done|].
      apply rl_return_codes in He'. unfold same_outcome.
      split_and!; [done|by destruct r2|]. by destruct He' as [-> | ->].
  - destruct (rl_done q r1) as [rc r2] eqn:E.
    assert ((rc =? NGX_AGAIN) = false) as ->.
    { pose proof (rl_done_codes q r1) as Hc. rewrite E in Hc. cbn in Hc. unfold NGX_OK, NGX_AGAIN in *. lia. }
    do 2 eexists. by split_and!.
  - pose proof (rl_return_codes _ _ _ _ _ _ _ He) as Hc.
    assert ((rc =? NGX_AGAIN) = false) as ->.
    { unfold NGX_HTTP_PARSE_INVALID_METHOD, NGX_HTTP_PARSE_INVALID_REQUEST, NGX_AGAIN in *. lia. }
    do 2 eexists. split_and!; [done|done|]. unfold same_outcome.
    split_and!; [done|done|]. by destruct Hc as [-> | ->].
Qed.

Lemma rl_inv_set_state lo p st x r : rl_inv lo p (st, set_rl_state x r) <-> rl_inv lo p (st, r).
Proof. by destruct r. Qed.

(** What the loop leaves behind, given the invariant before it. *)
Definition rl_exit_ok (lo p : Z) (e : rl_exit) : Prop :=
  match e with
  | Done r => rl_result lo (p + 1) (snd (rl_done p r))
  | Return rc _ => rc = NGX_HTTP_PARSE_INVALID_METHOD \/ rc = NGX_HTTP_PARSE_INVALID_REQUEST
  end.

Lemma rl_inv_leave lo mem p c s e :
  rl_inv lo p s -> @rl_step strcmp_bytes mem p c s = Leave e -> rl_exit_ok lo p e.
Proof.
  intros HI Hs. destruct e as [r|rc r]; [by eapply rl_inv_done|].
  destruct s as [st r1]. destruct st; rl_cases Hs; cbn; auto.
Qed.

Lemma rl_loop_inv lo mem p last s e :
  p <= last -> rl_inv lo p s -> loop (@rl_step strcmp_bytes) mem p last s = Some e ->
  match e with
  | Exhausted q t => q = last /\ rl_inv lo q t
  | Left q x => p <= q < last /\ rl_exit_ok lo q x
  end.
Proof.
  apply loop_inv; intros.
  - by eapply rl_inv_break.
  - by eapply rl_inv_redo.
  - by eapply rl_inv_leave.
Qed.

(** The invariant of the loop, for the whole function. *)
Lemma request_line_inv lo mem r b rc r' b' :
  Forall is_byte mem -> b_pos b <= b_last b -> rl_inv lo (b_pos b) (rl_state r, r) ->
  parse_request_line mem r b = Some (rc, r', b') ->
  (rc = NGX_OK -> rl_result lo (b_pos b') r' /\ b_pos b < b_pos b' <= b_last b) /\
  (rc = NGX_AGAIN -> rl_inv lo (b_pos b') (rl_state r', r') /\ b_pos b' = b_last b).
Proof.
  intros Hm Hb HI. rewrite request_line_bytes by done. unfold parse_request_line.
  destruct (loop_total (@rl_step strcmp_bytes) mem (b_pos b) (b_last b) (rl_state r, r))
    as [e He].
  rewrite He. pose proof (rl_loop_inv lo _ _ _ _ _ Hb HI He) as H.
  destruct e as [q [st r1]|q [r1|rc1 r1]]; cbn in H.
  - intros [= <- <- <-]. destruct H as [-> H]. by rewrite rl_inv_set_state.
  - pose proof (rl_done_codes q r1) as Hc.
    destruct (rl_done q r1) as [rc1 r2]. intros [= <- <- <-]. cbn in *.
    split; intros ->; [split; [tauto|lia]|]. unfold NGX_OK, NGX_AGAIN in Hc. lia.
  - intros [= <- <- <-]. unfold NGX_HTTP_PARSE_INVALID_METHOD, NGX_HTTP_PARSE_INVALID_REQUEST,
      NGX_OK, NGX_AGAIN in *. lia.
Qed.

(** When the parser returns [NGX_OK] the request starts inside the buffer
    and its parts are in order and inside what was read, so every length that
    [ngx_http_process_request_line] and [ngx_http_process_request_uri] compute
    from them is non-negative; when it returns [NGX_AGAIN] the promise is kept
    for the parse that resumes it. *)
Theorem parse_request_line_pointers lo mem r b rc r' b' :
  Forall is_byte mem -> b_pos b <= b_last b -> rl_inv lo (b_pos b) (rl_state r, r) ->
  parse_request_line mem r b = Some (rc, r', b') ->
  (rc = NGX_OK -> rl_result lo (b_pos b') r' /\ b_pos b < b_pos b' <= b_last b) /\
  (rc = NGX_AGAIN -> rl_inv lo (b_pos b') (rl_state r', r') /\ b_pos b' = b_last b).
Proof. apply request_line_inv. Qed.

(** The methods [ngx_http_parse_request_line] knows, by name. *)
Definition method_table : list (list Z * Z) :=
  [ (bytes "GET", NGX_HTTP_GET); (bytes "PUT", NGX_HTTP_PUT);
    (bytes "POST", NGX_HTTP_POST); (bytes "COPY", NGX_HTTP_COPY);
    (bytes "MOVE", NGX_HTTP_MOVE); (bytes "LOCK", NGX_HTTP_LOCK);
    (bytes "HEAD", NGX_HTTP_HEAD); (bytes "MKCOL", NGX_HTTP_MKCOL);
    (bytes "PATCH", NGX_HTTP_PATCH); (bytes "TRACE", NGX_HTTP_TRACE);
    (bytes "DELETE", NGX_HTTP_DELETE); (bytes "UNLOCK", NGX_HTTP_UNLOCK);
    (bytes "OPTIONS", NGX_HTTP_OPTIONS); (bytes "PROPFIND", NGX_HTTP_PROPFIND);
    (bytes "PROPPATCH", NGX_HTTP_PROPPATCH) ].

Fixpoint lookup_method (t : list (list Z * Z)) (name : list Z) : option Z :=
  match t with
  | [] => None
  | (n, v) :: t' => if bytes_eqb name n then Some v else lookup_method t' name
  end.

Lemma slice_unfold mem m k :
  0 <= m -> m + Z.of_nat k <= Z.of_nat (length mem) ->
  slice mem m (m + Z.of_nat k) = map (fun i => byte_at mem (m + Z.of_nat i)) (seq 0 k).
Proof.
  intros Hm. induction k as [|k IH]; intros Hk.
  - rewrite slice_nil by lia. done.
  - rewrite Nat2Z.inj_succ, <-Z.add_1_r, Z.add_assoc, slice_snoc, IH by lia.
    rewrite seq_S, map_app. done.
Qed.

Lemma method_of_lookup mem m p :
  Forall is_byte mem -> 0 <= m -> m <= p < Z.of_nat (length mem) -> byte_at mem p = 32 ->
  method_of mem m p = lookup_method method_table (slice mem m p).
Proof.
  intros Hm H0 Hp Hsp. rewrite method_of_builds by done. unfold method_of.
  cbn [str3_cmp str3Ocmp str4cmp str5cmp str6cmp str7_cmp str8cmp str9cmp strcmp_bytes].
  assert (Hlen := length_slice mem m p ltac:(lia) ltac:(lia)).
  assert (Hk : forall k, p - m = Z.of_nat k ->
    slice mem m p = map (fun i => byte_at mem (m + Z.of_nat i)) (seq 0 k)).
  { intros k Hpm. rewrite <-slice_unfold by lia. f_equal; lia. }
  unfold at_is.
  let t := eval vm_compute in method_table in change method_table with t.
  unfold NGX_HTTP_GET, NGX_HTTP_PUT, NGX_HTTP_POST, NGX_HTTP_COPY, NGX_HTTP_MOVE,
    NGX_HTTP_LOCK, NGX_HTTP_HEAD, NGX_HTTP_MKCOL, NGX_HTTP_PATCH, NGX_HTTP_TRACE,
    NGX_HTTP_DELETE, NGX_HTTP_UNLOCK, NGX_HTTP_OPTIONS, NGX_HTTP_PROPFIND,
    NGX_HTTP_PROPPATCH.
  repeat match goal with
  | |- (if p - m =? Z.pos ?k then _ else _) = _ =>
      destruct (p - m =? Z.pos k) eqn:?;
      [ let n := eval vm_compute in (Pos.to_nat k) in
        let l := eval cbv [map seq Z.of_nat Pos.of_succ_nat Pos.succ] in
          (map (fun i => byte_at mem (m + Z.of_nat i)) (seq 0 n)) in
        assert (slice mem m p = l) as -> by (rewrite (Hk n) by lia; reflexivity);
        cbn [lookup_method bytes_eqb];
        rewrite ?andb_false_r, ?andb_true_r, ?andb_assoc | ]
  end.
  all: try reflexivity.
  - destruct (byte_at mem (m + 1) =? 79) eqn:HO.
    + assert ((byte_at mem (m + 1) =? 69) = false) as -> by lia.
      by rewrite ?andb_true_r, ?andb_false_r.
    + by rewrite ?andb_false_r.
  - symmetry. cbn [lookup_method].
    rewrite !bytes_eqb_length; [done|cbn; lia..].
Qed.

(** The nested comparisons of the method recognise a name exactly when the
    bytes between the start of the request and the space are that name, for
    the fifteen methods of [ngx_http_request.h]. *)
Theorem method_of_table mem m p :
  Forall is_byte mem -> 0 <= m -> m <= p < Z.of_nat (length mem) -> byte_at mem p = 32 ->
  method_of mem m p = lookup_method method_table (slice mem m p).
Proof. apply method_of_lookup. Qed.

(** ** Acceptance of well-formed request lines *)

Definition method_char (c : Z) : Prop := 65 <= c <= 90 \/ c = 95.
Definition uri_char (c : Z) : Prop := is_byte c /\ c <> 0 /\ c <> 10 /\ c <> 13 /\ c <> 32.

Definition uri_state (st : rl_st) : Prop :=
  st = sw_after_slash_in_uri \/ st = sw_check_uri \/ st = sw_uri.

(** What reading a URI character leaves alone. *)
Definition uri_frame (r r' : request) : Prop :=
  method r' = method r /\ request_start r' = request_start r
  /\ method_end r' = method_end r /\ uri_start r' = uri_start r
  /\ request_end r' = request_end r /\ http_protocol r' = http_protocol r
  /\ http_major r' = http_major r /\ space_in_uri r' = space_in_uri r
  /\ rl_state r' = rl_state r.

Lemma uri_frame_refl r : uri_frame r r.
Proof. done. Qed.

Lemma uri_frame_trans r1 r2 r3 : uri_frame r1 r2 -> uri_frame r2 r3 -> uri_frame r1 r3.
Proof. unfold uri_frame. intros. destruct_and!. split_and!; congruence. Qed.

Lemma uri_char_step mem p c st r :
  uri_state st -> uri_char c ->
  exists st' r', @rl_step strcmp_bytes mem p c (st, r) = Break (st', r')
    /\ uri_state st' /\ uri_frame r r'.
Proof.
  unfold uri_state, uri_char. intros Hst Hc. destruct_and!.
  destruct Hst as [-> | [-> | ->]]; autounfold with rl;
    repeat match goal with
    | |- context [if ?b then _ else _] => destruct b eqn:?; [try lia; eauto 10 using uri_frame_refl|]
    end; try (do 2 eexists; split_and!; [reflexivity|eauto|done]).
Qed.

Lemma loop_method mem last r n : forall p,
  p + Z.of_nat n <= last ->
  (forall i, p <= i < p + Z.of_nat n -> method_char (byte_at mem i)) ->
  loop (@rl_step strcmp_bytes) mem p last (sw_method, r)
  = loop (@rl_step strcmp_bytes) mem (p + Z.of_nat n) last (sw_method, r).
Proof.
  induction n as [|n IH]; intros p Hp Hc; [by rewrite Z.add_0_r|].
  rewrite (loop_break _ _ _ _ _ (sw_method, r)).
  - rewrite IH; [f_equal; lia|lia|]. intros i Hi. apply Hc. lia.
  - lia.
  - specialize (Hc p ltac:(lia)). unfold method_char in Hc.
    cbn [rl_step]. unfold on_method, bad_method_char. case_ifs; try lia. done.
Qed.

Lemma loop_uri mem last n : forall p st r,
  p + Z.of_nat n <= last -> uri_state st ->
  (forall i, p <= i < p + Z.of_nat n -> uri_char (byte_at mem i)) ->
  exists st' r',
    loop (@rl_step strcmp_bytes) mem p last (st, r)
    = loop (@rl_step strcmp_bytes) mem (p + Z.of_nat n) last (st', r')
    /\ uri_state st' /\ uri_frame r r'.
Proof.
  induction n as [|n IH]; intros p st r Hp Hst Hc.
  - exists st, r. rewrite Z.add_0_r. auto using uri_frame_refl.
  - destruct (uri_char_step mem p (byte_at mem p) st r) as (st1 & r1 & E & Hst1 & Hf1);
      [done|apply Hc; lia|].
    erewrite (loop_break (@rl_step strcmp_bytes)); [|lia|exact E].
    destruct (IH (p + 1) st1 r1) as (st2 & r2 & E2 & Hst2 & Hf2); [lia|done| |].
    { intros i Hi. apply Hc. lia. }
    exists st2, r2. rewrite E2. replace (p + 1 + Z.of_nat n) with (p + Z.of_nat (S n)) by lia.
    eauto using uri_frame_trans.
Qed.

(** Executes one iteration of the loop on a byte known from [H]. *)
Ltac rl_go H :=
  erewrite (loop_break (@rl_step strcmp_bytes)); [|lia|rewrite H; reflexivity].

(** " HTTP/a.b" CR LF after the URI. *)
Lemma loop_version mem last p st r maj min :
  uri_state st -> p + 11 = last -> 49 <= maj <= 57 -> 48 <= min <= 57 ->
  slice mem p last = bytes " HTTP/" ++ [maj; 46; min; 13; 10] ->
  0 <= p -> last <= Z.of_nat (length mem) ->
  loop (@rl_step strcmp_bytes) mem p last (st, r)
  = Some (Left (p + 10) (Done
      (set_request_end (Some (p + 9)) (set_http_minor (u16 (min - 48))
        (set_http_major (u16 (maj - 48)) (set_http_protocol (Some (p + 1))
          (set_uri_end (Some p) r))))))).
Proof.
  intros Hst Hl Hmaj Hmin Hs Hp Hlen.
  assert (Hb : forall k, 0 <= k < 11 -> byte_at mem (p + k)
    = byte_at (bytes " HTTP/" ++ [maj; 46; min; 13; 10]) k).
  { intros k Hk. rewrite <-Hs, byte_at_slice; [done|lia|lia]. }
  assert (B0 : byte_at mem p = 32) by (rewrite <-(Z.add_0_r p); apply (Hb 0); lia).
  assert (exists st', loop (@rl_step strcmp_bytes) mem p last (st, r)
    = loop (@rl_step strcmp_bytes) mem (p + 1) last (st', set_uri_end (Some p) r)
      /\ (st' = sw_check_uri_http_09 \/ st' = sw_http_09)) as (st' & -> & Hst').
  { destruct Hst as [-> | [-> | ->]]; eexists; (split; [rl_go B0; reflexivity|auto]). }
  assert (B1 : byte_at mem (p + 1) = 72) by (rewrite Hb by lia; reflexivity).
  assert (B2 : byte_at mem (p + 2) = 84) by (rewrite Hb by lia; reflexivity).
  assert (B3 : byte_at mem (p + 3) = 84) by (rewrite Hb by lia; reflexivity).
  assert (B4 : byte_at mem (p + 4) = 80) by (rewrite Hb by lia; reflexivity).
  assert (B5 : byte_at mem (p + 5) = 47) by (rewrite Hb by lia; reflexivity).
  assert (B6 : byte_at mem (p + 6) = maj) by (rewrite Hb by lia; reflexivity).
  assert (B7 : byte_at mem (p + 7) = 46) by (rewrite Hb by lia; reflexivity).
  assert (B8 : byte_at mem (p + 8) = min) by (rewrite Hb by lia; reflexivity).
  assert (B9 : byte_at mem (p + 9) = 13) by (rewrite Hb by lia; reflexivity).
  assert (B10 : byte_at mem (p + 10) = 10) by (rewrite Hb by lia; reflexivity).
  assert (forall r0, loop (@rl_step strcmp_bytes) mem (p + 1) last (st', r0)
    = loop (@rl_step strcmp_bytes) mem (p + 2) last (sw_http_H, set_http_protocol (Some (p + 1)) r0))
    as ->.
  { intros r0. replace (p + 2) with (p + 1 + 1) by lia.
    destruct Hst' as [-> | ->]; rl_go B1; reflexivity. }
  rl_go B2. replace (p + 2 + 1) with (p + 3) by lia.
  rl_go B3. replace (p + 3 + 1) with (p + 4) by lia.
  rl_go B4. replace (p + 4 + 1) with (p + 5) by lia.
  rl_go B5. replace (p + 5 + 1) with (p + 6) by lia.
  erewrite (loop_break (@rl_step strcmp_bytes)); [|lia|].
  2:{ rewrite B6. cbn [rl_step]. unfold on_first_major_digit. case_ifs; [lia|reflexivity]. }
  replace (p + 6 + 1) with (p + 7) by lia.
  rl_go B7. replace (p + 7 + 1) with (p + 8) by lia.
  erewrite (loop_break (@rl_step strcmp_bytes)); [|lia|].
  2:{ rewrite B8. cbn [rl_step]. unfold on_first_minor_digit. case_ifs; [lia|reflexivity]. }
  replace (p + 8 + 1) with (p + 9) by lia.
  rl_go B9. replace (p + 9 + 1) with (p + 10) by lia.
  erewrite (loop_leave (@rl_step strcmp_bytes)); [|lia|rewrite B10; reflexivity].
  replace (p + 10 - 1) with (p + 9) by lia. done.
Qed.

(** A request line: method, "/" and the rest of the URI, version digits. *)
Definition line_of (m u : list Z) (maj min : Z) : list Z :=
  m ++ 32 :: 47 :: u ++ bytes " HTTP/" ++ [maj; 46; min; 13; 10].

Lemma line_of_bytes m u maj min :
  Forall method_char m -> Forall uri_char u -> 49 <= maj <= 57 -> 48 <= min <= 57 ->
  Forall is_byte (line_of m u maj min).
Proof.
  intros Hm Hu Ha Hi. unfold line_of.
  apply Forall_app; split; [|do 2 (constructor; [solve_is_byte|]); apply Forall_app; split].
  - eapply Forall_impl; [exact Hm|]. unfold method_char. solve_is_byte.
  - eapply Forall_impl; [exact Hu|]. by intros ? [? _].
  - repeat constructor; solve_is_byte.
Qed.

Lemma length_line_of m u maj min :
  Z.of_nat (length (line_of m u maj min)) = Z.of_nat (length m) + Z.of_nat (length u) + 13.
Proof. unfold line_of. rewrite !length_app. cbn. rewrite !length_app. cbn. lia. Qed.

Lemma byte_at_lookup (P : Z -> Prop) l i :
  Forall P l -> 0 <= i < Z.of_nat (length l) -> P (byte_at l i).
Proof.
  intros HP Hi. rewrite Forall_lookup in HP. apply (HP (Z.to_nat i)).
  pose proof (rd_Some l i Hi) as H. unfold rd in H. by destruct (i <? 0) eqn:?; [lia|].
Qed.

(** The loop on a well-formed line, up to its [goto done]. *)
Lemma loop_line m u maj min :
  m <> [] -> Forall method_char m -> Forall uri_char u -> 49 <= maj <= 57 -> 48 <= min <= 57 ->
  let line := line_of m u maj min in
  let p := Z.of_nat (length m) in
  let q := p + 2 + Z.of_nat (length u) in
  exists r1,
    loop (@rl_step strcmp_bytes) line 0 (q + 11) (sw_start, create_request)
    = Some (Left (q + 10) (Done
        (set_request_end (Some (q + 9)) (set_http_minor (u16 (min - 48))
          (set_http_major (u16 (maj - 48)) (set_http_protocol (Some (q + 1))
            (set_uri_end (Some q) r1)))))))
    /\ uri_frame (set_uri_start (Some (p + 1))
         (set_method (default NGX_HTTP_UNKNOWN (@method_of strcmp_bytes line 0 p))
           (set_method_end (Some (p - 1)) (set_request_start (Some 0) create_request)))) r1.
Proof.
  intros Hne Hm Hu Hmaj Hmin line p q.
  assert (Hlen : Z.of_nat (length line) = q + 11)
    by (unfold line; rewrite length_line_of; lia).
  assert (Hpos : 0 < p) by (destruct m; [done|cbn in *; lia]).
  assert (Bm : forall i, 0 <= i < p -> method_char (byte_at line i)).
  { intros i Hi. unfold line, line_of. rewrite byte_at_app_l by lia. by apply byte_at_lookup. }
  assert (Bp : byte_at line p = 32) by (by apply byte_at_middle).
  assert (Bs : byte_at line (p + 1) = 47).
  { unfold line, line_of. rewrite byte_at_app_r by lia.
    replace (p + 1 - Z.of_nat (length m)) with 1 by lia. done. }
  assert (Bu : forall i, p + 2 <= i < p + 2 + Z.of_nat (length u) -> uri_char (byte_at line i)).
  { intros i Hi. unfold line, line_of. rewrite byte_at_app_r by lia.
    change (32 :: 47 :: ?x) with ([32; 47] ++ x).
    rewrite byte_at_app_r by (cbn; lia). rewrite byte_at_app_l by (cbn; lia).
    apply byte_at_lookup; [done|cbn; lia]. }
  assert (Bv : slice line q (q + 11) = bytes " HTTP/" ++ [maj; 46; min; 13; 10]).
  { unfold line, line_of. change (32 :: 47 :: ?x) with ([32; 47] ++ x).
    rewrite !app_assoc, <-app_assoc, slice_app_r.
    - rewrite take_ge; [done|cbn; lia].
    - rewrite !length_app. cbn. lia. }
  rewrite (loop_break (@rl_step strcmp_bytes) _ _ _ _
    (sw_method, set_request_start (Some 0) create_request)); [|lia|].
  2:{ specialize (Bm 0 ltac:(lia)). unfold method_char in Bm. cbn [rl_step].
      unfold on_start, bad_method_char. case_ifs; try lia. done. }
  rewrite (loop_method _ _ _ (Z.to_nat (p - 1)) (0 + 1)) by (lia || (intros; apply Bm; lia)).
  replace (0 + 1 + Z.of_nat (Z.to_nat (p - 1))) with p by lia.
  erewrite (loop_break (@rl_step strcmp_bytes)); [|lia|rewrite Bp; reflexivity].
  cbn [request_start set_method_end set_request_start].
  erewrite (loop_break (@rl_step strcmp_bytes)); [|lia|rewrite Bs; reflexivity].
  match goal with |- context [loop _ _ _ _ (sw_after_slash_in_uri, ?r)] =>
    destruct (loop_uri line (q + 11) (length u) (p + 1 + 1) sw_after_slash_in_uri r)
      as (st & r1 & -> & Hst & Hf) end; [lia|by left|intros; apply Bu; lia|].
  exists r1. replace (p + 1 + 1 + Z.of_nat (length u)) with q by lia.
  split.
  - by apply loop_version; try lia.
  - by destruct (method_of line 0 p).
Qed.

(** C23: every line made of a method name, a URI that begins with "/" and holds
    no NUL, CR, LF or space, and a one-digit version, is accepted; the parser
    delimits its parts exactly and recognises the method and the version. *)
Theorem parse_request_line_accepts m u maj min :
  m <> [] -> Forall method_char m -> Forall uri_char u -> 49 <= maj <= 57 -> 48 <= min <= 57 ->
  let line := line_of m u maj min in
  let len := Z.of_nat (length line) in
  exists r, parse_request_line line create_request (mk_buf 0 len)
      = Some (NGX_OK, r, mk_buf len len)
    /\ slice line (pv (request_start r)) (pv (method_end r) + 1) = m
    /\ slice line (pv (uri_start r)) (pv (uri_end r)) = 47 :: u
    /\ slice line (pv (http_protocol r)) (pv (request_end r))
       = bytes "HTTP/" ++ [maj; 46; min]
    /\ method r = default NGX_HTTP_UNKNOWN (lookup_method method_table m)
    /\ http_version r = 1000 * (maj - 48) + (min - 48)
    /\ rl_state r = sw_start /\ space_in_uri r = false.
Proof.
  intros Hne Hm Hu Hmaj Hmin line len.
  pose proof (line_of_bytes m u maj min Hm Hu Hmaj Hmin) as Hb.
  assert (Hlen : len = Z.of_nat (length m) + Z.of_nat (length u) + 13)
    by apply length_line_of.
  destruct (loop_line m u maj min Hne Hm Hu Hmaj Hmin) as (r1 & E & Hf). cbn zeta in E, Hf.
  remember (default NGX_HTTP_UNKNOWN (lookup_method method_table m)) as want eqn:Hwant.
  rewrite request_line_bytes by done. unfold parse_request_line. cbn [b_pos b_last].
  replace (Z.of_nat (length m) + 2 + Z.of_nat (length u) + 11) with len in E by lia.
  change (rl_state create_request) with sw_start. unfold line. rewrite E.
  unfold rl_done. cbn [request_end set_request_end]. cbn zeta.
  unfold uri_frame in Hf. cbn in Hf. destruct_and!.
  cbn [http_version set_rl_state set_http_version http_major http_minor
       set_http_minor set_http_major set_request_end].
  unfold u16. rewrite !Z.mod_small by lia.
  assert (((maj - 48) * 1000 + (min - 48) =? 9) = false) as -> by lia. cbn [andb].
  eexists. split; [do 3 f_equal; lia|]. cbn.
  repeat match goal with H : _ r1 = _ |- _ => rewrite H; clear H end. cbn [pv].
  assert (Hmem : line = m ++ [32] ++ (47 :: u) ++ [32] ++ (bytes "HTTP/" ++ [maj; 46; min]) ++ [13; 10]).
  { reflexivity. }
  fold line. rewrite Hmem. split_and!; try done; try lia.
  - apply (slice_mid [] m); cbn; lia.
  - rewrite app_assoc. apply slice_mid; rewrite ?length_app; cbn; lia.
  - rewrite (app_assoc m), (app_assoc _ (47 :: u)), (app_assoc _ [32]).
    apply slice_mid; rewrite ?length_app; cbn; lia.
  - subst want. rewrite <-method_of_builds; [|done|by apply byte_at_middle].
    rewrite method_of_lookup; [|done|lia| |by apply byte_at_middle].
    + do 2 f_equal. apply (slice_mid [] m); cbn; lia.
    + rewrite length_app. cbn. lia.
Qed.

(** ** Witnesses *)

Definition sample_line : list Z := bytes "GET /a/b.html?q=1 HTTP/1.1" ++ [13; 10].

Lemma parse_request_line_builds_witness :
  @parse_request_line strcmp_words sample_line create_request (mk_buf 0 28)
  = @parse_request_line strcmp_bytes sample_line create_request (mk_buf 0 28).
Proof. apply parse_request_line_builds, bytes_ok_spec. vm_compute. reflexivity. Defined.

Lemma parse_request_line_total_witness :
  exists rc r' b', parse_request_line sample_line create_request (mk_buf 0 28) = Some (rc, r', b').
Proof. apply parse_request_line_total, bytes_ok_spec. vm_compute. reflexivity. Defined.

(** Cut after "GET /a/b": the rest of the memory is not there yet. *)
Lemma parse_request_line_resume_witness :
  exists x y, parse_request_line sample_line create_request (mk_buf 0 28) = Some x
    /\ parse_in_two (take 8 sample_line) sample_line create_request (mk_buf 0 28) 8 = Some y
    /\ same_outcome x y.
Proof.
  apply parse_request_line_resume.
  - apply bytes_ok_spec. vm_compute. reflexivity.
  - apply bytes_ok_spec. vm_compute. reflexivity.
  - cbn. lia.
  - intros i Hi. rewrite <-(take_drop 8 sample_line) at 1. apply byte_at_app_l.
    change (i < 8). exact Hi.
Defined.

Lemma parse_request_line_pointers_witness :
  exists r' b', parse_request_line sample_line create_request (mk_buf 0 28) = Some (NGX_OK, r', b')
    /\ rl_result 0 (b_pos b') r' /\ 0 < b_pos b' <= 28.
Proof.
  do 2 eexists. split; [vm_compute; reflexivity|].
  apply (parse_request_line_pointers 0 sample_line create_request (mk_buf 0 28) NGX_OK).
  - apply bytes_ok_spec. vm_compute. reflexivity.
  - cbn. lia.
  - cbn. unfold no_uri, no_host. cbn. split; [reflexivity|lia].
  - vm_compute. reflexivity.
  - reflexivity.
Defined.

Lemma method_of_table_witness :
  method_of (bytes "PROPFIND /x") 0 8
  = lookup_method method_table (slice (bytes "PROPFIND /x") 0 8).
Proof.
  apply method_of_table; [apply bytes_ok_spec; vm_compute; reflexivity|lia|cbn; lia|].
  vm_compute. reflexivity.
Defined.

Lemma parse_request_line_accepts_witness :
  exists r, parse_request_line (line_of (bytes "PUT") (bytes "x/y") 49 49) create_request
      (mk_buf 0 19) = Some (NGX_OK, r, mk_buf 19 19)
    /\ method r = NGX_HTTP_PUT /\ http_version r = 1001.
Proof.
  destruct (parse_request_line_accepts (bytes "PUT") (bytes "x/y") 49 49)
    as (r & H & _ & _ & _ & Hm & Hv & _).
  - discriminate.
  - unfold method_char. repeat constructor; cbn; lia.
  - unfold uri_char, is_byte. repeat constructor; cbn; lia.
  - lia.
  - lia.
  - exists r. split; [exact H|]. split; [rewrite Hm; reflexivity|rewrite Hv; reflexivity].
Defined.

(** The version numbers are bit fields of 16 bits and their digits are not
    bounded: "HTTP/65537.1" is accepted as HTTP/1.1. *)
Example http_major_wraps :
  exists r b, parse_request_line (bytes "GET / HTTP/65537.1" ++ [13; 10]) create_request (mk_buf 0 20)
      = Some (NGX_OK, r, b) /\ http_version r = 1001.
Proof. do 2 eexists. split; vm_compute; reflexivity. Qed.
