(* ===== verification/RequestPath.v ===== *)
(** * The path of a request line

    What [ngx_http_parse_request_line] knows of the bytes of the URI when it
    returns [NGX_OK]: if neither [r->complex_uri] nor [r->quoted_uri] is set,
    the path needs no decoding and no normalisation.  [ComplexUri] uses this
    for the requests that skip [ngx_http_parse_complex_uri]. *)

From S2P Require Import Prelude Fsm RequestLine.

(** ** Clean paths *)

(** The byte at [i] of a path that starts at [us]: not NUL, "#", "%" or "?",
    and after a "/" neither "/" nor ".". *)
Definition clean_at (mem : list Z) (us i : Z) : Prop :=
  let c := byte_at mem i in
  c <> 0 /\ c <> #"#" /\ c <> #"%" /\ c <> #"?" /\
  (us < i -> byte_at mem (i - 1) = #"/" -> c <> #"/" /\ c <> #".").

Definition clean (mem : list Z) (us e : Z) : Prop :=
  us < e /\ byte_at mem us = #"/" /\ (forall i, us <= i < e -> clean_at mem us i).

(** The extension: the address after the last "." of the last segment of the
    first [n] bytes of the path. *)
Fixpoint ext_of (mem : list Z) (us : Z) (n : nat) : option Z :=
  match n with
  | O => None
  | S n' =>
      let c := byte_at mem (us + Z.of_nat n') in
      if c =? #"/" then None
      else if c =? #"." then Some (us + Z.of_nat n' + 1)
      else ext_of mem us n'
  end.

Definition ext_at (mem : list Z) (us e : Z) : option Z := ext_of mem us (Z.to_nat (e - us)).

Lemma ext_at_snoc mem us e :
  us <= e ->
  ext_at mem us (e + 1) =
    if byte_at mem e =? #"/" then None
    else if byte_at mem e =? #"." then Some (e + 1)
    else ext_at mem us e.
Proof.
  intros H. unfold ext_at. replace (Z.to_nat (e + 1 - us)) with (S (Z.to_nat (e - us))) by lia.
  cbn [ext_of]. replace (us + Z.of_nat (Z.to_nat (e - us))) with e by lia. done.
Qed.

Lemma clean_first mem us : byte_at mem us = #"/" -> clean mem us (us + 1).
Proof.
  intros H. split_and!; [lia|done|]. intros i Hi. replace i with us by lia.
  unfold clean_at. rewrite H. split_and!; lia.
Qed.

Lemma clean_snoc mem us e :
  clean mem us e -> clean_at mem us e -> clean mem us (e + 1).
Proof.
  intros (H1 & H2 & H3) H. split_and!; [lia|done|]. intros i Hi.
  destruct (Z.eq_dec i e) as [->|]; [done|]. apply H3. lia.
Qed.

Lemma clean_prefix mem us e e' : us < e' <= e -> clean mem us e -> clean mem us e'.
Proof. intros He (H1 & H2 & H3). split_and!; [lia|done|]. intros i Hi. apply H3. lia. Qed.

Lemma ext_at_first mem us : byte_at mem us = #"/" -> ext_at mem us (us + 1) = None.
Proof. intros H. rewrite ext_at_snoc by lia. by rewrite H. Qed.

(** ** The invariant of the loop *)

Definition no_flags (r : request) : Prop := complex_uri r = false /\ quoted_uri r = false.

(** Nothing of the URI has been recorded. *)
Definition fresh (r : request) : Prop :=
  no_flags r /\ args_start r = None /\ uri_ext r = None.

(** The path up to [e] is clean and [uri_ext] is its extension. *)
Definition plain (mem : list Z) (e : Z) (r : request) : Prop :=
  clean mem (pv (uri_start r)) e /\ uri_ext r = ext_at mem (pv (uri_start r)) e.

(** The URI needs the slow path, or a clean path was ended by "?". *)
Definition queried (mem : list Z) (r : request) : Prop :=
  complex_uri r = true \/ quoted_uri r = true \/
  (args_start r <> None /\ plain mem (pv (args_start r) - 1) r).

Definition args_ok (mem : list Z) (r : request) : Prop :=
  byte_at mem (pv (uri_start r)) = #"/" /\
  (args_start r = None \/ byte_at mem (pv (args_start r) - 1) = #"?").

(** What is known once the URI has ended. *)
Definition path_done (mem : list Z) (r : request) : Prop :=
  args_ok mem r /\
  (queried mem r \/ (args_start r = None /\ plain mem (pv (uri_end r)) r)).

Definition slash_after_colon (mem : list Z) (r : request) : Prop :=
  fresh r /\ schema_end r <> None /\ byte_at mem (pv (schema_end r) + 1) = #"/".

(** Reading the path with no reason yet for the slow path. *)
Definition on_path (mem : list Z) (p : Z) (r : request) : Prop :=
  no_flags r /\ args_start r = None /\ plain mem p r.

Definition path_inv (mem : list Z) (p : Z) (s : rl_st * request) : Prop :=
  let (st, r) := s in
  match st with
  | sw_start | sw_method | sw_spaces_before_uri | sw_schema => fresh r
  | sw_schema_slash => fresh r /\ schema_end r = Some (p - 1)
  | sw_schema_slash_slash | sw_host_start | sw_host | sw_host_end | sw_host_ip_literal
  | sw_port => slash_after_colon mem r
  | sw_after_slash_in_uri => on_path mem p r
  | sw_check_uri => on_path mem p r /\ byte_at mem (p - 1) <> #"/"
  | sw_check_uri_http_09 =>
      on_path mem p r /\ byte_at mem (p - 1) <> #"/" /\ pv (uri_start r) < pv (uri_end r) <= p
      /\ uri_ext r = ext_at mem (pv (uri_start r)) (pv (uri_end r))
  | sw_uri | sw_http_09 => args_ok mem r /\ queried mem r
  | _ => path_done mem r
  end.

Lemma plain_snoc mem p r r' :
  plain mem p r -> clean_at mem (pv (uri_start r)) p ->
  uri_start r' = uri_start r ->
  uri_ext r' = (if byte_at mem p =? #"/" then None
                else if byte_at mem p =? #"." then Some (p + 1) else uri_ext r) ->
  plain mem (p + 1) r'.
Proof.
  intros [Hc He] Ha Hu Hx. split; rewrite Hu.
  - by apply clean_snoc.
  - rewrite Hx, ext_at_snoc, He by (destruct Hc; lia). done.
Qed.

Lemma plain_first mem p r :
  byte_at mem p = #"/" -> uri_start r = Some p -> uri_ext r = None -> plain mem (p + 1) r.
Proof.
  intros Hb Hu Hx. split; rewrite Hu; cbn [pv].
  - by apply clean_first.
  - by rewrite Hx, ext_at_first.
Qed.

Lemma usual_not_special c :
  is_byte c -> usual_bit c = true ->
  c <> 0 /\ c <> #"#" /\ c <> #"%" /\ c <> #"?" /\ c <> #"/" /\ c <> #".".
Proof. intros H. rewrite usual_bit_spec by done. cbn [existsb]. rewrite negb_true_iff. lia. Qed.

(** *** How the invariant moves along the path *)

Lemma on_path_start mem p r r' :
  byte_at mem p = #"/" -> fresh r -> no_flags r' -> args_start r' = args_start r ->
  uri_ext r' = uri_ext r -> uri_start r' = Some p -> on_path mem (p + 1) r'.
Proof.
  intros Hb (Hf & Ha & Hx) Hf' Ha' Hx' Hu. split_and!; [done|congruence|].
  apply plain_first; congruence.
Qed.

Lemma on_path_snoc mem p r r' :
  on_path mem p r -> clean_at mem (pv (uri_start r)) p ->
  uri_start r' = uri_start r -> args_start r' = args_start r -> no_flags r' ->
  uri_ext r' = (if byte_at mem p =? #"/" then None
                else if byte_at mem p =? #"." then Some (p + 1) else uri_ext r) ->
  on_path mem (p + 1) r'.
Proof.
  intros (Hf & Ha & Hp) Hc Hu Ha' Hf' Hx. split_and!; [done|congruence|].
  by eapply plain_snoc.
Qed.

Lemma on_path_args mem p r :
  on_path mem p r -> byte_at mem p = #"?" ->
  args_ok mem (set_args_start (Some (p + 1)) r) /\ queried mem (set_args_start (Some (p + 1)) r).
Proof.
  intros (Hf & Ha & [Hc Hx]) Hb. split.
  - split; cbn; [apply Hc|right]. by replace (p + 1 - 1) with p by lia.
  - right; right. cbn. split; [done|]. by replace (p + 1 - 1) with p by lia.
Qed.

Lemma on_path_done mem p r r' :
  on_path mem p r -> pv (uri_end r') = p -> uri_start r' = uri_start r ->
  args_start r' = args_start r -> uri_ext r' = uri_ext r -> path_done mem r'.
Proof.
  intros (Hf & Ha & [Hc Hx]) He Hu Ha' Hx'. split; [split|].
  - rewrite Hu. apply Hc.
  - left. congruence.
  - right. split; [congruence|]. split; rewrite Hu, He; [done|congruence].
Qed.

Lemma args_ok_eq mem r r' :
  args_ok mem r -> uri_start r' = uri_start r -> args_start r' = args_start r -> args_ok mem r'.
Proof. unfold args_ok. by intros ? -> ->. Qed.

Lemma on_path_args_ok mem p r : on_path mem p r -> args_ok mem r.
Proof. intros (Hf & Ha & [Hc Hx]). split; [apply Hc|by left]. Qed.

Lemma queried_eq mem r r' :
  queried mem r -> uri_start r' = uri_start r -> args_start r' = args_start r ->
  uri_ext r' = uri_ext r -> (complex_uri r = true -> complex_uri r' = true) ->
  (quoted_uri r = true -> quoted_uri r' = true) -> queried mem r'.
Proof.
  unfold queried, plain. intros [?|[?|[? ?]]] Hu Ha Hx ? ?; [auto|auto|].
  right; right. by rewrite Hu, Ha, Hx.
Qed.

Lemma queried_done mem r r' :
  args_ok mem r -> queried mem r -> uri_start r' = uri_start r ->
  args_start r' = args_start r -> uri_ext r' = uri_ext r ->
  complex_uri r' = complex_uri r -> quoted_uri r' = quoted_uri r -> path_done mem r'.
Proof.
  intros Ha Hq Hu Has Hx Hc Hqu. split; [by eapply args_ok_eq|left].
  eapply queried_eq; eauto; congruence.
Qed.

Lemma path_done_eq mem r r' :
  path_done mem r -> uri_start r' = uri_start r -> uri_end r' = uri_end r ->
  args_start r' = args_start r -> uri_ext r' = uri_ext r ->
  complex_uri r' = complex_uri r -> quoted_uri r' = quoted_uri r -> path_done mem r'.
Proof.
  intros [Ha Hq] Hu He Has Hx Hc Hqu. split; [by eapply args_ok_eq|].
  destruct Hq as [Hq|[Hn Hp]]; [left|right].
  - eapply queried_eq; eauto; congruence.
  - unfold plain. rewrite Hu, He, Hx, Has. done.
Qed.

(** The single "/" of an absolute URI without a path. *)
Lemma single_slash_done mem r :
  slash_after_colon mem r -> path_done mem (single_slash r).
Proof.
  intros ((Hf & Ha & Hx) & Hse & Hb). destruct (schema_end r) as [e|] eqn:E; [|done].
  unfold single_slash. rewrite E. cbn in Hb |- *. split; [split|].
  - done.
  - by left.
  - right. split; [done|].
    replace (e + 2) with (e + 1 + 1) by lia. by eapply plain_first.
Qed.

Lemma spaces_done mem p r r' :
  on_path mem p r -> pv (uri_start r) < pv (uri_end r) <= p ->
  uri_ext r = ext_at mem (pv (uri_start r)) (pv (uri_end r)) ->
  uri_start r' = uri_start r -> uri_end r' = uri_end r ->
  args_start r' = args_start r -> uri_ext r' = uri_ext r -> path_done mem r'.
Proof.
  intros (Hf & Ha & [Hc Hx]) He Hxe Hu He' Ha' Hx'. split; [split|].
  - rewrite Hu. apply Hc.
  - left. congruence.
  - right. split; [congruence|]. unfold plain. rewrite Hu, He', Hx'.
    split; [|done]. by eapply clean_prefix.
Qed.

Lemma on_path_us mem p r : on_path mem p r -> pv (uri_start r) < p.
Proof. by intros (_ & _ & [[? _] _]). Qed.

Lemma on_path_ext mem p r :
  on_path mem p r -> uri_ext r = ext_at mem (pv (uri_start r)) p.
Proof. by intros (_ & _ & [_ ?]). Qed.

(** One more character of the path: the conditions are linear arithmetic on
    the tests of the branch. *)
Ltac path_snoc HP :=
  eapply on_path_snoc;
  [ exact HP | unfold clean_at; split_and!; lia | reflexivity | reflexivity | apply HP
  | cbn; case_ifs; first [reflexivity | lia] ].

Lemma path_inv_break mem p s s' :
  is_byte (byte_at mem p) -> path_inv mem p s ->
  @rl_step strcmp_bytes mem p (byte_at mem p) s = Break s' -> path_inv mem (p + 1) s'.
Proof.
  destruct s as [st r]. intros Hb HI H.
  destruct st; rl_cases H; try exact HI; cbn [path_inv] in HI |- *.
  1: by repeat case_match.
  all: replace (p + 1 - 1) with p by lia.
  all: try (match goal with H : usual_bit _ = true |- _ => apply usual_not_special in H; [|done] end).
  all: try (by eapply on_path_start; [lia|apply HI|apply HI|reflexivity..]).
  all: try (by apply (single_slash_done mem (set_host_end _ _))).
  all: try (by apply (single_slash_done mem (set_host_end _ (set_host_start _ _)))).
  all: try (by apply (single_slash_done mem (set_port_end _ _))).
  all: try (by eapply on_path_args; [first [exact HI|apply HI]|lia]).
  all: try (by eapply on_path_done; [first [exact HI|apply HI]|reflexivity..]).
  all: try (by eapply path_done_eq; [exact HI|reflexivity..]).
  all: try (by eapply queried_done; [apply HI|apply HI|reflexivity..]).
  all: try (by eapply spaces_done; [apply HI..|reflexivity|reflexivity|reflexivity|reflexivity]).
  all: try (by (split;
    [ eapply args_ok_eq; [|reflexivity..];
      first [exact (on_path_args_ok _ _ _ HI) | exact (on_path_args_ok _ _ _ (proj1 HI)) | apply HI]
    | first [by left|by right; left] ])).
  1: done.
  1: { destruct HI as [Hf E]. split_and!; [done|by rewrite E|].
       rewrite E. cbn. replace (p - 1 + 1) with p by lia. lia. }
  all: assert (HP : on_path mem p r) by first [exact HI | apply HI];
    pose proof (on_path_us _ _ _ HP); pose proof (on_path_ext _ _ _ HP);
    split_and?; try path_snoc HP; cbn; try lia; try done; try apply HI.
Qed.

Lemma path_inv_redo mem p s s' :
  path_inv mem p s ->
  @rl_step strcmp_bytes mem p (byte_at mem p) s = Redo s' -> path_inv mem p s'.
Proof. destruct s as [st r]. intros HI H. destruct st; rl_cases H; cbn in *; tauto. Qed.

Lemma path_inv_done mem p s r' :
  path_inv mem p s -> @rl_step strcmp_bytes mem p (byte_at mem p) s = Leave (Done r') ->
  path_done mem (snd (rl_done p r')).
Proof.
  intros HI H. rewrite rl_done_request. cbn zeta.
  apply (path_done_eq mem r'); try by destruct (request_end r').
  destruct s as [st r]. destruct st; rl_cases H; cbn [path_inv] in HI.
  all: try (by eapply on_path_done; [first [exact HI|apply HI]|reflexivity..]).
  all: try (by eapply path_done_eq; [exact HI|reflexivity..]).
  all: try (by eapply queried_done; [apply HI|apply HI|reflexivity..]).
  all: by eapply spaces_done; [apply HI..|reflexivity|reflexivity|reflexivity|reflexivity].
Qed.

(** ** Theorems *)

Lemma path_inv_set_state mem p st x r :
  path_inv mem p (st, set_rl_state x r) <-> path_inv mem p (st, r).
Proof. by destruct r. Qed.

Lemma parse_request_line_path mem r b rc r' b' :
  Forall is_byte mem -> b_pos b <= b_last b -> path_inv mem (b_pos b) (rl_state r, r) ->
  parse_request_line mem r b = Some (rc, r', b') ->
  (rc = NGX_OK -> path_done mem r') /\
  (rc = NGX_AGAIN -> path_inv mem (b_pos b') (rl_state r', r')).
Proof.
  intros Hm Hb HI. rewrite request_line_bytes by done. unfold parse_request_line.
  destruct (loop_total (@rl_step strcmp_bytes) mem (b_pos b) (b_last b) (rl_state r, r))
    as [e He].
  assert (H : match e with
    | Exhausted q t => q = b_last b /\ path_inv mem q t
    | Left q x => b_pos b <= q < b_last b /\
        match x with Done r => path_done mem (snd (rl_done q r)) | Return _ _ => True end
    end).
  { eapply (loop_inv (@rl_step strcmp_bytes) (path_inv mem)
      (fun q x => match x with Done r => path_done mem (snd (rl_done q r)) | Return _ _ => True end));
      [| | |exact Hb|exact HI|exact He].
    - intros q t t' _. by apply path_inv_break, byte_at_range.
    - intros q t t' _. by apply path_inv_redo.
    - intros q t [x|rc1 x] _; [|done]. by apply path_inv_done. }
  rewrite He. destruct e as [q [st r1]|q [r1|rc1 r1]]; cbn in H.
  - intros [= <- <- <-]. split; [done|]. destruct H as [_ H]. by rewrite path_inv_set_state.
  - pose proof (rl_done_codes q r1) as Hc.
    destruct (rl_done q r1) as [rc1 r2]. intros [= <- <- <-]. cbn in *.
    split; [tauto|]. intros ->. unfold NGX_OK, NGX_AGAIN in Hc. lia.
  - intros [= <- <- <-]. pose proof (rl_return_codes _ _ _ _ _ _ _ He) as Hc.
    unfold NGX_HTTP_PARSE_INVALID_METHOD, NGX_HTTP_PARSE_INVALID_REQUEST,
      NGX_OK, NGX_AGAIN in *. lia.
Qed.

(** Where the path ends: at the "?" or at the end of the URI. *)
Definition path_end (r : request) : Z :=
  match args_start r with Some a => a - 1 | None => pv (uri_end r) end.

(** A request whose flags send it past [ngx_http_parse_complex_uri] has a
    path that starts with "/", holds no "%", "#", "?" or NUL, and has neither
    "//" nor "/." anywhere; [r->uri_ext] is the extension of its last segment. *)
Theorem simple_uri_clean mem b r b' :
  Forall is_byte mem -> b_pos b <= b_last b ->
  parse_request_line mem create_request b = Some (NGX_OK, r, b') ->
  complex_uri r = false -> quoted_uri r = false ->
  clean mem (pv (uri_start r)) (path_end r) /\
  uri_ext r = ext_at mem (pv (uri_start r)) (path_end r).
Proof.
  intros Hm Hb H Hc Hq.
  destruct (parse_request_line_path mem create_request b NGX_OK r b' Hm Hb) as [Hp _];
    [done|done|].
  destruct (Hp eq_refl) as [_ [[?|[?|[Ha Hpl]]]|[Ha Hpl]]]; try congruence; unfold path_end.
  - by destruct (args_start r).
  - by rewrite Ha.
Qed.

Lemma simple_uri_clean_witness :
  exists r b', parse_request_line sample_line create_request (mk_buf 0 28) = Some (NGX_OK, r, b')
    /\ clean sample_line (pv (uri_start r)) (path_end r).
Proof.
  do 2 eexists. split; [vm_compute; reflexivity|].
  eapply (simple_uri_clean sample_line (mk_buf 0 28)).
  - apply bytes_ok_spec. vm_compute. reflexivity.
  - cbn. lia.
  - vm_compute. reflexivity.
  - reflexivity.
  - reflexivity.
Defined.
