(* ===== verification/ComplexUri.v ===== *)
(** * ngx_http_parse_complex_uri and ngx_http_process_request_uri

    The slow path of URI processing ([src/http/ngx_http_parse.c]): percent
    decoding, merging of slashes and removal of dot segments, into the buffer
    [r->uri.data]; and the function of [src/http/ngx_http_request.c] that
    chooses between it and the raw bytes of the request line.

    The output buffer is the list [out] of the bytes below [u], last byte
    first, so that [*u++ = ch] is [cons] and [u--] is [tail]; bytes at or above
    [u] are never read.  Reads of the request go through [rd] and writes are
    held against the size [cap] of the buffer: the model can fault, and that it
    does not is a theorem. *)

From S2P Require Import Prelude Fsm RequestLine RequestPath.

(** ** Data *)

Inductive cu_st : Type := cu_usual | cu_slash | cu_dot | cu_dot_dot | cu_quoted | cu_quoted_second.

#[export] Instance cu_st_eq_dec : EqDecision cu_st.
Proof. solve_decision. Defined.

(** The local variables of the function and the fields it writes. *)
Record cu : Type := mk_cu {
  cu_p : Z;                 (** [p], the next byte to read *)
  cu_ch : Z;                (** [ch] *)
  cu_state : cu_st;
  cu_qstate : cu_st;        (** [quoted_state] *)
  cu_decoded : Z;
  cu_out : list Z;          (** the bytes below [u], last first *)
  cu_ext : option Z;        (** [r->uri_ext - r->uri.data] *)
  cu_args : option Z;       (** [r->args_start] *)
  cu_plus : bool;           (** [r->plus_in_uri] *)
  cu_quot : bool            (** [r->quoted_uri] *)
}.

(** One iteration of the loop: on to the next, or out of it. *)
Inductive cu_action : Type :=
| CuNext (s : cu)
| CuDone (s : cu)      (** [goto done] *)
| CuArgs (s : cu)      (** [goto args] *)
| CuInvalid            (** [return NGX_HTTP_PARSE_INVALID_REQUEST] *)
| CuFault.             (** a read or a write outside a buffer *)

(** [u - r->uri.data] *)
Definition cu_u (s : cu) : Z := Z.of_nat (length (cu_out s)).

(** [ch = *p++;] in the state [st], the output (of at most [cap] bytes) having
    become [out]. *)
Definition cu_next (mem : list Z) (cap : Z) (st : cu_st) (out : list Z) (s : cu) : cu_action :=
  if cap <? Z.of_nat (length out) then CuFault else
  match rd mem (cu_p s) with
  | Some c =>
      CuNext (mk_cu (cu_p s + 1) c st (cu_qstate s) (cu_decoded s) out
                (cu_ext s) (cu_args s) (cu_plus s) (cu_quot s))
  | None => CuFault
  end.

(** [*u++ = ch;] *)
Definition cu_push (s : cu) : list Z := cu_ch s :: cu_out s.

Definition cu_set_ext (e : option Z) (s : cu) : cu :=
  mk_cu (cu_p s) (cu_ch s) (cu_state s) (cu_qstate s) (cu_decoded s) (cu_out s)
    e (cu_args s) (cu_plus s) (cu_quot s).
Definition cu_set_args (s : cu) : cu :=
  mk_cu (cu_p s) (cu_ch s) (cu_state s) (cu_qstate s) (cu_decoded s) (cu_out s)
    (cu_ext s) (Some (cu_p s)) (cu_plus s) (cu_quot s).
Definition cu_set_plus (s : cu) : cu :=
  mk_cu (cu_p s) (cu_ch s) (cu_state s) (cu_qstate s) (cu_decoded s) (cu_out s)
    (cu_ext s) (cu_args s) true (cu_quot s).
(** [quoted_state = state;] *)
Definition cu_set_qstate (s : cu) : cu :=
  mk_cu (cu_p s) (cu_ch s) (cu_state s) (cu_state s) (cu_decoded s) (cu_out s)
    (cu_ext s) (cu_args s) (cu_plus s) (cu_quot s).
Definition cu_set_quot (s : cu) : cu :=
  mk_cu (cu_p s) (cu_ch s) (cu_state s) (cu_qstate s) (cu_decoded s) (cu_out s)
    (cu_ext s) (cu_args s) (cu_plus s) true.
Definition cu_set_decoded (d : Z) (s : cu) : cu :=
  mk_cu (cu_p s) (cu_ch s) (cu_state s) (cu_qstate s) d (cu_out s)
    (cu_ext s) (cu_args s) (cu_plus s) (cu_quot s).
(** [ch = c; state = quoted_state;] *)
Definition cu_requote (c : Z) (s : cu) : cu :=
  mk_cu (cu_p s) c (cu_qstate s) (cu_qstate s) (cu_decoded s) (cu_out s)
    (cu_ext s) (cu_args s) (cu_plus s) (cu_quot s).
Definition cu_set_ch (c : Z) (s : cu) : cu :=
  mk_cu (cu_p s) c (cu_state s) (cu_qstate s) (cu_decoded s) (cu_out s)
    (cu_ext s) (cu_args s) (cu_plus s) (cu_quot s).

(** ** The states *)

Section Complex.
Context (mem : list Z) (cap : Z) (merge_slashes : bool).

Definition cu_on_usual (s : cu) : cu_action :=
  let ch := cu_ch s in
  if usual_bit ch then cu_next mem cap (cu_state s) (cu_push s) s
  else if ch =? #"/" then cu_next mem cap cu_slash (cu_push s) (cu_set_ext None s)
  else if ch =? #"%" then cu_next mem cap cu_quoted (cu_out s) (cu_set_qstate s)
  else if ch =? #"?" then CuArgs (cu_set_args s)
  else if ch =? #"#" then CuDone s
  else if ch =? #"." then
    cu_next mem cap (cu_state s) (cu_push s) (cu_set_ext (Some (cu_u s + 1)) s)
  else if ch =? #"+" then cu_next mem cap (cu_state s) (cu_push s) (cu_set_plus s)
  else cu_next mem cap (cu_state s) (cu_push s) s.

Definition cu_on_slash (s : cu) : cu_action :=
  let ch := cu_ch s in
  if usual_bit ch then cu_next mem cap cu_usual (cu_push s) s
  else if ch =? #"/" then
    cu_next mem cap (cu_state s) (if merge_slashes then cu_out s else cu_push s) s
  else if ch =? #"." then cu_next mem cap cu_dot (cu_push s) s
  else if ch =? #"%" then cu_next mem cap cu_quoted (cu_out s) (cu_set_qstate s)
  else if ch =? #"?" then CuArgs (cu_set_args s)
  else if ch =? #"#" then CuDone s
  else if ch =? #"+" then cu_next mem cap cu_usual (cu_push s) (cu_set_plus s)
  else cu_next mem cap cu_usual (cu_push s) s.

Definition cu_on_dot (s : cu) : cu_action :=
  let ch := cu_ch s in
  if usual_bit ch then cu_next mem cap cu_usual (cu_push s) s
  else if ch =? #"/" then cu_next mem cap cu_slash (tail (cu_out s)) s
  else if ch =? #"." then cu_next mem cap cu_dot_dot (cu_push s) s
  else if ch =? #"%" then cu_next mem cap cu_quoted (cu_out s) (cu_set_qstate s)
  else if ch =? #"?" then CuArgs (cu_set_args s)
  else if ch =? #"#" then CuDone s
  else if ch =? #"+" then cu_next mem cap cu_usual (cu_push s) (cu_set_plus s)
  else cu_next mem cap cu_usual (cu_push s) s.

(** The [for ( ;; )] of [sw_dot_dot] from [u] down: [None] when [u] runs below
    [r->uri.data], else the output up to and with the "/" found. *)
Fixpoint back_to_slash (out : list Z) : option (list Z) :=
  match out with
  | [] => None
  | c :: out' => if c =? #"/" then Some (c :: out') else back_to_slash out'
  end.

(** [u -= 5] leaves [u] on the byte with four others above it. *)
Definition cu_on_dot_dot (s : cu) : cu_action :=
  let ch := cu_ch s in
  if usual_bit ch then cu_next mem cap cu_usual (cu_push s) s
  else if ch =? #"/" then
    match back_to_slash (drop 4 (cu_out s)) with
    | None => CuInvalid
    | Some out => cu_next mem cap cu_slash out s
    end
  else if ch =? #"%" then cu_next mem cap cu_quoted (cu_out s) (cu_set_qstate s)
  else if ch =? #"?" then CuArgs (cu_set_args s)
  else if ch =? #"#" then CuDone s
  else if ch =? #"+" then cu_next mem cap cu_usual (cu_push s) (cu_set_plus s)
  else cu_next mem cap cu_usual (cu_push s) s.

(** [c = (u_char) (ch | 0x20); c >= 'a' && c <= 'f'] *)
Definition lower (ch : Z) : Z := u8 (Z.lor ch 0x20).
Definition is_hex_alpha (ch : Z) : bool := (#"a" <=? lower ch) && (lower ch <=? #"f").

Definition cu_on_quoted (s : cu) : cu_action :=
  let s := cu_set_quot s in
  let ch := cu_ch s in
  if is_digit ch then
    cu_next mem cap cu_quoted_second (cu_out s) (cu_set_decoded (u8 (ch - #"0")) s)
  else if is_hex_alpha ch then
    cu_next mem cap cu_quoted_second (cu_out s) (cu_set_decoded (u8 (lower ch - #"a" + 10)) s)
  else CuInvalid.

Definition cu_on_quoted_second (s : cu) : cu_action :=
  let ch := cu_ch s in
  if is_digit ch then
    let ch := u8 (Z.shiftl (cu_decoded s) 4 + ch - #"0") in
    if (ch =? #"%") || (ch =? #"#") then
      cu_next mem cap cu_usual (ch :: cu_out s) s
    else if ch =? 0 then CuInvalid
    else CuNext (cu_requote ch s)
  else if is_hex_alpha ch then
    let ch := u8 (Z.shiftl (cu_decoded s) 4 + lower ch - #"a" + 10) in
    if ch =? #"?" then cu_next mem cap cu_usual (ch :: cu_out s) s
    else if ch =? #"+" then CuNext (cu_requote ch (cu_set_plus s))
    else CuNext (cu_requote ch s)
  else CuInvalid.

Definition cu_step (s : cu) : cu_action :=
  match cu_state s with
  | cu_usual => cu_on_usual s
  | cu_slash => cu_on_slash s
  | cu_dot => cu_on_dot s
  | cu_dot_dot => cu_on_dot_dot s
  | cu_quoted => cu_on_quoted s
  | cu_quoted_second => cu_on_quoted_second s
  end.

(** [while (p <= r->uri_end)]; the last four constructors end it. *)
Fixpoint cu_loop (fuel : nat) (uri_end : Z) (s : cu) : option cu_action :=
  match fuel with
  | O => None
  | S fuel' =>
      if cu_p s <=? uri_end then
        match cu_step s with
        | CuNext s' => cu_loop fuel' uri_end s'
        | a => Some a
        end
      else Some (CuDone s)
  end.

(** The loop at [args]: the first "#" of the arguments, if there is one. *)
Fixpoint find_hash (fuel : nat) (p uri_end : Z) : option (option Z) :=
  match fuel with
  | O => None
  | S fuel' =>
      if p <? uri_end then
        match rd mem p with
        | None => None
        | Some c => if c =? #"#" then Some (Some p) else find_hash fuel' (p + 1) uri_end
        end
      else Some None
  end.

End Complex.

(** What the function leaves in the request: [r->uri], [r->exten] (if set),
    [r->args] (if set) as an address and a length, and [r->args_start]. *)
Record cu_result : Type := mk_result {
  res_uri : list Z;
  res_exten : option (list Z);
  res_args : option (Z * Z);
  res_args_start : option Z;
  res_plus : bool;
  res_quoted : bool
}.

Inductive cu_outcome : Type :=
| CuOk (r : cu_result)
| CuBad            (** [NGX_HTTP_PARSE_INVALID_REQUEST] *)
| CuCrash.         (** a read or a write outside a buffer *)

(** [r->uri.len = u - r->uri.data; ... r->exten.len = u - r->uri_ext; ...] *)
Definition cu_finish (args : option (Z * Z)) (args_start : option Z) (s : cu) : cu_outcome :=
  let uri := rev (cu_out s) in
  CuOk (mk_result uri ((fun e => drop (Z.to_nat e) uri) <$> cu_ext s)
          args args_start (cu_plus s) (cu_quot s)).

Definition cu_fuel (uri_start uri_end : Z) : nat := 2 * Z.to_nat (uri_end - uri_start) + 3.

(** [cap] is the size of the buffer at [r->uri.data]. *)
Definition parse_complex_uri (mem : list Z) (cap : Z) (merge_slashes : bool) (r : request)
    : option cu_outcome :=
  let us := pv (uri_start r) in
  let ue := pv (uri_end r) in
  match rd mem us with
  | None => Some CuCrash
  | Some c =>
      match cu_loop mem cap merge_slashes (cu_fuel us ue) ue
              (mk_cu (us + 1) c cu_usual cu_usual 0 [] None None
                 (plus_in_uri r) (quoted_uri r)) with
      | None => None
      | Some (CuNext _) => None
      | Some CuInvalid => Some CuBad
      | Some CuFault => Some CuCrash
      | Some (CuDone s) => Some (cu_finish None (cu_args s) s)
      | Some (CuArgs s) =>
          match find_hash mem (Z.to_nat (ue - cu_p s) + 1) (cu_p s) ue with
          | None => Some CuCrash
          | Some (Some h) =>
              Some (cu_finish (Some (cu_p s, h - cu_p s)) None s)
          | Some None => Some (cu_finish None (cu_args s) s)
          end
      end
  end.

(** ** ngx_http_process_request_uri *)

(** The URI fields of the request on [NGX_OK]; [ru_args] is an address and a
    length in the request line. *)
Record request_uri : Type := mk_uri {
  ru_uri : list Z;
  ru_exten : option (list Z);
  ru_args : option (Z * Z);
  ru_unparsed : Z * Z;
  ru_valid_unparsed : bool
}.

Inductive pu_outcome : Type :=
| PuOk (u : request_uri)
| PuBadRequest       (** [NGX_HTTP_BAD_REQUEST] *)
| PuServerError      (** [ngx_pnalloc] failed *)
| PuCrash.           (** a read or a write outside a buffer *)

(** [r->uri.len] as the function first computes it; the slow path gets a buffer
    of this size plus one. *)
Definition raw_uri_len (r : request) : Z :=
  match args_start r with
  | Some a => a - 1 - pv (uri_start r)
  | None => pv (uri_end r) - pv (uri_start r)
  end.

(** [if (r->args_start && r->uri_end > r->args_start)] *)
Definition set_args (args : option (Z * Z)) (args_start : option Z) (ue : Z) : option (Z * Z) :=
  match args_start with
  | Some a => if a <? ue then Some (a, ue - a) else args
  | None => args
  end.

(** [alloc] is whether [ngx_pnalloc(r->pool, r->uri.len + 1)] succeeds. *)
Definition process_request_uri (mem : list Z) (merge_slashes alloc : bool) (r : request)
    : option pu_outcome :=
  let us := pv (uri_start r) in
  let ue := pv (uri_end r) in
  let unparsed := (us, ue - us) in
  let valid := negb (space_in_uri r) in
  if complex_uri r || quoted_uri r then
    if negb alloc then Some PuServerError else
    match parse_complex_uri mem (raw_uri_len r + 1) merge_slashes r with
    | None => None
    | Some CuCrash => Some PuCrash
    | Some CuBad => Some PuBadRequest
    | Some (CuOk c) =>
        Some (PuOk (mk_uri (res_uri c) (res_exten c)
                      (set_args (res_args c) (res_args_start c) ue) unparsed valid))
    end
  else
    let exten :=
      match uri_ext r with
      | None => None
      | Some x =>
          Some (slice mem x (match args_start r with Some a => a - 1 | None => ue end))
      end in
    Some (PuOk (mk_uri (slice mem us (us + raw_uri_len r)) exten
                  (set_args None (args_start r) ue) unparsed valid)).

(** ** The loop *)

Lemma cu_next_ok mem cap st out s :
  0 <= cu_p s < Z.of_nat (length mem) -> Z.of_nat (length out) <= cap ->
  cu_next mem cap st out s =
    CuNext (mk_cu (cu_p s + 1) (byte_at mem (cu_p s)) st (cu_qstate s) (cu_decoded s) out
              (cu_ext s) (cu_args s) (cu_plus s) (cu_quot s)).
Proof.
  intros H Hc. unfold cu_next. assert ((cap <? Z.of_nat (length out)) = false) as -> by lia.
  by rewrite rd_Some.
Qed.

Create HintDb cu.
#[export] Hint Unfold cu_step cu_on_usual cu_on_slash cu_on_dot cu_on_dot_dot cu_on_quoted
  cu_on_quoted_second cu_push cu_set_ext cu_set_args cu_set_plus cu_set_qstate cu_set_quot
  cu_set_decoded cu_set_ch cu_requote : cu.

Lemma back_to_slash_suffix l l' :
  back_to_slash l = Some l' -> exists k t, l = k ++ l' /\ l' = #"/" :: t.
Proof.
  induction l as [|c l IH]; [done|]. cbn [back_to_slash]. destruct (c =? 47) eqn:E.
  - intros [= <-]. exists [], l. split; [done|]. f_equal. lia.
  - intros (k & t & -> & ->)%IH. by exists (c :: k), t.
Qed.

(** ** Normal paths *)

(** "/" may be written after the (reversed) output [l]. *)
Definition closes (merge : bool) (l : list Z) : Prop :=
  (forall t, l <> #"." :: #"/" :: t) /\ (forall t, l <> #"." :: #"." :: #"/" :: t) /\
  (merge = true -> forall t, l <> #"/" :: t).

(** No "/./", no "/../" and, if slashes are merged, no "//". *)
Fixpoint norm (merge : bool) (l : list Z) : Prop :=
  match l with
  | [] => True
  | c :: l' => norm merge l' /\ (c = #"/" -> closes merge l')
  end.

(** The output may be followed by "/" and by "." with nothing to be done. *)
Definition plain_end (l : list Z) : Prop :=
  (forall t, l <> #"/" :: t) /\ (forall t, l <> #"." :: #"/" :: t) /\
  (forall t, l <> #"." :: #"." :: #"/" :: t).

(** What the output ends with in each state, "/" having been written first. *)
Definition ends_for (st : cu_st) (l : list Z) : Prop :=
  match st with
  | cu_usual => plain_end l
  | cu_slash => exists t, l = #"/" :: t
  | cu_dot => exists t, l = #"." :: #"/" :: t
  | cu_dot_dot => exists t, l = #"." :: #"." :: #"/" :: t
  | cu_quoted | cu_quoted_second => False
  end.

Definition out_ok (merge : bool) (st : cu_st) (l : list Z) : Prop :=
  norm merge l /\ last l = Some #"/" /\ ends_for st l.

Lemma norm_suffix merge k l : norm merge (k ++ l) -> norm merge l.
Proof. induction k as [|c k IH]; [done|]. intros [H _]. by apply IH. Qed.

Lemma last_suffix (k l : list Z) x : l <> [] -> last (k ++ l) = Some x -> last l = Some x.
Proof. intros Hl. rewrite last_app. destruct (last l) eqn:E; [done|]. by apply last_None in E. Qed.

Lemma last_push (c : Z) l x : last l = Some x -> last (c :: l) = Some x.
Proof. intros H. rewrite last_cons, H. done. Qed.

Lemma out_ok_push merge st st' c l :
  out_ok merge st l -> (c = #"/" -> closes merge l) -> ends_for st' (c :: l) ->
  out_ok merge st' (c :: l).
Proof.
  intros (Hn & Hl & _) Hc He. split; [by split|]. by split; [apply last_push|].
Qed.

(** A character other than "/" and ".". *)
Lemma out_ok_other merge st c l :
  out_ok merge st l -> c <> #"/" -> c <> #"." -> out_ok merge cu_usual (c :: l).
Proof.
  intros H H1 H2. eapply out_ok_push; [exact H|congruence|].
  repeat split; congruence.
Qed.

Lemma out_ok_usual_dot merge l : out_ok merge cu_usual l -> out_ok merge cu_usual (#"." :: l).
Proof.
  intros H. eapply out_ok_push; [exact H|done|].
  destruct H as (_ & _ & H1 & H2 & H3). repeat split; naive_solver.
Qed.

Lemma out_ok_usual_slash merge l : out_ok merge cu_usual l -> out_ok merge cu_slash (#"/" :: l).
Proof.
  intros H. eapply out_ok_push; [exact H| |by eexists].
  destruct H as (_ & _ & H1 & H2 & H3). by repeat split.
Qed.

Lemma out_ok_slash_slash merge l :
  merge = false -> out_ok merge cu_slash l -> out_ok merge cu_slash (#"/" :: l).
Proof.
  intros -> H. eapply out_ok_push; [exact H| |by eexists].
  destruct H as (_ & _ & t & ->). by repeat split.
Qed.

Lemma out_ok_slash_dot merge l : out_ok merge cu_slash l -> out_ok merge cu_dot (#"." :: l).
Proof.
  intros H. eapply out_ok_push; [exact H|done|].
  destruct H as (_ & _ & t & ->). by eexists.
Qed.

Lemma out_ok_dot_dot merge l : out_ok merge cu_dot l -> out_ok merge cu_dot_dot (#"." :: l).
Proof.
  intros H. eapply out_ok_push; [exact H|done|].
  destruct H as (_ & _ & t & ->). by eexists.
Qed.

Lemma out_ok_dot_dot_dot merge l : out_ok merge cu_dot_dot l -> out_ok merge cu_usual (#"." :: l).
Proof.
  intros H. eapply out_ok_push; [exact H|done|].
  destruct H as (_ & _ & t & ->). by repeat split.
Qed.

Lemma out_ok_dot_slash merge l : out_ok merge cu_dot l -> out_ok merge cu_slash (tail l).
Proof.
  intros (Hn & Hl & t & ->). destruct Hn as [Hn _]. split; [done|]. split; [|by eexists].
  by apply (last_suffix [46]).
Qed.

Lemma out_ok_back merge st l l' :
  out_ok merge st l -> back_to_slash (drop 4 l) = Some l' -> out_ok merge cu_slash l'.
Proof.
  intros (Hn & Hl & _) (k & t & E & ->)%back_to_slash_suffix.
  assert (Hs : l = (take 4 l ++ k) ++ 47 :: t) by (rewrite <-app_assoc, <-E; by rewrite take_drop).
  rewrite Hs in Hn, Hl. split; [|split].
  - by eapply norm_suffix.
  - by eapply last_suffix in Hl.
  - by eexists.
Qed.

(** The length after [u -= 5] and the walk back. *)
Lemma back_to_slash_length l l' :
  back_to_slash (drop 4 l) = Some l' -> (length l' <= length l)%nat.
Proof.
  intros (k & t & E & _)%back_to_slash_suffix. apply (f_equal length) in E.
  rewrite length_drop, length_app in E. lia.
Qed.

(** ** One iteration *)

Section Step.
Context (mem : list Z) (merge : bool) (us ue lim : Z).
Context (Hmem : Forall is_byte mem) (Hus : 0 <= us) (Hue : ue < Z.of_nat (length mem)).
(** The path ends at [lim]: at the end of the URI or at a "?". *)
Context (Hlim : us <= lim <= ue) (Hq : lim = ue \/ byte_at mem lim = #"?").

(** The state after the pending escape, if there is one. *)
Definition cu_target (s : cu) : cu_st :=
  match cu_state s with
  | cu_quoted | cu_quoted_second => cu_qstate s
  | st => st
  end.

Definition cu_inv (s : cu) : Prop :=
  us < cu_p s /\ cu_u s <= cu_p s - 1 - us /\ cu_p s - 1 <= lim /\
  (cu_p s - 1 = lim -> cu_ch s = byte_at mem lim) /\ is_byte (cu_ch s) /\ cu_args s = None /\
  ((cu_out s = [] /\ cu_ch s = #"/" /\ cu_state s = cu_usual /\ cu_p s = us + 1) \/
   out_ok merge (cu_target s) (cu_out s)).

(** Two per byte left, one more for a second hex digit to be decoded. *)
Definition cu_measure (s : cu) : Z :=
  2 * (ue + 1 - cu_p s) + (if decide (cu_state s = cu_quoted_second) then 1 else 0).

(** What the function leaves behind. *)
Definition cu_post (s : cu) : Prop :=
  norm merge (cu_out s) /\ last (cu_out s) = Some #"/" /\ cu_u s <= lim - us.

Definition cu_good (s : cu) (a : cu_action) : Prop :=
  match a with
  | CuNext s' => cu_inv s' /\ cu_measure s' < cu_measure s
  | CuArgs s' => cu_post s' /\ us < cu_p s' <= ue /\ cu_args s' = Some (cu_p s')
  | CuDone s' => cu_post s' /\ cu_args s' = None
  | CuInvalid => True
  | CuFault => False
  end.

Lemma cu_next_good st out s s0 :
  us < cu_p s <= lim -> Z.of_nat (length out) <= cu_p s - us -> cu_args s = None ->
  out_ok merge (match st with cu_quoted | cu_quoted_second => cu_qstate s | _ => st end) out ->
  cu_p s = cu_p s0 ->
  cu_good s0 (cu_next mem (lim - us + 1) st out s).
Proof.
  intros Hp Hl Ha Ho Hs0. rewrite cu_next_ok by lia. split.
  - unfold cu_inv, cu_u, cu_target. cbn. split_and!; try done; try lia.
    + intros E. f_equal. lia.
    + by apply byte_at_range.
    + right. by destruct st.
  - unfold cu_measure. cbn. rewrite Hs0. repeat case_decide; lia.
Qed.

(** Once "/" has been written, a state that may write has not reached [lim]. *)
Lemma cu_inv_before s :
  cu_inv s -> cu_p s <= ue -> cu_ch s <> #"?" -> us < cu_p s <= lim.
Proof. intros (H1 & _ & H2 & H3 & _) Hp Hc. destruct Hq; lia. Qed.

Lemma out_ok_post st s :
  out_ok merge st (cu_out s) -> Z.of_nat (length (cu_out s)) <= cu_p s - 1 - us ->
  cu_p s - 1 <= lim -> cu_post s.
Proof. intros (Hn & Hl & _) Hu Hp. unfold cu_post, cu_u. split_and!; [done|done|lia]. Qed.

Lemma out_ok_first : out_ok merge cu_slash (#"/" :: []).
Proof. repeat split; try by intros. by eexists. Qed.

Lemma is_hex_alpha_ascii c : is_hex_alpha c = true -> c <> #"?".
Proof. intros H ->. done. Qed.

(** A branch that writes, or only reads on: what is left is the shape of the
    output. *)
Ltac cu_write Hst :=
  apply cu_next_good; cbn [length cu_p cu_args cu_qstate cu_set_ext cu_set_qstate cu_set_plus
    cu_set_decoded cu_set_quot];
  rewrite ?Hst; try done; try lia;
  first [ by eapply out_ok_other; [eassumption|lia|lia] | idtac ].

Ltac cu_leave :=
  lazymatch goal with
  | |- cu_good _ (CuArgs _) =>
      split; [eapply out_ok_post; cbn; [eassumption|lia|lia]|cbn; split; [lia|done]]
  | |- cu_good _ (CuDone _) => split; [eapply out_ok_post; [eassumption|lia|lia]|done]
  | |- cu_good _ CuInvalid => done
  | _ => idtac
  end.

Lemma cu_on_usual_good s :
  cu_inv s -> cu_p s <= ue -> cu_state s = cu_usual -> cu_good s (cu_on_usual mem (lim - us + 1) s).
Proof.
  intros HI Hp Hst. pose proof (cu_inv_before s HI Hp) as Hb.
  pose proof HI as (H1 & H2 & H3 & _ & H4 & H5 & H6).
  unfold cu_target in H6. rewrite Hst in H6. cbv iota in H6. unfold cu_u in *.
  unfold cu_on_usual, cu_push. cbn zeta.
  destruct H6 as [(Ho & Hc & _ & Hp1)|H6].
  { rewrite Ho, Hc in *. cbn. cu_write Hst. exact out_ok_first. }
  destruct (usual_bit (cu_ch s)) eqn:Hu; [apply usual_not_special in Hu; [|done]|];
    case_ifs; cu_leave; cu_write Hst.
  - assert (cu_ch s = 47) as -> by lia. by apply out_ok_usual_slash.
  - assert (cu_ch s = 46) as -> by lia. by apply out_ok_usual_dot.
Qed.

Lemma cu_on_slash_good s :
  cu_inv s -> cu_p s <= ue -> cu_state s = cu_slash ->
  cu_good s (cu_on_slash mem (lim - us + 1) merge s).
Proof.
  intros HI Hp Hst. pose proof (cu_inv_before s HI Hp) as Hb.
  pose proof HI as (H1 & H2 & H3 & _ & H4 & H5 & [(_ & _ & ? & _)|H6]); [congruence|].
  unfold cu_target in H6. rewrite Hst in H6. cbv iota in H6. unfold cu_u in *.
  unfold cu_on_slash, cu_push. cbn zeta.
  destruct (usual_bit (cu_ch s)) eqn:Hu; [apply usual_not_special in Hu; [|done]|];
    case_ifs; cu_leave; cu_write Hst.
  - by replace merge with true.
  - assert (cu_ch s = 47) as -> by lia. apply out_ok_slash_slash; [done|by replace merge with false].
  - assert (cu_ch s = 46) as -> by lia. by apply out_ok_slash_dot.
Qed.

Lemma cu_on_dot_good s :
  cu_inv s -> cu_p s <= ue -> cu_state s = cu_dot -> cu_good s (cu_on_dot mem (lim - us + 1) s).
Proof.
  intros HI Hp Hst. pose proof (cu_inv_before s HI Hp) as Hb.
  pose proof HI as (H1 & H2 & H3 & _ & H4 & H5 & [(_ & _ & ? & _)|H6]); [congruence|].
  unfold cu_target in H6. rewrite Hst in H6. cbv iota in H6. unfold cu_u in *.
  unfold cu_on_dot, cu_push. cbn zeta.
  destruct (usual_bit (cu_ch s)) eqn:Hu; [apply usual_not_special in Hu; [|done]|];
    case_ifs; cu_leave; cu_write Hst.
  - destruct (cu_out s); cbn [tail length] in *; lia.
  - by apply out_ok_dot_slash.
  - assert (cu_ch s = 46) as -> by lia. by apply out_ok_dot_dot.
Qed.

Lemma cu_on_dot_dot_good s :
  cu_inv s -> cu_p s <= ue -> cu_state s = cu_dot_dot ->
  cu_good s (cu_on_dot_dot mem (lim - us + 1) s).
Proof.
  intros HI Hp Hst. pose proof (cu_inv_before s HI Hp) as Hb.
  pose proof HI as (H1 & H2 & H3 & _ & H4 & H5 & [(_ & _ & ? & _)|H6]); [congruence|].
  unfold cu_target in H6. rewrite Hst in H6. cbv iota in H6. unfold cu_u in *.
  unfold cu_on_dot_dot, cu_push. cbn zeta.
  destruct (usual_bit (cu_ch s)) eqn:Hu; [apply usual_not_special in Hu; [|done]; cu_write Hst|].
  destruct (cu_ch s =? 47) eqn:?.
  { destruct (back_to_slash (drop 4 (cu_out s))) as [l|] eqn:E; [|done].
    pose proof (back_to_slash_length _ _ E). cu_write Hst. by eapply out_ok_back. }
  assert (Hd : cu_ch s = 46 -> out_ok merge cu_usual (cu_ch s :: cu_out s)).
  { intros ->. by apply out_ok_dot_dot_dot. }
  case_ifs; cu_leave; cu_write Hst.
  destruct (Z.eq_dec (cu_ch s) 46) as [E|]; [by apply Hd|by eapply out_ok_other; [exact H6|lia|lia]].
Qed.

Lemma cu_on_quoted_good s :
  cu_inv s -> cu_p s <= ue -> cu_state s = cu_quoted -> cu_good s (cu_on_quoted mem (lim - us + 1) s).
Proof.
  intros HI Hp Hst. pose proof (cu_inv_before s HI Hp) as Hb.
  pose proof HI as (H1 & H2 & H3 & _ & H4 & H5 & [(_ & _ & ? & _)|H6]); [congruence|].
  unfold cu_target in H6. rewrite Hst in H6. cbv iota in H6. unfold cu_u in *.
  unfold cu_on_quoted. cbn zeta. cbn [cu_ch cu_set_quot cu_out].
  destruct (is_digit (cu_ch s)) eqn:Hd.
  { unfold is_digit in Hd. by cu_write Hst. }
  destruct (is_hex_alpha (cu_ch s)) eqn:Hh; [|done].
  apply is_hex_alpha_ascii in Hh. by cu_write Hst.
Qed.

Lemma cu_requote_good s c plus :
  cu_inv s -> us < cu_p s <= lim -> cu_state s = cu_quoted_second -> is_byte c ->
  cu_good s (CuNext (cu_requote c (if plus : bool then cu_set_plus s else s))).
Proof.
  intros (H1 & H2 & H3 & _ & H4 & H5 & [(_ & _ & ? & _)|H6]) Hp Hst Hc; [congruence|].
  unfold cu_target in H6. rewrite Hst in H6. destruct H6 as (Hn & Hl & He).
  split.
  - unfold cu_inv, cu_u, cu_target, out_ok in *. destruct plus; cbn;
      (split_and!; [lia|lia|lia|lia|done|done|right; split_and!; try done; by destruct (cu_qstate s)]).
  - unfold cu_measure. destruct plus; cbn; rewrite Hst; repeat case_decide; try done;
      destruct (cu_qstate s); try done; lia.
Qed.

Lemma u8_is_byte x : is_byte (u8 x).
Proof. apply Z.mod_pos_bound. lia. Qed.

Lemma cu_on_quoted_second_good s :
  cu_inv s -> cu_p s <= ue -> cu_state s = cu_quoted_second ->
  cu_good s (cu_on_quoted_second mem (lim - us + 1) s).
Proof.
  intros HI Hp Hst. pose proof (cu_inv_before s HI Hp) as Hb.
  pose proof HI as (H1 & H2 & H3 & _ & H4 & H5 & [(_ & _ & ? & _)|H6]); [congruence|].
  unfold cu_target in H6. rewrite Hst in H6. cbv iota in H6. unfold cu_u in *.
  unfold cu_on_quoted_second. cbn zeta.
  destruct (is_digit (cu_ch s)) eqn:Hd; [unfold is_digit in Hd|].
  - set (c := u8 _). assert (is_byte c) by apply u8_is_byte.
    case_ifs; [cu_write Hst|done|]. by apply (cu_requote_good s c false); [|lia|..].
  - destruct (is_hex_alpha (cu_ch s)) eqn:Hh; [|done]. apply is_hex_alpha_ascii in Hh.
    set (c := u8 _). assert (is_byte c) by apply u8_is_byte.
    case_ifs; [cu_write Hst| |].
    + by apply (cu_requote_good s c true); [|lia|..].
    + by apply (cu_requote_good s c false); [|lia|..].
Qed.

Lemma cu_step_good s :
  cu_inv s -> cu_p s <= ue -> cu_good s (cu_step mem (lim - us + 1) merge s).
Proof.
  intros HI Hp. unfold cu_step. destruct (cu_state s) eqn:Hst.
  - by apply cu_on_usual_good.
  - by apply cu_on_slash_good.
  - by apply cu_on_dot_good.
  - by apply cu_on_dot_dot_good.
  - by apply cu_on_quoted_good.
  - by apply cu_on_quoted_second_good.
Qed.

(** ** The loop *)

Lemma cu_loop_good fuel : forall s,
  us < lim -> cu_inv s -> cu_measure s < Z.of_nat fuel ->
  exists a, cu_loop mem (lim - us + 1) merge fuel ue s = Some a /\
    match a with
    | CuNext _ | CuFault => False
    | CuInvalid => True
    | CuDone s' => cu_post s' /\ cu_args s' = None
    | CuArgs s' => cu_post s' /\ us < cu_p s' <= ue /\ cu_args s' = Some (cu_p s')
    end.
Proof.
  induction fuel as [|f IH]; intros s Hlt HI Hm.
  - pose proof HI as (H1 & _ & H2 & _). unfold cu_measure in Hm. case_decide; lia.
  - cbn [cu_loop]. destruct (cu_p s <=? ue) eqn:Hle.
    + pose proof (cu_step_good s HI ltac:(lia)) as Hs.
      destruct (cu_step mem (lim - us + 1) merge s) as [s'|s'|s'| |]; try done;
        try by eexists.
      destruct Hs as [HI' Hm']. apply IH; [done|done|lia].
    + exists (CuDone s). split; [done|].
      pose proof HI as (H1 & H2 & H3 & _ & _ & H5 & [(_ & _ & _ & ?)|H6]); [lia|].
      split; [|done]. by eapply out_ok_post.
Qed.

End Step.

(** ** The whole function *)

Lemma find_hash_total mem ue : ue <= Z.of_nat (length mem) ->
  forall fuel p, 0 <= p <= ue -> ue - p < Z.of_nat fuel ->
  exists h, find_hash mem fuel p ue = Some h /\
    match h with
    | Some q => p <= q < ue /\ byte_at mem q = #"#"
    | None => forall q, p <= q < ue -> byte_at mem q <> #"#"
    end.
Proof.
  intros Hue. induction fuel as [|f IH]; intros p Hp Hf; cbn [find_hash]; [lia|].
  destruct (p <? ue) eqn:Hlt; [|exists None; split; [done|lia]].
  rewrite rd_Some by lia. destruct (byte_at mem p =? 35) eqn:E.
  - exists (Some p). split_and!; [done|lia..].
  - destruct (IH (p + 1)) as ([q|] & Hq & Hb); [lia..| |].
    + exists (Some q). split_and!; [done|lia..].
    + exists None. split; [done|]. intros q Hqp.
      destruct (Z.eq_dec q p) as [->|]; [lia|]. apply Hb. lia.
Qed.

(** The URI of the request lies in the buffer, a byte follows it, and the path
    ends where [r->args_start] says. *)
Definition uri_in_buffer (mem : list Z) (r : request) : Prop :=
  0 <= pv (uri_start r) < pv (uri_end r) /\ pv (uri_end r) < Z.of_nat (length mem) /\
  byte_at mem (pv (uri_start r)) = #"/" /\
  match args_start r with
  | Some a => pv (uri_start r) < a <= pv (uri_end r) /\ byte_at mem (a - 1) = #"?"
  | None => True
  end.

(** The local variables once the first byte is read. *)
Definition cu_init (mem : list Z) (r : request) : cu :=
  mk_cu (pv (uri_start r) + 1) (byte_at mem (pv (uri_start r))) cu_usual cu_usual 0 [] None None
    (plus_in_uri r) (quoted_uri r).

Definition lim_of (r : request) : Z := pv (uri_start r) + raw_uri_len r.

Lemma lim_of_ok mem r :
  uri_in_buffer mem r ->
  pv (uri_start r) <= lim_of r <= pv (uri_end r) /\
  (lim_of r = pv (uri_end r) \/ byte_at mem (lim_of r) = #"?").
Proof.
  intros (H1 & H2 & H3 & H4). unfold lim_of, raw_uri_len.
  destruct (args_start r) as [a|].
  - replace (pv (uri_start r) + (a - 1 - pv (uri_start r))) with (a - 1) by lia.
    split; [lia|]. right. apply H4.
  - lia.
Qed.

Lemma cu_init_inv mem merge r :
  Forall is_byte mem -> uri_in_buffer mem r ->
  cu_inv mem merge (pv (uri_start r)) (lim_of r) (cu_init mem r) /\
  pv (uri_start r) < lim_of r.
Proof.
  intros Hm H. destruct (lim_of_ok mem r H) as [Hl Hq]. destruct H as (H1 & H2 & H3 & H4).
  assert (Hlt : pv (uri_start r) < lim_of r).
  { destruct (Z.eq_dec (lim_of r) (pv (uri_start r))) as [E|]; [|lia].
    rewrite E, H3 in Hq. destruct Hq; lia. }
  split; [|done]. unfold cu_inv, cu_u, cu_init. cbn [cu_p cu_out cu_ch cu_args cu_state length].
  split_and!; try lia; try done; [by apply byte_at_range|by left].
Qed.

(** The ways the function ends, from the loop's end. *)
Lemma parse_complex_uri_cases mem merge r :
  Forall is_byte mem -> uri_in_buffer mem r ->
  exists a,
    cu_loop mem (raw_uri_len r + 1) merge (cu_fuel (pv (uri_start r)) (pv (uri_end r)))
      (pv (uri_end r)) (cu_init mem r) = Some a /\
    match a with
    | CuInvalid => parse_complex_uri mem (raw_uri_len r + 1) merge r = Some CuBad
    | CuDone s =>
        parse_complex_uri mem (raw_uri_len r + 1) merge r = Some (cu_finish None None s) /\
        cu_post merge (pv (uri_start r)) (lim_of r) s
    | CuArgs s =>
        exists h, find_hash mem (Z.to_nat (pv (uri_end r) - cu_p s) + 1) (cu_p s)
            (pv (uri_end r)) = Some h /\
          parse_complex_uri mem (raw_uri_len r + 1) merge r =
            Some (match h with
                  | Some h => cu_finish (Some (cu_p s, h - cu_p s)) None s
                  | None => cu_finish None (Some (cu_p s)) s
                  end) /\
          cu_post merge (pv (uri_start r)) (lim_of r) s
    | CuNext _ | CuFault => False
    end.
Proof.
  intros Hm H. destruct (cu_init_inv mem merge r Hm H) as [HI Hlt].
  destruct (lim_of_ok mem r H) as [Hl Hq]. destruct H as (H1 & H2 & H3 & H4).
  unfold parse_complex_uri. rewrite rd_Some by lia. fold (cu_init mem r).
  destruct (cu_loop_good mem merge (pv (uri_start r)) (pv (uri_end r)) (lim_of r) Hm
              ltac:(lia) H2 Hl Hq (cu_fuel (pv (uri_start r)) (pv (uri_end r))) (cu_init mem r)
              Hlt HI) as (a & Ha & Hpost).
  { unfold cu_measure, cu_fuel. cbn. case_decide; lia. }
  replace (lim_of r - pv (uri_start r)) with (raw_uri_len r) in Ha by (unfold lim_of; lia).
  rewrite Ha. exists a. split; [done|]. destruct a as [s|s|s| |]; try done.
  - destruct Hpost as [Hpost ->]. done.
  - destruct Hpost as (Hpost & Hp & ->).
    destruct (find_hash_total mem (pv (uri_end r)) ltac:(lia)
                (Z.to_nat (pv (uri_end r) - cu_p s) + 1) (cu_p s) ltac:(lia) ltac:(lia))
      as (h & Hh & _).
    exists h. split; [done|]. split; [|done]. rewrite Hh. by destruct h.
Qed.

(** ** Normal URIs *)

Definition normal (merge : bool) (uri : list Z) : Prop :=
  (exists t, uri = #"/" :: t) /\
  forall a b,
    uri <> a ++ bytes "/./" ++ b /\ uri <> a ++ bytes "/../" ++ b /\
    (merge = true -> uri <> a ++ bytes "//" ++ b).

Lemma norm_contains merge l a pat b :
  norm merge l -> rev l = a ++ pat ++ b -> norm merge (rev pat ++ rev a).
Proof.
  intros Hn E. apply (f_equal (@rev Z)) in E. rewrite rev_involutive, !rev_app_distr in E.
  rewrite E, <-app_assoc in Hn. by apply norm_suffix in Hn.
Qed.

Lemma norm_normal merge l : norm merge l -> last l = Some #"/" -> normal merge (rev l).
Proof.
  intros Hn Hl. split.
  - apply last_Some in Hl as [l' ->]. rewrite rev_app_distr. by eexists.
  - intros a b. split_and!; [intros E|intros E|intros Hm E];
      apply (norm_contains merge) in E; try done; destruct E as [_ (E1 & E2 & E3)]; try done.
    + by eapply E1.
    + by eapply E2.
    + by eapply E3.
Qed.

Lemma clean_normal mem us e :
  0 <= us -> e <= Z.of_nat (length mem) -> clean mem us e -> forall merge, normal merge (slice mem us e).
Proof.
  intros H0 He (H1 & H2 & H3) merge. split.
  - rewrite slice_cons by lia. rewrite H2. by eexists.
  - assert (Hno : forall a x b, slice mem us e = a ++ #"/" :: x :: b -> x <> #"/" /\ x <> #".").
    { intros a x b E.
      pose proof (length_slice mem us e ltac:(lia) He) as Hlen.
      set (k := Z.of_nat (length a)). rewrite E, length_app in Hlen. cbn in Hlen.
      assert (Hk : byte_at mem (us + k) = 47).
      { rewrite <-(byte_at_slice mem us e) by lia. rewrite E. by apply byte_at_middle. }
      assert (Hx : byte_at mem (us + k + 1) = x).
      { replace (us + k + 1) with (us + (k + 1)) by lia.
        rewrite <-(byte_at_slice mem us e) by lia. rewrite E.
        change (47 :: x :: b) with ([47] ++ x :: b). rewrite app_assoc. apply byte_at_middle.
        rewrite length_app. cbn. lia. }
      destruct (H3 (us + k + 1) ltac:(lia)) as (_ & _ & _ & _ & Hs). rewrite Hx in Hs.
      apply Hs; [lia|]. by replace (us + k + 1 - 1) with (us + k) by lia. }
    intros a b. split_and!; [intros E|intros E|intros _ E]; by apply Hno in E as [? ?].
Qed.

(** ** From the request line to the URI *)

Lemma rl_inv_create lo : 0 <= lo -> rl_inv lo lo (rl_state create_request, create_request).
Proof. intros. cbn. unfold no_uri, no_host. cbn. split; [done|lia]. Qed.

(** What the parser of the request line hands over. *)
Lemma request_line_uri mem b r b' :
  Forall is_byte mem -> 0 <= b_pos b <= b_last b -> b_last b <= Z.of_nat (length mem) ->
  parse_request_line mem create_request b = Some (NGX_OK, r, b') ->
  uri_in_buffer mem r /\ path_done mem r.
Proof.
  intros Hm Hb Hl H.
  destruct (request_line_inv (b_pos b) mem create_request b NGX_OK r b' Hm) as [Hok _];
    [lia|apply rl_inv_create; lia|done|].
  destruct (parse_request_line_path mem create_request b NGX_OK r b' Hm) as [Hp _]; [lia|done|done|].
  specialize (Hok eq_refl) as [(R1 & R2 & R3 & R4 & R5 & R6 & R7 & R8) Hpos].
  specialize (Hp eq_refl). split; [|done]. destruct Hp as [[Hs Ha] _].
  unfold uri_in_buffer. split_and!; [lia..|done|].
  destruct (args_start r) as [a|] eqn:E; [|done]. cbn in R5, Ha.
  destruct Ha as [?|Ha]; [done|]. destruct R5 as [?|?]; [|done].
  cbn in *. subst a. unfold byte_at in Ha. done.
Qed.

Lemma path_end_lim r : uri_start r <> None -> path_end r = lim_of r.
Proof. unfold path_end, lim_of, raw_uri_len. intros. destruct (args_start r); lia. Qed.

(** C1: after [ngx_http_parse_request_line] has accepted a line, the URI is
    processed without an access outside the request or the buffer of
    [r->uri.len + 1] bytes, and ends in a URI or an error code.  A URI that is
    produced begins with "/" and contains no "/./" and no "/../", nor "//" when
    slashes are merged, whatever escapes the request used; it is no longer
    than the path of the request line. *)
Theorem process_request_uri_normal mem merge alloc b r b' :
  Forall is_byte mem -> 0 <= b_pos b <= b_last b -> b_last b <= Z.of_nat (length mem) ->
  parse_request_line mem create_request b = Some (NGX_OK, r, b') ->
  exists o, process_request_uri mem merge alloc r = Some o /\ o <> PuCrash /\
    forall u, o = PuOk u -> normal merge (ru_uri u) /\
      Z.of_nat (length (ru_uri u)) <= raw_uri_len r.
Proof.
  intros Hm Hb Hl H. destruct (request_line_uri mem b r b' Hm Hb Hl H) as [Hu Hp].
  unfold process_request_uri.
  destruct (complex_uri r || quoted_uri r) eqn:Hc.
  - destruct alloc; cbn [negb]; [|by exists PuServerError].
    destruct (parse_complex_uri_cases mem merge r Hm Hu) as (a & _ & Ha).
    assert (Hpost : forall s, cu_post merge (pv (uri_start r)) (lim_of r) s ->
      normal merge (rev (cu_out s)) /\ Z.of_nat (length (rev (cu_out s))) <= raw_uri_len r).
    { intros s (Hn & Hla & Hlen). split; [by apply norm_normal|].
      rewrite length_rev. unfold cu_u, lim_of in *. lia. }
    destruct a as [s|s|s| |]; try done.
    + destruct Ha as [-> Hs]. apply Hpost in Hs. eexists. split_and!; [done|done|].
      by intros u [= <-].
    + destruct Ha as (h & _ & -> & Hs). apply Hpost in Hs.
      destruct h; eexists; (split_and!; [done|done|]); by intros u [= <-].
    + rewrite Ha. by eexists.
  - apply orb_false_iff in Hc as [Hc Hq]. eexists. split_and!; [done|done|].
    intros u [= <-]. cbn [ru_uri].
    destruct (lim_of_ok mem r Hu) as [Hlim _]. unfold lim_of in Hlim.
    destruct Hu as (U1 & U2 & U3 & U4).
    split; [|rewrite length_slice; lia]. apply clean_normal; [lia|lia|].
    destruct Hp as [_ [[?|[?|[Ha Hpl]]]|[Ha Hpl]]]; try congruence; destruct Hpl as [Hcl _].
    + unfold raw_uri_len in *. destruct (args_start r) as [a|]; [|done].
      cbn in Hcl. by replace (pv (uri_start r) + (a - 1 - pv (uri_start r))) with (a - 1) by lia.
    + unfold raw_uri_len in *. rewrite Ha.
      by replace (pv (uri_start r) + (pv (uri_end r) - pv (uri_start r))) with (pv (uri_end r)) by lia.
Qed.

(** ** The fast path

    For a path with nothing to decode and nothing to resolve the long way gives
    what the raw bytes give. *)

Section Fast.
Context (mem : list Z) (merge : bool) (us ue e : Z).
Context (Hmem : Forall is_byte mem) (Hus : 0 <= us) (Hue : ue < Z.of_nat (length mem)).
Context (He : us < e <= ue) (Hc : clean mem us e) (Hend : e = ue \/ byte_at mem e = #"?").

(** At the byte [i] of the path the output is the path so far. *)
Definition fast_inv (i : Z) (s : cu) : Prop :=
  us <= i <= e /\ cu_p s = i + 1 /\ cu_ch s = byte_at mem i /\
  cu_out s = rev (slice mem us i) /\ cu_args s = None /\
  cu_state s = (if (us <? i) && (byte_at mem (i - 1) =? #"/") then cu_slash else cu_usual) /\
  (fun x => us + x) <$> cu_ext s = ext_at mem us i.

Lemma slice_rev_snoc i :
  us <= i < e -> rev (slice mem us (i + 1)) = byte_at mem i :: rev (slice mem us i).
Proof. intros. rewrite slice_snoc, rev_app_distr by lia. done. Qed.

Lemma fast_next i st s :
  us <= i < e -> cu_p s = i + 1 -> cu_args s = None ->
  st = (if byte_at mem i =? #"/" then cu_slash else cu_usual) ->
  (fun x => us + x) <$> cu_ext s = ext_at mem us (i + 1) ->
  exists s', cu_next mem (e - us + 1) st (byte_at mem i :: rev (slice mem us i)) s = CuNext s' /\
    fast_inv (i + 1) s'.
Proof.
  intros Hi Hp Ha -> Hx.
  assert (Z.of_nat (length (rev (slice mem us i))) = i - us)
    by (rewrite length_rev, length_slice; lia).
  rewrite cu_next_ok by (cbn [length]; lia). eexists. split; [done|].
  unfold fast_inv. cbn. rewrite slice_rev_snoc by lia. split_and!; try done; try lia.
  - f_equal. lia.
  - assert ((us <? i + 1) = true) as -> by lia. cbn [andb].
    by replace (i + 1 - 1) with i by lia.
Qed.

Lemma fast_step i s :
  fast_inv i s -> i < e ->
  exists s', cu_step mem (e - us + 1) merge s = CuNext s' /\ fast_inv (i + 1) s'.
Proof.
  intros (Hi & Hp & Hch & Ho & Ha & Hst & Hx) Hlt.
  destruct Hc as (_ & Hfirst & Hcl). pose proof (Hcl i ltac:(lia)) as (C1 & C2 & C3 & C4 & C5).
  pose proof (byte_at_range mem i Hmem) as Hb.
  assert (Hlen : cu_u s = i - us) by (unfold cu_u; rewrite Ho, length_rev, length_slice; lia).
  unfold cu_step, cu_push. rewrite Hst.
  destruct ((us <? i) && (byte_at mem (i - 1) =? 47)) eqn:Hs.
  - specialize (C5 ltac:(lia) ltac:(lia)). unfold cu_on_slash, cu_push. cbn zeta. rewrite Ho, Hch.
    assert (Hx' : (fun x => us + x) <$> cu_ext s = ext_at mem us (i + 1))
      by (rewrite Hx, ext_at_snoc by lia; case_ifs; done || lia).
    destruct (usual_bit (byte_at mem i)); case_ifs; try lia;
      apply fast_next; try done; try lia; by assert ((byte_at mem i =? 47) = false) as -> by lia.
  - unfold cu_on_usual, cu_push. cbn zeta. rewrite Ho, Hch, Hlen, Hst.
    destruct (usual_bit (byte_at mem i)) eqn:Hu.
    { apply usual_not_special in Hu; [|done]. apply fast_next; try done; try lia.
      - by assert ((byte_at mem i =? 47) = false) as -> by lia.
      - rewrite Hx, ext_at_snoc by lia. case_ifs; done || lia. }
    case_ifs; try lia; apply fast_next; try done; try lia;
      try (by assert ((byte_at mem i =? 47) = false) as -> by lia);
      try (by assert ((byte_at mem i =? 47) = true) as -> by lia);
      cbn [cu_ext cu_set_ext cu_set_plus fmap option_fmap option_map];
      rewrite ?Hx, ext_at_snoc by lia; case_ifs; try lia; try done.
    f_equal. lia.
Qed.

Lemma fast_loop fuel : forall i s,
  fast_inv i s -> e + 1 - i < Z.of_nat fuel ->
  exists s', fast_inv e s' /\
    cu_loop mem (e - us + 1) merge fuel ue s =
      Some (if e <? ue then CuArgs (cu_set_args s') else CuDone s').
Proof.
  induction fuel as [|f IH]; intros i s HI Hf; [destruct HI; lia|].
  pose proof HI as (Hi & Hp & Hch & Ho & Ha & Hst & Hx). cbn [cu_loop]. rewrite Hp.
  destruct (Z.eq_dec i e) as [->|Hne].
  - exists s. split; [done|]. destruct (e <? ue) eqn:Hlt.
    + assert ((e + 1 <=? ue) = true) as -> by lia.
      assert (Hq : byte_at mem e = 63) by (destruct Hend; [lia|done]).
      unfold cu_step. rewrite Hst. by case_ifs; unfold cu_on_slash, cu_on_usual; rewrite Hch, Hq.
    + by assert ((e + 1 <=? ue) = false) as -> by lia.
  - assert ((i + 1 <=? ue) = true) as -> by lia.
    destruct (fast_step i s HI ltac:(lia)) as (s' & -> & HI'). apply (IH (i + 1)); [done|lia].
Qed.

End Fast.

Lemma ext_at_bounds mem us e y : ext_at mem us e = Some y -> us < y.
Proof.
  unfold ext_at. induction (Z.to_nat (e - us)) as [|n IH]; [done|]. cbn [ext_of].
  case_ifs; [done| |done]. intros [= <-]. lia.
Qed.

Lemma drop_slice mem us e x :
  0 <= us -> 0 <= x -> drop (Z.to_nat x) (slice mem us e) = slice mem (us + x) e.
Proof.
  intros. unfold slice. rewrite skipn_firstn_comm, drop_drop.
  f_equal; [lia|]. f_equal. lia.
Qed.

(** The long way over a clean path. *)
Lemma parse_complex_uri_clean mem merge r :
  Forall is_byte mem -> uri_in_buffer mem r ->
  clean mem (pv (uri_start r)) (lim_of r) ->
  (forall i, lim_of r < i < pv (uri_end r) -> byte_at mem i <> #"#") ->
  exists plus quot,
    parse_complex_uri mem (raw_uri_len r + 1) merge r =
      Some (CuOk (mk_result (slice mem (pv (uri_start r)) (lim_of r))
        ((fun x => slice mem x (lim_of r)) <$> ext_at mem (pv (uri_start r)) (lim_of r))
        None (args_start r) plus quot)).
Proof.
  intros Hm Hu Hc Hh. pose proof (lim_of_ok mem r Hu) as [Hl Hq].
  pose proof (cu_init_inv mem merge r Hm Hu) as [_ Hlt].
  destruct (parse_complex_uri_cases mem merge r Hm Hu) as (a & Ha & Hpost).
  destruct Hu as (U1 & U2 & U3 & U4).
  replace (raw_uri_len r) with (lim_of r - pv (uri_start r)) in Ha by (unfold lim_of; lia).
  destruct (fast_loop mem merge (pv (uri_start r)) (pv (uri_end r)) (lim_of r) Hm ltac:(lia)
    U2 ltac:(lia) Hc Hq (cu_fuel (pv (uri_start r)) (pv (uri_end r))) (pv (uri_start r))
    (cu_init mem r)) as (s & HI & HL).
  { unfold fast_inv. cbn. rewrite slice_nil, Z.ltb_irrefl by lia. unfold ext_at.
    rewrite Z.sub_diag. split_and!; try done; lia. }
  { unfold cu_fuel. lia. }
  rewrite HL in Ha. injection Ha as <-.
  destruct HI as (_ & Hp & _ & Ho & _ & _ & Hx).
  assert (Hfin : forall args args_start s', cu_out s' = cu_out s -> cu_ext s' = cu_ext s ->
    cu_finish args args_start s' = CuOk (mk_result (slice mem (pv (uri_start r)) (lim_of r))
        ((fun x => slice mem x (lim_of r)) <$> ext_at mem (pv (uri_start r)) (lim_of r))
        args args_start (cu_plus s') (cu_quot s'))).
  { intros args astart s' Ho' Hx'. unfold cu_finish. rewrite Ho', Hx', Ho, rev_involutive, <-Hx.
    f_equal. f_equal. destruct (cu_ext s) as [x|]; [|done]. cbn. f_equal.
    cbn in Hx. symmetry in Hx. apply ext_at_bounds in Hx. apply drop_slice; lia. }
  destruct (lim_of r <? pv (uri_end r)) eqn:E.
  - destruct Hpost as (h & Hh' & -> & _). cbn [cu_p cu_set_args] in Hh'. rewrite Hp in Hh'.
    destruct (find_hash_total mem (pv (uri_end r)) ltac:(lia)
      (Z.to_nat (pv (uri_end r) - (lim_of r + 1)) + 1) (lim_of r + 1) ltac:(lia) ltac:(lia))
      as (h' & Hh2 & Hb). rewrite Hh2 in Hh'. injection Hh' as ->.
    destruct h as [h|]; [exfalso; apply (Hh h); [lia|tauto]|].
    rewrite Hfin by done. do 2 eexists. do 3 f_equal.
    cbn. rewrite Hp. unfold lim_of, raw_uri_len in *.
    destruct (args_start r); [|lia]. f_equal. lia.
  - destruct Hpost as [-> _]. rewrite Hfin by done. do 2 eexists. do 3 f_equal.
    unfold lim_of, raw_uri_len in *. destruct (args_start r); [lia|done].
Qed.

(** For a request whose path needs no decoding and no normalisation, the
    fast path of [ngx_http_process_request_uri] stores the URI, the extension
    and the arguments that [ngx_http_parse_complex_uri] would have computed. *)
Theorem process_request_uri_fast mem merge r :
  Forall is_byte mem -> uri_in_buffer mem r ->
  clean mem (pv (uri_start r)) (path_end r) ->
  uri_ext r = ext_at mem (pv (uri_start r)) (path_end r) ->
  (forall i, path_end r < i < pv (uri_end r) -> byte_at mem i <> #"#") ->
  process_request_uri mem merge true (set_complex_uri true r) =
  process_request_uri mem merge true (set_complex_uri false (set_quoted_uri false r)).
Proof.
  intros Hm Hu Hc Hx Hh.
  assert (Hpe : path_end r = lim_of r)
    by (unfold path_end, lim_of, raw_uri_len; destruct (args_start r); lia).
  assert (Hpe' : match args_start r with Some a => a - 1 | None => pv (uri_end r) end = lim_of r)
    by exact Hpe.
  rewrite Hpe in *.
  destruct (parse_complex_uri_clean mem merge (set_complex_uri true r) Hm Hu Hc Hh)
    as (plus & quot & E).
  unfold process_request_uri.
  cbn [complex_uri quoted_uri set_complex_uri set_quoted_uri orb negb uri_start uri_end
    space_in_uri args_start uri_ext] in *.
  rewrite E. cbn [res_uri res_exten res_args res_args_start]. rewrite Hpe'.
  do 3 f_equal. rewrite Hx. by destruct (ext_at _ _ _).
Qed.

(** ** Witnesses *)

(** "GET /a/%2e%2e/b HTTP/1.1" *)
Definition escaped_line : list Z := bytes "GET /a/%2e%2e/b HTTP/1.1" ++ [13; 10].

Lemma process_request_uri_normal_witness :
  exists r b', parse_request_line escaped_line create_request (mk_buf 0 26) = Some (NGX_OK, r, b') /\
    exists o, process_request_uri escaped_line true true r = Some o /\ o <> PuCrash /\
      forall u, o = PuOk u -> normal true (ru_uri u) /\
        Z.of_nat (length (ru_uri u)) <= raw_uri_len r.
Proof.
  do 2 eexists. split; [vm_compute; reflexivity|].
  eapply (process_request_uri_normal escaped_line true true (mk_buf 0 26)).
  - apply bytes_ok_spec. vm_compute. reflexivity.
  - cbn. lia.
  - cbn. lia.
  - vm_compute. reflexivity.
Defined.

(** "/a/b.html?q=1" of the sample line. *)
Definition sample_fast : request :=
  set_args_start (Some 14) (set_uri_ext (Some 9)
    (set_uri_end (Some 17) (set_uri_start (Some 4) create_request))).

(** Decides [clean]. *)
Definition cleanb (mem : list Z) (us e : Z) : bool :=
  (us <? e) && (byte_at mem us =? #"/") &&
  forallb (fun k =>
    let i := us + Z.of_nat k in
    let c := byte_at mem i in
    negb (c =? 0) && negb (c =? #"#") && negb (c =? #"%") && negb (c =? #"?") &&
    (negb (us <? i) || negb (byte_at mem (i - 1) =? #"/") || (negb (c =? #"/") && negb (c =? #"."))))
    (seq 0 (Z.to_nat (e - us))).

Lemma cleanb_spec mem us e : cleanb mem us e = true -> clean mem us e.
Proof.
  unfold cleanb. rewrite !andb_true_iff, forallb_forall. intros [[H1 H2] H3].
  split_and!; [lia|lia|]. intros i Hi. specialize (H3 (Z.to_nat (i - us))).
  rewrite in_seq in H3. specialize (H3 ltac:(lia)). cbn zeta in H3.
  replace (us + Z.of_nat (Z.to_nat (i - us))) with i in H3 by lia.
  unfold clean_at. lia.
Qed.

Lemma process_request_uri_fast_witness :
  process_request_uri sample_line true true (set_complex_uri true sample_fast) =
  process_request_uri sample_line true true (set_complex_uri false (set_quoted_uri false sample_fast)).
Proof.
  apply process_request_uri_fast.
  - apply bytes_ok_spec. vm_compute. reflexivity.
  - vm_compute. repeat split; discriminate.
  - apply cleanb_spec. vm_compute. reflexivity.
  - vm_compute. reflexivity.
  - cbn. intros i Hi E. assert (i = 14 \/ i = 15 \/ i = 16) as [-> | [-> | ->]] by lia;
      vm_compute in E; discriminate.
Defined.
