(* ===== verification/UriNormal.v ===== *)
(** * What ngx_http_parse_complex_uri computes

    A reference for the slow path of URI processing, with slashes merged (the
    default of [merge_slashes]): decode the escapes of the path up to the
    first "?" or "#", split it at its slashes, drop the empty and "." segments
    and let ".." remove the segment before it.  The state machine of
    [ComplexUri], which does all of this in one pass over one buffer, is shown
    to compute the reference, errors included. *)

From S2P Require Import Prelude Fsm RequestLine RequestPath ComplexUri.

(** ** Reference *)

Definition hexval (c : Z) : option Z :=
  if is_digit c then Some (c - #"0")
  else if is_hex_alpha c then Some (lower c - #"a" + 10)
  else None.

(** The decoded bytes of the path: an escape cut off by the end of the URI is
    dropped, a NUL and a "%" without two hexadecimal digits are errors. *)
Fixpoint decode (l : list Z) : option (list Z) :=
  match l with
  | [] => Some []
  | c :: l1 =>
      if c =? #"%" then
        match l1 with
        | [] => Some []
        | h1 :: l2 =>
            match hexval h1 with
            | None => None
            | Some d1 =>
                match l2 with
                | [] => Some []
                | h2 :: l3 =>
                    match hexval h2 with
                    | None => None
                    | Some d2 =>
                        if 16 * d1 + d2 =? 0 then None
                        else cons (16 * d1 + d2) <$> decode l3
                    end
                end
            end
        end
      else if (c =? #"?") || (c =? #"#") then Some []
      else cons c <$> decode l1
  end.

(** A "/" ends the segment [cur]; [segs] are the segments before it, last
    first. *)
Definition push (cur : list Z) (segs : list (list Z)) : option (list (list Z)) :=
  if bytes_eqb cur [] || bytes_eqb cur [ #"." ] then Some segs
  else if bytes_eqb cur [ #"."; #"." ] then
    match segs with
    | [] => None
    | _ :: segs' => Some segs'
    end
  else Some (cur :: segs).

Definition render (segs : list (list Z)) (cur : list Z) : list Z :=
  concat (map (cons #"/") (rev segs)) ++ #"/" :: cur.

(** The last segment stays as it is: "/a/.." is not resolved. *)
Fixpoint resolve (segs : list (list Z)) (cur l : list Z) : option (list Z) :=
  match l with
  | [] => Some (render segs cur)
  | c :: l' =>
      if c =? #"/" then
        match push cur segs with
        | None => None
        | Some segs' => resolve segs' [] l'
        end
      else resolve segs (cur ++ [c]) l'
  end.

(** ** The state machine and the segments *)

Definition class (cur : list Z) : cu_st :=
  if bytes_eqb cur [] then cu_slash
  else if bytes_eqb cur [ #"." ] then cu_dot
  else if bytes_eqb cur [ #"."; #"." ] then cu_dot_dot
  else cu_usual.

Definition seg_ok (seg : list Z) : Prop := Forall (fun c => c <> #"/") seg.

Definition repr (st : cu_st) (out : list Z) (segs : list (list Z)) (cur : list Z) : Prop :=
  out = rev (render segs cur) /\ st = class cur /\ seg_ok cur /\
  Forall (fun seg => seg <> [] /\ seg_ok seg) segs.

Lemma rev_render segs cur :
  rev (render segs cur) =
    rev cur ++ #"/" :: rev (concat (map (cons #"/") (rev segs))).
Proof. unfold render. rewrite rev_app_distr. cbn. by rewrite <-app_assoc. Qed.

Lemma rev_render_cons seg segs cur :
  rev (render (seg :: segs) cur) = rev cur ++ #"/" :: rev seg ++ rev (render segs []).
Proof.
  rewrite !rev_render. cbn [rev app]. rewrite map_app, concat_app, rev_app_distr. cbn.
  by rewrite app_nil_r, <-app_assoc.
Qed.

Lemma bytes_eqb_snoc_nil cur (c : Z) : bytes_eqb (cur ++ [c]) [] = false.
Proof. by destruct cur. Qed.

Lemma class_snoc_other cur c : c <> #"." -> class (cur ++ [c]) = cu_usual.
Proof.
  intros Hc. unfold class. rewrite bytes_eqb_snoc_nil.
  destruct cur as [|x [|y [|z cur]]]; cbn; case_ifs; try done; lia.
Qed.

Lemma repr_other segs cur st out c :
  repr st out segs cur -> c <> #"." -> c <> #"/" -> repr cu_usual (c :: out) segs (cur ++ [c]).
Proof.
  intros (-> & _ & Hc & Hs) H1 H2. unfold repr. rewrite class_snoc_other by done.
  split_and!; [|done| |done].
  - rewrite !rev_render, rev_app_distr. done.
  - apply Forall_app. split; [done|]. by repeat constructor.
Qed.

Definition dot_next (st : cu_st) : cu_st :=
  match st with cu_slash => cu_dot | cu_dot => cu_dot_dot | _ => cu_usual end.

Lemma repr_dot segs cur st out :
  repr st out segs cur -> repr (dot_next st) (#"." :: out) segs (cur ++ [ #"." ]).
Proof.
  intros (-> & -> & Hc & Hs). split_and!.
  - rewrite !rev_render, rev_app_distr. done.
  - unfold class. rewrite bytes_eqb_snoc_nil.
    destruct cur as [|x [|y [|z cur]]]; cbn; case_ifs; try done; try lia.
  - apply Forall_app. split; [done|]. by repeat constructor.
  - done.
Qed.

Lemma repr_slash segs : Forall (fun seg => seg <> [] /\ seg_ok seg) segs ->
  repr cu_slash (rev (render segs [])) segs [].
Proof. intros H. unfold repr, seg_ok. split_and!; [done|done|constructor|done]. Qed.

Lemma back_to_slash_app l R : seg_ok l -> back_to_slash (l ++ #"/" :: R) = Some (#"/" :: R).
Proof.
  induction 1 as [|c l Hc _ IH]; [done|]. cbn [app back_to_slash].
  by assert ((c =? 47) = false) as -> by lia.
Qed.

Lemma pop_segment seg segs out :
  out = rev (render (seg :: segs) [ #"."; #"." ]) -> seg <> [] -> seg_ok seg ->
  back_to_slash (drop 4 out) = Some (rev (render segs [])).
Proof.
  intros -> Hne Hs. rewrite rev_render_cons.
  destruct (rev seg) as [|x l] eqn:E.
  { apply (f_equal (@rev Z)) in E. by rewrite rev_involutive in E. }
  assert (Hl : seg_ok l).
  { assert (H : seg_ok (rev seg)) by by apply Forall_rev. rewrite E in H. by inversion H. }
  cbn. rewrite rev_render. by apply back_to_slash_app.
Qed.

(** ** One character *)

Section Emit.
Context (mem : list Z) (cap : Z).

(** A character that is neither "/" nor the start of something else. *)
Lemma emit_other s segs cur :
  repr (cu_state s) (cu_out s) segs cur -> is_byte (cu_ch s) ->
  cu_ch s <> #"%" -> cu_ch s <> #"?" -> cu_ch s <> #"#" -> cu_ch s <> #"/" ->
  exists st s1, cu_step mem cap true s = cu_next mem cap st (cu_ch s :: cu_out s) s1 /\
    cu_p s1 = cu_p s /\ repr st (cu_ch s :: cu_out s) segs (cur ++ [cu_ch s]).
Proof.
  intros Hr Hb H1 H2 H3 H4.
  assert (Hu : usual_bit (cu_ch s) = true -> cu_ch s <> #".").
  { intros Hu. apply usual_not_special in Hu; [tauto|done]. }
  assert (Hother : cu_ch s <> #"." -> forall st, st = cu_usual ->
    repr st (cu_ch s :: cu_out s) segs (cur ++ [cu_ch s])).
  { intros Hd st ->. by eapply repr_other. }
  assert (Hdot : cu_ch s = #"." -> forall st, st = dot_next (cu_state s) ->
    repr st (cu_ch s :: cu_out s) segs (cur ++ [cu_ch s])).
  { intros -> st ->. by apply repr_dot. }
  unfold cu_step, cu_on_usual, cu_on_slash, cu_on_dot, cu_on_dot_dot, cu_push. cbn zeta.
  destruct (cu_state s) eqn:Hst;
    [| | | |destruct Hr as (_ & Hc & _); unfold class in Hc; by case_ifs_in Hc..].
  all: destruct (usual_bit (cu_ch s)); case_ifs; try lia; do 2 eexists;
    (split; [reflexivity|]); (split; [reflexivity|]).
  all: destruct (Z.eq_dec (cu_ch s) 46) as [E|E];
    try solve [ by apply Hother | by apply Hdot | (exfalso; lia) | (exfalso; by apply Hu) ].
Qed.

Lemma emit_slash s segs cur :
  repr (cu_state s) (cu_out s) segs cur -> cu_ch s = #"/" ->
  match push cur segs with
  | None => cu_step mem cap true s = CuInvalid
  | Some segs' =>
      exists s1, cu_step mem cap true s = cu_next mem cap cu_slash (rev (render segs' [])) s1 /\
        cu_p s1 = cu_p s /\ repr cu_slash (rev (render segs' [])) segs' []
  end.
Proof.
  intros (Ho & Hc & Hcur & Hs) Hch. unfold class in Hc. unfold push, cu_step.
  destruct (bytes_eqb cur []) eqn:E0; [|destruct (bytes_eqb cur [46]) eqn:E1; [|destruct (bytes_eqb cur [46; 46]) eqn:E2]];
    cbn [orb]; rewrite Hc.
  - apply bytes_eqb_eq in E0 as ->. exists s. split_and!; [|done|by apply repr_slash].
    unfold cu_on_slash. rewrite Hch, Hc, Ho. done.
  - apply bytes_eqb_eq in E1 as ->. exists s. split_and!; [|done|by apply repr_slash].
    unfold cu_on_dot. rewrite Hch, Ho, !rev_render. done.
  - apply bytes_eqb_eq in E2 as ->. unfold cu_on_dot_dot. rewrite Hch.
    change (usual_bit 47) with false. cbn [Z.eqb Pos.eqb].
    destruct segs as [|seg segs].
    { rewrite Ho. done. }
    inversion Hs as [|? ? [Hne Hok] Hs']; subst.
    rewrite (pop_segment seg segs _ Ho Hne Hok). exists s.
    split_and!; [done|done|by apply repr_slash].
  - exists (cu_set_ext None s). unfold cu_on_usual, cu_push. rewrite Hch, Ho.
    assert (Hr : 47 :: rev (render segs cur) = rev (render (cur :: segs) [])).
    { rewrite rev_render_cons, !rev_render. cbn. done. }
    rewrite Hr. split_and!; [done|done|]. apply repr_slash. constructor; [|done].
    split; [|done]. intros ->. done.
Qed.

End Emit.

(** ** Hexadecimal digits *)

Lemma hexval_digit c : is_digit c = true -> hexval c = Some (c - #"0") /\ 0 <= c - #"0" <= 9.
Proof. intros H. unfold hexval. rewrite H. unfold is_digit in H. split; [done|lia]. Qed.

Lemma hexval_alpha c :
  is_digit c = false -> is_hex_alpha c = true ->
  hexval c = Some (lower c - #"a" + 10) /\ 10 <= lower c - #"a" + 10 <= 15.
Proof.
  intros H1 H2. unfold hexval. rewrite H1, H2. unfold is_hex_alpha in H2. split; [done|lia].
Qed.

Lemma hexval_none c : is_digit c = false -> is_hex_alpha c = false -> hexval c = None.
Proof. intros H1 H2. unfold hexval. by rewrite H1, H2. Qed.

Lemma u8_small x : 0 <= x < 256 -> u8 x = x.
Proof. intros. apply Z.mod_small. lia. Qed.

Lemma shiftl_4 d : Z.shiftl d 4 = 16 * d.
Proof. rewrite Z.shiftl_mul_pow2 by lia. lia. Qed.

(** ** The loop *)

Section Refine.
Context (mem : list Z) (us ue lim : Z).
Context (Hmem : Forall is_byte mem) (Hus : 0 <= us) (Hue : ue < Z.of_nat (length mem)).
Context (Hlim : us <= lim <= ue) (Hq : lim = ue \/ byte_at mem lim = #"?").

Notation inv := (cu_inv mem true us lim).
Notation step := (cu_step mem (lim - us + 1) true).
Notation lp fuel s := (cu_loop mem (lim - us + 1) true fuel ue s).
Notation next := (cu_next mem (lim - us + 1)).

(** The loop reads on. *)
Lemma loop_next fuel s a st out s1 :
  inv s -> cu_p s <= ue -> step s = next st out s1 -> cu_p s1 = cu_p s -> lp fuel s = Some a ->
  exists fuel' s', lp fuel' s' = Some a /\ inv s' /\ cu_p s' = cu_p s + 1 /\
    cu_ch s' = byte_at mem (cu_p s) /\ cu_state s' = st /\ cu_out s' = out /\
    cu_qstate s' = cu_qstate s1 /\ cu_decoded s' = cu_decoded s1.
Proof.
  intros HI Hp Hs Hp1 Ha. destruct fuel as [|fuel]; [done|]. cbn [cu_loop] in Ha.
  assert ((cu_p s <=? ue) = true) as E by lia. rewrite E in Ha.
  pose proof (cu_step_good mem true us ue lim Hmem Hus Hue Hlim Hq s HI Hp) as Hg.
  rewrite Hs in Ha, Hg. unfold cu_next in Ha, Hg.
  destruct (lim - us + 1 <? Z.of_nat (length out)); [done|].
  destruct (rd mem (cu_p s1)) as [c|] eqn:Hrd; [|done].
  destruct Hg as [HI' _]. eexists fuel, _. split; [exact Ha|]. split; [exact HI'|]. cbn.
  apply byte_at_rd in Hrd. rewrite <-Hrd, Hp1. done.
Qed.

(** The loop goes on without reading. *)
Lemma loop_requote fuel s a s' :
  inv s -> cu_p s <= ue -> step s = CuNext s' -> lp fuel s = Some a ->
  inv s' /\ exists fuel', lp fuel' s' = Some a.
Proof.
  intros HI Hp Hs Ha. destruct fuel as [|fuel]; [done|]. cbn [cu_loop] in Ha.
  assert ((cu_p s <=? ue) = true) as E by lia. rewrite E in Ha.
  pose proof (cu_step_good mem true us ue lim Hmem Hus Hue Hlim Hq s HI Hp) as Hg.
  rewrite Hs in Ha, Hg. split; [apply Hg|by exists fuel].
Qed.

(** The loop ends here. *)
Lemma loop_last fuel s a :
  lp fuel s = Some a ->
  (cu_p s <= ue /\ match step s with CuNext _ => True | b => a = b end) \/
  (ue < cu_p s /\ a = CuDone s).
Proof.
  destruct fuel as [|fuel]; [done|]. cbn [cu_loop]. destruct (cu_p s <=? ue) eqn:E.
  - intros H. left. split; [lia|]. destruct (step s); [done|by injection H..].
  - intros [= <-]. right. split; [lia|done].
Qed.

(** What the reference says the loop ends in. *)
Definition agrees (d : option (list Z)) (segs : list (list Z)) (cur : list Z) (a : cu_action) : Prop :=
  match d with
  | None => a = CuInvalid
  | Some d =>
      match resolve segs cur d with
      | None => a = CuInvalid
      | Some uri => exists s, (a = CuDone s \/ a = CuArgs s) /\ cu_out s = rev uri
      end
  end.

Lemma agrees_other d segs cur c a :
  c <> #"/" -> agrees d segs (cur ++ [c]) a -> agrees (cons c <$> d) segs cur a.
Proof.
  intros Hc. destruct d as [d|]; [|done]. cbn. by assert ((c =? 47) = false) as -> by lia.
Qed.

Lemma agrees_slash d segs cur a :
  match push cur segs with
  | None => a = CuInvalid
  | Some segs' => agrees d segs' [] a
  end -> agrees (cons #"/" <$> d) segs cur a.
Proof. destruct d as [d|]; cbn; by destruct (push cur segs). Qed.

(** The state at a byte of the path that is not inside an escape. *)
Definition at_byte (s : cu) (segs : list (list Z)) (cur : list Z) : Prop :=
  inv s /\ cu_ch s = byte_at mem (cu_p s - 1) /\ repr (cu_state s) (cu_out s) segs cur.

Definition rest (s : cu) : list Z := slice mem (cu_p s - 1) ue.

(** The claim of the simulation, for the states with fewer bytes left. *)
Definition simulates (n : nat) : Prop := forall fuel s segs cur a,
  ue + 1 - cu_p s <= Z.of_nat n -> at_byte s segs cur -> lp fuel s = Some a ->
  agrees (decode (rest s)) segs cur a.

(** One character [ch], read or decoded, in a state outside escapes. *)
Lemma sim_char n fuel s segs cur a :
  simulates n -> inv s -> cu_p s <= ue -> ue - cu_p s <= Z.of_nat n ->
  repr (cu_state s) (cu_out s) segs cur ->
  cu_ch s <> #"%" -> cu_ch s <> #"?" -> cu_ch s <> #"#" ->
  lp fuel s = Some a -> agrees (cons (cu_ch s) <$> decode (slice mem (cu_p s) ue)) segs cur a.
Proof.
  intros IH HI Hp Hn Hr H1 H2 H3 Ha.
  pose proof HI as (_ & _ & _ & _ & Hb & _).
  destruct (Z.eq_dec (cu_ch s) #"/") as [E|E].
  - rewrite E. apply agrees_slash.
    pose proof (emit_slash mem (lim - us + 1) s segs cur Hr E) as He.
    destruct (push cur segs) as [segs'|].
    + destruct He as (s1 & Hs & Hp1 & Hr').
      destruct (loop_next _ _ _ _ _ _ HI Hp Hs Hp1 Ha) as (f & s' & Ha' & HI' & Hp' & Hc' & Hst & Ho & _).
      replace (slice mem (cu_p s) ue) with (rest s') by (unfold rest; f_equal; lia).
      eapply IH; [|split; [exact HI'|split]|exact Ha'].
      * lia.
      * rewrite Hc'. f_equal. lia.
      * by rewrite Hst, Ho.
    + apply loop_last in Ha as [[_ Ha]|[? _]]; [|lia]. by rewrite He in Ha.
  - apply agrees_other; [done|].
    destruct (emit_other mem (lim - us + 1) s segs cur Hr Hb H1 H2 H3 E) as (st & s1 & Hs & Hp1 & Hr').
    destruct (loop_next _ _ _ _ _ _ HI Hp Hs Hp1 Ha) as (f & s' & Ha' & HI' & Hp' & Hc' & Hst & Ho & _).
    replace (slice mem (cu_p s) ue) with (rest s') by (unfold rest; f_equal; lia).
    eapply IH; [|split; [exact HI'|split]|exact Ha'].
    * lia.
    * rewrite Hc'. f_equal. lia.
    * by rewrite Hst, Ho.
Qed.

(** A decoded "%", "#" or "?" is written whatever the state. *)
Lemma sim_written n fuel s s1 segs cur c a :
  simulates n -> inv s -> cu_p s <= ue -> ue - cu_p s <= Z.of_nat n ->
  repr (cu_qstate s) (cu_out s) segs cur -> c <> #"." -> c <> #"/" ->
  step s = next cu_usual (c :: cu_out s) s1 -> cu_p s1 = cu_p s ->
  lp fuel s = Some a -> agrees (cons c <$> decode (slice mem (cu_p s) ue)) segs cur a.
Proof.
  intros IH HI Hp Hn Hr H1 H2 Hs Hp1 Ha. apply agrees_other; [done|].
  destruct (loop_next _ _ _ _ _ _ HI Hp Hs Hp1 Ha) as (f & s' & Ha' & HI' & Hp' & Hc' & Hst & Ho & _).
  replace (slice mem (cu_p s) ue) with (rest s') by (unfold rest; f_equal; lia).
  eapply IH; [|split; [exact HI'|split]|exact Ha'].
  - lia.
  - rewrite Hc'. f_equal. lia.
  - rewrite Hst, Ho. by eapply repr_other.
Qed.

(** A decoded character that is read again in the state before the escape. *)
Lemma sim_requoted n fuel s s' segs cur a :
  simulates n -> inv s -> cu_p s <= ue -> ue - cu_p s <= Z.of_nat n ->
  repr (cu_qstate s) (cu_out s) segs cur ->
  step s = CuNext s' -> cu_p s' = cu_p s -> cu_state s' = cu_qstate s -> cu_out s' = cu_out s ->
  cu_ch s' <> #"%" -> cu_ch s' <> #"?" -> cu_ch s' <> #"#" ->
  lp fuel s = Some a -> agrees (cons (cu_ch s') <$> decode (slice mem (cu_p s) ue)) segs cur a.
Proof.
  intros IH HI Hp Hn Hr Hs Hp' Hst Ho H1 H2 H3 Ha.
  destruct (loop_requote _ _ _ _ HI Hp Hs Ha) as (HI' & f & Ha').
  rewrite <-Hp'. eapply sim_char; try done; [lia|lia|]. by rewrite Hst, Ho.
Qed.

(** The second digit of an escape. *)
Lemma sim_second n fuel s segs cur a :
  simulates n -> inv s -> cu_p s <= ue -> ue - cu_p s <= Z.of_nat n ->
  cu_state s = cu_quoted_second -> 0 <= cu_decoded s < 16 ->
  repr (cu_qstate s) (cu_out s) segs cur -> lp fuel s = Some a ->
  agrees (match hexval (cu_ch s) with
          | None => None
          | Some d2 =>
              if 16 * cu_decoded s + d2 =? 0 then None
              else cons (16 * cu_decoded s + d2) <$> decode (slice mem (cu_p s) ue)
          end) segs cur a.
Proof.
  intros IH HI Hp Hn Hst Hd Hr Ha.
  assert (Hstep : step s = cu_on_quoted_second mem (lim - us + 1) s) by (unfold cu_step; by rewrite Hst).
  assert (Hinvalid : step s = CuInvalid -> a = CuInvalid).
  { intros E. apply loop_last in Ha as [[_ Ha]|[? _]]; [|lia]. by rewrite E in Ha. }
  unfold cu_on_quoted_second in Hstep. rewrite shiftl_4 in Hstep.
  destruct (is_digit (cu_ch s)) eqn:E1.
  - destruct (hexval_digit _ E1) as [-> H9].
    replace (16 * cu_decoded s + cu_ch s - 48) with (16 * cu_decoded s + (cu_ch s - 48)) in Hstep by lia.
    rewrite u8_small in Hstep by lia.
    set (v := 16 * cu_decoded s + (cu_ch s - 48)) in *. cbn zeta in Hstep.
    destruct ((v =? 37) || (v =? 35)) eqn:Ev.
    + assert ((v =? 0) = false) as -> by lia.
      eapply sim_written; try done; lia.
    + destruct (v =? 0) eqn:E0; [by apply Hinvalid|].
      change v with (cu_ch (cu_requote v s)).
      eapply sim_requoted; try done; cbn; lia.
  - destruct (is_hex_alpha (cu_ch s)) eqn:E2.
    + destruct (hexval_alpha _ E1 E2) as [-> H9].
      replace (16 * cu_decoded s + lower (cu_ch s) - 97 + 10)
        with (16 * cu_decoded s + (lower (cu_ch s) - 97 + 10)) in Hstep by lia.
      rewrite u8_small in Hstep by lia.
      set (v := 16 * cu_decoded s + (lower (cu_ch s) - 97 + 10)) in *. cbn zeta in Hstep.
      assert ((v =? 0) = false) as -> by lia.
      destruct (v =? 63) eqn:Ev; [eapply sim_written; try done; lia|].
      destruct (v =? 43) eqn:Ev'.
      * change v with (cu_ch (cu_requote v (cu_set_plus s))).
        eapply sim_requoted; try done; cbn; lia.
      * change v with (cu_ch (cu_requote v s)).
        eapply sim_requoted; try done; cbn; lia.
    + rewrite hexval_none by done. by apply Hinvalid.
Qed.

(** What [decode] makes of the bytes after a "%". *)
Definition after_percent (l : list Z) : option (list Z) := decode (#"%" :: l).

Lemma sim_first n fuel s segs cur a :
  simulates n -> inv s -> cu_p s <= ue + 1 -> ue - cu_p s <= Z.of_nat n ->
  cu_state s = cu_quoted -> cu_ch s = byte_at mem (cu_p s - 1) ->
  repr (cu_qstate s) (cu_out s) segs cur -> lp fuel s = Some a ->
  agrees (after_percent (rest s)) segs cur a.
Proof.
  intros IH HI Hp Hn Hst Hch Hr Ha. unfold rest.
  assert (Hend : forall s', ue < cu_p s' -> cu_out s' = cu_out s ->
    forall f, lp f s' = Some a -> agrees (Some []) segs cur a).
  { intros s' Hp' Ho' f Ha'. apply loop_last in Ha' as [[? _]|[_ ->]]; [lia|].
    exists s'. split; [by left|]. rewrite Ho'. apply Hr. }
  destruct (Z.le_gt_cases (cu_p s) ue) as [Hle|Hgt].
  2: { rewrite slice_nil by lia. by eapply (Hend s). }
  pose proof HI as (HIp & _).
  rewrite slice_cons by lia. rewrite <-Hch. replace (cu_p s - 1 + 1) with (cu_p s) by lia.
  unfold after_percent. cbn [decode Z.eqb Pos.eqb].
  assert (Hstep : step s = cu_on_quoted mem (lim - us + 1) s) by (unfold cu_step; by rewrite Hst).
  unfold cu_on_quoted in Hstep. cbn zeta in Hstep. cbn [cu_ch cu_set_quot cu_out] in Hstep.
  assert (Hsecond : forall d, hexval (cu_ch s) = Some d -> 0 <= d < 16 ->
    step s = next cu_quoted_second (cu_out s) (cu_set_decoded (u8 d) (cu_set_quot s)) ->
    agrees (match slice mem (cu_p s) ue with
            | [] => Some []
            | h2 :: l3 =>
                match hexval h2 with
                | None => None
                | Some d2 => if 16 * d + d2 =? 0 then None else cons (16 * d + d2) <$> decode l3
                end
            end) segs cur a).
  { intros d _ Hd Hs.
    destruct (loop_next _ _ _ _ _ _ HI Hle Hs eq_refl Ha)
      as (f & s' & Ha' & HI' & Hp' & Hc' & Hst' & Ho & Hqs & Hde).
    destruct (Z.le_gt_cases (cu_p s') ue) as [Hle'|Hgt'].
    2: { rewrite slice_nil by lia. by eapply (Hend s'). }
    rewrite slice_cons by lia. rewrite <-Hc', <-Hp'.
    cbn in Hde, Hqs. rewrite u8_small in Hde by lia. rewrite <-Hde.
    eapply sim_second; try done; try lia. by rewrite Hqs, Ho. }
  destruct (is_digit (cu_ch s)) eqn:E1.
  - destruct (hexval_digit _ E1) as [Hv H9]. rewrite Hv. by apply Hsecond; [|lia|].
  - destruct (is_hex_alpha (cu_ch s)) eqn:E2.
    + destruct (hexval_alpha _ E1 E2) as [Hv H9]. rewrite Hv. by apply Hsecond; [|lia|].
    + rewrite hexval_none by done. apply loop_last in Ha as [[_ Ha]|[? _]]; [|lia].
      by rewrite Hstep in Ha.
Qed.

(** The "%", "?" and "#" of the path, in every state outside escapes. *)
Lemma step_percent s segs cur :
  repr (cu_state s) (cu_out s) segs cur -> cu_ch s = #"%" ->
  step s = next cu_quoted (cu_out s) (cu_set_qstate s).
Proof.
  intros (_ & Hc & _) Hch. unfold cu_step, cu_on_usual, cu_on_slash, cu_on_dot, cu_on_dot_dot.
  unfold class in Hc. rewrite Hch. destruct (cu_state s); try reflexivity; by case_ifs_in Hc.
Qed.

Lemma step_end s segs cur :
  repr (cu_state s) (cu_out s) segs cur -> cu_ch s = #"?" \/ cu_ch s = #"#" ->
  step s = CuArgs (cu_set_args s) \/ step s = CuDone s.
Proof.
  intros (_ & Hc & _) Hch. unfold cu_step, cu_on_usual, cu_on_slash, cu_on_dot, cu_on_dot_dot.
  unfold class in Hc.
  destruct Hch as [-> | ->]; destruct (cu_state s); try (by left); try (by right); by case_ifs_in Hc.
Qed.

Lemma sim_all n : simulates n.
Proof.
  induction n as [|n IH]; intros fuel s segs cur a Hn (HI & Hch & Hr) Ha; unfold rest.
  - rewrite slice_nil by lia. apply loop_last in Ha as [[? _]|[_ ->]]; [lia|].
    exists s. split; [by left|]. apply Hr.
  - destruct (Z.le_gt_cases (cu_p s) ue) as [Hle|Hgt].
    2: { rewrite slice_nil by lia. apply loop_last in Ha as [[? _]|[_ ->]]; [lia|].
         exists s. split; [by left|]. apply Hr. }
    pose proof HI as (HIp & _).
    rewrite slice_cons by lia. rewrite <-Hch. replace (cu_p s - 1 + 1) with (cu_p s) by lia.
    destruct (Z.eq_dec (cu_ch s) #"%") as [E|E1].
    + pose proof (step_percent s segs cur Hr E) as Hs.
      destruct (loop_next _ _ _ _ _ _ HI Hle Hs eq_refl Ha)
        as (f & s' & Ha' & HI' & Hp' & Hc' & Hst' & Ho & Hqs & _).
      rewrite E. change (decode (37 :: slice mem (cu_p s) ue)) with (after_percent (slice mem (cu_p s) ue)).
      replace (slice mem (cu_p s) ue) with (rest s') by (unfold rest; f_equal; lia).
      eapply (sim_first n); try done; try lia.
      * rewrite Hc'. f_equal. lia.
      * rewrite Hqs, Ho. done.
    + cbn [decode]. assert ((cu_ch s =? 37) = false) as -> by lia.
      destruct ((cu_ch s =? 63) || (cu_ch s =? 35)) eqn:E2.
      * apply loop_last in Ha as [[_ Ha]|[? _]]; [|lia].
        destruct (step_end s segs cur Hr ltac:(lia)) as [Hs|Hs]; rewrite Hs in Ha; subst a;
          eexists; (split; [by (left + right)|]); apply Hr.
      * eapply (sim_char n); try done; lia.
Qed.

End Refine.

(** ** The whole function *)

Definition reference (mem : list Z) (r : request) : option (list Z) :=
  match decode (slice mem (pv (uri_start r) + 1) (pv (uri_end r))) with
  | None => None
  | Some d => resolve [] [] d
  end.

(** C2: with slashes merged, [ngx_http_parse_complex_uri] computes the reference
    "decode up to the query, then resolve", with the two liberties of the code
    that the reference has too.  It rejects the URI exactly when a "%" is
    followed by a byte that is no hexadecimal digit where one is due, an escape
    stands for NUL, or a ".." that a slash ends leaves the root; it otherwise
    produces the decoded path without the empty segments and with each "." and
    ".." that a slash ends resolved.  The liberties: an escape that the end of
    the URI cuts short is no error but dropped ("/a%4" gives "/a"), and the last
    segment stays as it is, also if it is "." or ".." ("/a/.." and "/.." stay). *)
Theorem parse_complex_uri_reference mem r :
  Forall is_byte mem -> uri_in_buffer mem r ->
  match reference mem r with
  | None => parse_complex_uri mem (raw_uri_len r + 1) true r = Some CuBad
  | Some uri =>
      exists c, parse_complex_uri mem (raw_uri_len r + 1) true r = Some (CuOk c) /\ res_uri c = uri
  end.
Proof.
  intros Hm Hu.
  destruct (parse_complex_uri_cases mem true r Hm Hu) as (a & Ha & Hres).
  destruct (cu_init_inv mem true r Hm Hu) as [HI Hlt].
  destruct (lim_of_ok mem r Hu) as [Hl Hq]. destruct Hu as (U1 & U2 & U3 & U4).
  replace (raw_uri_len r) with (lim_of r - pv (uri_start r)) in Ha by (unfold lim_of; lia).
  assert (Hs : cu_step mem (lim_of r - pv (uri_start r) + 1) true (cu_init mem r) =
    cu_next mem (lim_of r - pv (uri_start r) + 1) cu_slash [ #"/" ] (cu_set_ext None (cu_init mem r))).
  { unfold cu_step, cu_init, cu_on_usual. cbn [cu_state cu_ch]. by rewrite U3. }
  destruct (loop_next mem (pv (uri_start r)) (pv (uri_end r)) (lim_of r) Hm ltac:(lia) U2 Hl Hq
    _ _ _ _ _ _ HI ltac:(cbn; lia) Hs eq_refl Ha)
    as (f & s' & Ha' & HI' & Hp' & Hc' & Hst & Ho & _).
  assert (Hag : agrees (decode (rest mem (pv (uri_end r)) s')) [] [] a).
  { eapply (sim_all mem (pv (uri_start r)) (pv (uri_end r)) (lim_of r) Hm ltac:(lia) U2 Hl Hq
      (Z.to_nat (pv (uri_end r) + 1 - cu_p s'))); [lia| |exact Ha'].
    split; [done|]. split; [rewrite Hc'; f_equal; lia|]. rewrite Hst, Ho. exact (repr_slash [] (Forall_nil_2 _)). }
  replace (rest mem (pv (uri_end r)) s') with
    (slice mem (pv (uri_start r) + 1) (pv (uri_end r))) in Hag
    by (unfold rest; rewrite Hp'; cbn; f_equal; lia).
  unfold agrees in Hag. unfold reference.
  destruct (decode _) as [d|]; [destruct (resolve [] [] d) as [uri|]|]; [|by subst a..].
  destruct Hag as (s & [-> | ->] & Hout).
  - destruct Hres as [-> _]. eexists. split; [done|]. cbn. by rewrite Hout, rev_involutive.
  - destruct Hres as (h & _ & -> & _). destruct h; eexists; (split; [done|]);
      cbn; by rewrite Hout, rev_involutive.
Qed.

(** ** Witnesses and examples *)

(** "/a/%2e%2E/b//./c%20d?x#y" between a space and a line feed. *)
Definition sample_uri : list Z := bytes " /a/%2e%2E/b//./c%20d?x#y" ++ [10].
Definition sample_request : request :=
  set_args_start (Some 22) (set_complex_uri true
    (set_uri_end (Some 25) (set_uri_start (Some 1) create_request))).

Lemma parse_complex_uri_reference_witness :
  reference sample_uri sample_request = Some (bytes "/b/c d") /\
  exists c, parse_complex_uri sample_uri (raw_uri_len sample_request + 1) true sample_request
    = Some (CuOk c) /\ res_uri c = bytes "/b/c d".
Proof.
  split; [vm_compute; reflexivity|].
  apply (parse_complex_uri_reference sample_uri sample_request).
  - apply bytes_ok_spec. vm_compute. reflexivity.
  - vm_compute. repeat split; discriminate.
Defined.

(** A path without "?" that ends the buffer but for its line feed. *)
Definition path_request (path : string) : list Z * request :=
  (bytes path ++ [10],
   set_complex_uri true (set_uri_end (Some (Z.of_nat (String.length path)))
     (set_uri_start (Some 0) create_request))).

Definition uri_of (merge : bool) (path : string) : option pu_outcome :=
  let (mem, r) := path_request path in process_request_uri mem merge true r.

(** The last segment is never resolved: "/a/.." stays. *)
Example trailing_dots_stay :
  exists u, uri_of true "/a/.." = Some (PuOk u) /\ ru_uri u = bytes "/a/..".
Proof. eexists. split; vm_compute; reflexivity. Qed.

(** An escape cut off by the end of the URI is dropped without an error. *)
Example truncated_escape_dropped :
  exists u, uri_of true "/a%4" = Some (PuOk u) /\ ru_uri u = bytes "/a".
Proof. eexists. split; vm_compute; reflexivity. Qed.

(** With [merge_slashes off], ".." after an empty segment removes the segment
    before it too: [u -= 5] steps over the "/" that ends it. *)
Example unmerged_dot_dot_eats_two :
  exists u, uri_of false "/a//../b" = Some (PuOk u) /\ ru_uri u = bytes "/b".
Proof. eexists. split; vm_compute; reflexivity. Qed.

Example unmerged_dot_dot_rejected : uri_of false "//../b" = Some PuBadRequest.
Proof. vm_compute. reflexivity. Qed.
