(* ===== verification/Sprintf.v ===== *)
(** * ngx_sprintf, ngx_snprintf, ngx_slprintf

    The formatted output of [src/core/ngx_string.c]: [ngx_vslprintf] with its
    flags, widths and conversions, and [ngx_sprintf_num].  The conversion of
    doubles ("%f") is not modelled.

    The text written so far is the list [out]; [last - buf] is [room].  The
    variable arguments are a list; a conversion that finds an argument of
    another type, or none, has undefined behaviour: [None]. *)

From S2P Require Import Prelude.

Definition NGX_INT64_LEN : nat := 20.
Definition NGX_INT_T_LEN : Z := 20.
Definition NGX_ATOMIC_T_LEN : Z := 20.
Definition NGX_MAX_UINT32_VALUE : Z := 0xffffffff.

(** A 32-bit pattern read as [int]. *)
Definition i32 (x : Z) : Z := (x + 2 ^ 31) mod 2 ^ 32 - 2 ^ 31.

(** ** ngx_sprintf_num *)

(** [ui32 % 10 + '0'], [hex[ui64 & 0xf]] and [HEX[ui64 & 0xf]] *)
Definition num_char (hexadecimal d : Z) : Z :=
  if d <? 10 then d + #"0"
  else if hexadecimal =? 1 then d - 10 + #"a" else d - 10 + #"A".

(** [do { *--p = ...; } while (ui64 /= 10);] into [temp], of which [n] bytes
    are left below [p]. *)
Fixpoint num_digits (n : nat) (hexadecimal base v : Z) (p : list Z) : option (list Z) :=
  match n with
  | O => None
  | S n' =>
      let p := num_char hexadecimal (v mod base) :: p in
      let v := v / base in
      if v =? 0 then Some p else num_digits n' hexadecimal base v p
  end.

Definition num_text (hexadecimal ui64 : Z) : option (list Z) :=
  if hexadecimal =? 0 then
    if ui64 <=? NGX_MAX_UINT32_VALUE then num_digits NGX_INT64_LEN 0 10 (u32 ui64) []
    else num_digits NGX_INT64_LEN 0 10 ui64 []
  else num_digits NGX_INT64_LEN hexadecimal 16 ui64 [].

(** [ngx_cpymem(buf, p, ngx_min((size_t) (last - buf), len))] *)
Definition copy (cap : Z) (out s : list Z) : list Z :=
  out ++ take (Z.to_nat (Z.min (cap - Z.of_nat (length out)) (Z.of_nat (length s)))) s.

Definition sprintf_num (cap : Z) (out : list Z) (ui64 zero hexadecimal width : Z)
    : option (list Z) :=
  match num_text hexadecimal ui64 with
  | None => None
  | Some p =>
      let pad := width - Z.of_nat (length p) in
      Some (copy cap (copy cap out (replicate (Z.to_nat pad) zero)) p)
  end.

(** ** ngx_vslprintf *)

Inductive va_arg : Type :=
| VNum (n : Z)            (** an integer or a pointer, of the type the conversion reads *)
| VStr (s : list Z).      (** [ngx_str_t *], [ngx_variable_value_t *] or a C string *)

Record conv : Type := mk_conv {
  cv_zero : Z; cv_width : Z; cv_sign : bool; cv_hex : Z;
  cv_max_width : bool; cv_frac_width : Z;
  cv_slen : option Z        (** [(size_t) -1] is [None] *)
}.

(** [while ( *fmt >= '0' && *fmt <= '9') { n = n * 10 + *fmt++ - '0'; }] *)
Fixpoint fmt_number (n : Z) (fmt : list Z) : Z * list Z :=
  match fmt with
  | c :: fmt' =>
      if (#"0" <=? c) && (c <=? #"9") then fmt_number (u64 (n * 10 + c - #"0")) fmt' else (n, fmt)
  | [] => (n, fmt)
  end.

(** [for ( ;; ) { switch ( *fmt) ... }] over the modifiers. *)
Fixpoint fmt_flags (cv : conv) (args : list va_arg) (fmt : list Z)
    : option (conv * list va_arg * list Z) :=
  match fmt with
  | [] => Some (cv, args, fmt)
  | c :: fmt' =>
      if c =? #"u" then
        fmt_flags (mk_conv (cv_zero cv) (cv_width cv) false (cv_hex cv) (cv_max_width cv)
                     (cv_frac_width cv) (cv_slen cv)) args fmt'
      else if c =? #"m" then
        fmt_flags (mk_conv (cv_zero cv) (cv_width cv) (cv_sign cv) (cv_hex cv) true
                     (cv_frac_width cv) (cv_slen cv)) args fmt'
      else if c =? #"X" then
        fmt_flags (mk_conv (cv_zero cv) (cv_width cv) false 2 (cv_max_width cv)
                     (cv_frac_width cv) (cv_slen cv)) args fmt'
      else if c =? #"x" then
        fmt_flags (mk_conv (cv_zero cv) (cv_width cv) false 1 (cv_max_width cv)
                     (cv_frac_width cv) (cv_slen cv)) args fmt'
      else if c =? #"." then
        let (w, fmt'') := fmt_number (cv_frac_width cv) fmt' in
        Some (mk_conv (cv_zero cv) (cv_width cv) (cv_sign cv) (cv_hex cv) (cv_max_width cv)
                w (cv_slen cv), args, fmt'')
      else if c =? #"*" then
        match args with
        | VNum n :: args' =>
            fmt_flags (mk_conv (cv_zero cv) (cv_width cv) (cv_sign cv) (cv_hex cv)
                         (cv_max_width cv) (cv_frac_width cv)
                         (if u64 n =? 2 ^ 64 - 1 then None else Some (u64 n))) args' fmt'
        | _ => None
        end
      else Some (cv, args, fmt)
  end.

(** The length of a C string: the bytes before the first NUL. *)
Fixpoint c_string (s : list Z) : list Z :=
  match s with
  | [] => []
  | c :: s' => if c =? 0 then [] else c :: c_string s'
  end.

(** [if (sign) ...] and the number: [v] is [i64] if [sign], else [ui64]. *)
Definition put_num (cap : Z) (out : list Z) (cv : conv) (sign : bool) (v : Z) : option (list Z) :=
  if sign && (v <? 0) then
    sprintf_num cap (out ++ [ #"-" ]) (u64 (- v)) (cv_zero cv) (cv_hex cv) (cv_width cv)
  else sprintf_num cap out (u64 v) (cv_zero cv) (cv_hex cv) (cv_width cv).

(** The integer conversions that honour [sign]: the widths of [int] and of the
    64-bit types. *)
Definition read_int (cv : conv) (n : Z) : Z := if cv_sign cv then i32 n else u32 n.
Definition read_long (cv : conv) (n : Z) : Z := if cv_sign cv then i64 n else u64 n.

Definition set_width (w : Z) (cv : conv) : conv :=
  mk_conv (cv_zero cv) w (cv_sign cv) (cv_hex cv) (cv_max_width cv) (cv_frac_width cv) (cv_slen cv).

(** The second [switch ( *fmt)], on the conversion character [c]. *)
Definition convert (cap : Z) (out : list Z) (cv : conv) (args : list va_arg) (c : Z)
    : option (list Z * list va_arg) :=
  let num sign v args' :=
    match put_num cap out cv sign v with Some out' => Some (out', args') | None => None end in
  if (c =? #"V") || (c =? #"v") then
    match args with VStr s :: args' => Some (copy cap out s, args') | _ => None end
  else if c =? #"s" then
    match args with
    | VStr s :: args' =>
        match cv_slen cv with
        | None => Some (copy cap out (c_string s), args')
        | Some n =>
            if Z.of_nat (length s) <? Z.min n (cap - Z.of_nat (length out)) then None
            else Some (copy cap out (take (Z.to_nat n) s), args')
        end
    | _ => None
    end
  else if (c =? #"O") || (c =? #"T") || (c =? #"r") then
    match args with VNum n :: args' => num true (i64 n) args' | _ => None end
  else if c =? #"P" then
    match args with VNum n :: args' => num true (i32 n) args' | _ => None end
  else if c =? #"M" then
    match args with
    | VNum n :: args' => if i64 n =? -1 then num true (-1) args' else num false (u64 n) args'
    | _ => None
    end
  else if (c =? #"i") || (c =? #"A") then
    match args with
    | VNum n :: args' =>
        let cv := if cv_max_width cv then set_width NGX_INT_T_LEN cv else cv in
        match put_num cap out cv (cv_sign cv) (read_long cv n) with
        | Some out' => Some (out', args')
        | None => None
        end
    | _ => None
    end
  else if (c =? #"z") || (c =? #"l") || (c =? #"L") then
    match args with VNum n :: args' => num (cv_sign cv) (read_long cv n) args' | _ => None end
  else if (c =? #"d") || (c =? #"D") then
    match args with VNum n :: args' => num (cv_sign cv) (read_int cv n) args' | _ => None end
  else if c =? #"f" then None
  else if c =? #"p" then
    match args with
    | VNum n :: args' =>
        match sprintf_num cap out (u64 n) #"0" 2 16 with
        | Some out' => Some (out', args')
        | None => None
        end
    | _ => None
    end
  else if c =? #"c" then
    match args with VNum n :: args' => Some (out ++ [Z.land n 0xff], args') | _ => None end
  else if c =? #"Z" then Some (out ++ [0], args)
  else if c =? #"N" then Some (out ++ [LF], args)
  else if c =? #"%" then Some (out ++ [ #"%" ], args)
  else Some (out ++ [c], args).

(** [while ( *fmt && buf < last)]; [fmt] is the format up to its NUL. *)
Fixpoint vslprintf_loop (fuel : nat) (cap : Z) (out : list Z) (fmt : list Z) (args : list va_arg)
    : option (list Z) :=
  match fuel with
  | O => None
  | S fuel' =>
      match fmt with
      | [] => Some out
      | c :: fmt' =>
          if Z.of_nat (length out) <? cap then
            if c =? #"%" then
              let zero := match fmt' with
                          | z :: _ => if z =? #"0" then #"0" else #" "
                          | [] => #" "
                          end in
              let (width, fmt') := fmt_number 0 fmt' in
              match fmt_flags (mk_conv zero width true 0 false 0 None) args fmt' with
              | None => None
              | Some (cv, args, fmt') =>
                  match fmt' with
                  | [] => None          (* the NUL is stepped over *)
                  | c :: fmt' =>
                      match convert cap out cv args c with
                      | None => None
                      | Some (out, args) => vslprintf_loop fuel' cap out fmt' args
                      end
                  end
              end
            else vslprintf_loop fuel' cap (out ++ [c]) fmt' args
          else Some out
      end
  end.

(** [last - buf] is [cap]. *)
Definition vslprintf (cap : Z) (fmt : list Z) (args : list va_arg) : option (list Z) :=
  vslprintf_loop (S (length fmt)) cap [] fmt args.

(** [ngx_snprintf(buf, max, fmt, ...)]; [ngx_slprintf(buf, last, fmt, ...)] is
    the same with [max = last - buf]. *)
Definition snprintf (max : Z) (fmt : string) (args : list va_arg) : option (list Z) :=
  vslprintf max (bytes fmt) args.

(** [ngx_sprintf(buf, fmt, ...)]: [last] is [(void * ) -1], [buf] being at
    address [buf]. *)
Definition sprintf_at (buf : Z) (fmt : string) (args : list va_arg) : option (list Z) :=
  vslprintf (2 ^ 64 - 1 - buf) (bytes fmt) args.

Example sprintf_time : snprintf 100 "%02d:%02d:%02d GMT%xO|%s|%*s|%05d|%5d|%ui|%M" 
  [VNum 1; VNum 23; VNum 45; VNum 255; VStr (bytes "abc"); VNum 2; VStr (bytes "xyz");
   VNum (-42); VNum 42; VNum (-1); VNum (-1)] =
  Some (bytes "01:23:45 GMTff|abc|xy|-00042|   42|18446744073709551615|-1").
Proof. vm_compute. reflexivity. Qed.

(** ** Numbers *)

(** What a digit stands for, in either case. *)
Definition char_num (c : Z) : Z :=
  if c <=? #"9" then c - #"0" else if c <? #"a" then c - #"A" + 10 else c - #"a" + 10.

Definition num_value (base : Z) (ds : list Z) : Z :=
  fold_left (fun v c => base * v + char_num c) ds 0.

Definition base_of (hexadecimal : Z) : Z := if hexadecimal =? 0 then 10 else 16.

Lemma char_num_char hexadecimal d : 0 <= d < 16 -> char_num (num_char hexadecimal d) = d.
Proof. intros. unfold num_char, char_num. case_ifs; lia. Qed.

Lemma fold_value_shift base ds v :
  fold_left (fun v c => base * v + char_num c) ds v =
    v * base ^ Z.of_nat (length ds) + num_value base ds.
Proof.
  unfold num_value. revert v. induction ds as [|c ds IH]; intros v; [cbn; lia|].
  cbn [fold_left length]. rewrite IH, (IH (base * 0 + char_num c)), Nat2Z.inj_succ, Z.pow_succ_r by lia.
  lia.
Qed.

Lemma num_value_cons base c ds :
  num_value base (c :: ds) = char_num c * base ^ Z.of_nat (length ds) + num_value base ds.
Proof. unfold num_value at 1. cbn [fold_left]. rewrite fold_value_shift. f_equal. f_equal. lia. Qed.

Lemma num_head hexadecimal d (ds : list Z) :
  0 < d -> d < 16 -> head (num_char hexadecimal d :: ds) <> Some (num_char hexadecimal 0).
Proof.
  intros H1 H2 E. injection E as E. apply (f_equal char_num) in E.
  rewrite !char_num_char in E by lia. lia.
Qed.

(** The digits put in front of [p] stand for [v]; the first is no zero unless
    [v] is zero, and [n] of them are enough below [base ^ n]. *)
Lemma num_digits_spec hexadecimal base n : 2 <= base <= 16 -> forall v p,
  0 <= v < base ^ Z.of_nat (S n) ->
  exists ds, num_digits (S n) hexadecimal base v p = Some (ds ++ p) /\
    (1 <= length ds <= S n)%nat /\ num_value base ds = v /\
    (0 < v -> head ds <> Some (num_char hexadecimal 0)).
Proof.
  intros Hb. induction n as [|n IH]; intros v p Hv.
  - exists [num_char hexadecimal (v mod base)]. change (Z.of_nat 1) with 1 in Hv.
    rewrite Z.pow_1_r in Hv. cbn [num_digits]. rewrite Z.div_small, Z.mod_small by lia.
    split_and!; [done|cbn; lia|cbn; lia| |].
    + cbn. rewrite char_num_char by lia. lia.
    + intros Hp. apply num_head; lia.
  - set (m := S n) in *. cbn [num_digits]. pose proof (Z.mod_pos_bound v base ltac:(lia)) as Hm.
    pose proof (Z.div_mod v base ltac:(lia)) as Hdm.
    assert (Hq : 0 <= v / base) by (apply Z.div_pos; lia).
    destruct (v / base =? 0) eqn:E.
    + exists [num_char hexadecimal (v mod base)].
      replace (v / base) with 0 in Hdm by lia. rewrite Z.mul_0_r in Hdm.
      split_and!; [done|cbn; lia|cbn; lia| |].
      * cbn. rewrite char_num_char by lia. lia.
      * intros Hp. apply num_head; lia.
    + destruct (IH (v / base) (num_char hexadecimal (v mod base) :: p)) as (ds & -> & Hl & Hval & Hh).
      { split; [lia|]. apply Z.div_lt_upper_bound; [lia|].
        rewrite <-Z.pow_succ_r by lia. rewrite <-Nat2Z.inj_succ. apply Hv. }
      exists (ds ++ [num_char hexadecimal (v mod base)]). rewrite <-app_assoc.
      split_and!; [done|rewrite length_app; cbn; lia|rewrite length_app; cbn; lia| |].
      * unfold num_value. rewrite fold_left_app. fold (num_value base ds). rewrite Hval. cbn.
        rewrite char_num_char by lia. lia.
      * intros _. specialize (Hh ltac:(lia)). destruct ds as [|d ds]; [cbn in Hl; lia|exact Hh].
Qed.

(** The digits that [ngx_sprintf_num] produces for a 64-bit number fit in
    its [temp] buffer, stand for that number in the base asked for, and have no
    superfluous leading zero. *)
Theorem num_text_value hexadecimal v :
  0 <= v < 2 ^ 64 ->
  exists ds, num_text hexadecimal v = Some ds /\ (1 <= length ds <= NGX_INT64_LEN)%nat /\
    num_value (base_of hexadecimal) ds = v /\
    (0 < v -> head ds <> Some (num_char hexadecimal 0)).
Proof.
  intros Hv. unfold num_text, base_of.
  assert (H10 : forall w, 0 <= w < 2 ^ 64 -> exists ds,
    num_digits NGX_INT64_LEN 0 10 w [] = Some ds /\ (1 <= length ds <= NGX_INT64_LEN)%nat /\
    num_value 10 ds = w /\ (0 < w -> head ds <> Some (num_char 0 0))).
  { intros w Hw. destruct (num_digits_spec 0 10 19 ltac:(lia) w []) as (ds & Hds & H); [lia|].
    exists ds. by rewrite app_nil_r in Hds. }
  destruct (hexadecimal =? 0) eqn:E.
  - assert (hexadecimal = 0) as -> by lia.
    destruct (v <=? NGX_MAX_UINT32_VALUE) eqn:E'; [|by apply H10].
    unfold u32, NGX_MAX_UINT32_VALUE in *. rewrite Z.mod_small by lia. by apply H10.
  - destruct (num_digits_spec hexadecimal 16 19 ltac:(lia) v []) as (ds & Hds & H); [lia|].
    exists ds. by rewrite app_nil_r in Hds.
Qed.

(** ** Bounded output *)

Definition taken (cap : Z) (s : list Z) : list Z := take (Z.to_nat cap) s.

Lemma length_taken cap s : 0 <= cap -> Z.of_nat (length (taken cap s)) <= cap.
Proof. intros. unfold taken. rewrite length_take. lia. Qed.

Lemma taken_short cap s : Z.of_nat (length s) <= cap -> taken cap s = s.
Proof. intros. apply take_ge. lia. Qed.

Lemma copy_taken cap o s : 0 <= cap -> copy cap (taken cap o) s = taken cap (o ++ s).
Proof.
  intros Hc. unfold copy, taken. rewrite length_take, take_app. f_equal.
  rewrite Z2Nat.inj_min, Nat2Z.id, <-take_take, (take_ge s (length s)) by lia.
  destruct (Nat.le_gt_cases (Z.to_nat cap) (length o)) as [H|H].
  - rewrite Nat.min_l by lia. replace (Z.to_nat cap - length o)%nat with 0%nat by lia.
    by replace (Z.to_nat (cap - Z.of_nat (Z.to_nat cap))) with 0%nat by lia.
  - rewrite Nat.min_r by lia. f_equal. lia.
Qed.

Lemma copy_out cap o s : Z.of_nat (length o) <= cap -> copy cap o s = taken cap (o ++ s).
Proof. intros H. rewrite <-(copy_taken cap o s) by lia. by rewrite (taken_short cap o). Qed.

Lemma sprintf_num_taken cap out v zero hexadecimal width p :
  Z.of_nat (length out) <= cap -> num_text hexadecimal v = Some p ->
  sprintf_num cap out v zero hexadecimal width =
    Some (taken cap (out ++ replicate (Z.to_nat (width - Z.of_nat (length p))) zero ++ p)).
Proof.
  intros Hc Hp. unfold sprintf_num. rewrite Hp. f_equal.
  rewrite (copy_out cap out) by done. rewrite copy_taken by lia. by rewrite <-app_assoc.
Qed.

(** A conversion writes a piece of text, of which the buffer takes what fits. *)
Definition writes (cap cap' : Z) (out : list Z) (r r' : option (list Z)) : Prop :=
  forall o', r' = Some o' ->
  exists piece, o' = taken cap' (out ++ piece) /\ r = Some (taken cap (out ++ piece)).

Lemma writes_num cap cap' out v zero hexadecimal width :
  Z.of_nat (length out) <= cap <= cap' ->
  writes cap cap' out (sprintf_num cap out v zero hexadecimal width)
    (sprintf_num cap' out v zero hexadecimal width).
Proof.
  intros Hc o' H. destruct (num_text hexadecimal v) as [p|] eqn:E.
  - rewrite (sprintf_num_taken cap' _ _ _ _ _ p) in H by (done || lia). injection H as <-.
    rewrite (sprintf_num_taken cap _ _ _ _ _ p) by (done || lia). by eexists.
  - unfold sprintf_num in H. by rewrite E in H.
Qed.

Lemma writes_put_num cap cap' out cv sign v :
  Z.of_nat (length out) < cap <= cap' ->
  writes cap cap' out (put_num cap out cv sign v) (put_num cap' out cv sign v).
Proof.
  intros Hc. unfold put_num. destruct (sign && (v <? 0)); [|apply writes_num; lia].
  intros o' H.
  destruct (writes_num cap cap' (out ++ [45]) (u64 (- v)) (cv_zero cv) (cv_hex cv) (cv_width cv)
    ltac:(rewrite length_app; cbn; lia) o' H) as (piece & -> & ->).
  exists ([45] ++ piece). by rewrite app_assoc.
Qed.

Lemma convert_writes cap cap' out cv args c o' args' :
  Z.of_nat (length out) < cap <= cap' ->
  convert cap' out cv args c = Some (o', args') ->
  exists piece, o' = taken cap' (out ++ piece) /\
    convert cap out cv args c = Some (taken cap (out ++ piece), args').
Proof.
  intros Hc H.
  assert (Hcopy : forall s, exists piece, copy cap' out s = taken cap' (out ++ piece) /\
    copy cap out s = taken cap (out ++ piece)).
  { intros s. exists s. by rewrite !copy_out by lia. }
  assert (Hchar : forall x : Z, exists piece, out ++ [x] = taken cap' (out ++ piece) /\
    out ++ [x] = taken cap (out ++ piece)).
  { intros x. exists [x]. by rewrite !taken_short by (rewrite length_app; cbn; lia). }
  pose proof (fun cv sign v => writes_put_num cap cap' out cv sign v Hc) as Hnum.
  pose proof (fun v z h w => writes_num cap cap' out v z h w ltac:(lia)) as Hraw.
  unfold writes in Hnum, Hraw. unfold convert in *. cbv zeta in *.
  repeat match type of H with
  | match ?a with _ => _ end = Some _ => destruct a eqn:?; try discriminate H
  end; simplify_eq.
  all: try match goal with
  | Hp : put_num _ _ _ _ _ = Some _ |- _ =>
      destruct (Hnum _ _ _ _ Hp) as (piece & -> & ->); by exists piece
  | Hp : sprintf_num _ _ _ _ _ _ = Some _ |- _ =>
      destruct (Hraw _ _ _ _ _ Hp) as (piece & -> & ->); by exists piece
  | Hs : (_ <? Z.min ?n _) = false |- context [Z.of_nat (length ?s) <? Z.min ?n ?m] =>
      assert ((Z.of_nat (length s) <? Z.min n m) = false) as -> by lia
  end.
  all: match goal with
  | |- exists piece, copy _ _ ?s = _ /\ _ =>
      destruct (Hcopy s) as (piece & -> & ->); by exists piece
  | |- exists piece, ?o ++ [?x] = _ /\ _ =>
      destruct (Hchar x) as (piece & E1 & E2); exists piece; split; [exact E1|by rewrite <-E2]
  end.
Qed.

Lemma length_convert cap out cv args c o args' :
  Z.of_nat (length out) < cap -> convert cap out cv args c = Some (o, args') ->
  Z.of_nat (length o) <= cap /\ exists piece, o = out ++ piece.
Proof.
  intros Hc H. destruct (convert_writes cap cap out cv args c o args' ltac:(lia) H) as (piece & -> & _).
  split; [apply length_taken; lia|].
  exists (taken (cap - Z.of_nat (length out)) piece). unfold taken. rewrite take_app.
  rewrite take_ge by lia. do 2 f_equal. lia.
Qed.

(** The output only grows, and never past the end of the buffer. *)
Lemma vslprintf_loop_grows fuel cap : forall out fmt args full,
  Z.of_nat (length out) <= cap -> vslprintf_loop fuel cap out fmt args = Some full ->
  Z.of_nat (length full) <= cap /\ exists more, full = out ++ more.
Proof.
  induction fuel as [|f IH]; intros out fmt args full Hc H; [done|].
  cbn [vslprintf_loop] in H. destruct fmt as [|c fmt].
  { injection H as <-. split; [done|]. exists []. by rewrite app_nil_r. }
  destruct (Z.of_nat (length out) <? cap) eqn:Hlt.
  2: { injection H as <-. split; [done|]. exists []. by rewrite app_nil_r. }
  assert (Hstep : forall o, Z.of_nat (length o) <= cap -> (exists piece, o = out ++ piece) ->
    forall fmt args, vslprintf_loop f cap o fmt args = Some full ->
    Z.of_nat (length full) <= cap /\ exists more, full = out ++ more).
  { intros o Ho [piece ->] fmt1 args1 H1. apply IH in H1 as (Hl & more & ->); [|done].
    split; [done|]. exists (piece ++ more). by rewrite app_assoc. }
  destruct (c =? 37).
  - cbn zeta in H. destruct (fmt_number 0 fmt) as [w fmt1].
    destruct (fmt_flags _ args fmt1) as [[[cv args1] [|c1 fmt2]]|]; [done| |done].
    destruct (convert cap out cv args1 c1) as [[o args2]|] eqn:E; [|done].
    apply length_convert in E as [Ho Hp]; [|lia]. by eapply (Hstep o).
  - eapply (Hstep (out ++ [c])); [|by eexists|exact H]. rewrite length_app. cbn. lia.
Qed.

(** ** Formats that are modelled *)

Definition num_arg (args : list va_arg) : option (list va_arg) :=
  match args with VNum _ :: args' => Some args' | _ => None end.

(** The arguments that are left after the conversion [c]: [None] if the next
    argument is not of the kind it reads, if the string of a [%*s] is shorter
    than the length given, and for [%f], which is not modelled. *)
Definition conv_args (cv : conv) (args : list va_arg) (c : Z) : option (list va_arg) :=
  if (c =? #"V") || (c =? #"v") then
    match args with VStr _ :: args' => Some args' | _ => None end
  else if c =? #"s" then
    match args with
    | VStr s :: args' =>
        match cv_slen cv with
        | None => Some args'
        | Some n => if Z.of_nat (length s) <? n then None else Some args'
        end
    | _ => None
    end
  else if (c =? #"O") || (c =? #"T") || (c =? #"r") then num_arg args
  else if c =? #"P" then num_arg args
  else if c =? #"M" then num_arg args
  else if (c =? #"i") || (c =? #"A") then num_arg args
  else if (c =? #"z") || (c =? #"l") || (c =? #"L") then num_arg args
  else if (c =? #"d") || (c =? #"D") then num_arg args
  else if c =? #"f" then None
  else if c =? #"p" then num_arg args
  else if c =? #"c" then num_arg args
  else Some args.

(** Every conversion of the format is modelled and finds its argument, and the
    format does not end within one. *)
Fixpoint supported (fuel : nat) (fmt : list Z) (args : list va_arg) : bool :=
  match fuel with
  | O => false
  | S fuel =>
      match fmt with
      | [] => true
      | c :: fmt =>
          if c =? #"%" then
            let zero := match fmt with
                        | z :: _ => if z =? #"0" then #"0" else #" "
                        | [] => #" "
                        end in
            let (width, fmt) := fmt_number 0 fmt in
            match fmt_flags (mk_conv zero width true 0 false 0 None) args fmt with
            | Some (cv, args, c :: fmt) =>
                match conv_args cv args c with
                | Some args => supported fuel fmt args
                | None => false
                end
            | _ => false
            end
          else supported fuel fmt args
      end
  end.

Lemma num_text_some hexadecimal v : exists p, num_text hexadecimal (u64 v) = Some p.
Proof.
  destruct (num_text_value hexadecimal (u64 v)) as (ds & H & _); [|by exists ds].
  unfold u64. apply Z.mod_pos_bound. lia.
Qed.

Lemma sprintf_num_some cap out v zero hexadecimal width :
  exists o, sprintf_num cap out (u64 v) zero hexadecimal width = Some o.
Proof. unfold sprintf_num. destruct (num_text_some hexadecimal v) as [p ->]. by eexists. Qed.

Lemma put_num_some cap out cv sign v : exists o, put_num cap out cv sign v = Some o.
Proof. unfold put_num. case_ifs; apply sprintf_num_some. Qed.

Lemma convert_some cap out cv args c args' :
  conv_args cv args c = Some args' -> exists o, convert cap out cv args c = Some (o, args').
Proof.
  unfold conv_args, convert. intros H.
  assert (Hn : forall cv sign v (args1 : list va_arg), exists o,
    match put_num cap out cv sign v with Some out' => Some (out', args1) | None => None end
      = Some (o, args1)).
  { intros cv1 sign v args1. destruct (put_num_some cap out cv1 sign v) as [o ->]. by exists o. }
  destruct ((c =? _) || (c =? _)).
  { destruct args as [|[n|s] args1]; [done|done|]. injection H as <-. by eexists. }
  destruct (c =? _).
  { destruct args as [|[n|s] args1]; [done|done|]. destruct (cv_slen cv) as [n|].
    - destruct (Z.of_nat (length s) <? n) eqn:E; [done|]. injection H as <-.
      assert ((Z.of_nat (length s) <? Z.min n (cap - Z.of_nat (length out))) = false) as -> by lia.
      by eexists.
    - injection H as <-. by eexists. }
  unfold num_arg in H.
  destruct (_ || _); [destruct args as [|[n|s] args1]; [done| |done]; injection H as <-; apply Hn|].
  destruct (c =? _); [destruct args as [|[n|s] args1]; [done| |done]; injection H as <-; apply Hn|].
  destruct (c =? _).
  { destruct args as [|[n|s] args1]; [done| |done]. injection H as <-. case_ifs; apply Hn. }
  destruct (_ || _).
  { destruct args as [|[n|s] args1]; [done| |done]. injection H as <-. cbv zeta. apply Hn. }
  destruct (_ || _); [destruct args as [|[n|s] args1]; [done| |done]; injection H as <-; apply Hn|].
  destruct (_ || _); [destruct args as [|[n|s] args1]; [done| |done]; injection H as <-; apply Hn|].
  destruct (c =? _); [done|].
  destruct (c =? _).
  { destruct args as [|[n|s] args1]; [done| |done]. injection H as <-.
    destruct (sprintf_num_some cap out n #"0" 2 16) as [o ->]. by exists o. }
  destruct (c =? _).
  { destruct args as [|[n|s] args1]; [done| |done]. injection H as <-. by eexists. }
  case_ifs; injection H as <-; by eexists.
Qed.

Lemma vslprintf_loop_total fuel cap : forall out fmt args,
  supported fuel fmt args = true -> exists full, vslprintf_loop fuel cap out fmt args = Some full.
Proof.
  induction fuel as [|f IH]; intros out fmt args H; [done|].
  cbn [supported] in H. cbn [vslprintf_loop]. destruct fmt as [|c fmt]; [by eexists|].
  destruct (Z.of_nat (length out) <? cap); [|by eexists].
  destruct (c =? 37); [|by apply IH]. cbv zeta in *. destruct (fmt_number 0 fmt) as [w fmt1].
  destruct (fmt_flags _ args fmt1) as [[[cv args1] [|c1 fmt2]]|]; [done| |done].
  destruct (conv_args cv args1 c1) as [args2|] eqn:E; [|done].
  destruct (convert_some cap out cv args1 c1 args2 E) as [o ->]. by apply IH.
Qed.

(** The format gets shorter, so that its length is enough of a fuel. *)
Lemma fmt_number_length fmt : forall n, (length (snd (fmt_number n fmt)) <= length fmt)%nat.
Proof.
  induction fmt as [|c fmt IH]; intros n; cbn [fmt_number]; [done|].
  case_ifs; [|done]. specialize (IH (u64 (n * 10 + c - #"0"))). cbn [length]. lia.
Qed.

Lemma fmt_flags_length fmt : forall cv args cv' args' fmt',
  fmt_flags cv args fmt = Some (cv', args', fmt') -> (length fmt' <= length fmt)%nat.
Proof.
  induction fmt as [|c fmt IH]; intros cv args cv' args' fmt'; cbn [fmt_flags]; [by intros [= _ _ <-]|].
  case_ifs; try (intros H; apply IH in H; cbn [length]; lia).
  - pose proof (fmt_number_length fmt (cv_frac_width cv)) as Hl.
    destruct (fmt_number (cv_frac_width cv) fmt) as [w fmt1]. intros [= _ _ <-]. cbn in *. lia.
  - destruct args as [|[n|s] args]; [done| |done]. intros H; apply IH in H; cbn [length]; lia.
  - intros [= _ _ <-]. done.
Qed.

Lemma vslprintf_loop_fuel fuel cap : forall fuel' out fmt args,
  (length fmt < fuel)%nat -> (length fmt < fuel')%nat ->
  vslprintf_loop fuel cap out fmt args = vslprintf_loop fuel' cap out fmt args.
Proof.
  induction fuel as [|f IH]; intros [|f'] out fmt args H H'; try lia.
  cbn [vslprintf_loop]. destruct fmt as [|c fmt]; [done|]. cbn [length] in *.
  destruct (Z.of_nat (length out) <? cap); [|done].
  destruct (c =? 37); [|apply IH; lia]. cbv zeta.
  pose proof (fmt_number_length fmt 0) as Hl. destruct (fmt_number 0 fmt) as [w fmt1]. cbn [snd] in Hl.
  destruct (fmt_flags _ args fmt1) as [[[cv args1] fmt2]|] eqn:E; [|done].
  apply fmt_flags_length in E. destruct fmt2 as [|c1 fmt2]; [done|]. cbn [length] in E.
  destruct (convert cap out cv args1 c1) as [[o args2]|]; [|done]. apply IH; lia.
Qed.

(** C29: [ngx_vslprintf] ends, on any format, within one turn more than the format
    has bytes, and never writes at or above [last].  It does produce an output
    for every format whose conversions are modelled, that is all but [%f], and
    find arguments of their kinds, and that does not end within a conversion. *)
Theorem vslprintf_bounded cap fmt args :
  0 <= cap ->
  (forall fuel, (length fmt < fuel)%nat ->
     vslprintf_loop fuel cap [] fmt args = vslprintf cap fmt args) /\
  (forall out, vslprintf cap fmt args = Some out -> Z.of_nat (length out) <= cap) /\
  (supported (S (length fmt)) fmt args = true -> exists out, vslprintf cap fmt args = Some out).
Proof.
  intros Hc. split_and!.
  - intros fuel Hf. apply vslprintf_loop_fuel; lia.
  - intros out H. by apply vslprintf_loop_grows in H as [? _].
  - apply vslprintf_loop_total.
Qed.

Lemma vslprintf_loop_full fuel cap out fmt args :
  Z.of_nat (length out) = cap -> (0 < fuel)%nat -> vslprintf_loop fuel cap out fmt args = Some out.
Proof.
  intros Hl Hf. destruct fuel as [|f]; [lia|]. cbn [vslprintf_loop]. destruct fmt; [done|].
  by assert ((Z.of_nat (length out) <? cap) = false) as -> by lia.
Qed.

(** Going on from a text that was cut gives the cut of the whole. *)
Lemma vslprintf_loop_cut f cap cap' out piece fmt args full :
  (forall out fmt args full, Z.of_nat (length out) < cap ->
     vslprintf_loop f cap' out fmt args = Some full ->
     vslprintf_loop f cap out fmt args = Some (taken cap full)) ->
  0 <= cap <= cap' -> Z.of_nat (length (taken cap' (out ++ piece))) <= cap' ->
  vslprintf_loop f cap' (taken cap' (out ++ piece)) fmt args = Some full ->
  vslprintf_loop f cap (taken cap (out ++ piece)) fmt args = Some (taken cap full).
Proof.
  intros IH Hc Hl H.
  destruct (Z.lt_ge_cases (Z.of_nat (length (out ++ piece))) cap) as [Hlt|Hge].
  - rewrite taken_short in H by lia. rewrite taken_short by lia. by apply IH.
  - apply vslprintf_loop_grows in H as H'; [|done]. destruct H' as [_ [more ->]].
    assert (taken cap (taken cap' (out ++ piece) ++ more) = taken cap (out ++ piece)) as ->.
    { unfold taken in *. rewrite take_app, take_take, length_take.
      rewrite Nat.min_l by lia.
      replace (Z.to_nat cap - Z.to_nat cap' `min` length (out ++ piece))%nat with 0%nat by lia.
      by rewrite take_0, app_nil_r. }
    apply vslprintf_loop_full.
    + unfold taken. rewrite length_take. lia.
    + destruct f; [done|lia].
Qed.

Lemma vslprintf_loop_prefix fuel cap cap' : cap <= cap' -> forall out fmt args full,
  Z.of_nat (length out) < cap ->
  vslprintf_loop fuel cap' out fmt args = Some full ->
  vslprintf_loop fuel cap out fmt args = Some (taken cap full).
Proof.
  intros Hcc. induction fuel as [|f IH]; intros out fmt args full Hc H; [done|].
  cbn [vslprintf_loop] in H |- *. destruct fmt as [|c fmt].
  { injection H as <-. by rewrite taken_short by lia. }
  assert ((Z.of_nat (length out) <? cap') = true) as E by lia. rewrite E in H.
  assert ((Z.of_nat (length out) <? cap) = true) as -> by lia.
  destruct (c =? 37).
  - cbn zeta in H |- *. destruct (fmt_number 0 fmt) as [w fmt1].
    destruct (fmt_flags _ args fmt1) as [[[cv args1] [|c1 fmt2]]|]; [done| |done].
    destruct (convert cap' out cv args1 c1) as [[o args2]|] eqn:Ec; [|done].
    apply (convert_writes cap cap') in Ec as (piece & -> & ->); [|lia].
    eapply vslprintf_loop_cut; [exact IH|lia|apply length_taken; lia|exact H].
  - assert (Z.of_nat (length (out ++ [c])) <= cap) by (rewrite length_app; cbn; lia).
    rewrite <-(taken_short cap' (out ++ [c])) in H by lia.
    rewrite <-(taken_short cap (out ++ [c])) by lia.
    eapply vslprintf_loop_cut; [exact IH|lia|apply length_taken; lia|exact H].
Qed.

(** With less room [ngx_vslprintf] writes the beginning of what it writes
    with more: truncation never changes the text before it. *)
Theorem vslprintf_prefix cap cap' fmt args full :
  0 <= cap <= cap' -> vslprintf cap' fmt args = Some full ->
  vslprintf cap fmt args = Some (take (Z.to_nat cap) full).
Proof.
  intros Hc H. unfold vslprintf in *. destruct (Z.eq_dec cap 0) as [->|].
  - by rewrite vslprintf_loop_full by (cbn; lia).
  - apply (vslprintf_loop_prefix _ cap cap'); [lia|cbn; lia|done].
Qed.

(** ** Witnesses *)

Lemma num_text_value_witness :
  exists ds, num_text 1 (2 ^ 64 - 1) = Some ds /\ (length ds <= 20)%nat /\
    num_value 16 ds = 2 ^ 64 - 1.
Proof.
  destruct (num_text_value 1 (2 ^ 64 - 1) ltac:(lia)) as (ds & H1 & H2 & H3 & _).
  exists ds. split; [exact H1|]. split; [exact (proj2 H2)|exact H3].
Defined.

Lemma vslprintf_bounded_witness :
  exists out, vslprintf 5 (bytes "%06d:%s") [VNum (-12); VStr (bytes "ab")] = Some out /\
    Z.of_nat (length out) <= 5.
Proof.
  eexists. split; [vm_compute; reflexivity|].
  apply (vslprintf_bounded 5 (bytes "%06d:%s") [VNum (-12); VStr (bytes "ab")]);
    [lia|vm_compute; reflexivity].
Defined.

Lemma vslprintf_prefix_witness :
  vslprintf 5 (bytes "%06d:%s") [VNum (-12); VStr (bytes "ab")]
  = Some (take 5 (bytes "-000012:ab")).
Proof.
  apply (vslprintf_prefix 5 100 (bytes "%06d:%s") [VNum (-12); VStr (bytes "ab")]
    (bytes "-000012:ab")); [lia|vm_compute; reflexivity].
Defined.
