(* ===== verification/Chunked.v ===== *)
(** * Chunked transfer coding: ngx_http_parse_chunked and its readers

    The parser of [src/http/ngx_http_parse.c] and the functions of
    [src/http/ngx_http_request_body.c] that drive it over the buffers of a
    request body: [ngx_http_request_body_chunked_filter] and
    [ngx_http_discard_request_body_filter]. *)

From S2P Require Import Prelude Fsm RequestLine ComplexUri.

(** ** Data *)

Inductive ch_st : Type :=
| sw_chunk_start | sw_chunk_size | sw_chunk_extension | sw_chunk_extension_almost_done
| sw_chunk_data | sw_after_data | sw_after_data_almost_done
| sw_last_chunk_extension | sw_last_chunk_extension_almost_done
| sw_trailer | sw_trailer_almost_done | sw_trailer_header | sw_trailer_header_almost_done.

#[export] Instance ch_st_eq_dec : EqDecision ch_st.
Proof. solve_decision. Defined.

(** [ngx_http_chunked_t] *)
Record chunked : Type := mk_chunked { ch_state : ch_st; ch_size : Z; ch_length : Z }.

(** [ngx_pcalloc] *)
Definition chunked_init : chunked := mk_chunked sw_chunk_start 0 0.

(** How the loop is left: [goto data] with [rc = NGX_OK], [goto done] or
    [goto invalid]; the value is [ctx->size]. *)
Inductive ch_exit : Type := ToData (size : Z) | ToDone (size : Z) | ToInvalid (size : Z).

Definition ch_action : Type := action (ch_st * Z) ch_exit.

(** ** The parser *)



Definition hex_alpha_value (ch : Z) : Z := lower ch - #"a" + 10.

Definition ch_on_chunk_start (ch size : Z) : ch_action :=
  if is_digit ch then Break (sw_chunk_size, ch - #"0")
  else if is_hex_alpha ch then Break (sw_chunk_size, hex_alpha_value ch)
  else Leave (ToInvalid size).

Definition ch_on_chunk_size (ch size : Z) : ch_action :=
  if NGX_MAX_OFF_T_VALUE / 16 <? size then Leave (ToInvalid size)
  else if is_digit ch then Break (sw_chunk_size, size * 16 + (ch - #"0"))
  else if is_hex_alpha ch then Break (sw_chunk_size, size * 16 + hex_alpha_value ch)
  else if size =? 0 then
    if ch =? CR then Break (sw_last_chunk_extension_almost_done, size)
    else if ch =? LF then Break (sw_trailer, size)
    else if (ch =? #";") || (ch =? #" ") || (ch =? 9) then Break (sw_last_chunk_extension, size)
    else Leave (ToInvalid size)
  else
    if ch =? CR then Break (sw_chunk_extension_almost_done, size)
    else if ch =? LF then Break (sw_chunk_data, size)
    else if (ch =? #";") || (ch =? #" ") || (ch =? 9) then Break (sw_chunk_extension, size)
    else Leave (ToInvalid size).

(** [CR] and [LF] lead to [almost] and [next]; other characters stay. *)
Definition ch_skip (here almost next : ch_st) (ch size : Z) : ch_action :=
  if ch =? CR then Break (almost, size)
  else if ch =? LF then Break (next, size)
  else Break (here, size).

Definition ch_expect_lf (next : ch_st) (ch size : Z) : ch_action :=
  if ch =? LF then Break (next, size) else Leave (ToInvalid size).

Definition ch_on_trailer (ch size : Z) : ch_action :=
  if ch =? CR then Break (sw_trailer_almost_done, size)
  else if ch =? LF then Leave (ToDone size)
  else Break (sw_trailer_header, size).

Definition ch_on_trailer_almost_done (ch size : Z) : ch_action :=
  if ch =? LF then Leave (ToDone size) else Leave (ToInvalid size).

Definition ch_step (mem : list Z) (p ch : Z) (s : ch_st * Z) : ch_action :=
  let (state, size) := s in
  match state with
  | sw_chunk_start => ch_on_chunk_start ch size
  | sw_chunk_size => ch_on_chunk_size ch size
  | sw_chunk_extension =>
      ch_skip sw_chunk_extension sw_chunk_extension_almost_done sw_chunk_data ch size
  | sw_chunk_extension_almost_done => ch_expect_lf sw_chunk_data ch size
  | sw_chunk_data => Leave (ToData size)
  | sw_after_data => ch_skip sw_after_data sw_after_data_almost_done sw_chunk_start ch size
  | sw_after_data_almost_done => ch_expect_lf sw_chunk_start ch size
  | sw_last_chunk_extension =>
      ch_skip sw_last_chunk_extension sw_last_chunk_extension_almost_done sw_trailer ch size
  | sw_last_chunk_extension_almost_done => ch_expect_lf sw_trailer ch size
  | sw_trailer => ch_on_trailer ch size
  | sw_trailer_almost_done => ch_on_trailer_almost_done ch size
  | sw_trailer_header =>
      ch_skip sw_trailer_header sw_trailer_header_almost_done sw_trailer ch size
  | sw_trailer_header_almost_done => ch_expect_lf sw_trailer ch size
  end.

(** The second [switch]: [ctx->length], the bytes the message still needs. *)
Definition ch_length_of (state : ch_st) (size : Z) : Z :=
  match state with
  | sw_chunk_start => 3
  | sw_chunk_size => 1 + (if size =? 0 then 1 else size + 4)
  | sw_chunk_extension | sw_chunk_extension_almost_done => 1 + size + 4
  | sw_chunk_data => size + 4
  | sw_after_data | sw_after_data_almost_done => 4
  | sw_last_chunk_extension | sw_last_chunk_extension_almost_done => 2
  | sw_trailer | sw_trailer_almost_done => 1
  | sw_trailer_header | sw_trailer_header_almost_done => 2
  end.

(** [data:] *)
Definition ch_data (rc pos : Z) (state : ch_st) (size length : Z) (b : ngx_buf)
    : Z * chunked * ngx_buf :=
  let b := mk_buf pos (b_last b) in
  if NGX_MAX_OFF_T_VALUE - 5 <? size then (NGX_ERROR, mk_chunked state size length, b)
  else (rc, mk_chunked state size (ch_length_of state size), b).

(** After the loop. *)
Definition ch_end (b : ngx_buf) (ctx : chunked) (e : ending (ch_st * Z) ch_exit)
    : Z * chunked * ngx_buf :=
  match e with
  | Exhausted pos (state, size) => ch_data NGX_AGAIN pos state size (ch_length ctx) b
  | Left pos (ToData size) => ch_data NGX_OK pos sw_chunk_data size (ch_length ctx) b
  | Left pos (ToDone size) =>
      (NGX_DONE, mk_chunked sw_chunk_start size (ch_length ctx), mk_buf (pos + 1) (b_last b))
  | Left _ (ToInvalid size) => (NGX_ERROR, mk_chunked (ch_state ctx) size (ch_length ctx), b)
  end.

(** [if (state == sw_chunk_data && ctx->size == 0) state = sw_after_data;] *)
Definition settle (st : ch_st) (size : Z) : ch_st :=
  if bool_decide (st = sw_chunk_data) && (size =? 0) then sw_after_data else st.

Definition parse_chunked (mem : list Z) (b : ngx_buf) (ctx : chunked)
    : option (Z * chunked * ngx_buf) :=
  ch_end b ctx <$>
    loop ch_step mem (b_pos b) (b_last b) (settle (ch_state ctx) (ch_size ctx), ch_size ctx).

#[export] Instance ch_step_switch : Switch ch_step.
Proof.
  split; [done|]. intros mem p c [[] size] s' s''; cbn;
    unfold ch_on_chunk_start, ch_on_chunk_size, ch_skip, ch_expect_lf, ch_on_trailer,
      ch_on_trailer_almost_done; case_ifs; discriminate.
Qed.

(** ** The request body filters *)

Definition NGX_HTTP_BAD_REQUEST : Z := 400.
Definition NGX_HTTP_REQUEST_ENTITY_TOO_LARGE : Z := 413.
Definition NGX_HTTP_INTERNAL_SERVER_ERROR : Z := 500.

(** What the filter keeps: [rb->chunked], [rb->rest] and
    [r->headers_in.content_length_n]; [rb_out] is the data of the buffers of
    [out] and [rb_last] whether the last of them has [last_buf]. *)
Record body : Type := mk_body {
  rb_chunked : chunked; rb_rest : Z; rb_content_length_n : Z;
  rb_out : list Z; rb_last : bool
}.

(** The body of the [for ( ;; )]: what follows a return of the parser, with
    [again] for [continue].  [max] is [clcf->client_max_body_size]. *)
Definition body_chunked_step (again : ngx_buf -> body -> option (Z * body * ngx_buf))
    (mem : list Z) (max : Z) (s : body) (parsed : Z * chunked * ngx_buf)
    : option (Z * body * ngx_buf) :=
  let '(rc, ctx, b) := parsed in
  let s := mk_body ctx (rb_rest s) (rb_content_length_n s) (rb_out s) (rb_last s) in
  if rc =? NGX_OK then
    if negb (max =? 0) && (max - rb_content_length_n s <? ch_size ctx) then
      Some (NGX_HTTP_REQUEST_ENTITY_TOO_LARGE, s, b)
    else
      let size := b_last b - b_pos b in
      let n := if ch_size ctx <? size then ch_size ctx else size in
      let b' := mk_buf (b_pos b + n) (b_last b) in
      again b'
        (mk_body (mk_chunked (ch_state ctx) (ch_size ctx - n) (ch_length ctx))
           (rb_rest s) (rb_content_length_n s + n)
           (rb_out s ++ slice mem (b_pos b) (b_pos b')) (rb_last s))
  else if rc =? NGX_DONE then
    Some (NGX_OK, mk_body ctx 0 (rb_content_length_n s) (rb_out s) true, b)
  else if rc =? NGX_AGAIN then
    Some (NGX_OK, mk_body ctx (ch_length ctx) (rb_content_length_n s) (rb_out s) (rb_last s), b)
  else Some (NGX_HTTP_BAD_REQUEST, s, b).

(** One buffer of the chain. *)
Fixpoint body_chunked_buf (fuel : nat) (mem : list Z) (max : Z) (b : ngx_buf) (s : body)
    : option (Z * body * ngx_buf) :=
  match fuel with
  | O => None
  | S fuel' =>
      match parse_chunked mem b (rb_chunked s) with
      | None => None
      | Some parsed => body_chunked_step (body_chunked_buf fuel' mem max) mem max s parsed
      end
  end.

(** Every pass but the last consumes a byte. *)
Definition body_fuel (b : ngx_buf) : nat := Z.to_nat (b_last b - b_pos b) + 2.

(** [rb->rest == -1] marks the first call. *)
Definition body_chunked_start (s : body) : body :=
  if rb_rest s =? -1 then mk_body chunked_init 3 0 (rb_out s) (rb_last s) else s.

(** [for (cl = in; cl; cl = cl->next)]; a buffer is its memory and [pos],
    [last].  Allocations succeed. *)
Fixpoint body_chunked_chain (max : Z) (chain : list (list Z * ngx_buf)) (s : body)
    : option (Z * body) :=
  match chain with
  | [] => Some (NGX_OK, s)
  | (mem, b) :: chain' =>
      match body_chunked_buf (body_fuel b) mem max b s with
      | None => None
      | Some (rc, s, _) =>
          if rc =? NGX_OK then body_chunked_chain max chain' s else Some (rc, s)
      end
  end.

Definition request_body_chunked_filter (max : Z) (chain : list (list Z * ngx_buf)) (s : body)
    : option (Z * body) :=
  body_chunked_chain max chain (body_chunked_start s).

(** [ngx_http_discard_request_body_filter] of a chunked body: the loop without
    the data; the last number is [r->headers_in.content_length_n]. *)
Fixpoint discard_chunked (fuel : nat) (mem : list Z) (b : ngx_buf) (ctx : chunked)
    (content_length_n : Z) : option (Z * chunked * ngx_buf * Z) :=
  match fuel with
  | O => None
  | S fuel' =>
      match parse_chunked mem b ctx with
      | None => None
      | Some (rc, ctx, b) =>
          if rc =? NGX_OK then
            let size := b_last b - b_pos b in
            let n := if ch_size ctx <? size then ch_size ctx else size in
            discard_chunked fuel' mem (mk_buf (b_pos b + n) (b_last b))
              (mk_chunked (ch_state ctx) (ch_size ctx - n) (ch_length ctx)) content_length_n
          else if rc =? NGX_DONE then Some (NGX_OK, ctx, b, 0)
          else if rc =? NGX_AGAIN then Some (NGX_OK, ctx, b, ch_length ctx)
          else Some (NGX_HTTP_BAD_REQUEST, ctx, b, content_length_n)
      end
  end.

(** ** Reference: one byte at a time *)

Inductive feed : Type :=
| Running (st : ch_st) (size n : Z) (out : list Z)  (** [n] bytes of body so far *)
| Finished (n : Z) (out : list Z) (unread : list Z)
| Malformed
| TooLarge.

Definition too_large (max n size : Z) : bool := negb (max =? 0) && (max - n <? size).

Fixpoint feed_bytes (max : Z) (st : ch_st) (size n : Z) (out l : list Z) : feed :=
  match l with
  | [] => Running st size n out
  | c :: l' =>
      if bool_decide (st = sw_chunk_data) then
        if too_large max n size then TooLarge
        else feed_bytes max (settle sw_chunk_data (size - 1)) (size - 1) (n + 1) (out ++ [c]) l'
      else
        match ch_step [] 0 c (st, size) with
        | Break (st', size') =>
            if NGX_MAX_OFF_T_VALUE - 5 <? size' then Malformed
            else feed_bytes max st' size' n out l'
        | Leave (ToDone _) => Finished n out l'
        | _ => Malformed
        end
  end.

(** ** The state *)

(** A chunk whose size line has been left is not empty. *)
Definition size_ok (st : ch_st) (size : Z) : Prop :=
  0 <= size <= NGX_MAX_OFF_T_VALUE /\
  match st with
  | sw_chunk_extension | sw_chunk_extension_almost_done | sw_chunk_data => 0 < size
  | _ => True
  end.

Lemma ch_step_ignores mem p c s : ch_step mem p c s = ch_step [] 0 c s.
Proof. done. Qed.

Lemma hex_alpha_bounds ch : is_hex_alpha ch = true -> 10 <= hex_alpha_value ch <= 15.
Proof. unfold is_hex_alpha, hex_alpha_value. lia. Qed.

Ltac ch_cases H :=
  unfold ch_step, ch_on_chunk_start, ch_on_chunk_size, ch_skip, ch_expect_lf, ch_on_trailer,
    ch_on_trailer_almost_done in H;
  case_ifs_in H; try discriminate H; simplify_eq.

(** The size is computed without overflow: the test against
    [NGX_MAX_OFF_T_VALUE / 16] comes before the digit is added. *)
Lemma ch_step_size st size c st' size' :
  size_ok st size -> ch_step [] 0 c (st, size) = Break (st', size') -> size_ok st' size'.
Proof.
  intros [Hs Hp] H. unfold NGX_MAX_OFF_T_VALUE in *.
  assert (Hh : is_hex_alpha c = true -> 10 <= hex_alpha_value c <= 15) by apply hex_alpha_bounds.
  unfold size_ok, NGX_MAX_OFF_T_VALUE.
  destruct st; ch_cases H; unfold is_digit, NGX_MAX_OFF_T_VALUE in *;
    repeat match goal with H : is_hex_alpha _ = true |- _ => specialize (Hh H) end;
    change (9223372036854775807 / 16) with 576460752303423487 in *; lia.
Qed.

(** ** Refinement *)

Section Refine.
Context (mem : list Z) (max last : Z).

(** The states reached with a size that cannot be accepted any more. *)
Definition sized (st : ch_st) : bool :=
  match st with
  | sw_chunk_size | sw_chunk_extension | sw_chunk_extension_almost_done | sw_chunk_data => true
  | _ => false
  end.

Lemma ch_data_oversize rc pos st size len b :
  NGX_MAX_OFF_T_VALUE - 5 < size -> exists ctx b', ch_data rc pos st size len b = (NGX_ERROR, ctx, b').
Proof.
  intros H. unfold ch_data. assert ((NGX_MAX_OFF_T_VALUE - 5 <? size) = true) as -> by lia. by eexists _, _.
Qed.

Lemma ch_step_oversize st size c :
  sized st = true -> NGX_MAX_OFF_T_VALUE - 5 < size ->
  match ch_step [] 0 c (st, size) with
  | Break (st', size') => sized st' = true /\ size' = size
  | Leave (ToDone _) => False
  | Leave (ToData size') => size' = size
  | Leave (ToInvalid _) => True
  | Redo _ => False
  end.
Proof.
  unfold NGX_MAX_OFF_T_VALUE. intros Hst Hs.
  destruct st; try discriminate Hst;
    unfold ch_step, ch_on_chunk_size, ch_skip, ch_expect_lf, NGX_MAX_OFF_T_VALUE;
    change (9223372036854775807 / 16) with 576460752303423487; case_ifs; try done; lia.
Qed.

Lemma oversize b ctx n : forall p st size e,
  last - p <= Z.of_nat n -> sized st = true -> NGX_MAX_OFF_T_VALUE - 5 < size ->
  loop ch_step mem p last (st, size) = Some e ->
  exists ctx' b', ch_end b ctx e = (NGX_ERROR, ctx', b').
Proof.
  induction n as [|n IH]; intros p st size e Hn Hst Hs He.
  - rewrite (loop_end ch_step) in He by lia. injection He as <-. by apply ch_data_oversize.
  - destruct (Z.le_gt_cases last p) as [Hp|Hp].
    { rewrite (loop_end ch_step) in He by lia. injection He as <-. by apply ch_data_oversize. }
    rewrite (loop_unfold ch_step), ch_step_ignores in He. assert ((p <? last) = true) as E by lia. rewrite E in He.
    pose proof (ch_step_oversize st size (byte_at mem p) Hst Hs) as Hstep.
    destruct (ch_step [] 0 (byte_at mem p) (st, size)) as [[st' size']|?|[size'|?|?]]; try done.
    + destruct Hstep as [Hst' ->]. eapply (IH (p + 1)); [lia|exact Hst'|exact Hs|exact He].
    + injection He as <-. subst size'. by apply ch_data_oversize.
    + injection He as <-. by eexists _, _.
Qed.

(** The result of one buffer against the reference. *)
Definition agrees_feed (lb : bool) (res : option (Z * body * ngx_buf)) (f : feed) : Prop :=
  match f with
  | Running st size n out =>
      exists s' b', res = Some (NGX_OK, s', b') /\
        settle (ch_state (rb_chunked s')) (ch_size (rb_chunked s')) = st /\
        ch_size (rb_chunked s') = size /\ rb_content_length_n s' = n /\ rb_out s' = out /\
        rb_last s' = lb /\ rb_rest s' = ch_length_of st size
  | Finished n out unread =>
      exists s' b', res = Some (NGX_OK, s', b') /\ slice mem (b_pos b') last = unread /\
        rb_content_length_n s' = n /\ rb_out s' = out /\ rb_last s' = true /\ rb_rest s' = 0
  | Malformed => exists s' b', res = Some (NGX_HTTP_BAD_REQUEST, s', b')
  | TooLarge => exists s' b', res = Some (NGX_HTTP_REQUEST_ENTITY_TOO_LARGE, s', b')
  end.

Lemma too_large_shift n size : too_large max (n + 1) (size - 1) = too_large max n size.
Proof. unfold too_large. f_equal. lia. Qed.

(** The data of a chunk, as far as it is there. *)
Lemma feed_data l1 : forall l2 size n out,
  0 < Z.of_nat (length l1) <= size -> too_large max n size = false ->
  feed_bytes max sw_chunk_data size n out (l1 ++ l2) =
    feed_bytes max (settle sw_chunk_data (size - Z.of_nat (length l1))) (size - Z.of_nat (length l1))
      (n + Z.of_nat (length l1)) (out ++ l1) l2.
Proof.
  induction l1 as [|c l1 IH]; intros l2 size n out Hl Ht; [cbn in Hl; lia|].
  cbn [app feed_bytes]. rewrite bool_decide_true by done. rewrite Ht.
  cbn [length] in *. destruct l1 as [|c' l1].
  - cbn. done.
  - unfold settle at 1. rewrite bool_decide_true by done.
    assert ((size - 1 =? 0) = false) as -> by (cbn in Hl; lia). cbn [andb].
    rewrite IH by (rewrite ?too_large_shift; cbn [length] in *; done || lia).
    rewrite <-app_assoc. cbn [app].
    replace (size - 1 - Z.of_nat (length (c' :: l1))) with (size - Z.of_nat (S (length (c' :: l1)))) by lia.
    replace (n + 1 + Z.of_nat (length (c' :: l1))) with (n + Z.of_nat (S (length (c' :: l1)))) by lia.
    done.
Qed.

Lemma ch_step_grows st size c st' size' :
  size <= NGX_MAX_OFF_T_VALUE - 5 -> 0 <= size ->
  ch_step [] 0 c (st, size) = Break (st', size') -> NGX_MAX_OFF_T_VALUE - 5 < size' ->
  sized st' = true.
Proof.
  intros Hs H0 H Hb. pose proof (hex_alpha_bounds c). unfold NGX_MAX_OFF_T_VALUE in *.
  destruct st; ch_cases H; try done; lia.
Qed.

(** The entry state of a parse is the state of the reference. *)
Lemma size_ok_settle st size : size_ok st size -> settle st size = st.
Proof.
  intros [_ H]. unfold settle. case_bool_decide as E; [|done]. subst st.
  by assert ((size =? 0) = false) as -> by lia.
Qed.

Lemma size_ok_after size k :
  0 <= size - k -> size_ok sw_chunk_data size -> 0 <= k ->
  size_ok (settle sw_chunk_data (size - k)) (size - k).
Proof.
  intros Hk [Hs Hp] H0. unfold settle. rewrite bool_decide_true by done.
  destruct (size - k =? 0) eqn:E; split; try lia; cbn; try done; lia.
Qed.

Lemma body_sim n : last <= Z.of_nat (length mem) -> forall fuel p st size s b ctx e,
  last - p <= Z.of_nat n -> 0 <= p <= last -> last - p <= Z.of_nat fuel ->
  b_last b = last -> size_ok st size -> size <= NGX_MAX_OFF_T_VALUE - 5 ->
  loop ch_step mem p last (st, size) = Some e ->
  forall num out lb, rb_content_length_n s = num -> rb_out s = out -> rb_last s = lb ->
  agrees_feed lb
    (body_chunked_step (body_chunked_buf fuel mem max) mem max s (ch_end b ctx e))
    (feed_bytes max st size num out (slice mem p last)).
Proof.
  intros Hmem. induction n as [|n IH];
    intros fuel p st size s b ctx e Hn Hp Hf Hb Hok Hmax He num out lb <- <- <-.
  all: assert (Hend : last <= p -> agrees_feed (rb_last s)
    (body_chunked_step (body_chunked_buf fuel mem max) mem max s (ch_end b ctx e))
    (feed_bytes max st size (rb_content_length_n s) (rb_out s) (slice mem p last))).
  1,3: intros Hle; rewrite (loop_end ch_step) in He by lia; injection He as <-;
    rewrite slice_nil by lia; cbn [ch_end feed_bytes]; unfold ch_data;
    assert ((NGX_MAX_OFF_T_VALUE - 5 <? size) = false) as -> by lia;
    eexists _, _; (split; [reflexivity|]); cbn; by rewrite size_ok_settle.
  { apply Hend. lia. }
  destruct (Z.le_gt_cases last p) as [Hle|Hlt]; [by apply Hend|]. clear Hend.
  rewrite (loop_unfold ch_step), ch_step_ignores in He.
  assert ((p <? last) = true) as E by lia. rewrite E in He. clear E.
  rewrite slice_cons by lia. cbn [feed_bytes].
  destruct (bool_decide (st = sw_chunk_data)) eqn:Hst.
  - apply bool_decide_eq_true in Hst. subst st. cbn [ch_step] in He. injection He as <-.
    cbn [ch_end]. unfold ch_data.
    assert ((NGX_MAX_OFF_T_VALUE - 5 <? size) = false) as -> by lia.
    cbn [body_chunked_step Z.eqb NGX_OK]. cbn [rb_content_length_n ch_size b_pos b_last].
    change (negb (max =? 0) && (max - rb_content_length_n s <? size))
      with (too_large max (rb_content_length_n s) size).
    destruct (too_large max (rb_content_length_n s) size) eqn:Ht; [by eexists _, _|].
    set (k := if size <? b_last b - p then size else b_last b - p). cbn zeta.
    cbn [ch_state ch_length rb_chunked rb_rest rb_content_length_n rb_out rb_last].
    assert (Hk : 1 <= k <= size /\ p + k <= last).
    { destruct Hok as [? Hpos]. unfold k. case_ifs; lia. }
    clearbody k. destruct fuel as [|fuel]; [lia|]. cbn [body_chunked_buf].
    assert (Hfeed : forall l, (if bool_decide (sw_chunk_data = sw_chunk_data)
        then if too_large max (rb_content_length_n s) size then TooLarge
             else feed_bytes max (settle sw_chunk_data (size - 1)) (size - 1)
                    (rb_content_length_n s + 1) (rb_out s ++ [byte_at mem p]) l
        else Malformed) =
      feed_bytes max sw_chunk_data size (rb_content_length_n s) (rb_out s) (byte_at mem p :: l)).
    { intros l. by rewrite bool_decide_true by done. }
    specialize (Hfeed (slice mem (p + 1) last)). rewrite bool_decide_true, Ht in Hfeed by done.
    rewrite Hfeed. rewrite <-slice_cons by lia.
    rewrite (slice_split mem p (p + k) last) by lia.
    pose proof (length_slice mem p (p + k) ltac:(lia) ltac:(lia)) as Hlen.
    rewrite feed_data by (done || lia). rewrite Hlen. replace (p + k - p) with k by lia.
    unfold parse_chunked. cbn [rb_chunked ch_state ch_size b_pos b_last].
    destruct (loop_total ch_step mem (p + k) (b_last b)
      (settle sw_chunk_data (size - k), size - k)) as [e' He'].
    rewrite He'. cbn [fmap option_fmap option_map].
    eapply (IH fuel (p + k)); cbn [b_last]; try done; try lia.
    + apply size_ok_after; [lia|done|lia].
    + by rewrite Hb in He'.
  - pose proof (ch_step_size st size (byte_at mem p)) as Hsz.
    pose proof (ch_step_grows st size (byte_at mem p)) as Hgr.
    destruct (ch_step [] 0 (byte_at mem p) (st, size)) as [[st' size']|?|[size'|size'|size']] eqn:Hs.
    + destruct (NGX_MAX_OFF_T_VALUE - 5 <? size') eqn:Hbig.
      * specialize (Hgr st' size' Hmax ltac:(destruct Hok; lia) eq_refl ltac:(lia)).
        destruct (oversize b ctx n (p + 1) st' size' e ltac:(lia) Hgr ltac:(lia) He)
          as (ctx' & b' & ->). by eexists _, _.
      * eapply (IH fuel (p + 1)); try done; try lia. by apply Hsz.
    + by destruct st; ch_cases Hs.
    + exfalso. destruct st; ch_cases Hs.
    + injection He as <-. eexists _, _. split; [reflexivity|]. done.
    + injection He as <-. by eexists _, _.
Qed.

End Refine.

(** ** The filter over the reads of a body *)

Definition body_ok (s : body) : Prop :=
  size_ok (settle (ch_state (rb_chunked s)) (ch_size (rb_chunked s))) (ch_size (rb_chunked s)) /\
  ch_size (rb_chunked s) <= NGX_MAX_OFF_T_VALUE - 5.

(** One buffer. *)
Lemma body_chunked_buf_reference mem max b s :
  0 <= b_pos b <= b_last b -> b_last b <= Z.of_nat (length mem) -> body_ok s ->
  agrees_feed mem (b_last b) (rb_last s) (body_chunked_buf (body_fuel b) mem max b s)
    (feed_bytes max (settle (ch_state (rb_chunked s)) (ch_size (rb_chunked s)))
       (ch_size (rb_chunked s)) (rb_content_length_n s) (rb_out s) (slice mem (b_pos b) (b_last b))).
Proof.
  intros Hb Hm [Hok Hmax]. unfold body_fuel.
  replace (Z.to_nat (b_last b - b_pos b) + 2)%nat
    with (S (Z.to_nat (b_last b - b_pos b) + 1)) by lia.
  cbn [body_chunked_buf]. unfold parse_chunked.
  destruct (loop_total ch_step mem (b_pos b) (b_last b)
    (settle (ch_state (rb_chunked s)) (ch_size (rb_chunked s)), ch_size (rb_chunked s))) as [e He].
  rewrite He. cbn [fmap option_fmap option_map].
  eapply (body_sim mem max (b_last b) (Z.to_nat (b_last b - b_pos b)));
    try done; lia.
Qed.

Lemma feed_app l1 : forall max st size n out l2,
  feed_bytes max st size n out (l1 ++ l2) =
    match feed_bytes max st size n out l1 with
    | Running st size n out => feed_bytes max st size n out l2
    | Finished n out unread => Finished n out (unread ++ l2)
    | f => f
    end.
Proof.
  induction l1 as [|c l1 IH]; intros; [done|]. cbn [app feed_bytes].
  case_ifs; [done|apply IH|].
  destruct (ch_step [] 0 c (st, size)) as [[st' size']|?|[?|?|?]]; try done.
  case_ifs; [done|apply IH].
Qed.

(** The state a run leaves behind is a state to go on from. *)
Lemma feed_running l : forall max st size n out st' size' n' out',
  size_ok st size -> size <= NGX_MAX_OFF_T_VALUE - 5 ->
  feed_bytes max st size n out l = Running st' size' n' out' ->
  size_ok st' size' /\ size' <= NGX_MAX_OFF_T_VALUE - 5.
Proof.
  induction l as [|c l IH]; intros max st size n out st' size' n' out' Hok Hmax H.
  { by injection H as <- <- <- <-. }
  cbn [feed_bytes] in H. destruct (bool_decide (st = sw_chunk_data)) eqn:E.
  - apply bool_decide_eq_true in E. subst st. destruct (too_large max n size); [done|].
    eapply IH; [| |exact H]; [|lia]. destruct Hok as [H1 H2].
    apply size_ok_after; [lia|by split|lia].
  - pose proof (ch_step_size st size c) as Hs.
    destruct (ch_step [] 0 c (st, size)) as [[st1 size1]|?|[?|?|?]]; try done.
    destruct (NGX_MAX_OFF_T_VALUE - 5 <? size1) eqn:E1; [done|].
    eapply IH; [| |exact H]; [|lia]. by apply Hs.
Qed.

Lemma ch_length_pos st size : 0 <= size -> 0 < ch_length_of st size.
Proof. intros. destruct st; cbn; case_ifs; lia. Qed.

(** The reads of [ngx_http_do_read_client_request_body]: the body arrives in
    pieces, each handed to the filter in a buffer of its own until [rb->rest]
    is 0. *)
Fixpoint read_body (max : Z) (reads : list (list Z)) (s : body) : option (Z * body) :=
  match reads with
  | [] => Some (NGX_OK, s)
  | l :: reads' =>
      match request_body_chunked_filter max [(l, mk_buf 0 (Z.of_nat (length l)))] s with
      | None => None
      | Some (rc, s) =>
          if negb (rc =? NGX_OK) || (rb_rest s =? 0) then Some (rc, s)
          else read_body max reads' s
      end
  end.

(** The result of the reads against the reference. *)
Definition agrees_body (res : option (Z * body)) (f : feed) : Prop :=
  match f with
  | Running st size n out =>
      exists s, res = Some (NGX_OK, s) /\ rb_rest s = ch_length_of st size /\
        rb_content_length_n s = n /\ rb_out s = out /\ rb_last s = false
  | Finished n out _ =>
      exists s, res = Some (NGX_OK, s) /\ rb_rest s = 0 /\
        rb_content_length_n s = n /\ rb_out s = out /\ rb_last s = true
  | Malformed => exists s, res = Some (NGX_HTTP_BAD_REQUEST, s)
  | TooLarge => exists s, res = Some (NGX_HTTP_REQUEST_ENTITY_TOO_LARGE, s)
  end.

Lemma read_body_sim max reads : forall s,
  body_ok s -> rb_rest s <> -1 -> rb_last s = false ->
  rb_rest s = ch_length_of (settle (ch_state (rb_chunked s)) (ch_size (rb_chunked s)))
                (ch_size (rb_chunked s)) ->
  agrees_body (read_body max reads s)
    (feed_bytes max (settle (ch_state (rb_chunked s)) (ch_size (rb_chunked s)))
       (ch_size (rb_chunked s)) (rb_content_length_n s) (rb_out s) (concat reads)).
Proof.
  induction reads as [|l reads IH]; intros s Hok Hr Hlast Hrest; cbn [read_body concat].
  { cbn [feed_bytes agrees_body]. by exists s. }
  unfold request_body_chunked_filter, body_chunked_start.
  assert ((rb_rest s =? -1) = false) as -> by lia. cbn [body_chunked_chain].
  pose proof (body_chunked_buf_reference l max (mk_buf 0 (Z.of_nat (length l))) s
    ltac:(cbn; lia) ltac:(cbn; lia) Hok) as H.
  cbn [b_pos b_last] in H.
  replace (slice l 0 (Z.of_nat (length l))) with l in H
    by (unfold slice; rewrite Z.sub_0_r, Nat2Z.id; cbn; by rewrite take_ge).
  rewrite feed_app. destruct Hok as [Hok Hmax].
  pose proof (feed_running l max (settle (ch_state (rb_chunked s)) (ch_size (rb_chunked s)))
    (ch_size (rb_chunked s)) (rb_content_length_n s) (rb_out s)) as Hrun.
  destruct (feed_bytes max _ _ _ _ l) as [st size n out|n out unread| |]; cbn [agrees_feed] in H.
  - destruct H as (s' & b' & -> & Hst & Hsz & <- & <- & Hl & Hre).
    destruct (Hrun _ _ _ _ Hok Hmax eq_refl) as [Hok' Hmax'].
    cbn [Z.eqb NGX_OK negb orb].
    pose proof (ch_length_pos st size ltac:(destruct Hok'; lia)) as Hpos.
    assert ((rb_rest s' =? 0) = false) as -> by lia. cbn.
    rewrite <-Hst, <-Hsz. apply IH.
    + unfold body_ok. by rewrite Hst, Hsz.
    + lia.
    + congruence.
    + by rewrite Hst, Hsz.
  - destruct H as (s' & b' & -> & _ & H1 & H2 & H3 & H4). cbn [Z.eqb NGX_OK negb orb].
    rewrite H4. cbn. by exists s'.
  - destruct H as (s' & b' & ->). cbn. by exists s'.
  - destruct H as (s' & b' & ->). cbn. by exists s'.
Qed.

(** The body before the first read. *)
Definition body_init : body := mk_body chunked_init (-1) (-1) [] false.

Lemma read_body_any max l reads :
  agrees_body (read_body max (l :: reads) body_init)
    (feed_bytes max sw_chunk_start 0 0 [] (concat (l :: reads))).
Proof.
  assert (Hstart : read_body max (l :: reads) body_init =
    read_body max (l :: reads) (mk_body chunked_init 3 0 [] false)) by done.
  rewrite Hstart. apply (read_body_sim max (l :: reads) (mk_body chunked_init 3 0 [] false)); try done.
Qed.

(** C4: however the body is cut into reads, [ngx_http_request_body_chunked_filter]
    delivers the data, counts the bytes, and reports the end, a malformed body
    or a too large one, exactly as decoding the stream byte by byte does; while
    the body is incomplete [rb->rest] is [ctx->length]. *)
Theorem read_body_reference max l reads :
  agrees_body (read_body max (l :: reads) body_init)
    (feed_bytes max sw_chunk_start 0 0 [] (concat (l :: reads))).
Proof. apply read_body_any. Qed.

(** ** Bounds *)

(** The parser never computes with a size or a length outside of [off_t]:
    from a context in range it leaves one in range, and a parse that succeeds
    leaves a size at most [NGX_MAX_OFF_T_VALUE - 5]. *)
Theorem parse_chunked_bounds mem b ctx rc ctx' b' :
  b_pos b <= b_last b ->
  size_ok (settle (ch_state ctx) (ch_size ctx)) (ch_size ctx) ->
  parse_chunked mem b ctx = Some (rc, ctx', b') ->
  0 <= ch_size ctx' <= NGX_MAX_OFF_T_VALUE /\
  (rc = NGX_OK \/ rc = NGX_AGAIN ->
    ch_size ctx' <= NGX_MAX_OFF_T_VALUE - 5 /\ 0 < ch_length ctx' <= NGX_MAX_OFF_T_VALUE).
Proof.
  intros Hb Hok H. unfold parse_chunked in H.
  destruct (loop_total ch_step mem (b_pos b) (b_last b)
    (settle (ch_state ctx) (ch_size ctx), ch_size ctx)) as [e He].
  rewrite He in H. injection H as H.
  assert (Hinv : match e with
    | Exhausted q t => q = b_last b /\ size_ok (fst t) (snd t)
    | Left q x => b_pos b <= q < b_last b /\
        match x with ToData z | ToDone z | ToInvalid z => 0 <= z <= NGX_MAX_OFF_T_VALUE end
    end).
  { eapply (loop_inv ch_step (fun _ t => size_ok (fst t) (snd t)) (fun _ x =>
      match x with ToData z | ToDone z | ToInvalid z => 0 <= z <= NGX_MAX_OFF_T_VALUE end));
      [| | |exact Hb| |exact He]; [| | |done].
    - intros q [st size] [st' size'] _ Ht Hs. rewrite ch_step_ignores in Hs.
      by apply (ch_step_size _ _ _ _ _ Ht Hs).
    - intros q [st size] t' _ Ht Hs. by destruct st; ch_cases Hs.
    - intros q [st size] r _ [Hz Ht] Hs. cbn in Hz. destruct st; ch_cases Hs; done. }
  destruct e as [q [st size]|q [z|z|z]]; cbn [fst snd] in Hinv; destruct Hinv as [_ Hinv];
    cbn [ch_end] in H; unfold ch_data in H.
  all: case_ifs_in H; injection H as <- <- <-; cbn [ch_size ch_length].
  all: try (unfold size_ok in Hinv).
  all: split; [tauto|]; intros [E|E]; try discriminate E; try (unfold NGX_OK, NGX_AGAIN, NGX_ERROR in E; lia).
  all: split; [lia|]; split; [apply ch_length_pos; lia|]; cbn; unfold NGX_MAX_OFF_T_VALUE in *;
    try destruct st; cbn; case_ifs; lia.
Qed.

(** One byte shortens what is still needed by at most one. *)
Lemma ch_length_step st size c st' size' :
  size_ok st size -> ch_step [] 0 c (st, size) = Break (st', size') ->
  ch_length_of st size <= 1 + ch_length_of st' size'.
Proof.
  intros [Hs Hp] H. pose proof (hex_alpha_bounds c) as Hh.
  destruct st; ch_cases H; unfold is_digit in *;
    repeat match goal with H : is_hex_alpha _ = true |- _ => specialize (Hh H) end;
    cbn [ch_length_of] in *; case_ifs; lia.
Qed.

(** [ctx->length], the amount of data asked of the client next, is never
    more than what is left of a well-formed body: reading that much cannot
    consume bytes of the request after it. *)
Theorem chunked_length_bound l max st size n out n' out' unread :
  size_ok st size -> feed_bytes max st size n out l = Finished n' out' unread ->
  ch_length_of st size <= Z.of_nat (length l) - Z.of_nat (length unread).
Proof.
  revert st size n out. induction l as [|c l IH]; intros st size n out Hok H; [done|].
  cbn [feed_bytes] in H. destruct (bool_decide (st = sw_chunk_data)) eqn:E.
  - apply bool_decide_eq_true in E. subst st. destruct (too_large max n size); [done|].
    destruct Hok as [H1 H2]. apply IH in H; [|apply size_ok_after; [lia|by split|lia]].
    unfold settle in H. rewrite bool_decide_true in H by done. cbn [andb length ch_length_of] in *.
    case_ifs_in H; cbn [ch_length_of] in H; lia.
  - pose proof (ch_step_size st size c) as Hs. pose proof (ch_length_step st size c) as Hl.
    destruct (ch_step [] 0 c (st, size)) as [[st1 size1]|?|[?|?|?]] eqn:Es; try done.
    + destruct (NGX_MAX_OFF_T_VALUE - 5 <? size1); [done|].
      specialize (Hs _ _ Hok eq_refl). specialize (Hl _ _ Hok eq_refl).
      apply IH in H; [|done]. cbn [length]. lia.
    + injection H as <- <- <-. cbn [length].
      assert (ch_length_of st size <= 1) by (destruct st; ch_cases Es; cbn; lia). lia.
Qed.

(** [ngx_http_discard_request_body_filter] finds the same result, context and
    end of a chunked body as the filter that keeps the data without a limit on
    its size, and asks for the same amount of data next. *)
Theorem discard_chunked_same fuel mem b s content_length_n :
  discard_chunked fuel mem b (rb_chunked s) content_length_n =
    match body_chunked_buf fuel mem 0 b s with
    | None => None
    | Some (rc, s', b') =>
        Some (rc, rb_chunked s', b', if rc =? NGX_OK then rb_rest s' else content_length_n)
    end.
Proof.
  revert b s. induction fuel as [|f IH]; intros b s; [done|].
  cbn [discard_chunked body_chunked_buf].
  destruct (parse_chunked mem b (rb_chunked s)) as [[[rc ctx] b']|]; [|done].
  unfold body_chunked_step. cbn [Z.eqb negb andb]. destruct (rc =? NGX_OK) eqn:E.
  - match goal with
    | |- _ = match body_chunked_buf _ _ _ ?b1 ?s1 with _ => _ end => exact (IH b1 s1)
    end.
  - case_ifs; try done; unfold NGX_OK, NGX_DONE, NGX_AGAIN in *; done.
Qed.

(** ** Witnesses *)

Definition sample_chunked : list Z :=
  bytes "5" ++ [13; 10] ++ bytes "hello" ++ [13; 10] ++ bytes "0" ++ [13; 10; 13; 10].

Lemma parse_chunked_bounds_witness :
  exists ctx' b', parse_chunked sample_chunked (mk_buf 0 15) chunked_init = Some (NGX_OK, ctx', b') /\
    ch_size ctx' = 5 /\ 0 < ch_length ctx' <= NGX_MAX_OFF_T_VALUE.
Proof.
  do 2 eexists. split; [vm_compute; reflexivity|]. split; [reflexivity|].
  refine (proj2 (proj2 (parse_chunked_bounds sample_chunked (mk_buf 0 15) chunked_init NGX_OK _ (mk_buf 3 15)
    _ _ _) _)).
  - cbn. lia.
  - vm_compute. repeat split; discriminate.
  - vm_compute. reflexivity.
  - left. reflexivity.
Defined.

Lemma chunked_length_bound_witness :
  feed_bytes 0 sw_chunk_start 0 0 [] (sample_chunked ++ [1]) = Finished 5 (bytes "hello") [1] /\
  ch_length_of sw_chunk_start 0 <= 16 - 1.
Proof.
  split; [vm_compute; reflexivity|].
  apply (chunked_length_bound (sample_chunked ++ [1]) 0 sw_chunk_start 0 0 [] 5 (bytes "hello") [1]).
  - vm_compute. repeat split; discriminate.
  - vm_compute. reflexivity.
Defined.

(** Bytes between the data of a chunk and its line end are skipped silently. *)
Example junk_after_data :
  feed_bytes 0 sw_chunk_start 0 0 []
    (bytes "1" ++ [13; 10] ++ bytes "xJUNK" ++ [13; 10] ++ bytes "0" ++ [13; 10; 13; 10])
  = Finished 1 (bytes "x") [].
Proof. vm_compute. reflexivity. Qed.
