(* ===== verification/ChunkedFilter.v ===== *)
(** * ngx_http_chunked_body_filter

    The output filter of [src/http/modules/ngx_http_chunked_filter_module.c]
    that puts a response body in chunked transfer coding, and the round trip
    with the reader of [Chunked]. *)

From S2P Require Import Prelude Fsm RequestLine ComplexUri Sprintf Chunked.

(** ** Data *)

(** An output buffer: its contents and the flags the filter reads.  A buffer
    neither in memory nor in a file is empty. *)
Record fbuf : Type := mk_fbuf {
  fb_data : list Z;
  fb_flush : bool; fb_sync : bool; fb_in_memory : bool; fb_in_file : bool;
  fb_last_buf : bool
}.

(** [ngx_buf_size] *)
Definition fb_size (b : fbuf) : Z :=
  if fb_in_memory b || fb_in_file b then Z.of_nat (length (fb_data b)) else 0.

Definition CRLF : list Z := [CR; LF].

(** The buffers of the filter itself: the size line is [temporary], the two
    others are in read-only [memory]. *)
Definition own_buf (data : list Z) (last_buf : bool) : fbuf :=
  mk_fbuf data false false true false last_buf.

(** ** The filter *)

(** The loop over the chain: [size] and the links copied to [out]. *)
Fixpoint chunk_collect (chain : list fbuf) : Z * list fbuf :=
  match chain with
  | [] => (0, [])
  | b :: chain' =>
      let (size, out) := chunk_collect chain' in
      (fb_size b + size,
       if fb_flush b || fb_sync b || fb_in_memory b || fb_in_file b then b :: out else out)
  end.

(** [cl->buf->last_buf = 0;]: [cl] is the last link. *)
Definition clear_last (b : fbuf) : fbuf :=
  mk_fbuf (fb_data b) (fb_flush b) (fb_sync b) (fb_in_memory b) (fb_in_file b) false.

Fixpoint clear_last_of (chain : list fbuf) : list fbuf :=
  match chain with
  | [] => []
  | [b] => [clear_last b]
  | b :: chain' => b :: clear_last_of chain'
  end.

(** The chain handed to [ngx_http_next_body_filter]; [chain] is not empty.
    [room] is the distance from the chunk buffer to the end of the address
    space, which [ngx_sprintf] takes for its limit. *)
Definition chunked_body_filter (room : Z) (chain : list fbuf) : option (list fbuf) :=
  let last_buf := match last chain with Some b => fb_last_buf b | None => false end in
  let (size, out) := chunk_collect (if last_buf then clear_last_of chain else chain) in
  let head :=
    if size =? 0 then Some []
    else match vslprintf room (bytes "%xO" ++ CRLF) [VNum size] with
         | Some line => Some [own_buf line false]
         | None => None
         end in
  match head with
  | None => None
  | Some head =>
      Some (head ++ out ++
        (if last_buf then
           [own_buf (if size =? 0 then bytes "0" ++ CRLF ++ CRLF
                     else CRLF ++ bytes "0" ++ CRLF ++ CRLF) true]
         else if 0 <? size then [own_buf CRLF false]
         else []))
  end.

(** The bytes a chain puts on the wire. *)
Definition wire (out : list fbuf) : list Z := concat (map fb_data out).

(** ** The size line *)

(** Lower case hexadecimal digits. *)
Definition hex_lower (c : Z) : Prop := exists d, 0 <= d < 16 /\ c = num_char 1 d.

Lemma num_digits_lower n : forall v p ds,
  0 <= v -> num_digits n 1 16 v p = Some ds -> Forall hex_lower p -> Forall hex_lower ds.
Proof.
  induction n as [|n IH]; intros v p ds Hv H Hp; [done|]. cbn [num_digits] in H.
  pose proof (Z.mod_pos_bound v 16 ltac:(lia)).
  assert (Hp' : Forall hex_lower (num_char 1 (v mod 16) :: p)).
  { constructor; [|done]. exists (v mod 16). split; [lia|done]. }
  destruct (v / 16 =? 0); [by injection H as <-|].
  eapply IH; [|exact H|exact Hp']. apply Z.div_pos; lia.
Qed.

Lemma num_digits_more n m hexadecimal base : forall v p ds,
  (n <= m)%nat -> num_digits n hexadecimal base v p = Some ds ->
  num_digits m hexadecimal base v p = Some ds.
Proof.
  revert m. induction n as [|n IH]; intros [|m] v p ds Hle H; try done; [lia|].
  cbn [num_digits] in *. case_ifs; [done|]. by apply IH; [lia|].
Qed.

Lemma size_digits size :
  0 < size < 2 ^ 64 ->
  exists ds, num_text 1 size = Some ds /\ (1 <= length ds <= 16)%nat /\
    num_value 16 ds = size /\ Forall hex_lower ds.
Proof.
  intros Hs. destruct (num_digits_spec 1 16 15 ltac:(lia) size [] ltac:(cbn; lia))
    as (ds & Hds & Hl & Hv & _). rewrite app_nil_r in Hds.
  exists ds. split_and!; [|lia|lia|done|].
  - unfold num_text. cbn [Z.eqb]. eapply num_digits_more; [|exact Hds]. unfold NGX_INT64_LEN. lia.
  - eapply num_digits_lower; [|exact Hds|constructor]. lia.
Qed.

(** The size line, and that it fits the 18 bytes allocated for it. *)
Lemma size_line room size :
  18 <= room -> 0 < size < 2 ^ 63 ->
  exists ds, vslprintf room (bytes "%xO" ++ CRLF) [VNum size] = Some (ds ++ CRLF) /\
    (1 <= length ds <= 16)%nat /\ num_value 16 ds = size /\ Forall hex_lower ds.
Proof.
  intros Hr Hs. destruct (size_digits size ltac:(lia)) as (ds & Hds & Hl & Hv & Hh).
  exists ds. split_and!; [|lia|lia|done|done].
  assert (H1 : vslprintf room (bytes "%xO" ++ CRLF) [VNum size] =
    match put_num room [] (mk_conv #" " 0 false 1 false 0 None) true (i64 size) with
    | Some out => vslprintf_loop 5 room out CRLF []
    | None => None
    end).
  { unfold vslprintf. change (bytes "%xO" ++ CRLF) with [37; 120; 79; 13; 10].
    cbn [vslprintf_loop length]. assert ((Z.of_nat 0 <? room) = true) as -> by lia.
    change (fmt_number 0 [120; 79; 13; 10]) with (0, [120; 79; 13; 10]).
    cbn. destruct (put_num _ _ _ _ _); done. }
  rewrite H1. unfold put_num, i64. rewrite Z.mod_small by lia.
  assert ((size + 2 ^ 63 - 2 ^ 63 <? 0) = false) as -> by lia. cbn [andb].
  unfold u64. rewrite Z.mod_small by lia. replace (size + 2 ^ 63 - 2 ^ 63) with size by lia.
  cbn [cv_hex cv_zero cv_width].
  rewrite (sprintf_num_taken room [] size 32 1 0 ds) by (done || cbn; lia).
  replace (Z.to_nat (0 - Z.of_nat (length ds))) with 0%nat by lia. cbn [replicate app].
  rewrite taken_short by lia. unfold CRLF. cbn [vslprintf_loop].
  assert ((Z.of_nat (length ds) <? room) = true) as -> by lia. cbn [Z.eqb Pos.eqb].
  rewrite length_app. cbn [length].
  assert ((Z.of_nat (length ds + 1) <? room) = true) as -> by lia.
  by rewrite <-app_assoc.
Qed.

(** ** One call *)

Definition fb_wf (b : fbuf) : Prop := fb_in_memory b || fb_in_file b = false -> fb_data b = [].

Lemma fb_size_wf b : fb_wf b -> fb_size b = Z.of_nat (length (fb_data b)).
Proof.
  unfold fb_wf, fb_size. intros H. destruct (fb_in_memory b || fb_in_file b); [done|].
  by rewrite H.
Qed.

Lemma chunk_collect_spec chain : Forall fb_wf chain ->
  fst (chunk_collect chain) = Z.of_nat (length (wire chain)) /\
  wire (snd (chunk_collect chain)) = wire chain.
Proof.
  induction 1 as [|b chain Hb _ [IH1 IH2]]; [done|]. cbn [chunk_collect].
  destruct (chunk_collect chain) as [size out]. cbn [fst snd] in *. split.
  - rewrite fb_size_wf, IH1 by done. unfold wire. cbn. rewrite length_app. lia.
  - unfold wire in *. cbn [map concat]. rewrite <-IH2.
    destruct (fb_flush b || fb_sync b || fb_in_memory b || fb_in_file b) eqn:E; [done|].
    rewrite Hb; [done|]. by destruct (fb_in_memory b), (fb_in_file b), (fb_flush b), (fb_sync b).
Qed.

Lemma clear_last_of_spec chain :
  wire (clear_last_of chain) = wire chain /\ (Forall fb_wf chain -> Forall fb_wf (clear_last_of chain)).
Proof.
  induction chain as [|b chain [IH1 IH2]]; [done|]. destruct chain as [|b' chain].
  - split; [done|]. intros H. inversion H; subst. by repeat constructor.
  - unfold wire in *. change (clear_last_of (b :: b' :: chain)) with (b :: clear_last_of (b' :: chain)).
    cbn [map concat] in *. rewrite IH1. split; [done|]. intros H. inversion H; subst.
    constructor; auto.
Qed.

(** The coding of one call's data, and of the end of the message. *)
Definition coded (size_digits data : list Z) (last_buf : bool) : list Z :=
  match data with
  | [] => if last_buf then bytes "0" ++ CRLF ++ CRLF else []
  | _ => size_digits ++ CRLF ++ data ++ CRLF ++
           (if last_buf then bytes "0" ++ CRLF ++ CRLF else [])
  end.

Definition ends (chain : list fbuf) : bool :=
  match last chain with Some b => fb_last_buf b | None => false end.

Lemma chunked_body_filter_spec room chain :
  18 <= room -> Forall fb_wf chain -> Z.of_nat (length (wire chain)) < 2 ^ 63 ->
  exists out ds, chunked_body_filter room chain = Some out /\
    wire out = coded ds (wire chain) (ends chain) /\
    (wire chain <> [] -> num_value 16 ds = Z.of_nat (length (wire chain)) /\
       (1 <= length ds <= 16)%nat /\ Forall hex_lower ds).
Proof.
  intros Hr Hwf Hlen. unfold chunked_body_filter. fold (ends chain).
  pose proof (clear_last_of_spec chain) as [Hc1 Hc2].
  pose proof (chunk_collect_spec (if ends chain then clear_last_of chain else chain)) as Hcol.
  replace (wire (if ends chain then clear_last_of chain else chain)) with (wire chain) in Hcol
    by (by destruct (ends chain)).
  destruct Hcol as [H1 H2]; [by destruct (ends chain); auto|].
  destruct (chunk_collect _) as [size out]. cbn [fst snd] in *. subst size.
  destruct (wire chain) as [|c l] eqn:Ew.
  - cbn [length Z.of_nat Z.eqb Z.ltb Z.compare]. eexists _, []. split; [done|]. split; [|done].
    unfold wire in *. cbn [app]. rewrite map_app, concat_app, H2. by destruct (ends chain).
  - rewrite <-Ew in *.
    assert (Hpos : 0 < Z.of_nat (length (wire chain))) by (rewrite Ew; cbn; lia).
    assert ((Z.of_nat (length (wire chain)) =? 0) = false) as -> by lia.
    assert ((0 <? Z.of_nat (length (wire chain))) = true) as -> by lia.
    destruct (size_line room (Z.of_nat (length (wire chain))) Hr ltac:(lia)) as (ds & -> & Hl & Hv & Hh).
    eexists _, ds. split; [done|]. split; [|done].
    unfold coded. rewrite Ew at 1. unfold wire in *.
    rewrite !map_app, !concat_app, H2. cbn [map concat own_buf fb_data]. rewrite app_nil_r.
    rewrite <-app_assoc. f_equal. f_equal. f_equal. by destruct (ends chain).
Qed.

(** ** Reading the coding back *)

Lemma hex_lower_read c : hex_lower c ->
  0 <= char_num c < 16 /\
  ((is_digit c = true /\ c - #"0" = char_num c) \/
   (is_digit c = false /\ is_hex_alpha c = true /\ hex_alpha_value c = char_num c)).
Proof.
  intros (d & Hd & ->). rewrite char_num_char by lia. split; [lia|].
  assert (Hall : forallb (fun d => let c := num_char 1 d in
      (is_digit c && (c - 48 =? d)) || (negb (is_digit c) && is_hex_alpha c && (hex_alpha_value c =? d)))
    (map Z.of_nat (seq 0 16)) = true) by reflexivity.
  rewrite forallb_forall in Hall. specialize (Hall d). rewrite in_map_iff in Hall.
  specialize (Hall ltac:(exists (Z.to_nat d); rewrite in_seq; lia)). cbn zeta in Hall. lia.
Qed.

Definition hex_from (v : Z) (ds : list Z) : Z := fold_left (fun v c => 16 * v + char_num c) ds v.

Lemma hex_from_grows ds : forall v, 0 <= v -> Forall hex_lower ds -> v <= hex_from v ds.
Proof.
  induction ds as [|c ds IH]; intros v Hv H; [cbn; lia|].
  inversion H as [|? ? Hc Hds]; subst. apply hex_lower_read in Hc as [Hc _].
  unfold hex_from. cbn [fold_left]. fold (hex_from (16 * v + char_num c) ds).
  specialize (IH (16 * v + char_num c) ltac:(lia) Hds). lia.
Qed.

Lemma feed_digits max n out l ds : forall v,
  0 <= v -> Forall hex_lower ds -> hex_from v ds <= NGX_MAX_OFF_T_VALUE - 5 ->
  feed_bytes max sw_chunk_size v n out (ds ++ l) =
    feed_bytes max sw_chunk_size (hex_from v ds) n out l.
Proof.
  induction ds as [|c ds IH]; intros v Hv H Hmax; [done|].
  inversion H as [|? ? Hc Hds]; subst. apply hex_lower_read in Hc as [Hc Hr].
  assert (Hnext : 16 * v + char_num c <= hex_from v (c :: ds)).
  { unfold hex_from. cbn [fold_left]. apply hex_from_grows; [lia|done]. }
  cbn [app feed_bytes]. rewrite bool_decide_false by done. cbn [ch_step].
  unfold ch_on_chunk_size, NGX_MAX_OFF_T_VALUE in *.
  change (9223372036854775807 / 16) with 576460752303423487.
  assert ((576460752303423487 <? v) = false) as -> by lia.
  assert (Hv' : hex_from v (c :: ds) = hex_from (16 * v + char_num c) ds) by done.
  assert (Hstep : (if is_digit c then v * 16 + (c - 48) else v * 16 + hex_alpha_value c) = 16 * v + char_num c).
  { destruct Hr as [[-> ?]|(-> & _ & ?)]; lia. }
  rewrite Hv' in *.
  destruct Hr as [[Hd ?]|(Hd & Ha & ?)]; rewrite Hd in *; [|rewrite Ha]; rewrite Hstep;
    (assert ((9223372036854775807 - 5 <? 16 * v + char_num c) = false) as -> by lia);
    apply IH; done || lia.
Qed.

Lemma feed_first max n out l c ds size0 :
  hex_lower c -> Forall hex_lower ds -> num_value 16 (c :: ds) <= NGX_MAX_OFF_T_VALUE - 5 ->
  feed_bytes max sw_chunk_start size0 n out ((c :: ds) ++ l) =
    feed_bytes max sw_chunk_size (num_value 16 (c :: ds)) n out l.
Proof.
  intros Hc Hds Hmax. apply hex_lower_read in Hc as [Hc Hr].
  cbn [app feed_bytes]. rewrite bool_decide_false by done. cbn [ch_step]. unfold ch_on_chunk_start.
  change (num_value 16 (c :: ds)) with (hex_from (char_num c) ds) in *.
  assert (Hstep : (if is_digit c then c - 48 else hex_alpha_value c) = char_num c).
  { destruct Hr as [[-> ?]|(-> & _ & ?)]; lia. }
  destruct Hr as [[Hd ?]|(Hd & Ha & ?)]; rewrite Hd in *; [|rewrite Ha]; rewrite Hstep; unfold NGX_MAX_OFF_T_VALUE in *;
    (assert ((9223372036854775807 - 5 <? char_num c) = false) as -> by lia);
    apply feed_digits; done || lia.
Qed.

Lemma feed_step max st size n out c l st' size' :
  st <> sw_chunk_data -> ch_step [] 0 c (st, size) = Break (st', size') ->
  size' <= NGX_MAX_OFF_T_VALUE - 5 ->
  feed_bytes max st size n out (c :: l) = feed_bytes max st' size' n out l.
Proof.
  intros Hst Hs Hmax. cbn [feed_bytes]. rewrite bool_decide_false, Hs by done.
  by assert ((NGX_MAX_OFF_T_VALUE - 5 <? size') = false) as -> by lia.
Qed.

(** The largest size the reader takes: its test against [MAX / 16] also stops
    the byte after the last digit. *)
Definition max_chunk : Z := NGX_MAX_OFF_T_VALUE / 16.

(** The line end of the size, the data, and the line end of the data. *)
Lemma feed_data_lines max n out l data :
  data <> [] -> Z.of_nat (length data) <= max_chunk ->
  too_large max n (Z.of_nat (length data)) = false ->
  feed_bytes max sw_chunk_size (Z.of_nat (length data)) n out (CRLF ++ data ++ CRLF ++ l) =
    feed_bytes max sw_chunk_start 0 (n + Z.of_nat (length data)) (out ++ data) l.
Proof.
  intros Hne Hmax Ht. set (size := Z.of_nat (length data)) in *.
  assert (Hpos : 0 < size) by (unfold size; destruct data; [done|cbn; lia]).
  assert (Hle : size <= NGX_MAX_OFF_T_VALUE - 5).
  { unfold max_chunk, NGX_MAX_OFF_T_VALUE in *.
    change (9223372036854775807 / 16) with 576460752303423487 in Hmax. lia. }
  unfold CRLF. cbn [app].
  rewrite (feed_step _ _ _ _ _ _ _ sw_chunk_extension_almost_done size); [|done| |done].
  2: { cbn [ch_step]. unfold ch_on_chunk_size. fold max_chunk.
       assert ((max_chunk <? size) = false) as -> by lia. cbn.
       by assert ((size =? 0) = false) as -> by lia. }
  rewrite (feed_step _ _ _ _ _ _ _ sw_chunk_data size); [|done|done|done].
  rewrite feed_data by (done || lia). fold size. rewrite Z.sub_diag.
  change (settle sw_chunk_data 0) with sw_after_data.
  rewrite (feed_step _ _ _ _ _ _ _ sw_after_data_almost_done 0); [|done|done|done].
  by rewrite (feed_step _ _ _ _ _ _ _ sw_chunk_start 0).
Qed.

Lemma feed_last max n out l :
  feed_bytes max sw_chunk_start 0 n out (bytes "0" ++ CRLF ++ CRLF ++ l) = Finished n out l.
Proof. done. Qed.

(** What is coded for one call is read back. *)
Lemma feed_coded max n out l ds data last_buf :
  (data <> [] -> num_value 16 ds = Z.of_nat (length data) /\ (1 <= length ds <= 16)%nat /\
     Forall hex_lower ds) ->
  Z.of_nat (length data) <= max_chunk -> max = 0 \/ n + Z.of_nat (length data) <= max ->
  feed_bytes max sw_chunk_start 0 n out (coded ds data last_buf ++ l) =
    if last_buf then Finished (n + Z.of_nat (length data)) (out ++ data) l
    else feed_bytes max sw_chunk_start 0 (n + Z.of_nat (length data)) (out ++ data) l.
Proof.
  intros Hds Hmax Hlim. destruct data as [|c data].
  { cbn [length Z.of_nat]. rewrite Z.add_0_r, app_nil_r. by destruct last_buf. }
  unfold coded. set (d := c :: data) in *. destruct Hds as (Hv & Hl & Hh); [done|].
  destruct ds as [|x ds]; [cbn in Hl; lia|]. inversion Hh; subst.
  assert (Ht : too_large max n (Z.of_nat (length d)) = false) by (unfold too_large; lia).
  rewrite <-!app_assoc. rewrite feed_first; [|done|done|].
  2: { rewrite Hv. unfold max_chunk, NGX_MAX_OFF_T_VALUE in *.
       change (9223372036854775807 / 16) with 576460752303423487 in Hmax. lia. }
  rewrite Hv, feed_data_lines by done.
  by destruct last_buf.
Qed.

(** A response: the chains of the calls of the filter, of which the last one
    ends with the last buffer. *)
Fixpoint wf_calls (calls : list (list fbuf)) : Prop :=
  match calls with
  | [] => False
  | [chain] => Forall fb_wf chain /\ ends chain = true
  | chain :: calls' => Forall fb_wf chain /\ ends chain = false /\ wf_calls calls'
  end.

Definition data_of (calls : list (list fbuf)) : list Z := concat (map wire calls).

(** The bytes sent for all the calls. *)
Fixpoint send (room : Z) (calls : list (list fbuf)) : option (list Z) :=
  match calls with
  | [] => Some []
  | chain :: calls' =>
      match chunked_body_filter room chain, send room calls' with
      | Some out, Some l => Some (wire out ++ l)
      | _, _ => None
      end
  end.

Lemma send_read room max calls : 18 <= room -> forall n out,
  wf_calls calls -> Z.of_nat (length (data_of calls)) <= max_chunk ->
  max = 0 \/ n + Z.of_nat (length (data_of calls)) <= max ->
  exists l, send room calls = Some l /\
    feed_bytes max sw_chunk_start 0 n out l =
      Finished (n + Z.of_nat (length (data_of calls))) (out ++ data_of calls) [].
Proof.
  intros Hr. induction calls as [|chain calls IH]; intros n out Hwf Hmax Hlim; [done|].
  unfold data_of in *. cbn [map concat] in *. rewrite length_app, Nat2Z.inj_add in *.
  set (rest := concat (map wire calls)) in *.
  assert (Hchain : Forall fb_wf chain) by (destruct calls; apply Hwf).
  assert (Hsmall : max_chunk < 2 ^ 63) by done.
  destruct (chunked_body_filter_spec room chain Hr Hchain ltac:(lia)) as (o & ds & Ho & Hw & Hds).
  cbn [send]. rewrite Ho, Hw. destruct calls as [|chain' calls].
  - destruct Hwf as [_ He]. eexists. split; [done|].
    pose proof (feed_coded max n out [] ds (wire chain) (ends chain) Hds ltac:(lia) ltac:(lia)) as Hf.
    rewrite app_nil_r in Hf |- *. rewrite Hf, He. subst rest. cbn. f_equal; [lia|].
    by rewrite app_nil_r.
  - destruct Hwf as (_ & He & Hwf).
    destruct (IH (n + Z.of_nat (length (wire chain))) (out ++ wire chain) Hwf ltac:(lia) ltac:(lia))
      as (l & -> & Hl).
    eexists. split; [done|]. rewrite feed_coded; [|done|lia|lia]. rewrite He, Hl, <-app_assoc.
    f_equal. lia.
Qed.

(** C3: a response body that [ngx_http_chunked_body_filter] sends, in any number
    of calls, is read back by [ngx_http_request_body_chunked_filter], however
    it is cut into reads: the same bytes, counted exactly, and the end found. *)
Theorem chunked_round_trip room max calls :
  18 <= room -> wf_calls calls -> Z.of_nat (length (data_of calls)) <= max_chunk ->
  max = 0 \/ Z.of_nat (length (data_of calls)) <= max ->
  exists l, send room calls = Some l /\
    forall r reads, concat (r :: reads) = l ->
    exists s, read_body max (r :: reads) body_init = Some (NGX_OK, s) /\
      rb_out s = data_of calls /\ rb_last s = true /\ rb_rest s = 0 /\
      rb_content_length_n s = Z.of_nat (length (data_of calls)).
Proof.
  intros Hr Hwf Hmax Hlim.
  destruct (send_read room max calls Hr 0 [] Hwf Hmax Hlim) as (l & Hl & Hfeed).
  exists l. split; [done|]. intros r reads Hreads.
  pose proof (read_body_any max r reads) as H. rewrite Hreads, Hfeed in H.
  destruct H as (s & H1 & H2 & H3 & H4 & H5). by exists s.
Qed.

(** ** Witness *)

Definition mem_buf (s : string) (last_buf : bool) : fbuf :=
  mk_fbuf (bytes s) false false true false last_buf.

(** Two calls, the second ending the response. *)
Definition sample_calls : list (list fbuf) :=
  [[mem_buf "hello, " false; mem_buf "wor" false]; [mem_buf "ld" true]].

Lemma chunked_round_trip_witness :
  exists s, read_body 0 [bytes "a"; CRLF ++ bytes "hello, w"; bytes "or" ++ CRLF ++ bytes "2" ++ CRLF;
      bytes "ld" ++ CRLF ++ bytes "0" ++ CRLF ++ CRLF] body_init = Some (NGX_OK, s) /\
    rb_out s = bytes "hello, world".
Proof.
  destruct (chunked_round_trip 100 0 sample_calls) as (l & Hl & H).
  - lia.
  - cbn. repeat split; repeat constructor; intros; discriminate.
  - vm_compute. discriminate.
  - left. reflexivity.
  - vm_compute in Hl. injection Hl as <-.
    destruct (H (bytes "a") [CRLF ++ bytes "hello, w"; bytes "or" ++ CRLF ++ bytes "2" ++ CRLF;
      bytes "ld" ++ CRLF ++ bytes "0" ++ CRLF ++ CRLF]) as (s & H1 & H2 & _); [reflexivity|].
    exists s. split; [exact H1|exact H2].
Defined.
