(* ===== verification/HeaderLine.v ===== *)
(** * ngx_http_parse_header_line

    The parser of header lines of [src/http/ngx_http_parse.c], used for client
    requests and for the responses of upstream servers.  Besides delimiting the
    name and the value it lower-cases the name into [r->lowcase_header] and
    hashes it, in step with the lookup of [ngx_hash]. *)

From S2P Require Import Prelude Fsm RequestLine.

(** ** Data *)

Definition NGX_HTTP_LC_HEADER_LEN : nat := 32.
Definition NGX_HTTP_PARSE_HEADER_DONE : Z := 1.
Definition NGX_HTTP_PARSE_INVALID_HEADER : Z := 13.

Inductive hl_st : Type :=
| hs_start | hs_name | hs_space_before_value | hs_value | hs_space_after_value
| hs_ignore_line | hs_almost_done | hs_header_almost_done.

#[export] Instance hl_st_eq_dec : EqDecision hl_st.
Proof. solve_decision. Defined.

(** The fields of [ngx_http_request_t] the parser reads or writes. *)
Record header : Type := mk_header {
  hl_state : hl_st;  (** [r->state] *)
  header_hash : Z;
  lowcase_index : Z;
  lowcase_header : list Z;  (** [NGX_HTTP_LC_HEADER_LEN] bytes *)
  invalid_header : bool;
  upstream : bool;  (** [r->upstream] is set *)
  header_name_start : option Z;
  header_name_end : option Z;
  header_start : option Z;
  header_end : option Z
}.

Definition set_hl_state (v : hl_st) (r : header) : header :=
  mk_header
    v (header_hash r) (lowcase_index r) (lowcase_header r) (invalid_header r) (upstream r)
    (header_name_start r) (header_name_end r) (header_start r) (header_end r).
Definition set_header_hash (v : Z) (r : header) : header :=
  mk_header
    (hl_state r) v (lowcase_index r) (lowcase_header r) (invalid_header r) (upstream r)
    (header_name_start r) (header_name_end r) (header_start r) (header_end r).
Definition set_lowcase_index (v : Z) (r : header) : header :=
  mk_header
    (hl_state r) (header_hash r) v (lowcase_header r) (invalid_header r) (upstream r)
    (header_name_start r) (header_name_end r) (header_start r) (header_end r).
Definition set_lowcase_header (v : list Z) (r : header) : header :=
  mk_header
    (hl_state r) (header_hash r) (lowcase_index r) v (invalid_header r) (upstream r)
    (header_name_start r) (header_name_end r) (header_start r) (header_end r).
Definition set_invalid_header (v : bool) (r : header) : header :=
  mk_header
    (hl_state r) (header_hash r) (lowcase_index r) (lowcase_header r) v (upstream r)
    (header_name_start r) (header_name_end r) (header_start r) (header_end r).
Definition set_upstream (v : bool) (r : header) : header :=
  mk_header
    (hl_state r) (header_hash r) (lowcase_index r) (lowcase_header r) (invalid_header r) v
    (header_name_start r) (header_name_end r) (header_start r) (header_end r).
Definition set_header_name_start (v : option Z) (r : header) : header :=
  mk_header
    (hl_state r) (header_hash r) (lowcase_index r) (lowcase_header r) (invalid_header r)
    (upstream r) v (header_name_end r) (header_start r) (header_end r).
Definition set_header_name_end (v : option Z) (r : header) : header :=
  mk_header
    (hl_state r) (header_hash r) (lowcase_index r) (lowcase_header r) (invalid_header r)
    (upstream r) (header_name_start r) v (header_start r) (header_end r).
Definition set_header_start (v : option Z) (r : header) : header :=
  mk_header
    (hl_state r) (header_hash r) (lowcase_index r) (lowcase_header r) (invalid_header r)
    (upstream r) (header_name_start r) (header_name_end r) v (header_end r).
Definition set_header_end (v : option Z) (r : header) : header :=
  mk_header
    (hl_state r) (header_hash r) (lowcase_index r) (lowcase_header r) (invalid_header r)
    (upstream r) (header_name_start r) (header_name_end r) (header_start r) v.

(** [ngx_hash(key, c)] on [ngx_uint_t] *)
Definition ngx_hash (key c : Z) : Z := u64 (key * 31 + c).

(** The table [lowcase]: digits, "-" and letters, lower-cased; 0 elsewhere. *)
Definition lowcase : list Z :=
  replicate 45 0 ++ [ #"-"; 0; 0 ] ++ bytes "0123456789" ++ replicate 7 0
  ++ bytes "abcdefghijklmnopqrstuvwxyz" ++ replicate 6 0
  ++ bytes "abcdefghijklmnopqrstuvwxyz" ++ replicate 133 0.

Definition lowcase_of (ch : Z) : Z := nth (Z.to_nat ch) lowcase 0.

(** How the loop is left. *)
Inductive hl_exit : Type :=
| HlDone (hash i : Z) (r : header)      (** [goto done] *)
| HlHeaderDone (r : header)             (** [goto header_done] *)
| HlInvalid (r : header).               (** [return NGX_HTTP_PARSE_INVALID_HEADER] *)

(** The local variables [state], [hash] and [i], and the request. *)
Record hl : Type := mk_hl { hv_state : hl_st; hv_hash : Z; hv_i : Z; hv_r : header }.

Definition hl_action : Type := action hl hl_exit.

(** ** The states *)

Section Header.
Context (allow_underscores : bool).

(** [hash = ngx_hash(hash, c); r->lowcase_header[i++] = c;
     i &= (NGX_HTTP_LC_HEADER_LEN - 1);] *)
Definition hl_push (st : hl_st) (hash i c : Z) (r : header) : hl :=
  mk_hl st (ngx_hash hash c) (Z.land (i + 1) (Z.of_nat NGX_HTTP_LC_HEADER_LEN - 1))
    (set_lowcase_header (<[Z.to_nat i := c]> (lowcase_header r)) r).

(** The first character of a name. *)
Definition hl_first (c : Z) (r : header) : hl :=
  mk_hl hs_name (ngx_hash 0 c) 1 (set_lowcase_header (<[0%nat := c]> (lowcase_header r)) r).

Definition hl_on_start (p ch : Z) (s : hl) : hl_action :=
  let r := set_invalid_header false (set_header_name_start (Some p) (hv_r s)) in
  if ch =? CR then
    Break (mk_hl hs_header_almost_done (hv_hash s) (hv_i s) (set_header_end (Some p) r))
  else if ch =? LF then Leave (HlHeaderDone (set_header_end (Some p) r))
  else
    let c := lowcase_of ch in
    if negb (c =? 0) then Break (hl_first c r)
    else if ch =? #"_" then
      if allow_underscores then Break (hl_first ch r)
      else Break (mk_hl hs_name (hv_hash s) (hv_i s) (set_invalid_header true r))
    else if ch =? 0 then Leave (HlInvalid r)
    else Break (mk_hl hs_name (hv_hash s) (hv_i s) (set_invalid_header true r)).

(** [r->header_start = p; r->header_end = p;] *)
Definition hl_empty_value (p : Z) (r : header) : header :=
  set_header_end (Some p) (set_header_start (Some p) r).

(** [ngx_strncmp(r->header_name_start, "HTTP", 4) == 0] *)
Definition starts_http (mem : list Z) (m : Z) : bool :=
  (byte_at mem m =? #"H") && (byte_at mem (m + 1) =? #"T") &&
  (byte_at mem (m + 2) =? #"T") && (byte_at mem (m + 3) =? #"P").

Definition hl_on_name (mem : list Z) (p ch : Z) (s : hl) : hl_action :=
  let r := hv_r s in
  let c := lowcase_of ch in
  if negb (c =? 0) then Break (hl_push hs_name (hv_hash s) (hv_i s) c r)
  else if ch =? #"_" then
    if allow_underscores then Break (hl_push hs_name (hv_hash s) (hv_i s) ch r)
    else Break (mk_hl hs_name (hv_hash s) (hv_i s) (set_invalid_header true r))
  else if ch =? #":" then
    Break (mk_hl hs_space_before_value (hv_hash s) (hv_i s) (set_header_name_end (Some p) r))
  else if ch =? CR then
    Break (mk_hl hs_almost_done (hv_hash s) (hv_i s)
             (hl_empty_value p (set_header_name_end (Some p) r)))
  else if ch =? LF then
    Leave (HlDone (hv_hash s) (hv_i s) (hl_empty_value p (set_header_name_end (Some p) r)))
  else if (ch =? #"/") && upstream r && (p - pv (header_name_start r) =? 4)
          && starts_http mem (pv (header_name_start r)) then
    Break (mk_hl hs_ignore_line (hv_hash s) (hv_i s) r)
  else if ch =? 0 then Leave (HlInvalid r)
  else Break (mk_hl hs_name (hv_hash s) (hv_i s) (set_invalid_header true r)).

Definition hl_on_space_before_value (p ch : Z) (s : hl) : hl_action :=
  let r := hv_r s in
  if ch =? #" " then Break s
  else if ch =? CR then Break (mk_hl hs_almost_done (hv_hash s) (hv_i s) (hl_empty_value p r))
  else if ch =? LF then Leave (HlDone (hv_hash s) (hv_i s) (hl_empty_value p r))
  else if ch =? 0 then Leave (HlInvalid r)
  else Break (mk_hl hs_value (hv_hash s) (hv_i s) (set_header_start (Some p) r)).

Definition hl_on_value (p ch : Z) (s : hl) : hl_action :=
  let r := hv_r s in
  if ch =? #" " then
    Break (mk_hl hs_space_after_value (hv_hash s) (hv_i s) (set_header_end (Some p) r))
  else if ch =? CR then
    Break (mk_hl hs_almost_done (hv_hash s) (hv_i s) (set_header_end (Some p) r))
  else if ch =? LF then Leave (HlDone (hv_hash s) (hv_i s) (set_header_end (Some p) r))
  else if ch =? 0 then Leave (HlInvalid r)
  else Break s.

Definition hl_goto (st : hl_st) (s : hl) : hl := mk_hl st (hv_hash s) (hv_i s) (hv_r s).

Definition hl_on_space_after_value (ch : Z) (s : hl) : hl_action :=
  if ch =? #" " then Break s
  else if ch =? CR then Break (hl_goto hs_almost_done s)
  else if ch =? LF then Leave (HlDone (hv_hash s) (hv_i s) (hv_r s))
  else if ch =? 0 then Leave (HlInvalid (hv_r s))
  else Break (hl_goto hs_value s).

Definition hl_on_ignore_line (ch : Z) (s : hl) : hl_action :=
  if ch =? LF then Break (hl_goto hs_start s) else Break s.

Definition hl_on_almost_done (ch : Z) (s : hl) : hl_action :=
  if ch =? LF then Leave (HlDone (hv_hash s) (hv_i s) (hv_r s))
  else if ch =? CR then Break s
  else Leave (HlInvalid (hv_r s)).

Definition hl_on_header_almost_done (ch : Z) (s : hl) : hl_action :=
  if ch =? LF then Leave (HlHeaderDone (hv_r s)) else Leave (HlInvalid (hv_r s)).

Definition hl_step (mem : list Z) (p ch : Z) (s : hl) : hl_action :=
  match hv_state s with
  | hs_start => hl_on_start p ch s
  | hs_name => hl_on_name mem p ch s
  | hs_space_before_value => hl_on_space_before_value p ch s
  | hs_value => hl_on_value p ch s
  | hs_space_after_value => hl_on_space_after_value ch s
  | hs_ignore_line => hl_on_ignore_line ch s
  | hs_almost_done => hl_on_almost_done ch s
  | hs_header_almost_done => hl_on_header_almost_done ch s
  end.

(** [r->state = state; r->header_hash = hash; r->lowcase_index = i;] *)
Definition hl_save (st : hl_st) (hash i : Z) (r : header) : header :=
  set_lowcase_index i (set_header_hash hash (set_hl_state st r)).

Definition hl_end (b : ngx_buf) (e : ending hl hl_exit) : Z * header * ngx_buf :=
  match e with
  | Exhausted p s =>
      (NGX_AGAIN, hl_save (hv_state s) (hv_hash s) (hv_i s) (hv_r s), mk_buf p (b_last b))
  | Left p (HlDone hash i r) => (NGX_OK, hl_save hs_start hash i r, mk_buf (p + 1) (b_last b))
  | Left p (HlHeaderDone r) =>
      (NGX_HTTP_PARSE_HEADER_DONE, set_hl_state hs_start r, mk_buf (p + 1) (b_last b))
  | Left _ (HlInvalid r) => (NGX_HTTP_PARSE_INVALID_HEADER, r, b)
  end.

Definition parse_header_line (mem : list Z) (r : header) (b : ngx_buf)
    : option (Z * header * ngx_buf) :=
  hl_end b <$>
    loop hl_step mem (b_pos b) (b_last b)
      (mk_hl (hl_state r) (header_hash r) (lowcase_index r) r).

End Header.

Create HintDb hl.
#[export] Hint Unfold hl_step hl_on_start hl_on_name hl_on_space_before_value hl_on_value
  hl_on_space_after_value hl_on_ignore_line hl_on_almost_done hl_on_header_almost_done
  hl_push hl_first hl_goto hl_empty_value : hl.

Ltac hl_cases H :=
  autounfold with hl in H; cbn zeta in H; cbn [hv_state hv_hash hv_i hv_r] in H;
  case_ifs_in H; try discriminate H; inversion H; subst; clear H.

Lemma hl_step_no_redo allow mem p c s s' : hl_step allow mem p c s <> Redo s'.
Proof. destruct s as [[] hash i r]; intros H; hl_cases H. Qed.

(** ** The header built by ngx_http_process_request_headers *)

(** [ngx_tolower] *)
Definition ngx_tolower (c : Z) : Z :=
  u8 (if (#"A" <=? c) && (c <=? #"Z") then Z.lor c 0x20 else c).

(** [ngx_hash_key] *)
Definition ngx_hash_key (data : list Z) : Z := fold_left ngx_hash data 0.

(** [ngx_hash_key_lc] *)
Definition ngx_hash_key_lc (data : list Z) : Z :=
  fold_left (fun key c => ngx_hash key (ngx_tolower c)) data 0.

(** [ngx_strlow(dst, src, n)] *)
Definition ngx_strlow (src : list Z) : list Z := map ngx_tolower src.

(** [ngx_table_elt_t] *)
Record table_elt : Type := mk_elt { h_hash : Z; h_key : list Z; h_value : list Z; h_lowcase_key : list Z }.

(** The element pushed to [r->headers_in.headers] after [NGX_OK]. *)
Definition header_elt (mem : list Z) (r : header) : table_elt :=
  let key := slice mem (pv (header_name_start r)) (pv (header_name_end r)) in
  mk_elt (header_hash r) key
    (slice mem (pv (header_start r)) (pv (header_end r)))
    (if Z.of_nat (length key) =? lowcase_index r then take (length key) (lowcase_header r)
     else ngx_strlow key).

(** ** Suspension *)

#[export] Instance hl_step_switch allow : Switch (hl_step allow).
Proof.
  split.
  - intros mem mem' p c [[] hash i r] Hag; try done. cbn [hl_step hv_state]. unfold hl_on_name.
    cbn [hv_r hv_hash hv_i].
    destruct (p - pv (header_name_start r) =? 4) eqn:E; [|by rewrite !andb_false_r].
    assert (starts_http mem (pv (header_name_start r)) = starts_http mem' (pv (header_name_start r)))
      as ->; [|done].
    unfold starts_http. by rewrite !Hag by lia.
  - intros mem p c s s' s'' H. by apply hl_step_no_redo in H.
Qed.

(** The saved fields are carried along by the [switch]. *)
Definition hl_carry (st : hl_st) (hash i : Z) (s : hl) : hl :=
  mk_hl (hv_state s) (hv_hash s) (hv_i s) (hl_save st hash i (hv_r s)).

Definition hl_exit_carry (st : hl_st) (hash i : Z) (e : hl_exit) : hl_exit :=
  match e with
  | HlDone h j r => HlDone h j (hl_save st hash i r)
  | HlHeaderDone r => HlHeaderDone (hl_save st hash i r)
  | HlInvalid r => HlInvalid (hl_save st hash i r)
  end.

Lemma hl_step_carry allow mem st hash i q c s :
  hl_step allow mem q c (hl_carry st hash i s) =
    action_map (hl_carry st hash i) (hl_exit_carry st hash i) (hl_step allow mem q c s).
Proof.
  destruct s as [[] h j r]; destruct r; autounfold with hl; unfold hl_carry, hl_save;
    cbn -[lowcase_of ngx_hash Z.land starts_http]; case_ifs; reflexivity.
Qed.

(** Results the callers cannot tell apart: the same code; on [NGX_OK] the same
    request and buffer, otherwise the same but for what only the next call
    with [NGX_OK] would use. *)
Definition hl_same (x y : Z * header * ngx_buf) : Prop :=
  let '(rc, r, b) := x in
  let '(rc', r', b') := y in
  rc = rc' /\ hl_save hs_start 0 0 r = hl_save hs_start 0 0 r' /\
  (rc = NGX_OK \/ rc = NGX_AGAIN -> r = r') /\
  (rc <> NGX_HTTP_PARSE_INVALID_HEADER -> b = b').

(** The line arrives in two reads. *)
Definition header_in_two (allow : bool) (mem' mem : list Z) (r : header) (b : ngx_buf) (k : Z)
    : option (Z * header * ngx_buf) :=
  match parse_header_line allow mem' r (mk_buf (b_pos b) k) with
  | Some (rc, r', b') =>
      if rc =? NGX_AGAIN then parse_header_line allow mem r' (mk_buf (b_pos b') (b_last b))
      else Some (rc, r', mk_buf (b_pos b') (b_last b))
  | None => None
  end.

(** A header line received in pieces gives the code, the name, the value,
    the hash and the lower-cased name that the whole line gives, wherever it is
    cut. *)
Theorem parse_header_line_resume allow mem mem' r b k :
  b_pos b <= k <= b_last b -> (forall i, i < k -> byte_at mem i = byte_at mem' i) ->
  exists x y, parse_header_line allow mem r b = Some x /\
    header_in_two allow mem' mem r b k = Some y /\ hl_same x y.
Proof.
  intros Hk Hag. unfold header_in_two, parse_header_line. cbn [b_pos b_last].
  rewrite (loop_resume (hl_step allow) mem mem' _ k) by done.
  destruct (loop_total (hl_step allow) mem' (b_pos b) k
    (mk_hl (hl_state r) (header_hash r) (lowcase_index r) r)) as [e He].
  rewrite He. cbn [fmap option_fmap option_map].
  destruct e as [q s|q [h i r1|r1|r1]]; cbn [hl_end].
  - change (NGX_AGAIN =? NGX_AGAIN) with true. cbn [b_pos].
    pose proof (loop_map _ _ (hl_step allow) mem q (b_last b) s
      (hl_step_carry allow mem (hv_state s) (hv_hash s) (hv_i s))) as Hmap.
    change (mk_hl (hl_state (hl_save (hv_state s) (hv_hash s) (hv_i s) (hv_r s)))
      (header_hash (hl_save (hv_state s) (hv_hash s) (hv_i s) (hv_r s)))
      (lowcase_index (hl_save (hv_state s) (hv_hash s) (hv_i s) (hv_r s)))
      (hl_save (hv_state s) (hv_hash s) (hv_i s) (hv_r s)))
      with (hl_carry (hv_state s) (hv_hash s) (hv_i s) s).
    rewrite Hmap.
    destruct (loop_total (hl_step allow) mem q (b_last b) s) as [e' He']. rewrite He'.
    do 2 eexists. split; [reflexivity|]. split; [reflexivity|].
    destruct e' as [q' s'|q' [h i r2|r2|r2]]; cbn; unfold NGX_HTTP_PARSE_HEADER_DONE,
      NGX_HTTP_PARSE_INVALID_HEADER, NGX_OK, NGX_AGAIN; (split_and!; [done|done|try done; lia|done]).
  - do 2 eexists. by split_and!.
  - do 2 eexists. by split_and!.
  - do 2 eexists. split; [reflexivity|]. split; [reflexivity|]. cbn. by split_and!.
Qed.

(** ** Bounds *)

Definition name_ok (lo : Z) (r : header) : Prop :=
  lo <= pv (header_name_start r) <= pv (header_name_end r).

(** The pointers are in order below [p], and [lowcase_header] is written inside
    its 32 bytes. *)
Definition hl_inv (lo p : Z) (s : hl) : Prop :=
  let r := hv_r s in
  0 <= lo /\ 0 <= hv_i s < 32 /\ length (lowcase_header r) = NGX_HTTP_LC_HEADER_LEN /\
  match hv_state s with
  | hs_start => lo <= p
  | hs_name | hs_ignore_line => lo <= pv (header_name_start r) < p
  | hs_space_before_value => name_ok lo r /\ pv (header_name_end r) < p
  | hs_value => name_ok lo r /\ pv (header_name_end r) < pv (header_start r) < p
  | hs_space_after_value =>
      name_ok lo r /\ pv (header_name_end r) < pv (header_start r) <= pv (header_end r)
      /\ pv (header_end r) < p
  | hs_almost_done =>
      name_ok lo r /\ pv (header_name_end r) <= pv (header_start r) <= pv (header_end r)
      /\ pv (header_end r) < p
  | hs_header_almost_done => lo <= pv (header_end r) < p
  end.

(** What the callers may rely on after [NGX_OK]. *)
Definition hl_result (lo p : Z) (r : header) : Prop :=
  name_ok lo r /\ pv (header_name_end r) <= pv (header_start r) <= pv (header_end r) /\
  pv (header_end r) < p.

Lemma land_31 i : 0 <= Z.land i (Z.of_nat NGX_HTTP_LC_HEADER_LEN - 1) < 32.
Proof.
  change (Z.of_nat NGX_HTTP_LC_HEADER_LEN - 1) with (Z.ones 5). rewrite Z.land_ones by lia.
  apply Z.mod_pos_bound. lia.
Qed.

Ltac hl_arith :=
  unfold hl_inv, hl_result, name_ok in *;
  cbn [hv_state hv_hash hv_i hv_r hl_save header_name_start header_name_end header_start header_end
    lowcase_header set_lowcase_index set_header_hash set_hl_state set_invalid_header
    set_header_name_start set_header_name_end set_header_start set_header_end set_lowcase_header
    pv lowcase_index] in *;
  rewrite ?length_insert;
  try match goal with |- context [Z.land ?x ?y] => pose proof (land_31 (x - 1 + 1)) end;
  repeat match goal with
  | |- context [Z.land (?i + 1) ?y] => pose proof (land_31 (i + 1)); generalize dependent (Z.land (i + 1) y)
  end; intros; lia.

Lemma hl_inv_break allow lo mem p c s s' :
  hl_inv lo p s -> hl_step allow mem p c s = Break s' -> hl_inv lo (p + 1) s'.
Proof. destruct s as [[] hash i r]; intros HI H; hl_cases H; hl_arith. Qed.

Lemma hl_inv_done allow lo mem p c s hash i r :
  hl_inv lo p s -> hl_step allow mem p c s = Leave (HlDone hash i r) ->
  hl_result lo (p + 1) r /\ 0 <= i < 32 /\ length (lowcase_header r) = NGX_HTTP_LC_HEADER_LEN.
Proof. destruct s as [[] h j q]; intros HI H; hl_cases H; hl_arith. Qed.

Lemma header_line_inv allow lo mem r b rc r' b' :
  b_pos b <= b_last b ->
  hl_inv lo (b_pos b) (mk_hl (hl_state r) (header_hash r) (lowcase_index r) r) ->
  parse_header_line allow mem r b = Some (rc, r', b') ->
  (rc = NGX_OK -> hl_result lo (b_pos b') r' /\ b_pos b < b_pos b' <= b_last b /\
     0 <= lowcase_index r' < 32) /\
  (rc = NGX_AGAIN ->
     hl_inv lo (b_pos b') (mk_hl (hl_state r') (header_hash r') (lowcase_index r') r')).
Proof.
  intros Hb HI H. unfold parse_header_line in H.
  destruct (loop_total (hl_step allow) mem (b_pos b) (b_last b)
    (mk_hl (hl_state r) (header_hash r) (lowcase_index r) r)) as [e He].
  rewrite He in H. cbn [fmap option_fmap option_map] in H.
  assert (Hinv : match e with
    | Exhausted q s => q = b_last b /\ hl_inv lo q s
    | Left q x => b_pos b <= q < b_last b /\
        match x with
        | HlDone hash i r1 => hl_result lo (q + 1) r1 /\ 0 <= i < 32
        | _ => True
        end
    end).
  { eapply (loop_inv (hl_step allow) (hl_inv lo) (fun q x => match x with
      | HlDone hash i r1 => hl_result lo (q + 1) r1 /\ 0 <= i < 32 | _ => True end));
      [| | |exact Hb|exact HI|exact He].
    - intros q s s' _. apply hl_inv_break.
    - intros q s s' _ _ Hs. by apply hl_step_no_redo in Hs.
    - intros q s [hash i r1|r1|r1] _ Hi Hs; try done.
      apply (hl_inv_done _ lo) in Hs; [tauto|done]. }
  destruct e as [q s|q [hash i r1|r1|r1]]; cbn [hl_end] in H; injection H as <- <- <-;
    (split; intros E; [|]); try discriminate E; destruct Hinv as [Hq Hinv].
  - destruct s as [st h i r1]. exact Hinv.
  - cbn. destruct Hinv as [Hres Hi]. split; [exact Hres|]. cbn. lia.
Qed.

(** When a header line has been parsed the name comes before the value, both
    inside the bytes read since [lo], so that the lengths computed from the
    four pointers are non-negative, and the index into [r->lowcase_header] is
    inside its 32 bytes; a parse suspended in the middle keeps the promise for
    the call that resumes it. *)
Theorem parse_header_line_pointers allow lo mem r b rc r' b' :
  b_pos b <= b_last b ->
  hl_inv lo (b_pos b) (mk_hl (hl_state r) (header_hash r) (lowcase_index r) r) ->
  parse_header_line allow mem r b = Some (rc, r', b') ->
  (rc = NGX_OK -> hl_result lo (b_pos b') r' /\ b_pos b < b_pos b' <= b_last b /\
     0 <= lowcase_index r' < 32) /\
  (rc = NGX_AGAIN ->
     hl_inv lo (b_pos b') (mk_hl (hl_state r') (header_hash r') (lowcase_index r') r')).
Proof. apply header_line_inv. Qed.

(** ** Acceptance *)

(** The characters of a valid name. *)
Definition name_char (allow : bool) (c : Z) : bool :=
  negb (lowcase_of c =? 0) || ((c =? #"_") && allow).

Lemma name_char_lower allow c :
  is_byte c -> name_char allow c = true ->
  (lowcase_of c <> 0 /\ lowcase_of c = ngx_tolower c) \/
  (lowcase_of c = 0 /\ c = #"_" /\ allow = true /\ ngx_tolower c = #"_").
Proof.
  intros Hb H. unfold name_char in H.
  assert (Hall : forallb (fun n => let c := Z.of_nat n in
      (lowcase_of c =? 0) || (lowcase_of c =? ngx_tolower c)) (seq 0 256) = true) by reflexivity.
  rewrite forallb_forall in Hall. specialize (Hall (Z.to_nat c)). unfold is_byte in Hb.
  rewrite in_seq, Z2Nat.id in Hall by lia. specialize (Hall ltac:(lia)). cbn zeta in Hall.
  destruct (lowcase_of c =? 0) eqn:E.
  - right. assert (c = 95) as -> by lia. split_and!; [lia|done|lia|done].
  - left. split; lia.
Qed.

Lemma name_char_ends allow c :
  is_byte c -> name_char allow c = true -> c <> 0 /\ c <> CR /\ c <> LF /\ c <> #":".
Proof.
  intros Hb H. split_and!; intros ->; by destruct allow.
Qed.

Section Accept.
Context (allow : bool) (mem : list Z) (bl : Z) (r0 : header) (p0 : Z).

(** The request while the name [l] is read. *)
Definition named (l : list Z) (s : hl) : Prop :=
  hv_state s = hs_name /\ hv_hash s = ngx_hash_key_lc l /\
  hv_i s = Z.of_nat (length l) mod 32 /\
  exists lc, hv_r s = set_lowcase_header lc (set_invalid_header false (set_header_name_start (Some p0) r0))
    /\ length lc = NGX_HTTP_LC_HEADER_LEN
    /\ ((length l <= 32)%nat -> take (length l) lc = ngx_strlow l).

Lemma take_insert_snoc (lc : list Z) n c :
  (n < length lc)%nat -> take (n + 1) (<[n := c]> lc) = take n lc ++ [c].
Proof.
  intros H. rewrite Nat.add_1_r, (take_S_r _ _ c).
  - f_equal. apply take_insert_ge. lia.
  - apply list_lookup_insert_eq. lia.
Qed.

Lemma named_push l s c :
  l <> [] -> named l s -> named (l ++ [c])
    (hl_push hs_name (hv_hash s) (hv_i s) (ngx_tolower c) (hv_r s)).
Proof.
  intros Hne (Hst & Hh & Hi & lc & Hr & Hlen & Htake). unfold hl_push, named.
  cbn [hv_state hv_hash hv_i hv_r]. rewrite length_app. cbn [length].
  split; [done|]. split; [|split].
  - rewrite Hh. unfold ngx_hash_key_lc. by rewrite fold_left_app.
  - rewrite Hi. change (Z.of_nat NGX_HTTP_LC_HEADER_LEN - 1) with (Z.ones 5).
    rewrite Z.land_ones by lia. change (2 ^ 5) with 32. rewrite Z.add_mod_idemp_l by lia.
    f_equal. lia.
  - exists (<[Z.to_nat (hv_i s) := ngx_tolower c]> lc). rewrite Hr. split; [done|].
    split; [by rewrite length_insert|]. intros Hle. rewrite Hi, Z.mod_small by lia.
    rewrite Nat2Z.id, take_insert_snoc by (rewrite Hlen; unfold NGX_HTTP_LC_HEADER_LEN; lia).
    rewrite Htake by lia. unfold ngx_strlow. by rewrite map_app.
Qed.

Lemma step_name l s c q :
  is_byte c -> name_char allow c = true -> named l s ->
  hl_step allow mem q c s = Break (hl_push hs_name (hv_hash s) (hv_i s) (ngx_tolower c) (hv_r s)).
Proof.
  intros Hb Hc (Hst & _). unfold hl_step. rewrite Hst. unfold hl_on_name.
  destruct (name_char_lower allow c Hb Hc) as [[H1 H2]|(H1 & -> & H3 & H4)].
  - assert ((lowcase_of c =? 0) = false) as -> by lia. cbn [negb]. by rewrite H2.
  - rewrite H1, H3. reflexivity.
Qed.

Lemma loop_name l2 : forall l1 p s,
  l1 <> [] -> named l1 s -> Forall (fun c => is_byte c /\ name_char allow c = true) l2 ->
  text_at mem p l2 -> p + Z.of_nat (length l2) <= bl ->
  exists s', loop (hl_step allow) mem p bl s =
      loop (hl_step allow) mem (p + Z.of_nat (length l2)) bl s' /\ named (l1 ++ l2) s'.
Proof.
  induction l2 as [|c l2 IH]; intros l1 p s Hne Hn Hc Ht Hp.
  - exists s. by rewrite Z.add_0_r, app_nil_r.
  - apply text_at_cons in Ht as [Hb Ht]. inversion Hc as [|? ? [Hby Hch] Hc']; subst.
    cbn [length] in *.
    destruct (IH (l1 ++ [byte_at mem p]) (p + 1)
      (hl_push hs_name (hv_hash s) (hv_i s) (ngx_tolower (byte_at mem p)) (hv_r s)))
      as (s' & E & Hn'); [by destruct l1|by apply named_push|done|done|lia|].
    exists s'. rewrite (loop_break (hl_step allow) mem p bl s _ ltac:(lia)
      (step_name l1 s _ p Hby Hch Hn)), E.
    split; [f_equal; lia|]. by rewrite <-app_assoc in Hn'.
Qed.

Lemma named_first c s :
  hv_r s = r0 -> length (lowcase_header r0) = NGX_HTTP_LC_HEADER_LEN -> hv_state s = hs_start ->
  is_byte c -> name_char allow c = true ->
  exists s', hl_step allow mem p0 c s = Break s' /\ named [c] s'.
Proof.
  intros Hr Hlen Hst Hb Hc. destruct (name_char_ends allow c Hb Hc) as (H0 & H1 & H2 & _).
  exists (hl_first (ngx_tolower c) (set_invalid_header false (set_header_name_start (Some p0) r0))).
  split.
  - unfold hl_step. rewrite Hst. unfold hl_on_start. rewrite Hr.
    assert ((c =? 13) = false) as -> by lia. assert ((c =? 10) = false) as -> by lia. cbn zeta.
    destruct (name_char_lower allow c Hb Hc) as [[H3 H4]|(H3 & -> & H5 & H6)].
    + assert ((lowcase_of c =? 0) = false) as -> by lia. cbn [negb]. by rewrite H4.
    + rewrite H3, H5. reflexivity.
  - unfold named, hl_first. cbn [hv_state hv_hash hv_i hv_r length]. split_and!; [done..|].
    exists (<[0%nat := ngx_tolower c]> (lowcase_header r0)). split; [by destruct r0|].
    split; [by rewrite length_insert|]. intros _.
    rewrite (take_insert_snoc _ 0) by (rewrite Hlen; unfold NGX_HTTP_LC_HEADER_LEN; lia). done.
Qed.

(** *** The value *)

Definition value_char (c : Z) : Prop := c <> 0 /\ c <> CR /\ c <> LF.

Definition valued (h i : Z) (r : header) (s : hl) : Prop :=
  (hv_state s = hs_value \/ hv_state s = hs_space_after_value) /\ hv_hash s = h /\ hv_i s = i /\
  exists e, hv_r s = set_header_end e r.

Lemma loop_value h i r l : forall p s,
  valued h i r s -> Forall value_char l -> text_at mem p l -> p + Z.of_nat (length l) <= bl ->
  exists s', loop (hl_step allow) mem p bl s =
      loop (hl_step allow) mem (p + Z.of_nat (length l)) bl s' /\ valued h i r s' /\
      hv_state s' = match last l with
                    | None => hv_state s
                    | Some c => if c =? #" " then hs_space_after_value else hs_value
                    end.
Proof.
  induction l as [|c l IH]; intros p s Hv Hc Ht Hp.
  - exists s. by rewrite Z.add_0_r.
  - apply text_at_cons in Ht as [Hb Ht]. inversion Hc as [|? ? (C0 & C1 & C2) Hc']; subst c.
    cbn [length] in *.
    assert (Hs : exists s1, hl_step allow mem p (byte_at mem p) s = Break s1 /\ valued h i r s1 /\
      hv_state s1 = if byte_at mem p =? 32 then hs_space_after_value else hs_value).
    { destruct Hv as (Hst & Hh & Hi & e & Hr).
      assert ((byte_at mem p =? 13) = false) as E1 by lia.
      assert ((byte_at mem p =? 10) = false) as E2 by lia.
      assert ((byte_at mem p =? 0) = false) as E3 by lia.
      unfold hl_step. destruct Hst as [Hst|Hst]; rewrite Hst;
        unfold hl_on_value, hl_on_space_after_value; rewrite E1, E2, E3;
        destruct (byte_at mem p =? 32); eexists; (split; [reflexivity|]);
        (split; [|first [done|exact Hst]]); unfold valued; cbn; rewrite ?Hr; (split; [by auto|]);
        (split; [done|]); (split; [done|]); by eexists. }
    destruct Hs as (s1 & Hs & Hv1 & Hst1).
    destruct (IH (p + 1) s1) as (s' & E & Hv' & Hst'); [done|done|done|lia|].
    exists s'. rewrite (loop_break (hl_step allow) mem p bl s _ ltac:(lia) Hs), E.
    split; [f_equal; lia|]. split; [done|]. rewrite Hst', last_cons.
    by destruct (last l).
Qed.

(** *** The spaces around the value, and the line end *)

Lemma loop_spaces_before h i r n : forall p s,
  s = mk_hl hs_space_before_value h i r -> text_at mem p (replicate n #" ") ->
  p + Z.of_nat n <= bl ->
  loop (hl_step allow) mem p bl s = loop (hl_step allow) mem (p + Z.of_nat n) bl s.
Proof.
  induction n as [|n IH]; intros p s Hs Ht Hp; [by rewrite Z.add_0_r|].
  cbn [replicate] in Ht. apply text_at_cons in Ht as [Hc Ht].
  rewrite (loop_break (hl_step allow) mem p bl s s); [|lia|].
  - rewrite IH; [f_equal; lia|done|done|lia].
  - unfold hl_step. rewrite Hs. cbn [hv_state]. unfold hl_on_space_before_value. by rewrite Hc.
Qed.

Lemma loop_spaces_after h i r n : forall p s,
  s = mk_hl hs_space_after_value h i r -> text_at mem p (replicate n #" ") ->
  p + Z.of_nat n <= bl ->
  loop (hl_step allow) mem p bl s = loop (hl_step allow) mem (p + Z.of_nat n) bl s.
Proof.
  induction n as [|n IH]; intros p s Hs Ht Hp; [by rewrite Z.add_0_r|].
  cbn [replicate] in Ht. apply text_at_cons in Ht as [Hc Ht].
  rewrite (loop_break (hl_step allow) mem p bl s s); [|lia|].
  - rewrite IH; [f_equal; lia|done|done|lia].
  - unfold hl_step. rewrite Hs. cbn [hv_state]. unfold hl_on_space_after_value. by rewrite Hc.
Qed.

(** [CRLF] or [LF] ends the line. *)
Lemma loop_eol h i r eol p st :
  eol = [CR; LF] \/ eol = [LF] -> st = hs_space_after_value \/ st = hs_value ->
  text_at mem p eol -> p + Z.of_nat (length eol) <= bl ->
  exists q, loop (hl_step allow) mem p bl (mk_hl st h i r) =
    Some (Left q (HlDone h i (match st with hs_value => set_header_end (Some p) r | _ => r end))) /\
    q + 1 = p + Z.of_nat (length eol).
Proof.
  intros He Hst Ht Hp. destruct He as [-> | ->]; cbn [length] in *.
  - apply text_at_cons in Ht as [H1 Ht]. apply text_at_cons in Ht as [H2 _].
    exists (p + 1). split; [|lia].
    assert (Hcr : hl_step allow mem p (byte_at mem p) (mk_hl st h i r) =
      Break (mk_hl hs_almost_done h i (match st with hs_value => set_header_end (Some p) r | _ => r end))).
    { rewrite H1. by destruct Hst as [-> | ->]. }
    rewrite (loop_break (hl_step allow) mem p bl _ _ ltac:(lia) Hcr).
    apply (loop_leave (hl_step allow)); [lia|]. by rewrite H2.
  - apply text_at_cons in Ht as [H1 _]. exists p. split; [|lia].
    apply (loop_leave (hl_step allow)); [lia|]. rewrite H1. by destruct Hst as [-> | ->].
Qed.

(** The spaces and the line end after a value that ends at [p]. *)
Lemma loop_trailer h i r n eol p :
  eol = [CR; LF] \/ eol = [LF] ->
  text_at mem p (replicate n #" " ++ eol) -> p + Z.of_nat n + Z.of_nat (length eol) <= bl ->
  exists q, loop (hl_step allow) mem p bl (mk_hl hs_value h i r) =
    Some (Left q (HlDone h i (set_header_end (Some p) r))) /\
    q + 1 = p + Z.of_nat n + Z.of_nat (length eol).
Proof.
  intros He Ht Hp. apply text_at_app in Ht as [Ht1 Ht2]. rewrite length_replicate in Ht2.
  destruct n as [|n].
  - destruct (loop_eol h i r eol p hs_value He) as (q & E & Hq); [by right| |lia|].
    + by rewrite Z.add_0_r in Ht2.
    + exists q. split; [exact E|lia].
  - cbn [replicate] in Ht1. apply text_at_cons in Ht1 as [Hc Ht1].
    assert (Hs : hl_step allow mem p (byte_at mem p) (mk_hl hs_value h i r) =
      Break (mk_hl hs_space_after_value h i (set_header_end (Some p) r))) by by rewrite Hc.
    rewrite (loop_break (hl_step allow) mem p bl _ _ ltac:(lia) Hs).
    rewrite (loop_spaces_after h i (set_header_end (Some p) r) n) by (done || lia).
    destruct (loop_eol h i (set_header_end (Some p) r) eol (p + 1 + Z.of_nat n) hs_space_after_value He)
      as (q & E & Hq); [by left| |lia|].
    + by replace (p + 1 + Z.of_nat n) with (p + Z.of_nat (S n)) by lia.
    + exists q. split; [exact E|lia].
Qed.

(** An empty value: spaces, if any, and the line end. *)
Lemma loop_empty_value h i r n eol p :
  eol = [CR; LF] \/ eol = [LF] ->
  text_at mem p (replicate n #" " ++ eol) -> p + Z.of_nat n + Z.of_nat (length eol) <= bl ->
  exists q, loop (hl_step allow) mem p bl (mk_hl hs_space_before_value h i r) =
    Some (Left q (HlDone h i (hl_empty_value (p + Z.of_nat n) r))) /\
    q + 1 = p + Z.of_nat n + Z.of_nat (length eol).
Proof.
  intros He Ht Hp. apply text_at_app in Ht as [Ht1 Ht2]. rewrite length_replicate in Ht2.
  rewrite (loop_spaces_before h i r n) by (done || lia). set (p' := p + Z.of_nat n) in *.
  destruct He as [-> | ->]; cbn [length] in *.
  - apply text_at_cons in Ht2 as [H1 Ht2]. apply text_at_cons in Ht2 as [H2 _].
    exists (p' + 1). split; [|lia].
    assert (Hcr : hl_step allow mem p' (byte_at mem p') (mk_hl hs_space_before_value h i r) =
      Break (mk_hl hs_almost_done h i (hl_empty_value p' r))) by (by rewrite H1).
    rewrite (loop_break (hl_step allow) mem p' bl _ _ ltac:(lia) Hcr).
    apply (loop_leave (hl_step allow)); [lia|]. by rewrite H2.
  - apply text_at_cons in Ht2 as [H1 _]. exists p'. split; [|lia].
    apply (loop_leave (hl_step allow)); [lia|]. by rewrite H1.
Qed.

(** Values without surrounding spaces; the empty one too. *)
Definition trimmed (value : list Z) : Prop :=
  head value <> Some #" " /\ last value <> Some #" ".

(** From the ":" to the end of the line. *)
Lemma loop_after_colon h i r n value m eol p :
  trimmed value -> Forall value_char value -> eol = [CR; LF] \/ eol = [LF] ->
  text_at mem p (replicate n #" " ++ value ++ replicate m #" " ++ eol) ->
  p + Z.of_nat n + Z.of_nat (length value) + Z.of_nat m + Z.of_nat (length eol) <= bl ->
  exists q r' v0, loop (hl_step allow) mem p bl (mk_hl hs_space_before_value h i r) =
      Some (Left q (HlDone h i r')) /\
    q + 1 = p + Z.of_nat n + Z.of_nat (length value) + Z.of_nat m + Z.of_nat (length eol) /\
    r' = set_header_end (Some (v0 + Z.of_nat (length value))) (set_header_start (Some v0) r) /\
    p <= v0 /\ v0 + Z.of_nat (length value) <= bl /\ text_at mem v0 value.
Proof.
  intros (Hv2 & Hv3) Hvc He Ht Hp.
  destruct (decide (value = [])) as [->|Hv1].
  { destruct (loop_empty_value h i r (n + m) eol p He) as (q & E & Hq).
    - by rewrite replicate_add, <-app_assoc.
    - cbn [length] in Hp. lia.
    - exists q, (hl_empty_value (p + Z.of_nat (n + m)) r), (p + Z.of_nat (n + m)).
      split; [exact E|]. cbn [length] in *. split; [lia|]. rewrite Z.add_0_r.
      split; [by destruct r|]. split_and!; [lia|lia|]. intros k c Hk. by rewrite lookup_nil in Hk. }
  apply text_at_app in Ht as [Hts Ht]. apply text_at_app in Ht as [Htv Ht].
  rewrite length_replicate in Htv, Ht.
  rewrite (loop_spaces_before h i r n) by (done || lia).
  set (pv0 := p + Z.of_nat n) in *.
  pose proof Htv as Htv0.
  destruct value as [|c value]; [done|]. apply text_at_cons in Htv as [Hc Htv].
  inversion Hvc as [|? ? (C0 & C1 & C2) Hvc']; subst c. cbn [length] in *.
  set (r1 := set_header_start (Some pv0) r).
  assert (Hs : hl_step allow mem pv0 (byte_at mem pv0) (mk_hl hs_space_before_value h i r) =
    Break (mk_hl hs_value h i r1)).
  { unfold hl_step, hl_on_space_before_value. cbn [hv_state hv_r hv_hash hv_i].
    assert ((byte_at mem pv0 =? 32) = false) as -> by (cbn in Hv2; apply Z.eqb_neq; congruence).
    assert ((byte_at mem pv0 =? 13) = false) as -> by lia.
    assert ((byte_at mem pv0 =? 10) = false) as -> by lia.
    by assert ((byte_at mem pv0 =? 0) = false) as -> by lia. }
  rewrite (loop_break (hl_step allow) mem pv0 bl _ _ ltac:(lia) Hs).
  destruct (loop_value h i r1 value (pv0 + 1) (mk_hl hs_value h i r1)) as (s' & E & Hv & Hst').
  { split; [by left|]. split; [done|]. split; [done|]. exists (header_end r1). by destruct r. }
  { done. } { done. } { lia. }
  rewrite E. assert (Hs' : hv_state s' = hs_value).
  { rewrite Hst'. rewrite last_cons in Hv3. destruct (last value) as [w|]; [|done].
    by assert ((w =? 32) = false) as -> by (apply Z.eqb_neq; congruence). }
  destruct Hv as (_ & Hh & Hi & e & Hr). destruct s' as [st' h' i' r']. cbn in Hs', Hh, Hi, Hr. subst.
  destruct (loop_trailer h i (set_header_end e r1) m eol (pv0 + 1 + Z.of_nat (length value)) He)
    as (q & Eq & Hq).
  { by replace (pv0 + 1 + Z.of_nat (length value)) with (pv0 + Z.of_nat (S (length value))) by lia. }
  { lia. }
  exists q, (set_header_end (Some (pv0 + 1 + Z.of_nat (length value))) (set_header_end e r1)), pv0.
  split; [exact Eq|]. split; [lia|]. split_and!; [|lia|lia|done]. unfold r1.
  replace (pv0 + 1 + Z.of_nat (length value)) with (pv0 + Z.of_nat (S (length value))) by lia.
  by destruct r.
Qed.

End Accept.

(** A header line: [name ":" spaces value spaces eol]. *)
Definition header_text (name value : list Z) (n m : nat) (eol : list Z) : list Z :=
  name ++ #":" :: replicate n #" " ++ value ++ replicate m #" " ++ eol.

(** From the pointers to the element. *)
Lemma header_elt_of mem lc name value pn0 pv0 r hash :
  name <> [] -> length lc = NGX_HTTP_LC_HEADER_LEN ->
  ((length name <= 32)%nat -> take (length name) lc = ngx_strlow name) ->
  slice mem pn0 (pn0 + Z.of_nat (length name)) = name ->
  slice mem pv0 (pv0 + Z.of_nat (length value)) = value ->
  header_name_start r = Some pn0 -> header_name_end r = Some (pn0 + Z.of_nat (length name)) ->
  header_start r = Some pv0 -> header_end r = Some (pv0 + Z.of_nat (length value)) ->
  lowcase_index r = Z.of_nat (length name) mod 32 -> lowcase_header r = lc ->
  header_hash r = hash ->
  header_elt mem r = mk_elt hash name value (ngx_strlow name).
Proof.
  intros Hne Hlc Htake Hn Hv E1 E2 E3 E4 E5 E6 E7. unfold header_elt.
  rewrite E1, E2, E3, E4, E5, E6, E7. cbn [pv]. rewrite Hn, Hv. f_equal.
  destruct (Z.of_nat (length name) =? Z.of_nat (length name) mod 32) eqn:E; [|done].
  apply Htake. pose proof (Z.mod_pos_bound (Z.of_nat (length name)) 32). lia.
Qed.

(** C26: every header line with a valid name, a colon and a value, which may be
    empty, has no NUL, CR or LF and has any number of spaces before and after it,
    is accepted, and the element that [ngx_http_process_request_headers] pushes
    has exactly that name and that value without the spaces around it, the hash
    [ngx_hash_key_lc] of the name, under which [ngx_hash_find] looks it up, and
    the lower-cased name: the copy made while parsing is used only when it is the
    whole name. *)
Theorem parse_header_line_accepts allow mem r b name value n m eol :
  hl_state r = hs_start -> length (lowcase_header r) = NGX_HTTP_LC_HEADER_LEN ->
  name <> [] -> Forall (fun c => is_byte c /\ name_char allow c = true) name ->
  trimmed value -> Forall value_char value -> eol = [CR; LF] \/ eol = [LF] ->
  0 <= b_pos b -> b_last b <= Z.of_nat (length mem) ->
  b_pos b + Z.of_nat (length (header_text name value n m eol)) <= b_last b ->
  text_at mem (b_pos b) (header_text name value n m eol) ->
  exists r' b', parse_header_line allow mem r b = Some (NGX_OK, r', b') /\
    b_pos b' = b_pos b + Z.of_nat (length (header_text name value n m eol)) /\
    invalid_header r' = false /\
    header_elt mem r' = mk_elt (ngx_hash_key_lc name) name value (ngx_strlow name).
Proof.
  intros Hst Hlc Hne Hname Htrim Hvc Heol H0 Hmem Hlen Ht.
  set (p0 := b_pos b) in *. set (bl := b_last b) in *.
  set (pn := p0 + Z.of_nat (length name)).
  assert (Hl : Z.of_nat (length (header_text name value n m eol)) = Z.of_nat (length name) + 1 +
    Z.of_nat n + Z.of_nat (length value) + Z.of_nat m + Z.of_nat (length eol)).
  { unfold header_text. rewrite !length_app. cbn [length]. rewrite !length_app, !length_replicate. lia. }
  rewrite Hl in *. unfold header_text in Ht.
  apply text_at_app in Ht as [Htn Ht]. pose proof Htn as Htn'. fold pn in Ht.
  apply text_at_cons in Ht as [Hcolon Ht].
  destruct name as [|c name]; [done|]. inversion Hname as [|? ? [Hby Hch] Hname']; subst.
  apply text_at_cons in Htn as [Hc Htn]. cbn [length] in *.
  destruct (named_first allow mem r p0 c (mk_hl (hl_state r) (header_hash r) (lowcase_index r) r))
    as (s1 & Hs1 & Hn1); [done|done|exact Hst|done|done|].
  destruct (loop_name allow mem bl r p0 name [c] (p0 + 1) s1) as (s2 & E2 & Hn2);
    [done|done|done|done|lia|].
  replace (p0 + 1 + Z.of_nat (length name)) with pn in E2 by lia.
  destruct Hn2 as (Hst2 & Hh2 & Hi2 & lc & Hr2 & Hlen2 & Htake).
  assert (Hs3 : hl_step allow mem pn (byte_at mem pn) s2 =
    Break (mk_hl hs_space_before_value (hv_hash s2) (hv_i s2) (set_header_name_end (Some pn) (hv_r s2)))).
  { unfold hl_step. rewrite Hst2, Hcolon. done. }
  destruct (loop_after_colon allow mem bl (hv_hash s2) (hv_i s2)
    (set_header_name_end (Some pn) (hv_r s2)) n value m eol (pn + 1))
    as (q & r' & v0 & E4 & Hq & Hr' & Hv0 & Hv1 & Htv); [done|done|done|done|lia|].
  unfold parse_header_line. fold p0 bl. rewrite <-Hc in Hs1.
  rewrite (loop_break (hl_step allow) mem p0 bl _ _ ltac:(lia) Hs1), E2.
  rewrite (loop_break (hl_step allow) mem pn bl _ _ ltac:(lia) Hs3), E4.
  do 2 eexists. split; [reflexivity|]. split; [cbn; lia|].
  rewrite Hr2 in Hr'. subst r'. split; [by destruct r|].
  eapply (header_elt_of mem lc (c :: name) value p0 v0); try done.
  - apply text_at_slice; cbn [length]; lia || done.
  - apply text_at_slice; lia || done.
Qed.

(** ** Witnesses and an example *)

(** The request before its first header; the [lowcase_header] of
    [ngx_pcalloc] is zero. *)
Definition header_init : header :=
  mk_header hs_start 0 0 (replicate NGX_HTTP_LC_HEADER_LEN 0) false false None None None None.

Definition sample_header : list Z := bytes "Content-Length:  42 " ++ [13; 10].

Lemma parse_header_line_resume_witness :
  exists x y, parse_header_line false sample_header header_init (mk_buf 0 22) = Some x /\
    header_in_two false (take 7 sample_header) sample_header header_init (mk_buf 0 22) 7 = Some y /\
    hl_same x y.
Proof.
  apply parse_header_line_resume.
  - cbn. lia.
  - intros i Hi. rewrite <-(take_drop 7 sample_header) at 1. apply byte_at_app_l.
    change (i < 7). exact Hi.
Defined.

Lemma header_init_inv : hl_inv 0 0 (mk_hl hs_start 0 0 header_init).
Proof. unfold hl_inv. cbn. repeat split; lia. Qed.

Lemma parse_header_line_pointers_witness :
  exists r' b', parse_header_line false sample_header header_init (mk_buf 0 22) = Some (NGX_OK, r', b') /\
    hl_result 0 (b_pos b') r' /\ 0 < b_pos b' <= 22 /\ 0 <= lowcase_index r' < 32.
Proof.
  do 2 eexists. split; [vm_compute; reflexivity|].
  apply (parse_header_line_pointers false 0 sample_header header_init (mk_buf 0 22) NGX_OK).
  - cbn. lia.
  - exact header_init_inv.
  - vm_compute. reflexivity.
  - reflexivity.
Defined.

Lemma parse_header_line_accepts_witness :
  exists r' b', parse_header_line false sample_header header_init (mk_buf 0 22) = Some (NGX_OK, r', b') /\
    header_elt sample_header r' = mk_elt (ngx_hash_key_lc (bytes "Content-Length"))
      (bytes "Content-Length") (bytes "42") (bytes "content-length").
Proof.
  destruct (parse_header_line_accepts false sample_header header_init (mk_buf 0 22)
    (bytes "Content-Length") (bytes "42") 2 1 [13; 10]) as (r' & b' & H1 & _ & _ & H2).
  - reflexivity.
  - reflexivity.
  - discriminate.
  - unfold is_byte. repeat constructor; vm_compute; congruence.
  - repeat split; discriminate.
  - repeat constructor; discriminate.
  - left. reflexivity.
  - cbn. lia.
  - cbn. lia.
  - cbn. lia.
  - exact (text_at_self sample_header).
  - exists r', b'. split; [exact H1|exact H2].
Defined.

(** A name that begins with an invalid character continues the hash and the
    lower-cased copy of the header before it.  With [ignore_invalid_headers off]
    the second of these headers is looked up as "Host". *)
Example stale_lowcase_header :
  let mem := bytes "H: a" ++ [10] ++ bytes "@ost: b" ++ [10] in
  match parse_header_line false mem header_init (mk_buf 0 13) with
  | Some (_, r, b) =>
      match parse_header_line false mem r b with
      | Some (rc, r, _) => rc = NGX_OK /\ invalid_header r = true /\
          header_elt mem r = mk_elt (ngx_hash_key_lc (bytes "Host")) (bytes "@ost") (bytes "b") (bytes "host")
      | None => False
      end
  | None => False
  end.
Proof. vm_compute. repeat split. Qed.
