(* ===== verification/StatusLine.v ===== *)
(** * ngx_http_parse_status_line

    The parser of the status line of an upstream response
    ([src/http/ngx_http_parse.c]). *)

From S2P Require Import Prelude Fsm RequestLine.

(** ** Data *)

Inductive sl_st : Type :=
| ss_start | ss_H | ss_HT | ss_HTT | ss_HTTP
| ss_first_major_digit | ss_major_digit | ss_first_minor_digit | ss_minor_digit
| ss_status | ss_space_after_status | ss_status_text | ss_almost_done.

#[export] Instance sl_st_eq_dec : EqDecision sl_st.
Proof. solve_decision. Defined.

(** [ngx_http_status_t], and the fields of the request: [r->state],
    [r->http_major] and [r->http_minor] (bit fields of 16 bits). *)
Record status : Type := mk_status {
  st_state : sl_st; st_major : Z; st_minor : Z;
  st_http_version : Z; st_code : Z; st_count : Z;
  st_start : option Z; st_end : option Z
}.

Definition st_set_state (v : sl_st) (s : status) : status :=
  mk_status v (st_major s) (st_minor s) (st_http_version s) (st_code s) (st_count s) (st_start s) (st_end s).
Definition st_set_major (v : Z) (s : status) : status :=
  mk_status (st_state s) v (st_minor s) (st_http_version s) (st_code s) (st_count s) (st_start s) (st_end s).
Definition st_set_minor (v : Z) (s : status) : status :=
  mk_status (st_state s) (st_major s) v (st_http_version s) (st_code s) (st_count s) (st_start s) (st_end s).
Definition st_set_version (v : Z) (s : status) : status :=
  mk_status (st_state s) (st_major s) (st_minor s) v (st_code s) (st_count s) (st_start s) (st_end s).
Definition st_set_code (code count : Z) (s : status) : status :=
  mk_status (st_state s) (st_major s) (st_minor s) (st_http_version s) code count (st_start s) (st_end s).
Definition st_set_start (v : Z) (s : status) : status :=
  mk_status (st_state s) (st_major s) (st_minor s) (st_http_version s) (st_code s) (st_count s) (Some v) (st_end s).
Definition st_set_end (v : Z) (s : status) : status :=
  mk_status (st_state s) (st_major s) (st_minor s) (st_http_version s) (st_code s) (st_count s) (st_start s) (Some v).

(** [goto done] or [return NGX_ERROR] *)
Inductive sl_exit : Type := SlDone (s : status) | SlError (s : status).

Definition sl_action : Type := action (sl_st * status) sl_exit.

(** ** The states *)

Definition sl_expect (c : Z) (next : sl_st) (ch : Z) (s : status) : sl_action :=
  if ch =? c then Break (next, s) else Leave (SlError s).

Definition sl_on_first_major_digit (ch : Z) (s : status) : sl_action :=
  if (ch <? #"1") || (#"9" <? ch) then Leave (SlError s)
  else Break (ss_major_digit, st_set_major (u16 (ch - #"0")) s).

Definition sl_on_major_digit (ch : Z) (s : status) : sl_action :=
  if ch =? #"." then Break (ss_first_minor_digit, s)
  else if (ch <? #"0") || (#"9" <? ch) then Leave (SlError s)
  else Break (ss_major_digit, st_set_major (u16 (st_major s * 10 + ch - #"0")) s).

Definition sl_on_first_minor_digit (ch : Z) (s : status) : sl_action :=
  if (ch <? #"0") || (#"9" <? ch) then Leave (SlError s)
  else Break (ss_minor_digit, st_set_minor (u16 (ch - #"0")) s).

Definition sl_on_minor_digit (ch : Z) (s : status) : sl_action :=
  if ch =? #" " then Break (ss_status, s)
  else if (ch <? #"0") || (#"9" <? ch) then Leave (SlError s)
  else Break (ss_minor_digit, st_set_minor (u16 (st_minor s * 10 + ch - #"0")) s).

Definition sl_on_status (p ch : Z) (s : status) : sl_action :=
  if ch =? #" " then Break (ss_status, s)
  else if (ch <? #"0") || (#"9" <? ch) then Leave (SlError s)
  else
    let s := st_set_code (u64 (st_code s * 10 + ch - #"0")) (u64 (st_count s + 1)) s in
    if st_count s =? 3 then Break (ss_space_after_status, st_set_start (p - 2) s)
    else Break (ss_status, s).

Definition sl_on_space_after_status (ch : Z) (s : status) : sl_action :=
  if ch =? #" " then Break (ss_status_text, s)
  else if ch =? #"." then Break (ss_status_text, s)
  else if ch =? CR then Break (ss_almost_done, s)
  else if ch =? LF then Leave (SlDone s)
  else Leave (SlError s).

Definition sl_on_status_text (ch : Z) (s : status) : sl_action :=
  if ch =? CR then Break (ss_almost_done, s)
  else if ch =? LF then Leave (SlDone s)
  else Break (ss_status_text, s).

Definition sl_on_almost_done (p ch : Z) (s : status) : sl_action :=
  let s := st_set_end (p - 1) s in
  if ch =? LF then Leave (SlDone s) else Leave (SlError s).

Definition sl_step (mem : list Z) (p ch : Z) (t : sl_st * status) : sl_action :=
  let (st, s) := t in
  match st with
  | ss_start => sl_expect #"H" ss_H ch s
  | ss_H => sl_expect #"T" ss_HT ch s
  | ss_HT => sl_expect #"T" ss_HTT ch s
  | ss_HTT => sl_expect #"P" ss_HTTP ch s
  | ss_HTTP => sl_expect #"/" ss_first_major_digit ch s
  | ss_first_major_digit => sl_on_first_major_digit ch s
  | ss_major_digit => sl_on_major_digit ch s
  | ss_first_minor_digit => sl_on_first_minor_digit ch s
  | ss_minor_digit => sl_on_minor_digit ch s
  | ss_status => sl_on_status p ch s
  | ss_space_after_status => sl_on_space_after_status ch s
  | ss_status_text => sl_on_status_text ch s
  | ss_almost_done => sl_on_almost_done p ch s
  end.

(** [done:] *)
Definition sl_done (p : Z) (s : status) : status :=
  let s := match st_end s with None => st_set_end p s | Some _ => s end in
  st_set_state ss_start (st_set_version (st_major s * 1000 + st_minor s) s).

Definition sl_end (b : ngx_buf) (e : ending (sl_st * status) sl_exit) : Z * status * ngx_buf :=
  match e with
  | Exhausted p (st, s) => (NGX_AGAIN, st_set_state st s, mk_buf p (b_last b))
  | Left p (SlDone s) => (NGX_OK, sl_done p s, mk_buf (p + 1) (b_last b))
  | Left _ (SlError s) => (NGX_ERROR, s, b)
  end.

Definition parse_status_line (mem : list Z) (s : status) (b : ngx_buf)
    : option (Z * status * ngx_buf) :=
  sl_end b <$> loop sl_step mem (b_pos b) (b_last b) (st_state s, s).

Create HintDb sl.
#[export] Hint Unfold sl_expect sl_on_first_major_digit sl_on_major_digit sl_on_first_minor_digit
  sl_on_minor_digit sl_on_status sl_on_space_after_status sl_on_status_text sl_on_almost_done : sl.

Ltac sl_cases H :=
  cbn [sl_step] in H; autounfold with sl in H; cbn zeta in H;
  case_ifs_in H; try discriminate H; simplify_eq.

#[export] Instance sl_step_switch : Switch sl_step.
Proof.
  split; [done|]. intros mem p c [[] s] s' s'' H; sl_cases H.
Qed.

(** ** Suspension *)

Definition sl_exit_state (x : sl_st) (e : sl_exit) : sl_exit :=
  match e with
  | SlDone s => SlDone (st_set_state x s)
  | SlError s => SlError (st_set_state x s)
  end.

Lemma sl_step_state mem x q c t :
  sl_step mem q c (fst t, st_set_state x (snd t)) =
    action_map (fun t => (fst t, st_set_state x (snd t))) (sl_exit_state x) (sl_step mem q c t).
Proof.
  destruct t as [[] s]; destruct s; cbn [fst snd sl_step]; autounfold with sl; cbn -[Z.add Z.sub u16 u64];
    case_ifs; reflexivity.
Qed.

(** The same result, but for [r->state] and [b->pos] after an error. *)
Definition sl_same (x y : Z * status * ngx_buf) : Prop :=
  let '(rc, s, b) := x in
  let '(rc', s', b') := y in
  rc = rc' /\ st_set_state ss_start s = st_set_state ss_start s' /\ (rc <> NGX_ERROR -> s = s' /\ b = b').

Definition status_in_two (mem' mem : list Z) (s : status) (b : ngx_buf) (k : Z)
    : option (Z * status * ngx_buf) :=
  match parse_status_line mem' s (mk_buf (b_pos b) k) with
  | Some (rc, s', b') =>
      if rc =? NGX_AGAIN then parse_status_line mem s' (mk_buf (b_pos b') (b_last b))
      else Some (rc, s', mk_buf (b_pos b') (b_last b))
  | None => None
  end.

(** A status line received in pieces is parsed to what the whole line is
    parsed to, wherever it is cut. *)
Theorem parse_status_line_resume mem mem' s b k :
  b_pos b <= k <= b_last b -> (forall i, i < k -> byte_at mem i = byte_at mem' i) ->
  exists x y, parse_status_line mem s b = Some x /\ status_in_two mem' mem s b k = Some y /\ sl_same x y.
Proof.
  intros Hk Hag. unfold status_in_two, parse_status_line. cbn [b_pos b_last].
  rewrite (loop_resume sl_step mem mem' _ k) by done.
  destruct (loop_total sl_step mem' (b_pos b) k (st_state s, s)) as [e He]. rewrite He.
  cbn [fmap option_fmap option_map]. destruct e as [q [st s1]|q [s1|s1]]; cbn [sl_end].
  - change (NGX_AGAIN =? NGX_AGAIN) with true. cbn [b_pos].
    pose proof (loop_map _ _ sl_step mem q (b_last b) (st, s1) (sl_step_state mem st)) as Hmap.
    cbn [fst snd] in Hmap. change (st_state (st_set_state st s1)) with st. rewrite Hmap.
    destruct (loop_total sl_step mem q (b_last b) (st, s1)) as [e' He']. rewrite He'.
    do 2 eexists. split; [reflexivity|]. split; [reflexivity|].
    destruct e' as [q' [st' s2]|q' [s2|s2]]; cbn.
    + by split_and!.
    + split_and!; [done|by destruct s2 as [? ? ? ? ? ? ? []]|].
      intros _. split; [|done]. by destruct s2 as [? ? ? ? ? ? ? []].
    + by split_and!.
  - do 2 eexists. by split_and!.
  - do 2 eexists. by split_and!.
Qed.

(** ** Bounds *)

(** The code has as many digits as [count]. *)
Definition sl_inv (t : sl_st * status) : Prop :=
  let (st, s) := t in
  0 <= st_count s <= 3 /\ 0 <= st_code s < 10 ^ st_count s /\
  match st with
  | ss_space_after_status | ss_status_text | ss_almost_done => st_count s = 3
  | _ => st_count s < 3
  end.

Lemma sl_count_step code count d :
  0 <= count < 3 -> 0 <= code < 10 ^ count -> 0 <= d <= 9 ->
  u64 (count + 1) = count + 1 /\ u64 (code * 10 + d) = code * 10 + d /\
  0 <= code * 10 + d < 10 ^ (count + 1).
Proof.
  intros Hc Hv Hd. unfold u64. rewrite Z.pow_add_r, Z.pow_1_r by lia.
  assert (10 ^ count <= 10 ^ 2) by (apply Z.pow_le_mono_r; lia).
  rewrite !Z.mod_small by lia. lia.
Qed.

Lemma sl_inv_step mem p c t :
  sl_inv t ->
  match sl_step mem p c t with
  | Break t' => sl_inv t'
  | Redo _ => False
  | Leave (SlDone s) => sl_inv (ss_almost_done, s)
  | Leave (SlError s) => True
  end.
Proof.
  destruct t as [[] s]; intros HI; cbn [sl_step]; autounfold with sl; cbn zeta; case_ifs;
    unfold sl_inv in *; cbn [st_count st_code st_set_major st_set_minor st_set_start st_set_end] in *;
    try done; try lia.
  all: pose proof (sl_count_step (st_code s) (st_count s) (c - 48) ltac:(lia) ltac:(lia) ltac:(lia))
    as (E1 & E2 & E3); rewrite Z.add_sub_assoc in E2, E3; cbn [st_set_code st_count st_code] in *;
    rewrite ?E1, ?E2 in *; lia.
Qed.

(** A status line that is accepted has a status code of exactly three
    digits: the code is below 1000 and cannot overflow, however the line is cut
    into reads. *)
Theorem parse_status_line_code mem s b rc s' b' :
  b_pos b <= b_last b -> sl_inv (st_state s, s) -> parse_status_line mem s b = Some (rc, s', b') ->
  (rc = NGX_OK -> st_count s' = 3 /\ 0 <= st_code s' < 1000) /\
  (rc = NGX_AGAIN -> sl_inv (st_state s', s')).
Proof.
  intros Hb HI H. unfold parse_status_line in H.
  destruct (loop_total sl_step mem (b_pos b) (b_last b) (st_state s, s)) as [e He].
  rewrite He in H. injection H as H.
  assert (Hinv : match e with
    | Exhausted q t => q = b_last b /\ sl_inv t
    | Left q x => b_pos b <= q < b_last b /\
        match x with SlDone s => sl_inv (ss_almost_done, s) | _ => True end
    end).
  { eapply (loop_inv sl_step (fun _ => sl_inv) (fun _ x =>
      match x with SlDone s => sl_inv (ss_almost_done, s) | _ => True end));
      [| | |exact Hb|exact HI|exact He]; intros q t t' _ Ht Hs;
      pose proof (sl_inv_step mem q (byte_at mem q) t Ht) as Hg; rewrite Hs in Hg; try done. }
  destruct e as [q [st s1]|q [s1|s1]]; cbn [sl_end] in H; injection H as <- <- <-;
    destruct Hinv as [_ Hinv]; (split; intros E; [|]); try discriminate E.
  - by destruct s1.
  - unfold sl_inv in Hinv. unfold sl_done. destruct Hinv as (H1 & H2 & H3).
    destruct (st_end s1); cbn; rewrite H3 in H2; cbn in H2; lia.
Qed.

(** ** Acceptance *)

Section Accept.
Context (mem : list Z) (bl : Z).

(** A literal of the line. *)
Lemma loop_literal c next st s p :
  p < bl -> byte_at mem p = c -> sl_step mem p c (st, s) = Break (next, s) ->
  loop sl_step mem p bl (st, s) = loop sl_step mem (p + 1) bl (next, s).
Proof. intros Hp Hc Hs. apply (loop_break sl_step); [done|]. by rewrite Hc. Qed.

(** "HTTP/" maj "." min " " *)
Lemma loop_protocol maj min s p :
  49 <= maj <= 57 -> 48 <= min <= 57 -> p + 9 <= bl ->
  text_at mem p (bytes "HTTP/" ++ [maj; 46; min; 32]) ->
  loop sl_step mem p bl (ss_start, s) =
    loop sl_step mem (p + 9) bl (ss_status, st_set_minor (min - 48) (st_set_major (maj - 48) s)).
Proof.
  intros Hmaj Hmin Hp Ht. change (bytes "HTTP/") with [72; 84; 84; 80; 47] in Ht. cbn [app] in Ht.
  repeat (apply text_at_cons in Ht as [? Ht]). clear Ht.
  rewrite (loop_literal 72 ss_H) by (done || lia). rewrite (loop_literal 84 ss_HT) by (done || lia).
  rewrite (loop_literal 84 ss_HTT) by (done || lia). rewrite (loop_literal 80 ss_HTTP) by (done || lia).
  rewrite (loop_literal 47 ss_first_major_digit) by (done || lia).
  rewrite (loop_break sl_step mem _ bl _ (ss_major_digit, st_set_major (maj - 48) s)); [|lia|].
  2: { cbn [sl_step]. unfold sl_on_first_major_digit, u16. rewrite H4.
       assert ((maj <? 49) || (57 <? maj) = false) as -> by lia. by rewrite Z.mod_small by lia. }
  rewrite (loop_literal 46 ss_first_minor_digit) by (done || lia).
  rewrite (loop_break sl_step mem _ bl _
    (ss_minor_digit, st_set_minor (min - 48) (st_set_major (maj - 48) s))); [|lia|].
  2: { cbn [sl_step]. unfold sl_on_first_minor_digit, u16. rewrite H6.
       assert ((min <? 48) || (57 <? min) = false) as -> by lia. by rewrite Z.mod_small by lia. }
  rewrite (loop_literal 32 ss_status) by (done || lia). f_equal. lia.
Qed.

Lemma step_code p d s :
  48 <= d <= 57 -> 0 <= st_count s < 3 -> 0 <= st_code s < 10 ^ st_count s ->
  sl_step mem p d (ss_status, s) =
    let s' := st_set_code (st_code s * 10 + (d - 48)) (st_count s + 1) s in
    Break (if st_count s + 1 =? 3 then (ss_space_after_status, st_set_start (p - 2) s')
           else (ss_status, s')).
Proof.
  intros Hd Hc Hv. cbn [sl_step]. unfold sl_on_status.
  destruct (sl_count_step (st_code s) (st_count s) (d - 48) Hc Hv ltac:(lia)) as (E1 & E2 & _).
  assert ((d =? 32) = false) as -> by lia.
  assert ((d <? 48) || (57 <? d) = false) as -> by lia.
  rewrite <-Z.add_sub_assoc, E1, E2. cbn zeta. cbn [st_count st_set_code]. by case_ifs.
Qed.

Lemma loop_code1 p d s :
  p < bl -> byte_at mem p = d -> 48 <= d <= 57 -> 0 <= st_count s < 3 ->
  0 <= st_code s < 10 ^ st_count s ->
  loop sl_step mem p bl (ss_status, s) =
    let s' := st_set_code (st_code s * 10 + (d - 48)) (st_count s + 1) s in
    loop sl_step mem (p + 1) bl
      (if st_count s + 1 =? 3 then (ss_space_after_status, st_set_start (p - 2) s')
       else (ss_status, s')).
Proof.
  intros Hp Hb Hd Hc Hv. apply (loop_break sl_step); [done|]. rewrite Hb. by apply step_code.
Qed.

(** The three digits. *)
Lemma loop_code d1 d2 d3 s p :
  48 <= d1 <= 57 -> 48 <= d2 <= 57 -> 48 <= d3 <= 57 -> p + 3 <= bl ->
  st_count s = 0 -> st_code s = 0 -> text_at mem p [d1; d2; d3] ->
  loop sl_step mem p bl (ss_status, s) =
    loop sl_step mem (p + 3) bl (ss_space_after_status,
      st_set_start p (st_set_code (100 * (d1 - 48) + 10 * (d2 - 48) + (d3 - 48)) 3 s)).
Proof.
  intros H1 H2 H3 Hp Hc Hv Ht. repeat (apply text_at_cons in Ht as [? Ht]). clear Ht.
  rewrite (loop_code1 p d1) by (rewrite ?Hc, ?Hv; done || lia).
  rewrite Hc, Hv. cbv zeta. change (0 + 1) with 1. change (1 =? 3) with false. cbv iota.
  rewrite (loop_code1 (p + 1) d2) by (cbn [st_count st_code st_set_code]; done || lia).
  cbn [st_count st_code st_set_code]. cbv zeta. change (1 + 1) with 2.
  change (2 =? 3) with false. cbv iota.
  rewrite (loop_code1 (p + 1 + 1) d3) by (cbn [st_count st_code st_set_code]; done || lia).
  cbn [st_count st_code st_set_code]. cbv zeta. change (2 + 1) with 3.
  change (3 =? 3) with true. cbv iota.
  replace (p + 1 + 1 + 1) with (p + 3) by lia. replace (p + 1 + 1 - 2) with p by lia.
  do 2 f_equal. unfold st_set_start, st_set_code. cbn. f_equal. lia.
Qed.

(** The text, and the line end. *)
Lemma loop_text text eol s p :
  Forall (fun c => c <> CR /\ c <> LF) text -> eol = [CR; LF] \/ eol = [LF] ->
  text_at mem p (text ++ eol) -> p + Z.of_nat (length text) + Z.of_nat (length eol) <= bl ->
  st_end s = None ->
  exists q s', loop sl_step mem p bl (ss_status_text, s) = Some (Left q (SlDone s')) /\
    q + 1 = p + Z.of_nat (length text) + Z.of_nat (length eol) /\
    sl_done q s' = sl_done q (st_set_end (p + Z.of_nat (length text)) s).
Proof.
  intros Htext He Ht Hp Hend. apply text_at_app in Ht as [Ht1 Ht2].
  destruct (loop_fold sl_step (fun c => c <> CR /\ c <> LF) (fun t => t = (ss_status_text, s))
    (fun t _ => t) mem bl) with (l := text) (p := p) (s := (ss_status_text, s)) as [E _].
  { intros q c t [Hc1 Hc2] ->. split; [|done]. cbn [sl_step]. unfold sl_on_status_text.
    assert ((c =? 13) = false) as -> by lia. by assert ((c =? 10) = false) as -> by lia. }
  { lia. } { done. } { done. } { done. }
  rewrite E. replace (fold_left _ _ _) with (ss_status_text, s) by (clear; by induction text).
  set (q := p + Z.of_nat (length text)) in *. destruct He as [-> | ->]; cbn [length] in *.
  - apply text_at_cons in Ht2 as [H1 Ht2]. apply text_at_cons in Ht2 as [H2 _].
    rewrite (loop_literal 13 ss_almost_done) by (done || lia).
    exists (q + 1), (st_set_end (q + 1 - 1) s). split; [|split; [lia|]].
    + apply (loop_leave sl_step); [lia|]. cbn [sl_step]. unfold sl_on_almost_done. by rewrite H2.
    + by replace (q + 1 - 1) with q by lia.
  - apply text_at_cons in Ht2 as [H1 _]. exists q, s. split; [|split; [lia|]].
    + apply (loop_leave sl_step); [lia|]. cbn [sl_step]. unfold sl_on_status_text. by rewrite H1.
    + unfold sl_done. rewrite Hend. done.
Qed.

End Accept.

Definition status_text (maj min d1 d2 d3 : Z) (text eol : list Z) : list Z :=
  bytes "HTTP/" ++ [maj; #"."; min; #" "] ++ [d1; d2; d3] ++ #" " :: text ++ eol.

(** Every line "HTTP/x.y ddd text" is accepted, with that version and that
    code, and [status->start] and [status->end] delimit the code and the text. *)
Theorem parse_status_line_accepts mem s b maj min d1 d2 d3 text eol :
  49 <= maj <= 57 -> 48 <= min <= 57 ->
  48 <= d1 <= 57 -> 48 <= d2 <= 57 -> 48 <= d3 <= 57 ->
  Forall (fun c => c <> CR /\ c <> LF) text -> eol = [CR; LF] \/ eol = [LF] ->
  st_state s = ss_start -> st_count s = 0 -> st_code s = 0 -> st_end s = None ->
  0 <= b_pos b -> b_last b <= Z.of_nat (length mem) ->
  b_pos b + Z.of_nat (length (status_text maj min d1 d2 d3 text eol)) <= b_last b ->
  text_at mem (b_pos b) (status_text maj min d1 d2 d3 text eol) ->
  exists s' b', parse_status_line mem s b = Some (NGX_OK, s', b') /\
    b_pos b' = b_pos b + Z.of_nat (length (status_text maj min d1 d2 d3 text eol)) /\
    st_http_version s' = 1000 * (maj - 48) + (min - 48) /\
    st_code s' = 100 * (d1 - 48) + 10 * (d2 - 48) + (d3 - 48) /\
    slice mem (pv (st_start s')) (pv (st_end s')) = [d1; d2; d3] ++ #" " :: text.
Proof.
  intros Hmaj Hmin Hd1 Hd2 Hd3 Htext He Hst Hcount Hcode Hend H0 Hmem Hlen Ht.
  assert (Hl : Z.of_nat (length (status_text maj min d1 d2 d3 text eol)) =
    13 + Z.of_nat (length text) + Z.of_nat (length eol)).
  { unfold status_text. rewrite !length_app. cbn [length]. rewrite length_app.
    change (length (bytes "HTTP/")) with 5%nat. lia. }
  rewrite Hl in *. unfold status_text in Ht. rewrite app_assoc in Ht.
  apply text_at_app in Ht as [Ht1 Ht]. cbn [length app] in Ht.
  change (Z.of_nat (length (bytes "HTTP/" ++ [maj; 46; min; 32]))) with 9 in Ht.
  change (d1 :: d2 :: d3 :: 32 :: text ++ eol) with ([d1; d2; d3] ++ 32 :: text ++ eol) in Ht.
  apply text_at_app in Ht as [Ht2 Ht]. change (Z.of_nat (length [d1; d2; d3])) with 3 in Ht.
  pose proof Ht as Ht3. apply text_at_cons in Ht as [Hsp Ht].
  unfold parse_status_line. rewrite Hst.
  rewrite (loop_protocol mem (b_last b) maj min) by (done || lia).
  rewrite (loop_code mem (b_last b) d1 d2 d3) by (done || lia).
  rewrite (loop_literal mem (b_last b) 32 ss_status_text) by (done || lia).
  destruct (loop_text mem (b_last b) text eol
    (st_set_start (b_pos b + 9) (st_set_code (100 * (d1 - 48) + 10 * (d2 - 48) + (d3 - 48)) 3
      (st_set_minor (min - 48) (st_set_major (maj - 48) s)))) (b_pos b + 9 + 3 + 1))
    as (q & s' & E & Hq & Hdone); [done|done|done|lia|by destruct s|].
  rewrite E. do 2 eexists. split; [reflexivity|]. cbn [b_pos sl_end].
  split; [lia|]. rewrite Hdone. cbn. split; [lia|]. split; [done|].
  replace (b_pos b + 9 + 3 + 1 + Z.of_nat (length text))
    with (b_pos b + 9 + Z.of_nat (length ([d1; d2; d3] ++ 32 :: text))) by (cbn [app length]; lia).
  apply (text_at_slice mem (b_pos b + 9)); [lia|cbn [app length]; lia|].
  apply (text_at_app _ _ [d1; d2; d3]). split; [done|]. change (Z.of_nat (length [d1; d2; d3])) with 3.
  change (32 :: text ++ eol) with ((32 :: text) ++ eol) in Ht3. by apply text_at_app in Ht3 as [? _].
Qed.

(** ** Witnesses and an example *)

Definition status_init : status := mk_status ss_start 0 0 0 0 0 None None.

Definition sample_status : list Z := bytes "HTTP/1.1 404 Not Found" ++ [13; 10].

Lemma parse_status_line_resume_witness :
  exists x y, parse_status_line sample_status status_init (mk_buf 0 24) = Some x /\
    status_in_two (take 11 sample_status) sample_status status_init (mk_buf 0 24) 11 = Some y /\
    sl_same x y.
Proof.
  apply parse_status_line_resume.
  - cbn. lia.
  - intros i Hi. rewrite <-(take_drop 11 sample_status) at 1. apply byte_at_app_l.
    change (i < 11). exact Hi.
Defined.

Lemma parse_status_line_code_witness :
  exists s' b', parse_status_line sample_status status_init (mk_buf 0 24) = Some (NGX_OK, s', b') /\
    st_count s' = 3 /\ 0 <= st_code s' < 1000.
Proof.
  do 2 eexists. split; [vm_compute; reflexivity|].
  apply (parse_status_line_code sample_status status_init (mk_buf 0 24) NGX_OK _ (mk_buf 24 24)).
  - cbn. lia.
  - cbn. lia.
  - vm_compute. reflexivity.
  - reflexivity.
Defined.

Lemma parse_status_line_accepts_witness :
  exists s' b', parse_status_line sample_status status_init (mk_buf 0 24) = Some (NGX_OK, s', b') /\
    st_code s' = 404 /\ slice sample_status (pv (st_start s')) (pv (st_end s')) = bytes "404 Not Found".
Proof.
  destruct (parse_status_line_accepts sample_status status_init (mk_buf 0 24) 49 49 52 48 52
    (bytes "Not Found") [13; 10]) as (s' & b' & H1 & _ & _ & H2 & H3).
  1-5: lia.
  - repeat constructor; discriminate.
  - left. reflexivity.
  - reflexivity.
  - reflexivity.
  - reflexivity.
  - reflexivity.
  - cbn. lia.
  - cbn. lia.
  - cbn. lia.
  - exact (text_at_self sample_status).
  - exists s', b'. split; [exact H1|]. split; [exact H2|exact H3].
Defined.

(** Spaces are skipped between the digits of the code as well. *)
Example spaced_code :
  exists s b, parse_status_line (bytes "HTTP/1.1 2 0 0" ++ [10]) status_init (mk_buf 0 15)
    = Some (NGX_OK, s, b) /\ st_code s = 200.
Proof. do 2 eexists. split; vm_compute; reflexivity. Qed.
