(* ===== verification/StringNum.v ===== *)
(** * Numbers in strings

    The conversions of [src/core/ngx_string.c] (ngx_atoi, ngx_atosz, ngx_atoof,
    ngx_atotm, ngx_atofp, ngx_hextoi) and the sizes, offsets and times of
    configuration files of [src/core/ngx_parse.c].

    A conversion returns [NGX_ERROR], that is -1, or a number that is not
    negative.  The arithmetic is on [Z]; that it never leaves the range of the
    C types is among the theorems. *)

From S2P Require Import Prelude Fsm RequestLine ComplexUri Sprintf.

(** ** Decimal and hexadecimal numbers *)

(** The loop of [ngx_atoi] from [value] on, with its [cutoff] and [cutlim]. *)
Fixpoint ato_loop (max value : Z) (line : list Z) : Z :=
  match line with
  | [] => value
  | c :: line' =>
      if (c <? #"0") || (#"9" <? c) then NGX_ERROR
      else if (max / 10 <=? value) && ((max / 10 <? value) || (max mod 10 <? c - #"0"))
      then NGX_ERROR
      else ato_loop max (value * 10 + (c - #"0")) line'
  end.

Definition ato (max : Z) (line : list Z) : Z :=
  match line with
  | [] => NGX_ERROR
  | _ => ato_loop max 0 line
  end.

Definition ngx_atoi (line : list Z) : Z := ato NGX_MAX_INT_T_VALUE line.
Definition ngx_atosz (line : list Z) : Z := ato NGX_MAX_SIZE_T_VALUE line.
Definition ngx_atoof (line : list Z) : Z := ato NGX_MAX_OFF_T_VALUE line.
Definition ngx_atotm (line : list Z) : Z := ato NGX_MAX_TIME_T_VALUE line.

Fixpoint hextoi_loop (value : Z) (line : list Z) : Z :=
  match line with
  | [] => value
  | ch :: line' =>
      if NGX_MAX_INT_T_VALUE / 16 <? value then NGX_ERROR
      else if is_digit ch then hextoi_loop (value * 16 + (ch - #"0")) line'
      else if is_hex_alpha ch then hextoi_loop (value * 16 + (lower ch - #"a" + 10)) line'
      else NGX_ERROR
  end.

Definition ngx_hextoi (line : list Z) : Z :=
  match line with
  | [] => NGX_ERROR
  | _ => hextoi_loop 0 line
  end.

(** [while (point--) { if (value > cutoff) ...; value = value * 10; }] *)
Fixpoint fp_scale (point : nat) (value : Z) : Z :=
  match point with
  | O => value
  | S point' =>
      if NGX_MAX_INT_T_VALUE / 10 <? value then NGX_ERROR else fp_scale point' (value * 10)
  end.

Fixpoint fp_loop (value : Z) (point : nat) (dot : bool) (line : list Z) : Z :=
  match line with
  | [] => fp_scale point value
  | c :: line' =>
      match point with
      | O => NGX_ERROR
      | S point' =>
          if c =? #"." then if dot then NGX_ERROR else fp_loop value point true line'
          else if (c <? #"0") || (#"9" <? c) then NGX_ERROR
          else if (NGX_MAX_INT_T_VALUE / 10 <=? value)
                  && ((NGX_MAX_INT_T_VALUE / 10 <? value) || (NGX_MAX_INT_T_VALUE mod 10 <? c - #"0"))
          then NGX_ERROR
          else fp_loop (value * 10 + (c - #"0")) (if dot then point' else point) dot line'
      end
  end.

Definition ngx_atofp (line : list Z) (point : nat) : Z :=
  match line with
  | [] => NGX_ERROR
  | _ => fp_loop 0 point false line
  end.

(** ** Sizes and offsets *)

(** The [switch (unit)] of [ngx_parse_size]: whether the last character is a
    unit, and its [scale]. *)
Definition size_unit (unit : Z) : bool * Z :=
  if (unit =? #"K") || (unit =? #"k") then (true, 1024)
  else if (unit =? #"M") || (unit =? #"m") then (true, 1024 * 1024)
  else (false, 1).

Definition offset_unit (unit : Z) : bool * Z :=
  if (unit =? #"K") || (unit =? #"k") then (true, 1024)
  else if (unit =? #"M") || (unit =? #"m") then (true, 1024 * 1024)
  else if (unit =? #"G") || (unit =? #"g") then (true, 1024 * 1024 * 1024)
  else (false, 1).

(** [None]: [line->data[len - 1]] of an empty line. *)
Definition parse_scaled (units : Z -> bool * Z) (max_value : Z) (conv : list Z -> Z) (line : list Z)
    : option Z :=
  match last line with
  | None => None
  | Some unit =>
      let (is_unit, scale) := units unit in
      let size := conv (if is_unit then removelast line else line) in
      if (size =? NGX_ERROR) || (max_value / scale <? size) then Some NGX_ERROR
      else Some (size * scale)
  end.

Definition ngx_parse_size : list Z -> option Z :=
  parse_scaled size_unit NGX_MAX_SIZE_T_VALUE ngx_atosz.
Definition ngx_parse_offset : list Z -> option Z :=
  parse_scaled offset_unit NGX_MAX_OFF_T_VALUE ngx_atoof.

(** ** Times *)

(** The enumerators of [step], in their order. *)
Definition st_start : Z := 0.
Definition st_year : Z := 1.
Definition st_month : Z := 2.
Definition st_week : Z := 3.
Definition st_day : Z := 4.
Definition st_hour : Z := 5.
Definition st_min : Z := 6.
Definition st_sec : Z := 7.
Definition st_msec : Z := 8.
Definition st_last : Z := 9.

(** The [switch ( *p++)]: the unit that begins with [c], the rest of the line
    being [line]: the next [step], [scale], and the rest after the unit. *)
Definition time_unit (is_sec : bool) (step c : Z) (line : list Z) : option (Z * Z * list Z) :=
  if c =? #"y" then if st_start <? step then None else Some (st_year, 60 * 60 * 24 * 365, line)
  else if c =? #"M" then if st_month <=? step then None else Some (st_month, 60 * 60 * 24 * 30, line)
  else if c =? #"w" then if st_week <=? step then None else Some (st_week, 60 * 60 * 24 * 7, line)
  else if c =? #"d" then if st_day <=? step then None else Some (st_day, 60 * 60 * 24, line)
  else if c =? #"h" then if st_hour <=? step then None else Some (st_hour, 60 * 60, line)
  else if c =? #"m" then
    let minutes := if st_min <=? step then None else Some (st_min, 60, line) in
    match line with
    | c' :: line' =>
        if c' =? #"s" then
          if is_sec || (st_msec <=? step) then None else Some (st_msec, 1, line')
        else minutes
    | [] => minutes
    end
  else if c =? #"s" then if st_sec <=? step then None else Some (st_sec, 1, line)
  else if c =? #" " then if st_sec <=? step then None else Some (st_last, 1, line)
  else None.

Fixpoint skip_spaces (line : list Z) : list Z :=
  match line with
  | c :: line' => if c =? #" " then skip_spaces line' else line
  | [] => line
  end.

(** [while (p < last)], then the end of the function. *)
Fixpoint time_loop (fuel : nat) (is_sec valid : bool) (value total step : Z) (line : list Z)
    : option Z :=
  match fuel with
  | O => None
  | S fuel' =>
      match line with
      | [] =>
          if negb valid then Some NGX_ERROR
          else if negb is_sec && (NGX_MAX_INT_T_VALUE / 1000 <? value) then Some NGX_ERROR
          else
            let value := if is_sec then value else value * 1000 in
            if NGX_MAX_INT_T_VALUE - value <? total then Some NGX_ERROR
            else Some (total + value)
      | c :: line' =>
          if (#"0" <=? c) && (c <=? #"9") then
            if (NGX_MAX_INT_T_VALUE / 10 <=? value)
               && ((NGX_MAX_INT_T_VALUE / 10 <? value) || (NGX_MAX_INT_T_VALUE mod 10 <? c - #"0"))
            then Some NGX_ERROR
            else time_loop fuel' is_sec true (value * 10 + (c - #"0")) total step line'
          else
            match time_unit is_sec step c line' with
            | None => Some NGX_ERROR
            | Some (step, scale, line') =>
                let max := NGX_MAX_INT_T_VALUE / scale in
                let in_ms := negb (step =? st_msec) && negb is_sec in
                let scale := if in_ms then scale * 1000 else scale in
                let max := if in_ms then max / 1000 else max in
                if max <? value then Some NGX_ERROR
                else
                  let value := value * scale in
                  if NGX_MAX_INT_T_VALUE - value <? total then Some NGX_ERROR
                  else time_loop fuel' is_sec valid 0 (total + value) step (skip_spaces line')
            end
      end
  end.

Definition ngx_parse_time (line : list Z) (is_sec : bool) : option Z :=
  time_loop (S (length line)) is_sec false 0 0 (if is_sec then st_start else st_month) line.

Example time_examples :
  map (fun s => ngx_parse_time (bytes s) true) ["1h 30m"; "90"; "1y2M3w4d5h6m7s"; "5m 1h"]%string =
    [Some 5400; Some 90; Some (31536000 + 2 * 2592000 + 3 * 604800 + 4 * 86400 + 5 * 3600 + 6 * 60 + 7);
     Some NGX_ERROR] /\
  map (fun s => ngx_parse_time (bytes s) false) ["1m500ms"; "1y"; "2"]%string =
    [Some 60500; Some NGX_ERROR; Some 2000].
Proof. split; vm_compute; reflexivity. Qed.

(** ** What the numbers mean *)

Definition digitb (c : Z) : bool := (#"0" <=? c) && (c <=? #"9").

Definition dec_from (v : Z) (line : list Z) : Z := fold_left (fun v c => v * 10 + (c - #"0")) line v.

Lemma dec_from_grows line : forall v, 0 <= v -> forallb digitb line = true -> v <= dec_from v line.
Proof.
  induction line as [|c line IH]; intros v Hv H; [cbn; lia|]. cbn [forallb] in H.
  apply andb_true_iff in H as [Hc H]. unfold digitb in Hc. unfold dec_from. cbn [fold_left].
  fold (dec_from (v * 10 + (c - 48)) line). specialize (IH (v * 10 + (c - 48)) ltac:(lia) H). lia.
Qed.

(** The test with [cutoff] and [cutlim] is exact. *)
Lemma cutoff_exact max v d :
  0 <= max -> 0 <= v -> 0 <= d <= 9 ->
  (max / 10 <=? v) && ((max / 10 <? v) || (max mod 10 <? d)) = (max <? v * 10 + d).
Proof.
  intros Hm Hv Hd. pose proof (Z.div_mod max 10 ltac:(lia)).
  pose proof (Z.mod_pos_bound max 10 ltac:(lia)). lia.
Qed.

Lemma ato_loop_spec max line : 0 <= max -> forall v,
  0 <= v <= max ->
  ato_loop max v line =
    if forallb digitb line && (dec_from v line <=? max) then dec_from v line else NGX_ERROR.
Proof.
  intros Hmax. induction line as [|c line IH]; intros v Hv.
  - cbn. by assert ((v <=? max) = true) as -> by lia.
  - cbn [ato_loop forallb]. unfold digitb at 1.
    destruct ((c <? 48) || (57 <? c)) eqn:Ec.
    + by assert ((48 <=? c) && (c <=? 57) = false) as -> by lia.
    + assert ((48 <=? c) && (c <=? 57) = true) as -> by lia. cbn [andb].
      rewrite cutoff_exact by lia.
      change (dec_from v (c :: line)) with (dec_from (v * 10 + (c - 48)) line).
      destruct (max <? v * 10 + (c - 48)) eqn:Em; [|apply IH; lia].
      destruct (forallb digitb line) eqn:Ed; [|done]. cbn [andb].
      pose proof (dec_from_grows line (v * 10 + (c - 48)) ltac:(lia) Ed).
      by assert ((dec_from (v * 10 + (c - 48)) line <=? max) = false) as -> by lia.
Qed.

Definition dec_value (line : list Z) : Z := dec_from 0 line.

Lemma ato_spec max line :
  0 <= max ->
  ato max line =
    if negb (bool_decide (line = [])) && forallb digitb line && (dec_value line <=? max)
    then dec_value line else NGX_ERROR.
Proof.
  intros Hm. unfold ato. destruct line as [|c line]; [done|].
  rewrite (bool_decide_false (c :: line = [])) by done. by apply ato_loop_spec; [|lia].
Qed.

(** C30: [ngx_atoi] accepts exactly the non-empty strings of digits whose value
    fits in [ngx_int_t], and returns that value; so do [ngx_atosz], [ngx_atoof]
    and [ngx_atotm] for their types. *)
Theorem ngx_atoi_exact line :
  let r max := if negb (bool_decide (line = [])) && forallb digitb line && (dec_value line <=? max)
               then dec_value line else NGX_ERROR in
  ngx_atoi line = r NGX_MAX_INT_T_VALUE /\ ngx_atosz line = r NGX_MAX_SIZE_T_VALUE /\
  ngx_atoof line = r NGX_MAX_OFF_T_VALUE /\ ngx_atotm line = r NGX_MAX_TIME_T_VALUE.
Proof. split_and!; by apply ato_spec. Qed.

(** A result that fits, or [NGX_ERROR]. *)
Definition fits (x : Z) : Z := if x <=? NGX_MAX_INT_T_VALUE then x else NGX_ERROR.

Lemma fits_over x : NGX_MAX_INT_T_VALUE < x -> fits x = NGX_ERROR.
Proof. intros H. unfold fits. by assert ((x <=? NGX_MAX_INT_T_VALUE) = false) as -> by lia. Qed.

Lemma fits_in x : x <= NGX_MAX_INT_T_VALUE -> fits x = x.
Proof. intros H. unfold fits. by assert ((x <=? NGX_MAX_INT_T_VALUE) = true) as -> by lia. Qed.

Definition hexb (c : Z) : bool := is_digit c || is_hex_alpha c.
Definition hex_digit_value (c : Z) : Z := if is_digit c then c - #"0" else lower c - #"a" + 10.
Definition hexn_from (v : Z) (line : list Z) : Z :=
  fold_left (fun v c => v * 16 + hex_digit_value c) line v.

Lemma hex_digit_range c : hexb c = true -> 0 <= hex_digit_value c <= 15.
Proof. unfold hexb, hex_digit_value, is_digit, is_hex_alpha. case_ifs; lia. Qed.

Lemma hexn_from_grows line : forall v, 0 <= v -> forallb hexb line = true -> v <= hexn_from v line.
Proof.
  induction line as [|c line IH]; intros v Hv H; [cbn; lia|]. cbn [forallb] in H.
  apply andb_true_iff in H as [Hc H]. apply hex_digit_range in Hc. unfold hexn_from. cbn [fold_left].
  fold (hexn_from (v * 16 + hex_digit_value c) line).
  specialize (IH (v * 16 + hex_digit_value c) ltac:(lia) H). lia.
Qed.

Lemma hextoi_loop_spec line : forall v, 0 <= v <= NGX_MAX_INT_T_VALUE ->
  hextoi_loop v line = if forallb hexb line then fits (hexn_from v line) else NGX_ERROR.
Proof.
  induction line as [|c line IH]; intros v Hv.
  - cbn [hextoi_loop forallb]. change (hexn_from v []) with v. by rewrite fits_in by lia.
  - cbn [hextoi_loop forallb].
    change (hexn_from v (c :: line)) with (hexn_from (v * 16 + hex_digit_value c) line).
    pose proof (hex_digit_range c) as Hr.
    destruct (NGX_MAX_INT_T_VALUE / 16 <? v) eqn:Ev.
    + destruct (hexb c); [|done]. destruct (forallb hexb line) eqn:Ef; [|done]. cbn [andb].
      specialize (Hr eq_refl). change (NGX_MAX_INT_T_VALUE / 16) with 576460752303423487 in Ev.
      pose proof (hexn_from_grows line (v * 16 + hex_digit_value c) ltac:(lia) Ef).
      rewrite fits_over; [done|]. unfold NGX_MAX_INT_T_VALUE. lia.
    + change (NGX_MAX_INT_T_VALUE / 16) with 576460752303423487 in Ev.
      unfold hexb, hex_digit_value in *. destruct (is_digit c); cbn [orb andb].
      * apply IH. specialize (Hr eq_refl). unfold NGX_MAX_INT_T_VALUE. lia.
      * destruct (is_hex_alpha c); [|done]. apply IH. specialize (Hr eq_refl).
        unfold NGX_MAX_INT_T_VALUE. lia.
Qed.

(** [ngx_hextoi] accepts exactly the non-empty strings of hexadecimal
    digits, in either case, whose value fits in [ngx_int_t], and returns that
    value; its one test against [NGX_MAX_INT_T_VALUE / 16] is exact. *)
Theorem ngx_hextoi_exact line :
  ngx_hextoi line =
    if negb (bool_decide (line = [])) && forallb hexb line then fits (hexn_from 0 line) else NGX_ERROR.
Proof.
  unfold ngx_hextoi. destruct line as [|c line]; [done|].
  rewrite (bool_decide_false (c :: line = [])) by done. by apply hextoi_loop_spec.
Qed.

(** *** Printing and reading *)

Lemma num_digits_chars (P : Z -> bool) hexadecimal base : 0 < base ->
  (forall d, 0 <= d < base -> P (num_char hexadecimal d) = true) ->
  forall n v p q, num_digits n hexadecimal base v p = Some q ->
  forallb P p = true -> forallb P q = true.
Proof.
  intros Hb HP. induction n as [|n IH]; intros v p q H Hp; [done|]. cbn [num_digits] in H.
  pose proof (Z.mod_pos_bound v base Hb).
  assert (forallb P (num_char hexadecimal (v mod base) :: p) = true) as Hp'.
  { cbn [forallb]. by rewrite HP by lia. }
  destruct (v / base =? 0); [by injection H as <-|by apply (IH _ _ _ H)].
Qed.

(** The two ways of reading digits agree on the right digits. *)
Lemma dec_value_num ds : forallb digitb ds = true -> dec_value ds = num_value 10 ds.
Proof.
  unfold dec_value, dec_from, num_value. generalize 0 as v.
  induction ds as [|c ds IH]; intros v H; [done|]. cbn [forallb fold_left] in *.
  apply andb_true_iff in H as [Hc H]. rewrite IH by done. f_equal. unfold digitb, char_num in *. case_ifs; lia.
Qed.

(** A printed digit reads as the digit it is. *)
Definition hex_agrees (c : Z) : bool := hexb c && (hex_digit_value c =? char_num c).

Lemma hex_agrees_char hexadecimal d : 0 <= d < 16 -> hex_agrees (num_char hexadecimal d) = true.
Proof.
  intros H. assert (d ∈ seqZ 0 16) as Hin by (apply elem_of_seqZ; lia). clear H.
  revert d Hin. apply Forall_forall. unfold num_char. destruct (hexadecimal =? 1); repeat constructor.
Qed.

Lemma hex_value_num ds :
  forallb hex_agrees ds = true -> forallb hexb ds = true /\ hexn_from 0 ds = num_value 16 ds.
Proof.
  unfold hexn_from, num_value. generalize 0 as v.
  induction ds as [|c ds IH]; intros v H; [done|]. cbn [forallb fold_left] in *.
  apply andb_true_iff in H as [Hc H]. unfold hex_agrees in Hc. apply andb_true_iff in Hc as [Hh Hc].
  destruct (IH (v * 16 + hex_digit_value c) H) as [-> E]. rewrite Hh. split; [done|].
  rewrite E. f_equal. lia.
Qed.

(** What [ngx_sprintf_num] prints for a number that fits in [ngx_int_t],
    [ngx_atoi] reads back, and, printed in hexadecimal, in either case,
    [ngx_hextoi] does. *)
Theorem number_round_trip hexadecimal v :
  0 <= v <= NGX_MAX_INT_T_VALUE ->
  exists ds, num_text hexadecimal v = Some ds /\
    (if hexadecimal =? 0 then ngx_atoi ds else ngx_hextoi ds) = v.
Proof.
  unfold NGX_MAX_INT_T_VALUE. intros Hv. unfold num_text.
  destruct (hexadecimal =? 0) eqn:E.
  - assert ((if v <=? NGX_MAX_UINT32_VALUE then num_digits NGX_INT64_LEN 0 10 (u32 v) []
             else num_digits NGX_INT64_LEN 0 10 v []) = num_digits NGX_INT64_LEN 0 10 v []) as ->.
    { destruct (v <=? NGX_MAX_UINT32_VALUE) eqn:E'; [|done].
      unfold u32, NGX_MAX_UINT32_VALUE in *. by rewrite Z.mod_small by lia. }
    destruct (num_digits_spec 0 10 19 ltac:(lia) v []) as (ds & Hds & Hl & Hval & _); [lia|].
    rewrite app_nil_r in Hds. change (S 19) with NGX_INT64_LEN in Hds. exists ds. split; [done|].
    apply (num_digits_chars digitb) in Hds; [|lia| |done].
    2: { intros d Hd. unfold num_char, digitb. case_ifs; lia. }
    unfold ngx_atoi. rewrite ato_spec, Hds, dec_value_num, Hval by done.
    rewrite bool_decide_false by (destruct ds; [cbn in Hl; lia|done]). cbn [negb andb].
    by assert ((v <=? NGX_MAX_INT_T_VALUE) = true) as -> by (unfold NGX_MAX_INT_T_VALUE; lia).
  - destruct (num_digits_spec hexadecimal 16 19 ltac:(lia) v []) as (ds & Hds & Hl & Hval & _); [lia|].
    rewrite app_nil_r in Hds. change (S 19) with NGX_INT64_LEN in Hds. exists ds. split; [done|].
    apply (num_digits_chars hex_agrees) in Hds; [|lia| |done].
    2: { intros d Hd. by apply hex_agrees_char. }
    apply hex_value_num in Hds as [Hh Hv'].
    assert (ngx_hextoi ds = hextoi_loop 0 ds) as -> by (destruct ds; [cbn in Hl; lia|done]).
    rewrite hextoi_loop_spec, Hh, Hv', Hval by (unfold NGX_MAX_INT_T_VALUE; lia).
    apply fits_in. unfold NGX_MAX_INT_T_VALUE. lia.
Qed.

Lemma number_round_trip_witness :
  exists ds, num_text 2 48879 = Some ds /\ ngx_hextoi ds = 48879.
Proof. destruct (number_round_trip 2 48879 ltac:(by split)) as (ds & H1 & H2). by exists ds. Defined.

(** *** Fixed point *)

Lemma fp_scale_spec point : forall v, 0 <= v <= NGX_MAX_INT_T_VALUE ->
  fp_scale point v = fits (v * 10 ^ Z.of_nat point).
Proof.
  induction point as [|n IH]; intros v Hv; cbn [fp_scale].
  - rewrite Z.pow_0_r, Z.mul_1_r. by rewrite fits_in by lia.
  - rewrite Nat2Z.inj_succ, Z.pow_succ_r by lia.
    pose proof (Z.pow_pos_nonneg 10 (Z.of_nat n) ltac:(lia) ltac:(lia)) as Hp.
    change (NGX_MAX_INT_T_VALUE / 10) with 922337203685477580.
    destruct (922337203685477580 <? v) eqn:E.
    + rewrite fits_over; [done|]. unfold NGX_MAX_INT_T_VALUE. nia.
    + rewrite IH by (unfold NGX_MAX_INT_T_VALUE; lia). f_equal. lia.
Qed.

Lemma fp_fraction line : forall v point, 0 <= v <= NGX_MAX_INT_T_VALUE ->
  forallb digitb line = true ->
  fp_loop v point true line =
    if (length line <=? point)%nat
    then fits (dec_from v line * 10 ^ (Z.of_nat point - Z.of_nat (length line)))
    else NGX_ERROR.
Proof.
  induction line as [|c line IH]; intros v point Hv H; cbn [fp_loop forallb length] in *.
  - rewrite fp_scale_spec by done. by rewrite Z.sub_0_r.
  - apply andb_true_iff in H as [Hc H]. unfold digitb in Hc.
    destruct point as [|point]; [done|].
    assert ((c =? #".") = false) as -> by lia.
    assert ((c <? #"0") || (#"9" <? c) = false) as -> by lia.
    rewrite cutoff_exact by (unfold NGX_MAX_INT_T_VALUE; lia).
    change (dec_from v (c :: line)) with (dec_from (v * 10 + (c - #"0")) line).
    replace (Z.of_nat (S point) - Z.of_nat (S (length line)))
      with (Z.of_nat point - Z.of_nat (length line)) by lia.
    change (S (length line) <=? S point)%nat with (length line <=? point)%nat.
    destruct (NGX_MAX_INT_T_VALUE <? v * 10 + (c - #"0")) eqn:Eo; [|apply IH; [lia|done]].
    destruct (length line <=? point)%nat eqn:El; [|done]. rewrite fits_over; [done|].
    pose proof (dec_from_grows line (v * 10 + (c - 48)) ltac:(lia) H).
    pose proof (Z.pow_pos_nonneg 10 (Z.of_nat point - Z.of_nat (length line)) ltac:(lia) ltac:(lia)).
    nia.
Qed.

(** The digits before the point, whatever follows them. *)
Lemma fp_integer ip : forall v point rest, 0 <= v <= NGX_MAX_INT_T_VALUE ->
  forallb digitb ip = true ->
  fp_loop v (S point) false (ip ++ rest) =
    if dec_from v ip <=? NGX_MAX_INT_T_VALUE then fp_loop (dec_from v ip) (S point) false rest
    else NGX_ERROR.
Proof.
  induction ip as [|c ip IH]; intros v point rest Hv H.
  - cbn [app]. change (dec_from v []) with v. by assert ((v <=? NGX_MAX_INT_T_VALUE) = true) as -> by lia.
  - cbn [app forallb] in *. apply andb_true_iff in H as [Hc H]. cbn [fp_loop].
    change (dec_from v (c :: ip)) with (dec_from (v * 10 + (c - #"0")) ip).
    unfold digitb in Hc. assert ((c =? #".") = false) as -> by lia.
    assert ((c <? #"0") || (#"9" <? c) = false) as -> by lia.
    rewrite cutoff_exact by (unfold NGX_MAX_INT_T_VALUE; lia).
    destruct (NGX_MAX_INT_T_VALUE <? v * 10 + (c - #"0")) eqn:Eo; [|apply IH; [lia|done]].
    pose proof (dec_from_grows ip (v * 10 + (c - 48)) ltac:(lia) H).
    by assert ((dec_from (v * 10 + (c - 48)) ip <=? NGX_MAX_INT_T_VALUE) = false) as -> by lia.
Qed.

(** [ngx_atofp] of the digits [ip], a point and the digits [fp] is the
    number they write, scaled by [10 ^ point]: [ip fp] times
    [10 ^ (point - length fp)], or [NGX_ERROR] when that does not fit in
    [ngx_int_t] or [fp] has more than [point] digits. *)
Theorem ngx_atofp_exact ip fp point :
  forallb digitb ip = true -> forallb digitb fp = true -> (0 < point)%nat ->
  ngx_atofp (ip ++ #"." :: fp) point =
    if (length fp <=? point)%nat
    then fits (dec_value (ip ++ fp) * 10 ^ (Z.of_nat point - Z.of_nat (length fp)))
    else NGX_ERROR.
Proof.
  intros Hi Hf Hp. unfold ngx_atofp, dec_value, dec_from. destruct point as [|point]; [lia|].
  rewrite fold_left_app. fold (dec_from 0 ip). fold (dec_from (dec_from 0 ip) fp).
  assert (forall l, l <> [] -> match l with [] => NGX_ERROR | _ => fp_loop 0 (S point) false l end =
                               fp_loop 0 (S point) false l) as -> by (by intros []).
  2: by destruct ip.
  rewrite fp_integer by done. pose proof (dec_from_grows ip 0 ltac:(lia) Hi).
  destruct (dec_from 0 ip <=? NGX_MAX_INT_T_VALUE) eqn:E.
  - cbn [fp_loop]. change (46 =? 46) with true. cbv iota. apply fp_fraction; [lia|done].
  - destruct (length fp <=? S point)%nat eqn:El; [|done]. rewrite fits_over; [done|].
    pose proof (dec_from_grows fp (dec_from 0 ip) ltac:(lia) Hf).
    pose proof (Z.pow_pos_nonneg 10 (Z.of_nat (S point) - Z.of_nat (length fp)) ltac:(lia) ltac:(lia)).
    nia.
Qed.

Lemma ngx_atofp_exact_witness : ngx_atofp (bytes "10" ++ #"." :: bytes "5") 2 = 1050.
Proof. rewrite (ngx_atofp_exact (bytes "10") (bytes "5") 2); [done|done|done|lia]. Defined.

(** ** What the sizes mean *)

(** The number and the scale of a size. *)
Definition size_parts (units : Z -> bool * Z) (ds : list Z) (u : Z) : list Z * Z :=
  let (is_unit, scale) := units u in if is_unit then (ds, scale) else (ds ++ [u], 1).

Definition size_value (max : Z) (parts : list Z * Z) : Z :=
  let (ds, scale) := parts in
  if negb (bool_decide (ds = [])) && forallb digitb ds && (dec_value ds * scale <=? max)
  then dec_value ds * scale else NGX_ERROR.

Lemma div_exact max s v : 0 < s -> 0 <= max -> (max / s <? v) = (max <? v * s).
Proof.
  intros Hs Hm. pose proof (Z.div_mod max s ltac:(lia)). pose proof (Z.mod_pos_bound max s Hs).
  destruct (Z.ltb_spec (max / s) v); symmetry; [apply Z.ltb_lt|apply Z.ltb_ge]; nia.
Qed.

Lemma parse_scaled_spec units max conv ds u :
  0 <= max -> (forall line, conv line = ato max line) ->
  (0 < (units u).2) -> ((units u).1 = false -> (units u).2 = 1) ->
  parse_scaled units max conv (ds ++ [u]) = Some (size_value max (size_parts units ds u)).
Proof.
  intros Hm Hconv Hs H1. unfold parse_scaled, size_parts. rewrite last_snoc, removelast_last.
  destruct (units u) as [is_unit scale]. cbn [fst snd] in *.
  assert (forall l, 0 <= dec_value l \/ forallb digitb l = false) as Hpos.
  { intros l. destruct (forallb digitb l) eqn:E; [left|by right].
    apply (dec_from_grows l 0); [lia|done]. }
  assert (forall l, (let size := ato max l in
     if (size =? NGX_ERROR) || (max / scale <? size) then Some NGX_ERROR else Some (size * scale)) =
     Some (size_value max (l, scale))) as Hgo.
  { intros l. cbv zeta. rewrite ato_spec by done. rewrite div_exact by done. unfold size_value.
    destruct (negb (bool_decide (l = []))) eqn:E0; [|done]. cbn [andb].
    destruct (Hpos l) as [Hp| ->]; [|done]. destruct (forallb digitb l); [|done]. cbn [andb].
    destruct (dec_value l <=? max) eqn:El.
    - assert ((dec_value l =? NGX_ERROR) = false) as -> by (unfold NGX_ERROR; lia). cbn [orb].
      destruct (max <? dec_value l * scale) eqn:E1.
      + by assert ((dec_value l * scale <=? max) = false) as -> by lia.
      + by assert ((dec_value l * scale <=? max) = true) as -> by lia.
    - change (NGX_ERROR =? NGX_ERROR) with true. cbn [orb].
      by assert ((dec_value l * scale <=? max) = false) as -> by nia. }
  rewrite Hconv. destruct is_unit; [apply Hgo|]. rewrite (H1 eq_refl) in Hgo |- *. apply Hgo.
Qed.

(** [ngx_parse_size] and [ngx_parse_offset] of a non-empty string are the
    decimal number before the unit times the unit (k and m, and g for offsets,
    in either case), and [NGX_ERROR] exactly when there is no number, a
    character is not a digit, or the product does not fit in the C type. *)
Theorem ngx_parse_size_exact ds u :
  ngx_parse_size (ds ++ [u]) = Some (size_value NGX_MAX_SIZE_T_VALUE (size_parts size_unit ds u)) /\
  ngx_parse_offset (ds ++ [u]) = Some (size_value NGX_MAX_OFF_T_VALUE (size_parts offset_unit ds u)).
Proof.
  split; apply parse_scaled_spec; try done; unfold size_unit, offset_unit; case_ifs; cbn; lia || done.
Qed.

(** ** What the times mean *)

(** The fuel only has to exceed the length of the line. *)
Lemma skip_spaces_length line : (length (skip_spaces line) <= length line)%nat.
Proof. induction line as [|c line IH]; cbn; [lia|]. case_ifs; cbn; lia. Qed.

Lemma time_unit_length is_sec step c line step' scale line' :
  time_unit is_sec step c line = Some (step', scale, line') -> (length line' <= length line)%nat.
Proof.
  unfold time_unit. destruct line as [|c' line]; case_ifs; intros [= <- <- <-]; cbn; lia.
Qed.

Lemma time_loop_fuel f1 : forall f2 is_sec valid value total step line,
  (length line < f1)%nat -> (length line < f2)%nat ->
  time_loop f1 is_sec valid value total step line = time_loop f2 is_sec valid value total step line.
Proof.
  induction f1 as [|f1 IH]; intros [|f2] is_sec valid value total step line H1 H2; try lia.
  cbn [time_loop]. destruct line as [|c line]; [done|]. cbn [length] in *.
  destruct ((#"0" <=? c) && (c <=? #"9")); [destruct (_ && _); [done|apply IH; lia]|].
  destruct (time_unit is_sec step c line) as [[[step' scale] line']|] eqn:Eu; [|done].
  apply time_unit_length in Eu. pose proof (skip_spaces_length line').
  destruct (_ <? _); [done|]. destruct (_ <? _); [done|]. apply IH; lia.
Qed.

Definition times (is_sec valid : bool) (value total step : Z) (line : list Z) : option Z :=
  time_loop (S (length line)) is_sec valid value total step line.

Lemma time_unit_scale is_sec step c line step' scale line' :
  time_unit is_sec step c line = Some (step', scale, line') -> 0 < scale /\ 0 < step'.
Proof.
  unfold time_unit, st_year, st_month, st_week, st_day, st_hour, st_min, st_sec, st_msec, st_last.
  destruct line as [|c' line]; case_ifs; intros [= <- <- <-]; lia.
Qed.

(** The loop without its fuel, its tests as what they mean. *)
Lemma times_cons is_sec valid value total step c line :
  0 <= value -> 0 <= total ->
  times is_sec valid value total step (c :: line) =
    if digitb c then
      if NGX_MAX_INT_T_VALUE <? value * 10 + (c - #"0") then Some NGX_ERROR
      else times is_sec true (value * 10 + (c - #"0")) total step line
    else
      match time_unit is_sec step c line with
      | None => Some NGX_ERROR
      | Some (step, scale, line) =>
          let scale := if negb (step =? st_msec) && negb is_sec then scale * 1000 else scale in
          if NGX_MAX_INT_T_VALUE <? value * scale + total then Some NGX_ERROR
          else times is_sec valid 0 (total + value * scale) step (skip_spaces line)
      end.
Proof.
  intros Hv Ht. unfold times at 1. cbn [time_loop length]. unfold digitb.
  destruct ((#"0" <=? c) && (c <=? #"9")) eqn:Ec.
  - by rewrite cutoff_exact by (unfold NGX_MAX_INT_T_VALUE; lia).
  - destruct (time_unit is_sec step c line) as [[[step' scale] line']|] eqn:Eu; [|done].
    pose proof (time_unit_scale _ _ _ _ _ _ _ Eu) as [Hs _]. apply time_unit_length in Eu.
    pose proof (skip_spaces_length line') as Hl. cbv zeta.
    assert (forall sc mx, 0 < sc -> mx = NGX_MAX_INT_T_VALUE / sc ->
      (if mx <? value then Some NGX_ERROR
       else if NGX_MAX_INT_T_VALUE - value * sc <? total then Some NGX_ERROR
       else time_loop (S (length line)) is_sec valid 0 (total + value * sc) step' (skip_spaces line')) =
      (if NGX_MAX_INT_T_VALUE <? value * sc + total
       then Some NGX_ERROR
       else times is_sec valid 0 (total + value * sc) step' (skip_spaces line'))) as Hgo.
    { intros sc mx Hsc ->. rewrite div_exact by (unfold NGX_MAX_INT_T_VALUE; lia).
      destruct (NGX_MAX_INT_T_VALUE <? value * sc) eqn:Eo.
      { by assert ((NGX_MAX_INT_T_VALUE <? value * sc + total) = true) as -> by lia. }
      assert ((NGX_MAX_INT_T_VALUE - value * sc <? total) = (NGX_MAX_INT_T_VALUE <? value * sc + total))
        as -> by lia.
      destruct (NGX_MAX_INT_T_VALUE <? value * sc + total); [done|]. apply time_loop_fuel; lia. }
    destruct (negb (step' =? st_msec) && negb is_sec); apply Hgo; [lia| |done..].
    by rewrite Zdiv.Zdiv_Zdiv by lia.
Qed.

(** A result of the loop is an error or fits in [ngx_int_t]. *)
Lemma times_range n : forall is_sec valid value total step line,
  (length line <= n)%nat -> 0 <= value <= NGX_MAX_INT_T_VALUE -> 0 <= total <= NGX_MAX_INT_T_VALUE ->
  exists r, times is_sec valid value total step line = Some r /\
            (r = NGX_ERROR \/ 0 <= r <= NGX_MAX_INT_T_VALUE).
Proof.
  induction n as [|n IH]; intros is_sec valid value total step [|c line] Hl Hv Ht; cbn [length] in Hl; try lia.
  1-2: unfold times; cbn [time_loop length]; case_ifs; eexists; (split; [done|]); 
    try (by left); right; change (NGX_MAX_INT_T_VALUE / 1000) with 9223372036854775 in *;
    unfold NGX_MAX_INT_T_VALUE in *; lia.
  rewrite times_cons by lia. destruct (digitb c) eqn:Ec.
  - unfold digitb in Ec. destruct (_ <? _) eqn:Eo; [eauto|]. apply IH; [lia|lia|lia].
  - destruct (time_unit is_sec step c line) as [[[step' scale] line']|] eqn:Eu; [|eauto].
    pose proof (time_unit_scale _ _ _ _ _ _ _ Eu) as [Hs _]. apply time_unit_length in Eu.
    pose proof (skip_spaces_length line'). cbv zeta.
    set (sc := if negb (step' =? st_msec) && negb is_sec then scale * 1000 else scale).
    assert (0 < sc) by (subst sc; case_ifs; lia).
    destruct (_ <? _) eqn:Eo; [eauto|]. apply IH; [lia|lia|nia].
Qed.

(** [ngx_parse_time] returns on every string, and what it returns is
    [NGX_ERROR] or a time that fits in [ngx_int_t]. *)
Theorem ngx_parse_time_total line is_sec :
  exists r, ngx_parse_time line is_sec = Some r /\ (r = NGX_ERROR \/ 0 <= r <= NGX_MAX_INT_T_VALUE).
Proof. by apply (times_range (length line)). Qed.

(** *** The times a configuration writes *)

Inductive tunit := Years | Months | Weeks | Days | Hours | Minutes | Seconds | Milliseconds.

Definition tunit_text (u : tunit) : list Z :=
  bytes match u with
  | Years => "y" | Months => "M" | Weeks => "w" | Days => "d" | Hours => "h" | Minutes => "m"
  | Seconds => "s" | Milliseconds => "ms"
  end.

Definition tunit_step (u : tunit) : Z :=
  match u with
  | Years => 1 | Months => 2 | Weeks => 3 | Days => 4 | Hours => 5 | Minutes => 6
  | Seconds => 7 | Milliseconds => 8
  end.

(** In seconds, or in milliseconds. *)
Definition tunit_scale (is_sec : bool) (u : tunit) : Z :=
  let k := if is_sec then 1 else 1000 in
  match u with
  | Years => 31536000 * k | Months => 2592000 * k | Weeks => 604800 * k | Days => 86400 * k
  | Hours => 3600 * k | Minutes => 60 * k | Seconds => k | Milliseconds => 1
  end.

(** [30m ]: a number, its unit, and the spaces after it. *)
Record tpart := TPart { tp_digits : list Z; tp_unit : tunit; tp_spaces : nat }.

Definition tpart_text (t : tpart) : list Z :=
  tp_digits t ++ tunit_text (tp_unit t) ++ repeat #" " (tp_spaces t).

Definition digits_ok (ds : list Z) : Prop := ds <> [] /\ forallb digitb ds = true.

(** Units become smaller from one part to the next, beginning after [step]. *)
Fixpoint ascending (step : Z) (ts : list tpart) : bool :=
  match ts with
  | [] => true
  | t :: ts => (step <? tunit_step (tp_unit t)) && ascending (tunit_step (tp_unit t)) ts
  end.

Definition first_step (is_sec : bool) : Z := if is_sec then st_start else st_month.

Definition unit_ok (is_sec : bool) (u : tunit) : bool :=
  negb (is_sec && match u with Milliseconds => true | _ => false end).

Definition tpart_value (is_sec : bool) (t : tpart) : Z :=
  dec_value (tp_digits t) * tunit_scale is_sec (tp_unit t).

Fixpoint tparts_value (is_sec : bool) (ts : list tpart) : Z :=
  match ts with
  | [] => 0
  | t :: ts => tpart_value is_sec t + tparts_value is_sec ts
  end.

(** What can follow a part: nothing, or a number. *)
Definition number_first (line : list Z) : Prop :=
  match line with [] => True | c :: _ => digitb c = true end.

Lemma times_digits is_sec ds : forall valid value total step line,
  forallb digitb ds = true -> 0 <= value -> 0 <= total ->
  times is_sec valid value total step (ds ++ line) =
    if bool_decide (ds <> []) && (NGX_MAX_INT_T_VALUE <? dec_from value ds) then Some NGX_ERROR
    else times is_sec (valid || bool_decide (ds <> [])) (dec_from value ds) total step line.
Proof.
  induction ds as [|c ds IH]; intros valid value total step line H Hv Ht.
  - cbn [app]. change (dec_from value []) with value. by rewrite orb_false_r.
  - cbn [app forallb] in *. apply andb_true_iff in H as [Hc H]. rewrite times_cons, Hc by done.
    rewrite (bool_decide_true (c :: ds <> [])) by done. cbn [andb]. rewrite orb_true_r.
    change (dec_from value (c :: ds)) with (dec_from (value * 10 + (c - #"0")) ds).
    unfold digitb in Hc. pose proof (dec_from_grows ds (value * 10 + (c - 48)) ltac:(lia) H).
    destruct (_ <? value * 10 + _) eqn:Eo.
    + by assert ((NGX_MAX_INT_T_VALUE <? dec_from (value * 10 + (c - 48)) ds) = true) as -> by lia.
    + rewrite IH by (done || lia). rewrite orb_true_l.
      destruct (bool_decide (ds <> [])) eqn:Ed; [done|]. cbn [andb].
      apply bool_decide_eq_false in Ed. destruct ds; [|by destruct Ed].
      change (dec_from (value * 10 + (c - 48)) []) with (value * 10 + (c - 48)). by rewrite Eo.
Qed.

Lemma skip_spaces_repeat n line :
  number_first line -> skip_spaces (repeat #" " n ++ line) = line.
Proof.
  intros H. induction n as [|n IH]; [|exact IH]. destruct line as [|c line]; [done|].
  unfold number_first, digitb in H. cbn. by assert ((c =? 32) = false) as -> by lia.
Qed.

Definition tunit_char (u : tunit) : Z :=
  match u with
  | Years => #"y" | Months => #"M" | Weeks => #"w" | Days => #"d" | Hours => #"h"
  | Minutes | Milliseconds => #"m" | Seconds => #"s"
  end.

(** The [switch] on a unit, what follows it not being an "s". *)
Lemma time_unit_text is_sec u step l :
  0 <= step -> match l with c :: _ => (c =? #"s") = false | [] => True end ->
  time_unit is_sec step (tunit_char u) (tail (tunit_text u) ++ l) =
    if (step <? tunit_step u) && unit_ok is_sec u
    then Some (tunit_step u, match u with Milliseconds => 1 | _ => tunit_scale true u end, l)
    else None.
Proof.
  intros Hs Hl. unfold time_unit, unit_ok, st_start, st_year, st_month, st_week, st_day, st_hour,
    st_min, st_sec, st_msec.
  destruct u; (match goal with |- context [tail (tunit_text ?u)] =>
    let t := eval vm_compute in (tail (tunit_text u)) in change (tail (tunit_text u)) with t end);
  unfold tunit_char, tunit_step, tunit_scale; cbn [Z.eqb Pos.eqb app];
  try (destruct l as [|c l]; [|rewrite Hl]); destruct is_sec; cbn [negb andb orb]; case_ifs; done || lia.
Qed.

(** The unit of a part, at its place in the [switch]. *)
Lemma times_unit is_sec u n valid value total step line :
  0 <= value -> 0 <= total -> 0 <= step -> number_first line ->
  times is_sec valid value total step (tunit_text u ++ repeat #" " n ++ line) =
    if (step <? tunit_step u) && unit_ok is_sec u then
      if NGX_MAX_INT_T_VALUE <? value * tunit_scale is_sec u + total then Some NGX_ERROR
      else times is_sec valid 0 (total + value * tunit_scale is_sec u) (tunit_step u) line
    else Some NGX_ERROR.
Proof.
  intros Hv Ht Hst Hl. pose proof (skip_spaces_repeat n line Hl) as Hs.
  assert (match repeat #" " n ++ line with c :: _ => (c =? #"s") = false | [] => True end) as Hns.
  { destruct n; [|done]. destruct line as [|c line]; [done|]. unfold number_first, digitb in Hl.
    cbn. lia. }
  revert Hs Hns. generalize (repeat 32 n ++ line) as l. intros l Hs Hns.
  assert (tunit_text u ++ l = tunit_char u :: (tail (tunit_text u) ++ l)) as -> by (by destruct u).
  rewrite times_cons, time_unit_text by done.
  assert (digitb (tunit_char u) = false) as -> by (by destruct u).
  destruct ((step <? tunit_step u) && unit_ok is_sec u) eqn:E; [|done]. cbv zeta. rewrite Hs.
  unfold unit_ok in E.
  assert ((if negb (tunit_step u =? st_msec) && negb is_sec
           then match u with Milliseconds => 1 | _ => tunit_scale true u end * 1000
           else match u with Milliseconds => 1 | _ => tunit_scale true u end) = tunit_scale is_sec u)
    as -> by (by destruct u, is_sec).
  done.
Qed.

Definition tpart_ok (is_sec : bool) (t : tpart) : bool :=
  negb (bool_decide (tp_digits t = [])) && forallb digitb (tp_digits t) && unit_ok is_sec (tp_unit t).

Fixpoint last_step (step : Z) (ts : list tpart) : Z :=
  match ts with [] => step | t :: ts => last_step (tunit_step (tp_unit t)) ts end.

Lemma dec_value_nonneg ds : forallb digitb ds = true -> 0 <= dec_value ds.
Proof. intros H. by apply (dec_from_grows ds 0). Qed.

Lemma tunit_scale_pos is_sec u : 0 < tunit_scale is_sec u.
Proof. destruct u, is_sec; cbn; lia. Qed.

Lemma number_first_part t line :
  tp_digits t <> [] -> forallb digitb (tp_digits t) = true -> number_first (tpart_text t ++ line).
Proof.
  unfold tpart_text. destruct (tp_digits t) as [|c ds]; [done|]. cbn [forallb app number_first].
  intros _ H. by apply andb_true_iff in H as [H _].
Qed.

(** One part: it adds its value, or the time overflows, or its unit is out of order. *)
Lemma times_part is_sec t valid total step line :
  tp_digits t <> [] -> forallb digitb (tp_digits t) = true -> 0 <= total -> 0 <= step ->
  number_first line ->
  times is_sec valid 0 total step (tpart_text t ++ line) =
    if (step <? tunit_step (tp_unit t)) && unit_ok is_sec (tp_unit t)
       && (total + tpart_value is_sec t <=? NGX_MAX_INT_T_VALUE)
    then times is_sec true 0 (total + tpart_value is_sec t) (tunit_step (tp_unit t)) line
    else Some NGX_ERROR.
Proof.
  intros Hne Hd Ht Hs Hl. unfold tpart_text, tpart_value. rewrite <-!app_assoc.
  pose proof (dec_value_nonneg _ Hd) as Hp. rewrite times_digits by done.
  fold (dec_value (tp_digits t)). rewrite (bool_decide_true (tp_digits t <> [])) by done.
  rewrite orb_true_r. cbn [andb]. rewrite times_unit by done.
  set (sc := tunit_scale is_sec (tp_unit t)). assert (0 < sc) by apply tunit_scale_pos.
  destruct (NGX_MAX_INT_T_VALUE <? dec_value (tp_digits t)) eqn:Eo.
  { assert ((total + dec_value (tp_digits t) * sc <=? NGX_MAX_INT_T_VALUE) = false) as -> by nia.
    by rewrite andb_false_r. }
  destruct ((step <? tunit_step (tp_unit t)) && unit_ok is_sec (tp_unit t)); [|done]. cbn [andb].
  rewrite (Z.add_comm total). rewrite Z.leb_antisym. by destruct (_ <? _ + total).
Qed.

Lemma times_parts is_sec ts : forall valid total step line,
  forallb (tpart_ok is_sec) ts = true -> ascending step ts = true ->
  0 <= total <= NGX_MAX_INT_T_VALUE -> 0 <= step -> number_first line ->
  0 <= tparts_value is_sec ts /\
  times is_sec valid 0 total step (concat (map tpart_text ts) ++ line) =
    if total + tparts_value is_sec ts <=? NGX_MAX_INT_T_VALUE
    then times is_sec (valid || negb (bool_decide (ts = []))) 0 (total + tparts_value is_sec ts)
           (last_step step ts) line
    else Some NGX_ERROR.
Proof.
  induction ts as [|t ts IH]; intros valid total step line Hok Ha Ht Hs Hl;
    cbn [forallb ascending concat map tparts_value last_step] in *.
  - cbn [app]. rewrite Z.add_0_r, orb_false_r.
    by assert ((total <=? NGX_MAX_INT_T_VALUE) = true) as -> by lia.
  - apply andb_true_iff in Hok as [Ho Hok]. apply andb_true_iff in Ha as [Hst Ha].
    unfold tpart_ok in Ho. apply andb_true_iff in Ho as [Ho Hu]. apply andb_true_iff in Ho as [Hne Hd].
    apply negb_true_iff, bool_decide_eq_false in Hne.
    pose proof (dec_value_nonneg _ Hd) as Hp. pose proof (tunit_scale_pos is_sec (tp_unit t)) as Hsc.
    assert (0 <= tpart_value is_sec t) by (unfold tpart_value; nia).
    assert (number_first (concat (map tpart_text ts) ++ line)) as Hl'.
    { destruct ts as [|t' ts]; [done|]. cbn [map concat forallb] in *. rewrite <-app_assoc.
      apply andb_true_iff in Hok as [Ho _]. unfold tpart_ok in Ho.
      apply andb_true_iff in Ho as [Ho _]. apply andb_true_iff in Ho as [Hne' Hd'].
      apply negb_true_iff, bool_decide_eq_false in Hne'. by apply number_first_part. }
    rewrite <-app_assoc, times_part by (done || lia). rewrite Hst, Hu. cbn [andb].
    assert (0 <= tunit_step (tp_unit t)) by (destruct (tp_unit t); cbn; lia).
    assert (0 <= tparts_value is_sec ts) as Hv.
    { by apply (IH true 0 (tunit_step (tp_unit t)) []). }
    split; [lia|]. rewrite (bool_decide_false (t :: ts = [])), orb_true_r by done.
    destruct (total + tpart_value is_sec t <=? NGX_MAX_INT_T_VALUE) eqn:E.
    + destruct (IH true (total + tpart_value is_sec t) (tunit_step (tp_unit t)) line) as [_ ->];
        [done|done|lia|done|done|]. by rewrite Z.add_assoc.
    + by assert ((total + (tpart_value is_sec t + tparts_value is_sec ts) <=? NGX_MAX_INT_T_VALUE)
        = false) as -> by lia.
Qed.

(** The end of a time: a number without unit is in seconds. *)
Lemma times_rest is_sec valid total step ds :
  forallb digitb ds = true -> 0 <= total ->
  times is_sec valid 0 total step ds =
    Some (if valid || negb (bool_decide (ds = []))
          then fits (total + dec_value ds * (if is_sec then 1 else 1000)) else NGX_ERROR).
Proof.
  intros Hd Ht. pose proof (dec_value_nonneg _ Hd) as Hp.
  rewrite <-(app_nil_r ds) at 1. rewrite times_digits by done. fold (dec_value ds).
  rewrite bool_decide_not. unfold times. cbn [time_loop length].
  destruct (bool_decide (ds = [])) eqn:E; cbn [negb andb].
  - apply bool_decide_eq_true in E as ->. change (dec_value []) with 0. rewrite orb_false_r.
    destruct valid, is_sec; cbn [negb andb]; try done; rewrite ?Z.sub_0_r, ?Z.add_0_r; unfold fits;
      rewrite Z.leb_antisym; by destruct (_ <? total).
  - rewrite orb_true_r. cbn [negb].
    destruct (NGX_MAX_INT_T_VALUE <? dec_value ds) eqn:Eo.
    { rewrite fits_over; [done|]. destruct is_sec; lia. }
    assert ((NGX_MAX_INT_T_VALUE / 1000 <? dec_value ds) = (NGX_MAX_INT_T_VALUE <? dec_value ds * 1000))
      as -> by (apply div_exact; [lia|unfold NGX_MAX_INT_T_VALUE; lia]).
    destruct is_sec; cbn [negb andb]; unfold fits; case_ifs; f_equal; lia.
Qed.

(** A time written as parts with units that become smaller, then possibly
    a number of seconds without unit, is the sum of its parts: years of 365
    days, months of 30, in seconds or, with [is_sec] off, in milliseconds (then
    no years or months, but "ms").  The result is [NGX_ERROR] exactly when the
    sum does not fit in [ngx_int_t]. *)
Theorem ngx_parse_time_value is_sec ts rest :
  forallb (tpart_ok is_sec) ts = true -> ascending (first_step is_sec) ts = true ->
  forallb digitb rest = true -> ~ (ts = [] /\ rest = []) ->
  ngx_parse_time (concat (map tpart_text ts) ++ rest) is_sec =
    Some (fits (tparts_value is_sec ts + dec_value rest * (if is_sec then 1 else 1000))).
Proof.
  intros Hok Ha Hr Hne. pose proof (dec_value_nonneg _ Hr).
  assert (number_first rest) as Hl.
  { destruct rest as [|c rest]; [done|]. cbn in *. by apply andb_true_iff in Hr as [Hr _]. }
  destruct (times_parts is_sec ts false 0 (first_step is_sec) rest Hok Ha) as [Hp E];
    [unfold NGX_MAX_INT_T_VALUE; lia|by destruct is_sec|done|].
  unfold ngx_parse_time. fold (first_step is_sec).
  change (times is_sec false 0 0 (first_step is_sec) (concat (map tpart_text ts) ++ rest) =
    Some (fits (tparts_value is_sec ts + dec_value rest * (if is_sec then 1 else 1000)))).
  rewrite E, Z.add_0_l. destruct (tparts_value is_sec ts <=? NGX_MAX_INT_T_VALUE) eqn:Eo.
  - rewrite times_rest by done. cbn [orb].
    destruct (bool_decide (ts = [])) eqn:E1; [|done]. apply bool_decide_eq_true in E1.
    rewrite bool_decide_false; [done|tauto].
  - rewrite fits_over; [done|]. destruct is_sec; lia.
Qed.

Lemma ngx_parse_time_value_witness :
  ngx_parse_time (concat (map tpart_text [TPart (bytes "1") Hours 1; TPart (bytes "30") Minutes 0])
                  ++ bytes "5") true = Some 5405.
Proof.
  rewrite (ngx_parse_time_value true
    [TPart (bytes "1") Hours 1; TPart (bytes "30") Minutes 0] (bytes "5"));
    [reflexivity|reflexivity|reflexivity|reflexivity|by intros [? _]].
Defined.

(** A unit that is not smaller than the one before it ("5m 1h", "1s2s"),
    "ms" where seconds are wanted, and years or months where milliseconds are,
    make [NGX_ERROR], whatever follows. *)
Theorem ngx_parse_time_order is_sec ts t line :
  forallb (tpart_ok is_sec) ts = true -> ascending (first_step is_sec) ts = true ->
  digits_ok (tp_digits t) -> number_first line ->
  (last_step (first_step is_sec) ts <? tunit_step (tp_unit t)) && unit_ok is_sec (tp_unit t) = false ->
  ngx_parse_time (concat (map tpart_text ts) ++ tpart_text t ++ line) is_sec = Some NGX_ERROR.
Proof.
  intros Hok Ha [Hne Hd] Hl Ho.
  destruct (times_parts is_sec ts false 0 (first_step is_sec) (tpart_text t ++ line) Hok Ha) as [Hp E];
    [unfold NGX_MAX_INT_T_VALUE; lia|by destruct is_sec|by apply number_first_part|].
  unfold ngx_parse_time. fold (first_step is_sec).
  change (times is_sec false 0 0 (first_step is_sec)
    (concat (map tpart_text ts) ++ tpart_text t ++ line) = Some NGX_ERROR).
  rewrite E. destruct (_ <=? _); [|done]. rewrite times_part; [by rewrite Ho|done|done|lia| |done].
  clear. assert (0 <= first_step is_sec) as H by (by destruct is_sec). revert H.
  generalize (first_step is_sec). induction ts as [|t ts IH]; intros s H; [done|]. cbn. apply IH.
  destruct (tp_unit t); cbn; lia.
Qed.

Lemma ngx_parse_time_order_witness :
  ngx_parse_time (concat (map tpart_text [TPart (bytes "5") Minutes 1]) ++
                  tpart_text (TPart (bytes "1") Hours 0) ++ bytes "7x") true = Some NGX_ERROR.
Proof.
  apply (ngx_parse_time_order true [TPart (bytes "5") Minutes 1] (TPart (bytes "1") Hours 0) (bytes "7x"));
    [reflexivity|reflexivity|by split|reflexivity|reflexivity].
Defined.

(** A unit without a number counts for nothing, and is not an error. *)
Example unit_without_number : ngx_parse_time (bytes "h1") true = Some 1.
Proof. vm_compute. reflexivity. Qed.
