(* ===== verification/Strings.v ===== *)
(** * Comparing and searching strings

    The comparisons and the searches of [src/core/ngx_string.c], and its bounded
    copy.  A [u_char *]
    is the list of the bytes from it to the end of its region: running off the
    list is a read outside the region, and makes the result [None].  A
    comparison returns the difference the code returns; a search returns the
    offset of the match, [None] inside the outer [Some] being [NULL]. *)

From S2P Require Import Prelude Fsm RequestLine ComplexUri Sprintf.

(** ** Comparisons *)

(** [(c1 >= 'A' && c1 <= 'Z') ? (c1 | 0x20) : c1] *)
Definition to_lower (c : Z) : Z := if (#"A" <=? c) && (c <=? #"Z") then Z.lor c 0x20 else c.

(** [while (--n) {...}] of [ngx_cpystrn], [n] being the value after the
    decrement; the bytes written from [dst] on. *)
Fixpoint cpystrn_loop (n : nat) (src : list Z) : option (list Z) :=
  match n with
  | O => Some [0]
  | S n =>
      match src with
      | [] => None
      | c :: src => if c =? 0 then Some [0] else cons c <$> cpystrn_loop n src
      end
  end.

Definition ngx_cpystrn (src : list Z) (n : nat) : option (list Z) :=
  match n with
  | O => Some []
  | S n => cpystrn_loop n src
  end.

Fixpoint ngx_strcasecmp (s1 s2 : list Z) : option Z :=
  match s1, s2 with
  | c1 :: s1, c2 :: s2 =>
      let c1 := to_lower c1 in
      let c2 := to_lower c2 in
      if c1 =? c2 then
        if negb (c1 =? 0) then ngx_strcasecmp s1 s2 else Some 0
      else Some (c1 - c2)
  | _, _ => None
  end.

Fixpoint ngx_strncasecmp (s1 s2 : list Z) (n : nat) {struct n} : option Z :=
  match n with
  | O => Some 0
  | S n =>
      match s1, s2 with
      | c1 :: s1, c2 :: s2 =>
          let c1 := to_lower c1 in
          let c2 := to_lower c2 in
          if c1 =? c2 then
            if negb (c1 =? 0) then ngx_strncasecmp s1 s2 n else Some 0
          else Some (c1 - c2)
      | _, _ => None
      end
  end.

(** [strncmp] of the C library, of which the code uses the sign. *)
Fixpoint ngx_strncmp (s1 s2 : list Z) (n : nat) {struct n} : option Z :=
  match n with
  | O => Some 0
  | S n =>
      match s1, s2 with
      | c1 :: s1, c2 :: s2 =>
          if c1 =? c2 then if negb (c1 =? 0) then ngx_strncmp s1 s2 n else Some 0
          else Some (c1 - c2)
      | _, _ => None
      end
  end.

(** [for ( ;; ) {...}] of [ngx_rstrncmp], from [n] down. *)
Fixpoint rstrncmp_loop (s1 s2 : list Z) (n : nat) : option Z :=
  match s1 !! n, s2 !! n with
  | Some c1, Some c2 =>
      if negb (c1 =? c2) then Some (c1 - c2)
      else match n with O => Some 0 | S n => rstrncmp_loop s1 s2 n end
  | _, _ => None
  end.

Definition ngx_rstrncmp (s1 s2 : list Z) (n : nat) : option Z :=
  match n with O => Some 0 | S n => rstrncmp_loop s1 s2 n end.

(** [if (c1 >= 'a' && c1 <= 'z') { c1 -= 'a' - 'A'; }] *)
Definition to_upper (c : Z) : Z := if (#"a" <=? c) && (c <=? #"z") then u8 (c - (#"a" - #"A")) else c.

Fixpoint rstrncasecmp_loop (s1 s2 : list Z) (n : nat) : option Z :=
  match s1 !! n, s2 !! n with
  | Some c1, Some c2 =>
      let c1 := to_upper c1 in
      let c2 := to_upper c2 in
      if negb (c1 =? c2) then Some (c1 - c2)
      else match n with O => Some 0 | S n => rstrncasecmp_loop s1 s2 n end
  | _, _ => None
  end.

Definition ngx_rstrncasecmp (s1 s2 : list Z) (n : nat) : option Z :=
  match n with O => Some 0 | S n => rstrncasecmp_loop s1 s2 n end.

(** [memcmp] of the C library, of which the code uses the sign. *)
Fixpoint ngx_memcmp (s1 s2 : list Z) (n : nat) {struct n} : option Z :=
  match n with
  | O => Some 0
  | S n =>
      match s1, s2 with
      | c1 :: s1, c2 :: s2 => if c1 =? c2 then ngx_memcmp s1 s2 n else Some (c1 - c2)
      | _, _ => None
      end
  end.

Definition ngx_memn2cmp (s1 s2 : list Z) (n1 n2 : nat) : option Z :=
  let '(n, z) := if (n1 <=? n2)%nat then (n1, -1) else (n2, 1) in
  match ngx_memcmp s1 s2 n with
  | None => None
  | Some m => if negb (m =? 0) || (n1 =? n2)%nat then Some m else Some z
  end.

(** [c1 = (c1 == '.') ? ' ' : c1;] *)
Definition dns_char (c : Z) : Z := if c =? #"." then #" " else c.

Fixpoint ngx_dns_strcmp (s1 s2 : list Z) : option Z :=
  match s1, s2 with
  | c1 :: s1, c2 :: s2 =>
      let c1 := to_lower c1 in
      let c2 := to_lower c2 in
      if c1 =? c2 then
        if negb (c1 =? 0) then ngx_dns_strcmp s1 s2 else Some 0
      else Some (dns_char c1 - dns_char c2)
  | _, _ => None
  end.

(** [c1 = (c1 == '/') ? 0 : c1;] *)
Definition slash_char (c : Z) : Z := if c =? #"/" then 0 else c.

Fixpoint ngx_filename_cmp (s1 s2 : list Z) (n : nat) {struct n} : option Z :=
  match n with
  | O => Some 0
  | S n =>
      match s1, s2 with
      | c1 :: s1, c2 :: s2 =>
          if c1 =? c2 then
            if negb (c1 =? 0) then ngx_filename_cmp s1 s2 n else Some 0
          else if (c1 =? 0) || (c2 =? 0) then Some (c1 - c2)
          else Some (slash_char c1 - slash_char c2)
      | _, _ => None
      end
  end.

(** ** Searches *)

(** Both [do] loops of [ngx_strnstr], [s1] pointing to the byte at offset [p]:
    [c2] is the first byte of the pattern, [s2] the rest, [n] its length. *)
Fixpoint strnstr_loop (s1 : list Z) (c2 : Z) (s2 : list Z) (n len : nat) (p : Z)
    : option (option Z) :=
  match len with
  | O => Some None
  | S len =>
      match s1 with
      | [] => None
      | c1 :: s1 =>
          if c1 =? 0 then Some None
          else if negb (c1 =? c2) then strnstr_loop s1 c2 s2 n len (p + 1)
          else if (len <? n)%nat then Some None
          else
            match ngx_strncmp s1 s2 n with
            | None => None
            | Some m => if negb (m =? 0) then strnstr_loop s1 c2 s2 n len (p + 1) else Some (Some p)
            end
      end
  end.

(** [s2] with its NUL. *)
Definition ngx_strnstr (s1 s2 : list Z) (len : nat) : option (option Z) :=
  match s2 with
  | [] => None
  | c2 :: s2 => strnstr_loop s1 c2 s2 (length (c_string s2)) len 0
  end.

Fixpoint strstrn_loop (s1 : list Z) (c2 : Z) (s2 : list Z) (n : nat) (p : Z) : option (option Z) :=
  match s1 with
  | [] => None
  | c1 :: s1 =>
      if c1 =? 0 then Some None
      else if negb (c1 =? c2) then strstrn_loop s1 c2 s2 n (p + 1)
      else
        match ngx_strncmp s1 s2 n with
        | None => None
        | Some m => if negb (m =? 0) then strstrn_loop s1 c2 s2 n (p + 1) else Some (Some p)
        end
  end.

Definition ngx_strstrn (s1 s2 : list Z) (n : nat) : option (option Z) :=
  match s2 with
  | [] => None
  | c2 :: s2 => strstrn_loop s1 c2 s2 n 0
  end.

Fixpoint strcasestrn_loop (s1 : list Z) (c2 : Z) (s2 : list Z) (n : nat) (p : Z)
    : option (option Z) :=
  match s1 with
  | [] => None
  | c1 :: s1 =>
      if c1 =? 0 then Some None
      else if negb (to_lower c1 =? c2) then strcasestrn_loop s1 c2 s2 n (p + 1)
      else
        match ngx_strncasecmp s1 s2 n with
        | None => None
        | Some m => if negb (m =? 0) then strcasestrn_loop s1 c2 s2 n (p + 1) else Some (Some p)
        end
  end.

Definition ngx_strcasestrn (s1 s2 : list Z) (n : nat) : option (option Z) :=
  match s2 with
  | [] => None
  | c2 :: s2 => strcasestrn_loop s1 (to_lower c2) s2 n 0
  end.

(** [s1] is at offset [p]; [last] is the offset [last - n]. *)
Fixpoint strlcasestrn_loop (s1 : list Z) (last : Z) (c2 : Z) (s2 : list Z) (n : nat) (p : Z)
    : option (option Z) :=
  if last <=? p then Some None
  else
    match s1 with
    | [] => None
    | c1 :: s1 =>
        if negb (to_lower c1 =? c2) then strlcasestrn_loop s1 last c2 s2 n (p + 1)
        else
          match ngx_strncasecmp s1 s2 n with
          | None => None
          | Some m => if negb (m =? 0) then strlcasestrn_loop s1 last c2 s2 n (p + 1)
                      else Some (Some p)
          end
    end.

Definition ngx_strlcasestrn (s1 : list Z) (last : Z) (s2 : list Z) (n : nat) : option (option Z) :=
  match s2 with
  | [] => None
  | c2 :: s2 => strlcasestrn_loop s1 (last - Z.of_nat n) (to_lower c2) s2 n 0
  end.

Example search_examples :
  ngx_strnstr (bytes "abcabd") (bytes "abd" ++ [0]) 6 = Some (Some 3) /\
  ngx_strnstr (bytes "abcabd") (bytes "abd" ++ [0]) 5 = Some None /\
  ngx_strcasestrn (bytes "x; Max-Age=5" ++ [0]) (bytes "max-age=") 7 = Some (Some 3) /\
  ngx_strlcasestrn (bytes "Gecko MSIE 6.") 13 (bytes "msie ") 4 = Some (Some 6) /\
  ngx_dns_strcmp (bytes "www.A.com" ++ [0]) (bytes "www-a.com" ++ [0]) = Some (32 - 45).
Proof. vm_compute. done. Qed.

(** ** The orders *)

(** The lexicographic order, as the sign a comparison returns. *)
Fixpoint lex (a b : list Z) : Z :=
  match a, b with
  | [], [] => 0
  | [], _ => -1
  | _, [] => 1
  | x :: a, y :: b => if x <? y then -1 else if y <? x then 1 else lex a b
  end.

(** The loop the comparisons are: characters mapped by [f], [d] the result
    where they differ, at most [n] of them. *)
Fixpoint cmp_n (f : Z -> Z) (d : Z -> Z -> Z) (n : nat) (s1 s2 : list Z) {struct n} : option Z :=
  match n with
  | O => Some 0
  | S n =>
      match s1, s2 with
      | c1 :: s1, c2 :: s2 =>
          if f c1 =? f c2 then if negb (f c1 =? 0) then cmp_n f d n s1 s2 else Some 0
          else Some (d (f c1) (f c2))
      | _, _ => None
      end
  end.

(** One that stops at a NUL only: more than [s1] is never needed. *)
Lemma cmp_n_strcasecmp s1 : forall s2 n, (length s1 < n)%nat ->
  ngx_strcasecmp s1 s2 = cmp_n to_lower Z.sub n s1 s2.
Proof.
  induction s1 as [|c1 s1 IH]; intros [|c2 s2] [|n] H; cbn in *; try done; try lia.
  rewrite (IH s2 n) by lia. done.
Qed.

Lemma cmp_n_dns s1 : forall s2 n, (length s1 < n)%nat ->
  ngx_dns_strcmp s1 s2 = cmp_n to_lower (fun x y => dns_char x - dns_char y) n s1 s2.
Proof.
  induction s1 as [|c1 s1 IH]; intros [|c2 s2] [|n] H; cbn in *; try done; try lia.
  rewrite (IH s2 n) by lia. done.
Qed.

Lemma cmp_n_strncasecmp n : forall s1 s2, ngx_strncasecmp s1 s2 n = cmp_n to_lower Z.sub n s1 s2.
Proof. induction n as [|n IH]; intros [|c1 s1] [|c2 s2]; cbn; rewrite ?IH; done. Qed.

Lemma cmp_n_strncmp n : forall s1 s2, ngx_strncmp s1 s2 n = cmp_n (fun c => c) Z.sub n s1 s2.
Proof. induction n as [|n IH]; intros [|c1 s1] [|c2 s2]; cbn; rewrite ?IH; done. Qed.

Definition filename_diff (x y : Z) : Z :=
  if (x =? 0) || (y =? 0) then x - y else slash_char x - slash_char y.

Lemma cmp_n_filename n : forall s1 s2,
  ngx_filename_cmp s1 s2 n = cmp_n (fun c => c) filename_diff n s1 s2.
Proof.
  induction n as [|n IH]; intros [|c1 s1] [|c2 s2]; cbn; rewrite ?IH; try done.
  unfold filename_diff. by destruct ((c1 =? 0) || (c2 =? 0)).
Qed.

(** What makes [cmp_n] the lexicographic order of the keys [k]. *)
Record keyed (f : Z -> Z) (d : Z -> Z -> Z) (k : Z -> Z) (P : Z -> Prop) : Prop := {
  keyed_zero : f 0 = 0;
  keyed_nonzero : forall c, P c -> f c <> 0;
  keyed_end : forall c, P c -> d 0 (f c) < 0 < d (f c) 0;
  keyed_same : forall c c', P c -> P c' -> f c = f c' -> k c = k c';
  keyed_diff : forall c c', P c -> P c' -> f c <> f c' ->
    k c <> k c' /\ (k c < k c' <-> d (f c) (f c') < 0) /\ d (f c) (f c') <> 0 }.

Lemma cmp_n_lex f d k P : keyed f d k P -> forall n a b x y, Forall P a -> Forall P b ->
  exists r, cmp_n f d n (a ++ 0 :: x) (b ++ 0 :: y) = Some r /\
            Z.sgn r = lex (map k (take n a)) (map k (take n b)).
Proof.
  intros K. induction n as [|n IH]; intros a b x y Ha Hb; [by exists 0|].
  destruct a as [|c a], b as [|c' b]; cbn [app cmp_n take map lex]; rewrite ?(keyed_zero _ _ _ _ K).
  - by exists 0.
  - inversion Hb; subst. pose proof (keyed_nonzero _ _ _ _ K c' ltac:(done)).
    assert ((0 =? f c') = false) as -> by lia. eexists; split; [done|].
    pose proof (keyed_end _ _ _ _ K c' ltac:(done)). lia.
  - inversion Ha; subst. pose proof (keyed_nonzero _ _ _ _ K c ltac:(done)).
    assert ((f c =? 0) = false) as -> by lia. eexists; split; [done|].
    pose proof (keyed_end _ _ _ _ K c ltac:(done)). lia.
  - inversion Ha; subst. inversion Hb; subst. destruct (f c =? f c') eqn:E.
    + pose proof (keyed_nonzero _ _ _ _ K c ltac:(done)).
      assert ((f c =? 0) = false) as -> by lia. cbn [negb].
      rewrite (keyed_same _ _ _ _ K c c') by (done || lia). rewrite Z.ltb_irrefl. by apply IH.
    + destruct (keyed_diff _ _ _ _ K c c') as (Hk & Hlt & Hd); [done|done|lia|].
      eexists; split; [done|]. destruct (k c <? k c') eqn:E1; [lia|].
      assert ((k c' <? k c) = true) as -> by lia. lia.
Qed.

Lemma to_lower_byte c : is_byte c -> to_lower c = if (#"A" <=? c) && (c <=? #"Z") then c + 32 else c.
Proof.
  intros H. unfold to_lower. destruct ((65 <=? c) && (c <=? 90)) eqn:E; [|done].
  assert (c ∈ seqZ 65 26) as Hin by (apply elem_of_seqZ; lia). clear H E. revert c Hin.
  apply Forall_forall. repeat constructor.
Qed.

(** The characters of a C string; those of a domain name have no space. *)
Definition c_char (c : Z) : Prop := is_byte c /\ c <> 0.
Definition dns_ok (c : Z) : Prop := c_char c /\ c <> #" ".

Lemma keyed_strcasecmp : keyed to_lower Z.sub to_lower c_char.
Proof.
  split; [done|..]; unfold c_char; intros;
    repeat match goal with H : is_byte _ /\ _ |- _ => destruct H end;
    rewrite ?to_lower_byte in * by done; unfold is_byte in *; case_ifs; case_ifs_in H; lia.
Qed.

Lemma keyed_dns :
  keyed to_lower (fun x y => dns_char x - dns_char y) (fun c => dns_char (to_lower c)) dns_ok.
Proof.
  split; [done|..]; unfold dns_ok, c_char; intros;
    repeat match goal with H : _ /\ _ |- _ => destruct H end;
    rewrite ?to_lower_byte in * by done; unfold is_byte, dns_char in *; case_ifs; case_ifs_in H; lia.
Qed.

Lemma keyed_filename : keyed (fun c => c) filename_diff slash_char c_char.
Proof.
  split; [done|..]; unfold c_char, filename_diff, slash_char, is_byte; intros; case_ifs; lia.
Qed.

(** On C strings, [ngx_strcasecmp] is the lexicographic order of the
    lower-cased strings; [ngx_dns_strcmp], on names without spaces, the same
    with "." below every printable character; and [ngx_filename_cmp], of at
    most [n] characters, the order in which "/" is below every other one. *)
Theorem string_orders a b x y :
  Forall c_char a -> Forall c_char b ->
  (exists r, ngx_strcasecmp (a ++ 0 :: x) (b ++ 0 :: y) = Some r /\
             Z.sgn r = lex (map to_lower a) (map to_lower b)) /\
  (Forall dns_ok a -> Forall dns_ok b ->
   exists r, ngx_dns_strcmp (a ++ 0 :: x) (b ++ 0 :: y) = Some r /\
             Z.sgn r = lex (map (fun c => dns_char (to_lower c)) a)
                           (map (fun c => dns_char (to_lower c)) b)) /\
  (forall n, exists r, ngx_filename_cmp (a ++ 0 :: x) (b ++ 0 :: y) n = Some r /\
             Z.sgn r = lex (map slash_char (take n a)) (map slash_char (take n b))).
Proof.
  intros Ha Hb. set (n := S (Nat.max (length (a ++ 0 :: x)) (length (b ++ 0 :: y)))).
  assert (take n a = a /\ take n b = b) as [Ea Eb].
  { subst n. rewrite !length_app. split; apply take_ge; lia. }
  split_and!.
  - rewrite (cmp_n_strcasecmp _ _ n) by lia.
    destruct (cmp_n_lex _ _ _ _ keyed_strcasecmp n a b x y Ha Hb) as (r & -> & Hr).
    rewrite Ea, Eb in Hr. eauto.
  - intros Ha' Hb'. rewrite (cmp_n_dns _ _ n) by lia.
    destruct (cmp_n_lex _ _ _ _ keyed_dns n a b x y Ha' Hb') as (r & -> & Hr).
    rewrite Ea, Eb in Hr. eauto.
  - intros m. rewrite cmp_n_filename. apply (cmp_n_lex _ _ _ _ keyed_filename m a b x y Ha Hb).
Qed.

Lemma c_char_bytes s : forallb (fun c => (0 <? c) && (c <? 256)) s = true -> Forall c_char s.
Proof.
  rewrite forallb_forall, Forall_forall. intros H c Hc. apply list_elem_of_In, H in Hc.
  unfold c_char, is_byte. lia.
Qed.

(** "a/b" is before "a.b": the files of a directory come right after it. *)
Lemma string_orders_witness :
  exists r, ngx_filename_cmp (bytes "a/b" ++ [0]) (bytes "a.b" ++ [0]) 9 = Some r /\ Z.sgn r = -1.
Proof.
  destruct (string_orders (bytes "a/b") (bytes "a.b") [] []
    ltac:(by apply c_char_bytes) ltac:(by apply c_char_bytes)) as (_ & _ & H).
  destruct (H 9%nat) as (r & H1 & H2). by exists r.
Defined.

(** Reversed: from the last character on. *)
Lemma rstrncmp_loop_spec n : forall s1 s2,
  (n < length s1)%nat -> (n < length s2)%nat ->
  exists r, rstrncmp_loop s1 s2 n = Some r /\
            Z.sgn r = lex (rev (take (S n) s1)) (rev (take (S n) s2)).
Proof.
  induction n as [|n IH]; intros s1 s2 H1 H2.
  all: destruct (lookup_lt_is_Some_2 s1 _ H1) as [c1 E1];
       destruct (lookup_lt_is_Some_2 s2 _ H2) as [c2 E2];
       rewrite (take_S_r _ _ _ E1), (take_S_r _ _ _ E2), !rev_app_distr;
       cbn [rstrncmp_loop rev app lex]; rewrite E1, E2; destruct (c1 =? c2) eqn:E; cbn [negb].
  - assert (c1 = c2) as -> by lia. rewrite Z.ltb_irrefl. by exists 0.
  - eexists; split; [done|]. case_ifs; lia.
  - assert (c1 = c2) as -> by lia. rewrite Z.ltb_irrefl. apply IH; lia.
  - eexists; split; [done|]. case_ifs; lia.
Qed.

Lemma memcmp_spec n : forall s1 s2, (n <= length s1)%nat -> (n <= length s2)%nat ->
  exists r, ngx_memcmp s1 s2 n = Some r /\ Z.sgn r = lex (take n s1) (take n s2).
Proof.
  induction n as [|n IH]; intros s1 s2 H1 H2; [by exists 0|].
  destruct s1 as [|c1 s1], s2 as [|c2 s2]; cbn [length] in *; try lia.
  cbn [ngx_memcmp take lex]. destruct (c1 =? c2) eqn:E.
  - assert (c1 = c2) as -> by lia. rewrite Z.ltb_irrefl. apply IH; lia.
  - eexists; split; [done|]. case_ifs; lia.
Qed.

Lemma lex_take a : forall b n, n = Nat.min (length a) (length b) ->
  lex a b = let m := lex (take n a) (take n b) in
            if negb (m =? 0) || (length a =? length b)%nat then m
            else if (length a <=? length b)%nat then -1 else 1.
Proof.
  induction a as [|x a IH]; intros [|y b] n ->; cbn; try done.
  destruct (x <? y) eqn:?, (y <? x) eqn:?; try done. by apply IH.
Qed.

(** [ngx_rstrncmp] orders by the reversed strings, and [ngx_memn2cmp] is the
    lexicographic order of two regions. *)
Theorem ngx_rstrncmp_order s1 s2 n :
  (n <= length s1)%nat -> (n <= length s2)%nat ->
  exists r, ngx_rstrncmp s1 s2 n = Some r /\ Z.sgn r = lex (rev (take n s1)) (rev (take n s2)).
Proof. destruct n as [|n]; intros; [by exists 0|]. apply rstrncmp_loop_spec; lia. Qed.

Theorem ngx_memn2cmp_order s1 s2 :
  exists r, ngx_memn2cmp s1 s2 (length s1) (length s2) = Some r /\ Z.sgn r = lex s1 s2.
Proof.
  unfold ngx_memn2cmp. set (n := Nat.min (length s1) (length s2)).
  assert ((if (length s1 <=? length s2)%nat then (length s1, -1) else (length s2, 1)) =
          (n, if (length s1 <=? length s2)%nat then -1 else 1)) as ->.
  { subst n. destruct (Nat.leb_spec (length s1) (length s2)); f_equal; lia. }
  destruct (memcmp_spec n s1 s2 ltac:(lia) ltac:(lia)) as (m & -> & Hm).
  rewrite (lex_take s1 s2 n eq_refl). cbv zeta. rewrite <-Hm.
  assert ((Z.sgn m =? 0) = (m =? 0)) as -> by lia.
  destruct (negb (m =? 0) || (length s1 =? length s2)%nat) eqn:E; [by exists m|].
  eexists; split; [done|]. by case_ifs.
Qed.

(** ** What a search finds *)

(** The pattern is at offset [k] of the text, characters compared through [f]. *)
Definition at_offset (f : Z -> Z) (pat text : list Z) (k : nat) : Prop :=
  map f (take (length pat) (drop k text)) = map f pat.

(** [r] is where the pattern is first, the text being at offset [p]. *)
Definition first_occ (f : Z -> Z) (pat text : list Z) (p : Z) (r : option Z) : Prop :=
  match r with
  | Some q => exists k, q = p + Z.of_nat k /\ at_offset f pat text k /\
                        forall j, (j < k)%nat -> ~ at_offset f pat text j
  | None => forall j, ~ at_offset f pat text j
  end.

Lemma occ_here f pat text p : at_offset f pat text 0 -> first_occ f pat text p (Some p).
Proof. intros H. exists 0%nat. split_and!; [lia|done|intros; lia]. Qed.

Lemma occ_next f pat c text p r :
  ~ at_offset f pat (c :: text) 0 -> first_occ f pat text (p + 1) r ->
  first_occ f pat (c :: text) p r.
Proof.
  intros H0 H. destruct r as [q|].
  - destruct H as (k & -> & Hk & Hb). exists (S k). split_and!; [lia|exact Hk|].
    intros [|j] Hj; [done|]. apply Hb. lia.
  - intros [|j]; [done|]. apply H.
Qed.

Lemma occ_short f pat text p : (length text < length pat)%nat -> first_occ f pat text p None.
Proof.
  intros H j E. apply (f_equal length) in E. rewrite !length_map, length_take, length_drop in E. lia.
Qed.

Lemma at_cons f c2 s2 c1 text :
  at_offset f (c2 :: s2) (c1 :: text) 0 <->
  f c1 = f c2 /\ map f (take (length s2) text) = map f s2.
Proof. unfold at_offset. cbn. split; [by intros [= -> ->]|by intros [-> ->]]. Qed.

(** The comparison of what follows the first character. *)
Lemma cmp_n_zero f s2 : f 0 = 0 -> Forall (fun c => f c <> 0) s2 -> forall text rest z,
  (length s2 <= length text)%nat \/ head rest = Some 0 ->
  exists r, cmp_n f Z.sub (length s2) (text ++ rest) (s2 ++ z) = Some r /\
            (r = 0 <-> map f (take (length s2) text) = map f s2).
Proof.
  intros H0. induction s2 as [|c2 s2 IH]; intros Hs text rest z Hl; [by exists 0|].
  inversion Hs; subst. destruct text as [|c1 text]; cbn [length app cmp_n take map].
  - destruct Hl as [Hl|Hl]; [cbn in Hl; lia|]. destruct rest as [|c rest]; [done|].
    injection Hl as ->. rewrite H0. assert ((0 =? f c2) = false) as -> by lia.
    eexists; split; [done|]. split; [lia|done].
  - destruct (f c1 =? f c2) eqn:E.
    + assert ((f c1 =? 0) = false) as -> by lia. cbn [negb].
      destruct (IH ltac:(done) text rest z) as (r & -> & Hr).
      { destruct Hl as [Hl|Hl]; [left; cbn in Hl; lia|by right]. }
      exists r. split; [done|]. rewrite Hr. split; [intros ->; f_equal; lia|by intros [= _ ->]].
    + eexists; split; [done|]. split; [lia|intros [= ? _]; lia].
Qed.

(** A candidate: the first character is [c2], and the comparison decides. *)
Lemma occ_candidate f c2 s2 c1 text rest z p (next : option (option Z)) :
  f 0 = 0 -> Forall (fun c => f c <> 0) s2 -> f c1 = f c2 ->
  (length s2 <= length text)%nat \/ head rest = Some 0 ->
  (exists r, next = Some r /\ first_occ f (c2 :: s2) text (p + 1) r) ->
  exists r,
    match cmp_n f Z.sub (length s2) (text ++ rest) (s2 ++ z) with
    | None => None
    | Some m => if negb (m =? 0) then next else Some (Some p)
    end = Some r /\ first_occ f (c2 :: s2) (c1 :: text) p r.
Proof.
  intros H0 Hs Hc Hl (rn & -> & Hn).
  destruct (cmp_n_zero f s2 H0 Hs text rest z Hl) as (m & -> & Hm).
  destruct (m =? 0) eqn:E; cbn [negb]; eexists; (split; [done|]).
  - apply occ_here, at_cons. split; [done|]. apply Hm. lia.
  - apply occ_next; [|done]. rewrite at_cons. intros [_ H]. apply Hm in H. lia.
Qed.

Lemma occ_other f c2 s2 c1 text p (r : option Z) :
  f c1 <> f c2 -> first_occ f (c2 :: s2) text (p + 1) r ->
  first_occ f (c2 :: s2) (c1 :: text) p r.
Proof. intros Hc H. apply occ_next; [|done]. rewrite at_cons. by intros [? _]. Qed.

Lemma strnstr_loop_spec c2 s2 rest z : Forall c_char s2 -> forall text len p,
  Forall c_char text -> len = length text \/ ((length text < len)%nat /\ head rest = Some 0) ->
  exists r, strnstr_loop (text ++ rest) c2 (s2 ++ z) (length s2) len p = Some r /\
            first_occ (fun c => c) (c2 :: s2) text p r.
Proof.
  intros Hs. induction text as [|c1 text IH]; intros len p Ht Hl.
  - destruct Hl as [-> | [Hl Hr]].
    + exists None. split; [by destruct rest|apply occ_short; cbn; lia].
    + destruct len as [|len]; [cbn in Hl; lia|]. destruct rest as [|c rest]; [done|].
      injection Hr as ->. exists None. split; [done|apply occ_short; cbn; lia].
  - inversion Ht as [|? ? [_ Hc] Ht']; subst. cbn [length] in Hl.
    destruct len as [|len]; [lia|]. cbn [app strnstr_loop].
    assert ((c1 =? 0) = false) as -> by lia.
    destruct (IH len (p + 1) Ht') as (r & Hnext & Hocc); [destruct Hl as [?|[? ?]]; [left|right]; lia || (split; [lia|done])|].
    destruct (c1 =? c2) eqn:E; cbn [negb]; [|exists r; split; [done|apply occ_other; [lia|done]]].
    destruct (len <? length s2)%nat eqn:El.
    + exists None. split; [done|]. apply occ_short. cbn [length].
      apply Nat.ltb_lt in El. destruct Hl as [?|[? ?]]; lia.
    + rewrite cmp_n_strncmp. apply occ_candidate; [done| |lia| |eauto].
      * eapply Forall_impl; [exact Hs|]. by intros c [_ H].
      * apply Nat.ltb_ge in El. destruct Hl as [?|[? ?]]; [left; lia|by right].
Qed.

Lemma c_char_lower c : c_char c -> to_lower c <> 0.
Proof. exact (keyed_nonzero _ _ _ _ keyed_strcasecmp c). Qed.

Lemma strstrn_loop_spec c2 s2 x z : Forall c_char s2 -> forall text p,
  Forall c_char text ->
  exists r, strstrn_loop (text ++ 0 :: x) c2 (s2 ++ z) (length s2) p = Some r /\
            first_occ (fun c => c) (c2 :: s2) text p r.
Proof.
  intros Hs. induction text as [|c1 text IH]; intros p Ht.
  - exists None. split; [done|apply occ_short; cbn; lia].
  - inversion Ht as [|? ? [_ Hc] Ht']; subst. cbn [app strstrn_loop].
    assert ((c1 =? 0) = false) as -> by lia.
    destruct (IH (p + 1) Ht') as (r & Hnext & Hocc).
    destruct (c1 =? c2) eqn:E; cbn [negb]; [|exists r; split; [done|apply occ_other; [lia|done]]].
    rewrite cmp_n_strncmp. apply occ_candidate; [done| |lia|by right|eauto].
    eapply Forall_impl; [exact Hs|]. by intros c [_ H].
Qed.

Lemma strcasestrn_loop_spec c2 s2 x z : Forall c_char s2 -> forall text p,
  Forall c_char text ->
  exists r, strcasestrn_loop (text ++ 0 :: x) (to_lower c2) (s2 ++ z) (length s2) p = Some r /\
            first_occ to_lower (c2 :: s2) text p r.
Proof.
  intros Hs. induction text as [|c1 text IH]; intros p Ht.
  - exists None. split; [done|apply occ_short; cbn; lia].
  - inversion Ht as [|? ? [_ Hc] Ht']; subst. cbn [app strcasestrn_loop].
    assert ((c1 =? 0) = false) as -> by lia.
    destruct (IH (p + 1) Ht') as (r & Hnext & Hocc).
    destruct (to_lower c1 =? to_lower c2) eqn:E; cbn [negb];
      [|exists r; split; [done|apply occ_other; [lia|done]]].
    rewrite cmp_n_strncasecmp. apply occ_candidate; [done| |lia|by right|eauto].
    eapply Forall_impl; [exact Hs|]. exact c_char_lower.
Qed.

Lemma strlcasestrn_loop_spec c2 s2 rest z last : Forall c_char s2 -> forall text p,
  last + Z.of_nat (length s2) = p + Z.of_nat (length text) ->
  exists r, strlcasestrn_loop (text ++ rest) last (to_lower c2) (s2 ++ z) (length s2) p = Some r /\
            first_occ to_lower (c2 :: s2) text p r.
Proof.
  intros Hs. induction text as [|c1 text IH]; intros p Hl; cbn [length] in Hl.
  - exists None. split; [|apply occ_short; cbn; lia]. cbn [app].
    unfold strlcasestrn_loop. destruct rest; by assert ((last <=? p) = true) as -> by lia.
  - cbn [app strlcasestrn_loop]. destruct (last <=? p) eqn:Ep.
    + exists None. split; [done|apply occ_short; cbn; lia].
    + destruct (IH (p + 1) ltac:(lia)) as (r & Hnext & Hocc).
      destruct (to_lower c1 =? to_lower c2) eqn:E; cbn [negb];
        [|exists r; split; [done|apply occ_other; [lia|done]]].
      rewrite cmp_n_strncasecmp. apply occ_candidate; [done| |lia|left; lia|eauto].
      eapply Forall_impl; [exact Hs|]. exact c_char_lower.
Qed.

Lemma c_string_nul s x : Forall c_char s -> c_string (s ++ 0 :: x) = s.
Proof.
  induction 1 as [|c s [_ Hc] _ IH]; [done|]. cbn. assert ((c =? 0) = false) as -> by lia.
  by rewrite IH.
Qed.

(** The four searches stay inside their text and return where the pattern
    is first, or NULL when it is nowhere: [ngx_strnstr] in the first [len]
    bytes or up to the NUL, [ngx_strstrn] and, ignoring case,
    [ngx_strcasestrn] in a C string, and [ngx_strlcasestrn] up to [last],
    whatever the bytes are. *)
Theorem searches_first c2 s2 text rest x z len :
  Forall c_char (c2 :: s2) ->
  let pat := c2 :: s2 in
  let n := length s2 in
  (Forall c_char text -> len = length text \/ ((length text < len)%nat /\ head rest = Some 0) ->
   exists r, ngx_strnstr (text ++ rest) (pat ++ 0 :: z) len = Some r /\
             first_occ (fun c => c) pat text 0 r) /\
  (Forall c_char text ->
   exists r, ngx_strstrn (text ++ 0 :: x) (pat ++ z) n = Some r /\ first_occ (fun c => c) pat text 0 r) /\
  (Forall c_char text ->
   exists r, ngx_strcasestrn (text ++ 0 :: x) (pat ++ z) n = Some r /\ first_occ to_lower pat text 0 r) /\
  (exists r, ngx_strlcasestrn (text ++ rest) (Z.of_nat (length text)) (pat ++ z) n = Some r /\
             first_occ to_lower pat text 0 r).
Proof.
  intros H. inversion H; subst. cbv zeta. split_and!.
  - intros Ht Hl. cbn [ngx_strnstr app]. rewrite c_string_nul by done. by apply strnstr_loop_spec.
  - intros Ht. by apply strstrn_loop_spec.
  - intros Ht. by apply strcasestrn_loop_spec.
  - apply strlcasestrn_loop_spec; [done|lia].
Qed.

Lemma searches_first_witness :
  exists r, ngx_strlcasestrn (bytes "Gecko MSIE 6." ++ bytes "msie ") 13 (bytes "msie ") 4 = Some r /\
            first_occ to_lower (bytes "msie ") (bytes "Gecko MSIE 6.") 0 r.
Proof.
  destruct (searches_first #"m" (bytes "sie ") (bytes "Gecko MSIE 6.") (bytes "msie ") [] [] 0
    ltac:(by apply (c_char_bytes (bytes "msie ")))) as (_ & _ & _ & H).
  exact H.
Defined.
