(* ===== verification/RoundRobin.v ===== *)
(** * Weighted round robin

    The load balancer of [src/http/ngx_http_upstream_round_robin.c]: the lists
    of peers built from an [upstream] block, the choice of a peer by smooth
    weighted round robin, and what the outcome of a request does to its peer.

    The peers of a level are a list ([peer] and its [next] pointers); the
    levels themselves, the servers and the backup servers, are a list too
    ([us->peer.data] and its [next]).  The lists are shared by all the requests
    and passed explicitly; a peer is named by its level and its index.  The
    locks of a shared zone make each operation atomic, as it is here.  Weights
    and times are [Z]; the theorems bound them. *)

From S2P Require Import Prelude.

(** ** Data *)

(** [ngx_addr_t] *)
Record ngx_addr : Type := Addr { ad_sockaddr : list Z; ad_name : list Z }.

(** [ngx_http_upstream_server_t] *)
Record upstream_server : Type := UpstreamServer {
  sv_name : list Z;
  sv_addrs : list ngx_addr;     (** [addrs] and [naddrs] *)
  sv_weight : Z;
  sv_max_fails : Z;
  sv_fail_timeout : Z;
  sv_down : bool;
  sv_backup : bool
}.

(** [ngx_http_upstream_rr_peer_t] *)
Record rr_peer : Type := RrPeer {
  rp_sockaddr : list Z;
  rp_name : list Z;
  rp_server : list Z;
  rp_current_weight : Z;
  rp_effective_weight : Z;
  rp_weight : Z;
  rp_conns : Z;
  rp_fails : Z;
  rp_accessed : Z;
  rp_checked : Z;
  rp_max_fails : Z;
  rp_fail_timeout : Z;
  rp_down : bool
}.

Definition set_rp_current_weight (v : Z) (r : rr_peer) : rr_peer :=
  RrPeer
    (rp_sockaddr r) (rp_name r) (rp_server r) v (rp_effective_weight r) (rp_weight r)
    (rp_conns r) (rp_fails r) (rp_accessed r) (rp_checked r) (rp_max_fails r)
    (rp_fail_timeout r) (rp_down r).
Definition set_rp_effective_weight (v : Z) (r : rr_peer) : rr_peer :=
  RrPeer
    (rp_sockaddr r) (rp_name r) (rp_server r) (rp_current_weight r) v (rp_weight r)
    (rp_conns r) (rp_fails r) (rp_accessed r) (rp_checked r) (rp_max_fails r)
    (rp_fail_timeout r) (rp_down r).
Definition set_rp_conns (v : Z) (r : rr_peer) : rr_peer :=
  RrPeer
    (rp_sockaddr r) (rp_name r) (rp_server r) (rp_current_weight r) (rp_effective_weight r)
    (rp_weight r) v (rp_fails r) (rp_accessed r) (rp_checked r) (rp_max_fails r)
    (rp_fail_timeout r) (rp_down r).
Definition set_rp_fails (v : Z) (r : rr_peer) : rr_peer :=
  RrPeer
    (rp_sockaddr r) (rp_name r) (rp_server r) (rp_current_weight r) (rp_effective_weight r)
    (rp_weight r) (rp_conns r) v (rp_accessed r) (rp_checked r) (rp_max_fails r)
    (rp_fail_timeout r) (rp_down r).
Definition set_rp_accessed (v : Z) (r : rr_peer) : rr_peer :=
  RrPeer
    (rp_sockaddr r) (rp_name r) (rp_server r) (rp_current_weight r) (rp_effective_weight r)
    (rp_weight r) (rp_conns r) (rp_fails r) v (rp_checked r) (rp_max_fails r)
    (rp_fail_timeout r) (rp_down r).
Definition set_rp_checked (v : Z) (r : rr_peer) : rr_peer :=
  RrPeer
    (rp_sockaddr r) (rp_name r) (rp_server r) (rp_current_weight r) (rp_effective_weight r)
    (rp_weight r) (rp_conns r) (rp_fails r) (rp_accessed r) v (rp_max_fails r)
    (rp_fail_timeout r) (rp_down r).

(** [ngx_http_upstream_rr_peers_t], without [next] *)
Record rr_peers : Type := RrPeers {
  rs_number : Z;
  rs_total_weight : Z;
  rs_single : bool;
  rs_weighted : bool;
  rs_name : list Z;
  rs_peer : list rr_peer
}.

Definition set_rs_single (v : bool) (r : rr_peers) : rr_peers :=
  RrPeers
    (rs_number r) (rs_total_weight r) v (rs_weighted r) (rs_name r) (rs_peer r).
Definition set_rs_peer (v : list rr_peer) (r : rr_peers) : rr_peers :=
  RrPeers
    (rs_number r) (rs_total_weight r) (rs_single r) (rs_weighted r) (rs_name r) v.

(** [ngx_http_upstream_rr_peer_data_t] *)
Record rr_peer_data : Type := RrPeerData {
  rrp_peers : nat;  (** the level of [rrp->peers] *)
  rrp_current : option (nat * nat);  (** the level and the index of the peer, or [NULL] *)
  rrp_tried : list Z  (** the words of the bitmap *)
}.

Definition set_rrp_peers (v : nat) (r : rr_peer_data) : rr_peer_data :=
  RrPeerData
    v (rrp_current r) (rrp_tried r).
Definition set_rrp_current (v : option (nat * nat)) (r : rr_peer_data) : rr_peer_data :=
  RrPeerData
    (rrp_peers r) v (rrp_tried r).
Definition set_rrp_tried (v : list Z) (r : rr_peer_data) : rr_peer_data :=
  RrPeerData
    (rrp_peers r) (rrp_current r) v.

(** The fields of [ngx_peer_connection_t] the balancer touches *)
Record peer_connection : Type := PeerConnection {
  pc_connection : option Z;
  pc_sockaddr : option (list Z);
  pc_name : list Z;
  pc_tries : Z;
  pc_cached : bool
}.

Definition set_pc_connection (v : option Z) (r : peer_connection) : peer_connection :=
  PeerConnection
    v (pc_sockaddr r) (pc_name r) (pc_tries r) (pc_cached r).
Definition set_pc_sockaddr (v : option (list Z)) (r : peer_connection) : peer_connection :=
  PeerConnection
    (pc_connection r) v (pc_name r) (pc_tries r) (pc_cached r).
Definition set_pc_name (v : list Z) (r : peer_connection) : peer_connection :=
  PeerConnection
    (pc_connection r) (pc_sockaddr r) v (pc_tries r) (pc_cached r).
Definition set_pc_tries (v : Z) (r : peer_connection) : peer_connection :=
  PeerConnection
    (pc_connection r) (pc_sockaddr r) (pc_name r) v (pc_cached r).
Definition set_pc_cached (v : bool) (r : peer_connection) : peer_connection :=
  PeerConnection
    (pc_connection r) (pc_sockaddr r) (pc_name r) (pc_tries r) v.

Definition NGX_PEER_NEXT : Z := 2.
Definition NGX_PEER_FAILED : Z := 4.

(** ** The lists of peers *)

Definition new_peer (sv : upstream_server) (a : ngx_addr) : rr_peer :=
  RrPeer (ad_sockaddr a) (ad_name a) (sv_name sv) 0 (sv_weight sv) (sv_weight sv) 0 0 0 0
    (sv_max_fails sv) (sv_fail_timeout sv) (sv_down sv).

(** [n += server[i].naddrs; w += server[i].naddrs * server[i].weight;] *)
Fixpoint count_servers (backup : bool) (server : list upstream_server) : Z * Z :=
  match server with
  | [] => (0, 0)
  | sv :: server =>
      let '(n, w) := count_servers backup server in
      if Bool.eqb (sv_backup sv) backup
      then (n + Z.of_nat (length (sv_addrs sv)), w + Z.of_nat (length (sv_addrs sv)) * sv_weight sv)
      else (n, w)
  end.

Fixpoint list_servers (backup : bool) (server : list upstream_server) : list rr_peer :=
  match server with
  | [] => []
  | sv :: server =>
      if Bool.eqb (sv_backup sv) backup
      then map (new_peer sv) (sv_addrs sv) ++ list_servers backup server
      else list_servers backup server
  end.

(** [us->servers] is not [NULL]; [None] is [NGX_ERROR]. *)
Definition init_servers (host : list Z) (server : list upstream_server) : option (list rr_peers) :=
  let '(n, w) := count_servers false server in
  if n =? 0 then None
  else
    let peers := RrPeers n w (n =? 1) (negb (w =? n)) host (list_servers false server) in
    let '(n, w) := count_servers true server in
    if n =? 0 then Some [peers]
    else
      Some [set_rs_single false peers;
            RrPeers n w false (negb (w =? n)) host (list_servers true server)].

(** An implicit upstream: [u.addrs] are the addresses [ngx_inet_resolve_host]
    found for [us->host], [None] its failure. *)
Definition init_implicit (host : list Z) (port : Z) (resolved : option (list ngx_addr))
    : option (list rr_peers) :=
  if port =? 0 then None
  else
    match resolved with
    | None => None
    | Some addrs =>
        let n := Z.of_nat (length addrs) in
        Some [RrPeers n n (n =? 1) false host
                (map (fun a => RrPeer (ad_sockaddr a) (ad_name a) [] 0 1 1 0 0 0 0 1 10 false) addrs)]
    end.

Definition init_round_robin (host : list Z) (port : Z) (servers : option (list upstream_server))
    (resolved : option (list ngx_addr)) : option (list rr_peers) :=
  match servers with
  | Some server => init_servers host server
  | None => init_implicit host port resolved
  end.

(** ** A request's view *)

(** [(n + (8 * sizeof(uintptr_t) - 1)) / (8 * sizeof(uintptr_t))] *)
Definition tried_words (n : Z) : nat := Z.to_nat ((n + 63) / 64).

Definition upstream_tries (us : list rr_peers) : Z :=
  match us with
  | [] => 0
  | p :: next => rs_number p + match next with [] => 0 | b :: _ => rs_number b end
  end.

Definition init_round_robin_peer (us : list rr_peers) (pc : peer_connection)
    : option (rr_peer_data * peer_connection) :=
  match us with
  | [] => None
  | peers :: next =>
      let n := rs_number peers in
      let n := match next with
               | backup :: _ => if n <? rs_number backup then rs_number backup else n
               | [] => n
               end in
      let tried := if n <=? 64 then [0] else replicate (tried_words n) 0 in
      Some (RrPeerData 0 None tried, set_pc_tries (upstream_tries us) pc)
  end.

(** ** The choice of a peer *)

(** [rrp->tried[n] & m]; [None] is a read outside the bitmap. *)
Definition is_tried (tried : list Z) (i : nat) : option bool :=
  match tried !! (i / 64)%nat with
  | None => None
  | Some w => Some (negb (Z.land w (Z.shiftl 1 (Z.of_nat (i mod 64))) =? 0))
  end.

(** [rrp->tried[n] |= m] *)
Definition set_tried (tried : list Z) (i : nat) : list Z :=
  alter (fun w => Z.lor w (Z.shiftl 1 (Z.of_nat (i mod 64)))) (i / 64)%nat tried.

(** [peer->max_fails && peer->fails >= peer->max_fails && ...] *)
Definition is_failed (now : Z) (peer : rr_peer) : bool :=
  negb (rp_max_fails peer =? 0) && (rp_max_fails peer <=? rp_fails peer)
  && (now - rp_checked peer <=? rp_fail_timeout peer).

(** What the loop does to the weights of a peer that can be chosen. *)
Definition raise_weight (peer : rr_peer) : rr_peer :=
  let peer := set_rp_current_weight (rp_current_weight peer + rp_effective_weight peer) peer in
  if rp_effective_weight peer <? rp_weight peer
  then set_rp_effective_weight (rp_effective_weight peer + 1) peer
  else peer.

(** The loop over the peers from the [i]-th on; [best] with its index [p]. *)
Fixpoint get_peer_loop (now : Z) (tried : list Z) (ps : list rr_peer) (i : nat) (total : Z)
    (best : option (nat * rr_peer)) : option (list rr_peer * Z * option (nat * rr_peer)) :=
  match ps with
  | [] => Some ([], total, best)
  | peer :: ps =>
      match is_tried tried i with
      | None => None
      | Some t =>
          if t || rp_down peer || is_failed now peer then
            match get_peer_loop now tried ps (S i) total best with
            | Some (ps, total, best) => Some (peer :: ps, total, best)
            | None => None
            end
          else
            let total := total + rp_effective_weight peer in
            let peer := raise_weight peer in
            let best :=
              match best with
              | Some (_, b) =>
                  if rp_current_weight b <? rp_current_weight peer then Some (i, peer) else best
              | None => Some (i, peer)
              end in
            match get_peer_loop now tried ps (S i) total best with
            | Some (ps, total, best) => Some (peer :: ps, total, best)
            | None => None
            end
      end
  end.

(** What happens to [best]. *)
Definition take_best (now total : Z) (best : rr_peer) : rr_peer :=
  let best := set_rp_current_weight (rp_current_weight best - total) best in
  if rp_fail_timeout best <? now - rp_checked best then set_rp_checked now best else best.

(** [ngx_http_upstream_get_peer]: the peers, the bitmap and the index of the
    peer chosen, if there is one. *)
Definition get_peer (now : Z) (tried : list Z) (ps : list rr_peer)
    : option (list rr_peer * list Z * option nat) :=
  match get_peer_loop now tried ps 0 0 None with
  | None => None
  | Some (ps, total, None) => Some (ps, tried, None)
  | Some (ps, total, Some (p, _)) => Some (alter (take_best now total) p ps, set_tried tried p, Some p)
  end.

(** Choosing at one level, [single] or not: the peers, the bitmap and the
    peer. *)
Definition choose (now : Z) (tried : list Z) (peers : rr_peers)
    : option (list rr_peer * list Z * option nat) :=
  if rs_single peers then
    match rs_peer peers with
    | [] => None
    | peer :: _ => Some (rs_peer peers, tried, if rp_down peer then None else Some 0%nat)
    end
  else get_peer now tried (rs_peer peers).

(** [for (i = 0; i < n; i++) { rrp->tried[i] = 0; }] *)
Definition clear_tried (n : nat) (tried : list Z) : option (list Z) :=
  if (n <=? length tried)%nat then Some (replicate n 0 ++ drop n tried) else None.

Definition bump_conns (d : Z) (peer : rr_peer) : rr_peer := set_rp_conns (u64 (rp_conns peer + d)) peer.

(** [ngx_http_upstream_get_round_robin_peer] from the level of [rrp->peers]
    on: [us] are that level and the next ones. *)
Fixpoint get_round_robin_peer (now : Z) (us : list rr_peers) (pc : peer_connection)
    (rrp : rr_peer_data) : option (Z * list rr_peers * peer_connection * rr_peer_data) :=
  match us with
  | [] => None
  | peers :: next =>
      let pc := set_pc_connection None (set_pc_cached false pc) in
      match choose now (rrp_tried rrp) peers with
      | None => None
      | Some (ps, tried, Some p) =>
          match ps !! p with
          | None => None
          | Some peer =>
              let rrp := set_rrp_current (Some (rrp_peers rrp, p)) (set_rrp_tried tried rrp) in
              let pc := set_pc_name (rp_name peer) (set_pc_sockaddr (Some (rp_sockaddr peer)) pc) in
              Some (NGX_OK, set_rs_peer (alter (bump_conns 1) p ps) peers :: next, pc, rrp)
          end
      | Some (ps, tried, None) =>
          let busy next pc rrp :=
            Some (NGX_BUSY, set_rs_peer (map (set_rp_fails 0) ps) peers :: next,
                  set_pc_name (rs_name peers) pc, rrp) in
          match next with
          | [] => busy next pc rrp
          | backup :: _ =>
              match clear_tried (tried_words (rs_number backup)) (rrp_tried rrp) with
              | None => None
              | Some tried =>
                  let rrp := set_rrp_tried tried (set_rrp_peers (S (rrp_peers rrp)) rrp) in
                  match get_round_robin_peer now next pc rrp with
                  | None => None
                  | Some (rc, next, pc, rrp) =>
                      if negb (rc =? NGX_BUSY) then
                        Some (rc, set_rs_peer ps peers :: next, pc, rrp)
                      else busy next pc rrp
                  end
              end
          end
      end
  end.

(** [pc->get]: the levels before that of [rrp->peers] are as they were. *)
Definition pc_get (now : Z) (us : list rr_peers) (pc : peer_connection) (rrp : rr_peer_data)
    : option (Z * list rr_peers * peer_connection * rr_peer_data) :=
  match get_round_robin_peer now (drop (rrp_peers rrp) us) pc rrp with
  | Some (rc, us', pc, rrp') => Some (rc, take (rrp_peers rrp) us ++ us', pc, rrp')
  | None => None
  end.

(** ** The outcome of a request *)

(** [state & NGX_PEER_FAILED] *)
Definition peer_failed (now : Z) (peer : rr_peer) : rr_peer :=
  let peer := set_rp_fails (u64 (rp_fails peer + 1)) peer in
  let peer := set_rp_checked now (set_rp_accessed now peer) in
  let peer :=
    if negb (rp_max_fails peer =? 0)
    then set_rp_effective_weight (rp_effective_weight peer - rp_weight peer / rp_max_fails peer) peer
    else peer in
  if rp_effective_weight peer <? 0 then set_rp_effective_weight 0 peer else peer.

(** "mark peer live if check passed" *)
Definition peer_passed (peer : rr_peer) : rr_peer :=
  if rp_accessed peer <? rp_checked peer then set_rp_fails 0 peer else peer.

Definition free_peer (now : Z) (single : bool) (state : Z) (peer : rr_peer) : rr_peer :=
  if single then bump_conns (-1) peer
  else
    bump_conns (-1)
      (if negb (Z.land state NGX_PEER_FAILED =? 0) then peer_failed now peer else peer_passed peer).

(** [ngx_http_upstream_free_round_robin_peer] *)
Definition free_round_robin_peer (now : Z) (us : list rr_peers) (pc : peer_connection)
    (rrp : rr_peer_data) (state : Z) : option (list rr_peers * peer_connection) :=
  match rrp_current rrp, us !! rrp_peers rrp with
  | Some (l, p), Some peers =>
      let us := alter (fun ps => set_rs_peer
                         (alter (free_peer now (rs_single peers) state) p (rs_peer ps)) ps) l us in
      let tries := if rs_single peers then 0
                   else if negb (pc_tries pc =? 0) then u64 (pc_tries pc - 1) else pc_tries pc in
      Some (us, set_pc_tries tries pc)
  | _, _ => None
  end.

(** ** The bitmap *)

Lemma land_bit w k : 0 <= k -> negb (Z.land w (Z.shiftl 1 k) =? 0) = Z.testbit w k.
Proof.
  intros Hk. rewrite Z.shiftl_1_l. destruct (Z.testbit w k) eqn:E.
  - apply negb_true_iff, Z.eqb_neq. intros H. apply (f_equal (fun x => Z.testbit x k)) in H.
    rewrite Z.land_spec, E, Z.pow2_bits_true, Z.bits_0 in H by done. done.
  - apply negb_false_iff, Z.eqb_eq. apply Z.bits_inj'. intros n Hn.
    rewrite Z.land_spec, Z.pow2_bits_eqb, Z.bits_0 by done.
    destruct (Z.eqb_spec k n) as [<-|]; [by rewrite E|apply andb_false_r].
Qed.

(** The bitmap has a bit for each of [n] peers. *)
Definition covers (tried : list Z) (n : nat) : Prop := (n <= 64 * length tried)%nat.

Lemma covers_lookup tried n i : covers tried n -> (i < n)%nat -> exists t, is_tried tried i = Some t.
Proof.
  intros Hc Hi. unfold is_tried.
  destruct (lookup_lt_is_Some_2 tried (i / 64)) as [w ->]; [|eauto].
  unfold covers in Hc. apply Nat.Div0.div_lt_upper_bound. lia.
Qed.

Lemma covers_set_tried tried n p : covers (set_tried tried p) n <-> covers tried n.
Proof. unfold covers, set_tried. by rewrite length_alter. Qed.

(** Setting a bit sets that bit, and no other. *)
Lemma is_tried_set tried n p i :
  covers tried n -> (p < n)%nat ->
  is_tried (set_tried tried p) i = if decide (i = p) then Some true else is_tried tried i.
Proof.
  intros Hc Hp. unfold is_tried, set_tried.
  assert (forall j, (j mod 64 < 64)%nat) as Hm by (intros; apply Nat.mod_upper_bound; lia).
  destruct (decide ((i / 64 = p / 64)%nat)) as [E|E].
  - rewrite E, list_lookup_alter_eq.
    destruct (lookup_lt_is_Some_2 tried (p / 64)) as [w Hw].
    { unfold covers in Hc. apply Nat.Div0.div_lt_upper_bound. lia. }
    rewrite Hw. cbn [fmap option_fmap option_map]. rewrite !land_bit by lia.
    rewrite Z.lor_spec, Z.shiftl_1_l. destruct (decide (i = p)) as [-> |Hne].
    + by rewrite Z.pow2_bits_true, orb_true_r by lia.
    + rewrite Z.pow2_bits_false; [by rewrite orb_false_r|].
      intros H. apply Hne. apply Nat2Z.inj in H.
      rewrite (Nat.div_mod_eq i 64), (Nat.div_mod_eq p 64). lia.
  - rewrite list_lookup_alter_ne by done. destruct (decide (i = p)) as [-> |]; [done|done].
Qed.

Lemma is_tried_zeros n i : (i < 64 * n)%nat -> is_tried (replicate n 0) i = Some false.
Proof.
  intros Hi. unfold is_tried. rewrite lookup_replicate_2; [|apply Nat.Div0.div_lt_upper_bound; lia].
  by rewrite Z.land_0_l.
Qed.

(** ** What the choice does *)

Fixpoint sum_by {A} (f : A -> Z) (l : list A) : Z :=
  match l with [] => 0 | x :: l => f x + sum_by f l end.

Lemma sum_by_app {A} (f : A -> Z) l1 l2 : sum_by f (l1 ++ l2) = sum_by f l1 + sum_by f l2.
Proof. induction l1 as [|x l1 IH]; cbn; lia. Qed.

Lemma sum_by_alter {A} (f : A -> Z) g p l x :
  l !! p = Some x -> sum_by f (alter g p l) = sum_by f l + (f (g x) - f x).
Proof.
  revert p. induction l as [|y l IH]; intros [|p] H; cbn in *; [done|done| |].
  - injection H as ->. lia.
  - rewrite IH by done. lia.
Qed.

(** The [i]-th peer can be chosen. *)
Definition usable (now : Z) (tried : list Z) (i : nat) (peer : rr_peer) : bool :=
  match is_tried tried i with
  | Some t => negb (t || rp_down peer || is_failed now peer)
  | None => false
  end.

Fixpoint offer (now : Z) (tried : list Z) (i : nat) (ps : list rr_peer) : list rr_peer :=
  match ps with
  | [] => []
  | peer :: ps =>
      (if usable now tried i peer then raise_weight peer else peer) :: offer now tried (S i) ps
  end.

Fixpoint offered (now : Z) (tried : list Z) (i : nat) (ps : list rr_peer) : Z :=
  match ps with
  | [] => 0
  | peer :: ps =>
      (if usable now tried i peer then rp_effective_weight peer else 0) + offered now tried (S i) ps
  end.

Fixpoint best_of (now : Z) (tried : list Z) (i : nat) (ps : list rr_peer)
    (best : option (nat * rr_peer)) : option (nat * rr_peer) :=
  match ps with
  | [] => best
  | peer :: ps =>
      best_of now tried (S i) ps
        (if usable now tried i peer then
           match best with
           | Some (_, b) =>
               if rp_current_weight b <? rp_current_weight (raise_weight peer)
               then Some (i, raise_weight peer) else best
           | None => Some (i, raise_weight peer)
           end
         else best)
  end.

Lemma get_peer_loop_spec now tried ps : forall i total best,
  covers tried (i + length ps) ->
  get_peer_loop now tried ps i total best =
    Some (offer now tried i ps, total + offered now tried i ps, best_of now tried i ps best).
Proof.
  induction ps as [|peer ps IH]; intros i total best Hc; cbn [get_peer_loop offer offered best_of].
  - by rewrite Z.add_0_r.
  - cbn [length] in Hc. destruct (covers_lookup tried _ i Hc ltac:(lia)) as [t Ht].
    unfold usable. rewrite Ht.
    destruct (t || rp_down peer || is_failed now peer); cbn [negb];
      rewrite IH by (unfold covers in *; lia); f_equal; f_equal; f_equal; lia.
Qed.

Lemma lookup_offer now tried ps : forall i k,
  offer now tried i ps !! k =
    (fun peer => if usable now tried (i + k) peer then raise_weight peer else peer) <$> ps !! k.
Proof.
  induction ps as [|peer ps IH]; intros i [|k]; try done.
  - cbn. by rewrite Nat.add_0_r.
  - transitivity (offer now tried (S i) ps !! k); [done|]. rewrite IH.
    change ((peer :: ps) !! S k) with (ps !! k). by replace (i + S k)%nat with (S i + k)%nat by lia.
Qed.

Lemma length_offer now tried ps i : length (offer now tried i ps) = length ps.
Proof. revert i. induction ps as [|peer ps IH]; intros i; cbn; [done|by rewrite IH]. Qed.

Lemma raise_current peer :
  rp_current_weight (raise_weight peer) = rp_current_weight peer + rp_effective_weight peer.
Proof. unfold raise_weight. case_ifs; done. Qed.

Lemma sum_offer now tried ps i :
  sum_by rp_current_weight (offer now tried i ps) = sum_by rp_current_weight ps + offered now tried i ps.
Proof.
  revert i. induction ps as [|peer ps IH]; intros i; cbn; [done|].
  rewrite IH. case_ifs; rewrite ?raise_current; lia.
Qed.

(** The index [p] is the first of the heaviest usable peers. *)
Definition heaviest (now : Z) (tried : list Z) (ps : list rr_peer) (p : nat) : Prop :=
  exists b, ps !! p = Some b /\ usable now tried p b = true /\
  forall k peer, ps !! k = Some peer -> usable now tried k peer = true ->
    rp_current_weight peer + rp_effective_weight peer <= rp_current_weight b + rp_effective_weight b /\
    ((k < p)%nat -> rp_current_weight peer + rp_effective_weight peer <
                    rp_current_weight b + rp_effective_weight b).

(** The loop keeps [best] the heaviest of the peers already seen. *)
Definition best_so_far (now : Z) (tried : list Z) (seen : list rr_peer) (best : option (nat * rr_peer))
    : Prop :=
  match best with
  | Some (p, b) => heaviest now tried seen p /\ (raise_weight <$> seen !! p) = Some b
  | None => forall k peer, seen !! k = Some peer -> usable now tried k peer = false
  end.

Lemma best_of_spec now tried ps : forall seen best,
  best_so_far now tried seen best ->
  best_so_far now tried (seen ++ ps) (best_of now tried (length seen) ps best).
Proof.
  induction ps as [|peer ps IH]; intros seen best H; cbn [best_of]; [by rewrite app_nil_r|].
  replace (seen ++ peer :: ps) with ((seen ++ [peer]) ++ ps) by (by rewrite <-app_assoc).
  replace (S (length seen)) with (length (seen ++ [peer])) by (rewrite length_app; cbn; lia).
  apply IH. clear IH.
  assert (forall k q, (seen ++ [peer]) !! k = Some q ->
    seen !! k = Some q \/ (k = length seen /\ q = peer)) as Hin.
  { intros k q Hk. apply lookup_snoc_Some in Hk as [[_ ?]|[-> ->]]; auto. }
  assert (forall k q, seen !! k = Some q -> (seen ++ [peer]) !! k = Some q /\ (k < length seen)%nat) as Hl.
  { intros k q Hk. split; [|by apply lookup_lt_Some in Hk]. by apply lookup_app_l_Some. }
  assert ((seen ++ [peer]) !! length seen = Some peer) as Hlast by apply list_lookup_middle, eq_refl.
  destruct (usable now tried (length seen) peer) eqn:Eu.
  - destruct best as [[p b]|].
    + destruct H as [(b' & Hb' & Hub & Hmax) Hb]. rewrite Hb' in Hb. injection Hb as <-.
      rewrite !raise_current. destruct (_ <? _) eqn:Elt.
      * split; [|by rewrite Hlast]. exists peer. split_and!; [done|done|].
        intros k q Hk Hq. apply Hin in Hk as [Hk|[-> ->]]; [|split; lia].
        destruct (Hmax k q Hk Hq) as [? _]. split; lia.
      * split; [|by rewrite (proj1 (Hl _ _ Hb'))]. exists b'. split_and!; [by apply Hl|done|].
        intros k q Hk Hq. apply Hin in Hk as [Hk|[-> ->]]; [by apply Hmax|].
        apply Hl in Hb' as [_ ?]. split; lia.
    + split; [|by rewrite Hlast]. exists peer. split_and!; [done|done|].
      intros k q Hk Hq. apply Hin in Hk as [Hk|[-> ->]]; [|split; lia].
      by rewrite (H k q Hk) in Hq.
  - destruct best as [[p b]|].
    + destruct H as [(b' & Hb' & Hub & Hmax) Hb]. split; [|by rewrite (proj1 (Hl _ _ Hb')), Hb' in *].
      exists b'. split_and!; [by apply Hl|done|].
      intros k q Hk Hq. apply Hin in Hk as [Hk|[-> ->]]; [by apply Hmax|congruence].
    + intros k q Hk. apply Hin in Hk as [Hk|[-> ->]]; [by eapply H|done].
Qed.

(** [get_peer] as a function of the peers: nothing changes when no peer is
    usable; otherwise the heaviest is taken. *)
Lemma get_peer_spec now tried ps :
  covers tried (length ps) ->
  (forall k peer, ps !! k = Some peer -> usable now tried k peer = false) /\
    get_peer now tried ps = Some (ps, tried, None) \/
  exists p, heaviest now tried ps p /\
    get_peer now tried ps =
      Some (alter (take_best now (offered now tried 0 ps)) p (offer now tried 0 ps),
            set_tried tried p, Some p).
Proof.
  intros Hc. unfold get_peer. rewrite get_peer_loop_spec by done. rewrite Z.add_0_l.
  pose proof (best_of_spec now tried ps [] None) as H.
  assert (best_so_far now tried ([] ++ ps) (best_of now tried 0 ps None)) as Hb by (apply H; by intros).
  cbn [app] in Hb. destruct (best_of now tried 0 ps None) as [[p b]|].
  - right. exists p. by destruct Hb.
  - left. split; [done|]. do 3 f_equal. apply list_eq. intros k. rewrite lookup_offer.
    destruct (ps !! k) as [peer|] eqn:E; [|done]. cbn [fmap option_fmap option_map].
    change (0 + k)%nat with k. by rewrite (Hb k peer E).
Qed.

(** What the chosen peer loses is what the usable ones gained. *)
Lemma sum_taken now tried ps p b :
  ps !! p = Some b -> usable now tried p b = true ->
  sum_by rp_current_weight (alter (take_best now (offered now tried 0 ps)) p (offer now tried 0 ps)) =
    sum_by rp_current_weight ps.
Proof.
  intros Hb Hu.
  erewrite sum_by_alter by (rewrite lookup_offer, Hb; change (0 + p)%nat with p; cbn; by rewrite Hu).
  rewrite sum_offer. unfold take_best. case_ifs; cbn; lia.
Qed.

(** The choice among several peers.  It is [NULL] exactly when every peer
    was tried, is down or has failed; the peer chosen is the first of those
    that can be chosen whose current weight, raised by the effective weight, is
    largest; that peer is then marked as tried, and no other; and choosing
    leaves the sum of the current weights as it was. *)
Theorem get_peer_chooses now tried ps :
  covers tried (length ps) ->
  exists ps' tried' r, get_peer now tried ps = Some (ps', tried', r) /\
    length ps' = length ps /\
    sum_by rp_current_weight ps' = sum_by rp_current_weight ps /\
    match r with
    | Some p => heaviest now tried ps p /\
                forall i, (i < length ps)%nat ->
                  is_tried tried' i = if decide (i = p) then Some true else is_tried tried i
    | None => (forall k peer, ps !! k = Some peer -> usable now tried k peer = false) /\
              ps' = ps /\ tried' = tried
    end.
Proof.
  intros Hc. destruct (get_peer_spec now tried ps Hc) as [[Hn ->]|(p & Hp & ->)].
  - by exists ps, tried, None.
  - eexists _, _, (Some p). split; [done|]. rewrite length_alter, length_offer. split; [done|].
    destruct Hp as (b & Hb & Hu & Hmax). split.
    + by eapply sum_taken.
    + split; [by exists b|]. intros i Hi. eapply is_tried_set; [exact Hc|].
      by eapply lookup_lt_Some.
Qed.

(** Weights 5 and 1, the first tried already. *)
Lemma get_peer_chooses_witness :
  let peer w := RrPeer [] [] [] 0 w w 0 0 0 0 1 10 false in
  exists ps' tried', get_peer 0 [1] [peer 5; peer 1] = Some (ps', tried', Some 1%nat) /\
                     sum_by rp_current_weight ps' = 0.
Proof.
  intros peer.
  destruct (get_peer_chooses 0 [1] [peer 5; peer 1]) as (ps' & tried' & r & E & _ & Hs & _).
  { unfold covers. cbn. lia. }
  exists ps', tried'. split; [|exact Hs].
  assert (r = Some 1%nat) as ->; [|exact E]. vm_compute in E. by injection E.
Defined.

(** The effective weight stays between nothing and the weight. *)
Definition weight_ok (peer : rr_peer) : Prop := 0 <= rp_effective_weight peer <= rp_weight peer.

Lemma raise_weight_ok peer : weight_ok peer -> weight_ok (raise_weight peer).
Proof. unfold weight_ok, raise_weight. cbn. case_ifs; cbn; lia. Qed.

Lemma take_best_ok now total peer : weight_ok peer -> weight_ok (take_best now total peer).
Proof. unfold weight_ok, take_best. case_ifs; done. Qed.

Lemma free_peer_ok now single state peer :
  0 <= rp_max_fails peer -> weight_ok peer -> weight_ok (free_peer now single state peer).
Proof.
  unfold weight_ok. intros Hm H. unfold free_peer. destruct single; [done|].
  destruct (negb (Z.land state NGX_PEER_FAILED =? 0)).
  - unfold peer_failed. cbn. destruct (rp_max_fails peer =? 0) eqn:E; cbn; case_ifs; cbn; try lia.
    pose proof (Z.div_pos (rp_weight peer) (rp_max_fails peer) ltac:(lia) ltac:(lia)). lia.
  - unfold peer_passed. by case_ifs.
Qed.

(** Choosing and freeing keep every effective weight in its bounds. *)
Theorem weights_bounded now tried ps ps' tried' r single state i :
  covers tried (length ps) -> Forall weight_ok ps -> Forall (fun p => 0 <= rp_max_fails p) ps ->
  get_peer now tried ps = Some (ps', tried', r) ->
  Forall weight_ok ps' /\ Forall weight_ok (alter (free_peer now single state) i ps).
Proof.
  intros Hc Hw Hm E. split.
  - destruct (get_peer_spec now tried ps Hc) as [[_ E']|(p & _ & E')]; rewrite E in E'; injection E' as -> -> ->.
    { done. }
    apply Forall_alter; [|intros; by apply take_best_ok]. apply Forall_lookup. intros k x Hx.
    rewrite lookup_offer in Hx. destruct (ps !! k) as [q|] eqn:Eq; [|done]. injection Hx as <-.
    pose proof (Forall_lookup_1 _ _ _ _ Hw Eq). destruct (usable _ _ _ _); [by apply raise_weight_ok|done].
  - apply Forall_alter; [done|]. intros x Hx Ho. apply free_peer_ok; [|done].
    by apply (Forall_lookup_1 _ _ _ _ Hm Hx).
Qed.

(** ** The lists that the configuration makes *)

(** What [ngx_http_upstream_init_round_robin] builds. *)
Record well_formed (peers : rr_peers) : Prop := {
  wf_number : rs_number peers = Z.of_nat (length (rs_peer peers));
  wf_single : rs_single peers = true -> length (rs_peer peers) = 1%nat;
  wf_some : rs_peer peers <> [] }.

Lemma count_servers_list backup server :
  count_servers backup server =
    (Z.of_nat (length (list_servers backup server)), sum_by rp_weight (list_servers backup server)).
Proof.
  induction server as [|sv server IH]; [done|]. cbn [count_servers list_servers]. rewrite IH.
  destruct (Bool.eqb (sv_backup sv) backup); [|done].
  rewrite length_app, length_map, sum_by_app.
  assert (sum_by rp_weight (map (new_peer sv) (sv_addrs sv)) = Z.of_nat (length (sv_addrs sv)) * sv_weight sv)
    as ->; [|f_equal; lia].
  induction (sv_addrs sv) as [|a l IHl]; [done|]. cbn [map sum_by length]. rewrite IHl. cbn. lia.
Qed.

(** A peer no request has touched. *)
Definition fresh_peer (peer : rr_peer) : Prop :=
  rp_current_weight peer = 0 /\ rp_effective_weight peer = rp_weight peer /\ rp_conns peer = 0 /\
  rp_fails peer = 0 /\ rp_accessed peer = 0 /\ rp_checked peer = 0.

Lemma list_servers_fresh backup server : Forall fresh_peer (list_servers backup server).
Proof.
  induction server as [|sv server IH]; [constructor|]. cbn. destruct (Bool.eqb _ _); [|done].
  apply Forall_app. split; [|done]. induction (sv_addrs sv); constructor; [by split_and!|done].
Qed.

(** The lists [ngx_http_upstream_init_round_robin] builds: the servers and
    possibly the backup servers, none empty, with their number and their total
    weight, [single] only where there is one peer in all, and every peer fresh
    with its full weight. *)
Theorem init_round_robin_lists host port servers resolved us :
  init_round_robin host port servers resolved = Some us ->
  (servers = None -> resolved <> Some []) ->
  (1 <= length us <= 2)%nat /\ Forall well_formed us /\
  (length us = 2%nat -> Forall (fun peers => rs_single peers = false) us) /\
  Forall (fun peers => rs_total_weight peers = sum_by rp_weight (rs_peer peers) /\
                       Forall fresh_peer (rs_peer peers)) us.
Proof.
  intros H Hres. destruct servers as [server|]; cbn in H.
  - unfold init_servers in H. rewrite !count_servers_list in H.
    set (l := list_servers false server) in *. set (b := list_servers true server) in *.
    assert (Forall fresh_peer l /\ Forall fresh_peer b) as [Fl Fb] by (split; apply list_servers_fresh).
    destruct (Z.of_nat (length l) =? 0) eqn:El; [done|].
    assert (l <> []) as Hl by (intros E; rewrite E in El; done).
    destruct (Z.of_nat (length b) =? 0) eqn:Eb; injection H as <-; cbn;
      (split; [lia|]); (split; [|split; [intros; repeat constructor; lia|repeat constructor; done]]).
    + constructor; [|constructor]. split; cbn; [done|lia|done].
    + assert (b <> []) as Hb by (intros E; rewrite E in Eb; done).
      constructor; [split; cbn; done|]. constructor; [|constructor]. split; cbn; done.
  - specialize (Hres eq_refl). unfold init_implicit in H. destruct (port =? 0); [done|].
    destruct resolved as [addrs|]; [|done]. injection H as <-.
    assert (addrs <> []) as Hne by congruence. split; [cbn; lia|].
    split; [|split; [cbn; lia|]]; constructor; try constructor; cbn; rewrite ?length_map.
    + done.
    + lia.
    + by destruct addrs.
    + clear. induction addrs as [|a l IH]; [done|]. cbn [length map sum_by]. rewrite <-IH. cbn. lia.
    + clear. induction addrs; constructor; [by split_and!|done].
Qed.

Lemma init_round_robin_lists_witness :
  let sv w b := UpstreamServer [] [Addr [] []; Addr [] []] w 1 10 false b in
  exists us, init_round_robin [] 0 (Some [sv 5 false; sv 2 true]) None = Some us /\
             Forall (fun peers => rs_single peers = false) us.
Proof.
  intros sv. eexists; split; [vm_compute; reflexivity|].
  eapply (init_round_robin_lists [] 0 (Some [sv 5 false; sv 2 true]) None); [vm_compute; reflexivity|done|done].
Defined.

(** ** A new request's bitmap *)

Lemma tried_words_cover n : 0 <= n -> n <= 64 * Z.of_nat (tried_words n).
Proof.
  intros H. unfold tried_words. rewrite Z2Nat.id by (apply Z.div_pos; lia).
  pose proof (Z.div_mod (n + 63) 64 ltac:(lia)). pose proof (Z.mod_pos_bound (n + 63) 64 ltac:(lia)). lia.
Qed.

(** A new bitmap: large enough for every level, and empty. *)
Lemma init_tried us pc :
  us <> [] -> Forall well_formed us -> (length us <= 2)%nat ->
  exists tried, init_round_robin_peer us pc =
      Some (RrPeerData 0 None tried, set_pc_tries (upstream_tries us) pc) /\
    Forall (fun peers => covers tried (length (rs_peer peers))) us /\
    forall k, (k < 64 * length tried)%nat -> is_tried tried k = Some false.
Proof.
  intros Hne Hwf Hlen. destruct us as [|peers next]; [done|]. unfold init_round_robin_peer.
  set (n := match next with
            | backup :: _ => if rs_number peers <? rs_number backup then rs_number backup else rs_number peers
            | [] => rs_number peers end).
  eexists; split; [done|].
  inversion Hwf as [|? ? Hp Hn]; subst.
  assert (forall m, Z.of_nat m <= n -> covers (if n <=? 64 then [0] else replicate (tried_words n) 0) m) as Hc.
  { intros m Hm. unfold covers. destruct (n <=? 64) eqn:E; [cbn; lia|].
    rewrite length_replicate. pose proof (tried_words_cover n ltac:(lia)). lia. }
  split.
  - constructor; [apply Hc; rewrite <-(wf_number _ Hp); subst n; destruct next; [lia|case_ifs; lia]|].
    destruct next as [|backup [|? ?]]; [constructor| |cbn in Hlen; lia].
    inversion Hn as [|? ? Hb _]; subst. constructor; [|constructor].
    apply Hc. rewrite <-(wf_number _ Hb). subst n. case_ifs; lia.
  - intros k. destruct (n <=? 64).
    + intros Hk. by apply (is_tried_zeros 1).
    + rewrite length_replicate. apply is_tried_zeros.
Qed.
