(* ===== verification/RoundRobinFair.v ===== *)
(** * Round robin is fair

    Requests come, and end well, in any order, among servers that work: an
    account of the current weights shows what share of the requests each server
    of [RoundRobin] is given. *)

From S2P Require Import Prelude RoundRobin.

(** ** Accounts *)

(** A peer that works: it can always be chosen, at its full weight. *)
Definition healthy (peer : rr_peer) : Prop :=
  rp_down peer = false /\ 0 <= rp_fails peer /\
  (rp_max_fails peer = 0 \/ rp_fails peer < rp_max_fails peer) /\
  0 < rp_weight peer /\ rp_effective_weight peer = rp_weight peer.

Lemma healthy_usable now tried i peer :
  healthy peer -> is_tried tried i = Some false -> usable now tried i peer = true.
Proof.
  intros (Hd & Hf & Hm & _) Ht. unfold usable, is_failed. rewrite Ht, Hd. cbn [orb].
  apply negb_true_iff. lia.
Qed.

Lemma offered_all now tried ps : forall i,
  (forall k, (k < length ps)%nat -> is_tried tried (i + k) = Some false) -> Forall healthy ps ->
  offered now tried i ps = sum_by rp_weight ps.
Proof.
  induction ps as [|peer ps IH]; intros i Ht Hh; [done|]. inversion Hh as [|? ? Hp Hps]; subst.
  cbn [offered sum_by length] in *. rewrite (IH (S i)); [|intros k Hk|done].
  - rewrite healthy_usable; [by destruct Hp as (_ & _ & _ & _ & ->)|done|].
    rewrite <-(Nat.add_0_r i). apply Ht. lia.
  - replace (S i + k)%nat with (i + S k)%nat by lia. apply Ht. lia.
Qed.

Lemma sum_by_nonpos {A} (f : A -> Z) l :
  (forall k x, l !! k = Some x -> f x <= 0) -> sum_by f l <= 0.
Proof.
  induction l as [|x l IH]; intros H; [done|]. cbn.
  pose proof (H 0%nat x eq_refl). assert (sum_by f l <= 0) by (apply IH; intros k; apply (H (S k))). lia.
Qed.

Lemma sum_by_pos {A} (f : A -> Z) l : Forall (fun x => 0 < f x) l -> l <> [] -> 0 < sum_by f l.
Proof.
  intros H Hne. destruct l as [|x l]; [done|]. inversion H as [|? ? Hx Hl]; subst. cbn.
  assert (0 <= sum_by f l); [|lia]. clear -Hl. induction Hl; cbn; lia.
Qed.

Lemma sum_by_plus {A} (f g : A -> Z) l : sum_by (fun x => f x + g x) l = sum_by f l + sum_by g l.
Proof. induction l as [|x l IH]; cbn; lia. Qed.

Lemma sum_by_map {A B} (f : B -> Z) (g : A -> B) l : sum_by f (map g l) = sum_by (fun x => f (g x)) l.
Proof. induction l as [|x l IH]; cbn; [done|by rewrite IH]. Qed.

Notation sumz := (sum_by (fun x => x)).

Definition chosen (picks : list nat) (i : nat) : Z := Z.of_nat (count_occ Nat.eq_dec picks i).

(** After the choices [picks], latest first, a peer of weight [w] has the
    current weight [t * w - W * n]: [t] choices, [n] of them for that peer. *)
Record fair (ws : list Z) (picks : list nat) (ps : list rr_peer) : Prop := {
  fair_weights : map rp_weight ps = ws;
  fair_healthy : Forall healthy ps;
  fair_sum : sum_by rp_current_weight ps = 0;
  fair_account : forall i peer, ps !! i = Some peer ->
    rp_current_weight peer =
      Z.of_nat (length picks) * rp_weight peer - sumz ws * chosen picks i /\
    - sumz ws < rp_current_weight peer }.

(** What a change may do to a peer without disturbing the balance. *)
Definition unbalancing_free (g : rr_peer -> rr_peer) : Prop :=
  forall peer, healthy peer -> healthy (g peer) /\ rp_weight (g peer) = rp_weight peer /\
    rp_current_weight (g peer) = rp_current_weight peer.

Lemma fair_alter ws picks ps g p : unbalancing_free g -> fair ws picks ps -> fair ws picks (alter g p ps).
Proof.
  intros Hg Hf. pose proof Hf as [Hw Hh Hs Ha]. destruct (ps !! p) as [q|] eqn:Eq.
  2: { replace (alter g p ps) with ps; [done|].
       apply list_eq. intros k. destruct (decide (k = p)) as [-> |].
       - by rewrite list_lookup_alter_eq, Eq.
       - by rewrite list_lookup_alter_ne. }
  pose proof (Hg q (proj1 (Forall_lookup _ _) Hh _ _ Eq)) as (Hq & Hqw & Hqc). split.
  - rewrite <-Hw. apply list_eq. intros k. rewrite !list_lookup_fmap.
    destruct (decide (k = p)) as [-> |].
    + rewrite list_lookup_alter_eq, Eq. cbn. by rewrite Hqw.
    + by rewrite list_lookup_alter_ne.
  - apply Forall_alter; [done|]. intros x _ Hx. by apply Hg.
  - rewrite (sum_by_alter _ _ _ _ _ Eq). lia.
  - intros i peer H. destruct (decide (i = p)) as [-> |].
    + rewrite list_lookup_alter_eq, Eq in H. injection H as <-. rewrite Hqw, Hqc. by apply Ha.
    + rewrite list_lookup_alter_ne in H by done. by apply Ha.
Qed.

Lemma raise_healthy peer : healthy peer ->
  raise_weight peer = set_rp_current_weight (rp_current_weight peer + rp_weight peer) peer.
Proof.
  intros (_ & _ & _ & _ & He). unfold raise_weight. cbn. rewrite He, Z.ltb_irrefl. done.
Qed.

(** What a choice does to the peers, when all are healthy. *)
Definition next_peer (now total : Z) (p k : nat) (q : rr_peer) : rr_peer :=
  let q' := set_rp_current_weight (rp_current_weight q + rp_weight q) q in
  if decide (k = p) then take_best now total q' else q'.

Lemma fair_next ws picks ps ps' now p b :
  fair ws picks ps -> ps !! p = Some b -> 0 < rp_current_weight b + rp_weight b ->
  (forall k, ps' !! k = next_peer now (sumz ws) p k <$> ps !! k) ->
  sum_by rp_current_weight ps' = sum_by rp_current_weight ps ->
  fair ws (p :: picks) ps'.
Proof.
  intros [Hw Hh Hs Ha] Hb Hpos Hnew Hsum.
  assert (forall k q, rp_weight (next_peer now (sumz ws) p k q) = rp_weight q /\
    (healthy q -> healthy (next_peer now (sumz ws) p k q)) /\
    rp_current_weight (next_peer now (sumz ws) p k q) =
      rp_current_weight q + rp_weight q - (if decide (k = p) then sumz ws else 0)) as Hq.
  { intros k q. unfold next_peer, take_best, healthy. destruct (decide (k = p)); case_ifs; cbn;
      (split; [done|split; [done|lia]]). }
  split.
  - rewrite <-Hw. apply list_eq. intros k. rewrite !list_lookup_fmap, Hnew.
    destruct (ps !! k) as [q|]; [|done]. cbn. by rewrite (proj1 (Hq k q)).
  - apply Forall_lookup. intros k x Hx. rewrite Hnew in Hx.
    destruct (ps !! k) as [q|] eqn:Eq; [|done]. injection Hx as <-. apply Hq.
    by eapply Forall_lookup_1.
  - congruence.
  - intros k x Hx. rewrite Hnew in Hx. destruct (ps !! k) as [q|] eqn:Eq; [|done].
    injection Hx as <-. destruct (Hq k q) as (-> & _ & ->). destruct (Ha k q Eq) as [Hc Hlow].
    pose proof (Forall_lookup_1 _ _ _ _ Hh Eq) as (_ & _ & _ & Hqw & _).
    unfold chosen in *. cbn [length count_occ].
    destruct (decide (k = p)) as [-> |Hk].
    + destruct (Nat.eq_dec p p) as [_|]; [|done]. assert (q = b) as -> by congruence.
      split; [lia|]. lia.
    + destruct (Nat.eq_dec p k); [by subst|]. split; [lia|]. lia.
Qed.

(** A choice in a fair state makes the state fair again. *)
Lemma fair_get ws picks ps now tried :
  fair ws picks ps -> ps <> [] -> covers tried (length ps) ->
  (forall k, (k < length ps)%nat -> is_tried tried k = Some false) ->
  exists ps' p, get_peer now tried ps = Some (ps', set_tried tried p, Some p) /\
    length ps' = length ps /\ (p < length ps)%nat /\ fair ws (p :: picks) ps'.
Proof.
  intros [Hw Hh Hs Ha] Hne Hc Ht.
  assert (forall k q, ps !! k = Some q -> usable now tried k q = true) as Hall.
  { intros k q Hk. apply healthy_usable; [by eapply Forall_lookup_1|]. apply Ht. by eapply lookup_lt_Some. }
  destruct (get_peer_spec now tried ps Hc) as [[Hn _]|(p & (b & Hb & Hu & Hmax) & E)].
  { destruct ps as [|q ps]; [done|]. specialize (Hn 0%nat q eq_refl). by rewrite Hall in Hn. }
  rewrite (offered_all now tried ps 0) in E by done.
  assert (sum_by rp_weight ps = sumz ws) as HW by (by rewrite <-Hw, sum_by_map).
  assert (0 < rp_current_weight b + rp_weight b) as Hpos.
  { destruct (Z.lt_ge_cases 0 (rp_current_weight b + rp_weight b)) as [|Hle]; [done|].
    assert (sum_by (fun q => rp_current_weight q + rp_weight q) ps <= 0) as Hsum.
    { apply sum_by_nonpos. intros k q Hk. destruct (Hmax k q Hk (Hall k q Hk)) as [H _].
      pose proof (Forall_lookup_1 _ _ _ _ Hh Hk) as (_ & _ & _ & _ & Hq).
      pose proof (Forall_lookup_1 _ _ _ _ Hh Hb) as (_ & _ & _ & _ & Hb'). lia. }
    rewrite sum_by_plus, Hs, HW in Hsum.
    assert (0 < sum_by rp_weight ps); [|lia]. apply sum_by_pos; [|done].
    eapply Forall_impl; [exact Hh|]. by intros q (_ & _ & _ & Hq & _). }
  assert (forall k, alter (take_best now (sum_by rp_weight ps)) p (offer now tried 0 ps) !! k =
    (fun q => let q' := set_rp_current_weight (rp_current_weight q + rp_weight q) q in
              if decide (k = p) then take_best now (sum_by rp_weight ps) q' else q') <$> ps !! k) as Hnew.
  { intros k. assert (offer now tried 0 ps !! k = raise_weight <$> ps !! k) as Ho.
    { rewrite lookup_offer. destruct (ps !! k) as [q|] eqn:Ek; [|done]. cbn.
      by rewrite (Hall k q Ek). }
    assert (forall q, ps !! k = Some q -> raise_weight q =
      set_rp_current_weight (rp_current_weight q + rp_weight q) q) as Hr.
    { intros q Hq. apply raise_healthy. by eapply Forall_lookup_1. }
    destruct (decide (k = p)) as [-> |Hk].
    - rewrite list_lookup_alter_eq, Ho. destruct (ps !! p) as [q|]; [|done]. cbn. by rewrite Hr.
    - rewrite list_lookup_alter_ne, Ho by done. destruct (ps !! k) as [q|]; [|done]. cbn. by rewrite Hr. }
  eexists _, p. split; [exact E|]. rewrite length_alter, length_offer. split; [done|].
  split; [by eapply lookup_lt_Some|].
  eapply fair_next; [by split|exact Hb|done| |].
  - intros k. by rewrite Hnew, HW.
  - rewrite <-(offered_all now tried ps 0) by done. by eapply sum_taken.
Qed.

(** *** Requests that arrive and succeed *)

Inductive event : Type :=
| Arrive (now : Z)             (** a request comes: its peer is chosen *)
| Finish (now : Z) (p : nat).  (** a request to the [p]-th peer ends well *)

Definition new_connection : peer_connection := PeerConnection None None [] 0 false.

(** A new request and its first peer, one of the servers that are no backup. *)
Definition arrive (now : Z) (us : list rr_peers) : option (list rr_peers * nat) :=
  match init_round_robin_peer us new_connection with
  | None => None
  | Some (rrp, pc) =>
      match pc_get now us pc rrp with
      | Some (rc, us, _, rrp) =>
          match rrp_current rrp with
          | Some (O, p) => if rc =? NGX_OK then Some (us, p) else None
          | _ => None
          end
      | None => None
      end
  end.

Definition finish (now : Z) (p : nat) (us : list rr_peers) : option (list rr_peers) :=
  fst <$> free_round_robin_peer now us new_connection (RrPeerData 0 (Some (0%nat, p)) [0]) 0.

(** The events in their order; the choices, latest first. *)
Fixpoint run_events (evs : list event) (us : list rr_peers) (picks : list nat)
    : option (list rr_peers * list nat) :=
  match evs with
  | [] => Some (us, picks)
  | Arrive now :: evs =>
      match arrive now us with
      | Some (us, p) => run_events evs us (p :: picks)
      | None => None
      end
  | Finish now p :: evs =>
      match finish now p us with
      | Some us => run_events evs us picks
      | None => None
      end
  end.

(** Three servers with weights 5, 1 and 1. *)
Example smooth :
  let server w := UpstreamServer [] [Addr [] []] w 1 10 false false in
  match init_servers [] [server 5; server 1; server 1] with
  | Some us => snd <$> run_events (replicate 14 (Arrive 0)) us []
  | None => None
  end = Some [0; 0; 2; 0; 1; 0; 0; 0; 0; 2; 0; 1; 0; 0]%nat.
Proof. vm_compute. done. Qed.

Lemma bump_unbalancing d : unbalancing_free (bump_conns d).
Proof. intros peer H. by split. Qed.

Lemma success_unbalancing now single : unbalancing_free (free_peer now single 0).
Proof.
  intros peer (H1 & H2 & H3 & H4). unfold free_peer, healthy, peer_passed.
  destruct single; [by split|]. cbn [negb Z.land Z.eqb]. case_ifs; cbn; (split; [|done]); split_and!; try done; try lia; by apply H4.
Qed.

(** A fair state: its first level is, and the shape is that of the beginning. *)
Definition fair_us (ws : list Z) (picks : list nat) (us : list rr_peers) : Prop :=
  Forall well_formed us /\ (length us <= 2)%nat /\
  exists peers next, us = peers :: next /\ fair ws picks (rs_peer peers).

Lemma well_formed_peer peers ps :
  length ps = length (rs_peer peers) -> well_formed peers -> well_formed (set_rs_peer ps peers).
Proof.
  intros Hl [H1 H2 H3]. split; cbn; rewrite ?Hl; auto. destruct ps, (rs_peer peers); done.
Qed.

Lemma fair_choose ws picks peers now tried :
  well_formed peers -> fair ws picks (rs_peer peers) -> covers tried (length (rs_peer peers)) ->
  (forall k, (k < length (rs_peer peers))%nat -> is_tried tried k = Some false) ->
  exists ps tried' p, choose now tried peers = Some (ps, tried', Some p) /\
    length ps = length (rs_peer peers) /\ (p < length ps)%nat /\ fair ws (p :: picks) ps.
Proof.
  intros [_ Hs Hne] Hf Hc Ht. unfold choose. destruct (rs_single peers).
  - specialize (Hs eq_refl). destruct (rs_peer peers) as [|b [|? ?]] eqn:E; try (cbn in Hs; lia).
    destruct Hf as [Hw Hh Hsum Ha]. inversion Hh as [|? ? Hb _]; subst.
    destruct Hb as (Hd & Hb). rewrite Hd. exists [b], tried, 0%nat.
    split; [done|]. split; [done|]. split; [cbn; lia|]. split; [done|done|done|].
    intros [|i] q Hq; [|done]. injection Hq as <-. destruct (Ha 0%nat b eq_refl) as [Hcw Hlow].
    unfold chosen in *. cbn in *. split; [|done]. lia.
  - destruct (fair_get ws picks _ now tried Hf Hne Hc Ht) as (ps' & p & E & Hl & Hp & Hf').
    exists ps', (set_tried tried p), p. rewrite Hl. by split_and!.
Qed.

Lemma fair_arrive ws picks us now :
  fair_us ws picks us ->
  exists us' p, arrive now us = Some (us', p) /\ fair_us ws (p :: picks) us' /\
                map (fun ps => length (rs_peer ps)) us' = map (fun ps => length (rs_peer ps)) us.
Proof.
  intros (Hwf & Hlen & peers & next & -> & Hf). unfold arrive.
  destruct (init_tried (peers :: next) new_connection ltac:(done) Hwf Hlen) as (tried & -> & Hc & Ht).
  inversion Hwf as [|? ? Hp Hn]; subst. inversion Hc as [|? ? Hcp _]; subst.
  unfold pc_get. cbn [rrp_peers drop take app get_round_robin_peer rrp_tried].
  destruct (fair_choose ws picks peers now tried Hp Hf Hcp) as (ps & tried' & p & -> & Hl & Hlt & Hf').
  { intros k Hk. apply Ht. unfold covers in Hcp. lia. }
  destruct (lookup_lt_is_Some_2 ps p Hlt) as [q ->]. cbn [rrp_current set_rrp_current rrp_peers].
  eexists _, p. split; [done|].
  assert (length (alter (bump_conns 1) p ps) = length (rs_peer peers)) as Hl' by by rewrite length_alter.
  split; [|by cbn; rewrite Hl'].
  split; [constructor; [by apply well_formed_peer|done]|]. split; [done|].
  eexists _, next. split; [done|]. apply fair_alter; [apply bump_unbalancing|done].
Qed.

Lemma fair_finish ws picks us now p :
  fair_us ws picks us ->
  exists us', finish now p us = Some us' /\ fair_us ws picks us' /\
              map (fun ps => length (rs_peer ps)) us' = map (fun ps => length (rs_peer ps)) us.
Proof.
  intros (Hwf & Hlen & peers & next & -> & Hf). unfold finish, free_round_robin_peer. cbn.
  eexists; split; [done|]. inversion Hwf; subst.
  split; [|by cbn; rewrite length_alter]. split; [constructor; [|done]; apply well_formed_peer; [by rewrite length_alter|done]|].
  split; [done|]. eexists _, next. split; [done|]. apply fair_alter; [apply success_unbalancing|done].
Qed.

Lemma fair_run ws evs : forall picks us, fair_us ws picks us ->
  exists us' picks', run_events evs us picks = Some (us', picks') /\ fair_us ws picks' us' /\
    map (fun ps => length (rs_peer ps)) us' = map (fun ps => length (rs_peer ps)) us.
Proof.
  induction evs as [|[now|now p] evs IH]; intros picks us Hf; [by exists us, picks| |]; cbn [run_events].
  - destruct (fair_arrive ws picks us now Hf) as (us1 & p & -> & Hf1 & Hl1).
    destruct (IH _ _ Hf1) as (us2 & picks2 & -> & Hf2 & Hl2). exists us2, picks2. by rewrite Hl2.
  - destruct (fair_finish ws picks us now p Hf) as (us1 & -> & Hf1 & Hl1).
    destruct (IH _ _ Hf1) as (us2 & picks2 & -> & Hf2 & Hl2). exists us2, picks2. by rewrite Hl2.
Qed.

(** The weights' accounts leave no choice when the requests are a multiple of
    the total weight. *)
Lemma fair_cycle ws picks ps k i q :
  fair ws picks ps -> ps !! i = Some q -> Z.of_nat (length picks) = k * sumz ws ->
  chosen picks i = k * rp_weight q /\ rp_current_weight q = 0.
Proof.
  intros [Hw Hh Hs Ha] Hq Hk.
  assert (0 < sumz ws) as HW.
  { rewrite <-Hw, sum_by_map. apply sum_by_pos; [|by intros ->].
    eapply Forall_impl; [exact Hh|]. by intros x (_ & _ & _ & Hx & _). }
  assert (forall j x, ps !! j = Some x -> 0 <= rp_current_weight x) as Hnn.
  { intros j x Hx. destruct (Ha j x Hx) as [Hc Hlow]. rewrite Hk in Hc.
    replace (k * sumz ws * rp_weight x - sumz ws * chosen picks j)
      with (sumz ws * (k * rp_weight x - chosen picks j)) in Hc by lia.
    rewrite Hc in Hlow |- *. assert (- 1 < k * rp_weight x - chosen picks j) by nia. nia. }
  assert (rp_current_weight q = 0) as H0.
  { assert (rp_current_weight q <= sum_by rp_current_weight ps); [|specialize (Hnn i q Hq); lia].
    clear -Hnn Hq. revert i Hq. induction ps as [|x ps IH]; intros [|i] Hq; [done|done| |]; cbn.
    - injection Hq as ->. assert (0 <= sum_by rp_current_weight ps); [|lia].
      assert (sum_by (fun x => - rp_current_weight x) ps <= 0) as H.
      { apply sum_by_nonpos. intros j x Hx. pose proof (Hnn (S j) x Hx). lia. }
      clear -H. assert (sum_by (fun x => - rp_current_weight x) ps = - sum_by rp_current_weight ps);
        [clear; induction ps; cbn; lia|lia].
    - pose proof (Hnn 0%nat x eq_refl). specialize (IH (fun j y H => Hnn (S j) y H) i Hq). lia. }
  split; [|done]. destruct (Ha i q Hq) as [Hc _]. rewrite H0, Hk in Hc. nia.
Qed.

Fixpoint arrivals (evs : list event) : nat :=
  match evs with
  | [] => 0
  | Arrive _ :: evs => S (arrivals evs)
  | Finish _ _ :: evs => arrivals evs
  end.

Lemma run_length evs : forall us picks us' picks',
  run_events evs us picks = Some (us', picks') -> length picks' = (arrivals evs + length picks)%nat.
Proof.
  induction evs as [|[now|now p] evs IH]; intros us picks us' picks' H;
    cbn [run_events arrivals] in *.
  - by injection H as _ <-.
  - destruct (arrive now us) as [[us1 p]|]; [|done]. rewrite (IH _ _ _ _ H). cbn. lia.
  - destruct (finish now p us) as [us1|]; [|done]. exact (IH _ _ _ _ H).
Qed.

(** C24: smooth weighted round robin is fair.  Among servers that work, while
    requests come and end in any order, every request gets a server; after [t]
    requests a server of weight [w] was never given as much as one request more
    than its share [t * w / W], [W] being the total weight; and after any
    multiple of [W] requests every server was given exactly its share. *)
Theorem smooth_fairness peers next evs :
  Forall well_formed (peers :: next) -> (length next <= 1)%nat ->
  Forall healthy (rs_peer peers) -> Forall (fun p => rp_current_weight p = 0) (rs_peer peers) ->
  let W := sum_by rp_weight (rs_peer peers) in
  exists us' picks, run_events evs (peers :: next) [] = Some (us', picks) /\
    length picks = arrivals evs /\
    forall i peer, rs_peer peers !! i = Some peer ->
      W * chosen picks i < Z.of_nat (arrivals evs) * rp_weight peer + W /\
      forall k, Z.of_nat (arrivals evs) = k * W -> chosen picks i = k * rp_weight peer.
Proof.
  intros Hwf Hlen Hh H0. set (ws := map rp_weight (rs_peer peers)).
  assert (sum_by rp_weight (rs_peer peers) = sumz ws) as HW by (unfold ws; by rewrite sum_by_map).
  assert (forall i q, rs_peer peers !! i = Some q -> rp_current_weight q = 0) as Hz.
  { intros i q Hq. exact (Forall_lookup_1 _ _ _ _ H0 Hq). }
  destruct (fair_run ws evs [] (peers :: next)) as (us' & picks & E & (_ & _ & peers' & next' & -> & Hf) & _).
  { split; [done|]. split; [cbn; lia|]. exists peers, next. split; [done|]. split; [done|done| |].
    - clear -H0. induction H0; cbn; lia.
    - intros i q Hq. rewrite (Hz i q Hq). unfold chosen. cbn. split; [lia|].
      assert (0 < sumz ws); [|lia]. rewrite <-HW. apply sum_by_pos; [|by destruct (rs_peer peers)].
      eapply Forall_impl; [exact Hh|]. by intros x (_ & _ & _ & Hx & _). }
  eexists _, picks. split; [exact E|]. pose proof (run_length _ _ _ _ _ E) as Hn.
  cbn [length] in Hn. rewrite Nat.add_0_r in Hn. split; [done|]. intros i q Hq. cbv zeta. rewrite HW.
  assert (exists q', rs_peer peers' !! i = Some q' /\ rp_weight q' = rp_weight q) as (q' & Hq' & Hqw).
  { destruct Hf as [Hw _ _ _]. apply (f_equal (fun l => l !! i)) in Hw. unfold ws in Hw.
    rewrite !list_lookup_fmap, Hq in Hw. destruct (rs_peer peers' !! i) as [q'|]; [|done].
    exists q'. by injection Hw. }
  rewrite <-Hn, <-Hqw. split.
  - destruct (fair_account _ _ _ Hf i q' Hq') as [Hc Hlow]. lia.
  - intros k Hk. by apply (fair_cycle ws picks (rs_peer peers')).
Qed.

Lemma smooth_fairness_witness :
  let server w := RrPeer [] [] [] 0 w w 0 0 0 0 1 10 false in
  let peers := RrPeers 3 7 false true [] [server 5; server 1; server 1] in
  exists us' picks, run_events (replicate 14 (Arrive 0)) [peers] [] = Some (us', picks) /\
                    chosen picks 0 = 10.
Proof.
  intros server peers.
  destruct (smooth_fairness peers [] (replicate 14 (Arrive 0))) as (us' & picks & E & _ & H).
  - repeat constructor; done.
  - cbn; lia.
  - unfold peers, server. repeat (constructor; [unfold healthy; cbn; lia|]); constructor.
  - unfold peers, server. repeat (constructor; [done|]); constructor.
  - exists us', picks. split; [exact E|]. apply (proj2 (H 0%nat (server 5) eq_refl) 2). done.
Defined.
