(* ===== verification/RoundRobinRequest.v ===== *)
(** * A request and its peers

    What one request sees of the peers it shares with the others ([RoundRobin]):
    the peers it is given, one after the other, and what a failure does to a
    peer. *)

From S2P Require Import Prelude RoundRobin.

(** ** No peer twice *)

Definition shape_of (peers : rr_peers) : bool * Z * nat :=
  (rs_single peers, rs_number peers, length (rs_peer peers)).

(** The requests share the peers: what others do to them keeps their shape. *)
Definition same_shape (us us' : list rr_peers) : Prop := map shape_of us' = map shape_of us.

(** A level a request can use: several peers, and a bit for each. *)
Definition ready (tried : list Z) (peers : rr_peers) : Prop :=
  well_formed peers /\ rs_single peers = false /\ covers tried (length (rs_peer peers)).

(** What [get_round_robin_peer] can do, [rrp->peers] being the level [L]. *)
Record get_outcome (L : nat) (us : list rr_peers) (tried : list Z)
    (rc : Z) (us' : list rr_peers) (rrp' : rr_peer_data) : Prop := {
  out_rc : rc = NGX_OK \/ rc = NGX_BUSY;
  out_shape : same_shape us us';
  out_level : (L <= rrp_peers rrp' < L + length us)%nat;
  out_length : length (rrp_tried rrp') = length tried;
  (** the bits of the level are kept, but for that of the peer chosen *)
  out_bits : rrp_peers rrp' = L -> forall i peers, us !! 0%nat = Some peers ->
    (i < length (rs_peer peers))%nat ->
    is_tried tried i = Some true -> is_tried (rrp_tried rrp') i = Some true;
  out_choice : rc = NGX_OK -> exists p peers,
    rrp_current rrp' = Some (rrp_peers rrp', p) /\ us !! (rrp_peers rrp' - L)%nat = Some peers /\
    (p < length (rs_peer peers))%nat /\ is_tried (rrp_tried rrp') p = Some true /\
    (rrp_peers rrp' = L -> is_tried tried p = Some false) }.

Lemma usable_untried now tried i peer : usable now tried i peer = true -> is_tried tried i = Some false.
Proof. unfold usable. by destruct (is_tried tried i) as [[]|]. Qed.

Lemma clear_tried_spec n tried m :
  covers tried n -> m = Z.of_nat n ->
  exists tried', clear_tried (tried_words m) tried = Some tried' /\ length tried' = length tried.
Proof.
  intros Hc ->. unfold clear_tried.
  assert (tried_words (Z.of_nat n) <= length tried)%nat as Hle.
  { unfold tried_words, covers in *.
    pose proof (Z.div_mod (Z.of_nat n + 63) 64 ltac:(lia)).
    pose proof (Z.mod_pos_bound (Z.of_nat n + 63) 64 ltac:(lia)). lia. }
  apply Nat.leb_le in Hle as Hb. rewrite Hb. eexists; split; [done|].
  rewrite length_app, length_replicate, length_drop. lia.
Qed.

Lemma get_spec now us : forall pc rrp,
  us <> [] -> Forall (ready (rrp_tried rrp)) us ->
  exists rc us' pc' rrp', get_round_robin_peer now us pc rrp = Some (rc, us', pc', rrp') /\
    get_outcome (rrp_peers rrp) us (rrp_tried rrp) rc us' rrp'.
Proof.
  induction us as [|peers next IH]; intros pc rrp Hne Hr; [done|].
  inversion Hr as [|? ? (Hwf & Hs & Hc) Hn]; subst. cbn [get_round_robin_peer].
  unfold choose. rewrite Hs. set (pc0 := set_pc_connection None _). clearbody pc0.
  destruct (get_peer_spec now (rrp_tried rrp) (rs_peer peers) Hc) as [[_ ->]|(p & (b & Hb & Hu & _) & ->)].
  2: { assert (p < length (rs_peer peers))%nat as Hp by (by eapply lookup_lt_Some).
    destruct (lookup_lt_is_Some_2 (alter (take_best now (offered now (rrp_tried rrp) 0 (rs_peer peers))) p
      (offer now (rrp_tried rrp) 0 (rs_peer peers))) p) as [q ->].
    { by rewrite length_alter, length_offer. }
    eexists _, _, _, _. split; [done|]. split; cbn -[set_tried is_tried].
    - by left.
    - unfold same_shape, shape_of. cbn. by rewrite !length_alter, length_offer.
    - lia.
    - unfold set_tried. by rewrite length_alter.
    - intros _ i ps [= <-] Hi Ht. rewrite (is_tried_set _ (length (rs_peer peers))) by done.
      by case_decide.
    - intros _. exists p, peers. rewrite Nat.sub_diag, (is_tried_set _ (length (rs_peer peers))) by done.
      split_and!; [done|done|done|by rewrite decide_True|]. intros _. by eapply usable_untried. }
  destruct next as [|backup next].
  { eexists _, _, _, _. split; [done|]. split; cbn; [by right| |lia|done|done|done].
    unfold same_shape, shape_of. cbn. by rewrite length_map. }
  inversion Hn as [|? ? (Hwfb & Hsb & Hcb) Hn']; subst.
  destruct (clear_tried_spec _ _ _ Hcb (wf_number _ Hwfb)) as (tried' & -> & Hlt).
  set (rrp1 := set_rrp_tried tried' (set_rrp_peers (S (rrp_peers rrp)) rrp)).
  destruct (IH pc0 rrp1 ltac:(done)) as (rc & us' & pc' & rrp' & -> & Hout).
  { cbn. eapply Forall_impl; [exact Hn|]. intros x (H1 & H2 & H3). split_and!; [done|done|].
    unfold covers. by rewrite Hlt. }
  destruct Hout as [Hrc Hsh Hlv Hlen _ Hch]. cbn [rrp1 rrp_peers rrp_tried set_rrp_tried set_rrp_peers] in *.
  destruct (negb (rc =? NGX_BUSY)) eqn:Erc.
  - eexists _, _, _, _. split; [done|]. split; cbn in *; try done; try lia.
    + unfold same_shape, shape_of in *. cbn. by rewrite Hsh.
    + intros H. destruct (Hch H) as (p & ps & H1 & H2 & H3 & H4 & _). exists p, ps.
      split_and!; [done| |done|done|lia].
      rewrite <-H2. replace (rrp_peers rrp' - rrp_peers rrp)%nat
        with (S (rrp_peers rrp' - S (rrp_peers rrp))) by lia. done.
  - eexists _, _, _, _. split; [done|]. split; cbn in *; try done; try lia.
    unfold same_shape, shape_of in *. cbn. by rewrite Hsh, length_map.
Qed.

(** Levels as [ngx_http_upstream_init_round_robin] builds them, with a choice to make. *)
Definition several (us : list rr_peers) : Prop :=
  us <> [] /\ (length us <= 2)%nat /\ Forall well_formed us /\
  Forall (fun peers => rs_single peers = false) us.

(** One request, among others that share the peers: the peers it was given,
    latest first. *)
Inductive request_run : list (nat * nat) -> list rr_peers -> rr_peer_data -> Prop :=
| run_start us pc pc' rrp :
    several us -> init_round_robin_peer us pc = Some (rrp, pc') -> request_run [] us rrp
| run_get picks now us pc rrp us' pc' rrp' c :
    request_run picks us rrp ->
    pc_get now us pc rrp = Some (NGX_OK, us', pc', rrp') -> rrp_current rrp' = Some c ->
    request_run (c :: picks) us' rrp'
| run_busy picks now us pc rrp us' pc' rrp' :
    request_run picks us rrp ->
    pc_get now us pc rrp = Some (NGX_BUSY, us', pc', rrp') ->
    request_run picks us' rrp'
| run_others picks us us' rrp :
    request_run picks us rrp -> same_shape us us' -> request_run picks us' rrp.

(** Freeing a peer is among what [run_others] allows. *)
Lemma free_shape now us pc rrp state us' pc' :
  free_round_robin_peer now us pc rrp state = Some (us', pc') -> same_shape us us'.
Proof.
  unfold free_round_robin_peer. destruct (rrp_current rrp) as [[l p]|]; [|done].
  destruct (us !! rrp_peers rrp) as [peers|]; [|done]. intros [= <- _].
  unfold same_shape. apply list_eq. intros k. rewrite !list_lookup_fmap.
  destruct (decide (k = l)) as [-> |].
  - rewrite list_lookup_alter_eq. destruct (us !! l) as [ps|]; [|done]. cbn.
    unfold shape_of. cbn. by rewrite length_alter.
  - by rewrite list_lookup_alter_ne.
Qed.

Lemma several_shape us us' : same_shape us us' -> several us -> several us'.
Proof.
  intros Hs (Hne & Hl & Hwf & Hsg).
  assert (length us' = length us) as Hlen.
  { apply (f_equal length) in Hs. by rewrite !length_map in Hs. }
  assert (forall k x, us' !! k = Some x -> exists y, us !! k = Some y /\ shape_of x = shape_of y) as H.
  { intros k x Hx. apply (f_equal (fun l => l !! k)) in Hs. rewrite !list_lookup_fmap, Hx in Hs.
    destruct (us !! k) as [y|]; [|done]. exists y. split; [done|]. by apply (inj Some) in Hs. }
  split_and!; [intros ->; destruct us; [done|cbn in Hlen; lia]|lia| |]; apply Forall_lookup; intros k x Hx;
    destruct (H k x Hx) as (y & Hy & E); injection E as E1 E2 E3.
  - destruct (Forall_lookup_1 _ _ _ _ Hwf Hy) as [W1 W2 W3]. split; rewrite ?E1, ?E2, ?E3; auto.
    destruct (rs_peer x), (rs_peer y); done.
  - rewrite E1. by apply (Forall_lookup_1 _ _ _ _ Hsg Hy).
Qed.

Lemma number_shape us us' k x :
  same_shape us us' -> us !! k = Some x ->
  exists x', us' !! k = Some x' /\ length (rs_peer x') = length (rs_peer x) /\
             rs_number x' = rs_number x.
Proof.
  intros Hs Hx. apply (f_equal (fun l => l !! k)) in Hs. rewrite !list_lookup_fmap, Hx in Hs.
  destruct (us' !! k) as [x'|]; [|done]. exists x'. by injection Hs.
Qed.

(** Every peer given so far is behind the request: its level is, or its bit is set. *)
Record request_inv (picks : list (nat * nat)) (us : list rr_peers) (rrp : rr_peer_data) : Prop := {
  inv_several : several us;
  inv_level : (rrp_peers rrp < length us)%nat;
  inv_covers : Forall (fun peers => covers (rrp_tried rrp) (length (rs_peer peers))) us;
  inv_nodup : NoDup picks;
  inv_picks : forall l p, (l, p) ∈ picks -> (l <= rrp_peers rrp)%nat /\
    (exists peers, us !! l = Some peers /\ (p < length (rs_peer peers))%nat) /\
    (l = rrp_peers rrp -> is_tried (rrp_tried rrp) p = Some true) }.

Lemma inv_others picks us us' rrp :
  request_inv picks us rrp -> same_shape us us' -> request_inv picks us' rrp.
Proof.
  intros [Hsv Hlv Hc Hn Hp] Hs.
  assert (length us' = length us) as Hlen.
  { apply (f_equal length) in Hs. by rewrite !length_map in Hs. }
  split; [by eapply several_shape|lia| |done|].
  - apply Forall_lookup. intros k x' Hx'. destruct (lookup_lt_is_Some_2 us k) as [x Hx].
    { apply lookup_lt_Some in Hx'. lia. }
    destruct (number_shape us us' k x Hs Hx) as (x'' & Hx'' & Hl & _).
    assert (x'' = x') as -> by congruence. rewrite Hl. by apply (Forall_lookup_1 _ _ _ _ Hc Hx).
  - intros l p Hin. destruct (Hp l p Hin) as (H1 & (peers & H2 & H3) & H4).
    split; [done|]. split; [|done].
    destruct (number_shape us us' l peers Hs H2) as (x' & Hx' & Hl & _). exists x'. by rewrite Hl.
Qed.

Lemma inv_get picks now us pc rrp :
  request_inv picks us rrp ->
  exists rc us' pc' rrp', pc_get now us pc rrp = Some (rc, us', pc', rrp') /\
    same_shape us us' /\
    (rc = NGX_OK \/ rc = NGX_BUSY) /\ request_inv picks us' rrp' /\
    (rc = NGX_OK -> exists c, rrp_current rrp' = Some c /\ request_inv (c :: picks) us' rrp').
Proof.
  intros [(Hne & Hl2 & Hwf & Hsg) Hlv Hc Hn Hp]. set (L := rrp_peers rrp) in *.
  assert (drop L us <> []) as Hd.
  { intros E. apply (f_equal length) in E. rewrite length_drop in E. cbn in E. lia. }
  assert (Forall (ready (rrp_tried rrp)) (drop L us)) as Hr.
  { apply Forall_drop. apply Forall_lookup. intros k x Hx.
    split_and!; [by apply (Forall_lookup_1 _ _ _ _ Hwf Hx)|by apply (Forall_lookup_1 _ _ _ _ Hsg Hx)|
      by apply (Forall_lookup_1 _ _ _ _ Hc Hx)]. }
  destruct (get_spec now (drop L us) pc rrp Hd Hr) as (rc & us1 & pc' & rrp' & E & Hout).
  destruct Hout as [Hrc Hsh Hlevel Hlen Hbits Hchoice]. fold L in Hlevel, Hbits, Hchoice.
  rewrite length_drop in Hlevel. unfold pc_get. fold L. rewrite E.
  assert (same_shape us (take L us ++ us1)) as Hs.
  { unfold same_shape in *. rewrite map_app, Hsh, <-map_app. by rewrite take_drop. }
  assert (request_inv picks us rrp') as Hinv.
  { split; [done|lia| |done|].
    - eapply Forall_impl; [exact Hc|]. intros x Hx. cbn in *. unfold covers in *. by rewrite Hlen.
    - intros l p Hin. destruct (Hp l p Hin) as (H1 & (ps & H2 & H3) & H4).
      split; [lia|]. split; [by exists ps|]. intros ->.
      assert (rrp_peers rrp' = L) as HL by lia.
      apply (Hbits HL p ps); [|done|apply H4; lia].
      rewrite lookup_drop, Nat.add_0_r. by rewrite <-HL. }
  eexists _, _, _, _. split; [done|]. split; [done|]. split; [done|].
  split; [by eapply inv_others|].
  intros HOK. destruct (Hchoice HOK) as (p & ps & H1 & H2 & H3 & H4 & H5).
  exists (rrp_peers rrp', p). split; [done|]. eapply inv_others; [|exact Hs].
  rewrite lookup_drop in H2. replace (L + (rrp_peers rrp' - L))%nat with (rrp_peers rrp') in H2 by lia.
  destruct Hinv as [Hsv Hlv' Hc' _ Hp']. split; [done|done|done| |].
  - constructor; [|done]. intros Hin. destruct (Hp _ _ Hin) as (Hle & _ & Ht). fold L in Hle.
    assert (rrp_peers rrp' = L) as HL by lia. specialize (H5 HL). rewrite Ht in H5; done.
  - intros l q Hin. apply elem_of_cons in Hin as [[= -> ->]|Hin]; [|by apply Hp'].
    split; [lia|]. split; [by exists ps|done].
Qed.

Lemma inv_run picks us rrp : request_run picks us rrp -> request_inv picks us rrp.
Proof.
  induction 1 as [us pc pc' rrp Hs Hi|picks now us pc rrp us' pc' rrp' c _ IH Hg Hc
                 |picks now us pc rrp us' pc' rrp' _ IH Hg|picks us us' rrp _ IH Hs].
  - pose proof Hs as (Hne & Hl & Hwf & _). destruct (init_tried us pc Hne Hwf Hl) as (tried & E & Hcov & _).
    rewrite E in Hi. injection Hi as <- _. split; [done| |done|constructor|].
    + cbn. destruct us; [done|cbn; lia].
    + intros l p H. by apply elem_of_nil in H.
  - destruct (inv_get picks now us pc rrp IH) as (rc & u & q & r & E & _ & _ & _ & Hok).
    rewrite Hg in E. injection E as <- <- <- <-. destruct (Hok eq_refl) as (c' & Hc' & Hinv).
    rewrite Hc in Hc'. by injection Hc' as <-.
  - destruct (inv_get picks now us pc rrp IH) as (rc & u & q & r & E & _ & _ & Hinv & _).
    rewrite Hg in E. by injection E as <- <- <- <-.
  - by eapply inv_others.
Qed.

Lemma picks_bound picks us rrp :
  request_inv picks us rrp -> Z.of_nat (length picks) <= upstream_tries us.
Proof.
  intros [(Hne & Hl & Hwf & _) _ _ Hn Hp].
  set (all := flat_map (fun l => match us !! l with
                                 | Some ps => map (pair l) (seq 0 (length (rs_peer ps)))
                                 | None => [] end) [0; 1]%nat).
  assert (picks ⊆+ all) as Hsub.
  { apply NoDup_submseteq; [done|]. intros [l p] Hin.
    destruct (Hp l p Hin) as (_ & (ps & Hps & Hlt) & _). apply list_elem_of_In, in_flat_map.
    assert (l < length us)%nat by (by eapply lookup_lt_Some). exists l.
    split; [cbn; lia|]. rewrite Hps. apply in_map, in_seq. lia. }
  apply submseteq_length in Hsub.
  assert (Z.of_nat (length all) = upstream_tries us) as <-; [|lia].
  subst all. destruct us as [|a [|b [|? ?]]]; [done| | |cbn in Hl; lia]; cbn;
    inversion Hwf as [|? ? Ha Hb]; subst.
  - rewrite app_nil_r, length_map, length_seq, (wf_number _ Ha). lia.
  - inversion Hb as [|? ? Hb' _]; subst.
    rewrite app_nil_r, length_app, !length_map, !length_seq, (wf_number _ Ha), (wf_number _ Hb'). lia.
Qed.

(** C25: with an upstream of several servers (no list of peers is [single], as
    one server alone makes it, for which the bitmap is not used), whatever the
    other requests do meanwhile, a request is never given the same peer twice, it
    is given at most [ngx_http_upstream_tries] peers, and asking for one more
    always has an answer, a peer or [NGX_BUSY]. *)
Theorem request_never_repeats picks us rrp :
  request_run picks us rrp ->
  NoDup picks /\ Z.of_nat (length picks) <= upstream_tries us /\
  forall now pc, exists rc us' pc' rrp', pc_get now us pc rrp = Some (rc, us', pc', rrp') /\
                                         (rc = NGX_OK \/ rc = NGX_BUSY).
Proof.
  intros H. apply inv_run in H. split; [apply H|]. split; [by eapply picks_bound|].
  intros now pc. destruct (inv_get picks now us pc rrp H) as (rc & us' & pc' & rrp' & E & _ & Hrc & _).
  by exists rc, us', pc', rrp'.
Qed.

(** Two servers and a backup: the third peer is the backup, then [NGX_BUSY]. *)
Lemma request_never_repeats_witness :
  let sv b := UpstreamServer [] [Addr [] []] 1 1 10 false b in
  exists us rrp, request_run [(1, 0); (0, 1); (0, 0)]%nat us rrp /\ NoDup [(1, 0); (0, 1); (0, 0)]%nat.
Proof.
  intros sv. set (pc := PeerConnection None None [] 0 false).
  set (us := [RrPeers 2 2 false false [] [new_peer (sv false) (Addr [] []); new_peer (sv false) (Addr [] [])];
              RrPeers 1 1 false false [] [new_peer (sv true) (Addr [] [])]]).
  assert (several us) as Hs.
  { split_and!; [done|cbn; lia| |]; repeat constructor; cbn; done. }
  assert (exists us rrp, request_run [(1, 0); (0, 1); (0, 0)]%nat us rrp) as (us' & rrp & H).
  { eexists _, _. eapply (run_get _ 0 _ pc); [eapply (run_get _ 0 _ pc); [eapply (run_get _ 0 _ pc);
      [eapply (run_start us pc); [exact Hs|reflexivity]|vm_compute; reflexivity|reflexivity]
      |vm_compute; reflexivity|reflexivity]|vm_compute; reflexivity|reflexivity]. }
  exists us', rrp. split; [exact H|]. apply (request_never_repeats _ _ _ H).
Defined.

(** ** Failures *)

Lemma failed_unusable now tried i peer : is_failed now peer = true -> usable now tried i peer = false.
Proof. intros H. unfold usable. destruct (is_tried tried i); [|done]. by rewrite H, orb_true_r. Qed.

Lemma peer_failed_fields now peer :
  rp_fails (peer_failed now peer) = u64 (rp_fails peer + 1) /\
  rp_checked (peer_failed now peer) = now /\ rp_accessed (peer_failed now peer) = now /\
  rp_max_fails (peer_failed now peer) = rp_max_fails peer /\
  rp_fail_timeout (peer_failed now peer) = rp_fail_timeout peer.
Proof. unfold peer_failed. case_ifs; done. Qed.

(** Two records of a peer with the same failures and settings; the weights,
    which every choice changes, may differ. *)
Definition same_failures (a b : rr_peer) : Prop :=
  rp_fails a = rp_fails b /\ rp_checked a = rp_checked b /\ rp_accessed a = rp_accessed b /\
  rp_max_fails a = rp_max_fails b /\ rp_fail_timeout a = rp_fail_timeout b.

(** C27: the quarantine of a peer, in each choice of
    [ngx_http_upstream_get_peer] in a list of several peers.  Once a request to
    the peer made its [max_fails]-th failure, at the time [t], and as long as its
    record of failures stays as that request has left it (in particular until a
    request that finds no peer at all, and then forgets the failures of every
    one), it is not the peer chosen before [t + fail_timeout] has passed.  When
    it is chosen after that, the record that the choice leaves makes it unusable
    for another [fail_timeout]; and if the request it was chosen for succeeds,
    its failures are forgotten. *)
Theorem quarantine t peer tried ps i q :
  rp_fails peer + 1 < 2 ^ 64 -> 0 <= rp_fails peer -> 0 <= rp_fail_timeout peer ->
  0 < rp_max_fails peer <= rp_fails peer + 1 ->
  covers tried (length ps) ->
  ps !! i = Some q -> same_failures q (free_peer t false NGX_PEER_FAILED peer) ->
  (forall now r, now <= t + rp_fail_timeout peer -> get_peer now tried ps = r ->
     exists ps' tried' p, r = Some (ps', tried', p) /\ p <> Some i) /\
  (forall now ps' tried', get_peer now tried ps = Some (ps', tried', Some i) ->
     exists q', ps' !! i = Some q' /\
       (forall now' tried'', now' <= now + rp_fail_timeout peer -> usable now' tried'' i q' = false) /\
       forall now', rp_fails (free_peer now' false 0 q') = 0).
Proof.
  intros Hlt H0 Hto Hmax Hc Hi (S1 & S2 & S3 & S4 & S5).
  assert (rp_fails q = rp_fails peer + 1 /\ rp_checked q = t /\ rp_accessed q = t /\
          rp_max_fails q = rp_max_fails peer /\ rp_fail_timeout q = rp_fail_timeout peer) as Hq.
  { pose proof (peer_failed_fields t peer) as H. rewrite S1, S2, S3, S4, S5. unfold free_peer.
    change (negb (Z.land NGX_PEER_FAILED NGX_PEER_FAILED =? 0)) with true. cbv iota.
    unfold u64 in H. rewrite Z.mod_small in H by lia. exact H. }
  destruct Hq as (Q1 & Q2 & Q3 & Q4 & Q5). split.
  - intros now r Hnow <-.
    assert (usable now tried i q = false) as Hu.
    { apply failed_unusable. unfold is_failed. rewrite Q1, Q2, Q4, Q5. lia. }
    destruct (get_peer_spec now tried ps Hc) as [[_ ->]|(p & (b & Hb & Hub & _) & ->)]; [by eauto 10|].
    eexists _, _, _. split; [done|]. intros [= ->]. congruence.
  - intros now ps' tried' E.
    destruct (get_peer_spec now tried ps Hc) as [[_ E']|(p & (b & Hb & Hub & _) & E')]; [congruence|].
    rewrite E in E'. injection E' as -> -> ->.
    assert (b = q) as -> by congruence.
    rewrite list_lookup_alter_eq, lookup_offer, Hb. change (0 + p)%nat with p. cbn [fmap option_fmap option_map].
    rewrite Hub. eexists; split; [done|].
    assert (t + rp_fail_timeout peer < now) as Hnow.
    { destruct (Z.le_gt_cases now (t + rp_fail_timeout peer)); [|lia].
      rewrite failed_unusable in Hub; [done|]. unfold is_failed. rewrite Q1, Q2, Q4, Q5. lia. }
    set (q' := take_best _ _ _).
    assert (rp_fails q' = rp_fails peer + 1 /\ rp_checked q' = now /\ rp_accessed q' = t /\
            rp_max_fails q' = rp_max_fails peer /\ rp_fail_timeout q' = rp_fail_timeout peer)
      as (R1 & R2 & R3 & R4 & R5).
    { unfold q', take_best, raise_weight. case_ifs; cbn in *; split_and!; try done; lia. }
    split.
    + intros now' tried'' Hnow'. apply failed_unusable. unfold is_failed. rewrite R1, R2, R4, R5. lia.
    + intros now'. unfold free_peer, peer_passed. cbn [Z.land negb Z.eqb].
      assert ((rp_accessed q' <? rp_checked q') = true) as -> by lia. done.
Qed.

(** One failure is enough for [max_fails = 1]: five seconds later the other server is chosen. *)
Lemma quarantine_witness :
  let peer := RrPeer [] [] [] 0 5 5 1 0 0 0 1 10 false in
  let other := RrPeer [] [] [] 0 1 1 0 0 0 0 1 10 false in
  let ps := [free_peer 100 false NGX_PEER_FAILED peer; other] in
  exists ps' tried' p, get_peer 105 [0] ps = Some (ps', tried', p) /\ p <> Some 0%nat.
Proof.
  intros peer other ps.
  destruct (quarantine 100 peer [0] ps 0 (free_peer 100 false NGX_PEER_FAILED peer)) as [H _];
    [cbn; lia|cbn; lia|cbn; lia|cbn; lia|unfold covers; cbn; lia|done|done|].
  exact (H 105 _ ltac:(cbn; lia) eq_refl).
Defined.
