(* ===== verification/Base64.v ===== *)
(** * Base64

    [ngx_encode_base64], [ngx_encode_base64url], [ngx_decode_base64] and
    [ngx_decode_base64url] of [src/core/ngx_string.c]: the user names and
    passwords of basic authentication, the session keys of secure links.  The
    result of a function is the contents of [dst]. *)

From S2P Require Import Prelude.

(** ** Encoding *)

(** [basis[i]] *)
Definition basis_at (basis : list Z) (i : Z) : Z := nth (Z.to_nat i) basis 0.

Fixpoint ngx_encode_base64_internal (src basis : list Z) (padding : bool) : list Z :=
  match src with
  | s0 :: s1 :: s2 :: src =>
      basis_at basis (Z.land (Z.shiftr s0 2) 0x3f)
      :: basis_at basis (Z.lor (Z.shiftl (Z.land s0 3) 4) (Z.shiftr s1 4))
      :: basis_at basis (Z.lor (Z.shiftl (Z.land s1 0x0f) 2) (Z.shiftr s2 6))
      :: basis_at basis (Z.land s2 0x3f)
      :: ngx_encode_base64_internal src basis padding
  | [] => []
  | [s0] =>
      [basis_at basis (Z.land (Z.shiftr s0 2) 0x3f); basis_at basis (Z.shiftl (Z.land s0 3) 4)]
      ++ (if padding then [ #"=" ] else []) ++ (if padding then [ #"=" ] else [])
  | [s0; s1] =>
      [basis_at basis (Z.land (Z.shiftr s0 2) 0x3f);
       basis_at basis (Z.lor (Z.shiftl (Z.land s0 3) 4) (Z.shiftr s1 4));
       basis_at basis (Z.shiftl (Z.land s1 0x0f) 2)]
      ++ (if padding then [ #"=" ] else [])
  end.

Definition encode_basis64 : list Z :=
  bytes "ABCDEFGHIJKLMNOPQRSTUVWXYZabcdefghijklmnopqrstuvwxyz0123456789+/".
Definition encode_basis64url : list Z :=
  bytes "ABCDEFGHIJKLMNOPQRSTUVWXYZabcdefghijklmnopqrstuvwxyz0123456789-_".

Definition ngx_encode_base64 (src : list Z) : list Z :=
  ngx_encode_base64_internal src encode_basis64 true.
Definition ngx_encode_base64url (src : list Z) : list Z :=
  ngx_encode_base64_internal src encode_basis64url false.

(** [ngx_base64_encoded_length] and [ngx_base64_decoded_length]: the sizes that
    callers allocate. *)
Definition ngx_base64_encoded_length (len : Z) : Z := (len + 2) / 3 * 4.
Definition ngx_base64_decoded_length (len : Z) : Z := (len + 3) / 4 * 3.

(** ** Decoding *)

(** The first loop: [len] at the [break] or at the end; [None] is [NGX_ERROR]. *)
Fixpoint decode_scan (src basis : list Z) : option nat :=
  match src with
  | [] => Some O
  | c :: src =>
      if c =? #"=" then Some O
      else if basis_at basis c =? 77 then None
      else S <$> decode_scan src basis
  end.

(** The rest of the function, on the [len] characters found. *)
Fixpoint decode_loop (s basis : list Z) : list Z :=
  match s with
  | s0 :: s1 :: s2 :: s3 :: s =>
      u8 (Z.lor (Z.shiftl (basis_at basis s0) 2) (Z.shiftr (basis_at basis s1) 4))
      :: u8 (Z.lor (Z.shiftl (basis_at basis s1) 4) (Z.shiftr (basis_at basis s2) 2))
      :: u8 (Z.lor (Z.shiftl (basis_at basis s2) 6) (basis_at basis s3))
      :: decode_loop s basis
  | s0 :: s1 :: rest =>
      u8 (Z.lor (Z.shiftl (basis_at basis s0) 2) (Z.shiftr (basis_at basis s1) 4))
      :: match rest with
         | s2 :: _ =>
             [u8 (Z.lor (Z.shiftl (basis_at basis s1) 4) (Z.shiftr (basis_at basis s2) 2))]
         | [] => []
         end
  | _ => []
  end.

Definition ngx_decode_base64_internal (src basis : list Z) : option (list Z) :=
  match decode_scan src basis with
  | None => None
  | Some len => if (len mod 4 =? 1)%nat then None else Some (decode_loop (take len src) basis)
  end.

Definition decode_basis64 : list Z :=
  [ 77; 77; 77; 77; 77; 77; 77; 77; 77; 77; 77; 77; 77; 77; 77; 77;
   77; 77; 77; 77; 77; 77; 77; 77; 77; 77; 77; 77; 77; 77; 77; 77;
   77; 77; 77; 77; 77; 77; 77; 77; 77; 77; 77; 62; 77; 77; 77; 63;
   52; 53; 54; 55; 56; 57; 58; 59; 60; 61; 77; 77; 77; 77; 77; 77;
   77;  0;  1;  2;  3;  4;  5;  6;  7;  8;  9; 10; 11; 12; 13; 14;
   15; 16; 17; 18; 19; 20; 21; 22; 23; 24; 25; 77; 77; 77; 77; 77;
   77; 26; 27; 28; 29; 30; 31; 32; 33; 34; 35; 36; 37; 38; 39; 40;
   41; 42; 43; 44; 45; 46; 47; 48; 49; 50; 51; 77; 77; 77; 77; 77;
   77; 77; 77; 77; 77; 77; 77; 77; 77; 77; 77; 77; 77; 77; 77; 77;
   77; 77; 77; 77; 77; 77; 77; 77; 77; 77; 77; 77; 77; 77; 77; 77;
   77; 77; 77; 77; 77; 77; 77; 77; 77; 77; 77; 77; 77; 77; 77; 77;
   77; 77; 77; 77; 77; 77; 77; 77; 77; 77; 77; 77; 77; 77; 77; 77;
   77; 77; 77; 77; 77; 77; 77; 77; 77; 77; 77; 77; 77; 77; 77; 77;
   77; 77; 77; 77; 77; 77; 77; 77; 77; 77; 77; 77; 77; 77; 77; 77;
   77; 77; 77; 77; 77; 77; 77; 77; 77; 77; 77; 77; 77; 77; 77; 77;
   77; 77; 77; 77; 77; 77; 77; 77; 77; 77; 77; 77; 77; 77; 77; 77].

Definition decode_basis64url : list Z :=
  [ 77; 77; 77; 77; 77; 77; 77; 77; 77; 77; 77; 77; 77; 77; 77; 77;
   77; 77; 77; 77; 77; 77; 77; 77; 77; 77; 77; 77; 77; 77; 77; 77;
   77; 77; 77; 77; 77; 77; 77; 77; 77; 77; 77; 77; 77; 62; 77; 77;
   52; 53; 54; 55; 56; 57; 58; 59; 60; 61; 77; 77; 77; 77; 77; 77;
   77;  0;  1;  2;  3;  4;  5;  6;  7;  8;  9; 10; 11; 12; 13; 14;
   15; 16; 17; 18; 19; 20; 21; 22; 23; 24; 25; 77; 77; 77; 77; 63;
   77; 26; 27; 28; 29; 30; 31; 32; 33; 34; 35; 36; 37; 38; 39; 40;
   41; 42; 43; 44; 45; 46; 47; 48; 49; 50; 51; 77; 77; 77; 77; 77;
   77; 77; 77; 77; 77; 77; 77; 77; 77; 77; 77; 77; 77; 77; 77; 77;
   77; 77; 77; 77; 77; 77; 77; 77; 77; 77; 77; 77; 77; 77; 77; 77;
   77; 77; 77; 77; 77; 77; 77; 77; 77; 77; 77; 77; 77; 77; 77; 77;
   77; 77; 77; 77; 77; 77; 77; 77; 77; 77; 77; 77; 77; 77; 77; 77;
   77; 77; 77; 77; 77; 77; 77; 77; 77; 77; 77; 77; 77; 77; 77; 77;
   77; 77; 77; 77; 77; 77; 77; 77; 77; 77; 77; 77; 77; 77; 77; 77;
   77; 77; 77; 77; 77; 77; 77; 77; 77; 77; 77; 77; 77; 77; 77; 77;
   77; 77; 77; 77; 77; 77; 77; 77; 77; 77; 77; 77; 77; 77; 77; 77].

Definition ngx_decode_base64 (src : list Z) : option (list Z) :=
  ngx_decode_base64_internal src decode_basis64.
Definition ngx_decode_base64url (src : list Z) : option (list Z) :=
  ngx_decode_base64_internal src decode_basis64url.

Example base64_examples :
  ngx_encode_base64 (bytes "Aladdin:open sesame") = bytes "QWxhZGRpbjpvcGVuIHNlc2FtZQ==" /\
  ngx_decode_base64 (bytes "QWxhZGRpbjpvcGVuIHNlc2FtZQ==") = Some (bytes "Aladdin:open sesame") /\
  ngx_decode_base64 (bytes "QWxhZ") = None.
Proof. vm_compute. done. Qed.

(** ** Sextets *)

(** The indices into the alphabet that a string encodes to. *)
Fixpoint sextets (src : list Z) : list Z :=
  match src with
  | s0 :: s1 :: s2 :: src =>
      Z.land (Z.shiftr s0 2) 0x3f :: Z.lor (Z.shiftl (Z.land s0 3) 4) (Z.shiftr s1 4)
      :: Z.lor (Z.shiftl (Z.land s1 0x0f) 2) (Z.shiftr s2 6) :: Z.land s2 0x3f :: sextets src
  | [] => []
  | [s0] => [Z.land (Z.shiftr s0 2) 0x3f; Z.lor (Z.shiftl (Z.land s0 3) 4) 0]
  | [s0; s1] =>
      [Z.land (Z.shiftr s0 2) 0x3f; Z.lor (Z.shiftl (Z.land s0 3) 4) (Z.shiftr s1 4);
       Z.lor (Z.shiftl (Z.land s1 0x0f) 2) 0]
  end.

Lemma three_ind (P : list Z -> Prop) :
  P [] -> (forall a, P [a]) -> (forall a b, P [a; b]) ->
  (forall a b c l, P l -> P (a :: b :: c :: l)) -> forall l, P l.
Proof.
  intros H0 H1 H2 H3. fix IH 1. intros [|a [|b [|c l]]]; [done|done|done|]. apply H3, IH.
Qed.

Definition padding_of (src : list Z) : list Z :=
  match (length src mod 3)%nat with 1%nat => [ #"="; #"=" ] | 2%nat => [ #"=" ] | _ => [] end.

Lemma encode_sextets src basis padding :
  ngx_encode_base64_internal src basis padding =
    map (basis_at basis) (sextets src) ++ (if padding then padding_of src else []).
Proof.
  induction src as [|a|a b|a b c l IH] using three_ind.
  - by destruct padding.
  - cbn [ngx_encode_base64_internal sextets map]. rewrite Z.lor_0_r. by destruct padding.
  - cbn [ngx_encode_base64_internal sextets map]. rewrite Z.lor_0_r. by destruct padding.
  - cbn [ngx_encode_base64_internal sextets map app]. rewrite IH.
    assert (padding_of (a :: b :: c :: l) = padding_of l) as ->; [|done].
    unfold padding_of. cbn [length].
    by replace (S (S (S (length l)))) with (length l + 1 * 3)%nat by lia; rewrite Nat.Div0.mod_add.
Qed.

Definition sextet (i : Z) : bool := (0 <=? i) && (i <? 64).

(** The three bytes of a group, each from the two sextets that hold its bits. *)
Definition first_ok (s0 z : Z) : bool :=
  let a := Z.land (Z.shiftr s0 2) 0x3f in
  let b := Z.lor (Z.shiftl (Z.land s0 3) 4) z in
  sextet a && sextet b && (u8 (Z.lor (Z.shiftl a 2) (Z.shiftr b 4)) =? s0).

Definition second_ok (x s1 y : Z) : bool :=
  let b := Z.lor (Z.shiftl x 4) (Z.shiftr s1 4) in
  let c := Z.lor (Z.shiftl (Z.land s1 0x0f) 2) y in
  sextet c && (u8 (Z.lor (Z.shiftl b 4) (Z.shiftr c 2)) =? s1).

Definition third_ok (x s2 : Z) : bool :=
  let c := Z.lor (Z.shiftl x 2) (Z.shiftr s2 6) in
  let d := Z.land s2 0x3f in
  sextet d && (u8 (Z.lor (Z.shiftl c 6) d) =? s2).

Lemma first_byte s0 z : is_byte s0 -> 0 <= z < 16 -> first_ok s0 z = true.
Proof.
  intros Hs Hz.
  assert (forallb (fun s0 => forallb (first_ok s0) (seqZ 0 16)) (seqZ 0 256) = true) as H
    by (vm_compute; done).
  pose proof (check_range _ _ H s0 Hs) as H'. exact (check_range _ _ H' z Hz).
Qed.

Lemma second_byte x s1 y : 0 <= x < 4 -> is_byte s1 -> 0 <= y < 4 -> second_ok x s1 y = true.
Proof.
  intros Hx Hs Hy.
  assert (forallb (fun x => forallb (fun s1 => forallb (second_ok x s1) (seqZ 0 4)) (seqZ 0 256))
            (seqZ 0 4) = true) as H by (vm_compute; done).
  pose proof (check_range _ _ H x Hx) as H'. pose proof (check_range _ _ H' s1 Hs) as H''.
  exact (check_range _ _ H'' y Hy).
Qed.

Lemma third_byte x s2 : 0 <= x < 16 -> is_byte s2 -> third_ok x s2 = true.
Proof.
  intros Hx Hs.
  assert (forallb (fun x => forallb (third_ok x) (seqZ 0 256)) (seqZ 0 16) = true) as H
    by (vm_compute; done).
  pose proof (check_range _ _ H x Hx) as H'. exact (check_range _ _ H' s2 Hs).
Qed.

Lemma byte_parts s : is_byte s ->
  0 <= Z.shiftr s 4 < 16 /\ 0 <= Z.shiftr s 6 < 4 /\ 0 <= Z.land s 3 < 4 /\ 0 <= Z.land s 0x0f < 16.
Proof.
  intros H. unfold is_byte in H. rewrite !Z.shiftr_div_pow2 by lia.
  change 3 with (Z.ones 2). change 15 with (Z.ones 4). rewrite !Z.land_ones by lia.
  repeat match goal with |- context [?a / ?b] => pose proof (Z.div_mod a b ltac:(lia));
    pose proof (Z.mod_pos_bound a b ltac:(lia)); generalize dependent (a / b); intros end.
  pose proof (Z.mod_pos_bound s (2 ^ 2) ltac:(lia)). pose proof (Z.mod_pos_bound s (2 ^ 4) ltac:(lia)).
  lia.
Qed.

(** An alphabet and the table that reads it. *)
Class Alphabet (enc dec : list Z) : Prop :=
  alphabet : forall i, sextet i = true ->
    basis_at dec (basis_at enc i) = i /\ basis_at enc i <> #"=".

Definition alphabet_ok (enc dec : list Z) : bool :=
  forallb (fun i => (basis_at dec (basis_at enc i) =? i) && negb (basis_at enc i =? #"=")) (seqZ 0 64).

Lemma alphabet_check enc dec : alphabet_ok enc dec = true -> Alphabet enc dec.
Proof.
  intros H i Hi. unfold sextet in Hi. pose proof (check_range _ _ H i ltac:(lia)) as Hc. cbv beta in Hc. lia.
Qed.

#[export] Instance basis64_alphabet : Alphabet encode_basis64 decode_basis64.
Proof. apply alphabet_check. vm_compute. done. Qed.
#[export] Instance basis64url_alphabet : Alphabet encode_basis64url decode_basis64url.
Proof. apply alphabet_check. vm_compute. done. Qed.

Lemma decode_sextets enc dec `{!Alphabet enc dec} src : Forall is_byte src ->
  forallb sextet (sextets src) = true /\
  decode_loop (map (basis_at enc) (sextets src)) dec = src /\
  (length (sextets src) mod 4 <> 1)%nat.
Proof.
  assert (forall i, sextet i = true -> basis_at dec (basis_at enc i) = i) as Hd by (intros; by apply alphabet).
  induction src as [|s0|s0 s1|s0 s1 s2 l IH] using three_ind; intros H;
    repeat match goal with H : Forall is_byte (_ :: _) |- _ => apply Forall_cons in H as [? H] end.
  - done.
  - pose proof (first_byte s0 0 ltac:(done) ltac:(lia)) as G1. unfold first_ok in G1.
    cbn [sextets map forallb decode_loop length].
    apply andb_true_iff in G1 as [G1 E1]. apply andb_true_iff in G1 as [Ha Hb].
    rewrite Ha, Hb, !Hd by done. split; [done|]. split; [f_equal; lia|done].
  - pose proof (byte_parts s1 ltac:(done)) as (? & ? & ? & ?). pose proof (byte_parts s0 ltac:(done)) as (? & ? & ? & ?).
    pose proof (first_byte s0 (Z.shiftr s1 4) ltac:(done) ltac:(lia)) as G1.
    pose proof (second_byte (Z.land s0 3) s1 0 ltac:(lia) ltac:(done) ltac:(lia)) as G2.
    unfold first_ok in G1. unfold second_ok in G2. cbn [sextets map forallb decode_loop length].
    apply andb_true_iff in G1 as [G1 E1]. apply andb_true_iff in G1 as [Ha Hb].
    apply andb_true_iff in G2 as [Hc E2].
    rewrite Ha, Hb, Hc, !Hd by done. split; [done|]. split; [repeat f_equal; lia|done].
  - destruct (IH H) as (IH1 & IH2 & IH3).
    pose proof (byte_parts s1 ltac:(done)) as (? & ? & ? & ?). pose proof (byte_parts s0 ltac:(done)) as (? & ? & ? & ?).
    pose proof (byte_parts s2 ltac:(done)) as (? & ? & ? & ?).
    pose proof (first_byte s0 (Z.shiftr s1 4) ltac:(done) ltac:(lia)) as G1.
    pose proof (second_byte (Z.land s0 3) s1 (Z.shiftr s2 6) ltac:(lia) ltac:(done) ltac:(lia)) as G2.
    pose proof (third_byte (Z.land s1 0x0f) s2 ltac:(lia) ltac:(done)) as G3.
    unfold first_ok in G1. unfold second_ok in G2. unfold third_ok in G3.
    cbn [sextets map forallb decode_loop].
    apply andb_true_iff in G1 as [G1 E1]. apply andb_true_iff in G1 as [Ha Hb].
    apply andb_true_iff in G2 as [Hc E2]. apply andb_true_iff in G3 as [Hdd E3].
    rewrite Ha, Hb, Hc, Hdd, !Hd, IH1, IH2 by done.
    split; [done|]. split; [repeat f_equal; lia|].
    change (length (_ :: _ :: _ :: _ :: sextets l)) with (4 + length (sextets l))%nat.
    replace (4 + length (sextets l))%nat with (length (sextets l) + 1 * 4)%nat by lia.
    by rewrite Nat.Div0.mod_add.
Qed.

Lemma decode_scan_sextets enc dec `{!Alphabet enc dec} l pad :
  forallb sextet l = true -> match pad with [] => True | c :: _ => c = #"=" end ->
  decode_scan (map (basis_at enc) l ++ pad) dec = Some (length l).
Proof.
  intros Hl Hp. induction l as [|i l IH]; cbn [map app forallb decode_scan length] in *.
  - destruct pad as [|c pad]; [done|]. by subst.
  - apply andb_true_iff in Hl as [Hi Hl]. destruct (alphabet (enc:=enc) (dec:=dec) i Hi) as [Hd Hne].
    assert ((basis_at enc i =? 61) = false) as -> by lia. rewrite Hd.
    assert ((i =? 77) = false) as -> by (unfold sextet in Hi; lia). by rewrite IH.
Qed.

Lemma round_trip_alphabet enc dec `{!Alphabet enc dec} src padding : Forall is_byte src ->
  ngx_decode_base64_internal (ngx_encode_base64_internal src enc padding) dec = Some src.
Proof.
  intros H. destruct (decode_sextets enc dec src H) as (Hs & Hd & Hm).
  rewrite encode_sextets. unfold ngx_decode_base64_internal.
  rewrite (decode_scan_sextets enc dec); [|done|].
  2: { destruct padding; [|done]. unfold padding_of. by destruct (length src mod 3)%nat as [|[|[|?]]]. }
  apply Nat.eqb_neq in Hm. rewrite Hm.
  rewrite <-(length_map (basis_at enc) (sextets src)), take_app_length. by rewrite Hd.
Qed.

(** C31: what [ngx_encode_base64] and [ngx_encode_base64url] make of any string,
    [ngx_decode_base64] and [ngx_decode_base64url] give back. *)
Theorem base64_round_trip src :
  Forall is_byte src ->
  ngx_decode_base64 (ngx_encode_base64 src) = Some src /\
  ngx_decode_base64url (ngx_encode_base64url src) = Some src.
Proof. intros H. split; apply round_trip_alphabet; (exact H || apply _). Qed.

Lemma base64_round_trip_witness :
  ngx_decode_base64 (bytes "QWxhZGRpbjpvcGVuIHNlc2FtZQ==") = Some (bytes "Aladdin:open sesame").
Proof.
  exact (proj1 (base64_round_trip (bytes "Aladdin:open sesame") ltac:(by apply bytes_ok_spec))).
Defined.

(** ** The sizes allocated *)

Lemma length_sextets src : Z.of_nat (length (sextets src)) = (4 * Z.of_nat (length src) + 2) / 3.
Proof.
  induction src as [|a|a b|a b c l IH] using three_ind; [done|done|done|]. cbn [sextets length] in *.
  rewrite !Nat2Z.inj_succ, IH.
  replace (4 * Z.succ (Z.succ (Z.succ (Z.of_nat (length l)))) + 2)
    with (4 * Z.of_nat (length l) + 2 + 4 * 3) by lia.
  rewrite Z.div_add by lia. lia.
Qed.

Lemma length_decode_loop s basis : Z.of_nat (length (decode_loop s basis)) <= Z.of_nat (length s) * 3 / 4.
Proof.
  revert s. fix IH 1. intros [|s0 [|s1 [|s2 [|s3 s]]]]; [done|done|done|done|].
  cbn [decode_loop length]. specialize (IH s). rewrite !Nat2Z.inj_succ.
  replace (Z.succ (Z.succ (Z.succ (Z.succ (Z.of_nat (length s))))) * 3)
    with (Z.of_nat (length s) * 3 + 3 * 4) by lia.
  rewrite Z.div_add by lia. lia.
Qed.

(** [dst] is written inside what [ngx_base64_encoded_length] and
    [ngx_base64_decoded_length] allocate. *)
Theorem base64_fits src :
  Z.of_nat (length (ngx_encode_base64 src)) <= ngx_base64_encoded_length (Z.of_nat (length src)) /\
  Z.of_nat (length (ngx_encode_base64url src)) <= ngx_base64_encoded_length (Z.of_nat (length src)) /\
  (forall dst, ngx_decode_base64 src = Some dst ->
   Z.of_nat (length dst) <= ngx_base64_decoded_length (Z.of_nat (length src))).
Proof.
  pose proof (length_sextets src) as Hs.
  assert (Z.of_nat (length (padding_of src)) + Z.of_nat (length (sextets src)) =
          ngx_base64_encoded_length (Z.of_nat (length src))) as Hp.
  { rewrite Hs. unfold padding_of, ngx_base64_encoded_length.
    pose proof (Nat.div_mod_eq (length src) 3). pose proof (Nat.mod_upper_bound (length src) 3 ltac:(lia)).
    set (m := (length src mod 3)%nat) in *. set (q := (length src / 3)%nat) in *.
    destruct m as [|[|[|?]]]; cbn [length]; Z.to_euclidean_division_equations; lia. }
  unfold ngx_encode_base64, ngx_encode_base64url.
  rewrite !encode_sextets, !length_app, !length_map. split; [lia|]. split; [cbn [length]; lia|].
  intros dst Hd. unfold ngx_decode_base64, ngx_decode_base64_internal in Hd.
  destruct (decode_scan src decode_basis64) as [n|]; [|done].
  destruct (n mod 4 =? 1)%nat; [done|]. injection Hd as <-.
  pose proof (length_decode_loop (take n src) decode_basis64) as H. rewrite length_take in H.
  unfold ngx_base64_decoded_length. Z.to_euclidean_division_equations; lia.
Qed.
