(* ===== verification/Escape.v ===== *)
(** * Escaping

    [ngx_escape_uri], [ngx_unescape_uri], [ngx_escape_html] and
    [ngx_escape_json] of [src/core/ngx_string.c].  Called with [dst == NULL] the
    escaping functions count; they are modelled by a function each for the count
    and for the bytes written. *)

From S2P Require Import Prelude RequestLine ComplexUri UriNormal.

(** ** ngx_escape_uri *)

Definition NGX_ESCAPE_URI : nat := 0.
Definition NGX_ESCAPE_ARGS : nat := 1.
Definition NGX_ESCAPE_URI_COMPONENT : nat := 2.
Definition NGX_ESCAPE_HTML : nat := 3.
Definition NGX_ESCAPE_REFRESH : nat := 4.
Definition NGX_ESCAPE_MEMCACHED : nat := 5.
Definition NGX_ESCAPE_MAIL_AUTH : nat := 6.

Definition NGX_UNESCAPE_URI : Z := 1.
Definition NGX_UNESCAPE_REDIRECT : Z := 2.

Definition esc_uri : list Z :=
  [0xffffffff; 0x80000029; 0x00000000; 0x80000000; 0xffffffff; 0xffffffff; 0xffffffff; 0xffffffff].
Definition esc_args : list Z :=
  [0xffffffff; 0x88000869; 0x00000000; 0x80000000; 0xffffffff; 0xffffffff; 0xffffffff; 0xffffffff].
Definition esc_uri_component : list Z :=
  [0xffffffff; 0xfc009fff; 0x78000001; 0xb8000001; 0xffffffff; 0xffffffff; 0xffffffff; 0xffffffff].
Definition esc_html : list Z :=
  [0xffffffff; 0x000000ad; 0x00000000; 0x80000000; 0xffffffff; 0xffffffff; 0xffffffff; 0xffffffff].
Definition esc_refresh : list Z :=
  [0xffffffff; 0x00000085; 0x00000000; 0x80000000; 0xffffffff; 0xffffffff; 0xffffffff; 0xffffffff].
Definition esc_memcached : list Z :=
  [0xffffffff; 0x00000021; 0x00000000; 0x00000000; 0x00000000; 0x00000000; 0x00000000; 0x00000000].

(** [map[type]] *)
Definition esc_map (type : nat) : list Z :=
  nth type [esc_uri; esc_args; esc_uri_component; esc_html; esc_refresh; esc_memcached; esc_memcached] [].

(** [escape[*src >> 5] & (1 << ( *src & 0x1f))] *)
Definition escaped (escape : list Z) (c : Z) : bool :=
  negb (Z.land (nth (Z.to_nat (Z.shiftr c 5)) escape 0) (Z.shiftl 1 (Z.land c 0x1f)) =? 0).

(** [hex[i]] *)
Definition hex_upper (i : Z) : Z := nth (Z.to_nat i) (bytes "0123456789ABCDEF") 0.

Fixpoint escape_uri_count (escape src : list Z) : Z :=
  match src with
  | [] => 0
  | c :: src => (if escaped escape c then 1 else 0) + escape_uri_count escape src
  end.

Fixpoint escape_uri_bytes (escape src : list Z) : list Z :=
  match src with
  | [] => []
  | c :: src =>
      (if escaped escape c then [ #"%"; hex_upper (Z.shiftr c 4); hex_upper (Z.land c 0xf)] else [c])
      ++ escape_uri_bytes escape src
  end.

(** ** ngx_unescape_uri *)

(** The states; [un_quoted_second] with [decoded] and the digit it is of,
    which is at [s - 2] when the next one has been read. *)
Inductive un_st : Type := un_usual | un_quoted | un_quoted_second (decoded digit : Z).

(** The bytes written and where [s] is at the end, by what is left of [src]. *)
Fixpoint unescape_loop (type : Z) (st : un_st) (s : list Z) : list Z * list Z :=
  match s with
  | [] => ([], [])
  | ch :: s =>
      let put l st := let (out, rest) := unescape_loop type st s in (l ++ out, rest) in
      let is_uri := negb (Z.land type NGX_UNESCAPE_URI =? 0) in
      let is_redirect := negb (Z.land type NGX_UNESCAPE_REDIRECT =? 0) in
      match st with
      | un_usual =>
          if (ch =? #"?") && (is_uri || is_redirect) then ([ch], s)
          else if ch =? #"%" then put [] un_quoted
          else put [ch] un_usual
      | un_quoted =>
          if is_digit ch then put [] (un_quoted_second (u8 (ch - #"0")) ch)
          else if is_hex_alpha ch then put [] (un_quoted_second (u8 (lower ch - #"a" + 10)) ch)
          else put [ch] un_usual
      | un_quoted_second decoded digit =>
          if is_digit ch then
            let c := u8 (Z.shiftl decoded 4 + ch - #"0") in
            if is_redirect then
              if (#"%" <? c) && (c <? 0x7f) then put [c] un_usual
              else put [ #"%"; digit; ch] un_usual
            else put [c] un_usual
          else if is_hex_alpha ch then
            let c := u8 (Z.shiftl decoded 4 + lower ch - #"a" + 10) in
            if is_uri then if c =? #"?" then ([c], s) else put [c] un_usual
            else if is_redirect then
              if c =? #"?" then ([c], s)
              else if (#"%" <? c) && (c <? 0x7f) then put [c] un_usual
              else put [ #"%"; digit; ch] un_usual
            else put [c] un_usual
          else put [] un_usual
      end
  end.

Definition ngx_unescape_uri (src : list Z) (type : Z) : list Z * list Z :=
  unescape_loop type un_usual src.

(** ** ngx_escape_html and ngx_escape_json *)

Fixpoint escape_html_count (src : list Z) : Z :=
  match src with
  | [] => 0
  | c :: src =>
      (if (c =? #"<") || (c =? #">") then 3 else if c =? #"&" then 4 else if c =? 34 then 5 else 0)
      + escape_html_count src
  end.

Fixpoint escape_html_bytes (src : list Z) : list Z :=
  match src with
  | [] => []
  | c :: src =>
      (if c =? #"<" then bytes "&lt;" else if c =? #">" then bytes "&gt;"
       else if c =? #"&" then bytes "&amp;" else if c =? 34 then bytes "&quot;" else [c])
      ++ escape_html_bytes src
  end.

Fixpoint escape_json_count (src : list Z) : Z :=
  match src with
  | [] => 0
  | ch :: src =>
      (if (ch =? #"\") || (ch =? 34) then 1 else if ch <=? 0x1f then 5 else 0) + escape_json_count src
  end.

Fixpoint escape_json_bytes (src : list Z) : list Z :=
  match src with
  | [] => []
  | ch :: src =>
      (if 0x1f <? ch then if (ch =? #"\") || (ch =? 34) then [ #"\"; ch] else [ch]
       else
         let lo := Z.land ch 0xf in
         [ #"\"; #"u"; #"0"; #"0"; #"0" + Z.shiftr ch 4; if lo <? 10 then #"0" + lo else #"A" + lo - 10])
      ++ escape_json_bytes src
  end.

Example escape_examples :
  escape_uri_bytes (esc_map NGX_ESCAPE_ARGS) (bytes "a b&c") = bytes "a%20b%26c" /\
  ngx_unescape_uri (bytes "a%20b%26c%3Fd") 0 = (bytes "a b&c?d", []) /\
  ngx_unescape_uri (bytes "a%20b?c%26d") NGX_UNESCAPE_URI = (bytes "a b?", bytes "c%26d") /\
  ngx_unescape_uri (bytes "%41%20?") NGX_UNESCAPE_REDIRECT = (bytes "A%20?", []) /\
  escape_html_bytes (bytes "<a&b>") = bytes "&lt;a&amp;b&gt;" /\
  escape_json_bytes (bytes "a\b" ++ [10]) = bytes "a\\b\u000A".
Proof. vm_compute. done. Qed.

(** ** Escaping and unescaping a URI *)

(** Two hexadecimal digits, as the unescaping reads them. *)
Definition hex_reads (i : Z) : bool :=
  let c := hex_upper i in
  if is_digit c then u8 (c - #"0") =? i
  else is_hex_alpha c && (u8 (lower c - #"a" + 10) =? i).

Definition pair_reads (c : Z) : bool :=
  let hi := Z.shiftr c 4 in
  let d := hex_upper (Z.land c 0xf) in
  hex_reads hi &&
  (if is_digit d then u8 (Z.shiftl hi 4 + d - #"0") =? c
   else is_hex_alpha d && (u8 (Z.shiftl hi 4 + lower d - #"a" + 10) =? c)).

Lemma pair_reads_byte c : is_byte c -> pair_reads c = true.
Proof. apply check_range. vm_compute. done. Qed.

Lemma unescape_pair c s : is_byte c ->
  unescape_loop 0 un_usual (#"%" :: hex_upper (Z.shiftr c 4) :: hex_upper (Z.land c 0xf) :: s) =
    let (out, rest) := unescape_loop 0 un_usual s in (c :: out, rest).
Proof.
  intros H. apply pair_reads_byte in H. unfold pair_reads, hex_reads in H.
  apply andb_true_iff in H as [H1 H2]. cbn [unescape_loop].
  change (Z.land 0 NGX_UNESCAPE_URI =? 0) with true. change (Z.land 0 NGX_UNESCAPE_REDIRECT =? 0) with true.
  cbn [negb andb orb]. change (37 =? 63) with false. change (37 =? 37) with true. cbn [andb].
  destruct (is_digit (hex_upper (Z.shiftr c 4))) eqn:E1;
    [|apply andb_true_iff in H1 as [-> H1]]; apply Z.eqb_eq in H1 as ->;
    (destruct (is_digit (hex_upper (Z.land c 15))) eqn:E2;
      [|apply andb_true_iff in H2 as [-> H2]]); apply Z.eqb_eq in H2 as ->;
    by destruct (unescape_loop 0 un_usual s).
Qed.

Lemma unescape_plain c s : c <> #"%" ->
  unescape_loop 0 un_usual (c :: s) =
    let (out, rest) := unescape_loop 0 un_usual s in (c :: out, rest).
Proof.
  intros H. cbn [unescape_loop]. change (Z.land 0 NGX_UNESCAPE_URI =? 0) with true.
  change (Z.land 0 NGX_UNESCAPE_REDIRECT =? 0) with true. cbn [negb orb]. rewrite andb_false_r.
  by assert ((c =? 37) = false) as -> by lia.
Qed.

Lemma escape_unescape escape src : Forall is_byte src -> escaped escape #"%" = true ->
  ngx_unescape_uri (escape_uri_bytes escape src) 0 = (src, []).
Proof.
  intros H He. unfold ngx_unescape_uri. induction H as [|c src Hc _ IH]; [done|].
  cbn [escape_uri_bytes]. destruct (escaped escape c) eqn:E; cbn [app].
  - by rewrite unescape_pair, IH by done.
  - rewrite unescape_plain, IH; [done|]. intros ->. by rewrite He in E.
Qed.

(** What [ngx_escape_uri] writes is as long as its count says, and
    [ngx_unescape_uri] without restrictions gives the string back, for every
    type of escaping but that for "Refresh" headers. *)
Theorem escape_uri_round_trip type src :
  Forall is_byte src -> (type < 7)%nat ->
  Z.of_nat (length (escape_uri_bytes (esc_map type) src)) =
    Z.of_nat (length src) + 2 * escape_uri_count (esc_map type) src /\
  (type <> NGX_ESCAPE_REFRESH ->
   ngx_unescape_uri (escape_uri_bytes (esc_map type) src) 0 = (src, [])).
Proof.
  intros H Ht. split.
  - clear. induction src as [|c src IH]; [done|]. cbn [escape_uri_bytes escape_uri_count].
    rewrite length_app. destruct (escaped (esc_map type) c); cbn [length]; lia.
  - intros Hne. apply escape_unescape; [done|].
    destruct type as [|[|[|[|[|[|[|?]]]]]]]; try reflexivity; [by destruct Hne|lia].
Qed.

Lemma escape_uri_round_trip_witness :
  ngx_unescape_uri (escape_uri_bytes (esc_map NGX_ESCAPE_URI) (bytes "/a b%20?")) 0 =
    (bytes "/a b%20?", []).
Proof.
  apply (escape_uri_round_trip NGX_ESCAPE_URI (bytes "/a b%20?"));
    [by apply bytes_ok_spec|unfold NGX_ESCAPE_URI; lia|done].
Defined.

(** The table for "Refresh" headers leaves "%" alone, though its comment lists it. *)
Example refresh_keeps_percent :
  escape_uri_bytes (esc_map NGX_ESCAPE_REFRESH) (bytes "%41") = bytes "%41".
Proof. vm_compute. done. Qed.

(** *** Unescaping in place *)

Definition un_slack (st : un_st) : nat :=
  match st with un_usual => 0 | un_quoted => 1 | un_quoted_second _ _ => 2 end.

(** At every moment no more was written than was read: [d] does not overtake
    [s], so that a string can be unescaped in place. *)
Lemma unescape_in_place type s : forall st,
  (length (unescape_loop type st s).1 + length (unescape_loop type st s).2 <= length s + un_slack st)%nat.
Proof.
  induction s as [|ch s IH]; intros st; [cbn; lia|].
  assert (forall l st', (length l <= 1 + un_slack st - un_slack st')%nat -> (un_slack st' <= 1 + un_slack st)%nat ->
    let r := let (out, rest) := unescape_loop type st' s in (l ++ out, rest) in
    (length r.1 + length r.2 <= length (ch :: s) + un_slack st)%nat) as Hput.
  { intros l st' Hl Hs. specialize (IH st'). destruct (unescape_loop type st' s) as [out rest].
    cbn [fst snd length] in *. rewrite length_app. lia. }
  cbn [unescape_loop]. destruct st; cbn [un_slack] in *; case_ifs;
    first [apply Hput; cbn; lia|cbn; lia].
Qed.

(** ** Escaping text *)

(** What a reader of HTML makes of the entities; [name] is what follows the
    last "&". *)
Definition html_entity (name : list Z) : list Z :=
  if bytes_eqb name (bytes "lt") then [ #"<" ]
  else if bytes_eqb name (bytes "gt") then [ #">" ]
  else if bytes_eqb name (bytes "amp") then [ #"&" ]
  else if bytes_eqb name (bytes "quot") then [34]
  else #"&" :: name ++ [ #";" ].

Fixpoint html_read (name : option (list Z)) (s : list Z) : list Z :=
  match s with
  | [] => match name with Some name => #"&" :: name | None => [] end
  | c :: s =>
      match name with
      | None => if c =? #"&" then html_read (Some []) s else c :: html_read None s
      | Some name =>
          if c =? #";" then html_entity name ++ html_read None s
          else html_read (Some (name ++ [c])) s
      end
  end.

(** What a reader makes of the contents of a JSON string; [None] is an error:
    a quote, a control character or an escape that is none. *)
Fixpoint json_read (s : list Z) : option (list Z) :=
  match s with
  | [] => Some []
  | c :: s =>
      if c =? #"\" then
        match s with
        | [] => None
        | e :: s =>
            if (e =? #"\") || (e =? 34) then cons e <$> json_read s
            else if e =? #"u" then
              match s with
              | a :: b :: h :: l :: s =>
                  match hexval a, hexval b, hexval h, hexval l with
                  | Some a, Some b, Some h, Some l =>
                      cons (((a * 16 + b) * 16 + h) * 16 + l) <$> json_read s
                  | _, _, _, _ => None
                  end
              | _ => None
              end
            else None
        end
      else if (c =? 34) || (c <=? 0x1f) then None
      else cons c <$> json_read s
  end.

Lemma html_reads src : html_read None (escape_html_bytes src) = src.
Proof.
  induction src as [|c src IH]; [done|]. cbn [escape_html_bytes].
  assert (html_read None (bytes "&lt;" ++ escape_html_bytes src) = 60 :: src /\
          html_read None (bytes "&gt;" ++ escape_html_bytes src) = 62 :: src /\
          html_read None (bytes "&amp;" ++ escape_html_bytes src) = 38 :: src /\
          html_read None (bytes "&quot;" ++ escape_html_bytes src) = 34 :: src) as (H1 & H2 & H3 & H4).
  { repeat split; (etransitivity; [vm_compute; reflexivity|]); f_equal; exact IH. }
  destruct (c =? #"<") eqn:E1; [rewrite H1; f_equal; lia|].
  destruct (c =? #">") eqn:E2; [rewrite H2; f_equal; lia|].
  destruct (c =? #"&") eqn:E3; [rewrite H3; f_equal; lia|].
  destruct (c =? 34) eqn:E4; [rewrite H4; f_equal; lia|].
  cbn [app html_read]. by rewrite E3, IH.
Qed.

Definition markup (c : Z) : bool := (c =? #"<") || (c =? #">") || (c =? 34).

Lemma html_no_markup src : existsb markup (escape_html_bytes src) = false.
Proof.
  induction src as [|c src IH]; [done|]. cbn [escape_html_bytes]. rewrite existsb_app, IH, orb_false_r.
  unfold markup. destruct (c =? 60) eqn:E1; [done|]. destruct (c =? 62) eqn:E2; [done|].
  destruct (c =? 38) eqn:E3; [done|]. destruct (c =? 34) eqn:E4; [done|].
  cbn [existsb]. by rewrite E1, E2, E4.
Qed.

(** The two digits of a control character. *)
Definition control_reads (c : Z) : bool :=
  let lo := Z.land c 0xf in
  let h := #"0" + Z.shiftr c 4 in
  let l := if lo <? 10 then #"0" + lo else #"A" + lo - 10 in
  match hexval h, hexval l with Some h, Some l => h * 16 + l =? c | _, _ => false end.

Lemma json_reads src : Forall is_byte src -> json_read (escape_json_bytes src) = Some src.
Proof.
  induction 1 as [|c src Hc _ IH]; [done|]. cbn [escape_json_bytes]. unfold is_byte in Hc.
  destruct (0x1f <? c) eqn:E.
  - destruct ((c =? #"\") || (c =? 34)) eqn:E1; cbn [app json_read].
    + change (92 =? 92) with true. cbn iota. by rewrite E1, IH.
    + assert ((c =? 92) = false) as -> by lia.
      by assert ((c =? 34) || (c <=? 31) = false) as -> by lia; rewrite IH.
  - assert (control_reads c = true) as Hr.
    { apply (check_range control_reads 32); [vm_compute; done|lia]. }
    unfold control_reads in Hr. cbn zeta in *. cbn [app json_read].
    change (92 =? 92) with true. change ((117 =? 92) || (117 =? 34)) with false.
    change (117 =? 117) with true. cbn iota. change (hexval 48) with (Some 0). cbv beta iota.
    destruct (hexval (48 + Z.shiftr c 4)) as [h|]; [|done].
    destruct (hexval (if Z.land c 15 <? 10 then 48 + Z.land c 15 else 65 + Z.land c 15 - 10)) as [l|]; [|done].
    rewrite IH. cbn. do 2 f_equal. lia.
Qed.

(** Escaped for HTML, a string holds none of the characters that could end
    its place in a document, and a reader gets the string back; escaped for
    JSON, a reader of JSON strings gets it back.  Both are as long as the
    counts that callers allocate say. *)
Theorem escape_text_round_trip src :
  Forall is_byte src ->
  html_read None (escape_html_bytes src) = src /\ existsb markup (escape_html_bytes src) = false /\
  Z.of_nat (length (escape_html_bytes src)) = Z.of_nat (length src) + escape_html_count src /\
  json_read (escape_json_bytes src) = Some src /\
  Z.of_nat (length (escape_json_bytes src)) = Z.of_nat (length src) + escape_json_count src.
Proof.
  intros H. split; [apply html_reads|]. split; [apply html_no_markup|].
  split; [|split; [by apply json_reads|]]; clear H; induction src as [|c src IH]; try done.
  - cbn [escape_html_bytes escape_html_count]. rewrite length_app.
    destruct (c =? 60) eqn:E1; [cbn in *; lia|]. destruct (c =? 62) eqn:E2; [cbn in *; lia|].
    destruct (c =? 38); [cbn in *; lia|]. destruct (c =? 34); cbn in *; lia.
  - cbn [escape_json_bytes escape_json_count]. rewrite length_app.
    destruct (31 <? c) eqn:E, ((c =? 92) || (c =? 34)) eqn:E1; cbn [length] in *;
      try (assert ((c <=? 31) = true) as -> by lia); try (assert ((c <=? 31) = false) as -> by lia); lia.
Qed.

Lemma escape_text_round_trip_witness :
  html_read None (bytes "&lt;a href=&quot;?x&amp;y&quot;&gt;") = bytes "<a href=" ++ [34] ++ bytes "?x&y" ++ [34] ++ bytes ">".
Proof.
  pose proof (escape_text_round_trip (bytes "<a href=" ++ [34] ++ bytes "?x&y" ++ [34] ++ bytes ">")
    ltac:(by apply bytes_ok_spec)) as (H & _).
  exact H.
Defined.
