(* ===== verification/Queue.v ===== *)
(** * Queues and the stable sorts

    src/core/ngx_queue.h and src/core/ngx_queue.c: the doubly linked ring with
    its sentinel, at the level of its pointers, and [ngx_sort] of
    src/core/ngx_string.c.  [ring h q l] says that in the heap [h] the ring of
    the sentinel [q] holds the nodes [l]; each operation is shown to do to [l]
    what its name says, and both sorts to compute the list function
    [insertion_sort], which sorts and is stable. *)

From stdpp Require Import gmap sorting.
From S2P Require Import Prelude.

#[local] Set Warnings "-clear-no-such-hyp".

(** ** The heap

    A node is its address.  A write sets a field; reading a field that was
    never set is an error. *)
Record queue_heap : Type := mk_queue_heap { q_prev : gmap Z Z; q_next : gmap Z Z }.

Definition set_prev (x v : Z) (h : queue_heap) : queue_heap :=
  mk_queue_heap (<[x := v]> (q_prev h)) (q_next h).
Definition set_next (x v : Z) (h : queue_heap) : queue_heap :=
  mk_queue_heap (q_prev h) (<[x := v]> (q_next h)).

Definition ngx_queue_init (q : Z) (h : queue_heap) : queue_heap := set_next q q (set_prev q q h).

Definition ngx_queue_head (h : Z) (m : queue_heap) : option Z := q_next m !! h.
Definition ngx_queue_last (h : Z) (m : queue_heap) : option Z := q_prev m !! h.
Definition ngx_queue_next (q : Z) (m : queue_heap) : option Z := q_next m !! q.
Definition ngx_queue_prev (q : Z) (m : queue_heap) : option Z := q_prev m !! q.

Definition ngx_queue_empty (h : Z) (m : queue_heap) : option bool :=
  p ← q_prev m !! h; Some (h =? p).

(** [ngx_queue_insert_head] and [ngx_queue_insert_after]. *)
Definition ngx_queue_insert_head (h x : Z) (m : queue_heap) : option queue_heap :=
  hn ← q_next m !! h; let m := set_next x hn m in
  xn ← q_next m !! x; let m := set_prev xn x m in
  let m := set_prev x h m in
  Some (set_next h x m).

Definition ngx_queue_insert_tail (h x : Z) (m : queue_heap) : option queue_heap :=
  hp ← q_prev m !! h; let m := set_prev x hp m in
  xp ← q_prev m !! x; let m := set_next xp x m in
  let m := set_next x h m in
  Some (set_prev h x m).

Definition ngx_queue_remove (x : Z) (m : queue_heap) : option queue_heap :=
  xn ← q_next m !! x; xp ← q_prev m !! x; let m := set_prev xn xp m in
  xp ← q_prev m !! x; xn ← q_next m !! x; Some (set_next xp xn m).

Definition ngx_queue_split (h q n : Z) (m : queue_heap) : option queue_heap :=
  hp ← q_prev m !! h; let m := set_prev n hp m in
  np ← q_prev m !! n; let m := set_next np n m in
  let m := set_next n q m in
  qp ← q_prev m !! q; let m := set_prev h qp m in
  hp ← q_prev m !! h; let m := set_next hp h m in
  Some (set_prev q n m).

Definition ngx_queue_add (h n : Z) (m : queue_heap) : option queue_heap :=
  hp ← q_prev m !! h; nn ← q_next m !! n; let m := set_next hp nn m in
  nn ← q_next m !! n; hp ← q_prev m !! h; let m := set_prev nn hp m in
  np ← q_prev m !! n; let m := set_prev h np m in
  hp ← q_prev m !! h; Some (set_next hp h m).

(** The [for ( ;; )] of [ngx_queue_middle]. *)
Fixpoint middle_loop (fuel : nat) (queue middle next : Z) (m : queue_heap) : option Z :=
  match fuel with
  | O => None
  | S fuel =>
      middle ← ngx_queue_next middle m;
      next ← ngx_queue_next next m;
      last ← ngx_queue_last queue m;
      if next =? last then Some middle
      else
        next ← ngx_queue_next next m;
        if next =? last then Some middle else middle_loop fuel queue middle next m
  end.

Definition ngx_queue_middle (fuel : nat) (queue : Z) (m : queue_heap) : option Z :=
  middle ← ngx_queue_head queue m;
  last ← ngx_queue_last queue m;
  if middle =? last then Some middle
  else next ← ngx_queue_head queue m; middle_loop fuel queue middle next m.

(** The [do] loop of [ngx_queue_sort]: where [q] goes. *)
Fixpoint sort_back (fuel : nat) (cmp : Z -> Z -> Z) (queue prev q : Z) (m : queue_heap) : option Z :=
  match fuel with
  | O => None
  | S fuel =>
      if cmp prev q <=? 0 then Some prev
      else
        prev ← ngx_queue_prev prev m;
        if prev =? queue then Some prev else sort_back fuel cmp queue prev q m
  end.

Fixpoint sort_loop (bound fuel : nat) (cmp : Z -> Z -> Z) (queue q : Z) (m : queue_heap)
    : option queue_heap :=
  match fuel with
  | O => None
  | S fuel =>
      if q =? queue then Some m
      else
        prev ← ngx_queue_prev q m;
        next ← ngx_queue_next q m;
        m ← ngx_queue_remove q m;
        prev ← sort_back bound cmp queue prev q m;
        m ← ngx_queue_insert_head prev q m;
        sort_loop bound fuel cmp queue next m
  end.

(** [fuel] bounds both loops by the number of nodes. *)
Definition ngx_queue_sort (fuel : nat) (cmp : Z -> Z -> Z) (queue : Z) (m : queue_heap)
    : option queue_heap :=
  q ← ngx_queue_head queue m;
  last ← ngx_queue_last queue m;
  if q =? last then Some m
  else q ← ngx_queue_next q m; sort_loop fuel fuel cmp queue q m.

(** ** [ngx_sort]: an array of [n] elements

    [alloc] is the answer of [ngx_alloc] for the temporary element. *)
Section ngx_sort.
Context {A : Type} (cmp : A -> A -> Z).

(** The inner loop, with the element [p] saved from position [p2]. *)
Fixpoint shift_up (p2 : nat) (p : A) (base : list A) : list A :=
  match p2 with
  | O => <[0%nat := p]> base
  | S k =>
      match base !! k with
      | Some e => if cmp e p >? 0 then shift_up k p (<[p2 := e]> base) else <[p2 := p]> base
      | None => <[p2 := p]> base
      end
  end.

(** The outer loop, [p1] with [todo] elements to go. *)
Fixpoint sort_from (todo p1 : nat) (base : list A) : list A :=
  match todo with
  | O => base
  | S todo =>
      match base !! p1 with
      | Some p => sort_from todo (S p1) (shift_up p1 p base)
      | None => base
      end
  end.

Definition ngx_sort (alloc : bool) (base : list A) : list A :=
  if negb alloc then base else sort_from (length base - 1) 1 base.
End ngx_sort.

(** ** The list function *)
Section insertion_sort.
Context {A : Type} (cmp : A -> A -> Z).

(** [prevs] is the sorted part, the last element first. *)
Fixpoint insert_back (prevs : list A) (q : A) : list A :=
  match prevs with
  | [] => [q]
  | p :: ps => if cmp p q <=? 0 then q :: prevs else p :: insert_back ps q
  end.

Definition insertion_sort (l : list A) : list A :=
  match l with
  | [] => []
  | x :: l => rev (fold_left insert_back l [x])
  end.
End insertion_sort.

(** *** It sorts, and equal elements keep their order *)
Section insertion_sort_correct.
Context {A : Type} (cmp : A -> A -> Z).

Definition before (x y : A) : Prop := cmp x y <= 0.
Definition same_key (x y : A) : bool := (cmp x y <=? 0) && (cmp y x <=? 0).

Lemma insert_back_perm ps q : insert_back cmp ps q ≡ₚ q :: ps.
Proof.
  induction ps as [|p ps IH]; [done|]. cbn. case_ifs; [done|]. rewrite IH. by constructor.
Qed.

Lemma fold_insert_perm l ps : fold_left (insert_back cmp) l ps ≡ₚ rev ps ++ l.
Proof.
  revert ps. induction l as [|q l IH]; intros ps; cbn.
  - rewrite app_nil_r. apply Permutation_rev.
  - rewrite IH, <-(Permutation_rev (insert_back cmp ps q)), insert_back_perm.
    rewrite <-(Permutation_rev ps). apply Permutation_middle.
Qed.

Lemma insertion_sort_perm l : insertion_sort cmp l ≡ₚ l.
Proof.
  destruct l as [|x l]; [done|]. cbn [insertion_sort].
  rewrite <-Permutation_rev. apply (fold_insert_perm l [x]).
Qed.

Hypothesis total : forall x y, before x y \/ before y x.
Hypothesis transitive : forall x y z, before x y -> before y z -> before x z.

(** [ps] is sorted from its last element to its first. *)
Lemma insert_back_sorted ps q :
  StronglySorted (flip before) ps -> StronglySorted (flip before) (insert_back cmp ps q).
Proof.
  induction ps as [|p ps IH]; intros H; [repeat constructor|]. cbn [insert_back].
  apply StronglySorted_inv in H as [Hs Hp]. destruct (cmp p q <=? 0) eqn:E.
  - constructor; [by constructor|]. constructor; [unfold flip, before; lia|].
    eapply Forall_impl; [exact Hp|]. intros x Hx. unfold flip in *.
    apply (transitive _ p); [done|unfold before; lia].
  - constructor; [by apply IH|]. rewrite insert_back_perm. constructor; [|done].
    unfold flip. destruct (total q p); [done|unfold before in *; lia].
Qed.

Lemma fold_insert_sorted l ps : StronglySorted (flip before) ps ->
  StronglySorted (flip before) (fold_left (insert_back cmp) l ps).
Proof. revert ps. induction l as [|q l IH]; intros ps H; [done|]. by apply IH, insert_back_sorted. Qed.

Lemma rev_sorted (R : relation A) l : StronglySorted (flip R) l -> StronglySorted R (rev l).
Proof.
  induction 1 as [|x l Hl IH Hx]; cbn; [constructor|].
  apply StronglySorted_app_2; [|done|repeat constructor].
  intros y z Hy [->|[]%elem_of_nil]%elem_of_cons. rewrite Forall_forall in Hx. apply Hx.
  by apply list_elem_of_In, in_rev, list_elem_of_In.
Qed.

Lemma insertion_sort_sorted l : StronglySorted before (insertion_sort cmp l).
Proof.
  destruct l as [|x l]; [constructor|]. apply rev_sorted, fold_insert_sorted. repeat constructor.
Qed.

(** The elements equal to [x], in their order. *)
Definition equals (x : A) (l : list A) : list A := List.filter (same_key x) l.

Lemma equals_app x l1 l2 : equals x (l1 ++ l2) = equals x l1 ++ equals x l2.
Proof. apply List.filter_app. Qed.

Lemma equals_insert x ps q : equals x (rev (insert_back cmp ps q)) = equals x (rev ps ++ [q]).
Proof.
  induction ps as [|p ps IH]; [done|]. cbn [insert_back].
  destruct (cmp p q <=? 0) eqn:E; [done|]. cbn [rev]. rewrite !equals_app, IH, !equals_app.
  rewrite <-!app_assoc. f_equal. cbn [equals List.filter].
  destruct (same_key x p) eqn:Ep, (same_key x q) eqn:Eq; try done.
  unfold same_key in *. assert (before p q); [|unfold before in *; lia].
  apply (transitive _ x); unfold before; lia.
Qed.

Lemma insertion_sort_stable l x : equals x (insertion_sort cmp l) = equals x l.
Proof.
  destruct l as [|y l]; [done|]. cbn [insertion_sort].
  assert (forall ps, equals x (rev (fold_left (insert_back cmp) l ps)) = equals x (rev ps ++ l)) as H.
  { induction l as [|q l IH]; intros ps; cbn [fold_left]; [by rewrite app_nil_r|].
    change (q :: l) with ([q] ++ l). rewrite IH, equals_app, equals_insert, !equals_app.
    by rewrite app_assoc. }
  apply (H [y]).
Qed.
End insertion_sort_correct.

(** ** [ngx_sort] computes it *)
Section ngx_sort_correct.
Context {A : Type} (cmp : A -> A -> Z).

Lemma shift_up_insert l x y t :
  shift_up cmp (length l) x (l ++ y :: t) = rev (insert_back cmp (rev l) x) ++ t.
Proof.
  revert y t. induction l as [|e l IH] using rev_ind; intros y t; [done|].
  rewrite length_app, Nat.add_1_r. cbn [shift_up].
  rewrite <-app_assoc, lookup_app_r, Nat.sub_diag by done. cbn [app lookup list_lookup].
  rewrite rev_app_distr. cbn [rev app insert_back]. rewrite Z.gtb_ltb.
  destruct (cmp e x <=? 0) eqn:E.
  - assert ((0 <? cmp e x) = false) as -> by lia. cbn [rev].
    rewrite rev_involutive. replace (S (length l)) with (length (l ++ [e]) + 0)%nat
      by (rewrite length_app; cbn; lia).
    change (l ++ e :: y :: t) with (l ++ [e] ++ y :: t). rewrite app_assoc, insert_app_r.
    by rewrite <-!app_assoc.
  - assert ((0 <? cmp e x) = true) as -> by lia. cbn [rev]. rewrite <-app_assoc.
    change (l ++ e :: y :: t) with (l ++ [e] ++ y :: t).
    replace (S (length l)) with (length (l ++ [e]) + 0)%nat by (rewrite length_app; cbn; lia).
    rewrite app_assoc, insert_app_r, <-app_assoc. cbn [app].
    change (<[0%nat:=e]> (y :: t)) with (e :: t). apply IH.
Qed.

Lemma sort_from_fold l ps :
  sort_from cmp (length l) (length ps) (rev ps ++ l) = rev (fold_left (insert_back cmp) l ps).
Proof.
  revert ps. induction l as [|x l IH]; intros ps; cbn [length sort_from fold_left].
  { apply app_nil_r. }
  rewrite lookup_app_r, length_rev, Nat.sub_diag by (rewrite length_rev; lia).
  cbn [lookup list_lookup]. rewrite <-(length_rev ps), shift_up_insert, rev_involutive, length_rev.
  rewrite <-IH. rewrite (Permutation_length (insert_back_perm cmp ps x)). done.
Qed.

Lemma ngx_sort_insertion base : ngx_sort cmp true base = insertion_sort cmp base.
Proof.
  destruct base as [|x l]; [done|]. unfold ngx_sort. cbn [negb length]. rewrite Nat.sub_1_r.
  apply (sort_from_fold l [x]).
Qed.
End ngx_sort_correct.

(** ** Rings *)

Definition link (m : queue_heap) (a b : Z) : Prop := q_next m !! a = Some b /\ q_prev m !! b = Some a.

(** From [a] over the nodes [l] to [b]. *)
Fixpoint chain (m : queue_heap) (a : Z) (l : list Z) (b : Z) : Prop :=
  match l with
  | [] => link m a b
  | x :: l => link m a x /\ chain m x l b
  end.

Definition ring (m : queue_heap) (q : Z) (l : list Z) : Prop := NoDup (q :: l) /\ chain m q l q.

Lemma chain_app m a l1 x l2 b : chain m a (l1 ++ x :: l2) b <-> chain m a l1 x /\ chain m x l2 b.
Proof. revert a. induction l1 as [|y l1 IH]; intros a; cbn; [done|]. rewrite IH. tauto. Qed.

(** A node of a ring may be taken for its sentinel. *)
Lemma ring_rotate m q l1 a l2 : ring m q (l1 ++ a :: l2) <-> ring m a (l2 ++ q :: l1).
Proof.
  assert (q :: l1 ++ a :: l2 ≡ₚ a :: l2 ++ q :: l1) as P.
  { rewrite <-!Permutation_middle, Permutation_swap. do 2 constructor. apply Permutation_app_comm. }
  unfold ring. rewrite P, !chain_app. tauto.
Qed.

Lemma chain_set_next m a l b x v :
  x ∉ a :: l -> chain (set_next x v m) a l b <-> chain m a l b.
Proof.
  revert a. induction l as [|y l IH]; intros a H; cbn; unfold link; cbn;
    rewrite lookup_insert_ne by set_solver; [done|]. rewrite IH by set_solver. done.
Qed.

Lemma chain_set_prev m a l b x v :
  x ∉ l ++ [b] -> chain (set_prev x v m) a l b <-> chain m a l b.
Proof.
  revert a. induction l as [|y l IH]; intros a H; cbn; unfold link; cbn;
    rewrite lookup_insert_ne by set_solver; [done|]. rewrite IH by set_solver. done.
Qed.

Lemma NoDup_middle (l1 : list Z) x l2 : NoDup (l1 ++ x :: l2) <-> x ∉ l1 ++ l2 /\ NoDup (l1 ++ l2).
Proof. by rewrite <-Permutation_middle, NoDup_cons. Qed.

(** Takes the hypotheses on distinct nodes apart, *)
Ltac nodup :=
  cbn [app] in *; rewrite <-?app_assoc in *; cbn [app] in *;
  repeat match goal with
  | H : NoDup (_ :: _) |- _ => apply NoDup_cons in H as [? H]
  | H : NoDup (_ ++ _ :: _) |- _ => apply NoDup_middle in H as [? H]
  | H : NoDup (?a ++ ?b ++ ?c :: ?d) |- _ =>
      rewrite (app_assoc a b (c :: d)) in H; apply NoDup_middle in H as [? H];
      rewrite <-app_assoc in H
  | H : _ ∉ _ :: _ |- _ => apply not_elem_of_cons in H as [? ?]
  | H : _ ∉ _ ++ _ |- _ => apply not_elem_of_app in H as [? ?]
  end.

(** solves [x ∉ l] and [x <> y] with the parts, *)
Ltac distinct :=
  rewrite ?not_elem_of_cons, ?not_elem_of_app, ?not_elem_of_cons;
  repeat split; first [assumption | apply not_eq_sym; assumption | apply not_elem_of_nil].

Ltac distinct_list :=
  cbn [app]; rewrite <-?app_assoc; cbn [app];
  repeat first [rewrite NoDup_cons | rewrite NoDup_middle]; repeat split;
  first [distinct | assumption | apply NoDup_nil_2 | rewrite app_nil_r; distinct
    | match goal with H : NoDup (_ ++ _) |- _ => apply NoDup_app in H as (? & _ & ?); assumption end].

(** and reads the fields of an updated heap. *)
Ltac ring_solve :=
  nodup;
  repeat match goal with H : chain _ _ (_ :: _) _ |- _ => destruct H end;
  cbn [chain] in *; unfold link in *; repeat split;
  cbn [q_prev q_next set_prev set_next] in *;
  repeat first
    [ rewrite lookup_insert_eq
    | rewrite lookup_insert_ne by distinct
    | rewrite chain_set_next by distinct
    | rewrite chain_set_prev by distinct ];
  cbn [q_prev q_next set_prev set_next]; try (reflexivity || tauto).

Lemma chain_first m a l b : chain m a l b -> q_next m !! a = Some (hd b l).
Proof. destruct l; cbn; unfold link; tauto. Qed.

Lemma chain_last m a l b : chain m a l b -> q_prev m !! b = Some (List.last l a).
Proof.
  destruct l as [|x l _] using rev_ind; [cbn; unfold link; tauto|].
  rewrite chain_app, last_last. intros [_ H]. apply H.
Qed.

Lemma ring_empty m q l :
  ring m q l -> ngx_queue_empty q m = Some (match l with [] => true | _ :: _ => false end).
Proof.
  intros [H C]. unfold ngx_queue_empty. rewrite (chain_last _ _ _ _ C). cbn [mbind option_bind]. f_equal.
  destruct l as [|x l]; [apply Z.eqb_refl|]. apply Z.eqb_neq. intros E.
  apply NoDup_cons in H as [H _]. apply H. rewrite E. destruct l as [|y l _] using rev_ind.
  - set_solver.
  - change (x :: l ++ [y]) with ((x :: l) ++ [y]). rewrite last_last. set_solver.
Qed.

Lemma ring_init m q : ring (ngx_queue_init q m) q [].
Proof. split; [repeat constructor; set_solver|]. unfold ngx_queue_init. cbn. ring_solve. Qed.

Lemma ring_insert_head m q l x : ring m q l -> x ∉ q :: l ->
  exists m', ngx_queue_insert_head q x m = Some m' /\ ring m' q (x :: l).
Proof.
  intros [H C] Hx. unfold ngx_queue_insert_head. rewrite (chain_first _ _ _ _ C). cbn [mbind option_bind].
  cbn [q_next set_next]. rewrite lookup_insert_eq. cbn [mbind option_bind].
  eexists; split; [done|]. split.
  { rewrite Permutation_swap. by constructor. }
  destruct l as [|y l]; cbn [hd chain] in *; ring_solve.
Qed.

(** Inserting after the node [p] of a ring. *)
Lemma ring_insert_after m q l1 l2 x : ring m q (l1 ++ l2) -> x ∉ q :: l1 ++ l2 ->
  exists m', ngx_queue_insert_head (List.last l1 q) x m = Some m' /\ ring m' q (l1 ++ x :: l2).
Proof.
  intros R Hx. destruct l1 as [|p l1 _] using rev_ind; [by apply ring_insert_head|].
  rewrite last_last. rewrite <-app_assoc in *. cbn [app] in *. rewrite ring_rotate in R.
  destruct (ring_insert_head m p (l2 ++ q :: l1) x R) as (m' & -> & R'); [set_solver|].
  eexists; split; [done|]. by rewrite ring_rotate.
Qed.

Lemma ring_insert_tail m q l x : ring m q l -> x ∉ q :: l ->
  exists m', ngx_queue_insert_tail q x m = Some m' /\ ring m' q (l ++ [x]).
Proof.
  intros [H C] Hx. unfold ngx_queue_insert_tail. rewrite (chain_last _ _ _ _ C). cbn [mbind option_bind].
  cbn [q_prev set_prev]. rewrite lookup_insert_eq. cbn [mbind option_bind].
  eexists; split; [done|]. split.
  { rewrite <-Permutation_cons_append, Permutation_swap. by constructor. }
  destruct l as [|y l _] using rev_ind; [cbn in *; ring_solve|].
  rewrite last_last. rewrite !chain_app in *. destruct C as [C D]. ring_solve.
Qed.

Lemma ring_remove m q l1 x l2 : ring m q (l1 ++ x :: l2) ->
  exists m', ngx_queue_remove x m = Some m' /\ ring m' q (l1 ++ l2).
Proof.
  intros [H C]. rewrite chain_app in C. destruct C as [C D]. unfold ngx_queue_remove.
  assert (NoDup (q :: l1 ++ l2)) as N.
  { eapply sublist_NoDup; [done|]. apply sublist_skip, sublist_app; [done|]. by apply sublist_cons. }
  rewrite (chain_first _ _ _ _ D), (chain_last _ _ _ _ C). cbn [mbind option_bind q_prev q_next set_prev].
  assert (x <> hd q l2) as Hne.
  { destruct l2 as [|y l2]; cbn [hd]; nodup; set_solver. }
  rewrite lookup_insert_ne, (chain_last _ _ _ _ C), (chain_first _ _ _ _ D) by done.
  cbn [mbind option_bind]. eexists; split; [done|]. split; [done|]. clear N.
  destruct l2 as [|z l2]; cbn [hd] in *; destruct l1 as [|y l1 _] using rev_ind;
    rewrite ?last_last, ?app_nil_r, ?chain_app in *; cbn [app List.last] in *.
  all: try (cbn [chain] in *; ring_solve).
Qed.

Lemma ring_split m h l1 q l2 n : ring m h (l1 ++ q :: l2) -> n ∉ h :: l1 ++ q :: l2 ->
  exists m', ngx_queue_split h q n m = Some m' /\ ring m' h l1 /\ ring m' n (q :: l2).
Proof.
  intros [H C] Hn. rewrite chain_app in C. destruct C as [C D]. unfold ngx_queue_split.
  assert (n <> q /\ n <> h /\ h <> q) as (Hnq & Hnh & Hhq) by (nodup; set_solver).
  rewrite (chain_last _ _ _ _ D). cbn [mbind option_bind q_prev set_prev]. rewrite lookup_insert_eq.
  cbn [mbind option_bind q_prev q_next set_prev set_next].
  rewrite lookup_insert_ne, (chain_last _ _ _ _ C) by done. cbn [mbind option_bind].
  rewrite lookup_insert_eq. cbn [mbind option_bind]. eexists; split; [done|].
  split; (split; [nodup; distinct_list|]).
  all: destruct l1 as [|y l1 _] using rev_ind; destruct l2 as [|z l2 _] using rev_ind;
    rewrite ?last_last in *.
  all: rewrite ?(app_comm_cons _ _ q), ?chain_app in *; cbn [List.last] in *; ring_solve.
Qed.

Lemma ring_add m h l1 n l2 : ring m h l1 -> ring m n l2 -> NoDup (h :: l1 ++ n :: l2) ->
  exists m', ngx_queue_add h n m = Some m' /\ ring m' h (l1 ++ l2).
Proof.
  intros [_ C] [_ D] N. unfold ngx_queue_add. nodup.
  assert (List.last l1 h <> n) as Hn.
  { destruct l1 as [|y l1 _] using rev_ind; rewrite ?last_last; nodup; distinct. }
  rewrite (chain_last _ _ _ _ C), (chain_first _ _ _ _ D).
  cbn [mbind option_bind q_prev q_next set_prev set_next].
  rewrite lookup_insert_ne, (chain_last _ _ _ _ C), (chain_first _ _ _ _ D) by done.
  cbn [mbind option_bind q_prev q_next set_prev set_next].
  destruct l2 as [|z l2].
  { cbn [hd]. rewrite lookup_insert_eq. cbn [mbind option_bind]. rewrite lookup_insert_eq.
    cbn [mbind option_bind]. eexists; split; [done|]. rewrite app_nil_r in *. split; [distinct_list|].
    destruct l1 as [|y l1 _] using rev_ind; rewrite ?last_last, ?chain_app in *; cbn [List.last] in *; ring_solve. }
  cbn [hd]. nodup. rewrite lookup_insert_ne, (chain_last _ _ _ _ D) by done. cbn [mbind option_bind].
  rewrite lookup_insert_eq. cbn [mbind option_bind]. eexists; split; [done|]. split; [distinct_list|].
  destruct l1 as [|y l1 _] using rev_ind; destruct l2 as [|w l2 _] using rev_ind;
    rewrite ?(app_comm_cons _ _ z), ?last_last in *; cbn [app] in *;
    rewrite <-?app_assoc, ?chain_app in *; cbn [app List.last] in *;
    rewrite ?(app_comm_cons _ _ z), ?chain_app in *; ring_solve.
Qed.

(** ** The middle of a ring *)

Lemma ring_next m q l i x :
  ring m q l -> l !! i = Some x -> ngx_queue_next x m = Some (default q (l !! S i)).
Proof.
  intros [_ C] Hi. rewrite <-(take_drop_middle _ _ _ Hi), chain_app in C. destruct C as [_ C].
  unfold ngx_queue_next. rewrite (chain_first _ _ _ _ C). f_equal.
  pose proof (lookup_drop l (S i) 0) as E. rewrite Nat.add_0_r in E. rewrite <-E. by destruct (drop (S i) l).
Qed.

Lemma ring_last m q l : ring m q l -> ngx_queue_last q m = Some (List.last l q).
Proof. intros [_ C]. apply (chain_last _ _ _ _ C). Qed.

Lemma ring_head m q l : ring m q l -> ngx_queue_head q m = Some (hd q l).
Proof. intros [_ C]. apply (chain_first _ _ _ _ C). Qed.

Lemma last_nth (l : list Z) d : l <> [] -> l !! pred (length l) = Some (List.last l d).
Proof.
  intros H. destruct l as [|x l _] using rev_ind; [done|]. rewrite last_last, length_app.
  rewrite Nat.add_1_r. by apply list_lookup_middle.
Qed.

Lemma nth_eqb (l : list Z) i j a b :
  NoDup l -> l !! i = Some a -> l !! j = Some b -> (a =? b) = (i =? j)%nat.
Proof.
  intros N Ha Hb. destruct (i =? j)%nat eqn:E; [apply Nat.eqb_eq in E as ->; simplify_eq; lia|].
  apply Z.eqb_neq. intros ->. pose proof (NoDup_lookup _ _ _ _ N Ha Hb). lia.
Qed.

Lemma middle_loop_index m q l i x y fuel :
  ring m q l -> l !! i = Some x -> l !! (2 * i)%nat = Some y -> (2 * i + 1 < length l)%nat ->
  (length l - 2 * i <= fuel)%nat ->
  middle_loop fuel q x y m = l !! (length l / 2)%nat.
Proof.
  intros R. pose proof R as [N _]. apply NoDup_cons in N as [_ N].
  revert i x y. induction fuel as [|fuel IH]; intros i x y Hx Hy Hl Hf; [lia|].
  destruct (lookup_lt_is_Some_2 l (S i)) as [x' Hx']; [lia|].
  destruct (lookup_lt_is_Some_2 l (S (2 * i))) as [y' Hy']; [lia|].
  pose proof (last_nth l q ltac:(by intros ->)) as Hlast.
  cbn [middle_loop].
  rewrite (ring_next _ _ _ _ _ R Hx), Hx', (ring_next _ _ _ _ _ R Hy), Hy', (ring_last _ _ _ R).
  cbn [mbind option_bind default]. unfold id. rewrite (nth_eqb _ _ _ _ _ N Hy' Hlast).
  destruct (S (2 * i) =? pred (length l))%nat eqn:E1.
  { rewrite <-Hx'. f_equal. apply Nat.eqb_eq in E1. apply (Nat.div_unique _ 2 _ 0); lia. }
  destruct (lookup_lt_is_Some_2 l (2 * S i)) as [z Hz]; [lia|].
  rewrite (ring_next _ _ _ _ _ R Hy').
  replace (S (S (2 * i))) with (2 * S i)%nat by lia. rewrite Hz. cbn [mbind option_bind default id].
  rewrite (nth_eqb _ _ _ _ _ N Hz Hlast).
  destruct (2 * S i =? pred (length l))%nat eqn:E2; [|apply (IH (S i)); [done|done|lia|lia]].
  rewrite <-Hx'. f_equal. apply Nat.eqb_eq in E2. apply (Nat.div_unique _ 2 _ 1); lia.
Qed.

Lemma ring_middle m q l fuel : ring m q l -> l <> [] -> (length l <= fuel)%nat ->
  ngx_queue_middle fuel q m = l !! (length l / 2)%nat.
Proof.
  intros R Hne Hf. unfold ngx_queue_middle. rewrite (ring_head _ _ _ R), (ring_last _ _ _ R).
  cbn [mbind option_bind]. destruct l as [|x l]; [done|]. cbn [hd].
  pose proof R as [N _]. apply NoDup_cons in N as [_ N].
  rewrite (nth_eqb (x :: l) 0 _ _ _ N eq_refl (last_nth (x :: l) q ltac:(done))).
  destruct l as [|y l]; [done|]. cbn [length Nat.pred Nat.eqb].
  apply (middle_loop_index _ _ _ 0 _ _ _ R); [done|done|cbn;lia|lia].
Qed.

(** ** The sort of a ring *)

Lemma sort_back_place cmp m q0 l t x fuel :
  ring m q0 (l ++ t) -> l <> [] -> (length l < fuel)%nat -> exists l1 l2,
    l = l1 ++ l2 /\ rev (insert_back cmp (rev l) x) = l1 ++ x :: l2 /\
    sort_back fuel cmp q0 (List.last l q0) x m = Some (List.last l1 q0).
Proof.
  intros R Hne Hf.
  enough (forall l1 l2, l = l1 ++ l2 -> l1 <> [] -> (length l1 < fuel)%nat -> exists l1' l2',
    l = l1' ++ l2' /\ rev (insert_back cmp (rev l1) x) ++ l2 = l1' ++ x :: l2' /\
    sort_back fuel cmp q0 (List.last l1 q0) x m = Some (List.last l1' q0)) as G.
  { destruct (G l [] (eq_sym (app_nil_r l)) Hne Hf) as (l1 & l2 & H1 & H2 & H3).
    rewrite app_nil_r in H2. eauto. }
  clear Hne Hf. revert fuel. intros fuel l1. revert fuel.
  induction l1 as [|p l1 IH] using rev_ind; intros fuel l2 Hl Hne Hf; [done|].
  rewrite length_app, Nat.add_1_r in Hf. destruct fuel as [|fuel]; [lia|].
  rewrite last_last, rev_app_distr. cbn [rev app insert_back sort_back].
  destruct (cmp p x <=? 0) eqn:E.
  { exists (l1 ++ [p]), l2. rewrite last_last. cbn [rev]. rewrite rev_involutive, <-!app_assoc.
    rewrite <-app_assoc in Hl. done. }
  assert (ngx_queue_prev p m = Some (List.last l1 q0)) as Hp.
  { destruct R as [_ C]. rewrite Hl, <-!app_assoc in C. cbn [app] in C. rewrite chain_app in C.
    apply (chain_last _ _ _ _ (proj1 C)). }
  rewrite Hp. cbn [mbind option_bind]. destruct (decide (l1 = [])) as [->|Hn].
  { cbn [List.last]. rewrite Z.eqb_refl. by exists [], (p :: l2). }
  assert ((List.last l1 q0 =? q0) = false) as ->.
  { apply Z.eqb_neq. intros Heq. destruct R as [N _]. apply NoDup_cons in N as [N _]. apply N.
    rewrite Hl, <-Heq. do 3 (apply elem_of_app; left).
    destruct l1 as [|w l1 _] using rev_ind; [done|]. rewrite last_last. set_solver. }
  destruct (IH fuel (p :: l2)) as (l1' & l2' & H1 & H2 & H3); [by rewrite Hl, <-app_assoc|done|lia|].
  exists l1', l2'. cbn [rev]. rewrite <-app_assoc. cbn [app]. done.
Qed.

Lemma sort_loop_ring cmp q0 bound l2 : forall m l1 fuel,
  ring m q0 (l1 ++ l2) -> l1 <> [] -> (length (l1 ++ l2) < bound)%nat -> (length l2 < fuel)%nat ->
  exists m', sort_loop bound fuel cmp q0 (hd q0 l2) m = Some m' /\
             ring m' q0 (rev (fold_left (insert_back cmp) l2 (rev l1))).
Proof.
  induction l2 as [|x l2 IH]; intros m l1 fuel R Hne Hb Hf; (destruct fuel as [|fuel]; [cbn in Hf; lia|]);
    cbn [hd sort_loop fold_left].
  { rewrite Z.eqb_refl. eexists; split; [done|]. by rewrite rev_involutive, <-(app_nil_r l1). }
  pose proof R as [N C]. rewrite chain_app in C. destruct C as [C D]. nodup.
  assert ((x =? q0) = false) as -> by lia.
  unfold ngx_queue_prev, ngx_queue_next. rewrite (chain_last _ _ _ _ C), (chain_first _ _ _ _ D).
  cbn [mbind option_bind]. destruct (ring_remove _ _ _ _ _ R) as (m1 & -> & R1). cbn [mbind option_bind].
  rewrite length_app in Hb. cbn [length] in Hb, Hf.
  destruct (sort_back_place cmp m1 q0 l1 l2 x bound R1 Hne ltac:(lia)) as (a & b & Hl & Hins & ->).
  cbn [mbind option_bind]. rewrite Hl, <-app_assoc in R1.
  destruct (ring_insert_after m1 q0 a (b ++ l2) x R1) as (m2 & -> & R2).
  { rewrite app_assoc, <-Hl. distinct. }
  cbn [mbind option_bind].
  destruct (IH m2 (a ++ x :: b) fuel) as (m' & Hm & Rm).
  - by rewrite <-app_assoc.
  - by intros []%app_eq_nil.
  - rewrite Hl in Hb. rewrite !length_app in *. cbn [length]. lia.
  - lia.
  - exists m'. split; [done|]. by rewrite <-Hins, rev_involutive in Rm.
Qed.

Lemma ring_sort cmp m q0 l fuel : ring m q0 l -> (length l < fuel)%nat ->
  exists m', ngx_queue_sort fuel cmp q0 m = Some m' /\ ring m' q0 (insertion_sort cmp l).
Proof.
  intros R Hf. unfold ngx_queue_sort. rewrite (ring_head _ _ _ R), (ring_last _ _ _ R).
  cbn [mbind option_bind]. destruct l as [|x l]; [rewrite Z.eqb_refl; eauto|]. cbn [hd].
  pose proof R as [N _]. apply NoDup_cons in N as [_ N].
  rewrite (nth_eqb (x :: l) 0 _ _ _ N eq_refl (last_nth (x :: l) q0 ltac:(done))).
  destruct l as [|y l]; [cbn; eauto|]. cbn [length Nat.pred Nat.eqb].
  rewrite (ring_next _ _ _ 0 _ R eq_refl). cbn [mbind option_bind lookup list_lookup default id].
  apply (sort_loop_ring cmp q0 fuel (y :: l) m [x] fuel R); [done|done|cbn in *; lia].
Qed.

(** ** The properties *)

(** Every operation on a ring does to the list of its nodes what its name
    says: a test for emptiness, insertion at the head, at the tail and after a
    node, removal, cutting the ring in two at a node, joining two rings, and
    finding the middle, which is the node of index [length l / 2]. *)
Theorem queue_operations m q l : ring m q l ->
  ngx_queue_empty q m = Some (match l with [] => true | _ :: _ => false end) /\
  (forall x, x ∉ q :: l -> exists m', ngx_queue_insert_tail q x m = Some m' /\ ring m' q (l ++ [x])) /\
  (forall l1 l2 x, l = l1 ++ l2 -> x ∉ q :: l ->
     exists m', ngx_queue_insert_head (List.last l1 q) x m = Some m' /\ ring m' q (l1 ++ x :: l2)) /\
  (forall l1 x l2, l = l1 ++ x :: l2 ->
     (exists m', ngx_queue_remove x m = Some m' /\ ring m' q (l1 ++ l2)) /\
     (forall n, n ∉ q :: l ->
        exists m', ngx_queue_split q x n m = Some m' /\ ring m' q l1 /\ ring m' n (x :: l2))) /\
  (forall n l2, ring m n l2 -> NoDup (q :: l ++ n :: l2) ->
     exists m', ngx_queue_add q n m = Some m' /\ ring m' q (l ++ l2)) /\
  (forall fuel, l <> [] -> (length l <= fuel)%nat ->
     ngx_queue_middle fuel q m = l !! (length l / 2)%nat).
Proof.
  intros R. split; [by apply ring_empty|]. split; [intros; by apply ring_insert_tail|].
  split; [intros l1 l2 x ->; by apply ring_insert_after|]. split.
  { intros l1 x l2 ->. split; [by apply ring_remove|]. intros n Hn. by apply ring_split. }
  split; intros; [by apply ring_add|by apply ring_middle].
Qed.

(** C32: [ngx_queue_sort] with a comparison that is a total preorder always
    returns, leaves a ring of the same nodes in order, and keeps the order of
    the nodes that compare equal; [ngx_sort] on the array of the same elements
    gives the same order. *)
Theorem queue_sort_stable cmp m q l fuel :
  (forall x y, before cmp x y \/ before cmp y x) ->
  (forall x y z, before cmp x y -> before cmp y z -> before cmp x z) ->
  ring m q l -> (length l < fuel)%nat ->
  exists m' l', ngx_queue_sort fuel cmp q m = Some m' /\ ring m' q l' /\
    l' ≡ₚ l /\ StronglySorted (before cmp) l' /\ (forall x, equals cmp x l' = equals cmp x l) /\
    ngx_sort cmp true l = l'.
Proof.
  intros Ht Htr R Hf. destruct (ring_sort cmp m q l fuel R Hf) as (m' & E & R').
  exists m', (insertion_sort cmp l). repeat split; [done|by apply R'|by apply R'|..].
  - apply insertion_sort_perm.
  - by apply insertion_sort_sorted.
  - intros x. by apply insertion_sort_stable.
  - apply ngx_sort_insertion.
Qed.

(** A ring of the nodes 11, 12, 21, 13 with the sentinel 1. *)
Definition sample_ring : queue_heap :=
  mk_queue_heap (list_to_map [(1, 13); (11, 1); (12, 11); (21, 12); (13, 21)])
                (list_to_map [(1, 11); (11, 12); (12, 21); (21, 13); (13, 1)]).

Lemma sample_ring_is : ring sample_ring 1 [11; 12; 21; 13].
Proof. split; [repeat (constructor; [set_solver|]); constructor|vm_compute; tauto]. Qed.

Lemma queue_operations_witness :
  ring sample_ring 1 [11; 12; 21; 13] /\ ngx_queue_middle 4 1 sample_ring = Some 21.
Proof.
  split; [exact sample_ring_is|].
  destruct (queue_operations _ _ _ sample_ring_is) as (_ & _ & _ & _ & _ & H).
  exact (H 4%nat ltac:(discriminate) ltac:(cbn; lia)).
Defined.

(** By the last digit. *)
Definition sample_cmp (x y : Z) : Z := x mod 10 - y mod 10.

Lemma queue_sort_stable_witness :
  ring sample_ring 1 [11; 12; 21; 13] /\
  exists m' l', ngx_queue_sort 5 sample_cmp 1 sample_ring = Some m' /\ ring m' 1 l' /\
    l' ≡ₚ [11; 12; 21; 13] /\ StronglySorted (before sample_cmp) l' /\
    (forall x, equals sample_cmp x l' = equals sample_cmp x [11; 12; 21; 13]) /\
    ngx_sort sample_cmp true [11; 12; 21; 13] = l'.
Proof.
  split; [exact sample_ring_is|].
  apply (queue_sort_stable sample_cmp sample_ring 1 [11; 12; 21; 13] 5);
    [unfold before, sample_cmp; intros; lia|unfold before, sample_cmp; intros; lia|exact sample_ring_is|cbn; lia].
Defined.

Example ngx_sort_sample : ngx_sort sample_cmp true [11; 12; 21; 13] = [11; 21; 12; 13].
Proof. reflexivity. Qed.

(** Without memory for the temporary element the array stays as it is. *)
Example ngx_sort_no_memory : ngx_sort sample_cmp false [13; 11] = [13; 11].
Proof. reflexivity. Qed.
