(* ===== verification/Locations.v ===== *)
(** * Locations

    The locations of a server: src/http/ngx_http.c sorts the queue of the
    configuration, joins exact and prefix locations of one name, gathers below
    every prefix location those that it contains, and makes search trees of the
    result; [ngx_http_core_find_static_location] and
    [ngx_http_core_find_location] of src/http/ngx_http_core_module.c search
    them with the URI of a request.

    A type [L] stands for [ngx_http_core_loc_conf_t], of which [info] gives
    the fields that sorting reads; queues are lists (see [Queue]). *)

From stdpp Require Import sorting.
From S2P Require Import Prelude Strings Queue.

#[local] Set Warnings "-register-all".

(** The flags and the name of a location. *)
Record loc_info : Type := mk_loc_info {
  name : list Z;
  exact_match : bool;
  regex : option Z;           (* the compiled pattern *)
  named : bool;
  noname : bool;
  noregex : bool;
  auto_redirect : bool }.

(** [ngx_http_location_queue_t] *)
Inductive lq (L : Type) : Type :=
  Lq (exact inclusive : option L) (lq_name : list Z) (sub : list (lq L)).
Arguments Lq {L}.

(** [ngx_http_location_tree_node_t]; [Null] is a null pointer. *)
Inductive tree (L : Type) : Type :=
| Null
| Node (lo hi below : tree L) (exact inclusive : option L)
       (redirect : bool) (len : Z) (text : list Z).
Arguments Null {L}.
Arguments Node {L}.

(** A pointer that is not null. *)
Definition given {A} (p : option A) : bool := match p with Some _ => true | None => false end.

(** A comparison of bytes that are there ([filename_cmp_spec]). *)
Definition fcmp (s1 s2 : list Z) (n : nat) : Z := default 0 (ngx_filename_cmp s1 s2 n).

Section locations.
Context {L : Type} (info : L -> loc_info).

Definition lq_exact (q : lq L) : option L := let 'Lq e _ _ _ := q in e.
Definition lq_inclusive (q : lq L) : option L := let 'Lq _ i _ _ := q in i.
Definition lq_name (q : lq L) : list Z := let 'Lq _ _ n _ := q in n.
Definition lq_list (q : lq L) : list (lq L) := let 'Lq _ _ _ l := q in l.

(** [lq->exact ? lq->exact : lq->inclusive]: not null, by the next definition. *)
Definition lq_clcf (q : lq L) : option L :=
  match lq_exact q with Some c => Some c | None => lq_inclusive q end.

Definition ngx_http_add_location (clcf : L) : lq L :=
  let i := info clcf in
  if exact_match i || given (regex i) || named i || noname i
  then Lq (Some clcf) None (name i) []
  else Lq None (Some clcf) (name i) [].

Definition cmp_info (first second : loc_info) : Z :=
  if noname first && negb (noname second) then 1
  else if negb (noname first) && noname second then -1
  else if noname first || noname second then 0
  else if named first && negb (named second) then 1
  else if negb (named first) && named second then -1
  else if named first && named second then
    default 0 (ngx_strncmp (name first ++ [0]) (name second ++ [0])
                           (S (length (name first))))
  else if given (regex first) && negb (given (regex second)) then 1
  else if negb (given (regex first)) && given (regex second) then -1
  else if given (regex first) || given (regex second) then 0
  else
    let rc := fcmp (name first ++ [0]) (name second ++ [0])
                (Nat.min (length (name first)) (length (name second)) + 1) in
    if (rc =? 0) && negb (exact_match first) && exact_match second then 1 else rc.

Definition ngx_http_cmp_locations (one two : lq L) : Z :=
  match lq_clcf one, lq_clcf two with
  | Some first, Some second => cmp_info (info first) (info second)
  | _, _ => 0
  end.

(** [NGX_ERROR] is [None]. *)
Fixpoint join_from (q : lq L) (rest : list (lq L)) : option (list (lq L)) :=
  match rest with
  | [] => Some [q]
  | x :: rest =>
      if (length (lq_name q) =? length (lq_name x))%nat
         && (fcmp (lq_name q) (lq_name x) (length (lq_name x)) =? 0)
      then
        if (given (lq_exact q) && given (lq_exact x))
           || (given (lq_inclusive q) && given (lq_inclusive x))
        then None
        else join_from (Lq (lq_exact q) (lq_inclusive x) (lq_name q) (lq_list q)) rest
      else r ← join_from x rest; Some (q :: r)
  end.

Definition ngx_http_join_exact_locations (locations : list (lq L)) : option (list (lq L)) :=
  match locations with [] => Some [] | q :: rest => join_from q rest end.

(** The loop over [x]: the locations that [name] contains, and the rest. *)
Fixpoint contained (nm : list Z) (l : list (lq L)) : list (lq L) * list (lq L) :=
  match l with
  | [] => ([], [])
  | lx :: l' =>
      if (length (lq_name lx) <? length nm)%nat
         || negb (fcmp nm (lq_name lx) (length nm) =? 0)
      then ([], l)
      else let '(inn, out) := contained nm l' in (lx :: inn, out)
  end.

(** The queue from [q] on.  [fuel] bounds the depth of the recursion. *)
Fixpoint ngx_http_create_locations_list (fuel : nat) (locations : list (lq L))
    : option (list (lq L)) :=
  match fuel with
  | O => None
  | S fuel =>
      match locations with
      | [] | [_] => Some locations
      | (Lq exact inclusive nm l) as q :: next =>
          match inclusive with
          | None => r ← ngx_http_create_locations_list fuel next; Some (q :: r)
          | Some _ =>
              match contained nm next with
              | ([], x) => r ← ngx_http_create_locations_list fuel x; Some (q :: r)
              | (inn, x) =>
                  l ← ngx_http_create_locations_list fuel (l ++ inn);
                  match x with
                  | [] => Some [Lq exact inclusive nm l]
                  | _ => r ← ngx_http_create_locations_list fuel x;
                         Some (Lq exact inclusive nm l :: r)
                  end
              end
          end
      end
  end.

Definition redirects (c : option L) : bool :=
  match c with Some c => auto_redirect (info c) | None => false end.

(** [fuel] bounds the depth; [ngx_queue_middle] is [Queue.ring_middle]. *)
Fixpoint ngx_http_create_locations_tree (fuel : nat) (locations : list (lq L)) (prefix : nat)
    : option (tree L) :=
  match fuel with
  | O => None
  | S fuel =>
      let q := (length locations / 2)%nat in
      match locations !! q with
      | None => None
      | Some (Lq exact inclusive nm l) =>
          let len := (length nm - prefix)%nat in
          let create locations prefix :=
            match locations with
            | [] => Some Null
            | _ => ngx_http_create_locations_tree fuel locations prefix
            end in
          lo ← create (take q locations) prefix;
          hi ← match take q locations with
                  | [] => Some Null
                  | _ => create (drop (S q) locations) prefix
                  end;
          below ← create l (prefix + len)%nat;
          Some (Node lo hi below exact inclusive (redirects exact || redirects inclusive)
                  (u8 (Z.of_nat len)) (take len (drop prefix nm)))
      end
  end.

(** A queue that is not empty becomes a tree. *)
Definition make_static_tree (locations : list (lq L)) : option (tree L) :=
  joined ← ngx_http_join_exact_locations locations;
  lists ← ngx_http_create_locations_list (S (length joined)) joined;
  ngx_http_create_locations_tree (length joined) lists 0.

(** [loc] is [r->loc_conf], [None] while it is that of the caller; the result
    [None] is a read outside a buffer or of a null pointer. *)
Fixpoint ngx_http_core_find_static_location (uri : list Z) (rv : Z) (loc : option L)
    (node : tree L) : option (Z * option L) :=
  match node with
  | Null => Some (rv, loc)
  | Node lo hi below exact inclusive redirect nlen text =>
      let len := Z.of_nat (length uri) in
      let n := if len <=? nlen then len else nlen in
      rc ← ngx_filename_cmp uri text (Z.to_nat n);
      if negb (rc =? 0) then
        if rc <? 0 then ngx_http_core_find_static_location uri rv loc lo
        else ngx_http_core_find_static_location uri rv loc hi
      else if nlen <? len then
        match inclusive with
        | Some c =>
            ngx_http_core_find_static_location (drop (Z.to_nat n) uri) NGX_AGAIN (Some c) below
        | None => ngx_http_core_find_static_location uri rv loc hi
        end
      else if len =? nlen then
        match exact, inclusive with
        | Some c, _ => Some (NGX_OK, Some c)
        | None, Some c => Some (NGX_AGAIN, Some c)
        | None, None => None
        end
      else if (len + 1 =? nlen) && redirect then
        match exact, inclusive with
        | Some c, _ | None, Some c =>
            ngx_http_core_find_static_location uri NGX_DONE (Some c) lo
        | None, None => None
        end
      else ngx_http_core_find_static_location uri rv loc lo
  end.
End locations.

(** ** Configuration and run time *)

(** A block of the configuration: its own fields, and the blocks in it in their
    order ([clcf->locations] is null when there is none). *)
Inductive conf : Type := Conf (i : loc_info) (blocks : list conf).

(** [ngx_http_core_loc_conf_t]: [locations] is the queue, [regexs] is
    [regex_locations], null when there is none. *)
Inductive loc : Type :=
  Loc (i : loc_info) (locations : option (list (lq loc))) (static : tree loc)
      (regexs : option (list loc)).

Definition conf_info (c : conf) : loc_info := let 'Conf i _ := c in i.
Definition loc_fields (c : loc) : loc_info := let 'Loc i _ _ _ := c in i.
Definition static_locations (c : loc) : tree loc := let 'Loc _ _ t _ := c in t.
Definition regex_locations (c : loc) : option (list loc) := let 'Loc _ _ _ r := c in r.

(** The queue before its first entry with [p], and from there on. *)
Fixpoint split_at {A} (p : A -> bool) (l : list A) : list A * list A :=
  match l with
  | [] => ([], [])
  | x :: l' => if p x then ([], l) else let '(a, b) := split_at p l' in (x :: a, b)
  end.

Definition lq_test (f : loc_info -> bool) (q : lq loc) : bool :=
  match lq_clcf q with Some c => f (loc_fields c) | None => false end.

Definition is_regex (i : loc_info) : bool := given (regex i).

(** Returns the location with its queue and its regular expressions, and the
    named locations of the server.  [None]: a named location where [cscf] is
    null; the configuration has them on the level of the server only. *)
Fixpoint ngx_http_init_locations (server : bool) (c : conf) : option (loc * list loc) :=
  let 'Conf i blocks := c in
  match blocks with
  | [] => Some (Loc i None Null None, [])
  | _ =>
      cs ← (fix init_all (l : list conf) : option (list loc) :=
              match l with
              | [] => Some []
              | b :: l => r ← ngx_http_init_locations false b; rs ← init_all l; Some (fst r :: rs)
              end) blocks;
      let q := insertion_sort (ngx_http_cmp_locations loc_fields)
                 (map (ngx_http_add_location loc_fields) cs) in
      let '(q, _) := split_at (lq_test (fun i => negb (is_regex i) && negb (named i) && noname i)) q in
      let '(q, nameds) := split_at (lq_test (fun i => negb (is_regex i) && named i)) q in
      let '(q, regexs) := split_at (lq_test is_regex) q in
      match nameds, server with
      | _ :: _, false => None
      | _, _ =>
          Some (Loc i (Some q) Null (match regexs with [] => None | _ => Some (omap lq_exact regexs) end),
                omap lq_exact nameds)
      end
  end.

(** [NGX_ERROR] is [None].  The queue is used up. *)
Fixpoint ngx_http_init_static_location_trees (c : loc) : option loc :=
  let 'Loc i locations _ regexs := c in
  match locations with
  | None | Some [] => Some c
  | Some q =>
      q ← (fix init_all (l : list (lq loc)) : option (list (lq loc)) :=
             match l with
             | [] => Some []
             | Lq (Some e) inc nm sub :: l =>
                 e ← ngx_http_init_static_location_trees e; r ← init_all l;
                 Some (Lq (Some e) inc nm sub :: r)
             | Lq None (Some inc) nm sub :: l =>
                 inc ← ngx_http_init_static_location_trees inc; r ← init_all l;
                 Some (Lq None (Some inc) nm sub :: r)
             | Lq None None _ _ :: _ => None
             end) q;
      t ← make_static_tree loc_fields q;
      Some (Loc i None t regexs)
  end.

(** ** The search for the location of a request *)

Section find_location.
(** [ngx_http_regex_exec], by the pattern and [r->uri]: the PCRE library. *)
Variable regex_exec : Z -> list Z -> Z.

(** The loop over [regex_locations], [rc] and [cur] the answer so far.  [find]
    is the search inside a location. *)
Fixpoint test_regexs (find : loc -> option (Z * loc)) (uri : list Z) (rc : Z) (cur : loc)
    (clcfp : list loc) : option (Z * loc) :=
  match clcfp with
  | [] => Some (rc, cur)
  | c :: clcfp =>
      match regex (loc_fields c) with
      | None => None
      | Some re =>
          let n := regex_exec re uri in
          if n =? NGX_OK then
            '(rc, cur) ← find c;
            Some (if rc =? NGX_ERROR then rc else NGX_OK, cur)
          else if n =? NGX_DECLINED then test_regexs find uri rc cur clcfp
          else Some (NGX_ERROR, cur)
      end
  end.

(** [pclcf] is the location that [r->loc_conf] is of; returned are the code
    and the location at the end.  [fuel] bounds the depth of the nesting. *)
Fixpoint ngx_http_core_find_location (fuel : nat) (uri : list Z) (pclcf : loc) : option (Z * loc) :=
  match fuel with
  | O => None
  | S fuel =>
      '(rc, found) ← ngx_http_core_find_static_location uri NGX_DECLINED None (static_locations pclcf);
      let clcf := default pclcf found in
      '(rc, cur, noreg) ←
        (if rc =? NGX_AGAIN then
           '(rc, cur) ← ngx_http_core_find_location fuel uri clcf;
           Some (rc, cur, noregex (loc_fields clcf))
         else Some (rc, clcf, false));
      if (rc =? NGX_OK) || (rc =? NGX_DONE) then Some (rc, cur)
      else
        match regex_locations pclcf with
        | Some clcfp =>
            if negb noreg then test_regexs (ngx_http_core_find_location fuel uri) uri rc cur clcfp
            else Some (rc, cur)
        | None => Some (rc, cur)
        end
  end.
End find_location.

(** ** The [location] directive

    [ngx_http_core_location], from the arguments of the directive to the new
    location; [compile] is [ngx_http_regex_compile] of a pattern, caseless or
    not, and [parent] the location around it, null on the level of the server.
    [None] is [NGX_CONF_ERROR]. *)

(** A character of a string that ends in a NUL. *)
Definition char_at (s : list Z) (i : Z) : Z := byte_at (s ++ [0]) i.

Definition plain_location (nm : list Z) : loc_info := mk_loc_info nm false None false false false false.

Definition ngx_http_core_regex_location (compile : list Z -> bool -> option Z) (re : list Z)
    (caseless : bool) : option loc_info :=
  match compile re caseless with
  | None => None
  | Some c => Some (mk_loc_info re false (Some c) false false false false)
  end.

Definition location_arguments (compile : list Z -> bool -> option Z) (args : list (list Z))
    : option loc_info :=
  match args with
  | [m; nm] =>
      if bytes_eqb m [ #"=" ] then Some (mk_loc_info nm true None false false false false)
      else if bytes_eqb m [ #"^"; #"~" ] then Some (mk_loc_info nm false None false false true false)
      else if bytes_eqb m [ #"~" ] then ngx_http_core_regex_location compile nm false
      else if bytes_eqb m [ #"~"; #"*" ] then ngx_http_core_regex_location compile nm true
      else None
  | nm :: _ =>
      if char_at nm 0 =? #"=" then Some (mk_loc_info (drop 1 nm) true None false false false false)
      else if (char_at nm 0 =? #"^") && (char_at nm 1 =? #"~") then
        Some (mk_loc_info (drop 2 nm) false None false false true false)
      else if char_at nm 0 =? #"~" then
        if char_at nm 1 =? #"*" then ngx_http_core_regex_location compile (drop 2 nm) true
        else ngx_http_core_regex_location compile (drop 1 nm) false
      else Some (mk_loc_info nm false None (char_at nm 0 =? #"@") false false false)
  | [] => None
  end.

Definition ngx_http_core_location (compile : list Z -> bool -> option Z) (args : list (list Z))
    (parent : option loc_info) : option loc_info :=
  match location_arguments compile args with
  | None => None
  | Some clcf =>
      match parent with
      | None => Some clcf
      | Some pclcf =>
          if exact_match pclcf then None
          else if named pclcf then None
          else if named clcf then None
          else if negb (given (regex clcf))
                  && negb (fcmp (name clcf ++ [0]) (name pclcf ++ [0]) (length (name pclcf)) =? 0) then None
          else Some clcf
      end
  end.

(** ** A small server *)

Definition prefix_block (s : string) (blocks : list conf) : conf :=
  Conf (mk_loc_info (bytes s) false None false false false false) blocks.
Definition exact_block (s : string) : conf :=
  Conf (mk_loc_info (bytes s) true None false false false false) [].
Definition noregex_block (s : string) : conf :=
  Conf (mk_loc_info (bytes s) false None false false true false) [].
Definition regex_block (s : string) (re : Z) (blocks : list conf) : conf :=
  Conf (mk_loc_info (bytes s) false (Some re) false false false false) blocks.
Definition server_block (blocks : list conf) : conf :=
  Conf (mk_loc_info [] false None false false false false) blocks.

(** The configuration made ready, and one search in it: the code and the name. *)
Definition locate (regex_exec : Z -> list Z -> Z) (server : conf) (uri : string) : option (Z * list Z) :=
  '(c, _) ← ngx_http_init_locations true server;
  c ← ngx_http_init_static_location_trees c;
  '(rc, c) ← ngx_http_core_find_location regex_exec 9 (bytes uri) c;
  Some (rc, name (loc_fields c)).

Definition sample_server : conf :=
  server_block
    [prefix_block "/a/b" []; regex_block ".php$" 1 []; prefix_block "/" []; exact_block "/a";
     noregex_block "/img/"; prefix_block "/a" [regex_block ".txt$" 2 []]].

(** Pattern 1 is ".php$", 2 is ".txt$". *)
Definition sample_regex (re : Z) (uri : list Z) : Z :=
  let suffix := drop (length uri - 4) uri in
  if bytes_eqb suffix (bytes (if re =? 1 then ".php" else ".txt")) then NGX_OK else NGX_DECLINED.

Example locate_samples :
  map (locate sample_regex sample_server) ["/"; "/a"; "/ax"; "/a/b/c"; "/a/x.txt"; "/x.txt"; "/a/b.php"; "/img/x.php"]%string =
  map (fun r => Some (fst r, bytes (snd r)))
    [(NGX_DECLINED, "/"); (NGX_OK, "/a"); (NGX_DECLINED, "/a"); (NGX_DECLINED, "/a/b"); (NGX_OK, ".txt$");
     (NGX_DECLINED, "/"); (NGX_OK, ".php$"); (NGX_DECLINED, "/img/")]%string.
Proof. vm_compute. reflexivity. Qed.
