(* ===== verification/LocationSearch.v ===== *)
(** * The search for a location finds the best one

    What the queue, the lists and the trees of [Locations] compute together:
    the search in the tree made from the locations of a configuration is the
    reference "exact name, else the longest prefix". *)

From stdpp Require Import sorting.
From S2P Require Import Prelude Strings Queue Locations.

#[local] Set Warnings "-clear-no-such-hyp".

(** ** The order of names: [ngx_filename_cmp], with "/" below the other characters *)

Definition key (c : Z) : Z := if c =? #"/" then 1 else 2 * c.

(** The lexicographic order of the keys [k]: a proper prefix is smaller. *)
Fixpoint slt_by (k : Z -> Z) (u v : list Z) : Prop :=
  match u, v with
  | a :: u, b :: v => k a < k b \/ (a = b /\ slt_by k u v)
  | [], _ :: _ => True
  | _, [] => False
  end.

Lemma slt_irrefl k u : ~ slt_by k u u.
Proof. induction u as [|a u IH]; cbn; [tauto|]. intros [H|[_ H]]; [lia|by apply IH]. Qed.

Lemma slt_trans k u v w : slt_by k u v -> slt_by k v w -> slt_by k u w.
Proof.
  revert v w. induction u as [|a u IH]; intros [|b v] [|c w]; cbn; try done.
  intros [H|[-> H]] [H'|[-> H']]; [left; lia|by left|by left|right; split; [done|eauto]].
Qed.

Lemma slt_asym k u v : slt_by k u v -> slt_by k v u -> False.
Proof. intros H H'. apply (slt_irrefl k u). by apply (slt_trans _ _ v). Qed.

Lemma slt_total k u v : (forall a b, k a = k b -> a = b) -> slt_by k u v \/ u = v \/ slt_by k v u.
Proof.
  intros Hk. revert v. induction u as [|a u IH]; intros [|b v]; cbn; try tauto.
  destruct (Z.lt_trichotomy (k a) (k b)) as [H|[H%Hk|H]]; [tauto| |tauto].
  subst. destruct (IH v) as [?|[->|?]]; tauto.
Qed.

Lemma key_inj a b : key a = key b -> a = b.
Proof. unfold key. case_ifs; lia. Qed.

Notation slt := (slt_by key).

(** [u] and [v] differ, and at the first difference [u] is smaller. *)
Fixpoint differs (u v : list Z) : Prop :=
  match u, v with
  | a :: u, b :: v => key a < key b \/ (a = b /\ differs u v)
  | _, _ => False
  end.

Lemma differs_slt u v : differs u v -> slt u v.
Proof. revert v. induction u as [|a u IH]; intros [|b v]; cbn; try done. intros [?|[? ?]]; auto. Qed.

Lemma differs_app u v x y : differs u v -> differs (u ++ x) (v ++ y).
Proof. revert v. induction u as [|a u IH]; intros [|b v]; cbn; try done. intros [?|[? ?]]; auto. Qed.

(** *** Prefixes *)

Lemma slt_extends p x : x <> [] -> slt p (p ++ x).
Proof. intros H. induction p as [|a p IH]; cbn; [by destruct x|auto]. Qed.

Lemma prefix_slt p q : p `prefix_of` q -> p = q \/ slt p q.
Proof. intros [[|c x] ->]; [left; by rewrite app_nil_r|right; by apply slt_extends]. Qed.

(** Two prefixes of one string. *)
Lemma prefix_cases (p q s : list Z) : p `prefix_of` s -> q `prefix_of` s -> p `prefix_of` q \/ q `prefix_of` p.
Proof.
  revert q s. induction p as [|a p IH]; intros [|b q] s Hp Hq; [left; apply prefix_nil..|right; apply prefix_nil|].
  destruct s as [|c s]; [by destruct (prefix_nil_not a p)|].
  apply prefix_cons_inv_1 in Hp as E1; apply prefix_cons_inv_1 in Hq as E2; subst.
  apply prefix_cons_inv_2 in Hp, Hq. destruct (IH q s Hp Hq); [left|right]; by apply prefix_cons.
Qed.

(** A string between [p] and one of its extensions extends it too. *)
Lemma slt_between p x y : slt p x -> slt x (p ++ y) -> p `prefix_of` x.
Proof.
  revert x. induction p as [|a p IH]; intros x H1 H2; [apply prefix_nil|].
  destruct x as [|b x]; cbn in *; [done|].
  destruct H1 as [H1|[-> H1]], H2 as [H2|[E H2]]; subst; try lia. apply prefix_cons. by apply IH.
Qed.

(** A prefix of [s], where [s] differs from [v]. *)
Lemma differs_prefix_l s v p : differs s v -> p `prefix_of` s -> slt p v.
Proof.
  intros H Hp. destruct (prefix_slt _ _ Hp) as [->|Hlt]; [by apply differs_slt|].
  eapply slt_trans; [done|by apply differs_slt].
Qed.

Lemma differs_prefix_r v s p : differs v s -> p `prefix_of` s -> differs v p \/ p `prefix_of` v.
Proof.
  revert s p. induction v as [|a v IH]; intros [|b s] [|c p] H Hp; cbn in *; try done;
    try (right; apply prefix_nil).
  apply prefix_cons_inv_1 in Hp as E; subst. apply prefix_cons_inv_2 in Hp.
  destruct H as [H|[-> H]]; [tauto|]. destruct (IH s p H Hp); [tauto|]. right. by apply prefix_cons.
Qed.

Lemma differs_irrefl u x : differs u (u ++ x) -> False.
Proof. induction u as [|a u IH]; cbn; [done|]. intros [?|[_ ?]]; [lia|auto]. Qed.

Lemma differs_not_prefix u v : differs u v -> ~ u `prefix_of` v.
Proof. intros H [x ->]. by apply differs_irrefl in H. Qed.

(** ** The comparison of bytes in memory *)

Lemma filename_cmp_spec u v n :
  Forall is_byte u -> Forall c_char v -> (n <= length u)%nat -> (n <= length v)%nat ->
  exists rc, ngx_filename_cmp u v n = Some rc /\
    (rc = 0 -> take n u = take n v) /\ (rc < 0 -> differs u v) /\ (0 < rc -> differs v u).
Proof.
  revert u v. induction n as [|n IH]; intros u v Hu Hv Hnu Hnv; [exists 0; cbn; split_and!; [done|done|lia|lia]|].
  destruct u as [|a u]; [cbn in *; lia|]. destruct v as [|b v]; [cbn in *; lia|].
  inversion Hu; inversion Hv; subst. cbn [ngx_filename_cmp length] in *.
  destruct (a =? b) eqn:E.
  - assert (a = b) as -> by lia. unfold c_char in *. assert ((b =? 0) = false) as -> by lia. cbn [negb].
    destruct (IH u v) as (rc & -> & H0 & Hl & Hg); [done|done|lia|lia|].
    exists rc. cbn [take differs]. split_and!; [done|..]; intros; [f_equal|..]; auto.
  - unfold c_char, is_byte, slash_char in *.
    destruct ((a =? 0) || (b =? 0)) eqn:E0; eexists; (split; [done|]); unfold differs, key; cbn [take];
      split_and!; intros; try (left; case_ifs; lia); case_ifs_in H; try lia.
Qed.

Lemma fcmp_spec u v n :
  Forall is_byte u -> Forall c_char v -> (n <= length u)%nat -> (n <= length v)%nat ->
  (fcmp u v n = 0 -> take n u = take n v) /\ (fcmp u v n < 0 -> differs u v) /\
  (0 < fcmp u v n -> differs v u).
Proof. intros. unfold fcmp. by destruct (filename_cmp_spec u v n) as (rc & -> & ?). Qed.

(** ** The entries of a forest, and a linear scan of them *)

Section search.
Context {L : Type} (info : L -> loc_info).

Notation lq := (lq L).

Fixpoint flat (q : lq) : list lq := q :: flat_map flat (lq_list q).
Definition flatten (F : list lq) : list lq := flat_map flat F.

Lemma flatten_app F G : flatten (F ++ G) = flatten F ++ flatten G.
Proof. apply flat_map_app. Qed.

(** What an entry does to the answer: [inl] replaces it, [inr] ends the search. *)
Definition hit (e : lq) (s : list Z) : option ((Z * option L) + (Z * option L)) :=
  if bytes_eqb (lq_name e) s then
    match lq_exact e, lq_inclusive e with
    | Some c, _ => Some (inr (NGX_OK, Some c))
    | None, Some c => Some (inr (NGX_AGAIN, Some c))
    | None, None => None
    end
  else if (length (lq_name e) <? length s)%nat && bytes_eqb (lq_name e) (take (length (lq_name e)) s) then
    match lq_inclusive e with
    | Some c => Some (inl (NGX_AGAIN, Some c))
    | None => None
    end
  else if bytes_eqb (lq_name e) (s ++ [ #"/" ]) && (redirects info (lq_exact e) || redirects info (lq_inclusive e))
  then Some (inl (NGX_DONE, lq_clcf e))
  else None.

Fixpoint scan (E : list lq) (s : list Z) (acc : Z * option L) : Z * option L :=
  match E with
  | [] => acc
  | e :: E =>
      match hit e s with
      | None => scan E s acc
      | Some (inl acc) => scan E s acc
      | Some (inr r) => r
      end
  end.

(** The entries that can matter to [s]. *)
Lemma hit_relevant e s r : hit e s = Some r ->
  lq_name e = s \/ (is_Some (lq_inclusive e) /\ lq_name e `prefix_of` s) \/
  (lq_name e = s ++ [ #"/" ] /\ r = inl (NGX_DONE, lq_clcf e)).
Proof.
  unfold hit. destruct (bytes_eqb _ s) eqn:E1; [intros _; left; by apply bytes_eqb_eq|].
  destruct (_ && _) eqn:E2.
  { apply andb_true_iff in E2 as [_ E2]. apply bytes_eqb_eq in E2. destruct (lq_inclusive e); [|done].
    intros _. right; left. split; [eauto|]. rewrite E2. apply prefix_take. }
  destruct (bytes_eqb _ (s ++ _)) eqn:E3; [|done]. apply bytes_eqb_eq in E3. cbn [andb].
  destruct (_ || _); [|done]. intros [= <-]. auto.
Qed.

Lemma scan_skip_l E T s acc : Forall (fun e => hit e s = None) E -> scan (E ++ T) s acc = scan T s acc.
Proof. induction 1 as [|e E He _ IH]; [done|]. cbn. by rewrite He. Qed.

Lemma scan_skip_r E T s acc : Forall (fun e => hit e s = None) T -> scan (E ++ T) s acc = scan E s acc.
Proof.
  intros H. revert acc. induction E as [|e E IH]; intros acc.
  - cbn [app]. rewrite <-(app_nil_r T). by rewrite scan_skip_l.
  - cbn. destruct (hit e s) as [[a|r]|]; auto.
Qed.

(** Entries that can only end the search may be scanned before or after a change of the answer. *)
Lemma scan_finals E T s acc acc' : Forall (fun e => forall r, hit e s <> Some (inl r)) E ->
  (forall a, scan T s a = acc') -> scan (E ++ T) s acc = scan E s acc'.
Proof.
  intros H HT. induction H as [|e E He _ IH]; cbn; [apply HT|].
  destruct (hit e s) as [[a|r]|]; [by destruct (He a)|done|done].
Qed.

(** ** Forests in order

    Only a prefix location has others below it, which extend its name; no
    later entry does. *)
Inductive forest : list lq -> Prop :=
| forest_nil : forest []
| forest_cons e i nm sub F :
    (i = None -> sub = []) ->
    Forall (fun x => exists y, y <> [] /\ lq_name x = nm ++ y) (flatten sub) ->
    (is_Some i -> Forall (fun x => ~ nm `prefix_of` lq_name x) (flatten F)) ->
    forest sub -> forest F -> forest (Lq e i nm sub :: F).

Definition not_below (p e : lq) : Prop := is_Some (lq_inclusive p) -> ~ lq_name p `prefix_of` lq_name e.

Lemma forest_app F G : forest (F ++ G) ->
  forest F /\ forest G /\ forall p e, p ∈ flatten F -> e ∈ flatten G -> not_below p e.
Proof.
  induction F as [|[x i nm sub] F IH]; intros H; [split_and!; [constructor|done|by intros ? ? []%not_elem_of_nil]|].
  cbn in H. inversion H as [|e' i' nm' sub' F' H1 H2 H3 H4 H5]; subst.
  destruct (IH H5) as (HF & HG & HFG).
  split_and!; [constructor; try done; intros Hi; specialize (H3 Hi);
    rewrite flatten_app, Forall_app in H3; apply H3|done|].
  intros p e Hp He. cbn in Hp. apply elem_of_cons in Hp as [->|Hp].
  { intros Hi Hpre. specialize (H3 Hi). rewrite Forall_forall in H3.
    apply (H3 e); [rewrite flatten_app; set_solver|done]. }
  apply elem_of_app in Hp as [Hp|Hp]; [|by apply HFG].
  intros Hi Hpre. destruct i as [c|]; [|by rewrite (H1 eq_refl) in Hp; apply not_elem_of_nil in Hp].
  rewrite Forall_forall in H2. destruct (H2 p Hp) as (y & _ & Hy).
  specialize (H3 ltac:(eauto)). rewrite Forall_forall in H3.
  apply (H3 e); [rewrite flatten_app; set_solver|]. etrans; [|done]. rewrite Hy. by apply prefix_app_r.
Qed.

(** ** What the search may skip *)

Lemma no_hit e s :
  (lq_name e = s -> False) -> (is_Some (lq_inclusive e) -> lq_name e `prefix_of` s -> False) ->
  (lq_name e = s ++ [ #"/" ] -> False) -> hit e s = None.
Proof.
  intros H1 H2 H3. destruct (hit e s) as [r|] eqn:E; [|done].
  apply hit_relevant in E as [?|[[? ?]|[? _]]]; tauto.
Qed.

(** The URI is below the name of the node: the node, what it contains and all to its right; *)
Lemma skip_above s nm p : differs s nm -> lq_name p = nm \/ slt nm (lq_name p) -> hit p s = None.
Proof.
  intros H Hp. assert (forall v, slt v nm -> lq_name p = v -> False) as N.
  { intros v Hv <-. destruct Hp as [E|Hp]; [rewrite E in Hv; by apply slt_irrefl in Hv|by apply (slt_asym _ _ _ Hv)]. }
  apply no_hit.
  - apply N. by apply differs_slt.
  - intros _ Hpre. by apply (N _ (differs_prefix_l _ _ _ H Hpre)).
  - apply N, differs_slt. rewrite <-(app_nil_r nm). by apply differs_app.
Qed.

(** it is above: the node, what it contains, all to its left; *)
Lemma skip_below s q p : differs (lq_name q) s ->
  (slt (lq_name p) (lq_name q) /\ not_below p q) \/ lq_name q `prefix_of` lq_name p -> hit p s = None.
Proof.
  intros H Hp. assert (differs (lq_name q) (lq_name p) -> False) as N.
  { intros Hd. destruct Hp as [[Hp _]|Hp]; [by apply (slt_asym _ _ _ (differs_slt _ _ Hd))|].
    by apply differs_not_prefix in Hd. }
  apply no_hit.
  - intros E. apply N. by rewrite E.
  - intros Hi Hpre. destruct (differs_prefix_r _ _ _ H Hpre) as [Hd|Hd]; [by apply N|].
    destruct Hp as [[_ Hp]|Hp]; [by apply Hp|]. apply N.
    assert (lq_name p = lq_name q) as E; [|exfalso].
    { apply prefix_length_eq; [done|by apply prefix_length]. }
    apply differs_not_prefix in H. apply H. by rewrite <-E.
  - intros E. apply N. rewrite E, <-(app_nil_r (lq_name q)). by apply differs_app.
Qed.

(** the name is a prefix of it: all to the left, *)
Lemma skip_left s (q p : lq) : lq_name q `prefix_of` s -> slt (lq_name p) (lq_name q) -> not_below p q ->
  hit p s = None.
Proof.
  intros H Hp Hn. assert (forall v, lq_name q `prefix_of` v -> lq_name p = v -> False) as N.
  { intros v Hv <-. destruct (prefix_slt _ _ Hv) as [E|E].
    - rewrite E in Hp. by apply slt_irrefl in Hp.
    - by apply (slt_asym _ _ _ Hp). }
  apply no_hit; [by apply N| |apply N; by apply prefix_app_r].
  intros Hi Hpre. destruct (prefix_cases _ _ _ H Hpre) as [C|C]; [by apply (N _ C)|by apply Hn].
Qed.

(** and all to the right that does not extend the name; *)
Lemma skip_right s (q p : lq) : lq_name q `prefix_of` s -> slt (lq_name q) (lq_name p) ->
  ~ lq_name q `prefix_of` lq_name p -> hit p s = None.
Proof.
  intros H Hp Hn. apply no_hit.
  - intros E. apply Hn. by rewrite E.
  - intros Hi Hpre. destruct (prefix_cases _ _ _ H Hpre) as [C|C]; [done|].
    destruct (prefix_slt _ _ C) as [E|E]; [by apply Hn; rewrite E|by apply (slt_asym _ _ _ Hp)].
  - intros E. apply Hn. rewrite E. by apply prefix_app_r.
Qed.

(** it is a proper prefix of the name: all to the right; *)
Lemma skip_longer s c y (p : lq) : 0 < c -> slt (s ++ c :: y) (lq_name p) -> hit p s = None.
Proof.
  intros Hc Hp. assert (slt s (lq_name p)) as Hs.
  { eapply slt_trans; [by apply (slt_extends s (c :: y))|done]. }
  apply no_hit.
  - intros E. rewrite E in Hs. by apply slt_irrefl in Hs.
  - intros _ Hpre. destruct (prefix_slt _ _ Hpre) as [E|E].
    + rewrite E in Hs. by apply slt_irrefl in Hs.
    + by apply (slt_asym _ _ _ Hs).
  - intros E. rewrite E in Hp. clear - Hp Hc. induction s as [|a s IH]; cbn in Hp.
    + unfold key in Hp. destruct Hp as [Hp|[_ Hp]]; [case_ifs_in Hp; lia|by destruct y].
    + destruct Hp as [Hp|[_ Hp]]; [lia|auto].
Qed.

(** and to the left nothing changes the answer without ending the search. *)
Lemma left_finals s q p r : s `prefix_of` lq_name q -> not_below p q ->
  lq_name p <> s ++ [ #"/" ] -> hit p s <> Some (inl r).
Proof.
  intros Hs Hn Hne E. pose proof E as E'. apply hit_relevant in E' as [E'|[[Hi Hp]|[E' _]]]; [|
    apply (Hn Hi); by etrans|done].
  unfold hit in E. rewrite (proj2 (bytes_eqb_eq _ _) E') in E.
  by destruct (lq_exact p), (lq_inclusive p).
Qed.

(** ** The search of a tree is the scan of its forest *)

Definition name_below (p q : lq) : Prop := slt (lq_name p) (lq_name q).

(** Names below [pre]: with their characters, short enough for the [u_char] of a node. *)
Definition node_name (pre : list Z) (e : lq) : Prop :=
  is_Some (lq_clcf e) /\
  (redirects info (lq_exact e) || redirects info (lq_inclusive e) = true ->
   exists w, lq_name e = w ++ [ #"/" ]) /\
  exists y, lq_name e = pre ++ y /\ Forall c_char y /\ (length y < 256)%nat.

Lemma differs_prepend pre u v : differs u v -> differs (pre ++ u) (pre ++ v).
Proof. intros H. induction pre as [|a pre IH]; cbn; auto. Qed.

Lemma sorted_parts A q B : StronglySorted name_below (A ++ q :: B) ->
  Forall (fun p => name_below p q) A /\ Forall (name_below q) B /\
  StronglySorted name_below A /\ StronglySorted name_below B.
Proof.
  intros H. apply StronglySorted_app in H as (HAB & HA & HqB).
  apply StronglySorted_inv in HqB as [HB HqB]. split_and!; try done.
  apply Forall_forall. intros p Hp. apply HAB; [done|set_solver].
Qed.

Section node.
(** One node, what is left and right of it, and what is below. *)
Context (s : list Z) (q : lq) (A B : list lq).
Let C := flatten (lq_list q).
Hypothesis HA : Forall (fun p => name_below p q) A.
Hypothesis HAn : Forall (fun p => not_below p q) A.
Hypothesis HC : Forall (fun x => exists y, y <> [] /\ lq_name x = lq_name q ++ y) C.
Hypothesis HB : Forall (name_below q) B.
Hypothesis HBn : is_Some (lq_inclusive q) -> Forall (fun x => ~ lq_name q `prefix_of` lq_name x) B.
Hypothesis HCn : lq_inclusive q = None -> C = [].

Lemma below_greater p : p ∈ C -> lq_name q `prefix_of` lq_name p /\ slt (lq_name q) (lq_name p).
Proof.
  rewrite Forall_forall in HC. intros Hp. destruct (HC p Hp) as (y & Hy & ->).
  split; [by apply prefix_app_r|by apply slt_extends].
Qed.

Lemma scan_left acc : differs s (lq_name q) -> scan (A ++ q :: C ++ B) s acc = scan A s acc.
Proof.
  intros H. apply scan_skip_r. rewrite !Forall_cons, Forall_app. split_and!.
  - apply (skip_above _ _ _ H). by left.
  - apply Forall_forall. intros p Hp. apply (skip_above _ _ _ H). right. by apply below_greater.
  - eapply Forall_impl; [exact HB|]. intros p Hp. apply (skip_above _ _ _ H). by right.
Qed.

Lemma scan_right acc : differs (lq_name q) s -> scan (A ++ q :: C ++ B) s acc = scan B s acc.
Proof.
  intros H. rewrite scan_skip_l.
  - change (q :: C ++ B) with ((q :: C) ++ B). apply scan_skip_l. constructor.
    + apply (skip_below _ _ _ H). by right.
    + apply Forall_forall. intros p Hp. apply (skip_below _ _ _ H). right. by apply below_greater.
  - rewrite Forall_forall in *. intros p Hp. apply (skip_below _ _ _ H). left. split; [by apply HA|by apply HAn].
Qed.

(** The URI goes on after the name. *)
Lemma scan_below acc : lq_name q `prefix_of` s -> lq_name q <> s ->
  scan (A ++ q :: C ++ B) s acc =
  match lq_inclusive q with
  | Some c => scan C s (NGX_AGAIN, Some c)
  | None => scan B s acc
  end.
Proof.
  intros H Hne. rewrite scan_skip_l by (rewrite Forall_forall in *; intros p Hp;
    apply (skip_left _ _ _ H); [by apply HA|by apply HAn]). cbn [scan].
  assert (hit q s = match lq_inclusive q with
                    | Some c => Some (inl (NGX_AGAIN, Some c)) | None => None end) as ->.
  { unfold hit. destruct (bytes_eqb _ s) eqn:E; [by apply bytes_eqb_eq in E|].
    destruct H as [[|c x] ->]; [by rewrite app_nil_r in Hne|].
    rewrite length_app, take_app_length, bytes_eqb_refl. cbn [length].
    assert ((length (lq_name q) <? length (lq_name q) + S (length x))%nat = true) as -> by lia. done. }
  destruct (lq_inclusive q) as [c|] eqn:Hi.
  - apply scan_skip_r. specialize (HBn ltac:(eauto)). rewrite Forall_forall in *. intros p Hp.
    apply (skip_right _ _ _ H); [by apply HB|by apply HBn].
  - by rewrite HCn.
Qed.

(** The URI is the name. *)
Lemma scan_equal acc : lq_name q = s -> is_Some (lq_clcf q) ->
  Some (scan (A ++ q :: C ++ B) s acc) =
  match lq_exact q, lq_inclusive q with
  | Some c, _ => Some (NGX_OK, Some c)
  | None, Some c => Some (NGX_AGAIN, Some c)
  | None, None => None
  end.
Proof.
  intros <- [c Hc]. rewrite scan_skip_l by (rewrite Forall_forall in *; intros p Hp;
    apply (skip_left _ q); [done|by apply HA|by apply HAn]).
  cbn [scan]. unfold hit. rewrite bytes_eqb_refl. unfold lq_clcf in Hc.
  by destruct (lq_exact q), (lq_inclusive q).
Qed.

(** The name goes on after the URI. *)
Lemma scan_shorter c y acc : lq_name q = s ++ c :: y -> 0 < c ->
  scan (A ++ q :: C ++ B) s acc =
  scan A s (if bytes_eqb (c :: y) [ #"/" ] && (redirects info (lq_exact q) || redirects info (lq_inclusive q))
            then (NGX_DONE, lq_clcf q) else acc).
Proof.
  intros Hq Hc.
  assert (Forall (fun p => hit p s = None) (C ++ B)) as HCB.
  { apply Forall_app; split; apply Forall_forall; intros p Hp; apply (skip_longer _ c y); try done; rewrite <-Hq.
    - by apply below_greater.
    - rewrite Forall_forall in HB. by apply HB. }
  assert (hit q s = if bytes_eqb (c :: y) [ #"/" ] && (redirects info (lq_exact q) || redirects info (lq_inclusive q))
                    then Some (inl (NGX_DONE, lq_clcf q)) else None) as Hh.
  { unfold hit. rewrite Hq, (bytes_eqb_length _ s), length_app by (rewrite length_app; cbn; lia).
    assert ((length s + length (c :: y) <? length s)%nat = false) as -> by lia. cbn [andb].
    destruct (bytes_eqb (c :: y) _) eqn:E.
    - apply bytes_eqb_eq in E. by rewrite E, bytes_eqb_refl.
    - destruct (bytes_eqb (s ++ c :: y) _) eqn:E'; [|done]. apply bytes_eqb_eq, app_inv_head in E'.
      by rewrite E', bytes_eqb_refl in E. }
  destruct (bytes_eqb (c :: y) _) eqn:E; cbn [andb] in *; [destruct (_ || _)|].
  2-3: change (q :: C ++ B) with ([q] ++ C ++ B); apply scan_skip_r; by constructor.
  apply bytes_eqb_eq in E. apply scan_finals.
  - apply Forall_forall. intros p Hp r. apply (left_finals _ q).
    + rewrite Hq. by apply prefix_app_r.
    + rewrite Forall_forall in HAn. by apply HAn.
    + rewrite <-E, <-Hq. intros Heq. rewrite Forall_forall in HA. specialize (HA p Hp).
      unfold name_below in HA. rewrite Heq in HA. by apply slt_irrefl in HA.
  - intros a. cbn [scan]. rewrite Hh. rewrite <-(app_nil_r (C ++ B)). by rewrite scan_skip_l.
Qed.
End node.

(** A queue that may be empty, as the creation of a node calls for. *)
Definition create_opt (fuel : nat) (F : list lq) (prefix : nat) : option (tree L) :=
  match F with [] => Some Null | _ => ngx_http_create_locations_tree info fuel F prefix end.

Lemma half_split {A} (F : list A) : F <> [] -> exists l q r,
  F = l ++ q :: r /\ length l = (length F / 2)%nat /\ (l = [] -> r = []).
Proof.
  intros H. assert (length F / 2 < length F)%nat as Hlt.
  { apply Nat.div_lt; [|lia]. destruct F; [done|cbn; lia]. }
  destruct (lookup_lt_is_Some_2 F _ Hlt) as [q Hq].
  exists (take (length F / 2) F), q, (drop (S (length F / 2)) F).
  split_and!; [by rewrite take_drop_middle|rewrite length_take; lia|].
  intros E. apply (f_equal length) in E. rewrite length_take in E. cbn [length] in E.
  apply nil_length_inv. rewrite length_drop.
  pose proof (Nat.div_mod_eq (length F) 2). pose proof (Nat.mod_upper_bound (length F) 2 ltac:(lia)). lia.
Qed.

Lemma create_tree_node fuel F prefix t : F <> [] ->
  ngx_http_create_locations_tree info (S fuel) F prefix = Some t ->
  exists l e i nm sub r lo hi below,
    F = l ++ Lq e i nm sub :: r /\ create_opt fuel l prefix = Some lo /\
    create_opt fuel r prefix = Some hi /\
    create_opt fuel sub (prefix + (length nm - prefix)) = Some below /\
    t = Node lo hi below e i (redirects info e || redirects info i)
          (u8 (Z.of_nat (length nm - prefix))) (take (length nm - prefix) (drop prefix nm)).
Proof.
  intros Hne H. destruct (half_split F Hne) as (l & [e i nm sub] & r & HF & Hl & Hr).
  cbn [ngx_http_create_locations_tree] in H. rewrite <-Hl in H.
  assert (drop (S (length l)) F = r) as Hd by (rewrite HF; clear; by induction l).
  assert (take (length l) F = l) as Ht by (rewrite HF; apply take_app_length).
  assert (F !! length l = Some (Lq e i nm sub)) as Hq by (rewrite HF; by apply list_lookup_middle).
  rewrite Hd, Ht, Hq in H. exists l, e, i, nm, sub, r.
  fold (create_opt fuel l prefix) in H. fold (create_opt fuel r prefix) in H.
  fold (create_opt fuel sub (prefix + (length nm - prefix))) in H.
  destruct (create_opt fuel l prefix) as [lo|] eqn:El; [|done]. cbn [mbind option_bind] in H.
  assert (match l with [] => Some Null | _ :: _ => create_opt fuel r prefix end = create_opt fuel r prefix)
    as E by (destruct l; [by rewrite Hr|done]). rewrite E in H. clear E.
  destruct (create_opt fuel r prefix) as [hi|] eqn:Er; [|done]. cbn [mbind option_bind] in H.
  destruct (create_opt fuel sub _) as [below|] eqn:Eb; [|done]. cbn [mbind option_bind] in H.
  injection H as <-. by exists lo, hi, below.
Qed.

(** The names below a node, from the end of its own name on. *)
Lemma node_names_below pre y C :
  Forall (fun x => exists z, z <> [] /\ lq_name x = (pre ++ y) ++ z) C -> Forall (node_name pre) C ->
  Forall (node_name (pre ++ y)) C.
Proof.
  rewrite !Forall_forall. intros H2 HnC x Hx. destruct (H2 x Hx) as (z & _ & Hz).
  destruct (HnC x Hx) as (Hcx & Hrx & z' & Hz' & Hzc & Hzl). split; [done|]. split; [done|].
  exists z. split; [done|]. rewrite Hz, <-app_assoc in Hz'. apply app_inv_head in Hz'. subst z'.
  apply Forall_app in Hzc as [_ ?]. rewrite length_app in Hzl. split; [done|lia].
Qed.

(** The length decides whether a name is the URI with a slash, where it is asked. *)
Lemma redirect_test (uri y s : list Z) c z (red : bool) : y = uri ++ c :: z ->
  (red = true -> exists w, s ++ c :: z = w ++ [ #"/" ]) ->
  (Z.of_nat (length uri) + 1 =? Z.of_nat (length y)) && red = bytes_eqb (c :: z) [ #"/" ] && red.
Proof.
  intros -> Hred. destruct red; [|by rewrite !andb_false_r]. rewrite !andb_true_r.
  destruct (Hred eq_refl) as [w' Hw]. rewrite length_app. destruct z as [|d z].
  - apply app_inj_tail in Hw as [_ ->]. cbn. lia.
  - rewrite (bytes_eqb_length (c :: d :: z)) by done. cbn. lia.
Qed.

Lemma find_scan fuel : forall F pre t,
  create_opt fuel F (length pre) = Some t -> forest F -> StronglySorted name_below (flatten F) ->
  Forall (node_name pre) (flatten F) ->
  forall uri rv loc, Forall is_byte uri ->
  ngx_http_core_find_static_location uri rv loc t = Some (scan (flatten F) (pre ++ uri) (rv, loc)).
Proof.
  induction fuel as [|fuel IH]; intros F pre t Hc HF Hs Hn uri rv loc Hu;
    (destruct (decide (F = [])) as [->|Hne]; [by injection Hc as <-|]); [by destruct F|].
  destruct (create_tree_node fuel F (length pre) t Hne) as
    (l & e & i & nm & sub & r & lo & hi & below & -> & Hlo & Hhi & Hbelow & ->); [by destruct F|].
  clear Hc Hne. apply forest_app in HF as (HFl & HFq & HFn).
  inversion HFq as [|e' i' nm' sub' F' H1 H2 H3 H4 H5]; subst.
  rewrite flatten_app in Hs, Hn |- *. cbn [flatten flat_map flat lq_list] in *.
  fold (flatten l) (flatten sub) (flatten r) in *. cbn [app] in *.
  apply sorted_parts in Hs as (HA & HB & HsA & HsB).
  apply StronglySorted_app in HsB as (_ & HsC & HsB). apply Forall_app in HB as [_ HB].
  apply Forall_app in Hn as [HnA HnB]. apply Forall_cons in HnB as [Hnq HnB].
  apply Forall_app in HnB as [HnC HnB].
  assert (Forall (fun p => not_below p (Lq e i nm sub)) (flatten l)) as HAn.
  { apply Forall_forall. intros p Hp. apply HFn; [done|set_solver]. }
  destruct Hnq as (Hclcf & Hred & y & Hy & Hyc & Hyl). cbn [lq_name] in Hy.
  assert ((length nm - length pre)%nat = length y) as Hlen by (rewrite Hy, length_app; lia).
  assert (drop (length pre) nm = y) as Hdrop by (rewrite Hy; apply drop_app_length).
  rewrite Hlen, Hdrop, firstn_all. rewrite Hlen in Hbelow.
  assert (u8 (Z.of_nat (length y)) = Z.of_nat (length y)) as -> by (apply Z.mod_small; lia).
  set (q := Lq e i nm sub) in *.
  set (n := Nat.min (length uri) (length y)). clear Hdrop.
  assert (lq_inclusive q = None -> flatten (lq_list q) = []) as HCn
    by (cbn; intros ->; by rewrite (H1 eq_refl)).
  cbn [ngx_http_core_find_static_location].
  assert (Z.to_nat (if Z.of_nat (length uri) <=? Z.of_nat (length y)
            then Z.of_nat (length uri) else Z.of_nat (length y)) = n) as -> by (case_ifs; lia).
  destruct (filename_cmp_spec uri y n Hu Hyc) as (rc & -> & Heq & Hlt & Hgt); [lia|lia|].
  cbn [mbind option_bind]. destruct (rc =? 0) eqn:Erc; cbn [negb].
  2: { destruct (rc <? 0) eqn:Es.
       - rewrite (IH l pre lo) by done. f_equal. symmetry.
         apply (scan_left (pre ++ uri) q (flatten l) (flatten r)); try done.
         cbn [lq_name q]. rewrite Hy. apply differs_prepend, Hlt. lia.
       - rewrite (IH r pre hi) by done. f_equal. symmetry.
         apply (scan_right (pre ++ uri) q (flatten l) (flatten r)); try done.
         cbn [lq_name q]. rewrite Hy. apply differs_prepend, Hgt. lia. }
  specialize (Heq ltac:(lia)). clear Hlt Hgt Erc rc.
  destruct (Z.of_nat (length y) <? Z.of_nat (length uri)) eqn:E1.
  { (* the URI goes on *)
    assert (n = length y) as Hn by lia. rewrite Hn, firstn_all in Heq.
    assert (uri = y ++ drop (length y) uri) as Huri by (rewrite <-Heq at 1; by rewrite take_drop).
    assert (lq_name q `prefix_of` pre ++ uri) as Hpre
      by (cbn [lq_name q]; rewrite Hy, Huri, app_assoc; by apply prefix_app_r).
    assert (lq_name q <> pre ++ uri) as Hne
      by (cbn [lq_name q]; rewrite Hy; intros Hq%app_inv_head; subst; lia).
    rewrite (scan_below (pre ++ uri) q (flatten l) (flatten r)) by done.
    destruct i as [c|]; cbn [lq_inclusive q]; [|by apply IH].
    rewrite Hn. rewrite (IH sub nm below); [|by rewrite Hy, length_app|done|done| |by apply Forall_drop].
    - rewrite Hy at 1. by rewrite <-app_assoc, <-Huri.
    - rewrite Hy in H2 |- *. by apply node_names_below. }
  destruct (Z.of_nat (length uri) =? Z.of_nat (length y)) eqn:E2.
  { (* the URI is the name *)
    assert (n = length y /\ n = length uri) as [Hn Hn'] by lia.
    rewrite Hn, firstn_all, <-Hn, Hn', firstn_all in Heq.
    symmetry. apply (scan_equal (pre ++ uri) q (flatten l) (flatten r)); try done.
    cbn [lq_name q]. by rewrite Hy, Heq. }
  (* the name goes on *)
  assert (n = length uri) as Hn by lia. rewrite Hn, firstn_all in Heq.
  destruct (drop (length uri) y) as [|c z] eqn:Ez.
  { apply (f_equal length) in Ez. rewrite length_drop in Ez. cbn in Ez. lia. }
  assert (y = uri ++ c :: z) as Hyz by (rewrite Heq at 1; rewrite <-Ez; by rewrite take_drop).
  assert (0 < c) as Hc by (rewrite Hyz in Hyc; apply Forall_app in Hyc as [_ Hyc];
    inversion Hyc; unfold c_char, is_byte in *; lia).
  assert (lq_name q = (pre ++ uri) ++ c :: z) as Hq by (cbn [lq_name q]; by rewrite Hy, Hyz, app_assoc).
  rewrite (scan_shorter (pre ++ uri) q (flatten l) (flatten r) ltac:(done) ltac:(done) ltac:(done) ltac:(done) c z _ Hq Hc).
  rewrite (redirect_test uri y (pre ++ uri) c z _ Hyz) by (rewrite <-Hq; exact Hred).
  cbn [lq_exact lq_inclusive q]. destruct (bytes_eqb _ _ && _); [|by apply IH].
  unfold lq_clcf in *. cbn [lq_exact lq_inclusive q] in *.
  destruct e as [a|], i as [b|]; try (by apply IH). by destruct Hclcf.
Qed.

(** ** The lists below the prefix locations *)

(** An entry without what is below it. *)
Definition entry (q : lq) : lq := Lq (lq_exact q) (lq_inclusive q) (lq_name q) [].

Lemma scan_entry E s acc : scan (map entry E) s acc = scan E s acc.
Proof.
  revert acc. induction E as [|e E IH]; intros acc; [done|]. cbn [map scan].
  replace (hit (entry e) s) with (hit e s) by done. destruct (hit e s) as [[?|?]|]; auto.
Qed.

(** What depends on the names alone. *)
Lemma Forall_entry (P : list Z -> Prop) E l : map entry E = l ->
  Forall (fun q => P (lq_name q)) l <-> Forall (fun q => P (lq_name q)) E.
Proof. intros <-. by rewrite Forall_map. Qed.

Definition c_name (q : lq) : Prop := Forall c_char (lq_name q).

Lemma contained_spec nm l inn out : Forall c_char nm -> Forall c_name l ->
  StronglySorted name_below l -> Forall (fun x => slt nm (lq_name x)) l ->
  contained nm l = (inn, out) ->
  l = inn ++ out /\
  Forall (fun x => exists y, y <> [] /\ lq_name x = nm ++ y) inn /\
  Forall (fun x => ~ nm `prefix_of` lq_name x) out.
Proof.
  intros Hnm. revert inn out. induction l as [|x l IH]; intros inn out Hl Hs Hlt H.
  { injection H as <- <-. done. }
  inversion Hl as [|? ? Hx Hl']; subst. apply StronglySorted_inv in Hs as [Hs Hxl].
  inversion Hlt as [|? ? Hnx Hlt']; subst. cbn [contained] in H.
  assert (is_prefix : (if (length (lq_name x) <? length nm)%nat
           || negb (fcmp nm (lq_name x) (length nm) =? 0) then False else True) <->
           nm `prefix_of` lq_name x).
  { destruct (length (lq_name x) <? length nm)%nat eqn:El; cbn [orb].
    - split; [done|]. intros Hp%prefix_length. lia.
    - assert (Forall is_byte nm) as Hb by (eapply Forall_impl; [exact Hnm|]; by intros ? []).
      destruct (fcmp_spec nm (lq_name x) (length nm) Hb Hx) as (H0 & H1 & H2); [lia|lia|].
      destruct (fcmp nm (lq_name x) (length nm) =? 0) eqn:Ef; cbn [negb].
      + split; [|done]. intros _. rewrite firstn_all in H0. rewrite H0 by lia. apply prefix_take.
      + split; [done|]. intros [z Hz].
        destruct (Z.lt_trichotomy (fcmp nm (lq_name x) (length nm)) 0) as [G|[G|G]]; [|lia|].
        * apply H1 in G. rewrite Hz in G. by apply differs_irrefl in G.
        * apply H2 in G. apply differs_slt in G. by apply (slt_asym _ _ _ Hnx). }
  destruct (_ || _) eqn:Et; cbn in is_prefix.
  - injection H as <- <-. split_and!; [done|constructor|].
    constructor; [tauto|]. rewrite Forall_forall in *. intros z Hz [w Hw].
    apply is_prefix. apply (slt_between nm (lq_name x) w Hnx). rewrite <-Hw. by apply Hxl.
  - destruct (contained nm l) as [i o] eqn:Ec. injection H as <- <-.
    destruct (IH i o) as (-> & Hi & Ho); try done. split_and!; [done| |done].
    constructor; [|done]. destruct (proj1 is_prefix I) as [z Hz]. exists z. split; [|done].
    intros ->. rewrite app_nil_r in Hz. rewrite Hz in Hnx. by apply slt_irrefl in Hnx.
Qed.

Lemma flatten_cons e i nm sub F :
  flatten (Lq e i nm sub :: F) = Lq e i nm sub :: flatten sub ++ flatten F.
Proof. done. Qed.

Definition leaf (q : lq) : Prop := lq_list q = [].

Lemma leaves_flat l : Forall leaf l -> flatten l = l /\ map entry l = l.
Proof.
  induction 1 as [|[e i nm sub] l Hx _ IH]; [done|]. unfold leaf in Hx. cbn in Hx. subst sub.
  rewrite flatten_cons. cbn. destruct IH as [-> ->]. done.
Qed.

Lemma create_list_cons fuel e i nm (l next : list lq) : next <> [] ->
  ngx_http_create_locations_list (S fuel) (Lq e i nm l :: next) =
  match i with
  | None => r ← ngx_http_create_locations_list fuel next; Some (Lq e i nm l :: r)
  | Some _ =>
      match contained nm next with
      | ([], x) => r ← ngx_http_create_locations_list fuel x; Some (Lq e i nm l :: r)
      | (inn, x) =>
          l ← ngx_http_create_locations_list fuel (l ++ inn);
          match x with
          | [] => Some [Lq e i nm l]
          | _ => r ← ngx_http_create_locations_list fuel x; Some (Lq e i nm l :: r)
          end
      end
  end.
Proof. by destruct next. Qed.

Lemma create_list_forest fuel : forall l, (length l < fuel)%nat ->
  Forall leaf l -> Forall c_name l -> StronglySorted name_below l ->
  exists F, ngx_http_create_locations_list fuel l = Some F /\ map entry (flatten F) = l /\ forest F.
Proof.
  induction fuel as [|fuel IH]; intros l Hf Hp Hc Hs; [lia|].
  destruct l as [|[e i nm sub] next]; [exists []; split_and!; [done|done|constructor]|].
  inversion Hp as [|? ? Hp1 Hp2]; subst. unfold leaf in Hp1. cbn in Hp1. subst sub.
  inversion Hc as [|? ? Hc1 Hc2]; subst. apply StronglySorted_inv in Hs as [Hs1 Hs2].
  cbn [length] in Hf.
  destruct (decide (next = [])) as [->|Hne].
  { eexists; split_and!; [done|done|]. constructor; try done; try constructor. }
  assert (forall G, map entry (flatten G) = next -> forest G ->
    (is_Some i -> Forall (fun x => ~ nm `prefix_of` lq_name x) next) ->
    map entry (flatten (Lq e i nm [] :: G)) = Lq e i nm [] :: next /\ forest (Lq e i nm [] :: G)) as Hplain.
  { intros G HG1 HG2 Hn. rewrite flatten_cons. change (flatten []) with (@nil lq). cbn [map app]. rewrite HG1. split; [done|].
    apply forest_cons; [done|constructor| |constructor|done].
    intros Hi. by apply (Forall_entry (fun v => ~ nm `prefix_of` v) _ _ HG1), Hn. }
  destruct (IH next) as (G & HG & HG1 & HG2); [lia|done..|].
  rewrite create_list_cons by done.
  destruct i as [c|].
  2: { rewrite HG. cbn [mbind option_bind]. exists (Lq e None nm [] :: G). split; [done|].
       apply Hplain; [done|done|by intros []]. }
  destruct (contained nm next) as [inn out] eqn:Ec.
  destruct (contained_spec nm next inn out) as (Hio & Hin & Hout); [done..|].
  destruct (decide (inn = [])) as [->|Hi].
  { cbn [app] in Hio. subst out. rewrite HG. cbn [mbind option_bind]. eexists; split; [done|].
    by apply Hplain. }
  rewrite Hio in Hc2, Hp2, Hs1, Hs2. rewrite Hio, length_app in Hf.
  assert (0 < length inn)%nat by (destruct inn; [done|cbn; lia]).
  apply Forall_app in Hc2 as [Hci Hco], Hp2 as [Hpi Hpo], Hs2 as [_ Hs2].
  apply StronglySorted_app in Hs1 as (Hio' & Hsi & Hso).
  destruct (IH inn) as (sub & Hsub & Hsub1 & Hsub2); [lia|done..|].
  destruct inn as [|x0 inn0] eqn:En; [done|]. rewrite <-En in *. cbn [app]. rewrite Hsub. cbn [mbind option_bind].
  apply (Forall_entry (fun v => exists y, y <> [] /\ v = nm ++ y) _ _ Hsub1) in Hin.
  destruct (IH out) as (r & Hr & Hr1 & Hr2); [lia|done..|].
  exists (Lq e (Some c) nm sub :: r). split_and!.
  - destruct out as [|y0 out0]; [|by rewrite Hr]. destruct r as [|y0 r0]; [done|by destruct y0].
  - rewrite flatten_cons. cbn [map]. rewrite map_app, Hsub1, Hr1. by rewrite Hio.
  - apply forest_cons; [done|done| |done|done].
    intros _. by apply (Forall_entry (fun v => ~ nm `prefix_of` v) _ _ Hr1).
Qed.

(** ** Trees are made of every forest *)

Lemma flatten_length_app F q G :
  length (flatten (F ++ q :: G)) =
  S (length (flatten F) + length (flatten (lq_list q)) + length (flatten G)).
Proof.
  destruct q as [e i nm sub]. rewrite flatten_app, length_app, flatten_cons. cbn [length lq_list].
  rewrite length_app. lia.
Qed.

Lemma create_tree_total fuel : forall F prefix, (length (flatten F) <= fuel)%nat ->
  exists t, create_opt fuel F prefix = Some t.
Proof.
  induction fuel as [|fuel IH]; intros F prefix Hf.
  { destruct F as [|[e i nm sub] F]; [by eexists|]. rewrite flatten_cons in Hf. cbn in Hf. lia. }
  destruct (decide (F = [])) as [->|Hne]; [by eexists|].
  destruct (half_split F Hne) as (l & [e i nm sub] & r & HF & Hl & Hr).
  rewrite HF, flatten_length_app in Hf. cbn [lq_list] in Hf.
  destruct (IH l prefix) as [lo El]; [lia|]. destruct (IH r prefix) as [hi Er]; [lia|].
  destruct (IH sub (prefix + (length nm - prefix))%nat) as [below Eb]; [lia|].
  unfold create_opt in *. destruct F as [|x0 F0] eqn:EF; [done|]. rewrite <-EF in *.
  cbn [ngx_http_create_locations_tree]. rewrite <-Hl.
  assert (drop (S (length l)) F = r) as -> by (rewrite HF; clear; by induction l).
  assert (take (length l) F = l) as -> by (rewrite HF; apply take_app_length).
  assert (F !! length l = Some (Lq e i nm sub)) as -> by (rewrite HF; by apply list_lookup_middle).
  rewrite El, Eb. cbn [mbind option_bind].
  destruct l; [eauto|]. rewrite Er. cbn [mbind option_bind]. eauto.
Qed.
End search.
