(* ===== verification/LocationBuild.v ===== *)
(** * What the configuration makes of its locations

    [ngx_http_cmp_locations] is a total preorder, so the sorted queue is in
    order; joining exact and prefix locations of one name keeps every location
    or reports a duplicate; so the search of [LocationSearch] finds what the
    reference finds in the locations as they are configured. *)

From stdpp Require Import sorting.
From S2P Require Import Prelude Strings Queue Locations LocationSearch.

#[local] Set Warnings "-clear-no-such-hyp".

(** ** Comparing names that end in a NUL *)

(** A name with its NUL, which the comparison does not pass. *)
Fixpoint zstr (a : list Z) : list Z :=
  match a with
  | [] => [0]
  | c :: a => if c =? 0 then [0] else c :: zstr a
  end.

Section cmp_zstr.
Context (d : Z -> Z -> Z) (k : Z -> Z).
Hypothesis k_inj : forall a b, k a = k b -> a = b.
Hypothesis d_key : forall a b, a <> b -> (d a b < 0 <-> k a < k b) /\ d a b <> 0.

Lemma cmp_zstr a b n : (Nat.min (length a) (length b) < n)%nat ->
  exists r, cmp_n (fun c => c) d n (a ++ [0]) (b ++ [0]) = Some r /\
    (r = 0 <-> zstr a = zstr b) /\ (r < 0 <-> slt_by k (zstr a) (zstr b)).
Proof using k_inj d_key.
  revert b n. assert (forall x y, x <> y -> (d x y = 0 <-> x = y)) as d0.
  { intros x y H. destruct (d_key x y H). lia. }
  induction a as [|x a IH]; intros [|y b] [|n] H; cbn [length] in *; try lia; cbn [app cmp_n zstr].
  - exists 0. cbn. split; [done|]. split; [done|]. split; [lia|]. intros [?|[_ []]]; lia.
  - destruct (0 =? y) eqn:E.
    + assert (y = 0) as -> by lia. exists 0. cbn. split; [done|]. split; [done|]. split; [lia|]. intros [?|[_ []]]; lia.
    + assert ((y =? 0) = false) as -> by lia. eexists; split; [done|].
      destruct (d_key 0 y) as [D D0]; [lia|]. cbn [slt_by]. split; [|lia].
      split; [lia|]. intros [= ?]. lia.
  - destruct (x =? 0) eqn:E.
    + exists 0. assert (x = 0) as -> by lia. cbn. split; [done|]. split; [done|]. split; [lia|]. intros [?|[_ []]]; lia.
    + eexists; split; [done|]. destruct (d_key x 0) as [D D0]; [lia|]. cbn [slt_by]. split; [|lia].
      split; [lia|]. intros [= ?]. lia.
  - destruct (x =? y) eqn:E.
    + assert (x = y) as -> by lia. destruct (y =? 0) eqn:E0; cbn [negb].
      * exists 0. cbn. split; [done|]. split; [done|]. split; [lia|]. intros [?|[_ []]]; lia.
      * destruct (IH b n) as (r & -> & Hr & Hr'); [lia|]. exists r. cbn [slt_by].
        split; [done|]. split; [rewrite Hr; split; [by intros ->|intros H1; by injection H1]|]. rewrite Hr'. intuition lia.
    + destruct (d_key x y) as [D D0]; [lia|]. eexists; split; [done|].
      destruct (x =? 0) eqn:E1, (y =? 0) eqn:E2; cbn [slt_by]; [lia|..];
        (split; [split; [lia|intros H1; injection H1; intros; lia]|]).
      all: try (assert (x = 0) as -> by lia); try (assert (y = 0) as -> by lia); rewrite D;
        split; [by left|by intros [?|[? _]]; [|lia]].
Qed.
End cmp_zstr.

Lemma ngx_filename_cmp_zstr a b :
  let r := fcmp (a ++ [0]) (b ++ [0]) (Nat.min (length a) (length b) + 1) in
  (r = 0 <-> zstr a = zstr b) /\ (r < 0 <-> slt (zstr a) (zstr b)).
Proof.
  unfold fcmp. rewrite cmp_n_filename.
  destruct (cmp_zstr filename_diff key key_inj) with (a := a) (b := b)
    (n := (Nat.min (length a) (length b) + 1)%nat) as (r & -> & H); [|lia|exact H].
  intros x y Hne. unfold filename_diff, slash_char, key. case_ifs; lia.
Qed.

Lemma ngx_strcmp_zstr a b :
  let r := default 0 (ngx_strncmp (a ++ [0]) (b ++ [0]) (S (length a))) in
  (r = 0 <-> zstr a = zstr b) /\ (r < 0 <-> slt_by (fun c => c) (zstr a) (zstr b)).
Proof.
  rewrite cmp_n_strncmp.
  destruct (cmp_zstr Z.sub (fun c => c)) with (a := a) (b := b) (n := S (length a))
    as (r & -> & H); [done|lia|lia|exact H].
Qed.

(** Without a NUL in them, names are in the order of their NUL-terminated forms. *)
Lemma zstr_c a : Forall c_char a -> zstr a = a ++ [0].
Proof.
  induction 1 as [|c a [Hb H0] _ IH]; [done|]. cbn. rewrite IH.
  by assert ((c =? 0) = false) as -> by lia.
Qed.

Lemma slt_zstr a b : Forall c_char a -> Forall c_char b -> slt (zstr a) (zstr b) <-> slt a b.
Proof.
  intros Ha Hb. rewrite !zstr_c by done. revert b Hb.
  induction Ha as [|x a Hx _ IH]; intros [|y b] Hb; cbn [app slt_by].
  - unfold key. cbn. tauto || intuition lia.
  - inversion Hb as [|? ? [[] ] ]; subst. split; [done|]. intros _. left. unfold key. case_ifs; lia.
  - destruct Hx as [[] ]. split; [|done]. unfold key. case_ifs; intros [?|[? _]]; lia.
  - inversion Hb; subst. by rewrite IH.
Qed.

Lemma zstr_inj a b : Forall c_char a -> Forall c_char b -> zstr a = zstr b -> a = b.
Proof. intros Ha Hb. rewrite !zstr_c by done. apply app_inj_tail. Qed.

(** ** The comparison of locations is a total preorder *)

(** Static locations, then regular expressions, named ones, and those without a name. *)
Definition rank (i : loc_info) : Z :=
  if noname i then 3 else if named i then 2 else if is_regex i then 1 else 0.

Definition same_rank_le (a b : loc_info) : Prop :=
  rank a = 3 \/ rank a = 1 \/
  (rank a = 2 /\ ~ slt_by (fun c => c) (zstr (name b)) (zstr (name a))) \/
  (rank a = 0 /\ (slt (zstr (name a)) (zstr (name b)) \/
     zstr (name a) = zstr (name b) /\ (exact_match a = true \/ exact_match b = false))).

Lemma cmp_info_le a b : cmp_info a b <= 0 <-> rank a < rank b \/ (rank a = rank b /\ same_rank_le a b).
Proof.
  unfold cmp_info, same_rank_le, rank, is_regex.
  pose proof (ngx_filename_cmp_zstr (name a) (name b)) as [F1 F2].
  pose proof (ngx_strcmp_zstr (name a) (name b)) as [S1 S2].
  pose proof (slt_total (fun c => c) (zstr (name a)) (zstr (name b)) (fun _ _ H => H)) as T.
  pose proof (slt_asym (fun c => c) (zstr (name a)) (zstr (name b))) as A.
  pose proof (slt_irrefl (fun c => c) (zstr (name a))) as I.
  cbn zeta in F1, F2, S1, S2.
  revert F1 F2 S1 S2. generalize (fcmp (name a ++ [0]) (name b ++ [0]) (Nat.min (length (name a)) (length (name b)) + 1)).
  generalize (default 0 (ngx_strncmp (name a ++ [0]) (name b ++ [0]) (S (length (name a))))).
  intros s f F1 F2 S1 S2.
  destruct (noname a), (noname b); cbn [negb andb orb].
  { split; [|lia]. intros _. right. split; [done|by left]. }
  { split; [lia|]. intros [H|[H _]]; case_ifs_in H; lia. }
  { split; [|lia]. intros _. left. case_ifs; lia. }
  destruct (named a), (named b); cbn [negb andb orb]; try (clear; case_ifs; lia).
  - split.
    + intros H. right. split; [done|]. right; right; left. split; [done|]. intros H'.
      destruct (Z.eq_dec s 0) as [E|E]; [apply S1 in E; rewrite E in *; tauto|].
      apply A; [|done]. apply S2. lia.
    + intros [?|[_ [?|[?|[[_ H]|[? _]]]]]]; try lia. destruct T as [T|[T|T]]; [apply S2 in T; lia| |done].
      apply S1 in T. lia.
  - destruct (given (regex a)), (given (regex b)); cbn [negb andb orb]; try (clear; lia).
    cbn zeta. destruct (f =? 0) eqn:E; cbn [andb].
    + assert (zstr (name a) = zstr (name b)) as Eq by (apply F1; lia).
      pose proof (slt_irrefl key (zstr (name b))) as Ir. rewrite Eq.
      split.
      * intros H. right. split; [done|]. do 3 right. split; [done|]. right. split; [done|].
        destruct (exact_match a), (exact_match b); cbn in H; (tauto || lia).
      * intros [?|[_ [?|[?|[[? _]|[_ [?|[_ [-> | ->]]]]]]]]]; try lia; [done|cbn; lia|].
        rewrite andb_false_r. lia.
    + assert (zstr (name a) <> zstr (name b)) as Ne by (intros Eq; apply F1 in Eq; lia).
      split.
      * intros H. right. split; [done|]. do 3 right. split; [done|]. left. apply F2. lia.
      * intros [?|[_ [?|[?|[[? _]|[_ [H|[H _]]]]]]]]; try lia; [apply F2 in H; lia|done].
Qed.

Section preorder.
Context {L : Type} (info : L -> loc_info).

Definition cmp_clcf (x y : L) : Z := cmp_info (info x) (info y).

Lemma cmp_clcf_total x y : before cmp_clcf x y \/ before cmp_clcf y x.
Proof.
  unfold before, cmp_clcf. rewrite !cmp_info_le. generalize (info x), (info y). intros a b.
  destruct (Z.lt_trichotomy (rank a) (rank b)) as [H|[H|H]]; [tauto| |tauto].
  unfold same_rank_le. rewrite H.
  pose proof (slt_total (fun c => c) (zstr (name a)) (zstr (name b)) (fun _ _ H => H)) as T.
  pose proof (slt_asym (fun c => c) (zstr (name a)) (zstr (name b))) as A.
  pose proof (slt_total key (zstr (name a)) (zstr (name b)) key_inj) as T'.
  assert (rank b = 0 \/ rank b = 1 \/ rank b = 2 \/ rank b = 3) as R
    by (unfold rank; case_ifs; tauto).
  destruct R as [R|[R|[R|R]]]; rewrite R; [|tauto| |tauto].
  - destruct T' as [?|[E|?]]; [tauto| |tauto]. rewrite E. destruct (exact_match a), (exact_match b); tauto.
  - assert (~ slt_by (fun c => c) (zstr (name b)) (zstr (name a)) \/
            ~ slt_by (fun c => c) (zstr (name a)) (zstr (name b))) as [G|G]; [|tauto|tauto].
    destruct T as [T|[T|T]]; [left; auto|left; rewrite T; apply slt_irrefl|right; auto].
Qed.

Lemma cmp_clcf_trans x y z : before cmp_clcf x y -> before cmp_clcf y z -> before cmp_clcf x z.
Proof.
  unfold before, cmp_clcf. rewrite !cmp_info_le. generalize (info x), (info y), (info z). intros a b c.
  intros [H1|[H1 L1]] [H2|[H2 L2]]; [left; lia|left; lia|left; lia|]. right. split; [lia|].
  unfold same_rank_le in *. rewrite <-H1 in L2.
  destruct L1 as [?|[?|[[R L1]|[R L1]]]]; [tauto|tauto| |]; destruct L2 as [?|[?|[[R' L2]|[R' L2]]]]; try lia.
  - right; right; left. split; [done|]. intros L3.
    destruct (slt_total (fun c => c) (zstr (name b)) (zstr (name c)) (fun _ _ H => H)) as [T|[T|T]]; [|by rewrite T in L1|done].
    apply L1. by eapply slt_trans.
  - right; right; right. split; [done|]. destruct L1 as [L1|[E1 L1]], L2 as [L2|[E2 L2]].
    + left. by eapply slt_trans.
    + left. by rewrite <-E2.
    + left. by rewrite E1.
    + right. split; [by rewrite E1|]. destruct (exact_match a), (exact_match b), (exact_match c); tauto.
Qed.
End preorder.

(** ** The reference: the best location for a URI *)

Section reference.
Context {L : Type} (info : L -> loc_info).

(** The exact location ([kind = true]) or the prefix location of a name. *)
Definition named_as (kind : bool) (nm : list Z) (c : L) : bool :=
  Bool.eqb kind (exact_match (info c)) && bytes_eqb (name (info c)) nm.

Definition lookup_location (locs : list L) (kind : bool) (nm : list Z) : option L :=
  List.find (named_as kind nm) locs.

(** The prefix location of the longest prefix of [s] that is shorter than [n]. *)
Fixpoint longest_prefix (locs : list L) (s : list Z) (n : nat) : option L :=
  match n with
  | O => None
  | S n =>
      match lookup_location locs false (take n s) with
      | Some c => Some c
      | None => longest_prefix locs s n
      end
  end.

Definition best_location (locs : list L) (s : list Z) : Z * option L :=
  match lookup_location locs true s with
  | Some c => (NGX_OK, Some c)
  | None =>
      match lookup_location locs false s with
      | Some c => (NGX_AGAIN, Some c)
      | None =>
          let e := lookup_location locs true (s ++ [ #"/" ]) in
          let i := lookup_location locs false (s ++ [ #"/" ]) in
          if redirects info e || redirects info i
          then (NGX_DONE, match e with Some c => Some c | None => i end)
          else
            match longest_prefix locs s (length s) with
            | Some c => (NGX_AGAIN, Some c)
            | None => (NGX_DECLINED, None)
            end
      end
  end.

Notation lq := (lq L).
Notation flatten := (@flatten L).

(** *** The scan of the entries in order, by lookups *)

Definition look (E : list lq) (nm : list Z) : option lq :=
  List.find (fun e => bytes_eqb (lq_name e) nm) E.

Fixpoint longest_entry (E : list lq) (s : list Z) (n : nat) : option L :=
  match n with
  | O => None
  | S n =>
      match look E (take n s) ≫= lq_inclusive with
      | Some c => Some c
      | None => longest_entry E s n
      end
  end.

Definition best_entry (E : list lq) (s : list Z) (acc : Z * option L) : Z * option L :=
  match look E s with
  | Some e =>
      match lq_exact e, lq_inclusive e with
      | Some c, _ => (NGX_OK, Some c)
      | None, i => (NGX_AGAIN, i)
      end
  | None =>
      match look E (s ++ [ #"/" ]) with
      | Some e =>
          if redirects info (lq_exact e) || redirects info (lq_inclusive e) then (NGX_DONE, lq_clcf e)
          else match longest_entry E s (length s) with Some c => (NGX_AGAIN, Some c) | None => acc end
      | None => match longest_entry E s (length s) with Some c => (NGX_AGAIN, Some c) | None => acc end
      end
  end.

Lemma look_cons e E nm : look (e :: E) nm = if bytes_eqb (lq_name e) nm then Some e else look E nm.
Proof. done. Qed.

Lemma look_Some E nm e : look E nm = Some e -> e ∈ E /\ lq_name e = nm.
Proof.
  intros H%List.find_some. rewrite <-list_elem_of_In in H. destruct H as [H1 H2].
  by apply bytes_eqb_eq in H2.
Qed.

Lemma look_None E nm : (forall e, e ∈ E -> lq_name e <> nm) -> look E nm = None.
Proof.
  intros H. destruct (look E nm) as [e|] eqn:He; [|done]. apply look_Some in He as [He1 He2].
  by destruct (H e He1).
Qed.

Lemma look_above (e : lq) E nm : Forall (name_below e) E -> nm = lq_name e \/ slt nm (lq_name e) ->
  look E nm = None.
Proof.
  intros HE Hn. apply look_None. intros x Hx Heq. rewrite Forall_forall in HE.
  specialize (HE x Hx). unfold name_below in HE. rewrite Heq in HE.
  destruct Hn as [->|Hn]; [by apply slt_irrefl in HE|by apply (slt_asym _ _ _ Hn)].
Qed.

Lemma longest_above (e : lq) E s n : Forall (name_below e) E ->
  take n s = lq_name e \/ slt (take n s) (lq_name e) -> longest_entry E s n = None.
Proof.
  intros HE. induction n as [|n IH]; intros Hn; [done|]. cbn [longest_entry].
  assert (take n s = take (S n) s \/ slt (take n s) (take (S n) s)) as Hs.
  { apply prefix_slt. pose proof (prefix_take (take (S n) s) n) as P. rewrite take_take in P.
    by replace (Nat.min n (S n)) with n in P by lia. }
  assert (take n s = lq_name e \/ slt (take n s) (lq_name e)) as Hn'.
  { destruct Hs as [Hs|Hs]; [by rewrite Hs|]. right.
    destruct Hn as [Hn|Hn]; [by rewrite <-Hn|by eapply slt_trans]. }
  rewrite (look_above e E) by done. by apply IH.
Qed.

Definition has_clcf (e : lq) : Prop := is_Some (lq_clcf e).

Lemma hit_None_name e s : has_clcf e -> hit info e s = None -> lq_name e <> s.
Proof.
  intros [c Hc] H E. unfold hit in H. rewrite (proj2 (bytes_eqb_eq _ _) E) in H.
  unfold lq_clcf in Hc. by destruct (lq_exact e), (lq_inclusive e).
Qed.

Lemma longest_skip e E s n : (n <= length s)%nat -> Forall (name_below e) E ->
  hit info e s = None -> has_clcf e -> longest_entry (e :: E) s n = longest_entry E s n.
Proof.
  intros Hn HE Hh Hc. induction n as [|n IH]; [done|]. cbn [longest_entry]. rewrite look_cons, IH by lia.
  destruct (bytes_eqb (lq_name e) (take n s)) eqn:Eb; [|done]. apply bytes_eqb_eq in Eb.
  rewrite (look_above e E) by (try left; done). cbn [mbind option_bind].
  destruct (lq_inclusive e) as [c|] eqn:Ei; [|done]. exfalso.
  pose proof (hit_None_name e s Hc Hh) as Hne. unfold hit in Hh.
  destruct (bytes_eqb (lq_name e) s) eqn:E1; [by apply bytes_eqb_eq in E1|].
  rewrite Eb, length_take, Nat.min_l in Hh by lia.
  rewrite bytes_eqb_refl in Hh. assert ((n <? length s)%nat = true) as E2 by lia. rewrite E2, Ei in Hh. done.
Qed.

Lemma longest_new e E s k n c : Forall (name_below e) E -> lq_name e = take k s -> (k < length s)%nat ->
  (n <= length s)%nat -> lq_inclusive e = Some c ->
  longest_entry (e :: E) s n =
  if (k <? n)%nat then match longest_entry E s n with Some c' => Some c' | None => Some c end
  else longest_entry E s n.
Proof.
  intros HE Hk Hks Hn Hi. induction n as [|n IH]; [done|]. cbn [longest_entry]. rewrite look_cons.
  destruct (bytes_eqb (lq_name e) (take n s)) eqn:Eb.
  - apply bytes_eqb_eq in Eb. assert (n = k) as ->.
    { rewrite Eb in Hk. apply (f_equal length) in Hk. rewrite !length_take in Hk. lia. }
    rewrite (look_above e E), (longest_above e E) by (try left; done).
    assert ((k <? S k)%nat = true) as -> by lia. cbn. by rewrite Hi.
  - rewrite IH by lia. assert (n <> k) as Hnk by (intros ->; by rewrite Hk, bytes_eqb_refl in Eb).
    destruct (k <? n)%nat eqn:E1.
    + assert ((k <? S n)%nat = true) as -> by lia. by destruct (look E (take n s) ≫= lq_inclusive).
    + by assert ((k <? S n)%nat = false) as -> by lia.
Qed.

Lemma scan_best E s acc : StronglySorted name_below E -> Forall has_clcf E ->
  scan info E s acc = best_entry E s acc.
Proof.
  intros HS. revert acc. induction HS as [|e E HS IH HE]; intros acc Hc.
  { unfold best_entry. cbn. destruct (longest_entry [] s (length s)) eqn:El; [|done].
    exfalso. clear - El. induction (length s) as [|n IH]; [done|]. cbn in El. auto. }
  inversion Hc as [|? ? Hce Hc']; subst. cbn [scan]. destruct (hit info e s) as [[r|r]|] eqn:Hh.
  - rewrite IH by done. apply hit_relevant in Hh as Hr. unfold hit in Hh. unfold best_entry. rewrite !look_cons.
    destruct (bytes_eqb (lq_name e) s) eqn:E1; [by destruct (lq_exact e), (lq_inclusive e)|].
    destruct (_ && _) eqn:E2.
    + (* a prefix of the URI *)
      apply andb_true_iff in E2 as [E2 E3]. apply bytes_eqb_eq in E3.
      destruct (lq_inclusive e) as [c|] eqn:Hi; [|done]. injection Hh as <-.
      rewrite (bytes_eqb_length (lq_name e) (s ++ _)) by (rewrite length_app; cbn; lia).
      rewrite (longest_new e E s (length (lq_name e)) (length s) c) by (done || lia).
      rewrite E2. by destruct (look E s), (look E (s ++ [ #"/" ])), (longest_entry E s (length s)).
    + (* the URI with a slash *)
      destruct (bytes_eqb (lq_name e) (s ++ _)) eqn:E3; [|done]. cbn [andb] in Hh.
      destruct (_ || _) eqn:E4; [|done]. injection Hh as <-. apply bytes_eqb_eq in E3.
      assert (slt s (lq_name e)) as Hlt by (rewrite E3; by apply slt_extends).
      rewrite (look_above e E) by auto. rewrite (look_above e E) by auto.
      rewrite (longest_above e E s (length s)); [done|done|]. right. by rewrite firstn_all.
  - (* the URI *)
    apply hit_relevant in Hh as Hr. unfold hit in Hh. unfold best_entry. rewrite look_cons.
    destruct (bytes_eqb (lq_name e) s) eqn:E1.
    + destruct (lq_exact e), (lq_inclusive e); try done; by injection Hh as <-.
    + case_ifs_in Hh; try done. by destruct (lq_inclusive e).
  - rewrite IH by done. pose proof (hit_None_name e s Hce Hh) as Hne. unfold best_entry. rewrite !look_cons.
    rewrite longest_skip by done.
    destruct (bytes_eqb (lq_name e) s) eqn:E1; [by apply bytes_eqb_eq in E1|].
    destruct (bytes_eqb (lq_name e) (s ++ _)) eqn:E2; [|done].
    unfold hit in Hh. rewrite E1, E2 in Hh. apply bytes_eqb_eq in E2.
    rewrite (look_above e E (s ++ _)) by auto.
    assert ((length (lq_name e) <? length s)%nat = false) as E3 by (rewrite E2, length_app; lia).
    rewrite E3 in Hh. cbn [andb] in Hh. by destruct (_ || _).
Qed.
End reference.

(** ** Joining exact and prefix locations *)

Section join.
Context {L : Type} (info : L -> loc_info).
Notation lq := (lq L).

(** The locations of an entry, with their kinds. *)
Definition items (q : lq) : list (bool * L) :=
  match lq_exact q with Some c => [(true, c)] | None => [] end ++
  match lq_inclusive q with Some c => [(false, c)] | None => [] end.

Definition item_key (x : bool * L) : bool * list Z := (fst x, name (info (snd x))).

(** An entry of the queue: no list yet, a name of C characters, that of its locations. *)
Definition entry_ok (q : lq) : Prop :=
  leaf q /\ c_name q /\ has_clcf q /\ forall x, x ∈ items q -> name (info (snd x)) = lq_name q.

(** The order of the sorted queue: of one name, the exact location comes first. *)
Definition queue_le (p q : lq) : Prop :=
  slt (lq_name p) (lq_name q) \/
  (lq_name p = lq_name q /\ (lq_exact p = None -> lq_exact q = None)).

Lemma same_name_test (p q : lq) : c_name p -> c_name q ->
  ((length (lq_name p) =? length (lq_name q))%nat
    && (fcmp (lq_name p) (lq_name q) (length (lq_name q)) =? 0)) = bytes_eqb (lq_name p) (lq_name q).
Proof.
  intros Hp Hq. destruct (length (lq_name p) =? length (lq_name q))%nat eqn:El; cbn [andb].
  - assert (Forall is_byte (lq_name p)) as Hb by (eapply Forall_impl; [exact Hp|]; by intros ? []).
    destruct (fcmp_spec (lq_name p) (lq_name q) (length (lq_name q)) Hb Hq) as (H0 & H1 & H2); [lia|lia|].
    apply Nat.eqb_eq in El. destruct (_ =? 0) eqn:Ef.
    + symmetry. apply bytes_eqb_eq. rewrite <-El, firstn_all, El, firstn_all in H0. apply H0. lia.
    + destruct (bytes_eqb _ _) eqn:Eb; [|done]. apply bytes_eqb_eq in Eb. exfalso. rewrite Eb in H1, H2, Ef.
      pose proof (differs_irrefl (lq_name q) []) as D. rewrite app_nil_r in D.
      destruct (Z.lt_trichotomy (fcmp (lq_name q) (lq_name q) (length (lq_name q))) 0) as [G|[G|G]]; [auto|lia|auto].
  - rewrite bytes_eqb_length; [done|]. apply Nat.eqb_neq in El. done.
Qed.

Definition joined_ok (q : lq) (rest E : list lq) : Prop :=
  flat_map items E = flat_map items (q :: rest) /\ StronglySorted name_below E /\ Forall entry_ok E /\
  Forall (fun e => lq_name e = lq_name q \/ slt (lq_name q) (lq_name e)) E.

Lemma duplicate_items kind a b q x rest : (kind, a) ∈ items q -> (kind, b) ∈ items x ->
  name (info a) = name (info b) -> ~ NoDup (map item_key (flat_map items (q :: x :: rest))).
Proof.
  intros Ha Hb Hn. cbn [flat_map]. rewrite !map_app. intros (_ & H & _)%NoDup_app.
  apply (H (item_key (kind, a))); [by apply list_elem_of_fmap_2|].
  apply elem_of_app; left. replace (item_key (kind, a)) with (item_key (kind, b))
    by (unfold item_key; cbn; by rewrite Hn). by apply list_elem_of_fmap_2.
Qed.

(** Two entries of one name that are no duplicates. *)
Lemma joinable (qe qi xe xi : option L) nm l l' :
  (qe = None -> xe = None) -> given qe && given xe || given qi && given xi = false ->
  has_clcf (Lq qe qi nm l) -> has_clcf (Lq xe xi nm l') -> qi = None /\ xe = None.
Proof. intros H1 H2 [? H3] [? H4]. destruct qe, qi, xe, xi; try done. by specialize (H1 eq_refl). Qed.

Lemma join_from_spec rest : forall q,
  Forall entry_ok (q :: rest) -> StronglySorted queue_le (q :: rest) ->
  match join_from q rest with
  | Some E => joined_ok q rest E
  | None => ~ NoDup (map item_key (flat_map items (q :: rest)))
  end.
Proof.
  induction rest as [|x rest IH]; intros q Hok Hs.
  { inversion Hok; subst. split_and!; [done|repeat constructor|done|by constructor; [left|]]. }
  inversion Hok as [|? ? Hq Hok']; subst. inversion Hok' as [|? ? Hx Hrest]; subst.
  apply StronglySorted_inv in Hs as [Hs Hqs]. inversion Hqs as [|? ? Hqx Hqr]; subst.
  pose proof Hq as (Hql & Hqc & Hqh & Hqn). pose proof Hx as (Hxl & Hxc & Hxh & Hxn).
  cbn [join_from]. rewrite same_name_test by done. destruct (bytes_eqb _ _) eqn:Eb.
  - apply bytes_eqb_eq in Eb. destruct Hqx as [Hqx|[_ Hqx]]; [rewrite Eb in Hqx; by apply slt_irrefl in Hqx|].
    destruct q as [qe qi qn ql], x as [xe xi xn xl]. cbn [lq_exact lq_inclusive lq_name lq_list] in *. subst xn.
    destruct (given qe && given xe || given qi && given xi) eqn:Et.
    + apply orb_true_iff in Et as [Et|Et]; apply andb_true_iff in Et as [E1 E2].
      * destruct qe as [a|], xe as [b|]; try done. apply (duplicate_items true a b); [set_solver..|].
        etrans; [apply (Hqn (true, a)); set_solver|symmetry; apply (Hxn (true, b)); set_solver].
      * destruct qi as [a|], xi as [b|]; try done.
        assert ((false, a) ∈ items (Lq qe (Some a) qn ql) /\ (false, b) ∈ items (Lq xe (Some b) qn xl)) as [Ia Ib]
          by (split; apply elem_of_app; right; set_solver).
        apply (duplicate_items false a b); [done|done|]. etrans; [apply (Hqn _ Ia)|symmetry; apply (Hxn _ Ib)].
    + destruct (joinable _ _ _ _ _ _ _ Hqx Et Hqh Hxh) as [-> ->].
      assert (items (Lq qe xi qn ql) = items (Lq qe None qn ql) ++ items (Lq None xi qn xl)) as Hitems
        by (unfold items; cbn; by rewrite app_nil_r).
      assert (entry_ok (Lq qe xi qn ql)) as Hok2.
      { split_and!; [done|done| |].
        - unfold has_clcf, lq_clcf in *. cbn [lq_exact lq_inclusive] in *. by destruct qe.
        - intros y Hy. rewrite Hitems in Hy. apply elem_of_app in Hy as [Hy|Hy]; [by apply Hqn|by apply Hxn]. }
      specialize (IH (Lq qe xi qn ql)). destruct (join_from (Lq qe xi qn ql) rest) as [E|].
      * destruct IH as (H1 & H2 & H3 & H4); [by constructor|by constructor; [apply StronglySorted_inv in Hs as []|]|].
        split_and!; [|done|done|done]. rewrite H1. cbn [flat_map]. by rewrite Hitems, app_assoc.
      * cbn [flat_map] in *. rewrite app_assoc, <-Hitems.
        apply IH; [by constructor|by constructor; [apply StronglySorted_inv in Hs as []|]].
  - assert (slt (lq_name q) (lq_name x)) as Hlt.
    { destruct Hqx as [?|[E _]]; [done|]. by rewrite E, bytes_eqb_refl in Eb. }
    specialize (IH x Hok' Hs). destruct (join_from x rest) as [E|]; cbn [mbind option_bind].
    + destruct IH as (H1 & H2 & H3 & H4).
      assert (Forall (name_below q) E) as HqE.
      { eapply Forall_impl; [exact H4|]. intros e [He|He]; unfold name_below; [by rewrite He|by eapply slt_trans]. }
      split_and!; [cbn [flat_map] in *; by rewrite H1|by constructor|by constructor|].
      constructor; [by left|]. eapply Forall_impl; [exact HqE|]. by right.
    + intros HN. apply IH. cbn [flat_map] in HN |- *. rewrite map_app in HN. by apply NoDup_app in HN as (_ & _ & ?).
Qed.
End join.
