(* ===== verification/LocationFind.v ===== *)
(** * The location of a request

    The trees of [Locations] find the best location of those configured, and
    [ngx_http_core_find_location] computes the documented choice over nested
    locations and regular expressions, from the configuration. *)

From stdpp Require Import sorting.
From S2P Require Import Prelude Strings Queue Locations LocationSearch LocationBuild.

#[local] Set Warnings "-clear-no-such-hyp,-register-all".

(** ** Sorting the queue is sorting the locations *)

Lemma insertion_sort_map {A B} (f : A -> B) (cmp : A -> A -> Z) (cmp' : B -> B -> Z) l :
  (forall x y, cmp' (f x) (f y) = cmp x y) ->
  insertion_sort cmp' (map f l) = map f (insertion_sort cmp l).
Proof.
  intros H. assert (forall ps q, insert_back cmp' (map f ps) (f q) = map f (insert_back cmp ps q)) as Hi.
  { intros ps q. induction ps as [|p ps IH]; [done|]. cbn. rewrite H, IH. by destruct (cmp p q <=? 0). }
  destruct l as [|x l]; [done|]. cbn [map insertion_sort]. rewrite map_rev. f_equal.
  change [f x] with (map f [x]). generalize [x] as ps. induction l as [|q l IH]; intros ps; [done|].
  cbn [map fold_left]. by rewrite Hi, IH.
Qed.

Section best.
Context {L : Type} (info : L -> loc_info).
Notation add := (ngx_http_add_location info).

Lemma add_clcf c : lq_clcf (add c) = Some c.
Proof. unfold ngx_http_add_location. by case_ifs. Qed.

Lemma sort_queue l : insertion_sort (ngx_http_cmp_locations info) (map add l) =
  map add (insertion_sort (cmp_clcf info) l).
Proof. apply insertion_sort_map. intros x y. unfold ngx_http_cmp_locations. by rewrite !add_clcf. Qed.

(** A name as the configuration has them: no NUL, at most 255 characters (the
    [len] of a node is a [u_char]), a redirect only to a name with a slash. *)
Definition name_ok (i : loc_info) : Prop :=
  Forall c_char (name i) /\ (length (name i) < 256)%nat /\
  (auto_redirect i = true -> exists w, name i = w ++ [ #"/" ]).

Definition static_ok (c : L) : Prop := rank (info c) = 0 /\ name_ok (info c).

Definition kind_name (c : L) : bool * list Z := (exact_match (info c), name (info c)).

Lemma add_static c : rank (info c) = 0 ->
  add c = if exact_match (info c) then Lq (Some c) None (name (info c)) []
          else Lq None (Some c) (name (info c)) [].
Proof.
  unfold rank, is_regex, ngx_http_add_location. intros H. case_ifs_in H; try lia.
  cbn. by rewrite !orb_false_r.
Qed.

Lemma items_add c : rank (info c) = 0 -> items (add c) = [(exact_match (info c), c)].
Proof. intros H. rewrite add_static by done. by case_ifs. Qed.

Lemma entry_ok_add c : static_ok c -> entry_ok info (add c).
Proof.
  intros (Hr & Hc & _). unfold entry_ok, has_clcf. rewrite add_clcf, items_add by done.
  rewrite add_static by done. split_and!; [by case_ifs|by unfold c_name; case_ifs|eauto|].
  intros x ->%list_elem_of_singleton. by case_ifs.
Qed.

Lemma flat_items l : Forall static_ok l -> flat_map items (map add l) = map (fun c => (exact_match (info c), c)) l.
Proof. induction 1 as [|c l [Hr _] _ IH]; [done|]. cbn [map flat_map]. by rewrite items_add, IH. Qed.

Lemma queue_le_add c c' : static_ok c -> static_ok c' -> before (cmp_clcf info) c c' ->
  queue_le (add c) (add c').
Proof.
  intros (Hr & Hc & _) (Hr' & Hc' & _) H. unfold before, cmp_clcf in H.
  apply cmp_info_le in H as [H|[_ [H|[H|[[H _]|[_ H]]]]]]; try lia.
  rewrite !add_static by done. unfold queue_le.
  destruct H as [H|[H He]]; [left; rewrite slt_zstr in H by done; by case_ifs|].
  right. apply zstr_inj in H; [|done|done]. by destruct (exact_match (info c)), (exact_match (info c')), He.
Qed.

Lemma sorted_queue_le Q : Forall static_ok Q -> StronglySorted (before (cmp_clcf info)) Q ->
  StronglySorted queue_le (map add Q).
Proof.
  intros HQ Hs. induction Hs as [|c Q Hs IH Hc]; cbn; [constructor|]. inversion HQ; subst.
  constructor; [by apply IH|]. rewrite Forall_map. rewrite Forall_forall in *. intros x Hx.
  apply queue_le_add; auto.
Qed.

(** *** Lookups in the entries are lookups in the locations *)

Section lookups.
Context (E : list (lq L)) (locs : list L).
Hypothesis HE : StronglySorted name_below E.
Hypothesis Hok : Forall (entry_ok info) E.
Hypothesis Hperm : flat_map items E ≡ₚ map (fun c => (exact_match (info c), c)) locs.

Lemma entry_of k c : c ∈ locs -> exact_match (info c) = k ->
  exists e, e ∈ E /\ (k, c) ∈ items e /\ lq_name e = name (info c).
Proof.
  intros Hc Hk. assert ((k, c) ∈ flat_map items E) as Hin.
  { rewrite Hperm. apply list_elem_of_fmap. exists c. by rewrite Hk. }
  apply list_elem_of_In, in_flat_map in Hin as (e & He & Hi).
  apply list_elem_of_In in He. apply list_elem_of_In in Hi.
  exists e. split_and!; [done|done|]. rewrite Forall_forall in Hok. destruct (Hok e He) as (_ & _ & _ & Hn).
  symmetry. by apply (Hn (k, c)).
Qed.

Lemma location_of e k c : e ∈ E -> (k, c) ∈ items e ->
  c ∈ locs /\ exact_match (info c) = k /\ name (info c) = lq_name e.
Proof.
  intros He Hi. assert ((k, c) ∈ flat_map items E) as Hin.
  { apply list_elem_of_In, in_flat_map. exists e. split; by apply list_elem_of_In. }
  rewrite Hperm in Hin. apply list_elem_of_fmap in Hin as (c' & [= -> ->] & Hc').
  split_and!; [done|done|]. rewrite Forall_forall in Hok. destruct (Hok e He) as (_ & _ & _ & Hn).
  by apply (Hn (exact_match (info c'), c')).
Qed.

Lemma same_entry e e' : e ∈ E -> e' ∈ E -> lq_name e = lq_name e' -> e = e'.
Proof using HE.
  intros He He' Hn. revert He He'. clear - HE Hn.
  induction HE as [|x E' _ IH Hx]; intros He He'; [by apply not_elem_of_nil in He|].
  rewrite Forall_forall in Hx. apply elem_of_cons in He as [->|He], He' as [->|He']; [done|..].
  - apply Hx in He'. unfold name_below in He'. rewrite Hn in He'. by apply slt_irrefl in He'.
  - apply Hx in He. unfold name_below in He. rewrite Hn in He. by apply slt_irrefl in He.
  - apply StronglySorted_inv in HE as [Hs _]. by apply IH.
Qed.

Definition kind_of (k : bool) (e : lq L) : option L := if k then lq_exact e else lq_inclusive e.

Lemma kind_of_items k e c : kind_of k e = Some c <-> (k, c) ∈ items e.
Proof.
  unfold kind_of, items. destruct k, (lq_exact e), (lq_inclusive e); set_solver.
Qed.

Lemma lookup_look k nm : lookup_location info locs k nm = look E nm ≫= kind_of k.
Proof.
  unfold lookup_location. destruct (List.find _ locs) as [c|] eqn:Ef.
  - apply List.find_some in Ef as [Hc Ht]. rewrite <-list_elem_of_In in Hc.
    apply andb_true_iff in Ht as [Hk Hn]. apply eqb_prop in Hk. apply bytes_eqb_eq in Hn.
    destruct (entry_of k c Hc (eq_sym Hk)) as (e & He & Hi & Hne).
    destruct (look E nm) as [e'|] eqn:El.
    + apply look_Some in El as [He' Hn']. rewrite (same_entry e' e He' He) by congruence.
      symmetry. by apply kind_of_items.
    + exfalso. pose proof (List.find_none _ _ El e) as Hf. rewrite <-list_elem_of_In in Hf.
      specialize (Hf He). cbn in Hf. by rewrite Hne, Hn, bytes_eqb_refl in Hf.
  - destruct (look E nm) as [e|] eqn:El; [|done]. apply look_Some in El as [He Hn]. cbn [mbind option_bind].
    destruct (kind_of k e) as [c|] eqn:Ek; [|done]. apply kind_of_items in Ek.
    destruct (location_of e k c He Ek) as (Hc & Hk & Hnc).
    pose proof (List.find_none _ _ Ef c) as Hf. rewrite <-list_elem_of_In in Hf. specialize (Hf Hc).
    unfold named_as in Hf. by rewrite Hk, Hnc, Hn, eqb_reflx, bytes_eqb_refl in Hf.
Qed.

Lemma longest_look s n : longest_prefix info locs s n = longest_entry E s n.
Proof.
  induction n as [|n IH]; [done|]. cbn. rewrite lookup_look, IH. done.
Qed.

Lemma best_look s : best_location info locs s = best_entry info E s (NGX_DECLINED, None).
Proof.
  unfold best_location, best_entry. rewrite !lookup_look, longest_look.
  assert (forall nm e, look E nm = Some e -> has_clcf e) as Hclcf.
  { intros nm e [He _]%look_Some. rewrite Forall_forall in Hok. by destruct (Hok e He) as (_ & _ & ? & _). }
  destruct (look E s) as [e|] eqn:E1; cbn [mbind option_bind kind_of].
  { destruct (Hclcf _ _ E1) as [c Hc]. unfold lq_clcf in Hc. by destruct (lq_exact e), (lq_inclusive e). }
  destruct (look E (s ++ _)) as [e|] eqn:E2; cbn [mbind option_bind kind_of]; [|done].
  unfold lq_clcf. by destruct (lq_exact e).
Qed.
End lookups.

(** *** The tree of a sorted queue *)

Lemma keys_distinct (E : list (lq L)) : StronglySorted name_below E -> Forall (entry_ok info) E ->
  NoDup (map (item_key info) (flat_map items E)).
Proof.
  induction 1 as [|e E Hs IH He]; intros Hok; [constructor|]. inversion Hok as [|? ? Hoe HoE]; subst.
  cbn [flat_map]. rewrite map_app. apply NoDup_app. split_and!; [|..|by apply IH].
  - unfold items. destruct (lq_exact e), (lq_inclusive e); cbn; repeat constructor; set_solver.
  - intros k Hk Hk'. apply list_elem_of_fmap in Hk as (x & -> & Hx).
    apply list_elem_of_fmap in Hk' as (y & Hxy & Hy).
    apply list_elem_of_In, in_flat_map in Hy as (e' & He' & Hy).
    apply list_elem_of_In in He'. apply list_elem_of_In in Hy.
    rewrite Forall_forall in He, HoE. specialize (He e' He'). destruct (HoE e' He') as (_ & _ & _ & Hn').
    destruct Hoe as (_ & _ & _ & Hn). unfold item_key in Hxy. injection Hxy as _ Hxy.
    unfold name_below in He. rewrite <-(Hn x Hx), <-(Hn' y Hy), Hxy in He. by apply slt_irrefl in He.
Qed.

Lemma flat_keys l : Forall static_ok l -> map (item_key info) (flat_map items (map add l)) = map kind_name l.
Proof. intros H. rewrite flat_items by done. rewrite map_map. done. Qed.

Lemma sorted_entries (F E : list (lq L)) : map entry F = E -> StronglySorted name_below E -> StronglySorted name_below F.
Proof.
  intros <-. induction F as [|e F IH]; cbn; intros H; [constructor|].
  apply StronglySorted_inv in H as [H1 H2]. constructor; [by apply IH|]. by rewrite Forall_map in H2.
Qed.

(** The entries of a forest satisfy what the search asks of them. *)
Lemma entries_named E F Q : map entry F = E -> Forall (entry_ok info) E ->
  flat_map items E = map (fun c => (exact_match (info c), c)) Q -> Forall static_ok Q ->
  Forall (node_name info []) F.
Proof.
  intros <- Hok Hi HQ. rewrite Forall_map, Forall_forall in Hok. rewrite Forall_forall in HQ.
  apply Forall_forall. intros e He.
  destruct (Hok e He) as (_ & Hc & Hh & Hn).
  assert (forall k c, (k, c) ∈ items (entry e) -> static_ok c /\ name (info c) = lq_name e) as Hit.
  { intros k c Hkc. split; [|by apply (Hn (k, c))]. apply HQ.
    assert ((k, c) ∈ flat_map items (map entry F)) as Hin.
    { apply list_elem_of_In, in_flat_map. exists (entry e). split; apply list_elem_of_In; [|done].
      by apply list_elem_of_fmap_2. }
    rewrite Hi in Hin. by apply list_elem_of_fmap in Hin as (c' & [= -> ->] & ?). }
  split; [done|]. split.
  - intros Hr. apply orb_true_iff in Hr as [Hr|Hr]; unfold redirects in Hr.
    + destruct (lq_exact e) as [c|] eqn:Ee; [|done].
      destruct (Hit true c) as [(_ & _ & _ & Hw) <-]; [|by apply Hw].
      apply elem_of_app; left. cbn. rewrite Ee. set_solver.
    + destruct (lq_inclusive e) as [c|] eqn:Ei; [|done].
      destruct (Hit false c) as [(_ & _ & _ & Hw) <-]; [|by apply Hw].
      apply elem_of_app; right. cbn. rewrite Ei. set_solver.
  - exists (lq_name e). split; [done|]. split; [done|]. destruct Hh as [c Hh].
    unfold lq_clcf in Hh. cbn in Hh.
    destruct (lq_exact e) as [a|] eqn:Ee; [|destruct (lq_inclusive e) as [a|] eqn:Ei; [|done]].
    + destruct (Hit true a) as [(_ & _ & ? & _) <-]; [|done]. apply elem_of_app; left. cbn. rewrite Ee. set_solver.
    + destruct (Hit false a) as [(_ & _ & ? & _) <-]; [|done]. apply elem_of_app; right. cbn. rewrite Ei. set_solver.
Qed.

Lemma tree_of_sorted Q : Q <> [] -> Forall static_ok Q -> StronglySorted (before (cmp_clcf info)) Q ->
  match make_static_tree info (map add Q) with
  | Some t => NoDup (map kind_name Q) /\
      forall locs uri, Q ≡ₚ locs -> Forall is_byte uri ->
      ngx_http_core_find_static_location uri NGX_DECLINED None t = Some (best_location info locs uri)
  | None => ~ NoDup (map kind_name Q)
  end.
Proof.
  intros Hne HQ Hs. rewrite <-flat_keys by done. pose proof (sorted_queue_le Q HQ Hs) as Hle.
  assert (Forall (entry_ok info) (map add Q)) as Hok.
  { rewrite Forall_map. eapply Forall_impl; [exact HQ|]. apply entry_ok_add. }
  pose proof (flat_items Q HQ) as Hitems. unfold make_static_tree, ngx_http_join_exact_locations.
  destruct (map add Q) as [|q rest] eqn:Eq; [by apply map_eq_nil in Eq|].
  pose proof (join_from_spec info rest q Hok Hle) as HJ.
  destruct (join_from q rest) as [E|]; cbn [mbind option_bind]; [|done].
  destruct HJ as (HE1 & HE2 & HE3 & _). rewrite Hitems in HE1.
  destruct (create_list_forest (S (length E)) E) as (F & -> & HF1 & HF2); [lia| | |done|].
  { eapply Forall_impl; [exact HE3|]. by intros e []. }
  { eapply Forall_impl; [exact HE3|]. by intros e (_ & ? & _). }
  cbn [mbind option_bind].
  assert (length (flatten F) = length E) as HlF by (rewrite <-HF1; by rewrite length_map).
  destruct (create_tree_total info (length E) F 0) as [t Ht]; [lia|].
  assert (F <> []) as HFne.
  { intros ->. cbn in HF1. subst E. cbn in HE1. symmetry in HE1. by apply map_eq_nil in HE1. }
  assert (ngx_http_create_locations_tree info (length E) F 0 = Some t) as -> by (by destruct F).
  split; [rewrite Hitems, <-HE1; by apply keys_distinct|].
  intros locs uri Hp Hu.
  rewrite (find_scan info (length E) F [] t Ht HF2); [|by apply (sorted_entries _ E)|by apply (entries_named E _ Q)|done].
  f_equal. cbn [app]. rewrite <-scan_entry, HF1, scan_best; [|done|].
  - symmetry. apply best_look; [done|done|]. rewrite HE1. by rewrite Hp.
  - eapply Forall_impl; [exact HE3|]. by intros e (_ & _ & ? & _).
Qed.
End best.

(** C6: from any list of static locations (exact and prefix ones, names of at
    most 255 characters) sorting, joining and building the tree fail exactly
    when two locations of one kind have one name; otherwise the search of the
    tree, which never reads outside a name or the URI and never follows a null
    pointer, gives for every URI the reference: the exact location of that
    name; else the prefix location of that name; else a redirect to the name
    with a slash, if asked for; else the prefix location of the longest prefix. *)
Theorem static_location_best {L : Type} (info : L -> loc_info) (S : list L) :
  S <> [] -> Forall (static_ok info) S ->
  match make_static_tree info
          (insertion_sort (ngx_http_cmp_locations info) (map (ngx_http_add_location info) S)) with
  | Some t => NoDup (map (kind_name info) S) /\
      forall uri, Forall is_byte uri ->
      ngx_http_core_find_static_location uri NGX_DECLINED None t = Some (best_location info S uri)
  | None => ~ NoDup (map (kind_name info) S)
  end.
Proof.
  intros Hne HS. rewrite sort_queue.
  pose proof (insertion_sort_perm (cmp_clcf info) S) as Hp.
  assert (map (kind_name info) (insertion_sort (cmp_clcf info) S) ≡ₚ map (kind_name info) S) as Hk
    by (by apply Permutation_map).
  assert (insertion_sort (cmp_clcf info) S <> []) as Hne'
    by (intros E; rewrite E in Hp; by apply Permutation_nil_l in Hp).
  pose proof (tree_of_sorted info (insertion_sort (cmp_clcf info) S) Hne' ltac:(by rewrite Hp)
    (insertion_sort_sorted _ (cmp_clcf_total info) (cmp_clcf_trans info) S)) as H.
  destruct (make_static_tree _ _) as [t|]; rewrite Hk in H; [|done].
  destruct H as [HN H]. split; [done|]. intros uri Hu. by apply H.
Qed.

(** ** Nested locations and regular expressions *)

(** *** The choice does not depend on the order *)

Section order.
Context {L : Type} (info : L -> loc_info).

Lemma lookup_perm l l' k nm : l ≡ₚ l' -> NoDup (map (kind_name info) l) ->
  lookup_location info l k nm = lookup_location info l' k nm.
Proof.
  intros Hp HN. assert (forall l1 l2 c, l1 ≡ₚ l2 -> NoDup (map (kind_name info) l1) ->
    lookup_location info l1 k nm = Some c -> lookup_location info l2 k nm = Some c) as H.
  { clear. intros l1 l2 c Hp HN H. apply List.find_some in H as [Hc Ht]. rewrite <-list_elem_of_In in Hc.
    destruct (lookup_location info l2 k nm) as [c'|] eqn:E.
    - apply List.find_some in E as [Hc' Ht']. rewrite <-list_elem_of_In in Hc'. rewrite <-Hp in Hc'.
      f_equal. unfold named_as in *. apply andb_true_iff in Ht as [K1 N1], Ht' as [K2 N2].
      apply eqb_prop in K1, K2. apply bytes_eqb_eq in N1, N2.
      assert (kind_name info c' = kind_name info c) as Hk by (unfold kind_name; congruence).
      clear - HN Hc Hc' Hk. induction l1 as [|x l1 IH]; [by apply not_elem_of_nil in Hc|].
      cbn in HN. apply NoDup_cons in HN as [Hx HN].
      apply elem_of_cons in Hc as [->|Hc], Hc' as [->|Hc']; [done|..|by apply IH].
      + destruct Hx. rewrite <-Hk. by apply list_elem_of_fmap_2.
      + destruct Hx. rewrite Hk. by apply list_elem_of_fmap_2.
    - rewrite Hp in Hc. apply list_elem_of_In in Hc. by rewrite (List.find_none _ _ E c Hc) in Ht. }
  assert (NoDup (map (kind_name info) l')) as HN' by (by rewrite <-Hp).
  destruct (lookup_location info l k nm) as [c|] eqn:E1; [symmetry; by apply (H l l')|].
  destruct (lookup_location info l' k nm) as [c|] eqn:E2; [|done].
  by rewrite (H l' l c (symmetry Hp) HN' E2) in E1.
Qed.

Lemma best_perm l l' s : l ≡ₚ l' -> NoDup (map (kind_name info) l) ->
  best_location info l s = best_location info l' s.
Proof.
  intros Hp HN. unfold best_location. rewrite !(lookup_perm l l') by done.
  assert (forall n, longest_prefix info l s n = longest_prefix info l' s n) as ->; [|done].
  intros n. induction n as [|n IH]; [done|]. cbn. by rewrite (lookup_perm l l'), IH by done.
Qed.
End order.

(** *** nor on what else a location holds *)

Section related.
Context {L M : Type} (info : L -> loc_info) (info' : M -> loc_info) (R : L -> M -> Prop).
Hypothesis R_info : forall x y, R x y -> info x = info' y.

Lemma lookup_related l l' k nm : Forall2 R l l' ->
  option_Forall2 R (lookup_location info l k nm) (lookup_location info' l' k nm).
Proof.
  unfold lookup_location. induction 1 as [|x y l l' Hxy _ IH]; cbn; [constructor|].
  unfold named_as at 1 3. rewrite (R_info _ _ Hxy). destruct (_ && _); [by constructor|done].
Qed.

Lemma redirects_related o o' : option_Forall2 R o o' -> redirects info o = redirects info' o'.
Proof. intros [x y H|]; [cbn; by rewrite (R_info _ _ H)|done]. Qed.

Lemma longest_related l l' s n : Forall2 R l l' ->
  option_Forall2 R (longest_prefix info l s n) (longest_prefix info' l' s n).
Proof.
  intros H. induction n as [|n IH]; cbn; [constructor|].
  destruct (lookup_related l l' false (take n s) H); [by constructor|done].
Qed.

Lemma best_related l l' s : Forall2 R l l' ->
  fst (best_location info l s) = fst (best_location info' l' s) /\
  option_Forall2 R (snd (best_location info l s)) (snd (best_location info' l' s)).
Proof.
  intros H. unfold best_location.
  destruct (lookup_related l l' true s H) as [x y Hxy|]; [split; [done|by constructor]|].
  destruct (lookup_related l l' false s H) as [x y Hxy|]; [split; [done|by constructor]|].
  pose proof (lookup_related l l' true (s ++ [ #"/" ]) H) as He.
  pose proof (lookup_related l l' false (s ++ [ #"/" ]) H) as Hi. cbn zeta.
  rewrite (redirects_related _ _ He), (redirects_related _ _ Hi). destruct (_ || _).
  - split; [done|]. destruct He; [by constructor|done].
  - destruct (longest_related l l' s (length s) H); (split; [done|by constructor]).
Qed.
End related.

(** *** The queue falls apart by rank *)

Lemma split_at_map {A B} (f : A -> B) (p : B -> bool) l :
  split_at p (map f l) =
  (map f (fst (split_at (fun x => p (f x)) l)), map f (snd (split_at (fun x => p (f x)) l))).
Proof.
  induction l as [|x l IH]; [done|]. cbn. destruct (p (f x)); [done|].
  rewrite IH. by destruct (split_at (fun x => p (f x)) l).
Qed.

Section split_rank.
Context {A : Type} (rk : A -> Z).

Definition by_rank (x y : A) : Prop := rk x <= rk y.

Lemma split_at_rank (p : A -> bool) k l : StronglySorted by_rank l ->
  (forall x, x ∈ l -> p x = (k <=? rk x)) ->
  split_at p l = (List.filter (fun x => rk x <? k) l, List.filter (fun x => k <=? rk x) l).
Proof.
  induction 1 as [|x l Hs IH Hx]; intros Hp; [done|]. cbn. rewrite (Hp x) by set_solver.
  destruct (k <=? rk x) eqn:E.
  - assert ((rk x <? k) = false) as -> by lia. rewrite Forall_forall in Hx.
    assert (List.filter (fun y => rk y <? k) l = [] /\ List.filter (fun y => k <=? rk y) l = l) as [-> ->]; [|done].
    clear - Hx E. unfold by_rank in Hx. induction l as [|y l IH]; [done|]. cbn.
    pose proof (Hx y ltac:(set_solver)) as Hy.
    assert ((rk y <? k) = false /\ (k <=? rk y) = true) as [-> ->] by lia.
    destruct IH as [-> ->]; [|done]. intros z Hz. apply Hx. set_solver.
  - assert ((rk x <? k) = true) as -> by lia. rewrite IH by (intros; apply Hp; set_solver). done.
Qed.

Lemma filter_sorted (R : relation A) (p : A -> bool) l : StronglySorted R l -> StronglySorted R (List.filter p l).
Proof.
  induction 1 as [|x l Hs IH Hx]; cbn; [constructor|]. destruct (p x); [|done]. constructor; [done|].
  rewrite Forall_forall in *. intros y Hy. apply Hx. apply list_elem_of_In, List.filter_In in Hy as [Hy _].
  by apply list_elem_of_In.
Qed.

Lemma filter_filter_and (p q : A -> bool) l :
  List.filter p (List.filter q l) = List.filter (fun x => q x && p x) l.
Proof. induction l as [|x l IH]; [done|]. cbn. destruct (q x); cbn; [destruct (p x)|]; by rewrite IH. Qed.
End split_rank.

(** At most one of the flags that make a location other than static. *)
Definition flags_ok (i : loc_info) : Prop :=
  Z.b2z (is_regex i) + Z.b2z (named i) + Z.b2z (noname i) <= 1.

Definition rank_is (k : Z) (c : loc) : bool := rank (loc_fields c) =? k.

Notation sorted_locations := (insertion_sort (cmp_clcf loc_fields)).

Lemma sorted_by_rank cs : StronglySorted (by_rank (fun c => rank (loc_fields c))) (sorted_locations cs).
Proof.
  pose proof (insertion_sort_sorted _ (cmp_clcf_total loc_fields) (cmp_clcf_trans loc_fields) cs) as H.
  induction H as [|x l Hs IH Hx]; constructor; [done|]. eapply Forall_impl; [exact Hx|].
  intros y Hy. unfold before, cmp_clcf in Hy. apply cmp_info_le in Hy. unfold by_rank. lia.
Qed.

Lemma rank_range i : rank i = 0 \/ rank i = 1 \/ rank i = 2 \/ rank i = 3.
Proof. unfold rank. case_ifs; tauto. Qed.

(** The locations of a rank below [k], in the order of the queue. *)
Definition rank_below (k : Z) (l : list loc) : list loc :=
  List.filter (fun c => rank (loc_fields c) <? k) l.

Lemma rank_below_below j k l : j <= k -> rank_below j (rank_below k l) = rank_below j l.
Proof.
  intros H. unfold rank_below. rewrite filter_filter_and. apply List.filter_ext. intros c. lia.
Qed.

Lemma rank_below_top k l :
  List.filter (fun c => k <=? rank (loc_fields c)) (rank_below (k + 1) l) = List.filter (rank_is k) l.
Proof.
  unfold rank_below. rewrite filter_filter_and. apply List.filter_ext. intros c. unfold rank_is. lia.
Qed.

Lemma rank_below_one l : rank_below 1 l = List.filter (rank_is 0) l.
Proof.
  apply List.filter_ext. intros c. unfold rank_is. pose proof (rank_range (loc_fields c)). lia.
Qed.

Notation to_queue := (map (ngx_http_add_location loc_fields)).

Lemma split_below f k l : StronglySorted (by_rank (fun c => rank (loc_fields c))) l ->
  (forall c, c ∈ l -> f (loc_fields c) = (k <=? rank (loc_fields c))) ->
  split_at (lq_test f) (to_queue l) =
  (to_queue (rank_below k l), to_queue (List.filter (fun c => k <=? rank (loc_fields c)) l)).
Proof.
  intros Hl Hk. rewrite split_at_map.
  rewrite (split_at_rank (fun c => rank (loc_fields c)) _ k l Hl); [done|].
  intros c Hc. unfold lq_test. rewrite add_clcf. by apply Hk.
Qed.

Lemma rank_zero_regex i : rank i = 0 -> is_regex i = false.
Proof. unfold rank. by case_ifs. Qed.

Lemma rank_one_regex i : rank i = 1 -> is_regex i = true.
Proof. unfold rank. by case_ifs. Qed.

Lemma split_queue cs : Forall (fun c => flags_ok (loc_fields c)) cs ->
  let Q := sorted_locations cs in
  (exists nonames, split_at (lq_test (fun i => negb (is_regex i) && negb (named i) && noname i)) (to_queue Q) =
    (to_queue (rank_below 3 Q), nonames)) /\
  split_at (lq_test (fun i => negb (is_regex i) && named i)) (to_queue (rank_below 3 Q)) =
    (to_queue (rank_below 2 Q), to_queue (List.filter (rank_is 2) Q)) /\
  split_at (lq_test is_regex) (to_queue (rank_below 2 Q)) =
    (to_queue (List.filter (rank_is 0) Q), to_queue (List.filter (rank_is 1) Q)).
Proof.
  intros Hf Q. pose proof (sorted_by_rank cs) as Hs. fold Q in Hs.
  assert (Forall (fun c => flags_ok (loc_fields c)) Q) as HfQ by (unfold Q; by rewrite insertion_sort_perm).
  rewrite Forall_forall in HfQ.
  assert (forall k c, c ∈ rank_below k Q -> flags_ok (loc_fields c) /\ rank (loc_fields c) < k) as Hbelow.
  { intros k c Hc. apply list_elem_of_In, List.filter_In in Hc as [Hc%list_elem_of_In Hr].
    split; [by apply HfQ|lia]. }
  split_and!.
  - eexists. apply split_below; [done|]. intros c Hc. specialize (HfQ c Hc). unfold flags_ok, rank in *.
    destruct (is_regex _), (named _), (noname _); cbn in *; lia.
  - rewrite (split_below _ 2), rank_below_below by (try lia; try (by apply filter_sorted);
      intros c Hc; destruct (Hbelow 3 c Hc); unfold flags_ok, rank in *;
      destruct (is_regex _), (named _), (noname _); cbn in *; lia).
    by rewrite (rank_below_top 2).
  - rewrite (split_below _ 1), rank_below_below by (try lia; try (by apply filter_sorted);
      intros c Hc; destruct (Hbelow 2 c Hc); unfold flags_ok, rank in *;
      destruct (is_regex _), (named _), (noname _); cbn in *; lia).
    by rewrite (rank_below_top 1), rank_below_one.
Qed.

Definition initialised (b : conf) (c : loc) : Prop := exists nm, ngx_http_init_locations false b = Some (c, nm).

Lemma initialised_fields server b c nm : ngx_http_init_locations server b = Some (c, nm) ->
  loc_fields c = conf_info b.
Proof.
  destruct b as [i blocks]. cbn [ngx_http_init_locations]. destruct blocks; [by intros [= <- _]|].
  match goal with |- mbind _ ?m = _ -> _ => destruct m as [cs|]; [|done] end. cbn [mbind option_bind].
  match goal with |- context [split_at ?p ?q] => destruct (split_at p q) as [q1 ?] end.
  match goal with |- context [split_at ?p q1] => destruct (split_at p q1) as [q2 q2'] end.
  destruct (split_at _ q2) as [q3 q3'].
  destruct q2', server; try done; by intros [= <- _].
Qed.

(** [regex_locations] of the patterns [R]. *)
Definition regex_array (R : list loc) : option (list loc) := match R with [] => None | _ => Some R end.

Lemma exacts_of_queue R : Forall (fun c => rank_is 1 c = true) R -> omap lq_exact (to_queue R) = R.
Proof.
  induction 1 as [|c R Hc _ IH]; [done|]. cbn [map]. cbn [omap list_omap].
  assert (lq_exact (ngx_http_add_location loc_fields c) = Some c) as ->; [|by rewrite IH].
  unfold rank_is, rank, is_regex in Hc. unfold ngx_http_add_location.
  destruct (given (regex (loc_fields c))); [by rewrite orb_true_r|]. case_ifs_in Hc; lia.
Qed.

Lemma regexs_of_queue R : Forall (fun c => rank_is 1 c = true) R ->
  match to_queue R with [] => None | _ => Some (omap lq_exact (to_queue R)) end = regex_array R.
Proof. intros H. rewrite exacts_of_queue by done. by destruct R. Qed.

Lemma init_blocks server i blocks l nm : Forall (fun b => flags_ok (conf_info b)) blocks ->
  ngx_http_init_locations server (Conf i blocks) = Some (l, nm) -> exists cs lo,
    Forall2 (fun b c => initialised b c /\ loc_fields c = conf_info b) blocks cs /\
    l = Loc i lo Null (regex_array (List.filter (rank_is 1) (sorted_locations cs))) /\
    lo = match blocks with [] => None | _ => Some (to_queue (List.filter (rank_is 0) (sorted_locations cs))) end.
Proof.
  intros Hf H. cbn [ngx_http_init_locations] in H.
  match type of H with context [mbind _ (?f blocks)] => set (go := f) in H end.
  assert (forall bs cs, go bs = Some cs -> Forall2 initialised bs cs) as Hgo.
  { intros bs. induction bs as [|b bs IH]; intros cs Hcs; cbn in Hcs; [injection Hcs as <-; constructor|].
    destruct (ngx_http_init_locations false b) as [[c n]|] eqn:Eb; [|done]. cbn [mbind option_bind] in Hcs.
    destruct (go bs) as [cs'|] eqn:Eg; [|done]. injection Hcs as <-. constructor; [by exists n|by apply IH]. }
  destruct blocks as [|b0 bs].
  { injection H as <- _. exists [], None. split_and!; [constructor|done|done]. }
  destruct (go (b0 :: bs)) as [cs|] eqn:Ecs; [|done]. cbn [mbind option_bind] in H.
  apply Hgo in Ecs. clear Hgo go. exists cs. eexists.
  assert (Forall2 (fun b c => initialised b c /\ loc_fields c = conf_info b) (b0 :: bs) cs) as H2.
  { eapply Forall2_impl; [exact Ecs|]. intros b c [n Hn]. split; [by exists n|]. by eapply initialised_fields. }
  split; [done|].
  assert (Forall (fun c => flags_ok (loc_fields c)) cs) as Hfc.
  { apply Forall_forall. intros c Hc. destruct (proj1 (list_elem_of_lookup _ _) Hc) as [k Hk].
    destruct (Forall2_lookup_r _ _ _ _ _ H2 Hk) as (b & Hb & _ & ->). by eapply (Forall_lookup_1 _ _ _ _ Hf). }
  destruct (split_queue cs Hfc) as ((nn & E1) & E2 & E3).
  rewrite sort_queue, E1, E2, E3 in H.
  rewrite regexs_of_queue in H by (apply Forall_forall; intros c Hc;
    apply list_elem_of_In, List.filter_In in Hc; tauto).
  destruct (to_queue (List.filter (rank_is 2) _)), server; try discriminate H;
    injection H as <- _; (split; reflexivity).
Qed.

Lemma trees_fields c c' : ngx_http_init_static_location_trees c = Some c' -> loc_fields c' = loc_fields c.
Proof.
  intros Hc. destruct c as [i [[|q0 q]|] t r]; try (by injection Hc as <-).
  cbn [ngx_http_init_static_location_trees] in Hc.
  match type of Hc with mbind _ ?m = _ => destruct m as [q'|]; [|done] end. cbn [mbind option_bind] in Hc.
  destruct (make_static_tree _ _); [|done]. by injection Hc as <-.
Qed.

Lemma init_trees i S regexs l : Forall (fun c => rank_is 0 c = true) S ->
  ngx_http_init_static_location_trees (Loc i (Some (to_queue S)) Null regexs) = Some l ->
  (S = [] /\ static_locations l = Null /\ regex_locations l = regexs /\ loc_fields l = i) \/
  (S <> [] /\ exists S' t,
    Forall2 (fun s s' => ngx_http_init_static_location_trees s = Some s' /\ loc_fields s' = loc_fields s) S S' /\
    make_static_tree loc_fields (to_queue S') = Some t /\ l = Loc i None t regexs).
Proof.
  intros HS H. cbn [ngx_http_init_static_location_trees] in H.
  match type of H with context [mbind _ (?f (to_queue S))] => set (go := f) in H end.
  pose proof trees_fields as Hfields.
  assert (forall S q, Forall (fun c => rank_is 0 c = true) S -> go (to_queue S) = Some q -> exists S',
    Forall2 (fun s s' => ngx_http_init_static_location_trees s = Some s' /\ loc_fields s' = loc_fields s) S S' /\
    q = to_queue S') as Hgo.
  { clear H HS. intros S0. induction S0 as [|c S0 IH]; intros q HS Hq; [injection Hq as <-; by exists []|].
    inversion HS as [|? ? Hc HS']; subst. cbn [map] in Hq. unfold rank_is in Hc.
    rewrite (add_static loc_fields c) in Hq by lia.
    destruct (exact_match (loc_fields c)) eqn:Ee; cbn in Hq;
      (destruct (ngx_http_init_static_location_trees c) as [c'|] eqn:Ec; [|done]); cbn [mbind option_bind] in Hq;
      (destruct (go (to_queue S0)) as [q'|] eqn:Eg; [|done]); injection Hq as <-;
      destruct (IH q' HS' eq_refl) as (S' & H1 & ->); exists (c' :: S'); cbn [map];
      rewrite (add_static loc_fields c'), (Hfields c c' Ec), Ee by (rewrite (Hfields c c' Ec); lia);
      (split; [constructor; [split; [done|by apply Hfields]|done]|done]). }
  destruct S as [|s0 S].
  { cbn in H. injection H as <-. by left. }
  right. split; [done|]. cbn [map] in H. fold (to_queue (s0 :: S)) in H.
  destruct (go _) as [q|] eqn:Eq; [|done]. cbn [mbind option_bind] in H.
  destruct (Hgo (s0 :: S) q HS Eq) as (S' & H1 & ->).
  destruct (make_static_tree _ _) as [t|] eqn:Et; [|done]. injection H as <-. by exists S', t.
Qed.

Lemma same_rank_one a b : rank a = 1 -> cmp_info a b <= 0 /\ cmp_info b a <= 0 <-> rank b = 1.
Proof.
  intros Ha. split.
  - intros [H1%cmp_info_le H2%cmp_info_le]. lia.
  - intros Hb. split; apply cmp_info_le; right; (split; [lia|]); right; left; lia.
Qed.

(** Regular expressions keep the order of the configuration. *)
Lemma regexs_in_order cs : List.filter (rank_is 1) (sorted_locations cs) = List.filter (rank_is 1) cs.
Proof.
  pose proof (insertion_sort_perm (cmp_clcf loc_fields) cs) as Hp.
  destruct (List.filter (rank_is 1) cs) as [|c0 R] eqn:E0.
  - assert (forall c, c ∈ cs -> rank_is 1 c = false) as Hn.
    { intros c Hc. destruct (rank_is 1 c) eqn:Ec; [|done].
      assert (c ∈ List.filter (rank_is 1) cs) as Hin
        by (apply list_elem_of_In, List.filter_In; by rewrite <-list_elem_of_In).
      rewrite E0 in Hin. by apply not_elem_of_nil in Hin. }
    destruct (List.filter (rank_is 1) (sorted_locations cs)) as [|c R'] eqn:E1; [done|].
    assert (c ∈ List.filter (rank_is 1) (sorted_locations cs)) as Hin by (rewrite E1; set_solver).
    apply list_elem_of_In, List.filter_In in Hin as [Hc Hr]. apply list_elem_of_In in Hc. rewrite Hp in Hc.
    by rewrite Hn in Hr.
  - assert (c0 ∈ List.filter (rank_is 1) cs) as Hin by (rewrite E0; set_solver).
    apply list_elem_of_In, List.filter_In in Hin as [_ Hr]. rewrite <-E0.
    assert (forall l, List.filter (rank_is 1) l = equals (cmp_clcf loc_fields) c0 l) as Heq.
    { intros l. apply List.filter_ext. intros c. unfold same_key, rank_is, cmp_clcf in *.
      apply Z.eqb_eq in Hr. apply eq_true_iff_eq. rewrite andb_true_iff, !Z.leb_le, Z.eqb_eq.
      by rewrite same_rank_one. }
    rewrite !Heq. apply insertion_sort_stable. apply cmp_clcf_trans.
Qed.

(** *** The reference, from the configuration *)

Section find_reference.
Variable regex_exec : Z -> list Z -> Z.

(** A block with the answer of the search in it. *)
Notation answered := (conf * (Z * loc_info))%type.

Definition answered_info (x : answered) : loc_info := conf_info (fst x).
Definition answered_rank (k : Z) (x : answered) : bool := rank (answered_info x) =? k.

(** The first pattern of the configuration that matches. *)
Fixpoint first_regex (uri : list Z) (rc : Z) (cur : loc_info) (l : list answered) : Z * loc_info :=
  match l with
  | [] => (rc, cur)
  | x :: l =>
      let n := regex_exec (default 0 (regex (answered_info x))) uri in
      if n =? NGX_OK then (if fst (snd x) =? NGX_ERROR then NGX_ERROR else NGX_OK, snd (snd x))
      else if n =? NGX_DECLINED then first_regex uri rc cur l
      else (NGX_ERROR, cur)
  end.

(** What the search in the block [i] answers, from the answers of the blocks
    in it.  Static locations inside a regular expression are not looked at. *)
Definition choose (uri : list Z) (i : loc_info) (inner : list answered) : Z * loc_info :=
  let '(rc, found) :=
    if is_regex i then (NGX_DECLINED, None)
    else best_location answered_info (List.filter (answered_rank 0) inner) uri in
  let '(rc, cur, noreg) :=
    match found with
    | Some x =>
        if rc =? NGX_AGAIN then (fst (snd x), snd (snd x), noregex (answered_info x))
        else (rc, answered_info x, false)
    | None => (rc, i, false)
    end in
  if (rc =? NGX_OK) || (rc =? NGX_DONE) || noreg then (rc, cur)
  else first_regex uri rc cur (List.filter (answered_rank 1) inner).

Fixpoint find_reference (uri : list Z) (c : conf) : Z * loc_info :=
  let 'Conf i blocks := c in choose uri i (map (fun b => (b, find_reference uri b)) blocks).

Fixpoint height (c : conf) : nat :=
  let 'Conf _ blocks := c in S (list_max (map height blocks)).

(** A configuration that was accepted: flags exclude each other, the names of
    static locations are names. *)
Inductive conf_ok : conf -> Prop :=
| conf_ok_intro i blocks :
    Forall (fun b => flags_ok (conf_info b) /\ (rank (conf_info b) = 0 -> name_ok (conf_info b))) blocks ->
    Forall conf_ok blocks -> conf_ok (Conf i blocks).

(** A location made ready for searches: a regular expression only has its
    queue split, the others have their trees. *)
Definition ready (c : conf) (l : loc) : Prop :=
  (is_regex (conf_info c) = true /\ initialised c l) \/
  (is_regex (conf_info c) = false /\ exists server l0 nm,
     ngx_http_init_locations server c = Some (l0, nm) /\ ngx_http_init_static_location_trees l0 = Some l).

(** The search in [l] gives [r]. *)
Definition gives (fuel : nat) (uri : list Z) (l : loc) (r : Z * loc_info) : Prop :=
  exists l', ngx_http_core_find_location regex_exec fuel uri l = Some (fst r, l') /\ loc_fields l' = snd r.

(** What links a block, with its answer, to its location. *)
Definition linked (n : nat) (uri : list Z) (x : answered) (l : loc) : Prop :=
  loc_fields l = answered_info x /\ gives n uri l (snd x).

Lemma first_regex_spec n uri inner R rc cur c :
  Forall2 (linked n uri) inner R -> Forall (fun l => rank_is 1 l = true) R -> loc_fields c = cur ->
  exists l', test_regexs regex_exec (ngx_http_core_find_location regex_exec n uri) uri rc c R =
    Some (fst (first_regex uri rc cur inner), l') /\ loc_fields l' = snd (first_regex uri rc cur inner).
Proof.
  intros H HR Hc. induction H as [|x l inner R [Hi (l' & Hl & Hl')] _ IH]; [by exists c|].
  inversion HR as [|? ? Hr HR']; subst. cbn [test_regexs first_regex]. rewrite <-Hi.
  destruct (regex (loc_fields l)) as [re|] eqn:Er.
  2: { unfold rank_is, rank, is_regex in Hr. rewrite Er in Hr. cbn in Hr. case_ifs_in Hr; lia. }
  cbn [default id]. destruct (regex_exec re uri =? NGX_OK); [|destruct (regex_exec re uri =? NGX_DECLINED); [by apply IH|by exists c]].
  rewrite Hl. cbn [mbind option_bind]. exists l'. split; [|done]. cbn [fst]. by destruct (fst (snd x) =? NGX_ERROR) eqn:Ee;
    [apply Z.eqb_eq in Ee; rewrite Ee|].
Qed.

Lemma option_Forall2_default {A B} (R : A -> B -> Prop) o o' a b :
  option_Forall2 R o o' -> R a b -> R (default a o) (default b o').
Proof. by intros []. Qed.

(** One level of the search, from the answers one level below. *)
Lemma find_level n uri i l inner R found : loc_fields l = i ->
  regex_locations l = regex_array R -> Forall (fun l => rank_is 1 l = true) R ->
  Forall2 (linked n uri) (List.filter (answered_rank 1) inner) R ->
  let best := if is_regex i then (NGX_DECLINED, None)
              else best_location answered_info (List.filter (answered_rank 0) inner) uri in
  ngx_http_core_find_static_location uri NGX_DECLINED None (static_locations l) = Some (fst best, found) ->
  (fst best = NGX_AGAIN -> snd best <> None) -> option_Forall2 (linked n uri) (snd best) found ->
  gives (S n) uri l (choose uri i inner).
Proof.
  intros Hi Hrx HR HR2 best Hfind Hagain Hfound. unfold gives. cbn [ngx_http_core_find_location].
  rewrite Hfind. cbn [mbind option_bind]. unfold choose. fold best. destruct best as [rc fd]. cbn [fst snd] in *.
  assert (forall rc cur c noreg, loc_fields c = cur -> exists l',
    (if (rc =? NGX_OK) || (rc =? NGX_DONE) then Some (rc, c)
     else match regex_locations l with
          | Some clcfp => if negb noreg then test_regexs regex_exec (ngx_http_core_find_location regex_exec n uri) uri rc c clcfp
                          else Some (rc, c)
          | None => Some (rc, c)
          end) =
    Some (fst (if (rc =? NGX_OK) || (rc =? NGX_DONE) || noreg then (rc, cur)
               else first_regex uri rc cur (List.filter (answered_rank 1) inner)), l') /\
    loc_fields l' = snd (if (rc =? NGX_OK) || (rc =? NGX_DONE) || noreg then (rc, cur)
               else first_regex uri rc cur (List.filter (answered_rank 1) inner))) as Hrest.
  { intros rc' cur c noreg Hc. destruct (_ || (rc' =? NGX_DONE)); cbn [orb]; [by exists c|].
    rewrite Hrx. destruct R as [|r0 R0] eqn:ER.
    { inversion HR2. cbn. exists c. by destruct noreg. }
    rewrite <-ER in *. cbn [regex_array]. replace (regex_array R) with (Some R) by (by rewrite ER).
    destruct noreg; [by exists c|]. cbn [negb]. by apply first_regex_spec. }
  destruct Hfound as [x l1 [Hx (l2 & Hl2 & Hl2')]|].
  - cbn [default id]. destruct (rc =? NGX_AGAIN).
    + rewrite Hl2. cbn [mbind option_bind]. rewrite <-Hx. by apply Hrest.
    + cbn [mbind option_bind]. by apply Hrest.
  - cbn [default id]. destruct (rc =? NGX_AGAIN) eqn:Ea; [|cbn [mbind option_bind]; by apply Hrest].
    by destruct (Hagain ltac:(by apply Z.eqb_eq in Ea)).
Qed.

Lemma Forall2_filter {A B} (R : A -> B -> Prop) (p : A -> bool) (q : B -> bool) l l' :
  (forall x y, R x y -> p x = q y) -> Forall2 R l l' ->
  Forall2 (fun x y => R x y /\ q y = true) (List.filter p l) (List.filter q l').
Proof.
  intros Hpq. induction 1 as [|x y l l' Hxy _ IH]; cbn; [constructor|].
  rewrite (Hpq _ _ Hxy). destruct (q y) eqn:E; [by constructor|done].
Qed.

Lemma filter_perm {A} (p : A -> bool) l l' : l ≡ₚ l' -> List.filter p l ≡ₚ List.filter p l'.
Proof.
  induction 1 as [|x l l' _ IH|x y l|l l' l'' _ IH _ IH']; cbn; [done|by destruct (p x); rewrite IH| |by rewrite IH].
  destruct (p x), (p y); try done. apply Permutation_swap.
Qed.

Lemma best_found {L} (info : L -> loc_info) locs s :
  fst (best_location info locs s) = NGX_AGAIN -> snd (best_location info locs s) <> None.
Proof. unfold best_location. repeat case_match; done. Qed.

Lemma best_nil {L} (info : L -> loc_info) s : best_location info [] s = (NGX_DECLINED, None).
Proof.
  unfold best_location. cbn. assert (forall n, longest_prefix info [] s n = None) as ->; [|done].
  intros n. induction n as [|n IH]; [done|]. cbn. done.
Qed.

(** The tree over the static blocks [inner0] finds the best of them. *)
Lemma find_trees n uri (inner0 : list answered) S S' t : Forall is_byte uri ->
  S <> [] -> Forall (fun c => rank_is 0 c = true /\ name_ok (loc_fields c)) S ->
  StronglySorted (before (cmp_clcf loc_fields)) S ->
  (exists P, inner0 ≡ₚ P /\ Forall2 (fun x s => loc_fields s = answered_info x /\
      forall s', ngx_http_init_static_location_trees s = Some s' -> linked n uri x s') P S) ->
  Forall2 (fun s s' => ngx_http_init_static_location_trees s = Some s' /\ loc_fields s' = loc_fields s) S S' ->
  make_static_tree loc_fields (to_queue S') = Some t ->
  exists found, ngx_http_core_find_static_location uri NGX_DECLINED None t =
    Some (fst (best_location answered_info inner0 uri), found) /\
    option_Forall2 (linked n uri) (snd (best_location answered_info inner0 uri)) found.
Proof.
  intros Hu Hne HS Hsort (P & Hp & HP) HSS' Ht.
  assert (Forall2 (fun x s' => linked n uri x s' /\ loc_fields s' = answered_info x) P S') as HPS'.
  { clear - HP HSS'. revert S' HSS'. induction HP as [|x s P S [Hi Hx] _ IH]; intros S' H;
      inversion H as [|? s' ? S'' [Hs Hf] Hr]; subst; constructor.
    - split; [by apply Hx|by rewrite Hf].
    - by apply IH. }
  assert (Forall (static_ok loc_fields) S' /\ StronglySorted (before (cmp_clcf loc_fields)) S') as [HS' Hsort'].
  { clear - HS Hsort HSS'. split.
    - induction HSS' as [|s s' S S' [_ Hf] _ IH]; [constructor|]. inversion HS as [|? ? [Hr Hn] HS0]; subst.
      constructor; [|apply IH; [done|by inversion Hsort]]. unfold static_ok, rank_is in *. rewrite Hf. split; [lia|done].
    - induction HSS' as [|s s' S S' [_ Hf] HSS IH]; [constructor|]. inversion HS; subst.
      apply StronglySorted_inv in Hsort as [Hs Hx]. constructor; [by apply IH|].
      clear - Hf HSS Hx. induction HSS as [|y y' S S' [_ Hfy] _ IH]; [constructor|]. inversion Hx; subst.
      constructor; [|by apply IH]. unfold before, cmp_clcf in *. by rewrite Hf, Hfy. }
  pose proof (tree_of_sorted loc_fields S') as HT. rewrite Ht in HT.
  destruct HT as [HN HT]; [intros ->; inversion HSS'; by subst|done|done|].
  exists (snd (best_location loc_fields S' uri)).
  destruct (best_related answered_info loc_fields (linked n uri) (fun x y H => eq_sym (proj1 H)) P S' uri) as [B1 B2].
  { eapply Forall2_impl; [exact HPS'|]. by intros x y []. }
  assert (NoDup (map (kind_name answered_info) inner0)) as HNi.
  { assert (map (kind_name answered_info) inner0 ≡ₚ map (kind_name answered_info) P) as -> by (by apply Permutation_map).
    assert (map (kind_name answered_info) P = map (kind_name loc_fields) S') as ->; [|done].
    clear - HPS'. induction HPS' as [|x s' P S' [_ Hf] _ IH]; [done|]. cbn. unfold kind_name at 1 3. by rewrite Hf, IH. }
  rewrite (best_perm answered_info inner0 P uri Hp HNi), B1. split; [|done].
  rewrite (HT S' uri) by done. f_equal. apply surjective_pairing.
Qed.

(** A block and its location before the trees are made. *)
Definition prepared (n : nat) (uri : list Z) (x : answered) (c : loc) : Prop :=
  loc_fields c = answered_info x /\ initialised (fst x) c /\ snd x = find_reference uri (fst x) /\
  conf_ok (fst x) /\ (height (fst x) <= n)%nat /\
  (rank (answered_info x) = 0 -> name_ok (answered_info x)).

Lemma inner_prepared n uri i blocks cs : conf_ok (Conf i blocks) -> (height (Conf i blocks) <= S n)%nat ->
  Forall2 (fun b c => initialised b c /\ loc_fields c = conf_info b) blocks cs ->
  Forall2 (prepared n uri) (map (fun b => (b, find_reference uri b)) blocks) cs.
Proof.
  intros Hok Hh H2. inversion Hok as [? ? Hb Hr]; subst. cbn [height] in Hh.
  assert (Forall (fun b => height b <= n)%nat blocks) as Hn.
  { apply le_S_n, list_max_le in Hh. by rewrite Forall_map in Hh. }
  clear - Hb Hr Hn H2. induction H2 as [|b c blocks cs [Hi Hf] _ IH]; [constructor|].
  inversion Hb as [|? ? [_ Hname] Hb']; inversion Hr; inversion Hn; subst. cbn [map].
  constructor; [by split_and!|by apply IH].
Qed.

Lemma prepared_rank n uri k x c : prepared n uri x c -> answered_rank k x = rank_is k c.
Proof. intros [H _]. unfold answered_rank, rank_is. by rewrite H. Qed.

Lemma find_ready uri n : Forall is_byte uri -> forall c l, (height c <= n)%nat -> conf_ok c -> ready c l ->
  gives n uri l (find_reference uri c).
Proof.
  intros Hu. induction n as [|n IH]; intros [i blocks] l Hh Hok Hready; [cbn in Hh; lia|].
  assert (exists server l0 nm, ngx_http_init_locations server (Conf i blocks) = Some (l0, nm) /\
    ((is_regex i = true /\ l = l0) \/ (is_regex i = false /\ ngx_http_init_static_location_trees l0 = Some l)))
    as (server & l0 & nm & Hinit & Hl).
  { destruct Hready as [[Hr [nm Hn]]|[Hr (server & l0 & nm & H1 & H2)]].
    - exists false, l, nm. split; [done|]. by left.
    - exists server, l0, nm. split; [done|]. by right. }
  assert (Forall (fun b => flags_ok (conf_info b)) blocks) as Hflags.
  { inversion Hok as [? ? Hb _]; subst. eapply Forall_impl; [exact Hb|]. by intros b []. }
  destruct (init_blocks server i blocks l0 nm Hflags Hinit) as (cs & lo & H2 & Hl0 & Hlo).
  pose proof (inner_prepared n uri i blocks cs Hok Hh H2) as Hprep. cbn [find_reference].
  set (inner := map (fun b => (b, find_reference uri b)) blocks) in *.
  set (R := List.filter (rank_is 1) (sorted_locations cs)) in *.
  assert (Forall2 (linked n uri) (List.filter (answered_rank 1) inner) R) as HR.
  { unfold R. rewrite regexs_in_order.
    eapply Forall2_impl; [apply (Forall2_filter (prepared n uri) _ _ _ _ (prepared_rank n uri 1) Hprep)|].
    intros x c [(Hf & Hi & Hx & Hok' & Hh' & _) Hr]. split; [done|]. rewrite Hx. apply IH; [done|done|].
    left. split; [|done]. apply rank_one_regex. unfold rank_is in Hr. rewrite Hf in Hr.
    unfold answered_info in Hr. lia. }
  assert (Forall (fun c => rank_is 1 c = true) R) as HR1.
  { apply Forall_forall. intros c Hc. apply list_elem_of_In, List.filter_In in Hc. tauto. }
  destruct Hl as [[Hreg ->]|[Hreg Htree]].
  { subst l0. apply (find_level n uri i _ inner R None); try done; rewrite Hreg; [done|done|constructor]. }
  assert (forall l, static_locations l = Null -> regex_locations l = regex_array R -> loc_fields l = i ->
    List.filter (answered_rank 0) inner = [] -> gives (S n) uri l (choose uri i inner)) as Hempty.
  { intros l' Hs Hrx Hf Hnone. apply (find_level n uri i _ inner R None); try done; rewrite Hreg, Hnone, best_nil;
      [by rewrite Hs|done|constructor]. }
  set (S0 := List.filter (rank_is 0) (sorted_locations cs)) in *.
  pose proof (Forall2_filter (prepared n uri) _ _ _ _ (prepared_rank n uri 0) Hprep) as Hstat.
  assert (S0 ≡ₚ List.filter (rank_is 0) cs) as HSp.
  { unfold S0. apply filter_perm. apply insertion_sort_perm. }
  assert (exists P, List.filter (answered_rank 0) inner ≡ₚ P /\
    Forall2 (fun x s => prepared n uri x s /\ rank_is 0 s = true) P S0) as (P & HPp & HP).
  { apply Forall2_flip in Hstat. destruct (Permutation_Forall2 (symmetry HSp) Hstat) as (P & HP1 & HP2).
    exists P. split; [done|]. by apply Forall2_flip in HP2. }
  destruct blocks as [|b0 bs] eqn:Eb.
  { subst lo l0. cbn in Htree. injection Htree as <-. by apply Hempty. }
  rewrite <-Eb in *. clear Eb. subst lo l0.
  destruct (init_trees i S0 (regex_array R) l) as [(HS & Hs & Hrx & Hf)|(HSne & S' & t & HSS' & Ht & ->)]; [|done| |].
  { apply Forall_forall. intros c Hc. apply list_elem_of_In, List.filter_In in Hc. tauto. }
  { apply Hempty; try done. rewrite HS in HP. apply Forall2_nil_inv_r in HP. rewrite HP in HPp.
    by apply Permutation_nil_r in HPp. }
  destruct (find_trees n uri (List.filter (answered_rank 0) inner) S0 S' t) as (found & Hfind & Hfound);
    try done.
  { apply Forall_forall. intros s Hs. apply list_elem_of_lookup in Hs as [k Hk].
    destruct (Forall2_lookup_r _ _ _ _ _ HP Hk) as (x & _ & (Hf & _ & _ & _ & _ & Hn) & Hr).
    split; [done|]. rewrite Hf. apply Hn. rewrite <-Hf. unfold rank_is in Hr. lia. }
  { apply filter_sorted, insertion_sort_sorted; [apply cmp_clcf_total|apply cmp_clcf_trans]. }
  { exists P. split; [done|]. eapply Forall2_impl; [exact HP|].
    intros x s [(Hf & [nms Hi] & Hx & Hok' & Hh' & _) Hr]. split; [done|]. intros s' Hs'. split.
    - by rewrite (trees_fields _ _ Hs').
    - rewrite Hx. apply IH; [done|done|]. right. split; [|by exists false, s, nms].
      apply rank_zero_regex. unfold rank_is in Hr. rewrite Hf in Hr. unfold answered_info in Hr. lia. }
  apply (find_level n uri i _ inner R found); try done; rewrite Hreg; [done|apply best_found|done].
Qed.
End find_reference.

(** C5: for a server of any nesting of exact, prefix, regular expression and
    named locations whose configuration is made ready, in which the kinds of a
    location exclude each other and the names of static locations are strings of
    at most 255 bytes without NUL (that of a redirect ends with a slash), the
    search for the location of a URI returns, within a depth that the nesting
    bounds, and computes the reference of the configuration.  At the level of the server and inside a static location, the
    best static location ends the search if it is exact or a redirect; otherwise
    the search goes on inside it; then, unless it forbids them or the search
    inside ended it, the regular expressions of the level are tried in the order
    of the configuration, and the search goes on inside the first that matches.
    Inside a regular expression only the regular expressions are tried: the
    static locations written there are never found, in the code and in the
    reference. *)
Theorem find_location_reference (regex_exec : Z -> list Z -> Z) (server : conf) l nm c uri fuel :
  conf_ok server -> is_regex (conf_info server) = false -> Forall is_byte uri -> (height server <= fuel)%nat ->
  ngx_http_init_locations true server = Some (l, nm) -> ngx_http_init_static_location_trees l = Some c ->
  exists found, ngx_http_core_find_location regex_exec fuel uri c =
    Some (fst (find_reference regex_exec uri server), found) /\
    loc_fields found = snd (find_reference regex_exec uri server).
Proof.
  intros Hok Hr Hu Hf Hi Ht. apply (find_ready regex_exec uri fuel Hu server c Hf Hok).
  right. split; [done|]. by exists true, l, nm.
Qed.

Lemma static_location_best_witness :
  let S := [prefix_block "/a/b" []; prefix_block "/" []; exact_block "/a"; prefix_block "/a" []] in
  Forall (static_ok conf_info) S /\
  match make_static_tree conf_info
          (insertion_sort (ngx_http_cmp_locations conf_info) (map (ngx_http_add_location conf_info) S)) with
  | Some t => NoDup (map (kind_name conf_info) S) /\
      forall uri, Forall is_byte uri ->
      ngx_http_core_find_static_location uri NGX_DECLINED None t = Some (best_location conf_info S uri)
  | None => ~ NoDup (map (kind_name conf_info) S)
  end.
Proof.
  intros S. assert (Forall (static_ok conf_info) S) as H.
  { repeat constructor; cbn; try lia; try done; unfold is_byte; lia. }
  split; [exact H|]. apply (static_location_best conf_info S); [discriminate|exact H].
Defined.

Lemma sample_server_ok : conf_ok sample_server.
Proof.
  unfold sample_server, server_block, prefix_block, exact_block, noregex_block, regex_block.
  repeat constructor; cbn; try lia; try done; unfold is_byte; lia.
Qed.

Lemma find_location_reference_witness :
  exists l nm c, ngx_http_init_locations true sample_server = Some (l, nm) /\
    ngx_http_init_static_location_trees l = Some c /\
    exists found, ngx_http_core_find_location sample_regex 9 (bytes "/a/x.txt") c =
      Some (fst (find_reference sample_regex (bytes "/a/x.txt") sample_server), found) /\
      loc_fields found = snd (find_reference sample_regex (bytes "/a/x.txt") sample_server).
Proof.
  destruct (ngx_http_init_locations true sample_server) as [[l nm]|] eqn:E1; [|by vm_compute in E1].
  destruct (ngx_http_init_static_location_trees l) as [c|] eqn:E2.
  - exists l, nm, c. split; [done|]. split; [exact E2|].
    apply (find_location_reference sample_regex sample_server l nm c);
      [apply sample_server_ok|done|by apply bytes_ok_spec|cbn; lia|exact E1|exact E2].
  - exfalso. vm_compute in E1. injection E1 as <- <-. by vm_compute in E2.
Defined.

(** ** What the model shows beside *)

(** A name of 256 characters has a node of length zero, which every URI matches. *)
Example long_name_matches_all :
  let long := Conf (mk_loc_info (#"/" :: repeat #"a" 255) false None false false false false) [] in
  match make_static_tree conf_info [ngx_http_add_location conf_info long] with
  | Some t => ngx_http_core_find_static_location (bytes "/b") NGX_DECLINED None t = Some (NGX_AGAIN, Some long)
  | None => False
  end.
Proof. vm_compute. reflexivity. Qed.

(** A static location inside a regular expression is accepted and never found. *)
Example static_in_regex_lost :
  locate (fun _ _ => NGX_OK) (server_block [regex_block "/r" 1 [exact_block "/r/x"]]) "/r/x" =
  Some (NGX_OK, bytes "/r").
Proof. vm_compute. reflexivity. Qed.

(** An error of a nested regular expression is forgotten when an outer one matches. *)
Example nested_error_lost :
  locate (fun re _ => if re =? 2 then NGX_ERROR else NGX_OK)
    (server_block [regex_block "x" 1 []; prefix_block "/" [regex_block "y" 2 []]]) "/" =
  Some (NGX_OK, bytes "x").
Proof. vm_compute. reflexivity. Qed.

(** ** What the directive lets into the configuration *)

Lemma fcmp_prefix a b : Forall c_char b -> fcmp (a ++ [0]) (b ++ [0]) (length b) = 0 -> b `prefix_of` a.
Proof.
  intros Hb. revert a. unfold fcmp. induction Hb as [|y b [Hy Hy0] _ IH]; intros a H; [apply prefix_nil|].
  destruct a as [|x a]; cbn [app length ngx_filename_cmp] in H.
  - assert ((0 =? y) = false) as E by lia. rewrite E in H. cbn in H. lia.
  - destruct (x =? y) eqn:E.
    + assert (x = y) as -> by lia. assert ((y =? 0) = false) as E0 by lia. rewrite E0 in H. cbn [negb] in H.
      apply prefix_cons. by apply IH.
    + unfold slash_char, is_byte in *. case_ifs_in H; cbn in H; lia.
Qed.

Lemma arguments_well_formed compile args i : Forall (Forall c_char) args ->
  location_arguments compile args = Some i ->
  flags_ok i /\ noname i = false /\ (exact_match i = true -> rank i = 0) /\ Forall c_char (name i).
Proof.
  intros Ha H. assert (forall re b, Forall c_char re -> ngx_http_core_regex_location compile re b = Some i ->
    flags_ok i /\ noname i = false /\ (exact_match i = true -> rank i = 0) /\ Forall c_char (name i)) as Hre.
  { intros re b Hc Hi. unfold ngx_http_core_regex_location in Hi. destruct (compile re b); [|done].
    injection Hi as <-. by repeat split. }
  destruct args as [|nm [|nm2 [|nm3 args]]]; cbn [location_arguments] in H; [done|..].
  all: inversion Ha as [|? ? H1 Ha']; subst.
  all: try (inversion Ha' as [|? ? H2 _]; subst).
  all: case_ifs_in H; try done; try (by eapply Hre; [|exact H]; try done; apply Forall_drop).
  all: try (injection H as <-; repeat split; try done; cbn; try (by apply Forall_drop); unfold flags_ok; cbn; lia).
Qed.

(** C33: a location that the directive accepts is exact, a regular expression,
    named or a plain prefix, and only one of these; inside another location it
    is not named, is in no exact or named one, and, unless it is a regular
    expression, its name extends the name of the location around it. *)
Theorem location_well_formed compile args parent i :
  Forall (Forall c_char) args -> ngx_http_core_location compile args parent = Some i ->
  flags_ok i /\ noname i = false /\ (exact_match i = true -> rank i = 0) /\ Forall c_char (name i) /\
  match parent with
  | None => True
  | Some p => exact_match p = false /\ named p = false /\ named i = false /\
      (Forall c_char (name p) -> is_regex i = false -> name p `prefix_of` name i)
  end.
Proof.
  intros Ha H. unfold ngx_http_core_location in H.
  destruct (location_arguments compile args) as [c|] eqn:E; [|done].
  pose proof (arguments_well_formed _ _ _ Ha E) as (H1 & H2 & H3 & H4).
  destruct parent as [p|]; [|by injection H as <-].
  destruct (exact_match p), (named p), (named c) eqn:En; try done.
  destruct (_ && _) eqn:Et; [done|]. injection H as <-. do 4 (split; [done|]). do 3 (split; [done|]).
  intros Hp Hr. unfold is_regex in Hr. rewrite Hr in Et. cbn [negb andb] in Et.
  apply fcmp_prefix; [done|]. by apply negb_false_iff, Z.eqb_eq in Et.
Qed.

Lemma location_well_formed_witness :
  let i := mk_loc_info (bytes "/a/b") false None false false true false in
  let p := plain_location (bytes "/a") in
  ngx_http_core_location (fun _ _ => None) [bytes "^~"; bytes "/a/b"] (Some p) = Some i /\
  flags_ok i /\ noname i = false /\ (exact_match i = true -> rank i = 0) /\ Forall c_char (name i) /\
  exact_match p = false /\ named p = false /\ named i = false /\
  (Forall c_char (name p) -> is_regex i = false -> name p `prefix_of` name i).
Proof.
  intros i p. assert (ngx_http_core_location (fun _ _ => None) [bytes "^~"; bytes "/a/b"] (Some p) = Some i) as H
    by reflexivity.
  split; [exact H|]. apply (location_well_formed (fun _ _ => None) [bytes "^~"; bytes "/a/b"] (Some p) i); [|exact H].
  repeat constructor; try done; unfold is_byte; lia.
Defined.
