(* ===== verification/Times.v ===== *)
(** * Calendar times

    [ngx_gmtime], [ngx_http_time], [ngx_http_cookie_time]
    ([src/core/ngx_times.c]) and [ngx_parse_http_time]
    ([src/core/ngx_parse_time.c]).

    A [time_t] is a 64-bit number of seconds.  The reference is the calendar
    itself: years and months are counted one by one ([date_seconds]); the source
    uses closed formulas.  An access outside the parsed value is the outcome
    [Oob]. *)

From S2P Require Import Prelude Sprintf.

(** ** ngx_gmtime *)

(** [ngx_tm_t] is [struct tm]. *)
Record ngx_tm : Type := mk_tm {
  ngx_tm_sec : Z; ngx_tm_min : Z; ngx_tm_hour : Z; ngx_tm_mday : Z;
  ngx_tm_mon : Z; ngx_tm_year : Z; ngx_tm_wday : Z;
  ngx_tm_gmtoff : Z
}.

(** The year that starts on March 1 and the day in it, from the days since
    March 1, 1 BC. *)
Definition gauss_year (days : Z) : Z * Z :=
  let year := u64 ((days + 2) * 400) / (365 * 400 + 100 - 4 + 1) in
  let yday := i64 (days - (365 * year + year / 4 - year / 100 + year / 400)) in
  if yday <? 0 then
    let leap := if (year mod 4 =? 0) && (negb (year mod 100 =? 0) || (year mod 400 =? 0))
                then 1 else 0 in
    (u64 (year - 1), i64 (365 + leap + yday))
  else (year, yday).

Definition ngx_gmtime (t : Z) (tp : ngx_tm) : ngx_tm :=
  let n := u64 t in
  let days := n / 86400 in
  let wday := u64 (4 + days) mod 7 in
  let n := n mod 86400 in
  let hour := n / 3600 in
  let n := n mod 3600 in
  let min := n / 60 in
  let sec := n mod 60 in
  let days := u64 (days - (31 + 28) + 719527) in
  let (year, yday) := gauss_year days in
  let mon := u64 (Z.quot ((yday + 31) * 10) 306) in
  let mday := u64 (yday - (u64 (367 * mon) / 12 - 30) + 1) in
  let (year, mon) :=
    if 306 <=? yday then (u64 (year + 1), u64 (mon - 10)) else (year, u64 (mon + 2)) in
  mk_tm (i32 sec) (i32 min) (i32 hour) (i32 mday) (i32 mon) (i32 year) (i32 wday)
    (ngx_tm_gmtoff tp).

(** ** Formatting *)

Definition week : list string := ["Sun"; "Mon"; "Tue"; "Wed"; "Thu"; "Fri"; "Sat"]%string.
Definition months : list string :=
  ["Jan"; "Feb"; "Mar"; "Apr"; "May"; "Jun"; "Jul"; "Aug"; "Sep"; "Oct"; "Nov"; "Dec"]%string.

(** [names[i]]: [None] is an index outside the array. *)
Definition name_of (names : list string) (i : Z) : option (list Z) :=
  if i <? 0 then None else bytes <$> names !! Z.to_nat i.

(** The text that [ngx_sprintf] puts at [buf]. *)
Definition http_format (buf : Z) (tm : ngx_tm) : option (list Z) :=
  w ← name_of week (ngx_tm_wday tm);
  m ← name_of months (ngx_tm_mon tm - 1);
  sprintf_at buf "%s, %02d %s %4d %02d:%02d:%02d GMT"
    [VStr w; VNum (ngx_tm_mday tm); VStr m; VNum (ngx_tm_year tm);
     VNum (ngx_tm_hour tm); VNum (ngx_tm_min tm); VNum (ngx_tm_sec tm)].

(** The [ngx_tm_t] on the stack is not initialised; [ngx_gmtime] sets the
    fields that are printed. *)
Definition ngx_http_time (buf : Z) (tm : ngx_tm) (t : Z) : option (list Z) :=
  http_format buf (ngx_gmtime t tm).

Definition cookie_format (buf : Z) (tm : ngx_tm) : option (list Z) :=
  w ← name_of week (ngx_tm_wday tm);
  m ← name_of months (ngx_tm_mon tm - 1);
  sprintf_at buf
    (if 2037 <? ngx_tm_year tm then "%s, %02d-%s-%d %02d:%02d:%02d GMT"
     else "%s, %02d-%s-%02d %02d:%02d:%02d GMT")
    [VStr w; VNum (ngx_tm_mday tm); VStr m;
     VNum (if 2037 <? ngx_tm_year tm then ngx_tm_year tm else Z.rem (ngx_tm_year tm) 100);
     VNum (ngx_tm_hour tm); VNum (ngx_tm_min tm); VNum (ngx_tm_sec tm)].

Definition ngx_http_cookie_time (buf : Z) (tm : ngx_tm) (t : Z) : option (list Z) :=
  cookie_format buf (ngx_gmtime t tm).

(** ** ngx_parse_http_time *)

(** What a piece of the parser does: read outside the value, return from the
    function, or go on. *)
Inductive outcome (A : Type) : Type :=
| Oob
| Return (v : Z)
| Go (x : A).

Arguments Oob {A}.
Arguments Return {A} v.
Arguments Go {A} x.

Definition andthen {A B} (c : outcome A) (k : A -> outcome B) : outcome B :=
  match c with Oob => Oob | Return v => Return v | Go x => k x end.

Notation "'let*' x ':=' c 'in' k" := (andthen c (fun x => k))
  (at level 200, x pattern, c at level 100, k at level 200) : nginx_scope.

(** [p[i]]; the pointer [p] is the list of the bytes from it to [end], so that
    [end - p] is its length. *)
Definition get (p : list Z) (i : nat) : outcome Z :=
  match p !! i with Some c => Go c | None => Oob end.

(** [if (p[i] < '0' || p[i] > '9') { return NGX_ERROR; }] *)
Definition digit (p : list Z) (i : nat) : outcome Z :=
  let* c := get p i in
  if (c <? #"0") || (#"9" <? c) then Return NGX_ERROR else Go c.

(** [if ( *p++ != c) { return NGX_ERROR; }] *)
Definition expect (p : list Z) (c : Z) : outcome (list Z) :=
  let* b := get p 0 in
  if negb (b =? c) then Return NGX_ERROR else Go (drop 1 p).

(** Two and four digits, each tested before the next is read. *)
Definition two_digits (p : list Z) : outcome Z :=
  let* a := digit p 0 in
  let* b := digit p 1 in
  Go ((a - #"0") * 10 + b - #"0").

Definition four_digits (p : list Z) : outcome Z :=
  let* a := digit p 0 in
  let* b := digit p 1 in
  let* c := digit p 2 in
  let* d := digit p 3 in
  Go ((a - #"0") * 1000 + (b - #"0") * 100 + (c - #"0") * 10 + d - #"0").

Inductive time_fmt := fmt_no | rfc822 | rfc850 | isoc.

#[global] Instance time_fmt_eq_dec : EqDecision time_fmt.
Proof. solve_decision. Defined.

(** [for (p = value; p < end; p++)]: up to the first comma or space. *)
Fixpoint find_sep (p : list Z) : time_fmt * list Z :=
  match p with
  | [] => (fmt_no, p)
  | c :: p' =>
      if c =? #"," then (fmt_no, p)
      else if c =? #" " then (isoc, p)
      else find_sep p'
  end.

(** [for (p++; p < end; p++) if ( *p != ' ') { break; }], after [p++]; if that
    went past [end], the test that follows returns as it does at [end]. *)
Fixpoint skip_spaces (p : list Z) : list Z :=
  match p with
  | [] => p
  | c :: p' => if negb (c =? #" ") then p else skip_spaces p'
  end.

(** The day of the first two formats, which it tells apart. *)
Definition leading_day (fmt : time_fmt) (p : list Z) : outcome (time_fmt * Z * list Z) :=
  if decide (fmt = isoc) then Go (fmt, 0, p)
  else
    let* day := two_digits p in
    let p := drop 2 p in
    let* c := get p 0 in
    if c =? #" " then
      if (length p <? 18)%nat then Return NGX_ERROR else Go (rfc822, day, drop 1 p)
    else if c =? #"-" then Go (rfc850, day, drop 1 p)
    else Return NGX_ERROR.

(** [switch ( *p)] over the initial of the month, counted from 0. *)
Definition parse_month (p : list Z) : outcome Z :=
  let* c := get p 0 in
  if c =? #"J" then
    let* c1 := get p 1 in
    if c1 =? #"a" then Go 0
    else let* c2 := get p 2 in Go (if c2 =? #"n" then 5 else 6)
  else if c =? #"F" then Go 1
  else if c =? #"M" then let* c2 := get p 2 in Go (if c2 =? #"r" then 2 else 4)
  else if c =? #"A" then let* c1 := get p 1 in Go (if c1 =? #"p" then 3 else 7)
  else if c =? #"S" then Go 8
  else if c =? #"O" then Go 9
  else if c =? #"N" then Go 10
  else if c =? #"D" then Go 11
  else Return NGX_ERROR.

(** The separator after the month and the year of the first two formats;
    [p] is after [p += 3]. *)
Definition parse_year (fmt : time_fmt) (p : list Z) : outcome (Z * list Z) :=
  let* p :=
    match fmt with
    | rfc822 => expect p #" "
    | rfc850 => expect p #"-"
    | _ => Go (drop 1 p)
    end in
  match fmt with
  | rfc822 => let* year := four_digits p in Go (year, drop 4 p)
  | rfc850 =>
      let* year := two_digits p in
      Go (year + (if year <? 70 then 2000 else 1900), drop 2 p)
  | _ => Go (0, p)
  end.

(** The day of the third format. *)
Definition isoc_day (fmt : time_fmt) (day : Z) (p : list Z) : outcome (Z * list Z) :=
  if decide (fmt = isoc) then
    let* c := get p 0 in
    let p := if c =? #" " then drop 1 p else p in
    let* c := digit p 0 in
    let day := c - #"0" in
    let p := drop 1 p in
    let* c := get p 0 in
    let* (day, p) :=
      if negb (c =? #" ") then let* c := digit p 0 in Go (day * 10 + c - #"0", drop 1 p)
      else Go (day, p) in
    if (length p <? 14)%nat then Return NGX_ERROR else Go (day, p)
  else Go (day, p).

(** The time of day and the year of the third format. *)
Definition parse_clock (fmt : time_fmt) (year : Z) (p : list Z) : outcome (Z * Z * Z * Z) :=
  let* p := expect p #" " in
  let* hour := two_digits p in
  let* p := expect (drop 2 p) #":" in
  let* min := two_digits p in
  let* p := expect (drop 2 p) #":" in
  let* sec := two_digits p in
  if decide (fmt = isoc) then
    let* p := expect (drop 2 p) #" " in
    let* year := four_digits p in
    Go (hour, min, sec, year)
  else Go (hour, min, sec, year).

(** The fields as they are read. *)
Record fields : Type := mk_fields {
  f_year : Z; f_month : Z; f_day : Z; f_hour : Z; f_min : Z; f_sec : Z
}.

Definition parse_fields (value : list Z) : outcome fields :=
  let (fmt, p) := find_sep value in
  let p := skip_spaces (drop 1 p) in
  if (length p <? 18)%nat then Return NGX_ERROR
  else
    let* (fmt, day, p) := leading_day fmt p in
    let* month := parse_month p in
    let* (year, p) := parse_year fmt (drop 3 p) in
    let* (day, p) := isoc_day fmt day p in
    let* (hour, min, sec, year) := parse_clock fmt year p in
    Go (mk_fields year month day hour min sec).

Definition mday : list Z := [31; 28; 31; 30; 31; 30; 31; 31; 30; 31; 30; 31].

(** [day > mday[month]], or February 29 in a year that is not leap *)
Definition bad_day (year month day : Z) : bool :=
  if (day =? 29) && (month =? 1) then
    negb (Z.land year 3 =? 0) || ((year mod 100 =? 0) && negb (year mod 400 =? 0))
  else nth (Z.to_nat month) mday 0 <? day.

(** The checks of the fields and Gauss' formula. *)
Definition fields_seconds (f : fields) : Z :=
  let (year, month, day, hour, min, sec) := f in
  if (23 <? hour) || (59 <? min) || (59 <? sec) then NGX_ERROR
  else if bad_day year month day then NGX_ERROR
  else
    let month := month - 1 in
    let (month, year) := if month <=? 0 then (month + 12, u64 (year - 1)) else (month, year) in
    let time :=
      u64 (u64 (u64 (365 * year) + year / 4 - year / 100 + year / 400
                + Z.quot (367 * month) 12 - 30
                + day - 1
                - 719527 + 31 + 28) * 86400 + hour * 3600 + min * 60 + sec) in
    i64 time.

(** [None]: a read outside [value, value + len). *)
Definition ngx_parse_http_time (value : list Z) : option Z :=
  match parse_fields value with
  | Oob => None
  | Return v => Some v
  | Go f => Some (fields_seconds f)
  end.

Definition some_tm : ngx_tm := mk_tm 0 0 0 0 0 0 0 0.

Example times_samples :
  ngx_http_time 0 some_tm 784111777 = Some (bytes "Sun, 06 Nov 1994 08:49:37 GMT") /\
  ngx_http_cookie_time 0 some_tm 784111777 = Some (bytes "Sun, 06-Nov-94 08:49:37 GMT") /\
  ngx_http_cookie_time 0 some_tm 2147483647 = Some (bytes "Tue, 19-Jan-2038 03:14:07 GMT") /\
  ngx_parse_http_time (bytes "Sun, 06 Nov 1994 08:49:37 GMT") = Some 784111777 /\
  ngx_parse_http_time (bytes "Sunday, 06-Nov-94 08:49:37 GMT") = Some 784111777 /\
  ngx_parse_http_time (bytes "Sun Nov  6 08:49:37 1994") = Some 784111777 /\
  ngx_parse_http_time (bytes "Thu, 29 Feb 2001 00:00:00 GMT") = Some NGX_ERROR /\
  ngx_parse_http_time (bytes "Tue, 29 Feb 2000 00:00:00 GMT") = Some 951782400 /\
  ngx_parse_http_time (bytes "Thu, 1 Jan 1970") = Some NGX_ERROR.
Proof. vm_compute. auto 10. Qed.

(** ** The calendar *)

#[local] Ltac Zify.zify_post_hook ::= Z.to_euclidean_division_equations.

Definition leap_year (y : Z) : bool :=
  (y mod 4 =? 0) && (negb (y mod 100 =? 0) || (y mod 400 =? 0)).

Definition year_days (y : Z) : Z := if leap_year y then 366 else 365.

Definition month_days (y m : Z) : Z :=
  if m =? 2 then (if leap_year y then 29 else 28)
  else if (m =? 4) || (m =? 6) || (m =? 9) || (m =? 11) then 30 else 31.

(** The days of the years from 1 up to [n], and those of the months of [y]
    before [m], one by one. *)
Fixpoint days_in_years (n : nat) : Z :=
  match n with O => 0 | S n' => days_in_years n' + year_days (Z.of_nat n) end.

Definition days_before_month (y m : Z) : Z :=
  foldr Z.add 0 (map (month_days y) (seqZ 1 (m - 1))).

(** Days since January 1, 1970, which was a Thursday. *)
Definition day_number (y m d : Z) : Z :=
  days_in_years (Z.to_nat (y - 1)) - days_in_years 1969 + days_before_month y m + (d - 1).

Definition date_seconds (y m d hour min sec : Z) : Z :=
  day_number y m d * 86400 + hour * 3600 + min * 60 + sec.

(** The numbers that the code takes for a date: it does not compare the day
    with zero. *)
Definition date_ok (y m d hour min sec : Z) : bool :=
  (1 <=? m) && (m <=? 12) && (d <=? month_days y m)
  && (hour <=? 23) && (min <=? 59) && (sec <=? 59).

Example calendar_samples :
  date_seconds 1970 1 1 0 0 0 = 0 /\ date_seconds 1994 11 6 8 49 37 = 784111777 /\
  date_seconds 2038 1 19 3 14 7 = 2 ^ 31 - 1 /\ date_seconds 1900 3 1 0 0 0 = -2203891200.
Proof. vm_compute. auto. Qed.

(** *** Gauss' formulas *)

Definition march_days (y : Z) : Z := 365 * y + y / 4 - y / 100 + y / 400.

Lemma leap_spec y : leap_year y = true <-> y mod 4 = 0 /\ (y mod 100 <> 0 \/ y mod 400 = 0).
Proof. unfold leap_year. lia. Qed.

(** A year as centuries, groups of four and the rest. *)
Lemma year_parts y : exists a b c d,
  y = 400 * a + 100 * b + 4 * c + d /\ 0 <= b <= 3 /\ 0 <= c <= 24 /\ 0 <= d <= 3 /\
  (y / 4 = 100 * a + 25 * b + c /\ y / 100 = 4 * a + b /\ y / 400 = a) /\
  (y mod 4 = d /\ y mod 100 = 4 * c + d /\ y mod 400 = 100 * b + 4 * c + d).
Proof.
  exists (y / 400), (y mod 400 / 100), (y mod 100 / 4), (y mod 4).
  assert (y mod 100 = y mod 400 mod 100 /\ y mod 4 = y mod 100 mod 4) as [H1 H2] by lia.
  lia.
Qed.

Lemma march_days_succ y : march_days (y + 1) = march_days y + year_days (y + 1).
Proof.
  unfold march_days, year_days, leap_year.
  destruct (year_parts (y + 1)) as (a & b & c & d & Hy & Hb & Hc & Hd & (-> & -> & ->) & -> & -> & ->).
  assert (y = 400 * a + 100 * b + 4 * c + d - 1) as -> by lia.
  case_ifs; lia.
Qed.

Lemma days_in_years_closed n : days_in_years n = march_days (Z.of_nat n).
Proof.
  induction n as [|n IH]; [done|]. cbn [days_in_years]. rewrite IH, Nat2Z.inj_succ.
  rewrite <-Z.add_1_r, march_days_succ. done.
Qed.

Lemma days_1969 : days_in_years 1969 = 719162.
Proof. by rewrite days_in_years_closed. Qed.

(** The year and the month as counted from March 1. *)
Lemma gauss_day_number y m d :
  1 <= y -> 1 <= m <= 12 ->
  day_number y m d =
    march_days (if m <=? 2 then y - 1 else y)
    + Z.quot (367 * (if m <=? 2 then m + 10 else m - 2)) 12 - 30 + d - 1 - 719527 + 31 + 28.
Proof.
  intros Hy Hm. unfold day_number. rewrite days_1969, days_in_years_closed, Z2Nat.id by lia.
  pose proof (march_days_succ (y - 1)) as Hs. rewrite Z.sub_add in Hs.
  unfold year_days in Hs. unfold days_before_month, month_days.
  assert (m = 1 \/ m = 2 \/ m = 3 \/ m = 4 \/ m = 5 \/ m = 6 \/ m = 7 \/ m = 8 \/ m = 9 \/
          m = 10 \/ m = 11 \/ m = 12) as Hc by lia.
  destruct (leap_year y);
    repeat match goal with H : _ \/ _ |- _ => destruct H as [H|H] end; subst m;
    match goal with |- context [foldr ?f ?z ?l] =>
      let v := eval vm_compute in (foldr f z l) in change (foldr f z l) with v end;
    cbn -[march_days]; lia.
Qed.

Lemma day_number_add y m d : day_number y m d = day_number y m 1 + (d - 1).
Proof. unfold day_number. lia. Qed.

Lemma u64_small x : 0 <= x < 2 ^ 64 -> u64 x = x.
Proof. apply Z.mod_small. Qed.

Lemma i64_small x : - 2 ^ 63 <= x < 2 ^ 63 -> i64 x = x.
Proof. intros. unfold i64. rewrite Z.mod_small by lia. lia. Qed.

Lemma i32_small x : - 2 ^ 31 <= x < 2 ^ 31 -> i32 x = x.
Proof. intros. unfold i32. rewrite Z.mod_small by lia. lia. Qed.

Lemma gauss_year_spec days y yday :
  0 <= days < 2 ^ 48 -> gauss_year days = (y, yday) ->
  0 <= y < 2 ^ 48 /\ days = march_days y + yday /\ 0 <= yday < year_days (y + 1).
Proof.
  intros Hd. unfold gauss_year.
  change (365 * 400 + 100 - 4 + 1) with 146097. rewrite (u64_small ((days + 2) * 400)) by lia.
  set (Y := (days + 2) * 400 / 146097).
  assert (HY : 146097 * Y <= 400 * (days + 2) < 146097 * (Y + 1)) by (unfold Y; lia).
  assert (0 <= Y < 2 ^ 48) by lia. clearbody Y.
  cbv zeta. fold (march_days Y). fold (leap_year Y).
  pose proof (march_days_succ (Y - 1)) as Hp. rewrite Z.sub_add in Hp.
  pose proof (march_days_succ Y) as Hs.
  assert (Hr : -2 <= days - march_days Y < 365).
  { unfold march_days. destruct (year_parts Y) as (a & b & c & d & HYp & ? & ? & ? & (-> & -> & ->) & _).
    lia. }
  assert (0 < Y \/ 0 <= days - march_days Y).
  { destruct (Z.eq_dec Y 0) as [->|]; [right; change (march_days 0) with 0; lia|lia]. }
  rewrite (i64_small (days - march_days Y)) by lia. destruct (_ <? 0) eqn:E; intros [= <- <-].
  - rewrite u64_small, i64_small, Z.sub_add by (destruct (leap_year Y); lia).
    unfold year_days in *. destruct (leap_year Y); lia.
  - unfold year_days in *. destruct (leap_year (Y + 1)); lia.
Qed.

(** The month counted from March and the day in it. *)
Definition march_month_days (mon : Z) : Z :=
  if mon =? 12 then 29
  else if (mon =? 2) || (mon =? 4) || (mon =? 7) || (mon =? 9) then 30 else 31.

Lemma gauss_month yday :
  0 <= yday < 366 ->
  let mon := Z.quot ((yday + 31) * 10) 306 in
  let mday := yday - (367 * mon / 12 - 30) + 1 in
  1 <= mon <= 12 /\ (306 <=? yday) = (11 <=? mon) /\
  1 <= mday <= march_month_days mon /\ (mon = 12 -> mday = 29 -> yday = 365).
Proof.
  intros H mon mday. unfold mday, mon, march_month_days. clear mon mday.
  pose proof (check_range (fun yday =>
    let mon := Z.quot ((yday + 31) * 10) 306 in
    let mday := yday - (367 * mon / 12 - 30) + 1 in
    (1 <=? mon) && (mon <=? 12) && Bool.eqb (306 <=? yday) (11 <=? mon) &&
    (1 <=? mday) && (mday <=? march_month_days mon) &&
    (negb (mon =? 12) || negb (mday =? 29) || (yday =? 365))) 366
    ltac:(vm_compute; reflexivity) yday H) as Hc.
  cbv beta zeta in Hc. unfold march_month_days in Hc. revert Hc.
  set (mon := Z.quot _ _). set (mday := yday - _ + 1). clearbody mon mday.
  destruct (306 <=? yday), (11 <=? mon); cbn [Bool.eqb]; lia.
Qed.

(** The fields of a broken-down time are those of a date. *)
Definition tm_ok (tm : ngx_tm) : bool :=
  (1 <=? ngx_tm_mday tm) && (0 <=? ngx_tm_hour tm) && (0 <=? ngx_tm_min tm)
  && (0 <=? ngx_tm_sec tm) && (0 <=? ngx_tm_wday tm) && (ngx_tm_wday tm <=? 6)
  && date_ok (ngx_tm_year tm) (ngx_tm_mon tm) (ngx_tm_mday tm) (ngx_tm_hour tm)
       (ngx_tm_min tm) (ngx_tm_sec tm).

Definition tm_seconds (tm : ngx_tm) : Z :=
  date_seconds (ngx_tm_year tm) (ngx_tm_mon tm) (ngx_tm_mday tm) (ngx_tm_hour tm)
    (ngx_tm_min tm) (ngx_tm_sec tm).

(** Year, month and day of a day that is counted from March 1, 1 BC. *)
Lemma gauss_date days y yday :
  719468 <= days < 2 ^ 39 -> gauss_year days = (y, yday) ->
  let mon := Z.quot ((yday + 31) * 10) 306 in
  let mday := yday - (367 * mon / 12 - 30) + 1 in
  let year := if 306 <=? yday then y + 1 else y in
  let month := if 306 <=? yday then mon - 10 else mon + 2 in
  1970 <= year < 2 ^ 31 /\ (days < 3652425 - 366 + 306 -> year <= 9999) /\ 1 <= month <= 12 /\
  1 <= mday <= month_days year month /\
  day_number year month mday = days - 719468.
Proof.
  intros Hd Hg mon mday year month.
  apply gauss_year_spec in Hg as (Hy & -> & Hyd); [|lia].
  assert (Hyd' : 0 <= yday < 366) by (unfold year_days in Hyd; case_ifs_in Hyd; lia).
  destruct (gauss_month yday Hyd') as (Hm & E & Hmd & H29). fold mon mday in Hm, E, Hmd, H29.
  assert (Hyear : 1970 <= year < 2 ^ 31 /\ (march_days y + yday < 3652425 - 366 + 306 -> year <= 9999)).
  { unfold year, march_days in *. destruct (306 <=? yday) eqn:?; lia. }
  assert (Hmonth : 1 <= month <= 12) by (unfold month; rewrite E; destruct (11 <=? mon) eqn:?; lia).
  split; [apply Hyear|]. split; [apply Hyear|]. split; [done|]. split.
  - unfold year, month, month_days, march_month_days, year_days in *. rewrite E in *.
    destruct (11 <=? mon) eqn:?; case_ifs; lia.
  - rewrite gauss_day_number by lia. unfold year, month. rewrite E.
    assert (Z.quot (367 * mon) 12 = 367 * mon / 12) by lia.
    destruct (11 <=? mon) eqn:?.
    + assert ((mon - 10 <=? 2) = true) as -> by lia. rewrite Z.add_simpl_r, Z.sub_add. lia.
    + assert ((mon + 2 <=? 2) = false) as -> by lia. rewrite Z.add_simpl_r. lia.
Qed.

(** The first second of the year 10000, and a bound far beyond it. *)
Definition Y10K : Z := 253402300800.
Definition TIME_LIMIT : Z := 2 ^ 55.

Lemma gmtime_fields t tp :
  0 <= t < TIME_LIMIT ->
  let tm := ngx_gmtime t tp in
  tm_ok tm = true /\ tm_seconds tm = t /\ 1970 <= ngx_tm_year tm /\
  (t < Y10K -> ngx_tm_year tm <= 9999) /\ ngx_tm_wday tm = (4 + t / 86400) mod 7.
Proof.
  unfold TIME_LIMIT, Y10K. intros Ht. unfold ngx_gmtime. rewrite (u64_small t) by lia.
  rewrite (u64_small (t / 86400 - (31 + 28) + 719527)) by lia.
  destruct (gauss_year _) as [y yday] eqn:Hg.
  assert (Hyd : 0 <= y < 2 ^ 48 /\ 0 <= yday < 366).
  { apply gauss_year_spec in Hg as (? & _ & H); [|lia]. unfold year_days in H. case_ifs_in H; lia. }
  pose proof (gauss_date (t / 86400 - (31 + 28) + 719527) y yday ltac:(lia) Hg) as H. cbv zeta in H |- *.
  destruct (gauss_month yday ltac:(lia)) as (Hm & E & Hmd & _).
  set (mon := Z.quot ((yday + 31) * 10) 306) in *. clearbody mon. clear Hg.
  rewrite (u64_small mon), (u64_small (367 * mon)) by lia.
  set (md := yday - (367 * mon / 12 - 30) + 1) in *.
  assert (1 <= md <= 31) by (unfold march_month_days in Hmd; case_ifs_in Hmd; lia). clearbody md.
  rewrite (u64_small md), (u64_small (4 + t / 86400)), (u64_small (y + 1)) by lia.
  replace (if 306 <=? yday then (y + 1, u64 (mon - 10)) else (y, u64 (mon + 2)))
    with (if 306 <=? yday then y + 1 else y, if 306 <=? yday then mon - 10 else mon + 2).
  2: { rewrite E. destruct (11 <=? mon) eqn:?; by rewrite u64_small by lia. }
  set (year := if 306 <=? yday then y + 1 else y) in *. clearbody year.
  set (month := if 306 <=? yday then mon - 10 else mon + 2) in *. clearbody month.
  destruct H as (Hy & Hy' & Hmo & Hmday & Hn).
  unfold tm_ok, tm_seconds, date_ok, date_seconds.
  cbn [ngx_tm_sec ngx_tm_min ngx_tm_hour ngx_tm_mday ngx_tm_mon ngx_tm_year ngx_tm_wday].
  rewrite !i32_small by lia. rewrite Hn. clear E Hmd Hm Hyd. split_and!; lia.
Qed.

(** [ngx_gmtime] gives the calendar date of a [time_t]: the fields are in
    the ranges of the calendar (with the lengths of the months in leap years),
    counting the years, months and days up to them gives the time back, the
    weekday is that of the day, and until the year 10000 the year has four
    digits.  No arithmetic of the function wraps. *)
Theorem gmtime_spec t tp :
  0 <= t < TIME_LIMIT ->
  let tm := ngx_gmtime t tp in
  tm_ok tm = true /\ tm_seconds tm = t /\ 1970 <= ngx_tm_year tm /\
  (t < Y10K -> ngx_tm_year tm <= 9999) /\ ngx_tm_wday tm = (4 + t / 86400) mod 7.
Proof. apply gmtime_fields. Qed.

(** ** Witnesses *)

Lemma gmtime_spec_witness :
  tm_seconds (ngx_gmtime 951782400 some_tm) = 951782400 /\
  ngx_gmtime 951782400 some_tm = mk_tm 0 0 0 29 2 2000 2 0.
Proof.
  split; [|vm_compute; reflexivity].
  exact (proj1 (proj2 (gmtime_spec 951782400 some_tm ltac:(unfold TIME_LIMIT; lia)))).
Defined.
