(* ===== verification/TimeText.v ===== *)
(** * The HTTP date formats

    What [ngx_http_time] and [ngx_http_cookie_time] print, what
    [ngx_parse_http_time] reads, and the round trip: the texts of the three
    formats, [ngx_vslprintf] run on their format strings, the reader run on the
    texts and on any bytes. *)

From S2P Require Import Prelude Sprintf Times.

#[local] Ltac Zify.zify_post_hook ::= Z.to_euclidean_division_equations.

(** ** Printing *)

Definition d2 (n : Z) : list Z := [n / 10 + #"0"; n mod 10 + #"0"].
Definition d4 (n : Z) : list Z := d2 (n / 100) ++ d2 (n mod 100).

Lemma num_text_d2 n : 0 <= n < 100 ->
  num_text 0 n = Some (if n <? 10 then [n + #"0"] else d2 n).
Proof.
  intros H. apply (check_range (fun n =>
    bool_decide (num_text 0 n = Some (if n <? 10 then [n + #"0"] else d2 n))) 100) in H;
    [|vm_compute; reflexivity].
  by apply bool_decide_eq_true_1 in H.
Qed.

Lemma num_text_d4 n : 1000 <= n < 10000 -> num_text 0 n = Some (d4 n).
Proof.
  intros H. unfold num_text, NGX_MAX_UINT32_VALUE. cbn [Z.eqb].
  assert ((n <=? 4294967295) = true) as -> by lia. unfold u32, NGX_INT64_LEN, d4, d2.
  rewrite Z.mod_small by lia. cbn [num_digits app].
  assert ((n / 10 =? 0) = false) as -> by lia. assert ((n / 10 / 10 =? 0) = false) as -> by lia.
  assert ((n / 10 / 10 / 10 =? 0) = false) as -> by lia.
  assert ((n / 10 / 10 / 10 / 10 =? 0) = true) as -> by lia.
  unfold num_char. do 4 match goal with |- context [if ?a <? 10 then _ else _] =>
    assert ((a <? 10) = true) as -> by lia end.
  do 2 f_equal; [lia|]. f_equal; [lia|]. f_equal; [lia|]. f_equal. lia.
Qed.

(** One step of [ngx_vslprintf] for each directive of the formats here. *)
Definition padded (width zero : Z) (p : list Z) : list Z :=
  replicate (Z.to_nat (width - Z.of_nat (length p))) zero ++ p.

Lemma vl_char f cap out c fmt args :
  (c =? #"%") = false -> Z.of_nat (length out) < cap ->
  vslprintf_loop (S f) cap out (c :: fmt) args = vslprintf_loop f cap (out ++ [c]) fmt args.
Proof.
  intros Hc Hl. cbn [vslprintf_loop]. assert ((Z.of_nat (length out) <? cap) = true) as -> by lia.
  by rewrite Hc.
Qed.

Lemma put_num_text cap out cv sign n p :
  0 <= n < 2 ^ 31 -> num_text (cv_hex cv) n = Some p -> Z.of_nat (length out) <= cap ->
  Z.of_nat (length (out ++ padded (cv_width cv) (cv_zero cv) p)) <= cap ->
  put_num cap out cv sign n = Some (out ++ padded (cv_width cv) (cv_zero cv) p).
Proof.
  intros Hn Hp Ho Hl. unfold put_num. assert ((n <? 0) = false) as -> by lia.
  rewrite andb_false_r, u64_small by lia. rewrite (sprintf_num_taken cap out n _ _ _ p) by done.
  by rewrite taken_short.
Qed.

(** [%02d], [%4d], [%d], [%2d], [%02i]: what is between the percent sign and
    the conversion, the padding and the width it asks for. *)
Definition directives : list (string * Z * Z * Z) :=
  [("02", #"0", 2, #"d"); ("4", #" ", 4, #"d"); ("", #" ", 0, #"d");
   ("2", #" ", 2, #"d"); ("02", #"0", 2, #"i")]%string.

Lemma directive_parsed spec zero width c fmt args :
  (spec, zero, width, c) ∈ directives ->
  let cv := mk_conv zero width true 0 false 0 None in
  match bytes spec ++ c :: fmt with z :: _ => if z =? #"0" then #"0" else #" " | [] => #" " end
    = zero /\
  fmt_number 0 (bytes spec ++ c :: fmt) = (width, c :: fmt) /\
  fmt_flags cv args (c :: fmt) = Some (cv, args, c :: fmt) /\
  (forall cap out n args, 0 <= n < 2 ^ 31 -> convert cap out cv (VNum n :: args) c =
     match put_num cap out cv true n with Some out' => Some (out', args) | None => None end).
Proof.
  intros Hspec. cbv zeta. unfold directives in Hspec. rewrite !elem_of_cons, elem_of_nil in Hspec.
  assert (Hn : forall n, 0 <= n < 2 ^ 31 -> i32 n = n /\ i64 n = n)
    by (intros; by rewrite i32_small, i64_small by lia).
  destruct Hspec as [[= -> -> -> ->]|[[= -> -> -> ->]|[[= -> -> -> ->]|[[= -> -> -> ->]|[[= -> -> -> ->]|[]]]]]];
    (split; [vm_compute; reflexivity|]); (split; [vm_compute; reflexivity|]);
    (split; [vm_compute; reflexivity|]); intros cap out n args' H;
    cbn -[put_num]; unfold read_int, read_long; cbn [cv_sign];
    destruct (Hn n H) as [E1 E2]; by rewrite ?E1, ?E2.
Qed.

Lemma vl_number f cap out spec zero width c n p fmt args :
  (spec, zero, width, c) ∈ directives ->
  0 <= n < 2 ^ 31 -> num_text 0 n = Some p ->
  Z.of_nat (length (out ++ padded width zero p)) <= cap -> Z.of_nat (length out) < cap ->
  vslprintf_loop (S f) cap out (#"%" :: bytes spec ++ c :: fmt) (VNum n :: args) =
    vslprintf_loop f cap (out ++ padded width zero p) fmt args.
Proof.
  intros Hspec Hn Hp Hl Hl'. cbn [vslprintf_loop].
  assert ((Z.of_nat (length out) <? cap) = true) as -> by lia.
  destruct (directive_parsed spec zero width c fmt (VNum n :: args) Hspec) as (-> & -> & -> & ->);
    [|done].
  cbn [Z.eqb Pos.eqb].
  by rewrite (put_num_text cap out (mk_conv zero width true 0 false 0 None) true n p) by (done || lia).
Qed.

Lemma vl_string f cap out s fmt args :
  c_string s = s -> Z.of_nat (length (out ++ s)) <= cap -> Z.of_nat (length out) < cap ->
  vslprintf_loop (S f) cap out (#"%" :: #"s" :: fmt) (VStr s :: args) =
    vslprintf_loop f cap (out ++ s) fmt args.
Proof.
  intros Hs Hl Hl'. cbn [vslprintf_loop].
  assert ((Z.of_nat (length out) <? cap) = true) as -> by lia.
  cbn -[copy c_string]. rewrite Hs, copy_out, taken_short by lia. reflexivity.
Qed.

Lemma vl_end f cap out args :
  vslprintf_loop (S f) cap out [] args = Some out.
Proof. done. Qed.

Definition s2 (n : Z) : list Z := if n <? 10 then [ #" "; n + #"0"] else d2 n.

Lemma padded_d2 n : 0 <= n < 100 ->
  padded 2 #"0" (if n <? 10 then [n + #"0"] else d2 n) = d2 n.
Proof.
  intros H. unfold padded, d2. destruct (n <? 10) eqn:E; [|done].
  change (Z.to_nat _) with 1%nat. cbn [replicate app]. f_equal; [lia|]. f_equal. lia.
Qed.

Lemma length_s2 n : length (s2 n) = 2%nat.
Proof. unfold s2. by destruct (n <? 10). Qed.

Lemma vl_02d f cap out n c fmt args :
  c = #"d" \/ c = #"i" -> 0 <= n < 100 -> Z.of_nat (length out) + 2 <= cap ->
  vslprintf_loop (S f) cap out (#"%" :: #"0" :: #"2" :: c :: fmt) (VNum n :: args) =
    vslprintf_loop f cap (out ++ d2 n) fmt args.
Proof.
  intros Hc Hn Hl. rewrite <-(padded_d2 n Hn).
  destruct Hc as [-> | ->]; apply (vl_number f cap out "02" #"0" 2); try lia;
    try (by apply num_text_d2); try (rewrite (padded_d2 n Hn), length_app; cbn; lia);
    unfold directives; set_solver.
Qed.

Lemma vl_2d f cap out n fmt args :
  0 <= n < 100 -> Z.of_nat (length out) + 2 <= cap ->
  vslprintf_loop (S f) cap out (#"%" :: #"2" :: #"d" :: fmt) (VNum n :: args) =
    vslprintf_loop f cap (out ++ s2 n) fmt args.
Proof.
  intros Hn Hl.
  assert (s2 n = padded 2 #" " (if n <? 10 then [n + #"0"] else d2 n)) as E.
  { unfold s2. by destruct (n <? 10). }
  rewrite E. apply (vl_number f cap out "2" #" " 2); try lia; try (by apply num_text_d2).
  - unfold directives. set_solver.
  - rewrite <-E, length_app, length_s2. lia.
Qed.

Lemma vl_4d f cap out n spec zero width fmt args :
  (spec, zero, width, #"d") ∈ directives -> width <= 4 ->
  1000 <= n < 10000 -> Z.of_nat (length out) + 4 <= cap ->
  vslprintf_loop (S f) cap out (#"%" :: bytes spec ++ #"d" :: fmt) (VNum n :: args) =
    vslprintf_loop f cap (out ++ d4 n) fmt args.
Proof.
  intros Hs Hw Hn Hl.
  assert (d4 n = padded width zero (d4 n)) as E.
  { unfold padded. cbn [d4 d2 app length]. by assert (Z.to_nat (width - Z.of_nat 4) = 0%nat) as -> by lia. }
  rewrite E. apply vl_number; [done|lia|by apply num_text_d4| |lia].
  rewrite <-E, length_app. cbn. lia.
Qed.

(** A year, with and without a width. *)
Lemma vl_year4 f cap out n fmt args :
  1000 <= n < 10000 -> Z.of_nat (length out) + 4 <= cap ->
  vslprintf_loop (S f) cap out (#"%" :: #"4" :: #"d" :: fmt) (VNum n :: args) =
    vslprintf_loop f cap (out ++ d4 n) fmt args.
Proof.
  intros Hn Hl. apply (vl_4d f cap out n "4" #" " 4); try done. unfold directives. set_solver.
Qed.

Lemma vl_year f cap out n fmt args :
  1000 <= n < 10000 -> Z.of_nat (length out) + 4 <= cap ->
  vslprintf_loop (S f) cap out (#"%" :: #"d" :: fmt) (VNum n :: args) =
    vslprintf_loop f cap (out ++ d4 n) fmt args.
Proof.
  intros Hn Hl. apply (vl_4d f cap out n "" #" " 0); try done. unfold directives. set_solver.
Qed.

Ltac fits := rewrite ?length_app, ?length_s2; cbn [length d2 d4 app]; lia.

(** Runs [ngx_vslprintf] on a format. *)
Ltac run_format :=
  unfold sprintf_at, snprintf, vslprintf;
  repeat match goal with |- context [bytes ?s] =>
    is_ground s; let v := eval vm_compute in (bytes s) in change (bytes s) with v end;
  cbn [length];
  repeat first
    [ rewrite vl_02d by first [by auto | lia | fits]
    | rewrite vl_2d by first [lia | fits]
    | rewrite vl_year4 by first [lia | fits]
    | rewrite vl_year by first [lia | fits]
    | rewrite vl_string by first [done | fits]
    | rewrite vl_char by first [reflexivity | fits]
    | rewrite vl_end ].

(** The names, and what the formats and the parser need of them. *)
Definition week_name (i : Z) : list Z := default [] (name_of week i).
Definition month_name (i : Z) : list Z := default [] (name_of months i).

Definition plain_name (w : list Z) : bool :=
  forallb (fun c => negb (c =? 0) && negb (c =? #",") && negb (c =? #" ")) w.

Lemma plain_name_c_string w : plain_name w = true -> c_string w = w.
Proof.
  unfold plain_name. induction w as [|c w IH]; [done|]. cbn [forallb c_string]. intros H.
  apply andb_true_iff in H as [H1 H2]. assert ((c =? 0) = false) as -> by lia. by rewrite IH.
Qed.

Definition name_check (names : list string) (i : Z) : bool :=
  match name_of names i with Some w => (length w =? 3)%nat && plain_name w | None => false end.

Lemma name_checked names i :
  name_check names i = true ->
  let w := default [] (name_of names i) in
  name_of names i = Some w /\ length w = 3%nat /\ plain_name w = true.
Proof.
  unfold name_check. destruct (name_of names i) as [w|]; [|done]. cbn. intros H.
  apply andb_true_iff in H as [H1 H2]. apply Nat.eqb_eq in H1. done.
Qed.

Lemma week_names i : 0 <= i <= 6 ->
  name_of week i = Some (week_name i) /\ length (week_name i) = 3%nat /\
  plain_name (week_name i) = true.
Proof.
  intros H. apply name_checked, (check_range _ 7); [vm_compute; reflexivity|lia].
Qed.

Lemma month_names i : 1 <= i <= 12 ->
  name_of months (i - 1) = Some (month_name (i - 1)) /\ length (month_name (i - 1)) = 3%nat /\
  plain_name (month_name (i - 1)) = true.
Proof.
  intros H. apply name_checked, (check_range _ 12); [vm_compute; reflexivity|lia].
Qed.

(** *** The date formats of HTTP *)

Definition clock_text (h mi s : Z) : list Z :=
  d2 h ++ [ #":" ] ++ d2 mi ++ [ #":" ] ++ d2 s.

(** [Sun, 06 Nov 1994 08:49:37] *)
Definition rfc1123_text (w : list Z) (y m d h mi s : Z) : list Z :=
  w ++ bytes ", " ++ d2 d ++ [ #" " ] ++ month_name (m - 1) ++ [ #" " ] ++ d4 y
    ++ [ #" " ] ++ clock_text h mi s.

(** [Sunday, 06-Nov-94 08:49:37]; [y] is the year of the century *)
Definition rfc850_text (w : list Z) (y m d h mi s : Z) : list Z :=
  w ++ bytes ", " ++ d2 d ++ [ #"-" ] ++ month_name (m - 1) ++ [ #"-" ] ++ d2 y
    ++ [ #" " ] ++ clock_text h mi s.

(** [Sun Nov  6 08:49:37 1994] *)
Definition asctime_text (w : list Z) (y m d h mi s : Z) : list Z :=
  w ++ [ #" " ] ++ month_name (m - 1) ++ [ #" " ] ++ s2 d ++ [ #" " ] ++ clock_text h mi s
    ++ [ #" " ] ++ d4 y.

(** [Sun, 06-Nov-94 08:49:37], with the text of the year *)
Definition cookie_text (w year : list Z) (m d h mi s : Z) : list Z :=
  w ++ bytes ", " ++ d2 d ++ [ #"-" ] ++ month_name (m - 1) ++ [ #"-" ] ++ year
    ++ [ #" " ] ++ clock_text h mi s.

Lemma tm_ok_ranges tm : tm_ok tm = true ->
  0 <= ngx_tm_wday tm <= 6 /\ 1 <= ngx_tm_mon tm <= 12 /\ 1 <= ngx_tm_mday tm <= 31 /\
  0 <= ngx_tm_hour tm <= 23 /\ 0 <= ngx_tm_min tm <= 59 /\ 0 <= ngx_tm_sec tm <= 59.
Proof.
  unfold tm_ok, date_ok. intros Hok.
  assert (month_days (ngx_tm_year tm) (ngx_tm_mon tm) <= 31) by (unfold month_days; case_ifs; lia).
  lia.
Qed.

(** Replaces the names of a broken-down time by their texts. *)
Ltac month_text tm :=
  destruct (tm_ok_ranges tm ltac:(assumption)) as (? & ? & ? & ? & ? & ?);
  destruct (month_names (ngx_tm_mon tm) ltac:(lia)) as (-> & Hlm & Hm);
  apply plain_name_c_string in Hm; cbn [option_bind mbind];
  set (m := month_name _) in *.

Ltac name_texts tm :=
  destruct (week_names (ngx_tm_wday tm) (proj1 (tm_ok_ranges tm ltac:(assumption))))
    as (-> & Hlw & Hw);
  apply plain_name_c_string in Hw; cbn [option_bind mbind];
  set (w := week_name _) in *; month_text tm.

Lemma http_format_text buf tm :
  tm_ok tm = true -> 1000 <= ngx_tm_year tm <= 9999 -> 0 <= buf < 2 ^ 64 - 30 ->
  http_format buf tm = Some (rfc1123_text (week_name (ngx_tm_wday tm)) (ngx_tm_year tm)
    (ngx_tm_mon tm) (ngx_tm_mday tm) (ngx_tm_hour tm) (ngx_tm_min tm) (ngx_tm_sec tm)
    ++ bytes " GMT").
Proof.
  intros Hok Hy Hb. unfold http_format, rfc1123_text, clock_text. name_texts tm.
  run_format. by rewrite <-!app_assoc.
Qed.

Lemma cookie_format_text buf tm :
  tm_ok tm = true -> 1000 <= ngx_tm_year tm <= 9999 -> 0 <= buf < 2 ^ 64 - 32 ->
  cookie_format buf tm = Some (cookie_text (week_name (ngx_tm_wday tm))
    (if 2037 <? ngx_tm_year tm then d4 (ngx_tm_year tm) else d2 (ngx_tm_year tm mod 100))
    (ngx_tm_mon tm) (ngx_tm_mday tm) (ngx_tm_hour tm) (ngx_tm_min tm) (ngx_tm_sec tm)
    ++ bytes " GMT").
Proof.
  intros Hok Hy Hb. unfold cookie_format, cookie_text, clock_text. name_texts tm.
  rewrite Z.rem_mod_nonneg by lia. clear Hok.
  destruct (2037 <? ngx_tm_year tm); run_format; by rewrite <-!app_assoc.
Qed.

(** ** Reading the formats *)

Lemma two_digits_d2 n rest : 0 <= n < 100 -> two_digits (d2 n ++ rest) = Go n.
Proof.
  intros H. unfold two_digits, digit, get. cbn [lookup list_lookup d2 app andthen].
  assert (((n / 10 + 48 <? 48) || (57 <? n / 10 + 48)) = false) as -> by lia.
  cbn [andthen]. assert (((n mod 10 + 48 <? 48) || (57 <? n mod 10 + 48)) = false) as -> by lia.
  cbn [andthen]. f_equal. lia.
Qed.

Lemma four_digits_d4 n rest : 0 <= n < 10000 -> four_digits (d4 n ++ rest) = Go n.
Proof.
  intros H. unfold four_digits, digit, get, d4. cbn [lookup list_lookup d2 app andthen].
  repeat match goal with |- context [(?c <? 48) || (57 <? ?c)] =>
    assert (((c <? 48) || (57 <? c)) = false) as -> by lia; cbn [andthen] end.
  f_equal. lia.
Qed.

Lemma expect_char c rest : expect (c :: rest) c = Go rest.
Proof.
  unfold expect, get. cbn [lookup list_lookup andthen]. by rewrite Z.eqb_refl.
Qed.

Lemma month_name_read m rest :
  1 <= m <= 12 -> parse_month (month_name (m - 1) ++ rest) = Go (m - 1) /\
    drop 3 (month_name (m - 1) ++ rest) = rest /\ length (month_name (m - 1)) = 3%nat.
Proof.
  intros H.
  assert (m = 1 \/ m = 2 \/ m = 3 \/ m = 4 \/ m = 5 \/ m = 6 \/ m = 7 \/ m = 8 \/ m = 9 \/
          m = 10 \/ m = 11 \/ m = 12) as Hc by lia.
  repeat match goal with H : _ \/ _ |- _ => destruct H as [H|H] end; subst m;
    vm_compute; auto.
Qed.

Lemma find_sep_plain w c rest :
  plain_name w = true -> c = #"," \/ c = #" " ->
  find_sep (w ++ c :: rest) = (if c =? #"," then fmt_no else isoc, c :: rest).
Proof.
  unfold plain_name. intros Hw Hc. induction w as [|x w IH].
  - by destruct Hc as [-> | ->].
  - cbn [forallb] in Hw. apply andb_true_iff in Hw as [Hx Hw]. cbn [app find_sep].
    assert ((x =? 44) = false /\ (x =? 32) = false) as [-> ->] by lia. by apply IH.
Qed.

Lemma skip_spaces_stop c rest : (c =? #" ") = false -> skip_spaces (c :: rest) = c :: rest.
Proof. intros H. cbn [skip_spaces]. by rewrite H. Qed.

Lemma parse_clock_text fmt year h mi s rest :
  fmt <> isoc -> 0 <= h < 100 -> 0 <= mi < 100 -> 0 <= s < 100 ->
  parse_clock fmt year ([ #" " ] ++ clock_text h mi s ++ rest) = Go (h, mi, s, year).
Proof.
  intros Hf Hh Hm Hs. unfold parse_clock, clock_text. rewrite <-!app_assoc. cbn [app].
  rewrite expect_char. cbn [andthen]. rewrite two_digits_d2 by done. cbn [andthen].
  change (drop 2 (d2 h ++ ?l)) with l. rewrite expect_char. cbn [andthen].
  rewrite two_digits_d2 by done. cbn [andthen].
  change (drop 2 (d2 mi ++ ?l)) with l. rewrite expect_char. cbn [andthen].
  rewrite two_digits_d2 by done. cbn [andthen]. by rewrite decide_False.
Qed.

Lemma parse_clock_isoc y h mi s year rest :
  0 <= h < 100 -> 0 <= mi < 100 -> 0 <= s < 100 -> 0 <= y < 10000 ->
  parse_clock isoc year ([ #" " ] ++ clock_text h mi s ++ [ #" " ] ++ d4 y ++ rest)
  = Go (h, mi, s, y).
Proof.
  intros Hh Hm Hs Hy. unfold parse_clock, clock_text. rewrite <-!app_assoc. cbn [app].
  rewrite expect_char. cbn [andthen]. rewrite two_digits_d2 by done. cbn [andthen].
  change (drop 2 (d2 h ++ ?l)) with l. rewrite expect_char. cbn [andthen].
  rewrite two_digits_d2 by done. cbn [andthen].
  change (drop 2 (d2 mi ++ ?l)) with l. rewrite expect_char. cbn [andthen].
  rewrite two_digits_d2 by done. cbn [andthen]. rewrite decide_True by done.
  change (drop 2 (d2 s ++ ?l)) with l. rewrite expect_char. cbn [andthen].
  rewrite four_digits_d4 by done. done.
Qed.

Definition weekday_ok (w : list Z) : Prop := plain_name w = true.

Lemma length_ltb (p : list Z) n : (n <= length p)%nat -> (length p <? n)%nat = false.
Proof. intros. apply Nat.ltb_ge. lia. Qed.

(** The texts of the first two formats up to the month. *)
Lemma leading_fields w sep d rest :
  plain_name w = true -> 0 <= d < 100 ->
  (sep = #" " /\ 17 <= length rest \/ sep = #"-" /\ 15 <= length rest)%nat ->
  let p := skip_spaces (drop 1 (snd (find_sep (w ++ bytes ", " ++ d2 d ++ sep :: rest)))) in
  (length p <? 18)%nat = false /\
  leading_day (fst (find_sep (w ++ bytes ", " ++ d2 d ++ sep :: rest))) p =
    Go (if sep =? #" " then rfc822 else rfc850, d, rest).
Proof.
  intros Hw Hd Hs. change (bytes ", ") with [ #","; #" "]. cbn [app].
  rewrite find_sep_plain by auto. cbn [fst snd drop Z.eqb Pos.eqb].
  assert (skip_spaces (32 :: d2 d ++ sep :: rest) = d2 d ++ sep :: rest) as ->.
  { cbn [skip_spaces Z.eqb Pos.eqb negb]. unfold d2. cbn [app]. apply skip_spaces_stop. lia. }
  cbv zeta. split; [apply length_ltb; cbn; lia|].
  unfold leading_day. cbn [decide decide_rel]. rewrite decide_False by done.
  rewrite two_digits_d2 by done. cbn [andthen]. change (drop 2 (d2 d ++ ?l)) with l.
  unfold get. cbn [lookup list_lookup andthen].
  destruct Hs as [[-> Hl]|[-> Hl]]; [by rewrite length_ltb by (cbn; lia)|done].
Qed.

Lemma parse_rfc1123 w y m d h mi s rest :
  plain_name w = true -> 0 <= y < 10000 -> 1 <= m <= 12 -> 0 <= d < 100 -> 0 <= h < 100 ->
  0 <= mi < 100 -> 0 <= s < 100 ->
  parse_fields (rfc1123_text w y m d h mi s ++ rest) = Go (mk_fields y (m - 1) d h mi s).
Proof.
  intros Hw Hy Hm Hd Hh Hmi Hs. unfold rfc1123_text. rewrite <-!app_assoc. cbn [app].
  destruct (month_name_read m
    (32 :: d4 y ++ 32 :: clock_text h mi s ++ rest) Hm) as (E1 & E2 & E3).
  destruct (leading_fields w #" " d
    (month_name (m - 1) ++ 32 :: d4 y ++ 32 :: clock_text h mi s ++ rest)) as (L & E); try done.
  { rewrite !length_app. cbn [length]. rewrite !length_app. cbn. rewrite E3. lia. }
  unfold parse_fields. destruct (find_sep _) as [fmt p0]. cbn [fst snd] in L, E. rewrite L, E.
  cbn [andthen Z.eqb Pos.eqb]. rewrite E1, E2. cbn [andthen]. unfold parse_year.
  rewrite expect_char. cbn [andthen]. rewrite four_digits_d4 by done. cbn [andthen].
  change (drop 4 (d4 y ++ ?l)) with l. unfold isoc_day. rewrite decide_False by done. cbn [andthen].
  change (32 :: clock_text h mi s ++ rest) with ([32] ++ clock_text h mi s ++ rest).
  by rewrite parse_clock_text.
Qed.

Lemma parse_rfc850 w y m d h mi s rest :
  plain_name w = true -> 0 <= y < 100 -> 1 <= m <= 12 -> 0 <= d < 100 -> 0 <= h < 100 ->
  0 <= mi < 100 -> 0 <= s < 100 ->
  parse_fields (rfc850_text w y m d h mi s ++ rest) =
    Go (mk_fields (y + (if y <? 70 then 2000 else 1900)) (m - 1) d h mi s).
Proof.
  intros Hw Hy Hm Hd Hh Hmi Hs. unfold rfc850_text. rewrite <-!app_assoc. cbn [app].
  destruct (month_name_read m
    (45 :: d2 y ++ 32 :: clock_text h mi s ++ rest) Hm) as (E1 & E2 & E3).
  destruct (leading_fields w #"-" d
    (month_name (m - 1) ++ 45 :: d2 y ++ 32 :: clock_text h mi s ++ rest)) as (L & E); try done.
  { rewrite !length_app. cbn [length]. rewrite !length_app. cbn. rewrite E3. lia. }
  unfold parse_fields. destruct (find_sep _) as [fmt p0]. cbn [fst snd] in L, E. rewrite L, E.
  cbn [andthen Z.eqb Pos.eqb]. rewrite E1, E2. cbn [andthen]. unfold parse_year.
  rewrite expect_char. cbn [andthen]. rewrite two_digits_d2 by done. cbn [andthen].
  change (drop 2 (d2 y ++ ?l)) with l. unfold isoc_day. rewrite decide_False by done. cbn [andthen].
  change (32 :: clock_text h mi s ++ rest) with ([32] ++ clock_text h mi s ++ rest).
  by rewrite parse_clock_text.
Qed.

(** The day of the month, padded with a space. *)
Lemma isoc_day_s2 d0 d rest :
  0 <= d < 100 -> (13 <= length rest)%nat ->
  isoc_day isoc d0 (s2 d ++ 32 :: rest) = Go (d, 32 :: rest).
Proof.
  intros Hd Hl. unfold isoc_day. rewrite decide_True by done. unfold s2, d2.
  assert (Hc : forall x, 0 <= x < 10 -> ((x + 48 <? 48) || (57 <? x + 48)) = false) by lia.
  destruct (d <? 10) eqn:?; unfold get, digit, get; cbn [lookup list_lookup app andthen].
  - change (32 =? 32) with true. cbn [drop lookup list_lookup app andthen]. rewrite Hc by lia.
    cbn [andthen drop lookup list_lookup Z.eqb Pos.eqb negb]. rewrite length_ltb by (cbn; lia).
    f_equal. f_equal. lia.
  - assert ((d / 10 + 48 =? 32) = false) as -> by lia.
    cbn [drop lookup list_lookup app andthen]. rewrite Hc by lia.
    cbn [andthen drop lookup list_lookup].
    assert ((d mod 10 + 48 =? 32) = false) as -> by lia. cbn [negb andthen lookup list_lookup].
    rewrite Hc by lia. cbn [andthen drop]. rewrite length_ltb by (cbn; lia).
    f_equal. f_equal. lia.
Qed.

Lemma parse_asctime w y m d h mi s rest :
  plain_name w = true -> 0 <= y < 10000 -> 1 <= m <= 12 -> 0 <= d < 100 -> 0 <= h < 100 ->
  0 <= mi < 100 -> 0 <= s < 100 ->
  parse_fields (asctime_text w y m d h mi s ++ rest) = Go (mk_fields y (m - 1) d h mi s).
Proof.
  intros Hw Hy Hm Hd Hh Hmi Hs. unfold asctime_text. rewrite <-!app_assoc. cbn [app].
  set (tail := 32 :: s2 d ++ 32 :: clock_text h mi s ++ 32 :: d4 y ++ rest).
  destruct (month_name_read m tail Hm) as (E1 & E2 & E3).
  unfold parse_fields. rewrite find_sep_plain by auto. cbn [Z.eqb Pos.eqb drop].
  rewrite drop_0.
  assert (skip_spaces (month_name (m - 1) ++ tail) = month_name (m - 1) ++ tail) as ->.
  { destruct (month_names m Hm) as (_ & _ & Hp). destruct (month_name (m - 1)) as [|c l]; [done|].
    unfold plain_name in Hp. cbn [forallb] in Hp. apply andb_true_iff in Hp as [Hp _].
    cbn [app]. apply skip_spaces_stop. lia. }
  rewrite length_ltb.
  2: { rewrite length_app, E3. unfold tail. cbn [length]. rewrite length_app, length_s2.
       cbn [length]. rewrite length_app. cbn. lia. }
  unfold leading_day. rewrite decide_True by done. cbn [andthen]. rewrite E1, E2. cbn [andthen].
  unfold parse_year. cbn [andthen]. unfold tail. cbn [drop]. rewrite drop_0.
  rewrite isoc_day_s2; [|done|rewrite length_app; cbn; lia]. cbn [andthen].
  change (32 :: clock_text h mi s ++ 32 :: d4 y ++ rest)
    with ([32] ++ clock_text h mi s ++ [32] ++ d4 y ++ rest).
  by rewrite parse_clock_isoc.
Qed.

(** ** The time of the fields *)

Lemma bad_day_spec year month day :
  0 <= month <= 11 -> bad_day year month day = negb (day <=? month_days year (month + 1)).
Proof.
  intros Hm. unfold bad_day, month_days, leap_year.
  change 3 with (Z.ones 2). rewrite Z.land_ones by lia. change (2 ^ 2) with 4.
  assert (month = 0 \/ month = 1 \/ month = 2 \/ month = 3 \/ month = 4 \/ month = 5 \/
    month = 6 \/ month = 7 \/ month = 8 \/ month = 9 \/ month = 10 \/ month = 11) as Hc by lia.
  clear Hm. destruct (day =? 29) eqn:E.
  - assert (day = 29) as -> by lia. clear E.
    repeat match goal with H : _ \/ _ |- _ => destruct H as [H|H] end; subst month; try done.
    cbn [Z.eqb Pos.eqb andb Z.add Pos.add]. case_ifs; lia.
  - repeat match goal with H : _ \/ _ |- _ => destruct H as [H|H] end; subst month;
      match goal with |- context [nth ?i mday 0] =>
        let v := eval vm_compute in (nth i mday 0) in change (nth i mday 0) with v end;
      cbn [Z.eqb Pos.eqb andb orb Z.add Pos.add Pos.succ]; case_ifs; lia.
Qed.

Lemma u64_mul_add a k b : u64 (u64 a * k + b) = u64 (a * k + b).
Proof. unfold u64. by rewrite Zplus_mod, Zmult_mod_idemp_l, <-Zplus_mod. Qed.

Lemma i64_u64 x : - 2 ^ 63 <= x < 2 ^ 63 -> i64 (u64 x) = x.
Proof. intros H. unfold i64, u64. rewrite Zplus_mod_idemp_l, Z.mod_small by lia. lia. Qed.

Lemma fields_seconds_spec f :
  1 <= f_year f <= 9999 -> 0 <= f_month f <= 11 -> 0 <= f_day f <= 99 ->
  0 <= f_hour f -> 0 <= f_min f -> 0 <= f_sec f ->
  fields_seconds f =
    if date_ok (f_year f) (f_month f + 1) (f_day f) (f_hour f) (f_min f) (f_sec f)
    then date_seconds (f_year f) (f_month f + 1) (f_day f) (f_hour f) (f_min f) (f_sec f)
    else NGX_ERROR.
Proof.
  destruct f as [y m d h mi s]. cbn [f_year f_month f_day f_hour f_min f_sec].
  intros Hy Hm Hd Hh Hmi Hs. unfold fields_seconds, date_ok. rewrite bad_day_spec by done.
  destruct ((23 <? h) || (59 <? mi) || (59 <? s)) eqn:E1.
  { by destruct ((1 <=? m + 1) && _ && _ && _ && _ && _) eqn:E2; [lia|]. }
  destruct (d <=? month_days y (m + 1)) eqn:E2; cbn [negb].
  2: { by rewrite andb_false_r. }
  assert (((1 <=? m + 1) && (m + 1 <=? 12) && true && (h <=? 23) && (mi <=? 59) && (s <=? 59))
    = true) as -> by lia.
  unfold date_seconds. rewrite gauss_day_number by lia.
  replace (if m - 1 <=? 0 then (m - 1 + 12, u64 (y - 1)) else (m - 1, y))
    with (if m - 1 <=? 0 then m - 1 + 12 else m - 1, if m - 1 <=? 0 then y - 1 else y)
    by (rewrite u64_small by lia; by destruct (m - 1 <=? 0)).
  replace (if m + 1 <=? 2 then m + 1 + 10 else m + 1 - 2) with (if m - 1 <=? 0 then m - 1 + 12 else m - 1)
    by (destruct (m - 1 <=? 0) eqn:?, (m + 1 <=? 2) eqn:?; lia).
  replace (m + 1 <=? 2) with (m - 1 <=? 0) by lia.
  set (Y := if m - 1 <=? 0 then y - 1 else y). set (M := if m - 1 <=? 0 then m - 1 + 12 else m - 1).
  assert (0 <= Y <= 9999 /\ 1 <= M <= 12) by (unfold Y, M; destruct (m - 1 <=? 0) eqn:?; lia).
  clearbody Y M. rewrite (u64_small (365 * Y)) by lia. unfold march_days.
  rewrite <-!Z.add_assoc. rewrite u64_mul_add. rewrite i64_u64; [|lia]. lia.
Qed.

(** ** No read outside the value *)

(** The piece stays inside; if it goes on, its result satisfies [Q]; if it
    returns, it is with [NGX_ERROR]. *)
Definition inside {A} (c : outcome A) (Q : A -> Prop) : Prop :=
  match c with Oob => False | Return v => v = NGX_ERROR | Go x => Q x end.

Lemma inside_bind {A B} (c : outcome A) (k : A -> outcome B) P Q :
  inside c P -> (forall x, P x -> inside (k x) Q) -> inside (andthen c k) Q.
Proof. destruct c; cbn; auto. Qed.

Lemma inside_mono {A} (c : outcome A) (P Q : A -> Prop) :
  (forall x, P x -> Q x) -> inside c P -> inside c Q.
Proof. destruct c; cbn; auto. Qed.

Lemma inside_get p i : (i < length p)%nat -> inside (get p i) (fun _ => True).
Proof.
  intros H. unfold get. destruct (lookup_lt_is_Some_2 p i H) as [c ->]. done.
Qed.

Definition is_digit (c : Z) : Prop := 48 <= c <= 57.

(** The next piece has what it reads. *)
Ltac step t := eapply inside_bind; [apply t; rewrite ?length_drop; lia|]; cbv beta.

Lemma inside_digit p i : (i < length p)%nat -> inside (digit p i) is_digit.
Proof.
  intros H. eapply inside_bind; [by apply inside_get|]. intros c _. unfold is_digit.
  case_ifs; cbn; [done|lia].
Qed.

Lemma inside_expect p c :
  (1 <= length p)%nat -> inside (expect p c) (fun p' => p' = drop 1 p).
Proof.
  intros H. step inside_get. intros b _. by case_ifs.
Qed.

Lemma inside_two p : (2 <= length p)%nat -> inside (two_digits p) (fun n => 0 <= n <= 99).
Proof.
  intros H. step inside_digit. intros a Ha.
  step inside_digit. intros b Hb. unfold is_digit in *. cbn. lia.
Qed.

Lemma inside_four p : (4 <= length p)%nat -> inside (four_digits p) (fun n => 0 <= n <= 9999).
Proof.
  intros H. do 4 (step inside_digit; intros ? ?).
  unfold is_digit in *. cbn. lia.
Qed.

(** What is left of the value at each point: the day, the month and the year
    of a format leave room for the time. *)
Definition room (fmt : time_fmt) : nat :=
  match fmt with rfc822 => 17 | rfc850 => 15 | _ => 18 end.

Lemma inside_leading_day fmt p :
  fmt = fmt_no \/ fmt = isoc -> (18 <= length p)%nat ->
  inside (leading_day fmt p) (fun '(fmt', day, p') =>
    fmt' <> fmt_no /\ 0 <= day <= 99 /\ (room fmt' <= length p')%nat).
Proof.
  intros Hf Hl. unfold leading_day. case_decide as E.
  - cbn. subst fmt. split_and!; [done|lia|lia|cbn; lia].
  - step inside_two. intros day Hd.
    step inside_get. intros c _.
    case_ifs; cbn [inside]; try done; rewrite ?Nat.ltb_ge in *; rewrite ?length_drop in *;
      cbn [room]; (split; [done|]); lia.
Qed.

Lemma inside_month p : (3 <= length p)%nat -> inside (parse_month p) (fun m => 0 <= m <= 11).
Proof.
  intros H. step inside_get. intros c _.
  case_ifs; try (by cbn; lia); eapply inside_bind; try (apply inside_get; lia); cbv beta;
    intros c1 _; case_ifs; try (by cbn; lia).
  step inside_get. intros c2 _. cbn. case_ifs; lia.
Qed.

Lemma inside_year fmt p :
  fmt <> fmt_no -> (room fmt <= length p + 3)%nat ->
  inside (parse_year fmt p) (fun '(y, p') => 0 <= y <= 9999 /\
    match fmt with isoc => (14 <= length p')%nat | _ => (9 <= length p')%nat end).
Proof.
  intros Hf Hl. destruct fmt; cbn in Hl; try done; unfold parse_year.
  - step inside_expect. intros ? ->.
    step inside_four. intros y Hy. cbn.
    rewrite !length_drop. lia.
  - step inside_expect. intros ? ->.
    step inside_two. intros y Hy. cbn.
    rewrite !length_drop. case_ifs; lia.
  - cbn. rewrite length_drop. lia.
Qed.

Lemma inside_isoc_day fmt day p :
  0 <= day <= 99 ->
  match fmt with isoc => (14 <= length p)%nat | _ => (9 <= length p)%nat end ->
  inside (isoc_day fmt day p) (fun '(d, p') => 0 <= d <= 99 /\
    match fmt with isoc => (14 <= length p')%nat | _ => (9 <= length p')%nat end).
Proof.
  intros Hd Hl. unfold isoc_day. case_decide as E; [subst fmt|by cbn].
  step inside_get. intros c _.
  set (p1 := if c =? 32 then drop 1 p else p).
  assert (13 <= length p1)%nat by (unfold p1; case_ifs; rewrite ?length_drop; lia). clearbody p1.
  step inside_digit. intros c1 Hc1. unfold is_digit in Hc1.
  step inside_get. intros c2 _.
  apply (inside_bind _ _ (fun '(d, p') => 0 <= d <= 99)).
  - case_ifs; [|cbn; lia].
    step inside_digit. intros c3 Hc3.
    unfold is_digit in Hc3. cbn. lia.
  - intros [d p2] Hd2. destruct (length p2 <? 14)%nat eqn:E; cbn; [done|].
    apply Nat.ltb_ge in E. lia.
Qed.

Lemma inside_clock fmt year p :
  0 <= year <= 9999 ->
  match fmt with isoc => (14 <= length p)%nat | _ => (9 <= length p)%nat end ->
  inside (parse_clock fmt year p) (fun '(h, mi, s, y) =>
    0 <= h <= 99 /\ 0 <= mi <= 99 /\ 0 <= s <= 99 /\ 0 <= y <= 9999).
Proof.
  intros Hy Hl. unfold parse_clock.
  assert (9 <= length p /\ (fmt = isoc -> 14 <= length p))%nat as [H9 H14]
    by (destruct fmt; (split; [lia|]); intros; (done || lia)).
  step inside_expect. intros ? ->.
  step inside_two. intros h Hh.
  step inside_expect. intros ? ->.
  step inside_two. intros mi Hmi.
  step inside_expect. intros ? ->.
  step inside_two. intros s Hs.
  case_decide as E; [|by cbn]. specialize (H14 E).
  step inside_expect. intros ? ->.
  step inside_four. intros y Hy'. cbn. lia.
Qed.

Lemma inside_fields value :
  inside (parse_fields value) (fun f =>
    0 <= f_year f <= 9999 /\ 0 <= f_month f <= 11 /\ 0 <= f_day f <= 99 /\
    0 <= f_hour f <= 99 /\ 0 <= f_min f <= 99 /\ 0 <= f_sec f <= 99).
Proof.
  unfold parse_fields. destruct (find_sep value) as [fmt p] eqn:Ef.
  assert (Hf : fmt = fmt_no \/ fmt = isoc).
  { revert Ef. clear. revert p. induction value as [|c v IH]; intros p; cbn [find_sep];
      [intros [= <- _]; auto|]. case_ifs; [intros [= <- _]; auto|intros [= <- _]; auto|apply IH]. }
  destruct (length _ <? 18)%nat eqn:El; [done|]. apply Nat.ltb_ge in El.
  eapply inside_bind; [apply inside_leading_day; done|]; cbv beta. intros [[fmt' day] p1] (Hn & Hd & Hl).
  assert (15 <= room fmt')%nat by (destruct fmt'; cbn; lia).
  step inside_month. intros m Hm.
  eapply inside_bind; [apply inside_year; [done|rewrite length_drop; lia]|].
  intros [y p2] [Hy Hl2].
  eapply inside_bind; [apply inside_isoc_day; [done|exact Hl2]|]. intros [d p3] [Hd' Hl3].
  eapply inside_bind; [apply inside_clock; [done|exact Hl3]|].
  intros [[[h mi] s] y'] (Hh & Hmi & Hs & Hy'). cbn. lia.
Qed.

(** ** What the reader returns *)

Lemma date_parsed value f :
  parse_fields value = Go f -> 1 <= f_year f ->
  ngx_parse_http_time value =
    Some (if date_ok (f_year f) (f_month f + 1) (f_day f) (f_hour f) (f_min f) (f_sec f)
          then date_seconds (f_year f) (f_month f + 1) (f_day f) (f_hour f) (f_min f) (f_sec f)
          else NGX_ERROR).
Proof.
  intros Hp Hy. pose proof (inside_fields value) as H. rewrite Hp in H. cbn in H.
  unfold ngx_parse_http_time. rewrite Hp. by rewrite fields_seconds_spec by lia.
Qed.

(** A date of the calendar, from the first of the month on, and a time of the
    day. *)
Definition calendar_date (y m d h mi s : Z) : bool := (1 <=? d) && date_ok y m d h mi s.

(** What the numbers of a date are read as.  The day 00 is accepted for the day
    before the first of the month. *)
Definition date_value (y m d h mi s : Z) : Z :=
  if calendar_date y m d h mi s then date_seconds y m d h mi s
  else if (d =? 0) && calendar_date y m 1 h mi s then date_seconds y m 1 h mi s - 86400
  else NGX_ERROR.

Lemma date_value_ok y m d h mi s :
  1 <= m <= 12 -> 0 <= d ->
  date_value y m d h mi s = if date_ok y m d h mi s then date_seconds y m d h mi s else NGX_ERROR.
Proof.
  intros Hm Hd. unfold date_value, calendar_date.
  destruct (Z.eq_dec d 0) as [->|Hd0].
  - change (1 <=? 0) with false. change (1 <=? 1) with true. change (0 =? 0) with true. cbn [andb].
    assert (date_ok y m 1 h mi s = date_ok y m 0 h mi s) as ->.
    { unfold date_ok. assert (28 <= month_days y m) by (unfold month_days; case_ifs; lia).
      assert ((1 <=? month_days y m) = true) as -> by lia.
      by assert ((0 <=? month_days y m) = true) as -> by lia. }
    destruct (date_ok y m 0 h mi s); [|done]. unfold date_seconds, day_number. lia.
  - assert ((1 <=? d) = true) as -> by lia. assert ((d =? 0) = false) as -> by lia. done.
Qed.

(** C36: [ngx_parse_http_time] on any bytes reads nothing outside them and ends
    either with [NGX_ERROR] or with fields of at most four digits of the year,
    a month and two digits of the day; from the year 1 on, a date of the calendar
    then gives its time, counted year by year, the day 00 gives the day before
    the first of the month, to which the code does not object, and every other
    impossible date (the 31st of a short month, February 29 of a common year, an
    hour above 23) is [NGX_ERROR]. *)
Theorem parse_http_time_result value :
  ngx_parse_http_time value = Some NGX_ERROR \/
  exists f, parse_fields value = Go f /\
    (0 <= f_year f <= 9999 /\ 0 <= f_month f <= 11 /\ 0 <= f_day f <= 99) /\
    exists v, ngx_parse_http_time value = Some v /\
      (1 <= f_year f ->
       v = date_value (f_year f) (f_month f + 1) (f_day f) (f_hour f) (f_min f) (f_sec f)).
Proof.
  pose proof (inside_fields value) as H. destruct (parse_fields value) as [|v|f] eqn:E; [done| |].
  - left. unfold ngx_parse_http_time. rewrite E. by rewrite H.
  - right. exists f. cbn in H. split; [done|]. split; [lia|].
    exists (fields_seconds f). split; [unfold ngx_parse_http_time; by rewrite E|].
    intros Hy. rewrite fields_seconds_spec by lia. symmetry. apply date_value_ok; lia.
Qed.

(** C35: [ngx_parse_http_time] reads the three formats of HTTP dates, whatever
    the name of the weekday and whatever follows: RFC 1123, RFC 850 (where the
    years 70 to 99 are of the 20th century and those before of the 21st) and
    asctime.  A date of the calendar gives its time; the day 00 of a month, with
    a time of the day, gives the day before its first; any other two-digit
    numbers give [NGX_ERROR]. *)
Theorem parse_http_time_formats w y yy m d h mi s rest :
  plain_name w = true -> 1 <= y <= 9999 -> 0 <= yy <= 99 -> 1 <= m <= 12 ->
  0 <= d <= 99 -> 0 <= h <= 99 -> 0 <= mi <= 99 -> 0 <= s <= 99 ->
  let expected y := Some (date_value y m d h mi s) in
  ngx_parse_http_time (rfc1123_text w y m d h mi s ++ rest) = expected y /\
  ngx_parse_http_time (asctime_text w y m d h mi s ++ rest) = expected y /\
  ngx_parse_http_time (rfc850_text w yy m d h mi s ++ rest) =
    expected (yy + (if yy <? 70 then 2000 else 1900)).
Proof.
  intros Hw Hy Hyy Hm Hd Hh Hmi Hs expected.
  assert (1 <= yy + (if yy <? 70 then 2000 else 1900)) by (case_ifs; lia).
  split_and!; unfold expected; rewrite date_value_ok by lia.
  - rewrite (date_parsed _ (mk_fields y (m - 1) d h mi s)); cbn [f_year f_month f_day f_hour f_min f_sec];
      [by rewrite Z.sub_add|apply parse_rfc1123; lia || done|lia].
  - rewrite (date_parsed _ (mk_fields y (m - 1) d h mi s)); cbn [f_year f_month f_day f_hour f_min f_sec];
      [by rewrite Z.sub_add|apply parse_asctime; lia || done|lia].
  - rewrite (date_parsed _ (mk_fields (yy + (if yy <? 70 then 2000 else 1900)) (m - 1) d h mi s));
      cbn [f_year f_month f_day f_hour f_min f_sec];
      [by rewrite Z.sub_add|apply parse_rfc850; lia || done|lia].
Qed.

Lemma tm_date_parsed tm :
  tm_ok tm = true -> date_ok (ngx_tm_year tm) (ngx_tm_mon tm) (ngx_tm_mday tm) (ngx_tm_hour tm)
    (ngx_tm_min tm) (ngx_tm_sec tm) = true.
Proof. unfold tm_ok. rewrite !andb_true_iff. tauto. Qed.

Lemma length_rfc1123 w y m d h mi s :
  1 <= m <= 12 -> length (rfc1123_text w y m d h mi s) = (length w + 22)%nat.
Proof.
  intros H. destruct (month_names m H) as (_ & Hm & _).
  unfold rfc1123_text. rewrite !length_app, Hm. cbn. lia.
Qed.

(** The last second whose year [ngx_http_cookie_time] prints with two digits. *)
Definition Y2038 : Z := 2145916800.

Lemma year_before_2038 y m d h mi s :
  1970 <= y -> 1 <= m <= 12 -> 1 <= d -> 0 <= h -> 0 <= mi -> 0 <= s ->
  date_seconds y m d h mi s < Y2038 -> y <= 2037.
Proof.
  intros Hy Hm Hd Hh Hmi Hs. unfold Y2038, date_seconds. rewrite gauss_day_number by lia.
  unfold march_days. destruct (m <=? 2) eqn:?; lia.
Qed.

Lemma tm_before_2038 tm :
  tm_ok tm = true -> 1970 <= ngx_tm_year tm -> tm_seconds tm < Y2038 -> ngx_tm_year tm <= 2037.
Proof.
  intros Hok Hy H. destruct (tm_ok_ranges _ Hok) as (? & ? & ? & ? & ? & ?).
  unfold tm_seconds in H. apply year_before_2038 in H; lia.
Qed.

Lemma two_digit_year year :
  1970 <= year <= 2037 -> year mod 100 + (if year mod 100 <? 70 then 2000 else 1900) = year.
Proof. intros. case_ifs; lia. Qed.

Lemma cookie_text_rfc850 w yy m d h mi s :
  cookie_text w (d2 yy) m d h mi s = rfc850_text w yy m d h mi s.
Proof. done. Qed.

Lemma http_format_read buf tm :
  tm_ok tm = true -> 1970 <= ngx_tm_year tm <= 9999 -> 0 <= buf < 2 ^ 64 - 30 ->
  exists text, http_format buf tm = Some text /\
    length text = length (bytes "Mon, 28 Sep 1970 06:00:00 GMT") /\
    ngx_parse_http_time text = Some (tm_seconds tm).
Proof.
  intros Hok Hy Hb. destruct (tm_ok_ranges _ Hok) as (? & ? & ? & ? & ? & ?).
  destruct (week_names (ngx_tm_wday tm) ltac:(lia)) as (_ & Hlw & Hw).
  rewrite http_format_text by (done || lia). eexists. split; [done|].
  split; [by rewrite length_app, length_rfc1123, Hlw by lia|].
  rewrite (date_parsed _ (mk_fields (ngx_tm_year tm) (ngx_tm_mon tm - 1) (ngx_tm_mday tm)
    (ngx_tm_hour tm) (ngx_tm_min tm) (ngx_tm_sec tm))); cbn [f_year f_month f_day f_hour f_min f_sec].
  - rewrite Z.sub_add, tm_date_parsed by done. reflexivity.
  - apply parse_rfc1123; lia || done.
  - lia.
Qed.

Lemma cookie_format_read buf tm :
  tm_ok tm = true -> 1970 <= ngx_tm_year tm <= 2037 -> 0 <= buf < 2 ^ 64 - 32 ->
  exists text, cookie_format buf tm = Some text /\
    length text = length (bytes "Mon, 28-Sep-70 06:00:00 GMT") /\
    ngx_parse_http_time text = Some (tm_seconds tm).
Proof.
  intros Hok Hy Hb. destruct (tm_ok_ranges _ Hok) as (? & ? & ? & ? & ? & ?).
  destruct (week_names (ngx_tm_wday tm) ltac:(lia)) as (_ & Hlw & Hw).
  destruct (month_names (ngx_tm_mon tm) ltac:(lia)) as (_ & Hlm & _).
  rewrite cookie_format_text by (done || lia). assert ((2037 <? ngx_tm_year tm) = false) as -> by lia.
  eexists. split; [done|]. split.
  { unfold cookie_text. rewrite !length_app, Hlm, Hlw. reflexivity. }
  rewrite cookie_text_rfc850. pose proof (two_digit_year _ Hy) as Hc.
  rewrite (date_parsed _ (mk_fields (ngx_tm_year tm) (ngx_tm_mon tm - 1) (ngx_tm_mday tm)
    (ngx_tm_hour tm) (ngx_tm_min tm) (ngx_tm_sec tm))); cbn [f_year f_month f_day f_hour f_min f_sec].
  - rewrite Z.sub_add, tm_date_parsed by done. reflexivity.
  - rewrite <-Hc at 2. apply parse_rfc850; lia || done.
  - lia.
Qed.

(** C34: what [ngx_http_time] prints, [ngx_parse_http_time] reads back: until
    the year 10000 every time gives a text of exactly the 29 bytes that its
    buffers have room for, and reading the text gives the time.  The same holds of
    [ngx_http_cookie_time] until the year 2038, where it starts to print the
    century. *)
Theorem http_time_round_trip buf tm t :
  0 <= t < Y10K -> 0 <= buf < 2 ^ 64 - 32 ->
  (exists text, ngx_http_time buf tm t = Some text /\
    length text = length (bytes "Mon, 28 Sep 1970 06:00:00 GMT") /\
    ngx_parse_http_time text = Some t) /\
  (t < Y2038 -> exists text, ngx_http_cookie_time buf tm t = Some text /\
    length text = length (bytes "Mon, 28-Sep-70 06:00:00 GMT") /\
    ngx_parse_http_time text = Some t).
Proof.
  intros Ht Hb.
  destruct (gmtime_fields t tm ltac:(unfold TIME_LIMIT, Y10K in *; lia)) as (Hok & Hs & Hy & Hy' & _).
  specialize (Hy' (proj2 Ht)). unfold ngx_http_time, ngx_http_cookie_time.
  pose proof (http_format_read buf _ Hok) as H1. pose proof (cookie_format_read buf _ Hok) as H2.
  rewrite Hs in H1, H2.
  split; [apply H1; lia|]. intros Ht'. apply H2; [|lia]. split; [done|].
  apply (tm_before_2038 _ Hok); [done|]. by rewrite Hs.
Qed.

(** The day of the month is not compared with zero. *)
Example day_zero_accepted :
  ngx_parse_http_time (bytes "Sun, 00 Nov 1994 08:49:37 GMT") =
  ngx_parse_http_time (bytes "Mon, 31 Oct 1994 08:49:37 GMT").
Proof. vm_compute. reflexivity. Qed.

(** ** Witnesses *)

Lemma parse_http_time_formats_witness :
  ngx_parse_http_time (rfc850_text (bytes "Sunday") 94 11 6 8 49 37 ++ bytes " GMT")
  = Some 784111777.
Proof.
  pose proof (parse_http_time_formats (bytes "Sunday") 1994 94 11 6 8 49 37 (bytes " GMT")
    eq_refl ltac:(lia) ltac:(lia) ltac:(lia) ltac:(lia) ltac:(lia) ltac:(lia) ltac:(lia)) as H.
  transitivity (Some (date_value 1994 11 6 8 49 37));
    [exact (proj2 (proj2 H))|vm_compute; reflexivity].
Defined.

Lemma http_time_round_trip_witness :
  exists text, ngx_http_time 4096 some_tm 784111777 = Some text /\
    text = bytes "Sun, 06 Nov 1994 08:49:37 GMT" /\ ngx_parse_http_time text = Some 784111777.
Proof.
  destruct (http_time_round_trip 4096 some_tm 784111777 ltac:(unfold Y10K; lia) ltac:(lia))
    as [(text & H1 & _ & H3) _].
  exists text. split; [exact H1|]. split; [|exact H3].
  assert (ngx_http_time 4096 some_tm 784111777 = Some (bytes "Sun, 06 Nov 1994 08:49:37 GMT")) as E
    by (vm_compute; reflexivity).
  rewrite H1 in E. by injection E.
Defined.
