(* ===== verification/TimeCache.v ===== *)
(** * The time cache

    [ngx_time_init], [ngx_time_update] and [ngx_time_sigsafe_update] of
    [src/core/ngx_times.c], [ngx_localtime] of [src/os/unix/ngx_time.c].  The
    current time is kept, with the texts made of it, in rings of 64 slots; an
    update writes the next slot and only then moves the pointers that the rest of
    the program reads, so that a reader is not disturbed by a signal handler.

    [localtime_r] is a parameter; the time of day is an argument. *)

From S2P Require Import Prelude Sprintf Times TimeText.

Definition NGX_TIME_SLOTS : nat := 64.

(** ** State *)

Record ngx_time : Type := mk_time { t_sec : Z; t_msec : Z; t_gmtoff : Z }.

(** The rings, [slot], the lock, and the pointers into the rings: the slot that
    they point to, [None] before the first update. *)
Record time_state : Type := mk_ts {
  slot : nat;
  ngx_time_lock : Z;
  ngx_current_msec : Z;
  cached_gmtoff : Z;
  cached_time : list ngx_time;
  cached_http_time : list (list Z);
  cached_err_log_time : list (list Z);
  cached_http_log_time : list (list Z);
  cached_http_log_iso8601 : list (list Z);
  cached_syslog_time : list (list Z);
  ngx_cached_time : option nat;
  ngx_cached_http_time : option nat;
  ngx_cached_err_log_time : option nat;
  ngx_cached_http_log_time : option nat;
  ngx_cached_http_log_iso8601 : option nat;
  ngx_cached_syslog_time : option nat
}.

(** The lengths that [ngx_time_init] gives to the texts. *)
Definition err_log_len : nat := length (bytes "1970/09/28 12:00:00").
Definition http_len : nat := length (bytes "Mon, 28 Sep 1970 06:00:00 GMT").
Definition http_log_len : nat := length (bytes "28/Sep/1970:12:00:00 +0600").
Definition iso8601_len : nat := length (bytes "1970-09-28T12:00:00+06:00").
Definition syslog_len : nat := length (bytes "Sep 28 12:00:00").

(** The addresses of the rings. *)
Record rings : Type := mk_rings {
  at_http : Z; at_err_log : Z; at_http_log : Z; at_iso8601 : Z; at_syslog : Z
}.

(** [&ring[slot][0]]: an element holds the text and a NUL. *)
Definition element (ring : Z) (len slot : nat) : Z := ring + Z.of_nat (slot * (len + 1)).

(** Static storage is zero at the start. *)
Definition time_bss : time_state :=
  let texts := replicate NGX_TIME_SLOTS [] in
  mk_ts 0 0 0 0 (replicate NGX_TIME_SLOTS (mk_time 0 0 0)) texts texts texts texts texts
    None None None None None None.

(** ** The formats *)

Definition ngx_abs (value : Z) : Z := if 0 <=? value then value else - value.

Definition err_log_format (buf : Z) (tm : ngx_tm) : option (list Z) :=
  sprintf_at buf "%4d/%02d/%02d %02d:%02d:%02d"
    [VNum (ngx_tm_year tm); VNum (ngx_tm_mon tm); VNum (ngx_tm_mday tm);
     VNum (ngx_tm_hour tm); VNum (ngx_tm_min tm); VNum (ngx_tm_sec tm)].

Definition http_log_format (buf : Z) (tm : ngx_tm) (gmtoff : Z) : option (list Z) :=
  m ← name_of months (ngx_tm_mon tm - 1);
  sprintf_at buf "%02d/%s/%d:%02d:%02d:%02d %c%02i%02i"
    [VNum (ngx_tm_mday tm); VStr m; VNum (ngx_tm_year tm);
     VNum (ngx_tm_hour tm); VNum (ngx_tm_min tm); VNum (ngx_tm_sec tm);
     VNum (if gmtoff <? 0 then #"-" else #"+");
     VNum (ngx_abs (Z.quot gmtoff 60)); VNum (ngx_abs (Z.rem gmtoff 60))].

Definition iso8601_format (buf : Z) (tm : ngx_tm) (gmtoff : Z) : option (list Z) :=
  sprintf_at buf "%4d-%02d-%02dT%02d:%02d:%02d%c%02i:%02i"
    [VNum (ngx_tm_year tm); VNum (ngx_tm_mon tm); VNum (ngx_tm_mday tm);
     VNum (ngx_tm_hour tm); VNum (ngx_tm_min tm); VNum (ngx_tm_sec tm);
     VNum (if gmtoff <? 0 then #"-" else #"+");
     VNum (ngx_abs (Z.quot gmtoff 60)); VNum (ngx_abs (Z.rem gmtoff 60))].

Definition syslog_format (buf : Z) (tm : ngx_tm) : option (list Z) :=
  m ← name_of months (ngx_tm_mon tm - 1);
  sprintf_at buf "%s %2d %02d:%02d:%02d"
    [VStr m; VNum (ngx_tm_mday tm);
     VNum (ngx_tm_hour tm); VNum (ngx_tm_min tm); VNum (ngx_tm_sec tm)].

(** ** Updates *)

(** The next slot of the ring. *)
Definition next_slot (slot : nat) : nat :=
  if (slot =? NGX_TIME_SLOTS - 1)%nat then 0%nat else S slot.

Section Updates.
Context (localtime_r : Z -> ngx_tm) (r : rings).

Definition ngx_localtime (s : Z) : ngx_tm :=
  let tm := localtime_r s in
  mk_tm (ngx_tm_sec tm) (ngx_tm_min tm) (ngx_tm_hour tm) (ngx_tm_mday tm)
  (ngx_tm_mon tm + 1) (ngx_tm_year tm + 1900) (ngx_tm_wday tm) (ngx_tm_gmtoff tm).

(** [tv] is the time of day; [None] is a text that cannot be made. *)
Definition ngx_time_update (tv_sec tv_usec : Z) (st : time_state) : option time_state :=
  if negb (ngx_time_lock st =? 0) then Some st
  else
  let sec := tv_sec in
  let msec := Z.quot tv_usec 1000 in
  let current_msec := u64 (sec * 1000 + msec) in
  tp ← cached_time st !! slot st;
  if t_sec tp =? sec then
    Some (mk_ts (slot st) 0 current_msec (cached_gmtoff st)
      (<[slot st := mk_time (t_sec tp) msec (t_gmtoff tp)]> (cached_time st))
      (cached_http_time st) (cached_err_log_time st) (cached_http_log_time st)
      (cached_http_log_iso8601 st) (cached_syslog_time st)
      (ngx_cached_time st) (ngx_cached_http_time st) (ngx_cached_err_log_time st)
      (ngx_cached_http_log_time st) (ngx_cached_http_log_iso8601 st)
      (ngx_cached_syslog_time st))
  else
    let i := next_slot (slot st) in
    let gmt := ngx_gmtime sec some_tm in
    p0 ← http_format (element (at_http r) http_len i) gmt;
    let tm := ngx_localtime sec in
    let gmtoff := Z.quot (ngx_tm_gmtoff tm) 60 in
    p1 ← err_log_format (element (at_err_log r) err_log_len i) tm;
    p2 ← http_log_format (element (at_http_log r) http_log_len i) tm gmtoff;
    p3 ← iso8601_format (element (at_iso8601 r) iso8601_len i) tm gmtoff;
    p4 ← syslog_format (element (at_syslog r) syslog_len i) tm;
    Some (mk_ts i 0 current_msec gmtoff
      (<[i := mk_time sec msec gmtoff]> (cached_time st))
      (<[i := p0]> (cached_http_time st)) (<[i := p1]> (cached_err_log_time st))
      (<[i := p2]> (cached_http_log_time st)) (<[i := p3]> (cached_http_log_iso8601 st))
      (<[i := p4]> (cached_syslog_time st))
      (Some i) (Some i) (Some i) (Some i) (Some i) (Some i)).

(** In a signal handler: only the error log and syslog texts, with the offset of
  the last update; the slot gets the second 0. *)
Definition ngx_time_sigsafe_update (tv_sec : Z) (st : time_state) : option time_state :=
  if negb (ngx_time_lock st =? 0) then Some st
  else
  let sec := tv_sec in
  tp ← cached_time st !! slot st;
  if t_sec tp =? sec then Some st
  else
    let i := next_slot (slot st) in
    tp ← cached_time st !! i;
    let tm := ngx_gmtime (sec + cached_gmtoff st * 60) some_tm in
    p ← err_log_format (element (at_err_log r) err_log_len i) tm;
    p2 ← syslog_format (element (at_syslog r) syslog_len i) tm;
    Some (mk_ts i 0 (ngx_current_msec st) (cached_gmtoff st)
      (<[i := mk_time 0 (t_msec tp) (t_gmtoff tp)]> (cached_time st))
      (cached_http_time st) (<[i := p]> (cached_err_log_time st))
      (cached_http_log_time st) (cached_http_log_iso8601 st)
      (<[i := p2]> (cached_syslog_time st))
      (ngx_cached_time st) (ngx_cached_http_time st) (Some i)
      (ngx_cached_http_log_time st) (ngx_cached_http_log_iso8601 st) (Some i)).

Definition ngx_time_init (tv_sec tv_usec : Z) : option time_state :=
  ngx_time_update tv_sec tv_usec
  (mk_ts 0 0 0 0 (cached_time time_bss) (cached_http_time time_bss)
     (cached_err_log_time time_bss) (cached_http_log_time time_bss)
     (cached_http_log_iso8601 time_bss) (cached_syslog_time time_bss)
     (Some 0%nat) None None None None None).

(** What happens to a process: updates between events, and signals. *)
Inductive time_op : Type := Update (sec usec : Z) | Signal (sec : Z).

Definition time_step (st : time_state) (op : time_op) : option time_state :=
  match op with
  | Update sec usec => ngx_time_update sec usec st
  | Signal sec => ngx_time_sigsafe_update sec st
  end.

Fixpoint time_run (st : time_state) (ops : list time_op) : option time_state :=
  match ops with
  | [] => Some st
  | op :: ops' => match time_step st op with Some st' => time_run st' ops' | None => None end
  end.

End Updates.

(** *** Samples *)

(** A [localtime_r] for a zone [off] seconds east of Greenwich. *)
Definition zone (off : Z) (s : Z) : ngx_tm :=
  let tm := ngx_gmtime (s + off) some_tm in
  mk_tm (ngx_tm_sec tm) (ngx_tm_min tm) (ngx_tm_hour tm) (ngx_tm_mday tm)
    (ngx_tm_mon tm - 1) (ngx_tm_year tm - 1900) (ngx_tm_wday tm) off.

Definition some_rings : rings := mk_rings 4096 8192 12288 16384 20480.

(** What a reader finds at a pointer. *)
Definition published (ring : list (list Z)) (p : option nat) : option (list Z) :=
  i ← p; ring !! i.

Definition now (st : time_state) : option Z :=
  i ← ngx_cached_time st; t_sec <$> cached_time st !! i.

Example time_cache_sample :
  match ngx_time_init (zone (-12600)) some_rings 784111777 250000 with
  | Some st =>
      now st = Some 784111777 /\ ngx_current_msec st = 784111777250 /\
      published (cached_http_time st) (ngx_cached_http_time st)
        = Some (bytes "Sun, 06 Nov 1994 08:49:37 GMT") /\
      published (cached_err_log_time st) (ngx_cached_err_log_time st)
        = Some (bytes "1994/11/06 05:19:37") /\
      published (cached_http_log_time st) (ngx_cached_http_log_time st)
        = Some (bytes "06/Nov/1994:05:19:37 -0330") /\
      published (cached_http_log_iso8601 st) (ngx_cached_http_log_iso8601 st)
        = Some (bytes "1994-11-06T05:19:37-03:30") /\
      published (cached_syslog_time st) (ngx_cached_syslog_time st)
        = Some (bytes "Nov  6 05:19:37")
  | None => False
  end.
Proof. vm_compute. auto 10. Qed.

(** ** The texts fit their elements *)

#[local] Ltac Zify.zify_post_hook ::= Z.to_euclidean_division_equations.

(** The ring of texts of [len] bytes lies inside the address space. *)
Definition ring_ok (ring : Z) : Prop := 0 <= ring < 2 ^ 63.

Record rings_ok (r : rings) : Prop := mk_rings_ok {
  ok_http : ring_ok (at_http r); ok_err_log : ring_ok (at_err_log r);
  ok_http_log : ring_ok (at_http_log r); ok_iso8601 : ring_ok (at_iso8601 r);
  ok_syslog : ring_ok (at_syslog r)
}.

Lemma element_room ring len i :
  ring_ok ring -> (i < NGX_TIME_SLOTS)%nat -> (len <= 29)%nat ->
  0 <= element ring len i < 2 ^ 64 - 32.
Proof. unfold ring_ok, element, NGX_TIME_SLOTS. nia. Qed.

Lemma vl_c f cap out n fmt args :
  n = #"-" \/ n = #"+" -> Z.of_nat (length out) < cap ->
  vslprintf_loop (S f) cap out (#"%" :: #"c" :: fmt) (VNum n :: args) =
    vslprintf_loop f cap (out ++ [n]) fmt args.
Proof.
  intros Hn Hl. cbn [vslprintf_loop].
  assert ((Z.of_nat (length out) <? cap) = true) as -> by lia.
  by destruct Hn as [-> | ->].
Qed.

Ltac run_log_format :=
  run_format; try (rewrite vl_c by (done || fits); run_format); rewrite <-?app_assoc.

(** The offset in minutes and its parts. *)
Lemma gmtoff_parts off :
  -1440 < off < 1440 -> 0 <= ngx_abs (Z.quot off 60) < 100 /\ 0 <= ngx_abs (Z.rem off 60) < 100.
Proof. intros H. unfold ngx_abs. case_ifs; lia. Qed.

Lemma sign_char off : (if off <? 0 then #"-" else #"+") = #"-" \/ (if off <? 0 then #"-" else #"+") = #"+".
Proof. case_ifs; auto. Qed.

Definition tm_printable (tm : ngx_tm) : Prop :=
  tm_ok tm = true /\ 1000 <= ngx_tm_year tm <= 9999.

Lemma err_log_length buf tm :
  tm_printable tm -> 0 <= buf < 2 ^ 64 - 32 ->
  exists text, err_log_format buf tm = Some text /\ length text = err_log_len.
Proof.
  intros [Hok Hy] Hb. destruct (tm_ok_ranges tm Hok) as (? & ? & ? & ? & ? & ?).
  unfold err_log_format. run_log_format. eexists. split; [done|]. reflexivity.
Qed.

Lemma http_length buf tm :
  tm_printable tm -> 0 <= buf < 2 ^ 64 - 32 ->
  exists text, http_format buf tm = Some text /\ length text = http_len.
Proof.
  intros [Hok Hy] Hb. destruct (tm_ok_ranges tm Hok) as (? & ? & _).
  destruct (week_names (ngx_tm_wday tm) ltac:(lia)) as (_ & Hlw & _).
  rewrite http_format_text by (done || lia). eexists. split; [done|].
  by rewrite length_app, length_rfc1123, Hlw by lia.
Qed.

Lemma syslog_length buf tm :
  tm_printable tm -> 0 <= buf < 2 ^ 64 - 32 ->
  exists text, syslog_format buf tm = Some text /\ length text = syslog_len.
Proof.
  intros [Hok Hy] Hb. unfold syslog_format. month_text tm.
  run_log_format. eexists. split; [done|]. rewrite !length_app, Hlm, length_s2. reflexivity.
Qed.

Lemma iso8601_length buf tm off :
  tm_printable tm -> -1440 < off < 1440 -> 0 <= buf < 2 ^ 64 - 32 ->
  exists text, iso8601_format buf tm off = Some text /\ length text = iso8601_len.
Proof.
  intros [Hok Hy] Ho Hb. destruct (tm_ok_ranges tm Hok) as (? & ? & ? & ? & ? & ?).
  destruct (gmtoff_parts off Ho). pose proof (sign_char off) as Hs. unfold iso8601_format.
  set (oh := ngx_abs (Z.quot off 60)) in *. set (om := ngx_abs (Z.rem off 60)) in *.
  set (sg := if off <? 0 then _ else _) in *. clearbody oh om sg.
  run_log_format. eexists. split; [done|]. reflexivity.
Qed.

Lemma http_log_length buf tm off :
  tm_printable tm -> -1440 < off < 1440 -> 0 <= buf < 2 ^ 64 - 32 ->
  exists text, http_log_format buf tm off = Some text /\ length text = http_log_len.
Proof.
  intros [Hok Hy] Ho Hb.
  destruct (gmtoff_parts off Ho). pose proof (sign_char off) as Hs. unfold http_log_format.
  set (oh := ngx_abs (Z.quot off 60)) in *. set (om := ngx_abs (Z.rem off 60)) in *.
  set (sg := if off <? 0 then _ else _) in *. clearbody oh om sg. month_text tm.
  run_log_format. eexists. split; [done|]. rewrite !length_app, Hlm. reflexivity.
Qed.

(** ** The cache is consistent *)

(** The times that every zone prints with a four-digit year. *)
Definition clock_ok (s : Z) : Prop := 86400 <= s < Y10K - 86400.

(** What [localtime_r] promises: a date of the calendar with a four-digit year,
    less than a day from Greenwich. *)
Definition localtime_ok (localtime_r : Z -> ngx_tm) : Prop :=
  forall s, clock_ok s ->
    tm_printable (ngx_localtime localtime_r s) /\ -86400 < ngx_tm_gmtoff (localtime_r s) < 86400.

Lemma gmtime_printable s tm : 0 <= s < Y10K -> tm_printable (ngx_gmtime s tm).
Proof.
  intros Hs. destruct (gmtime_fields s tm ltac:(unfold TIME_LIMIT, Y10K in *; lia))
    as (Hok & _ & Hy & Hy' & _). specialize (Hy' (proj2 Hs)). split; [done|lia].
Qed.

Lemma next_slot_lt i : (i < NGX_TIME_SLOTS)%nat -> (next_slot i < NGX_TIME_SLOTS)%nat.
Proof. unfold next_slot, NGX_TIME_SLOTS. intros. destruct (Nat.eqb_spec i (64 - 1)); lia. Qed.

Lemma next_slot_mod i : (i < NGX_TIME_SLOTS)%nat -> next_slot i = (S i mod NGX_TIME_SLOTS)%nat.
Proof.
  unfold next_slot, NGX_TIME_SLOTS. intros. destruct (Nat.eqb_spec i (64 - 1)) as [->|]; [done|].
  rewrite Nat.mod_small by lia. done.
Qed.

Lemma bind_some {A B} (f : A -> option B) x : (Some x ≫= f) = f x.
Proof. reflexivity. Qed.

Lemma slot_ahead p k :
  (p < NGX_TIME_SLOTS)%nat -> (0 < k < NGX_TIME_SLOTS)%nat -> ((p + k) mod NGX_TIME_SLOTS)%nat <> p.
Proof.
  unfold NGX_TIME_SLOTS. intros Hp Hk Hm. destruct (Nat.lt_ge_cases (p + k) 64).
  - rewrite Nat.mod_small in Hm by done. lia.
  - replace (p + k)%nat with (p + k - 64 + 1 * 64)%nat in Hm by lia.
    rewrite Nat.Div0.mod_add, Nat.mod_small in Hm by lia. lia.
Qed.

Ltac project_state :=
  cbn [slot ngx_time_lock cached_gmtoff cached_time cached_http_time cached_err_log_time
    cached_http_log_time cached_http_log_iso8601 cached_syslog_time ngx_cached_time
    ngx_cached_http_time ngx_cached_err_log_time ngx_cached_http_log_time
    ngx_cached_http_log_iso8601 ngx_cached_syslog_time].

Section Consistent.
Context (localtime_r : Z -> ngx_tm) (r : rings).
Context (Hlocal : localtime_ok localtime_r) (Hrings : rings_ok r).

(** The pointers show slot [p], of the last [ngx_time_update]; [k] updates in
    signal handlers have gone on since. *)
Record cache_at (k : nat) (st : time_state) (p : nat) (tp : ngx_time) : Prop := mk_cache_at {
  ca_lock : ngx_time_lock st = 0;
  ca_signals : (k < NGX_TIME_SLOTS)%nat;
  ca_slot : slot st = ((p + k) mod NGX_TIME_SLOTS)%nat;
  ca_p : (p < NGX_TIME_SLOTS)%nat;
  ca_lengths : Forall (fun n => n = NGX_TIME_SLOTS)
    [length (cached_time st); length (cached_http_time st); length (cached_err_log_time st);
     length (cached_http_log_time st); length (cached_http_log_iso8601 st);
     length (cached_syslog_time st)];
  ca_pointers : ngx_cached_time st = Some p /\ ngx_cached_http_time st = Some p /\
    ngx_cached_http_log_time st = Some p /\ ngx_cached_http_log_iso8601 st = Some p /\
    ngx_cached_err_log_time st = Some (slot st) /\ ngx_cached_syslog_time st = Some (slot st);
  ca_time : cached_time st !! p = Some tp;
  ca_sec : clock_ok (t_sec tp);
  ca_gmtoff : cached_gmtoff st = t_gmtoff tp /\
    t_gmtoff tp = Z.quot (ngx_tm_gmtoff (localtime_r (t_sec tp))) 60;
  ca_signalled : (0 < k)%nat -> t_sec <$> cached_time st !! slot st = Some 0;
  ca_http : exists text, cached_http_time st !! p = Some text /\
    http_format (element (at_http r) http_len p) (ngx_gmtime (t_sec tp) some_tm) = Some text;
  ca_http_log : exists text, cached_http_log_time st !! p = Some text /\
    http_log_format (element (at_http_log r) http_log_len p)
      (ngx_localtime localtime_r (t_sec tp)) (t_gmtoff tp) = Some text;
  ca_iso8601 : exists text, cached_http_log_iso8601 st !! p = Some text /\
    iso8601_format (element (at_iso8601 r) iso8601_len p)
      (ngx_localtime localtime_r (t_sec tp)) (t_gmtoff tp) = Some text;
  ca_err_log : exists text, cached_err_log_time st !! slot st = Some text /\
    length text = err_log_len;
  ca_syslog : exists text, cached_syslog_time st !! slot st = Some text /\
    length text = syslog_len
}.

(** The state before the first update, and after it. *)
Definition rings_whole (st : time_state) : Prop :=
  ngx_time_lock st = 0 /\ (slot st < NGX_TIME_SLOTS)%nat /\
  Forall (fun n => n = NGX_TIME_SLOTS)
    [length (cached_time st); length (cached_http_time st); length (cached_err_log_time st);
     length (cached_http_log_time st); length (cached_http_log_iso8601 st);
     length (cached_syslog_time st)].

Lemma cache_at_whole k st p tp : cache_at k st p tp -> rings_whole st.
Proof.
  intros []. split; [done|]. split; [|done]. rewrite ca_slot0. by apply Nat.mod_upper_bound.
Qed.

(** An update in a new second moves everything to the next slot. *)
Lemma update_new_second sec usec st :
  rings_whole st -> clock_ok sec -> t_sec <$> cached_time st !! slot st <> Some sec ->
  exists st', ngx_time_update localtime_r r sec usec st = Some st' /\
    exists tp, t_sec tp = sec /\ cache_at 0 st' (next_slot (slot st)) tp.
Proof.
  intros (Hl & Hs & Hlen) Hsec Hne. destruct (Hlocal sec Hsec) as [Hloc Hoff].
  pose proof (next_slot_lt _ Hs) as Hi. set (i := next_slot (slot st)) in *.
  pose proof (gmtime_printable sec some_tm ltac:(unfold clock_ok, Y10K in *; lia)) as Hgmt.
  set (off := Z.quot (ngx_tm_gmtoff (localtime_r sec)) 60).
  assert (Ho : -1440 < off < 1440) by (unfold off; lia).
  destruct Hrings as [R1 R2 R3 R4 R5].
  assert (Hel : forall ring len, ring_ok ring -> (len <= 29)%nat ->
    0 <= element ring len i < 2 ^ 64 - 32) by (intros; by apply element_room).
  destruct (http_length (element (at_http r) http_len i) _ Hgmt) as (t0 & E0 & L0);
    [apply Hel; [done|cbn; lia]|].
  destruct (err_log_length (element (at_err_log r) err_log_len i) _ Hloc) as (t1 & E1 & L1);
    [apply Hel; [done|cbn; lia]|].
  destruct (http_log_length (element (at_http_log r) http_log_len i) _ off Hloc Ho) as (t2 & E2 & L2);
    [apply Hel; [done|cbn; lia]|].
  destruct (iso8601_length (element (at_iso8601 r) iso8601_len i) _ off Hloc Ho) as (t3 & E3 & L3);
    [apply Hel; [done|cbn; lia]|].
  destruct (syslog_length (element (at_syslog r) syslog_len i) _ Hloc) as (t4 & E4 & L4);
    [apply Hel; [done|cbn; lia]|].
  rewrite !Forall_cons in Hlen. destruct Hlen as (N0 & N1 & N2 & N3 & N4 & N5 & _).
  unfold ngx_time_update. rewrite Hl. cbn [Z.eqb negb].
  destruct (lookup_lt_is_Some_2 (cached_time st) (slot st)) as [tp Htp]; [by rewrite N0|].
  rewrite Htp in Hne |- *. cbn [fmap option_fmap option_map mbind option_bind] in *.
  assert ((t_sec tp =? sec) = false) as -> by (apply Z.eqb_neq; congruence).
  fold i. change (Z.quot (ngx_tm_gmtoff (ngx_localtime localtime_r sec)) 60) with off.
  rewrite E0, E1, E2, E3, E4. cbn [mbind option_bind]. eexists. split; [done|].
  exists (mk_time sec (Z.quot usec 1000) off). split; [done|].
  set (tp' := mk_time sec (Z.quot usec 1000) off).
  constructor; project_state; rewrite ?length_insert; try done.
  - unfold NGX_TIME_SLOTS. lia.
  - by rewrite Nat.add_0_r, Nat.mod_small.
  - rewrite N0, N1, N2, N3, N4, N5. repeat constructor.
  - apply list_lookup_insert_eq. by rewrite N0.
  - lia.
  - exists t0. split; [apply list_lookup_insert_eq; by rewrite N1|done].
  - exists t2. split; [apply list_lookup_insert_eq; by rewrite N3|done].
  - exists t3. split; [apply list_lookup_insert_eq; by rewrite N4|done].
  - exists t1. split; [apply list_lookup_insert_eq; by rewrite N2|done].
  - exists t4. split; [apply list_lookup_insert_eq; by rewrite N5|done].
Qed.

Lemma update_step k st p tp sec usec :
  cache_at k st p tp -> clock_ok sec ->
  exists st' p' tp', ngx_time_update localtime_r r sec usec st = Some st' /\ t_sec tp' = sec /\
    cache_at 0 st' p' tp'.
Proof.
  intros H Hsec. pose proof (cache_at_whole _ _ _ _ H) as Hw.
  destruct (decide (t_sec <$> cached_time st !! slot st = Some sec)) as [E|E].
  2: { destruct (update_new_second sec usec st Hw Hsec E) as (st' & E1 & tp' & E2 & E3). eauto 7. }
  destruct H as [Hl Hk Hslot Hp Hlen Hptr Htime Hs Hoff Hsig Hh Hhl Hiso He Hsy].
  assert (k = 0%nat) as ->.
  { destruct k; [done|]. rewrite Hsig in E by lia. injection E as <-.
    unfold clock_ok in Hsec. lia. }
  rewrite Nat.add_0_r, Nat.mod_small in Hslot by done. rewrite Hslot, Htime in E.
  injection E as E. subst sec.
  unfold ngx_time_update. rewrite Hl, Hslot, Htime. cbn [Z.eqb negb mbind option_bind].
  rewrite Z.eqb_refl. eexists _, p, (mk_time (t_sec tp) (Z.quot usec 1000) (t_gmtoff tp)).
  split; [done|]. split; [done|].
  pose proof Hlen as Hlen'. rewrite Forall_cons in Hlen'. destruct Hlen' as [N0 _].
  rewrite Hslot in Hptr, He, Hsy.
  constructor; project_state; cbn [t_sec t_gmtoff]; rewrite ?length_insert, ?Hslot; try assumption.
  - reflexivity.
  - by rewrite Nat.add_0_r, Nat.mod_small.
  - apply list_lookup_insert_eq. by rewrite N0.
  - lia.
Qed.

(** What a signal leaves: the next slot with the second 0. *)
Lemma signalled_state k st p tp msec off t1 t4 :
  cache_at k st p tp -> (k < NGX_TIME_SLOTS - 1)%nat ->
  length t1 = err_log_len -> length t4 = syslog_len ->
  let i := next_slot (slot st) in
  cache_at (S k) (mk_ts i 0 (ngx_current_msec st) (cached_gmtoff st)
    (<[i := mk_time 0 msec off]> (cached_time st))
    (cached_http_time st) (<[i := t1]> (cached_err_log_time st))
    (cached_http_log_time st) (cached_http_log_iso8601 st)
    (<[i := t4]> (cached_syslog_time st))
    (ngx_cached_time st) (ngx_cached_http_time st) (Some i)
    (ngx_cached_http_log_time st) (ngx_cached_http_log_iso8601 st) (Some i)) p tp.
Proof.
  intros H Hk1 L1 L4 i. pose proof (cache_at_whole _ _ _ _ H) as (_ & Hs & _).
  destruct H as [Hl Hk Hslot Hp Hlen Hptr Htime Hsp Hoff Hsig Hh Hhl Hiso He Hsy].
  pose proof Hlen as Hlen'. rewrite !Forall_cons in Hlen'.
  destruct Hlen' as (N0 & N1 & N2 & N3 & N4 & N5 & _).
  assert (Hi : (i < NGX_TIME_SLOTS)%nat) by (by apply next_slot_lt).
  assert (Hnext : i = ((p + S k) mod NGX_TIME_SLOTS)%nat).
  { unfold i. rewrite next_slot_mod by done. rewrite Hslot, <-Nat.add_1_r, Nat.Div0.add_mod_idemp_l.
    f_equal. lia. }
  assert (Hip : i <> p) by (rewrite Hnext; apply slot_ahead; [done|lia]).
  clearbody i. destruct Hptr as (P1 & P2 & P3 & P4 & P5 & P6).
  constructor; project_state; rewrite ?length_insert; try assumption.
  - reflexivity.
  - lia.
  - done.
  - by rewrite list_lookup_insert_ne.
  - intros _. by rewrite list_lookup_insert_eq by (by rewrite N0).
  - exists t1. split; [apply list_lookup_insert_eq; by rewrite N2|done].
  - exists t4. split; [apply list_lookup_insert_eq; by rewrite N5|done].
Qed.

Lemma signal_printable k st p tp sec :
  cache_at k st p tp -> clock_ok sec ->
  tm_printable (ngx_gmtime (sec + cached_gmtoff st * 60) some_tm).
Proof.
  intros H Hsec. destruct (ca_gmtoff _ _ _ _ H) as [-> ->].
  destruct (Hlocal _ (ca_sec _ _ _ _ H)) as [_ Ho].
  apply gmtime_printable. unfold clock_ok, Y10K in *. lia.
Qed.

Lemma signal_step k st p tp sec :
  cache_at k st p tp -> (k < NGX_TIME_SLOTS - 1)%nat -> clock_ok sec ->
  exists st' k', ngx_time_sigsafe_update r sec st = Some st' /\ (k' <= S k)%nat /\
    cache_at k' st' p tp.
Proof.
  intros H Hk1 Hsec. pose proof (cache_at_whole _ _ _ _ H) as (Hl & Hs & Hlen).
  rewrite !Forall_cons in Hlen. destruct Hlen as (N0 & _).
  unfold ngx_time_sigsafe_update. rewrite Hl. cbn [Z.eqb negb].
  destruct (lookup_lt_is_Some_2 (cached_time st) (slot st)) as [ts Hts]; [by rewrite N0|].
  rewrite Hts, bind_some. cbv beta zeta.
  destruct (t_sec ts =? sec) eqn:E.
  { exists st, k. split; [done|]. split; [lia|done]. }
  pose proof (next_slot_lt _ Hs) as Hi.
  destruct (lookup_lt_is_Some_2 (cached_time st) (next_slot (slot st))) as [ti Hti]; [by rewrite N0|].
  rewrite Hti, bind_some. cbv beta.
  assert (Hg : tm_printable (ngx_gmtime (sec + cached_gmtoff st * 60) some_tm)).
  { eapply signal_printable; [exact H|exact Hsec]. }
  destruct (err_log_length (element (at_err_log r) err_log_len (next_slot (slot st))) _ Hg)
    as (t1 & E1 & L1); [apply element_room; [apply Hrings|done|cbn; lia]|].
  destruct (syslog_length (element (at_syslog r) syslog_len (next_slot (slot st))) _ Hg)
    as (t4 & E4 & L4); [apply element_room; [apply Hrings|done|cbn; lia]|].
  rewrite E1, bind_some. cbv beta. rewrite E4, bind_some.
  eexists _, (S k). split; [done|]. split; [lia|]. by apply signalled_state.
Qed.

(** No more than 63 signals between two updates; [k] were there before. *)
Fixpoint signals_bounded (k : nat) (ops : list time_op) : bool :=
  match ops with
  | [] => true
  | Update _ _ :: ops' => signals_bounded 0 ops'
  | Signal _ :: ops' => (k <? NGX_TIME_SLOTS - 1)%nat && signals_bounded (S k) ops'
  end.

Definition op_sec (op : time_op) : Z := match op with Update sec _ => sec | Signal sec => sec end.

(** The second of the last update. *)
Definition last_update (ops : list time_op) (sec : Z) : Z :=
  fold_left (fun s op => match op with Update sec _ => sec | Signal _ => s end) ops sec.

Lemma signals_bounded_mono ops : forall k k',
  (k' <= k)%nat -> signals_bounded k ops = true -> signals_bounded k' ops = true.
Proof.
  induction ops as [|[sec usec|sec] ops IH]; intros k k' Hk; cbn [signals_bounded]; try done.
  rewrite !andb_true_iff, !Nat.ltb_lt. intros [H1 H2]. split; [lia|]. apply (IH (S k)); [lia|done].
Qed.

Lemma run_consistent ops : forall k st p tp,
  cache_at k st p tp -> Forall (fun op => clock_ok (op_sec op)) ops ->
  signals_bounded k ops = true ->
  exists st' k' p' tp', time_run localtime_r r st ops = Some st' /\ cache_at k' st' p' tp' /\
    t_sec tp' = last_update ops (t_sec tp).
Proof.
  induction ops as [|[sec usec|sec] ops IH]; intros k st p tp H Hops Hb.
  - exists st, k, p, tp. done.
  - apply Forall_cons in Hops as [Hsec Hops]. cbn [time_run time_step signals_bounded] in *.
    destruct (update_step k st p tp sec usec H Hsec) as (st1 & p1 & tp1 & -> & <- & H1).
    by apply (IH 0%nat st1 p1 tp1).
  - apply Forall_cons in Hops as [Hsec Hops]. cbn [time_run time_step signals_bounded] in *.
    apply andb_true_iff in Hb as [Hk Hb]. apply Nat.ltb_lt in Hk.
    destruct (signal_step k st p tp sec H Hk Hsec) as (st1 & k1 & -> & Hk1 & H1).
    apply (IH k1 st1 p tp); [done|done|]. by apply (signals_bounded_mono ops (S k)).
Qed.

Lemma cache_published k st p tp : cache_at k st p tp ->
  now st = Some (t_sec tp) /\
  (exists text, published (cached_http_time st) (ngx_cached_http_time st) = Some text /\
     length text = http_len /\ ngx_parse_http_time text = Some (t_sec tp)) /\
  (exists text, published (cached_http_log_time st) (ngx_cached_http_log_time st) = Some text /\
     length text = http_log_len) /\
  (exists text, published (cached_http_log_iso8601 st) (ngx_cached_http_log_iso8601 st) = Some text /\
     length text = iso8601_len) /\
  (exists text, published (cached_err_log_time st) (ngx_cached_err_log_time st) = Some text /\
     length text = err_log_len) /\
  (exists text, published (cached_syslog_time st) (ngx_cached_syslog_time st) = Some text /\
     length text = syslog_len).
Proof.
  intros [Hl Hk Hslot Hp Hlen (P1 & P2 & P3 & P4 & P5 & P6) Htime Hs [Ho1 Ho2] Hsig
    (t0 & T0 & F0) (t2 & T2 & F2) (t3 & T3 & F3) He Hsy].
  unfold now, published. rewrite P1, P2, P3, P4, P5, P6. cbn [mbind option_bind]. rewrite Htime.
  destruct Hrings as [R1 R2 R3 R4 R5]. destruct (Hlocal _ Hs) as [Hloc Hoff].
  assert (Hgo : -1440 < t_gmtoff tp < 1440) by (rewrite Ho2; lia).
  split; [done|]. split; [|split; [|split; [|by split]]].
  - exists t0. split; [done|].
    destruct (gmtime_fields (t_sec tp) some_tm
      ltac:(unfold clock_ok, TIME_LIMIT, Y10K in *; lia)) as (Hok & Hsec & Hy & Hy' & _).
    specialize (Hy' ltac:(unfold clock_ok in *; lia)).
    destruct (http_format_read (element (at_http r) http_len p) _ Hok) as (text & E & L & Hr);
      [lia|pose proof (element_room (at_http r) http_len p R1 Hp ltac:(cbn; lia)); lia|].
    rewrite F0 in E. injection E as <-. split; [done|]. by rewrite Hr, Hsec.
  - exists t2. split; [done|].
    destruct (http_log_length (element (at_http_log r) http_log_len p) _ _ Hloc Hgo)
      as (text & E & L); [by apply element_room; [| |cbn; lia]|].
    rewrite F2 in E. by injection E as <-.
  - exists t3. split; [done|].
    destruct (iso8601_length (element (at_iso8601 r) iso8601_len p) _ _ Hloc Hgo)
      as (text & E & L); [by apply element_room; [| |cbn; lia]|].
    rewrite F3 in E. by injection E as <-.
Qed.
End Consistent.

(** C37: the time that the program reads is consistent.  After
    [ngx_time_init] and any updates, of which no more than 63 in a row come from
    signal handlers, no text overflows the element it is printed in, [ngx_time()]
    is the second of the last [ngx_time_update], and the published HTTP date is
    the date of that second; each of the other texts has the length announced. *)
Theorem time_cache_consistent localtime_r r sec usec ops :
  localtime_ok localtime_r -> rings_ok r ->
  Forall (fun op => clock_ok (op_sec op)) (Update sec usec :: ops) ->
  signals_bounded 0 ops = true ->
  exists st0 st, ngx_time_init localtime_r r sec usec = Some st0 /\
    time_run localtime_r r st0 ops = Some st /\
    now st = Some (last_update ops sec) /\
    (exists text, published (cached_http_time st) (ngx_cached_http_time st) = Some text /\
       length text = http_len /\ ngx_parse_http_time text = now st) /\
    (exists text, published (cached_http_log_time st) (ngx_cached_http_log_time st) = Some text /\
       length text = http_log_len) /\
    (exists text, published (cached_http_log_iso8601 st) (ngx_cached_http_log_iso8601 st) = Some text /\
       length text = iso8601_len) /\
    (exists text, published (cached_err_log_time st) (ngx_cached_err_log_time st) = Some text /\
       length text = err_log_len) /\
    (exists text, published (cached_syslog_time st) (ngx_cached_syslog_time st) = Some text /\
       length text = syslog_len).
Proof.
  intros Hlocal Hrings Hops Hb. apply Forall_cons in Hops as [Hsec Hops]. cbn in Hsec.
  destruct (update_new_second localtime_r r Hlocal Hrings sec usec
    (mk_ts 0 0 0 0 (cached_time time_bss) (cached_http_time time_bss)
       (cached_err_log_time time_bss) (cached_http_log_time time_bss)
       (cached_http_log_iso8601 time_bss) (cached_syslog_time time_bss)
       (Some 0%nat) None None None None None)) as (st0 & E0 & tp0 & <- & H0).
  { split; [done|]. split; [unfold NGX_TIME_SLOTS; cbn; lia|]. repeat constructor. }
  { done. }
  { cbn. intros [= E]. unfold clock_ok in Hsec. lia. }
  destruct (run_consistent localtime_r r Hlocal Hrings ops _ _ _ _ H0 Hops Hb)
    as (st & k & p & tp & E & H & Hlast).
  exists st0, st. split; [done|]. split; [done|].
  destruct (cache_published localtime_r r Hlocal Hrings k st p tp H) as (Hn & H1 & H2).
  rewrite <-Hlast. rewrite Hn. done.
Qed.

(** ** Readers are not disturbed *)

(** The number of the update, among those that move on from slot [s], that
    writes slot [i]. *)
Definition ahead (s i : nat) : nat :=
  if (s <? i)%nat then i - s else i + NGX_TIME_SLOTS - s.

(** What can be read at slot [i] is the same. *)
Definition same_slot (i : nat) (st st' : time_state) : Prop :=
  t_sec <$> cached_time st' !! i = t_sec <$> cached_time st !! i /\
  cached_http_time st' !! i = cached_http_time st !! i /\
  cached_err_log_time st' !! i = cached_err_log_time st !! i /\
  cached_http_log_time st' !! i = cached_http_log_time st !! i /\
  cached_http_log_iso8601 st' !! i = cached_http_log_iso8601 st !! i /\
  cached_syslog_time st' !! i = cached_syslog_time st !! i.

#[export] Instance same_slot_preorder i : PreOrder (same_slot i).
Proof.
  split; [by intros st|]. intros st1 st2 st3 (A1 & A2 & A3 & A4 & A5 & A6) (B1 & B2 & B3 & B4 & B5 & B6).
  unfold same_slot. rewrite B1, B2, B3, B4, B5, B6. done.
Qed.

(** Takes the value of each step of a computation that succeeded. *)
Ltac take_binds H :=
  repeat match type of H with
  | (_ ≫= _) = Some _ => apply bind_Some in H as (? & ? & H); cbv beta zeta in H
  end.

Lemma update_keeps localtime_r r sec usec st st' i :
  ngx_time_update localtime_r r sec usec st = Some st' ->
  slot st' = slot st /\ same_slot i st st' \/
  slot st' = next_slot (slot st) /\ (i <> next_slot (slot st) -> same_slot i st st').
Proof.
  unfold ngx_time_update. destruct (negb _); [intros [= <-]; by left|]. cbv beta zeta. intros H.
  apply bind_Some in H as (tp & Htp & H). cbv beta in H. destruct (t_sec tp =? sec).
  - injection H as <-. left. split; [done|]. repeat split; try done. project_state.
    destruct (decide (i = slot st)) as [->|Hi]; [|by rewrite list_lookup_insert_ne].
    rewrite list_lookup_insert_eq by (by eapply lookup_lt_Some). by rewrite Htp.
  - take_binds H. injection H as <-. right. split; [done|]. intros Hi. unfold same_slot. project_state.
    by rewrite !list_lookup_insert_ne by done.
Qed.

Lemma signal_keeps r sec st st' i :
  ngx_time_sigsafe_update r sec st = Some st' ->
  slot st' = slot st /\ same_slot i st st' \/
  slot st' = next_slot (slot st) /\ (i <> next_slot (slot st) -> same_slot i st st').
Proof.
  unfold ngx_time_sigsafe_update. destruct (negb _); [intros [= <-]; by left|]. cbv beta zeta.
  intros H. apply bind_Some in H as (tp & Htp & H). cbv beta in H.
  destruct (t_sec tp =? sec); [injection H as <-; by left|].
  take_binds H. injection H as <-. right. split; [done|]. intros Hi. unfold same_slot. project_state.
  by rewrite !list_lookup_insert_ne by done.
Qed.

Lemma step_keeps localtime_r r op st st' i :
  time_step localtime_r r st op = Some st' ->
  slot st' = slot st /\ same_slot i st st' \/
  slot st' = next_slot (slot st) /\ (i <> next_slot (slot st) -> same_slot i st st').
Proof. destruct op; [apply update_keeps|apply signal_keeps]. Qed.

Lemma ahead_next s i :
  (s < NGX_TIME_SLOTS)%nat -> (i < NGX_TIME_SLOTS)%nat -> (1 < ahead s i)%nat ->
  i <> next_slot s /\ ahead s i = S (ahead (next_slot s) i).
Proof.
  unfold ahead, next_slot, NGX_TIME_SLOTS. intros Hs Hi.
  destruct (Nat.eqb_spec s (64 - 1)), (Nat.ltb_spec s i), (Nat.ltb_spec (S s) i),
    (Nat.ltb_spec 0 i); lia.
Qed.

(** A reader is not disturbed by updates that interrupt it.  What is at slot
    [i] of the rings stays as it is until the updates have gone round to it;
    for a pointer to the current slot these are 63 updates, for one that is [k]
    signals behind 63 - [k]. *)
Theorem reader_undisturbed localtime_r r ops st st' i :
  (slot st < NGX_TIME_SLOTS)%nat -> (i < NGX_TIME_SLOTS)%nat ->
  time_run localtime_r r st ops = Some st' -> (length ops < ahead (slot st) i)%nat ->
  same_slot i st st'.
Proof.
  revert st. induction ops as [|op ops IH]; intros st Hs Hi H Hl; [by injection H as <-|].
  cbn [time_run length] in H, Hl. destruct (time_step localtime_r r st op) as [st1|] eqn:E; [|done].
  destruct (step_keeps localtime_r r op st st1 i E) as [[Es Hk]|[Es Hk]].
  - transitivity st1; [done|]. apply IH; rewrite ?Es; [done|done|done|lia].
  - destruct (ahead_next (slot st) i Hs Hi ltac:(lia)) as [Hne Ha].
    transitivity st1; [by apply Hk|].
    apply IH; rewrite ?Es; [by apply next_slot_lt|done|done|lia].
Qed.

(** With 64 signals between two updates the handler comes to the slot that the
    pointers show, and [ngx_time()] is 0. *)
Example signals_wrap :
  let signals := map (fun i => Signal (784111777 + i)) (seqZ 1 64) in
  signals_bounded 0 signals = false /\
  match ngx_time_init (zone 0) some_rings 784111777 0 with
  | Some st =>
      match time_run (zone 0) some_rings st signals with
      | Some st' => now st = Some 784111777 /\ now st' = Some 0
      | None => False
      end
  | None => False
  end.
Proof. vm_compute. auto. Qed.

(** ** Witnesses *)

Lemma some_rings_ok : rings_ok some_rings.
Proof. repeat constructor; unfold ring_ok; cbn; lia. Qed.

Lemma zone_ok off : -86400 < off < 86400 -> localtime_ok (zone off).
Proof.
  intros Ho s Hs. unfold clock_ok, Y10K in Hs. split; [|done].
  pose proof (gmtime_printable (s + off) some_tm ltac:(unfold Y10K; lia)) as H.
  unfold ngx_localtime, zone. destruct (ngx_gmtime (s + off) some_tm) as [sc mi h d m y w o].
  cbn [ngx_tm_sec ngx_tm_min ngx_tm_hour ngx_tm_mday ngx_tm_mon ngx_tm_year ngx_tm_wday ngx_tm_gmtoff].
  rewrite !Z.sub_add. exact H.
Qed.

Lemma time_cache_consistent_witness :
  exists st0 st, ngx_time_init (zone 3600) some_rings 784111777 0 = Some st0 /\
    time_run (zone 3600) some_rings st0 [Signal 784111778; Signal 784111779; Update 784111780 5000]
      = Some st /\ now st = Some 784111780.
Proof.
  destruct (time_cache_consistent (zone 3600) some_rings 784111777 0
    [Signal 784111778; Signal 784111779; Update 784111780 5000])
    as (st0 & st & H0 & H1 & H2 & _).
  - apply zone_ok. lia.
  - apply some_rings_ok.
  - repeat constructor; unfold Y10K; cbn; lia.
  - reflexivity.
  - exists st0, st. split; [exact H0|]. split; [exact H1|exact H2].
Defined.

Lemma reader_undisturbed_witness :
  match ngx_time_init (zone 0) some_rings 784111777 0 with
  | Some st =>
      match time_run (zone 0) some_rings st (map (fun i => Signal (784111777 + i)) (seqZ 1 63)) with
      | Some st' => cached_err_log_time st' !! slot st = cached_err_log_time st !! slot st
      | None => False
      end
  | None => False
  end.
Proof.
  destruct (ngx_time_init (zone 0) some_rings 784111777 0) as [st|] eqn:E0;
    [|vm_compute in E0; discriminate E0].
  destruct (time_run (zone 0) some_rings st (map (fun i => Signal (784111777 + i)) (seqZ 1 63)))
    as [st'|] eqn:E1.
  - assert (slot st = 1%nat) as Hs by (vm_compute in E0; injection E0 as <-; reflexivity).
    refine (proj1 (proj2 (proj2 (reader_undisturbed (zone 0) some_rings
      (map (fun i => Signal (784111777 + i)) (seqZ 1 63)) st st' (slot st) _ _ E1 _))));
      rewrite ?Hs; vm_compute; repeat constructor.
  - vm_compute in E0. injection E0 as <-. vm_compute in E1. discriminate E1.
Defined.
