(* ===== verification/Atomic.v ===== *)
(** * Processes and atomic words

    What the locks of src/core share: the atomic operations of
    [src/os/unix/ngx_atomic.h] (the build with the GCC builtins), the spin loop
    of [ngx_spinlock] and its likes, and processes that take turns.

    A state machine is a shared word state [S] and, for each process, where it is
    ([L]).  One step is one access to shared memory; which process moves is not
    determined. *)

From S2P Require Import Prelude.

(** ** Atomic operations *)

Definition ngx_atomic_cmp_set (word old set : Z) : bool * Z :=
  if word =? old then (true, set) else (false, word).

(** The old value and the new contents. *)
Definition ngx_atomic_fetch_add (word add : Z) : Z * Z := (word, u64 (word + add)).

(** ** Spinning

    [for ( ;; ) { try; if (ngx_ncpu > 1) { for (n = 1; n < spin; n <<= 1)
    { pause; try; } } ...; }]: an attempt is [None] for the one outside the inner
    loop or [Some n].  [spin_next] is the attempt of the inner loop after one that
    failed; [None] if the inner loop is over or not entered. *)
Definition spin_next (ngx_ncpu spin : Z) (attempt : option Z) : option Z :=
  match attempt with
  | None => if (1 <? ngx_ncpu) && (1 <? spin) then Some 1 else None
  | Some n => let n := u64 (Z.shiftl n 1) in if n <? spin then Some n else None
  end.

Example spin_attempts :
  spin_next 4 2048 None = Some 1 /\ spin_next 4 2048 (Some 512) = Some 1024 /\
  spin_next 4 2048 (Some 1024) = None /\ spin_next 1 2048 None = None.
Proof. vm_compute. auto. Qed.

(** ** Sums over the processes *)

Definition sum_of {A} (f : A -> Z) (l : list A) : Z := foldr (fun x s => f x + s) 0 l.

Lemma sum_of_cons {A} (f : A -> Z) x l : sum_of f (x :: l) = f x + sum_of f l.
Proof. done. Qed.

Lemma sum_of_insert {A} (f : A -> Z) l i x y :
  l !! i = Some x -> sum_of f (<[i := y]> l) = sum_of f l - f x + f y.
Proof.
  revert i. induction l as [|z l IH]; intros [|i] H; cbn in H; try done.
  - injection H as ->. change (<[0%nat := y]> (x :: l)) with (y :: l). rewrite !sum_of_cons. lia.
  - change (<[S i := y]> (z :: l)) with (z :: <[i := y]> l). rewrite !sum_of_cons, (IH i H). lia.
Qed.

Lemma sum_of_nonneg {A} (f : A -> Z) l : (forall x, 0 <= f x) -> 0 <= sum_of f l.
Proof.
  intros Hf. induction l as [|x l IH]; [done|]. rewrite sum_of_cons. specialize (Hf x). lia.
Qed.

Lemma sum_of_le {A} (f g : A -> Z) l : (forall x, f x <= g x) -> sum_of f l <= sum_of g l.
Proof.
  intros Hf. induction l as [|x l IH]; [done|]. rewrite !sum_of_cons. specialize (Hf x). lia.
Qed.

Lemma sum_of_bound {A} (f : A -> Z) l b :
  (forall x, f x <= b) -> sum_of f l <= b * Z.of_nat (length l).
Proof.
  intros Hf. induction l as [|x l IH]; [cbn; lia|]. rewrite sum_of_cons. cbn [length].
  specialize (Hf x). lia.
Qed.

Lemma sum_of_elem {A} (f : A -> Z) l i x :
  (forall x, 0 <= f x) -> l !! i = Some x -> f x <= sum_of f l.
Proof.
  intros Hf. revert i. induction l as [|z l IH]; intros [|i] H; cbn in H; try done;
    rewrite sum_of_cons.
  - injection H as ->. pose proof (sum_of_nonneg f l Hf). lia.
  - specialize (IH i H). specialize (Hf z). lia.
Qed.

Lemma sum_of_two {A} (f : A -> Z) l i j x y :
  (forall x, 0 <= f x) -> i <> j -> l !! i = Some x -> l !! j = Some y ->
  f x + f y <= sum_of f l.
Proof.
  intros Hf. revert i j.
  induction l as [|z l IH]; intros [|i] [|j] Hij Hi Hj; cbn in Hi, Hj; try done; rewrite sum_of_cons.
  - injection Hi as ->. pose proof (sum_of_elem f l j y Hf Hj). lia.
  - injection Hj as ->. pose proof (sum_of_elem f l i x Hf Hi). lia.
  - specialize (IH i j ltac:(congruence) Hi Hj). specialize (Hf z). lia.
Qed.

Lemma sum_of_zero {A} (f : A -> Z) l :
  (forall x, 0 <= f x) -> sum_of f l = 0 -> forall i x, l !! i = Some x -> f x = 0.
Proof.
  intros Hf Hs i x H. pose proof (sum_of_elem f l i x Hf H). specialize (Hf x). lia.
Qed.

Lemma sum_of_positive {A} (f : A -> Z) l :
  0 < sum_of f l -> exists i x, l !! i = Some x /\ 0 < f x.
Proof.
  induction l as [|z l IH]; [done|]. rewrite sum_of_cons. intros H. destruct (Z_lt_le_dec 0 (f z)).
  - by exists 0%nat, z.
  - destruct IH as (i & x & Hi & Hx); [lia|]. by exists (S i), x.
Qed.

(** ** Reachable states *)

Section Reachable.
Context {S : Type} (step : S -> S -> Prop).

Inductive reachable (s0 : S) : S -> Prop :=
| reach_start : reachable s0 s0
| reach_step s s' : reachable s0 s -> step s s' -> reachable s0 s'.

Lemma reachable_invariant (I : S -> Prop) s0 s :
  I s0 -> (forall s s', I s -> step s s' -> I s') -> reachable s0 s -> I s.
Proof. intros H0 Hs. induction 1; eauto. Qed.

End Reachable.
