(* ===== verification/Rwlock.v ===== *)
(** * ngx_rwlock

    The readers-writer spin lock of [src/core/ngx_rwlock.c] in shared memory,
    as processes that take turns: a step is one access to the lock word, or a
    call.  [Writing] and [Reading] are the critical sections. *)

From S2P Require Import Prelude Atomic.

Definition NGX_RWLOCK_SPIN : Z := 2048.
Definition NGX_RWLOCK_WLOCK : Z := u64 (-1).

(** What a process that unlocks holds.  The code does not know: no step looks
    at it. *)
Inductive holder : Type := Writer | Reader.

(** Where a process is; [n] is the attempt of the spin loop. *)
Inductive rw_pc : Type :=
| Outside
| WLoad (n : option Z)                         (** wlock: [if ( *lock == 0 &&] *)
| WCas (n : option Z)                          (** [ngx_atomic_cmp_set(lock, 0, NGX_RWLOCK_WLOCK)] *)
| Writing
| RLoad (n : option Z)                         (** rlock: [readers = *lock;] *)
| RCas (n : option Z) (readers : Z)                  (** [ngx_atomic_cmp_set(lock, readers, readers + 1)] *)
| Reading
| ULoad (who : holder)                  (** unlock: [readers = *lock;] *)
| UStore (who : holder)                 (** [*lock = 0;] *)
| UCas (who : holder) (readers : Z)     (** [ngx_atomic_cmp_set(lock, readers, readers - 1)] *)
| UReload (who : holder).               (** [readers = *lock;] of the loop *)

Section Rwlock.
Context (ngx_ncpu : Z).

(** The next attempt; it is the outer one again, after [ngx_sched_yield()], when
    the spinning is over. *)
Definition next_attempt (n : option Z) : option Z := spin_next ngx_ncpu NGX_RWLOCK_SPIN n.

Definition wlock_access (lock : Z) (pc : rw_pc) : option (Z * rw_pc) :=
  match pc with
  | WLoad n => Some (lock, if lock =? 0 then WCas n else WLoad (next_attempt n))
  | WCas n =>
      let (ok, lock) := ngx_atomic_cmp_set lock 0 NGX_RWLOCK_WLOCK in
      Some (lock, if ok then Writing else WLoad (next_attempt n))
  | _ => None
  end.

Definition rlock_access (lock : Z) (pc : rw_pc) : option (Z * rw_pc) :=
  match pc with
  | RLoad n =>
      let readers := lock in
      Some (lock, if negb (readers =? NGX_RWLOCK_WLOCK) then RCas n readers
                  else RLoad (next_attempt n))
  | RCas n readers =>
      let (ok, lock) := ngx_atomic_cmp_set lock readers (u64 (readers + 1)) in
      Some (lock, if ok then Reading else RLoad (next_attempt n))
  | _ => None
  end.

Definition unlock_access (lock : Z) (pc : rw_pc) : option (Z * rw_pc) :=
  match pc with
  | ULoad who =>
      let readers := lock in
      Some (lock, if readers =? NGX_RWLOCK_WLOCK then UStore who else UCas who readers)
  | UStore who => Some (0, Outside)
  | UCas who readers =>
      let (ok, lock) := ngx_atomic_cmp_set lock readers (u64 (readers - 1)) in
      Some (lock, if ok then Outside else UReload who)
  | UReload who => Some (lock, UCas who lock)
  | _ => None
  end.

(** The next access of a process, inside one of the three functions. *)
Definition rw_access (lock : Z) (pc : rw_pc) : option (Z * rw_pc) :=
  match pc with
  | WLoad _ | WCas _ => wlock_access lock pc
  | RLoad _ | RCas _ _ => rlock_access lock pc
  | ULoad _ | UStore _ | UCas _ _ | UReload _ => unlock_access lock pc
  | Outside | Writing | Reading => None
  end.

(** Calls: only who holds the lock unlocks it. *)
Inductive rw_call : rw_pc -> rw_pc -> Prop :=
| ngx_rwlock_wlock : rw_call Outside (WLoad None)
| ngx_rwlock_rlock : rw_call Outside (RLoad None)
| ngx_rwlock_unlock_w : rw_call Writing (ULoad Writer)
| ngx_rwlock_unlock_r : rw_call Reading (ULoad Reader).

Record rw_state : Type := mk_rw { rw_lock : Z; rw_procs : list rw_pc }.

Inductive rw_step : rw_state -> rw_state -> Prop :=
| step_call lock procs i pc pc' :
    procs !! i = Some pc -> rw_call pc pc' ->
    rw_step (mk_rw lock procs) (mk_rw lock (<[i := pc']> procs))
| step_access lock procs i pc lock' pc' :
    procs !! i = Some pc -> rw_access lock pc = Some (lock', pc') ->
    rw_step (mk_rw lock procs) (mk_rw lock' (<[i := pc']> procs)).

Definition rw_init (n : nat) : rw_state := mk_rw 0 (replicate n Outside).

(** ** The invariant *)

Definition w_held (pc : rw_pc) : Z :=
  match pc with
  | Writing | ULoad Writer | UStore Writer | UCas Writer _ | UReload Writer => 1
  | _ => 0
  end.

Definition r_held (pc : rw_pc) : Z :=
  match pc with
  | Reading | ULoad Reader | UStore Reader | UCas Reader _ | UReload Reader => 1
  | _ => 0
  end.

(** A reader about to release a write lock, or a writer about to decrement, or
    an attempt to increment the word of a writer. *)
Definition astray (pc : rw_pc) : Z :=
  match pc with
  | UStore Reader | UCas Writer _ | UReload Writer => 1
  | RCas _ readers => if readers =? NGX_RWLOCK_WLOCK then 1 else 0
  | _ => 0
  end.

Lemma w_held_nonneg pc : 0 <= w_held pc.
Proof. destruct pc as [| | | | | | |[]|[]|[]|[]]; cbn; lia. Qed.

Lemma r_held_bound pc : 0 <= r_held pc <= 1.
Proof. destruct pc as [| | | | | | |[]|[]|[]|[]]; cbn; lia. Qed.

Lemma astray_nonneg pc : 0 <= astray pc.
Proof. destruct pc as [| | | | | | |[]|[]|[]|[]]; cbn; case_ifs; lia. Qed.

Record rw_inv (n : nat) (st : rw_state) : Prop := mk_rw_inv {
  inv_length : length (rw_procs st) = n;
  inv_astray : sum_of astray (rw_procs st) = 0;
  inv_word :
    rw_lock st = NGX_RWLOCK_WLOCK /\ sum_of w_held (rw_procs st) = 1 /\
      sum_of r_held (rw_procs st) = 0 \/
    rw_lock st = sum_of r_held (rw_procs st) /\ sum_of w_held (rw_procs st) = 0
}.

Lemma rw_init_inv n : rw_inv n (rw_init n).
Proof.
  assert (H : forall f, f Outside = 0 -> sum_of f (replicate n Outside) = 0).
  { intros f Hf. induction n as [|n IH]; [done|]. cbn [replicate]. rewrite sum_of_cons, Hf. lia. }
  constructor; cbn [rw_lock rw_procs rw_init]; [apply length_replicate|by apply H|].
  right. by rewrite !H.
Qed.

(** What one access does to the word and to what is held. *)
Lemma rw_access_effect n lock procs i pc lock' pc' :
  rw_inv n (mk_rw lock procs) -> Z.of_nat n < NGX_RWLOCK_WLOCK ->
  procs !! i = Some pc -> rw_access lock pc = Some (lock', pc') ->
  rw_inv n (mk_rw lock' (<[i := pc']> procs)).
Proof.
  intros [Hlen Hast Hword] Hn Hi H. cbn [rw_lock rw_procs] in *.
  pose proof (sum_of_zero astray procs astray_nonneg Hast i pc Hi) as Ha.
  pose proof (sum_of_elem w_held procs i pc w_held_nonneg Hi) as Hw.
  pose proof (sum_of_elem r_held procs i pc (fun x => proj1 (r_held_bound x)) Hi) as Hr.
  pose proof (sum_of_bound r_held procs 1 (fun x => proj2 (r_held_bound x))) as Hb.
  rewrite Hlen, Z.mul_1_l in Hb. change NGX_RWLOCK_WLOCK with (2 ^ 64 - 1) in *.
  constructor; cbn [rw_lock rw_procs]; [by rewrite length_insert| |];
    rewrite !(sum_of_insert _ procs i pc pc' Hi);
    destruct pc as [|k|k| |k|k v| |who|who|who v|who]; cbn in H; try done;
    try destruct who; cbn in H, Ha, Hw, Hr; unfold ngx_atomic_cmp_set in H; case_ifs_in H;
    case_ifs_in Ha;
    simplify_eq; cbn; unfold u64 in *; change NGX_RWLOCK_WLOCK with (2 ^ 64 - 1) in *;
    case_ifs; try lia; Z.to_euclidean_division_equations; lia.
Qed.

Lemma rw_step_inv n st st' :
  Z.of_nat n < NGX_RWLOCK_WLOCK -> rw_inv n st -> rw_step st st' -> rw_inv n st'.
Proof.
  intros Hn Hinv H. destruct H as [lock procs i pc pc' Hi H|lock procs i pc lock' pc' Hi H].
  - destruct Hinv as [Hlen Hast Hword]. cbn [rw_lock rw_procs] in *.
    constructor; cbn [rw_lock rw_procs]; [by rewrite length_insert| |]; rewrite !(sum_of_insert _ procs i pc pc' Hi);
      destruct H; cbn [astray w_held r_held]; lia.
  - by eapply rw_access_effect.
Qed.
End Rwlock.

Lemma rw_reachable_inv ngx_ncpu n st :
  Z.of_nat n < NGX_RWLOCK_WLOCK -> reachable (rw_step ngx_ncpu) (rw_init n) st -> rw_inv n st.
Proof.
  intros Hn. apply reachable_invariant; [apply rw_init_inv|]. intros s s'. by apply rw_step_inv.
Qed.

Definition held (pc : rw_pc) : Z := w_held pc + r_held pc.

(** C38: mutual exclusion of [ngx_rwlock], for any number of processes below
    2^64 - 1 and any order of their accesses.  While a process holds the write
    lock, from the successful exchange to the store that releases it, no other
    holds either lock; the word is -1 then, and the number of readers
    otherwise, so it never wraps into the writers' value; unlocking releases
    what is held: the store of zero is only reached by a writer, the decrement
    only by a reader. *)
Theorem rwlock_exclusive ngx_ncpu n st :
  Z.of_nat n < NGX_RWLOCK_WLOCK -> reachable (rw_step ngx_ncpu) (rw_init n) st ->
  (forall i j pi pj, i <> j -> rw_procs st !! i = Some pi -> rw_procs st !! j = Some pj ->
     w_held pi = 1 -> held pj = 0) /\
  (if rw_lock st =? NGX_RWLOCK_WLOCK then exists i pi, rw_procs st !! i = Some pi /\ w_held pi = 1
   else rw_lock st = sum_of r_held (rw_procs st)) /\
  (forall i, rw_procs st !! i <> Some (UStore Reader)) /\
  (forall i v, rw_procs st !! i <> Some (UCas Writer v)).
Proof.
  intros Hn H. apply rw_reachable_inv in H as [Hlen Hast Hword]; [|done].
  pose proof (fun x => proj1 (r_held_bound x)) as Hr0. split; [|split; [|split]].
  - intros i j pi pj Hij Hi Hj Hw.
    pose proof (sum_of_two w_held _ i j pi pj w_held_nonneg Hij Hi Hj) as H2.
    pose proof (sum_of_elem w_held _ i pi w_held_nonneg Hi).
    pose proof (sum_of_elem r_held _ j pj Hr0 Hj). pose proof (Hr0 pj). pose proof (w_held_nonneg pj).
    unfold held. lia.
  - pose proof (sum_of_bound r_held (rw_procs st) 1 (fun x => proj2 (r_held_bound x))) as Hb.
    destruct (rw_lock st =? NGX_RWLOCK_WLOCK) eqn:E; [|lia].
    destruct (sum_of_positive w_held (rw_procs st)) as (i & pi & Hi & Hp); [lia|].
    exists i, pi. split; [done|]. pose proof (sum_of_elem w_held _ i pi w_held_nonneg Hi). lia.
  - intros i Hi. by pose proof (sum_of_zero astray _ astray_nonneg Hast i _ Hi).
  - intros i v Hi. by pose proof (sum_of_zero astray _ astray_nonneg Hast i _ Hi).
Qed.

(** ** Progress *)

Definition waiting (pc : rw_pc) : bool :=
  match pc with WLoad _ | WCas _ | RLoad _ | RCas _ _ => true | _ => false end.

(** [k] accesses of waiting processes, in any order. *)
Inductive waiting_run (ngx_ncpu : Z) : nat -> rw_state -> rw_state -> Prop :=
| run_none st : waiting_run ngx_ncpu 0 st st
| run_access k lock procs i pc lock' pc' st :
    procs !! i = Some pc -> waiting pc = true ->
    rw_access ngx_ncpu lock pc = Some (lock', pc') ->
    waiting_run ngx_ncpu k (mk_rw lock' (<[i := pc']> procs)) st ->
    waiting_run ngx_ncpu (S k) (mk_rw lock procs) st.

(** The accesses a process may still need while the word stays 0: a stale
    exchange, a look and an exchange. *)
Definition to_go (pc : rw_pc) : Z :=
  match pc with
  | WLoad _ | RLoad _ => 2
  | WCas _ => 1
  | RCas _ readers => if readers =? 0 then 1 else 3
  | _ => 0
  end.

Lemma to_go_bound pc : 0 <= to_go pc <= 3.
Proof. destruct pc; cbn; case_ifs; lia. Qed.

Lemma held_nonneg pc : 0 <= held pc.
Proof. pose proof (w_held_nonneg pc). pose proof (r_held_bound pc). unfold held. lia. Qed.

(** With the word 0, an access of a waiting process takes the lock or brings it
    nearer. *)
Lemma free_access ngx_ncpu pc lock' pc' :
  waiting pc = true -> rw_access ngx_ncpu 0 pc = Some (lock', pc') ->
  held pc' = 1 \/ held pc' = 0 /\ lock' = 0 /\ waiting pc' = true /\ to_go pc' + 1 <= to_go pc.
Proof.
  destruct pc as [|k|k| |k|k v| |who|who|who v|who]; try done; intros _ H.
  - injection H as <- <-. right. split_and!; done || cbn; lia.
  - injection H as <- <-. by left.
  - injection H as <- <-. right. split_and!; done || cbn; lia.
  - cbn in H. unfold ngx_atomic_cmp_set in H. destruct (0 =? v) eqn:E; injection H as <- <-; [by left|].
    right. split_and!; try done. cbn. assert ((v =? 0) = false) as -> by lia. lia.
Qed.

(** Who waits gives up nothing. *)
Lemma waiting_access_held ngx_ncpu lock pc lock' pc' :
  waiting pc = true -> rw_access ngx_ncpu lock pc = Some (lock', pc') -> held pc = 0.
Proof. by destruct pc. Qed.

Lemma waiting_run_held ngx_ncpu k st st' :
  waiting_run ngx_ncpu k st st' -> 0 < sum_of held (rw_procs st) -> 0 < sum_of held (rw_procs st').
Proof.
  induction 1 as [|k lock procs i pc lock' pc' st' Hi Hw Ha _ IH]; intros Hp; [done|].
  apply IH. cbn [rw_procs] in *. rewrite (sum_of_insert held procs i pc pc' Hi).
  rewrite (waiting_access_held _ _ _ _ _ Hw Ha). pose proof (held_nonneg pc'). lia.
Qed.

Lemma waiting_run_takes ngx_ncpu k st st' :
  waiting_run ngx_ncpu k st st' -> rw_lock st = 0 -> sum_of to_go (rw_procs st) < Z.of_nat k ->
  0 < sum_of held (rw_procs st').
Proof.
  induction 1 as [|k lock procs i pc lock' pc' st' Hi Hw Ha Hrun IH]; cbn [rw_lock rw_procs];
    intros Hl Hk.
  { pose proof (sum_of_nonneg to_go (rw_procs st) (fun x => proj1 (to_go_bound x))). lia. }
  subst lock. destruct (free_access _ _ _ _ Hw Ha) as [Hh|(Hh & -> & Hw' & Hg)].
  - apply (waiting_run_held _ _ _ _ Hrun). cbn [rw_procs].
    pose proof (sum_of_elem held (<[i := pc']> procs) i pc' held_nonneg) as He.
    rewrite list_lookup_insert_eq in He by (by eapply lookup_lt_Some). specialize (He eq_refl). lia.
  - apply IH; cbn [rw_lock rw_procs]; [done|]. rewrite (sum_of_insert to_go procs i pc pc' Hi). lia.
Qed.

(** [ngx_rwlock] makes progress.  A waiting process can always make its
    next access, and when no process holds the lock, then within three accesses
    for each process, whichever of the waiting ones make them and in whatever
    order, one of them has it. *)
Theorem rwlock_progress ngx_ncpu n st :
  Z.of_nat n < NGX_RWLOCK_WLOCK -> reachable (rw_step ngx_ncpu) (rw_init n) st ->
  (forall i pc, rw_procs st !! i = Some pc -> waiting pc = true ->
     exists lock' pc', rw_access ngx_ncpu (rw_lock st) pc = Some (lock', pc')) /\
  (sum_of held (rw_procs st) = 0 ->
   forall k st', (3 * n < k)%nat -> waiting_run ngx_ncpu k st st' ->
   exists i pc, rw_procs st' !! i = Some pc /\ 0 < held pc).
Proof.
  intros Hn H. apply rw_reachable_inv in H as [Hlen Hast Hword]; [|done]. split.
  - intros i pc _ Hw. destruct pc; try done; cbn; try (by eauto);
      unfold ngx_atomic_cmp_set; case_ifs; eauto.
  - intros Hfree k st' Hk Hrun. apply sum_of_positive. apply (waiting_run_takes _ _ _ _ Hrun).
    + assert (Hw : sum_of w_held (rw_procs st) <= sum_of held (rw_procs st)).
      { apply sum_of_le. intros x. pose proof (r_held_bound x). unfold held. lia. }
      assert (Hr : sum_of r_held (rw_procs st) <= sum_of held (rw_procs st)).
      { apply sum_of_le. intros x. pose proof (w_held_nonneg x). unfold held. lia. }
      pose proof (sum_of_nonneg r_held (rw_procs st) (fun x => proj1 (r_held_bound x))). lia.
    + pose proof (sum_of_bound to_go (rw_procs st) 3 (fun x => proj2 (to_go_bound x))). lia.
Qed.

(** ** Schedules *)

(** Runs a list of turns: a call, or the process's next access. *)
Definition rw_turn (ngx_ncpu : Z) (st : rw_state) (turn : nat * option rw_pc) : option rw_state :=
  let (i, call) := turn in
  match rw_procs st !! i with
  | None => None
  | Some pc =>
      match call with
      | Some pc' =>
          match pc, pc' with
          | Outside, WLoad None | Outside, RLoad None | Writing, ULoad Writer | Reading, ULoad Reader =>
              Some (mk_rw (rw_lock st) (<[i := pc']> (rw_procs st)))
          | _, _ => None
          end
      | None =>
          match rw_access ngx_ncpu (rw_lock st) pc with
          | Some (lock', pc') => Some (mk_rw lock' (<[i := pc']> (rw_procs st)))
          | None => None
          end
      end
  end.

Fixpoint rw_schedule (ngx_ncpu : Z) (st : rw_state) (turns : list (nat * option rw_pc))
    : option rw_state :=
  match turns with
  | [] => Some st
  | t :: turns' =>
      match rw_turn ngx_ncpu st t with
      | Some st' => rw_schedule ngx_ncpu st' turns'
      | None => None
      end
  end.

Lemma rw_turn_step ngx_ncpu st turn st' :
  rw_turn ngx_ncpu st turn = Some st' -> rw_step ngx_ncpu st st'.
Proof.
  destruct st as [lock procs], turn as [i [pc'|]]; cbn; destruct (procs !! i) as [pc|] eqn:E; try done.
  - intros H. assert (rw_call pc pc' /\ st' = mk_rw lock (<[i := pc']> procs)) as [Hc ->].
    { destruct pc; try done; destruct pc' as [|[]| | |[]| | |[]| | |]; try done; injection H as <-;
        split; try done; constructor. }
    by apply (step_call ngx_ncpu lock procs i pc).
  - destruct (rw_access ngx_ncpu lock pc) as [[lock' pc']|] eqn:Ea; [|done]. intros [= <-].
    by apply (step_access ngx_ncpu lock procs i pc).
Qed.

Lemma rw_schedule_reachable ngx_ncpu s0 turns : forall st st',
  reachable (rw_step ngx_ncpu) s0 st -> rw_schedule ngx_ncpu st turns = Some st' ->
  reachable (rw_step ngx_ncpu) s0 st'.
Proof.
  induction turns as [|t turns IH]; intros st st' Hr H; cbn in H; [by injection H as <-|].
  destruct (rw_turn ngx_ncpu st t) as [st1|] eqn:E; [|done]. apply (IH st1 st'); [|done].
  eapply reach_step; [done|by eapply rw_turn_step].
Qed.

(** Two readers enter, a writer waits for both. *)
Definition rw_story : list (nat * option rw_pc) :=
  [(0, Some (RLoad None)); (1, Some (RLoad None)); (0, None); (1, None); (1, None); (0, None);
   (0, None); (0, None); (2, Some (WLoad None)); (2, None); (0, Some (ULoad Reader)); (0, None);
   (0, None); (1, Some (ULoad Reader)); (1, None); (1, None); (2, None); (2, None)]%nat.

Example rw_story_ends :
  rw_schedule 2 (rw_init 3) rw_story = Some (mk_rw (2 ^ 64 - 1) [Outside; Outside; Writing]) /\
  rw_schedule 2 (rw_init 3) (take 8 rw_story) = Some (mk_rw 2 [Reading; Reading; Outside]).
Proof. vm_compute. auto. Qed.

(** ** Witnesses *)

Lemma rwlock_exclusive_witness :
  exists st, rw_schedule 2 (rw_init 3) rw_story = Some st /\
    forall j pj, j <> 2%nat -> rw_procs st !! j = Some pj -> held pj = 0.
Proof.
  destruct (rw_schedule 2 (rw_init 3) rw_story) as [st|] eqn:E; [|vm_compute in E; discriminate E].
  exists st. split; [reflexivity|]. intros j pj Hj Hpj.
  refine (proj1 (rwlock_exclusive 2 3 st _ _) 2%nat j Writing pj _ _ Hpj eq_refl).
  - vm_compute. reflexivity.
  - apply (rw_schedule_reachable 2 _ rw_story (rw_init 3)); [constructor|exact E].
  - congruence.
  - vm_compute in E. injection E as <-. reflexivity.
Defined.

(** Seven accesses of two writers: the first gets the lock, the second spins. *)
Lemma rw_contention :
  waiting_run 1 7 (mk_rw 0 [WLoad None; WLoad None]) (mk_rw (2 ^ 64 - 1) [Writing; WLoad None]).
Proof.
  apply (run_access 1 6 0 [WLoad None; WLoad None] 0 (WLoad None) 0 (WCas None)); try reflexivity.
  apply (run_access 1 5 0 [WCas None; WLoad None] 0 (WCas None) (2 ^ 64 - 1) Writing); try reflexivity.
  do 5 (apply (run_access 1 _ (2 ^ 64 - 1) [Writing; WLoad None] 1 (WLoad None) (2 ^ 64 - 1) (WLoad None));
    try reflexivity).
  constructor.
Qed.

Lemma rwlock_progress_witness :
  exists i pc, [Writing; WLoad None] !! i = Some pc /\ 0 < held pc.
Proof.
  refine (proj2 (rwlock_progress 1 2 (mk_rw 0 [WLoad None; WLoad None]) _ _) eq_refl 7%nat
    (mk_rw (2 ^ 64 - 1) [Writing; WLoad None]) _ rw_contention).
  - vm_compute. reflexivity.
  - apply (rw_schedule_reachable 1 _ [(0%nat, Some (WLoad None)); (1%nat, Some (WLoad None))] (rw_init 2));
      [constructor|reflexivity].
  - lia.
Defined.
