(* ===== verification/Shmtx.v ===== *)
(** * ngx_shmtx

    The mutex in shared memory of [src/core/ngx_shmtx.c] (the build with atomic
    operations and POSIX semaphores), as processes that take turns: a step is one
    access to the lock word, the count of waiters or the semaphore, or a call.
    [Holding] is the critical section; a process may die in it.

    A semaphore that is initialised makes [sem_wait] fail with [EINTR] only,
    after which the code calls it again. *)

From S2P Require Import Prelude Atomic.

(** ** State *)

(** The shared words and the value of the semaphore. *)
Record sh_mem : Type := mk_sh { sh_lock : Z; sh_wait : Z; sh_sem : Z }.

(** Where a process is. *)
Inductive sh_pc : Type :=
| Outside
| TryLoad                   (** trylock: [*mtx->lock == 0 &&] *)
| TryCas                    (** [ngx_atomic_cmp_set(mtx->lock, 0, ngx_pid)] *)
| Load (n : option Z)       (** lock: [*mtx->lock == 0 &&], attempt [n] of the spin loop *)
| Cas (n : option Z)
| WaitAdd                   (** [ngx_atomic_fetch_add(mtx->wait, 1)] *)
| LastLoad                  (** the attempt after it *)
| LastCas
| WaitSub                   (** [ngx_atomic_fetch_add(mtx->wait, -1)], with the lock *)
| SemWait                   (** [sem_wait(&mtx->sem)] *)
| Holding
| Unlock                    (** [ngx_atomic_cmp_set(mtx->lock, ngx_pid, 0)] *)
| ForceUnlock (pid : Z)     (** [ngx_atomic_cmp_set(mtx->lock, pid, 0)] *)
| WakeLoad                  (** wakeup: [wait = *mtx->wait;] *)
| WakeCas (wait : Z)        (** [ngx_atomic_cmp_set(mtx->wait, wait, wait - 1)] *)
| SemPost                   (** [sem_post(&mtx->sem)] *)
| Dead.

(** A process: its [ngx_pid] and where it is. *)
Record sh_proc : Type := mk_proc { ngx_pid : Z; sh_at : sh_pc }.

Section Shmtx.
(** [mtx->spin], which [ngx_shmtx_create] sets to 2048 unless it is -1, and
    [mtx->semaphore], which it sets if [sem_init] succeeds. *)
Context (ngx_ncpu spin : Z) (semaphore : bool).

(** After an attempt that failed: the next one, or the end of the loop's body. *)
Definition after_attempt (n : option Z) : sh_pc :=
  match spin_next ngx_ncpu spin n with
  | Some n' => Load (Some n')
  | None => if semaphore then WaitAdd else Load None
  end.

Definition set_lock (lock : Z) (m : sh_mem) : sh_mem := mk_sh lock (sh_wait m) (sh_sem m).
Definition set_wait (wait : Z) (m : sh_mem) : sh_mem := mk_sh (sh_lock m) wait (sh_sem m).
Definition set_sem (sem : Z) (m : sh_mem) : sh_mem := mk_sh (sh_lock m) (sh_wait m) sem.

(** [ngx_atomic_cmp_set(mtx->lock, old, set)] and where it leads. *)
Definition lock_cas (m : sh_mem) (old set : Z) (won lost : sh_pc) : option (sh_mem * sh_pc) :=
  let (ok, lock) := ngx_atomic_cmp_set (sh_lock m) old set in
  Some (set_lock lock m, if ok then won else lost).

Definition trylock_access (pid : Z) (m : sh_mem) (pc : sh_pc) : option (sh_mem * sh_pc) :=
  match pc with
  | TryLoad => Some (m, if sh_lock m =? 0 then TryCas else Outside)
  | TryCas => lock_cas m 0 pid Holding Outside
  | _ => None
  end.

Definition lock_access (pid : Z) (m : sh_mem) (pc : sh_pc) : option (sh_mem * sh_pc) :=
  match pc with
  | Load n => Some (m, if sh_lock m =? 0 then Cas n else after_attempt n)
  | Cas n => lock_cas m 0 pid Holding (after_attempt n)
  | WaitAdd => Some (set_wait (snd (ngx_atomic_fetch_add (sh_wait m) 1)) m, LastLoad)
  | LastLoad => Some (m, if sh_lock m =? 0 then LastCas else SemWait)
  | LastCas => lock_cas m 0 pid WaitSub SemWait
  | WaitSub => Some (set_wait (snd (ngx_atomic_fetch_add (sh_wait m) (-1))) m, Holding)
  | SemWait => if 0 <? sh_sem m then Some (set_sem (sh_sem m - 1) m, Load None) else None
  | _ => None
  end.

(** [ngx_shmtx_wakeup] is entered when the lock has been released. *)
Definition wakeup : sh_pc := if semaphore then WakeLoad else Outside.

Definition unlock_access (pid : Z) (m : sh_mem) (pc : sh_pc) : option (sh_mem * sh_pc) :=
  match pc with
  | Unlock => lock_cas m pid 0 wakeup Outside
  | ForceUnlock pid' => lock_cas m pid' 0 wakeup Outside
  | WakeLoad =>
      let wait := sh_wait m in Some (m, if i64 wait <=? 0 then Outside else WakeCas wait)
  | WakeCas wait =>
      let (ok, w) := ngx_atomic_cmp_set (sh_wait m) wait (u64 (wait - 1)) in
      Some (set_wait w m, if ok then SemPost else WakeLoad)
  | SemPost => Some (set_sem (sh_sem m + 1) m, Outside)
  | _ => None
  end.

(** The next access of a process; [None]: it is not in one of the functions,
    or blocked. *)
Definition sh_access (pid : Z) (m : sh_mem) (pc : sh_pc) : option (sh_mem * sh_pc) :=
  match pc with
  | TryLoad | TryCas => trylock_access pid m pc
  | Load _ | Cas _ | WaitAdd | LastLoad | LastCas | WaitSub | SemWait => lock_access pid m pc
  | Unlock | ForceUnlock _ | WakeLoad | WakeCas _ | SemPost => unlock_access pid m pc
  | Outside | Holding | Dead => None
  end.

Record sh_state : Type := mk_st { sh_words : sh_mem; sh_procs : list sh_proc }.

(** Calls, and death.  [ngx_shmtx_unlock] may be called without the lock;
    [ngx_shmtx_force_unlock] is called for a process that has ended. *)
Inductive sh_call (procs : list sh_proc) : sh_pc -> sh_pc -> Prop :=
| ngx_shmtx_trylock : sh_call procs Outside TryLoad
| ngx_shmtx_lock : sh_call procs Outside (Load None)
| ngx_shmtx_unlock : sh_call procs Holding Unlock
| ngx_shmtx_unlock_free : sh_call procs Outside Unlock
| ngx_shmtx_force_unlock pid : mk_proc pid Dead ∈ procs -> sh_call procs Outside (ForceUnlock pid)
| dies_holding : sh_call procs Holding Dead
| dies_outside : sh_call procs Outside Dead.

Inductive sh_step : sh_state -> sh_state -> Prop :=
| step_call m procs i pid pc pc' :
    procs !! i = Some (mk_proc pid pc) -> sh_call procs pc pc' ->
    sh_step (mk_st m procs) (mk_st m (<[i := mk_proc pid pc']> procs))
| step_access m procs i pid pc m' pc' :
    procs !! i = Some (mk_proc pid pc) -> sh_access pid m pc = Some (m', pc') ->
    sh_step (mk_st m procs) (mk_st m' (<[i := mk_proc pid pc']> procs)).

Definition sh_init (pids : list Z) : sh_state :=
  mk_st (mk_sh 0 0 0) (map (fun pid => mk_proc pid Outside) pids).
End Shmtx.

(** [mtx->spin] and [mtx->semaphore] after [ngx_shmtx_create]; [sem_init] is its
    result. *)
Definition ngx_shmtx_create (spin : Z) (semaphore : bool) (sem_init : Z) : Z * bool :=
  if spin =? u64 (-1) then (spin, semaphore)
  else (2048, if sem_init =? -1 then semaphore else true).

(** ** The owner of the lock *)

(** Who is here has the lock, and who is here has it not; a process that unlocks
    or is dead may have it. *)
Definition owns (pc : sh_pc) : bool := match pc with Holding | WaitSub => true | _ => false end.
Definition may_own (pc : sh_pc) : bool :=
  match pc with Holding | WaitSub | Unlock | Dead => true | _ => false end.

(** Counted in [mtx->wait], and about to post. *)
Definition waiter (p : sh_proc) : Z :=
  match sh_at p with LastLoad | LastCas | WaitSub | SemWait => 1 | _ => 0 end.
Definition posting (p : sh_proc) : Z := match sh_at p with SemPost => 1 | _ => 0 end.

(** Will look at the lock, or wake another, before it leaves or sleeps. *)
Definition active (pc : sh_pc) : bool :=
  match pc with
  | TryLoad | TryCas | Load _ | Cas _ | WaitAdd | LastLoad | LastCas
  | WakeLoad | WakeCas _ | SemPost => true
  | _ => false
  end.

Definition proc_ok (m : sh_mem) (procs : list sh_proc) (p : sh_proc) : Prop :=
  (owns (sh_at p) = true -> sh_lock m = ngx_pid p) /\
  (sh_lock m = ngx_pid p -> may_own (sh_at p) = true) /\
  match sh_at p with
  | ForceUnlock pid => mk_proc pid Dead ∈ procs
  | WakeCas wait => 0 < i64 wait /\ 0 <= wait < 2 ^ 64
  | _ => True
  end.

Record sh_inv (semaphore : bool) (pids : list Z) (st : sh_state) : Prop := mk_sh_inv {
  si_pids : map ngx_pid (sh_procs st) = pids;
  si_procs : forall i p, sh_procs st !! i = Some p -> proc_ok (sh_words st) (sh_procs st) p;
  si_wait : exists W, sh_wait (sh_words st) = u64 W /\
    W = sum_of waiter (sh_procs st) - sum_of posting (sh_procs st) - sh_sem (sh_words st) /\
    (semaphore = true -> sh_lock (sh_words st) = 0 -> W <= 0 \/ 0 < sh_sem (sh_words st) \/
       exists i p, sh_procs st !! i = Some p /\ active (sh_at p) = true);
  si_sem : 0 <= sh_sem (sh_words st) /\
    sum_of posting (sh_procs st) + sh_sem (sh_words st) <= Z.of_nat (length pids)
}.

Lemma waiter_bound p : 0 <= waiter p <= 1.
Proof. unfold waiter. destruct (sh_at p); lia. Qed.

Lemma posting_bound p : 0 <= posting p <= 1.
Proof. unfold posting. destruct (sh_at p); lia. Qed.

Section Invariant.
Context (ngx_ncpu spin : Z) (semaphore : bool) (pids : list Z).
Context (Hdup : NoDup pids) (Hpids : Forall (fun pid => 0 < pid) pids).
Context (Hmany : Z.of_nat (length pids) < 2 ^ 62).

Lemma after_attempt_cases n :
  (exists k, after_attempt ngx_ncpu spin semaphore n = Load k) \/
  after_attempt ngx_ncpu spin semaphore n = WaitAdd.
Proof. unfold after_attempt. destruct (spin_next _ _ _); [eauto|]. destruct semaphore; eauto. Qed.

Lemma wakeup_cases : wakeup semaphore = WakeLoad \/ wakeup semaphore = Outside.
Proof. unfold wakeup. destruct semaphore; auto. Qed.

(** Two processes with the same pid are one. *)
Lemma same_pid st i j p q :
  map ngx_pid (sh_procs st) = pids -> sh_procs st !! i = Some p -> sh_procs st !! j = Some q ->
  ngx_pid p = ngx_pid q -> i = j.
Proof.
  intros Hm Hi Hj E. apply (NoDup_lookup pids i j (ngx_pid p)); [done| |].
  - rewrite <-Hm, list_lookup_fmap, Hi. done.
  - rewrite <-Hm, list_lookup_fmap, Hj, E. done.
Qed.

Lemma pid_positive st i p :
  map ngx_pid (sh_procs st) = pids -> sh_procs st !! i = Some p -> 0 < ngx_pid p.
Proof.
  intros Hm Hi. apply (Forall_lookup_1 _ _ i _ Hpids). rewrite <-Hm, list_lookup_fmap, Hi. done.
Qed.

Lemma dead_insert (procs : list sh_proc) i p p' pid :
  procs !! i = Some p -> sh_at p <> Dead -> mk_proc pid Dead ∈ procs ->
  mk_proc pid Dead ∈ <[i := p']> procs.
Proof.
  intros Hi Hp Hd. apply list_elem_of_lookup in Hd as [j Hj]. apply list_elem_of_lookup. exists j.
  rewrite list_lookup_insert_ne; [done|]. intros ->. rewrite Hi in Hj. by injection Hj as ->.
Qed.

(** What an access does to the lock word. *)
Definition lock_effect (st : sh_state) (pid : Z) (pc : sh_pc) (m' : sh_mem) (pc' : sh_pc) : Prop :=
  let lock := sh_lock (sh_words st) in
  sh_lock m' = lock /\ (owns pc' = true -> owns pc = true) /\
    (may_own pc = true -> may_own pc' = true \/ lock <> pid) \/
  lock = 0 /\ sh_lock m' = pid /\ owns pc' = true \/
  lock = pid /\ sh_lock m' = 0 /\ owns pc' = false /\ pc = Unlock \/
  (exists pid', pc = ForceUnlock pid' /\ lock = pid' /\ sh_lock m' = 0 /\ owns pc' = false).

Lemma access_lock_effect st pid pc m' pc' :
  sh_access ngx_ncpu spin semaphore pid (sh_words st) pc = Some (m', pc') ->
  lock_effect st pid pc m' pc'.
Proof.
  unfold lock_effect. destruct st as [m procs]. cbn [sh_words].
  destruct pc as [| | |n|n| | | | | | | |pid'| |w| |]; cbn; try done;
    unfold lock_cas, ngx_atomic_cmp_set; cbn; intros H; case_ifs_in H; simplify_eq; cbn;
    try (destruct (after_attempt_cases n) as [[k ->] | ->]);
    try (destruct wakeup_cases as [-> | ->]); cbn; try (left; by auto);
    repeat match goal with H : (_ =? _) = true |- _ => apply Z.eqb_eq in H
                      | H : (_ =? _) = false |- _ => apply Z.eqb_neq in H end;
    try (left; by auto); try (right; left; by auto); try (right; right; left; by auto);
    right; right; right; eauto.
Qed.

(** The processes that do not move keep their side of the invariant. *)
Lemma others_ok st i pid pc m' pc' j q :
  map ngx_pid (sh_procs st) = pids -> sh_procs st !! i = Some (mk_proc pid pc) ->
  proc_ok (sh_words st) (sh_procs st) (mk_proc pid pc) -> pc <> Dead ->
  lock_effect st pid pc m' pc' -> j <> i -> sh_procs st !! j = Some q ->
  proc_ok (sh_words st) (sh_procs st) q -> proc_ok m' (<[i := mk_proc pid pc']> (sh_procs st)) q.
Proof.
  intros Hm Hi (O1 & O2 & O3) Hd He Hji Hj (Q1 & Q2 & Q3). cbn in O1, O2, O3.
  pose proof (pid_positive st j q Hm Hj) as Hq.
  assert (Hpq : ngx_pid q <> pid).
  { intros E. apply Hji, (same_pid st j i q (mk_proc pid pc)); done. }
  split; [|split].
  - intros Ho. specialize (Q1 Ho). destruct He as [[-> _]|[(E & _)|[(E & _)|(pid' & -> & E & _)]]];
      [done|lia|congruence|].
    apply list_elem_of_lookup in O3 as [k Hk].
    assert (j = k) as -> by (apply (same_pid st j k q (mk_proc pid' Dead) Hm Hj Hk); cbn; congruence).
    rewrite Hj in Hk. injection Hk as ->. done.
  - destruct He as [[-> _]|[(_ & -> & _)|[(_ & -> & _)|(pid' & _ & _ & -> & _)]]];
      [done|congruence|lia|lia].
  - destruct (sh_at q); try done. by apply (dead_insert _ i (mk_proc pid pc)).
Qed.

(** The process that moves keeps its own. *)
Lemma mover_ok st i pid pc m' pc' :
  map ngx_pid (sh_procs st) = pids -> sh_procs st !! i = Some (mk_proc pid pc) ->
  proc_ok (sh_words st) (sh_procs st) (mk_proc pid pc) ->
  (exists W, sh_wait (sh_words st) = u64 W) ->
  sh_access ngx_ncpu spin semaphore pid (sh_words st) pc = Some (m', pc') ->
  proc_ok m' (<[i := mk_proc pid pc']> (sh_procs st)) (mk_proc pid pc').
Proof.
  intros Hm Hi (O1 & O2 & O3) [W HW] H. cbn in O1, O2, O3.
  pose proof (access_lock_effect _ _ _ _ _ H) as He.
  pose proof (pid_positive st i _ Hm Hi) as Hp. cbn in Hp.
  split; [|split].
  - cbn. intros Ho. destruct He as [(-> & Hk & _)|[(_ & -> & _)|[(_ & _ & E & _)|(_ & _ & _ & _ & E)]]];
      [by apply O1, Hk|done|congruence|congruence].
  - cbn. intros Hl. destruct He as [(E & _ & Hk)|[(_ & _ & E)|[(_ & E & _)|(_ & _ & _ & E & _)]]].
    + rewrite E in Hl. specialize (O2 Hl). destruct (Hk O2) as [|]; [done|congruence].
    + by destruct pc'.
    + lia.
    + lia.
  - destruct pc as [| | |n|n| | | | | | | |pid'| |w| |]; cbn in H; try done;
      unfold lock_cas, ngx_atomic_cmp_set in H; cbn in H; case_ifs_in H; simplify_eq; cbn; try done;
      try (destruct (after_attempt_cases n) as [[k ->] | ->]); try done;
      try (destruct wakeup_cases as [-> | ->]); try done.
    rewrite HW. split; [rewrite <-HW; lia|apply Z.mod_pos_bound; lia].
Qed.

(** What an access does to the count of waiters and the semaphore; [W] is the
    count. *)
Definition wait_effect (m : sh_mem) (W : Z) (pc : sh_pc) (m' : sh_mem) (pc' : sh_pc) : Prop :=
  let p := mk_proc 0 pc in let p' := mk_proc 0 pc' in
  exists W', sh_wait m' = u64 W' /\
    W' - W = waiter p' - waiter p - (posting p' - posting p) - (sh_sem m' - sh_sem m) /\
    0 <= sh_sem m' /\
    (posting p' + sh_sem m' <= posting p + sh_sem m \/
     0 < W /\ W' = W - 1 /\ posting p' + sh_sem m' = posting p + sh_sem m + 1) /\
    (active pc = true -> active pc' = true \/ sh_lock m' <> 0 \/ W' <= 0 \/ 0 < sh_sem m') /\
    (W' <= W \/ active pc' = true) /\
    (sh_lock m' = 0 -> sh_lock m <> 0 -> pc' = wakeup semaphore) /\
    (sh_sem m' < sh_sem m -> active pc' = true).

Lemma access_wait_effect pid m W pc m' pc' :
  sh_wait m = u64 W -> - 2 ^ 62 < W < 2 ^ 62 -> 0 <= sh_sem m -> 0 < pid ->
  (forall w, pc = WakeCas w -> 0 < i64 w /\ 0 <= w < 2 ^ 64) ->
  sh_access ngx_ncpu spin semaphore pid m pc = Some (m', pc') ->
  wait_effect m W pc m' pc'.
Proof.
  intros HW Hb Hs Hp Hw H. unfold wait_effect, waiter, posting.
  assert (Hi : i64 (u64 W) = W).
  { unfold i64, u64. rewrite Zplus_mod_idemp_l, Z.mod_small by lia. lia. }
  destruct pc as [| | |n|n| | | | | | | |pid'| |w| |]; cbn in H; try done;
    unfold lock_cas, ngx_atomic_cmp_set in H; cbn in H; case_ifs_in H; simplify_eq;
    try (destruct (after_attempt_cases n) as [[k ->] | ->]);
    try (destruct wakeup_cases as [Ew | Ew]; rewrite Ew); cbn [sh_at sh_wait sh_sem sh_lock
      set_lock set_wait set_sem active ngx_atomic_fetch_add snd];
    repeat match goal with H : (_ =? _) = true |- _ => apply Z.eqb_eq in H
                      | H : (_ =? _) = false |- _ => apply Z.eqb_neq in H end;
    try (exists W; split_and!; auto with lia; fail);
    rewrite ?HW; unfold u64 in *;
    rewrite ?Zplus_mod_idemp_l, ?Zminus_mod_idemp_l, ?Z.add_opp_r.
  1, 2: exists (W + 1); split_and!; auto with lia.
  1, 2: exists (W - 1); split_and!; auto with lia.
  1, 2: rewrite HW, Hi in Heqb; exists W; split_and!; auto with lia.
  all: destruct (Hw _ eq_refl) as [Hw1 _]; assert (w = W mod 2 ^ 64) as -> by congruence;
    rewrite Hi in Hw1; exists (W - 1); rewrite Zminus_mod_idemp_l; split_and!; auto with lia.
Qed.

Lemma pids_insert (procs : list sh_proc) i pid pc pc' :
  procs !! i = Some (mk_proc pid pc) ->
  map ngx_pid (<[i := mk_proc pid pc']> procs) = map ngx_pid procs.
Proof.
  intros Hi. rewrite list_fmap_insert. apply list_insert_id. rewrite list_lookup_fmap, Hi. done.
Qed.

(** An active process other than the one that moves stays active. *)
Lemma still_active (procs : list sh_proc) i p' j q :
  procs !! j = Some q -> active (sh_at q) = true -> j <> i ->
  exists k p, <[i := p']> procs !! k = Some p /\ active (sh_at p) = true.
Proof. intros Hj Hq Hne. exists j, q. by rewrite list_lookup_insert_ne. Qed.

Lemma mover_active (procs : list sh_proc) i p p' :
  procs !! i = Some p -> active (sh_at p') = true ->
  exists k p, <[i := p']> procs !! k = Some p /\ active (sh_at p) = true.
Proof.
  intros Hi Hp. exists i, p'. split; [|done]. apply list_lookup_insert_eq. by eapply lookup_lt_Some.
Qed.

Lemma sh_call_inv m procs i pid pc pc' :
  sh_inv semaphore pids (mk_st m procs) -> procs !! i = Some (mk_proc pid pc) ->
  sh_call procs pc pc' -> sh_inv semaphore pids (mk_st m (<[i := mk_proc pid pc']> procs)).
Proof.
  intros [Hm Hpr (W & HW & EW & Hlost) Hsem] Hi Hc. cbn [sh_words sh_procs] in *.
  assert (Hz : waiter (mk_proc pid pc) = 0 /\ waiter (mk_proc pid pc') = 0 /\
    posting (mk_proc pid pc) = 0 /\ posting (mk_proc pid pc') = 0 /\ pc <> Dead /\ active pc = false).
  { by destruct Hc. }
  destruct Hz as (Z1 & Z2 & Z3 & Z4 & Hd & Hna).
  assert (Hdead : forall pid', mk_proc pid' Dead ∈ procs ->
    mk_proc pid' Dead ∈ <[i := mk_proc pid pc']> procs) by (intros; by eapply dead_insert).
  constructor; cbn [sh_words sh_procs].
  - by rewrite pids_insert with (pc := pc).
  - intros j q Hj. destruct (decide (j = i)) as [->|Hne].
    + rewrite list_lookup_insert_eq in Hj by (by eapply lookup_lt_Some). injection Hj as <-.
      destruct (Hpr i _ Hi) as (O1 & O2 & _). cbn in O1, O2.
      destruct Hc; split_and!; cbn; try done; try (by auto); intros E; by specialize (O2 E).
    + rewrite list_lookup_insert_ne in Hj by done. destruct (Hpr j q Hj) as (O1 & O2 & O3).
      split; [done|]. split; [done|]. destruct (sh_at q); auto.
  - exists W. rewrite !(sum_of_insert _ procs i _ _ Hi), Z1, Z2, Z3, Z4.
    split; [done|]. split; [lia|]. intros Hsm Hl.
    destruct (Hlost Hsm Hl) as [?|[?|(j & q & Hj & Hq)]]; auto.
    right. right. apply (still_active procs i _ j q Hj Hq). intros ->.
    rewrite Hi in Hj. injection Hj as <-. cbn in Hq. congruence.
  - rewrite !(sum_of_insert _ procs i _ _ Hi), Z3, Z4. lia.
Qed.

Lemma sh_access_inv m procs i pid pc m' pc' :
  sh_inv semaphore pids (mk_st m procs) -> procs !! i = Some (mk_proc pid pc) ->
  sh_access ngx_ncpu spin semaphore pid m pc = Some (m', pc') ->
  sh_inv semaphore pids (mk_st m' (<[i := mk_proc pid pc']> procs)).
Proof.
  intros [Hm Hpr (W & HW & EW & Hlost) (Hs & Hps)] Hi Ha. cbn [sh_words sh_procs] in *.
  assert (Hlen : length procs = length pids) by (by rewrite <-Hm, length_map).
  pose proof (sum_of_bound waiter procs 1 (fun p => proj2 (waiter_bound p))) as Hwn.
  pose proof (sum_of_nonneg waiter procs (fun p => proj1 (waiter_bound p))) as Hw0.
  pose proof (sum_of_nonneg posting procs (fun p => proj1 (posting_bound p))) as Hp0.
  assert (Hd : pc <> Dead) by (by intros ->).
  pose proof (access_lock_effect (mk_st m procs) _ _ _ _ Ha) as He.
  assert (Hp : 0 < pid) by exact (pid_positive (mk_st m procs) i _ Hm Hi).
  assert (Heff : wait_effect m W pc m' pc').
  { apply (access_wait_effect pid); try done; [lia|]. intros w ->. apply (Hpr i _ Hi). }
  destruct Heff as (W' & HW' & Ediff & Hs' & Hsem' & Hact & Hle & Hfree & Hwoke).
  assert (Ew : forall q, waiter (mk_proc q pc) = waiter (mk_proc 0 pc) /\
    waiter (mk_proc q pc') = waiter (mk_proc 0 pc') /\ posting (mk_proc q pc) = posting (mk_proc 0 pc) /\
    posting (mk_proc q pc') = posting (mk_proc 0 pc')) by done.
  destruct (Ew pid) as (W1 & W2 & P1 & P2).
  constructor; cbn [sh_words sh_procs].
  - by rewrite pids_insert with (pc := pc).
  - intros j q Hj. destruct (decide (j = i)) as [->|Hne].
    + rewrite list_lookup_insert_eq in Hj by (by eapply lookup_lt_Some). injection Hj as <-.
      apply (mover_ok (mk_st m procs) i pid pc m' pc' Hm Hi (Hpr i _ Hi)); [by exists W|done].
    + rewrite list_lookup_insert_ne in Hj by done.
      by apply (others_ok (mk_st m procs) i pid pc m' pc' j q Hm Hi (Hpr i _ Hi) Hd He Hne Hj (Hpr j q Hj)).
  - exists W'. rewrite !(sum_of_insert _ procs i _ _ Hi), W1, W2, P1, P2.
    split; [done|]. split; [lia|]. intros Hsm Hl.
    destruct (Z.eq_dec (sh_lock m) 0) as [E|E].
    2: { right. right. apply (mover_active procs i _ _ Hi). cbn. rewrite (Hfree Hl E).
         unfold wakeup. by rewrite Hsm. }
    destruct (Hlost Hsm E) as [Hw|[Hsp|(j & q & Hj & Hq)]].
    + destruct Hle as [?|Ha']; [left; lia|]. right. right. by apply (mover_active procs i _ _ Hi).
    + destruct (Z_lt_le_dec (sh_sem m') (sh_sem m)) as [Hlt|]; [|right; left; lia].
      right. right. apply (mover_active procs i _ _ Hi). by apply Hwoke.
    + destruct (decide (j = i)) as [->|Hne]; [|right; right; by apply (still_active procs i _ j q)].
      rewrite Hi in Hj. injection Hj as <-. cbn in Hq.
      destruct (Hact Hq) as [Ha'|[?|[?|?]]]; [|done|by left|by right; left].
      right. right. by apply (mover_active procs i _ _ Hi).
  - rewrite !(sum_of_insert _ procs i _ _ Hi), P1, P2. split; [done|].
    destruct Hsem' as [?|(? & ? & ?)]; lia.
Qed.

Lemma sh_step_inv st st' :
  sh_inv semaphore pids st -> sh_step ngx_ncpu spin semaphore st st' -> sh_inv semaphore pids st'.
Proof.
  intros Hinv H. destruct H; [by eapply sh_call_inv|by eapply sh_access_inv].
Qed.

Lemma sh_init_inv : sh_inv semaphore pids (sh_init pids).
Proof.
  assert (Hz : forall f, (forall pid, f (mk_proc pid Outside) = 0) ->
    sum_of f (map (fun pid => mk_proc pid Outside) pids) = 0).
  { intros f Hf. clear Hdup Hpids Hmany.
    induction pids as [|pid l IH]; [done|]. cbn [map]. rewrite sum_of_cons, Hf. lia. }
  constructor; cbn [sh_init sh_words sh_procs sh_wait sh_lock sh_sem].
  - rewrite map_map. by apply map_id.
  - intros i p Hi. rewrite list_lookup_fmap in Hi.
    destruct (pids !! i) as [pid|] eqn:E; [|done]. injection Hi as <-.
    assert (0 < pid) by exact (Forall_lookup_1 _ _ i _ Hpids E).
    split_and!; cbn; [done|lia|done].
  - exists 0. rewrite !Hz by done. split; [done|]. split; [lia|]. auto with lia.
  - rewrite Hz by done. lia.
Qed.

Lemma sh_reachable_inv st :
  reachable (sh_step ngx_ncpu spin semaphore) (sh_init pids) st -> sh_inv semaphore pids st.
Proof. apply reachable_invariant; [apply sh_init_inv|]. intros s s'. apply sh_step_inv. Qed.
End Invariant.

(** C40: mutual exclusion of [ngx_shmtx].  In every state that any number of
    processes with different pids can reach, with locking, trying, unlocking
    (even by who does not hold the mutex), death in the critical section and
    forced unlocking for the dead, at most one process is in the critical section,
    the lock word is its pid, and nobody enters while a dead owner's pid is in
    the word. *)
Theorem shmtx_exclusive ngx_ncpu spin semaphore pids st :
  NoDup pids -> Forall (fun pid => 0 < pid) pids -> Z.of_nat (length pids) < 2 ^ 62 ->
  reachable (sh_step ngx_ncpu spin semaphore) (sh_init pids) st ->
  (forall i p, sh_procs st !! i = Some p -> sh_at p = Holding ->
     sh_lock (sh_words st) = ngx_pid p /\
     forall j q, sh_procs st !! j = Some q -> sh_at q = Holding -> j = i) /\
  (forall i pid, sh_procs st !! i = Some (mk_proc pid Dead) -> sh_lock (sh_words st) = pid ->
     forall j q, sh_procs st !! j = Some q -> sh_at q <> Holding).
Proof.
  intros Hdup Hpids Hmany H. apply sh_reachable_inv in H as [Hm Hpr _ _]; try done.
  assert (Hown : forall i p, sh_procs st !! i = Some p -> sh_at p = Holding ->
    sh_lock (sh_words st) = ngx_pid p).
  { intros i p Hi Hp. apply (Hpr i p Hi). by rewrite Hp. }
  split.
  - intros i p Hi Hp. split; [by eapply Hown|]. intros j q Hj Hq.
    apply (same_pid pids Hdup st j i q p Hm Hj Hi).
    rewrite <-(Hown i p Hi Hp). symmetry. by eapply Hown.
  - intros i pid Hi Hl j q Hj Hq.
    assert (j = i) as ->.
    { apply (same_pid pids Hdup st j i q (mk_proc pid Dead) Hm Hj Hi). cbn.
      rewrite <-Hl. symmetry. by eapply Hown. }
    rewrite Hi in Hj. injection Hj as <-. done.
Qed.


(** ** Schedules *)

Definition sh_call_ok (procs : list sh_proc) (pc pc' : sh_pc) : bool :=
  match pc, pc' with
  | Outside, TryLoad | Outside, Load None | Holding, Unlock | Outside, Unlock
  | Holding, Dead | Outside, Dead => true
  | Outside, ForceUnlock pid =>
      existsb (fun p => (ngx_pid p =? pid) && match sh_at p with Dead => true | _ => false end) procs
  | _, _ => false
  end.

Definition sh_turn (ngx_ncpu spin : Z) (semaphore : bool) (st : sh_state) (turn : nat * option sh_pc)
    : option sh_state :=
  let (i, call) := turn in
  match sh_procs st !! i, call with
  | Some (mk_proc pid pc), Some pc' =>
      if sh_call_ok (sh_procs st) pc pc'
      then Some (mk_st (sh_words st) (<[i := mk_proc pid pc']> (sh_procs st))) else None
  | Some (mk_proc pid pc), None =>
      match sh_access ngx_ncpu spin semaphore pid (sh_words st) pc with
      | Some (m', pc') => Some (mk_st m' (<[i := mk_proc pid pc']> (sh_procs st)))
      | None => None
      end
  | None, _ => None
  end.

Fixpoint sh_schedule (ngx_ncpu spin : Z) (semaphore : bool) (st : sh_state)
    (turns : list (nat * option sh_pc)) : option sh_state :=
  match turns with
  | [] => Some st
  | t :: turns' =>
      match sh_turn ngx_ncpu spin semaphore st t with
      | Some st' => sh_schedule ngx_ncpu spin semaphore st' turns'
      | None => None
      end
  end.

Lemma sh_call_ok_call procs pc pc' : sh_call_ok procs pc pc' = true -> sh_call procs pc pc'.
Proof.
  destruct pc; try done; destruct pc' as [| | |[]| | | | | | | | |pid| | | |]; try done; cbn;
    intros H; try by constructor.
  constructor. apply existsb_exists in H as ([pid' pc] & Hp & H). cbn in H.
  apply list_elem_of_In in Hp. apply andb_true_iff in H as [H1 H2]. apply Z.eqb_eq in H1 as ->.
  by destruct pc.
Qed.

Lemma sh_schedule_reachable ngx_ncpu spin semaphore s0 turns : forall st st',
  reachable (sh_step ngx_ncpu spin semaphore) s0 st ->
  sh_schedule ngx_ncpu spin semaphore st turns = Some st' ->
  reachable (sh_step ngx_ncpu spin semaphore) s0 st'.
Proof.
  induction turns as [|[i call] turns IH]; intros st st' Hr H; cbn in H; [by injection H as <-|].
  destruct (sh_procs st !! i) as [[pid pc]|] eqn:E; [|done]. destruct st as [m procs].
  cbn [sh_procs sh_words] in *. destruct call as [pc'|].
  - destruct (sh_call_ok procs pc pc') eqn:Ec; [|done].
    eapply IH; [|exact H]. eapply reach_step; [exact Hr|]. apply (step_call _ _ _ m procs i pid pc); [done|].
    by apply sh_call_ok_call.
  - destruct (sh_access ngx_ncpu spin semaphore pid m pc) as [[m' pc']|] eqn:Ea; [|done].
    eapply IH; [|exact H]. eapply reach_step; [exact Hr|]. by apply (step_access _ _ _ m procs i pid pc).
Qed.

(** The first process locks, the second goes to sleep, the first releases the
    lock; it wakes the second, which takes it. *)
Definition sh_story : list (nat * option sh_pc) :=
  [(0, Some (Load None)); (0, None); (0, None); (1, Some (Load None)); (1, None); (1, None);
   (1, None); (0, Some Unlock); (0, None); (0, None); (0, None); (0, None); (1, None); (1, None);
   (1, None)]%nat.

Example sh_story_ends :
  sh_schedule 1 2048 true (sh_init [11; 22]) (take 9 sh_story)
    = Some (mk_st (mk_sh 0 1 0) [mk_proc 11 WakeLoad; mk_proc 22 SemWait]) /\
  sh_schedule 1 2048 true (sh_init [11; 22]) sh_story
    = Some (mk_st (mk_sh 22 0 0) [mk_proc 11 Outside; mk_proc 22 Holding]).
Proof. vm_compute. auto. Qed.

(** ** Witnesses *)

Lemma two_pids : NoDup [11; 22].
Proof. apply NoDup_cons. split; [set_solver|]. apply NoDup_singleton. Qed.

Lemma shmtx_exclusive_witness :
  exists st, sh_schedule 1 2048 true (sh_init [11; 22]) sh_story = Some st /\
    sh_lock (sh_words st) = 22 /\ forall j q, sh_procs st !! j = Some q -> sh_at q = Holding -> j = 1%nat.
Proof.
  destruct (sh_schedule 1 2048 true (sh_init [11; 22]) sh_story) as [st|] eqn:E;
    [|vm_compute in E; discriminate E].
  assert (Hp : sh_procs st !! 1%nat = Some (mk_proc 22 Holding))
    by (vm_compute in E; injection E as <-; reflexivity).
  exists st. split; [reflexivity|].
  refine (proj1 (shmtx_exclusive 1 2048 true [11; 22] st _ _ _ _) 1%nat (mk_proc 22 Holding) Hp eq_refl).
  - exact two_pids.
  - repeat constructor.
  - vm_compute. reflexivity.
  - apply (sh_schedule_reachable 1 2048 true _ sh_story (sh_init [11; 22])); [constructor|exact E].
Defined.

