(* ===== verification/Radix.v ===== *)
(** * Radix trees

    The tree of networks of [src/core/ngx_radix_tree.c] that the geo module
    searches for an address: nodes with pointers in memory, the list of free
    nodes, nodes cut from pages.  Networks of IPv4 (a 32-bit key and mask) and of
    IPv6 (16 bytes each) share the walks and differ in how they step through the
    bits: class [Cursor].

    A pointer is an address, [NULL] is 0; reading or writing a node that is not
    there, or a byte outside the key, is a fault ([None]).  The pages that
    [ngx_pmemalign] will return are part of the state; when there are none left it
    returns [NULL]. *)

From stdpp Require Import gmap.
From S2P Require Import Prelude.

Definition NGX_RADIX_NO_VALUE : Z := 2 ^ 64 - 1.

(** [ngx_radix_node_t] *)
Record rnode : Type := mk_rnode { r_right : Z; r_left : Z; r_parent : Z; r_value : Z }.

Definition sizeof_node : Z := 32.
Definition ngx_pagesize : Z := 4096.

(** [ngx_radix_tree_t] with the memory it lives in. *)
Record radix : Type := mk_radix {
  rheap : gmap Z rnode;
  rt_root : Z; rt_free : Z; rt_start : Z; rt_size : Z;
  rt_pages : list Z
}.

Definition set_heap (h : gmap Z rnode) (t : radix) : radix :=
  mk_radix h (rt_root t) (rt_free t) (rt_start t) (rt_size t) (rt_pages t).

Definition set_free (f : Z) (t : radix) : radix :=
  mk_radix (rheap t) (rt_root t) f (rt_start t) (rt_size t) (rt_pages t).

Definition set_right (p : Z) (n : rnode) : rnode := mk_rnode p (r_left n) (r_parent n) (r_value n).
Definition set_left (p : Z) (n : rnode) : rnode := mk_rnode (r_right n) p (r_parent n) (r_value n).
Definition set_value (v : Z) (n : rnode) : rnode := mk_rnode (r_right n) (r_left n) (r_parent n) v.

(** A write through a pointer. *)
Definition update (p : Z) (f : rnode -> rnode) (t : radix) : option radix :=
  n ← rheap t !! p; Some (set_heap (<[p := f n]> (rheap t)) t).

(** ** ngx_radix_alloc

    The pointer and the tree; the contents of the node are not initialised. *)
Definition ngx_radix_alloc (t : radix) : option (Z * radix) :=
  if negb (rt_free t =? 0) then
    let p := rt_free t in
    n ← rheap t !! p;
    Some (p, set_free (r_right n) t)
  else
    let t :=
      if rt_size t <? sizeof_node then
        match rt_pages t with
        | [] => mk_radix (rheap t) (rt_root t) (rt_free t) 0 (rt_size t) []
        | page :: pages => mk_radix (rheap t) (rt_root t) (rt_free t) page ngx_pagesize pages
        end
      else t in
    if rt_size t <? sizeof_node then Some (0, t)
    else
      Some (rt_start t,
        mk_radix (rheap t) (rt_root t) (rt_free t) (rt_start t + sizeof_node)
          (rt_size t - sizeof_node) (rt_pages t)).

(** ** The bits of a key *)

(** A position in the key and the mask: whether the mask goes on here, which way
    the key turns ([None]: a byte outside), and the next position, with the
    [break] of the loops over IPv6 masks. *)
Class Cursor (K C : Type) : Type := {
  first : C;
  masked : K -> C -> option bool;
  turn : K -> C -> option bool;
  next : C -> C;
  stop : C -> bool
}.

(** [bit & mask], [key & bit], [bit >>= 1] on 32-bit words. *)
Record key32 : Type := mk_key32 { k32_key : Z; k32_mask : Z }.

#[export] Instance cursor32 : Cursor key32 Z := {
  first := 0x80000000;
  masked k bit := Some (negb (Z.land bit (k32_mask k) =? 0));
  turn k bit := Some (negb (Z.land (k32_key k) bit =? 0));
  next bit := Z.shiftr bit 1;
  stop _ := false
}.

(** [bit & mask[i]], [key[i] & bit], [bit >>= 1; if (bit == 0) { ++i; bit = 0x80; }];
    the loops that follow a mask leave when [i == 16]. *)
Record key128 : Type := mk_key128 { k128_key : list Z; k128_mask : list Z }.

#[export] Instance cursor128 : Cursor key128 (nat * Z) := {
  first := (0%nat, 0x80);
  masked k '(i, bit) := m ← k128_mask k !! i; Some (negb (Z.land bit m =? 0));
  turn k '(i, bit) := b ← k128_key k !! i; Some (negb (Z.land b bit =? 0));
  next '(i, bit) := if Z.shiftr bit 1 =? 0 then (S i, 0x80) else (i, Z.shiftr bit 1);
  stop '(i, bit) := (i =? 16)%nat
}.

Section Tree.
Context {K C : Type} `{!Cursor K C}.

(** The child of a node on the side of a bit. *)
Definition child (right : bool) (n : rnode) : Z := if right then r_right n else r_left n.
Definition set_child (right : bool) (p : Z) (n : rnode) : rnode :=
  if right then set_right p n else set_left p n.

(** ** Insertion *)

(** [while (bit & mask)]: down to the node, or to where there is none: the
    position, [node] and [next]. *)
Fixpoint insert_down (fuel : nat) (t : radix) (k : K) (c : C) (node nxt : Z)
    : option (C * Z * Z) :=
  match fuel with
  | O => None
  | S fuel' =>
      go ← masked k c;
      if negb go then Some (c, node, nxt)
      else
        n ← rheap t !! node;
        right ← turn k c;
        let nxt := child right n in
        if nxt =? 0 then Some (c, node, nxt)
        else
          let c := next c in
          if stop c then Some (c, nxt, nxt)
          else insert_down fuel' t k c nxt nxt
  end.

(** The second loop: new nodes for the rest of the mask; the flag tells that
    there was memory. *)
Fixpoint insert_grow (fuel : nat) (t : radix) (k : K) (c : C) (node : Z)
    : option (bool * Z * radix) :=
  match fuel with
  | O => None
  | S fuel' =>
      go ← masked k c;
      if negb go then Some (true, node, t)
      else
        '(nxt, t) ← ngx_radix_alloc t;
        if nxt =? 0 then Some (false, node, t)
        else
          let t := set_heap (<[nxt := mk_rnode 0 0 node NGX_RADIX_NO_VALUE]> (rheap t)) t in
          right ← turn k c;
          t ← update node (set_child right nxt) t;
          let c := next c in
          if stop c then Some (true, nxt, t) else insert_grow fuel' t k c nxt
  end.

(** More positions than any key has. *)
Definition radix_fuel : nat := 130.

Definition radix_insert (t : radix) (k : K) (value : Z) : option (Z * radix) :=
  '(c, node, nxt) ← insert_down radix_fuel t k first (rt_root t) (rt_root t);
  if negb (nxt =? 0) then
    n ← rheap t !! node;
    if negb (r_value n =? NGX_RADIX_NO_VALUE) then Some (NGX_BUSY, t)
    else t ← update node (set_value value) t; Some (NGX_OK, t)
  else
    '(ok, node, t) ← insert_grow radix_fuel t k c node;
    if negb ok then Some (NGX_ERROR, t)
    else t ← update node (set_value value) t; Some (NGX_OK, t).

(** ** Deletion *)

(** [while (node && (bit & mask))] *)
Fixpoint delete_down (fuel : nat) (t : radix) (k : K) (c : C) (node : Z) : option Z :=
  match fuel with
  | O => None
  | S fuel' =>
      if node =? 0 then Some 0
      else
        go ← masked k c;
        if negb go then Some node
        else
          right ← turn k c;
          n ← rheap t !! node;
          let node := child right n in
          let c := next c in
          if stop c then Some node else delete_down fuel' t k c node
  end.

(** [for ( ;; )]: the leaf goes to the free list, and so do the nodes above it
    that are left with nothing. *)
Fixpoint delete_up (fuel : nat) (t : radix) (node : Z) : option radix :=
  match fuel with
  | O => None
  | S fuel' =>
      n ← rheap t !! node;
      let parent := r_parent n in
      p ← rheap t !! parent;
      t ← update parent (set_child (r_right p =? node) 0) t;
      t ← update node (set_right (rt_free t)) t;
      let t := set_free node t in
      let node := parent in
      n ← rheap t !! node;
      if negb (r_right n =? 0) || negb (r_left n =? 0) then Some t
      else if negb (r_value n =? NGX_RADIX_NO_VALUE) then Some t
      else if r_parent n =? 0 then Some t
      else delete_up fuel' t node
  end.

Definition radix_delete (t : radix) (k : K) : option (Z * radix) :=
  node ← delete_down radix_fuel t k first (rt_root t);
  if node =? 0 then Some (NGX_ERROR, t)
  else
    n ← rheap t !! node;
    if negb (r_right n =? 0) || negb (r_left n =? 0) then
      if negb (r_value n =? NGX_RADIX_NO_VALUE) then
        t ← update node (set_value NGX_RADIX_NO_VALUE) t; Some (NGX_OK, t)
      else Some (NGX_ERROR, t)
    else t ← delete_up radix_fuel t node; Some (NGX_OK, t).

(** ** Search *)

(** [turn_to] reads the key: the search of IPv6 reads a byte past it. *)
Fixpoint find_down (fuel : nat) (t : radix) (turn_to : C -> option bool) (c : C) (node value : Z)
    : option Z :=
  match fuel with
  | O => None
  | S fuel' =>
      if node =? 0 then Some value
      else
        n ← rheap t !! node;
        let value := if negb (r_value n =? NGX_RADIX_NO_VALUE) then r_value n else value in
        right ← turn_to c;
        find_down fuel' t turn_to (next c) (child right n) value
  end.

Definition radix_find (t : radix) (turn_to : C -> option bool) : option Z :=
  find_down radix_fuel t turn_to first (rt_root t) NGX_RADIX_NO_VALUE.
End Tree.

Definition ngx_radix32tree_insert (t : radix) (key mask value : Z) : option (Z * radix) :=
  radix_insert t (mk_key32 key mask) value.
Definition ngx_radix32tree_delete (t : radix) (key mask : Z) : option (Z * radix) :=
  radix_delete t (mk_key32 key mask).
Definition ngx_radix32tree_find (t : radix) (key : Z) : option Z :=
  radix_find t (turn (mk_key32 key 0)).

Definition ngx_radix128tree_insert (t : radix) (key mask : list Z) (value : Z) : option (Z * radix) :=
  radix_insert t (mk_key128 key mask) value.
Definition ngx_radix128tree_delete (t : radix) (key mask : list Z) : option (Z * radix) :=
  radix_delete t (mk_key128 key mask).

(** [key] is what is in memory from the key on: 16 bytes and what follows. *)
Definition ngx_radix128tree_find (t : radix) (key : list Z) : option Z :=
  radix_find t (turn (mk_key128 key [])).

(** ** ngx_radix_tree_create *)

(** [do { insert; key += inc; } while (key);] *)
Fixpoint preallocate_keys (fuel : nat) (t : radix) (key mask inc : Z) : option (bool * radix) :=
  match fuel with
  | O => None
  | S fuel' =>
      '(rc, t) ← ngx_radix32tree_insert t key mask NGX_RADIX_NO_VALUE;
      if negb (rc =? NGX_OK) then Some (false, t)
      else
        let key := u32 (key + inc) in
        if key =? 0 then Some (true, t) else preallocate_keys fuel' t key mask inc
  end.

(** [while (preallocate--)] *)
Fixpoint preallocate_levels (levels : nat) (t : radix) (mask inc : Z) : option (bool * radix) :=
  match levels with
  | O => Some (true, t)
  | S levels' =>
      let mask := Z.lor (Z.shiftr mask 1) 0x80000000 in
      '(ok, t) ← preallocate_keys 1000 t 0 mask inc;
      if negb ok then Some (false, t) else preallocate_levels levels' t mask (Z.shiftr inc 1)
  end.

(** The tree, or [NULL] as the flag [false]; [preallocate] is -1 for as many
    levels as a page holds. *)
Definition ngx_radix_tree_create (pages : list Z) (preallocate : Z) : option (bool * radix) :=
  '(root, t) ← ngx_radix_alloc (mk_radix ∅ 0 0 0 0 pages);
  if root =? 0 then Some (false, t)
  else
    let t := mk_radix (<[root := mk_rnode 0 0 0 NGX_RADIX_NO_VALUE]> (rheap t)) root (rt_free t)
               (rt_start t) (rt_size t) (rt_pages t) in
    let preallocate :=
      if preallocate =? -1 then
        let n := ngx_pagesize / sizeof_node in
        if n =? 128 then 6 else if n =? 256 then 7 else 8
      else preallocate in
    preallocate_levels (Z.to_nat preallocate) t 0 0x80000000.

Example radix_sample :
  match ngx_radix_tree_create [4096; 8192; 12288] (-1) with
  | Some (true, t) =>
      match ngx_radix32tree_insert t 0x0A000000 0xFF000000 7 with
      | Some (rc, t) =>
          rc = NGX_OK /\ ngx_radix32tree_find t 0x0A010203 = Some 7 /\
          ngx_radix32tree_find t 0x0B010203 = Some NGX_RADIX_NO_VALUE /\
          fst <$> ngx_radix32tree_insert t 0x0A000000 0xFF000000 8 = Some NGX_BUSY
      | None => False
      end
  | _ => False
  end.
Proof. vm_compute. auto. Qed.
