(* ===== verification/RadixSpec.v ===== *)
(** * Radix trees are longest-prefix maps

    The nodes of a radix tree in memory are described by the map from paths to
    addresses and values; networks and their values are what is left of it when
    addresses and empty nodes are forgotten.  Insertion, deletion and search are
    those of a map from networks, with search for the longest one that an address
    begins with.

    A path is the list of its turns, the last one first. *)

From stdpp Require Import gmap.
From S2P Require Import Prelude Radix.

Abbreviation path := (list bool).
Abbreviation nodes := (gmap (list bool) (Z * Z)).

(** ** The nodes in memory *)

Definition addr (M : nodes) (p : path) : Z := match M !! p with Some (a, _) => a | None => 0 end.

Definition parent_addr (M : nodes) (p : path) : Z := match p with [] => 0 | _ :: q => addr M q end.

Definition cell (M : nodes) (p : path) (v : Z) : rnode :=
  mk_rnode (addr M (true :: p)) (addr M (false :: p)) (parent_addr M p) v.

(** The list of free nodes. *)
Fixpoint chain (h : gmap Z rnode) (free : Z) (fl : list Z) : Prop :=
  match fl with
  | [] => free = 0
  | a :: fl' => free = a /\ exists n, h !! a = Some n /\ chain h (r_right n) fl'
  end.

(** The nodes of a block of memory, and all that [ngx_radix_alloc] can give. *)
Fixpoint cells_from (n : nat) (start : Z) : list Z :=
  match n with O => [] | S n' => start :: cells_from n' (start + sizeof_node) end.

Definition block_cells (start size : Z) : list Z :=
  cells_from (Z.to_nat (size / sizeof_node)) start.

Definition avail (t : radix) (fl : list Z) : list Z :=
  fl ++ block_cells (rt_start t) (rt_size t)
     ++ concat (map (fun page => block_cells page ngx_pagesize) (rt_pages t)).

(** [t] has the nodes [M], at most [depth] turns from the root, and the free
    nodes [fl]. *)
Record nodes_at (depth : nat) (t : radix) (M : nodes) (fl : list Z) : Prop := mk_nodes_at {
  na_root : fst <$> M !! [] = Some (rt_root t);
  na_closed : forall b p, is_Some (M !! (b :: p)) -> is_Some (M !! p);
  na_depth : forall p, is_Some (M !! p) -> (length p <= depth)%nat;
  na_inj : forall p q a v w, M !! p = Some (a, v) -> M !! q = Some (a, w) -> p = q;
  na_cells : forall p a v, M !! p = Some (a, v) -> rheap t !! a = Some (cell M p v);
  na_null : rheap t !! 0 = None;
  na_chain : chain (rheap t) (rt_free t) fl;
  na_avail : NoDup (avail t fl);
  na_fresh : forall a, a ∈ avail t fl -> a <> 0 /\ forall p v, M !! p <> Some (a, v)
}.

(** The networks of the nodes. *)
Definition vals (M : nodes) : gmap path Z :=
  omap (fun '(_, v) => if v =? NGX_RADIX_NO_VALUE then None else Some v) M.

Lemma vals_lookup M p a v :
  M !! p = Some (a, v) -> vals M !! p = if v =? NGX_RADIX_NO_VALUE then None else Some v.
Proof. intros H. unfold vals. by rewrite lookup_omap, H. Qed.

Lemma vals_lookup_None M p : M !! p = None -> vals M !! p = None.
Proof. intros H. unfold vals. by rewrite lookup_omap, H. Qed.

Lemma vals_insert M p a v :
  vals (<[p := (a, v)]> M) =
    if v =? NGX_RADIX_NO_VALUE then delete p (vals M) else <[p := v]> (vals M).
Proof.
  apply map_eq. intros q. unfold vals. rewrite lookup_omap.
  destruct (decide (q = p)) as [->|Hne].
  - rewrite lookup_insert_eq. cbn. case_ifs; [by rewrite lookup_delete_eq|by rewrite lookup_insert_eq].
  - rewrite lookup_insert_ne by done. rewrite <-lookup_omap.
    case_ifs; [by rewrite lookup_delete_ne|by rewrite lookup_insert_ne].
Qed.

Lemma vals_insert_empty M p a :
  vals M !! p = None -> vals (<[p := (a, NGX_RADIX_NO_VALUE)]> M) = vals M.
Proof. intros H. rewrite vals_insert. cbn. by rewrite delete_id. Qed.

Lemma vals_delete M p : vals (delete p M) = delete p (vals M).
Proof.
  apply map_eq. intros q. unfold vals. rewrite lookup_omap.
  destruct (decide (q = p)) as [->|Hne]; [by rewrite !lookup_delete_eq|].
  by rewrite !lookup_delete_ne, lookup_omap.
Qed.

(** ** Memory *)

Lemma addr_Some M p a v : M !! p = Some (a, v) -> addr M p = a.
Proof. intros H. unfold addr. by rewrite H. Qed.

Lemma addr_None M p : M !! p = None -> addr M p = 0.
Proof. intros H. unfold addr. by rewrite H. Qed.

Section Nodes.
Context {depth : nat} {t : radix} {M : nodes} {fl : list Z} (R : nodes_at depth t M fl).

Lemma node_nonnull p a v : M !! p = Some (a, v) -> a <> 0.
Proof.
  intros H ->. pose proof (na_cells _ _ _ _ R p 0 v H) as Hc.
  rewrite (na_null _ _ _ _ R) in Hc. done.
Qed.

Lemma addr_zero p : addr M p = 0 -> M !! p = None.
Proof.
  unfold addr. destruct (M !! p) as [[a v]|] eqn:E; [|done]. intros ->. by apply node_nonnull in E.
Qed.

Lemma no_child b p : M !! p = None -> M !! (b :: p) = None.
Proof.
  intros H. destruct (M !! (b :: p)) eqn:E; [|done].
  destruct (na_closed _ _ _ _ R b p ltac:(by eexists)) as [x Hx]. congruence.
Qed.

Lemma child_cell b p v : child b (cell M p v) = addr M (b :: p).
Proof. by destruct b. Qed.

Lemma chain_ext h h' free l :
  (forall a, a ∈ l -> h' !! a = h !! a) -> chain h free l -> chain h' free l.
Proof.
  clear R. revert free. induction l as [|a l IH]; intros free Heq; cbn; [done|].
  intros (-> & n & Hn & Hc). split; [done|]. exists n. split; [rewrite Heq; set_solver|].
  apply IH; [set_solver|done].
Qed.

(** A write to a node in use leaves the free ones alone. *)
Lemma free_not_used p a v x : M !! p = Some (a, v) -> x ∈ fl -> x <> a.
Proof.
  intros Hp Hx ->. destruct (na_fresh _ _ _ _ R a) as [_ H]; [|by apply (H p v)].
  unfold avail. set_solver.
Qed.
End Nodes.

(** *** Allocation *)

Lemma block_cells_nil start size : size < sizeof_node -> block_cells start size = [].
Proof.
  intros H. unfold block_cells, sizeof_node in *.
  assert (size / 32 <= 0) by (apply Z.lt_succ_r, Z.div_lt_upper_bound; lia).
  by replace (Z.to_nat (size / 32)) with 0%nat by lia.
Qed.

Lemma block_cells_cons start size :
  sizeof_node <= size ->
  block_cells start size = start :: block_cells (start + sizeof_node) (size - sizeof_node).
Proof.
  unfold block_cells, sizeof_node. intros H.
  replace ((size - 32) / 32) with (size / 32 - 1) by
    (replace (size - 32) with (size + (-1) * 32) by lia; rewrite Z.div_add by lia; lia).
  assert (1 <= size / 32) by (apply Z.div_le_lower_bound; lia).
  replace (Z.to_nat (size / 32)) with (S (Z.to_nat (size / 32 - 1))) by lia. done.
Qed.

(** [ngx_radix_alloc] gives the first of the nodes that there are, or [NULL] if
    there are none. *)
Lemma alloc_avail t fl :
  chain (rheap t) (rt_free t) fl -> (forall a, a ∈ fl -> a <> 0) ->
  exists p t', ngx_radix_alloc t = Some (p, t') /\ rheap t' = rheap t /\ rt_root t' = rt_root t /\
    ((p = 0 /\ avail t fl = [] /\ avail t' fl = [] /\ chain (rheap t') (rt_free t') fl) \/
     exists fl', avail t fl = p :: avail t' fl' /\ chain (rheap t') (rt_free t') fl').
Proof.
  intros Hc H0. unfold ngx_radix_alloc. destruct fl as [|a fl].
  - cbn in Hc. rewrite Hc. cbn [Z.eqb negb].
    destruct (rt_size t <? sizeof_node) eqn:Es.
    + destruct (rt_pages t) as [|page pages] eqn:Ep.
      * cbn [rt_size]. rewrite Es. eexists _, _. split; [done|]. split; [done|]. split; [done|].
        left. unfold avail. cbn [rt_start rt_size rt_pages rt_free rheap].
        rewrite Ep, !block_cells_nil by lia. done.
      * cbn [rt_size rt_start rt_pages]. assert ((ngx_pagesize <? sizeof_node) = false) as -> by done.
        eexists _, _. split; [done|]. split; [done|]. split; [done|]. right. exists [].
        unfold avail. cbn [rt_start rt_size rt_pages rt_free rheap app map concat].
        rewrite Ep, (block_cells_nil (rt_start t)) by lia. cbn [map concat app].
        rewrite (block_cells_cons page) by done. done.
    + rewrite Es. eexists _, _. split; [done|]. split; [done|]. split; [done|]. right. exists [].
      unfold avail. cbn [rt_start rt_size rt_pages rt_free rheap app].
      rewrite (block_cells_cons (rt_start t)) by lia. done.
  - destruct Hc as (E & n & Hn & Hc). assert (a <> 0) by (apply H0; set_solver).
    rewrite E. assert ((a =? 0) = false) as -> by lia. cbn [negb]. rewrite Hn. cbn [mbind option_bind].
    eexists _, _. split; [done|]. split; [done|]. split; [done|]. right. exists fl. done.
Qed.

(** *** Values *)

Lemma addr_revalue M p a v w q : M !! p = Some (a, v) -> addr (<[p := (a, w)]> M) q = addr M q.
Proof.
  intros H. unfold addr. destruct (decide (q = p)) as [->|Hne].
  - by rewrite lookup_insert_eq, H.
  - by rewrite lookup_insert_ne.
Qed.

Lemma cell_revalue M p a v w q x : M !! p = Some (a, v) -> cell (<[p := (a, w)]> M) q x = cell M q x.
Proof.
  intros H. unfold cell, parent_addr. destruct q as [|b q]; by rewrite !(addr_revalue M p a v w) by done.
Qed.

Lemma update_value depth t M fl p a v w :
  nodes_at depth t M fl -> M !! p = Some (a, v) ->
  exists t', update a (set_value w) t = Some t' /\ rt_root t' = rt_root t /\
    nodes_at depth t' (<[p := (a, w)]> M) fl.
Proof.
  intros R Hp. pose proof (na_cells _ _ _ _ R p a v Hp) as Hc. pose proof (node_nonnull R p a v Hp) as Ha.
  unfold update. rewrite Hc. cbn [mbind option_bind]. eexists. split; [done|]. split; [done|].
  assert (Hsome : forall q, is_Some (<[p := (a, w)]> M !! q) <-> is_Some (M !! q)).
  { intros q. destruct (decide (q = p)) as [->|]; [rewrite lookup_insert_eq, Hp|by rewrite lookup_insert_ne].
    split; eauto. }
  assert (Hlook : forall q b x, <[p := (a, w)]> M !! q = Some (b, x) ->
    q = p /\ b = a /\ x = w \/ q <> p /\ M !! q = Some (b, x)).
  { intros q b x. destruct (decide (q = p)) as [->|]; [rewrite lookup_insert_eq|by rewrite lookup_insert_ne; auto].
    intros [= <- <-]. auto. }
  destruct R. constructor; cbn [set_heap rheap rt_root rt_free].
  - rewrite <-na_root0. destruct (decide ([] = p)) as [<-|]; [rewrite lookup_insert_eq, Hp|
      rewrite lookup_insert_ne by done]; done.
  - intros b q. rewrite !Hsome. apply na_closed0.
  - intros q. rewrite Hsome. apply na_depth0.
  - intros q1 q2 b x y H1 H2.
    assert (forall q b x, <[p := (a, w)]> M !! q = Some (b, x) -> exists x', M !! q = Some (b, x')) as Hb.
    { intros q b' x' H. destruct (Hlook q b' x' H) as [(-> & -> & _)|[_ ?]]; eauto. }
    destruct (Hb _ _ _ H1) as [x' ?], (Hb _ _ _ H2) as [y' ?]. by apply (na_inj0 q1 q2 b x' y').
  - intros q b x H. rewrite (cell_revalue M p a v w) by done.
    destruct (Hlook q b x H) as [(-> & -> & ->)|[Hne HM]].
    + rewrite lookup_insert_eq. done.
    + rewrite lookup_insert_ne; [by apply na_cells0|]. intros <-. by apply Hne, (na_inj0 q p a x v).
  - by rewrite lookup_insert_ne.
  - apply (chain_ext (rheap t)); [|done]. intros b Hb. apply lookup_insert_ne. intros <-.
    apply (proj2 (na_fresh0 a ltac:(unfold avail; set_solver)) p v). done.
  - done.
  - intros b Hb. split; [by apply na_fresh0|]. intros q x H.
    destruct (Hlook q b x H) as [(_ & -> & _)|[_ ?]].
    + by apply (proj2 (na_fresh0 a Hb) p v).
    + by apply (proj2 (na_fresh0 b Hb) q x).
Qed.

(** *** Adding a leaf *)

Lemma addr_add M p a w q : M !! p = None ->
  addr (<[p := (a, w)]> M) q = if decide (q = p) then a else addr M q.
Proof.
  intros H. unfold addr. destruct (decide (q = p)) as [->|Hne].
  - by rewrite lookup_insert_eq.
  - by rewrite lookup_insert_ne.
Qed.

Lemma avail_same t t' fl :
  rt_start t' = rt_start t -> rt_size t' = rt_size t -> rt_pages t' = rt_pages t ->
  avail t' fl = avail t fl.
Proof. intros H1 H2 H3. unfold avail. by rewrite H1, H2, H3. Qed.

Lemma add_leaf depth t M fl fl' t1 p b a v nxt :
  nodes_at depth t M fl -> M !! p = Some (a, v) -> M !! (b :: p) = None -> (length p < depth)%nat ->
  rheap t1 = rheap t -> rt_root t1 = rt_root t ->
  avail t fl = nxt :: avail t1 fl' -> chain (rheap t1) (rt_free t1) fl' ->
  let t2 := set_heap (<[nxt := mk_rnode 0 0 a NGX_RADIX_NO_VALUE]> (rheap t1)) t1 in
  exists t3, update a (set_child b nxt) t2 = Some t3 /\ rt_root t3 = rt_root t /\ nxt <> 0 /\
    nodes_at depth t3 (<[b :: p := (nxt, NGX_RADIX_NO_VALUE)]> M) fl'.
Proof.
  intros R Hp Hb Hlen Hh Hr Hav Hch t2.
  assert (Hnx : nxt <> 0 /\ forall q x, M !! q <> Some (nxt, x)).
  { apply (na_fresh _ _ _ _ R). rewrite Hav. set_solver. }
  destruct Hnx as [Hn0 HnM]. assert (Hna : nxt <> a) by (intros ->; by apply (HnM p v)).
  pose proof (node_nonnull R p a v Hp) as Ha0. pose proof (na_cells _ _ _ _ R p a v Hp) as Hc.
  pose proof (na_avail _ _ _ _ R) as Hnd. rewrite Hav in Hnd. apply NoDup_cons in Hnd as [Hnin Hnd].
  unfold update. assert (rheap t2 !! a = Some (cell M p v)) as ->.
  { unfold t2. cbn [set_heap rheap]. by rewrite lookup_insert_ne, Hh. }
  cbn [mbind option_bind]. eexists. split; [done|]. split; [done|]. split; [done|].
  set (M' := <[b :: p := (nxt, NGX_RADIX_NO_VALUE)]> M).
  assert (Hadd : forall q, addr M' q = if decide (q = b :: p) then nxt else addr M q)
    by (intros; by apply addr_add).
  assert (Hcell : forall q x, is_Some (M !! q) -> q <> p -> cell M' q x = cell M q x).
  { intros q x Hq Hne. unfold cell, parent_addr. rewrite !Hadd.
    rewrite !decide_False by congruence. destruct q as [|c q]; [done|]. rewrite Hadd, decide_False; [done|].
    intros ->. by rewrite (no_child R c _ Hb) in Hq; destruct Hq. }
  assert (Hcellp : cell M' p v = set_child b nxt (cell M p v)).
  { unfold cell, parent_addr. rewrite !Hadd.
    destruct b; [rewrite decide_True, decide_False by congruence|rewrite decide_False, decide_True by congruence];
      cbn; f_equal; destruct p as [|c p]; try done; rewrite Hadd, decide_False; try done;
      intros E; apply (f_equal length) in E; cbn in E; lia. }
  assert (Hleaf : cell M' (b :: p) NGX_RADIX_NO_VALUE = mk_rnode 0 0 a NGX_RADIX_NO_VALUE).
  { unfold cell, parent_addr. rewrite !Hadd. rewrite !decide_False by
      (intros E; apply (f_equal length) in E; cbn in E; lia).
    rewrite !addr_None by (by apply (no_child R)). by rewrite (addr_Some M p a v). }
  destruct R. constructor; cbn [set_heap rheap rt_root rt_free].
  - unfold M'. rewrite lookup_insert_ne by done. rewrite na_root0, <-Hr. done.
  - intros c q Hq. unfold M' in *. destruct (decide (b :: p = c :: q)) as [[= -> ->]|Hne].
    + rewrite lookup_insert_ne by (intros E; apply (f_equal length) in E; cbn in E; lia). by eexists.
    + rewrite lookup_insert_ne in Hq by done. apply na_closed0 in Hq.
      destruct (decide (b :: p = q)) as [->|]; [rewrite lookup_insert_eq; by eexists|by rewrite lookup_insert_ne].
  - intros q Hq. unfold M' in Hq. destruct (decide (b :: p = q)) as [<-|]; [cbn; lia|].
    rewrite lookup_insert_ne in Hq by done. auto.
  - intros q1 q2 c x y H1 H2. unfold M' in *.
    destruct (decide (b :: p = q1)) as [<-|]; [rewrite lookup_insert_eq in H1|rewrite lookup_insert_ne in H1 by done];
      (destruct (decide (b :: p = q2)) as [<-|]; [rewrite lookup_insert_eq in H2|rewrite lookup_insert_ne in H2 by done]);
      try done.
    + injection H1 as <- <-. by destruct (HnM q2 y).
    + injection H2 as <- <-. by destruct (HnM q1 x).
    + by apply (na_inj0 q1 q2 c x y).
  - intros q c x Hq. unfold t2. cbn [set_heap rheap]. unfold M' in Hq.
    destruct (decide (b :: p = q)) as [<-|Hne]; [rewrite lookup_insert_eq in Hq|rewrite lookup_insert_ne in Hq by done].
    + injection Hq as <- <-. rewrite lookup_insert_ne by done. rewrite lookup_insert_eq. by rewrite Hleaf.
    + destruct (decide (q = p)) as [->|Hqp].
      * rewrite Hp in Hq. injection Hq as <- <-. by rewrite lookup_insert_eq, Hcellp.
      * rewrite !lookup_insert_ne, Hh, Hcell by
          (done || (by eexists) || (intros <-; by apply (HnM q x)) || (intros <-; by apply Hqp, (na_inj0 q p a x v))).
        by apply na_cells0.
  - unfold t2. cbn [set_heap rheap]. rewrite !lookup_insert_ne by done. by rewrite Hh.
  - unfold t2. cbn [set_heap rheap rt_free].
    apply (chain_ext (rheap t1)); [|done]. intros c Hcin. rewrite !lookup_insert_ne; [done| |].
    + intros <-. apply Hnin. unfold avail. set_solver.
    + intros <-. assert (a ∈ avail t fl) as Hain by (rewrite Hav; unfold avail; set_solver).
      by apply (proj2 (na_fresh0 a Hain) p v).
  - done.
  - intros c Hcin. change (avail _ fl') with (avail t1 fl') in Hcin.
    destruct (na_fresh0 c ltac:(rewrite Hav; set_solver)) as [Hc0 HcM]. split; [done|].
    intros q x Hq. unfold M' in Hq.
    destruct (decide (b :: p = q)) as [<-|]; [rewrite lookup_insert_eq in Hq|rewrite lookup_insert_ne in Hq by done].
    + injection Hq as <- <-. by apply Hnin.
    + by apply (HcM q x).
Qed.

(** *** Removing a leaf *)

Definition is_leaf (M : nodes) (p : path) : Prop := forall b, M !! (b :: p) = None.

(** What one turn of the deletion loop does to memory. *)
Definition unlink (t : radix) (node : Z) : option radix :=
  n ← rheap t !! node;
  let parent := r_parent n in
  p ← rheap t !! parent;
  t ← update parent (set_child (r_right p =? node) 0) t;
  t ← update node (set_right (rt_free t)) t;
  Some (set_free node t).

Lemma addr_remove M p q : addr (delete p M) q = if decide (q = p) then 0 else addr M q.
Proof.
  unfold addr. destruct (decide (q = p)) as [->|Hne].
  - by rewrite lookup_delete_eq.
  - by rewrite lookup_delete_ne.
Qed.

Lemma remove_leaf depth t M fl p b a v c w :
  nodes_at depth t M fl -> M !! p = Some (a, v) -> M !! (b :: p) = Some (c, w) ->
  is_leaf M (b :: p) ->
  exists t', unlink t c = Some t' /\ rt_root t' = rt_root t /\
    nodes_at depth t' (delete (b :: p) M) (c :: fl).
Proof.
  intros R Hp Hb Hl.
  pose proof (na_cells _ _ _ _ R p a v Hp) as Hca. pose proof (na_cells _ _ _ _ R _ c w Hb) as Hcc.
  pose proof (node_nonnull R p a v Hp) as Ha0. pose proof (node_nonnull R _ c w Hb) as Hc0.
  assert (Hac : a <> c).
  { intros ->. assert (p = b :: p) as E by exact (na_inj _ _ _ _ R _ _ _ _ _ Hp Hb).
    apply (f_equal length) in E. cbn in E. lia. }
  unfold unlink. rewrite Hcc. cbn [mbind option_bind]. cbv zeta.
  assert (Hpar : r_parent (cell M (b :: p) w) = a) by (by apply (addr_Some M p a v)).
  rewrite Hpar, Hca. cbn [mbind option_bind].
  assert ((r_right (cell M p v) =? c) = b) as ->.
  { cbn [cell r_right]. destruct b.
    - rewrite (addr_Some M _ c w Hb). lia.
    - apply Z.eqb_neq. intros E. unfold addr in E. destruct (M !! (true :: p)) as [[x y]|] eqn:Ex; [|lia].
      subst x. by pose proof (na_inj _ _ _ _ R _ _ _ _ _ Ex Hb). }
  unfold update. rewrite Hca. cbn [mbind option_bind set_heap rheap].
  rewrite lookup_insert_ne, Hcc by done. cbn [mbind option_bind].
  eexists. split; [done|]. split; [done|].
  set (M' := delete (b :: p) M).
  assert (Hrem : forall q, addr M' q = if decide (q = b :: p) then 0 else addr M q)
    by (intros; apply addr_remove).
  assert (Hcell : forall q x, is_Some (M !! q) -> q <> p -> q <> b :: p -> cell M' q x = cell M q x).
  { intros q x Hq Hne Hne'. unfold cell, parent_addr. rewrite !Hrem.
    rewrite !decide_False by congruence. destruct q as [|d q]; [done|]. rewrite Hrem, decide_False; [done|].
    intros ->. rewrite (Hl d) in Hq. by destruct Hq. }
  assert (Hcellp : cell M' p v = set_child b 0 (cell M p v)).
  { unfold cell, parent_addr. rewrite !Hrem.
    destruct b; [rewrite decide_True, decide_False by congruence|rewrite decide_False, decide_True by congruence];
      cbn; f_equal; destruct p as [|d p]; try done; rewrite Hrem, decide_False; try done;
      intros E; apply (f_equal length) in E; cbn in E; lia. }
  assert (HM' : forall q y, M' !! q = Some y -> q <> b :: p /\ M !! q = Some y).
  { intros q y. unfold M'. rewrite lookup_delete_Some. naive_solver. }
  destruct R. constructor; cbn [set_heap set_free rheap rt_root rt_free].
  - unfold M'. by rewrite lookup_delete_ne.
  - intros d q [y Hq]. apply HM' in Hq as [Hne Hq]. unfold M'.
    rewrite lookup_delete_ne; [by apply (na_closed0 d); eexists|]. intros <-. by rewrite Hl in Hq.
  - intros q [y Hq]. apply HM' in Hq as [_ Hq]. apply na_depth0. by eexists.
  - intros q1 q2 d x y H1 H2. apply HM' in H1 as [_ H1], H2 as [_ H2]. by apply (na_inj0 q1 q2 d x y).
  - intros q d x Hq. apply HM' in Hq as [Hne Hq]. rewrite lookup_insert_ne.
    2: { intros <-. by apply Hne, (na_inj0 q (b :: p) c x w). }
    destruct (decide (q = p)) as [->|Hqp].
    + rewrite Hp in Hq. injection Hq as <- <-. by rewrite lookup_insert_eq, Hcellp.
    + rewrite lookup_insert_ne by (intros <-; by apply Hqp, (na_inj0 q p a x v)).
      rewrite Hcell by (done || by eexists). by apply na_cells0.
  - by rewrite !lookup_insert_ne.
  - cbn [chain]. split; [done|]. eexists. rewrite lookup_insert_eq. split; [done|].
    cbn [set_right r_right rt_free set_heap].
    apply (chain_ext (rheap t)); [|done]. intros d Hd. rewrite !lookup_insert_ne; [done| |].
    + intros <-. apply (proj2 (na_fresh0 a ltac:(unfold avail; set_solver)) p v). done.
    + intros <-. apply (proj2 (na_fresh0 c ltac:(unfold avail; set_solver)) (b :: p) w). done.
  - change (avail _ (c :: fl)) with (c :: avail t fl). apply NoDup_cons. split; [|done].
    intros Hin. by apply (proj2 (na_fresh0 c Hin) (b :: p) w).
  - intros d Hd. change (avail _ (c :: fl)) with (c :: avail t fl) in Hd.
    apply elem_of_cons in Hd as [->|Hd].
    + split; [done|]. intros q x Hq. apply HM' in Hq as [Hne Hq].
      by apply Hne, (na_inj0 q (b :: p) c x w).
    + split; [by apply na_fresh0|]. intros q x Hq. apply HM' in Hq as [_ Hq].
      by apply (proj2 (na_fresh0 d Hd) q x).
Qed.
