(* ===== verification/RadixMap.v ===== *)
(** * The operations of radix trees on networks

    The loops of insertion, deletion and search walk the nodes of [RadixSpec] along
    the bits of a key; [represents] hides the nodes: what is left is a map from
    networks to values. *)

From stdpp Require Import gmap.
From S2P Require Import Prelude Radix RadixSpec.

(** ** Prefixes of keys *)

(** The first [j] bits as a path. *)
Definition net (ks : list bool) (j : nat) : list bool := rev (take j ks).

Lemma net_S ks j b : ks !! j = Some b -> net ks (S j) = b :: net ks j.
Proof. intros H. unfold net. by rewrite (take_S_r _ _ _ H), rev_app_distr. Qed.

Lemma length_net ks j : (j <= length ks)%nat -> length (net ks j) = j.
Proof. intros H. unfold net. rewrite length_rev, length_take. lia. Qed.

Lemma bit_at (ks : list bool) j : (j < length ks)%nat -> exists b, ks !! j = Some b.
Proof. intros H. by apply lookup_lt_is_Some. Qed.

Lemma net_app ks ks' j : (j <= length ks)%nat -> net (ks ++ ks') j = net ks j.
Proof. intros H. unfold net. by rewrite take_app_le. Qed.

(** Where there is no node there is none further on. *)
Lemma no_deeper depth t M fl ks i j :
  nodes_at depth t M fl -> (i <= j <= length ks)%nat -> M !! net ks i = None -> M !! net ks j = None.
Proof.
  intros R. revert j. induction j as [|j IH]; intros Hij Hi.
  - by replace i with 0%nat in Hi by lia.
  - destruct (decide (i = S j)) as [<-|]; [done|].
    destruct (bit_at ks j ltac:(lia)) as [b Hb]. rewrite (net_S ks j b Hb).
    apply (no_child R). apply IH; [lia|done].
Qed.

(** The value of the longest of the prefixes of fewer than [m] bits. *)
Fixpoint longest (V : gmap (list bool) Z) (ks : list bool) (m : nat) : Z :=
  match m with
  | O => NGX_RADIX_NO_VALUE
  | S j => match V !! net ks j with Some v => v | None => longest V ks j end
  end.

Lemma longest_stop V ks i j :
  (i <= j)%nat -> (forall l, (i <= l < j)%nat -> V !! net ks l = None) -> longest V ks j = longest V ks i.
Proof.
  intros Hij H. induction j as [|j IH]; [by replace i with 0%nat by lia|].
  destruct (decide (i = S j)) as [<-|]; [done|]. cbn [longest].
  rewrite H by lia. apply IH; [lia|]. intros l Hl. apply H. lia.
Qed.

Lemma longest_app V ks ks' j : (j <= S (length ks))%nat -> longest V (ks ++ ks') j = longest V ks j.
Proof.
  induction j as [|j IH]; [done|]. intros Hj. cbn [longest]. rewrite net_app, IH by lia. done.
Qed.

(** A tree that ran out of memory has the same nodes. *)
Lemma exhausted_nodes depth t t' M fl :
  nodes_at depth t M fl -> rheap t' = rheap t -> rt_root t' = rt_root t ->
  avail t' fl = [] -> chain (rheap t') (rt_free t') fl -> nodes_at depth t' M fl.
Proof.
  intros [] Hh Hr Hav Hch. constructor; rewrite ?Hh, ?Hr, ?Hav; try done.
  - by rewrite <-Hh.
  - apply NoDup_nil_2.
  - set_solver.
Qed.

(** ** The walks *)
Section Walks.
Context {K C : Type} `{!Cursor K C}.

Definition pos (j : nat) : C := Nat.iter j next first.

(** What the walks rely on: the turns of a key are the list [ks], the mask goes
    on for [n] positions, and at its end it either stops or the loops leave. *)
Class Reads (k : K) (ks : list bool) (n : nat) : Prop := mk_Reads {
  reads_length : (n <= length ks)%nat;
  reads_fuel : (length ks <= 128)%nat;
  reads_turn : forall j b, ks !! j = Some b -> turn k (pos j) = Some b;
  reads_masked : forall j, (j < n)%nat -> masked k (pos j) = Some true;
  reads_go_on : forall j, (j < n)%nat -> stop (pos j) = false;
  reads_end : stop (pos n) = true /\ (0 < n)%nat \/
    stop (pos n) = false /\ masked k (pos n) = Some false
}.

Context (k : K) (ks : list bool) (n : nat) `{HR : !Reads k ks n}.
Context (depth : nat).

(** The loops test the mask before a position that is not the last, or the last
    where it does not make them leave. *)
Definition tested (j : nat) : Prop := (j < n)%nat \/ j = n /\ masked k (pos n) = Some false.

Lemma tested_first : tested 0.
Proof.
  unfold tested. destruct (decide (0 < n)%nat); [by left|]. right. assert (n = 0%nat) as E by lia.
  split; [done|]. destruct reads_end as [[_ ?]|[_ ?]]; [lia|done].
Qed.

Lemma tested_next j : (j < n)%nat -> if stop (pos (S j)) then S j = n else tested (S j).
Proof.
  intros Hj. unfold tested. destruct (decide (S j < n)%nat) as [Hlt|].
  - rewrite reads_go_on by done. by left.
  - assert (S j = n) as -> by lia. destruct reads_end as [[-> _]|[-> ?]]; auto.
Qed.

Lemma insert_down_spec t M fl fuel j a v nxt :
  nodes_at depth t M fl -> (n - j < fuel)%nat -> tested j ->
  M !! net ks j = Some (a, v) -> nxt <> 0 ->
  exists i a' v' nxt', insert_down fuel t k (pos j) a nxt = Some (pos i, a', nxt') /\
    M !! net ks i = Some (a', v') /\
    (nxt' = 0 /\ (i < n)%nat /\ M !! net ks (S i) = None \/ nxt' <> 0 /\ i = n).
Proof.
  intros R. revert j a v nxt. induction fuel as [|fuel IH]; intros j a v nxt Hf Hj Ha Hn; [lia|].
  cbn [insert_down]. destruct Hj as [Hj|[-> Hm]].
  2: { rewrite Hm. cbn. eauto 10. }
  rewrite reads_masked by done. cbn [mbind option_bind negb].
  rewrite (na_cells _ _ _ _ R _ _ _ Ha). cbn [mbind option_bind].
  pose proof (reads_length (k := k)) as Hl. destruct (bit_at ks j ltac:(lia)) as [b Hb].
  rewrite (reads_turn j b) by done. cbn [mbind option_bind]. rewrite child_cell.
  rewrite <-(net_S ks j b Hb). destruct (addr M (net ks (S j)) =? 0) eqn:E.
  - exists j, a, v, (addr M (net ks (S j))). split; [done|]. split; [done|]. left.
    apply Z.eqb_eq in E. split; [done|]. split; [done|]. by apply (addr_zero R).
  - apply Z.eqb_neq in E. destruct (M !! net ks (S j)) as [[a2 v2]|] eqn:Ea;
      [|by rewrite addr_None in E].
    rewrite (addr_Some _ _ _ _ Ea) in *. pose proof (tested_next j Hj) as Ht.
    change (next (pos j)) with (pos (S j)). destruct (stop (pos (S j))).
    + exists (S j), a2, v2, a2. split; [done|]. split; [done|]. right. done.
    + apply (IH (S j) a2 v2); [lia|done..].
Qed.

Lemma insert_grow_spec fuel : forall t M fl j a v,
  nodes_at depth t M fl -> (n <= depth)%nat -> (n - j < fuel)%nat -> tested j ->
  M !! net ks j = Some (a, v) -> ((j < n)%nat -> M !! net ks (S j) = None) ->
  exists ok a' t' M' fl', insert_grow fuel t k (pos j) a = Some (ok, a', t') /\
    nodes_at depth t' M' fl' /\ vals M' = vals M /\ rt_root t' = rt_root t /\
    if ok : bool then
      exists w, M' !! net ks n = Some (a', w) /\ w = (if decide (j = n) then v else NGX_RADIX_NO_VALUE)
    else avail t' fl' = [].
Proof.
  induction fuel as [|fuel IH]; intros t M fl j a v R Hd Hf Hj Ha Hn; [lia|].
  cbn [insert_grow]. destruct Hj as [Hj|[-> Hm]].
  2: { rewrite Hm. cbn. exists true, a, t, M, fl. do 4 (split; [done|]). exists v. by rewrite decide_True. }
  rewrite reads_masked by done. cbn [mbind option_bind negb].
  destruct (alloc_avail t fl (na_chain _ _ _ _ R)) as (nx & t1 & Eal & Hh & Hr & Hal).
  { intros x Hx. apply (na_fresh _ _ _ _ R). unfold avail. set_solver. }
  rewrite Eal. cbn [mbind option_bind]. destruct Hal as [(-> & Hav & Hav' & Hch)|(fl' & Hav & Hch)].
  { cbn [Z.eqb]. exists false, a, t1, M, fl. split; [done|]. split; [|done].
    by apply (exhausted_nodes _ t). }
  pose proof (reads_length (k := k)) as Hl. destruct (bit_at ks j ltac:(lia)) as [b Hb].
  specialize (Hn Hj). rewrite (net_S ks j b Hb) in Hn.
  destruct (add_leaf depth t M fl fl' t1 (net ks j) b a v nx) as (t3 & Hup & Hroot & Hn0 & R3);
    [done|done|done|rewrite length_net; lia|done|done|done|done|].
  rewrite (proj2 (Z.eqb_neq nx 0) Hn0), (reads_turn j b) by done. cbn [mbind option_bind].
  rewrite Hup. cbn [mbind option_bind]. change (next (pos j)) with (pos (S j)).
  assert (Hv : vals (<[b :: net ks j := (nx, NGX_RADIX_NO_VALUE)]> M) = vals M).
  { apply vals_insert_empty. by apply vals_lookup_None. }
  set (M3 := <[b :: net ks j := (nx, NGX_RADIX_NO_VALUE)]> M) in *.
  assert (Ha3 : M3 !! net ks (S j) = Some (nx, NGX_RADIX_NO_VALUE)).
  { unfold M3. by rewrite (net_S ks j b Hb), lookup_insert_eq. }
  pose proof (tested_next j Hj) as Ht. destruct (stop (pos (S j))).
  - exists true, nx, t3, M3, fl'. split; [done|]. split; [done|]. split; [done|]. split; [done|].
    exists NGX_RADIX_NO_VALUE. rewrite <-Ht, decide_False by lia. done.
  - destruct (IH t3 M3 fl' (S j) nx NGX_RADIX_NO_VALUE) as (ok & a' & t' & M' & fl2 & E & R' & Hv' & Hr' & Hok);
      [done|done|lia|done|done| |].
    { intros Hj'. destruct (bit_at ks (S j) ltac:(lia)) as [b' Hb']. rewrite (net_S ks (S j) b' Hb').
      unfold M3. rewrite (net_S ks j b Hb), lookup_insert_ne.
      - by apply (no_child R).
      - intros E. apply (f_equal length) in E. cbn in E. lia. }
    exists ok, a', t', M', fl2. rewrite Hv', Hr'. do 4 (split; [done|]).
    destruct ok; [|done]. destruct Hok as (w & Hw & ->). exists NGX_RADIX_NO_VALUE.
    rewrite decide_False by lia. case_decide; done.
Qed.

Lemma delete_down_spec t M fl fuel j :
  nodes_at depth t M fl -> (n - j < fuel)%nat -> tested j ->
  delete_down fuel t k (pos j) (addr M (net ks j)) = Some (addr M (net ks n)).
Proof.
  intros R. revert j. induction fuel as [|fuel IH]; intros j Hf Hj; [lia|].
  cbn [delete_down]. pose proof (reads_length (k := k)) as Hl.
  destruct (addr M (net ks j) =? 0) eqn:E.
  { apply Z.eqb_eq, (addr_zero R) in E. rewrite (addr_None _ (net ks n)); [done|].
    apply (no_deeper depth t M fl ks j n R); [|done]. destruct Hj as [|[-> _]]; lia. }
  destruct Hj as [Hj|[-> Hm]]; [|by rewrite Hm].
  rewrite reads_masked by done. destruct (bit_at ks j ltac:(lia)) as [b Hb].
  cbn [mbind option_bind negb]. rewrite (reads_turn j b) by done. cbn [mbind option_bind].
  apply Z.eqb_neq in E. destruct (M !! net ks j) as [[a v]|] eqn:Ea; [|by rewrite addr_None in E].
  rewrite (addr_Some _ _ _ _ Ea), (na_cells _ _ _ _ R _ _ _ Ea). cbn [mbind option_bind].
  rewrite child_cell, <-(net_S ks j b Hb). pose proof (tested_next j Hj) as Ht.
  change (next (pos j)) with (pos (S j)). destruct (stop (pos (S j))).
  - by rewrite Ht.
  - apply IH; [lia|done].
Qed.

End Walks.

(** *** The deletion of a leaf *)

Lemma delete_up_S fuel t node :
  delete_up (S fuel) t node =
    n ← rheap t !! node;
    t1 ← unlink t node;
    m ← rheap t1 !! r_parent n;
    if negb (r_right m =? 0) || negb (r_left m =? 0) then Some t1
    else if negb (r_value m =? NGX_RADIX_NO_VALUE) then Some t1
    else if r_parent m =? 0 then Some t1
    else delete_up fuel t1 (r_parent n).
Proof.
  cbn [delete_up]. unfold unlink. destruct (rheap t !! node) as [x|]; [|done]. cbn [mbind option_bind].
  destruct (rheap t !! r_parent x) as [y|]; [|done]. cbn [mbind option_bind].
  destruct (update (r_parent x) _ t) as [t1|]; [|done]. cbn [mbind option_bind].
  by destruct (update node _ t1) as [t2|].
Qed.

Lemma delete_up_step depth t M fl fuel b p a v :
  nodes_at depth t M fl -> M !! (b :: p) = Some (a, v) -> is_leaf M (b :: p) ->
  exists t1 x w, nodes_at depth t1 (delete (b :: p) M) (a :: fl) /\ rt_root t1 = rt_root t /\
    delete (b :: p) M !! p = Some (x, w) /\
    delete_up (S fuel) t a =
      let m := cell (delete (b :: p) M) p w in
      if negb (r_right m =? 0) || negb (r_left m =? 0) then Some t1
      else if negb (w =? NGX_RADIX_NO_VALUE) then Some t1
      else if r_parent m =? 0 then Some t1
      else delete_up fuel t1 x.
Proof.
  intros R Ha Hl. destruct (na_closed _ _ _ _ R b p ltac:(by eexists)) as [[x w] Hp].
  destruct (remove_leaf depth t M fl p b x w a v R Hp Ha Hl) as (t1 & Eu & Hr & R1).
  assert (Hp1 : delete (b :: p) M !! p = Some (x, w)).
  { rewrite lookup_delete_ne; [done|]. intros E. apply (f_equal length) in E. cbn in E. lia. }
  exists t1, x, w. do 3 (split; [done|]).
  rewrite delete_up_S, (na_cells _ _ _ _ R _ _ _ Ha). cbn [mbind option_bind]. rewrite Eu.
  assert (Hpar : r_parent (cell M (b :: p) v) = x) by (by apply (addr_Some M p x w)).
  rewrite Hpar. cbn [mbind option_bind]. by rewrite (na_cells _ _ _ _ R1 _ _ _ Hp1).
Qed.

Lemma delete_up_spec depth p : forall fuel t M fl b (a v : Z),
  nodes_at depth t M fl -> M !! (b :: p) = Some (a, v) -> is_leaf M (b :: p) -> (length p < fuel)%nat ->
  exists t' M' fl', delete_up fuel t a = Some t' /\ nodes_at depth t' M' fl' /\
    vals M' = delete (b :: p) (vals M) /\ rt_root t' = rt_root t.
Proof.
  induction p as [|c p IH]; intros fuel t M fl b a v R Ha Hl Hf;
    (destruct fuel as [|fuel]; [cbn in Hf; lia|]);
    destruct (delete_up_step depth t M fl fuel b _ a v R Ha Hl) as (t1 & x & w & R1 & Hr & Hp1 & ->);
    pose proof (vals_delete M) as Hv; cbv zeta; cbn [cell r_right r_left r_parent].
  - cbn [parent_addr Z.eqb]. exists t1, (delete [b] M), (a :: fl). rewrite Hv.
    split; [repeat case_match; done|done].
  - specialize (Hv (b :: c :: p)). set (M1 := delete (b :: c :: p) M) in *.
    destruct (negb (addr M1 (true :: c :: p) =? 0) || negb (addr M1 (false :: c :: p) =? 0)) eqn:Ek;
      [by exists t1, M1, (a :: fl)|].
    destruct (negb (w =? NGX_RADIX_NO_VALUE)) eqn:Ew; [by exists t1, M1, (a :: fl)|].
    apply orb_false_iff in Ek as [Et Ef]. apply negb_false_iff, Z.eqb_eq in Et, Ef, Ew.
    assert (Hl1 : is_leaf M1 (c :: p)) by (intros []; by apply (addr_zero R1)).
    cbn [parent_addr]. destruct (addr M1 p =? 0) eqn:Er; [by exists t1, M1, (a :: fl)|].
    destruct (IH fuel t1 M1 _ c x w R1 Hp1 Hl1) as (t' & M' & fl' & -> & R' & Hv' & Hr'); [cbn in Hf; lia|].
    exists t', M', fl'. split; [done|]. split; [done|]. rewrite Hv', Hr', Hv. split; [|done].
    rewrite <-Hv. apply delete_id. by rewrite (vals_lookup _ _ _ _ Hp1), Ew.
Qed.

(** *** The search *)
Lemma find_down_spec {K C} `{!Cursor K C} depth (turn_to : C -> option bool) bits t M fl fuel j :
  nodes_at depth t M fl -> length bits = S depth ->
  (forall i b, bits !! i = Some b -> turn_to (pos i) = Some b) ->
  (j <= S depth)%nat -> (S depth - j < fuel)%nat ->
  find_down fuel t turn_to (pos j) (addr M (net bits j)) (longest (vals M) bits j) =
    Some (longest (vals M) bits (S depth)).
Proof.
  intros R Hlen Htu. revert j. induction fuel as [|fuel IH]; intros j Hj Hf; [lia|].
  cbn [find_down]. destruct (addr M (net bits j) =? 0) eqn:E.
  { apply Z.eqb_eq, (addr_zero R) in E. f_equal. symmetry. apply longest_stop; [done|].
    intros l Hl. apply vals_lookup_None. apply (no_deeper depth t M fl bits j l R); [lia|done]. }
  apply Z.eqb_neq in E. destruct (M !! net bits j) as [[a v]|] eqn:Ea; [|by rewrite addr_None in E].
  assert (Hjd : (j <= depth)%nat).
  { pose proof (na_depth _ _ _ _ R (net bits j) ltac:(by eexists)) as Hd.
    rewrite length_net in Hd; lia. }
  rewrite (addr_Some _ _ _ _ Ea), (na_cells _ _ _ _ R _ _ _ Ea). cbn [mbind option_bind].
  destruct (bit_at bits j ltac:(lia)) as [b Hb]. rewrite (Htu j b Hb). cbn [mbind option_bind].
  rewrite child_cell, <-(net_S bits j b Hb). change (next (pos j)) with (pos (S j)).
  rewrite <-(IH (S j)) by lia. f_equal. cbn [cell r_value longest].
  rewrite (vals_lookup _ _ _ _ Ea). by destruct (v =? NGX_RADIX_NO_VALUE).
Qed.

(** ** The trees *)

(** [t] holds the networks [V] of at most [depth] bits. *)
Definition represents (depth : nat) (t : radix) (V : gmap (list bool) Z) : Prop :=
  exists M fl, nodes_at depth t M fl /\ vals M = V.

(** No node is left. *)
Definition exhausted (t : radix) : Prop := exists t', ngx_radix_alloc t = Some (0, t').

Lemma avail_exhausted depth t M fl : nodes_at depth t M fl -> avail t fl = [] -> exhausted t.
Proof.
  intros R Hav. destruct (alloc_avail t fl (na_chain _ _ _ _ R)) as (p & t' & E & _ & _ & H).
  { intros x Hx. apply (na_fresh _ _ _ _ R). unfold avail. set_solver. }
  exists t'. destruct H as [[-> _]|(fl' & H & _)]; [done|]. congruence.
Qed.

Section Operations.
Context {K C : Type} `{!Cursor K C} (k : K) (ks : list bool) (n : nat) `{HR : !Reads k ks n}.

Lemma root_at depth t M fl :
  nodes_at depth t M fl -> exists v, M !! net ks 0 = Some (rt_root t, v) /\ rt_root t <> 0.
Proof.
  intros R. pose proof (na_root _ _ _ _ R) as Hr. change (net ks 0) with (@nil bool).
  destruct (M !! []) as [[a v]|] eqn:E; [|done]. injection Hr as <-. exists v. split; [done|].
  by apply (node_nonnull R [] a v).
Qed.

Lemma radix_insert_spec depth t V v :
  represents depth t V -> (n <= depth)%nat ->
  exists rc t', radix_insert t k v = Some (rc, t') /\
    (rc = NGX_OK /\ V !! net ks n = None /\
       represents depth t' (if v =? NGX_RADIX_NO_VALUE then V else <[net ks n := v]> V) \/
     rc = NGX_BUSY /\ is_Some (V !! net ks n) /\ t' = t \/
     rc = NGX_ERROR /\ V !! net ks n = None /\ represents depth t' V /\ exhausted t').
Proof.
  intros (M & fl & R & <-) Hd. destruct (root_at depth t M fl R) as (v0 & H0 & Hnz).
  pose proof (reads_length (k := k)) as Hl. pose proof (reads_fuel (k := k)) as Hfu. unfold radix_insert.
  destruct (insert_down_spec k ks n depth t M fl radix_fuel 0 (rt_root t) v0 (rt_root t) R) as
    (i & a & w & nx & E & Ha & Hc); [unfold radix_fuel; lia|by apply (tested_first k ks n)|done|done|].
  change (pos 0) with (first (K := K)) in E. rewrite E. cbn [mbind option_bind].
  destruct Hc as [(-> & Hi & Hno)|(Hx & Hi)].
  - cbn [Z.eqb negb].
    assert (HVn : vals M !! net ks n = None).
    { apply vals_lookup_None. apply (no_deeper depth t M fl ks (S i) n R); [lia|done]. }
    destruct (insert_grow_spec k ks n depth radix_fuel t M fl i a w) as
      (ok & a' & t1 & M' & fl' & -> & R' & Hv & Hr & Hok);
      [done|done|unfold radix_fuel; lia|by left|done|done|].
    cbn [mbind option_bind]. destruct ok; cbn [negb].
    + destruct Hok as (w' & Hw & ->). rewrite decide_False in Hw by lia.
      destruct (update_value depth t1 M' fl' _ a' _ v R' Hw) as (t2 & -> & _ & R2). cbn [mbind option_bind].
      eexists _, _. split; [done|]. left. split; [done|]. split; [done|]. eexists _, _. split; [done|].
      rewrite vals_insert, Hv. case_match; [|done]. by apply delete_id.
    + eexists _, _. split; [done|]. right. right. split; [done|]. split; [done|].
      split; [by eexists _, _|]. by apply (avail_exhausted depth t1 M' fl').
  - rewrite (proj2 (Z.eqb_neq nx 0) Hx). cbn [negb]. rewrite Hi in Ha.
    rewrite (na_cells _ _ _ _ R _ _ _ Ha). cbn [mbind option_bind cell r_value].
    rewrite (vals_lookup _ _ _ _ Ha). destruct (w =? NGX_RADIX_NO_VALUE) eqn:Ew; cbn [negb].
    + destruct (update_value depth t M fl _ a _ v R Ha) as (t2 & -> & _ & R2). cbn [mbind option_bind].
      eexists _, _. split; [done|]. left. split; [done|]. split; [done|]. eexists _, _. split; [done|].
      rewrite vals_insert. case_match; [|done]. apply delete_id. by rewrite (vals_lookup _ _ _ _ Ha), Ew.
    + eexists _, _. split; [done|]. right. left. split; [done|]. split; [by eexists|done].
Qed.

(** A root without children has no parent to be cut from. *)
Definition lone_root (t : radix) : Prop :=
  exists m, rheap t !! rt_root t = Some m /\ r_right m = 0 /\ r_left m = 0.

Lemma radix_delete_spec depth t V :
  represents depth t V -> (n <= depth)%nat ->
  match radix_delete t k with
  | None => n = 0%nat /\ lone_root t
  | Some (rc, t') =>
      represents depth t' (delete (net ks n) V) /\
      (rc = NGX_OK \/ rc = NGX_ERROR /\ t' = t /\ V !! net ks n = None)
  end.
Proof.
  intros (M & fl & R & <-) Hd. destruct (root_at depth t M fl R) as (v0 & H0 & Hnz).
  pose proof (reads_length (k := k)) as Hl. pose proof (reads_fuel (k := k)) as Hfu. unfold radix_delete.
  rewrite <-(addr_Some _ _ _ _ H0). change (first (K := K)) with (pos (K := K) 0).
  rewrite (delete_down_spec k ks n depth t M fl) by (done || (unfold radix_fuel; lia) || by apply (tested_first k ks n)).
  cbn [mbind option_bind]. destruct (addr M (net ks n) =? 0) eqn:E.
  { apply Z.eqb_eq, (addr_zero R), vals_lookup_None in E.
    split; [by exists M, fl; rewrite delete_id|]. auto. }
  apply Z.eqb_neq in E. destruct (M !! net ks n) as [[a w]|] eqn:Ea; [|by rewrite addr_None in E].
  rewrite (addr_Some _ _ _ _ Ea), (na_cells _ _ _ _ R _ _ _ Ea). cbn [mbind option_bind cell r_right r_left r_value].
  destruct (negb (addr M (true :: net ks n) =? 0) || negb (addr M (false :: net ks n) =? 0)) eqn:Ek.
  - destruct (w =? NGX_RADIX_NO_VALUE) eqn:Ew; cbn [negb].
    + assert (vals M !! net ks n = None) by (by rewrite (vals_lookup _ _ _ _ Ea), Ew).
      split; [by exists M, fl; rewrite delete_id|]. auto.
    + destruct (update_value depth t M fl _ a _ NGX_RADIX_NO_VALUE R Ea) as (t2 & -> & _ & R2).
      cbn [mbind option_bind]. split; [|by left]. eexists _, _. split; [done|]. by rewrite vals_insert.
  - apply orb_false_iff in Ek as [Et Ef]. apply negb_false_iff, Z.eqb_eq in Et, Ef.
    assert (Hleaf : is_leaf M (net ks n)) by (intros []; by apply (addr_zero R)).
    assert (Hlen : length (net ks n) = n) by (by apply length_net).
    destruct (net ks n) as [|b p] eqn:Enet.
    + assert (delete_up radix_fuel t a = None) as ->.
      { unfold radix_fuel. rewrite delete_up_S. rewrite (na_cells _ _ _ _ R _ _ _ Ea). cbn [mbind option_bind].
        unfold unlink. rewrite (na_cells _ _ _ _ R _ _ _ Ea). cbn [mbind option_bind cell r_parent parent_addr].
        by rewrite (na_null _ _ _ _ R). }
      split; [done|]. change (net ks 0) with (@nil bool) in H0. rewrite H0 in Ea. injection Ea as <- <-.
      exists (cell M [] v0). split; [by apply (na_cells _ _ _ _ R)|done].
    + destruct (delete_up_spec depth p radix_fuel t M fl b a w R Ea Hleaf) as (t' & M' & fl' & -> & R' & Hv & _);
        [unfold radix_fuel; cbn in Hlen; lia|].
      cbn [mbind option_bind]. split; [|by left]. exists M', fl'. done.
Qed.
End Operations.

Lemma radix_find_spec {K C} `{!Cursor K C} depth (turn_to : C -> option bool) bits t V :
  represents depth t V -> length bits = S depth -> (depth <= 128)%nat ->
  (forall i b, bits !! i = Some b -> turn_to (pos i) = Some b) ->
  radix_find t turn_to = Some (longest V bits (S depth)).
Proof.
  intros (M & fl & R & <-) Hlen Hd Htu. unfold radix_find.
  assert (rt_root t = addr M (net bits 0)) as ->.
  { pose proof (na_root _ _ _ _ R) as Hr. change (net bits 0) with (@nil bool). unfold addr.
    destruct (M !! []) as [[a v]|]; [|done]. by injection Hr as <-. }
  apply (find_down_spec depth turn_to bits t M fl radix_fuel 0); try done; unfold radix_fuel; lia.
Qed.
