(* ===== verification/RadixTree.v ===== *)
(** * Radix trees of IPv4 and IPv6 networks

    The bits of 32-bit and 16-byte keys, and the contracts of
    [ngx_radix32tree_insert], [_delete] and [_find], of their IPv6 versions and of
    [ngx_radix_tree_create], on trees that [represents] a map from networks to
    values. *)

From stdpp Require Import gmap.
From S2P Require Import Prelude Radix RadixSpec RadixMap.

(** ** Bits *)

Lemma land_pow2 a i : 0 <= i -> (Z.land a (2 ^ i) =? 0) = negb (Z.testbit a i).
Proof.
  intros Hi. destruct (Z.testbit a i) eqn:E; cbn [negb].
  - apply Z.eqb_neq. intros H. apply (f_equal (fun z => Z.testbit z i)) in H.
    rewrite Z.land_spec, Z.pow2_bits_true, E, Z.bits_0 in H by done. done.
  - apply Z.eqb_eq, Z.bits_inj'. intros j Hj. rewrite Z.land_spec, Z.bits_0.
    destruct (decide (i = j)) as [<-|Hne]; [by rewrite E|].
    by rewrite Z.pow2_bits_false, andb_false_r.
Qed.

Lemma iter_shiftr x j : Nat.iter j (fun b => Z.shiftr b 1) x = Z.shiftr x (Z.of_nat j).
Proof.
  induction j as [|j IH]; [by rewrite Z.shiftr_0_r|].
  cbn [Nat.iter nat_rect]. unfold Nat.iter in IH. rewrite IH, Z.shiftr_shiftr by lia. f_equal. lia.
Qed.

Lemma shiftr_pow2 i j : 0 <= j <= i -> Z.shiftr (2 ^ i) j = 2 ^ (i - j).
Proof. intros H. rewrite Z.shiftr_div_pow2 by lia. rewrite Z.pow_sub_r by lia. done. Qed.

(** *** 32-bit keys *)

(** The bits from the highest. *)
Definition bits32 (key : Z) : list bool := map (fun j => Z.testbit key (31 - Z.of_nat j)) (seq 0 32).

(** The mask of [n] bits. *)
Definition mask32 (n : nat) : Z := 2 ^ 32 - 2 ^ (32 - Z.of_nat n).

Lemma pos32 j : pos (K := key32) j = Z.shiftr (2 ^ 31) (Z.of_nat j).
Proof. apply iter_shiftr. Qed.

Lemma turn32 k j : (j < 32)%nat ->
  turn k (pos (K := key32) j) = Some (Z.testbit (k32_key k) (31 - Z.of_nat j)).
Proof.
  intros Hj. rewrite pos32, shiftr_pow2 by lia. cbn [turn cursor32].
  rewrite land_pow2 by lia. by rewrite negb_involutive.
Qed.

Lemma bits32_lookup key j b :
  bits32 key !! j = Some b -> (j < 32)%nat /\ b = Z.testbit key (31 - Z.of_nat j).
Proof.
  unfold bits32. rewrite list_lookup_fmap. intros H. apply fmap_Some in H as (i & Hi & ->).
  apply lookup_seq in Hi as [-> ?]. auto.
Qed.

Lemma masked32 key n j : (j <= n <= 32)%nat ->
  masked (mk_key32 key (mask32 n)) (pos (K := key32) j) = Some (j <? n)%nat.
Proof.
  intros H.
  assert (Hall : forallb (fun m => forallb (fun i =>
     Bool.eqb (negb (Z.land (Z.shiftr (2 ^ 31) (Z.of_nat i)) (mask32 m) =? 0)) (i <? m)%nat)
       (seq 0 (S m))) (seq 0 33) = true) by (vm_compute; done).
  rewrite forallb_forall in Hall. specialize (Hall n). rewrite in_seq in Hall.
  specialize (Hall ltac:(lia)). rewrite forallb_forall in Hall. specialize (Hall j). rewrite in_seq in Hall.
  specialize (Hall ltac:(lia)). apply Bool.eqb_prop in Hall. cbn [masked cursor32 k32_mask].
  by rewrite pos32, Hall.
Qed.

#[export] Instance reads32 key n : (n <= 32)%nat -> Reads (mk_key32 key (mask32 n)) (bits32 key) n.
Proof.
  intros Hn. constructor.
  - done.
  - vm_compute. lia.
  - intros j b Hb. apply bits32_lookup in Hb as [Hj ->]. by rewrite turn32.
  - intros j Hj. rewrite masked32 by lia. f_equal. lia.
  - done.
  - right. split; [done|]. rewrite masked32 by lia. f_equal. lia.
Qed.

(** *** 16-byte keys *)

Definition byte_bits (b : Z) : list bool := map (fun j => Z.testbit b (7 - Z.of_nat j)) (seq 0 8).

Definition bits128 (key : list Z) : list bool := concat (map byte_bits key).

(** The mask of [n] bits. *)
Definition mask128 (n : nat) : list Z :=
  map (fun i => 256 - 2 ^ (8 - Z.max 0 (Z.min 8 (Z.of_nat n - 8 * Z.of_nat i)))) (seq 0 16).

Lemma pos128 j :
  pos (K := key128) j = ((j / 8)%nat, 2 ^ (7 - Z.of_nat (j mod 8))).
Proof.
  induction j as [|j IH]; [done|]. unfold pos in *. cbn [Nat.iter nat_rect]. unfold Nat.iter in IH.
  rewrite IH. clear IH. cbn [next cursor128].
  pose proof (Nat.div_mod_eq j 8) as Hd. pose proof (Nat.mod_upper_bound j 8 ltac:(lia)) as Hm.
  set (q := (j / 8)%nat) in *. set (r := (j mod 8)%nat) in *.
  destruct (decide (r = 7%nat)) as [E|Hne].
  - assert ((S j / 8)%nat = S q /\ (S j mod 8)%nat = 0%nat) as [-> ->].
    { split; symmetry; [apply (Nat.div_unique (S j) 8 (S q) 0)|apply (Nat.mod_unique (S j) 8 (S q) 0)]; lia. }
    by rewrite E.
  - assert ((S j / 8)%nat = q /\ (S j mod 8)%nat = S r) as [-> ->].
    { split; symmetry; [apply (Nat.div_unique (S j) 8 q (S r))|apply (Nat.mod_unique (S j) 8 q (S r))]; lia. }
    rewrite shiftr_pow2 by lia. assert ((2 ^ (7 - Z.of_nat r - 1) =? 0) = false) as ->.
    { apply Z.eqb_neq. pose proof (Z.pow_pos_nonneg 2 (7 - Z.of_nat r - 1)). lia. }
    do 2 f_equal. lia.
Qed.

Lemma length_bits128 key : length (bits128 key) = (8 * length key)%nat.
Proof. induction key as [|b key IH]; [done|]. cbn [bits128 map concat]. rewrite length_app. fold (bits128 key). cbn [length]. rewrite IH. cbn [byte_bits length map seq]. lia. Qed.

Lemma bits128_lookup key j b :
  bits128 key !! j = Some b ->
  exists x, key !! (j / 8)%nat = Some x /\ b = Z.testbit x (7 - Z.of_nat (j mod 8)).
Proof.
  revert j. induction key as [|y key IH]; intros j H; [done|].
  cbn [bits128 map concat] in H. fold (bits128 key) in H.
  destruct (decide (j < 8)%nat) as [Hlt|Hge].
  - rewrite lookup_app_l in H by (cbn; lia). rewrite Nat.div_small, Nat.mod_small by lia.
    exists y. split; [done|]. unfold byte_bits in H. rewrite list_lookup_fmap in H.
    apply fmap_Some in H as (i & Hi & ->). by apply lookup_seq in Hi as [-> _].
  - rewrite lookup_app_r in H by (cbn; lia). change (length (byte_bits y)) with 8%nat in H.
    apply IH in H as (x & Hx & ->). exists x.
    replace j with (1 * 8 + (j - 8))%nat by lia.
    rewrite Nat.div_add_l by lia. rewrite (Nat.add_comm (1 * 8)), Nat.Div0.mod_add.
    replace (j - 8 + 1 * 8 - 8)%nat with (j - 8)%nat by lia.
    replace (1 * 8 + (j - 8) - 8)%nat with (j - 8)%nat in * by lia. done.
Qed.

Lemma turn128 key mask j b :
  bits128 key !! j = Some b -> turn (mk_key128 key mask) (pos (K := key128) j) = Some b.
Proof.
  intros H. apply bits128_lookup in H as (x & Hx & ->). rewrite pos128. cbn [turn cursor128 k128_key].
  rewrite Hx. cbn [mbind option_bind]. rewrite land_pow2; [by rewrite negb_involutive|].
  pose proof (Nat.mod_upper_bound j 8). lia.
Qed.

Lemma masked128 key n j : (j <= n <= 128)%nat -> (j < 128)%nat ->
  masked (mk_key128 key (mask128 n)) (pos (K := key128) j) = Some (j <? n)%nat.
Proof.
  intros H Hj.
  assert (Hall : forallb (fun m => forallb (fun i =>
     match mask128 m !! (i / 8)%nat with
     | Some x => Bool.eqb (negb (Z.land (2 ^ (7 - Z.of_nat (i mod 8))) x =? 0)) (i <? m)%nat
     | None => false
     end) (seq 0 128)) (seq 0 129) = true) by (vm_compute; done).
  rewrite forallb_forall in Hall. specialize (Hall n). rewrite in_seq in Hall.
  specialize (Hall ltac:(lia)). rewrite forallb_forall in Hall. specialize (Hall j). rewrite in_seq in Hall.
  specialize (Hall ltac:(lia)). rewrite pos128. cbn [masked cursor128 k128_mask].
  destruct (mask128 n !! _) as [x|]; [|done]. apply Bool.eqb_prop in Hall. cbn [mbind option_bind].
  by rewrite Hall.
Qed.

Lemma stop128 j : (j < 128)%nat -> stop (Cursor := cursor128) (pos (K := key128) j) = false.
Proof.
  intros Hj. rewrite pos128. cbn [stop cursor128]. apply Nat.eqb_neq.
  assert (j / 8 < 16)%nat by (apply Nat.Div0.div_lt_upper_bound; lia). lia.
Qed.

#[export] Instance reads128 key n :
  length key = 16%nat -> (n <= 128)%nat -> Reads (mk_key128 key (mask128 n)) (bits128 key) n.
Proof.
  intros Hk Hn. constructor.
  - rewrite length_bits128. lia.
  - rewrite length_bits128. lia.
  - intros j b Hb. by apply turn128.
  - intros j Hj. rewrite masked128 by lia. f_equal. lia.
  - intros j Hj. apply stop128. lia.
  - destruct (decide (n = 128%nat)) as [->|]; [left; split; [done|lia]|].
    right. rewrite stop128, masked128 by lia. split; [done|]. f_equal. lia.
Qed.

(** ** The trees of networks *)

Lemma represents_deeper d d' t V : (d <= d')%nat -> represents d t V -> represents d' t V.
Proof.
  intros H (M & fl & [] & HV). exists M, fl. split; [|done]. constructor; try done.
  intros p Hp. specialize (na_depth p Hp). lia.
Qed.

(** What [ngx_radix*tree_insert] does to the map: [p] is the network. *)
Definition insert_contract (depth : nat) (t : radix) (V : gmap (list bool) Z) (p : list bool) (v : Z)
    (r : option (Z * radix)) : Prop :=
  exists rc t', r = Some (rc, t') /\
    (rc = NGX_OK /\ V !! p = None /\ represents depth t' (<[p := v]> V) \/
     rc = NGX_BUSY /\ is_Some (V !! p) /\ t' = t \/
     rc = NGX_ERROR /\ V !! p = None /\ represents depth t' V /\ exhausted t').

(** What [ngx_radix*tree_delete] does to the map; the fault is the loss of the
    last node. *)
Definition delete_contract (depth : nat) (t : radix) (V : gmap (list bool) Z) (p : list bool)
    (r : option (Z * radix)) : Prop :=
  match r with
  | Some (rc, t') =>
      represents depth t' (delete p V) /\
      (rc = NGX_OK \/ rc = NGX_ERROR /\ t' = t /\ V !! p = None)
  | None => p = [] /\ lone_root t
  end.

Lemma net_nil ks : net ks 0 = [].
Proof. done. Qed.

Lemma insert_contract_holds {K C} `{!Cursor K C} (k : K) ks n `{!Reads k ks n} depth t V v :
  represents depth t V -> (n <= depth)%nat -> v <> NGX_RADIX_NO_VALUE ->
  insert_contract depth t V (net ks n) v (radix_insert t k v).
Proof.
  intros HV Hn Hv. destruct (radix_insert_spec k ks n depth t V v HV Hn) as (rc & t' & E & H).
  exists rc, t'. split; [done|]. by rewrite (proj2 (Z.eqb_neq v _) Hv) in H.
Qed.

Lemma delete_contract_holds {K C} `{!Cursor K C} (k : K) ks n `{!Reads k ks n} depth t V :
  represents depth t V -> (n <= depth)%nat ->
  delete_contract depth t V (net ks n) (radix_delete t k).
Proof.
  intros HV Hn. pose proof (radix_delete_spec k ks n depth t V HV Hn) as H. unfold delete_contract.
  destruct (radix_delete t k) as [[rc t']|]; [done|]. destruct H as [-> ?]. done.
Qed.

Lemma find32_longest t V key :
  represents 32 t V -> ngx_radix32tree_find t key = Some (longest V (bits32 key) 33).
Proof.
  intros HV. unfold ngx_radix32tree_find.
  rewrite (radix_find_spec 32 _ (bits32 key ++ [false]) t V HV); [|done|lia|].
  - by rewrite longest_app.
  - intros i b Hb. apply lookup_app_Some in Hb as [Hb|[Hlen Hb]].
    + apply bits32_lookup in Hb as [Hi ->]. by rewrite turn32.
    + change (length (bits32 key)) with 32%nat in *.
      apply list_lookup_singleton_Some in Hb as [Hi <-]. assert (i = 32%nat) as -> by lia.
      cbn [turn cursor32]. rewrite pos32. change (Z.shiftr (2 ^ 31) (Z.of_nat 32)) with 0.
      by rewrite Z.land_0_r.
Qed.

Lemma find128_longest t V key after rest :
  represents 128 t V -> length key = 16%nat ->
  ngx_radix128tree_find t (key ++ after :: rest) = Some (longest V (bits128 key) 129).
Proof.
  intros HV Hlen. unfold ngx_radix128tree_find.
  assert (Hl : length (bits128 key) = 128%nat) by (rewrite length_bits128; lia).
  rewrite (radix_find_spec 128 _ (bits128 key ++ [Z.testbit after 7]) t V HV); [| |lia|].
  - rewrite longest_app by lia. done.
  - rewrite length_app, Hl. done.
  - intros i b Hb. apply turn128. unfold bits128 in *. rewrite map_app, concat_app.
    apply lookup_app_Some in Hb as [Hb|[Hi Hb]]; [by apply lookup_app_l_Some|].
    rewrite lookup_app_r by done. apply list_lookup_singleton_Some in Hb as [Hi' <-].
    rewrite Hi'. done.
Qed.

(** ** Creation *)

Lemma preallocate_keys_spec l fuel : forall i t,
  (1 <= l <= 8)%nat -> represents 32 t ∅ -> 0 <= i < 2 ^ Z.of_nat l ->
  2 ^ Z.of_nat l - i <= Z.of_nat fuel ->
  exists ok t', preallocate_keys fuel t (i * 2 ^ (32 - Z.of_nat l)) (mask32 l) (2 ^ (32 - Z.of_nat l)) =
    Some (ok, t') /\ represents 32 t' ∅ /\ (ok = false -> exhausted t').
Proof.
  induction fuel as [|fuel IH]; intros i t Hl HV Hi Hf; [lia|]. cbn [preallocate_keys].
  unfold ngx_radix32tree_insert.
  pose proof (reads32 (i * 2 ^ (32 - Z.of_nat l)) l ltac:(lia)) as HR.
  destruct (radix_insert_spec (mk_key32 (i * 2 ^ (32 - Z.of_nat l)) (mask32 l)) _ l 32 t ∅
    NGX_RADIX_NO_VALUE HV ltac:(lia)) as (rc & t1 & -> & H). cbn [mbind option_bind].
  destruct H as [(-> & _ & H)|[(_ & H & _)|(-> & _ & H & He)]].
  - rewrite Z.eqb_refl in H |- *. cbn [negb].
    assert (Hp : 2 ^ Z.of_nat l * 2 ^ (32 - Z.of_nat l) = 2 ^ 32) by (rewrite <-Z.pow_add_r by lia; f_equal; lia).
    assert (Hp0 : 0 < 2 ^ (32 - Z.of_nat l)) by (apply Z.pow_pos_nonneg; lia).
    replace (i * 2 ^ (32 - Z.of_nat l) + 2 ^ (32 - Z.of_nat l)) with ((i + 1) * 2 ^ (32 - Z.of_nat l)) by lia.
    destruct (decide (i + 1 = 2 ^ Z.of_nat l)) as [E|Hne].
    + rewrite E, Hp. change (u32 (2 ^ 32) =? 0) with true. by exists true, t1.
    + assert (u32 ((i + 1) * 2 ^ (32 - Z.of_nat l)) = (i + 1) * 2 ^ (32 - Z.of_nat l)) as ->.
      { apply Z.mod_small. rewrite <-Hp. nia. }
      rewrite (proj2 (Z.eqb_neq _ 0)) by nia. apply IH; [done|done|lia|lia].
  - by destruct H.
  - by exists false, t1.
Qed.

Lemma next_mask32 l : (l <= 8)%nat -> Z.lor (Z.shiftr (mask32 l) 1) 0x80000000 = mask32 (S l).
Proof.
  intros H. assert (l ∈ seq 0 9) as Hin by (apply elem_of_seq; lia). revert l H Hin.
  assert (Forall (fun l => Z.lor (Z.shiftr (mask32 l) 1) 0x80000000 = mask32 (S l)) (seq 0 9)) as Hall
    by (repeat constructor).
  rewrite Forall_forall in Hall. auto.
Qed.

Lemma preallocate_levels_spec levels : forall l t,
  (l + levels <= 8)%nat -> represents 32 t ∅ ->
  exists ok t', preallocate_levels levels t (mask32 l) (2 ^ (31 - Z.of_nat l)) = Some (ok, t') /\
    represents 32 t' ∅ /\ (ok = false -> exhausted t').
Proof.
  induction levels as [|levels IH]; intros l t Hl HV; cbn [preallocate_levels]; [by exists true, t|].
  rewrite next_mask32 by lia. replace (31 - Z.of_nat l) with (32 - Z.of_nat (S l)) by lia.
  assert (2 ^ Z.of_nat (S l) <= 2 ^ 8) by (apply Z.pow_le_mono_r; lia).
  assert (0 < 2 ^ Z.of_nat (S l)) by (apply Z.pow_pos_nonneg; lia).
  destruct (preallocate_keys_spec (S l) 1000 0 t) as (ok & t1 & E & H1 & He); [lia|done|lia|lia|].
  rewrite Z.mul_0_l in E. rewrite E. cbn [mbind option_bind]. destruct ok; cbn [negb].
  - rewrite shiftr_pow2 by lia. replace (32 - Z.of_nat (S l) - 1) with (31 - Z.of_nat (S l)) by lia.
    apply IH; [lia|done].
  - by exists false, t1.
Qed.

(** The pages that [ngx_pmemalign] returns are whole and apart. *)
Definition pages_ok (pages : list Z) : Prop :=
  Forall (fun p => 0 < p) pages /\
  ForallOrdPairs (fun p q => p + ngx_pagesize <= q \/ q + ngx_pagesize <= p) pages.

Lemma elem_of_cells a n start :
  a ∈ cells_from n start -> exists i, 0 <= i < Z.of_nat n /\ a = start + i * sizeof_node.
Proof.
  revert start. induction n as [|n IH]; intros start; cbn [cells_from]; [by intros ?%elem_of_nil|].
  intros [->|H]%elem_of_cons; [exists 0; lia|]. apply IH in H as (i & Hi & ->). exists (i + 1). lia.
Qed.

Lemma NoDup_cells n start : NoDup (cells_from n start).
Proof.
  revert start. induction n as [|n IH]; intros start; cbn [cells_from]; [apply NoDup_nil_2|].
  apply NoDup_cons. split; [|done]. intros H. apply elem_of_cells in H as (i & Hi & E).
  unfold sizeof_node in E. lia.
Qed.

Lemma elem_of_page a page :
  a ∈ block_cells page ngx_pagesize -> page <= a < page + ngx_pagesize.
Proof.
  intros H. apply elem_of_cells in H as (i & Hi & ->). unfold sizeof_node, ngx_pagesize in *.
  change (4096 / 32) with 128 in Hi. lia.
Qed.

Lemma pages_avail pages :
  pages_ok pages ->
  NoDup (concat (map (fun page => block_cells page ngx_pagesize) pages)) /\
  forall a, a ∈ concat (map (fun page => block_cells page ngx_pagesize) pages) ->
    0 < a /\ exists page, page ∈ pages /\ page <= a < page + ngx_pagesize.
Proof.
  intros [Hp Ha]. induction Ha as [|page pages Hpage Ha IH].
  - split; [apply NoDup_nil_2|]. intros a H. by apply elem_of_nil in H.
  - apply Forall_cons in Hp as [H0 Hp]. destruct (IH Hp) as [Hnd Hin]. cbn [map concat]. split.
    + apply NoDup_app. split; [apply NoDup_cells|]. split; [|done].
      intros a Ha1 Ha2. apply elem_of_page in Ha1. apply Hin in Ha2 as (_ & q & Hq & Hr).
      rewrite Forall_forall in Hpage. specialize (Hpage q Hq). lia.
    + intros a [H|H]%elem_of_app.
      * apply elem_of_page in H. split; [lia|]. exists page. split; [left|done].
      * apply Hin in H as (Hpos & q & Hq & Hr). split; [done|]. exists q. split; [by right|done].
Qed.

Lemma new_root t root :
  rheap t = ∅ -> chain ∅ (rt_free t) [] -> NoDup (root :: avail t []) ->
  (forall a, a ∈ root :: avail t [] -> a <> 0) ->
  represents 32 (mk_radix (<[root := mk_rnode 0 0 0 NGX_RADIX_NO_VALUE]> (rheap t)) root (rt_free t)
     (rt_start t) (rt_size t) (rt_pages t)) ∅.
Proof.
  intros Hh Hc Hnd H0. apply NoDup_cons in Hnd as [Hnin Hnd]. rewrite Hh.
  pose proof (H0 root ltac:(left)) as Hr0.
  exists {[ [] := (root, NGX_RADIX_NO_VALUE) ]}, []. split.
  2: { unfold vals. rewrite omap_singleton_None; done. }
  assert (Hs : forall p x, ({[ [] := (root, NGX_RADIX_NO_VALUE) ]} : nodes) !! p = Some x ->
     p = [] /\ x = (root, NGX_RADIX_NO_VALUE)).
  { intros p x H. apply lookup_singleton_Some in H as [<- <-]. done. }
  constructor; cbn [rt_root rheap rt_free].
  - done.
  - intros b p [x H]. by apply Hs in H as [? _].
  - intros p [x H]. apply Hs in H as [-> _]. cbn. lia.
  - intros p q a v w H1 H2. apply Hs in H1 as [-> _], H2 as [-> _]. done.
  - intros p a v H. apply Hs in H as [-> [= -> ->]]. rewrite lookup_insert_eq. f_equal.
  - by rewrite lookup_insert_ne.
  - done.
  - done.
  - intros a Ha. split; [apply H0; by right|]. intros p v H. apply Hs in H as [_ [= <- _]].
    by apply Hnin.
Qed.

Lemma radix_tree_create_spec pages preallocate :
  pages_ok pages -> -1 <= preallocate <= 8 ->
  exists ok t, ngx_radix_tree_create pages preallocate = Some (ok, t) /\
    if ok : bool then represents 32 t ∅ else exhausted t.
Proof.
  intros Hpages Hpre. destruct (pages_avail pages Hpages) as [Hnd Hav]. unfold ngx_radix_tree_create.
  set (t0 := mk_radix ∅ 0 0 0 0 pages).
  assert (H0 : avail t0 [] = concat (map (fun page => block_cells page ngx_pagesize) pages)).
  { unfold avail, t0. cbn [rt_start rt_size rt_pages]. by rewrite block_cells_nil by done. }
  destruct (alloc_avail t0 [] eq_refl ltac:(set_solver)) as (root & t & E & Hh & _ & Hr).
  rewrite E. cbn [mbind option_bind]. destruct Hr as [(-> & _ & Hav' & Hc)|(fl & Hcons & Hc)].
  - cbn [Z.eqb]. exists false, t. split; [done|].
    destruct (alloc_avail t [] Hc ltac:(set_solver)) as (p & t' & E' & _ & _ & [[-> _]|(fl & H & _)]).
    + by exists t'.
    + congruence.
  - assert (fl = []) as ->.
    { destruct fl as [|a fl]; [done|]. destruct Hc as (_ & x & Hx & _). by rewrite Hh in Hx. }
    rewrite H0 in Hcons. rewrite Hcons in Hnd, Hav.
    assert (Hnz : forall a, a ∈ root :: avail t [] -> a <> 0).
    { intros a Ha. destruct (Hav a Ha). lia. }
    rewrite (proj2 (Z.eqb_neq root 0)) by (apply Hnz; left).
    set (t1 := mk_radix (<[root := _]> (rheap t)) _ _ _ _ _).
    assert (R1 : represents 32 t1 ∅) by (apply new_root; try done; by rewrite <-Hh).
    set (levels := if preallocate =? -1 then _ else preallocate).
    assert (Hlv : 0 <= levels <= 8).
    { unfold levels. destruct (preallocate =? -1) eqn:Ep; [by vm_compute|]. lia. }
    destruct (preallocate_levels_spec (Z.to_nat levels) 0 t1) as (ok & t2 & E2 & H2 & He); [lia|done|].
    change (mask32 0) with 0 in E2. change (2 ^ (31 - Z.of_nat 0)) with 0x80000000 in E2.
    exists ok, t2. split; [done|]. destruct ok; [done|by apply He].
Qed.

(** ** The contracts *)

(** C21: insertion into and deletion from trees of IPv4 and of IPv6 networks are
    those of a map: [NGX_OK] binds a network that had no value, [NGX_BUSY] leaves
    one that had, [NGX_ERROR] means that there was no node left and changes
    nothing; deletion unbinds the network, fails only where it was not bound, and
    faults only when it would free the root. *)
Theorem radix_update t V n v :
  v <> NGX_RADIX_NO_VALUE ->
  (forall key, represents 32 t V -> (n <= 32)%nat ->
     insert_contract 32 t V (net (bits32 key) n) v (ngx_radix32tree_insert t key (mask32 n) v) /\
     delete_contract 32 t V (net (bits32 key) n) (ngx_radix32tree_delete t key (mask32 n))) /\
  (forall key, represents 128 t V -> length key = 16%nat -> (n <= 128)%nat ->
     insert_contract 128 t V (net (bits128 key) n) v (ngx_radix128tree_insert t key (mask128 n) v) /\
     delete_contract 128 t V (net (bits128 key) n) (ngx_radix128tree_delete t key (mask128 n))).
Proof.
  intros Hv. split.
  - intros key HV Hn. pose proof (reads32 key n Hn).
    split; [by apply (insert_contract_holds _ _ n)|by apply (delete_contract_holds _ _ n)].
  - intros key HV Hk Hn. pose proof (reads128 key n Hk Hn).
    split; [by apply (insert_contract_holds _ _ n)|by apply (delete_contract_holds _ _ n)].
Qed.

(** The search returns the value of the longest network that the address is
    in, for IPv6 where a byte can be read after the address. *)
Theorem radix_find_longest t V :
  (represents 32 t V -> forall key,
     ngx_radix32tree_find t key = Some (longest V (bits32 key) 33)) /\
  (represents 128 t V -> forall key after rest, length key = 16%nat ->
     ngx_radix128tree_find t (key ++ after :: rest) = Some (longest V (bits128 key) 129)).
Proof.
  split; [intros HV key; by apply find32_longest|intros HV key after rest Hk; by apply find128_longest].
Qed.

(** A tree whose pages are at 4096 and 8192. *)
Lemma sample_tree :
  exists t, ngx_radix_tree_create [4096; 8192] 0 = Some (true, t) /\ represents 32 t ∅.
Proof.
  destruct (radix_tree_create_spec [4096; 8192] 0) as (ok & t & E & H); [|lia|].
  - split; [repeat constructor|]. repeat constructor; unfold ngx_pagesize; lia.
  - assert (E' : fst <$> ngx_radix_tree_create [4096; 8192] 0 = Some true) by (vm_compute; done).
    rewrite E in E'. injection E' as ->. by exists t.
Qed.

Lemma radix_update_witness :
  exists t, ngx_radix_tree_create [4096; 8192] 0 = Some (true, t) /\
    insert_contract 32 t ∅ (net (bits32 0x0A000000) 8) 7
      (ngx_radix32tree_insert t 0x0A000000 (mask32 8) 7) /\
    delete_contract 128 t ∅ (net (bits128 (replicate 16 0)) 128)
      (ngx_radix128tree_delete t (replicate 16 0) (mask128 128)).
Proof.
  destruct sample_tree as (t & E & H). exists t. split; [done|]. split.
  - apply (proj1 (radix_update t ∅ 8 7 ltac:(done)) 0x0A000000 H). lia.
  - apply (proj2 (radix_update t ∅ 128 7 ltac:(done)) (replicate 16 0)
      (represents_deeper 32 128 t ∅ ltac:(lia) H) eq_refl). lia.
Defined.

Lemma radix_find_longest_witness :
  exists t, ngx_radix_tree_create [4096; 8192] 0 = Some (true, t) /\
    ngx_radix32tree_find t 0x0A000001 = Some NGX_RADIX_NO_VALUE /\
    ngx_radix128tree_find t (replicate 17 1) = Some NGX_RADIX_NO_VALUE.
Proof.
  destruct sample_tree as (t & E & H). exists t. split; [done|]. split.
  - rewrite (proj1 (radix_find_longest t ∅) H). vm_compute. reflexivity.
  - change (replicate 17 1) with (replicate 16 1 ++ 1 :: []).
    rewrite (proj2 (radix_find_longest t ∅) (represents_deeper 32 128 t ∅ ltac:(lia) H)) by reflexivity.
    vm_compute. reflexivity.
Defined.

(** ** What the code does at its edges *)

Definition after_create (pages : list Z) (preallocate : Z) {A} (f : radix -> option A) : option A :=
  '(ok, t) ← ngx_radix_tree_create pages preallocate; if (ok : bool) then f t else None.

(** Deleting the default network of a tree without preallocation reads the
    parent of the root, [NULL]. *)
Theorem radix_delete_root_faults :
  after_create [4096] 0 (fun t =>
    '(_, t) ← ngx_radix32tree_insert t 0 0 7; Some (ngx_radix32tree_delete t 0 0)) = Some None.
Proof. vm_compute. reflexivity. Qed.

(** The search for an address that is a network of 128 bits reads the byte after
    the address. *)
Theorem radix128_find_reads_past :
  after_create [4096; 8192] 0 (fun t =>
    '(_, t) ← ngx_radix128tree_insert t (replicate 16 1) (mask128 128) 7;
    Some (ngx_radix128tree_find t (replicate 16 1), ngx_radix128tree_find t (replicate 17 1)))
  = Some (None, Some 7).
Proof. vm_compute. reflexivity. Qed.

(** Deleting a preallocated network that has no value is a success. *)
Theorem radix_delete_preallocated_ok :
  after_create [4096; 8192] (-1) (fun t =>
    '(rc, _) ← ngx_radix32tree_delete t 0 (mask32 6); Some rc) = Some NGX_OK.
Proof. vm_compute. reflexivity. Qed.
