(* ===== verification/Bits.v ===== *)
(** * Numbers as bits

    The bits of a number from the highest, for the codes that are written bit by
    bit: how the operations on words act on them. *)

From S2P Require Import Prelude.

(** The low [n] bits of [v]. *)
Fixpoint bits (n : nat) (v : Z) : list bool :=
  match n with
  | O => []
  | S n' => Z.testbit v (Z.of_nat n') :: bits n' v
  end.

(** The bits of a byte string. *)
Definition bytes_bits (l : list Z) : list bool := concat (map (bits 8) l).

Abbreviation zeros n := (replicate n false).
Abbreviation ones n := (replicate n true).

Lemma length_bits n v : length (bits n v) = n.
Proof. induction n as [|n IH]; cbn; congruence. Qed.

Lemma bits_ext n v w :
  (forall i, 0 <= i < Z.of_nat n -> Z.testbit v i = Z.testbit w i) -> bits n v = bits n w.
Proof.
  induction n as [|n IH]; intros H; [done|]. cbn [bits]. f_equal; [apply H; lia|].
  apply IH. intros i Hi. apply H. lia.
Qed.

Lemma bits_app n m v : bits (n + m) v = bits n (Z.shiftr v (Z.of_nat m)) ++ bits m v.
Proof.
  induction n as [|n IH]; [done|]. cbn [bits Nat.add app]. rewrite IH. f_equal.
  rewrite Z.shiftr_spec by lia. f_equal. lia.
Qed.

Lemma bits_mod n k v : (Z.of_nat n <= k) -> bits n (v mod 2 ^ k) = bits n v.
Proof. intros H. apply bits_ext. intros i Hi. by rewrite Z.mod_pow2_bits_low by lia. Qed.

Lemma bits_zero n v : (forall i, 0 <= i < Z.of_nat n -> Z.testbit v i = false) -> bits n v = zeros n.
Proof.
  induction n as [|n IH]; intros H; [done|]. cbn [bits replicate]. rewrite H by lia. f_equal.
  apply IH. intros i Hi. apply H. lia.
Qed.

(** A number of fewer bits. *)
Lemma bits_high n k v : 0 <= v < 2 ^ Z.of_nat k -> bits (n + k) v = zeros n ++ bits k v.
Proof.
  intros H. rewrite bits_app. f_equal. apply bits_zero. intros i Hi.
  rewrite Z.shiftr_div_pow2, Z.div_small by lia. apply Z.bits_0.
Qed.

Lemma bits_shiftl n m v : bits (n + m) (Z.shiftl v (Z.of_nat m)) = bits n v ++ zeros m.
Proof.
  rewrite bits_app. f_equal.
  - rewrite Z.shiftr_shiftl_l by lia. by rewrite Z.sub_diag, Z.shiftl_0_r.
  - apply bits_zero. intros i Hi. apply Z.shiftl_spec_low. lia.
Qed.

Lemma bits_lor n v w : bits n (Z.lor v w) = zip_with orb (bits n v) (bits n w).
Proof. induction n as [|n IH]; [done|]. cbn [bits zip_with]. by rewrite Z.lor_spec, IH. Qed.

Lemma zip_orb_zeros l n : length l = n -> zip_with orb l (zeros n) = l.
Proof.
  intros <-. induction l as [|b l IH]; [done|]. cbn [length replicate zip_with].
  by rewrite orb_false_r, IH.
Qed.

Lemma zip_zeros_orb l n : length l = n -> zip_with orb (zeros n) l = l.
Proof. intros <-. induction l as [|b l IH]; [done|]. cbn [length replicate zip_with]. by rewrite IH. Qed.

(** Bits that fill the zeros after others. *)
Lemma zip_orb_fill a b n m :
  length a = n -> length b = m -> zip_with orb (a ++ zeros m) (zeros n ++ b) = a ++ b.
Proof.
  intros Ha Hb. rewrite zip_with_app by (by rewrite length_replicate).
  by rewrite zip_orb_zeros, zip_zeros_orb.
Qed.

Lemma bits_inj n v w : 0 <= v < 2 ^ Z.of_nat n -> 0 <= w < 2 ^ Z.of_nat n -> bits n v = bits n w -> v = w.
Proof.
  intros Hv Hw H. rewrite <-(Z.mod_small v (2 ^ Z.of_nat n)), <-(Z.mod_small w (2 ^ Z.of_nat n)) by done.
  apply Z.bits_inj'. intros i Hi. rewrite !Z.testbit_mod_pow2 by lia.
  destruct (i <? Z.of_nat n) eqn:E; [|done]. f_equal. clear Hv Hw.
  induction n as [|n IH]; [lia|]. injection H as H1 H2.
  destruct (decide (i = Z.of_nat n)) as [->|]; [done|]. apply IH; [done|lia].
Qed.

Lemma bytes_bits_app a b : bytes_bits (a ++ b) = bytes_bits a ++ bytes_bits b.
Proof. unfold bytes_bits. by rewrite map_app, concat_app. Qed.

Lemma length_bytes_bits l : length (bytes_bits l) = (8 * length l)%nat.
Proof.
  induction l as [|b l IH]; [done|]. cbn [bytes_bits map concat length]. fold (bytes_bits l).
  rewrite length_app, length_bits, IH. lia.
Qed.

Lemma bits_u8 v : bits 8 (u8 v) = bits 8 v.
Proof. by apply bits_mod. Qed.

Lemma u8_byte v : is_byte (u8 v).
Proof. unfold is_byte, u8. by apply Z.mod_pos_bound. Qed.
