(* ===== verification/HuffTables.v ===== *)
(** * The tables of the Huffman code of HTTP/2

    [ngx_http_v2_huff_decode_codes] of [src/http/v2/ngx_http_v2_huff_decode.c], a
    row of 16 transitions for each of the 256 states, in groups of ten rows, and
    the two tables of [src/http/v2/ngx_http_v2_huff_encode.c]: the code of each
    byte, its number and its length. *)

From S2P Require Import Prelude.

(** [ngx_http_v2_huff_decode_code_t]: next, emit, sym, ending. *)
Record decode_code : Type := dc { dc_next : Z; dc_emit : Z; dc_sym : Z; dc_ending : Z }.

(** [ngx_http_v2_huff_encode_code_t] *)
Record encode_code : Type := ec { ec_code : Z; ec_len : Z }.

Definition huff_decode_codes_0 : list (list decode_code) := [
  [ dc 0x04 0 0x00 0; dc 0x05 0 0x00 0; dc 0x07 0 0x00 0; dc 0x08 0 0x00 0;
    dc 0x0b 0 0x00 0; dc 0x0c 0 0x00 0; dc 0x10 0 0x00 0; dc 0x13 0 0x00 0;
    dc 0x19 0 0x00 0; dc 0x1c 0 0x00 0; dc 0x20 0 0x00 0; dc 0x23 0 0x00 0;
    dc 0x2a 0 0x00 0; dc 0x31 0 0x00 0; dc 0x39 0 0x00 0; dc 0x40 0 0x00 1 ];
  [ dc 0x00 1 0x30 1; dc 0x00 1 0x31 1; dc 0x00 1 0x32 1; dc 0x00 1 0x61 1;
    dc 0x00 1 0x63 1; dc 0x00 1 0x65 1; dc 0x00 1 0x69 1; dc 0x00 1 0x6f 1;
    dc 0x00 1 0x73 1; dc 0x00 1 0x74 1; dc 0x0d 0 0x00 0; dc 0x0e 0 0x00 0;
    dc 0x11 0 0x00 0; dc 0x12 0 0x00 0; dc 0x14 0 0x00 0; dc 0x15 0 0x00 0 ];
  [ dc 0x01 1 0x30 0; dc 0x16 1 0x30 1; dc 0x01 1 0x31 0; dc 0x16 1 0x31 1;
    dc 0x01 1 0x32 0; dc 0x16 1 0x32 1; dc 0x01 1 0x61 0; dc 0x16 1 0x61 1;
    dc 0x01 1 0x63 0; dc 0x16 1 0x63 1; dc 0x01 1 0x65 0; dc 0x16 1 0x65 1;
    dc 0x01 1 0x69 0; dc 0x16 1 0x69 1; dc 0x01 1 0x6f 0; dc 0x16 1 0x6f 1 ];
  [ dc 0x02 1 0x30 0; dc 0x09 1 0x30 0; dc 0x17 1 0x30 0; dc 0x28 1 0x30 1;
    dc 0x02 1 0x31 0; dc 0x09 1 0x31 0; dc 0x17 1 0x31 0; dc 0x28 1 0x31 1;
    dc 0x02 1 0x32 0; dc 0x09 1 0x32 0; dc 0x17 1 0x32 0; dc 0x28 1 0x32 1;
    dc 0x02 1 0x61 0; dc 0x09 1 0x61 0; dc 0x17 1 0x61 0; dc 0x28 1 0x61 1 ];
  [ dc 0x03 1 0x30 0; dc 0x06 1 0x30 0; dc 0x0a 1 0x30 0; dc 0x0f 1 0x30 0;
    dc 0x18 1 0x30 0; dc 0x1f 1 0x30 0; dc 0x29 1 0x30 0; dc 0x38 1 0x30 1;
    dc 0x03 1 0x31 0; dc 0x06 1 0x31 0; dc 0x0a 1 0x31 0; dc 0x0f 1 0x31 0;
    dc 0x18 1 0x31 0; dc 0x1f 1 0x31 0; dc 0x29 1 0x31 0; dc 0x38 1 0x31 1 ];
  [ dc 0x03 1 0x32 0; dc 0x06 1 0x32 0; dc 0x0a 1 0x32 0; dc 0x0f 1 0x32 0;
    dc 0x18 1 0x32 0; dc 0x1f 1 0x32 0; dc 0x29 1 0x32 0; dc 0x38 1 0x32 1;
    dc 0x03 1 0x61 0; dc 0x06 1 0x61 0; dc 0x0a 1 0x61 0; dc 0x0f 1 0x61 0;
    dc 0x18 1 0x61 0; dc 0x1f 1 0x61 0; dc 0x29 1 0x61 0; dc 0x38 1 0x61 1 ];
  [ dc 0x02 1 0x63 0; dc 0x09 1 0x63 0; dc 0x17 1 0x63 0; dc 0x28 1 0x63 1;
    dc 0x02 1 0x65 0; dc 0x09 1 0x65 0; dc 0x17 1 0x65 0; dc 0x28 1 0x65 1;
    dc 0x02 1 0x69 0; dc 0x09 1 0x69 0; dc 0x17 1 0x69 0; dc 0x28 1 0x69 1;
    dc 0x02 1 0x6f 0; dc 0x09 1 0x6f 0; dc 0x17 1 0x6f 0; dc 0x28 1 0x6f 1 ];
  [ dc 0x03 1 0x63 0; dc 0x06 1 0x63 0; dc 0x0a 1 0x63 0; dc 0x0f 1 0x63 0;
    dc 0x18 1 0x63 0; dc 0x1f 1 0x63 0; dc 0x29 1 0x63 0; dc 0x38 1 0x63 1;
    dc 0x03 1 0x65 0; dc 0x06 1 0x65 0; dc 0x0a 1 0x65 0; dc 0x0f 1 0x65 0;
    dc 0x18 1 0x65 0; dc 0x1f 1 0x65 0; dc 0x29 1 0x65 0; dc 0x38 1 0x65 1 ];
  [ dc 0x03 1 0x69 0; dc 0x06 1 0x69 0; dc 0x0a 1 0x69 0; dc 0x0f 1 0x69 0;
    dc 0x18 1 0x69 0; dc 0x1f 1 0x69 0; dc 0x29 1 0x69 0; dc 0x38 1 0x69 1;
    dc 0x03 1 0x6f 0; dc 0x06 1 0x6f 0; dc 0x0a 1 0x6f 0; dc 0x0f 1 0x6f 0;
    dc 0x18 1 0x6f 0; dc 0x1f 1 0x6f 0; dc 0x29 1 0x6f 0; dc 0x38 1 0x6f 1 ];
  [ dc 0x01 1 0x73 0; dc 0x16 1 0x73 1; dc 0x01 1 0x74 0; dc 0x16 1 0x74 1;
    dc 0x00 1 0x20 1; dc 0x00 1 0x25 1; dc 0x00 1 0x2d 1; dc 0x00 1 0x2e 1;
    dc 0x00 1 0x2f 1; dc 0x00 1 0x33 1; dc 0x00 1 0x34 1; dc 0x00 1 0x35 1;
    dc 0x00 1 0x36 1; dc 0x00 1 0x37 1; dc 0x00 1 0x38 1; dc 0x00 1 0x39 1 ]
].

Definition huff_decode_codes_10 : list (list decode_code) := [
  [ dc 0x02 1 0x73 0; dc 0x09 1 0x73 0; dc 0x17 1 0x73 0; dc 0x28 1 0x73 1;
    dc 0x02 1 0x74 0; dc 0x09 1 0x74 0; dc 0x17 1 0x74 0; dc 0x28 1 0x74 1;
    dc 0x01 1 0x20 0; dc 0x16 1 0x20 1; dc 0x01 1 0x25 0; dc 0x16 1 0x25 1;
    dc 0x01 1 0x2d 0; dc 0x16 1 0x2d 1; dc 0x01 1 0x2e 0; dc 0x16 1 0x2e 1 ];
  [ dc 0x03 1 0x73 0; dc 0x06 1 0x73 0; dc 0x0a 1 0x73 0; dc 0x0f 1 0x73 0;
    dc 0x18 1 0x73 0; dc 0x1f 1 0x73 0; dc 0x29 1 0x73 0; dc 0x38 1 0x73 1;
    dc 0x03 1 0x74 0; dc 0x06 1 0x74 0; dc 0x0a 1 0x74 0; dc 0x0f 1 0x74 0;
    dc 0x18 1 0x74 0; dc 0x1f 1 0x74 0; dc 0x29 1 0x74 0; dc 0x38 1 0x74 1 ];
  [ dc 0x02 1 0x20 0; dc 0x09 1 0x20 0; dc 0x17 1 0x20 0; dc 0x28 1 0x20 1;
    dc 0x02 1 0x25 0; dc 0x09 1 0x25 0; dc 0x17 1 0x25 0; dc 0x28 1 0x25 1;
    dc 0x02 1 0x2d 0; dc 0x09 1 0x2d 0; dc 0x17 1 0x2d 0; dc 0x28 1 0x2d 1;
    dc 0x02 1 0x2e 0; dc 0x09 1 0x2e 0; dc 0x17 1 0x2e 0; dc 0x28 1 0x2e 1 ];
  [ dc 0x03 1 0x20 0; dc 0x06 1 0x20 0; dc 0x0a 1 0x20 0; dc 0x0f 1 0x20 0;
    dc 0x18 1 0x20 0; dc 0x1f 1 0x20 0; dc 0x29 1 0x20 0; dc 0x38 1 0x20 1;
    dc 0x03 1 0x25 0; dc 0x06 1 0x25 0; dc 0x0a 1 0x25 0; dc 0x0f 1 0x25 0;
    dc 0x18 1 0x25 0; dc 0x1f 1 0x25 0; dc 0x29 1 0x25 0; dc 0x38 1 0x25 1 ];
  [ dc 0x03 1 0x2d 0; dc 0x06 1 0x2d 0; dc 0x0a 1 0x2d 0; dc 0x0f 1 0x2d 0;
    dc 0x18 1 0x2d 0; dc 0x1f 1 0x2d 0; dc 0x29 1 0x2d 0; dc 0x38 1 0x2d 1;
    dc 0x03 1 0x2e 0; dc 0x06 1 0x2e 0; dc 0x0a 1 0x2e 0; dc 0x0f 1 0x2e 0;
    dc 0x18 1 0x2e 0; dc 0x1f 1 0x2e 0; dc 0x29 1 0x2e 0; dc 0x38 1 0x2e 1 ];
  [ dc 0x01 1 0x2f 0; dc 0x16 1 0x2f 1; dc 0x01 1 0x33 0; dc 0x16 1 0x33 1;
    dc 0x01 1 0x34 0; dc 0x16 1 0x34 1; dc 0x01 1 0x35 0; dc 0x16 1 0x35 1;
    dc 0x01 1 0x36 0; dc 0x16 1 0x36 1; dc 0x01 1 0x37 0; dc 0x16 1 0x37 1;
    dc 0x01 1 0x38 0; dc 0x16 1 0x38 1; dc 0x01 1 0x39 0; dc 0x16 1 0x39 1 ];
  [ dc 0x02 1 0x2f 0; dc 0x09 1 0x2f 0; dc 0x17 1 0x2f 0; dc 0x28 1 0x2f 1;
    dc 0x02 1 0x33 0; dc 0x09 1 0x33 0; dc 0x17 1 0x33 0; dc 0x28 1 0x33 1;
    dc 0x02 1 0x34 0; dc 0x09 1 0x34 0; dc 0x17 1 0x34 0; dc 0x28 1 0x34 1;
    dc 0x02 1 0x35 0; dc 0x09 1 0x35 0; dc 0x17 1 0x35 0; dc 0x28 1 0x35 1 ];
  [ dc 0x03 1 0x2f 0; dc 0x06 1 0x2f 0; dc 0x0a 1 0x2f 0; dc 0x0f 1 0x2f 0;
    dc 0x18 1 0x2f 0; dc 0x1f 1 0x2f 0; dc 0x29 1 0x2f 0; dc 0x38 1 0x2f 1;
    dc 0x03 1 0x33 0; dc 0x06 1 0x33 0; dc 0x0a 1 0x33 0; dc 0x0f 1 0x33 0;
    dc 0x18 1 0x33 0; dc 0x1f 1 0x33 0; dc 0x29 1 0x33 0; dc 0x38 1 0x33 1 ];
  [ dc 0x03 1 0x34 0; dc 0x06 1 0x34 0; dc 0x0a 1 0x34 0; dc 0x0f 1 0x34 0;
    dc 0x18 1 0x34 0; dc 0x1f 1 0x34 0; dc 0x29 1 0x34 0; dc 0x38 1 0x34 1;
    dc 0x03 1 0x35 0; dc 0x06 1 0x35 0; dc 0x0a 1 0x35 0; dc 0x0f 1 0x35 0;
    dc 0x18 1 0x35 0; dc 0x1f 1 0x35 0; dc 0x29 1 0x35 0; dc 0x38 1 0x35 1 ];
  [ dc 0x02 1 0x36 0; dc 0x09 1 0x36 0; dc 0x17 1 0x36 0; dc 0x28 1 0x36 1;
    dc 0x02 1 0x37 0; dc 0x09 1 0x37 0; dc 0x17 1 0x37 0; dc 0x28 1 0x37 1;
    dc 0x02 1 0x38 0; dc 0x09 1 0x38 0; dc 0x17 1 0x38 0; dc 0x28 1 0x38 1;
    dc 0x02 1 0x39 0; dc 0x09 1 0x39 0; dc 0x17 1 0x39 0; dc 0x28 1 0x39 1 ]
].

Definition huff_decode_codes_20 : list (list decode_code) := [
  [ dc 0x03 1 0x36 0; dc 0x06 1 0x36 0; dc 0x0a 1 0x36 0; dc 0x0f 1 0x36 0;
    dc 0x18 1 0x36 0; dc 0x1f 1 0x36 0; dc 0x29 1 0x36 0; dc 0x38 1 0x36 1;
    dc 0x03 1 0x37 0; dc 0x06 1 0x37 0; dc 0x0a 1 0x37 0; dc 0x0f 1 0x37 0;
    dc 0x18 1 0x37 0; dc 0x1f 1 0x37 0; dc 0x29 1 0x37 0; dc 0x38 1 0x37 1 ];
  [ dc 0x03 1 0x38 0; dc 0x06 1 0x38 0; dc 0x0a 1 0x38 0; dc 0x0f 1 0x38 0;
    dc 0x18 1 0x38 0; dc 0x1f 1 0x38 0; dc 0x29 1 0x38 0; dc 0x38 1 0x38 1;
    dc 0x03 1 0x39 0; dc 0x06 1 0x39 0; dc 0x0a 1 0x39 0; dc 0x0f 1 0x39 0;
    dc 0x18 1 0x39 0; dc 0x1f 1 0x39 0; dc 0x29 1 0x39 0; dc 0x38 1 0x39 1 ];
  [ dc 0x1a 0 0x00 0; dc 0x1b 0 0x00 0; dc 0x1d 0 0x00 0; dc 0x1e 0 0x00 0;
    dc 0x21 0 0x00 0; dc 0x22 0 0x00 0; dc 0x24 0 0x00 0; dc 0x25 0 0x00 0;
    dc 0x2b 0 0x00 0; dc 0x2e 0 0x00 0; dc 0x32 0 0x00 0; dc 0x35 0 0x00 0;
    dc 0x3a 0 0x00 0; dc 0x3d 0 0x00 0; dc 0x41 0 0x00 0; dc 0x44 0 0x00 1 ];
  [ dc 0x00 1 0x3d 1; dc 0x00 1 0x41 1; dc 0x00 1 0x5f 1; dc 0x00 1 0x62 1;
    dc 0x00 1 0x64 1; dc 0x00 1 0x66 1; dc 0x00 1 0x67 1; dc 0x00 1 0x68 1;
    dc 0x00 1 0x6c 1; dc 0x00 1 0x6d 1; dc 0x00 1 0x6e 1; dc 0x00 1 0x70 1;
    dc 0x00 1 0x72 1; dc 0x00 1 0x75 1; dc 0x26 0 0x00 0; dc 0x27 0 0x00 0 ];
  [ dc 0x01 1 0x3d 0; dc 0x16 1 0x3d 1; dc 0x01 1 0x41 0; dc 0x16 1 0x41 1;
    dc 0x01 1 0x5f 0; dc 0x16 1 0x5f 1; dc 0x01 1 0x62 0; dc 0x16 1 0x62 1;
    dc 0x01 1 0x64 0; dc 0x16 1 0x64 1; dc 0x01 1 0x66 0; dc 0x16 1 0x66 1;
    dc 0x01 1 0x67 0; dc 0x16 1 0x67 1; dc 0x01 1 0x68 0; dc 0x16 1 0x68 1 ];
  [ dc 0x02 1 0x3d 0; dc 0x09 1 0x3d 0; dc 0x17 1 0x3d 0; dc 0x28 1 0x3d 1;
    dc 0x02 1 0x41 0; dc 0x09 1 0x41 0; dc 0x17 1 0x41 0; dc 0x28 1 0x41 1;
    dc 0x02 1 0x5f 0; dc 0x09 1 0x5f 0; dc 0x17 1 0x5f 0; dc 0x28 1 0x5f 1;
    dc 0x02 1 0x62 0; dc 0x09 1 0x62 0; dc 0x17 1 0x62 0; dc 0x28 1 0x62 1 ];
  [ dc 0x03 1 0x3d 0; dc 0x06 1 0x3d 0; dc 0x0a 1 0x3d 0; dc 0x0f 1 0x3d 0;
    dc 0x18 1 0x3d 0; dc 0x1f 1 0x3d 0; dc 0x29 1 0x3d 0; dc 0x38 1 0x3d 1;
    dc 0x03 1 0x41 0; dc 0x06 1 0x41 0; dc 0x0a 1 0x41 0; dc 0x0f 1 0x41 0;
    dc 0x18 1 0x41 0; dc 0x1f 1 0x41 0; dc 0x29 1 0x41 0; dc 0x38 1 0x41 1 ];
  [ dc 0x03 1 0x5f 0; dc 0x06 1 0x5f 0; dc 0x0a 1 0x5f 0; dc 0x0f 1 0x5f 0;
    dc 0x18 1 0x5f 0; dc 0x1f 1 0x5f 0; dc 0x29 1 0x5f 0; dc 0x38 1 0x5f 1;
    dc 0x03 1 0x62 0; dc 0x06 1 0x62 0; dc 0x0a 1 0x62 0; dc 0x0f 1 0x62 0;
    dc 0x18 1 0x62 0; dc 0x1f 1 0x62 0; dc 0x29 1 0x62 0; dc 0x38 1 0x62 1 ];
  [ dc 0x02 1 0x64 0; dc 0x09 1 0x64 0; dc 0x17 1 0x64 0; dc 0x28 1 0x64 1;
    dc 0x02 1 0x66 0; dc 0x09 1 0x66 0; dc 0x17 1 0x66 0; dc 0x28 1 0x66 1;
    dc 0x02 1 0x67 0; dc 0x09 1 0x67 0; dc 0x17 1 0x67 0; dc 0x28 1 0x67 1;
    dc 0x02 1 0x68 0; dc 0x09 1 0x68 0; dc 0x17 1 0x68 0; dc 0x28 1 0x68 1 ];
  [ dc 0x03 1 0x64 0; dc 0x06 1 0x64 0; dc 0x0a 1 0x64 0; dc 0x0f 1 0x64 0;
    dc 0x18 1 0x64 0; dc 0x1f 1 0x64 0; dc 0x29 1 0x64 0; dc 0x38 1 0x64 1;
    dc 0x03 1 0x66 0; dc 0x06 1 0x66 0; dc 0x0a 1 0x66 0; dc 0x0f 1 0x66 0;
    dc 0x18 1 0x66 0; dc 0x1f 1 0x66 0; dc 0x29 1 0x66 0; dc 0x38 1 0x66 1 ]
].

Definition huff_decode_codes_30 : list (list decode_code) := [
  [ dc 0x03 1 0x67 0; dc 0x06 1 0x67 0; dc 0x0a 1 0x67 0; dc 0x0f 1 0x67 0;
    dc 0x18 1 0x67 0; dc 0x1f 1 0x67 0; dc 0x29 1 0x67 0; dc 0x38 1 0x67 1;
    dc 0x03 1 0x68 0; dc 0x06 1 0x68 0; dc 0x0a 1 0x68 0; dc 0x0f 1 0x68 0;
    dc 0x18 1 0x68 0; dc 0x1f 1 0x68 0; dc 0x29 1 0x68 0; dc 0x38 1 0x68 1 ];
  [ dc 0x01 1 0x6c 0; dc 0x16 1 0x6c 1; dc 0x01 1 0x6d 0; dc 0x16 1 0x6d 1;
    dc 0x01 1 0x6e 0; dc 0x16 1 0x6e 1; dc 0x01 1 0x70 0; dc 0x16 1 0x70 1;
    dc 0x01 1 0x72 0; dc 0x16 1 0x72 1; dc 0x01 1 0x75 0; dc 0x16 1 0x75 1;
    dc 0x00 1 0x3a 1; dc 0x00 1 0x42 1; dc 0x00 1 0x43 1; dc 0x00 1 0x44 1 ];
  [ dc 0x02 1 0x6c 0; dc 0x09 1 0x6c 0; dc 0x17 1 0x6c 0; dc 0x28 1 0x6c 1;
    dc 0x02 1 0x6d 0; dc 0x09 1 0x6d 0; dc 0x17 1 0x6d 0; dc 0x28 1 0x6d 1;
    dc 0x02 1 0x6e 0; dc 0x09 1 0x6e 0; dc 0x17 1 0x6e 0; dc 0x28 1 0x6e 1;
    dc 0x02 1 0x70 0; dc 0x09 1 0x70 0; dc 0x17 1 0x70 0; dc 0x28 1 0x70 1 ];
  [ dc 0x03 1 0x6c 0; dc 0x06 1 0x6c 0; dc 0x0a 1 0x6c 0; dc 0x0f 1 0x6c 0;
    dc 0x18 1 0x6c 0; dc 0x1f 1 0x6c 0; dc 0x29 1 0x6c 0; dc 0x38 1 0x6c 1;
    dc 0x03 1 0x6d 0; dc 0x06 1 0x6d 0; dc 0x0a 1 0x6d 0; dc 0x0f 1 0x6d 0;
    dc 0x18 1 0x6d 0; dc 0x1f 1 0x6d 0; dc 0x29 1 0x6d 0; dc 0x38 1 0x6d 1 ];
  [ dc 0x03 1 0x6e 0; dc 0x06 1 0x6e 0; dc 0x0a 1 0x6e 0; dc 0x0f 1 0x6e 0;
    dc 0x18 1 0x6e 0; dc 0x1f 1 0x6e 0; dc 0x29 1 0x6e 0; dc 0x38 1 0x6e 1;
    dc 0x03 1 0x70 0; dc 0x06 1 0x70 0; dc 0x0a 1 0x70 0; dc 0x0f 1 0x70 0;
    dc 0x18 1 0x70 0; dc 0x1f 1 0x70 0; dc 0x29 1 0x70 0; dc 0x38 1 0x70 1 ];
  [ dc 0x02 1 0x72 0; dc 0x09 1 0x72 0; dc 0x17 1 0x72 0; dc 0x28 1 0x72 1;
    dc 0x02 1 0x75 0; dc 0x09 1 0x75 0; dc 0x17 1 0x75 0; dc 0x28 1 0x75 1;
    dc 0x01 1 0x3a 0; dc 0x16 1 0x3a 1; dc 0x01 1 0x42 0; dc 0x16 1 0x42 1;
    dc 0x01 1 0x43 0; dc 0x16 1 0x43 1; dc 0x01 1 0x44 0; dc 0x16 1 0x44 1 ];
  [ dc 0x03 1 0x72 0; dc 0x06 1 0x72 0; dc 0x0a 1 0x72 0; dc 0x0f 1 0x72 0;
    dc 0x18 1 0x72 0; dc 0x1f 1 0x72 0; dc 0x29 1 0x72 0; dc 0x38 1 0x72 1;
    dc 0x03 1 0x75 0; dc 0x06 1 0x75 0; dc 0x0a 1 0x75 0; dc 0x0f 1 0x75 0;
    dc 0x18 1 0x75 0; dc 0x1f 1 0x75 0; dc 0x29 1 0x75 0; dc 0x38 1 0x75 1 ];
  [ dc 0x02 1 0x3a 0; dc 0x09 1 0x3a 0; dc 0x17 1 0x3a 0; dc 0x28 1 0x3a 1;
    dc 0x02 1 0x42 0; dc 0x09 1 0x42 0; dc 0x17 1 0x42 0; dc 0x28 1 0x42 1;
    dc 0x02 1 0x43 0; dc 0x09 1 0x43 0; dc 0x17 1 0x43 0; dc 0x28 1 0x43 1;
    dc 0x02 1 0x44 0; dc 0x09 1 0x44 0; dc 0x17 1 0x44 0; dc 0x28 1 0x44 1 ];
  [ dc 0x03 1 0x3a 0; dc 0x06 1 0x3a 0; dc 0x0a 1 0x3a 0; dc 0x0f 1 0x3a 0;
    dc 0x18 1 0x3a 0; dc 0x1f 1 0x3a 0; dc 0x29 1 0x3a 0; dc 0x38 1 0x3a 1;
    dc 0x03 1 0x42 0; dc 0x06 1 0x42 0; dc 0x0a 1 0x42 0; dc 0x0f 1 0x42 0;
    dc 0x18 1 0x42 0; dc 0x1f 1 0x42 0; dc 0x29 1 0x42 0; dc 0x38 1 0x42 1 ];
  [ dc 0x03 1 0x43 0; dc 0x06 1 0x43 0; dc 0x0a 1 0x43 0; dc 0x0f 1 0x43 0;
    dc 0x18 1 0x43 0; dc 0x1f 1 0x43 0; dc 0x29 1 0x43 0; dc 0x38 1 0x43 1;
    dc 0x03 1 0x44 0; dc 0x06 1 0x44 0; dc 0x0a 1 0x44 0; dc 0x0f 1 0x44 0;
    dc 0x18 1 0x44 0; dc 0x1f 1 0x44 0; dc 0x29 1 0x44 0; dc 0x38 1 0x44 1 ]
].

Definition huff_decode_codes_40 : list (list decode_code) := [
  [ dc 0x2c 0 0x00 0; dc 0x2d 0 0x00 0; dc 0x2f 0 0x00 0; dc 0x30 0 0x00 0;
    dc 0x33 0 0x00 0; dc 0x34 0 0x00 0; dc 0x36 0 0x00 0; dc 0x37 0 0x00 0;
    dc 0x3b 0 0x00 0; dc 0x3c 0 0x00 0; dc 0x3e 0 0x00 0; dc 0x3f 0 0x00 0;
    dc 0x42 0 0x00 0; dc 0x43 0 0x00 0; dc 0x45 0 0x00 0; dc 0x48 0 0x00 1 ];
  [ dc 0x00 1 0x45 1; dc 0x00 1 0x46 1; dc 0x00 1 0x47 1; dc 0x00 1 0x48 1;
    dc 0x00 1 0x49 1; dc 0x00 1 0x4a 1; dc 0x00 1 0x4b 1; dc 0x00 1 0x4c 1;
    dc 0x00 1 0x4d 1; dc 0x00 1 0x4e 1; dc 0x00 1 0x4f 1; dc 0x00 1 0x50 1;
    dc 0x00 1 0x51 1; dc 0x00 1 0x52 1; dc 0x00 1 0x53 1; dc 0x00 1 0x54 1 ];
  [ dc 0x01 1 0x45 0; dc 0x16 1 0x45 1; dc 0x01 1 0x46 0; dc 0x16 1 0x46 1;
    dc 0x01 1 0x47 0; dc 0x16 1 0x47 1; dc 0x01 1 0x48 0; dc 0x16 1 0x48 1;
    dc 0x01 1 0x49 0; dc 0x16 1 0x49 1; dc 0x01 1 0x4a 0; dc 0x16 1 0x4a 1;
    dc 0x01 1 0x4b 0; dc 0x16 1 0x4b 1; dc 0x01 1 0x4c 0; dc 0x16 1 0x4c 1 ];
  [ dc 0x02 1 0x45 0; dc 0x09 1 0x45 0; dc 0x17 1 0x45 0; dc 0x28 1 0x45 1;
    dc 0x02 1 0x46 0; dc 0x09 1 0x46 0; dc 0x17 1 0x46 0; dc 0x28 1 0x46 1;
    dc 0x02 1 0x47 0; dc 0x09 1 0x47 0; dc 0x17 1 0x47 0; dc 0x28 1 0x47 1;
    dc 0x02 1 0x48 0; dc 0x09 1 0x48 0; dc 0x17 1 0x48 0; dc 0x28 1 0x48 1 ];
  [ dc 0x03 1 0x45 0; dc 0x06 1 0x45 0; dc 0x0a 1 0x45 0; dc 0x0f 1 0x45 0;
    dc 0x18 1 0x45 0; dc 0x1f 1 0x45 0; dc 0x29 1 0x45 0; dc 0x38 1 0x45 1;
    dc 0x03 1 0x46 0; dc 0x06 1 0x46 0; dc 0x0a 1 0x46 0; dc 0x0f 1 0x46 0;
    dc 0x18 1 0x46 0; dc 0x1f 1 0x46 0; dc 0x29 1 0x46 0; dc 0x38 1 0x46 1 ];
  [ dc 0x03 1 0x47 0; dc 0x06 1 0x47 0; dc 0x0a 1 0x47 0; dc 0x0f 1 0x47 0;
    dc 0x18 1 0x47 0; dc 0x1f 1 0x47 0; dc 0x29 1 0x47 0; dc 0x38 1 0x47 1;
    dc 0x03 1 0x48 0; dc 0x06 1 0x48 0; dc 0x0a 1 0x48 0; dc 0x0f 1 0x48 0;
    dc 0x18 1 0x48 0; dc 0x1f 1 0x48 0; dc 0x29 1 0x48 0; dc 0x38 1 0x48 1 ];
  [ dc 0x02 1 0x49 0; dc 0x09 1 0x49 0; dc 0x17 1 0x49 0; dc 0x28 1 0x49 1;
    dc 0x02 1 0x4a 0; dc 0x09 1 0x4a 0; dc 0x17 1 0x4a 0; dc 0x28 1 0x4a 1;
    dc 0x02 1 0x4b 0; dc 0x09 1 0x4b 0; dc 0x17 1 0x4b 0; dc 0x28 1 0x4b 1;
    dc 0x02 1 0x4c 0; dc 0x09 1 0x4c 0; dc 0x17 1 0x4c 0; dc 0x28 1 0x4c 1 ];
  [ dc 0x03 1 0x49 0; dc 0x06 1 0x49 0; dc 0x0a 1 0x49 0; dc 0x0f 1 0x49 0;
    dc 0x18 1 0x49 0; dc 0x1f 1 0x49 0; dc 0x29 1 0x49 0; dc 0x38 1 0x49 1;
    dc 0x03 1 0x4a 0; dc 0x06 1 0x4a 0; dc 0x0a 1 0x4a 0; dc 0x0f 1 0x4a 0;
    dc 0x18 1 0x4a 0; dc 0x1f 1 0x4a 0; dc 0x29 1 0x4a 0; dc 0x38 1 0x4a 1 ];
  [ dc 0x03 1 0x4b 0; dc 0x06 1 0x4b 0; dc 0x0a 1 0x4b 0; dc 0x0f 1 0x4b 0;
    dc 0x18 1 0x4b 0; dc 0x1f 1 0x4b 0; dc 0x29 1 0x4b 0; dc 0x38 1 0x4b 1;
    dc 0x03 1 0x4c 0; dc 0x06 1 0x4c 0; dc 0x0a 1 0x4c 0; dc 0x0f 1 0x4c 0;
    dc 0x18 1 0x4c 0; dc 0x1f 1 0x4c 0; dc 0x29 1 0x4c 0; dc 0x38 1 0x4c 1 ];
  [ dc 0x01 1 0x4d 0; dc 0x16 1 0x4d 1; dc 0x01 1 0x4e 0; dc 0x16 1 0x4e 1;
    dc 0x01 1 0x4f 0; dc 0x16 1 0x4f 1; dc 0x01 1 0x50 0; dc 0x16 1 0x50 1;
    dc 0x01 1 0x51 0; dc 0x16 1 0x51 1; dc 0x01 1 0x52 0; dc 0x16 1 0x52 1;
    dc 0x01 1 0x53 0; dc 0x16 1 0x53 1; dc 0x01 1 0x54 0; dc 0x16 1 0x54 1 ]
].

Definition huff_decode_codes_50 : list (list decode_code) := [
  [ dc 0x02 1 0x4d 0; dc 0x09 1 0x4d 0; dc 0x17 1 0x4d 0; dc 0x28 1 0x4d 1;
    dc 0x02 1 0x4e 0; dc 0x09 1 0x4e 0; dc 0x17 1 0x4e 0; dc 0x28 1 0x4e 1;
    dc 0x02 1 0x4f 0; dc 0x09 1 0x4f 0; dc 0x17 1 0x4f 0; dc 0x28 1 0x4f 1;
    dc 0x02 1 0x50 0; dc 0x09 1 0x50 0; dc 0x17 1 0x50 0; dc 0x28 1 0x50 1 ];
  [ dc 0x03 1 0x4d 0; dc 0x06 1 0x4d 0; dc 0x0a 1 0x4d 0; dc 0x0f 1 0x4d 0;
    dc 0x18 1 0x4d 0; dc 0x1f 1 0x4d 0; dc 0x29 1 0x4d 0; dc 0x38 1 0x4d 1;
    dc 0x03 1 0x4e 0; dc 0x06 1 0x4e 0; dc 0x0a 1 0x4e 0; dc 0x0f 1 0x4e 0;
    dc 0x18 1 0x4e 0; dc 0x1f 1 0x4e 0; dc 0x29 1 0x4e 0; dc 0x38 1 0x4e 1 ];
  [ dc 0x03 1 0x4f 0; dc 0x06 1 0x4f 0; dc 0x0a 1 0x4f 0; dc 0x0f 1 0x4f 0;
    dc 0x18 1 0x4f 0; dc 0x1f 1 0x4f 0; dc 0x29 1 0x4f 0; dc 0x38 1 0x4f 1;
    dc 0x03 1 0x50 0; dc 0x06 1 0x50 0; dc 0x0a 1 0x50 0; dc 0x0f 1 0x50 0;
    dc 0x18 1 0x50 0; dc 0x1f 1 0x50 0; dc 0x29 1 0x50 0; dc 0x38 1 0x50 1 ];
  [ dc 0x02 1 0x51 0; dc 0x09 1 0x51 0; dc 0x17 1 0x51 0; dc 0x28 1 0x51 1;
    dc 0x02 1 0x52 0; dc 0x09 1 0x52 0; dc 0x17 1 0x52 0; dc 0x28 1 0x52 1;
    dc 0x02 1 0x53 0; dc 0x09 1 0x53 0; dc 0x17 1 0x53 0; dc 0x28 1 0x53 1;
    dc 0x02 1 0x54 0; dc 0x09 1 0x54 0; dc 0x17 1 0x54 0; dc 0x28 1 0x54 1 ];
  [ dc 0x03 1 0x51 0; dc 0x06 1 0x51 0; dc 0x0a 1 0x51 0; dc 0x0f 1 0x51 0;
    dc 0x18 1 0x51 0; dc 0x1f 1 0x51 0; dc 0x29 1 0x51 0; dc 0x38 1 0x51 1;
    dc 0x03 1 0x52 0; dc 0x06 1 0x52 0; dc 0x0a 1 0x52 0; dc 0x0f 1 0x52 0;
    dc 0x18 1 0x52 0; dc 0x1f 1 0x52 0; dc 0x29 1 0x52 0; dc 0x38 1 0x52 1 ];
  [ dc 0x03 1 0x53 0; dc 0x06 1 0x53 0; dc 0x0a 1 0x53 0; dc 0x0f 1 0x53 0;
    dc 0x18 1 0x53 0; dc 0x1f 1 0x53 0; dc 0x29 1 0x53 0; dc 0x38 1 0x53 1;
    dc 0x03 1 0x54 0; dc 0x06 1 0x54 0; dc 0x0a 1 0x54 0; dc 0x0f 1 0x54 0;
    dc 0x18 1 0x54 0; dc 0x1f 1 0x54 0; dc 0x29 1 0x54 0; dc 0x38 1 0x54 1 ];
  [ dc 0x00 1 0x55 1; dc 0x00 1 0x56 1; dc 0x00 1 0x57 1; dc 0x00 1 0x59 1;
    dc 0x00 1 0x6a 1; dc 0x00 1 0x6b 1; dc 0x00 1 0x71 1; dc 0x00 1 0x76 1;
    dc 0x00 1 0x77 1; dc 0x00 1 0x78 1; dc 0x00 1 0x79 1; dc 0x00 1 0x7a 1;
    dc 0x46 0 0x00 0; dc 0x47 0 0x00 0; dc 0x49 0 0x00 0; dc 0x4a 0 0x00 1 ];
  [ dc 0x01 1 0x55 0; dc 0x16 1 0x55 1; dc 0x01 1 0x56 0; dc 0x16 1 0x56 1;
    dc 0x01 1 0x57 0; dc 0x16 1 0x57 1; dc 0x01 1 0x59 0; dc 0x16 1 0x59 1;
    dc 0x01 1 0x6a 0; dc 0x16 1 0x6a 1; dc 0x01 1 0x6b 0; dc 0x16 1 0x6b 1;
    dc 0x01 1 0x71 0; dc 0x16 1 0x71 1; dc 0x01 1 0x76 0; dc 0x16 1 0x76 1 ];
  [ dc 0x02 1 0x55 0; dc 0x09 1 0x55 0; dc 0x17 1 0x55 0; dc 0x28 1 0x55 1;
    dc 0x02 1 0x56 0; dc 0x09 1 0x56 0; dc 0x17 1 0x56 0; dc 0x28 1 0x56 1;
    dc 0x02 1 0x57 0; dc 0x09 1 0x57 0; dc 0x17 1 0x57 0; dc 0x28 1 0x57 1;
    dc 0x02 1 0x59 0; dc 0x09 1 0x59 0; dc 0x17 1 0x59 0; dc 0x28 1 0x59 1 ];
  [ dc 0x03 1 0x55 0; dc 0x06 1 0x55 0; dc 0x0a 1 0x55 0; dc 0x0f 1 0x55 0;
    dc 0x18 1 0x55 0; dc 0x1f 1 0x55 0; dc 0x29 1 0x55 0; dc 0x38 1 0x55 1;
    dc 0x03 1 0x56 0; dc 0x06 1 0x56 0; dc 0x0a 1 0x56 0; dc 0x0f 1 0x56 0;
    dc 0x18 1 0x56 0; dc 0x1f 1 0x56 0; dc 0x29 1 0x56 0; dc 0x38 1 0x56 1 ]
].

Definition huff_decode_codes_60 : list (list decode_code) := [
  [ dc 0x03 1 0x57 0; dc 0x06 1 0x57 0; dc 0x0a 1 0x57 0; dc 0x0f 1 0x57 0;
    dc 0x18 1 0x57 0; dc 0x1f 1 0x57 0; dc 0x29 1 0x57 0; dc 0x38 1 0x57 1;
    dc 0x03 1 0x59 0; dc 0x06 1 0x59 0; dc 0x0a 1 0x59 0; dc 0x0f 1 0x59 0;
    dc 0x18 1 0x59 0; dc 0x1f 1 0x59 0; dc 0x29 1 0x59 0; dc 0x38 1 0x59 1 ];
  [ dc 0x02 1 0x6a 0; dc 0x09 1 0x6a 0; dc 0x17 1 0x6a 0; dc 0x28 1 0x6a 1;
    dc 0x02 1 0x6b 0; dc 0x09 1 0x6b 0; dc 0x17 1 0x6b 0; dc 0x28 1 0x6b 1;
    dc 0x02 1 0x71 0; dc 0x09 1 0x71 0; dc 0x17 1 0x71 0; dc 0x28 1 0x71 1;
    dc 0x02 1 0x76 0; dc 0x09 1 0x76 0; dc 0x17 1 0x76 0; dc 0x28 1 0x76 1 ];
  [ dc 0x03 1 0x6a 0; dc 0x06 1 0x6a 0; dc 0x0a 1 0x6a 0; dc 0x0f 1 0x6a 0;
    dc 0x18 1 0x6a 0; dc 0x1f 1 0x6a 0; dc 0x29 1 0x6a 0; dc 0x38 1 0x6a 1;
    dc 0x03 1 0x6b 0; dc 0x06 1 0x6b 0; dc 0x0a 1 0x6b 0; dc 0x0f 1 0x6b 0;
    dc 0x18 1 0x6b 0; dc 0x1f 1 0x6b 0; dc 0x29 1 0x6b 0; dc 0x38 1 0x6b 1 ];
  [ dc 0x03 1 0x71 0; dc 0x06 1 0x71 0; dc 0x0a 1 0x71 0; dc 0x0f 1 0x71 0;
    dc 0x18 1 0x71 0; dc 0x1f 1 0x71 0; dc 0x29 1 0x71 0; dc 0x38 1 0x71 1;
    dc 0x03 1 0x76 0; dc 0x06 1 0x76 0; dc 0x0a 1 0x76 0; dc 0x0f 1 0x76 0;
    dc 0x18 1 0x76 0; dc 0x1f 1 0x76 0; dc 0x29 1 0x76 0; dc 0x38 1 0x76 1 ];
  [ dc 0x01 1 0x77 0; dc 0x16 1 0x77 1; dc 0x01 1 0x78 0; dc 0x16 1 0x78 1;
    dc 0x01 1 0x79 0; dc 0x16 1 0x79 1; dc 0x01 1 0x7a 0; dc 0x16 1 0x7a 1;
    dc 0x00 1 0x26 1; dc 0x00 1 0x2a 1; dc 0x00 1 0x2c 1; dc 0x00 1 0x3b 1;
    dc 0x00 1 0x58 1; dc 0x00 1 0x5a 1; dc 0x4b 0 0x00 0; dc 0x4e 0 0x00 1 ];
  [ dc 0x02 1 0x77 0; dc 0x09 1 0x77 0; dc 0x17 1 0x77 0; dc 0x28 1 0x77 1;
    dc 0x02 1 0x78 0; dc 0x09 1 0x78 0; dc 0x17 1 0x78 0; dc 0x28 1 0x78 1;
    dc 0x02 1 0x79 0; dc 0x09 1 0x79 0; dc 0x17 1 0x79 0; dc 0x28 1 0x79 1;
    dc 0x02 1 0x7a 0; dc 0x09 1 0x7a 0; dc 0x17 1 0x7a 0; dc 0x28 1 0x7a 1 ];
  [ dc 0x03 1 0x77 0; dc 0x06 1 0x77 0; dc 0x0a 1 0x77 0; dc 0x0f 1 0x77 0;
    dc 0x18 1 0x77 0; dc 0x1f 1 0x77 0; dc 0x29 1 0x77 0; dc 0x38 1 0x77 1;
    dc 0x03 1 0x78 0; dc 0x06 1 0x78 0; dc 0x0a 1 0x78 0; dc 0x0f 1 0x78 0;
    dc 0x18 1 0x78 0; dc 0x1f 1 0x78 0; dc 0x29 1 0x78 0; dc 0x38 1 0x78 1 ];
  [ dc 0x03 1 0x79 0; dc 0x06 1 0x79 0; dc 0x0a 1 0x79 0; dc 0x0f 1 0x79 0;
    dc 0x18 1 0x79 0; dc 0x1f 1 0x79 0; dc 0x29 1 0x79 0; dc 0x38 1 0x79 1;
    dc 0x03 1 0x7a 0; dc 0x06 1 0x7a 0; dc 0x0a 1 0x7a 0; dc 0x0f 1 0x7a 0;
    dc 0x18 1 0x7a 0; dc 0x1f 1 0x7a 0; dc 0x29 1 0x7a 0; dc 0x38 1 0x7a 1 ];
  [ dc 0x01 1 0x26 0; dc 0x16 1 0x26 1; dc 0x01 1 0x2a 0; dc 0x16 1 0x2a 1;
    dc 0x01 1 0x2c 0; dc 0x16 1 0x2c 1; dc 0x01 1 0x3b 0; dc 0x16 1 0x3b 1;
    dc 0x01 1 0x58 0; dc 0x16 1 0x58 1; dc 0x01 1 0x5a 0; dc 0x16 1 0x5a 1;
    dc 0x4c 0 0x00 0; dc 0x4d 0 0x00 0; dc 0x4f 0 0x00 0; dc 0x51 0 0x00 1 ];
  [ dc 0x02 1 0x26 0; dc 0x09 1 0x26 0; dc 0x17 1 0x26 0; dc 0x28 1 0x26 1;
    dc 0x02 1 0x2a 0; dc 0x09 1 0x2a 0; dc 0x17 1 0x2a 0; dc 0x28 1 0x2a 1;
    dc 0x02 1 0x2c 0; dc 0x09 1 0x2c 0; dc 0x17 1 0x2c 0; dc 0x28 1 0x2c 1;
    dc 0x02 1 0x3b 0; dc 0x09 1 0x3b 0; dc 0x17 1 0x3b 0; dc 0x28 1 0x3b 1 ]
].

Definition huff_decode_codes_70 : list (list decode_code) := [
  [ dc 0x03 1 0x26 0; dc 0x06 1 0x26 0; dc 0x0a 1 0x26 0; dc 0x0f 1 0x26 0;
    dc 0x18 1 0x26 0; dc 0x1f 1 0x26 0; dc 0x29 1 0x26 0; dc 0x38 1 0x26 1;
    dc 0x03 1 0x2a 0; dc 0x06 1 0x2a 0; dc 0x0a 1 0x2a 0; dc 0x0f 1 0x2a 0;
    dc 0x18 1 0x2a 0; dc 0x1f 1 0x2a 0; dc 0x29 1 0x2a 0; dc 0x38 1 0x2a 1 ];
  [ dc 0x03 1 0x2c 0; dc 0x06 1 0x2c 0; dc 0x0a 1 0x2c 0; dc 0x0f 1 0x2c 0;
    dc 0x18 1 0x2c 0; dc 0x1f 1 0x2c 0; dc 0x29 1 0x2c 0; dc 0x38 1 0x2c 1;
    dc 0x03 1 0x3b 0; dc 0x06 1 0x3b 0; dc 0x0a 1 0x3b 0; dc 0x0f 1 0x3b 0;
    dc 0x18 1 0x3b 0; dc 0x1f 1 0x3b 0; dc 0x29 1 0x3b 0; dc 0x38 1 0x3b 1 ];
  [ dc 0x02 1 0x58 0; dc 0x09 1 0x58 0; dc 0x17 1 0x58 0; dc 0x28 1 0x58 1;
    dc 0x02 1 0x5a 0; dc 0x09 1 0x5a 0; dc 0x17 1 0x5a 0; dc 0x28 1 0x5a 1;
    dc 0x00 1 0x21 1; dc 0x00 1 0x22 1; dc 0x00 1 0x28 1; dc 0x00 1 0x29 1;
    dc 0x00 1 0x3f 1; dc 0x50 0 0x00 0; dc 0x52 0 0x00 0; dc 0x54 0 0x00 1 ];
  [ dc 0x03 1 0x58 0; dc 0x06 1 0x58 0; dc 0x0a 1 0x58 0; dc 0x0f 1 0x58 0;
    dc 0x18 1 0x58 0; dc 0x1f 1 0x58 0; dc 0x29 1 0x58 0; dc 0x38 1 0x58 1;
    dc 0x03 1 0x5a 0; dc 0x06 1 0x5a 0; dc 0x0a 1 0x5a 0; dc 0x0f 1 0x5a 0;
    dc 0x18 1 0x5a 0; dc 0x1f 1 0x5a 0; dc 0x29 1 0x5a 0; dc 0x38 1 0x5a 1 ];
  [ dc 0x01 1 0x21 0; dc 0x16 1 0x21 1; dc 0x01 1 0x22 0; dc 0x16 1 0x22 1;
    dc 0x01 1 0x28 0; dc 0x16 1 0x28 1; dc 0x01 1 0x29 0; dc 0x16 1 0x29 1;
    dc 0x01 1 0x3f 0; dc 0x16 1 0x3f 1; dc 0x00 1 0x27 1; dc 0x00 1 0x2b 1;
    dc 0x00 1 0x7c 1; dc 0x53 0 0x00 0; dc 0x55 0 0x00 0; dc 0x58 0 0x00 1 ];
  [ dc 0x02 1 0x21 0; dc 0x09 1 0x21 0; dc 0x17 1 0x21 0; dc 0x28 1 0x21 1;
    dc 0x02 1 0x22 0; dc 0x09 1 0x22 0; dc 0x17 1 0x22 0; dc 0x28 1 0x22 1;
    dc 0x02 1 0x28 0; dc 0x09 1 0x28 0; dc 0x17 1 0x28 0; dc 0x28 1 0x28 1;
    dc 0x02 1 0x29 0; dc 0x09 1 0x29 0; dc 0x17 1 0x29 0; dc 0x28 1 0x29 1 ];
  [ dc 0x03 1 0x21 0; dc 0x06 1 0x21 0; dc 0x0a 1 0x21 0; dc 0x0f 1 0x21 0;
    dc 0x18 1 0x21 0; dc 0x1f 1 0x21 0; dc 0x29 1 0x21 0; dc 0x38 1 0x21 1;
    dc 0x03 1 0x22 0; dc 0x06 1 0x22 0; dc 0x0a 1 0x22 0; dc 0x0f 1 0x22 0;
    dc 0x18 1 0x22 0; dc 0x1f 1 0x22 0; dc 0x29 1 0x22 0; dc 0x38 1 0x22 1 ];
  [ dc 0x03 1 0x28 0; dc 0x06 1 0x28 0; dc 0x0a 1 0x28 0; dc 0x0f 1 0x28 0;
    dc 0x18 1 0x28 0; dc 0x1f 1 0x28 0; dc 0x29 1 0x28 0; dc 0x38 1 0x28 1;
    dc 0x03 1 0x29 0; dc 0x06 1 0x29 0; dc 0x0a 1 0x29 0; dc 0x0f 1 0x29 0;
    dc 0x18 1 0x29 0; dc 0x1f 1 0x29 0; dc 0x29 1 0x29 0; dc 0x38 1 0x29 1 ];
  [ dc 0x02 1 0x3f 0; dc 0x09 1 0x3f 0; dc 0x17 1 0x3f 0; dc 0x28 1 0x3f 1;
    dc 0x01 1 0x27 0; dc 0x16 1 0x27 1; dc 0x01 1 0x2b 0; dc 0x16 1 0x2b 1;
    dc 0x01 1 0x7c 0; dc 0x16 1 0x7c 1; dc 0x00 1 0x23 1; dc 0x00 1 0x3e 1;
    dc 0x56 0 0x00 0; dc 0x57 0 0x00 0; dc 0x59 0 0x00 0; dc 0x5a 0 0x00 1 ];
  [ dc 0x03 1 0x3f 0; dc 0x06 1 0x3f 0; dc 0x0a 1 0x3f 0; dc 0x0f 1 0x3f 0;
    dc 0x18 1 0x3f 0; dc 0x1f 1 0x3f 0; dc 0x29 1 0x3f 0; dc 0x38 1 0x3f 1;
    dc 0x02 1 0x27 0; dc 0x09 1 0x27 0; dc 0x17 1 0x27 0; dc 0x28 1 0x27 1;
    dc 0x02 1 0x2b 0; dc 0x09 1 0x2b 0; dc 0x17 1 0x2b 0; dc 0x28 1 0x2b 1 ]
].

Definition huff_decode_codes_80 : list (list decode_code) := [
  [ dc 0x03 1 0x27 0; dc 0x06 1 0x27 0; dc 0x0a 1 0x27 0; dc 0x0f 1 0x27 0;
    dc 0x18 1 0x27 0; dc 0x1f 1 0x27 0; dc 0x29 1 0x27 0; dc 0x38 1 0x27 1;
    dc 0x03 1 0x2b 0; dc 0x06 1 0x2b 0; dc 0x0a 1 0x2b 0; dc 0x0f 1 0x2b 0;
    dc 0x18 1 0x2b 0; dc 0x1f 1 0x2b 0; dc 0x29 1 0x2b 0; dc 0x38 1 0x2b 1 ];
  [ dc 0x02 1 0x7c 0; dc 0x09 1 0x7c 0; dc 0x17 1 0x7c 0; dc 0x28 1 0x7c 1;
    dc 0x01 1 0x23 0; dc 0x16 1 0x23 1; dc 0x01 1 0x3e 0; dc 0x16 1 0x3e 1;
    dc 0x00 1 0x00 1; dc 0x00 1 0x24 1; dc 0x00 1 0x40 1; dc 0x00 1 0x5b 1;
    dc 0x00 1 0x5d 1; dc 0x00 1 0x7e 1; dc 0x5b 0 0x00 0; dc 0x5c 0 0x00 1 ];
  [ dc 0x03 1 0x7c 0; dc 0x06 1 0x7c 0; dc 0x0a 1 0x7c 0; dc 0x0f 1 0x7c 0;
    dc 0x18 1 0x7c 0; dc 0x1f 1 0x7c 0; dc 0x29 1 0x7c 0; dc 0x38 1 0x7c 1;
    dc 0x02 1 0x23 0; dc 0x09 1 0x23 0; dc 0x17 1 0x23 0; dc 0x28 1 0x23 1;
    dc 0x02 1 0x3e 0; dc 0x09 1 0x3e 0; dc 0x17 1 0x3e 0; dc 0x28 1 0x3e 1 ];
  [ dc 0x03 1 0x23 0; dc 0x06 1 0x23 0; dc 0x0a 1 0x23 0; dc 0x0f 1 0x23 0;
    dc 0x18 1 0x23 0; dc 0x1f 1 0x23 0; dc 0x29 1 0x23 0; dc 0x38 1 0x23 1;
    dc 0x03 1 0x3e 0; dc 0x06 1 0x3e 0; dc 0x0a 1 0x3e 0; dc 0x0f 1 0x3e 0;
    dc 0x18 1 0x3e 0; dc 0x1f 1 0x3e 0; dc 0x29 1 0x3e 0; dc 0x38 1 0x3e 1 ];
  [ dc 0x01 1 0x00 0; dc 0x16 1 0x00 1; dc 0x01 1 0x24 0; dc 0x16 1 0x24 1;
    dc 0x01 1 0x40 0; dc 0x16 1 0x40 1; dc 0x01 1 0x5b 0; dc 0x16 1 0x5b 1;
    dc 0x01 1 0x5d 0; dc 0x16 1 0x5d 1; dc 0x01 1 0x7e 0; dc 0x16 1 0x7e 1;
    dc 0x00 1 0x5e 1; dc 0x00 1 0x7d 1; dc 0x5d 0 0x00 0; dc 0x5e 0 0x00 1 ];
  [ dc 0x02 1 0x00 0; dc 0x09 1 0x00 0; dc 0x17 1 0x00 0; dc 0x28 1 0x00 1;
    dc 0x02 1 0x24 0; dc 0x09 1 0x24 0; dc 0x17 1 0x24 0; dc 0x28 1 0x24 1;
    dc 0x02 1 0x40 0; dc 0x09 1 0x40 0; dc 0x17 1 0x40 0; dc 0x28 1 0x40 1;
    dc 0x02 1 0x5b 0; dc 0x09 1 0x5b 0; dc 0x17 1 0x5b 0; dc 0x28 1 0x5b 1 ];
  [ dc 0x03 1 0x00 0; dc 0x06 1 0x00 0; dc 0x0a 1 0x00 0; dc 0x0f 1 0x00 0;
    dc 0x18 1 0x00 0; dc 0x1f 1 0x00 0; dc 0x29 1 0x00 0; dc 0x38 1 0x00 1;
    dc 0x03 1 0x24 0; dc 0x06 1 0x24 0; dc 0x0a 1 0x24 0; dc 0x0f 1 0x24 0;
    dc 0x18 1 0x24 0; dc 0x1f 1 0x24 0; dc 0x29 1 0x24 0; dc 0x38 1 0x24 1 ];
  [ dc 0x03 1 0x40 0; dc 0x06 1 0x40 0; dc 0x0a 1 0x40 0; dc 0x0f 1 0x40 0;
    dc 0x18 1 0x40 0; dc 0x1f 1 0x40 0; dc 0x29 1 0x40 0; dc 0x38 1 0x40 1;
    dc 0x03 1 0x5b 0; dc 0x06 1 0x5b 0; dc 0x0a 1 0x5b 0; dc 0x0f 1 0x5b 0;
    dc 0x18 1 0x5b 0; dc 0x1f 1 0x5b 0; dc 0x29 1 0x5b 0; dc 0x38 1 0x5b 1 ];
  [ dc 0x02 1 0x5d 0; dc 0x09 1 0x5d 0; dc 0x17 1 0x5d 0; dc 0x28 1 0x5d 1;
    dc 0x02 1 0x7e 0; dc 0x09 1 0x7e 0; dc 0x17 1 0x7e 0; dc 0x28 1 0x7e 1;
    dc 0x01 1 0x5e 0; dc 0x16 1 0x5e 1; dc 0x01 1 0x7d 0; dc 0x16 1 0x7d 1;
    dc 0x00 1 0x3c 1; dc 0x00 1 0x60 1; dc 0x00 1 0x7b 1; dc 0x5f 0 0x00 1 ];
  [ dc 0x03 1 0x5d 0; dc 0x06 1 0x5d 0; dc 0x0a 1 0x5d 0; dc 0x0f 1 0x5d 0;
    dc 0x18 1 0x5d 0; dc 0x1f 1 0x5d 0; dc 0x29 1 0x5d 0; dc 0x38 1 0x5d 1;
    dc 0x03 1 0x7e 0; dc 0x06 1 0x7e 0; dc 0x0a 1 0x7e 0; dc 0x0f 1 0x7e 0;
    dc 0x18 1 0x7e 0; dc 0x1f 1 0x7e 0; dc 0x29 1 0x7e 0; dc 0x38 1 0x7e 1 ]
].

Definition huff_decode_codes_90 : list (list decode_code) := [
  [ dc 0x02 1 0x5e 0; dc 0x09 1 0x5e 0; dc 0x17 1 0x5e 0; dc 0x28 1 0x5e 1;
    dc 0x02 1 0x7d 0; dc 0x09 1 0x7d 0; dc 0x17 1 0x7d 0; dc 0x28 1 0x7d 1;
    dc 0x01 1 0x3c 0; dc 0x16 1 0x3c 1; dc 0x01 1 0x60 0; dc 0x16 1 0x60 1;
    dc 0x01 1 0x7b 0; dc 0x16 1 0x7b 1; dc 0x60 0 0x00 0; dc 0x6e 0 0x00 1 ];
  [ dc 0x03 1 0x5e 0; dc 0x06 1 0x5e 0; dc 0x0a 1 0x5e 0; dc 0x0f 1 0x5e 0;
    dc 0x18 1 0x5e 0; dc 0x1f 1 0x5e 0; dc 0x29 1 0x5e 0; dc 0x38 1 0x5e 1;
    dc 0x03 1 0x7d 0; dc 0x06 1 0x7d 0; dc 0x0a 1 0x7d 0; dc 0x0f 1 0x7d 0;
    dc 0x18 1 0x7d 0; dc 0x1f 1 0x7d 0; dc 0x29 1 0x7d 0; dc 0x38 1 0x7d 1 ];
  [ dc 0x02 1 0x3c 0; dc 0x09 1 0x3c 0; dc 0x17 1 0x3c 0; dc 0x28 1 0x3c 1;
    dc 0x02 1 0x60 0; dc 0x09 1 0x60 0; dc 0x17 1 0x60 0; dc 0x28 1 0x60 1;
    dc 0x02 1 0x7b 0; dc 0x09 1 0x7b 0; dc 0x17 1 0x7b 0; dc 0x28 1 0x7b 1;
    dc 0x61 0 0x00 0; dc 0x65 0 0x00 0; dc 0x6f 0 0x00 0; dc 0x85 0 0x00 1 ];
  [ dc 0x03 1 0x3c 0; dc 0x06 1 0x3c 0; dc 0x0a 1 0x3c 0; dc 0x0f 1 0x3c 0;
    dc 0x18 1 0x3c 0; dc 0x1f 1 0x3c 0; dc 0x29 1 0x3c 0; dc 0x38 1 0x3c 1;
    dc 0x03 1 0x60 0; dc 0x06 1 0x60 0; dc 0x0a 1 0x60 0; dc 0x0f 1 0x60 0;
    dc 0x18 1 0x60 0; dc 0x1f 1 0x60 0; dc 0x29 1 0x60 0; dc 0x38 1 0x60 1 ];
  [ dc 0x03 1 0x7b 0; dc 0x06 1 0x7b 0; dc 0x0a 1 0x7b 0; dc 0x0f 1 0x7b 0;
    dc 0x18 1 0x7b 0; dc 0x1f 1 0x7b 0; dc 0x29 1 0x7b 0; dc 0x38 1 0x7b 1;
    dc 0x62 0 0x00 0; dc 0x63 0 0x00 0; dc 0x66 0 0x00 0; dc 0x69 0 0x00 0;
    dc 0x70 0 0x00 0; dc 0x77 0 0x00 0; dc 0x86 0 0x00 0; dc 0x99 0 0x00 1 ];
  [ dc 0x00 1 0x5c 1; dc 0x00 1 0xc3 1; dc 0x00 1 0xd0 1; dc 0x64 0 0x00 0;
    dc 0x67 0 0x00 0; dc 0x68 0 0x00 0; dc 0x6a 0 0x00 0; dc 0x6b 0 0x00 0;
    dc 0x71 0 0x00 0; dc 0x74 0 0x00 0; dc 0x78 0 0x00 0; dc 0x7e 0 0x00 0;
    dc 0x87 0 0x00 0; dc 0x8e 0 0x00 0; dc 0x9a 0 0x00 0; dc 0xa9 0 0x00 1 ];
  [ dc 0x01 1 0x5c 0; dc 0x16 1 0x5c 1; dc 0x01 1 0xc3 0; dc 0x16 1 0xc3 1;
    dc 0x01 1 0xd0 0; dc 0x16 1 0xd0 1; dc 0x00 1 0x80 1; dc 0x00 1 0x82 1;
    dc 0x00 1 0x83 1; dc 0x00 1 0xa2 1; dc 0x00 1 0xb8 1; dc 0x00 1 0xc2 1;
    dc 0x00 1 0xe0 1; dc 0x00 1 0xe2 1; dc 0x6c 0 0x00 0; dc 0x6d 0 0x00 0 ];
  [ dc 0x02 1 0x5c 0; dc 0x09 1 0x5c 0; dc 0x17 1 0x5c 0; dc 0x28 1 0x5c 1;
    dc 0x02 1 0xc3 0; dc 0x09 1 0xc3 0; dc 0x17 1 0xc3 0; dc 0x28 1 0xc3 1;
    dc 0x02 1 0xd0 0; dc 0x09 1 0xd0 0; dc 0x17 1 0xd0 0; dc 0x28 1 0xd0 1;
    dc 0x01 1 0x80 0; dc 0x16 1 0x80 1; dc 0x01 1 0x82 0; dc 0x16 1 0x82 1 ];
  [ dc 0x03 1 0x5c 0; dc 0x06 1 0x5c 0; dc 0x0a 1 0x5c 0; dc 0x0f 1 0x5c 0;
    dc 0x18 1 0x5c 0; dc 0x1f 1 0x5c 0; dc 0x29 1 0x5c 0; dc 0x38 1 0x5c 1;
    dc 0x03 1 0xc3 0; dc 0x06 1 0xc3 0; dc 0x0a 1 0xc3 0; dc 0x0f 1 0xc3 0;
    dc 0x18 1 0xc3 0; dc 0x1f 1 0xc3 0; dc 0x29 1 0xc3 0; dc 0x38 1 0xc3 1 ];
  [ dc 0x03 1 0xd0 0; dc 0x06 1 0xd0 0; dc 0x0a 1 0xd0 0; dc 0x0f 1 0xd0 0;
    dc 0x18 1 0xd0 0; dc 0x1f 1 0xd0 0; dc 0x29 1 0xd0 0; dc 0x38 1 0xd0 1;
    dc 0x02 1 0x80 0; dc 0x09 1 0x80 0; dc 0x17 1 0x80 0; dc 0x28 1 0x80 1;
    dc 0x02 1 0x82 0; dc 0x09 1 0x82 0; dc 0x17 1 0x82 0; dc 0x28 1 0x82 1 ]
].

Definition huff_decode_codes_100 : list (list decode_code) := [
  [ dc 0x03 1 0x80 0; dc 0x06 1 0x80 0; dc 0x0a 1 0x80 0; dc 0x0f 1 0x80 0;
    dc 0x18 1 0x80 0; dc 0x1f 1 0x80 0; dc 0x29 1 0x80 0; dc 0x38 1 0x80 1;
    dc 0x03 1 0x82 0; dc 0x06 1 0x82 0; dc 0x0a 1 0x82 0; dc 0x0f 1 0x82 0;
    dc 0x18 1 0x82 0; dc 0x1f 1 0x82 0; dc 0x29 1 0x82 0; dc 0x38 1 0x82 1 ];
  [ dc 0x01 1 0x83 0; dc 0x16 1 0x83 1; dc 0x01 1 0xa2 0; dc 0x16 1 0xa2 1;
    dc 0x01 1 0xb8 0; dc 0x16 1 0xb8 1; dc 0x01 1 0xc2 0; dc 0x16 1 0xc2 1;
    dc 0x01 1 0xe0 0; dc 0x16 1 0xe0 1; dc 0x01 1 0xe2 0; dc 0x16 1 0xe2 1;
    dc 0x00 1 0x99 1; dc 0x00 1 0xa1 1; dc 0x00 1 0xa7 1; dc 0x00 1 0xac 1 ];
  [ dc 0x02 1 0x83 0; dc 0x09 1 0x83 0; dc 0x17 1 0x83 0; dc 0x28 1 0x83 1;
    dc 0x02 1 0xa2 0; dc 0x09 1 0xa2 0; dc 0x17 1 0xa2 0; dc 0x28 1 0xa2 1;
    dc 0x02 1 0xb8 0; dc 0x09 1 0xb8 0; dc 0x17 1 0xb8 0; dc 0x28 1 0xb8 1;
    dc 0x02 1 0xc2 0; dc 0x09 1 0xc2 0; dc 0x17 1 0xc2 0; dc 0x28 1 0xc2 1 ];
  [ dc 0x03 1 0x83 0; dc 0x06 1 0x83 0; dc 0x0a 1 0x83 0; dc 0x0f 1 0x83 0;
    dc 0x18 1 0x83 0; dc 0x1f 1 0x83 0; dc 0x29 1 0x83 0; dc 0x38 1 0x83 1;
    dc 0x03 1 0xa2 0; dc 0x06 1 0xa2 0; dc 0x0a 1 0xa2 0; dc 0x0f 1 0xa2 0;
    dc 0x18 1 0xa2 0; dc 0x1f 1 0xa2 0; dc 0x29 1 0xa2 0; dc 0x38 1 0xa2 1 ];
  [ dc 0x03 1 0xb8 0; dc 0x06 1 0xb8 0; dc 0x0a 1 0xb8 0; dc 0x0f 1 0xb8 0;
    dc 0x18 1 0xb8 0; dc 0x1f 1 0xb8 0; dc 0x29 1 0xb8 0; dc 0x38 1 0xb8 1;
    dc 0x03 1 0xc2 0; dc 0x06 1 0xc2 0; dc 0x0a 1 0xc2 0; dc 0x0f 1 0xc2 0;
    dc 0x18 1 0xc2 0; dc 0x1f 1 0xc2 0; dc 0x29 1 0xc2 0; dc 0x38 1 0xc2 1 ];
  [ dc 0x02 1 0xe0 0; dc 0x09 1 0xe0 0; dc 0x17 1 0xe0 0; dc 0x28 1 0xe0 1;
    dc 0x02 1 0xe2 0; dc 0x09 1 0xe2 0; dc 0x17 1 0xe2 0; dc 0x28 1 0xe2 1;
    dc 0x01 1 0x99 0; dc 0x16 1 0x99 1; dc 0x01 1 0xa1 0; dc 0x16 1 0xa1 1;
    dc 0x01 1 0xa7 0; dc 0x16 1 0xa7 1; dc 0x01 1 0xac 0; dc 0x16 1 0xac 1 ];
  [ dc 0x03 1 0xe0 0; dc 0x06 1 0xe0 0; dc 0x0a 1 0xe0 0; dc 0x0f 1 0xe0 0;
    dc 0x18 1 0xe0 0; dc 0x1f 1 0xe0 0; dc 0x29 1 0xe0 0; dc 0x38 1 0xe0 1;
    dc 0x03 1 0xe2 0; dc 0x06 1 0xe2 0; dc 0x0a 1 0xe2 0; dc 0x0f 1 0xe2 0;
    dc 0x18 1 0xe2 0; dc 0x1f 1 0xe2 0; dc 0x29 1 0xe2 0; dc 0x38 1 0xe2 1 ];
  [ dc 0x02 1 0x99 0; dc 0x09 1 0x99 0; dc 0x17 1 0x99 0; dc 0x28 1 0x99 1;
    dc 0x02 1 0xa1 0; dc 0x09 1 0xa1 0; dc 0x17 1 0xa1 0; dc 0x28 1 0xa1 1;
    dc 0x02 1 0xa7 0; dc 0x09 1 0xa7 0; dc 0x17 1 0xa7 0; dc 0x28 1 0xa7 1;
    dc 0x02 1 0xac 0; dc 0x09 1 0xac 0; dc 0x17 1 0xac 0; dc 0x28 1 0xac 1 ];
  [ dc 0x03 1 0x99 0; dc 0x06 1 0x99 0; dc 0x0a 1 0x99 0; dc 0x0f 1 0x99 0;
    dc 0x18 1 0x99 0; dc 0x1f 1 0x99 0; dc 0x29 1 0x99 0; dc 0x38 1 0x99 1;
    dc 0x03 1 0xa1 0; dc 0x06 1 0xa1 0; dc 0x0a 1 0xa1 0; dc 0x0f 1 0xa1 0;
    dc 0x18 1 0xa1 0; dc 0x1f 1 0xa1 0; dc 0x29 1 0xa1 0; dc 0x38 1 0xa1 1 ];
  [ dc 0x03 1 0xa7 0; dc 0x06 1 0xa7 0; dc 0x0a 1 0xa7 0; dc 0x0f 1 0xa7 0;
    dc 0x18 1 0xa7 0; dc 0x1f 1 0xa7 0; dc 0x29 1 0xa7 0; dc 0x38 1 0xa7 1;
    dc 0x03 1 0xac 0; dc 0x06 1 0xac 0; dc 0x0a 1 0xac 0; dc 0x0f 1 0xac 0;
    dc 0x18 1 0xac 0; dc 0x1f 1 0xac 0; dc 0x29 1 0xac 0; dc 0x38 1 0xac 1 ]
].

Definition huff_decode_codes_110 : list (list decode_code) := [
  [ dc 0x72 0 0x00 0; dc 0x73 0 0x00 0; dc 0x75 0 0x00 0; dc 0x76 0 0x00 0;
    dc 0x79 0 0x00 0; dc 0x7b 0 0x00 0; dc 0x7f 0 0x00 0; dc 0x82 0 0x00 0;
    dc 0x88 0 0x00 0; dc 0x8b 0 0x00 0; dc 0x8f 0 0x00 0; dc 0x92 0 0x00 0;
    dc 0x9b 0 0x00 0; dc 0xa2 0 0x00 0; dc 0xaa 0 0x00 0; dc 0xb4 0 0x00 1 ];
  [ dc 0x00 1 0xb0 1; dc 0x00 1 0xb1 1; dc 0x00 1 0xb3 1; dc 0x00 1 0xd1 1;
    dc 0x00 1 0xd8 1; dc 0x00 1 0xd9 1; dc 0x00 1 0xe3 1; dc 0x00 1 0xe5 1;
    dc 0x00 1 0xe6 1; dc 0x7a 0 0x00 0; dc 0x7c 0 0x00 0; dc 0x7d 0 0x00 0;
    dc 0x80 0 0x00 0; dc 0x81 0 0x00 0; dc 0x83 0 0x00 0; dc 0x84 0 0x00 0 ];
  [ dc 0x01 1 0xb0 0; dc 0x16 1 0xb0 1; dc 0x01 1 0xb1 0; dc 0x16 1 0xb1 1;
    dc 0x01 1 0xb3 0; dc 0x16 1 0xb3 1; dc 0x01 1 0xd1 0; dc 0x16 1 0xd1 1;
    dc 0x01 1 0xd8 0; dc 0x16 1 0xd8 1; dc 0x01 1 0xd9 0; dc 0x16 1 0xd9 1;
    dc 0x01 1 0xe3 0; dc 0x16 1 0xe3 1; dc 0x01 1 0xe5 0; dc 0x16 1 0xe5 1 ];
  [ dc 0x02 1 0xb0 0; dc 0x09 1 0xb0 0; dc 0x17 1 0xb0 0; dc 0x28 1 0xb0 1;
    dc 0x02 1 0xb1 0; dc 0x09 1 0xb1 0; dc 0x17 1 0xb1 0; dc 0x28 1 0xb1 1;
    dc 0x02 1 0xb3 0; dc 0x09 1 0xb3 0; dc 0x17 1 0xb3 0; dc 0x28 1 0xb3 1;
    dc 0x02 1 0xd1 0; dc 0x09 1 0xd1 0; dc 0x17 1 0xd1 0; dc 0x28 1 0xd1 1 ];
  [ dc 0x03 1 0xb0 0; dc 0x06 1 0xb0 0; dc 0x0a 1 0xb0 0; dc 0x0f 1 0xb0 0;
    dc 0x18 1 0xb0 0; dc 0x1f 1 0xb0 0; dc 0x29 1 0xb0 0; dc 0x38 1 0xb0 1;
    dc 0x03 1 0xb1 0; dc 0x06 1 0xb1 0; dc 0x0a 1 0xb1 0; dc 0x0f 1 0xb1 0;
    dc 0x18 1 0xb1 0; dc 0x1f 1 0xb1 0; dc 0x29 1 0xb1 0; dc 0x38 1 0xb1 1 ];
  [ dc 0x03 1 0xb3 0; dc 0x06 1 0xb3 0; dc 0x0a 1 0xb3 0; dc 0x0f 1 0xb3 0;
    dc 0x18 1 0xb3 0; dc 0x1f 1 0xb3 0; dc 0x29 1 0xb3 0; dc 0x38 1 0xb3 1;
    dc 0x03 1 0xd1 0; dc 0x06 1 0xd1 0; dc 0x0a 1 0xd1 0; dc 0x0f 1 0xd1 0;
    dc 0x18 1 0xd1 0; dc 0x1f 1 0xd1 0; dc 0x29 1 0xd1 0; dc 0x38 1 0xd1 1 ];
  [ dc 0x02 1 0xd8 0; dc 0x09 1 0xd8 0; dc 0x17 1 0xd8 0; dc 0x28 1 0xd8 1;
    dc 0x02 1 0xd9 0; dc 0x09 1 0xd9 0; dc 0x17 1 0xd9 0; dc 0x28 1 0xd9 1;
    dc 0x02 1 0xe3 0; dc 0x09 1 0xe3 0; dc 0x17 1 0xe3 0; dc 0x28 1 0xe3 1;
    dc 0x02 1 0xe5 0; dc 0x09 1 0xe5 0; dc 0x17 1 0xe5 0; dc 0x28 1 0xe5 1 ];
  [ dc 0x03 1 0xd8 0; dc 0x06 1 0xd8 0; dc 0x0a 1 0xd8 0; dc 0x0f 1 0xd8 0;
    dc 0x18 1 0xd8 0; dc 0x1f 1 0xd8 0; dc 0x29 1 0xd8 0; dc 0x38 1 0xd8 1;
    dc 0x03 1 0xd9 0; dc 0x06 1 0xd9 0; dc 0x0a 1 0xd9 0; dc 0x0f 1 0xd9 0;
    dc 0x18 1 0xd9 0; dc 0x1f 1 0xd9 0; dc 0x29 1 0xd9 0; dc 0x38 1 0xd9 1 ];
  [ dc 0x03 1 0xe3 0; dc 0x06 1 0xe3 0; dc 0x0a 1 0xe3 0; dc 0x0f 1 0xe3 0;
    dc 0x18 1 0xe3 0; dc 0x1f 1 0xe3 0; dc 0x29 1 0xe3 0; dc 0x38 1 0xe3 1;
    dc 0x03 1 0xe5 0; dc 0x06 1 0xe5 0; dc 0x0a 1 0xe5 0; dc 0x0f 1 0xe5 0;
    dc 0x18 1 0xe5 0; dc 0x1f 1 0xe5 0; dc 0x29 1 0xe5 0; dc 0x38 1 0xe5 1 ];
  [ dc 0x01 1 0xe6 0; dc 0x16 1 0xe6 1; dc 0x00 1 0x81 1; dc 0x00 1 0x84 1;
    dc 0x00 1 0x85 1; dc 0x00 1 0x86 1; dc 0x00 1 0x88 1; dc 0x00 1 0x92 1;
    dc 0x00 1 0x9a 1; dc 0x00 1 0x9c 1; dc 0x00 1 0xa0 1; dc 0x00 1 0xa3 1;
    dc 0x00 1 0xa4 1; dc 0x00 1 0xa9 1; dc 0x00 1 0xaa 1; dc 0x00 1 0xad 1 ]
].

Definition huff_decode_codes_120 : list (list decode_code) := [
  [ dc 0x02 1 0xe6 0; dc 0x09 1 0xe6 0; dc 0x17 1 0xe6 0; dc 0x28 1 0xe6 1;
    dc 0x01 1 0x81 0; dc 0x16 1 0x81 1; dc 0x01 1 0x84 0; dc 0x16 1 0x84 1;
    dc 0x01 1 0x85 0; dc 0x16 1 0x85 1; dc 0x01 1 0x86 0; dc 0x16 1 0x86 1;
    dc 0x01 1 0x88 0; dc 0x16 1 0x88 1; dc 0x01 1 0x92 0; dc 0x16 1 0x92 1 ];
  [ dc 0x03 1 0xe6 0; dc 0x06 1 0xe6 0; dc 0x0a 1 0xe6 0; dc 0x0f 1 0xe6 0;
    dc 0x18 1 0xe6 0; dc 0x1f 1 0xe6 0; dc 0x29 1 0xe6 0; dc 0x38 1 0xe6 1;
    dc 0x02 1 0x81 0; dc 0x09 1 0x81 0; dc 0x17 1 0x81 0; dc 0x28 1 0x81 1;
    dc 0x02 1 0x84 0; dc 0x09 1 0x84 0; dc 0x17 1 0x84 0; dc 0x28 1 0x84 1 ];
  [ dc 0x03 1 0x81 0; dc 0x06 1 0x81 0; dc 0x0a 1 0x81 0; dc 0x0f 1 0x81 0;
    dc 0x18 1 0x81 0; dc 0x1f 1 0x81 0; dc 0x29 1 0x81 0; dc 0x38 1 0x81 1;
    dc 0x03 1 0x84 0; dc 0x06 1 0x84 0; dc 0x0a 1 0x84 0; dc 0x0f 1 0x84 0;
    dc 0x18 1 0x84 0; dc 0x1f 1 0x84 0; dc 0x29 1 0x84 0; dc 0x38 1 0x84 1 ];
  [ dc 0x02 1 0x85 0; dc 0x09 1 0x85 0; dc 0x17 1 0x85 0; dc 0x28 1 0x85 1;
    dc 0x02 1 0x86 0; dc 0x09 1 0x86 0; dc 0x17 1 0x86 0; dc 0x28 1 0x86 1;
    dc 0x02 1 0x88 0; dc 0x09 1 0x88 0; dc 0x17 1 0x88 0; dc 0x28 1 0x88 1;
    dc 0x02 1 0x92 0; dc 0x09 1 0x92 0; dc 0x17 1 0x92 0; dc 0x28 1 0x92 1 ];
  [ dc 0x03 1 0x85 0; dc 0x06 1 0x85 0; dc 0x0a 1 0x85 0; dc 0x0f 1 0x85 0;
    dc 0x18 1 0x85 0; dc 0x1f 1 0x85 0; dc 0x29 1 0x85 0; dc 0x38 1 0x85 1;
    dc 0x03 1 0x86 0; dc 0x06 1 0x86 0; dc 0x0a 1 0x86 0; dc 0x0f 1 0x86 0;
    dc 0x18 1 0x86 0; dc 0x1f 1 0x86 0; dc 0x29 1 0x86 0; dc 0x38 1 0x86 1 ];
  [ dc 0x03 1 0x88 0; dc 0x06 1 0x88 0; dc 0x0a 1 0x88 0; dc 0x0f 1 0x88 0;
    dc 0x18 1 0x88 0; dc 0x1f 1 0x88 0; dc 0x29 1 0x88 0; dc 0x38 1 0x88 1;
    dc 0x03 1 0x92 0; dc 0x06 1 0x92 0; dc 0x0a 1 0x92 0; dc 0x0f 1 0x92 0;
    dc 0x18 1 0x92 0; dc 0x1f 1 0x92 0; dc 0x29 1 0x92 0; dc 0x38 1 0x92 1 ];
  [ dc 0x01 1 0x9a 0; dc 0x16 1 0x9a 1; dc 0x01 1 0x9c 0; dc 0x16 1 0x9c 1;
    dc 0x01 1 0xa0 0; dc 0x16 1 0xa0 1; dc 0x01 1 0xa3 0; dc 0x16 1 0xa3 1;
    dc 0x01 1 0xa4 0; dc 0x16 1 0xa4 1; dc 0x01 1 0xa9 0; dc 0x16 1 0xa9 1;
    dc 0x01 1 0xaa 0; dc 0x16 1 0xaa 1; dc 0x01 1 0xad 0; dc 0x16 1 0xad 1 ];
  [ dc 0x02 1 0x9a 0; dc 0x09 1 0x9a 0; dc 0x17 1 0x9a 0; dc 0x28 1 0x9a 1;
    dc 0x02 1 0x9c 0; dc 0x09 1 0x9c 0; dc 0x17 1 0x9c 0; dc 0x28 1 0x9c 1;
    dc 0x02 1 0xa0 0; dc 0x09 1 0xa0 0; dc 0x17 1 0xa0 0; dc 0x28 1 0xa0 1;
    dc 0x02 1 0xa3 0; dc 0x09 1 0xa3 0; dc 0x17 1 0xa3 0; dc 0x28 1 0xa3 1 ];
  [ dc 0x03 1 0x9a 0; dc 0x06 1 0x9a 0; dc 0x0a 1 0x9a 0; dc 0x0f 1 0x9a 0;
    dc 0x18 1 0x9a 0; dc 0x1f 1 0x9a 0; dc 0x29 1 0x9a 0; dc 0x38 1 0x9a 1;
    dc 0x03 1 0x9c 0; dc 0x06 1 0x9c 0; dc 0x0a 1 0x9c 0; dc 0x0f 1 0x9c 0;
    dc 0x18 1 0x9c 0; dc 0x1f 1 0x9c 0; dc 0x29 1 0x9c 0; dc 0x38 1 0x9c 1 ];
  [ dc 0x03 1 0xa0 0; dc 0x06 1 0xa0 0; dc 0x0a 1 0xa0 0; dc 0x0f 1 0xa0 0;
    dc 0x18 1 0xa0 0; dc 0x1f 1 0xa0 0; dc 0x29 1 0xa0 0; dc 0x38 1 0xa0 1;
    dc 0x03 1 0xa3 0; dc 0x06 1 0xa3 0; dc 0x0a 1 0xa3 0; dc 0x0f 1 0xa3 0;
    dc 0x18 1 0xa3 0; dc 0x1f 1 0xa3 0; dc 0x29 1 0xa3 0; dc 0x38 1 0xa3 1 ]
].

Definition huff_decode_codes_130 : list (list decode_code) := [
  [ dc 0x02 1 0xa4 0; dc 0x09 1 0xa4 0; dc 0x17 1 0xa4 0; dc 0x28 1 0xa4 1;
    dc 0x02 1 0xa9 0; dc 0x09 1 0xa9 0; dc 0x17 1 0xa9 0; dc 0x28 1 0xa9 1;
    dc 0x02 1 0xaa 0; dc 0x09 1 0xaa 0; dc 0x17 1 0xaa 0; dc 0x28 1 0xaa 1;
    dc 0x02 1 0xad 0; dc 0x09 1 0xad 0; dc 0x17 1 0xad 0; dc 0x28 1 0xad 1 ];
  [ dc 0x03 1 0xa4 0; dc 0x06 1 0xa4 0; dc 0x0a 1 0xa4 0; dc 0x0f 1 0xa4 0;
    dc 0x18 1 0xa4 0; dc 0x1f 1 0xa4 0; dc 0x29 1 0xa4 0; dc 0x38 1 0xa4 1;
    dc 0x03 1 0xa9 0; dc 0x06 1 0xa9 0; dc 0x0a 1 0xa9 0; dc 0x0f 1 0xa9 0;
    dc 0x18 1 0xa9 0; dc 0x1f 1 0xa9 0; dc 0x29 1 0xa9 0; dc 0x38 1 0xa9 1 ];
  [ dc 0x03 1 0xaa 0; dc 0x06 1 0xaa 0; dc 0x0a 1 0xaa 0; dc 0x0f 1 0xaa 0;
    dc 0x18 1 0xaa 0; dc 0x1f 1 0xaa 0; dc 0x29 1 0xaa 0; dc 0x38 1 0xaa 1;
    dc 0x03 1 0xad 0; dc 0x06 1 0xad 0; dc 0x0a 1 0xad 0; dc 0x0f 1 0xad 0;
    dc 0x18 1 0xad 0; dc 0x1f 1 0xad 0; dc 0x29 1 0xad 0; dc 0x38 1 0xad 1 ];
  [ dc 0x89 0 0x00 0; dc 0x8a 0 0x00 0; dc 0x8c 0 0x00 0; dc 0x8d 0 0x00 0;
    dc 0x90 0 0x00 0; dc 0x91 0 0x00 0; dc 0x93 0 0x00 0; dc 0x96 0 0x00 0;
    dc 0x9c 0 0x00 0; dc 0x9f 0 0x00 0; dc 0xa3 0 0x00 0; dc 0xa6 0 0x00 0;
    dc 0xab 0 0x00 0; dc 0xae 0 0x00 0; dc 0xb5 0 0x00 0; dc 0xbe 0 0x00 1 ];
  [ dc 0x00 1 0xb2 1; dc 0x00 1 0xb5 1; dc 0x00 1 0xb9 1; dc 0x00 1 0xba 1;
    dc 0x00 1 0xbb 1; dc 0x00 1 0xbd 1; dc 0x00 1 0xbe 1; dc 0x00 1 0xc4 1;
    dc 0x00 1 0xc6 1; dc 0x00 1 0xe4 1; dc 0x00 1 0xe8 1; dc 0x00 1 0xe9 1;
    dc 0x94 0 0x00 0; dc 0x95 0 0x00 0; dc 0x97 0 0x00 0; dc 0x98 0 0x00 0 ];
  [ dc 0x01 1 0xb2 0; dc 0x16 1 0xb2 1; dc 0x01 1 0xb5 0; dc 0x16 1 0xb5 1;
    dc 0x01 1 0xb9 0; dc 0x16 1 0xb9 1; dc 0x01 1 0xba 0; dc 0x16 1 0xba 1;
    dc 0x01 1 0xbb 0; dc 0x16 1 0xbb 1; dc 0x01 1 0xbd 0; dc 0x16 1 0xbd 1;
    dc 0x01 1 0xbe 0; dc 0x16 1 0xbe 1; dc 0x01 1 0xc4 0; dc 0x16 1 0xc4 1 ];
  [ dc 0x02 1 0xb2 0; dc 0x09 1 0xb2 0; dc 0x17 1 0xb2 0; dc 0x28 1 0xb2 1;
    dc 0x02 1 0xb5 0; dc 0x09 1 0xb5 0; dc 0x17 1 0xb5 0; dc 0x28 1 0xb5 1;
    dc 0x02 1 0xb9 0; dc 0x09 1 0xb9 0; dc 0x17 1 0xb9 0; dc 0x28 1 0xb9 1;
    dc 0x02 1 0xba 0; dc 0x09 1 0xba 0; dc 0x17 1 0xba 0; dc 0x28 1 0xba 1 ];
  [ dc 0x03 1 0xb2 0; dc 0x06 1 0xb2 0; dc 0x0a 1 0xb2 0; dc 0x0f 1 0xb2 0;
    dc 0x18 1 0xb2 0; dc 0x1f 1 0xb2 0; dc 0x29 1 0xb2 0; dc 0x38 1 0xb2 1;
    dc 0x03 1 0xb5 0; dc 0x06 1 0xb5 0; dc 0x0a 1 0xb5 0; dc 0x0f 1 0xb5 0;
    dc 0x18 1 0xb5 0; dc 0x1f 1 0xb5 0; dc 0x29 1 0xb5 0; dc 0x38 1 0xb5 1 ];
  [ dc 0x03 1 0xb9 0; dc 0x06 1 0xb9 0; dc 0x0a 1 0xb9 0; dc 0x0f 1 0xb9 0;
    dc 0x18 1 0xb9 0; dc 0x1f 1 0xb9 0; dc 0x29 1 0xb9 0; dc 0x38 1 0xb9 1;
    dc 0x03 1 0xba 0; dc 0x06 1 0xba 0; dc 0x0a 1 0xba 0; dc 0x0f 1 0xba 0;
    dc 0x18 1 0xba 0; dc 0x1f 1 0xba 0; dc 0x29 1 0xba 0; dc 0x38 1 0xba 1 ];
  [ dc 0x02 1 0xbb 0; dc 0x09 1 0xbb 0; dc 0x17 1 0xbb 0; dc 0x28 1 0xbb 1;
    dc 0x02 1 0xbd 0; dc 0x09 1 0xbd 0; dc 0x17 1 0xbd 0; dc 0x28 1 0xbd 1;
    dc 0x02 1 0xbe 0; dc 0x09 1 0xbe 0; dc 0x17 1 0xbe 0; dc 0x28 1 0xbe 1;
    dc 0x02 1 0xc4 0; dc 0x09 1 0xc4 0; dc 0x17 1 0xc4 0; dc 0x28 1 0xc4 1 ]
].

Definition huff_decode_codes_140 : list (list decode_code) := [
  [ dc 0x03 1 0xbb 0; dc 0x06 1 0xbb 0; dc 0x0a 1 0xbb 0; dc 0x0f 1 0xbb 0;
    dc 0x18 1 0xbb 0; dc 0x1f 1 0xbb 0; dc 0x29 1 0xbb 0; dc 0x38 1 0xbb 1;
    dc 0x03 1 0xbd 0; dc 0x06 1 0xbd 0; dc 0x0a 1 0xbd 0; dc 0x0f 1 0xbd 0;
    dc 0x18 1 0xbd 0; dc 0x1f 1 0xbd 0; dc 0x29 1 0xbd 0; dc 0x38 1 0xbd 1 ];
  [ dc 0x03 1 0xbe 0; dc 0x06 1 0xbe 0; dc 0x0a 1 0xbe 0; dc 0x0f 1 0xbe 0;
    dc 0x18 1 0xbe 0; dc 0x1f 1 0xbe 0; dc 0x29 1 0xbe 0; dc 0x38 1 0xbe 1;
    dc 0x03 1 0xc4 0; dc 0x06 1 0xc4 0; dc 0x0a 1 0xc4 0; dc 0x0f 1 0xc4 0;
    dc 0x18 1 0xc4 0; dc 0x1f 1 0xc4 0; dc 0x29 1 0xc4 0; dc 0x38 1 0xc4 1 ];
  [ dc 0x01 1 0xc6 0; dc 0x16 1 0xc6 1; dc 0x01 1 0xe4 0; dc 0x16 1 0xe4 1;
    dc 0x01 1 0xe8 0; dc 0x16 1 0xe8 1; dc 0x01 1 0xe9 0; dc 0x16 1 0xe9 1;
    dc 0x00 1 0x01 1; dc 0x00 1 0x87 1; dc 0x00 1 0x89 1; dc 0x00 1 0x8a 1;
    dc 0x00 1 0x8b 1; dc 0x00 1 0x8c 1; dc 0x00 1 0x8d 1; dc 0x00 1 0x8f 1 ];
  [ dc 0x02 1 0xc6 0; dc 0x09 1 0xc6 0; dc 0x17 1 0xc6 0; dc 0x28 1 0xc6 1;
    dc 0x02 1 0xe4 0; dc 0x09 1 0xe4 0; dc 0x17 1 0xe4 0; dc 0x28 1 0xe4 1;
    dc 0x02 1 0xe8 0; dc 0x09 1 0xe8 0; dc 0x17 1 0xe8 0; dc 0x28 1 0xe8 1;
    dc 0x02 1 0xe9 0; dc 0x09 1 0xe9 0; dc 0x17 1 0xe9 0; dc 0x28 1 0xe9 1 ];
  [ dc 0x03 1 0xc6 0; dc 0x06 1 0xc6 0; dc 0x0a 1 0xc6 0; dc 0x0f 1 0xc6 0;
    dc 0x18 1 0xc6 0; dc 0x1f 1 0xc6 0; dc 0x29 1 0xc6 0; dc 0x38 1 0xc6 1;
    dc 0x03 1 0xe4 0; dc 0x06 1 0xe4 0; dc 0x0a 1 0xe4 0; dc 0x0f 1 0xe4 0;
    dc 0x18 1 0xe4 0; dc 0x1f 1 0xe4 0; dc 0x29 1 0xe4 0; dc 0x38 1 0xe4 1 ];
  [ dc 0x03 1 0xe8 0; dc 0x06 1 0xe8 0; dc 0x0a 1 0xe8 0; dc 0x0f 1 0xe8 0;
    dc 0x18 1 0xe8 0; dc 0x1f 1 0xe8 0; dc 0x29 1 0xe8 0; dc 0x38 1 0xe8 1;
    dc 0x03 1 0xe9 0; dc 0x06 1 0xe9 0; dc 0x0a 1 0xe9 0; dc 0x0f 1 0xe9 0;
    dc 0x18 1 0xe9 0; dc 0x1f 1 0xe9 0; dc 0x29 1 0xe9 0; dc 0x38 1 0xe9 1 ];
  [ dc 0x01 1 0x01 0; dc 0x16 1 0x01 1; dc 0x01 1 0x87 0; dc 0x16 1 0x87 1;
    dc 0x01 1 0x89 0; dc 0x16 1 0x89 1; dc 0x01 1 0x8a 0; dc 0x16 1 0x8a 1;
    dc 0x01 1 0x8b 0; dc 0x16 1 0x8b 1; dc 0x01 1 0x8c 0; dc 0x16 1 0x8c 1;
    dc 0x01 1 0x8d 0; dc 0x16 1 0x8d 1; dc 0x01 1 0x8f 0; dc 0x16 1 0x8f 1 ];
  [ dc 0x02 1 0x01 0; dc 0x09 1 0x01 0; dc 0x17 1 0x01 0; dc 0x28 1 0x01 1;
    dc 0x02 1 0x87 0; dc 0x09 1 0x87 0; dc 0x17 1 0x87 0; dc 0x28 1 0x87 1;
    dc 0x02 1 0x89 0; dc 0x09 1 0x89 0; dc 0x17 1 0x89 0; dc 0x28 1 0x89 1;
    dc 0x02 1 0x8a 0; dc 0x09 1 0x8a 0; dc 0x17 1 0x8a 0; dc 0x28 1 0x8a 1 ];
  [ dc 0x03 1 0x01 0; dc 0x06 1 0x01 0; dc 0x0a 1 0x01 0; dc 0x0f 1 0x01 0;
    dc 0x18 1 0x01 0; dc 0x1f 1 0x01 0; dc 0x29 1 0x01 0; dc 0x38 1 0x01 1;
    dc 0x03 1 0x87 0; dc 0x06 1 0x87 0; dc 0x0a 1 0x87 0; dc 0x0f 1 0x87 0;
    dc 0x18 1 0x87 0; dc 0x1f 1 0x87 0; dc 0x29 1 0x87 0; dc 0x38 1 0x87 1 ];
  [ dc 0x03 1 0x89 0; dc 0x06 1 0x89 0; dc 0x0a 1 0x89 0; dc 0x0f 1 0x89 0;
    dc 0x18 1 0x89 0; dc 0x1f 1 0x89 0; dc 0x29 1 0x89 0; dc 0x38 1 0x89 1;
    dc 0x03 1 0x8a 0; dc 0x06 1 0x8a 0; dc 0x0a 1 0x8a 0; dc 0x0f 1 0x8a 0;
    dc 0x18 1 0x8a 0; dc 0x1f 1 0x8a 0; dc 0x29 1 0x8a 0; dc 0x38 1 0x8a 1 ]
].

Definition huff_decode_codes_150 : list (list decode_code) := [
  [ dc 0x02 1 0x8b 0; dc 0x09 1 0x8b 0; dc 0x17 1 0x8b 0; dc 0x28 1 0x8b 1;
    dc 0x02 1 0x8c 0; dc 0x09 1 0x8c 0; dc 0x17 1 0x8c 0; dc 0x28 1 0x8c 1;
    dc 0x02 1 0x8d 0; dc 0x09 1 0x8d 0; dc 0x17 1 0x8d 0; dc 0x28 1 0x8d 1;
    dc 0x02 1 0x8f 0; dc 0x09 1 0x8f 0; dc 0x17 1 0x8f 0; dc 0x28 1 0x8f 1 ];
  [ dc 0x03 1 0x8b 0; dc 0x06 1 0x8b 0; dc 0x0a 1 0x8b 0; dc 0x0f 1 0x8b 0;
    dc 0x18 1 0x8b 0; dc 0x1f 1 0x8b 0; dc 0x29 1 0x8b 0; dc 0x38 1 0x8b 1;
    dc 0x03 1 0x8c 0; dc 0x06 1 0x8c 0; dc 0x0a 1 0x8c 0; dc 0x0f 1 0x8c 0;
    dc 0x18 1 0x8c 0; dc 0x1f 1 0x8c 0; dc 0x29 1 0x8c 0; dc 0x38 1 0x8c 1 ];
  [ dc 0x03 1 0x8d 0; dc 0x06 1 0x8d 0; dc 0x0a 1 0x8d 0; dc 0x0f 1 0x8d 0;
    dc 0x18 1 0x8d 0; dc 0x1f 1 0x8d 0; dc 0x29 1 0x8d 0; dc 0x38 1 0x8d 1;
    dc 0x03 1 0x8f 0; dc 0x06 1 0x8f 0; dc 0x0a 1 0x8f 0; dc 0x0f 1 0x8f 0;
    dc 0x18 1 0x8f 0; dc 0x1f 1 0x8f 0; dc 0x29 1 0x8f 0; dc 0x38 1 0x8f 1 ];
  [ dc 0x9d 0 0x00 0; dc 0x9e 0 0x00 0; dc 0xa0 0 0x00 0; dc 0xa1 0 0x00 0;
    dc 0xa4 0 0x00 0; dc 0xa5 0 0x00 0; dc 0xa7 0 0x00 0; dc 0xa8 0 0x00 0;
    dc 0xac 0 0x00 0; dc 0xad 0 0x00 0; dc 0xaf 0 0x00 0; dc 0xb1 0 0x00 0;
    dc 0xb6 0 0x00 0; dc 0xb9 0 0x00 0; dc 0xbf 0 0x00 0; dc 0xcf 0 0x00 1 ];
  [ dc 0x00 1 0x93 1; dc 0x00 1 0x95 1; dc 0x00 1 0x96 1; dc 0x00 1 0x97 1;
    dc 0x00 1 0x98 1; dc 0x00 1 0x9b 1; dc 0x00 1 0x9d 1; dc 0x00 1 0x9e 1;
    dc 0x00 1 0xa5 1; dc 0x00 1 0xa6 1; dc 0x00 1 0xa8 1; dc 0x00 1 0xae 1;
    dc 0x00 1 0xaf 1; dc 0x00 1 0xb4 1; dc 0x00 1 0xb6 1; dc 0x00 1 0xb7 1 ];
  [ dc 0x01 1 0x93 0; dc 0x16 1 0x93 1; dc 0x01 1 0x95 0; dc 0x16 1 0x95 1;
    dc 0x01 1 0x96 0; dc 0x16 1 0x96 1; dc 0x01 1 0x97 0; dc 0x16 1 0x97 1;
    dc 0x01 1 0x98 0; dc 0x16 1 0x98 1; dc 0x01 1 0x9b 0; dc 0x16 1 0x9b 1;
    dc 0x01 1 0x9d 0; dc 0x16 1 0x9d 1; dc 0x01 1 0x9e 0; dc 0x16 1 0x9e 1 ];
  [ dc 0x02 1 0x93 0; dc 0x09 1 0x93 0; dc 0x17 1 0x93 0; dc 0x28 1 0x93 1;
    dc 0x02 1 0x95 0; dc 0x09 1 0x95 0; dc 0x17 1 0x95 0; dc 0x28 1 0x95 1;
    dc 0x02 1 0x96 0; dc 0x09 1 0x96 0; dc 0x17 1 0x96 0; dc 0x28 1 0x96 1;
    dc 0x02 1 0x97 0; dc 0x09 1 0x97 0; dc 0x17 1 0x97 0; dc 0x28 1 0x97 1 ];
  [ dc 0x03 1 0x93 0; dc 0x06 1 0x93 0; dc 0x0a 1 0x93 0; dc 0x0f 1 0x93 0;
    dc 0x18 1 0x93 0; dc 0x1f 1 0x93 0; dc 0x29 1 0x93 0; dc 0x38 1 0x93 1;
    dc 0x03 1 0x95 0; dc 0x06 1 0x95 0; dc 0x0a 1 0x95 0; dc 0x0f 1 0x95 0;
    dc 0x18 1 0x95 0; dc 0x1f 1 0x95 0; dc 0x29 1 0x95 0; dc 0x38 1 0x95 1 ];
  [ dc 0x03 1 0x96 0; dc 0x06 1 0x96 0; dc 0x0a 1 0x96 0; dc 0x0f 1 0x96 0;
    dc 0x18 1 0x96 0; dc 0x1f 1 0x96 0; dc 0x29 1 0x96 0; dc 0x38 1 0x96 1;
    dc 0x03 1 0x97 0; dc 0x06 1 0x97 0; dc 0x0a 1 0x97 0; dc 0x0f 1 0x97 0;
    dc 0x18 1 0x97 0; dc 0x1f 1 0x97 0; dc 0x29 1 0x97 0; dc 0x38 1 0x97 1 ];
  [ dc 0x02 1 0x98 0; dc 0x09 1 0x98 0; dc 0x17 1 0x98 0; dc 0x28 1 0x98 1;
    dc 0x02 1 0x9b 0; dc 0x09 1 0x9b 0; dc 0x17 1 0x9b 0; dc 0x28 1 0x9b 1;
    dc 0x02 1 0x9d 0; dc 0x09 1 0x9d 0; dc 0x17 1 0x9d 0; dc 0x28 1 0x9d 1;
    dc 0x02 1 0x9e 0; dc 0x09 1 0x9e 0; dc 0x17 1 0x9e 0; dc 0x28 1 0x9e 1 ]
].

Definition huff_decode_codes_160 : list (list decode_code) := [
  [ dc 0x03 1 0x98 0; dc 0x06 1 0x98 0; dc 0x0a 1 0x98 0; dc 0x0f 1 0x98 0;
    dc 0x18 1 0x98 0; dc 0x1f 1 0x98 0; dc 0x29 1 0x98 0; dc 0x38 1 0x98 1;
    dc 0x03 1 0x9b 0; dc 0x06 1 0x9b 0; dc 0x0a 1 0x9b 0; dc 0x0f 1 0x9b 0;
    dc 0x18 1 0x9b 0; dc 0x1f 1 0x9b 0; dc 0x29 1 0x9b 0; dc 0x38 1 0x9b 1 ];
  [ dc 0x03 1 0x9d 0; dc 0x06 1 0x9d 0; dc 0x0a 1 0x9d 0; dc 0x0f 1 0x9d 0;
    dc 0x18 1 0x9d 0; dc 0x1f 1 0x9d 0; dc 0x29 1 0x9d 0; dc 0x38 1 0x9d 1;
    dc 0x03 1 0x9e 0; dc 0x06 1 0x9e 0; dc 0x0a 1 0x9e 0; dc 0x0f 1 0x9e 0;
    dc 0x18 1 0x9e 0; dc 0x1f 1 0x9e 0; dc 0x29 1 0x9e 0; dc 0x38 1 0x9e 1 ];
  [ dc 0x01 1 0xa5 0; dc 0x16 1 0xa5 1; dc 0x01 1 0xa6 0; dc 0x16 1 0xa6 1;
    dc 0x01 1 0xa8 0; dc 0x16 1 0xa8 1; dc 0x01 1 0xae 0; dc 0x16 1 0xae 1;
    dc 0x01 1 0xaf 0; dc 0x16 1 0xaf 1; dc 0x01 1 0xb4 0; dc 0x16 1 0xb4 1;
    dc 0x01 1 0xb6 0; dc 0x16 1 0xb6 1; dc 0x01 1 0xb7 0; dc 0x16 1 0xb7 1 ];
  [ dc 0x02 1 0xa5 0; dc 0x09 1 0xa5 0; dc 0x17 1 0xa5 0; dc 0x28 1 0xa5 1;
    dc 0x02 1 0xa6 0; dc 0x09 1 0xa6 0; dc 0x17 1 0xa6 0; dc 0x28 1 0xa6 1;
    dc 0x02 1 0xa8 0; dc 0x09 1 0xa8 0; dc 0x17 1 0xa8 0; dc 0x28 1 0xa8 1;
    dc 0x02 1 0xae 0; dc 0x09 1 0xae 0; dc 0x17 1 0xae 0; dc 0x28 1 0xae 1 ];
  [ dc 0x03 1 0xa5 0; dc 0x06 1 0xa5 0; dc 0x0a 1 0xa5 0; dc 0x0f 1 0xa5 0;
    dc 0x18 1 0xa5 0; dc 0x1f 1 0xa5 0; dc 0x29 1 0xa5 0; dc 0x38 1 0xa5 1;
    dc 0x03 1 0xa6 0; dc 0x06 1 0xa6 0; dc 0x0a 1 0xa6 0; dc 0x0f 1 0xa6 0;
    dc 0x18 1 0xa6 0; dc 0x1f 1 0xa6 0; dc 0x29 1 0xa6 0; dc 0x38 1 0xa6 1 ];
  [ dc 0x03 1 0xa8 0; dc 0x06 1 0xa8 0; dc 0x0a 1 0xa8 0; dc 0x0f 1 0xa8 0;
    dc 0x18 1 0xa8 0; dc 0x1f 1 0xa8 0; dc 0x29 1 0xa8 0; dc 0x38 1 0xa8 1;
    dc 0x03 1 0xae 0; dc 0x06 1 0xae 0; dc 0x0a 1 0xae 0; dc 0x0f 1 0xae 0;
    dc 0x18 1 0xae 0; dc 0x1f 1 0xae 0; dc 0x29 1 0xae 0; dc 0x38 1 0xae 1 ];
  [ dc 0x02 1 0xaf 0; dc 0x09 1 0xaf 0; dc 0x17 1 0xaf 0; dc 0x28 1 0xaf 1;
    dc 0x02 1 0xb4 0; dc 0x09 1 0xb4 0; dc 0x17 1 0xb4 0; dc 0x28 1 0xb4 1;
    dc 0x02 1 0xb6 0; dc 0x09 1 0xb6 0; dc 0x17 1 0xb6 0; dc 0x28 1 0xb6 1;
    dc 0x02 1 0xb7 0; dc 0x09 1 0xb7 0; dc 0x17 1 0xb7 0; dc 0x28 1 0xb7 1 ];
  [ dc 0x03 1 0xaf 0; dc 0x06 1 0xaf 0; dc 0x0a 1 0xaf 0; dc 0x0f 1 0xaf 0;
    dc 0x18 1 0xaf 0; dc 0x1f 1 0xaf 0; dc 0x29 1 0xaf 0; dc 0x38 1 0xaf 1;
    dc 0x03 1 0xb4 0; dc 0x06 1 0xb4 0; dc 0x0a 1 0xb4 0; dc 0x0f 1 0xb4 0;
    dc 0x18 1 0xb4 0; dc 0x1f 1 0xb4 0; dc 0x29 1 0xb4 0; dc 0x38 1 0xb4 1 ];
  [ dc 0x03 1 0xb6 0; dc 0x06 1 0xb6 0; dc 0x0a 1 0xb6 0; dc 0x0f 1 0xb6 0;
    dc 0x18 1 0xb6 0; dc 0x1f 1 0xb6 0; dc 0x29 1 0xb6 0; dc 0x38 1 0xb6 1;
    dc 0x03 1 0xb7 0; dc 0x06 1 0xb7 0; dc 0x0a 1 0xb7 0; dc 0x0f 1 0xb7 0;
    dc 0x18 1 0xb7 0; dc 0x1f 1 0xb7 0; dc 0x29 1 0xb7 0; dc 0x38 1 0xb7 1 ];
  [ dc 0x00 1 0xbc 1; dc 0x00 1 0xbf 1; dc 0x00 1 0xc5 1; dc 0x00 1 0xe7 1;
    dc 0x00 1 0xef 1; dc 0xb0 0 0x00 0; dc 0xb2 0 0x00 0; dc 0xb3 0 0x00 0;
    dc 0xb7 0 0x00 0; dc 0xb8 0 0x00 0; dc 0xba 0 0x00 0; dc 0xbb 0 0x00 0;
    dc 0xc0 0 0x00 0; dc 0xc7 0 0x00 0; dc 0xd0 0 0x00 0; dc 0xdf 0 0x00 1 ]
].

Definition huff_decode_codes_170 : list (list decode_code) := [
  [ dc 0x01 1 0xbc 0; dc 0x16 1 0xbc 1; dc 0x01 1 0xbf 0; dc 0x16 1 0xbf 1;
    dc 0x01 1 0xc5 0; dc 0x16 1 0xc5 1; dc 0x01 1 0xe7 0; dc 0x16 1 0xe7 1;
    dc 0x01 1 0xef 0; dc 0x16 1 0xef 1; dc 0x00 1 0x09 1; dc 0x00 1 0x8e 1;
    dc 0x00 1 0x90 1; dc 0x00 1 0x91 1; dc 0x00 1 0x94 1; dc 0x00 1 0x9f 1 ];
  [ dc 0x02 1 0xbc 0; dc 0x09 1 0xbc 0; dc 0x17 1 0xbc 0; dc 0x28 1 0xbc 1;
    dc 0x02 1 0xbf 0; dc 0x09 1 0xbf 0; dc 0x17 1 0xbf 0; dc 0x28 1 0xbf 1;
    dc 0x02 1 0xc5 0; dc 0x09 1 0xc5 0; dc 0x17 1 0xc5 0; dc 0x28 1 0xc5 1;
    dc 0x02 1 0xe7 0; dc 0x09 1 0xe7 0; dc 0x17 1 0xe7 0; dc 0x28 1 0xe7 1 ];
  [ dc 0x03 1 0xbc 0; dc 0x06 1 0xbc 0; dc 0x0a 1 0xbc 0; dc 0x0f 1 0xbc 0;
    dc 0x18 1 0xbc 0; dc 0x1f 1 0xbc 0; dc 0x29 1 0xbc 0; dc 0x38 1 0xbc 1;
    dc 0x03 1 0xbf 0; dc 0x06 1 0xbf 0; dc 0x0a 1 0xbf 0; dc 0x0f 1 0xbf 0;
    dc 0x18 1 0xbf 0; dc 0x1f 1 0xbf 0; dc 0x29 1 0xbf 0; dc 0x38 1 0xbf 1 ];
  [ dc 0x03 1 0xc5 0; dc 0x06 1 0xc5 0; dc 0x0a 1 0xc5 0; dc 0x0f 1 0xc5 0;
    dc 0x18 1 0xc5 0; dc 0x1f 1 0xc5 0; dc 0x29 1 0xc5 0; dc 0x38 1 0xc5 1;
    dc 0x03 1 0xe7 0; dc 0x06 1 0xe7 0; dc 0x0a 1 0xe7 0; dc 0x0f 1 0xe7 0;
    dc 0x18 1 0xe7 0; dc 0x1f 1 0xe7 0; dc 0x29 1 0xe7 0; dc 0x38 1 0xe7 1 ];
  [ dc 0x02 1 0xef 0; dc 0x09 1 0xef 0; dc 0x17 1 0xef 0; dc 0x28 1 0xef 1;
    dc 0x01 1 0x09 0; dc 0x16 1 0x09 1; dc 0x01 1 0x8e 0; dc 0x16 1 0x8e 1;
    dc 0x01 1 0x90 0; dc 0x16 1 0x90 1; dc 0x01 1 0x91 0; dc 0x16 1 0x91 1;
    dc 0x01 1 0x94 0; dc 0x16 1 0x94 1; dc 0x01 1 0x9f 0; dc 0x16 1 0x9f 1 ];
  [ dc 0x03 1 0xef 0; dc 0x06 1 0xef 0; dc 0x0a 1 0xef 0; dc 0x0f 1 0xef 0;
    dc 0x18 1 0xef 0; dc 0x1f 1 0xef 0; dc 0x29 1 0xef 0; dc 0x38 1 0xef 1;
    dc 0x02 1 0x09 0; dc 0x09 1 0x09 0; dc 0x17 1 0x09 0; dc 0x28 1 0x09 1;
    dc 0x02 1 0x8e 0; dc 0x09 1 0x8e 0; dc 0x17 1 0x8e 0; dc 0x28 1 0x8e 1 ];
  [ dc 0x03 1 0x09 0; dc 0x06 1 0x09 0; dc 0x0a 1 0x09 0; dc 0x0f 1 0x09 0;
    dc 0x18 1 0x09 0; dc 0x1f 1 0x09 0; dc 0x29 1 0x09 0; dc 0x38 1 0x09 1;
    dc 0x03 1 0x8e 0; dc 0x06 1 0x8e 0; dc 0x0a 1 0x8e 0; dc 0x0f 1 0x8e 0;
    dc 0x18 1 0x8e 0; dc 0x1f 1 0x8e 0; dc 0x29 1 0x8e 0; dc 0x38 1 0x8e 1 ];
  [ dc 0x02 1 0x90 0; dc 0x09 1 0x90 0; dc 0x17 1 0x90 0; dc 0x28 1 0x90 1;
    dc 0x02 1 0x91 0; dc 0x09 1 0x91 0; dc 0x17 1 0x91 0; dc 0x28 1 0x91 1;
    dc 0x02 1 0x94 0; dc 0x09 1 0x94 0; dc 0x17 1 0x94 0; dc 0x28 1 0x94 1;
    dc 0x02 1 0x9f 0; dc 0x09 1 0x9f 0; dc 0x17 1 0x9f 0; dc 0x28 1 0x9f 1 ];
  [ dc 0x03 1 0x90 0; dc 0x06 1 0x90 0; dc 0x0a 1 0x90 0; dc 0x0f 1 0x90 0;
    dc 0x18 1 0x90 0; dc 0x1f 1 0x90 0; dc 0x29 1 0x90 0; dc 0x38 1 0x90 1;
    dc 0x03 1 0x91 0; dc 0x06 1 0x91 0; dc 0x0a 1 0x91 0; dc 0x0f 1 0x91 0;
    dc 0x18 1 0x91 0; dc 0x1f 1 0x91 0; dc 0x29 1 0x91 0; dc 0x38 1 0x91 1 ];
  [ dc 0x03 1 0x94 0; dc 0x06 1 0x94 0; dc 0x0a 1 0x94 0; dc 0x0f 1 0x94 0;
    dc 0x18 1 0x94 0; dc 0x1f 1 0x94 0; dc 0x29 1 0x94 0; dc 0x38 1 0x94 1;
    dc 0x03 1 0x9f 0; dc 0x06 1 0x9f 0; dc 0x0a 1 0x9f 0; dc 0x0f 1 0x9f 0;
    dc 0x18 1 0x9f 0; dc 0x1f 1 0x9f 0; dc 0x29 1 0x9f 0; dc 0x38 1 0x9f 1 ]
].

Definition huff_decode_codes_180 : list (list decode_code) := [
  [ dc 0x00 1 0xab 1; dc 0x00 1 0xce 1; dc 0x00 1 0xd7 1; dc 0x00 1 0xe1 1;
    dc 0x00 1 0xec 1; dc 0x00 1 0xed 1; dc 0xbc 0 0x00 0; dc 0xbd 0 0x00 0;
    dc 0xc1 0 0x00 0; dc 0xc4 0 0x00 0; dc 0xc8 0 0x00 0; dc 0xcb 0 0x00 0;
    dc 0xd1 0 0x00 0; dc 0xd8 0 0x00 0; dc 0xe0 0 0x00 0; dc 0xee 0 0x00 1 ];
  [ dc 0x01 1 0xab 0; dc 0x16 1 0xab 1; dc 0x01 1 0xce 0; dc 0x16 1 0xce 1;
    dc 0x01 1 0xd7 0; dc 0x16 1 0xd7 1; dc 0x01 1 0xe1 0; dc 0x16 1 0xe1 1;
    dc 0x01 1 0xec 0; dc 0x16 1 0xec 1; dc 0x01 1 0xed 0; dc 0x16 1 0xed 1;
    dc 0x00 1 0xc7 1; dc 0x00 1 0xcf 1; dc 0x00 1 0xea 1; dc 0x00 1 0xeb 1 ];
  [ dc 0x02 1 0xab 0; dc 0x09 1 0xab 0; dc 0x17 1 0xab 0; dc 0x28 1 0xab 1;
    dc 0x02 1 0xce 0; dc 0x09 1 0xce 0; dc 0x17 1 0xce 0; dc 0x28 1 0xce 1;
    dc 0x02 1 0xd7 0; dc 0x09 1 0xd7 0; dc 0x17 1 0xd7 0; dc 0x28 1 0xd7 1;
    dc 0x02 1 0xe1 0; dc 0x09 1 0xe1 0; dc 0x17 1 0xe1 0; dc 0x28 1 0xe1 1 ];
  [ dc 0x03 1 0xab 0; dc 0x06 1 0xab 0; dc 0x0a 1 0xab 0; dc 0x0f 1 0xab 0;
    dc 0x18 1 0xab 0; dc 0x1f 1 0xab 0; dc 0x29 1 0xab 0; dc 0x38 1 0xab 1;
    dc 0x03 1 0xce 0; dc 0x06 1 0xce 0; dc 0x0a 1 0xce 0; dc 0x0f 1 0xce 0;
    dc 0x18 1 0xce 0; dc 0x1f 1 0xce 0; dc 0x29 1 0xce 0; dc 0x38 1 0xce 1 ];
  [ dc 0x03 1 0xd7 0; dc 0x06 1 0xd7 0; dc 0x0a 1 0xd7 0; dc 0x0f 1 0xd7 0;
    dc 0x18 1 0xd7 0; dc 0x1f 1 0xd7 0; dc 0x29 1 0xd7 0; dc 0x38 1 0xd7 1;
    dc 0x03 1 0xe1 0; dc 0x06 1 0xe1 0; dc 0x0a 1 0xe1 0; dc 0x0f 1 0xe1 0;
    dc 0x18 1 0xe1 0; dc 0x1f 1 0xe1 0; dc 0x29 1 0xe1 0; dc 0x38 1 0xe1 1 ];
  [ dc 0x02 1 0xec 0; dc 0x09 1 0xec 0; dc 0x17 1 0xec 0; dc 0x28 1 0xec 1;
    dc 0x02 1 0xed 0; dc 0x09 1 0xed 0; dc 0x17 1 0xed 0; dc 0x28 1 0xed 1;
    dc 0x01 1 0xc7 0; dc 0x16 1 0xc7 1; dc 0x01 1 0xcf 0; dc 0x16 1 0xcf 1;
    dc 0x01 1 0xea 0; dc 0x16 1 0xea 1; dc 0x01 1 0xeb 0; dc 0x16 1 0xeb 1 ];
  [ dc 0x03 1 0xec 0; dc 0x06 1 0xec 0; dc 0x0a 1 0xec 0; dc 0x0f 1 0xec 0;
    dc 0x18 1 0xec 0; dc 0x1f 1 0xec 0; dc 0x29 1 0xec 0; dc 0x38 1 0xec 1;
    dc 0x03 1 0xed 0; dc 0x06 1 0xed 0; dc 0x0a 1 0xed 0; dc 0x0f 1 0xed 0;
    dc 0x18 1 0xed 0; dc 0x1f 1 0xed 0; dc 0x29 1 0xed 0; dc 0x38 1 0xed 1 ];
  [ dc 0x02 1 0xc7 0; dc 0x09 1 0xc7 0; dc 0x17 1 0xc7 0; dc 0x28 1 0xc7 1;
    dc 0x02 1 0xcf 0; dc 0x09 1 0xcf 0; dc 0x17 1 0xcf 0; dc 0x28 1 0xcf 1;
    dc 0x02 1 0xea 0; dc 0x09 1 0xea 0; dc 0x17 1 0xea 0; dc 0x28 1 0xea 1;
    dc 0x02 1 0xeb 0; dc 0x09 1 0xeb 0; dc 0x17 1 0xeb 0; dc 0x28 1 0xeb 1 ];
  [ dc 0x03 1 0xc7 0; dc 0x06 1 0xc7 0; dc 0x0a 1 0xc7 0; dc 0x0f 1 0xc7 0;
    dc 0x18 1 0xc7 0; dc 0x1f 1 0xc7 0; dc 0x29 1 0xc7 0; dc 0x38 1 0xc7 1;
    dc 0x03 1 0xcf 0; dc 0x06 1 0xcf 0; dc 0x0a 1 0xcf 0; dc 0x0f 1 0xcf 0;
    dc 0x18 1 0xcf 0; dc 0x1f 1 0xcf 0; dc 0x29 1 0xcf 0; dc 0x38 1 0xcf 1 ];
  [ dc 0x03 1 0xea 0; dc 0x06 1 0xea 0; dc 0x0a 1 0xea 0; dc 0x0f 1 0xea 0;
    dc 0x18 1 0xea 0; dc 0x1f 1 0xea 0; dc 0x29 1 0xea 0; dc 0x38 1 0xea 1;
    dc 0x03 1 0xeb 0; dc 0x06 1 0xeb 0; dc 0x0a 1 0xeb 0; dc 0x0f 1 0xeb 0;
    dc 0x18 1 0xeb 0; dc 0x1f 1 0xeb 0; dc 0x29 1 0xeb 0; dc 0x38 1 0xeb 1 ]
].

Definition huff_decode_codes_190 : list (list decode_code) := [
  [ dc 0xc2 0 0x00 0; dc 0xc3 0 0x00 0; dc 0xc5 0 0x00 0; dc 0xc6 0 0x00 0;
    dc 0xc9 0 0x00 0; dc 0xca 0 0x00 0; dc 0xcc 0 0x00 0; dc 0xcd 0 0x00 0;
    dc 0xd2 0 0x00 0; dc 0xd5 0 0x00 0; dc 0xd9 0 0x00 0; dc 0xdc 0 0x00 0;
    dc 0xe1 0 0x00 0; dc 0xe7 0 0x00 0; dc 0xef 0 0x00 0; dc 0xf6 0 0x00 1 ];
  [ dc 0x00 1 0xc0 1; dc 0x00 1 0xc1 1; dc 0x00 1 0xc8 1; dc 0x00 1 0xc9 1;
    dc 0x00 1 0xca 1; dc 0x00 1 0xcd 1; dc 0x00 1 0xd2 1; dc 0x00 1 0xd5 1;
    dc 0x00 1 0xda 1; dc 0x00 1 0xdb 1; dc 0x00 1 0xee 1; dc 0x00 1 0xf0 1;
    dc 0x00 1 0xf2 1; dc 0x00 1 0xf3 1; dc 0x00 1 0xff 1; dc 0xce 0 0x00 0 ];
  [ dc 0x01 1 0xc0 0; dc 0x16 1 0xc0 1; dc 0x01 1 0xc1 0; dc 0x16 1 0xc1 1;
    dc 0x01 1 0xc8 0; dc 0x16 1 0xc8 1; dc 0x01 1 0xc9 0; dc 0x16 1 0xc9 1;
    dc 0x01 1 0xca 0; dc 0x16 1 0xca 1; dc 0x01 1 0xcd 0; dc 0x16 1 0xcd 1;
    dc 0x01 1 0xd2 0; dc 0x16 1 0xd2 1; dc 0x01 1 0xd5 0; dc 0x16 1 0xd5 1 ];
  [ dc 0x02 1 0xc0 0; dc 0x09 1 0xc0 0; dc 0x17 1 0xc0 0; dc 0x28 1 0xc0 1;
    dc 0x02 1 0xc1 0; dc 0x09 1 0xc1 0; dc 0x17 1 0xc1 0; dc 0x28 1 0xc1 1;
    dc 0x02 1 0xc8 0; dc 0x09 1 0xc8 0; dc 0x17 1 0xc8 0; dc 0x28 1 0xc8 1;
    dc 0x02 1 0xc9 0; dc 0x09 1 0xc9 0; dc 0x17 1 0xc9 0; dc 0x28 1 0xc9 1 ];
  [ dc 0x03 1 0xc0 0; dc 0x06 1 0xc0 0; dc 0x0a 1 0xc0 0; dc 0x0f 1 0xc0 0;
    dc 0x18 1 0xc0 0; dc 0x1f 1 0xc0 0; dc 0x29 1 0xc0 0; dc 0x38 1 0xc0 1;
    dc 0x03 1 0xc1 0; dc 0x06 1 0xc1 0; dc 0x0a 1 0xc1 0; dc 0x0f 1 0xc1 0;
    dc 0x18 1 0xc1 0; dc 0x1f 1 0xc1 0; dc 0x29 1 0xc1 0; dc 0x38 1 0xc1 1 ];
  [ dc 0x03 1 0xc8 0; dc 0x06 1 0xc8 0; dc 0x0a 1 0xc8 0; dc 0x0f 1 0xc8 0;
    dc 0x18 1 0xc8 0; dc 0x1f 1 0xc8 0; dc 0x29 1 0xc8 0; dc 0x38 1 0xc8 1;
    dc 0x03 1 0xc9 0; dc 0x06 1 0xc9 0; dc 0x0a 1 0xc9 0; dc 0x0f 1 0xc9 0;
    dc 0x18 1 0xc9 0; dc 0x1f 1 0xc9 0; dc 0x29 1 0xc9 0; dc 0x38 1 0xc9 1 ];
  [ dc 0x02 1 0xca 0; dc 0x09 1 0xca 0; dc 0x17 1 0xca 0; dc 0x28 1 0xca 1;
    dc 0x02 1 0xcd 0; dc 0x09 1 0xcd 0; dc 0x17 1 0xcd 0; dc 0x28 1 0xcd 1;
    dc 0x02 1 0xd2 0; dc 0x09 1 0xd2 0; dc 0x17 1 0xd2 0; dc 0x28 1 0xd2 1;
    dc 0x02 1 0xd5 0; dc 0x09 1 0xd5 0; dc 0x17 1 0xd5 0; dc 0x28 1 0xd5 1 ];
  [ dc 0x03 1 0xca 0; dc 0x06 1 0xca 0; dc 0x0a 1 0xca 0; dc 0x0f 1 0xca 0;
    dc 0x18 1 0xca 0; dc 0x1f 1 0xca 0; dc 0x29 1 0xca 0; dc 0x38 1 0xca 1;
    dc 0x03 1 0xcd 0; dc 0x06 1 0xcd 0; dc 0x0a 1 0xcd 0; dc 0x0f 1 0xcd 0;
    dc 0x18 1 0xcd 0; dc 0x1f 1 0xcd 0; dc 0x29 1 0xcd 0; dc 0x38 1 0xcd 1 ];
  [ dc 0x03 1 0xd2 0; dc 0x06 1 0xd2 0; dc 0x0a 1 0xd2 0; dc 0x0f 1 0xd2 0;
    dc 0x18 1 0xd2 0; dc 0x1f 1 0xd2 0; dc 0x29 1 0xd2 0; dc 0x38 1 0xd2 1;
    dc 0x03 1 0xd5 0; dc 0x06 1 0xd5 0; dc 0x0a 1 0xd5 0; dc 0x0f 1 0xd5 0;
    dc 0x18 1 0xd5 0; dc 0x1f 1 0xd5 0; dc 0x29 1 0xd5 0; dc 0x38 1 0xd5 1 ];
  [ dc 0x01 1 0xda 0; dc 0x16 1 0xda 1; dc 0x01 1 0xdb 0; dc 0x16 1 0xdb 1;
    dc 0x01 1 0xee 0; dc 0x16 1 0xee 1; dc 0x01 1 0xf0 0; dc 0x16 1 0xf0 1;
    dc 0x01 1 0xf2 0; dc 0x16 1 0xf2 1; dc 0x01 1 0xf3 0; dc 0x16 1 0xf3 1;
    dc 0x01 1 0xff 0; dc 0x16 1 0xff 1; dc 0x00 1 0xcb 1; dc 0x00 1 0xcc 1 ]
].

Definition huff_decode_codes_200 : list (list decode_code) := [
  [ dc 0x02 1 0xda 0; dc 0x09 1 0xda 0; dc 0x17 1 0xda 0; dc 0x28 1 0xda 1;
    dc 0x02 1 0xdb 0; dc 0x09 1 0xdb 0; dc 0x17 1 0xdb 0; dc 0x28 1 0xdb 1;
    dc 0x02 1 0xee 0; dc 0x09 1 0xee 0; dc 0x17 1 0xee 0; dc 0x28 1 0xee 1;
    dc 0x02 1 0xf0 0; dc 0x09 1 0xf0 0; dc 0x17 1 0xf0 0; dc 0x28 1 0xf0 1 ];
  [ dc 0x03 1 0xda 0; dc 0x06 1 0xda 0; dc 0x0a 1 0xda 0; dc 0x0f 1 0xda 0;
    dc 0x18 1 0xda 0; dc 0x1f 1 0xda 0; dc 0x29 1 0xda 0; dc 0x38 1 0xda 1;
    dc 0x03 1 0xdb 0; dc 0x06 1 0xdb 0; dc 0x0a 1 0xdb 0; dc 0x0f 1 0xdb 0;
    dc 0x18 1 0xdb 0; dc 0x1f 1 0xdb 0; dc 0x29 1 0xdb 0; dc 0x38 1 0xdb 1 ];
  [ dc 0x03 1 0xee 0; dc 0x06 1 0xee 0; dc 0x0a 1 0xee 0; dc 0x0f 1 0xee 0;
    dc 0x18 1 0xee 0; dc 0x1f 1 0xee 0; dc 0x29 1 0xee 0; dc 0x38 1 0xee 1;
    dc 0x03 1 0xf0 0; dc 0x06 1 0xf0 0; dc 0x0a 1 0xf0 0; dc 0x0f 1 0xf0 0;
    dc 0x18 1 0xf0 0; dc 0x1f 1 0xf0 0; dc 0x29 1 0xf0 0; dc 0x38 1 0xf0 1 ];
  [ dc 0x02 1 0xf2 0; dc 0x09 1 0xf2 0; dc 0x17 1 0xf2 0; dc 0x28 1 0xf2 1;
    dc 0x02 1 0xf3 0; dc 0x09 1 0xf3 0; dc 0x17 1 0xf3 0; dc 0x28 1 0xf3 1;
    dc 0x02 1 0xff 0; dc 0x09 1 0xff 0; dc 0x17 1 0xff 0; dc 0x28 1 0xff 1;
    dc 0x01 1 0xcb 0; dc 0x16 1 0xcb 1; dc 0x01 1 0xcc 0; dc 0x16 1 0xcc 1 ];
  [ dc 0x03 1 0xf2 0; dc 0x06 1 0xf2 0; dc 0x0a 1 0xf2 0; dc 0x0f 1 0xf2 0;
    dc 0x18 1 0xf2 0; dc 0x1f 1 0xf2 0; dc 0x29 1 0xf2 0; dc 0x38 1 0xf2 1;
    dc 0x03 1 0xf3 0; dc 0x06 1 0xf3 0; dc 0x0a 1 0xf3 0; dc 0x0f 1 0xf3 0;
    dc 0x18 1 0xf3 0; dc 0x1f 1 0xf3 0; dc 0x29 1 0xf3 0; dc 0x38 1 0xf3 1 ];
  [ dc 0x03 1 0xff 0; dc 0x06 1 0xff 0; dc 0x0a 1 0xff 0; dc 0x0f 1 0xff 0;
    dc 0x18 1 0xff 0; dc 0x1f 1 0xff 0; dc 0x29 1 0xff 0; dc 0x38 1 0xff 1;
    dc 0x02 1 0xcb 0; dc 0x09 1 0xcb 0; dc 0x17 1 0xcb 0; dc 0x28 1 0xcb 1;
    dc 0x02 1 0xcc 0; dc 0x09 1 0xcc 0; dc 0x17 1 0xcc 0; dc 0x28 1 0xcc 1 ];
  [ dc 0x03 1 0xcb 0; dc 0x06 1 0xcb 0; dc 0x0a 1 0xcb 0; dc 0x0f 1 0xcb 0;
    dc 0x18 1 0xcb 0; dc 0x1f 1 0xcb 0; dc 0x29 1 0xcb 0; dc 0x38 1 0xcb 1;
    dc 0x03 1 0xcc 0; dc 0x06 1 0xcc 0; dc 0x0a 1 0xcc 0; dc 0x0f 1 0xcc 0;
    dc 0x18 1 0xcc 0; dc 0x1f 1 0xcc 0; dc 0x29 1 0xcc 0; dc 0x38 1 0xcc 1 ];
  [ dc 0xd3 0 0x00 0; dc 0xd4 0 0x00 0; dc 0xd6 0 0x00 0; dc 0xd7 0 0x00 0;
    dc 0xda 0 0x00 0; dc 0xdb 0 0x00 0; dc 0xdd 0 0x00 0; dc 0xde 0 0x00 0;
    dc 0xe2 0 0x00 0; dc 0xe4 0 0x00 0; dc 0xe8 0 0x00 0; dc 0xeb 0 0x00 0;
    dc 0xf0 0 0x00 0; dc 0xf3 0 0x00 0; dc 0xf7 0 0x00 0; dc 0xfa 0 0x00 1 ];
  [ dc 0x00 1 0xd3 1; dc 0x00 1 0xd4 1; dc 0x00 1 0xd6 1; dc 0x00 1 0xdd 1;
    dc 0x00 1 0xde 1; dc 0x00 1 0xdf 1; dc 0x00 1 0xf1 1; dc 0x00 1 0xf4 1;
    dc 0x00 1 0xf5 1; dc 0x00 1 0xf6 1; dc 0x00 1 0xf7 1; dc 0x00 1 0xf8 1;
    dc 0x00 1 0xfa 1; dc 0x00 1 0xfb 1; dc 0x00 1 0xfc 1; dc 0x00 1 0xfd 1 ];
  [ dc 0x01 1 0xd3 0; dc 0x16 1 0xd3 1; dc 0x01 1 0xd4 0; dc 0x16 1 0xd4 1;
    dc 0x01 1 0xd6 0; dc 0x16 1 0xd6 1; dc 0x01 1 0xdd 0; dc 0x16 1 0xdd 1;
    dc 0x01 1 0xde 0; dc 0x16 1 0xde 1; dc 0x01 1 0xdf 0; dc 0x16 1 0xdf 1;
    dc 0x01 1 0xf1 0; dc 0x16 1 0xf1 1; dc 0x01 1 0xf4 0; dc 0x16 1 0xf4 1 ]
].

Definition huff_decode_codes_210 : list (list decode_code) := [
  [ dc 0x02 1 0xd3 0; dc 0x09 1 0xd3 0; dc 0x17 1 0xd3 0; dc 0x28 1 0xd3 1;
    dc 0x02 1 0xd4 0; dc 0x09 1 0xd4 0; dc 0x17 1 0xd4 0; dc 0x28 1 0xd4 1;
    dc 0x02 1 0xd6 0; dc 0x09 1 0xd6 0; dc 0x17 1 0xd6 0; dc 0x28 1 0xd6 1;
    dc 0x02 1 0xdd 0; dc 0x09 1 0xdd 0; dc 0x17 1 0xdd 0; dc 0x28 1 0xdd 1 ];
  [ dc 0x03 1 0xd3 0; dc 0x06 1 0xd3 0; dc 0x0a 1 0xd3 0; dc 0x0f 1 0xd3 0;
    dc 0x18 1 0xd3 0; dc 0x1f 1 0xd3 0; dc 0x29 1 0xd3 0; dc 0x38 1 0xd3 1;
    dc 0x03 1 0xd4 0; dc 0x06 1 0xd4 0; dc 0x0a 1 0xd4 0; dc 0x0f 1 0xd4 0;
    dc 0x18 1 0xd4 0; dc 0x1f 1 0xd4 0; dc 0x29 1 0xd4 0; dc 0x38 1 0xd4 1 ];
  [ dc 0x03 1 0xd6 0; dc 0x06 1 0xd6 0; dc 0x0a 1 0xd6 0; dc 0x0f 1 0xd6 0;
    dc 0x18 1 0xd6 0; dc 0x1f 1 0xd6 0; dc 0x29 1 0xd6 0; dc 0x38 1 0xd6 1;
    dc 0x03 1 0xdd 0; dc 0x06 1 0xdd 0; dc 0x0a 1 0xdd 0; dc 0x0f 1 0xdd 0;
    dc 0x18 1 0xdd 0; dc 0x1f 1 0xdd 0; dc 0x29 1 0xdd 0; dc 0x38 1 0xdd 1 ];
  [ dc 0x02 1 0xde 0; dc 0x09 1 0xde 0; dc 0x17 1 0xde 0; dc 0x28 1 0xde 1;
    dc 0x02 1 0xdf 0; dc 0x09 1 0xdf 0; dc 0x17 1 0xdf 0; dc 0x28 1 0xdf 1;
    dc 0x02 1 0xf1 0; dc 0x09 1 0xf1 0; dc 0x17 1 0xf1 0; dc 0x28 1 0xf1 1;
    dc 0x02 1 0xf4 0; dc 0x09 1 0xf4 0; dc 0x17 1 0xf4 0; dc 0x28 1 0xf4 1 ];
  [ dc 0x03 1 0xde 0; dc 0x06 1 0xde 0; dc 0x0a 1 0xde 0; dc 0x0f 1 0xde 0;
    dc 0x18 1 0xde 0; dc 0x1f 1 0xde 0; dc 0x29 1 0xde 0; dc 0x38 1 0xde 1;
    dc 0x03 1 0xdf 0; dc 0x06 1 0xdf 0; dc 0x0a 1 0xdf 0; dc 0x0f 1 0xdf 0;
    dc 0x18 1 0xdf 0; dc 0x1f 1 0xdf 0; dc 0x29 1 0xdf 0; dc 0x38 1 0xdf 1 ];
  [ dc 0x03 1 0xf1 0; dc 0x06 1 0xf1 0; dc 0x0a 1 0xf1 0; dc 0x0f 1 0xf1 0;
    dc 0x18 1 0xf1 0; dc 0x1f 1 0xf1 0; dc 0x29 1 0xf1 0; dc 0x38 1 0xf1 1;
    dc 0x03 1 0xf4 0; dc 0x06 1 0xf4 0; dc 0x0a 1 0xf4 0; dc 0x0f 1 0xf4 0;
    dc 0x18 1 0xf4 0; dc 0x1f 1 0xf4 0; dc 0x29 1 0xf4 0; dc 0x38 1 0xf4 1 ];
  [ dc 0x01 1 0xf5 0; dc 0x16 1 0xf5 1; dc 0x01 1 0xf6 0; dc 0x16 1 0xf6 1;
    dc 0x01 1 0xf7 0; dc 0x16 1 0xf7 1; dc 0x01 1 0xf8 0; dc 0x16 1 0xf8 1;
    dc 0x01 1 0xfa 0; dc 0x16 1 0xfa 1; dc 0x01 1 0xfb 0; dc 0x16 1 0xfb 1;
    dc 0x01 1 0xfc 0; dc 0x16 1 0xfc 1; dc 0x01 1 0xfd 0; dc 0x16 1 0xfd 1 ];
  [ dc 0x02 1 0xf5 0; dc 0x09 1 0xf5 0; dc 0x17 1 0xf5 0; dc 0x28 1 0xf5 1;
    dc 0x02 1 0xf6 0; dc 0x09 1 0xf6 0; dc 0x17 1 0xf6 0; dc 0x28 1 0xf6 1;
    dc 0x02 1 0xf7 0; dc 0x09 1 0xf7 0; dc 0x17 1 0xf7 0; dc 0x28 1 0xf7 1;
    dc 0x02 1 0xf8 0; dc 0x09 1 0xf8 0; dc 0x17 1 0xf8 0; dc 0x28 1 0xf8 1 ];
  [ dc 0x03 1 0xf5 0; dc 0x06 1 0xf5 0; dc 0x0a 1 0xf5 0; dc 0x0f 1 0xf5 0;
    dc 0x18 1 0xf5 0; dc 0x1f 1 0xf5 0; dc 0x29 1 0xf5 0; dc 0x38 1 0xf5 1;
    dc 0x03 1 0xf6 0; dc 0x06 1 0xf6 0; dc 0x0a 1 0xf6 0; dc 0x0f 1 0xf6 0;
    dc 0x18 1 0xf6 0; dc 0x1f 1 0xf6 0; dc 0x29 1 0xf6 0; dc 0x38 1 0xf6 1 ];
  [ dc 0x03 1 0xf7 0; dc 0x06 1 0xf7 0; dc 0x0a 1 0xf7 0; dc 0x0f 1 0xf7 0;
    dc 0x18 1 0xf7 0; dc 0x1f 1 0xf7 0; dc 0x29 1 0xf7 0; dc 0x38 1 0xf7 1;
    dc 0x03 1 0xf8 0; dc 0x06 1 0xf8 0; dc 0x0a 1 0xf8 0; dc 0x0f 1 0xf8 0;
    dc 0x18 1 0xf8 0; dc 0x1f 1 0xf8 0; dc 0x29 1 0xf8 0; dc 0x38 1 0xf8 1 ]
].

Definition huff_decode_codes_220 : list (list decode_code) := [
  [ dc 0x02 1 0xfa 0; dc 0x09 1 0xfa 0; dc 0x17 1 0xfa 0; dc 0x28 1 0xfa 1;
    dc 0x02 1 0xfb 0; dc 0x09 1 0xfb 0; dc 0x17 1 0xfb 0; dc 0x28 1 0xfb 1;
    dc 0x02 1 0xfc 0; dc 0x09 1 0xfc 0; dc 0x17 1 0xfc 0; dc 0x28 1 0xfc 1;
    dc 0x02 1 0xfd 0; dc 0x09 1 0xfd 0; dc 0x17 1 0xfd 0; dc 0x28 1 0xfd 1 ];
  [ dc 0x03 1 0xfa 0; dc 0x06 1 0xfa 0; dc 0x0a 1 0xfa 0; dc 0x0f 1 0xfa 0;
    dc 0x18 1 0xfa 0; dc 0x1f 1 0xfa 0; dc 0x29 1 0xfa 0; dc 0x38 1 0xfa 1;
    dc 0x03 1 0xfb 0; dc 0x06 1 0xfb 0; dc 0x0a 1 0xfb 0; dc 0x0f 1 0xfb 0;
    dc 0x18 1 0xfb 0; dc 0x1f 1 0xfb 0; dc 0x29 1 0xfb 0; dc 0x38 1 0xfb 1 ];
  [ dc 0x03 1 0xfc 0; dc 0x06 1 0xfc 0; dc 0x0a 1 0xfc 0; dc 0x0f 1 0xfc 0;
    dc 0x18 1 0xfc 0; dc 0x1f 1 0xfc 0; dc 0x29 1 0xfc 0; dc 0x38 1 0xfc 1;
    dc 0x03 1 0xfd 0; dc 0x06 1 0xfd 0; dc 0x0a 1 0xfd 0; dc 0x0f 1 0xfd 0;
    dc 0x18 1 0xfd 0; dc 0x1f 1 0xfd 0; dc 0x29 1 0xfd 0; dc 0x38 1 0xfd 1 ];
  [ dc 0x00 1 0xfe 1; dc 0xe3 0 0x00 0; dc 0xe5 0 0x00 0; dc 0xe6 0 0x00 0;
    dc 0xe9 0 0x00 0; dc 0xea 0 0x00 0; dc 0xec 0 0x00 0; dc 0xed 0 0x00 0;
    dc 0xf1 0 0x00 0; dc 0xf2 0 0x00 0; dc 0xf4 0 0x00 0; dc 0xf5 0 0x00 0;
    dc 0xf8 0 0x00 0; dc 0xf9 0 0x00 0; dc 0xfb 0 0x00 0; dc 0xfc 0 0x00 1 ];
  [ dc 0x01 1 0xfe 0; dc 0x16 1 0xfe 1; dc 0x00 1 0x02 1; dc 0x00 1 0x03 1;
    dc 0x00 1 0x04 1; dc 0x00 1 0x05 1; dc 0x00 1 0x06 1; dc 0x00 1 0x07 1;
    dc 0x00 1 0x08 1; dc 0x00 1 0x0b 1; dc 0x00 1 0x0c 1; dc 0x00 1 0x0e 1;
    dc 0x00 1 0x0f 1; dc 0x00 1 0x10 1; dc 0x00 1 0x11 1; dc 0x00 1 0x12 1 ];
  [ dc 0x02 1 0xfe 0; dc 0x09 1 0xfe 0; dc 0x17 1 0xfe 0; dc 0x28 1 0xfe 1;
    dc 0x01 1 0x02 0; dc 0x16 1 0x02 1; dc 0x01 1 0x03 0; dc 0x16 1 0x03 1;
    dc 0x01 1 0x04 0; dc 0x16 1 0x04 1; dc 0x01 1 0x05 0; dc 0x16 1 0x05 1;
    dc 0x01 1 0x06 0; dc 0x16 1 0x06 1; dc 0x01 1 0x07 0; dc 0x16 1 0x07 1 ];
  [ dc 0x03 1 0xfe 0; dc 0x06 1 0xfe 0; dc 0x0a 1 0xfe 0; dc 0x0f 1 0xfe 0;
    dc 0x18 1 0xfe 0; dc 0x1f 1 0xfe 0; dc 0x29 1 0xfe 0; dc 0x38 1 0xfe 1;
    dc 0x02 1 0x02 0; dc 0x09 1 0x02 0; dc 0x17 1 0x02 0; dc 0x28 1 0x02 1;
    dc 0x02 1 0x03 0; dc 0x09 1 0x03 0; dc 0x17 1 0x03 0; dc 0x28 1 0x03 1 ];
  [ dc 0x03 1 0x02 0; dc 0x06 1 0x02 0; dc 0x0a 1 0x02 0; dc 0x0f 1 0x02 0;
    dc 0x18 1 0x02 0; dc 0x1f 1 0x02 0; dc 0x29 1 0x02 0; dc 0x38 1 0x02 1;
    dc 0x03 1 0x03 0; dc 0x06 1 0x03 0; dc 0x0a 1 0x03 0; dc 0x0f 1 0x03 0;
    dc 0x18 1 0x03 0; dc 0x1f 1 0x03 0; dc 0x29 1 0x03 0; dc 0x38 1 0x03 1 ];
  [ dc 0x02 1 0x04 0; dc 0x09 1 0x04 0; dc 0x17 1 0x04 0; dc 0x28 1 0x04 1;
    dc 0x02 1 0x05 0; dc 0x09 1 0x05 0; dc 0x17 1 0x05 0; dc 0x28 1 0x05 1;
    dc 0x02 1 0x06 0; dc 0x09 1 0x06 0; dc 0x17 1 0x06 0; dc 0x28 1 0x06 1;
    dc 0x02 1 0x07 0; dc 0x09 1 0x07 0; dc 0x17 1 0x07 0; dc 0x28 1 0x07 1 ];
  [ dc 0x03 1 0x04 0; dc 0x06 1 0x04 0; dc 0x0a 1 0x04 0; dc 0x0f 1 0x04 0;
    dc 0x18 1 0x04 0; dc 0x1f 1 0x04 0; dc 0x29 1 0x04 0; dc 0x38 1 0x04 1;
    dc 0x03 1 0x05 0; dc 0x06 1 0x05 0; dc 0x0a 1 0x05 0; dc 0x0f 1 0x05 0;
    dc 0x18 1 0x05 0; dc 0x1f 1 0x05 0; dc 0x29 1 0x05 0; dc 0x38 1 0x05 1 ]
].

Definition huff_decode_codes_230 : list (list decode_code) := [
  [ dc 0x03 1 0x06 0; dc 0x06 1 0x06 0; dc 0x0a 1 0x06 0; dc 0x0f 1 0x06 0;
    dc 0x18 1 0x06 0; dc 0x1f 1 0x06 0; dc 0x29 1 0x06 0; dc 0x38 1 0x06 1;
    dc 0x03 1 0x07 0; dc 0x06 1 0x07 0; dc 0x0a 1 0x07 0; dc 0x0f 1 0x07 0;
    dc 0x18 1 0x07 0; dc 0x1f 1 0x07 0; dc 0x29 1 0x07 0; dc 0x38 1 0x07 1 ];
  [ dc 0x01 1 0x08 0; dc 0x16 1 0x08 1; dc 0x01 1 0x0b 0; dc 0x16 1 0x0b 1;
    dc 0x01 1 0x0c 0; dc 0x16 1 0x0c 1; dc 0x01 1 0x0e 0; dc 0x16 1 0x0e 1;
    dc 0x01 1 0x0f 0; dc 0x16 1 0x0f 1; dc 0x01 1 0x10 0; dc 0x16 1 0x10 1;
    dc 0x01 1 0x11 0; dc 0x16 1 0x11 1; dc 0x01 1 0x12 0; dc 0x16 1 0x12 1 ];
  [ dc 0x02 1 0x08 0; dc 0x09 1 0x08 0; dc 0x17 1 0x08 0; dc 0x28 1 0x08 1;
    dc 0x02 1 0x0b 0; dc 0x09 1 0x0b 0; dc 0x17 1 0x0b 0; dc 0x28 1 0x0b 1;
    dc 0x02 1 0x0c 0; dc 0x09 1 0x0c 0; dc 0x17 1 0x0c 0; dc 0x28 1 0x0c 1;
    dc 0x02 1 0x0e 0; dc 0x09 1 0x0e 0; dc 0x17 1 0x0e 0; dc 0x28 1 0x0e 1 ];
  [ dc 0x03 1 0x08 0; dc 0x06 1 0x08 0; dc 0x0a 1 0x08 0; dc 0x0f 1 0x08 0;
    dc 0x18 1 0x08 0; dc 0x1f 1 0x08 0; dc 0x29 1 0x08 0; dc 0x38 1 0x08 1;
    dc 0x03 1 0x0b 0; dc 0x06 1 0x0b 0; dc 0x0a 1 0x0b 0; dc 0x0f 1 0x0b 0;
    dc 0x18 1 0x0b 0; dc 0x1f 1 0x0b 0; dc 0x29 1 0x0b 0; dc 0x38 1 0x0b 1 ];
  [ dc 0x03 1 0x0c 0; dc 0x06 1 0x0c 0; dc 0x0a 1 0x0c 0; dc 0x0f 1 0x0c 0;
    dc 0x18 1 0x0c 0; dc 0x1f 1 0x0c 0; dc 0x29 1 0x0c 0; dc 0x38 1 0x0c 1;
    dc 0x03 1 0x0e 0; dc 0x06 1 0x0e 0; dc 0x0a 1 0x0e 0; dc 0x0f 1 0x0e 0;
    dc 0x18 1 0x0e 0; dc 0x1f 1 0x0e 0; dc 0x29 1 0x0e 0; dc 0x38 1 0x0e 1 ];
  [ dc 0x02 1 0x0f 0; dc 0x09 1 0x0f 0; dc 0x17 1 0x0f 0; dc 0x28 1 0x0f 1;
    dc 0x02 1 0x10 0; dc 0x09 1 0x10 0; dc 0x17 1 0x10 0; dc 0x28 1 0x10 1;
    dc 0x02 1 0x11 0; dc 0x09 1 0x11 0; dc 0x17 1 0x11 0; dc 0x28 1 0x11 1;
    dc 0x02 1 0x12 0; dc 0x09 1 0x12 0; dc 0x17 1 0x12 0; dc 0x28 1 0x12 1 ];
  [ dc 0x03 1 0x0f 0; dc 0x06 1 0x0f 0; dc 0x0a 1 0x0f 0; dc 0x0f 1 0x0f 0;
    dc 0x18 1 0x0f 0; dc 0x1f 1 0x0f 0; dc 0x29 1 0x0f 0; dc 0x38 1 0x0f 1;
    dc 0x03 1 0x10 0; dc 0x06 1 0x10 0; dc 0x0a 1 0x10 0; dc 0x0f 1 0x10 0;
    dc 0x18 1 0x10 0; dc 0x1f 1 0x10 0; dc 0x29 1 0x10 0; dc 0x38 1 0x10 1 ];
  [ dc 0x03 1 0x11 0; dc 0x06 1 0x11 0; dc 0x0a 1 0x11 0; dc 0x0f 1 0x11 0;
    dc 0x18 1 0x11 0; dc 0x1f 1 0x11 0; dc 0x29 1 0x11 0; dc 0x38 1 0x11 1;
    dc 0x03 1 0x12 0; dc 0x06 1 0x12 0; dc 0x0a 1 0x12 0; dc 0x0f 1 0x12 0;
    dc 0x18 1 0x12 0; dc 0x1f 1 0x12 0; dc 0x29 1 0x12 0; dc 0x38 1 0x12 1 ];
  [ dc 0x00 1 0x13 1; dc 0x00 1 0x14 1; dc 0x00 1 0x15 1; dc 0x00 1 0x17 1;
    dc 0x00 1 0x18 1; dc 0x00 1 0x19 1; dc 0x00 1 0x1a 1; dc 0x00 1 0x1b 1;
    dc 0x00 1 0x1c 1; dc 0x00 1 0x1d 1; dc 0x00 1 0x1e 1; dc 0x00 1 0x1f 1;
    dc 0x00 1 0x7f 1; dc 0x00 1 0xdc 1; dc 0x00 1 0xf9 1; dc 0xfd 0 0x00 1 ];
  [ dc 0x01 1 0x13 0; dc 0x16 1 0x13 1; dc 0x01 1 0x14 0; dc 0x16 1 0x14 1;
    dc 0x01 1 0x15 0; dc 0x16 1 0x15 1; dc 0x01 1 0x17 0; dc 0x16 1 0x17 1;
    dc 0x01 1 0x18 0; dc 0x16 1 0x18 1; dc 0x01 1 0x19 0; dc 0x16 1 0x19 1;
    dc 0x01 1 0x1a 0; dc 0x16 1 0x1a 1; dc 0x01 1 0x1b 0; dc 0x16 1 0x1b 1 ]
].

Definition huff_decode_codes_240 : list (list decode_code) := [
  [ dc 0x02 1 0x13 0; dc 0x09 1 0x13 0; dc 0x17 1 0x13 0; dc 0x28 1 0x13 1;
    dc 0x02 1 0x14 0; dc 0x09 1 0x14 0; dc 0x17 1 0x14 0; dc 0x28 1 0x14 1;
    dc 0x02 1 0x15 0; dc 0x09 1 0x15 0; dc 0x17 1 0x15 0; dc 0x28 1 0x15 1;
    dc 0x02 1 0x17 0; dc 0x09 1 0x17 0; dc 0x17 1 0x17 0; dc 0x28 1 0x17 1 ];
  [ dc 0x03 1 0x13 0; dc 0x06 1 0x13 0; dc 0x0a 1 0x13 0; dc 0x0f 1 0x13 0;
    dc 0x18 1 0x13 0; dc 0x1f 1 0x13 0; dc 0x29 1 0x13 0; dc 0x38 1 0x13 1;
    dc 0x03 1 0x14 0; dc 0x06 1 0x14 0; dc 0x0a 1 0x14 0; dc 0x0f 1 0x14 0;
    dc 0x18 1 0x14 0; dc 0x1f 1 0x14 0; dc 0x29 1 0x14 0; dc 0x38 1 0x14 1 ];
  [ dc 0x03 1 0x15 0; dc 0x06 1 0x15 0; dc 0x0a 1 0x15 0; dc 0x0f 1 0x15 0;
    dc 0x18 1 0x15 0; dc 0x1f 1 0x15 0; dc 0x29 1 0x15 0; dc 0x38 1 0x15 1;
    dc 0x03 1 0x17 0; dc 0x06 1 0x17 0; dc 0x0a 1 0x17 0; dc 0x0f 1 0x17 0;
    dc 0x18 1 0x17 0; dc 0x1f 1 0x17 0; dc 0x29 1 0x17 0; dc 0x38 1 0x17 1 ];
  [ dc 0x02 1 0x18 0; dc 0x09 1 0x18 0; dc 0x17 1 0x18 0; dc 0x28 1 0x18 1;
    dc 0x02 1 0x19 0; dc 0x09 1 0x19 0; dc 0x17 1 0x19 0; dc 0x28 1 0x19 1;
    dc 0x02 1 0x1a 0; dc 0x09 1 0x1a 0; dc 0x17 1 0x1a 0; dc 0x28 1 0x1a 1;
    dc 0x02 1 0x1b 0; dc 0x09 1 0x1b 0; dc 0x17 1 0x1b 0; dc 0x28 1 0x1b 1 ];
  [ dc 0x03 1 0x18 0; dc 0x06 1 0x18 0; dc 0x0a 1 0x18 0; dc 0x0f 1 0x18 0;
    dc 0x18 1 0x18 0; dc 0x1f 1 0x18 0; dc 0x29 1 0x18 0; dc 0x38 1 0x18 1;
    dc 0x03 1 0x19 0; dc 0x06 1 0x19 0; dc 0x0a 1 0x19 0; dc 0x0f 1 0x19 0;
    dc 0x18 1 0x19 0; dc 0x1f 1 0x19 0; dc 0x29 1 0x19 0; dc 0x38 1 0x19 1 ];
  [ dc 0x03 1 0x1a 0; dc 0x06 1 0x1a 0; dc 0x0a 1 0x1a 0; dc 0x0f 1 0x1a 0;
    dc 0x18 1 0x1a 0; dc 0x1f 1 0x1a 0; dc 0x29 1 0x1a 0; dc 0x38 1 0x1a 1;
    dc 0x03 1 0x1b 0; dc 0x06 1 0x1b 0; dc 0x0a 1 0x1b 0; dc 0x0f 1 0x1b 0;
    dc 0x18 1 0x1b 0; dc 0x1f 1 0x1b 0; dc 0x29 1 0x1b 0; dc 0x38 1 0x1b 1 ];
  [ dc 0x01 1 0x1c 0; dc 0x16 1 0x1c 1; dc 0x01 1 0x1d 0; dc 0x16 1 0x1d 1;
    dc 0x01 1 0x1e 0; dc 0x16 1 0x1e 1; dc 0x01 1 0x1f 0; dc 0x16 1 0x1f 1;
    dc 0x01 1 0x7f 0; dc 0x16 1 0x7f 1; dc 0x01 1 0xdc 0; dc 0x16 1 0xdc 1;
    dc 0x01 1 0xf9 0; dc 0x16 1 0xf9 1; dc 0xfe 0 0x00 0; dc 0xff 0 0x00 1 ];
  [ dc 0x02 1 0x1c 0; dc 0x09 1 0x1c 0; dc 0x17 1 0x1c 0; dc 0x28 1 0x1c 1;
    dc 0x02 1 0x1d 0; dc 0x09 1 0x1d 0; dc 0x17 1 0x1d 0; dc 0x28 1 0x1d 1;
    dc 0x02 1 0x1e 0; dc 0x09 1 0x1e 0; dc 0x17 1 0x1e 0; dc 0x28 1 0x1e 1;
    dc 0x02 1 0x1f 0; dc 0x09 1 0x1f 0; dc 0x17 1 0x1f 0; dc 0x28 1 0x1f 1 ];
  [ dc 0x03 1 0x1c 0; dc 0x06 1 0x1c 0; dc 0x0a 1 0x1c 0; dc 0x0f 1 0x1c 0;
    dc 0x18 1 0x1c 0; dc 0x1f 1 0x1c 0; dc 0x29 1 0x1c 0; dc 0x38 1 0x1c 1;
    dc 0x03 1 0x1d 0; dc 0x06 1 0x1d 0; dc 0x0a 1 0x1d 0; dc 0x0f 1 0x1d 0;
    dc 0x18 1 0x1d 0; dc 0x1f 1 0x1d 0; dc 0x29 1 0x1d 0; dc 0x38 1 0x1d 1 ];
  [ dc 0x03 1 0x1e 0; dc 0x06 1 0x1e 0; dc 0x0a 1 0x1e 0; dc 0x0f 1 0x1e 0;
    dc 0x18 1 0x1e 0; dc 0x1f 1 0x1e 0; dc 0x29 1 0x1e 0; dc 0x38 1 0x1e 1;
    dc 0x03 1 0x1f 0; dc 0x06 1 0x1f 0; dc 0x0a 1 0x1f 0; dc 0x0f 1 0x1f 0;
    dc 0x18 1 0x1f 0; dc 0x1f 1 0x1f 0; dc 0x29 1 0x1f 0; dc 0x38 1 0x1f 1 ]
].

Definition huff_decode_codes_250 : list (list decode_code) := [
  [ dc 0x02 1 0x7f 0; dc 0x09 1 0x7f 0; dc 0x17 1 0x7f 0; dc 0x28 1 0x7f 1;
    dc 0x02 1 0xdc 0; dc 0x09 1 0xdc 0; dc 0x17 1 0xdc 0; dc 0x28 1 0xdc 1;
    dc 0x02 1 0xf9 0; dc 0x09 1 0xf9 0; dc 0x17 1 0xf9 0; dc 0x28 1 0xf9 1;
    dc 0x00 1 0x0a 1; dc 0x00 1 0x0d 1; dc 0x00 1 0x16 1; dc 0xfa 0 0x00 0 ];
  [ dc 0x03 1 0x7f 0; dc 0x06 1 0x7f 0; dc 0x0a 1 0x7f 0; dc 0x0f 1 0x7f 0;
    dc 0x18 1 0x7f 0; dc 0x1f 1 0x7f 0; dc 0x29 1 0x7f 0; dc 0x38 1 0x7f 1;
    dc 0x03 1 0xdc 0; dc 0x06 1 0xdc 0; dc 0x0a 1 0xdc 0; dc 0x0f 1 0xdc 0;
    dc 0x18 1 0xdc 0; dc 0x1f 1 0xdc 0; dc 0x29 1 0xdc 0; dc 0x38 1 0xdc 1 ];
  [ dc 0x03 1 0xf9 0; dc 0x06 1 0xf9 0; dc 0x0a 1 0xf9 0; dc 0x0f 1 0xf9 0;
    dc 0x18 1 0xf9 0; dc 0x1f 1 0xf9 0; dc 0x29 1 0xf9 0; dc 0x38 1 0xf9 1;
    dc 0x01 1 0x0a 0; dc 0x16 1 0x0a 1; dc 0x01 1 0x0d 0; dc 0x16 1 0x0d 1;
    dc 0x01 1 0x16 0; dc 0x16 1 0x16 1; dc 0xfc 0 0x00 0; dc 0xfc 0 0x00 0 ];
  [ dc 0x02 1 0x0a 0; dc 0x09 1 0x0a 0; dc 0x17 1 0x0a 0; dc 0x28 1 0x0a 1;
    dc 0x02 1 0x0d 0; dc 0x09 1 0x0d 0; dc 0x17 1 0x0d 0; dc 0x28 1 0x0d 1;
    dc 0x02 1 0x16 0; dc 0x09 1 0x16 0; dc 0x17 1 0x16 0; dc 0x28 1 0x16 1;
    dc 0xfd 0 0x00 0; dc 0xfd 0 0x00 0; dc 0xfd 0 0x00 0; dc 0xfd 0 0x00 0 ];
  [ dc 0x03 1 0x0a 0; dc 0x06 1 0x0a 0; dc 0x0a 1 0x0a 0; dc 0x0f 1 0x0a 0;
    dc 0x18 1 0x0a 0; dc 0x1f 1 0x0a 0; dc 0x29 1 0x0a 0; dc 0x38 1 0x0a 1;
    dc 0x03 1 0x0d 0; dc 0x06 1 0x0d 0; dc 0x0a 1 0x0d 0; dc 0x0f 1 0x0d 0;
    dc 0x18 1 0x0d 0; dc 0x1f 1 0x0d 0; dc 0x29 1 0x0d 0; dc 0x38 1 0x0d 1 ];
  [ dc 0x03 1 0x16 0; dc 0x06 1 0x16 0; dc 0x0a 1 0x16 0; dc 0x0f 1 0x16 0;
    dc 0x18 1 0x16 0; dc 0x1f 1 0x16 0; dc 0x29 1 0x16 0; dc 0x38 1 0x16 1;
    dc 0xff 0 0x00 0; dc 0xff 0 0x00 0; dc 0xff 0 0x00 0; dc 0xff 0 0x00 0;
    dc 0xff 0 0x00 0; dc 0xff 0 0x00 0; dc 0xff 0 0x00 0; dc 0xff 0 0x00 0 ]
].

Definition ngx_http_v2_huff_decode_codes : list (list decode_code) :=
  huff_decode_codes_0 ++ huff_decode_codes_10 ++ huff_decode_codes_20 ++
  huff_decode_codes_30 ++ huff_decode_codes_40 ++ huff_decode_codes_50 ++
  huff_decode_codes_60 ++ huff_decode_codes_70 ++ huff_decode_codes_80 ++
  huff_decode_codes_90 ++ huff_decode_codes_100 ++ huff_decode_codes_110 ++
  huff_decode_codes_120 ++ huff_decode_codes_130 ++ huff_decode_codes_140 ++
  huff_decode_codes_150 ++ huff_decode_codes_160 ++ huff_decode_codes_170 ++
  huff_decode_codes_180 ++ huff_decode_codes_190 ++ huff_decode_codes_200 ++
  huff_decode_codes_210 ++ huff_decode_codes_220 ++ huff_decode_codes_230 ++
  huff_decode_codes_240 ++ huff_decode_codes_250.

Definition ngx_http_v2_huff_encode_table : list encode_code := [
  ec 0x00001ff8 13; ec 0x007fffd8 23; ec 0x0fffffe2 28; ec 0x0fffffe3 28;
  ec 0x0fffffe4 28; ec 0x0fffffe5 28; ec 0x0fffffe6 28; ec 0x0fffffe7 28;
  ec 0x0fffffe8 28; ec 0x00ffffea 24; ec 0x3ffffffc 30; ec 0x0fffffe9 28;
  ec 0x0fffffea 28; ec 0x3ffffffd 30; ec 0x0fffffeb 28; ec 0x0fffffec 28;
  ec 0x0fffffed 28; ec 0x0fffffee 28; ec 0x0fffffef 28; ec 0x0ffffff0 28;
  ec 0x0ffffff1 28; ec 0x0ffffff2 28; ec 0x3ffffffe 30; ec 0x0ffffff3 28;
  ec 0x0ffffff4 28; ec 0x0ffffff5 28; ec 0x0ffffff6 28; ec 0x0ffffff7 28;
  ec 0x0ffffff8 28; ec 0x0ffffff9 28; ec 0x0ffffffa 28; ec 0x0ffffffb 28;
  ec 0x00000014 6; ec 0x000003f8 10; ec 0x000003f9 10; ec 0x00000ffa 12;
  ec 0x00001ff9 13; ec 0x00000015 6; ec 0x000000f8 8; ec 0x000007fa 11;
  ec 0x000003fa 10; ec 0x000003fb 10; ec 0x000000f9 8; ec 0x000007fb 11;
  ec 0x000000fa 8; ec 0x00000016 6; ec 0x00000017 6; ec 0x00000018 6;
  ec 0x00000000 5; ec 0x00000001 5; ec 0x00000002 5; ec 0x00000019 6;
  ec 0x0000001a 6; ec 0x0000001b 6; ec 0x0000001c 6; ec 0x0000001d 6;
  ec 0x0000001e 6; ec 0x0000001f 6; ec 0x0000005c 7; ec 0x000000fb 8;
  ec 0x00007ffc 15; ec 0x00000020 6; ec 0x00000ffb 12; ec 0x000003fc 10;
  ec 0x00001ffa 13; ec 0x00000021 6; ec 0x0000005d 7; ec 0x0000005e 7;
  ec 0x0000005f 7; ec 0x00000060 7; ec 0x00000061 7; ec 0x00000062 7;
  ec 0x00000063 7; ec 0x00000064 7; ec 0x00000065 7; ec 0x00000066 7;
  ec 0x00000067 7; ec 0x00000068 7; ec 0x00000069 7; ec 0x0000006a 7;
  ec 0x0000006b 7; ec 0x0000006c 7; ec 0x0000006d 7; ec 0x0000006e 7;
  ec 0x0000006f 7; ec 0x00000070 7; ec 0x00000071 7; ec 0x00000072 7;
  ec 0x000000fc 8; ec 0x00000073 7; ec 0x000000fd 8; ec 0x00001ffb 13;
  ec 0x0007fff0 19; ec 0x00001ffc 13; ec 0x00003ffc 14; ec 0x00000022 6;
  ec 0x00007ffd 15; ec 0x00000003 5; ec 0x00000023 6; ec 0x00000004 5;
  ec 0x00000024 6; ec 0x00000005 5; ec 0x00000025 6; ec 0x00000026 6;
  ec 0x00000027 6; ec 0x00000006 5; ec 0x00000074 7; ec 0x00000075 7;
  ec 0x00000028 6; ec 0x00000029 6; ec 0x0000002a 6; ec 0x00000007 5;
  ec 0x0000002b 6; ec 0x00000076 7; ec 0x0000002c 6; ec 0x00000008 5;
  ec 0x00000009 5; ec 0x0000002d 6; ec 0x00000077 7; ec 0x00000078 7;
  ec 0x00000079 7; ec 0x0000007a 7; ec 0x0000007b 7; ec 0x00007ffe 15;
  ec 0x000007fc 11; ec 0x00003ffd 14; ec 0x00001ffd 13; ec 0x0ffffffc 28;
  ec 0x000fffe6 20; ec 0x003fffd2 22; ec 0x000fffe7 20; ec 0x000fffe8 20;
  ec 0x003fffd3 22; ec 0x003fffd4 22; ec 0x003fffd5 22; ec 0x007fffd9 23;
  ec 0x003fffd6 22; ec 0x007fffda 23; ec 0x007fffdb 23; ec 0x007fffdc 23;
  ec 0x007fffdd 23; ec 0x007fffde 23; ec 0x00ffffeb 24; ec 0x007fffdf 23;
  ec 0x00ffffec 24; ec 0x00ffffed 24; ec 0x003fffd7 22; ec 0x007fffe0 23;
  ec 0x00ffffee 24; ec 0x007fffe1 23; ec 0x007fffe2 23; ec 0x007fffe3 23;
  ec 0x007fffe4 23; ec 0x001fffdc 21; ec 0x003fffd8 22; ec 0x007fffe5 23;
  ec 0x003fffd9 22; ec 0x007fffe6 23; ec 0x007fffe7 23; ec 0x00ffffef 24;
  ec 0x003fffda 22; ec 0x001fffdd 21; ec 0x000fffe9 20; ec 0x003fffdb 22;
  ec 0x003fffdc 22; ec 0x007fffe8 23; ec 0x007fffe9 23; ec 0x001fffde 21;
  ec 0x007fffea 23; ec 0x003fffdd 22; ec 0x003fffde 22; ec 0x00fffff0 24;
  ec 0x001fffdf 21; ec 0x003fffdf 22; ec 0x007fffeb 23; ec 0x007fffec 23;
  ec 0x001fffe0 21; ec 0x001fffe1 21; ec 0x003fffe0 22; ec 0x001fffe2 21;
  ec 0x007fffed 23; ec 0x003fffe1 22; ec 0x007fffee 23; ec 0x007fffef 23;
  ec 0x000fffea 20; ec 0x003fffe2 22; ec 0x003fffe3 22; ec 0x003fffe4 22;
  ec 0x007ffff0 23; ec 0x003fffe5 22; ec 0x003fffe6 22; ec 0x007ffff1 23;
  ec 0x03ffffe0 26; ec 0x03ffffe1 26; ec 0x000fffeb 20; ec 0x0007fff1 19;
  ec 0x003fffe7 22; ec 0x007ffff2 23; ec 0x003fffe8 22; ec 0x01ffffec 25;
  ec 0x03ffffe2 26; ec 0x03ffffe3 26; ec 0x03ffffe4 26; ec 0x07ffffde 27;
  ec 0x07ffffdf 27; ec 0x03ffffe5 26; ec 0x00fffff1 24; ec 0x01ffffed 25;
  ec 0x0007fff2 19; ec 0x001fffe3 21; ec 0x03ffffe6 26; ec 0x07ffffe0 27;
  ec 0x07ffffe1 27; ec 0x03ffffe7 26; ec 0x07ffffe2 27; ec 0x00fffff2 24;
  ec 0x001fffe4 21; ec 0x001fffe5 21; ec 0x03ffffe8 26; ec 0x03ffffe9 26;
  ec 0x0ffffffd 28; ec 0x07ffffe3 27; ec 0x07ffffe4 27; ec 0x07ffffe5 27;
  ec 0x000fffec 20; ec 0x00fffff3 24; ec 0x000fffed 20; ec 0x001fffe6 21;
  ec 0x003fffe9 22; ec 0x001fffe7 21; ec 0x001fffe8 21; ec 0x007ffff3 23;
  ec 0x003fffea 22; ec 0x003fffeb 22; ec 0x01ffffee 25; ec 0x01ffffef 25;
  ec 0x00fffff4 24; ec 0x00fffff5 24; ec 0x03ffffea 26; ec 0x007ffff4 23;
  ec 0x03ffffeb 26; ec 0x07ffffe6 27; ec 0x03ffffec 26; ec 0x03ffffed 26;
  ec 0x07ffffe7 27; ec 0x07ffffe8 27; ec 0x07ffffe9 27; ec 0x07ffffea 27;
  ec 0x07ffffeb 27; ec 0x0ffffffe 28; ec 0x07ffffec 27; ec 0x07ffffed 27;
  ec 0x07ffffee 27; ec 0x07ffffef 27; ec 0x07fffff0 27; ec 0x03ffffee 26
].

Definition ngx_http_v2_huff_encode_table_lc : list encode_code := [
  ec 0x00001ff8 13; ec 0x007fffd8 23; ec 0x0fffffe2 28; ec 0x0fffffe3 28;
  ec 0x0fffffe4 28; ec 0x0fffffe5 28; ec 0x0fffffe6 28; ec 0x0fffffe7 28;
  ec 0x0fffffe8 28; ec 0x00ffffea 24; ec 0x3ffffffc 30; ec 0x0fffffe9 28;
  ec 0x0fffffea 28; ec 0x3ffffffd 30; ec 0x0fffffeb 28; ec 0x0fffffec 28;
  ec 0x0fffffed 28; ec 0x0fffffee 28; ec 0x0fffffef 28; ec 0x0ffffff0 28;
  ec 0x0ffffff1 28; ec 0x0ffffff2 28; ec 0x3ffffffe 30; ec 0x0ffffff3 28;
  ec 0x0ffffff4 28; ec 0x0ffffff5 28; ec 0x0ffffff6 28; ec 0x0ffffff7 28;
  ec 0x0ffffff8 28; ec 0x0ffffff9 28; ec 0x0ffffffa 28; ec 0x0ffffffb 28;
  ec 0x00000014 6; ec 0x000003f8 10; ec 0x000003f9 10; ec 0x00000ffa 12;
  ec 0x00001ff9 13; ec 0x00000015 6; ec 0x000000f8 8; ec 0x000007fa 11;
  ec 0x000003fa 10; ec 0x000003fb 10; ec 0x000000f9 8; ec 0x000007fb 11;
  ec 0x000000fa 8; ec 0x00000016 6; ec 0x00000017 6; ec 0x00000018 6;
  ec 0x00000000 5; ec 0x00000001 5; ec 0x00000002 5; ec 0x00000019 6;
  ec 0x0000001a 6; ec 0x0000001b 6; ec 0x0000001c 6; ec 0x0000001d 6;
  ec 0x0000001e 6; ec 0x0000001f 6; ec 0x0000005c 7; ec 0x000000fb 8;
  ec 0x00007ffc 15; ec 0x00000020 6; ec 0x00000ffb 12; ec 0x000003fc 10;
  ec 0x00001ffa 13; ec 0x00000003 5; ec 0x00000023 6; ec 0x00000004 5;
  ec 0x00000024 6; ec 0x00000005 5; ec 0x00000025 6; ec 0x00000026 6;
  ec 0x00000027 6; ec 0x00000006 5; ec 0x00000074 7; ec 0x00000075 7;
  ec 0x00000028 6; ec 0x00000029 6; ec 0x0000002a 6; ec 0x00000007 5;
  ec 0x0000002b 6; ec 0x00000076 7; ec 0x0000002c 6; ec 0x00000008 5;
  ec 0x00000009 5; ec 0x0000002d 6; ec 0x00000077 7; ec 0x00000078 7;
  ec 0x00000079 7; ec 0x0000007a 7; ec 0x0000007b 7; ec 0x00001ffb 13;
  ec 0x0007fff0 19; ec 0x00001ffc 13; ec 0x00003ffc 14; ec 0x00000022 6;
  ec 0x00007ffd 15; ec 0x00000003 5; ec 0x00000023 6; ec 0x00000004 5;
  ec 0x00000024 6; ec 0x00000005 5; ec 0x00000025 6; ec 0x00000026 6;
  ec 0x00000027 6; ec 0x00000006 5; ec 0x00000074 7; ec 0x00000075 7;
  ec 0x00000028 6; ec 0x00000029 6; ec 0x0000002a 6; ec 0x00000007 5;
  ec 0x0000002b 6; ec 0x00000076 7; ec 0x0000002c 6; ec 0x00000008 5;
  ec 0x00000009 5; ec 0x0000002d 6; ec 0x00000077 7; ec 0x00000078 7;
  ec 0x00000079 7; ec 0x0000007a 7; ec 0x0000007b 7; ec 0x00007ffe 15;
  ec 0x000007fc 11; ec 0x00003ffd 14; ec 0x00001ffd 13; ec 0x0ffffffc 28;
  ec 0x000fffe6 20; ec 0x003fffd2 22; ec 0x000fffe7 20; ec 0x000fffe8 20;
  ec 0x003fffd3 22; ec 0x003fffd4 22; ec 0x003fffd5 22; ec 0x007fffd9 23;
  ec 0x003fffd6 22; ec 0x007fffda 23; ec 0x007fffdb 23; ec 0x007fffdc 23;
  ec 0x007fffdd 23; ec 0x007fffde 23; ec 0x00ffffeb 24; ec 0x007fffdf 23;
  ec 0x00ffffec 24; ec 0x00ffffed 24; ec 0x003fffd7 22; ec 0x007fffe0 23;
  ec 0x00ffffee 24; ec 0x007fffe1 23; ec 0x007fffe2 23; ec 0x007fffe3 23;
  ec 0x007fffe4 23; ec 0x001fffdc 21; ec 0x003fffd8 22; ec 0x007fffe5 23;
  ec 0x003fffd9 22; ec 0x007fffe6 23; ec 0x007fffe7 23; ec 0x00ffffef 24;
  ec 0x003fffda 22; ec 0x001fffdd 21; ec 0x000fffe9 20; ec 0x003fffdb 22;
  ec 0x003fffdc 22; ec 0x007fffe8 23; ec 0x007fffe9 23; ec 0x001fffde 21;
  ec 0x007fffea 23; ec 0x003fffdd 22; ec 0x003fffde 22; ec 0x00fffff0 24;
  ec 0x001fffdf 21; ec 0x003fffdf 22; ec 0x007fffeb 23; ec 0x007fffec 23;
  ec 0x001fffe0 21; ec 0x001fffe1 21; ec 0x003fffe0 22; ec 0x001fffe2 21;
  ec 0x007fffed 23; ec 0x003fffe1 22; ec 0x007fffee 23; ec 0x007fffef 23;
  ec 0x000fffea 20; ec 0x003fffe2 22; ec 0x003fffe3 22; ec 0x003fffe4 22;
  ec 0x007ffff0 23; ec 0x003fffe5 22; ec 0x003fffe6 22; ec 0x007ffff1 23;
  ec 0x03ffffe0 26; ec 0x03ffffe1 26; ec 0x000fffeb 20; ec 0x0007fff1 19;
  ec 0x003fffe7 22; ec 0x007ffff2 23; ec 0x003fffe8 22; ec 0x01ffffec 25;
  ec 0x03ffffe2 26; ec 0x03ffffe3 26; ec 0x03ffffe4 26; ec 0x07ffffde 27;
  ec 0x07ffffdf 27; ec 0x03ffffe5 26; ec 0x00fffff1 24; ec 0x01ffffed 25;
  ec 0x0007fff2 19; ec 0x001fffe3 21; ec 0x03ffffe6 26; ec 0x07ffffe0 27;
  ec 0x07ffffe1 27; ec 0x03ffffe7 26; ec 0x07ffffe2 27; ec 0x00fffff2 24;
  ec 0x001fffe4 21; ec 0x001fffe5 21; ec 0x03ffffe8 26; ec 0x03ffffe9 26;
  ec 0x0ffffffd 28; ec 0x07ffffe3 27; ec 0x07ffffe4 27; ec 0x07ffffe5 27;
  ec 0x000fffec 20; ec 0x00fffff3 24; ec 0x000fffed 20; ec 0x001fffe6 21;
  ec 0x003fffe9 22; ec 0x001fffe7 21; ec 0x001fffe8 21; ec 0x007ffff3 23;
  ec 0x003fffea 22; ec 0x003fffeb 22; ec 0x01ffffee 25; ec 0x01ffffef 25;
  ec 0x00fffff4 24; ec 0x00fffff5 24; ec 0x03ffffea 26; ec 0x007ffff4 23;
  ec 0x03ffffeb 26; ec 0x07ffffe6 27; ec 0x03ffffec 26; ec 0x03ffffed 26;
  ec 0x07ffffe7 27; ec 0x07ffffe8 27; ec 0x07ffffe9 27; ec 0x07ffffea 27;
  ec 0x07ffffeb 27; ec 0x0ffffffe 28; ec 0x07ffffec 27; ec 0x07ffffed 27;
  ec 0x07ffffee 27; ec 0x07ffffef 27; ec 0x07fffff0 27; ec 0x03ffffee 26
].
