(* ===== verification/Huffman.v ===== *)
(** * Huffman coding of HTTP/2 header strings

    [ngx_http_v2_huff_encode] of [src/http/v2/ngx_http_v2_huff_encode.c], which
    collects bits in a 64-bit word, and [ngx_http_v2_huff_decode] of
    [src/http/v2/ngx_http_v2_huff_decode.c], which goes four bits at a time from
    state to state of a table.  [None] is an access outside a table. *)

From S2P Require Import Prelude.
From S2P Require Export HuffTables.

(** ** ngx_http_v2_huff_encode *)

(** [ngx_http_v2_huff_encode_buf]: a word in network order. *)
Definition ngx_http_v2_huff_encode_buf (buf : Z) : list Z :=
  map (fun s => u8 (Z.shiftr buf s)) [56; 48; 40; 32; 24; 16; 8; 0].

(** [hlen] is the length of [dst], what has been written; the loop leaves with
    [hlen], [buf], [pending] or the [return 0] as [inl]. *)
Fixpoint encode_loop (table : list encode_code) (len : Z) (src dst : list Z) (buf pending : Z)
    : option (list Z + (list Z * Z * Z)) :=
  match src with
  | [] => Some (inr (dst, buf, pending))
  | c :: src' =>
      next ← table !! Z.to_nat c;
      let code := ec_code next in
      let pending := pending + ec_len next in
      if pending <? 64 then
        encode_loop table len src' dst (Z.lor buf (u64 (Z.shiftl code (64 - pending)))) pending
      else if len <=? Z.of_nat (length dst) + 8 then Some (inl dst)
      else
        let pending := pending - 64 in
        let buf := Z.lor buf (Z.shiftr code pending) in
        let dst := dst ++ ngx_http_v2_huff_encode_buf buf in
        encode_loop table len src' dst
          (if negb (pending =? 0) then u64 (Z.shiftl code (64 - pending)) else 0) pending
  end.

(** [do { pending -= 8; dst[hlen++] = buf >> pending; } while (pending);] for
    [n] bytes. *)
Fixpoint encode_tail (n : nat) (buf pending : Z) : list Z :=
  match n with
  | O => []
  | S n' => u8 (Z.shiftr buf (pending - 8)) :: encode_tail n' buf (pending - 8)
  end.

(** [ngx_align(d, 8)] *)
Definition align8 (d : Z) : Z := Z.land (d + 7) (Z.lnot 7).

(** The length returned and what was written to [dst]. *)
Definition ngx_http_v2_huff_encode (src : list Z) (lower : bool) : option (Z * list Z) :=
  let len := Z.of_nat (length src) in
  let table := if lower then ngx_http_v2_huff_encode_table_lc else ngx_http_v2_huff_encode_table in
  r ← encode_loop table len src [] 0 0;
  match r with
  | inl dst => Some (0, dst)
  | inr (dst, buf, pending) =>
      let hlen := Z.of_nat (length dst) in
      if pending =? 0 then Some (hlen, dst)
      else
        let buf := Z.lor buf (Z.shiftr (2 ^ 64 - 1) pending) in
        let pending := align8 pending in
        if len <=? hlen + pending / 8 then Some (0, dst)
        else
          let buf := Z.shiftr buf (64 - pending) in
          let dst := dst ++ encode_tail (Z.to_nat (pending / 8)) buf pending in
          Some (Z.of_nat (length dst), dst)
  end.

(** ** ngx_http_v2_huff_decode *)

(** [*state], [ending] and what was written to [*dst]. *)
Record huff_state : Type := mk_huff { hd_state : Z; hd_ending : Z; hd_dst : list Z }.

Definition ngx_http_v2_huff_decode_bits (bits : Z) (s : huff_state) : option (Z * huff_state) :=
  row ← ngx_http_v2_huff_decode_codes !! Z.to_nat (hd_state s);
  code ← row !! Z.to_nat bits;
  if dc_next code =? hd_state s then Some (NGX_ERROR, s)
  else
    let dst := if negb (dc_emit code =? 0) then hd_dst s ++ [dc_sym code] else hd_dst s in
    Some (NGX_OK, mk_huff (dc_next code) (dc_ending code) dst).

Fixpoint decode_loop (src : list Z) (s : huff_state) : option (Z * huff_state) :=
  match src with
  | [] => Some (NGX_OK, s)
  | ch :: src' =>
      '(rc, s) ← ngx_http_v2_huff_decode_bits (Z.shiftr ch 4) s;
      if negb (rc =? NGX_OK) then Some (NGX_ERROR, s)
      else
        '(rc, s) ← ngx_http_v2_huff_decode_bits (Z.land ch 0xf) s;
        if negb (rc =? NGX_OK) then Some (NGX_ERROR, s)
        else decode_loop src' s
  end.

(** The code, the new [*state] and what [*dst] has grown by. *)
Definition ngx_http_v2_huff_decode (state : Z) (src : list Z) (last : bool)
    : option (Z * Z * list Z) :=
  '(rc, s) ← decode_loop src (mk_huff state 1 []);
  if negb (rc =? NGX_OK) then Some (NGX_ERROR, hd_state s, hd_dst s)
  else if last then
    if hd_ending s =? 0 then Some (NGX_ERROR, hd_state s, hd_dst s)
    else Some (NGX_OK, 0, hd_dst s)
  else Some (NGX_OK, hd_state s, hd_dst s).

Example huff_sample :
  ngx_http_v2_huff_encode (bytes "www.example.com") false =
    Some (12, [0xf1; 0xe3; 0xc2; 0xe5; 0xf2; 0x3a; 0x6b; 0xa0; 0xab; 0x90; 0xf4; 0xff]) /\
  ngx_http_v2_huff_decode 0 [0xf1; 0xe3; 0xc2; 0xe5; 0xf2; 0x3a; 0x6b; 0xa0; 0xab; 0x90; 0xf4; 0xff] true =
    Some (NGX_OK, 0, bytes "www.example.com").
Proof. by vm_compute. Qed.
