(* ===== verification/HuffmanSpec.v ===== *)
(** * The Huffman code as strings of bits

    The encoder writes the codes of the bytes one after another and fills the last
    byte with ones; the decoder accepts what is codes and then ones, and gives the
    bytes back.  What the tables must satisfy is checked by evaluation. *)

From S2P Require Import Prelude Bits HeaderLine Huffman.

(** ** The codes *)

Definition code_bits (c : Z) : list bool :=
  match ngx_http_v2_huff_encode_table !! Z.to_nat c with
  | Some e => bits (Z.to_nat (ec_len e)) (ec_code e)
  | None => []
  end.

Definition codes (l : list Z) : list bool := concat (map code_bits l).

Lemma codes_app a b : codes (a ++ b) = codes a ++ codes b.
Proof. unfold codes. by rewrite map_app, concat_app. Qed.

(** *** What the tables of the encoder satisfy *)

(** The numbers fit in their lengths, of 5 to 30 bits. *)
Definition entry_ok (e : encode_code) : bool :=
  (5 <=? ec_len e) && (ec_len e <=? 30) && (0 <=? ec_code e) && (ec_code e <? 2 ^ ec_len e).

Lemma table_entry (c : Z) : is_byte c ->
  exists e, ngx_http_v2_huff_encode_table !! Z.to_nat c = Some e /\ entry_ok e = true /\
    code_bits c = bits (Z.to_nat (ec_len e)) (ec_code e).
Proof.
  intros Hc. pose (P := fun c => match ngx_http_v2_huff_encode_table !! Z.to_nat c with
    | Some e => entry_ok e | None => false end).
  assert (H : P c = true) by (apply (check_range P 256); [by vm_compute|exact Hc]).
  unfold P in H. unfold code_bits. destruct (_ !! Z.to_nat c) as [e|]; [|done]. by exists e.
Qed.

(** The second table is the first at the lower-case byte. *)
Lemma table_lc (c : Z) : is_byte c ->
  ngx_http_v2_huff_encode_table_lc !! Z.to_nat c = ngx_http_v2_huff_encode_table !! Z.to_nat (ngx_tolower c)
  /\ is_byte (ngx_tolower c).
Proof.
  intros Hc. pose (P := fun c => match ngx_http_v2_huff_encode_table_lc !! Z.to_nat c,
      ngx_http_v2_huff_encode_table !! Z.to_nat (ngx_tolower c) with
    | Some e, Some e' => (ec_code e =? ec_code e') && (ec_len e =? ec_len e') &&
        (0 <=? ngx_tolower c) && (ngx_tolower c <? 256)
    | _, _ => false end).
  assert (H : P c = true) by (apply (check_range P 256); [by vm_compute|exact Hc]).
  unfold P in H. destruct (_ !! Z.to_nat c) as [[a b]|]; [|done].
  destruct (_ !! Z.to_nat (ngx_tolower c)) as [[a' b']|]; [|done]. cbn [ec_code ec_len] in H.
  unfold is_byte. split; [do 2 f_equal; lia|lia].
Qed.

(** ** The encoder *)

Lemma encode_buf_bits buf : bytes_bits (ngx_http_v2_huff_encode_buf buf) = bits 64 buf.
Proof.
  unfold ngx_http_v2_huff_encode_buf, bytes_bits. cbn [map concat]. rewrite !bits_u8, Z.shiftr_0_r, app_nil_r.
  change 64%nat with (8 + (8 + (8 + (8 + (8 + (8 + (8 + 8))))))) %nat. by rewrite !bits_app.
Qed.

Lemma encode_buf_bytes buf : Forall is_byte (ngx_http_v2_huff_encode_buf buf).
Proof. unfold ngx_http_v2_huff_encode_buf. cbn [map]. repeat (constructor; [apply u8_byte|]). constructor. Qed.

Lemma encode_tail_bits n buf :
  bytes_bits (encode_tail n buf (8 * Z.of_nat n)) = bits (8 * n) buf.
Proof.
  induction n as [|n IH]; [done|]. cbn [encode_tail].
  replace (8 * Z.of_nat (S n) - 8) with (8 * Z.of_nat n) by lia.
  change (bytes_bits (?x :: ?l)) with (bits 8 x ++ bytes_bits l). rewrite IH, bits_u8.
  replace (8 * S n)%nat with (8 + 8 * n)%nat by lia. rewrite bits_app. do 3 f_equal. lia.
Qed.

Lemma encode_tail_bytes n buf p : Forall is_byte (encode_tail n buf p) /\ length (encode_tail n buf p) = n.
Proof.
  revert p. induction n as [|n IH]; intros p; cbn [encode_tail length]; [by split|].
  destruct (IH (p - 8)) as [H1 H2]. split; [constructor; [apply u8_byte|done]|by rewrite H2].
Qed.

(** The word holds the bits [B] that are pending. *)
Definition word_holds (buf pending : Z) (B : list bool) : Prop :=
  pending = Z.of_nat (length B) /\ pending < 64 /\ bits 64 buf = B ++ zeros (64 - length B).

Lemma word_more buf p B e :
  word_holds buf p B -> entry_ok e = true -> p + ec_len e < 64 ->
  word_holds (Z.lor buf (u64 (Z.shiftl (ec_code e) (64 - (p + ec_len e))))) (p + ec_len e)
    (B ++ bits (Z.to_nat (ec_len e)) (ec_code e)).
Proof.
  intros (-> & Hp & Hb) He Hlt. unfold entry_ok in He. set (k := Z.to_nat (ec_len e)).
  assert (Hk : ec_len e = Z.of_nat k) by lia.
  assert (Hcode : 0 <= ec_code e < 2 ^ Z.of_nat k) by (rewrite <-Hk; lia).
  rewrite Hk in *. clear He. set (m := (64 - (length B + k))%nat).
  split; [rewrite length_app, length_bits; lia|]. split; [done|].
  rewrite bits_lor, Hb. unfold u64. rewrite bits_mod by lia.
  replace (64 - (Z.of_nat (length B) + Z.of_nat k)) with (Z.of_nat m) by lia.
  rewrite length_app, length_bits. fold m.
  replace (bits 64 (Z.shiftl (ec_code e) (Z.of_nat m))) with (zeros (length B) ++ bits k (ec_code e) ++ zeros m).
  - rewrite zip_orb_fill; [by rewrite app_assoc|done|]. rewrite length_app, length_bits, length_replicate. lia.
  - replace 64%nat with (length B + k + m)%nat at 1 by lia. rewrite bits_shiftl, bits_high by done.
    by rewrite app_assoc.
Qed.

(** A full word and what is left over. *)
Lemma word_full buf p B e :
  word_holds buf p B -> entry_ok e = true -> 64 <= p + ec_len e ->
  let pending := p + ec_len e - 64 in
  let C := bits (Z.to_nat (ec_len e)) (ec_code e) in
  exists C1 C2, C = C1 ++ C2 /\ bits 64 (Z.lor buf (Z.shiftr (ec_code e) pending)) = B ++ C1 /\
    word_holds (if negb (pending =? 0) then u64 (Z.shiftl (ec_code e) (64 - pending)) else 0) pending C2.
Proof.
  intros (-> & Hp & Hb) He Hge. unfold entry_ok in He. set (k := Z.to_nat (ec_len e)).
  assert (Hk : ec_len e = Z.of_nat k) by lia.
  assert (Hcode : 0 <= ec_code e < 2 ^ Z.of_nat k) by (rewrite <-Hk; lia).
  rewrite Hk in *. assert (Hk30 : (k <= 30)%nat) by lia. clear He. intros pending C.
  set (m := (length B + k - 64)%nat). assert (Hm : pending = Z.of_nat m) by (unfold pending; lia).
  set (j := (64 - length B)%nat). assert (Hj : k = (j + m)%nat) by lia.
  exists (bits j (Z.shiftr (ec_code e) pending)), (bits m (ec_code e)).
  split; [unfold C; rewrite Hj, bits_app; by rewrite Hm|]. split.
  - rewrite bits_lor, Hb. fold j.
    replace (bits 64 (Z.shiftr (ec_code e) pending)) with
      (zeros (length B) ++ bits j (Z.shiftr (ec_code e) pending)).
    + apply zip_orb_fill; [done|]. apply length_bits.
    + replace 64%nat with (length B + j)%nat by lia. symmetry. apply bits_high.
      rewrite Hm, Z.shiftr_div_pow2 by lia. split; [apply Z.div_pos; lia|].
      apply Z.div_lt_upper_bound; [lia|]. rewrite <-Z.pow_add_r by lia.
      replace (Z.of_nat m + Z.of_nat j) with (Z.of_nat k) by lia. lia.
  - split; [by rewrite length_bits|]. split; [unfold pending; lia|]. rewrite length_bits.
    destruct (pending =? 0) eqn:E; cbn [negb].
    + replace m with 0%nat by lia. apply bits_zero. intros i _. apply Z.bits_0.
    + unfold u64. rewrite bits_mod by lia. replace (64 - pending) with (Z.of_nat (64 - m)) by lia.
      replace 64%nat with (m + (64 - m))%nat at 1 by lia. apply bits_shiftl.
Qed.

Lemma encode_loop_spec table (tr : Z -> Z) len src : forall dst buf pending B,
  (forall c, is_byte c -> table !! Z.to_nat c = ngx_http_v2_huff_encode_table !! Z.to_nat (tr c) /\ is_byte (tr c)) ->
  Forall is_byte src -> Forall is_byte dst -> word_holds buf pending B ->
  exists r, encode_loop table len src dst buf pending = Some r /\
  match r with
  | inl _ => len * 8 <= Z.of_nat (length (bytes_bits dst ++ B ++ codes (map tr src)))
  | inr (dst', buf', pending') => Forall is_byte dst' /\
      (dst' = dst \/ Z.of_nat (length dst') < len) /\
      exists B', word_holds buf' pending' B' /\
        bytes_bits dst' ++ B' = bytes_bits dst ++ B ++ codes (map tr src)
  end.
Proof.
  intros dst buf pending B Ht Hsrc. revert dst buf pending B.
  induction Hsrc as [|c src Hc Hsrc IH]; intros dst buf pending B Hd Hw; cbn [encode_loop map].
  - eexists. split; [done|]. cbn. split; [done|]. split; [by left|]. exists B. by rewrite app_nil_r.
  - destruct (Ht c Hc) as [-> Hb]. destruct (table_entry (tr c) Hb) as (e & -> & He & HC). cbn [mbind option_bind].
    change (codes (tr c :: map tr src)) with (code_bits (tr c) ++ codes (map tr src)). rewrite HC.
    destruct (pending + ec_len e <? 64) eqn:E.
    + destruct (IH dst _ (pending + ec_len e) _ Hd (word_more buf pending B e Hw He ltac:(lia))) as (r & -> & Hr).
      exists r. split; [done|]. by rewrite <-app_assoc in Hr.
    + destruct (word_full buf pending B e Hw He ltac:(lia)) as (C1 & C2 & EC & Hfull & Hw').
      cbv zeta in *. rewrite EC. set (w := Z.lor _ _) in *. set (buf' := if negb _ then _ else _) in *.
      assert (Hl : length (B ++ C1) = 64%nat) by (rewrite <-Hfull; apply length_bits).
      destruct (len <=? Z.of_nat (length dst) + 8) eqn:El.
      * eexists. split; [done|]. cbn. rewrite !length_app in *. rewrite length_bytes_bits. lia.
      * destruct (IH (dst ++ ngx_http_v2_huff_encode_buf w) buf' (pending + ec_len e - 64) C2) as (r & -> & Hr); [|done|].
        { apply Forall_app. split; [done|]. apply encode_buf_bytes. }
        exists r. split; [done|].
        assert (Eq : bytes_bits (dst ++ ngx_http_v2_huff_encode_buf w) ++ C2 ++ codes (map tr src) =
          bytes_bits dst ++ B ++ (C1 ++ C2) ++ codes (map tr src)).
        { rewrite bytes_bits_app, encode_buf_bits, Hfull. by rewrite <-!app_assoc. }
        rewrite Eq in Hr. destruct r as [|[[dst' b'] p']]; [done|]. destruct Hr as (H1 & H2 & H3).
        split; [done|]. split; [|done]. right. destruct H2 as [->|H2]; [|done].
        rewrite length_app. change (length (ngx_http_v2_huff_encode_buf w)) with 8%nat. lia.
Qed.

Lemma align8_range p : 0 < p < 64 ->
  exists n, align8 p = 8 * Z.of_nat n /\ p <= 8 * Z.of_nat n <= p + 7 /\ (n <= 8)%nat.
Proof.
  intros Hp. pose (P := fun p : Z => (align8 (p + 1) =? 8 * ((p + 8) / 8))).
  assert (H : P (p - 1) = true) by (apply (check_range P 63); [by vm_compute|lia]).
  unfold P in H. exists (Z.to_nat ((p + 7) / 8)). replace (p - 1 + 1) with p in H by lia.
  replace (p - 1 + 8) with (p + 7) in H by lia.
  pose proof (Z.div_mod (p + 7) 8). pose proof (Z.mod_pos_bound (p + 7) 8). lia.
Qed.

(** The low bits that are filled with ones. *)
Lemma bits_ones p : (p < 64)%nat -> bits 64 (Z.shiftr (2 ^ 64 - 1) (Z.of_nat p)) = zeros p ++ ones (64 - p).
Proof.
  intros Hp. assert (p ∈ seq 0 64) as Hin by (apply elem_of_seq; lia). revert p Hp Hin.
  assert (Forall (fun p => bits 64 (Z.shiftr (2 ^ 64 - 1) (Z.of_nat p)) = zeros p ++ ones (64 - p)) (seq 0 64))
    as Hall by (repeat (constructor; [by vm_compute|]); constructor).
  rewrite Forall_forall in Hall. auto.
Qed.

Lemma length_codes l : Forall is_byte l -> (5 * length l <= length (codes l))%nat.
Proof.
  intros H. induction H as [|c l Hc H IH]; [done|]. change (codes (c :: l)) with (code_bits c ++ codes l).
  destruct (table_entry c Hc) as (e & _ & He & ->). unfold entry_ok in He.
  rewrite length_app, length_bits. cbn [length]. lia.
Qed.

Lemma huff_encode_bits (src : list Z) (lower : bool) :
  Forall is_byte src ->
  let B := codes (if lower then map ngx_tolower src else src) in
  exists n dst, ngx_http_v2_huff_encode src lower = Some (n, dst) /\
    (n = 0 /\ 8 * Z.of_nat (length src) <= Z.of_nat (length B) + 7 \/
     n = Z.of_nat (length dst) /\ n < Z.of_nat (length src) /\ Forall is_byte dst /\
       exists k, (k < 8)%nat /\ bytes_bits dst = B ++ ones k).
Proof.
  intros Hsrc B.
  pose (table := if lower then ngx_http_v2_huff_encode_table_lc else ngx_http_v2_huff_encode_table).
  pose (tr := if lower then ngx_tolower else fun c => c).
  assert (Ht : forall c, is_byte c -> table !! Z.to_nat c = ngx_http_v2_huff_encode_table !! Z.to_nat (tr c)
    /\ is_byte (tr c)) by (intros c Hc; unfold table, tr; destruct lower; [by apply table_lc|done]).
  assert (HB : B = codes (map tr src)) by (unfold B, tr; destruct lower; [done|by rewrite map_id]).
  assert (Hlen : 5 * Z.of_nat (length src) <= Z.of_nat (length B)).
  { rewrite HB. pose proof (length_codes (map tr src)) as H. rewrite length_map in H.
    assert (Forall is_byte (map tr src)).
    { apply Forall_map. eapply Forall_impl; [exact Hsrc|]. intros c Hc. by apply Ht. }
    specialize (H ltac:(done)). lia. }
  set (len := Z.of_nat (length src)) in *.
  destruct (encode_loop_spec table tr len src [] 0 0 [] Ht Hsrc ltac:(constructor)) as (r & E & Hr);
    [by split|]. cbn [bytes_bits map concat app] in Hr. rewrite <-HB in Hr.
  unfold ngx_http_v2_huff_encode. fold len. fold table. rewrite E. cbn [mbind option_bind].
  destruct r as [dst|[[dst buf] pending]].
  { exists 0, dst. split; [done|]. left. lia. }
  destruct Hr as (Hby & Hlt & B' & (HpB & Hp64 & Hbuf) & Heq).
  assert (HlB : 8 * Z.of_nat (length dst) + pending = Z.of_nat (length B)).
  { rewrite <-Heq, length_app, length_bytes_bits. lia. }
  destruct (pending =? 0) eqn:Ep.
  { eexists _, _. split; [done|]. destruct Hlt as [->|Hlt]; [left; cbn [length] in *; lia|].
    right. split; [done|]. split; [done|]. split; [done|]. exists 0%nat. split; [lia|].
    rewrite <-Heq. destruct B'; [by rewrite !app_nil_r|cbn [length] in HpB; lia]. }
  destruct (align8_range pending ltac:(lia)) as (n & -> & Hn & Hn8).
  replace (8 * Z.of_nat n / 8) with (Z.of_nat n) by (rewrite Z.mul_comm, Z.div_mul; lia).
  destruct (len <=? Z.of_nat (length dst) + Z.of_nat n) eqn:El.
  { eexists _, _. split; [done|]. left. lia. }
  rewrite Nat2Z.id. destruct (encode_tail_bytes n (Z.shiftr (Z.lor buf (Z.shiftr (2 ^ 64 - 1) pending))
    (64 - 8 * Z.of_nat n)) (8 * Z.of_nat n)) as [Htb Htl].
  eexists _, _. split; [done|]. right. split; [done|]. rewrite length_app, Htl.
  split; [lia|]. split; [by apply Forall_app|].
  exists (8 * n - length B')%nat. split; [lia|].
  rewrite bytes_bits_app, encode_tail_bits, <-Heq, <-app_assoc. f_equal.
  replace (64 - 8 * Z.of_nat n) with (Z.of_nat (64 - 8 * n)) by lia.
  assert (Hw : bits (8 * n + (64 - 8 * n)) (Z.lor buf (Z.shiftr (2 ^ 64 - 1) pending)) =
     (B' ++ ones (8 * n - length B')) ++ ones (64 - 8 * n)).
  { replace (8 * n + (64 - 8 * n))%nat with 64%nat by lia. rewrite bits_lor, Hbuf, HpB, bits_ones by lia.
    rewrite zip_orb_fill by (done || by rewrite length_replicate).
    rewrite <-app_assoc, <-replicate_add. do 2 f_equal. lia. }
  rewrite bits_app in Hw. apply app_inj_1 in Hw as [Hw _]; [done|].
  rewrite length_bits, length_app, length_replicate. lia.
Qed.

(** ** The decoder *)

(** *** The bits that a state stands for *)

(** Bit strings of all states, found from state 0 along the transitions. *)
Fixpoint explore (fuel : nat) (todo : list Z) (known : list (option (list bool))) : list (option (list bool)) :=
  match fuel, todo with
  | S fuel', s :: todo' =>
      let b := match known !! Z.to_nat s with Some (Some b) => b | _ => [] end in
      let row := match ngx_http_v2_huff_decode_codes !! Z.to_nat s with Some row => row | None => [] end in
      let '(todo', known) :=
        fold_left (fun '(todo, known) '(n, code) =>
          if (dc_next code =? s) then (todo, known)
          else
            let b := b ++ bits 4 n in
            let b := if dc_emit code =? 0 then b else drop (length (code_bits (dc_sym code))) b in
            match known !! Z.to_nat (dc_next code) with
            | Some None => (todo ++ [dc_next code], <[Z.to_nat (dc_next code) := Some b]> known)
            | _ => (todo, known)
            end) (zip (seqZ 0 16) row) (todo', known) in
      explore fuel' todo' known
  | _, _ => known
  end.

Definition state_table : list (list bool) :=
  Eval vm_compute in
    map (fun o => match o with Some b => b | None => [] end)
      (explore 300 [0] (<[0%nat := Some []]> (replicate 256 None))).

Definition state_bits (s : Z) : list bool := nth (Z.to_nat s) state_table [].

Definition all_ones (b : list bool) : bool := forallb id b.

Fixpoint prefixb (a b : list bool) : bool :=
  match a, b with
  | [], _ => true
  | x :: a', y :: b' => Bool.eqb x y && prefixb a' b'
  | _, [] => false
  end.

Definition list_eqb (a b : list bool) : bool := prefixb a b && prefixb b a.

(** Every transition: what is read is a code and the bits of the next state, or
    there are 30 ones. *)
Definition transition_ok (s n : Z) : bool :=
  match ngx_http_v2_huff_decode_codes !! Z.to_nat s with
  | Some row =>
      match row !! Z.to_nat n with
      | Some code =>
          let b := state_bits s ++ bits 4 n in
          if dc_next code =? s then prefixb (ones 30) b
          else (0 <=? dc_next code) && (dc_next code <? 256) && (0 <=? dc_sym code) && (dc_sym code <? 256) &&
            Bool.eqb (negb (dc_ending code =? 0)) (all_ones (state_bits (dc_next code))) &&
            list_eqb b ((if dc_emit code =? 0 then [] else code_bits (dc_sym code)) ++ state_bits (dc_next code))
      | None => false
      end
  | None => false
  end.

Lemma transitions_ok s n : 0 <= s < 256 -> 0 <= n < 16 -> transition_ok s n = true.
Proof.
  intros Hs Hn. pose (P := fun s => forallb (transition_ok s) (seqZ 0 16)).
  assert (H : P s = true) by (apply (check_range P 256); [by vm_compute|done]).
  unfold P in H. by apply (check_range _ 16).
Qed.

Definition code_table : list (list bool) := Eval vm_compute in map code_bits (seqZ 0 256).

Lemma code_table_eq : code_table = map code_bits (seqZ 0 256).
Proof. by vm_compute. Qed.

(** No code begins the bits of a state, or is all ones; a state of ones has at
    most 29. *)
Definition state_ok (s : Z) : bool :=
  (let b := state_bits s in forallb (fun c => negb (prefixb c b)) code_table) &&
  (negb (all_ones (state_bits s)) || (length (state_bits s) <=? 29)%nat).

Lemma states_ok s : 0 <= s < 256 -> state_ok s = true.
Proof. intros Hs. apply (check_range state_ok 256); [by vm_compute|done]. Qed.

(** No code begins another, and none is a part of 30 ones. *)
Definition code_ok (c : Z) : bool :=
  (let b := code_bits c in forallb (fun '(d, b') => (c =? d) || negb (prefixb b b')) (zip (seqZ 0 256) code_table)) &&
  negb (all_ones (code_bits c)).

Lemma codes_ok c : is_byte c -> code_ok c = true.
Proof. intros Hc. apply (check_range code_ok 256); [by vm_compute|done]. Qed.

Lemma prefixb_spec a b : prefixb a b = true <-> a `prefix_of` b.
Proof.
  revert b. induction a as [|x a IH]; intros b; cbn [prefixb]; [split; [intros; apply prefix_nil|done]|].
  destruct b as [|y b]; [split; [done|by intros H%prefix_nil_not]|].
  rewrite andb_true_iff, eqb_true_iff, IH. split.
  - intros [-> H]. by apply prefix_cons.
  - intros H. split; [by apply prefix_cons_inv_1 in H|by apply prefix_cons_inv_2 in H].
Qed.

Lemma prefixb_false a b : negb (prefixb a b) = true -> ~ a `prefix_of` b.
Proof. rewrite negb_true_iff. intros H Hp. apply prefixb_spec in Hp. congruence. Qed.

Lemma list_eqb_eq a b : list_eqb a b = true -> a = b.
Proof.
  unfold list_eqb. rewrite andb_true_iff, !prefixb_spec. intros [H1 H2].
  by apply (anti_symm prefix).
Qed.

Lemma all_ones_eq b : all_ones b = true <-> b = ones (length b).
Proof.
  unfold all_ones. induction b as [|x b IH]; [done|]. cbn [forallb length replicate].
  rewrite andb_true_iff, IH. cbn [id]. split; [intros [-> ->]; by rewrite length_replicate|].
  intros [= -> ->]. by rewrite length_replicate.
Qed.

Lemma prefix_ones b k : b `prefix_of` ones k -> all_ones b = true.
Proof.
  intros [r Hr]. assert (H : all_ones (ones k) = true) by (apply all_ones_eq; by rewrite length_replicate).
  rewrite Hr in H. unfold all_ones in *. rewrite forallb_app, andb_true_iff in H. by destruct H.
Qed.

(** No code begins here. *)
Definition blocked (r : list bool) : Prop := forall c, is_byte c -> ~ code_bits c `prefix_of` r.

Lemma blocked_state s : 0 <= s < 256 -> blocked (state_bits s).
Proof.
  intros Hs c Hc. apply prefixb_false. pose proof (states_ok s Hs) as H. unfold state_ok in H.
  apply andb_true_iff in H as [H _]. rewrite forallb_forall in H. apply H.
  rewrite code_table_eq. apply in_map, list_elem_of_In, elem_of_seqZ. unfold is_byte in Hc. lia.
Qed.

Lemma code_not_ones c : is_byte c -> all_ones (code_bits c) = false.
Proof.
  intros Hc. pose proof (codes_ok c Hc) as H. unfold code_ok in H.
  apply andb_true_iff in H as [_ H]. by apply negb_true_iff.
Qed.

Lemma code_prefix_free c d : is_byte c -> is_byte d -> code_bits c `prefix_of` code_bits d -> c = d.
Proof.
  intros Hc Hd Hp. apply prefixb_spec in Hp. pose proof (codes_ok c Hc) as H. unfold code_ok in H.
  apply andb_true_iff in H as [H _]. rewrite forallb_forall in H.
  specialize (H (d, code_bits d)). cbn beta iota in H. rewrite Hp, orb_false_r in H.
  apply Z.eqb_eq, H. rewrite code_table_eq. apply list_elem_of_In, list_elem_of_lookup. exists (Z.to_nat d).
  apply lookup_zip_Some. unfold is_byte in Hd.
  assert (Hl : seqZ 0 256 !! Z.to_nat d = Some d) by (rewrite lookup_seqZ; lia).
  split; [done|]. change (map code_bits (seqZ 0 256)) with (code_bits <$> seqZ 0 256).
  by rewrite list_lookup_fmap, Hl.
Qed.

Lemma blocked_ones k : blocked (ones k).
Proof. intros c Hc Hp. apply prefix_ones in Hp. by rewrite code_not_ones in Hp. Qed.

Lemma length_code c : is_byte c -> (5 <= length (code_bits c) <= 30)%nat.
Proof.
  intros Hc. destruct (table_entry c Hc) as (e & _ & He & ->). unfold entry_ok in He.
  rewrite length_bits. lia.
Qed.

Lemma blocked_thirty X : ones 30 `prefix_of` X -> blocked X.
Proof.
  intros H c Hc Hp. destruct (prefix_weak_total _ _ _ Hp H) as [H'|H'].
  - apply prefix_ones in H'. by rewrite code_not_ones in H'.
  - pose proof (length_code c Hc) as Hl. pose proof (prefix_length _ _ H') as Hl'.
    assert (code_bits c = ones 30) as E.
    { destruct H' as [r Hr]. rewrite Hr in Hl. rewrite length_app, length_replicate in Hl.
      destruct r; [by rewrite Hr, app_nil_r|cbn in Hl; lia]. }
    pose proof (code_not_ones c Hc) as Hno. by rewrite E in Hno.
Qed.

(** A string is codes and a rest in one way. *)
Lemma codes_unique e : forall e' r r',
  Forall is_byte e -> Forall is_byte e' -> blocked r -> blocked r' ->
  codes e ++ r = codes e' ++ r' -> e = e' /\ r = r'.
Proof.
  induction e as [|c e IH]; intros e' r r' He He' Hr Hr' H; destruct e' as [|d e'].
  - done.
  - exfalso. apply Forall_cons in He' as [Hd _]. apply (Hr d Hd). cbn in H. rewrite H. cbn.
    rewrite <-app_assoc. by eexists.
  - exfalso. apply Forall_cons in He as [Hc _]. apply (Hr' c Hc). cbn in H. rewrite <-H. cbn.
    rewrite <-app_assoc. by eexists.
  - apply Forall_cons in He as [Hc He]. apply Forall_cons in He' as [Hd He'].
    change (codes (?x :: ?l)) with (code_bits x ++ codes l) in H. rewrite <-!app_assoc in H.
    assert (c = d) as ->.
    { assert (H1 : code_bits c `prefix_of` code_bits d ++ codes e' ++ r') by (by rewrite <-H; eexists).
      assert (H2 : code_bits d `prefix_of` code_bits d ++ codes e' ++ r') by (by eexists).
      destruct (prefix_weak_total _ _ _ H1 H2) as [H3|H3]; [by apply code_prefix_free|].
      symmetry. by apply code_prefix_free. }
    apply app_inv_head in H. destruct (IH e' r r') as [-> ->]; done.
Qed.

(** *** The loop *)

(** The loop on half bytes. *)
Fixpoint run (nibs : list Z) (s : huff_state) : option (Z * huff_state) :=
  match nibs with
  | [] => Some (NGX_OK, s)
  | n :: nibs' =>
      '(rc, s) ← ngx_http_v2_huff_decode_bits n s;
      if negb (rc =? NGX_OK) then Some (NGX_ERROR, s) else run nibs' s
  end.

Definition nibbles (src : list Z) : list Z := concat (map (fun ch => [Z.shiftr ch 4; Z.land ch 0xf]) src).

Definition nibbles_bits (l : list Z) : list bool := concat (map (bits 4) l).

Lemma decode_loop_run src s : decode_loop src s = run (nibbles src) s.
Proof.
  revert s. induction src as [|ch src IH]; intros s; [done|].
  cbn [decode_loop nibbles map concat app run]. fold (nibbles src).
  destruct (ngx_http_v2_huff_decode_bits (Z.shiftr ch 4) s) as [[rc s1]|]; [|done]. cbn [mbind option_bind].
  destruct (negb (rc =? NGX_OK)); [done|].
  destruct (ngx_http_v2_huff_decode_bits (Z.land ch 15) s1) as [[rc2 s2]|]; [|done]. cbn [mbind option_bind].
  destruct (negb (rc2 =? NGX_OK)); [done|]. apply IH.
Qed.

Lemma nibble_range ch : is_byte ch ->
  0 <= Z.shiftr ch 4 < 16 /\ 0 <= Z.land ch 0xf < 16 /\ bits 8 ch = bits 4 (Z.shiftr ch 4) ++ bits 4 (Z.land ch 0xf).
Proof.
  unfold is_byte. intros H. rewrite Z.shiftr_div_pow2 by lia. change 0xf with (Z.ones 4).
  rewrite Z.land_ones by lia.
  pose proof (Z.mod_pos_bound ch (2 ^ 4)). split.
  - split; [apply Z.div_pos; lia|apply Z.div_lt_upper_bound; lia].
  - split; [lia|]. rewrite <-(Z.shiftr_div_pow2 ch 4) by lia.
    change 8%nat with (4 + 4)%nat. rewrite bits_app. f_equal. symmetry. by apply bits_mod.
Qed.

Lemma nibbles_ok src : Forall is_byte src ->
  Forall (fun n => 0 <= n < 16) (nibbles src) /\ nibbles_bits (nibbles src) = bytes_bits src.
Proof.
  intros H. induction H as [|ch src Hch H [IH1 IH2]]; [by split|].
  destruct (nibble_range ch Hch) as (H1 & H2 & H3).
  unfold nibbles. cbn [map concat app]. fold (nibbles src).
  split; [by apply Forall_cons; split; [|apply Forall_cons]|].
  unfold nibbles_bits, bytes_bits in *. cbn [map concat]. by rewrite IH2, H3, <-app_assoc.
Qed.

(** What the decoder has read is codes and the bits of its state; it stops only
    at 30 ones. *)
Lemma run_spec nibs : forall s,
  Forall (fun n => 0 <= n < 16) nibs -> 0 <= hd_state s < 256 ->
  exists rc s' out, run nibs s = Some (rc, s') /\ Forall is_byte out /\ hd_dst s' = hd_dst s ++ out /\
    0 <= hd_state s' < 256 /\
    (rc = NGX_OK /\ state_bits (hd_state s) ++ nibbles_bits nibs = codes out ++ state_bits (hd_state s') /\
       (nibs = [] /\ s' = s \/ (hd_ending s' <> 0 <-> all_ones (state_bits (hd_state s')) = true)) \/
     rc = NGX_ERROR /\ exists X, state_bits (hd_state s) ++ nibbles_bits nibs = codes out ++ X /\
       ones 30 `prefix_of` X).
Proof.
  induction nibs as [|n nibs IH]; intros s Hn Hs; cbn [run].
  - exists NGX_OK, s, []. rewrite !app_nil_r. split; [done|]. split; [done|]. split; [done|]. split; [done|].
    left. split; [done|]. split; [done|]. by left.
  - apply Forall_cons in Hn as [Hn Hnibs]. pose proof (transitions_ok _ _ Hs Hn) as Ht. unfold transition_ok in Ht.
    unfold ngx_http_v2_huff_decode_bits.
    destruct (ngx_http_v2_huff_decode_codes !! Z.to_nat (hd_state s)) as [row|]; [|done]. cbn [mbind option_bind].
    destruct (row !! Z.to_nat n) as [code|]; [|done]. cbn [mbind option_bind].
    change (nibbles_bits (n :: nibs)) with (bits 4 n ++ nibbles_bits nibs). rewrite app_assoc.
    destruct (dc_next code =? hd_state s).
    + cbn [Z.eqb NGX_ERROR NGX_OK negb]. exists NGX_ERROR, s, []. rewrite app_nil_r.
      split; [done|]. split; [done|]. split; [done|]. split; [done|]. right. split; [done|].
      eexists. split; [done|]. apply prefixb_spec in Ht. by apply prefix_app_r.
    + rewrite !andb_true_iff in Ht. destruct Ht as (((((Ht1 & Ht2) & Ht3) & Ht4) & Ht5) & Ht6).
      apply list_eqb_eq in Ht6. apply eqb_prop in Ht5. rewrite Ht6. cbn [mbind option_bind Z.eqb NGX_OK negb].
      set (s1 := mk_huff _ _ _).
      set (e := if dc_emit code =? 0 then [] else [dc_sym code]).
      assert (He : Forall is_byte e).
      { unfold e, is_byte. destruct (dc_emit code =? 0); repeat constructor; lia. }
      assert (Hd : hd_dst s1 = hd_dst s ++ e).
      { unfold e. cbn [s1 hd_dst]. destruct (dc_emit code =? 0); cbn [negb]; [by rewrite app_nil_r|done]. }
      assert (Hc : (if dc_emit code =? 0 then [] else code_bits (dc_sym code)) = codes e).
      { unfold e. destruct (dc_emit code =? 0); [done|]. cbn. by rewrite app_nil_r. }
      rewrite Hc. destruct (IH s1 Hnibs) as (rc & s' & out & -> & Hout & Hd' & Hs' & H); [cbn [s1 hd_state]; lia|].
      exists rc, s', (e ++ out). rewrite codes_app, <-!app_assoc. split; [done|].
      split; [by apply Forall_app|]. split; [by rewrite Hd', Hd, <-app_assoc|]. split; [done|].
      destruct H as [(-> & Heq & Hend)|(-> & X & Heq & HX)].
      * left. split; [done|]. cbn [s1 hd_state] in Heq. rewrite Heq. split; [done|]. right.
        destruct Hend as [[_ ->]|Hend]; [|done]. cbn [s1 hd_ending hd_state].
        split; [intros H; rewrite <-Ht5; by apply negb_true_iff, Z.eqb_neq|].
        rewrite <-Ht5. by intros H%negb_true_iff%Z.eqb_neq.
      * right. split; [done|]. exists X. cbn [s1 hd_state] in Heq. by rewrite Heq, <-?app_assoc.
Qed.

Lemma decode_result src :
  Forall is_byte src ->
  exists rc st dst, ngx_http_v2_huff_decode 0 src true = Some (rc, st, dst) /\ Forall is_byte dst /\
    (rc = NGX_OK /\ st = 0 /\ (exists k, (k <= 29)%nat /\ bytes_bits src = codes dst ++ ones k) \/
     rc = NGX_ERROR /\ forall out k, Forall is_byte out -> (k <= 29)%nat -> bytes_bits src <> codes out ++ ones k).
Proof.
  intros Hsrc. destruct (nibbles_ok src Hsrc) as [Hn Hb]. unfold ngx_http_v2_huff_decode.
  rewrite decode_loop_run. destruct (run_spec (nibbles src) (mk_huff 0 1 []) Hn) as
    (rc & s & out & -> & Hout & Hd & Hs & H); [cbn; lia|]. cbn [mbind option_bind].
  cbn [hd_state hd_dst app] in *. rewrite Hb in H. change (state_bits 0) with (@nil bool) in H.
  rewrite app_nil_l in H. rewrite Hd.
  destruct H as [(-> & Heq & Hend)|(-> & X & Heq & HX)]; cbn [Z.eqb NGX_OK NGX_ERROR negb].
  - assert (Hend' : hd_ending s <> 0 <-> all_ones (state_bits (hd_state s)) = true).
    { destruct Hend as [[_ ->]|Hend]; done. }
    destruct (hd_ending s =? 0) eqn:E.
    + exists NGX_ERROR, (hd_state s), out. split; [done|]. split; [done|]. right. split; [done|].
      intros out' k Hout' Hk H. rewrite Heq in H.
      destruct (codes_unique out out' _ _ Hout Hout' (blocked_state _ Hs) (blocked_ones k) H) as [_ Hst].
      apply Z.eqb_eq in E. apply Hend'; [|done]. rewrite Hst. apply all_ones_eq. by rewrite length_replicate.
    + exists NGX_OK, 0, out. split; [done|]. split; [done|]. left. split; [done|]. split; [done|].
      apply Z.eqb_neq, Hend' in E. pose proof (states_ok _ Hs) as Hok. unfold state_ok in Hok.
      apply andb_true_iff in Hok as [_ Hok]. rewrite E in Hok. cbn [negb orb] in Hok.
      apply all_ones_eq in E. exists (length (state_bits (hd_state s))). rewrite <-E.
      split; [by apply Nat.leb_le|done].
  - exists NGX_ERROR, (hd_state s), out. split; [done|]. split; [done|]. right. split; [done|].
    intros out' k Hout' Hk H. rewrite Heq in H.
    destruct (codes_unique out out' _ _ Hout Hout' (blocked_thirty X HX) (blocked_ones k) H) as [_ HXk].
    apply prefix_length in HX. rewrite HXk, !length_replicate in HX. lia.
Qed.

(** ** The contracts *)

(** The encoder writes the codes of the bytes, of the lower-case bytes if so
    told, fills the last byte with ones and returns the length, or returns 0 when
    the result would not be shorter than the source. *)
Theorem huff_encode_spec (src : list Z) (lower : bool) :
  Forall is_byte src ->
  let B := codes (if lower then map ngx_tolower src else src) in
  exists n dst, ngx_http_v2_huff_encode src lower = Some (n, dst) /\
    (n = 0 /\ 8 * Z.of_nat (length src) <= Z.of_nat (length B) + 7 \/
     n = Z.of_nat (length dst) /\ n < Z.of_nat (length src) /\ Forall is_byte dst /\
       exists k, (k < 8)%nat /\ bytes_bits dst = B ++ ones k).
Proof. apply huff_encode_bits. Qed.

(** The decoder accepts exactly the byte strings whose bits are the codes of
    some bytes and then at most 29 ones, and gives those bytes. *)
Theorem huff_decode_spec src out :
  Forall is_byte src -> Forall is_byte out ->
  ngx_http_v2_huff_decode 0 src true = Some (NGX_OK, 0, out) <->
  exists k, (k <= 29)%nat /\ bytes_bits src = codes out ++ ones k.
Proof.
  intros Hsrc Hout. destruct (decode_result src Hsrc) as (rc & st & dst & -> & Hd & H). split.
  - intros [= -> -> ->]. by destruct H as [(_ & _ & H)|[? _]].
  - intros (k & Hk & Heq). destruct H as [(-> & -> & k' & Hk' & Heq')|[-> H]].
    + rewrite Heq in Heq'.
      by destruct (codes_unique out dst _ _ Hout Hd (blocked_ones k) (blocked_ones k') Heq') as [-> _].
    + by destruct (H out k Hout Hk).
Qed.

(** What the encoder writes is decoded. *)
Lemma huff_decodes_encoded (src : list Z) (lower : bool) n dst :
  Forall is_byte src -> ngx_http_v2_huff_encode src lower = Some (n, dst) -> n <> 0 ->
  n = Z.of_nat (length dst) /\
  ngx_http_v2_huff_decode 0 dst true = Some (NGX_OK, 0, if lower then map ngx_tolower src else src).
Proof.
  intros Hsrc He Hn. destruct (huff_encode_bits src lower Hsrc) as (n' & dst' & E & H).
  rewrite He in E. injection E as <- <-. destruct H as [[? _]|(-> & _ & Hd & k & Hk & Heq)]; [done|].
  split; [done|]. destruct (decode_result dst Hd) as (rc & st & out & -> & Ho & H).
  assert (Hl : Forall is_byte (if lower then map ngx_tolower src else src)).
  { destruct lower; [|done]. apply Forall_map. eapply Forall_impl; [exact Hsrc|]. intros c Hc. by apply table_lc. }
  destruct H as [(-> & -> & k' & Hk' & Heq')|[-> H]].
  - rewrite Heq in Heq'.
    by destruct (codes_unique _ out _ _ Hl Ho (blocked_ones k) (blocked_ones k') Heq') as [-> _].
  - by destruct (H _ k Hl ltac:(lia) Heq).
Qed.

(** C22: what the encoder writes is decoded to the source, in lower case if the
    encoder was told so. *)
Theorem huff_round_trip (src : list Z) (lower : bool) n dst :
  Forall is_byte src -> ngx_http_v2_huff_encode src lower = Some (n, dst) -> n <> 0 ->
  n = Z.of_nat (length dst) /\
  ngx_http_v2_huff_decode 0 dst true = Some (NGX_OK, 0, if lower then map ngx_tolower src else src).
Proof. apply huff_decodes_encoded. Qed.

(** *** Strings that come in parts *)

(** [s] after what [d] was written first; [ending] is that of the last byte. *)
Definition after_output (d : list Z) (s : huff_state) : huff_state :=
  mk_huff (hd_state s) (hd_ending s) (d ++ hd_dst s).

Lemma decode_bits_after d e n s :
  ngx_http_v2_huff_decode_bits n (mk_huff (hd_state s) e (d ++ hd_dst s)) =
    '(rc, s') ← ngx_http_v2_huff_decode_bits n s;
    Some (rc, if rc =? NGX_OK then after_output d s' else mk_huff (hd_state s) e (d ++ hd_dst s)).
Proof.
  unfold ngx_http_v2_huff_decode_bits. cbn [hd_state].
  destruct (_ !! Z.to_nat (hd_state s)) as [row|]; [|done]. cbn [mbind option_bind].
  destruct (row !! Z.to_nat n) as [code|]; [|done]. cbn [mbind option_bind hd_dst].
  destruct (dc_next code =? hd_state s); [done|]. cbn [mbind option_bind].
  unfold after_output. cbn [hd_state hd_ending hd_dst Z.eqb NGX_OK].
  destruct (negb _); [by rewrite app_assoc|done].
Qed.

Lemma decode_loop_app a b s :
  decode_loop (a ++ b) s =
    '(rc, s') ← decode_loop a s; if negb (rc =? NGX_OK) then Some (NGX_ERROR, s') else decode_loop b s'.
Proof.
  revert s. induction a as [|ch a IH]; intros s; [done|]. cbn [app decode_loop].
  destruct (ngx_http_v2_huff_decode_bits (Z.shiftr ch 4) s) as [[rc s1]|]; [|done]. cbn [mbind option_bind].
  destruct (negb (rc =? NGX_OK)); [done|].
  destruct (ngx_http_v2_huff_decode_bits (Z.land ch 15) s1) as [[rc2 s2]|]; [|done]. cbn [mbind option_bind].
  destruct (negb (rc2 =? NGX_OK)); [done|]. apply IH.
Qed.

(** The loop goes on from the state alone. *)
Lemma decode_loop_after d b : forall e s,
  match decode_loop b s, decode_loop b (mk_huff (hd_state s) e (d ++ hd_dst s)) with
  | Some (rc, s1), Some (rc', s2) =>
      rc = rc' /\ hd_state s2 = hd_state s1 /\ hd_dst s2 = d ++ hd_dst s1 /\
      (rc = NGX_OK -> b <> [] \/ e = hd_ending s -> hd_ending s2 = hd_ending s1)
  | None, None => True
  | _, _ => False
  end.
Proof.
  induction b as [|ch b IH]; intros e s; cbn [decode_loop].
  - split; [done|]. split; [done|]. split; [done|]. by intros _ [?|?].
  - rewrite decode_bits_after. destruct (ngx_http_v2_huff_decode_bits (Z.shiftr ch 4) s) as [[rc s1]|] eqn:E1; [|done].
    cbn [mbind option_bind]. destruct (rc =? NGX_OK) eqn:Erc; cbn [negb].
    2: { assert (s1 = s) as ->; [|done].
         unfold ngx_http_v2_huff_decode_bits in E1.
         destruct (_ !! _) as [row|]; [|done]. cbn [mbind option_bind] in E1.
         destruct (row !! _) as [code|]; [|done]. cbn [mbind option_bind] in E1.
         case_match; [by injection E1|]. injection E1 as <- <-. done. }
    unfold after_output. rewrite decode_bits_after.
    destruct (ngx_http_v2_huff_decode_bits (Z.land ch 15) s1) as [[rc2 s2]|] eqn:E2; [|done].
    cbn [mbind option_bind]. destruct (rc2 =? NGX_OK) eqn:Erc2; cbn [negb].
    2: { assert (s2 = s1) as ->; [|done].
         unfold ngx_http_v2_huff_decode_bits in E2.
         destruct (_ !! _) as [row|]; [|done]. cbn [mbind option_bind] in E2.
         destruct (row !! _) as [code|]; [|done]. cbn [mbind option_bind] in E2.
         case_match; [by injection E2|]. injection E2 as <- <-. done. }
    specialize (IH (hd_ending s2) s2). unfold after_output.
    destruct (decode_loop b s2) as [[rc3 s3]|], (decode_loop b (mk_huff _ _ _)) as [[rc4 s4]|]; try done.
    destruct IH as (-> & H1 & H2 & H3). split; [done|]. split; [done|]. split; [done|]. auto.
Qed.

(** A string that comes in two parts, the second not empty, is decoded as if it
    had come whole. *)
Theorem huff_decode_parts st0 a b last st d :
  ngx_http_v2_huff_decode st0 a false = Some (NGX_OK, st, d) -> b <> [] ->
  ngx_http_v2_huff_decode st0 (a ++ b) last =
    '(rc, st', d') ← ngx_http_v2_huff_decode st b last; Some (rc, st', d ++ d').
Proof.
  unfold ngx_http_v2_huff_decode. intros Ha Hb. rewrite decode_loop_app.
  destruct (decode_loop a (mk_huff st0 1 [])) as [[rc s]|]; [|done]. cbn [mbind option_bind] in *.
  destruct (negb (rc =? NGX_OK)); [done|]. injection Ha as <- <-.
  pose proof (decode_loop_after (hd_dst s) b (hd_ending s) (mk_huff (hd_state s) 1 [])) as H.
  cbn [hd_state hd_dst] in H. rewrite app_nil_r in H.
  replace (mk_huff (hd_state s) (hd_ending s) (hd_dst s)) with s in H by (by destruct s).
  destruct (decode_loop b (mk_huff (hd_state s) 1 [])) as [[rc1 s1]|],
    (decode_loop b s) as [[rc2 s2]|]; try done. cbn [mbind option_bind].
  destruct H as (-> & H1 & H2 & H3). rewrite H1, H2. destruct (rc2 =? NGX_OK) eqn:E; cbn [negb]; [|done].
  rewrite H3 by (try (left; done); lia). destruct last; [|done]. by destruct (hd_ending s1 =? 0).
Qed.

(** What fails in the first part fails in the whole. *)
Lemma huff_decode_error st0 a b last :
  match ngx_http_v2_huff_decode st0 a false with
  | Some (rc, st, d) => rc = NGX_OK \/ ngx_http_v2_huff_decode st0 (a ++ b) last = Some (rc, st, d)
  | None => ngx_http_v2_huff_decode st0 (a ++ b) last = None
  end.
Proof.
  unfold ngx_http_v2_huff_decode. rewrite decode_loop_app.
  destruct (decode_loop a (mk_huff st0 1 [])) as [[rc s]|]; [|done]. cbn [mbind option_bind].
  destruct (negb (rc =? NGX_OK)) eqn:E; [|by left]. right. done.
Qed.

(** ** Witnesses *)

Lemma huff_encode_spec_witness :
  Forall is_byte [0x61; 0x62] /\
  exists n dst, ngx_http_v2_huff_encode [0x61; 0x62] false = Some (n, dst).
Proof.
  assert (H : Forall is_byte [0x61; 0x62]) by (by apply bytes_ok_spec).
  split; [exact H|]. destruct (huff_encode_spec [0x61; 0x62] false H) as (n & dst & E & _). by exists n, dst.
Defined.

Lemma huff_decode_spec_witness :
  ngx_http_v2_huff_decode 0 [0x1f] true = Some (NGX_OK, 0, [0x61]).
Proof.
  apply (huff_decode_spec [0x1f] [0x61]); [by apply bytes_ok_spec|by apply bytes_ok_spec|].
  exists 3%nat. split; [lia|vm_compute; reflexivity].
Defined.

Lemma huff_round_trip_witness :
  ngx_http_v2_huff_decode 0 [0xf1; 0xe3; 0xc2; 0xe3] true = Some (NGX_OK, 0, bytes "www.a").
Proof.
  assert (E : ngx_http_v2_huff_encode (bytes "wWw.A") true = Some (4, [0xf1; 0xe3; 0xc2; 0xe3])) by (vm_compute; reflexivity).
  apply (huff_round_trip (bytes "wWw.A") true 4); [by apply bytes_ok_spec|exact E|lia].
Defined.

(** ** What the decoder does at its edges *)

(** Three whole bytes of padding are accepted. *)
Theorem huff_padding_too_long :
  ngx_http_v2_huff_decode 0 [0xff; 0xff; 0xff] true = Some (NGX_OK, 0, []).
Proof. by vm_compute. Qed.
