(* ===== verification/HpackTable.v ===== *)
(** * The header table of HTTP/2

    [src/http/v2/ngx_http_v2_table.c]: the static table and the dynamic one, whose
    strings are in a ring of 4096 bytes and whose entries are pointers in an array
    that is used as a ring, grows by 64, and gives the headers of deleted entries
    to new ones.

    A pointer to a header is its index in [hp_heap], a pointer into the storage an
    offset.  [None] is a fault: a slot that was never set, bytes outside the
    storage.  Allocations succeed. *)

From S2P Require Import Prelude.

Definition NGX_HTTP_V2_TABLE_SIZE : Z := 4096.

(** [ngx_http_v2_header_t] by value. *)
Abbreviation header := (list Z * list Z)%type.

Definition ngx_http_v2_static_table : list header := [
  (bytes ":authority", bytes "");
  (bytes ":method", bytes "GET");
  (bytes ":method", bytes "POST");
  (bytes ":path", bytes "/");
  (bytes ":path", bytes "/index.html");
  (bytes ":scheme", bytes "http");
  (bytes ":scheme", bytes "https");
  (bytes ":status", bytes "200");
  (bytes ":status", bytes "204");
  (bytes ":status", bytes "206");
  (bytes ":status", bytes "304");
  (bytes ":status", bytes "400");
  (bytes ":status", bytes "404");
  (bytes ":status", bytes "500");
  (bytes "accept-charset", bytes "");
  (bytes "accept-encoding", bytes "gzip, deflate");
  (bytes "accept-language", bytes "");
  (bytes "accept-ranges", bytes "");
  (bytes "accept", bytes "");
  (bytes "access-control-allow-origin", bytes "");
  (bytes "age", bytes "");
  (bytes "allow", bytes "");
  (bytes "authorization", bytes "");
  (bytes "cache-control", bytes "");
  (bytes "content-disposition", bytes "");
  (bytes "content-encoding", bytes "");
  (bytes "content-language", bytes "");
  (bytes "content-length", bytes "");
  (bytes "content-location", bytes "");
  (bytes "content-range", bytes "");
  (bytes "content-type", bytes "");
  (bytes "cookie", bytes "");
  (bytes "date", bytes "");
  (bytes "etag", bytes "");
  (bytes "expect", bytes "");
  (bytes "expires", bytes "");
  (bytes "from", bytes "");
  (bytes "host", bytes "");
  (bytes "if-match", bytes "");
  (bytes "if-modified-since", bytes "");
  (bytes "if-none-match", bytes "");
  (bytes "if-range", bytes "");
  (bytes "if-unmodified-since", bytes "");
  (bytes "last-modified", bytes "");
  (bytes "link", bytes "");
  (bytes "location", bytes "");
  (bytes "max-forwards", bytes "");
  (bytes "proxy-authenticate", bytes "");
  (bytes "proxy-authorization", bytes "");
  (bytes "range", bytes "");
  (bytes "referer", bytes "");
  (bytes "refresh", bytes "");
  (bytes "retry-after", bytes "");
  (bytes "server", bytes "");
  (bytes "set-cookie", bytes "");
  (bytes "strict-transport-security", bytes "");
  (bytes "transfer-encoding", bytes "");
  (bytes "user-agent", bytes "");
  (bytes "vary", bytes "");
  (bytes "via", bytes "");
  (bytes "www-authenticate", bytes "")
].

Definition NGX_HTTP_V2_STATIC_TABLE_ENTRIES : Z := Z.of_nat (length ngx_http_v2_static_table).

(** An [ngx_http_v2_header_t] whose strings are in the storage. *)
Record hentry : Type := mk_hentry { he_name_len : Z; he_name : Z; he_value_len : Z; he_value : Z }.

(** [ngx_http_v2_hpack_t] and the headers that its entries point to. *)
Record hpack : Type := mk_hpack {
  hp_entries : option (list (option nat));
  hp_added : Z; hp_deleted : Z; hp_reused : Z; hp_allocated : Z;
  hp_size : Z; hp_free : Z;
  hp_storage : list Z; hp_pos : Z;
  hp_heap : list hentry
}.

(** As [ngx_pcalloc] leaves it. *)
Definition hpack_zero : hpack := mk_hpack None 0 0 0 0 0 0 [] 0 [].

Definition set_entries e a d r al t :=
  mk_hpack e a d r al (hp_size t) (hp_free t) (hp_storage t) (hp_pos t) (hp_heap t).
Definition set_deleted d f t :=
  mk_hpack (hp_entries t) (hp_added t) d (hp_reused t) (hp_allocated t) (hp_size t) f
    (hp_storage t) (hp_pos t) (hp_heap t).
Definition set_free f t := set_deleted (hp_deleted t) f t.
Definition set_size s t :=
  mk_hpack (hp_entries t) (hp_added t) (hp_deleted t) (hp_reused t) (hp_allocated t) s (hp_free t)
    (hp_storage t) (hp_pos t) (hp_heap t).
Definition set_storage st p t :=
  mk_hpack (hp_entries t) (hp_added t) (hp_deleted t) (hp_reused t) (hp_allocated t) (hp_size t) (hp_free t)
    st p (hp_heap t).
Definition set_hheap r h t :=
  mk_hpack (hp_entries t) (hp_added t) (hp_deleted t) r (hp_allocated t) (hp_size t) (hp_free t)
    (hp_storage t) (hp_pos t) h.

(** [memcpy] from and to the storage. *)
Definition read_mem (st : list Z) (off len : Z) : option (list Z) :=
  if (0 <=? off) && (0 <=? len) && (off + len <=? Z.of_nat (length st)) then Some (slice st off (off + len))
  else None.

Definition write_mem (st : list Z) (off : Z) (data : list Z) : option (list Z) :=
  if (0 <=? off) && (off + Z.of_nat (length data) <=? Z.of_nat (length st)) then
    Some (take (Z.to_nat off) st ++ data ++ drop (Z.to_nat off + length data) st)
  else None.

(** [entries[i % allocated]] *)
Definition entry_slot (t : hpack) (i : Z) : option nat :=
  entries ← hp_entries t;
  slot ← entries !! Z.to_nat (i mod hp_allocated t);
  slot.

Definition entry_at (t : hpack) (i : Z) : option hentry := p ← entry_slot t i; hp_heap t !! p.

(** ** ngx_http_v2_get_indexed_header *)

(** A string of an entry, which may go on at the start of the storage. *)
Definition copy_string (t : hpack) (data len : Z) : option (list Z) :=
  let rest := NGX_HTTP_V2_TABLE_SIZE - data in
  if rest <? len then
    a ← read_mem (hp_storage t) data rest;
    b ← read_mem (hp_storage t) 0 (len - rest);
    Some (a ++ b)
  else read_mem (hp_storage t) data len.

(** The code and the new [h2c->state.header]. *)
Definition ngx_http_v2_get_indexed_header (t : hpack) (index : Z) (name_only : bool) (old : header)
    : option (Z * header) :=
  if index =? 0 then Some (NGX_ERROR, old)
  else
    let index := index - 1 in
    if index <? NGX_HTTP_V2_STATIC_TABLE_ENTRIES then
      h ← ngx_http_v2_static_table !! Z.to_nat index;
      Some (NGX_OK, h)
    else
      let index := index - NGX_HTTP_V2_STATIC_TABLE_ENTRIES in
      if index <? hp_added t - hp_deleted t then
        entry ← entry_at t (hp_added t - index - 1);
        name ← copy_string t (he_name entry) (he_name_len entry);
        if name_only then Some (NGX_OK, (name, snd old))
        else
          value ← copy_string t (he_value entry) (he_value_len entry);
          Some (NGX_OK, (name, value))
      else Some (NGX_ERROR, old).

(** ** ngx_http_v2_table_account *)

(** [do { ... } while (size > free);] *)
Fixpoint account_loop (fuel : nat) (size : Z) (t : hpack) : option hpack :=
  match fuel with
  | O => None
  | S fuel' =>
      entry ← entry_at t (hp_deleted t);
      let t := set_deleted (hp_deleted t + 1) (hp_free t + (32 + he_name_len entry + he_value_len entry)) t in
      if hp_free t <? size then account_loop fuel' size t else Some t
  end.

(** As many turns as there are entries. *)
Definition hpack_fuel (t : hpack) : nat := Z.to_nat (hp_added t - hp_deleted t).

Definition ngx_http_v2_table_account (t : hpack) (size : Z) : option (Z * hpack) :=
  let size := size + 32 in
  if size <=? hp_free t then Some (NGX_OK, set_free (hp_free t - size) t)
  else if hp_size t <? size then Some (NGX_DECLINED, set_deleted (hp_added t) (hp_size t) t)
  else
    t ← account_loop (hpack_fuel t) size t;
    Some (NGX_OK, set_free (hp_free t - size) t).

(** ** ngx_http_v2_add_header *)

(** The first call allocates; what is in memory before it is written does not
    matter. *)
Definition table_init (t : hpack) : hpack :=
  match hp_entries t with
  | Some _ => t
  | None =>
      mk_hpack (Some (replicate 64 None)) (hp_added t) (hp_deleted t) (hp_reused t) 64
        NGX_HTTP_V2_TABLE_SIZE NGX_HTTP_V2_TABLE_SIZE
        (replicate (Z.to_nat NGX_HTTP_V2_TABLE_SIZE) 0) 0 (hp_heap t)
  end.

(** A string put at [pos], with [avail] bytes to the end: the new storage, [pos]
    and what the code takes for [avail]. *)
Definition put_string (st : list Z) (pos avail : Z) (data : list Z) : option (list Z * Z * Z) :=
  let len := Z.of_nat (length data) in
  if len <=? avail then
    st ← write_mem st pos data;
    Some (st, pos + len, avail - len)
  else
    st ← write_mem st pos (take (Z.to_nat avail) data);
    st ← write_mem st 0 (drop (Z.to_nat avail) data);
    Some (st, len - avail, NGX_HTTP_V2_TABLE_SIZE - len).

(** The array with 64 more slots, the entries in their order at its start. *)
Definition grow_entries (t : hpack) : option hpack :=
  if hp_allocated t =? hp_added t - hp_deleted t then
    entries ← hp_entries t;
    let index := Z.to_nat (hp_deleted t mod hp_allocated t) in
    Some (set_entries (Some (drop index entries ++ take index entries ++ replicate 64 None))
      (hp_allocated t) 0 0 (hp_allocated t + 64) t)
  else Some t.

(** [entries[added++ % allocated] = entry] *)
Definition append_entry (p : nat) (t : hpack) : option hpack :=
  entries ← hp_entries t;
  let i := Z.to_nat (hp_added t mod hp_allocated t) in
  if (i <? length entries)%nat then
    Some (set_entries (Some (<[i := Some p]> entries)) (hp_added t + 1) (hp_deleted t) (hp_reused t)
      (hp_allocated t) t)
  else None.

(** A new header, or one whose entry was deleted. *)
Definition take_entry (t : hpack) : option (nat * hpack) :=
  if hp_reused t =? hp_deleted t then
    Some (length (hp_heap t), set_hheap (hp_reused t) (hp_heap t ++ [mk_hentry 0 0 0 0]) t)
  else
    p ← entry_slot t (hp_reused t);
    Some (p, set_hheap (hp_reused t + 1) (hp_heap t) t).

Definition ngx_http_v2_add_header (t : hpack) (h : header) : option (Z * hpack) :=
  let '(name, value) := h in
  let t := table_init t in
  '(rc, t) ← ngx_http_v2_table_account t (Z.of_nat (length name) + Z.of_nat (length value));
  if negb (rc =? NGX_OK) then Some (NGX_OK, t)
  else
    '(p, t) ← take_entry t;
    let avail := NGX_HTTP_V2_TABLE_SIZE - hp_pos t in
    '(st, pos, avail) ← put_string (hp_storage t) (hp_pos t) avail name;
    '(st, pos', _) ← put_string st pos avail value;
    let e := mk_hentry (Z.of_nat (length name)) (hp_pos t) (Z.of_nat (length value)) pos in
    let t := set_storage st pos' (set_hheap (hp_reused t) (<[p := e]> (hp_heap t)) t) in
    t ← grow_entries t;
    t ← append_entry p t;
    Some (NGX_OK, t).

(** ** ngx_http_v2_table_size *)

Fixpoint size_loop (fuel : nat) (needed : Z) (t : hpack) : option hpack :=
  if i64 (hp_free t) <? needed then
    match fuel with
    | O => None
    | S fuel' =>
        entry ← entry_at t (hp_deleted t);
        size_loop fuel' needed
          (set_deleted (hp_deleted t + 1) (hp_free t + (32 + he_name_len entry + he_value_len entry)) t)
    end
  else Some t.

Definition ngx_http_v2_table_size (t : hpack) (size : Z) : option (Z * hpack) :=
  if NGX_HTTP_V2_TABLE_SIZE <? size then Some (NGX_ERROR, t)
  else
    let needed := i64 (u64 (hp_size t - size)) in
    t ← size_loop (hpack_fuel t) needed t;
    Some (NGX_OK, set_free (u64 (hp_free t - needed)) (set_size size t)).

Example hpack_sample :
  match ngx_http_v2_add_header hpack_zero (bytes "a", bytes "xyz") with
  | Some (rc, t) => rc = NGX_OK /\
      ngx_http_v2_get_indexed_header t 62 false ([], []) = Some (NGX_OK, (bytes "a", bytes "xyz")) /\
      ngx_http_v2_get_indexed_header t 63 false ([], []) = Some (NGX_ERROR, ([], [])) /\
      ngx_http_v2_get_indexed_header t 2 false ([], []) = Some (NGX_OK, (bytes ":method", bytes "GET"))
  | None => False
  end.
Proof. by vm_compute. Qed.
