(* ===== verification/HpackRing.v ===== *)
(** * The ring of bytes of the header table

    What reading and writing strings in the storage of [HpackTable] means when a
    position is taken modulo its size. *)

From S2P Require Import Prelude HpackTable.

#[local] Ltac Zify.zify_post_hook ::= Z.to_euclidean_division_equations.

(** [n] bytes from [p] on, [p] taken modulo the size. *)
Definition ring (st : list Z) (p : Z) (n : nat) : list Z :=
  map (fun i => byte_at st ((p + Z.of_nat i) mod NGX_HTTP_V2_TABLE_SIZE)) (seq 0 n).

Lemma ring_mod st p q n : p mod NGX_HTTP_V2_TABLE_SIZE = q mod NGX_HTTP_V2_TABLE_SIZE -> ring st p n = ring st q n.
Proof.
  intros H. apply map_ext. intros i. f_equal. unfold NGX_HTTP_V2_TABLE_SIZE in *.
  rewrite <-(Zplus_mod_idemp_l p), H. by rewrite Zplus_mod_idemp_l.
Qed.

Lemma length_ring st p n : length (ring st p n) = n.
Proof. unfold ring. by rewrite length_map, length_seq. Qed.

(** Lists of bytes are equal when their bytes are. *)
Lemma bytes_ext (a b : list Z) :
  length a = length b -> (forall i, 0 <= i < Z.of_nat (length a) -> byte_at a i = byte_at b i) -> a = b.
Proof.
  intros Hl H. apply list_eq. intros i.
  destruct (decide (i < length a)%nat) as [Hi|Hi].
  - specialize (H (Z.of_nat i) ltac:(lia)). unfold byte_at in H.
    rewrite (proj2 (Z.ltb_ge _ 0)), !Nat2Z.id in H by lia. rewrite !nth_lookup in H.
    destruct (lookup_lt_is_Some_2 a i Hi) as [x Hx], (lookup_lt_is_Some_2 b i ltac:(lia)) as [y Hy].
    rewrite Hx, Hy in *. cbn in H. by subst.
  - rewrite !lookup_ge_None_2 by lia. done.
Qed.

Lemma byte_at_ring st p n i :
  0 <= i < Z.of_nat n -> byte_at (ring st p n) i = byte_at st ((p + i) mod NGX_HTTP_V2_TABLE_SIZE).
Proof.
  intros Hi. unfold byte_at at 1. rewrite (proj2 (Z.ltb_ge i 0)) by lia. unfold ring.
  rewrite nth_lookup. change (map ?f ?l) with (f <$> l). rewrite list_lookup_fmap, lookup_seq_lt by lia.
  cbn. f_equal. f_equal. lia.
Qed.

Lemma byte_at_app l1 l2 i : 0 <= i ->
  byte_at (l1 ++ l2) i = if i <? Z.of_nat (length l1) then byte_at l1 i else byte_at l2 (i - Z.of_nat (length l1)).
Proof.
  intros Hi. unfold byte_at. case_ifs; try lia.
  - apply app_nth1. lia.
  - rewrite app_nth2 by lia. f_equal. lia.
Qed.

Lemma read_mem_slice st off len :
  0 <= off -> 0 <= len -> off + len <= Z.of_nat (length st) -> read_mem st off len = Some (slice st off (off + len)).
Proof. intros. unfold read_mem. case_ifs; [done|lia]. Qed.

Lemma copy_string_ring t data len :
  Z.of_nat (length (hp_storage t)) = NGX_HTTP_V2_TABLE_SIZE ->
  0 <= data <= NGX_HTTP_V2_TABLE_SIZE -> 0 <= len <= NGX_HTTP_V2_TABLE_SIZE ->
  copy_string t data len = Some (ring (hp_storage t) data (Z.to_nat len)).
Proof.
  intros Hst Hd Hl. unfold copy_string, NGX_HTTP_V2_TABLE_SIZE in *.
  destruct (4096 - data <? len) eqn:E.
  - rewrite !read_mem_slice by lia. cbn [mbind option_bind]. f_equal. apply bytes_ext.
    + rewrite length_app, length_ring. pose proof (length_slice (hp_storage t) data (data + (4096 - data))).
      pose proof (length_slice (hp_storage t) 0 (0 + (len - (4096 - data)))). lia.
    + rewrite length_app. pose proof (length_slice (hp_storage t) data (data + (4096 - data)) ltac:(lia) ltac:(lia)) as H1.
      pose proof (length_slice (hp_storage t) 0 (0 + (len - (4096 - data))) ltac:(lia) ltac:(lia)) as H2.
      intros i Hi. rewrite byte_at_app, byte_at_ring by lia. unfold NGX_HTTP_V2_TABLE_SIZE.
      case_ifs; rewrite byte_at_slice by lia; f_equal; lia.
  - rewrite read_mem_slice by lia. f_equal.
    pose proof (length_slice (hp_storage t) data (data + len) ltac:(lia) ltac:(lia)) as H1. apply bytes_ext.
    + rewrite length_ring. lia.
    + intros i Hi. rewrite byte_at_ring, byte_at_slice by lia. unfold NGX_HTTP_V2_TABLE_SIZE. f_equal. lia.
Qed.

Lemma write_mem_spec st off data :
  0 <= off -> off + Z.of_nat (length data) <= Z.of_nat (length st) ->
  exists st', write_mem st off data = Some st' /\ length st' = length st /\
    forall i, 0 <= i -> byte_at st' i =
      if (off <=? i) && (i <? off + Z.of_nat (length data)) then byte_at data (i - off) else byte_at st i.
Proof.
  intros Ho Hl. unfold write_mem. rewrite (proj2 (Z.leb_le 0 off)), (proj2 (Z.leb_le _ _)) by lia.
  eexists. split; [done|]. split; [rewrite !length_app, length_take, length_drop; lia|].
  intros i Hi. rewrite byte_at_app, length_take by lia.
  replace (Z.of_nat (Z.to_nat off `min` length st)) with off by lia.
  destruct (i <? off) eqn:E1; destruct (off <=? i) eqn:E2; try lia; cbn [andb].
  - unfold byte_at. case_ifs; [done|]. rewrite !nth_lookup, lookup_take_lt by lia. done.
  - rewrite byte_at_app by lia.
    destruct (i - off <? Z.of_nat (length data)) eqn:E3; destruct (i <? off + Z.of_nat (length data)) eqn:E4; try lia; try done.
    unfold byte_at. rewrite !(proj2 (Z.ltb_ge _ 0)) by lia.
    rewrite !nth_lookup, lookup_drop. do 2 f_equal. lia.
Qed.

(** A string put into the ring: its bytes, and the others as before. *)
Lemma put_string_spec st pos avail data :
  Z.of_nat (length st) = NGX_HTTP_V2_TABLE_SIZE -> 0 <= pos <= NGX_HTTP_V2_TABLE_SIZE ->
  Z.of_nat (length data) <= NGX_HTTP_V2_TABLE_SIZE ->
  avail = NGX_HTTP_V2_TABLE_SIZE - pos \/ Z.of_nat (length data) <= avail <= NGX_HTTP_V2_TABLE_SIZE - pos ->
  exists st' pos' avail', put_string st pos avail data = Some (st', pos', avail') /\
    length st' = length st /\ 0 <= pos' <= NGX_HTTP_V2_TABLE_SIZE /\
    pos' mod NGX_HTTP_V2_TABLE_SIZE = (pos + Z.of_nat (length data)) mod NGX_HTTP_V2_TABLE_SIZE /\
    (avail = NGX_HTTP_V2_TABLE_SIZE - pos ->
     avail' = NGX_HTTP_V2_TABLE_SIZE - pos' \/
     NGX_HTTP_V2_TABLE_SIZE - Z.of_nat (length data) <= avail' <= NGX_HTTP_V2_TABLE_SIZE - pos') /\
    forall i, 0 <= i < NGX_HTTP_V2_TABLE_SIZE -> byte_at st' i =
      let k := (i - pos) mod NGX_HTTP_V2_TABLE_SIZE in
      if k <? Z.of_nat (length data) then byte_at data k else byte_at st i.
Proof.
  unfold NGX_HTTP_V2_TABLE_SIZE. intros Hst Hp Hd Ha. unfold put_string, NGX_HTTP_V2_TABLE_SIZE. cbv zeta.
  destruct (Z.of_nat (length data) <=? avail) eqn:E.
  - destruct (write_mem_spec st pos data) as (st' & -> & Hl & Hb); [lia|lia|]. cbn [mbind option_bind].
    eexists _, _, _. split; [done|]. split; [done|]. split; [lia|]. split; [done|]. split; [lia|].
    intros i Hi. rewrite Hb by lia.
    destruct ((pos <=? i) && (i <? pos + Z.of_nat (length data))) eqn:E1.
    + replace ((i - pos) mod 4096) with (i - pos) by lia.
      by rewrite (proj2 (Z.ltb_lt _ _)) by lia.
    + by rewrite (proj2 (Z.ltb_ge _ _)) by lia.
  - assert (Hav : avail = 4096 - pos) by lia.
    destruct (write_mem_spec st pos (take (Z.to_nat avail) data)) as (st1 & -> & Hl1 & Hb1);
      [lia|rewrite length_take; lia|]. cbn [mbind option_bind].
    destruct (write_mem_spec st1 0 (drop (Z.to_nat avail) data)) as (st2 & -> & Hl2 & Hb2);
      [lia|rewrite length_drop; lia|]. cbn [mbind option_bind].
    eexists _, _, _. split; [done|]. split; [congruence|]. split; [lia|]. split; [lia|]. split; [lia|].
    intros i Hi. rewrite Hb2 by lia. rewrite length_drop.
    destruct ((0 <=? i) && _) eqn:E1.
    + replace ((i - pos) mod 4096) with (i - pos + 4096) by lia.
      rewrite (proj2 (Z.ltb_lt _ _)) by lia. rewrite <-(take_drop (Z.to_nat avail) data) at 2.
      rewrite byte_at_app by lia. rewrite length_take. rewrite (proj2 (Z.ltb_ge _ _)) by lia. f_equal. lia.
    + rewrite Hb1 by lia. rewrite length_take.
      destruct ((pos <=? i) && _) eqn:E2.
      * replace ((i - pos) mod 4096) with (i - pos) by lia.
        rewrite (proj2 (Z.ltb_lt _ _)) by lia. rewrite <-(take_drop (Z.to_nat avail) data) at 2.
        rewrite byte_at_app by lia. rewrite length_take. by rewrite (proj2 (Z.ltb_lt _ _)) by lia.
      * by rewrite (proj2 (Z.ltb_ge _ _)) by lia.
Qed.

(** What the ring then holds. *)
Lemma ring_written st st' pos data :
  (forall i, 0 <= i < NGX_HTTP_V2_TABLE_SIZE -> byte_at st' i =
      let k := (i - pos) mod NGX_HTTP_V2_TABLE_SIZE in
      if k <? Z.of_nat (length data) then byte_at data k else byte_at st i) ->
  Z.of_nat (length data) <= NGX_HTTP_V2_TABLE_SIZE ->
  ring st' pos (length data) = data /\
  forall d (m : nat), 0 <= d -> d + Z.of_nat m + Z.of_nat (length data) <= NGX_HTTP_V2_TABLE_SIZE ->
    ring st' (pos - d - Z.of_nat m) m = ring st (pos - d - Z.of_nat m) m.
Proof.
  unfold NGX_HTTP_V2_TABLE_SIZE. intros H Hl. split.
  - apply bytes_ext; [apply length_ring|]. rewrite length_ring. intros i Hi. rewrite byte_at_ring by lia.
    unfold NGX_HTTP_V2_TABLE_SIZE. rewrite H by lia. cbv zeta.
    replace (((pos + i) mod 4096 - pos) mod 4096) with i by lia. by rewrite (proj2 (Z.ltb_lt _ _)) by lia.
  - intros d m Hd Hm. apply bytes_ext; [by rewrite !length_ring|]. rewrite length_ring. intros i Hi.
    rewrite !byte_at_ring by lia. unfold NGX_HTTP_V2_TABLE_SIZE. rewrite H by lia. cbv zeta.
    replace (((pos - d - Z.of_nat m + i) mod 4096 - pos) mod 4096) with (4096 - d - Z.of_nat m + i) by lia.
    by rewrite (proj2 (Z.ltb_ge _ _)) by lia.
Qed.
