(* ===== verification/HpackSpec.v ===== *)
(** * The dynamic table of HTTP/2 is a list of headers

    [machine] is the table as the standard describes it: a list of headers, the
    newest first, cut from the old end to a size in bytes.  The rings of
    [HpackTable] implement it: no operation faults, reads what was not written or
    returns a string that has been overwritten. *)

From S2P Require Import Prelude HpackTable HpackRing.

(** ** The table as a list *)

Definition header_size (h : header) : Z := 32 + Z.of_nat (length (fst h)) + Z.of_nat (length (snd h)).

Definition table_size (l : list header) : Z := foldr (fun h n => header_size h + n) 0 l.

(** The newest entries that fit. *)
Fixpoint keep (limit : Z) (l : list header) : list header :=
  match l with
  | [] => []
  | h :: l' => if header_size h <=? limit then h :: keep (limit - header_size h) l' else []
  end.

Lemma header_size_pos h : 32 <= header_size h.
Proof. unfold header_size. lia. Qed.

Lemma table_size_nonneg l : 0 <= table_size l.
Proof. induction l as [|h l IH]; cbn [table_size foldr]; [done|]. fold (table_size l). pose proof (header_size_pos h). lia. Qed.

Lemma table_size_cons h l : table_size (h :: l) = header_size h + table_size l.
Proof. done. Qed.

Lemma table_size_app a b : table_size (a ++ b) = table_size a + table_size b.
Proof. induction a as [|h a IH]; [done|]. cbn [app]. rewrite !table_size_cons. lia. Qed.

Lemma keep_all limit l : table_size l <= limit -> keep limit l = l.
Proof.
  revert limit. induction l as [|h l IH]; intros limit H; [done|]. rewrite table_size_cons in H.
  pose proof (table_size_nonneg l). cbn [keep]. rewrite (proj2 (Z.leb_le _ _)) by lia. by rewrite IH by lia.
Qed.

Lemma keep_snoc limit l h : limit < table_size (l ++ [h]) -> keep limit (l ++ [h]) = keep limit l.
Proof.
  revert limit. induction l as [|x l IH]; intros limit H.
  - cbn [app] in *. rewrite table_size_cons in H. cbn [keep table_size foldr] in *.
    by rewrite (proj2 (Z.leb_gt _ _)) by lia.
  - cbn [app keep] in *. rewrite table_size_cons in H. destruct (header_size x <=? limit); [|done].
    by rewrite IH by lia.
Qed.

(** The strings of [l] end at [pos] in the ring, its entries at the number [k]. *)
Fixpoint laid (t : hpack) (k pos : Z) (l : list header) : Prop :=
  match l with
  | [] => True
  | (n, v) :: l' =>
      let pv := pos - Z.of_nat (length v) in
      let pn := pv - Z.of_nat (length n) in
      (exists e, entry_at t (k - 1) = Some e /\
        he_name_len e = Z.of_nat (length n) /\ he_value_len e = Z.of_nat (length v) /\
        0 <= he_name e <= NGX_HTTP_V2_TABLE_SIZE /\ 0 <= he_value e <= NGX_HTTP_V2_TABLE_SIZE /\
        he_name e mod NGX_HTTP_V2_TABLE_SIZE = pn mod NGX_HTTP_V2_TABLE_SIZE /\
        he_value e mod NGX_HTTP_V2_TABLE_SIZE = pv mod NGX_HTTP_V2_TABLE_SIZE /\
        ring (hp_storage t) pn (length n) = n /\ ring (hp_storage t) pv (length v) = v) /\
      laid t (k - 1) pn l'
  end.

(** [t] has the headers [l], the newest first, their strings end at [q], and [r]
    bytes are put aside. *)
Record table_at (r q : Z) (t : hpack) (l : list header) : Prop := mk_table_at {
  ta_entries : exists es, hp_entries t = Some es /\ Z.of_nat (length es) = hp_allocated t;
  ta_allocated : 0 < hp_allocated t;
  ta_counts : 0 <= hp_reused t <= hp_deleted t /\ hp_added t = hp_deleted t + Z.of_nat (length l);
  ta_window : hp_added t - hp_reused t <= hp_allocated t;
  ta_slots : forall i, hp_reused t <= i < hp_added t ->
    exists p, entry_slot t i = Some p /\ (p < length (hp_heap t))%nat;
  ta_apart : forall i j p, hp_reused t <= i < hp_added t -> hp_reused t <= j < hp_added t ->
    entry_slot t i = Some p -> entry_slot t j = Some p -> i = j;
  ta_size : 0 <= hp_size t <= NGX_HTTP_V2_TABLE_SIZE;
  ta_free : hp_free t = hp_size t - table_size l - r /\ 0 <= hp_free t;
  ta_storage : Z.of_nat (length (hp_storage t)) = NGX_HTTP_V2_TABLE_SIZE;
  ta_pos : 0 <= hp_pos t <= NGX_HTTP_V2_TABLE_SIZE;
  ta_laid : laid t (hp_added t) q l
}.

Lemma laid_ext t t' k k' pos l :
  laid t k pos l ->
  (forall j, 0 < j <= Z.of_nat (length l) -> entry_at t' (k' - j) = entry_at t (k - j)) ->
  (forall d (m : nat), 0 <= d -> d + Z.of_nat m + 32 * Z.of_nat (length l) <= table_size l ->
    ring (hp_storage t') (pos - d - Z.of_nat m) m = ring (hp_storage t) (pos - d - Z.of_nat m) m) ->
  laid t' k' pos l.
Proof.
  revert k k' pos. induction l as [|[n v] l IH]; intros k k' pos H He Hr; [done|].
  cbn [laid] in *. rewrite table_size_cons in Hr. unfold header_size in Hr. cbn [fst snd length] in Hr.
  assert (Hge : 32 * Z.of_nat (length l) <= table_size l).
  { clear. induction l as [|h l IH]; [done|]. rewrite table_size_cons. pose proof (header_size_pos h).
    cbn [length]. lia. }
  destruct H as [(e & Hent & H1 & H2 & H3 & H4 & H5 & H6 & H7 & H8) Hl]. split.
  - exists e. rewrite He by (cbn [length]; lia). do 7 (split; [done|]).
    pose proof (Hr (Z.of_nat (length v)) (length n) ltac:(lia) ltac:(lia)) as R1.
    pose proof (Hr 0 (length v) ltac:(lia) ltac:(lia)) as R2.
    rewrite Z.sub_0_r in R2. by rewrite R1, R2.
  - apply (IH (k - 1)); [done| |].
    + intros j Hj. replace (k' - 1 - j) with (k' - (j + 1)) by lia. replace (k - 1 - j) with (k - (j + 1)) by lia.
      apply He. cbn [length]. lia.
    + intros d m Hd Hm. specialize (Hr (d + Z.of_nat (length v) + Z.of_nat (length n)) m ltac:(lia) ltac:(lia)).
      replace (pos - (d + Z.of_nat (length v) + Z.of_nat (length n)) - Z.of_nat m) with
        (pos - Z.of_nat (length v) - Z.of_nat (length n) - d - Z.of_nat m) in Hr by lia. done.
Qed.

Lemma laid_same t t' k pos l :
  (forall i, entry_at t' i = entry_at t i) -> hp_storage t' = hp_storage t ->
  laid t k pos l -> laid t' k pos l.
Proof. intros He Hs H. apply (laid_ext t t' k k pos l H); [by intros|by rewrite Hs]. Qed.

Lemma laid_mod t k p q l :
  p mod NGX_HTTP_V2_TABLE_SIZE = q mod NGX_HTTP_V2_TABLE_SIZE -> laid t k p l -> laid t k q l.
Proof.
  revert k p q. induction l as [|[n v] l IH]; intros k p q H Hl; [done|]. cbn [laid] in *.
  destruct Hl as [(e & Hent & H1 & H2 & H3 & H4 & H5 & H6 & H7 & H8) Hl].
  assert (E1 : (p - Z.of_nat (length v)) mod NGX_HTTP_V2_TABLE_SIZE = (q - Z.of_nat (length v)) mod NGX_HTTP_V2_TABLE_SIZE).
  { by rewrite <-(Zminus_mod_idemp_l p), H, Zminus_mod_idemp_l. }
  assert (E2 : (p - Z.of_nat (length v) - Z.of_nat (length n)) mod NGX_HTTP_V2_TABLE_SIZE =
    (q - Z.of_nat (length v) - Z.of_nat (length n)) mod NGX_HTTP_V2_TABLE_SIZE).
  { by rewrite <-(Zminus_mod_idemp_l (p - _)), E1, Zminus_mod_idemp_l. }
  split.
  - exists e. rewrite <-E1, <-E2. do 7 (split; [done|]).
    by rewrite <-(ring_mod _ _ _ _ E1), <-(ring_mod _ _ _ _ E2).
  - apply (IH _ _ _ E2 Hl).
Qed.

Lemma laid_prefix t k pos a b : laid t k pos (a ++ b) -> laid t k pos a.
Proof.
  revert k pos. induction a as [|[n v] a IH]; intros k pos H; [done|]. cbn [app laid] in *.
  destruct H as [He Hl]. split; [done|]. by apply (IH (k - 1)).
Qed.

(** The [i]-th entry. *)
Lemma laid_lookup t k pos l i h :
  laid t k pos l -> l !! i = Some h ->
  exists e pn pv, entry_at t (k - Z.of_nat i - 1) = Some e /\
    he_name_len e = Z.of_nat (length (fst h)) /\ he_value_len e = Z.of_nat (length (snd h)) /\
    0 <= he_name e <= NGX_HTTP_V2_TABLE_SIZE /\ 0 <= he_value e <= NGX_HTTP_V2_TABLE_SIZE /\
    he_name e mod NGX_HTTP_V2_TABLE_SIZE = pn mod NGX_HTTP_V2_TABLE_SIZE /\
    he_value e mod NGX_HTTP_V2_TABLE_SIZE = pv mod NGX_HTTP_V2_TABLE_SIZE /\
    ring (hp_storage t) pn (length (fst h)) = fst h /\ ring (hp_storage t) pv (length (snd h)) = snd h.
Proof.
  revert k pos i. induction l as [|[n v] l IH]; intros k pos i H Hi; [done|]. cbn [laid] in H.
  destruct H as [(e & He & H) Hl]. destruct i as [|i].
  - injection Hi as <-. exists e, (pos - Z.of_nat (length v) - Z.of_nat (length n)), (pos - Z.of_nat (length v)).
    replace (k - Z.of_nat 0 - 1) with (k - 1) by lia. done.
  - destruct (IH (k - 1) _ i Hl Hi) as (e' & pn & pv & He' & H'). exists e', pn, pv.
    by replace (k - Z.of_nat (S i) - 1) with (k - 1 - Z.of_nat i - 1) by lia.
Qed.

(** *** Deleting the oldest *)

Lemma table_at_snoc r q t l h :
  table_at r q t (l ++ [h]) ->
  exists e, entry_at t (hp_deleted t) = Some e /\
    32 + he_name_len e + he_value_len e = header_size h /\
    table_at r q (set_deleted (hp_deleted t + 1) (hp_free t + (32 + he_name_len e + he_value_len e)) t) l.
Proof.
  intros T. pose proof (ta_laid _ _ _ _ T) as HL.
  destruct (laid_lookup _ _ _ _ (length l) h HL) as (e & pn & pv & He & H1 & H2 & _).
  { rewrite lookup_app_r, Nat.sub_diag by lia. done. }
  destruct (ta_counts _ _ _ _ T) as [Hc Hadd]. rewrite length_app in Hadd. cbn [length] in Hadd.
  replace (hp_added t - Z.of_nat (length l) - 1) with (hp_deleted t) in He by lia.
  exists e. split; [done|]. rewrite H1, H2. split; [done|].
  destruct T. rewrite table_size_app, table_size_cons in ta_free0. cbn [table_size foldr] in ta_free0.
  pose proof (header_size_pos h). unfold header_size in *.
  constructor; cbn [set_deleted hp_entries hp_added hp_deleted hp_reused hp_allocated hp_size hp_free hp_storage hp_pos hp_heap];
    try done; try lia.
  apply (laid_same t); [done|done|]. by apply (laid_prefix _ _ _ _ [h]).
Qed.

(** [account_loop] leaves what fits beside [size] more bytes. *)
Lemma account_loop_spec q fuel : forall t l size,
  table_at 0 q t l -> (length l <= fuel)%nat -> hp_free t < size <= hp_size t ->
  exists t', account_loop fuel size t = Some t' /\ table_at 0 q t' (keep (hp_size t - size) l) /\
    size <= hp_free t' /\ hp_size t' = hp_size t /\ hp_pos t' = hp_pos t.
Proof.
  induction fuel as [|fuel IH]; intros t l size T Hf Hs.
  all: destruct (ta_free _ _ _ _ T) as [Hfree _].
  all: destruct l as [|h l _] using rev_ind; [cbn in Hfree; lia|]; rewrite length_app in Hf; cbn [length] in Hf.
  { lia. }
  destruct (table_at_snoc 0 q t l h T) as (e & He & Hsz & T1).
  cbn [account_loop]. rewrite He. cbn [mbind option_bind]. set (t1 := set_deleted _ _ t) in *.
  assert (Hlt : hp_size t - size < table_size (l ++ [h])) by lia.
  rewrite (keep_snoc _ _ _ Hlt). assert (Hsz1 : hp_size t1 = hp_size t) by done.
  destruct (hp_free t1 <? size) eqn:E.
  - destruct (IH t1 l size T1) as (t' & E' & T' & Hf' & Hs' & Hp'); [lia|lia|].
    exists t'. rewrite E', <-Hsz1. done.
  - exists t1. split; [done|]. rewrite keep_all; [split; [done|]; split; [lia|done]|].
    destruct (ta_free _ _ _ _ T1) as [? _]. lia.
Qed.

Lemma set_free_at q t l r f :
  table_at 0 q t l -> f = hp_free t - r -> 0 <= f -> table_at r q (set_free f t) l.
Proof.
  intros [] -> Hf. constructor; cbn [set_free set_deleted hp_entries hp_added hp_deleted hp_reused hp_allocated
    hp_size hp_free hp_storage hp_pos hp_heap]; try done; [lia|]. by apply (laid_same t).
Qed.

Lemma hpack_fuel_length r q t l : table_at r q t l -> hpack_fuel t = length l.
Proof. intros T. destruct (ta_counts _ _ _ _ T). unfold hpack_fuel. lia. Qed.

(** An empty table. *)
Lemma table_emptied q t l : table_at 0 q t l -> table_at 0 q (set_deleted (hp_added t) (hp_size t) t) [].
Proof.
  intros []. constructor; cbn [set_deleted hp_entries hp_added hp_deleted hp_reused hp_allocated
    hp_size hp_free hp_storage hp_pos hp_heap length table_size foldr laid]; try done; lia.
Qed.

Lemma account_spec q t l n :
  table_at 0 q t l -> 0 <= n ->
  exists rc t', ngx_http_v2_table_account t n = Some (rc, t') /\ hp_size t' = hp_size t /\ hp_pos t' = hp_pos t /\
    if 32 + n <=? hp_size t then rc = NGX_OK /\ table_at (32 + n) q t' (keep (hp_size t - (32 + n)) l)
    else rc = NGX_DECLINED /\ table_at 0 q t' [].
Proof.
  intros T Hn. destruct (ta_free _ _ _ _ T) as [Hfree Hf0]. pose proof (table_size_nonneg l).
  unfold ngx_http_v2_table_account. replace (n + 32) with (32 + n) by lia.
  destruct (32 + n <=? hp_free t) eqn:E1.
  - eexists _, _. do 3 (split; [done|]). rewrite (proj2 (Z.leb_le _ _)) by lia. split; [done|].
    rewrite keep_all by lia. apply set_free_at; [done|done|lia].
  - destruct (hp_size t <? 32 + n) eqn:E2.
    + eexists _, _. do 3 (split; [done|]). rewrite (proj2 (Z.leb_gt _ _)) by lia. split; [done|].
      by apply (table_emptied q t l).
    + rewrite (proj2 (Z.leb_le _ _)) by lia.
      destruct (account_loop_spec q (hpack_fuel t) t l (32 + n) T) as (t' & -> & T' & Hf' & Hs' & Hp');
        [by rewrite (hpack_fuel_length _ _ _ _ T)|lia|]. cbn [mbind option_bind].
      eexists _, _. do 4 (split; [done|]). apply set_free_at; [done|done|lia].
Qed.

(** *** Adding an entry *)

(** [p] is not the header of a slot in use. *)
Definition spare (t : hpack) (p : nat) : Prop :=
  (p < length (hp_heap t))%nat /\ forall i, hp_reused t <= i < hp_added t -> entry_slot t i <> Some p.

(** Entries in use are where they were. *)
Lemma live_slot r q t l j : table_at r q t l -> 0 < j <= Z.of_nat (length l) ->
  hp_reused t <= hp_added t - j < hp_added t.
Proof. intros T Hj. destruct (ta_counts _ _ _ _ T). lia. Qed.

Lemma take_entry_spec r q t l :
  table_at r q t l ->
  exists p t', take_entry t = Some (p, t') /\ table_at r q t' l /\ spare t' p /\
    (hp_reused t' = hp_deleted t' \/ hp_added t' - hp_reused t' < hp_allocated t') /\
    hp_pos t' = hp_pos t /\ hp_size t' = hp_size t.
Proof.
  intros T. unfold take_entry. destruct (hp_reused t =? hp_deleted t) eqn:E.
  - eexists _, _. split; [done|]. set (t' := set_hheap _ _ t).
    assert (Hs : forall i, entry_slot t' i = entry_slot t i) by done.
    split; [|split; [|split; [left; cbn; lia|done]]].
    + pose proof (fun j => live_slot _ _ _ _ j T) as Hlive. destruct T.
      constructor; cbn [t' set_hheap hp_entries hp_added hp_deleted hp_reused hp_allocated
        hp_size hp_free hp_storage hp_pos hp_heap]; try done.
      * intros i Hi. destruct (ta_slots0 i Hi) as (p & Hp & Hlt). exists p. rewrite Hs.
        split; [done|]. rewrite length_app. lia.
      * apply (laid_ext t _ (hp_added t)); [done| |done]. intros j Hj. unfold entry_at. rewrite Hs.
        destruct (ta_slots0 _ (Hlive j Hj)) as (p & -> & Hlt). cbn [mbind option_bind t' set_hheap hp_heap].
        by apply lookup_app_l.
    + split; [cbn; rewrite length_app; cbn; lia|]. intros i Hi Hp. rewrite Hs in Hp.
      destruct (ta_slots _ _ _ _ T i Hi) as (p & Hp' & Hlt). rewrite Hp in Hp'. injection Hp' as <-. lia.
  - destruct (ta_counts _ _ _ _ T) as [Hc Hadd].
    destruct (ta_slots _ _ _ _ T (hp_reused t) ltac:(lia)) as (p & Hp & Hlt). rewrite Hp. cbn [mbind option_bind].
    eexists _, _. split; [done|]. set (t' := set_hheap _ _ t).
    assert (Hs : forall i, entry_slot t' i = entry_slot t i) by done.
    split; [|split; [|split; [right; cbn; pose proof (ta_window _ _ _ _ T); lia|done]]].
    + destruct T. constructor; cbn [t' set_hheap hp_entries hp_added hp_deleted hp_reused hp_allocated
        hp_size hp_free hp_storage hp_pos hp_heap]; try done; try lia.
      * intros i Hi. rewrite Hs. apply ta_slots0. lia.
      * intros i j p' Hi Hj. rewrite !Hs. apply ta_apart0; lia.
      * by apply (laid_same t).
    + split; [done|]. intros i Hi Hp'. cbn [t' set_hheap hp_reused hp_added] in Hi. rewrite Hs in Hp'.
      pose proof (ta_apart _ _ _ _ T i (hp_reused t) p ltac:(lia) ltac:(lia) Hp' Hp). lia.
Qed.

(** The strings of a new header, and the header itself at [p]. *)
Definition stored (t : hpack) (p : nat) (q : Z) (h : header) : Prop :=
  exists e, hp_heap t !! p = Some e /\
    he_name_len e = Z.of_nat (length (fst h)) /\ he_value_len e = Z.of_nat (length (snd h)) /\
    0 <= he_name e <= NGX_HTTP_V2_TABLE_SIZE /\ 0 <= he_value e <= NGX_HTTP_V2_TABLE_SIZE /\
    he_name e mod NGX_HTTP_V2_TABLE_SIZE = q mod NGX_HTTP_V2_TABLE_SIZE /\
    he_value e mod NGX_HTTP_V2_TABLE_SIZE = (q + Z.of_nat (length (fst h))) mod NGX_HTTP_V2_TABLE_SIZE /\
    ring (hp_storage t) q (length (fst h)) = fst h /\
    ring (hp_storage t) (q + Z.of_nat (length (fst h))) (length (snd h)) = snd h.

Lemma table_size_strings l : 32 * Z.of_nat (length l) <= table_size l.
Proof.
  induction l as [|h l IH]; [done|]. rewrite table_size_cons. pose proof (header_size_pos h).
  cbn [length]. lia.
Qed.

(** Both strings are put behind those that are there. *)
Lemma put_header_spec t l n v :
  table_at (header_size (n, v)) (hp_pos t) t l ->
  exists st1 pos1 av1 st2 pos2 av2,
    put_string (hp_storage t) (hp_pos t) (NGX_HTTP_V2_TABLE_SIZE - hp_pos t) n = Some (st1, pos1, av1) /\
    put_string st1 pos1 av1 v = Some (st2, pos2, av2) /\
    length st2 = length (hp_storage t) /\ 0 <= pos1 <= NGX_HTTP_V2_TABLE_SIZE /\ 0 <= pos2 <= NGX_HTTP_V2_TABLE_SIZE /\
    pos1 mod NGX_HTTP_V2_TABLE_SIZE = (hp_pos t + Z.of_nat (length n)) mod NGX_HTTP_V2_TABLE_SIZE /\
    pos2 mod NGX_HTTP_V2_TABLE_SIZE = (hp_pos t + Z.of_nat (length n) + Z.of_nat (length v)) mod NGX_HTTP_V2_TABLE_SIZE /\
    ring st2 (hp_pos t) (length n) = n /\
    ring st2 (hp_pos t + Z.of_nat (length n)) (length v) = v /\
    forall d (m : nat), 0 <= d -> d + Z.of_nat m + 32 * Z.of_nat (length l) <= table_size l ->
      ring st2 (hp_pos t - d - Z.of_nat m) m = ring (hp_storage t) (hp_pos t - d - Z.of_nat m) m.
Proof.
  intros T. destruct (ta_free _ _ _ _ T) as [Hfree Hf0]. pose proof (ta_size _ _ _ _ T) as Hsz.
  pose proof (table_size_nonneg l) as Hl0. pose proof (table_size_strings l) as Hl32.
  pose proof (ta_storage _ _ _ _ T) as Hst. pose proof (ta_pos _ _ _ _ T) as Hpos.
  unfold header_size in Hfree. cbn [fst snd] in Hfree.
  assert (Hnv : table_size l + Z.of_nat (length n) + Z.of_nat (length v) + 32 <= NGX_HTTP_V2_TABLE_SIZE) by lia.
  set (q := hp_pos t) in *.
  destruct (put_string_spec (hp_storage t) q (NGX_HTTP_V2_TABLE_SIZE - q) n Hst Hpos ltac:(lia) ltac:(by left))
    as (st1 & pos1 & av1 & E1 & Hl1 & Hp1 & Hm1 & Ha1 & Hb1).
  specialize (Ha1 eq_refl).
  destruct (put_string_spec st1 pos1 av1 v ltac:(lia) Hp1 ltac:(lia) ltac:(lia))
    as (st2 & pos2 & av2 & E2 & Hl2 & Hp2 & Hm2 & Ha2 & Hb2).
  destruct (ring_written _ _ _ _ Hb1 ltac:(lia)) as [Hw1 Hk1].
  destruct (ring_written _ _ _ _ Hb2 ltac:(lia)) as [Hw2 Hk2].
  assert (Hmm : forall x, (pos1 - x) mod NGX_HTTP_V2_TABLE_SIZE = (q + Z.of_nat (length n) - x) mod NGX_HTTP_V2_TABLE_SIZE).
  { intros x. by rewrite <-(Zminus_mod_idemp_l pos1), Hm1, Zminus_mod_idemp_l. }
  exists st1, pos1, av1, st2, pos2, av2. split; [done|]. split; [done|]. split; [congruence|].
  split; [done|]. split; [done|]. split; [done|]. split.
  { rewrite Hm2, <-(Zplus_mod_idemp_l pos1), Hm1. apply Zplus_mod_idemp_l. }
  split; [|split].
  - rewrite (ring_mod st2 _ (pos1 - 0 - Z.of_nat (length n))).
    + rewrite Hk2 by lia. rewrite <-Hw1 at 3. apply ring_mod.
      rewrite Z.sub_0_r, Hmm. f_equal. lia.
    + rewrite Z.sub_0_r, Hmm. f_equal. lia.
  - rewrite <-Hw2 at 2. apply ring_mod. by rewrite Hm1.
  - intros d m Hd Hm. rewrite <-(Hk1 d m) by lia.
    assert (E : (q - d - Z.of_nat m) mod NGX_HTTP_V2_TABLE_SIZE =
      (pos1 - (d + Z.of_nat (length n)) - Z.of_nat m) mod NGX_HTTP_V2_TABLE_SIZE).
    { replace (pos1 - (d + Z.of_nat (length n)) - Z.of_nat m) with
        (pos1 - (d + Z.of_nat (length n) + Z.of_nat m)) by lia. rewrite Hmm. f_equal. lia. }
    rewrite (ring_mod st2 _ _ m E), (ring_mod st1 _ _ m E). apply Hk2; lia.
Qed.

(** The array is grown when all its slots are in use. *)
Lemma entry_slot_grown t es t' i :
  hp_entries t = Some es -> Z.of_nat (length es) = hp_allocated t -> 0 < hp_allocated t ->
  grow_entries t = Some t' -> hp_allocated t = hp_added t - hp_deleted t ->
  0 <= i < hp_allocated t -> entry_slot t' i = entry_slot t (hp_deleted t + i).
Proof.
  intros Hes Hl H0 Hg Hfull Hi. unfold grow_entries in Hg. rewrite (proj2 (Z.eqb_eq _ _) Hfull), Hes in Hg.
  cbn [mbind option_bind] in Hg. injection Hg as <-. unfold entry_slot.
  cbn [set_entries hp_entries hp_allocated]. rewrite Hes. cbn [mbind option_bind].
  rewrite (Z.mod_small i (hp_allocated t + 64)) by lia.
  set (d := hp_deleted t mod hp_allocated t).
  assert (Hd : 0 <= d < hp_allocated t) by (apply Z.mod_pos_bound; lia).
  rewrite <-Zplus_mod_idemp_l. fold d.
  assert (Hdl : length (drop (Z.to_nat d) es) = Z.to_nat (hp_allocated t - d)) by (rewrite length_drop; lia).
  destruct (decide (i < hp_allocated t - d)) as [Hlt|Hge].
  - rewrite lookup_app_l by lia. rewrite lookup_drop. rewrite (Z.mod_small (d + i)) by lia.
    f_equal. f_equal. lia.
  - rewrite lookup_app_r by lia. rewrite Hdl. rewrite lookup_app_l by (rewrite length_take; lia).
    rewrite lookup_take_lt by lia.
    replace ((d + i) mod hp_allocated t) with (d + i - hp_allocated t).
    2: { apply (Z.mod_unique _ _ 1); lia. }
    f_equal. f_equal. lia.
Qed.

Lemma grow_entries_spec r q t l p h :
  table_at r q t l -> spare t p -> stored t p q h ->
  hp_added t - hp_reused t < hp_allocated t \/ hp_added t - hp_deleted t = hp_allocated t /\ hp_reused t = hp_deleted t ->
  exists t', grow_entries t = Some t' /\ table_at r q t' l /\ spare t' p /\ stored t' p q h /\
    hp_added t' - hp_reused t' < hp_allocated t' /\ hp_pos t' = hp_pos t /\ hp_size t' = hp_size t.
Proof.
  intros T Hsp Hst Hw. destruct (ta_counts _ _ _ _ T) as [Hc Hadd].
  destruct (ta_entries _ _ _ _ T) as (es & Hes & Hlen). pose proof (ta_allocated _ _ _ _ T) as Hal.
  destruct (hp_allocated t =? hp_added t - hp_deleted t) eqn:E.
  2: { unfold grow_entries. rewrite E. exists t. do 4 (split; [done|]). split; [lia|done]. }
  apply Z.eqb_eq in E. assert (Hrd : hp_reused t = hp_deleted t) by lia.
  assert (Hslot := fun t' i Hg => entry_slot_grown t es t' i Hes Hlen Hal Hg E).
  unfold grow_entries in *. rewrite (proj2 (Z.eqb_eq _ _) E), Hes in *. cbn [mbind option_bind] in *.
  eexists. split; [done|].
  set (t' := set_entries _ _ _ _ _ t) in *. assert (Hslot' := fun i => Hslot t' i eq_refl).
  assert (Ha' : hp_added t' = hp_allocated t) by done. assert (Hd' : hp_deleted t' = 0) by done.
  assert (Hr' : hp_reused t' = 0) by done. assert (Hal' : hp_allocated t' = hp_allocated t + 64) by done.
  assert (Hh' : hp_heap t' = hp_heap t) by done.
  split; [|split; [|split; [done|split; [lia|done]]]].
  - destruct T. constructor; rewrite ?Ha', ?Hd', ?Hr', ?Hal', ?Hh'; try done; try lia.
    + eexists. split; [done|]. cbn [t' set_entries hp_entries].
      pose proof (Z.mod_pos_bound (hp_deleted t) (hp_allocated t) Hal).
      rewrite !length_app, length_drop, length_take, length_replicate. lia.
    + intros i Hi. rewrite Hslot' by lia. apply ta_slots0. lia.
    + intros i j x Hi Hj. rewrite !Hslot' by lia. intros H1 H2.
      assert (hp_deleted t + i = hp_deleted t + j) by (apply (ta_apart0 _ _ x); [lia|lia|done|done]). lia.
    + apply (laid_ext t _ (hp_added t)); [done| |done]. intros j Hj. unfold entry_at.
      rewrite Hslot' by lia. rewrite Hh'. do 2 f_equal. lia.
  - destruct Hsp as [Hlt Hsp]. split; [done|]. rewrite Ha', Hr'. intros i Hi. rewrite Hslot' by lia.
    apply Hsp. lia.
Qed.

(** Numbers less than [a] apart are in different slots. *)
Lemma mods_apart a i j : 0 < j - i < a -> i mod a = j mod a -> False.
Proof.
  intros H E. pose proof (Z.div_mod i a ltac:(lia)) as H1. pose proof (Z.div_mod j a ltac:(lia)) as H2.
  assert (H3 : a * (j / a - i / a) = j - i) by lia.
  assert (j / a - i / a < 1) by (apply (Z.mul_lt_mono_pos_l a); lia).
  assert (0 < j / a - i / a) by (apply (Z.mul_lt_mono_pos_l a); lia). lia.
Qed.

(** The new entry in its slot. *)
Lemma append_entry_spec q t l p h pos :
  table_at (header_size h) q t l -> spare t p -> stored t p q h ->
  hp_added t - hp_reused t < hp_allocated t ->
  pos = q + Z.of_nat (length (fst h)) + Z.of_nat (length (snd h)) ->
  exists t', append_entry p t = Some t' /\ table_at 0 pos t' (h :: l) /\
    hp_pos t' = hp_pos t /\ hp_size t' = hp_size t.
Proof.
  intros T [Hlt Hsp] Hst Hw ->. destruct (ta_entries _ _ _ _ T) as (es & Hes & Hlen).
  pose proof (ta_allocated _ _ _ _ T) as Hal. destruct (ta_counts _ _ _ _ T) as [Hc Hadd].
  unfold append_entry. rewrite Hes. cbn [mbind option_bind].
  pose proof (Z.mod_pos_bound (hp_added t) (hp_allocated t) Hal) as Hm.
  rewrite (proj2 (Nat.ltb_lt _ _)) by lia. eexists. split; [done|]. set (t' := set_entries _ _ _ _ _ t).
  assert (Hnew : entry_slot t' (hp_added t) = Some p).
  { unfold entry_slot, t'. cbn [set_entries hp_entries hp_allocated mbind option_bind].
    by rewrite list_lookup_insert_eq by lia. }
  assert (Hold : forall i, hp_reused t <= i < hp_added t -> entry_slot t' i = entry_slot t i).
  { intros i Hi. unfold entry_slot, t'. cbn [set_entries hp_entries hp_allocated mbind option_bind].
    rewrite Hes. cbn [mbind option_bind]. rewrite list_lookup_insert_ne; [done|].
    intros E. apply Z2Nat.inj in E; [|apply Z.mod_pos_bound; lia|apply Z.mod_pos_bound; lia].
    symmetry in E. by apply (mods_apart (hp_allocated t) i (hp_added t)) in E; [|lia]. }
  assert (Hh' : hp_heap t' = hp_heap t) by done. assert (Ha' : hp_added t' = hp_added t + 1) by done.
  assert (Hr' : hp_reused t' = hp_reused t) by done.
  split; [|done]. destruct T.
  constructor; rewrite ?Hh', ?Ha', ?Hr'; cbn [t' set_entries hp_entries hp_deleted hp_allocated hp_size hp_free
    hp_storage hp_pos length]; try done; try lia.
  - eexists. split; [done|]. by rewrite length_insert.
  - intros i Hi. destruct (decide (i = hp_added t)) as [->|]; [by exists p|]. rewrite Hold by lia. apply ta_slots0. lia.
  - intros i j x Hi Hj H1 H2. destruct (decide (i = hp_added t)) as [->|Hi']; destruct (decide (j = hp_added t)) as [->|Hj'].
    + done.
    + rewrite Hnew in H1. injection H1 as <-. rewrite Hold in H2 by lia. by destruct (Hsp j ltac:(lia)).
    + rewrite Hnew in H2. injection H2 as <-. rewrite Hold in H1 by lia. by destruct (Hsp i ltac:(lia)).
    + rewrite Hold in H1, H2 by lia. apply (ta_apart0 i j x); try done; lia.
  - rewrite table_size_cons. pose proof (header_size_pos h). lia.
  - destruct h as [n v]. cbn [fst snd] in *. cbn [laid]. destruct Hst as (e & He & H1 & H2 & H3 & H4 & H5 & H6 & H7 & H8).
    cbn [fst snd] in *.
    replace (q + Z.of_nat (length n) + Z.of_nat (length v) - Z.of_nat (length v)) with (q + Z.of_nat (length n)) by lia.
    replace (q + Z.of_nat (length n) - Z.of_nat (length n)) with q by lia.
    replace (hp_added t + 1 - 1) with (hp_added t) by lia. split.
    + exists e. split; [|done]. unfold entry_at. rewrite Hnew, Hh'. done.
    + apply (laid_ext t _ (hp_added t)); [done| |done]. intros j Hj. unfold entry_at. by rewrite Hold by lia.
Qed.

(** ** The operations *)

(** A table before the first addition. *)
Record untouched (t : hpack) : Prop := mk_untouched {
  un_entries : hp_entries t = None;
  un_counts : hp_added t = 0 /\ hp_deleted t = 0 /\ hp_reused t = 0;
  un_size : 0 <= hp_size t <= NGX_HTTP_V2_TABLE_SIZE;
  un_free : hp_free t = hp_size t
}.

Definition table_is (t : hpack) (l : list header) : Prop := table_at 0 (hp_pos t) t l.

Lemma table_init_at t : untouched t -> table_is (table_init t) [] /\ hp_size (table_init t) = NGX_HTTP_V2_TABLE_SIZE.
Proof.
  intros [He (Ha & Hd & Hr) _ _]. unfold table_is, table_init. rewrite He, Ha, Hd, Hr. split; [|done].
  constructor; cbn [hp_entries hp_added hp_deleted hp_reused hp_allocated hp_size hp_free hp_storage hp_pos hp_heap
    length table_size foldr laid]; try done; try lia.
  eexists. split; [done|]. by rewrite length_replicate.
Qed.

Lemma table_init_same t l : table_is t l -> table_init t = t.
Proof. intros T. destruct (ta_entries _ _ _ _ T) as (es & Hes & _). unfold table_init. by rewrite Hes. Qed.

(** What the standard says of adding [h] to a table of at most [limit]. *)
Definition add_entry (limit : Z) (l : list header) (h : header) : list header :=
  if header_size h <=? limit then h :: keep (limit - header_size h) l else [].

Lemma add_header_table t l h :
  table_is t l ->
  exists t', ngx_http_v2_add_header t h = Some (NGX_OK, t') /\ table_is t' (add_entry (hp_size t) l h) /\
    hp_size t' = hp_size t.
Proof.
  destruct h as [n v]. intros T. unfold ngx_http_v2_add_header. rewrite (table_init_same t l T).
  destruct (account_spec (hp_pos t) t l (Z.of_nat (length n) + Z.of_nat (length v)) T ltac:(lia))
    as (rc & t1 & -> & Hs1 & Hp1 & H1). cbn [mbind option_bind].
  assert (Hsz : header_size (n, v) = 32 + (Z.of_nat (length n) + Z.of_nat (length v))) by (unfold header_size; cbn; lia).
  unfold add_entry. rewrite Hsz. destruct (32 + _ <=? hp_size t); destruct H1 as [-> T1].
  2: { cbn [Z.eqb NGX_DECLINED NGX_OK negb]. exists t1. split; [done|]. split; [|done].
       unfold table_is. by rewrite Hp1. }
  cbn [Z.eqb NGX_OK negb]. rewrite <-Hsz in T1 |- *. set (l1 := keep _ l) in *.
  destruct (take_entry_spec _ _ t1 l1 T1) as (p & t2 & -> & T2 & Hsp & Hroom & Hp2 & Hs2). cbn [mbind option_bind].
  assert (Hq : hp_pos t = hp_pos t2) by congruence. rewrite Hq in T2.
  destruct (put_header_spec t2 l1 n v T2) as
    (st1 & pos1 & av1 & st2 & pos2 & av2 & -> & E2 & Hl & Hr1 & Hr2 & Hm1 & Hm2 & Hrn & Hrv & Hk).
  cbn [mbind option_bind]. rewrite E2. cbn [mbind option_bind].
  set (e := mk_hentry _ _ _ _). set (t3 := set_storage _ _ _).
  assert (Hslot : forall i, entry_slot t3 i = entry_slot t2 i) by done.
  destruct Hsp as [Hlt Hsp].
  assert (T3 : table_at (header_size (n, v)) (hp_pos t2) t3 l1).
  { pose proof (fun j => live_slot _ _ _ _ j T2) as Hlive. destruct T2. constructor;
      cbn [t3 set_storage set_hheap hp_entries hp_added hp_deleted hp_reused hp_allocated hp_size hp_free
        hp_storage hp_pos hp_heap]; try done.
    - intros i Hi. destruct (ta_slots0 i Hi) as (x & Hx & Hxl). exists x. rewrite Hslot, length_insert. done.
    - rewrite Hl. done.
    - apply (laid_ext t2 _ (hp_added t2)); [done| |done]. intros j Hj. unfold entry_at. rewrite Hslot.
      destruct (entry_slot t2 (hp_added t2 - j)) as [x|] eqn:Ex; [|done].
      cbn [mbind option_bind t3 set_storage set_hheap hp_heap]. apply list_lookup_insert_ne. intros ->.
      by apply (Hsp _ (Hlive j Hj)). }
  assert (Hst : stored t3 p (hp_pos t2) (n, v)).
  { exists e. cbn [t3 set_storage set_hheap hp_heap hp_storage fst snd e he_name_len he_value_len he_name he_value].
    split; [by apply list_lookup_insert_eq|]. split; [done|]. split; [done|].
    split; [apply (ta_pos _ _ _ _ T2)|]. done. }
  destruct (grow_entries_spec _ _ t3 l1 p (n, v) T3) as (t4 & -> & T4 & Hsp4 & Hst4 & Hw4 & Hp4 & Hs4);
    [|done| |].
  { split; [cbn [t3 set_storage set_hheap hp_heap]; by rewrite length_insert|]. intros i Hi. rewrite Hslot. by apply Hsp. }
  { pose proof (ta_window _ _ _ _ T3). destruct (ta_counts _ _ _ _ T3) as [Hc Hadd].
    change (hp_reused t3 = hp_deleted t3 \/ hp_added t3 - hp_reused t3 < hp_allocated t3) in Hroom. lia. }
  cbn [mbind option_bind].
  destruct (append_entry_spec _ _ _ _ _ (hp_pos t2 + Z.of_nat (length n) + Z.of_nat (length v)) T4 Hsp4 Hst4 Hw4 eq_refl)
    as (t5 & -> & T5 & Hp5 & Hs5).
  cbn [mbind option_bind]. exists t5. split; [done|].
  split; [|rewrite Hs5, Hs4; change (hp_size t3) with (hp_size t2); congruence].
  unfold table_is. rewrite Hp5, Hp4. change (hp_pos t3) with pos2.
  destruct T5. constructor; try done. by apply (laid_mod _ _ _ _ _ (eq_sym Hm2)).
Qed.

(** *** Changing the size *)

Lemma size_loop_spec fuel : forall q t l needed,
  table_at 0 q t l -> (length l <= fuel)%nat -> 0 <= hp_size t - needed ->
  exists t', size_loop fuel needed t = Some t' /\ table_at 0 q t' (keep (hp_size t - needed) l) /\
    needed <= hp_free t' /\ hp_size t' = hp_size t /\ hp_pos t' = hp_pos t.
Proof.
  induction fuel as [|fuel IH]; intros q t l needed T Hf Hs.
  all: destruct (ta_free _ _ _ _ T) as [Hfree Hf0]; pose proof (ta_size _ _ _ _ T) as Hsz.
  all: pose proof (table_size_nonneg l) as Hl0.
  all: assert (Hi : i64 (hp_free t) = hp_free t) by
    (unfold i64, NGX_HTTP_V2_TABLE_SIZE in *; rewrite Z.mod_small by lia; lia).
  all: cbn [size_loop]; rewrite Hi; destruct (hp_free t <? needed) eqn:E.
  all: try (exists t; rewrite keep_all by lia; split; [done|split; [done|split; [lia|done]]]).
  all: destruct l as [|h l _] using rev_ind; [cbn in Hfree; lia|]; rewrite length_app in Hf; cbn [length] in Hf.
  { lia. }
  destruct (table_at_snoc 0 q t l h T) as (e & -> & Hsz' & T1). cbn [mbind option_bind].
  set (t1 := set_deleted _ _ t) in *. rewrite (keep_snoc _ _ h) by lia.
  destruct (IH q t1 l needed T1) as (t' & E' & H); [lia|done|]. exists t'. done.
Qed.

Lemma table_resized q t l s :
  table_at 0 q t l -> table_size l <= s <= NGX_HTTP_V2_TABLE_SIZE ->
  table_at 0 q (set_free (s - table_size l) (set_size s t)) l.
Proof.
  intros T Hs. pose proof (table_size_nonneg l). destruct T.
  constructor; cbn [set_free set_size set_deleted hp_entries hp_added hp_deleted hp_reused hp_allocated
    hp_size hp_free hp_storage hp_pos hp_heap]; try done; [lia|lia|]. by apply (laid_same t).
Qed.

Lemma keep_size limit l : 0 <= limit -> table_size (keep limit l) <= limit.
Proof.
  revert limit. induction l as [|h l IH]; intros limit H; [done|]. cbn [keep].
  destruct (header_size h <=? limit) eqn:E; [|done]. rewrite table_size_cons.
  specialize (IH (limit - header_size h) ltac:(lia)). lia.
Qed.

Lemma needed_exact a b : 0 <= a <= NGX_HTTP_V2_TABLE_SIZE -> 0 <= b <= NGX_HTTP_V2_TABLE_SIZE ->
  i64 (u64 (a - b)) = a - b.
Proof.
  unfold NGX_HTTP_V2_TABLE_SIZE, i64, u64. intros Ha Hb.
  rewrite Zplus_mod_idemp_l, Z.mod_small by lia. lia.
Qed.

Lemma word_small a : 0 <= a < 2 ^ 64 -> u64 a = a.
Proof. apply Z.mod_small. Qed.

Lemma table_size_table t l s :
  table_is t l -> 0 <= s <= NGX_HTTP_V2_TABLE_SIZE ->
  exists t', ngx_http_v2_table_size t s = Some (NGX_OK, t') /\ table_is t' (keep s l) /\ hp_size t' = s.
Proof.
  intros T Hs. unfold ngx_http_v2_table_size. rewrite (proj2 (Z.ltb_ge _ _)) by lia.
  rewrite needed_exact by (done || apply (ta_size _ _ _ _ T)).
  destruct (size_loop_spec (hpack_fuel t) _ t l (hp_size t - s) T) as (t1 & -> & T1 & Hf1 & Hs1 & Hp1);
    [by rewrite (hpack_fuel_length _ _ _ _ T)|lia|]. cbn [mbind option_bind].
  replace (hp_size t - (hp_size t - s)) with s in T1 by lia.
  destruct (ta_free _ _ _ _ T1) as [Hfree _]. pose proof (keep_size s l ltac:(lia)) as Hk.
  pose proof (table_size_nonneg (keep s l)). unfold NGX_HTTP_V2_TABLE_SIZE in Hs.
  replace (u64 (hp_free t1 - (hp_size t - s))) with (s - table_size (keep s l)).
  2: { rewrite word_small by lia. lia. }
  eexists. split; [done|]. split; [|done]. unfold table_is. cbn [set_free set_size set_deleted hp_pos].
  rewrite Hp1. apply table_resized; [done|]. unfold NGX_HTTP_V2_TABLE_SIZE. lia.
Qed.

Lemma table_size_untouched t s :
  untouched t -> 0 <= s <= NGX_HTTP_V2_TABLE_SIZE ->
  exists t', ngx_http_v2_table_size t s = Some (NGX_OK, t') /\ untouched t'.
Proof.
  intros [He Hc Hsz Hf] Hs. unfold ngx_http_v2_table_size. rewrite (proj2 (Z.ltb_ge _ _)) by lia.
  rewrite needed_exact by done. assert (Hi : i64 (hp_free t) = hp_free t).
  { unfold i64, NGX_HTTP_V2_TABLE_SIZE in *. rewrite Z.mod_small by lia. lia. }
  assert (size_loop (hpack_fuel t) (hp_size t - s) t = Some t) as ->.
  { destruct (hpack_fuel t); cbn [size_loop]; rewrite Hi, (proj2 (Z.ltb_ge _ _)) by lia; done. }
  cbn [mbind option_bind]. eexists. split; [done|].
  constructor; cbn [set_free set_size set_deleted hp_entries hp_added hp_deleted hp_reused hp_size hp_free]; try done.
  unfold NGX_HTTP_V2_TABLE_SIZE in *. rewrite word_small by lia. lia.
Qed.

(** *** Reading an entry *)

(** Header [index] of the static table and then of [l]. *)
Definition indexed (l : list header) (index : Z) : option header :=
  if index <=? 0 then None else (ngx_http_v2_static_table ++ l) !! Z.to_nat (index - 1).

Definition get_result (l : list header) (index : Z) (name_only : bool) (old : header) : Z * header :=
  match indexed l index with
  | Some h => (NGX_OK, if name_only && (NGX_HTTP_V2_STATIC_TABLE_ENTRIES <? index) then (fst h, snd old) else h)
  | None => (NGX_ERROR, old)
  end.

Lemma copy_laid t data q x :
  Z.of_nat (length (hp_storage t)) = NGX_HTTP_V2_TABLE_SIZE -> 0 <= data <= NGX_HTTP_V2_TABLE_SIZE ->
  Z.of_nat (length x) <= NGX_HTTP_V2_TABLE_SIZE -> data mod NGX_HTTP_V2_TABLE_SIZE = q mod NGX_HTTP_V2_TABLE_SIZE ->
  ring (hp_storage t) q (length x) = x -> copy_string t data (Z.of_nat (length x)) = Some x.
Proof.
  intros Hst Hd Hx Hq Hr. rewrite copy_string_ring by (done || lia).
  by rewrite Nat2Z.id, (ring_mod _ _ _ _ Hq), Hr.
Qed.

Lemma elem_size (l : list header) i h : l !! i = Some h -> header_size h <= table_size l.
Proof.
  revert i. induction l as [|x l IH]; intros i H; [done|]. rewrite table_size_cons.
  pose proof (table_size_nonneg l). pose proof (header_size_pos x). destruct i as [|i].
  - injection H as <-. lia.
  - specialize (IH i H). lia.
Qed.

Lemma get_header_table t l index name_only old :
  table_is t l -> 0 <= index ->
  ngx_http_v2_get_indexed_header t index name_only old = Some (get_result l index name_only old).
Proof.
  intros T Hi. unfold ngx_http_v2_get_indexed_header, get_result, indexed.
  destruct (index =? 0) eqn:E0; [by rewrite (proj2 (Z.leb_le _ _)) by lia|].
  rewrite (proj2 (Z.leb_gt _ _)) by lia. cbv zeta.
  destruct (index - 1 <? NGX_HTTP_V2_STATIC_TABLE_ENTRIES) eqn:E1; unfold NGX_HTTP_V2_STATIC_TABLE_ENTRIES in *.
  - rewrite lookup_app_l by lia.
    destruct (lookup_lt_is_Some_2 ngx_http_v2_static_table (Z.to_nat (index - 1)) ltac:(lia)) as [h ->].
    cbn [mbind option_bind]. rewrite (proj2 (Z.ltb_ge _ index)) by lia. by rewrite andb_false_r.
  - rewrite lookup_app_r by lia. set (i := index - 1 - _). replace (_ - _)%nat with (Z.to_nat i) by lia.
    destruct (ta_counts _ _ _ _ T) as [Hc Hadd].
    destruct (i <? hp_added t - hp_deleted t) eqn:E2; [|by rewrite lookup_ge_None_2 by lia].
    destruct (lookup_lt_is_Some_2 l (Z.to_nat i) ltac:(lia)) as [[n v] Hh]. rewrite Hh.
    destruct (laid_lookup _ _ _ _ _ _ (ta_laid _ _ _ _ T) Hh) as (e & pn & pv & He & H1 & H2 & H3 & H4 & H5 & H6 & H7 & H8).
    replace (hp_added t - Z.of_nat (Z.to_nat i) - 1) with (hp_added t - i - 1) in He by lia.
    rewrite He. cbn [mbind option_bind fst snd] in *.
    pose proof (elem_size l _ _ Hh) as Hsz. unfold header_size in Hsz. cbn [fst snd] in Hsz.
    destruct (ta_free _ _ _ _ T). pose proof (ta_size _ _ _ _ T). pose proof (ta_storage _ _ _ _ T).
    rewrite H1, H2, (copy_laid t _ pn n) by (done || lia). cbn [mbind option_bind].
    rewrite (proj2 (Z.ltb_lt _ index)) by lia. rewrite andb_true_r. destruct name_only; [done|].
    by rewrite (copy_laid t _ pv v) by (done || lia).
Qed.

Lemma get_header_untouched t index name_only old :
  untouched t -> 0 <= index ->
  ngx_http_v2_get_indexed_header t index name_only old = Some (get_result [] index name_only old).
Proof.
  intros [_ (Ha & Hd & _) _ _] Hi. unfold ngx_http_v2_get_indexed_header, get_result, indexed.
  destruct (index =? 0) eqn:E0; [by rewrite (proj2 (Z.leb_le _ _)) by lia|].
  rewrite (proj2 (Z.leb_gt _ _)), app_nil_r by lia. cbv zeta.
  destruct (index - 1 <? NGX_HTTP_V2_STATIC_TABLE_ENTRIES) eqn:E1; unfold NGX_HTTP_V2_STATIC_TABLE_ENTRIES in *.
  - destruct (lookup_lt_is_Some_2 ngx_http_v2_static_table (Z.to_nat (index - 1)) ltac:(lia)) as [h ->].
    cbn [mbind option_bind]. rewrite (proj2 (Z.ltb_ge _ index)) by lia. by rewrite andb_false_r.
  - rewrite (proj2 (Z.ltb_ge _ _)) by lia. by rewrite lookup_ge_None_2 by lia.
Qed.

(** ** The table of the standard *)

Inductive hpack_op : Type :=
  | GetHeader (index : Z) (name_only : bool)
  | AddHeader (h : header)
  | TableSize (size : Z).

Definition op_ok (op : hpack_op) : Prop :=
  match op with
  | GetHeader index _ => 0 <= index
  | AddHeader _ => True
  | TableSize size => 0 <= size
  end.

(** The program: a reply and the new state for each operation; [snd] is
    [h2c->state.header]. *)
Definition hpack_step (s : hpack * header) (op : hpack_op) : option (Z * (hpack * header)) :=
  let '(t, old) := s in
  match op with
  | GetHeader index name_only =>
      '(rc, h) ← ngx_http_v2_get_indexed_header t index name_only old; Some (rc, (t, h))
  | AddHeader h => '(rc, t) ← ngx_http_v2_add_header t h; Some (rc, (t, old))
  | TableSize size => '(rc, t) ← ngx_http_v2_table_size t size; Some (rc, (t, old))
  end.

(** The list, its limit (none before the first addition), and the header read
    last. *)
Record machine : Type := mk_machine { mc_limit : option Z; mc_list : list header; mc_header : header }.

Definition machine_step (m : machine) (op : hpack_op) : Z * machine :=
  match op with
  | GetHeader index name_only =>
      let '(rc, h) := get_result (mc_list m) index name_only (mc_header m) in
      (rc, mk_machine (mc_limit m) (mc_list m) h)
  | AddHeader h =>
      let limit := default NGX_HTTP_V2_TABLE_SIZE (mc_limit m) in
      (NGX_OK, mk_machine (Some limit) (add_entry limit (mc_list m) h) (mc_header m))
  | TableSize size =>
      if NGX_HTTP_V2_TABLE_SIZE <? size then (NGX_ERROR, m)
      else (NGX_OK, mk_machine ((fun _ => size) <$> mc_limit m) (keep size (mc_list m)) (mc_header m))
  end.

Fixpoint hpack_run (s : hpack * header) (ops : list hpack_op) : option (list (Z * header)) :=
  match ops with
  | [] => Some []
  | op :: ops' => '(rc, s') ← hpack_step s op; replies ← hpack_run s' ops'; Some ((rc, snd s') :: replies)
  end.

Fixpoint machine_run (m : machine) (ops : list hpack_op) : list (Z * header) :=
  match ops with
  | [] => []
  | op :: ops' => let '(rc, m') := machine_step m op in (rc, mc_header m') :: machine_run m' ops'
  end.

Definition related (s : hpack * header) (m : machine) : Prop :=
  snd s = mc_header m /\
  (untouched (fst s) /\ mc_limit m = None /\ mc_list m = [] \/
   table_is (fst s) (mc_list m) /\ mc_limit m = Some (hp_size (fst s))).

Lemma step_related s m op :
  related s m -> op_ok op ->
  exists rc s' m', hpack_step s op = Some (rc, s') /\ machine_step m op = (rc, m') /\ related s' m'.
Proof.
  destruct s as [t old], m as [limit l h0]. intros [Ho Hr] Hop. cbn [fst snd mc_limit mc_list mc_header] in *. subst h0.
  destruct op as [index name_only|h|size]; cbn [hpack_step machine_step op_ok mc_limit mc_list mc_header] in *.
  - assert (ngx_http_v2_get_indexed_header t index name_only old = Some (get_result l index name_only old)) as ->.
    { destruct Hr as [(Hu & _ & ->)|[HT _]]; [by apply get_header_untouched|by apply get_header_table]. }
    cbn [mbind option_bind]. destruct (get_result l index name_only old) as [rc h].
    exists rc, (t, h), (mk_machine limit l h). done.
  - destruct Hr as [(Hu & -> & ->)|[HT ->]]; cbn [default].
    + destruct (table_init_at t Hu) as [HT Hs].
      destruct (add_header_table _ [] h HT) as (t' & E & HT' & Hs').
      assert (ngx_http_v2_add_header t h = ngx_http_v2_add_header (table_init t) h) as ->.
      { unfold ngx_http_v2_add_header. by rewrite (table_init_same _ [] HT). }
      rewrite E. cbn [mbind option_bind]. eexists _, _, _. split; [done|]. split; [done|]. split; [done|].
      right. cbn [fst mc_limit mc_list]. rewrite Hs in HT'. by rewrite Hs', Hs.
    + destruct (add_header_table _ l h HT) as (t' & -> & HT' & Hs'). cbn [mbind option_bind].
      eexists _, _, _. split; [done|]. split; [done|]. split; [done|]. right. cbn [fst mc_limit mc_list].
      by rewrite Hs'.
  - destruct (NGX_HTTP_V2_TABLE_SIZE <? size) eqn:E.
    + assert (ngx_http_v2_table_size t size = Some (NGX_ERROR, t)) as ->.
      { unfold ngx_http_v2_table_size. by rewrite E. }
      eexists _, _, _. split; [done|]. split; [done|]. split; [done|exact Hr].
    + destruct Hr as [(Hu & -> & ->)|[HT ->]].
      * destruct (table_size_untouched t size Hu) as (t' & -> & Hu'); [lia|]. cbn [mbind option_bind].
        eexists _, _, _. split; [done|]. split; [done|]. split; [done|]. by left.
      * destruct (table_size_table t l size HT) as (t' & -> & HT' & Hs'); [lia|]. cbn [mbind option_bind].
        eexists _, _, _. split; [done|]. split; [done|]. split; [done|]. right. cbn. by rewrite Hs'.
Qed.

Lemma run_related ops : forall s m,
  related s m -> Forall op_ok ops -> hpack_run s ops = Some (machine_run m ops).
Proof.
  induction ops as [|op ops IH]; intros s m HR Hok; [done|]. apply Forall_cons in Hok as [Hop Hok].
  destruct (step_related s m op HR Hop) as (rc & s' & m' & E1 & E2 & HR').
  cbn [hpack_run machine_run]. rewrite E1, E2. cbn [mbind option_bind]. rewrite (IH s' m' HR' Hok).
  cbn [mbind option_bind]. by rewrite (proj1 HR').
Qed.

(** C9: whatever is added, looked up and resized, in whatever order, the two
    rings answer as the list of the standard: no operation faults, an index means
    the static table and then the newest entries, additions and smaller sizes
    remove the oldest entries, and no string is lost or overwritten while its
    entry is in the table.  The one difference to the standard is in
    [machine_step]: a size that is set before the first addition is forgotten. *)
Theorem hpack_refines ops old :
  Forall op_ok ops ->
  hpack_run (hpack_zero, old) ops = Some (machine_run (mk_machine None [] old) ops).
Proof.
  intros Hok. apply run_related; [|done]. split; [done|]. left. split; [|done].
  constructor; cbn; [done|done|unfold NGX_HTTP_V2_TABLE_SIZE; lia|done].
Qed.

Definition hpack_sample_ops : list hpack_op :=
  [AddHeader (bytes "x", replicate 3000 7); AddHeader (bytes "y", replicate 2000 8);
   GetHeader 62 false; GetHeader 63 false; TableSize 100; GetHeader 62 true].

Lemma hpack_refines_witness :
  hpack_run (hpack_zero, ([], [])) hpack_sample_ops =
    Some [(NGX_OK, ([], [])); (NGX_OK, ([], [])); (NGX_OK, (bytes "y", replicate 2000 8));
          (NGX_ERROR, (bytes "y", replicate 2000 8)); (NGX_OK, (bytes "y", replicate 2000 8));
          (NGX_ERROR, (bytes "y", replicate 2000 8))].
Proof.
  assert (Hok : Forall op_ok hpack_sample_ops) by (repeat constructor; cbn; lia).
  rewrite (hpack_refines hpack_sample_ops ([], []) Hok). vm_compute. reflexivity.
Defined.

(** A table size of zero before the first header does not keep it out. *)
Theorem hpack_first_size_forgotten :
  hpack_run (hpack_zero, ([], [])) [TableSize 0; AddHeader (bytes "x", bytes "1"); GetHeader 62 false] =
    Some [(NGX_OK, ([], [])); (NGX_OK, ([], [])); (NGX_OK, (bytes "x", bytes "1"))].
Proof. by vm_compute. Qed.
