(* ===== verification/Hpack.v ===== *)
(** * Header blocks of HTTP/2

    The handlers of [src/http/v2/ngx_http_v2.c] that read a block of compressed
    headers: [ngx_http_v2_state_header_block] to [..._header_complete],
    [ngx_http_v2_handle_continuation], the skipping of padding, and the loop of
    [ngx_http_v2_read_handler] around them; and the integers and strings that
    [ngx_http_v2_filter_module.c] writes.

    The bytes from [pos] to [end] are a list.  A handler may call another one,
    return to the loop, save what it cannot use yet, or fail.  What becomes of a
    header once it is read is left to the class [Request].  [None] is a fault: a
    byte outside the input, or more bytes than were allocated for a string. *)

From S2P Require Import Prelude HeaderLine Huffman HpackTable.

Definition NGX_HTTP_V2_STATE_BUFFER_SIZE : Z := 16.
Definition NGX_HTTP_V2_INT_OCTETS : Z := 4.
Definition NGX_HTTP_V2_FRAME_HEADER_SIZE : Z := 9.
Definition NGX_HTTP_V2_CONTINUATION_FRAME : Z := 9.
Definition NGX_HTTP_V2_END_HEADERS_FLAG : Z := 4.

(** The error codes that these handlers use. *)
Definition NGX_HTTP_V2_PROTOCOL_ERROR : Z := 1.
Definition NGX_HTTP_V2_INTERNAL_ERROR : Z := 2.
Definition NGX_HTTP_V2_SIZE_ERROR : Z := 6.
Definition NGX_HTTP_V2_COMP_ERROR : Z := 9.
Definition NGX_HTTP_V2_ENHANCE_YOUR_CALM : Z := 11.

Definition ngx_http_v2_prefix (bits : Z) : Z := Z.shiftl 1 bits - 1.

(** ** Integers *)

(** [for (shift = 0; p != end; shift += 7)]: the value and [p - start]. *)
Fixpoint int_loop (window : list Z) (n shift value : Z) : option (Z * Z) :=
  match window with
  | [] => None
  | octet :: window' =>
      let value := u64 (value + u64 (Z.shiftl (Z.land octet 0x7f) shift)) in
      if octet <? 128 then Some (value, n + 1) else int_loop window' (n + 1) (shift + 7) value
  end.

(** The value or the code, [h2c->state.length] and the bytes from [*pos] on. *)
Definition ngx_http_v2_parse_int (length : Z) (pos : list Z) (prefix : Z) : option (Z * Z * list Z) :=
  match pos with
  | [] => None
  | c :: rest =>
      let value := Z.land c prefix in
      if negb (value =? prefix) then
        if length =? 0 then Some (NGX_ERROR, length, pos) else Some (value, length - 1, rest)
      else
        let window := take (Z.to_nat NGX_HTTP_V2_INT_OCTETS) pos in
        match int_loop (tail window) 1 0 value with
        | Some (value, n) =>
            if length <? n then Some (NGX_ERROR, length, pos)
            else Some (value, length - n, drop (Z.to_nat n) pos)
        | None =>
            let n := Z.of_nat (List.length window) in
            if length <=? n then Some (NGX_ERROR, length, pos)
            else if n =? NGX_HTTP_V2_INT_OCTETS then Some (NGX_DECLINED, length, pos)
            else Some (NGX_AGAIN, length, pos)
        end
  end.

(** [while (value >= 128)] *)
Fixpoint write_loop (fuel : nat) (value : Z) : list Z :=
  match fuel with
  | O => []
  | S fuel' =>
      if 128 <=? value then (value mod 128 + 128) :: write_loop fuel' (value / 128) else [u8 value]
  end.

(** [*pos] is [flags] before; a 64-bit value has at most ten groups of 7 bits. *)
Definition ngx_http_v2_write_int (flags prefix value : Z) : list Z :=
  if value <? prefix then [Z.lor flags value]
  else Z.lor flags prefix :: write_loop 10 (value - prefix).

Definition NGX_HTTP_V2_ENCODE_RAW : Z := 0.
Definition NGX_HTTP_V2_ENCODE_HUFF : Z := 0x80.

Definition ngx_http_v2_string_encode (src : list Z) (lower : bool) : option (list Z) :=
  '(hlen, tmp) ← ngx_http_v2_huff_encode src lower;
  if 0 <? hlen then
    Some (ngx_http_v2_write_int NGX_HTTP_V2_ENCODE_HUFF (ngx_http_v2_prefix 7) hlen ++ take (Z.to_nat hlen) tmp)
  else
    Some (ngx_http_v2_write_int NGX_HTTP_V2_ENCODE_RAW (ngx_http_v2_prefix 7) (Z.of_nat (length src)) ++
          (if lower then map ngx_tolower src else src)).

(** ** The state *)

(** What the request does with a header: it keeps the stream, drops it, or the
    connection fails; [h2c->state.header] may be changed. *)
Inductive verdict : Type := Keep | Drop | Fatal.

Class Request (R : Type) : Type := {
  process_field : R -> header -> R * header * verdict;
  add_length : R -> Z -> R;
  run_request : R -> R
}.

Section Fields.
Context {R : Type} `{!Request R}.

(** [ngx_http_v2_state_t] and [hpack] of the connection.  The bytes from
    [field_start] to [field_end] are [st_field], in a block of [st_alloc];
    [st_stream] is whether [stream] is not [NULL], [st_request] its request. *)
Record h2_state : Type := mk_h2 {
  st_sid : Z; st_length : Z; st_padding : Z; st_flags : Z;
  st_parse_name : bool; st_parse_value : bool; st_index : bool;
  st_header : header; st_header_limit : Z;
  st_field_state : Z; st_field : list Z; st_alloc : Z; st_field_rest : Z;
  st_stream : bool; st_request : R;
  st_hpack : hpack
}.

Definition set_length v s := mk_h2 (st_sid s) v (st_padding s) (st_flags s) (st_parse_name s) (st_parse_value s)
  (st_index s) (st_header s) (st_header_limit s) (st_field_state s) (st_field s) (st_alloc s) (st_field_rest s)
  (st_stream s) (st_request s) (st_hpack s).
Definition set_padding v s := mk_h2 (st_sid s) (st_length s) v (st_flags s) (st_parse_name s) (st_parse_value s)
  (st_index s) (st_header s) (st_header_limit s) (st_field_state s) (st_field s) (st_alloc s) (st_field_rest s)
  (st_stream s) (st_request s) (st_hpack s).
Definition set_flags v s := mk_h2 (st_sid s) (st_length s) (st_padding s) v (st_parse_name s) (st_parse_value s)
  (st_index s) (st_header s) (st_header_limit s) (st_field_state s) (st_field s) (st_alloc s) (st_field_rest s)
  (st_stream s) (st_request s) (st_hpack s).
Definition set_parse n v s := mk_h2 (st_sid s) (st_length s) (st_padding s) (st_flags s) n v
  (st_index s) (st_header s) (st_header_limit s) (st_field_state s) (st_field s) (st_alloc s) (st_field_rest s)
  (st_stream s) (st_request s) (st_hpack s).
Definition set_index v s := mk_h2 (st_sid s) (st_length s) (st_padding s) (st_flags s) (st_parse_name s)
  (st_parse_value s) v (st_header s) (st_header_limit s) (st_field_state s) (st_field s) (st_alloc s)
  (st_field_rest s) (st_stream s) (st_request s) (st_hpack s).
Definition set_header v s := mk_h2 (st_sid s) (st_length s) (st_padding s) (st_flags s) (st_parse_name s)
  (st_parse_value s) (st_index s) v (st_header_limit s) (st_field_state s) (st_field s) (st_alloc s)
  (st_field_rest s) (st_stream s) (st_request s) (st_hpack s).
Definition set_limit v s := mk_h2 (st_sid s) (st_length s) (st_padding s) (st_flags s) (st_parse_name s)
  (st_parse_value s) (st_index s) (st_header s) v (st_field_state s) (st_field s) (st_alloc s)
  (st_field_rest s) (st_stream s) (st_request s) (st_hpack s).
Definition set_field st f a r s := mk_h2 (st_sid s) (st_length s) (st_padding s) (st_flags s) (st_parse_name s)
  (st_parse_value s) (st_index s) (st_header s) (st_header_limit s) st f a r (st_stream s) (st_request s) (st_hpack s).
Definition set_stream v s := mk_h2 (st_sid s) (st_length s) (st_padding s) (st_flags s) (st_parse_name s)
  (st_parse_value s) (st_index s) (st_header s) (st_header_limit s) (st_field_state s) (st_field s) (st_alloc s)
  (st_field_rest s) v (st_request s) (st_hpack s).
Definition set_request v s := mk_h2 (st_sid s) (st_length s) (st_padding s) (st_flags s) (st_parse_name s)
  (st_parse_value s) (st_index s) (st_header s) (st_header_limit s) (st_field_state s) (st_field s) (st_alloc s)
  (st_field_rest s) (st_stream s) v (st_hpack s).
Definition set_hpack v s := mk_h2 (st_sid s) (st_length s) (st_padding s) (st_flags s) (st_parse_name s)
  (st_parse_value s) (st_index s) (st_header s) (st_header_limit s) (st_field_state s) (st_field s) (st_alloc s)
  (st_field_rest s) (st_stream s) (st_request s) v.

(** What the code does only if there is a stream. *)
Definition of_stream (f : R -> R) s :=
  set_request (if st_stream s then f (st_request s) else st_request s) s.

Inductive handler : Type :=
  | HeaderBlock | FieldLen | FieldHuff | FieldRaw | FieldSkip | ProcessHeader | HeaderComplete
  | SkipPadded | Skip | Head.

#[export] Instance handler_eq_dec : EqDecision handler.
Proof. solve_decision. Defined.

(** How a handler ends: with a call of another, with a return to the loop, with
    [ngx_http_v2_state_save], or with [ngx_http_v2_connection_error]. *)
Inductive result : Type :=
  | Call (h : handler) (pos : list Z) (s : h2_state)
  | Return (h : handler) (pos : list Z) (s : h2_state)
  | Save (h : handler) (pos : list Z) (s : h2_state)
  | Error (code : Z).

(** ** The handlers *)

Definition parse_uint32 (p : list Z) : Z :=
  Z.lor (Z.lor (Z.lor (Z.shiftl (byte_at p 0) 24) (Z.shiftl (byte_at p 1) 16)) (Z.shiftl (byte_at p 2) 8)) (byte_at p 3).

Definition parse_sid (p : list Z) : Z := Z.land (parse_uint32 p) 0x7fffffff.

Definition ngx_http_v2_handle_continuation (pos : list Z) (h : handler) (s : h2_state) : result :=
  let len := Z.to_nat (st_length s) in
  let size := Z.of_nat (length pos) in
  let '(pos, s) :=
    if negb (st_padding s =? 0) && (st_length s <? size) then
      let skip := Z.min (st_padding s) (size - st_length s) in
      (take len pos ++ drop (len + Z.to_nat skip) pos, set_padding (st_padding s - skip) s)
    else (pos, s) in
  if Z.of_nat (length pos) <? st_length s + NGX_HTTP_V2_FRAME_HEADER_SIZE then Save h pos s
  else
    let p := drop len pos in
    let head := parse_uint32 p in
    if negb (Z.land head 0xff =? NGX_HTTP_V2_CONTINUATION_FRAME) then Error NGX_HTTP_V2_PROTOCOL_ERROR
    else
      let s := set_flags (Z.lor (st_flags s) (byte_at p 4)) s in
      if negb (st_sid s =? parse_sid (drop 5 p)) then Error NGX_HTTP_V2_PROTOCOL_ERROR
      else
        let pos := take len pos ++ drop (len + Z.to_nat NGX_HTTP_V2_FRAME_HEADER_SIZE) pos in
        let len := Z.shiftr head 8 in
        let s := set_length (st_length s + len) s in
        Return h pos (of_stream (fun r => add_length r len) s).

(** [!(flags & END_HEADERS) && length < INT_OCTETS] *)
Definition at_frame_end (s : h2_state) : bool :=
  (Z.land (st_flags s) NGX_HTTP_V2_END_HEADERS_FLAG =? 0) && (st_length s <? NGX_HTTP_V2_INT_OCTETS).

(** The code for an integer that was not read. *)
Definition int_error (value : Z) (h : handler) (pos : list Z) (s : h2_state) : result :=
  if value =? NGX_AGAIN then Save h pos s
  else if value =? NGX_DECLINED then Error NGX_HTTP_V2_COMP_ERROR
  else Error NGX_HTTP_V2_SIZE_ERROR.

Definition ngx_http_v2_state_header_block (pos : list Z) (s : h2_state) : option result :=
  match pos with
  | [] => Some (Save HeaderBlock pos s)
  | ch :: _ =>
      if at_frame_end s then Some (ngx_http_v2_handle_continuation pos HeaderBlock s)
      else
        let indexed := 128 <=? ch in
        let index := negb indexed && (64 <=? ch) in
        let size_update := negb indexed && negb index && (32 <=? ch) in
        let prefix := ngx_http_v2_prefix (if indexed then 7 else if index then 6 else if size_update then 5 else 4) in
        let s := if index then set_index true s else s in
        '(value, length, pos) ← ngx_http_v2_parse_int (st_length s) pos prefix;
        let s := set_length length s in
        if value <? 0 then Some (int_error value HeaderBlock pos s)
        else if indexed then
          '(rc, h) ← ngx_http_v2_get_indexed_header (st_hpack s) value false (st_header s);
          if negb (rc =? NGX_OK) then Some (Error NGX_HTTP_V2_COMP_ERROR)
          else Some (Call ProcessHeader pos (set_header h s))
        else if size_update then
          '(rc, t) ← ngx_http_v2_table_size (st_hpack s) value;
          if negb (rc =? NGX_OK) then Some (Error NGX_HTTP_V2_COMP_ERROR)
          else Some (Call HeaderComplete pos (set_hpack t s))
        else if value =? 0 then Some (Call FieldLen pos (set_parse true true s))
        else
          '(rc, h) ← ngx_http_v2_get_indexed_header (st_hpack s) value true (st_header s);
          if negb (rc =? NGX_OK) then Some (Error NGX_HTTP_V2_COMP_ERROR)
          else Some (Call FieldLen pos (set_parse (st_parse_name s) true (set_header h s)))
  end.

(** [max_field_size] is http2_max_field_size. *)
Definition ngx_http_v2_state_field_len (max_field_size : Z) (pos : list Z) (s : h2_state) : option result :=
  if at_frame_end s then Some (ngx_http_v2_handle_continuation pos FieldLen s)
  else if st_length s <? 1 then Some (Error NGX_HTTP_V2_SIZE_ERROR)
  else
    match pos with
    | [] => Some (Save FieldLen pos s)
    | c :: _ =>
        let huff := negb (Z.shiftr c 7 =? 0) in
        '(len, length, pos) ← ngx_http_v2_parse_int (st_length s) pos (ngx_http_v2_prefix 7);
        let s := set_length length s in
        if len <? 0 then Some (int_error len FieldLen pos s)
        else if max_field_size <? len then Some (Error NGX_HTTP_V2_ENHANCE_YOUR_CALM)
        else
          let s := set_field (st_field_state s) (st_field s) (st_alloc s) len s in
          match st_stream s, st_index s with
          | false, false => Some (Call FieldSkip pos s)
          | _, _ =>
              let alloc := (if huff then len * 8 / 5 else len) + 1 in
              let s := set_field (st_field_state s) [] alloc len s in
              Some (Call (if huff then FieldHuff else FieldRaw) pos s)
          end
    end.

(** The bytes that the field and the frame allow. *)
Definition field_size (pos : list Z) (s : h2_state) : Z :=
  let size := Z.of_nat (length pos) in
  let size := if st_field_rest s <? size then st_field_rest s else size in
  if st_length s <? size then st_length s else size.

(** The field goes on: in this frame, in none, or in the next one. *)
Definition field_goes_on (h : handler) (pos : list Z) (s : h2_state) : result :=
  if negb (st_length s =? 0) then Save h pos s
  else if negb (Z.land (st_flags s) NGX_HTTP_V2_END_HEADERS_FLAG =? 0) then Error NGX_HTTP_V2_SIZE_ERROR
  else ngx_http_v2_handle_continuation pos h s.

(** Bytes are written at [field_end]. *)
Definition put_field (out : list Z) (s : h2_state) : option h2_state :=
  if Z.of_nat (length (st_field s ++ out)) <=? st_alloc s then
    Some (set_field (st_field_state s) (st_field s ++ out) (st_alloc s) (st_field_rest s) s)
  else None.

(** [*field_end = '\0'] *)
Definition terminate_field (s : h2_state) : option unit :=
  if Z.of_nat (length (st_field s)) <? st_alloc s then Some tt else None.

Definition ngx_http_v2_state_field_huff (pos : list Z) (s : h2_state) : option result :=
  let size := field_size pos s in
  let s := set_length (st_length s - size) s in
  let rest := st_field_rest s - size in
  '(rc, state, out) ← ngx_http_v2_huff_decode (st_field_state s) (take (Z.to_nat size) pos) (rest =? 0);
  s ← put_field out (set_field state (st_field s) (st_alloc s) rest s);
  if negb (rc =? NGX_OK) then Some (Error NGX_HTTP_V2_COMP_ERROR)
  else
    let pos := drop (Z.to_nat size) pos in
    if st_field_rest s =? 0 then
      _ ← terminate_field s; Some (Call ProcessHeader pos s)
    else Some (field_goes_on FieldHuff pos s).

Definition ngx_http_v2_state_field_raw (pos : list Z) (s : h2_state) : option result :=
  let size := field_size pos s in
  let s := set_length (st_length s - size) s in
  let rest := st_field_rest s - size in
  s ← put_field (take (Z.to_nat size) pos) (set_field (st_field_state s) (st_field s) (st_alloc s) rest s);
  let pos := drop (Z.to_nat size) pos in
  if st_field_rest s =? 0 then
    _ ← terminate_field s; Some (Call ProcessHeader pos s)
  else Some (field_goes_on FieldRaw pos s).

Definition ngx_http_v2_state_field_skip (pos : list Z) (s : h2_state) : option result :=
  let size := field_size pos s in
  let s := set_length (st_length s - size) s in
  let s := set_field (st_field_state s) (st_field s) (st_alloc s) (st_field_rest s - size) s in
  let pos := drop (Z.to_nat size) pos in
  if st_field_rest s =? 0 then Some (Call ProcessHeader pos s)
  else Some (field_goes_on FieldSkip pos s).

Definition ngx_http_v2_state_process_header (pos : list Z) (s : h2_state) : option result :=
  if st_parse_name s then
    Some (Call FieldLen pos (set_header (st_field s, snd (st_header s)) (set_parse false (st_parse_value s) s)))
  else
    let s := if st_parse_value s then set_header (fst (st_header s), st_field s) (set_parse false false s) else s in
    let len := Z.of_nat (length (fst (st_header s))) + Z.of_nat (length (snd (st_header s))) in
    if st_header_limit s <? len then Some (Error NGX_HTTP_V2_ENHANCE_YOUR_CALM)
    else
      let s := set_limit (st_header_limit s - len) s in
      s ← (if st_index s then
             '(rc, t) ← ngx_http_v2_add_header (st_hpack s) (st_header s);
             Some (if rc =? NGX_OK then Some (set_index false (set_hpack t s)) else None)
           else Some (Some s));
      match s with
      | None => Some (Error NGX_HTTP_V2_INTERNAL_ERROR)
      | Some s =>
          if st_stream s then
            let '(r, h, v) := process_field (st_request s) (st_header s) in
            let s := set_request r (set_header h s) in
            match v with
            | Keep => Some (Call HeaderComplete pos s)
            | Drop => Some (Call HeaderComplete pos (set_stream false s))
            | Fatal => Some (Error NGX_HTTP_V2_INTERNAL_ERROR)
            end
          else Some (Call HeaderComplete pos s)
      end.

Definition ngx_http_v2_state_header_complete (pos : list Z) (s : h2_state) : result :=
  if negb (st_length s =? 0) then Return HeaderBlock pos s
  else if Z.land (st_flags s) NGX_HTTP_V2_END_HEADERS_FLAG =? 0 then
    ngx_http_v2_handle_continuation pos HeaderComplete s
  else
    let s := of_stream run_request s in
    if negb (st_padding s =? 0) then Call SkipPadded pos s else Return Head pos (set_stream false s).

Definition ngx_http_v2_state_skip_padded (pos : list Z) (s : h2_state) : result :=
  Call Skip pos (set_padding 0 (set_length (st_length s + st_padding s) s)).

Definition ngx_http_v2_state_skip (pos : list Z) (s : h2_state) : result :=
  let size := Z.of_nat (length pos) in
  if size <? st_length s then Save Skip [] (set_length (st_length s - size) s)
  else Return Head (drop (Z.to_nat (st_length s)) pos) (set_stream false s).

Definition handle (max_field_size : Z) (h : handler) (pos : list Z) (s : h2_state) : option result :=
  match h with
  | HeaderBlock => ngx_http_v2_state_header_block pos s
  | FieldLen => ngx_http_v2_state_field_len max_field_size pos s
  | FieldHuff => ngx_http_v2_state_field_huff pos s
  | FieldRaw => ngx_http_v2_state_field_raw pos s
  | FieldSkip => ngx_http_v2_state_field_skip pos s
  | ProcessHeader => ngx_http_v2_state_process_header pos s
  | HeaderComplete => Some (ngx_http_v2_state_header_complete pos s)
  | SkipPadded => Some (ngx_http_v2_state_skip_padded pos s)
  | Skip => Some (ngx_http_v2_state_skip pos s)
  | Head => None
  end.

(** ** The loop

    What one read leaves: a handler that waits, with the bytes it saved; a broken
    connection; or the end of the block, with the bytes of the next frame. *)
Inductive outcome : Type :=
  | Waiting (h : handler) (saved : list Z) (s : h2_state)
  | Broken (code : Z)
  | Finished (pos : list Z) (s : h2_state).

(** [do { p = handler(h2c, p, end); } while (p != end);] *)
Fixpoint read_loop (fuel : nat) (max_field_size : Z) (h : handler) (pos : list Z) (s : h2_state) : option outcome :=
  match fuel with
  | O => None
  | S fuel' =>
      r ← handle max_field_size h pos s;
      match r with
      | Call h pos s => read_loop fuel' max_field_size h pos s
      | Return Head pos s => Some (Finished pos s)
      | Return h [] s => Some (Waiting h [] s)
      | Return h pos s => read_loop fuel' max_field_size h pos s
      | Save h pos s =>
          if NGX_HTTP_V2_STATE_BUFFER_SIZE <? Z.of_nat (length pos) then Some (Broken NGX_HTTP_V2_INTERNAL_ERROR)
          else Some (Waiting h pos s)
      | Error code => Some (Broken code)
      end
  end.

(** A handler that does not consume a byte calls one of lower rank. *)
Definition rank (h : handler) : nat :=
  match h with
  | FieldHuff | FieldRaw | FieldSkip => 5
  | ProcessHeader => 4
  | FieldLen | HeaderComplete => 3
  | HeaderBlock | SkipPadded => 2
  | Skip => 1
  | Head => 0
  end.

Definition read_fuel (h : handler) (pos : list Z) : nat := 8 * length pos + rank h + 1.

Definition ngx_http_v2_read (max_field_size : Z) (h : handler) (pos : list Z) (s : h2_state) : option outcome :=
  read_loop (read_fuel h pos) max_field_size h pos s.

End Fields.
