(* ===== verification/HpackBlock.v ===== *)
(** * Header blocks that arrive in pieces

    Reading a header block from the network in pieces, wherever they are cut, is
    reading it at once: what a handler saves and the state it leaves are enough to
    go on. *)

From S2P Require Import Prelude HuffmanSpec Huffman HpackTable Hpack.

(** ** Integers *)

Lemma int_loop_app w b n shift value r :
  int_loop w n shift value = Some r -> int_loop (w ++ b) n shift value = Some r.
Proof.
  revert n shift value. induction w as [|octet w IH]; intros n shift value H; [done|].
  cbn [int_loop app] in *. destruct (octet <? 128); [done|]. by apply IH.
Qed.

Lemma int_loop_count w n shift value v m :
  int_loop w n shift value = Some (v, m) -> n < m <= n + Z.of_nat (length w).
Proof.
  revert n shift value. induction w as [|octet w IH]; intros n shift value H; [done|].
  cbn [int_loop length] in *. destruct (octet <? 128); [injection H as _ <-; lia|].
  apply IH in H. lia.
Qed.

Lemma int_loop_none_app w b n shift value v m :
  int_loop w n shift value = None -> int_loop (w ++ b) n shift value = Some (v, m) -> n + Z.of_nat (length w) < m.
Proof.
  revert n shift value. induction w as [|octet w IH]; intros n shift value H1 H2.
  - apply int_loop_count in H2. cbn [length]. lia.
  - cbn [int_loop app length] in *. destruct (octet <? 128); [done|]. specialize (IH _ _ _ H1 H2). lia.
Qed.

Lemma int_loop_value w n shift value v m :
  0 <= value -> int_loop w n shift value = Some (v, m) -> 0 <= v.
Proof.
  revert n shift value. induction w as [|octet w IH]; intros n shift value H0 H; [done|].
  cbn [int_loop] in H. assert (Hu : forall x, 0 <= u64 x) by (intros; by apply Z.mod_pos_bound).
  destruct (octet <? 128); [injection H as <- _; apply Hu|]. by apply IH in H.
Qed.

(** What is read does not depend on what comes after. *)
Lemma parse_int_app len a b prefix v len' rest :
  ngx_http_v2_parse_int len a prefix = Some (v, len', rest) -> v <> NGX_AGAIN ->
  ngx_http_v2_parse_int len (a ++ b) prefix = Some (v, len', rest ++ b).
Proof.
  unfold ngx_http_v2_parse_int. destruct a as [|c a]; [done|]. cbn [app]. intros H Hv.
  destruct (negb (Z.land c prefix =? prefix)).
  { destruct (len =? 0); injection H as <- <- <-; done. }
  change (take (Z.to_nat NGX_HTTP_V2_INT_OCTETS) (c :: ?l)) with (c :: take 3 l) in *. cbn [tail] in *.
  cbn [length] in *. rewrite take_app.
  destruct (int_loop (take 3 a) 1 0 (Z.land c prefix)) as [[v0 n]|] eqn:E.
  - rewrite (int_loop_app _ _ _ _ _ _ E). apply int_loop_count in E. rewrite length_take in E.
    destruct (len <? n); [injection H as <- <- <-; done|]. injection H as <- <- <-.
    rewrite app_comm_cons, drop_app_le; [done|]. cbn [length]. lia.
  - rewrite length_app, !length_take in *.
    destruct (len <=? Z.of_nat (S (3 `min` length a))) eqn:E1.
    + injection H as <- <- <-.
      destruct (int_loop (take 3 a ++ take (3 - length a) b) 1 0 (Z.land c prefix)) as [[v0 n]|] eqn:E2.
      * apply (int_loop_none_app _ _ _ _ _ _ _ E) in E2. rewrite length_take in E2.
        rewrite (proj2 (Z.ltb_lt len n)) by lia. done.
      * rewrite (proj2 (Z.leb_le _ _)) by lia. done.
    + destruct (Z.of_nat (S (3 `min` length a)) =? NGX_HTTP_V2_INT_OCTETS) eqn:E2.
      * injection H as <- <- <-. unfold NGX_HTTP_V2_INT_OCTETS in *.
        replace (3 - length a)%nat with 0%nat by lia. rewrite take_0, app_nil_r, E.
        cbn [length]. rewrite Nat.add_0_r, E1, E2. done.
      * injection H as <- <- <-. done.
Qed.

Lemma parse_int_again len a prefix len' rest :
  0 <= prefix -> ngx_http_v2_parse_int len a prefix = Some (NGX_AGAIN, len', rest) ->
  len' = len /\ rest = a /\ (length a < 4)%nat.
Proof.
  unfold ngx_http_v2_parse_int. intros Hp H. destruct a as [|c a]; [done|].
  assert (Hpos : 0 <= Z.land c prefix) by (apply Z.land_nonneg; by right).
  destruct (negb (Z.land c prefix =? prefix)).
  { destruct (len =? 0); [done|]. injection H as H _ _. unfold NGX_AGAIN in H. lia. }
  change (take (Z.to_nat NGX_HTTP_V2_INT_OCTETS) (c :: ?l)) with (c :: take 3 l) in *. cbn [tail length] in *.
  destruct (int_loop (take 3 a) 1 0 (Z.land c prefix)) as [[v0 n]|] eqn:E.
  - destruct (len <? n); [done|]. injection H as -> _ _. apply int_loop_value in E; [|done]. done.
  - rewrite length_take in H. destruct (len <=? _); [done|].
    destruct (_ =? NGX_HTTP_V2_INT_OCTETS) eqn:E1; [done|]. injection H as <- <-.
    unfold NGX_HTTP_V2_INT_OCTETS in E1. split; [done|]. split; [done|]. lia.
Qed.

Lemma parse_int_consumes len a prefix v len' rest :
  ngx_http_v2_parse_int len a prefix = Some (v, len', rest) -> 0 <= v ->
  (length rest < length a)%nat /\ len - len' = Z.of_nat (length a - length rest) /\
  exists n, rest = drop n a /\ (n <= length a)%nat.
Proof.
  unfold ngx_http_v2_parse_int. intros H Hv. destruct a as [|c a]; [done|].
  destruct (negb (Z.land c prefix =? prefix)).
  { destruct (len =? 0); injection H as <- <- <-; [done|]. cbn [length]. split; [lia|]. split; [lia|].
    exists 1%nat. cbn [drop length]. split; [by rewrite drop_0|lia]. }
  change (take (Z.to_nat NGX_HTTP_V2_INT_OCTETS) (c :: ?l)) with (c :: take 3 l) in *. cbn [tail length] in *.
  destruct (int_loop (take 3 a) 1 0 (Z.land c prefix)) as [[v0 n]|] eqn:E.
  - apply int_loop_count in E. rewrite length_take in E.
    destruct (len <? n); injection H as <- <- <-; [done|]. rewrite length_drop. cbn [length].
    split; [lia|]. split; [lia|]. exists (Z.to_nat n). split; [done|lia].
  - destruct (len <=? _); [by injection H as <- _ _|].
    destruct (_ =? NGX_HTTP_V2_INT_OCTETS); by injection H as <- _ _.
Qed.

(** ** Handlers with more input *)
Section Pieces.
Context {R : Type} `{!Request R} (max_field_size : Z).

Definition extend (b : list Z) (r : result (R := R)) : result :=
  match r with
  | Call h pos s => Call h (pos ++ b) s
  | Return h pos s => Return h (pos ++ b) s
  | Save h pos s => Save h (pos ++ b) s
  | Error code => Error code
  end.

Lemma set_padding_same (s : h2_state (R := R)) : set_padding (st_padding s) s = s.
Proof. by destruct s. Qed.

Lemma set_length_same (s : h2_state (R := R)) : set_length (st_length s) s = s.
Proof. by destruct s. Qed.

Lemma parse_uint32_app p b : (4 <= length p)%nat -> parse_uint32 (p ++ b) = parse_uint32 p.
Proof. intros H. unfold parse_uint32. by rewrite !byte_at_app_l by lia. Qed.

(** What follows the skipping of padding. *)
Definition continue_frame (pos : list Z) (h : handler) (s : h2_state (R := R)) : result :=
  let len := Z.to_nat (st_length s) in
  if Z.of_nat (length pos) <? st_length s + NGX_HTTP_V2_FRAME_HEADER_SIZE then Save h pos s
  else
    let p := drop len pos in
    let head := parse_uint32 p in
    if negb (Z.land head 0xff =? NGX_HTTP_V2_CONTINUATION_FRAME) then Error NGX_HTTP_V2_PROTOCOL_ERROR
    else
      let s := set_flags (Z.lor (st_flags s) (byte_at p 4)) s in
      if negb (st_sid s =? parse_sid (drop 5 p)) then Error NGX_HTTP_V2_PROTOCOL_ERROR
      else
        let pos := take len pos ++ drop (len + Z.to_nat NGX_HTTP_V2_FRAME_HEADER_SIZE) pos in
        let len := Z.shiftr head 8 in
        let s := set_length (st_length s + len) s in
        Return h pos (of_stream (fun r => add_length r len) s).

Lemma continue_frame_app a b h s :
  0 <= st_length s ->
  match continue_frame a h s with
  | Save h' p s' => h' = h /\ p = a /\ s' = s /\ Z.of_nat (length a) < st_length s + 9
  | r => continue_frame (a ++ b) h s = extend b r
  end.
Proof.
  intros Hl. unfold continue_frame, NGX_HTTP_V2_FRAME_HEADER_SIZE. cbv zeta.
  destruct (Z.of_nat (length a) <? st_length s + 9) eqn:E; [repeat split; lia|].
  rewrite (proj2 (Z.ltb_ge _ _)) by (rewrite length_app; lia).
  set (len := Z.to_nat (st_length s)). assert (Hlen : (len + 9 <= length a)%nat) by lia.
  rewrite drop_app_le by lia. rewrite parse_uint32_app by (rewrite length_drop; lia).
  destruct (negb (Z.land _ 255 =? _)); [done|].
  rewrite byte_at_app_l by (rewrite length_drop; lia).
  rewrite (drop_app_le _ _ 5) by (rewrite length_drop; lia). unfold parse_sid.
  rewrite parse_uint32_app by (rewrite !length_drop; lia). cbn [set_flags st_sid].
  destruct (negb (st_sid s =? _)); [done|]. cbn [extend].
  rewrite take_app_le by lia. rewrite drop_app_le by (change (Z.to_nat 9) with 9%nat; lia).
  by rewrite app_assoc.
Qed.

(** The padding that can be skipped, and what is left. *)
Definition skippable (pos : list Z) (s : h2_state (R := R)) : Z :=
  if st_length s <? Z.of_nat (length pos) then Z.min (st_padding s) (Z.of_nat (length pos) - st_length s) else 0.

Definition skipped (pos : list Z) (s : h2_state (R := R)) : list Z :=
  take (Z.to_nat (st_length s)) pos ++ drop (Z.to_nat (st_length s) + Z.to_nat (skippable pos s)) pos.

Definition after_skip (pos : list Z) (s : h2_state (R := R)) : h2_state :=
  set_padding (st_padding s - skippable pos s) s.

Lemma skippable_range pos s :
  0 <= st_length s -> 0 <= st_padding s ->
  0 <= skippable pos s <= st_padding s /\ (skippable pos s = 0 \/ st_length s + skippable pos s <= Z.of_nat (length pos)) /\
  (st_length s + skippable pos s < Z.of_nat (length pos) -> skippable pos s = st_padding s).
Proof. intros Hl Hp. unfold skippable. case_ifs; lia. Qed.

Lemma skipped_none pos s : skippable pos s = 0 -> skipped pos s = pos /\ after_skip pos s = s.
Proof.
  intros E. unfold skipped, after_skip. rewrite E, Z.sub_0_r, set_padding_same. cbn [Z.to_nat].
  by rewrite Nat.add_0_r, take_drop.
Qed.

Lemma continuation_eq pos h s :
  0 <= st_length s -> 0 <= st_padding s ->
  ngx_http_v2_handle_continuation pos h s = continue_frame (skipped pos s) h (after_skip pos s).
Proof.
  intros Hl Hp. unfold ngx_http_v2_handle_continuation, continue_frame, skipped, after_skip, skippable. cbv zeta.
  destruct (st_length s <? Z.of_nat (length pos)) eqn:E; [destruct (st_padding s =? 0) eqn:E0|];
    rewrite ?andb_false_r; cbn [negb andb]; [|reflexivity|].
  - rewrite Z.min_l by lia. replace (st_padding s) with 0 by lia. cbn [Z.to_nat]. rewrite Nat.add_0_r, take_drop.
    replace (set_padding (0 - 0) s) with s; [reflexivity|]. rewrite <-(set_padding_same s) at 1. f_equal. lia.
  - rewrite Z.sub_0_r, set_padding_same. cbn [Z.to_nat]. by rewrite Nat.add_0_r, take_drop.
Qed.

(** Skipping in two steps. *)
Lemma skip_twice a b s :
  0 <= st_length s -> 0 <= st_padding s ->
  skipped (a ++ b) s = skipped (skipped a s ++ b) (after_skip a s) /\
  after_skip (a ++ b) s = after_skip (skipped a s ++ b) (after_skip a s).
Proof.
  intros Hl Hp. destruct (skippable_range a s Hl Hp) as (Hk & Hk2 & _).
  destruct (decide (skippable a s = 0)) as [E|E].
  { by destruct (skipped_none a s E) as [-> ->]. }
  destruct Hk2 as [|Hk2]; [done|].
  assert (Hlen : Z.of_nat (length (skipped a s)) = Z.of_nat (length a) - skippable a s).
  { unfold skipped. rewrite length_app, length_take, length_drop. lia. }
  assert (Hsum : skippable (a ++ b) s = skippable a s + skippable (skipped a s ++ b) (after_skip a s)).
  { unfold skippable at 1 3. rewrite !length_app. cbn [after_skip set_padding st_length st_padding].
    rewrite !Nat2Z.inj_add, Hlen. clear Hlen. unfold skippable in *. case_ifs; lia. }
  set (k2 := skippable (skipped a s ++ b) (after_skip a s)) in *. split.
  - unfold skipped at 1 2. fold k2. rewrite Hsum. cbn [after_skip set_padding st_length].
    set (len := Z.to_nat (st_length s)) in *. set (k := skippable a s) in *.
    unfold skipped. fold len. fold k. rewrite <-app_assoc.
    assert (Ht : length (take len a) = len) by (rewrite length_take; lia).
    rewrite take_app_le by lia. rewrite (take_app_le (take len a)), take_take, Nat.min_id by lia. f_equal.
    rewrite <-Ht at 2. rewrite drop_app_add. rewrite <-drop_app_le by lia. rewrite drop_drop. f_equal.
    assert (0 <= k2) by (unfold k2, skippable; cbn [after_skip set_padding st_padding]; fold k; case_ifs; lia). lia.
  - unfold after_skip at 1 2. fold k2. rewrite Hsum. unfold after_skip, set_padding. cbn. f_equal. lia.
Qed.

Lemma continuation_app a b h s :
  0 <= st_length s -> 0 <= st_padding s ->
  match ngx_http_v2_handle_continuation a h s with
  | Save h' p s' => h' = h /\ (exists v, 0 <= v /\ s' = set_padding v s) /\
      Z.of_nat (length p) < st_length s + 9 /\ (a <> [] -> p <> [] \/ st_length s = 0) /\
      ngx_http_v2_handle_continuation (a ++ b) h s = ngx_http_v2_handle_continuation (p ++ b) h s'
  | r => ngx_http_v2_handle_continuation (a ++ b) h s = extend b r
  end.
Proof.
  intros Hl Hp. destruct (skippable_range a s Hl Hp) as (Hk & Hk1 & Hk2).
  assert (Hp1 : 0 <= st_padding (after_skip a s)) by (cbn; lia).
  assert (Htwice : ngx_http_v2_handle_continuation (a ++ b) h s =
    ngx_http_v2_handle_continuation (skipped a s ++ b) h (after_skip a s)).
  { rewrite !continuation_eq by done. by destruct (skip_twice a b s Hl Hp) as [-> ->]. }
  rewrite (continuation_eq a) by done.
  pose proof (continue_frame_app (skipped a s) b h (after_skip a s) Hl) as H.
  assert (Hdone : Z.of_nat (length (skipped a s)) < st_length s + 9 \/
    ngx_http_v2_handle_continuation (a ++ b) h s = continue_frame (skipped a s ++ b) h (after_skip a s)).
  { destruct (decide (Z.of_nat (length (skipped a s)) < st_length s + 9)) as [|Hge]; [by left|]. right.
    rewrite Htwice, continuation_eq by done.
    assert (E : skippable (skipped a s ++ b) (after_skip a s) = 0).
    { unfold skippable at 1. cbn [after_skip set_padding st_padding st_length].
      rewrite Hk2; [case_ifs; lia|]. unfold skipped in Hge. rewrite length_app, length_take, length_drop in Hge. lia. }
    by destruct (skipped_none _ _ E) as [-> ->]. }
  destruct (continue_frame (skipped a s) h (after_skip a s)) as [| |h' p' s'|] eqn:Ef.
  1, 2, 4: destruct Hdone as [Hlt | ->]; [|done]; unfold continue_frame, NGX_HTTP_V2_FRAME_HEADER_SIZE in Ef;
    cbn [after_skip set_padding st_length] in Ef; rewrite (proj2 (Z.ltb_lt _ _) Hlt) in Ef; done.
  destruct H as (-> & -> & -> & Hlt). split; [done|].
  split; [exists (st_padding s - skippable a s); split; [lia|done]|]. split; [done|]. split; [|done].
  intros Ha. destruct a; [done|]. unfold skipped. destruct (Z.to_nat (st_length s)) eqn:El; [right; lia|by left].
Qed.
(** *** The fields

    The three handlers of fields differ in what they do with the bytes: [w] takes
    them, whether they are the last, and the decoder's state and the field so far. *)

Definition field_body (w : list Z -> bool -> Z -> list Z -> Z -> option (Z * Z * list Z))
    (fin : list Z -> Z -> bool) (h : handler) (pos : list Z) (s : h2_state (R := R)) : option result :=
  let size := field_size pos s in
  let s1 := set_length (st_length s - size) s in
  let rest := st_field_rest s - size in
  '(rc, state, field) ← w (take (Z.to_nat size) pos) (rest =? 0) (st_field_state s) (st_field s) (st_alloc s);
  let s2 := set_field state field (st_alloc s) rest s1 in
  if negb (rc =? NGX_OK) then Some (Error NGX_HTTP_V2_COMP_ERROR)
  else if rest =? 0 then
    if fin field (st_alloc s) then Some (Call ProcessHeader (drop (Z.to_nat size) pos) s2) else None
  else Some (field_goes_on h (drop (Z.to_nat size) pos) s2).

Definition fits (field : list Z) (alloc : Z) : bool := Z.of_nat (length field) <? alloc.

Definition write_huff (src : list Z) (last : bool) (state : Z) (field : list Z) (alloc : Z) : option (Z * Z * list Z) :=
  '(rc, state, out) ← ngx_http_v2_huff_decode state src last;
  if Z.of_nat (length (field ++ out)) <=? alloc then Some (rc, state, field ++ out) else None.

Definition write_raw (src : list Z) (last : bool) (state : Z) (field : list Z) (alloc : Z) : option (Z * Z * list Z) :=
  if Z.of_nat (length (field ++ src)) <=? alloc then Some (NGX_OK, state, field ++ src) else None.

Definition write_none (src : list Z) (last : bool) (state : Z) (field : list Z) (alloc : Z) : option (Z * Z * list Z) :=
  Some (NGX_OK, state, field).

Lemma field_huff_body pos s :
  ngx_http_v2_state_field_huff pos s = field_body write_huff fits FieldHuff pos s.
Proof.
  unfold ngx_http_v2_state_field_huff, field_body, write_huff, put_field, terminate_field, fits. cbv zeta.
  destruct (ngx_http_v2_huff_decode _ _ _) as [[[rc st] out]|]; [|done]. cbn [mbind option_bind].
  cbn [set_field set_length st_field st_alloc st_field_rest st_field_state].
  destruct (_ <=? st_alloc s); [|done]. cbn [mbind option_bind st_field_rest].
  destruct (negb (rc =? NGX_OK)); [done|]. cbn [set_field set_length st_field_rest st_field st_alloc].
  destruct (_ =? 0); [|done]. by destruct (_ <? st_alloc s).
Qed.

Lemma field_raw_body pos s :
  ngx_http_v2_state_field_raw pos s = field_body write_raw fits FieldRaw pos s.
Proof.
  unfold ngx_http_v2_state_field_raw, field_body, write_raw, put_field, terminate_field, fits. cbv zeta.
  cbn [set_field set_length st_field st_alloc st_field_rest st_field_state].
  destruct (_ <=? st_alloc s); [|done]. cbn [mbind option_bind set_field set_length st_field_rest st_field st_alloc negb].
  destruct (_ =? 0); [|done]. by destruct (_ <? st_alloc s).
Qed.

Lemma field_skip_body pos s :
  ngx_http_v2_state_field_skip pos s = field_body write_none (fun _ _ => true) FieldSkip pos s.
Proof.
  unfold ngx_http_v2_state_field_skip, field_body, write_none. cbv zeta.
  cbn [mbind option_bind set_field set_length st_field_rest st_field st_alloc st_field_state negb Z.eqb NGX_OK].
  done.
Qed.

(** Writing in two steps. *)
Class Writer (w : list Z -> bool -> Z -> list Z -> Z -> option (Z * Z * list Z)) : Prop := {
  writer_nil : forall a st f al st1 f1, w a false st f al = Some (NGX_OK, st1, f1) ->
    w [] false st1 f1 al = Some (NGX_OK, st1, f1);
  writer_app : forall a b last st f al st1 f1, w a false st f al = Some (NGX_OK, st1, f1) -> b <> [] ->
    w (a ++ b) last st f al = w b last st1 f1 al;
  writer_error : forall a b last st f al rc st1 f1, w a false st f al = Some (rc, st1, f1) -> rc <> NGX_OK ->
    exists st2 f2, w (a ++ b) last st f al = Some (rc, st2, f2)
}.

#[local] Instance writer_raw : Writer write_raw.
Proof.
  constructor; unfold write_raw; intros.
  - case_match; [|done]. simplify_eq. rewrite app_nil_r. by rewrite H0.
  - destruct (Z.of_nat (length (f ++ a)) <=? al) eqn:E; [|done]. simplify_eq. by rewrite app_assoc.
  - case_match; by simplify_eq.
Qed.

#[local] Instance writer_none : Writer write_none.
Proof. constructor; unfold write_none; intros; by simplify_eq. Qed.

#[local] Instance writer_huff : Writer write_huff.
Proof.
  constructor; unfold write_huff.
  - intros a st f al st1 f1 H. destruct (ngx_http_v2_huff_decode st a false) as [[[rc s1] out]|]; [|done].
    cbn [mbind option_bind] in H. destruct (_ <=? al) eqn:E; [|done]. injection H as -> -> <-.
    unfold ngx_http_v2_huff_decode. cbn [decode_loop mbind option_bind negb Z.eqb NGX_OK hd_state hd_dst].
    by rewrite app_nil_r, E.
  - intros a b last st f al st1 f1 H Hb.
    destruct (ngx_http_v2_huff_decode st a false) as [[[rc s1] out]|] eqn:Ed; [|done].
    cbn [mbind option_bind] in H. destruct (Z.of_nat (length (f ++ out)) <=? al) eqn:E; [|done]. injection H as -> -> <-.
    rewrite (huff_decode_parts st a b last st1 out Ed Hb).
    destruct (ngx_http_v2_huff_decode st1 b last) as [[[rc s2] out2]|]; [|done]. cbn [mbind option_bind].
    by rewrite app_assoc.
  - intros a b last st f al rc st1 f1 H Hrc. pose proof (huff_decode_error st a b last) as He.
    destruct (ngx_http_v2_huff_decode st a false) as [[[rc' s1] out]|]; [|done].
    cbn [mbind option_bind] in H. destruct (_ <=? al) eqn:E; [|done]. injection H as -> -> <-.
    destruct He as [He | ->]; [done|]. cbn [mbind option_bind]. rewrite E. by eexists _, _.
Qed.

Lemma field_size_min pos (s : h2_state (R := R)) :
  field_size pos s = Z.min (st_length s) (Z.min (st_field_rest s) (Z.of_nat (length pos))).
Proof.
  unfold field_size. cbv zeta. destruct (st_field_rest s <? Z.of_nat (length pos)) eqn:E1.
  - destruct (st_length s <? st_field_rest s) eqn:E2; lia.
  - destruct (st_length s <? Z.of_nat (length pos)) eqn:E2; lia.
Qed.

Lemma field_size_cases a b (s : h2_state (R := R)) :
  0 <= st_length s -> 0 <= st_field_rest s ->
  (field_size (a ++ b) s = field_size a s /\ 0 <= field_size a s <= Z.of_nat (length a) /\
     (st_field_rest s - field_size a s = 0 \/ st_length s - field_size a s = 0)) \/
  (field_size a s = Z.of_nat (length a) /\ Z.of_nat (length a) < st_field_rest s /\ Z.of_nat (length a) < st_length s).
Proof. intros Hl Hr. rewrite !field_size_min, length_app. lia. Qed.

Lemma field_size_rest a b (s : h2_state (R := R)) st f al :
  field_size a s = Z.of_nat (length a) -> Z.of_nat (length a) < st_field_rest s -> Z.of_nat (length a) < st_length s ->
  let s1 := set_field st f al (st_field_rest s - Z.of_nat (length a)) (set_length (st_length s - Z.of_nat (length a)) s) in
  field_size (a ++ b) s = Z.of_nat (length a) + field_size b s1 /\ 0 <= field_size b s1 <= Z.of_nat (length b) /\
  (b <> [] -> 0 < field_size b s1).
Proof.
  intros Ha Hr Hl s1. rewrite !field_size_min, length_app. cbn [s1 set_field set_length st_field_rest st_length].
  split; [lia|]. split; [lia|]. intros Hb. assert (0 < Z.of_nat (length b)) by (destruct b; [done|cbn; lia]). lia.
Qed.

(** A handler goes on where it stopped. *)
Definition resumes (h : handler) (a b : list Z) (s : h2_state (R := R)) : Prop :=
  match handle max_field_size h a s with
  | None => True
  | Some (Save h' p s') => Z.of_nat (length p) <= 12 /\ handle max_field_size h (a ++ b) s = handle max_field_size h' (p ++ b) s'
  | Some r => handle max_field_size h (a ++ b) s = Some (extend b r)
  end.

(** Past the end of a frame a field handler looks for the next frame. *)
Lemma field_frame_end w fin h q s :
  Writer w -> st_length s = 0 -> 0 < st_field_rest s ->
  w [] false (st_field_state s) (st_field s) (st_alloc s) = Some (NGX_OK, st_field_state s, st_field s) ->
  field_body w fin h q s = Some (field_goes_on h q s).
Proof.
  intros W Hl Hr Hw. unfold field_body. assert (E : field_size q s = 0) by (rewrite field_size_min; lia).
  rewrite E. change (Z.to_nat 0) with 0%nat. rewrite take_0, drop_0, !Z.sub_0_r, set_length_same, (proj2 (Z.eqb_neq (st_field_rest s) 0)) by lia.
  rewrite Hw.
  cbn [mbind option_bind negb Z.eqb NGX_OK]. by destruct s.
Qed.

Definition nonneg (s : h2_state (R := R)) : Prop :=
  0 <= st_length s /\ 0 <= st_padding s /\ 0 <= st_field_rest s.

Definition body_resumes (w : list Z -> bool -> Z -> list Z -> Z -> option (Z * Z * list Z))
    (fin : list Z -> Z -> bool) (h : handler) (a b : list Z) (s : h2_state (R := R)) : Prop :=
  match field_body w fin h a s with
  | None => True
  | Some (Save h' p s') => Z.of_nat (length p) <= 12 /\ h' = h /\
      field_body w fin h (a ++ b) s = field_body w fin h (p ++ b) s'
  | Some r => field_body w fin h (a ++ b) s = Some (extend b r)
  end.

(** The field or the frame ends in the first piece. *)
Lemma body_resumes_end w fin h a b s :
  Writer w -> nonneg s ->
  field_size (a ++ b) s = field_size a s -> 0 <= field_size a s <= Z.of_nat (length a) ->
  st_field_rest s - field_size a s = 0 \/ st_length s - field_size a s = 0 -> st_length s - field_size a s >= 0 ->
  0 <= st_field_rest s - field_size a s ->
  body_resumes w fin h a b s.
Proof.
  intros W (Hl & Hp & Hr) Es Hs Hend Hl1 Hr1. unfold body_resumes.
  set (k := field_size a s) in *.
  assert (Hwhole : field_body w fin h (a ++ b) s =
    '(rc, state, field) ← w (take (Z.to_nat k) a) (st_field_rest s - k =? 0) (st_field_state s) (st_field s) (st_alloc s);
    let s2 := set_field state field (st_alloc s) (st_field_rest s - k) (set_length (st_length s - k) s) in
    if negb (rc =? NGX_OK) then Some (Error NGX_HTTP_V2_COMP_ERROR)
    else if st_field_rest s - k =? 0 then
      if fin field (st_alloc s) then Some (Call ProcessHeader (drop (Z.to_nat k) a ++ b) s2) else None
    else Some (field_goes_on h (drop (Z.to_nat k) a ++ b) s2)).
  { unfold field_body. rewrite Es. fold k. by rewrite take_app_le, drop_app_le by lia. }
  rewrite Hwhole. unfold field_body at 1. fold k.
  destruct (w (take (Z.to_nat k) a) _ _ _ _) as [[[rc st1] f1]|] eqn:Ew; [|done]. cbn [mbind option_bind].
  destruct (negb (rc =? NGX_OK)) eqn:Erc; [done|].
  destruct (st_field_rest s - k =? 0) eqn:Er; [by destruct (fin _ _)|].
  set (s2 := set_field _ _ _ _ _). assert (Hl2 : st_length s2 = 0) by (cbn; lia).
  unfold field_goes_on. rewrite Hl2. cbn [negb Z.eqb].
  destruct (negb (Z.land (st_flags s2) _ =? 0)) eqn:Ef; [done|].
  pose proof (continuation_app (drop (Z.to_nat k) a) b h s2 ltac:(lia) Hp) as H.
  destruct (ngx_http_v2_handle_continuation (drop (Z.to_nat k) a) h s2) as [| |h' p s'|]; try (by rewrite H).
  destruct H as (-> & (v & Hv & ->) & Hlen & _ & ->). split; [lia|]. split; [done|].
  assert (rc = NGX_OK) as -> by lia. change (0 =? NGX_OK) with true in *.
  rewrite (field_frame_end w fin h (p ++ b) (set_padding v s2) W); [| done | cbn; lia |].
  - unfold field_goes_on. cbn [set_padding st_length st_flags]. rewrite Hl2. cbn [negb Z.eqb]. by rewrite Ef.
  - apply (writer_nil (take (Z.to_nat k) a) (st_field_state s) (st_field s)). exact Ew.
Qed.

(** The first piece is a part of the field. *)
Lemma body_resumes_inside w fin h a b s :
  Writer w -> nonneg s -> b <> [] ->
  field_size a s = Z.of_nat (length a) -> Z.of_nat (length a) < st_field_rest s -> Z.of_nat (length a) < st_length s ->
  body_resumes w fin h a b s.
Proof.
  intros W (Hl & Hp & Hr) Hb Ea Ear Eal. unfold body_resumes.
  unfold field_body at 1. rewrite Ea, Nat2Z.id, firstn_all, drop_all, (proj2 (Z.eqb_neq _ 0)) by lia.
  destruct (w a false _ _ _) as [[[rc st1] f1]|] eqn:Ew; [|done]. cbn [mbind option_bind].
  destruct (field_size_rest a b s st1 f1 (st_alloc s) Ea Ear Eal) as (Es & Hk & Hk0). specialize (Hk0 Hb).
  set (s1 := set_field _ _ _ _ _) in *. set (k := field_size b s1) in *.
  assert (Htake : take (Z.to_nat (field_size (a ++ b) s)) (a ++ b) = a ++ take (Z.to_nat k) b).
  { rewrite Es, Z2Nat.inj_add, Nat2Z.id by lia. apply take_app_add. }
  assert (Hdrop : drop (Z.to_nat (field_size (a ++ b) s)) (a ++ b) = drop (Z.to_nat k) b).
  { rewrite Es, Z2Nat.inj_add, Nat2Z.id by lia. apply drop_app_add. }
  assert (Hne : take (Z.to_nat k) b <> []).
  { destruct b as [|y b]; [done|]. destruct (Z.to_nat k) eqn:Ek; [lia|done]. }
  destruct (negb (rc =? NGX_OK)) eqn:Erc.
  - unfold field_body. rewrite Htake.
    destruct (writer_error a (take (Z.to_nat k) b) (st_field_rest s - field_size (a ++ b) s =? 0)
      _ _ _ rc st1 f1 Ew ltac:(lia)) as (st2 & f2 & ->).
    cbn [mbind option_bind]. by rewrite Erc.
  - unfold field_goes_on. rewrite (proj2 (Z.eqb_neq (st_length s1) 0)) by (cbn; lia). cbn [negb].
    split; [cbn; lia|]. split; [done|]. cbn [app]. unfold field_body. fold k. rewrite Htake, Hdrop, Es.
    assert (rc = NGX_OK) as -> by lia. rewrite (writer_app _ _ _ _ _ _ _ _ Ew Hne).
    cbn [s1 set_field set_length st_field_rest st_field_state st_field st_alloc st_length].
    replace (st_field_rest s - (Z.of_nat (length a) + k)) with (st_field_rest s - Z.of_nat (length a) - k) by lia.
    replace (st_length s - (Z.of_nat (length a) + k)) with (st_length s - Z.of_nat (length a) - k) by lia.
    done.
Qed.

Lemma body_resumes_all w fin h a b s :
  Writer w -> nonneg s -> b <> [] -> body_resumes w fin h a b s.
Proof.
  intros W Hn Hb. destruct (field_size_cases a b s) as [(H1 & H2 & H3)|(H1 & H2 & H3)]; [apply Hn..| |].
  - destruct Hn as (Hl & Hp & Hr). apply body_resumes_end; try done; rewrite field_size_min in *; lia.
  - by apply body_resumes_inside.
Qed.

(** *** The other handlers *)

Lemma body_resumes_resumes w fin h a b s :
  Writer w -> (forall q t, handle max_field_size h q t = field_body w fin h q t) ->
  nonneg s -> b <> [] -> resumes h a b s.
Proof.
  intros W E Hn Hb. pose proof (body_resumes_all w fin h a b s W Hn Hb) as H.
  unfold resumes, body_resumes in *. rewrite !E.
  destruct (field_body w fin h a s) as [[| |h' p s'|]|]; try done. destruct H as (H1 & -> & H2). by rewrite E.
Qed.

Lemma at_frame_end_length (s : h2_state (R := R)) : at_frame_end s = true -> st_length s < 4.
Proof. unfold at_frame_end, NGX_HTTP_V2_INT_OCTETS. lia. Qed.

Lemma at_frame_end_padding v (s : h2_state (R := R)) : at_frame_end (set_padding v s) = at_frame_end s.
Proof. done. Qed.

(** Looking for the next frame, and nothing else, resumes. *)
Lemma resumes_continuation h a b s :
  nonneg s -> st_length s < 4 -> b <> [] ->
  handle max_field_size h a s = Some (ngx_http_v2_handle_continuation a h s) ->
  (forall q v, q <> [] ->
     handle max_field_size h q (set_padding v s) = Some (ngx_http_v2_handle_continuation q h (set_padding v s))) ->
  resumes h a b s.
Proof.
  intros (Hl & Hp & Hr) Hl4 Hb Ha Hq. assert (Happ : forall q : list Z, q ++ b <> []) by (intros q; by destruct q, b).
  assert (Hab : handle max_field_size h (a ++ b) s = Some (ngx_http_v2_handle_continuation (a ++ b) h s)).
  { rewrite <-(set_padding_same s). by apply Hq. }
  unfold resumes. rewrite Ha, Hab. pose proof (continuation_app a b h s Hl Hp) as H.
  destruct (ngx_http_v2_handle_continuation a h s) as [| |h' p s'|]; [by rewrite H..| |by rewrite H].
  destruct H as (-> & (v & Hv & ->) & Hlen & _ & ->). split; [lia|]. by rewrite Hq.
Qed.

Lemma resumes_field_len a b s : nonneg s -> b <> [] -> resumes FieldLen a b s.
Proof.
  intros Hn Hb. destruct (at_frame_end s) eqn:Ee.
  { apply resumes_continuation; [done | by apply at_frame_end_length | done | |]; cbn [handle]; intros;
      unfold ngx_http_v2_state_field_len; by rewrite ?at_frame_end_padding, Ee. }
  unfold resumes. cbn [handle]. unfold ngx_http_v2_state_field_len. rewrite Ee.
  destruct (st_length s <? 1) eqn:El; [done|]. destruct a as [|c a].
  { split; [cbn; lia|]. cbn [handle app]. unfold ngx_http_v2_state_field_len. by rewrite Ee, El. }
  change ((c :: a) ++ b) with (c :: (a ++ b)).
  destruct (ngx_http_v2_parse_int (st_length s) (c :: a) (ngx_http_v2_prefix 7)) as [[[v len] q]|] eqn:Ei; [|done].
  cbn [mbind option_bind]. destruct (decide (v = NGX_AGAIN)) as [-> | Hv].
  - apply parse_int_again in Ei as (-> & -> & Hlen); [|done]. change (NGX_AGAIN <? 0) with true.
    cbv iota. unfold int_error. change (NGX_AGAIN =? NGX_AGAIN) with true. cbv iota.
    split; [lia|]. rewrite set_length_same. cbn [handle app]. unfold ngx_http_v2_state_field_len. by rewrite Ee, El.
  - apply (parse_int_app _ _ b) in Ei; [|done]. change ((c :: a) ++ b) with (c :: (a ++ b)) in Ei. rewrite Ei.
    cbn [mbind option_bind]. unfold int_error. rewrite (proj2 (Z.eqb_neq _ _) Hv).
    destruct (v <? 0); [by destruct (v =? NGX_DECLINED)|].
    destruct (max_field_size <? v); [done|]. cbn [set_field set_length st_stream st_index].
    destruct (st_stream s), (st_index s); try done; by destruct (negb (Z.shiftr c 7 =? 0)).
Qed.

Lemma set_index_twice (s : h2_state (R := R)) : set_index true (set_index true s) = set_index true s.
Proof. by destruct s. Qed.

Lemma resumes_header_block a b s : nonneg s -> b <> [] -> resumes HeaderBlock a b s.
Proof.
  intros Hn Hb. destruct a as [|c a]; [split; [cbn; lia|done]|]. destruct (at_frame_end s) eqn:Ee.
  { apply resumes_continuation; [done | by apply at_frame_end_length | done | |]; cbn [handle].
    - unfold ngx_http_v2_state_header_block. by rewrite Ee.
    - intros [|y q] v Hq; [done|]. unfold ngx_http_v2_state_header_block.
      by rewrite at_frame_end_padding, Ee. }
  unfold resumes. cbn [handle]. change ((c :: a) ++ b) with (c :: (a ++ b)).
  unfold ngx_http_v2_state_header_block. rewrite Ee. cbv zeta.
  set (indexed := 128 <=? c). set (index := negb indexed && (64 <=? c)).
  set (size_update := negb indexed && negb index && (32 <=? c)). set (k := if indexed then 7 else _).
  set (s1 := if index then set_index true s else s).
  assert (Hs1 : st_length s1 = st_length s /\ at_frame_end s1 = false /\ (if index then set_index true s1 else s1) = s1).
  { unfold s1. destruct index; [rewrite set_index_twice|]; auto. }
  destruct Hs1 as (Hs1l & Hs1e & Hs1i). rewrite Hs1l.
  destruct (ngx_http_v2_parse_int (st_length s) (c :: a) (ngx_http_v2_prefix k)) as [[[v len] q]|] eqn:Ei; [|done].
  cbn [mbind option_bind]. destruct (decide (v = NGX_AGAIN)) as [-> | Hv].
  - apply parse_int_again in Ei as (-> & -> & Hlen); [|unfold ngx_http_v2_prefix, k; by destruct indexed, index, size_update].
    change (NGX_AGAIN <? 0) with true. cbv iota. unfold int_error. change (NGX_AGAIN =? NGX_AGAIN) with true. cbv iota.
    split; [lia|]. rewrite <-Hs1l, set_length_same. cbn [handle app]. unfold ngx_http_v2_state_header_block.
    rewrite Hs1e. cbv zeta. fold indexed index size_update. fold k. by rewrite Hs1i.
  - apply (parse_int_app _ _ b) in Ei; [|done]. change ((c :: a) ++ b) with (c :: (a ++ b)) in Ei. rewrite Ei.
    cbn [mbind option_bind]. unfold int_error. rewrite (proj2 (Z.eqb_neq _ _) Hv).
    destruct (v <? 0); [by destruct (v =? NGX_DECLINED)|]. destruct indexed.
    { destruct (ngx_http_v2_get_indexed_header _ _ _ _) as [[rc h]|]; [|done]. cbn [mbind option_bind].
      by destruct (negb (rc =? NGX_OK)). }
    destruct size_update.
    { destruct (ngx_http_v2_table_size _ _) as [[rc t]|]; [|done]. cbn [mbind option_bind].
      by destruct (negb (rc =? NGX_OK)). }
    destruct (v =? 0); [done|].
    destruct (ngx_http_v2_get_indexed_header _ _ _ _) as [[rc h]|]; [|done]. cbn [mbind option_bind].
    by destruct (negb (rc =? NGX_OK)).
Qed.

Lemma resumes_process_header a b s : resumes ProcessHeader a b s.
Proof.
  unfold resumes. cbn [handle]. unfold ngx_http_v2_state_process_header. destruct (st_parse_name s); [done|]. cbv zeta.
  set (s1 := if st_parse_value s then _ else s). destruct (st_header_limit s1 <? _); [done|].
  destruct (if st_index (set_limit _ s1) then _ else _) as [[s2|]|]; try done. cbn [mbind option_bind].
  destruct (st_stream s2); [|done]. by destruct (process_field _ _) as [[r' hd] []].
Qed.

Lemma resumes_header_complete a b s : nonneg s -> b <> [] -> resumes HeaderComplete a b s.
Proof.
  intros Hn Hb. destruct ((st_length s =? 0) && (Z.land (st_flags s) NGX_HTTP_V2_END_HEADERS_FLAG =? 0)) eqn:Ee.
  { apply andb_prop in Ee as [E1 E2].
    apply resumes_continuation; [done | lia | done | |]; cbn [handle]; intros;
      unfold ngx_http_v2_state_header_complete; cbn [set_padding st_flags st_length]; by rewrite E1, E2. }
  unfold resumes. cbn [handle]. unfold ngx_http_v2_state_header_complete.
  destruct (st_length s =? 0); [|done]. cbn [andb negb] in *. rewrite Ee.
  by destruct (negb (st_padding _ =? 0)).
Qed.

Lemma handle_resumes h a b s : h <> Skip -> nonneg s -> b <> [] -> resumes h a b s.
Proof.
  intros Hs Hn Hb. destruct h; [..|done].
  - by apply resumes_header_block.
  - by apply resumes_field_len.
  - apply (body_resumes_resumes write_huff fits); [apply writer_huff | apply field_huff_body | done | done].
  - apply (body_resumes_resumes write_raw fits); [apply writer_raw | apply field_raw_body | done | done].
  - apply (body_resumes_resumes write_none (fun _ _ => true)); [apply writer_none | apply field_skip_body | done | done].
  - apply resumes_process_header.
  - by apply resumes_header_complete.
  - done.
  - done.
Qed.

(** ** What a handler keeps, and what it uses up *)

Definition weight (h : handler) (pos : list Z) : nat := 8 * length pos + rank h.

Definition moves (h : handler) (pos : list Z) (r : result (R := R)) : Prop :=
  match r with
  | Call h' p s' | Return h' p s' =>
      nonneg s' /\ Forall is_byte p /\ (h' = Head \/ (weight h' p < weight h pos)%nat)
  | Save h' p s' => nonneg s' /\ Forall is_byte p /\ (length p <= length pos)%nat
  | Error _ => True
  end.

Lemma parse_uint32_range p : Forall is_byte p -> (4 <= length p)%nat -> 0 <= parse_uint32 p.
Proof.
  intros Hp Hlen. unfold parse_uint32.
  assert (Hb : forall i, 0 <= byte_at p i) by (intros i; apply (byte_at_range p i Hp)).
  rewrite !Z.lor_nonneg, !Z.shiftl_nonneg. auto.
Qed.

Lemma continuation_moves h h0 pos pos0 s :
  nonneg s -> Forall is_byte pos -> (length pos <= length pos0)%nat -> (rank h <= rank h0)%nat ->
  moves h0 pos0 (ngx_http_v2_handle_continuation pos h s).
Proof.
  intros (Hl & Hp & Hr) Hb Hlen Hrank. rewrite continuation_eq by done.
  destruct (skippable_range pos s Hl Hp) as (Hk & Hk1 & Hk2).
  assert (Hsk : Forall is_byte (skipped pos s)) by (unfold skipped; auto using Forall_take, Forall_drop, Forall_app_2).
  assert (Hskl : (length (skipped pos s) <= length pos)%nat).
  { unfold skipped. rewrite length_app, length_take, length_drop. lia. }
  assert (Hn1 : nonneg (after_skip pos s)) by (unfold nonneg; cbn; lia).
  revert Hsk Hskl Hn1. generalize (skipped pos s) as q, (after_skip pos s) as s1. clear -Hlen Hrank.
  intros q s1 Hq Hql (H1 & H2 & H3). unfold continue_frame, NGX_HTTP_V2_FRAME_HEADER_SIZE. cbv zeta.
  destruct (Z.of_nat (length q) <? st_length s1 + 9) eqn:E.
  { cbn [moves]. split; [done|]. split; [done|lia]. }
  destruct (negb (Z.land _ 255 =? _)); [done|]. destruct (negb (st_sid _ =? _)); [done|].
  cbn [moves]. set (len := Z.to_nat (st_length s1)).
  assert (Hu : 0 <= parse_uint32 (drop len q)) by (apply parse_uint32_range; [by apply Forall_drop|rewrite length_drop; lia]).
  split; [|split].
  - unfold nonneg. cbn. pose proof (proj2 (Z.shiftr_nonneg (parse_uint32 (drop len q)) 8) Hu). lia.
  - auto using Forall_take, Forall_drop, Forall_app_2.
  - right. unfold weight. rewrite length_app, length_take, length_drop. change (Z.to_nat 9) with 9%nat. lia.
Qed.

Lemma parse_int_moves len pos prefix v len' q :
  ngx_http_v2_parse_int len pos prefix = Some (v, len', q) -> 0 <= len -> 0 <= prefix -> Forall is_byte pos ->
  Forall is_byte q /\ (length q <= length pos)%nat /\ 0 <= len' /\ (0 <= v -> (length q < length pos)%nat).
Proof.
  unfold ngx_http_v2_parse_int, NGX_ERROR, NGX_DECLINED, NGX_AGAIN. intros H Hl Hp Hb.
  destruct pos as [|c pos]; [done|]. assert (Hb1 := Hb).
  apply Forall_cons_1 in Hb1 as [Hc Hb']. destruct (negb (Z.land c prefix =? prefix)).
  { destruct (len =? 0) eqn:E; injection H as <- <- <-; cbn [length]; (split; [done|lia]). }
  change (take (Z.to_nat NGX_HTTP_V2_INT_OCTETS) (c :: ?l)) with (c :: take 3 l) in *. cbn [tail length] in *.
  destruct (int_loop (take 3 pos) 1 0 (Z.land c prefix)) as [[v0 n]|] eqn:E.
  - apply int_loop_count in E. rewrite length_take in E.
    destruct (len <? n) eqn:E1; injection H as <- <- <-; [split; [done|]; cbn; lia|].
    split; [by apply Forall_drop|]. rewrite length_drop. cbn [length]. lia.
  - assert (q = c :: pos /\ len' = len /\ v < 0) as (-> & -> & Hv).
    { destruct (len <=? _); [by injection H as <- <- <-|]. destruct (_ =? NGX_HTTP_V2_INT_OCTETS); by injection H as <- <- <-. }
    split; [done|]. cbn [length]. lia.
Qed.

Lemma int_error_moves v h h0 pos pos0 s :
  nonneg s -> Forall is_byte pos -> (length pos <= length pos0)%nat -> moves h0 pos0 (int_error v h pos s).
Proof. intros. unfold int_error. case_ifs; [|done|done]. by cbn [moves]. Qed.

Lemma field_body_moves w fin h pos s r :
  rank h = 5%nat -> nonneg s -> Forall is_byte pos -> field_body w fin h pos s = Some r -> moves h pos r.
Proof.
  intros Hh (Hl & Hp & Hr) Hb H. unfold field_body in H.
  pose proof (field_size_min pos s) as Hk. set (k := field_size pos s) in *.
  destruct (w _ _ _ _ _) as [[[rc st1] f1]|]; [|done]. cbn [mbind option_bind] in H.
  destruct (negb (rc =? NGX_OK)); [by injection H as <-|].
  set (s2 := set_field _ _ _ _ _) in *. assert (Hn2 : nonneg s2) by (unfold nonneg; cbn; lia).
  assert (Hq : Forall is_byte (drop (Z.to_nat k) pos)) by by apply Forall_drop.
  assert (Hql : (length (drop (Z.to_nat k) pos) <= length pos)%nat) by (rewrite length_drop; lia).
  destruct (_ =? 0).
  { destruct (fin _ _); [|done]. injection H as <-. cbn [moves]. split; [done|]. split; [done|]. right. unfold weight.
    rewrite Hh. cbn [rank]. lia. }
  injection H as <-. unfold field_goes_on. destruct (negb (st_length s2 =? 0)); [by cbn [moves]|].
  destruct (negb _); [done|]. by apply continuation_moves.
Qed.

Lemma header_block_moves pos s r :
  nonneg s -> Forall is_byte pos -> ngx_http_v2_state_header_block pos s = Some r -> moves HeaderBlock pos r.
Proof.
  intros Hn Hb H.
  unfold ngx_http_v2_state_header_block in H. destruct pos as [|c pos]; [by injection H as <-|].
  destruct (at_frame_end s); [injection H as <-; by apply continuation_moves|]. cbv zeta in H.
  set (indexed := 128 <=? c) in *. set (index := negb indexed && (64 <=? c)) in *.
  set (size_update := negb indexed && negb index && (32 <=? c)) in *. set (k := if indexed then 7 else _) in *.
  set (s1 := if index then set_index true s else s) in *. assert (Hn1 : nonneg s1) by (unfold s1; by destruct index).
  destruct (ngx_http_v2_parse_int (st_length s1) (c :: pos) (ngx_http_v2_prefix k)) as [[[v len] q]|] eqn:Ei; [|done].
  apply parse_int_moves in Ei as (Hq & Hql & Hlen & Hlt);
    [|apply Hn1|unfold ngx_http_v2_prefix, k; by destruct indexed, index, size_update|done].
  cbn [mbind option_bind] in H. assert (Hn2 : nonneg (set_length len s1)) by (split; [done|apply Hn1]).
  destruct (v <? 0) eqn:Ev; [injection H as <-; by apply int_error_moves|]. specialize (Hlt ltac:(lia)).
  assert (Hm : forall s', nonneg s' -> forall h', (rank h' <= 5)%nat -> moves HeaderBlock (c :: pos) (Call h' q s')).
  { intros s' Hs' h' Hh'. cbn [moves]. split; [done|]. split; [done|]. right. unfold weight. cbn [rank]. lia. }
  destruct indexed; [|destruct size_update; [|destruct (v =? 0)]].
  - destruct (ngx_http_v2_get_indexed_header _ _ _ _) as [[rc hd]|]; [|done]. cbn [mbind option_bind] in H.
    destruct (negb (rc =? NGX_OK)); injection H as <-; [done|]. by apply Hm; [|cbn; lia].
  - destruct (ngx_http_v2_table_size _ _) as [[rc t]|]; [|done]. cbn [mbind option_bind] in H.
    destruct (negb (rc =? NGX_OK)); injection H as <-; [done|]. by apply Hm; [|cbn; lia].
  - injection H as <-. by apply Hm; [|cbn; lia].
  - destruct (ngx_http_v2_get_indexed_header _ _ _ _) as [[rc hd]|]; [|done]. cbn [mbind option_bind] in H.
    destruct (negb (rc =? NGX_OK)); injection H as <-; [done|]. by apply Hm; [|cbn; lia].
Qed.

Lemma field_len_moves pos s r :
  nonneg s -> Forall is_byte pos -> ngx_http_v2_state_field_len max_field_size pos s = Some r -> moves FieldLen pos r.
Proof.
  intros Hn Hb H.
  unfold ngx_http_v2_state_field_len in H.
  destruct (at_frame_end s); [injection H as <-; by apply continuation_moves|].
  destruct (st_length s <? 1); [by injection H as <-|]. destruct pos as [|c pos]; [by injection H as <-|].
  destruct (ngx_http_v2_parse_int (st_length s) (c :: pos) (ngx_http_v2_prefix 7)) as [[[v len] q]|] eqn:Ei; [|done].
  apply parse_int_moves in Ei as (Hq & Hql & Hlen & Hlt); [|apply Hn|done|done].
  cbn [mbind option_bind] in H. assert (Hn2 : nonneg (set_length len s)) by (split; [done|apply Hn]).
  destruct (v <? 0) eqn:Ev; [injection H as <-; by apply int_error_moves|]. specialize (Hlt ltac:(lia)).
  destruct (max_field_size <? v); [by injection H as <-|].
  assert (Hm : forall al f, nonneg (set_field (st_field_state s) f al v (set_length len s)))
    by (intros; destruct Hn2 as (? & ? & ?); unfold nonneg; cbn in *; lia).
  assert (Hw : forall h', rank h' = 5%nat -> (weight h' q < weight FieldLen (c :: pos))%nat)
    by (intros h' Hh'; unfold weight; rewrite Hh'; cbn [rank]; lia).
  cbv zeta in H. cbn [set_field set_length st_stream st_index] in H.
  destruct (st_stream s), (st_index s); injection H as <-; destruct (negb (Z.shiftr c 7 =? 0));
    (split; [apply Hm | split; [done | right; by apply Hw]]).
Qed.

Lemma process_header_moves pos s r :
  nonneg s -> Forall is_byte pos -> ngx_http_v2_state_process_header pos s = Some r -> moves ProcessHeader pos r.
Proof.
  intros Hn Hb H.
  unfold ngx_http_v2_state_process_header in H. destruct (st_parse_name s).
  { injection H as <-. split; [done|]. split; [done|]. right. unfold weight. cbn [rank]. lia. }
  cbv zeta in H. set (s1 := if st_parse_value s then _ else s) in *.
  assert (Hn1 : nonneg s1) by (unfold s1; by destruct (st_parse_value s)).
  destruct (st_header_limit s1 <? _); [by injection H as <-|].
  assert (Hm : forall s' h', nonneg s' -> rank h' = 3%nat -> moves ProcessHeader pos (Call h' pos s')).
  { intros s' h' Hs' Hh'. split; [done|]. split; [done|]. right. unfold weight. rewrite Hh'. cbn [rank]. lia. }
  set (s2 := set_limit _ s1) in *. assert (Hn2 : nonneg s2) by done.
  destruct (if st_index s2 then _ else _) as [[s3|]|] eqn:E3; [|by injection H as <-|done].
  assert (Hn3 : nonneg s3).
  { destruct (st_index s2); [|by injection E3 as <-].
    destruct (ngx_http_v2_add_header _ _) as [[rc t]|]; [|done]. cbn [mbind option_bind] in E3.
    destruct (rc =? NGX_OK); [by injection E3 as <-|done]. }
  cbn [mbind option_bind] in H. destruct (st_stream s3); [|injection H as <-; by apply Hm].
  destruct (process_field _ _) as [[r' hd] []]; injection H as <-; [by apply Hm|by apply Hm|done].
Qed.

Lemma handle_moves h pos s r :
  nonneg s -> Forall is_byte pos -> handle max_field_size h pos s = Some r -> moves h pos r.
Proof.
  intros Hn Hb H. destruct h; cbn [handle] in H.
  - by apply header_block_moves in H.
  - by apply field_len_moves in H.
  - rewrite field_huff_body in H. by eapply field_body_moves.
  - rewrite field_raw_body in H. by eapply field_body_moves.
  - rewrite field_skip_body in H. by eapply field_body_moves.
  - by apply process_header_moves in H.
  - unfold ngx_http_v2_state_header_complete in H. destruct (negb (st_length s =? 0)).
    { injection H as <-. split; [done|]. split; [done|]. right. unfold weight. cbn [rank]. lia. }
    destruct (_ =? 0); [injection H as <-; by apply continuation_moves|].
    cbv zeta in H. destruct (negb _); injection H as <-; (split; [done|]; split; [done|]); [right; unfold weight; cbn [rank]; lia|by left].
  - injection H as <-. destruct Hn as (? & ? & ?). split; [unfold nonneg; cbn; lia|]. split; [done|]. right. unfold weight. cbn [rank]. lia.
  - injection H as <-. unfold ngx_http_v2_state_skip. destruct Hn as (? & ? & ?). destruct (_ <? st_length s) eqn:E.
    + split; [unfold nonneg; cbn; lia|]. split; [done|]. cbn. lia.
    + split; [done|]. split; [by apply Forall_drop|]. by left.
  - done.
Qed.

(** ** The loop *)

Lemma loop_more fuel h pos s :
  nonneg s -> Forall is_byte pos -> (weight h pos < fuel)%nat ->
  read_loop fuel max_field_size h pos s = ngx_http_v2_read max_field_size h pos s.
Proof.
  unfold ngx_http_v2_read, read_fuel. revert h pos s.
  enough (H : forall f1 f2 h pos s, nonneg s -> Forall is_byte pos -> (weight h pos < f1)%nat -> (weight h pos < f2)%nat ->
    read_loop f1 max_field_size h pos s = read_loop f2 max_field_size h pos s).
  { intros h pos s Hn Hb Hw. apply H; [done|done|done|]. unfold weight. lia. }
  clear fuel. induction f1 as [|f1 IH]; intros f2 h pos s Hn Hb H1 H2; [lia|]. destruct f2 as [|f2]; [lia|].
  cbn [read_loop]. destruct (handle max_field_size h pos s) as [r|] eqn:E; [|done]. cbn [mbind option_bind].
  apply handle_moves in E; [|done|done]. destruct r as [h' p s'|h' p s'| |]; [..|done|done].
  - destruct E as (Hn' & Hb' & [-> | Hw]); [|by apply IH; try done; lia].
    destruct f1, f2; done.
  - destruct E as (Hn' & Hb' & [-> | Hw]); [done|]. destruct h', p; try done; apply IH; try done; lia.
Qed.

Lemma read_step h pos s r :
  nonneg s -> Forall is_byte pos -> handle max_field_size h pos s = Some r ->
  ngx_http_v2_read max_field_size h pos s =
  match r with
  | Call h pos s => ngx_http_v2_read max_field_size h pos s
  | Return Head pos s => Some (Finished pos s)
  | Return h [] s => Some (Waiting h [] s)
  | Return h pos s => ngx_http_v2_read max_field_size h pos s
  | Save h pos s =>
      if NGX_HTTP_V2_STATE_BUFFER_SIZE <? Z.of_nat (length pos) then Some (Broken NGX_HTTP_V2_INTERNAL_ERROR)
      else Some (Waiting h pos s)
  | Error code => Some (Broken code)
  end.
Proof.
  intros Hn Hb E. unfold ngx_http_v2_read at 1, read_fuel. rewrite Nat.add_comm. cbn [Nat.add read_loop]. rewrite E.
  cbn [mbind option_bind]. apply handle_moves in E; [|done|done].
  destruct r as [h' p s'|h' p s'| |]; [..|done|done].
  - destruct E as (Hn' & Hb' & [-> | Hw]); [|by apply loop_more].
    by destruct (8 * length pos + rank h)%nat, (read_fuel Head p) eqn:Ef; unfold ngx_http_v2_read; rewrite ?Ef.
  - destruct E as (Hn' & Hb' & [-> | Hw]); [done|]. destruct h', p; try done; by apply loop_more.
Qed.

End Pieces.
