(* ===== verification/HpackRead.v ===== *)
(** * Reading header blocks

    No header block, however it is cut in pieces, makes the reader of [Hpack]
    fault: neither past its input nor past the memory it allocated for a string,
    nor in the table; and what it has saved always fits in its buffer.  The pieces
    are read as the whole. *)

From S2P Require Import Prelude Bits HuffmanSpec Huffman HpackTable HpackSpec Hpack HpackBlock.

(** ** The table never faults *)

Definition hpack_good (t : hpack) : Prop := untouched t \/ exists l, table_is t l.

Lemma good_related t old : hpack_good t -> exists m, related (t, old) m.
Proof.
  intros [H|[l H]].
  - exists (mk_machine None [] old). split; [done|]. by left.
  - exists (mk_machine (Some (hp_size t)) l old). split; [done|]. by right.
Qed.

Lemma related_good s m : related s m -> hpack_good (fst s).
Proof. intros [_ [[H _]|[H _]]]; [by left|right; eauto]. Qed.

Lemma get_header_good t index name_only old :
  hpack_good t -> 0 <= index -> exists rc h, ngx_http_v2_get_indexed_header t index name_only old = Some (rc, h).
Proof.
  intros H Hi. destruct (good_related t old H) as (m & Hm).
  destruct (step_related _ _ (GetHeader index name_only) Hm Hi) as (rc & s' & m' & E & _).
  cbn [hpack_step] in E. destruct (ngx_http_v2_get_indexed_header t index name_only old) as [[rc' h]|]; [eauto|done].
Qed.

Lemma add_header_good t h :
  hpack_good t -> exists rc t', ngx_http_v2_add_header t h = Some (rc, t') /\ hpack_good t'.
Proof.
  intros H. destruct (good_related t h H) as (m & Hm).
  destruct (step_related _ _ (AddHeader h) Hm I) as (rc & s' & m' & E & _ & Hr).
  cbn [hpack_step] in E. destruct (ngx_http_v2_add_header t h) as [[rc' t']|]; [|done]. injection E as -> <-.
  exists rc, t'. split; [done|]. by apply related_good in Hr.
Qed.

Lemma table_size_good t size :
  hpack_good t -> 0 <= size -> exists rc t', ngx_http_v2_table_size t size = Some (rc, t') /\ hpack_good t'.
Proof.
  intros H Hs. destruct (good_related t ([], []) H) as (m & Hm).
  destruct (step_related _ _ (TableSize size) Hm Hs) as (rc & s' & m' & E & _ & Hr).
  cbn [hpack_step] in E. destruct (ngx_http_v2_table_size t size) as [[rc' t']|]; [|done]. injection E as -> <-.
  exists rc, t'. split; [done|]. by apply related_good in Hr.
Qed.

(** ** A part of a string: every five bits make a byte at most *)

Lemma huff_decode_bound st src last :
  Forall is_byte src -> 0 <= st < 256 ->
  exists rc st' out, ngx_http_v2_huff_decode st src last = Some (rc, st', out) /\ 0 <= st' < 256 /\
    (5 * length out <= length (state_bits st) + 8 * length src)%nat /\
    (rc = NGX_OK -> if last then st' = 0 else
       (5 * length out + length (state_bits st') <= length (state_bits st) + 8 * length src)%nat).
Proof.
  intros Hsrc Hst. destruct (nibbles_ok src Hsrc) as [Hn Hb]. unfold ngx_http_v2_huff_decode.
  rewrite decode_loop_run. destruct (run_spec (nibbles src) (mk_huff st 1 []) Hn Hst) as
    (rc & s & out & -> & Hout & Hd & Hs & H). cbn [mbind option_bind].
  cbn [hd_state hd_dst app] in *. rewrite Hb in H. rewrite Hd.
  pose proof (length_codes out Hout) as Hc.
  assert (Hlen : forall x, state_bits st ++ bytes_bits src = codes out ++ x ->
    (5 * length out + length x <= length (state_bits st) + 8 * length src)%nat).
  { intros x E. apply (f_equal length) in E. rewrite !length_app, length_bytes_bits in E. lia. }
  destruct H as [(-> & Heq & _)|(-> & X & Heq & _)]; apply Hlen in Heq; cbn [Z.eqb NGX_OK NGX_ERROR negb].
  - destruct last; [destruct (hd_ending s =? 0)|]; eexists _, _, _; (split; [done|]); (split; [done|]); (split; [lia|done]).
  - eexists _, _, _. split; [done|]. split; [done|]. split; [lia|done].
Qed.

(** ** The handlers never fault *)

Lemma parse_int_some len c pos prefix : ngx_http_v2_parse_int len (c :: pos) prefix <> None.
Proof.
  unfold ngx_http_v2_parse_int. destruct (negb _); [by destruct (len =? 0)|].
  destruct (int_loop _ _ _ _) as [[v n]|]; [by destruct (len <? n)|].
  destruct (len <=? _); [done|]. by destruct (_ =? NGX_HTTP_V2_INT_OCTETS).
Qed.

Section Safe.
Context {R : Type} `{!Request R} (max_field_size : Z).

(** A Huffman string has 8/5 bytes allocated for each of its bytes, and one more;
    the decoder's state is not 0 only while it reads one. *)
Definition fit (h : handler) (s : h2_state (R := R)) : Prop :=
  hpack_good (st_hpack s) /\
  match h with
  | FieldHuff => 0 <= st_field_state s < 256 /\
      5 * Z.of_nat (length (st_field s)) + Z.of_nat (length (state_bits (st_field_state s))) + 8 * st_field_rest s <=
      5 * (st_alloc s - 1) + 4
  | FieldRaw => st_field_state s = 0 /\ Z.of_nat (length (st_field s)) + st_field_rest s + 1 <= st_alloc s
  | _ => st_field_state s = 0
  end.

Definition safe_result (r : result (R := R)) : Prop :=
  match r with
  | Call h _ s | Save h _ s => h <> Head /\ fit h s
  | Return h _ s => fit h s
  | Error _ => True
  end.

Lemma continuation_fit h pos s :
  h <> Head -> 0 <= st_length s -> 0 <= st_padding s -> fit h s ->
  safe_result (ngx_http_v2_handle_continuation pos h s).
Proof.
  intros Hh Hl Hp Hf. rewrite continuation_eq by done. unfold continue_frame. cbv zeta.
  assert (Hf1 : fit h (after_skip pos s)) by (by destruct h). destruct (_ <? _); [done|].
  destruct (negb (Z.land _ 255 =? _)); [done|]. destruct (negb (st_sid _ =? _)); [done|].
  by destruct h.
Qed.

Lemma int_error_fit v h pos s : h <> Head -> fit h s -> safe_result (int_error v h pos s).
Proof. intros. unfold int_error. by destruct (v =? NGX_AGAIN), (v =? NGX_DECLINED). Qed.

(** What a writer of bytes must keep. *)
Definition write_ok w (fin : list Z -> Z -> bool) h : Prop :=
  forall src pos s k, k = field_size pos s -> src = take (Z.to_nat k) pos ->
  nonneg s -> Forall is_byte pos -> fit h s ->
  exists rc st f, w src (st_field_rest s - k =? 0) (st_field_state s) (st_field s) (st_alloc s) = Some (rc, st, f) /\
    (rc = NGX_OK ->
     let s2 := set_field st f (st_alloc s) (st_field_rest s - k) (set_length (st_length s - k) s) in
     if st_field_rest s - k =? 0 then fin f (st_alloc s) = true /\ fit ProcessHeader s2 else fit h s2).

Lemma taken_length pos (s : h2_state (R := R)) :
  nonneg s -> Z.of_nat (length (take (Z.to_nat (field_size pos s)) pos)) = field_size pos s.
Proof. intros (? & ? & ?). rewrite length_take. pose proof (field_size_min pos s). lia. Qed.

Lemma write_huff_ok : write_ok write_huff fits FieldHuff.
Proof.
  intros src pos s k Hk Hsrc Hn Hb (Hg & Hst & Hf). assert (Hsl : Z.of_nat (length src) = k) by (subst; by apply taken_length).
  assert (Hb' : Forall is_byte src) by (subst src; by apply Forall_take).
  unfold write_huff. destruct (huff_decode_bound (st_field_state s) src (st_field_rest s - k =? 0) Hb' Hst)
    as (rc & st & out & -> & Hst' & Hlen & Hok). cbn [mbind option_bind].
  assert (Hrest : k <= st_field_rest s) by (destruct Hn as (? & ? & ?); pose proof (field_size_min pos s); lia).
  rewrite length_app, (proj2 (Z.leb_le _ _)) by lia. exists rc, st, (st_field s ++ out). split; [done|].
  intros Hrc. specialize (Hok Hrc). destruct (st_field_rest s - k =? 0) eqn:E.
  - split; [|by split]. unfold fits. rewrite length_app. lia.
  - split; [done|]. split; [done|]. cbn [set_field set_length st_field st_field_state st_field_rest st_alloc].
    rewrite length_app. lia.
Qed.

Lemma write_raw_ok : write_ok write_raw fits FieldRaw.
Proof.
  intros src pos s k Hk Hsrc Hn Hb (Hg & Hst & Hf). assert (Hsl : Z.of_nat (length src) = k) by (subst; by apply taken_length).
  assert (Hrest : k <= st_field_rest s) by (destruct Hn as (? & ? & ?); pose proof (field_size_min pos s); lia).
  unfold write_raw. rewrite length_app, (proj2 (Z.leb_le _ _)) by lia. eexists _, _, _. split; [done|].
  intros _. destruct (st_field_rest s - k =? 0) eqn:E.
  - split; [|by split]. unfold fits. rewrite length_app. lia.
  - split; [done|]. split; [done|]. cbn [set_field set_length st_field st_field_state st_field_rest st_alloc].
    rewrite length_app. lia.
Qed.

Lemma write_none_ok : write_ok write_none (fun _ _ => true) FieldSkip.
Proof.
  intros src pos s k _ _ _ _ (Hg & Hst). eexists _, _, _. split; [done|]. intros _.
  destruct (st_field_rest s - k =? 0); [split; [done|]|]; by split.
Qed.

Lemma field_body_safe w fin h pos s :
  write_ok w fin h -> h <> Head -> nonneg s -> Forall is_byte pos -> fit h s ->
  exists r, field_body w fin h pos s = Some r /\ safe_result r.
Proof.
  intros W Hh Hn Hb Hf. unfold field_body. set (k := field_size pos s).
  destruct (W _ pos s k eq_refl eq_refl Hn Hb Hf) as (rc & st & f & -> & H). cbn [mbind option_bind].
  destruct (negb (rc =? NGX_OK)) eqn:Erc; [by eexists|]. specialize (H ltac:(lia)). cbv zeta in H.
  destruct (st_field_rest s - k =? 0) eqn:E; [destruct H as [-> H]; by eexists|].
  eexists. split; [done|]. unfold field_goes_on. set (s2 := set_field _ _ _ _ _) in *.
  clear Erc. destruct (negb (st_length s2 =? 0)); [done|]. destruct (Z.land _ _ =? 0); [|done]. cbn [negb].
  destruct Hn as (Hl & Hp & Hr). apply continuation_fit; [done| |done|done].
  pose proof (field_size_min pos s). cbn. lia.
Qed.

Lemma header_block_safe pos s :
  nonneg s -> Forall is_byte pos -> fit HeaderBlock s ->
  exists r, ngx_http_v2_state_header_block pos s = Some r /\ safe_result r.
Proof.
  intros (Hl & Hp & Hr) Hb [Hg Hst]. unfold ngx_http_v2_state_header_block. destruct pos as [|c pos]; [by eexists|].
  destruct (at_frame_end s); [eexists; split; [done|]; by apply continuation_fit|]. cbv zeta.
  set (index := negb (128 <=? c) && (64 <=? c)). set (s1 := if index then set_index true s else s).
  assert (Hf1 : st_hpack s1 = st_hpack s /\ st_field_state s1 = 0) by (unfold s1; by destruct index).
  destruct Hf1 as [Hh1 Hst1].
  destruct (ngx_http_v2_parse_int _ _ _) as [[[v len] q]|] eqn:E.
  2: by apply parse_int_some in E.
  cbn [mbind option_bind]. assert (Hf2 : fit HeaderBlock (set_length len s1)) by (split; cbn; by rewrite ?Hh1).
  destruct (v <? 0) eqn:Ev; [eexists; split; [done|]; by apply int_error_fit|].
  cbn [set_length st_hpack st_header]. rewrite Hh1.
  destruct (128 <=? c).
  { destruct (get_header_good (st_hpack s) v false (st_header s1) Hg) as (rc & hd & ->); [lia|]. cbn [mbind option_bind].
    destruct (negb (rc =? NGX_OK)); by eexists. }
  destruct (_ && (32 <=? c)).
  { destruct (table_size_good (st_hpack s) v Hg) as (rc & t & -> & Ht); [lia|]. cbn [mbind option_bind].
    destruct (negb (rc =? NGX_OK)); by eexists. }
  destruct (v =? 0); [by eexists|].
  destruct (get_header_good (st_hpack s) v true (st_header s1) Hg) as (rc & hd & ->); [lia|]. cbn [mbind option_bind].
  destruct (negb (rc =? NGX_OK)); by eexists.
Qed.

Lemma field_len_safe pos s :
  nonneg s -> Forall is_byte pos -> fit FieldLen s ->
  exists r, ngx_http_v2_state_field_len max_field_size pos s = Some r /\ safe_result r.
Proof.
  intros (Hl & Hp & Hr) Hb [Hg Hst]. unfold ngx_http_v2_state_field_len.
  destruct (at_frame_end s); [eexists; split; [done|]; by apply continuation_fit|].
  destruct (st_length s <? 1); [by eexists|]. destruct pos as [|c pos]; [by eexists|].
  destruct (ngx_http_v2_parse_int _ _ _) as [[[v len] q]|] eqn:E.
  2: by apply parse_int_some in E.
  cbn [mbind option_bind]. destruct (v <? 0) eqn:Ev; [eexists; split; [done|]; by apply int_error_fit|].
  destruct (max_field_size <? v); [by eexists|]. cbv zeta. cbn [set_field set_length st_stream st_index st_field_state].
  assert (Hfield : forall huff : bool, safe_result (Call (if huff then FieldHuff else FieldRaw) q
    (set_field (st_field_state s) [] ((if huff then v * 8 / 5 else v) + 1) v
      (set_field (st_field_state s) (st_field s) (st_alloc s) v (set_length len s))))).
  { intros huff. split; [by destruct huff|]. split; [done|].
    cbn [set_field set_length st_field st_field_state st_field_rest st_alloc length]. rewrite Hst.
    change (length (state_bits 0)) with 0%nat. pose proof (Z.mul_div_le (v * 8) 5 ltac:(lia)).
    pose proof (Z.mul_succ_div_gt (v * 8) 5 ltac:(lia)). destruct huff; lia. }
  destruct (st_stream s), (st_index s); eexists; (split; [done|]); apply Hfield || by split.
Qed.

Lemma process_header_safe pos s :
  fit ProcessHeader s -> exists r, ngx_http_v2_state_process_header pos s = Some r /\ safe_result r.
Proof.
  intros [Hg Hst]. unfold ngx_http_v2_state_process_header. destruct (st_parse_name s); [by eexists|]. cbv zeta.
  set (s1 := if st_parse_value s then _ else s). destruct (st_header_limit s1 <? _); [by eexists|].
  set (s2 := set_limit _ s1).
  assert (Hf2 : hpack_good (st_hpack s2) /\ st_field_state s2 = 0) by (unfold s2, s1; by destruct (st_parse_value s)).
  destruct Hf2 as [Hg2 Hst2]. clearbody s2. clear s1 Hg Hst.
  assert (H3 : exists o, (if st_index s2 then
      '(rc, t) ← ngx_http_v2_add_header (st_hpack s2) (st_header s2);
      Some (if rc =? NGX_OK then Some (set_index false (set_hpack t s2)) else None)
    else Some (Some s2)) = Some o /\ match o with Some s3 => fit ProcessHeader s3 | None => True end).
  { destruct (st_index s2); [|by eexists].
    destruct (add_header_good (st_hpack s2) (st_header s2) Hg2) as (rc & t & -> & Ht). cbn [mbind option_bind].
    eexists. split; [done|]. by destruct (rc =? NGX_OK). }
  destruct H3 as (o & -> & Ho). cbn [mbind option_bind]. destruct o as [s3|]; [|by eexists].
  destruct (st_stream s3); [|by eexists]. destruct (process_field _ _) as [[r' hd] []]; by eexists.
Qed.

Lemma handle_safe h pos s :
  h <> Head -> nonneg s -> Forall is_byte pos -> fit h s ->
  exists r, handle max_field_size h pos s = Some r /\ safe_result r.
Proof.
  intros Hh Hn Hb Hf. destruct h; cbn [handle]; [..|done].
  - by apply header_block_safe.
  - by apply field_len_safe.
  - rewrite field_huff_body. by apply field_body_safe; [apply write_huff_ok|..].
  - rewrite field_raw_body. by apply field_body_safe; [apply write_raw_ok|..].
  - rewrite field_skip_body. by apply field_body_safe; [apply write_none_ok|..].
  - by apply process_header_safe.
  - eexists. split; [done|]. unfold ngx_http_v2_state_header_complete. destruct (negb (st_length s =? 0)); [done|].
    destruct (_ =? 0); [apply continuation_fit; [done|apply Hn|apply Hn|done]|]. cbv zeta.
    by destruct (negb _).
  - eexists. by split.
  - eexists. split; [done|]. unfold ngx_http_v2_state_skip. by destruct (_ <? st_length s).
Qed.

Lemma handle_saves h pos s h' p s' :
  nonneg s -> handle max_field_size h pos s = Some (Save h' p s') -> Z.of_nat (length p) <= 12.
Proof.
  intros Hn E. destruct (decide (h = Skip)) as [-> | Hh].
  - cbn [handle] in E. unfold ngx_http_v2_state_skip in E. destruct (_ <? st_length s); [|done].
    injection E as _ <- _. cbn. lia.
  - pose proof (handle_resumes max_field_size h pos [0] s Hh Hn ltac:(done)) as H. unfold resumes in H.
    rewrite E in H. apply H.
Qed.

(** ** One read *)

(** What a handler may start from, and be left to go on from. *)
Definition ready (h : handler) (pos : list Z) (s : h2_state (R := R)) : Prop :=
  h <> Head /\ nonneg s /\ Forall is_byte pos /\ fit h s.

Definition safe_outcome (o : outcome (R := R)) : Prop :=
  match o with
  | Waiting h saved s => ready h saved s /\ Z.of_nat (length saved) <= 12
  | Broken _ => True
  | Finished pos s => fit Head s
  end.

(** Induction along the calls of the handlers. *)
Lemma read_ind (P : handler -> list Z -> h2_state (R := R) -> Prop) :
  (forall h pos s r, ready h pos s -> handle max_field_size h pos s = Some r -> safe_result r -> moves h pos r ->
     match r with
     | Call h' p s' => P h' p s' -> P h pos s
     | Return h' p s' => (h' <> Head -> p <> [] -> P h' p s') -> P h pos s
     | _ => P h pos s
     end) ->
  forall h pos s, ready h pos s -> P h pos s.
Proof.
  intros Hstep. enough (H : forall n h pos s, (weight h pos < n)%nat -> ready h pos s -> P h pos s) by eauto.
  induction n as [|n IH]; intros h pos s Hw Hready; [lia|]. assert (Hr := Hready). destruct Hr as (Hh & Hn & Hb & Hf).
  destruct (handle_safe h pos s Hh Hn Hb Hf) as (r & E & Hs). pose proof (handle_moves max_field_size h pos s r Hn Hb E) as Hm.
  specialize (Hstep h pos s r Hready E Hs Hm).
  destruct r as [h' p s'|h' p s'| |]; [..|done|done]; destruct Hm as (Hn' & Hb' & Hw'); apply Hstep.
  - destruct Hs as [Hh' Hf']. apply IH; [|by split]. destruct Hw'; [done|lia].
  - intros Hh' Hp. apply IH; [|by split]. destruct Hw'; [done|lia].
Qed.

Lemma read_safe h pos s :
  ready h pos s -> exists o, ngx_http_v2_read max_field_size h pos s = Some o /\ safe_outcome o.
Proof.
  revert h pos s. apply read_ind. intros h pos s r (Hh & Hn & Hb & Hf) E Hs Hm.
  rewrite (read_step max_field_size h pos s r Hn Hb E). destruct r as [h' p s'|h' p s'|h' p s'|code]; [done|..].
  - destruct Hm as (Hn' & Hb' & _). destruct h', p as [|c p]; try (intros H; by apply H); intros _;
      eexists; (split; [done|]); done || by (split; [split; [|split]|cbn; lia]).
  - pose proof (handle_saves h pos s h' p s' Hn E) as Hlen. destruct Hm as (Hn' & Hb' & _), Hs as [Hh' Hf'].
    unfold NGX_HTTP_V2_STATE_BUFFER_SIZE. rewrite (proj2 (Z.ltb_ge _ _)) by lia. eexists. split; [done|].
    split; [|done]. by split.
  - eexists. by split.
Qed.

(** The length that is left when a block has ended is not read again. *)
#[export] Instance outcome_equiv : Equiv (outcome (R := R)) := fun o1 o2 =>
  match o1, o2 with
  | Finished p1 s1, Finished p2 s2 => p1 = p2 /\ set_length 0 s1 = set_length 0 s2
  | _, _ => o1 = o2
  end.

#[export] Instance outcome_equivalence : Equivalence (≡@{outcome (R := R)}).
Proof.
  split.
  - by intros [].
  - intros [] [] H; cbv [equiv outcome_equiv] in *; try done. by destruct H.
  - intros [] [] [] H1 H2; cbv [equiv outcome_equiv] in *; try congruence. destruct H1, H2. split; congruence.
Qed.

(** With more bytes: what is saved goes on, what is decided stays. *)
Definition goes_on (b : list Z) (o : outcome (R := R)) : option outcome :=
  match o with
  | Waiting h saved s => ngx_http_v2_read max_field_size h (saved ++ b) s
  | Broken code => Some (Broken code)
  | Finished pos s => Some (Finished (pos ++ b) s)
  end.

Lemma skip_split a b s :
  nonneg s -> Forall is_byte a -> Forall is_byte b ->
  ngx_http_v2_read max_field_size Skip (a ++ b) s ≡
    (ngx_http_v2_read max_field_size Skip a s ≫= goes_on b).
Proof.
  intros Hn Ha Hb.
  rewrite (read_step max_field_size Skip a s (ngx_http_v2_state_skip a s) Hn Ha eq_refl).
  rewrite (read_step max_field_size Skip (a ++ b) s (ngx_http_v2_state_skip (a ++ b) s) Hn ltac:(by apply Forall_app) eq_refl).
  destruct Hn as (Hl & Hp & Hr). unfold ngx_http_v2_state_skip. rewrite length_app.
  destruct (Z.of_nat (length a) <? st_length s) eqn:E.
  - change (NGX_HTTP_V2_STATE_BUFFER_SIZE <? Z.of_nat (length [])) with false. cbn [mbind option_bind goes_on app].
    set (s1 := set_length (st_length s - Z.of_nat (length a)) s). assert (Hn1 : nonneg s1) by (unfold nonneg; cbn; lia).
    rewrite (read_step max_field_size Skip b s1 (ngx_http_v2_state_skip b s1) Hn1 Hb eq_refl).
    unfold ngx_http_v2_state_skip. cbn [s1 set_length st_length].
    destruct (Z.of_nat (length b) <? st_length s - Z.of_nat (length a)) eqn:E2.
    + rewrite (proj2 (Z.ltb_lt _ _)) by lia. apply reflexive_eq. do 2 f_equal. unfold set_length. cbn. f_equal. lia.
    + rewrite (proj2 (Z.ltb_ge _ _)) by lia. constructor. rewrite drop_app_ge by lia. split; [f_equal; lia|done].
  - rewrite (proj2 (Z.ltb_ge _ _)) by lia. cbn [mbind option_bind goes_on]. by rewrite drop_app_le by lia.
Qed.

Lemma read_split b h a s :
  Forall is_byte b -> b <> [] -> ready h a s ->
  ngx_http_v2_read max_field_size h (a ++ b) s ≡ (ngx_http_v2_read max_field_size h a s ≫= goes_on b).
Proof.
  intros Hb Hb0. revert h a s. apply read_ind. intros h a s r (Hh & Hn & Ha & Hf) E Hs Hm.
  destruct (decide (h = Skip)) as [-> | Hskip].
  { destruct r; intros; by apply skip_split. }
  assert (Hab : Forall is_byte (a ++ b)) by by apply Forall_app.
  pose proof (handle_resumes max_field_size h a b s Hskip Hn Hb0) as Hres. unfold resumes in Hres. rewrite E in Hres.
  rewrite (read_step max_field_size h a s r Hn Ha E).
  destruct r as [h' p s'|h' p s'|h' p s'|code]; cbn [extend] in Hres.
  - intros IH. by rewrite (read_step max_field_size h (a ++ b) s _ Hn Hab Hres).
  - intros IH. rewrite (read_step max_field_size h (a ++ b) s _ Hn Hab Hres).
    destruct h', p as [|c p]; try (by apply IH); try done; cbn [app]; destruct b; done.
  - destruct Hres as [Hlen Hres]. destruct Hm as (Hn' & Hb' & _).
    unfold NGX_HTTP_V2_STATE_BUFFER_SIZE. rewrite (proj2 (Z.ltb_ge _ _)) by lia. cbn [mbind option_bind goes_on].
    assert (Hpb : Forall is_byte (p ++ b)) by by apply Forall_app.
    destruct (handle max_field_size h (a ++ b) s) as [r|] eqn:E2.
    + rewrite (read_step max_field_size h (a ++ b) s r Hn Hab E2).
      by rewrite (read_step max_field_size h' (p ++ b) s' r Hn' Hpb (eq_sym Hres)).
    + exfalso. destruct (handle_safe h (a ++ b) s Hh Hn Hab Hf) as (r & E3 & _). congruence.
  - by rewrite (read_step max_field_size h (a ++ b) s _ Hn Hab Hres).
Qed.

(** ** Many reads

    [ngx_http_v2_read_handler] puts what was saved before what it receives. *)

Fixpoint read_pieces (h : handler) (saved : list Z) (s : h2_state (R := R)) (pieces : list (list Z)) : option outcome :=
  match pieces with
  | [] => Some (Waiting h saved s)
  | piece :: pieces' =>
      o ← ngx_http_v2_read max_field_size h (saved ++ piece) s;
      match o with
      | Waiting h saved s => read_pieces h saved s pieces'
      | Broken code => Some (Broken code)
      | Finished pos s => Some (Finished (pos ++ concat pieces') s)
      end
  end.

Lemma read_pieces_whole pieces : forall h saved s piece,
  Forall (fun p => p <> [] /\ Forall is_byte p) (piece :: pieces) -> ready h saved s ->
  read_pieces h saved s (piece :: pieces) ≡ ngx_http_v2_read max_field_size h (saved ++ concat (piece :: pieces)) s.
Proof.
  induction pieces as [|p2 pieces IH]; intros h saved s piece Hp (Hh & Hn & Hb & Hf);
    apply Forall_cons in Hp as [[Hp1 Hp2] Hps]; cbn [concat].
  - rewrite app_nil_r. cbn [read_pieces].
    destruct (ngx_http_v2_read max_field_size h (saved ++ piece) s) as [[]|]; cbn [mbind option_bind concat];
      by rewrite ?app_nil_r.
  - assert (Hr1 : ready h (saved ++ piece) s) by (split; [done|]; split; [done|]; split; [by apply Forall_app|done]).
    assert (Hcat : Forall is_byte (concat (p2 :: pieces))).
    { apply Forall_concat. eapply Forall_impl; [exact Hps|]. by intros ? []. }
    assert (Hne : concat (p2 :: pieces) <> []).
    { apply Forall_cons_1 in Hps as [[? _] _]. by destruct p2. }
    rewrite app_assoc, (read_split _ h (saved ++ piece) s Hcat Hne Hr1).
    destruct (read_safe _ _ _ Hr1) as (o & Eo & Ho). unfold read_pieces; fold read_pieces. rewrite Eo. cbn [mbind option_bind].
    destruct o as [h' p s'|code|p s']; [|done|done]. cbn [goes_on]. apply IH; [done|]. apply Ho.
Qed.

Lemma safe_outcome_equiv o1 o2 : o1 ≡ o2 -> safe_outcome o2 -> safe_outcome o1.
Proof.
  destruct o1 as [h1 p1 s1|c1|p1 s1], o2 as [h2 p2 s2|c2|p2 s2]; cbv [equiv outcome_equiv]; try (intros [=]; by subst).
  intros [-> H]. assert (Hs : st_hpack s1 = st_hpack s2 /\ st_field_state s1 = st_field_state s2).
  { split; [apply (f_equal st_hpack) in H|apply (f_equal st_field_state) in H]; exact H. }
  destruct Hs as [E1 E2]. unfold safe_outcome, fit. by rewrite E1, E2.
Qed.

(** C7: whatever bytes arrive, in whatever pieces, the handlers of a header block
    neither fault nor fail to end; they give what they would give for all the
    bytes at once; and what they save is at most 12 of the 16 bytes of the
    connection's buffer. *)
Theorem h2_read_pieces h saved s pieces :
  pieces <> [] -> Forall (fun p => p <> [] /\ Forall is_byte p) pieces -> ready h saved s ->
  exists o whole,
    read_pieces h saved s pieces = Some o /\
    ngx_http_v2_read max_field_size h (saved ++ concat pieces) s = Some whole /\
    o ≡ whole /\ safe_outcome o.
Proof.
  intros Hne Hp Hready. destruct pieces as [|piece pieces]; [done|].
  pose proof (read_pieces_whole pieces h saved s piece Hp Hready) as H.
  destruct Hready as (Hh & Hn & Hb & Hf).
  assert (Hr : ready h (saved ++ concat (piece :: pieces)) s).
  { split; [done|]. split; [done|]. split; [|done]. apply Forall_app. split; [done|]. apply Forall_concat.
    eapply Forall_impl; [exact Hp|]. by intros ? []. }
  destruct (read_safe _ _ _ Hr) as (whole & E & Hs). rewrite E in H |- *.
  destruct (read_pieces h saved s (piece :: pieces)) as [o|]; [|by inversion H].
  apply Some_equiv_inj in H. exists o, whole. split; [done|]. split; [done|]. split; [done|].
  by eapply safe_outcome_equiv.
Qed.

End Safe.

(** A request that collects its headers. *)
Definition collect : Request (list header) := {|
  process_field r h := (r ++ [h], h, Keep);
  add_length r _ := r;
  run_request r := r
|}.

(** One HEADERS frame of [len] bytes, with END_HEADERS. *)
Definition frame_state {R : Type} (len limit : Z) (r : R) : h2_state (R := R) :=
  mk_h2 1 len 0 NGX_HTTP_V2_END_HEADERS_FLAG false false false ([], []) limit 0 [] 0 0 true r hpack_zero.

(** The first request of RFC 7541, C.4. *)
Definition rfc_block : list Z :=
  [0x82; 0x86; 0x84; 0x41; 0x8c; 0xf1; 0xe3; 0xc2; 0xe5; 0xf2; 0x3a; 0x6b; 0xa0; 0xab; 0x90; 0xf4; 0xff].

Definition rfc_headers : list header :=
  [(bytes ":method", bytes "GET"); (bytes ":scheme", bytes "http"); (bytes ":path", bytes "/");
   (bytes ":authority", bytes "www.example.com")].

Example rfc_sample :
  match ngx_http_v2_read (Request0 := collect) 4096 HeaderBlock rfc_block (frame_state 17 4096 []) with
  | Some (Finished [] s) => st_request s = rfc_headers
  | _ => False
  end.
Proof. by vm_compute. Qed.

Lemma frame_ready {R} `{!Request R} len limit (r : R) saved :
  0 <= len -> Forall is_byte saved -> ready HeaderBlock saved (frame_state len limit r).
Proof.
  intros Hl Hs. split; [done|]. split; [split; [done|by split]|]. split; [done|]. split; [|done]. left.
  constructor; cbn; [done|done|unfold NGX_HTTP_V2_TABLE_SIZE; lia|done].
Qed.

Lemma h2_read_pieces_witness :
  exists o whole,
    read_pieces (Request0 := collect) 4096 HeaderBlock [] (frame_state 17 4096 [])
      [take 5 rfc_block; take 7 (drop 5 rfc_block); drop 12 rfc_block] = Some o /\
    ngx_http_v2_read (Request0 := collect) 4096 HeaderBlock rfc_block (frame_state 17 4096 []) = Some whole /\
    o ≡ whole /\ safe_outcome o.
Proof.
  apply (h2_read_pieces (Request0 := collect) 4096 HeaderBlock [] (frame_state 17 4096 [])
      [take 5 rfc_block; take 7 (drop 5 rfc_block); drop 12 rfc_block]).
  - discriminate.
  - repeat (apply Forall_cons; split; [split; [discriminate|by apply bytes_ok_spec]|]). apply Forall_nil. exact I.
  - apply (@frame_ready (list header) collect 17 4096 [] []); [lia|apply Forall_nil; exact I].
Defined.

(** A request that refuses its first header. *)
Definition refuse : Request (list header) := {|
  process_field r h := (r ++ [h], h, if r is [] then Drop else Keep);
  add_length r _ := r;
  run_request r := r
|}.

(** After a stream is dropped a skipped header costs what the last header that was
    not skipped had: three headers of 12, 2 and 2 bytes do not pass a limit of 20. *)
Theorem skipped_header_costs_stale_length :
  ngx_http_v2_read (Request0 := refuse) 4096 HeaderBlock
    ([0; 8] ++ bytes "x-header" ++ [4] ++ bytes "abcd" ++ [0; 1] ++ bytes "a" ++ [1] ++ bytes "b" ++
     [0; 1] ++ bytes "c" ++ [1] ++ bytes "d") (frame_state 25 20 []) = Some (Broken NGX_HTTP_V2_ENHANCE_YOUR_CALM).
Proof. by vm_compute. Qed.
