(* ===== verification/HpackWrite.v ===== *)
(** * Header blocks: what is written is read

    The integers and strings that [ngx_http_v2_filter_module.c] writes are read
    back by the handlers of [Hpack], and so is a whole header block: the request
    gets its headers, one by one, as the list of the standard says, in whatever
    pieces the block arrives. *)

From S2P Require Import Prelude Bits HuffmanSpec Huffman HeaderLine HpackTable HpackSpec Hpack HpackBlock HpackRead.

(** ** Integers *)

(** The bits of a first octet: [flags] and [k] bits of an integer. *)
Definition first_octet (flags k : Z) : Prop := (flags, k) ∈ [(0x80, 7); (0x40, 6); (0x20, 5); (0, 4); (0, 7)].

Lemma first_octet_range flags k :
  first_octet flags k -> 0 <= flags /\ 0 < ngx_http_v2_prefix k /\ flags + ngx_http_v2_prefix k < 256.
Proof. unfold first_octet. set_unfold. naive_solver lia. Qed.

Lemma first_octet_or flags k v :
  first_octet flags k -> 0 <= v <= ngx_http_v2_prefix k ->
  Z.lor flags v = flags + v /\ Z.land (Z.lor flags v) (ngx_http_v2_prefix k) = v.
Proof.
  intros H Hv. assert (Hk : 0 <= k) by (unfold first_octet in H; set_unfold; naive_solver lia).
  assert (Hp : ngx_http_v2_prefix k = Z.ones k).
  { unfold ngx_http_v2_prefix. rewrite Z.shiftl_1_l, Z.ones_equiv. lia. }
  assert (Hlow : Z.land v (Z.ones k) = v).
  { rewrite Z.land_ones by done. apply Z.mod_small. rewrite Hp, Z.ones_equiv in Hv. lia. }
  assert (Hf : Z.land flags (Z.ones k) = 0) by (unfold first_octet in H; set_unfold; naive_solver).
  assert (H0 : Z.land flags v = 0) by (by rewrite <-Hlow, (Z.land_comm v), Z.land_assoc, Hf).
  split.
  - pose proof (Z.add_lor_land flags v). lia.
  - by rewrite Hp, Z.land_lor_distr_l, Hf, Hlow.
Qed.

Lemma write_loop_read fuel v : forall n shift acc rest,
  (0 < fuel)%nat -> 0 <= v < 128 ^ Z.of_nat fuel -> 0 <= shift -> 0 <= acc -> acc + v * 2 ^ shift < 2 ^ 64 ->
  int_loop (write_loop fuel v ++ rest) n shift acc =
    Some (acc + v * 2 ^ shift, n + Z.of_nat (length (write_loop fuel v))).
Proof.
  revert v. induction fuel as [|fuel IH]; intros v n shift acc rest Hf Hv Hs Ha Hb; [lia|].
  cbn [write_loop]. assert (H2 : 0 < 2 ^ shift) by (by apply Z.pow_pos_nonneg).
  assert (Hsh : forall x, Z.shiftl x shift = x * 2 ^ shift) by (intros; by apply Z.shiftl_mul_pow2).
  assert (Hland : forall x, Z.land x 127 = x mod 128) by (intros; by apply (Z.land_ones x 7)).
  destruct (128 <=? v) eqn:E; cbn [app int_loop length].
  - pose proof (Z.mod_pos_bound v 128 ltac:(lia)) as Hm. pose proof (Z.div_mod v 128 ltac:(lia)) as Hd.
    rewrite (proj2 (Z.ltb_ge _ _)) by lia. rewrite Hland, Hsh.
    replace ((v mod 128 + 128) mod 128) with (v mod 128) by (rewrite Z.add_mod, Z.mod_same, Z.add_0_r, !Z.mod_mod; lia).
    assert (Hmul : v * 2 ^ shift = v mod 128 * 2 ^ shift + v / 128 * 2 ^ (shift + 7)).
    { rewrite Z.pow_add_r by lia. change (2 ^ 7) with 128. nia. }
    assert (Hq : 0 <= v / 128) by (apply Z.div_pos; lia).
    assert (H3 : 0 <= v / 128 * 2 ^ (shift + 7)) by (apply Z.mul_nonneg_nonneg; [done|apply Z.pow_nonneg; lia]).
    assert (H4 : 0 <= v mod 128 * 2 ^ shift) by nia.
    rewrite !word_small by (rewrite ?word_small; lia). rewrite Hmul in Hb.
    assert (Hfuel : 0 <= v / 128 < 128 ^ Z.of_nat fuel).
    { split; [done|]. apply Z.div_lt_upper_bound; [lia|]. rewrite Nat2Z.inj_succ, Z.pow_succ_r in Hv by lia. lia. }
    destruct fuel as [|fuel]; [cbn in Hfuel; lia|]. rewrite IH by lia. f_equal. f_equal; lia.
  - unfold u8. rewrite (Z.mod_small v (2 ^ 8)), Hland, Hsh, (Z.mod_small v 128) by lia. rewrite (proj2 (Z.ltb_lt _ _)) by lia.
    rewrite !word_small by (rewrite ?word_small; nia). done.
Qed.

(** As many octets as groups of seven bits. *)
Lemma write_loop_length n : forall fuel v,
  (0 < n <= fuel)%nat -> 0 <= v < 128 ^ Z.of_nat n -> (1 <= length (write_loop fuel v) <= n)%nat.
Proof.
  induction n as [|n IH]; intros fuel v Hn Hv; [lia|]. destruct fuel as [|fuel]; [lia|]. cbn [write_loop].
  destruct (128 <=? v) eqn:E; cbn [length]; [|lia].
  assert (Hq : 0 <= v / 128 < 128 ^ Z.of_nat n).
  { split; [apply Z.div_pos; lia|]. apply Z.div_lt_upper_bound; [lia|]. rewrite Nat2Z.inj_succ, Z.pow_succ_r in Hv by lia. lia. }
  destruct n as [|n]; [cbn in Hq; pose proof (Z.div_le_lower_bound v 128 1); lia|].
  specialize (IH fuel (v / 128) ltac:(lia) Hq). lia.
Qed.

Lemma write_loop_bytes fuel v : 0 <= v -> Forall is_byte (write_loop fuel v).
Proof.
  revert v. induction fuel as [|fuel IH]; intros v Hv; [constructor|]. cbn [write_loop]. unfold u8, is_byte in *.
  pose proof (Z.mod_pos_bound v 128 ltac:(lia)). pose proof (Z.mod_pos_bound v (2 ^ 8) ltac:(lia)).
  destruct (128 <=? v); constructor; try lia; [|constructor]. apply IH. apply Z.div_pos; lia.
Qed.

(** The reader takes integers of at most four octets. *)
Definition int_max (k : Z) : Z := ngx_http_v2_prefix k + 2 ^ 21 - 1.

Lemma write_int_read flags k v len rest :
  first_octet flags k -> 0 <= v <= int_max k ->
  let w := ngx_http_v2_write_int flags (ngx_http_v2_prefix k) v in
  Z.of_nat (length w) <= len ->
  ngx_http_v2_parse_int len (w ++ rest) (ngx_http_v2_prefix k) = Some (v, len - Z.of_nat (length w), rest).
Proof.
  intros Hf Hv w Hlen. destruct (first_octet_range flags k Hf) as (Hp0 & Hp & Hp2). unfold int_max in Hv. unfold w, ngx_http_v2_write_int in *. clear w.
  destruct (v <? ngx_http_v2_prefix k) eqn:E.
  - destruct (first_octet_or flags k v Hf ltac:(lia)) as [_ Hl]. cbn [app length ngx_http_v2_parse_int] in *.
    rewrite Hl, (proj2 (Z.eqb_neq v _)) by lia. cbn [negb]. by rewrite (proj2 (Z.eqb_neq len 0)) by lia.
  - destruct (first_octet_or flags k (ngx_http_v2_prefix k) Hf ltac:(lia)) as [_ Hl].
    set (p := ngx_http_v2_prefix k) in *. cbn [app length ngx_http_v2_parse_int] in *. rewrite Hl, Z.eqb_refl. cbn [negb].
    change (take (Z.to_nat NGX_HTTP_V2_INT_OCTETS) (?c :: ?l)) with (c :: take 3 l). cbn [tail].
    assert (Hvp : 0 <= v - p < 2 ^ 21) by lia.
    pose proof (write_loop_length 3 10 (v - p) ltac:(lia) Hvp) as Hw.
    set (l := write_loop 10 (v - p)) in *. rewrite take_app_ge by lia.
    unfold l. rewrite write_loop_read by (change (128 ^ Z.of_nat 10) with (2 ^ 70); lia). fold l. replace (p + (v - p) * 2 ^ 0) with v by lia.
    rewrite (proj2 (Z.ltb_ge len _)) by lia. do 2 f_equal; [f_equal; lia|].
    rewrite Z2Nat.inj_add, Nat2Z.id by lia. change (Z.to_nat 1 + length l)%nat with (S (length l)). cbn [drop].
    by rewrite drop_app_length.
Qed.

Lemma write_int_bytes flags k v :
  first_octet flags k -> 0 <= v -> Forall is_byte (ngx_http_v2_write_int flags (ngx_http_v2_prefix k) v).
Proof.
  intros Hf Hv. pose proof (first_octet_range flags k Hf) as Hr.
  unfold ngx_http_v2_write_int. destruct (v <? ngx_http_v2_prefix k) eqn:E.
  - rewrite (proj1 (first_octet_or flags k v Hf ltac:(lia))). apply Forall_singleton. unfold is_byte. lia.
  - rewrite (proj1 (first_octet_or flags k (ngx_http_v2_prefix k) Hf ltac:(lia))). constructor; [unfold is_byte; lia|]. apply write_loop_bytes. lia.
Qed.

Lemma write_int_first flags k v :
  first_octet flags k -> 0 <= v ->
  exists c n, ngx_http_v2_write_int flags (ngx_http_v2_prefix k) v = c :: n /\
    flags <= c <= flags + ngx_http_v2_prefix k.
Proof.
  intros Hf Hv. destruct (first_octet_range flags k Hf) as (H0 & H1 & H2). unfold ngx_http_v2_write_int.
  destruct (v <? ngx_http_v2_prefix k) eqn:E; eexists _, _; (split; [done|]).
  - rewrite (proj1 (first_octet_or flags k v Hf ltac:(lia))). lia.
  - rewrite (proj1 (first_octet_or flags k (ngx_http_v2_prefix k) Hf ltac:(lia))). lia.
Qed.

(** ** Strings *)

Definition lowered (lower : bool) (src : list Z) : list Z := if lower then map ngx_tolower src else src.

Lemma string_encode_forms src lower :
  Forall is_byte src ->
  exists (huff : bool) data,
    ngx_http_v2_string_encode src lower =
      Some (ngx_http_v2_write_int (if huff then 0x80 else 0) (ngx_http_v2_prefix 7) (Z.of_nat (length data)) ++ data) /\
    (length data <= length src)%nat /\ Forall is_byte data /\
    if huff then ngx_http_v2_huff_decode 0 data true = Some (NGX_OK, 0, lowered lower src) else data = lowered lower src.
Proof.
  intros Hsrc. unfold ngx_http_v2_string_encode. destruct (huff_encode_bits src lower Hsrc) as (n & dst & E & H).
  pose proof (huff_decodes_encoded src lower n dst Hsrc E) as Hd. rewrite E. cbn [mbind option_bind].
  destruct H as [[-> _]|(-> & Hlen & Hb & _)].
  - exists false, (lowered lower src). unfold lowered.
    replace (Z.of_nat (length (if lower then map ngx_tolower src else src))) with (Z.of_nat (length src))
      by (destruct lower; by rewrite ?length_map).
    split; [done|]. split; [destruct lower; by rewrite ?length_map|]. split; [|done].
    destruct lower; [|done]. apply Forall_map. eapply Forall_impl; [exact Hsrc|]. intros c Hc. by apply table_lc.
  - destruct (0 <? Z.of_nat (length dst)) eqn:E0.
    + exists true, dst. rewrite Nat2Z.id, firstn_all. split; [done|]. split; [lia|]. split; [done|]. apply Hd. lia.
    + exists false, (lowered lower src). unfold lowered.
      replace (Z.of_nat (length (if lower then map ngx_tolower src else src))) with (Z.of_nat (length src))
        by (destruct lower; by rewrite ?length_map).
      split; [done|]. split; [destruct lower; by rewrite ?length_map|]. split; [|done].
      destruct lower; [|done]. apply Forall_map. eapply Forall_impl; [exact Hsrc|]. intros c Hc. by apply table_lc.
Qed.

Section Reading.
Context {R : Type} `{!Request R} (max_field_size : Z).

(** The flag of a string is its first bit. *)
Lemma string_flag (huff : bool) len :
  0 <= len ->
  exists c n, ngx_http_v2_write_int (if huff then 0x80 else 0) (ngx_http_v2_prefix 7) len = c :: n /\
    negb (Z.shiftr c 7 =? 0) = huff.
Proof.
  intros Hl. set (f := if huff then 0x80 else 0).
  assert (Hf : first_octet f 7) by (unfold f, first_octet; destruct huff; set_solver).
  unfold ngx_http_v2_write_int. destruct (_ <? _) eqn:E; eexists _, _; (split; [done|]); unfold f.
  - change (ngx_http_v2_prefix 7) with 127 in E.
    fold f. rewrite (proj1 (first_octet_or f 7 len Hf ltac:(change (ngx_http_v2_prefix 7) with 127; lia))).
    rewrite Z.shiftr_div_pow2 by lia. unfold f. destruct huff; [|by rewrite Z.div_small by lia].
    pose proof (Z.div_str_pos (128 + len) (2 ^ 7) ltac:(lia)). lia.
  - by destruct huff.
Qed.

(** The whole block is in one frame. *)
Definition last_frame (s : h2_state (R := R)) : Prop :=
  Z.land (st_flags s) NGX_HTTP_V2_END_HEADERS_FLAG <> 0.

Lemma last_frame_end s : last_frame s -> at_frame_end s = false.
Proof. unfold last_frame, at_frame_end. intros H. by rewrite (proj2 (Z.eqb_neq _ _) H). Qed.

(** A field whose bytes are all there. *)
Lemma field_body_whole w fin h data rest s field :
  st_field_rest s = Z.of_nat (length data) -> Z.of_nat (length data) <= st_length s ->
  w data true (st_field_state s) (st_field s) (st_alloc s) = Some (NGX_OK, 0, field) -> fin field (st_alloc s) = true ->
  field_body w fin h (data ++ rest) s =
    Some (Call ProcessHeader rest (set_field 0 field (st_alloc s) 0 (set_length (st_length s - Z.of_nat (length data)) s))).
Proof.
  intros Hr Hl Hw Hf. unfold field_body.
  assert (Hk : field_size (data ++ rest) s = Z.of_nat (length data)) by (rewrite field_size_min, length_app; lia).
  rewrite Hk, Nat2Z.id, take_app_length, drop_app_length, Hr, Z.sub_diag, Z.eqb_refl, Hw.
  cbn [mbind option_bind]. change (negb (NGX_OK =? NGX_OK)) with false. cbv iota. by rewrite Hf.
Qed.

(** What is allocated for a string is enough. *)
Lemma string_body (huff : bool) data field rest s :
  Forall is_byte data ->
  (if huff then ngx_http_v2_huff_decode 0 data true = Some (NGX_OK, 0, field) else data = field) ->
  Z.of_nat (length data) <= st_length s -> st_field_state s = 0 ->
  let len := Z.of_nat (length data) in
  let alloc := (if huff then len * 8 / 5 else len) + 1 in
  handle max_field_size (if huff then FieldHuff else FieldRaw) (data ++ rest) (set_field 0 [] alloc len s) =
    Some (Call ProcessHeader rest (set_field 0 field alloc 0 (set_length (st_length s - len) s))).
Proof.
  intros Hdb Hdec Hl Hst len alloc. set (s2 := set_field 0 [] alloc len s).
  pose proof (Z.mul_succ_div_gt (len * 8) 5 ltac:(lia)) as Hdiv.
  assert (Hlen : Z.of_nat (length field) < alloc).
  { destruct huff; [|subst field; unfold alloc, len; lia].
    destruct (huff_decode_bound 0 data true Hdb ltac:(lia)) as (rc & st & out & E & _ & Hb & _). rewrite Hdec in E.
    injection E as <- <- <-. change (length (state_bits 0)) with 0%nat in Hb. unfold alloc, len in *. lia. }
  change (set_field 0 field alloc 0 _) with (set_field 0 field (st_alloc s2) 0 (set_length (st_length s2 - len) s2)).
  destruct huff; cbn [handle]; [rewrite field_huff_body|rewrite field_raw_body];
    (apply field_body_whole; [done|done| |]); cbn [s2 set_field st_alloc st_field_state st_field]; try (unfold fits; lia).
  - unfold write_huff. rewrite Hdec. cbn [mbind option_bind app]. by rewrite (proj2 (Z.leb_le _ _)) by lia.
  - subst field. unfold write_raw. cbn [app]. by rewrite (proj2 (Z.leb_le _ _)) by lia.
Qed.

Lemma read_string src lower w m rest s :
  ngx_http_v2_string_encode src lower = Some w -> Forall is_byte src -> Forall is_byte rest ->
  Z.of_nat (length src) <= max_field_size -> Z.of_nat (length src) <= 2 ^ 21 ->
  last_frame s -> st_length s = Z.of_nat (length w) + m -> 0 <= m -> nonneg s -> st_field_state s = 0 ->
  st_stream s = true ->
  exists alloc, ngx_http_v2_read max_field_size FieldLen (w ++ rest) s =
    ngx_http_v2_read max_field_size ProcessHeader rest (set_field 0 (lowered lower src) alloc 0 (set_length m s)).
Proof.
  intros Hw Hsrc Hrest Hmax H21 Hlast Hlen Hm Hn Hst Hstream.
  destruct (string_encode_forms src lower Hsrc) as (huff & data & Hw' & Hdl & Hdb & Hdec). rewrite Hw' in Hw.
  injection Hw as <-. set (f := if huff then 0x80 else 0) in *.
  assert (Hf : first_octet f 7) by (unfold f, first_octet; destruct huff; set_solver).
  set (n := ngx_http_v2_write_int f (ngx_http_v2_prefix 7) (Z.of_nat (length data))) in *.
  rewrite length_app, Nat2Z.inj_add in Hlen. rewrite <-app_assoc.
  assert (Hnb : Forall is_byte n) by (apply write_int_bytes; [done|lia]).
  destruct (string_flag huff (Z.of_nat (length data)) ltac:(lia)) as (c & n' & En & Hhuff). fold f n in En.
  assert (Hdr : Forall is_byte (data ++ rest)) by by apply Forall_app.
  set (s1 := set_length (Z.of_nat (length data) + m) s).
  set (alloc := (if huff then Z.of_nat (length data) * 8 / 5 else Z.of_nat (length data)) + 1).
  set (s2 := set_field 0 [] alloc (Z.of_nat (length data)) s1).
  assert (E1 : ngx_http_v2_state_field_len max_field_size (n ++ data ++ rest) s =
    Some (Call (if huff then FieldHuff else FieldRaw) (data ++ rest) s2)).
  { unfold ngx_http_v2_state_field_len. rewrite last_frame_end by done.
    rewrite (proj2 (Z.ltb_ge _ _)) by (rewrite En in Hlen; cbn [length] in Hlen; lia).
    rewrite En at 1. cbn [app]. unfold n.
    assert (Hi : 0 <= Z.of_nat (length data) <= int_max 7) by (change (int_max 7) with (127 + 2 ^ 21 - 1); lia).
    rewrite (write_int_read f 7) by (done || fold n; lia). fold n.
    cbn [mbind option_bind]. rewrite (proj2 (Z.ltb_ge _ 0)), (proj2 (Z.ltb_ge max_field_size _)) by lia. cbv zeta.
    rewrite Hhuff.
    cbn [set_field set_length st_stream st_index st_field_state]. rewrite Hstream, Hst.
    replace (st_length s - Z.of_nat (length n)) with (Z.of_nat (length data) + m) by lia. by destruct huff. }
  exists alloc. assert (Hall : Forall is_byte (n ++ data ++ rest)) by (apply Forall_app; done).
  rewrite (read_step max_field_size FieldLen _ _ _ Hn Hall E1).
  assert (Hn2 : nonneg s2) by (destruct Hn as (? & ? & ?); unfold nonneg; cbn; lia).
  assert (E2 : handle max_field_size (if huff then FieldHuff else FieldRaw) (data ++ rest) s2 =
    Some (Call ProcessHeader rest (set_field 0 (lowered lower src) alloc 0 (set_length m s)))).
  { unfold s2, alloc. rewrite (string_body huff data _ rest s1 Hdb Hdec) by (cbn; lia).
    unfold s1. cbn [set_length st_length].
    replace (Z.of_nat (length data) + m - Z.of_nat (length data)) with m by lia. done. }
  rewrite (read_step max_field_size _ _ _ _ Hn2 Hdr E2). by destruct huff.
Qed.

End Reading.

(** ** Representations

    What a header block is made of, and the octets for it. *)
Inductive rep : Type :=
  | Indexed (index : Z)
  | Literal (incremental : bool) (index : Z) (name value : list Z)
  | Resize (size : Z).

Definition encode_rep (r : rep) : option (list Z) :=
  match r with
  | Indexed index => Some (ngx_http_v2_write_int 0x80 (ngx_http_v2_prefix 7) index)
  | Literal inc index name value =>
      n ← (if index =? 0 then ngx_http_v2_string_encode name true else Some []);
      v ← ngx_http_v2_string_encode value false;
      Some (ngx_http_v2_write_int (if inc then 0x40 else 0) (ngx_http_v2_prefix (if inc then 6 else 4)) index ++ n ++ v)
  | Resize size => Some (ngx_http_v2_write_int 0x20 (ngx_http_v2_prefix 5) size)
  end.

Fixpoint encode_block (reps : list rep) : option (list Z) :=
  match reps with
  | [] => Some []
  | r :: reps' => a ← encode_rep r; b ← encode_block reps'; Some (a ++ b)
  end.

(** What they mean for the list of the standard, with its limit if there is one:
    a header or none, and the new list. *)
Definition rep_meaning (st : option Z * list header) (r : rep) : option (list header * (option Z * list header)) :=
  let '(limit, l) := st in
  match r with
  | Indexed index => h ← indexed l index; Some ([h], st)
  | Literal inc index name value =>
      n ← (if index =? 0 then Some (map ngx_tolower name) else fst <$> indexed l index);
      let size := default NGX_HTTP_V2_TABLE_SIZE limit in
      Some ([(n, value)], if inc then (Some size, add_entry size l (n, value)) else st)
  | Resize size =>
      if NGX_HTTP_V2_TABLE_SIZE <? size then None else Some ([], ((fun _ => size) <$> limit, keep size l))
  end.

Fixpoint block_meaning (st : option Z * list header) (reps : list rep) : option (list header * (option Z * list header)) :=
  match reps with
  | [] => Some ([], st)
  | r :: reps' =>
      '(h, st) ← rep_meaning st r;
      '(hs, st) ← block_meaning st reps';
      Some (h ++ hs, st)
  end.

Definition string_ok (max_field_size : Z) (x : list Z) : Prop :=
  Forall is_byte x /\ Z.of_nat (length x) <= max_field_size /\ Z.of_nat (length x) <= 2 ^ 21.

Definition rep_ok (max_field_size : Z) (r : rep) : Prop :=
  match r with
  | Indexed index => 0 <= index <= int_max 7
  | Literal inc index name value =>
      0 <= index <= int_max (if inc then 6 else 4) /\ string_ok max_field_size name /\ string_ok max_field_size value
  | Resize size => 0 <= size <= int_max 5
  end.

Definition lengths (hs : list header) : Z :=
  foldr (fun h n => Z.of_nat (length (fst h)) + Z.of_nat (length (snd h)) + n) 0 hs.

Lemma string_bytes src lower w :
  ngx_http_v2_string_encode src lower = Some w -> Forall is_byte src -> Forall is_byte w.
Proof.
  intros Ew Hsrc. destruct (string_encode_forms src lower Hsrc) as (huff & data & E & _ & Hd & _). rewrite Ew in E.
  injection E as ->. apply Forall_app; split; [|done]. apply write_int_bytes; [|lia].
  unfold first_octet. destruct huff; set_solver.
Qed.

Lemma encode_rep_bytes max_field_size r w : rep_ok max_field_size r -> encode_rep r = Some w -> Forall is_byte w /\ w <> [].
Proof.
  intros Hr Hw. assert (Hint : forall f k v rest, first_octet f k -> 0 <= v -> Forall is_byte rest ->
    Forall is_byte (ngx_http_v2_write_int f (ngx_http_v2_prefix k) v ++ rest) /\
    ngx_http_v2_write_int f (ngx_http_v2_prefix k) v ++ rest <> []).
  { intros f k v rest Hf Hv Hb. split; [by apply Forall_app; split; [apply write_int_bytes|]|].
    destruct (write_int_first f k v Hf Hv) as (c & n & -> & _). done. }
  destruct r as [index|inc index name value|size]; cbn [rep_ok encode_rep] in *.
  - injection Hw as <-. rewrite <-(app_nil_r (ngx_http_v2_write_int _ _ _)).
    apply Hint; [unfold first_octet; set_solver|lia|constructor].
  - destruct Hr as (Hi & Hname & Hvalue).
    destruct (if index =? 0 then ngx_http_v2_string_encode name true else Some []) as [n|] eqn:En; [|done].
    destruct (ngx_http_v2_string_encode value false) as [v|] eqn:Ev; [|done]. cbn [mbind option_bind] in Hw. injection Hw as <-.
    assert (Hnv : Forall is_byte (n ++ v)).
    { apply Forall_app; split; [|eapply string_bytes; [done|apply Hvalue]].
      destruct (index =? 0); [eapply string_bytes; [done|apply Hname]|injection En as <-; constructor]. }
    destruct inc; (apply Hint; [unfold first_octet; set_solver|lia|done]).
  - injection Hw as <-. rewrite <-(app_nil_r (ngx_http_v2_write_int _ _ _)).
    apply Hint; [unfold first_octet; set_solver|lia|constructor].
Qed.

Lemma encode_block_bytes max_field_size reps block :
  Forall (rep_ok max_field_size) reps -> encode_block reps = Some block ->
  Forall is_byte block /\ (reps <> [] -> block <> []).
Proof.
  revert block. induction reps as [|r reps IH]; intros block Hok Hb; cbn [encode_block] in Hb.
  { injection Hb as <-. by split. }
  apply Forall_cons in Hok as [Hr Hok]. destruct (encode_rep r) as [w|] eqn:Ew; [|done].
  destruct (encode_block reps) as [b|]; [|done]. cbn [mbind option_bind] in Hb. injection Hb as <-.
  destruct (encode_rep_bytes max_field_size r w Hr Ew) as [Hw Hne]. destruct (IH b Hok eq_refl) as [Hb _].
  split; [by apply Forall_app|]. intros _. by destruct w.
Qed.

Section Decoding.
Context {R : Type} `{!Request R} (max_field_size : Z).

(** The request takes every header. *)
Variable push : R -> header -> R.
Hypothesis process_push : forall r h, process_field r h = (push r h, h, Keep).

(** The table of [h2c] holds the list. *)
Definition holds (t : hpack) (st : option Z * list header) : Prop :=
  untouched t /\ st = (None, []) \/ table_is t (snd st) /\ fst st = Some (hp_size t).

Lemma holds_related t st old :
  holds t st <-> related (t, old) (mk_machine (fst st) (snd st) old).
Proof.
  unfold holds, related. cbn [fst snd mc_limit mc_list mc_header]. destruct st as [limit l]. cbn [fst snd]. split.
  - intros [[H [= -> ->]]|[H ->]]; (split; [done|]); [by left|by right].
  - intros [_ [(H & -> & ->)|[H ->]]]; [by left|by right].
Qed.

Lemma get_header_holds t st index name_only old :
  holds t st -> 0 <= index ->
  ngx_http_v2_get_indexed_header t index name_only old = Some (get_result (snd st) index name_only old).
Proof.
  intros H Hi. destruct H as [[H ->]|[H _]]; [by apply get_header_untouched|by apply get_header_table].
Qed.

Lemma add_header_holds t st h :
  holds t st ->
  let size := default NGX_HTTP_V2_TABLE_SIZE (fst st) in
  exists t', ngx_http_v2_add_header t h = Some (NGX_OK, t') /\ holds t' (Some size, add_entry size (snd st) h).
Proof.
  intros H%(holds_related t st h) size.
  destruct (step_related _ _ (AddHeader h) H I) as (rc & s' & m' & E & Em & Hr). cbn [hpack_step machine_step] in E, Em.
  destruct (ngx_http_v2_add_header t h) as [[rc' t']|]; [|done]. injection E as -> <-. injection Em as <- <-.
  exists t'. split; [done|]. by apply (holds_related t' (_, _) h) in Hr.
Qed.

Lemma table_size_holds t st size :
  holds t st -> 0 <= size <= NGX_HTTP_V2_TABLE_SIZE ->
  exists t', ngx_http_v2_table_size t size = Some (NGX_OK, t') /\ holds t' ((fun _ => size) <$> fst st, keep size (snd st)).
Proof.
  intros H%(holds_related t st ([], [])) Hs.
  destruct (step_related _ _ (TableSize size) H ltac:(cbn; lia)) as (rc & s' & m' & E & Em & Hr).
  cbn [hpack_step machine_step] in E, Em. rewrite (proj2 (Z.ltb_ge _ _)) in Em by lia.
  destruct (ngx_http_v2_table_size t size) as [[rc' t']|]; [|done]. injection E as -> <-. injection Em as <- <-.
  exists t'. split; [done|]. by apply (holds_related t' (_, _) ([], [])) in Hr.
Qed.

(** Between two headers. *)
Record idle (s : h2_state (R := R)) : Prop := mk_idle {
  idle_frame : last_frame s;
  idle_nonneg : nonneg s;
  idle_state : st_field_state s = 0;
  idle_name : st_parse_name s = false;
  idle_value : st_parse_value s = false;
  idle_index : st_index s = false;
  idle_stream : st_stream s = true
}.

(** From [s], with [m] bytes left, headers [hs] read and the list [st]. *)
Record reached (s s' : h2_state (R := R)) (m : Z) (hs : list header) (st : option Z * list header) : Prop := mk_reached {
  re_idle : idle s';
  re_length : st_length s' = m;
  re_padding : st_padding s' = st_padding s;
  re_limit : st_header_limit s' = st_header_limit s - lengths hs;
  re_request : st_request s' = fold_left push hs (st_request s);
  re_holds : holds (st_hpack s') st
}.

Lemma lengths_nonneg hs : 0 <= lengths hs.
Proof. induction hs as [|h hs IH]; [done|]. cbn [lengths foldr]. fold (lengths hs). lia. Qed.

Lemma lengths_app a b : lengths (a ++ b) = lengths a + lengths b.
Proof. induction a as [|h a IH]; [done|]. cbn [lengths foldr app]. fold (lengths a) (lengths (a ++ b)). lia. Qed.

Lemma reached_trans s1 s2 s3 m2 m3 h2 h3 st2 st3 :
  reached s1 s2 m2 h2 st2 -> reached s2 s3 m3 h3 st3 -> reached s1 s3 m3 (h2 ++ h3) st3.
Proof.
  intros [? ? Hp2 Hl2 Hr2 ?] [? ? Hp3 Hl3 Hr3 ?]. constructor; try done.
  - congruence.
  - rewrite lengths_app. lia.
  - by rewrite fold_left_app, Hr3, Hr2.
Qed.

(** A header that is complete. *)
Lemma read_header rest s st (index : bool) h :
  Forall is_byte rest -> last_frame s -> nonneg s -> st_field_state s = 0 -> st_stream s = true ->
  st_parse_name s = false -> st_index s = index -> holds (st_hpack s) st ->
  h = (if st_parse_value s then (fst (st_header s), st_field s) else st_header s) ->
  lengths [h] <= st_header_limit s ->
  exists s', ngx_http_v2_read max_field_size ProcessHeader rest s = ngx_http_v2_read max_field_size HeaderComplete rest s' /\
    reached s s' (st_length s) [h]
      (if index then let size := default NGX_HTTP_V2_TABLE_SIZE (fst st) in (Some size, add_entry size (snd st) h) else st).
Proof.
  intros Hb Hlast Hn Hst Hstream Hpn Hi Hh Heq Hlen. cbn [lengths foldr] in Hlen.
  set (s1 := if st_parse_value s then set_header (fst (st_header s), st_field s) (set_parse false false s) else s).
  assert (Hs1 : s1 = set_header h (set_parse false false s)).
  { unfold s1. rewrite Heq. destruct (st_parse_value s) eqn:E; [done|]. destruct s. cbn in *. by subst. }
  set (s2 := set_limit (st_header_limit s - (Z.of_nat (length (fst h)) + Z.of_nat (length (snd h)))) s1).
  destruct (add_header_holds (st_hpack s) st h Hh) as (t & Et & Ht).
  set (s3 := if index then set_index false (set_hpack t s2) else s2).
  set (s4 := set_request (push (st_request s) h) s3).
  assert (E : handle max_field_size ProcessHeader rest s = Some (Call HeaderComplete rest s4)).
  { cbn [handle]. unfold ngx_http_v2_state_process_header. rewrite Hpn. cbv zeta. fold s1.
    replace (st_header_limit s1) with (st_header_limit s) by (by rewrite Hs1).
    replace (st_header s1) with h by (by rewrite Hs1). rewrite (proj2 (Z.ltb_ge _ _)) by lia. fold s2.
    replace (st_index s2) with index by (unfold s2; by rewrite Hs1).
    assert (Hh2 : st_hpack s2 = st_hpack s /\ st_header s2 = h) by (unfold s2; by rewrite Hs1).
    destruct Hh2 as [-> ->]. assert (Hs3 : st_stream s3 = true /\ st_request s3 = st_request s /\ st_header s3 = h).
    { unfold s3, s2. rewrite Hs1. by destruct index. }
    destruct Hs3 as (Hs3 & Hr3 & Hh3). assert (Hset : set_header h s3 = s3).
    { rewrite <-Hh3 at 1. by destruct s3. }
    destruct index; [rewrite Et|]; cbn [mbind option_bind]; [change (NGX_OK =? NGX_OK) with true|];
      cbv iota; fold s3; rewrite Hs3, Hr3, Hh3, process_push, Hset; done. }
  exists s4. split; [by rewrite (read_step max_field_size _ _ _ _ Hn Hb E)|].
  unfold s4, s3, s2. rewrite Hs1. destruct index; (constructor; [by constructor|done|done|cbn; lia|done|done]).
Qed.

Lemma int_below k : (0 <= k)%Z -> ngx_http_v2_prefix k = 2 ^ k - 1.
Proof. intros H. unfold ngx_http_v2_prefix. by rewrite Z.shiftl_1_l. Qed.

(** The handler of a representation, once its integer is read. *)
Lemma read_indexed index m rest s st h :
  Forall is_byte rest -> idle s -> holds (st_hpack s) st -> 0 <= index <= int_max 7 -> indexed (snd st) index = Some h ->
  let w := ngx_http_v2_write_int 0x80 (ngx_http_v2_prefix 7) index in
  st_length s = Z.of_nat (length w) + m -> 0 <= m ->
  ngx_http_v2_read max_field_size HeaderBlock (w ++ rest) s =
    ngx_http_v2_read max_field_size ProcessHeader rest (set_header h (set_length m s)).
Proof.
  intros Hb [Hlast Hn Hst Hpn Hpv Hi Hstream] Hh Hint Hidx w Hlen Hm.
  assert (Hf : first_octet 0x80 7) by (unfold first_octet; set_solver).
  destruct (write_int_first 0x80 7 index Hf ltac:(lia)) as (c & n & Ec & Hc). fold w in Ec.
  assert (Hall : Forall is_byte (w ++ rest)) by (apply Forall_app; split; [apply write_int_bytes; [done|lia]|done]).
  apply (read_step max_field_size HeaderBlock (w ++ rest) s (Call ProcessHeader rest (set_header h (set_length m s))) Hn Hall).
  cbn [handle]. unfold ngx_http_v2_state_header_block. rewrite Ec at 1. cbn [app]. rewrite last_frame_end by done.
  change (ngx_http_v2_prefix 7) with 127 in Hc. rewrite (proj2 (Z.leb_le 128 c)) by lia. cbn [negb andb]. cbv zeta.
  unfold w. rewrite (write_int_read 0x80 7) by (done || fold w; lia). fold w. cbn [mbind option_bind].
  rewrite (proj2 (Z.ltb_ge index 0)) by lia. replace (st_length s - Z.of_nat (length w)) with m by lia.
  cbn [set_length st_hpack st_header]. rewrite (get_header_holds _ st) by (done || lia).
  unfold get_result. rewrite Hidx. cbn [mbind option_bind andb]. done.
Qed.

Lemma read_resize size m rest s st :
  Forall is_byte rest -> idle s -> holds (st_hpack s) st -> 0 <= size <= int_max 5 -> size <= NGX_HTTP_V2_TABLE_SIZE ->
  let w := ngx_http_v2_write_int 0x20 (ngx_http_v2_prefix 5) size in
  st_length s = Z.of_nat (length w) + m -> 0 <= m ->
  exists t, holds t ((fun _ => size) <$> fst st, keep size (snd st)) /\
    ngx_http_v2_read max_field_size HeaderBlock (w ++ rest) s =
    ngx_http_v2_read max_field_size HeaderComplete rest (set_hpack t (set_length m s)).
Proof.
  intros Hb [Hlast Hn Hst Hpn Hpv Hi Hstream] Hh Hint Hsz w Hlen Hm.
  assert (Hf : first_octet 0x20 5) by (unfold first_octet; set_solver).
  destruct (write_int_first 0x20 5 size Hf ltac:(lia)) as (c & n & Ec & Hc). fold w in Ec.
  assert (Hall : Forall is_byte (w ++ rest)) by (apply Forall_app; split; [apply write_int_bytes; [done|lia]|done]).
  destruct (table_size_holds (st_hpack s) st size Hh ltac:(lia)) as (t & Et & Ht). exists t. split; [done|].
  apply (read_step max_field_size HeaderBlock (w ++ rest) s (Call HeaderComplete rest (set_hpack t (set_length m s))) Hn Hall).
  cbn [handle]. unfold ngx_http_v2_state_header_block. rewrite Ec at 1. cbn [app]. rewrite last_frame_end by done.
  change (ngx_http_v2_prefix 5) with 31 in Hc. rewrite (proj2 (Z.leb_gt 128 c)), (proj2 (Z.leb_gt 64 c)), (proj2 (Z.leb_le 32 c)) by lia.
  cbn [negb andb]. cbv zeta.
  unfold w. rewrite (write_int_read 0x20 5) by (done || fold w; lia). fold w. cbn [mbind option_bind].
  rewrite (proj2 (Z.ltb_ge size 0)) by lia. replace (st_length s - Z.of_nat (length w)) with m by lia.
  cbn [set_length st_hpack st_header]. rewrite Et. cbn [mbind option_bind]. done.
Qed.

(** A literal, up to its first string. *)
Lemma read_literal (inc : bool) index m rest s st :
  Forall is_byte rest -> idle s -> holds (st_hpack s) st -> 0 <= index <= int_max (if inc then 6 else 4) ->
  (index = 0 \/ is_Some (indexed (snd st) index)) ->
  let w := ngx_http_v2_write_int (if inc then 0x40 else 0) (ngx_http_v2_prefix (if inc then 6 else 4)) index in
  st_length s = Z.of_nat (length w) + m -> 0 <= m ->
  exists hd, (index = 0 \/ fst <$> indexed (snd st) index = Some (fst hd)) /\
    ngx_http_v2_read max_field_size HeaderBlock (w ++ rest) s =
    ngx_http_v2_read max_field_size FieldLen rest
      (set_parse (index =? 0) true (set_header hd (set_length m (set_index inc s)))).
Proof.
  intros Hb [Hlast Hn Hst Hpn Hpv Hi Hstream] Hh Hint Hidx w Hlen Hm.
  set (k := if inc then 6 else 4) in *. set (f := if inc then 0x40 else 0) in *.
  assert (Hf : first_octet f k) by (unfold first_octet, f, k; destruct inc; set_solver).
  destruct (write_int_first f k index Hf ltac:(lia)) as (c & n & Ec & Hc). fold w in Ec.
  assert (Hall : Forall is_byte (w ++ rest)) by (apply Forall_app; split; [apply write_int_bytes; [done|lia]|done]).
  set (hd := if index =? 0 then st_header s else snd (get_result (snd st) index true (st_header s))).
  exists hd. split.
  { destruct Hidx as [|[h Hidx]]; [by left|]. right. unfold hd, get_result.
    destruct (index =? 0) eqn:E; [replace index with 0 in Hidx by lia; done|]. rewrite Hidx. by destruct (_ && _). }
  set (s' := set_parse _ _ _).
  apply (read_step max_field_size HeaderBlock (w ++ rest) s (Call FieldLen rest s') Hn Hall).
  cbn [handle]. unfold ngx_http_v2_state_header_block. rewrite Ec at 1. cbn [app]. rewrite last_frame_end by done.
  assert (Hc1 : (128 <=? c) = false /\ (64 <=? c) = inc /\ (negb inc && (32 <=? c)) = false).
  { unfold f, k in Hc. destruct inc; [change (ngx_http_v2_prefix 6) with 63 in Hc|change (ngx_http_v2_prefix 4) with 15 in Hc]; lia. }
  destruct Hc1 as (-> & -> & Hc3). cbn [negb andb]. rewrite Hc3. cbv zeta.
  assert (Hlen1 : forall b : bool, st_length (if b then set_index true s else s) = st_length s) by by intros [].
  rewrite Hlen1. replace (if inc then 6 else if false then 5 else 4) with k by done.
  unfold w. rewrite (write_int_read f k) by (done || fold w; lia). fold w. cbn [mbind option_bind].
  rewrite (proj2 (Z.ltb_ge index 0)) by lia. replace (st_length s - Z.of_nat (length w)) with m by lia.
  assert (Hs1 : (if inc then set_index true s else s) = set_index inc s) by (destruct inc; [done|rewrite <-Hi; by destruct s]).
  rewrite Hs1. unfold s', hd. destruct (index =? 0) eqn:E0; [by destruct s|]. cbn [set_index set_length st_hpack st_header].
  rewrite (get_header_holds _ st) by (done || lia).
  unfold get_result. destruct Hidx as [?|[h ->]]; [lia|]. cbn [mbind option_bind snd].
  rewrite <-Hpn. done.
Qed.

Lemma idle_length s m : idle s -> 0 <= m -> idle (set_length m s).
Proof. intros [? (? & ? & ?) ? ? ? ? ?] Hm. constructor; done || by split. Qed.

(** A literal, from its value on. *)
Lemma read_value (inc : bool) value v m rest s st name :
  ngx_http_v2_string_encode value false = Some v -> string_ok max_field_size value ->
  Forall is_byte rest -> last_frame s -> nonneg s -> st_field_state s = 0 -> st_stream s = true ->
  st_parse_name s = false -> st_parse_value s = true -> st_index s = inc -> holds (st_hpack s) st ->
  fst (st_header s) = name -> st_length s = Z.of_nat (length v) + m -> 0 <= m ->
  lengths [(name, value)] <= st_header_limit s ->
  exists s', ngx_http_v2_read max_field_size FieldLen (v ++ rest) s = ngx_http_v2_read max_field_size HeaderComplete rest s' /\
    reached s s' m [(name, value)]
      (if inc then let size := default NGX_HTTP_V2_TABLE_SIZE (fst st) in (Some size, add_entry size (snd st) (name, value)) else st).
Proof.
  intros Ev (Hvb & Hv1 & Hv2) Hb Hlast Hn Hst Hstream Hpn Hpv Hi Hh Hname Hlen Hm Hlim.
  destruct (read_string max_field_size value false v m rest s Ev Hvb Hb Hv1 Hv2 Hlast Hlen Hm Hn Hst Hstream) as (alloc & ->).
  set (s2 := set_field _ _ _ _ _).
  assert (Hn2 : nonneg s2) by (destruct Hn as (? & ? & ?); unfold nonneg; cbn; lia).
  destruct (read_header rest s2 st inc (name, value) Hb Hlast Hn2 eq_refl Hstream Hpn Hi Hh) as (s' & E & [? ? ? ? ? ?]).
  - cbn [s2 set_field set_length st_parse_value st_header st_field lowered]. by rewrite Hpv, Hname.
  - done.
  - exists s'. split; [exact E|]. by constructor.
Qed.

Lemma read_literal_rep (inc : bool) index name value w m hs rest s st st' :
  let r := Literal inc index name value in
  rep_ok max_field_size r -> encode_rep r = Some w -> rep_meaning st r = Some (hs, st') ->
  Forall is_byte rest -> idle s -> holds (st_hpack s) st -> st_length s = Z.of_nat (length w) + m -> 0 <= m ->
  lengths hs <= st_header_limit s ->
  exists s', ngx_http_v2_read max_field_size HeaderBlock (w ++ rest) s = ngx_http_v2_read max_field_size HeaderComplete rest s' /\
    reached s s' m hs st'.
Proof.
  intros r Hr Hw Hmean Hb Hid Hh Hlen Hm Hlim. destruct st as [limit l]. unfold r in *. cbn [rep_ok encode_rep rep_meaning] in *.
  destruct Hr as (Hint & Hname & Hvalue). set (f := if inc then 0x40 else 0) in *. set (k := if inc then 6 else 4) in *.
  set (wi := ngx_http_v2_write_int f (ngx_http_v2_prefix k) index) in *.
  destruct (if index =? 0 then ngx_http_v2_string_encode name true else Some []) as [n|] eqn:En; [|done].
  destruct (ngx_http_v2_string_encode value false) as [v|] eqn:Ev; [|done]. cbn [mbind option_bind] in Hw. injection Hw as <-.
  destruct (if index =? 0 then Some (map ngx_tolower name) else fst <$> indexed l index) as [nm|] eqn:Enm; [|done].
  cbn [mbind option_bind] in Hmean. injection Hmean as <- <-.
  rewrite !length_app in Hlen. rewrite <-!app_assoc.
  assert (Hvb : Forall is_byte (v ++ rest)) by (apply Forall_app; split; [eapply string_bytes; [done|apply Hvalue]|done]).
  assert (Hnb : Forall is_byte (n ++ v ++ rest)).
  { apply Forall_app; split; [|done]. destruct (index =? 0); [|injection En as <-; constructor].
    eapply string_bytes; [done|apply Hname]. }
  assert (Hsome : index = 0 \/ is_Some (indexed l index)).
  { destruct (index =? 0) eqn:E; [left; lia|right]. destruct (indexed l index); [by eexists|done]. }
  destruct (read_literal inc index (Z.of_nat (length n) + Z.of_nat (length v) + m) (n ++ v ++ rest) s (limit, l)
    Hnb Hid Hh Hint Hsome ltac:(fold f k wi; lia) ltac:(lia)) as (hd & Hhd & Eread). fold f k wi in Eread. rewrite Eread. clear Eread.
  set (s1 := set_parse _ _ _). destruct Hid as [Hlast (Hn1 & Hn2 & Hn3) Hst Hpn Hpv Hi Hstream].
  assert (Hnn : nonneg s1) by (unfold nonneg; cbn; lia).
  destruct (index =? 0) eqn:E0.
  - injection Enm as <-. destruct Hname as (Hb1 & Hl1 & Hl2).
    destruct (read_string max_field_size name true n (Z.of_nat (length v) + m) (v ++ rest) s1 En Hb1 Hvb Hl1 Hl2 Hlast
      ltac:(cbn; lia) ltac:(lia) Hnn Hst Hstream) as (alloc & ->).
    set (s2 := set_field _ _ _ _ _). assert (Hnn2 : nonneg s2) by (unfold nonneg; cbn; lia).
    set (s3 := set_header (map ngx_tolower name, snd (st_header s2)) (set_parse false true s2)).
    rewrite (read_step max_field_size ProcessHeader (v ++ rest) s2 (Call FieldLen (v ++ rest) s3) Hnn2 Hvb eq_refl).
    destruct (read_value inc value v m rest s3 (limit, l) (map ngx_tolower name)) as (s' & E & [? ? ? ? ? ?]); try done.
    exists s'. split; [exact E|]. by constructor.
  - injection En as <-. cbn [app].
    destruct (read_value inc value v m rest s1 (limit, l) nm) as (s' & E & [? ? ? ? ? ?]); try done.
    + cbn. destruct Hhd as [|Hhd]; [lia|]. cbn [snd] in Hhd. rewrite Hhd in Enm. by injection Enm.
    + exists s'. split; [exact E|]. by constructor.
Qed.

Lemma read_rep r w m hs rest s st st' :
  rep_ok max_field_size r -> encode_rep r = Some w -> rep_meaning st r = Some (hs, st') ->
  Forall is_byte rest -> idle s -> holds (st_hpack s) st -> st_length s = Z.of_nat (length w) + m -> 0 <= m ->
  lengths hs <= st_header_limit s ->
  exists s', ngx_http_v2_read max_field_size HeaderBlock (w ++ rest) s = ngx_http_v2_read max_field_size HeaderComplete rest s' /\
    reached s s' m hs st'.
Proof.
  intros Hr Hw Hmean Hb Hid Hh Hlen Hm Hlim. destruct st as [limit l].
  destruct r as [index|inc index name value|size]; cbn [rep_ok encode_rep rep_meaning] in *.
  - injection Hw as <-. destruct (indexed l index) as [h|] eqn:Eh; [|done]. injection Hmean as <- <-.
    rewrite (read_indexed index m rest s (limit, l) h Hb Hid Hh Hr Eh Hlen Hm).
    destruct (idle_length s m Hid Hm) as [H1 H2 H3 H4 H5 H6 H7].
    destruct (read_header rest (set_header h (set_length m s)) (limit, l) false h Hb H1 H2 H3 H7 H4 H6 Hh) as (s' & E & [? ? ? ? ? ?]).
    + cbn [set_header st_parse_value st_header]. cbn in H5 |- *. by rewrite H5.
    + done.
    + exists s'. split; [done|]. by constructor.
  - by apply (read_literal_rep inc index name value w m hs rest s (limit, l) st').
  - injection Hw as <-. destruct (NGX_HTTP_V2_TABLE_SIZE <? size) eqn:Es; [done|]. injection Hmean as <- <-.
    destruct (read_resize size m rest s (limit, l) Hb Hid Hh Hr ltac:(lia) Hlen Hm) as (t & Ht & ->).
    eexists. split; [done|]. destruct (idle_length s m Hid Hm) as [H1 H2 H3 H4 H5 H6 H7].
    constructor; [by constructor|done|done|cbn; lia|done|done].
Qed.

(** The whole block. *)
Lemma read_block reps : forall block rest s st hs st',
  reps <> [] -> Forall (rep_ok max_field_size) reps -> encode_block reps = Some block -> block_meaning st reps = Some (hs, st') ->
  Forall is_byte rest -> idle s -> holds (st_hpack s) st -> st_length s = Z.of_nat (length block) -> st_padding s = 0 ->
  lengths hs <= st_header_limit s ->
  exists s', ngx_http_v2_read max_field_size HeaderBlock (block ++ rest) s = Some (Finished rest s') /\
    st_request s' = run_request (fold_left push hs (st_request s)) /\ holds (st_hpack s') st' /\ st_stream s' = false.
Proof.
  induction reps as [|r reps IH]; intros block rest s st hs st' Hne Hok Hb Hmean Hrest Hid Hh Hlen Hpad Hlim; [done|].
  apply Forall_cons in Hok as [Hr Hok]. cbn [encode_block block_meaning] in *.
  destruct (encode_rep r) as [w|] eqn:Ew; [|done]. destruct (encode_block reps) as [b|] eqn:Eb; [|done].
  cbn [mbind option_bind] in Hb. injection Hb as <-.
  destruct (rep_meaning st r) as [[h1 st1]|] eqn:E1; [|done]. cbn [mbind option_bind] in Hmean.
  destruct (block_meaning st1 reps) as [[h2 st2]|] eqn:E2; [|done]. cbn [mbind option_bind] in Hmean. injection Hmean as <- <-.
  destruct (encode_block_bytes max_field_size reps b Hok Eb) as [Hbb Hbne]. rewrite length_app in Hlen. rewrite lengths_app in Hlim.
  pose proof (lengths_nonneg h1). pose proof (lengths_nonneg h2).
  assert (Hbr : Forall is_byte (b ++ rest)) by by apply Forall_app.
  rewrite <-app_assoc. destruct (read_rep r w (Z.of_nat (length b)) h1 (b ++ rest) s st st1 Hr Ew E1 Hbr Hid Hh
    ltac:(lia) ltac:(lia) ltac:(lia)) as (s1 & -> & [Hid1 Hl1 Hp1 Hlim1 Hreq1 Hh1]).
  assert (Ec : handle max_field_size HeaderComplete (b ++ rest) s1 =
    Some (ngx_http_v2_state_header_complete (b ++ rest) s1)) by done.
  rewrite (read_step max_field_size _ _ _ _ (idle_nonneg s1 Hid1) Hbr Ec). unfold ngx_http_v2_state_header_complete.
  rewrite Hl1. destruct b as [|c b].
  - cbn [length Z.of_nat Z.eqb negb]. rewrite (proj2 (Z.eqb_neq _ 0) (idle_frame s1 Hid1)).
    unfold of_stream. cbn [set_request st_padding]. rewrite Hp1, Hpad. cbn [Z.eqb negb]. destruct reps; [|by destruct Hbne].
    injection E2 as <- <-. eexists. split; [done|]. cbn [set_stream set_request st_request st_hpack st_stream].
    rewrite (idle_stream s1 Hid1), Hreq1, app_nil_r. done.
  - rewrite (proj2 (Z.eqb_neq _ 0)) by (cbn [length]; lia). cbn [negb app]. change (c :: b ++ rest) with ((c :: b) ++ rest).
    destruct (IH (c :: b) rest s1 st1 h2 st2) as (s' & -> & Hreq & Hh' & Hs'); try done; [|congruence|lia|].
    { by intros ->. }
    exists s'. split; [done|]. by rewrite fold_left_app, <-Hreq1.
Qed.

End Decoding.

(** C8: a header block written with the program's integers and strings, and cut
    anywhere on its way, is read back: the request gets exactly the headers that
    the representations mean, in their order, it is then run, and the table is
    left as the list of the standard. *)
Theorem h2_block_decoded {R : Type} `{!Request R} (max_field_size : Z) (push : R -> header -> R)
    reps block pieces s st hs st' :
  (forall r h, process_field r h = (push r h, h, Keep)) ->
  reps <> [] -> Forall (rep_ok max_field_size) reps ->
  encode_block reps = Some block -> block_meaning st reps = Some (hs, st') ->
  concat pieces = block -> Forall (fun p => p <> []) pieces ->
  idle s -> holds (st_hpack s) st -> st_length s = Z.of_nat (length block) -> st_padding s = 0 ->
  lengths hs <= st_header_limit s ->
  exists s', read_pieces max_field_size HeaderBlock [] s pieces = Some (Finished [] s') /\
    st_request s' = run_request (fold_left push hs (st_request s)) /\ holds (st_hpack s') st' /\ st_stream s' = false.
Proof.
  intros Hpush Hne Hok Hb Hmean Hcat Hp Hid Hh Hlen Hpad Hlim.
  destruct (encode_block_bytes max_field_size reps block Hok Hb) as [Hbb Hbne].
  destruct (read_block max_field_size push Hpush reps block [] s st hs st' Hne Hok Hb Hmean ltac:(constructor) Hid Hh Hlen Hpad Hlim)
    as (s1 & E & Hreq & Hh' & Hst). rewrite app_nil_r in E.
  assert (Hready : ready HeaderBlock [] s).
  { split; [done|]. split; [apply Hid|]. split; [constructor|]. split; [|apply Hid].
    destruct Hh as [[H _]|[H _]]; [by left|right; eauto]. }
  assert (Hpb : Forall (fun p => p <> [] /\ Forall is_byte p) pieces).
  { rewrite <-Hcat in Hbb. clear -Hp Hbb. induction Hp as [|p pieces Hp1 Hp IH]; [constructor|].
    cbn [concat] in Hbb. apply Forall_app in Hbb as [H1 H2]. constructor; [done|by apply IH]. }
  destruct pieces as [|p pieces]; [subst block; by destruct (Hbne Hne)|].
  pose proof (read_pieces_whole max_field_size pieces HeaderBlock [] s p Hpb Hready) as H. cbn [app] in H.
  rewrite Hcat, E in H. destruct (read_pieces _ _ _ _ _) as [o|]; [|by inversion H].
  apply Some_equiv_inj in H. destruct o as [| |q s']; cbv [equiv outcome_equiv] in H; [done|done|].
  destruct H as [-> H]. exists s'. split; [done|].
  assert (Hs : st_request s' = st_request s1 /\ st_hpack s' = st_hpack s1 /\ st_stream s' = st_stream s1).
  { split; [apply (f_equal st_request) in H|split; [apply (f_equal st_hpack) in H|apply (f_equal st_stream) in H]]; exact H. }
  destruct Hs as (-> & -> & ->). done.
Qed.

Definition sample_reps : list rep :=
  [Indexed 2; Indexed 6; Indexed 4; Literal true 1 [] (bytes "www.example.com");
   Literal false 0 (bytes "X-Long") (bytes "q"); Indexed 62; Resize 0].

Definition sample_block : list Z := default [] (encode_block sample_reps).

Definition sample_headers : list header :=
  rfc_headers ++ [(bytes "x-long", bytes "q"); (bytes ":authority", bytes "www.example.com")].

Lemma sample_ok : Forall (rep_ok 4096) sample_reps.
Proof.
  assert (H : forall x, bytes_ok x = true -> Z.of_nat (length x) <= 4096 -> string_ok 4096 x).
  { intros x Hx Hl. split; [by apply bytes_ok_spec|]. split; lia. }
  unfold sample_reps. repeat (apply Forall_cons; split); try apply Forall_nil; try done; cbn [rep_ok];
    try (vm_compute; intuition discriminate); (split; [vm_compute; intuition discriminate|]);
    split; apply H; vm_compute; try reflexivity; intuition discriminate.
Qed.

Lemma h2_block_decoded_witness :
  exists s', read_pieces (Request0 := collect) 4096 HeaderBlock [] (frame_state (Z.of_nat (length sample_block)) 4096 [])
      [take 5 sample_block; drop 5 sample_block] = Some (Finished [] s') /\
    st_request s' = sample_headers.
Proof.
  destruct (@h2_block_decoded _ collect 4096 (fun r h => r ++ [h]) sample_reps sample_block
    [take 5 sample_block; drop 5 sample_block]
    (frame_state (Z.of_nat (length sample_block)) 4096 []) (None, []) sample_headers (Some 0, []))
    as (s' & H1 & H2 & _).
  - reflexivity.
  - discriminate.
  - exact sample_ok.
  - vm_compute. reflexivity.
  - vm_compute. reflexivity.
  - vm_compute. reflexivity.
  - repeat (apply Forall_cons; split; [vm_compute; discriminate|]). apply Forall_nil. exact I.
  - constructor; try reflexivity; [vm_compute; discriminate|]. split; [vm_compute; discriminate|]. split; vm_compute; discriminate.
  - left. split; [|reflexivity]. constructor; cbn; try reflexivity; [split; [|split]; reflexivity|vm_compute; split; discriminate].
  - reflexivity.
  - reflexivity.
  - vm_compute. discriminate.
  - exists s'. split; [exact H1|]. rewrite H2. reflexivity.
Defined.
