(* ===== verification/Rbtree.v ===== *)
(** * Red-black trees

    src/core/ngx_rbtree.c and ngx_rbtree.h, at the level of their pointers: nodes
    with parent pointers in memory, the sentinel that stands for every missing
    child, the root pointer of [ngx_rbtree_t].

    A pointer is an address, [NULL] is 0; reading or writing a node that is not
    there is a fault ([None]). *)

From stdpp Require Import gmap.
From S2P Require Import Prelude.

(** [ngx_rbtree_node_t]; the color is [true] for 1, red. *)
Record rbnode : Type := mk_node { n_key : Z; n_left : Z; n_right : Z; n_parent : Z; n_color : bool }.

Definition set_key v n := mk_node v (n_left n) (n_right n) (n_parent n) (n_color n).
Definition set_left v n := mk_node (n_key n) v (n_right n) (n_parent n) (n_color n).
Definition set_right v n := mk_node (n_key n) (n_left n) v (n_parent n) (n_color n).
Definition set_parent v n := mk_node (n_key n) (n_left n) (n_right n) v (n_color n).
Definition set_color v n := mk_node (n_key n) (n_left n) (n_right n) (n_parent n) v.

(** [ngx_rbtree_t], without its callback, and the memory it lives in. *)
Record rbtree : Type := mk_rbtree { rb_root : Z; rb_sentinel : Z; rb_nodes : gmap Z rbnode }.

Definition set_root p t := mk_rbtree p (rb_sentinel t) (rb_nodes t).

Definition get (p : Z) (t : rbtree) : option rbnode := rb_nodes t !! p.

(** A write through a pointer. *)
Definition put (p : Z) (f : rbnode -> rbnode) (t : rbtree) : option rbtree :=
  n ← get p t; Some (mk_rbtree (rb_root t) (rb_sentinel t) (<[p := f n]> (rb_nodes t))).

Definition ngx_rbt_red (p : Z) : rbtree -> option rbtree := put p (set_color true).
Definition ngx_rbt_black (p : Z) : rbtree -> option rbtree := put p (set_color false).
Definition ngx_rbt_is_red (p : Z) (t : rbtree) : option bool := n ← get p t; Some (n_color n).
Definition ngx_rbt_is_black (p : Z) (t : rbtree) : option bool := red ← ngx_rbt_is_red p t; Some (negb red).
Definition ngx_rbt_copy_color (p q : Z) (t : rbtree) : option rbtree := n ← get q t; put p (set_color (n_color n)) t.

Definition ngx_rbtree_init (s : Z) (t : rbtree) : option rbtree :=
  t ← ngx_rbt_black s t; Some (mk_rbtree s s (rb_nodes t)).

(** ** Rotations *)

Definition ngx_rbtree_left_rotate (node : Z) (t : rbtree) : option rbtree :=
  n ← get node t;
  let temp := n_right n in
  x ← get temp t;
  t ← put node (set_right (n_left x)) t;
  t ← (if negb (n_left x =? rb_sentinel t) then put (n_left x) (set_parent node) t else Some t);
  n ← get node t;
  t ← put temp (set_parent (n_parent n)) t;
  t ← (if node =? rb_root t then Some (set_root temp t)
       else
         p ← get (n_parent n) t;
         if node =? n_left p then put (n_parent n) (set_left temp) t
         else put (n_parent n) (set_right temp) t);
  t ← put temp (set_left node) t;
  put node (set_parent temp) t.

Definition ngx_rbtree_right_rotate (node : Z) (t : rbtree) : option rbtree :=
  n ← get node t;
  let temp := n_left n in
  x ← get temp t;
  t ← put node (set_left (n_right x)) t;
  t ← (if negb (n_right x =? rb_sentinel t) then put (n_right x) (set_parent node) t else Some t);
  n ← get node t;
  t ← put temp (set_parent (n_parent n)) t;
  t ← (if node =? rb_root t then Some (set_root temp t)
       else
         p ← get (n_parent n) t;
         if node =? n_right p then put (n_parent n) (set_right temp) t
         else put (n_parent n) (set_left temp) t);
  t ← put temp (set_right node) t;
  put node (set_parent temp) t.

(** ** Insertion *)

(** Loops over the height of the tree have as many turns as there are nodes. *)
Definition rb_fuel (t : rbtree) : nat := S (size (rb_nodes t)).

(** The loop of the insert callbacks, down to a missing child: [temp] and whether
    [p] is [&temp->left].  [less] is the comparison of the node with [temp]. *)
Fixpoint insert_down (fuel : nat) (less : Z -> rbnode -> option bool) (temp : Z) (t : rbtree) : option (Z * bool) :=
  match fuel with
  | O => None
  | S fuel' =>
      x ← get temp t;
      on_left ← less temp x;
      let p := if on_left : bool then n_left x else n_right x in
      if p =? rb_sentinel t then Some (temp, on_left) else insert_down fuel' less p t
  end.

Definition insert_with (less : Z -> rbnode -> option bool) (temp node : Z) (t : rbtree) : option rbtree :=
  '(temp, on_left) ← insert_down (rb_fuel t) less temp t;
  t ← put temp (if on_left : bool then set_left node else set_right node) t;
  t ← put node (set_parent temp) t;
  t ← put node (set_left (rb_sentinel t)) t;
  t ← put node (set_right (rb_sentinel t)) t;
  ngx_rbt_red node t.

(** [lt] is the comparison of [node->key] with [temp->key]. *)
Definition by_key (lt : Z -> Z -> bool) (node : Z) (t : rbtree) (temp : Z) (x : rbnode) : option bool :=
  n ← get node t; Some (lt (n_key n) (n_key x)).

Definition insert_key (lt : Z -> Z -> bool) (temp node : Z) (t : rbtree) : option rbtree :=
  insert_with (by_key lt node t) temp node t.

(** [node->key < temp->key] *)
Definition ngx_rbtree_insert_value : Z -> Z -> rbtree -> option rbtree := insert_key Z.ltb.

(** [(ngx_rbtree_key_int_t) (node->key - temp->key) < 0] *)
Definition timer_lt (a b : Z) : bool := i64 (u64 (a - b)) <? 0.
Definition ngx_rbtree_insert_timer_value : Z -> Z -> rbtree -> option rbtree := insert_key timer_lt.

(** One turn of the loop that rebalances: the new [node]. *)
Definition insert_turn (node : Z) (t : rbtree) : option (Z * rbtree) :=
  n ← get node t;
  p ← get (n_parent n) t;
  g ← get (n_parent p) t;
  if n_parent n =? n_left g then
    let temp := n_right g in
    red ← ngx_rbt_is_red temp t;
    if red : bool then
      t ← ngx_rbt_black (n_parent n) t;
      t ← ngx_rbt_black temp t;
      t ← ngx_rbt_red (n_parent p) t;
      Some (n_parent p, t)
    else
      '(node, t) ← (if node =? n_right p then
                      t ← ngx_rbtree_left_rotate (n_parent n) t; Some (n_parent n, t)
                    else Some (node, t));
      n ← get node t;
      t ← ngx_rbt_black (n_parent n) t;
      p ← get (n_parent n) t;
      t ← ngx_rbt_red (n_parent p) t;
      t ← ngx_rbtree_right_rotate (n_parent p) t;
      Some (node, t)
  else
    let temp := n_left g in
    red ← ngx_rbt_is_red temp t;
    if red : bool then
      t ← ngx_rbt_black (n_parent n) t;
      t ← ngx_rbt_black temp t;
      t ← ngx_rbt_red (n_parent p) t;
      Some (n_parent p, t)
    else
      '(node, t) ← (if node =? n_left p then
                      t ← ngx_rbtree_right_rotate (n_parent n) t; Some (n_parent n, t)
                    else Some (node, t));
      n ← get node t;
      t ← ngx_rbt_black (n_parent n) t;
      p ← get (n_parent n) t;
      t ← ngx_rbt_red (n_parent p) t;
      t ← ngx_rbtree_left_rotate (n_parent p) t;
      Some (node, t).

Fixpoint insert_loop (fuel : nat) (node : Z) (t : rbtree) : option rbtree :=
  match fuel with
  | O => None
  | S fuel' =>
      if node =? rb_root t then Some t
      else
        n ← get node t;
        red ← ngx_rbt_is_red (n_parent n) t;
        if red : bool then '(node, t) ← insert_turn node t; insert_loop fuel' node t else Some t
  end.

(** [insert] is [tree->insert]. *)
Definition ngx_rbtree_insert (insert : Z -> Z -> rbtree -> option rbtree) (node : Z) (t : rbtree) : option rbtree :=
  if rb_root t =? rb_sentinel t then
    t ← put node (set_parent 0) t;
    t ← put node (set_left (rb_sentinel t)) t;
    t ← put node (set_right (rb_sentinel t)) t;
    t ← ngx_rbt_black node t;
    Some (set_root node t)
  else
    t ← insert (rb_root t) node t;
    t ← insert_loop (rb_fuel t) node t;
    ngx_rbt_black (rb_root t) t.

(** ** Deletion *)

Fixpoint min_loop (fuel : nat) (node : Z) (t : rbtree) : option Z :=
  match fuel with
  | O => None
  | S fuel' =>
      n ← get node t;
      if negb (n_left n =? rb_sentinel t) then min_loop fuel' (n_left n) t else Some node
  end.

Definition ngx_rbtree_min (node : Z) (t : rbtree) : option Z := min_loop (rb_fuel t) node t.

(** The node that leaves its place, and the child that takes it. *)
Definition delete_subst (node : Z) (t : rbtree) : option (Z * Z) :=
  n ← get node t;
  if n_left n =? rb_sentinel t then Some (node, n_right n)
  else if n_right n =? rb_sentinel t then Some (node, n_left n)
  else
    subst ← ngx_rbtree_min (n_right n) t;
    x ← get subst t;
    Some (subst, if negb (n_left x =? rb_sentinel t) then n_left x else n_right x).

(** [subst] in the place of [node]. *)
Definition delete_replace (node subst : Z) (t : rbtree) : option rbtree :=
  n ← get node t;
  t ← put subst (set_left (n_left n)) t;
  n ← get node t;
  t ← put subst (set_right (n_right n)) t;
  n ← get node t;
  t ← put subst (set_parent (n_parent n)) t;
  t ← ngx_rbt_copy_color subst node t;
  t ← (if node =? rb_root t then Some (set_root subst t)
       else
         n ← get node t;
         p ← get (n_parent n) t;
         if node =? n_left p then put (n_parent n) (set_left subst) t
         else put (n_parent n) (set_right subst) t);
  x ← get subst t;
  t ← (if negb (n_left x =? rb_sentinel t) then put (n_left x) (set_parent subst) t else Some t);
  x ← get subst t;
  if negb (n_right x =? rb_sentinel t) then put (n_right x) (set_parent subst) t else Some t.

Definition delete_unlink (node subst temp : Z) (t : rbtree) : option rbtree :=
  x ← get subst t;
  p ← get (n_parent x) t;
  t ← (if subst =? n_left p then put (n_parent x) (set_left temp) t else put (n_parent x) (set_right temp) t);
  if subst =? node then
    x ← get subst t;
    put temp (set_parent (n_parent x)) t
  else
    x ← get subst t;
    t ← (if n_parent x =? node then put temp (set_parent subst) t
         else put temp (set_parent (n_parent x)) t);
    delete_replace node subst t.

(** [DEBUG stuff] *)
Definition delete_clear (node : Z) (t : rbtree) : option rbtree :=
  t ← put node (set_left 0) t;
  t ← put node (set_right 0) t;
  t ← put node (set_parent 0) t;
  put node (set_key 0) t.

(** One turn of the fixup: the new [temp]. *)
Definition delete_turn (temp : Z) (t : rbtree) : option (Z * rbtree) :=
  n ← get temp t;
  let parent := n_parent n in
  p ← get parent t;
  if temp =? n_left p then
    red ← ngx_rbt_is_red (n_right p) t;
    '(w, t) ← (if red : bool then
                 t ← ngx_rbt_black (n_right p) t;
                 t ← ngx_rbt_red parent t;
                 t ← ngx_rbtree_left_rotate parent t;
                 n ← get temp t; p ← get (n_parent n) t;
                 Some (n_right p, t)
               else Some (n_right p, t));
    wn ← get w t;
    bl ← ngx_rbt_is_black (n_left wn) t;
    both ← (if bl : bool then ngx_rbt_is_black (n_right wn) t else Some false);
    if both : bool then
      t ← ngx_rbt_red w t;
      n ← get temp t;
      Some (n_parent n, t)
    else
      br ← ngx_rbt_is_black (n_right wn) t;
      '(w, t) ← (if br : bool then
                   t ← ngx_rbt_black (n_left wn) t;
                   t ← ngx_rbt_red w t;
                   t ← ngx_rbtree_right_rotate w t;
                   n ← get temp t; p ← get (n_parent n) t;
                   Some (n_right p, t)
                 else Some (w, t));
      n ← get temp t;
      t ← ngx_rbt_copy_color w (n_parent n) t;
      t ← ngx_rbt_black (n_parent n) t;
      wn ← get w t;
      t ← ngx_rbt_black (n_right wn) t;
      n ← get temp t;
      t ← ngx_rbtree_left_rotate (n_parent n) t;
      Some (rb_root t, t)
  else
    red ← ngx_rbt_is_red (n_left p) t;
    '(w, t) ← (if red : bool then
                 t ← ngx_rbt_black (n_left p) t;
                 t ← ngx_rbt_red parent t;
                 t ← ngx_rbtree_right_rotate parent t;
                 n ← get temp t; p ← get (n_parent n) t;
                 Some (n_left p, t)
               else Some (n_left p, t));
    wn ← get w t;
    bl ← ngx_rbt_is_black (n_left wn) t;
    both ← (if bl : bool then ngx_rbt_is_black (n_right wn) t else Some false);
    if both : bool then
      t ← ngx_rbt_red w t;
      n ← get temp t;
      Some (n_parent n, t)
    else
      '(w, t) ← (if bl : bool then
                   t ← ngx_rbt_black (n_right wn) t;
                   t ← ngx_rbt_red w t;
                   t ← ngx_rbtree_left_rotate w t;
                   n ← get temp t; p ← get (n_parent n) t;
                   Some (n_left p, t)
                 else Some (w, t));
      n ← get temp t;
      t ← ngx_rbt_copy_color w (n_parent n) t;
      t ← ngx_rbt_black (n_parent n) t;
      wn ← get w t;
      t ← ngx_rbt_black (n_left wn) t;
      n ← get temp t;
      t ← ngx_rbtree_right_rotate (n_parent n) t;
      Some (rb_root t, t).

Fixpoint delete_loop (fuel : nat) (temp : Z) (t : rbtree) : option (Z * rbtree) :=
  match fuel with
  | O => None
  | S fuel' =>
      if temp =? rb_root t then Some (temp, t)
      else
        black ← ngx_rbt_is_black temp t;
        if black : bool then '(temp, t) ← delete_turn temp t; delete_loop fuel' temp t else Some (temp, t)
  end.

(** One more turn for the root. *)
Definition ngx_rbtree_delete (node : Z) (t : rbtree) : option rbtree :=
  '(subst, temp) ← delete_subst node t;
  if subst =? rb_root t then
    t ← ngx_rbt_black temp (set_root temp t);
    delete_clear node t
  else
    red ← ngx_rbt_is_red subst t;
    t ← delete_unlink node subst temp t;
    t ← delete_clear node t;
    if red : bool then Some t
    else
      '(temp, t) ← delete_loop (S (rb_fuel t)) temp t;
      ngx_rbt_black temp t.

(** Eight nodes, then four of them deleted: the keys and colors that are left, in
    order. *)
Fixpoint walk (fuel : nat) (p : Z) (t : rbtree) : list (Z * bool) :=
  match fuel with
  | O => []
  | S fuel' =>
      if p =? rb_sentinel t then []
      else
        match get p t with
        | Some n => walk fuel' (n_left n) t ++ [(n_key n, n_color n)] ++ walk fuel' (n_right n) t
        | None => []
        end
  end.

Definition sample_nodes : gmap Z rbnode :=
  list_to_map (map (fun k => (k, mk_node (k mod 5) 0 0 0 false)) [100; 101; 102; 103; 104; 105; 106; 107; 108]).

Example rbtree_sample :
  (t ← ngx_rbtree_init 108 (mk_rbtree 0 0 sample_nodes);
   t ← foldl (fun t k => t ← t; ngx_rbtree_insert ngx_rbtree_insert_value k t) (Some t) [100; 101; 102; 103; 104; 105; 106; 107];
   t1 ← foldl (fun t k => t ← t; ngx_rbtree_delete k t) (Some t) [103; 100; 107; 102];
   Some (walk 10 (rb_root t) t, walk 10 (rb_root t1) t1)) =
  Some ([(0, false); (0, true); (1, false); (1, true); (2, false); (2, true); (3, true); (4, false)], [(0, false); (1, false); (1, true); (4, false)]).
Proof. vm_compute. reflexivity. Qed.
