(* ===== verification/RbtreeSpec.v ===== *)
(** * Red-black trees: what a heap of nodes stands for

    A tree with its addresses, a position in it as a list of frames, and the
    relation [rep] to the nodes in memory.  The left and the right half of the
    code are one definition with a [side], and each operation on pointers is shown
    to do to the tree what its name says. *)

From stdpp Require Import gmap.
From S2P Require Import Prelude Rbtree.

Inductive side : Type := Lft | Rgt.

Definition opp (d : side) : side := match d with Lft => Rgt | Rgt => Lft end.

(** ** Trees and positions *)

Inductive rtree : Type :=
  | E
  | T (c : bool) (l : rtree) (a k : Z) (r : rtree).

(** A node whose child on side [d] is [x] and whose other child is [y]. *)
Definition N (d : side) (c : bool) (x : rtree) (a k : Z) (y : rtree) : rtree :=
  match d with Lft => T c x a k y | Rgt => T c y a k x end.

Fixpoint addrs (t : rtree) : list Z :=
  match t with E => [] | T _ l a _ r => addrs l ++ a :: addrs r end.

(** Keys and addresses in order. *)
Fixpoint entries (t : rtree) : list (Z * Z) :=
  match t with E => [] | T _ l a k r => entries l ++ (k, a) :: entries r end.

(** A node above the position, which is below it on side [f_side]. *)
Record frame : Type := mk_frame { f_side : side; f_color : bool; f_addr : Z; f_key : Z; f_other : rtree }.

Definition plug1 (f : frame) (t : rtree) : rtree := N (f_side f) (f_color f) t (f_addr f) (f_key f) (f_other f).

Fixpoint plug (ctx : list frame) (t : rtree) : rtree :=
  match ctx with [] => t | f :: ctx' => plug ctx' (plug1 f t) end.

Fixpoint ctx_addrs (ctx : list frame) : list Z :=
  match ctx with [] => [] | f :: ctx' => f_addr f :: addrs (f_other f) ++ ctx_addrs ctx' end.

Lemma addrs_N d c x a k y : addrs (N d c x a k y) ≡ₚ a :: addrs x ++ addrs y.
Proof. destruct d; cbn [N addrs]; solve_Permutation. Qed.

Lemma addrs_plug ctx t : addrs (plug ctx t) ≡ₚ ctx_addrs ctx ++ addrs t.
Proof.
  revert t. induction ctx as [|f ctx IH]; intros t; [done|]. cbn [plug ctx_addrs]. rewrite IH.
  unfold plug1. rewrite addrs_N. solve_Permutation.
Qed.

Lemma plug_app c1 c2 t : plug (c1 ++ c2) t = plug c2 (plug c1 t).
Proof. revert t. induction c1 as [|f c1 IH]; intros t; [done|]. cbn [plug app]. apply IH. Qed.

(** ** Nodes in memory *)

Definition child (d : side) (n : rbnode) : Z := match d with Lft => n_left n | Rgt => n_right n end.
Definition set_child (d : side) (v : Z) (n : rbnode) : rbnode :=
  match d with Lft => set_left v n | Rgt => set_right v n end.

Definition mk_side (d : side) (k x y p : Z) (c : bool) : rbnode :=
  match d with Lft => mk_node k x y p c | Rgt => mk_node k y x p c end.

Section Memory.
Variable s : Z.

Definition ptr (t : rtree) : Z := match t with E => s | T _ _ a _ _ => a end.

Fixpoint tree_at (h : gmap Z rbnode) (par : Z) (t : rtree) : Prop :=
  match t with
  | E => True
  | T c l a k r => h !! a = Some (mk_node k (ptr l) (ptr r) par c) /\ tree_at h a l /\ tree_at h a r
  end.

Definition par_of (p0 : Z) (ctx : list frame) : Z := match ctx with [] => p0 | f :: _ => f_addr f end.

Fixpoint ctx_at (h : gmap Z rbnode) (p0 : Z) (ctx : list frame) (p : Z) : Prop :=
  match ctx with
  | [] => True
  | f :: ctx' =>
      h !! f_addr f = Some (mk_side (f_side f) (f_key f) p (ptr (f_other f)) (par_of p0 ctx') (f_color f)) /\
      tree_at h (f_addr f) (f_other f) /\ ctx_at h p0 ctx' (f_addr f)
  end.

Lemma tree_at_N h par d c x a k y :
  tree_at h par (N d c x a k y) <->
  h !! a = Some (mk_side d k (ptr x) (ptr y) par c) /\ tree_at h a x /\ tree_at h a y.
Proof. destruct d; cbn; tauto. Qed.

Lemma ptr_N d c x a k y : ptr (N d c x a k y) = a.
Proof. by destruct d. Qed.

Lemma ptr_plug ctx t1 t2 : ptr t1 = ptr t2 -> ptr (plug ctx t1) = ptr (plug ctx t2).
Proof.
  revert t1 t2. induction ctx as [|f ctx IH]; intros t1 t2 H; [done|]. cbn [plug]. apply IH. unfold plug1. by rewrite !ptr_N.
Qed.

Lemma ptr_plug1 f ctx t1 t2 : ptr (plug (f :: ctx) t1) = ptr (plug (f :: ctx) t2).
Proof. cbn [plug]. apply ptr_plug. unfold plug1. by rewrite !ptr_N. Qed.

Lemma ptr_plug_in ctx t : ptr (plug ctx t) = ptr t \/ ptr (plug ctx t) ∈ ctx_addrs ctx.
Proof.
  revert t. induction ctx as [|f ctx IH]; intros t; [by left|]. right. cbn [plug ctx_addrs].
  destruct (IH (plug1 f t)) as [H|H]; [rewrite H; unfold plug1; rewrite ptr_N|]; set_solver.
Qed.

Lemma ptr_plug1_in f ctx t : ptr (plug (f :: ctx) t) ∈ ctx_addrs (f :: ctx).
Proof.
  cbn [plug ctx_addrs]. destruct (ptr_plug_in ctx (plug1 f t)) as [H|H]; [rewrite H; unfold plug1; rewrite ptr_N|]; set_solver.
Qed.

Lemma plug_at h p0 ctx t :
  tree_at h p0 (plug ctx t) <-> ctx_at h p0 ctx (ptr t) /\ tree_at h (par_of p0 ctx) t.
Proof.
  revert t. induction ctx as [|f ctx IH]; intros t; [cbn; tauto|]. cbn [plug ctx_at par_of]. rewrite IH.
  unfold plug1. rewrite tree_at_N, ptr_N. tauto.
Qed.

(** Memory that is not the tree's does not matter. *)
Lemma tree_at_frame h h' par t :
  tree_at h par t -> (forall x, x ∈ addrs t -> h' !! x = h !! x) -> tree_at h' par t.
Proof.
  revert par. induction t as [|c l IHl a k r IHr]; intros par H Hf; [done|]. cbn [tree_at addrs] in *.
  destruct H as (Ha & Hl & Hr). split; [by rewrite Hf by set_solver|]. split; [apply IHl|apply IHr]; set_solver.
Qed.

Lemma ctx_at_frame h h' p0 ctx p :
  ctx_at h p0 ctx p -> (forall x, x ∈ ctx_addrs ctx -> h' !! x = h !! x) -> ctx_at h' p0 ctx p.
Proof.
  revert p. induction ctx as [|f ctx IH]; intros p H Hf; [done|]. cbn [ctx_at ctx_addrs] in *.
  destruct H as (Ha & Ho & Hc). split; [by rewrite Hf by set_solver|].
  split; [eapply tree_at_frame; [done|]; set_solver|]. apply IH; [done|]; set_solver.
Qed.

End Memory.

(** [t] holds at this position of the tree, and its sentinel is black; the parent
    of the root may be anything. *)
Record rep (t : rbtree) (p0 : Z) (ctx : list frame) (tr : rtree) : Prop := mk_rep {
  rep_root : rb_root t = ptr (rb_sentinel t) (plug ctx tr);
  rep_ctx : ctx_at (rb_sentinel t) (rb_nodes t) p0 ctx (ptr (rb_sentinel t) tr);
  rep_tree : tree_at (rb_sentinel t) (rb_nodes t) (par_of p0 ctx) tr;
  rep_nodup : NoDup (rb_sentinel t :: ctx_addrs ctx ++ addrs tr);
  rep_black : exists n, get (rb_sentinel t) t = Some n /\ n_color n = false
}.

Lemma rep_plug1 t p0 f ctx tr : rep t p0 (f :: ctx) tr <-> rep t p0 ctx (plug1 f tr).
Proof.
  assert (Hp : ctx_addrs (f :: ctx) ++ addrs tr ≡ₚ ctx_addrs ctx ++ addrs (plug1 f tr)).
  { unfold plug1. rewrite addrs_N. cbn [ctx_addrs]. solve_Permutation. }
  unfold plug1 in *. split; intros [H1 H2 H3 H4 H5]; constructor; try done.
  - rewrite ptr_N. apply H2.
  - apply tree_at_N. destruct H2 as (? & ? & ?). done.
  - by rewrite <-Hp.
  - rewrite ptr_N in H2. apply tree_at_N in H3 as (? & ? & ?). done.
  - apply tree_at_N in H3 as (? & ? & ?). done.
  - by rewrite Hp.
Qed.

(** ** Reading *)

Lemma rep_get t p0 ctx d c x a k y :
  rep t p0 ctx (N d c x a k y) ->
  get a t = Some (mk_side d k (ptr (rb_sentinel t) x) (ptr (rb_sentinel t) y) (par_of p0 ctx) c).
Proof. intros [_ _ H _ _]. by apply tree_at_N in H as (? & _). Qed.

Lemma rep_get_parent t p0 f ctx tr :
  rep t p0 (f :: ctx) tr ->
  get (f_addr f) t = Some (mk_side (f_side f) (f_key f) (ptr (rb_sentinel t) tr) (ptr (rb_sentinel t) (f_other f))
    (par_of p0 ctx) (f_color f)).
Proof. intros [_ (H & _) _ _ _]. exact H. Qed.

Lemma child_side d k x y p c : child d (mk_side d k x y p c) = x /\ child (opp d) (mk_side d k x y p c) = y.
Proof. by destruct d. Qed.

Lemma side_fields d k x y p c :
  n_key (mk_side d k x y p c) = k /\ n_parent (mk_side d k x y p c) = p /\ n_color (mk_side d k x y p c) = c.
Proof. by destruct d. Qed.

(** ** Writing *)

Definition upd (p : Z) (v : rbnode) (t : rbtree) : rbtree :=
  mk_rbtree (rb_root t) (rb_sentinel t) (<[p := v]> (rb_nodes t)).

Lemma put_upd p f t n : get p t = Some n -> put p f t = Some (upd p (f n) t).
Proof. intros H. unfold put. by rewrite H. Qed.

Lemma get_upd_eq p v t : get p (upd p v t) = Some v.
Proof. apply lookup_insert_eq. Qed.

Lemma get_upd_ne p q v t : q <> p -> get p (upd q v t) = get p t.
Proof. intros H. by apply lookup_insert_ne. Qed.

(** Only the memory of [A] has changed, and no node has gone. *)
Definition alters (A : list Z) (t t' : rbtree) : Prop :=
  rb_sentinel t' = rb_sentinel t /\ (forall x, x ∉ A -> get x t' = get x t) /\ forall x, is_Some (get x t) -> is_Some (get x t').

Lemma alters_get A t t' x : alters A t t' -> x ∉ A -> get x t' = get x t.
Proof. intros (_ & H & _). apply H. Qed.

Lemma alters_some A t t' x : alters A t t' -> is_Some (get x t) -> is_Some (get x t').
Proof. intros (_ & _ & H). apply H. Qed.

Lemma alters_refl A t : alters A t t.
Proof. done. Qed.

Lemma alters_trans A t1 t2 t3 : alters A t1 t2 -> alters A t2 t3 -> alters A t1 t3.
Proof. intros (H1 & H2 & H3) (H4 & H5 & H6). split; [congruence|]. split; [|auto]. intros x Hx. by rewrite H5, H2. Qed.

Lemma alters_sub A B t t' : alters A t t' -> (forall z, z ∈ A -> z ∈ B) -> alters B t t'.
Proof. intros (H1 & H2 & H3) Hs. split; [done|]. split; [|done]. intros x Hx. apply H2. intros Hx'. by apply Hx, Hs. Qed.

Lemma alters_upd A p v t : p ∈ A -> alters A t (upd p v t).
Proof.
  intros H. split; [done|]. split; [intros x Hx; apply get_upd_ne; by intros -> |]. intros x Hx.
  destruct (decide (x = p)) as [-> | Hne]; [by rewrite get_upd_eq|by rewrite get_upd_ne].
Qed.

Lemma alters_root A p t : alters A t (set_root p t).
Proof. done. Qed.

Lemma alters_perm A B t t' : A ≡ₚ B -> alters A t t' -> alters B t t'.
Proof. intros HP (H1 & H2 & H3). split; [done|]. split; [|done]. intros x Hx. apply H2. by rewrite HP. Qed.

#[export] Instance alters_proper : Proper (Permutation ==> eq ==> eq ==> iff) alters.
Proof. intros A B HP t ? <- t' ? <-. split; apply alters_perm; [done|by symmetry]. Qed.

(** The color of a tree, black for a missing one. *)
Definition color (t : rtree) : bool := match t with E => false | T c _ _ _ _ => c end.

Lemma rep_color t p0 ctx tr : rep t p0 ctx tr -> exists n, get (ptr (rb_sentinel t) tr) t = Some n /\ n_color n = color tr.
Proof.
  intros H. destruct tr as [|c l a k r]; [apply H|]. eexists. split; [exact (rep_get t p0 ctx Lft c l a k r H)|done].
Qed.

(** *** Colors *)

(** Facts about which addresses differ, in a form for [set_solver]. *)
Ltac nodup_facts H :=
  repeat rewrite ?NoDup_cons, ?NoDup_app in H;
  repeat match type of H with _ /\ _ => let H' := fresh "Hnd" in destruct H as [H' H] end.

Lemma put_color d t p0 ctx c c' l a k r :
  rep t p0 ctx (N d c l a k r) ->
  exists t', put a (set_color c') t = Some t' /\ rep t' p0 ctx (N d c' l a k r) /\
    alters (ctx_addrs ctx ++ addrs (N d c l a k r)) t t'.
Proof.
  intros H. assert (Hg := rep_get t p0 ctx d c l a k r H). rewrite (put_upd _ _ _ _ Hg).
  eexists. split; [done|]. split; [|apply alters_upd; rewrite addrs_N; set_solver].
  destruct H as [H1 H2 (H3 & H4 & H5)%tree_at_N H6 H8]. rewrite addrs_N in H6. assert (H7 := H6).
  nodup_facts H7.
  constructor; cbn [upd rb_root rb_sentinel rb_nodes].
  - rewrite H1. apply ptr_plug. by rewrite !ptr_N.
  - rewrite ptr_N in *. eapply ctx_at_frame; [exact H2|]. intros x Hx. apply lookup_insert_ne. intros ->. set_solver.
  - apply tree_at_N. split; [rewrite lookup_insert_eq; by destruct d|].
    split; (eapply tree_at_frame; [done|]); intros x Hx; apply lookup_insert_ne; intros ->; set_solver.
  - by rewrite addrs_N.
  - destruct H8 as (ns & Hs & Hb). exists ns. split; [|done]. rewrite <-Hs. apply get_upd_ne. intros ->. set_solver.
Qed.

(** *** Rotations *)

Definition rotate (d : side) (node : Z) (t : rbtree) : option rbtree :=
  n ← get node t;
  let temp := child (opp d) n in
  x ← get temp t;
  t ← put node (set_child (opp d) (child d x)) t;
  t ← (if negb (child d x =? rb_sentinel t) then put (child d x) (set_parent node) t else Some t);
  n ← get node t;
  t ← put temp (set_parent (n_parent n)) t;
  t ← (if node =? rb_root t then Some (set_root temp t)
       else
         p ← get (n_parent n) t;
         if node =? child d p then put (n_parent n) (set_child d temp) t
         else put (n_parent n) (set_child (opp d) temp) t);
  t ← put temp (set_child d node) t;
  put node (set_parent temp) t.

Lemma left_rotate_side node t : ngx_rbtree_left_rotate node t = rotate Lft node t.
Proof. reflexivity. Qed.

Lemma right_rotate_side node t : ngx_rbtree_right_rotate node t = rotate Rgt node t.
Proof. reflexivity. Qed.

(** The child that takes the place of its parent, in the node above. *)
Definition retarget (d : side) (a b : Z) (n : rbnode) : rbnode :=
  if a =? child d n then set_child d b n else set_child (opp d) b n.

Lemma retarget_side d f x y p k c b : x <> y ->
  retarget d x b (mk_side f k x y p c) = mk_side f k b y p c.
Proof.
  intros H. unfold retarget. destruct d, f; cbn; rewrite ?Z.eqb_refl, ?(proj2 (Z.eqb_neq x y)) by done; reflexivity.
Qed.

Lemma ptr_ne s0 x t : x <> s0 -> x ∉ addrs t -> x <> ptr s0 t.
Proof. intros H1 H2. destruct t as [|c l a k r]; [done|]. cbn in *. set_solver. Qed.

(** The pointer to the subtree, in the node above or in the tree. *)
Definition relink (d : side) (a b : Z) (par : Z) (t : rbtree) : option rbtree :=
  if a =? rb_root t then Some (set_root b t)
  else p ← get par t; put par (fun _ => retarget d a b p) t.

Lemma relink_eq d a b par t :
  (if a =? rb_root t then Some (set_root b t)
   else
     p ← get par t;
     if a =? child d p then put par (set_child d b) t else put par (set_child (opp d) b) t) = relink d a b par t.
Proof.
  unfold relink. destruct (a =? rb_root t); [done|]. destruct (get par t) as [p|] eqn:E; [|done]. cbn [mbind option_bind].
  unfold put, retarget. rewrite E. cbn [mbind option_bind]. by destruct (a =? child d p).
Qed.

(** The position with a subtree at [b] where there was one at [a]. *)
Lemma relink_ctx d a b t p0 ctx :
  a <> b -> a ∉ ctx_addrs ctx -> a <> rb_sentinel t -> NoDup (ctx_addrs ctx) ->
  (forall f ctx', ctx = f :: ctx' -> a <> ptr (rb_sentinel t) (f_other f)) ->
  ctx_at (rb_sentinel t) (rb_nodes t) p0 ctx a -> (a = rb_root t <-> ctx = []) ->
  exists t', relink d a b (par_of p0 ctx) t = Some t' /\
    ctx_at (rb_sentinel t) (rb_nodes t') p0 ctx b /\ alters (ctx_addrs ctx) t t' /\
    rb_root t' = (match ctx with [] => b | _ => rb_root t end).
Proof.
  intros Hab Ha Has Hnd Ho Hc Hr. unfold relink. destruct ctx as [|f ctx].
  - rewrite (proj2 (Z.eqb_eq a _)) by (by apply Hr). eexists. split; [done|]. split; [done|]. split; [done|done].
  - rewrite (proj2 (Z.eqb_neq a _)) by (intros E; by apply Hr in E). cbn [par_of]. destruct Hc as (Hf & Hfo & Hc).
    assert (Hg : get (f_addr f) t = Some (mk_side (f_side f) (f_key f) a (ptr (rb_sentinel t) (f_other f))
      (par_of p0 ctx) (f_color f))) by exact Hf.
    rewrite Hg. cbn [mbind option_bind]. rewrite (put_upd _ _ _ _ Hg). eexists. split; [done|].
    rewrite retarget_side by (by eapply Ho). cbn [upd rb_nodes rb_root ctx_at].
    cbn [ctx_addrs] in Hnd, Ha. nodup_facts Hnd. split; [|split; [apply alters_upd; cbn; set_solver|done]].
    split; [by rewrite lookup_insert_eq|].
    split; [eapply tree_at_frame; [done|]|eapply ctx_at_frame; [done|]]; intros z Hz; apply lookup_insert_ne; intros <-; set_solver.
Qed.

(** A subtree is given another parent. *)
Lemma reparent t m par par' s :
  s = rb_sentinel t -> tree_at s (rb_nodes t) par m -> s ∉ addrs m -> NoDup (addrs m) ->
  exists t', (if negb (ptr s m =? s) then put (ptr s m) (set_parent par') t else Some t) = Some t' /\
    tree_at s (rb_nodes t') par' m /\ alters (addrs m) t t' /\ rb_root t' = rb_root t.
Proof.
  intros -> Hm Hs Hnd. destruct m as [|c l a k r].
  - cbn [ptr]. rewrite Z.eqb_refl. cbn [negb]. by eexists.
  - cbn [ptr addrs] in *. rewrite (proj2 (Z.eqb_neq a _)) by (intros ->; set_solver). cbn [negb].
    destruct Hm as (Ha & Hl & Hr). rewrite (put_upd a _ t _ Ha). eexists. split; [done|].
    nodup_facts Hnd. split; [|split; [apply alters_upd; set_solver|done]].
    cbn [tree_at upd rb_nodes]. split; [by rewrite lookup_insert_eq|].
    split; (eapply tree_at_frame; [done|]); intros z Hz; apply lookup_insert_ne; intros <-; set_solver.
Qed.

(** Pieces of memory that do not overlap. *)
Definition apart (s : Z) (A B : list Z) : Prop := s ∉ A /\ forall z, z ∈ A -> z ∉ B.

Lemma tree_at_alters A s t t' par tr :
  tree_at s (rb_nodes t) par tr -> alters A t t' -> (forall z, z ∈ addrs tr -> z ∉ A) -> tree_at s (rb_nodes t') par tr.
Proof. intros H (_ & Ha & _) Hd. eapply tree_at_frame; [exact H|]. intros z Hz. apply Ha. by apply Hd. Qed.

Lemma ctx_at_alters A s t t' p0 ctx p :
  ctx_at s (rb_nodes t) p0 ctx p -> alters A t t' -> (forall z, z ∈ ctx_addrs ctx -> z ∉ A) -> ctx_at s (rb_nodes t') p0 ctx p.
Proof. intros H (_ & Ha & _) Hd. eapply ctx_at_frame; [exact H|]. intros z Hz. apply Ha. by apply Hd. Qed.

Lemma get_alters A t t' a n : get a t = Some n -> alters A t t' -> a ∉ A -> get a t' = Some n.
Proof. intros H (_ & Ha & _) Hd. by rewrite Ha. Qed.

Lemma rotate_rep d t p0 ctx c x a k c2 m b k2 y :
  rep t p0 ctx (N d c x a k (N d c2 m b k2 y)) ->
  exists t', rotate d a t = Some t' /\ rep t' p0 ctx (N d c2 (N d c x a k m) b k2 y) /\
    alters (ctx_addrs ctx ++ addrs (N d c x a k (N d c2 m b k2 y))) t t'.
Proof.
  intros H. assert (Hga := rep_get t p0 ctx d c x a k _ H). destruct H as [H1 H2 (_ & H4 & (H5 & H6 & H7)%tree_at_N)%tree_at_N H8 Hblack].
  assert (Hperm : ctx_addrs ctx ++ addrs (N d c x a k (N d c2 m b k2 y)) ≡ₚ ctx_addrs ctx ++ a :: addrs x ++ b :: addrs m ++ addrs y)
    by (by rewrite !addrs_N).
  rewrite Hperm in H8. assert (Hnd := H8). nodup_facts Hnd.
  set (s := rb_sentinel t) in *. rewrite ptr_N in Hga, H2.
  assert (Hperm' : addrs (N d c2 (N d c x a k m) b k2 y) ≡ₚ a :: addrs x ++ b :: addrs m ++ addrs y).
  { rewrite !addrs_N. solve_Permutation. }
  assert (Hroot : a = rb_root t <-> ctx = []).
  { rewrite H1. destruct ctx as [|f ctx]; [cbn [plug]; by rewrite ptr_N|]. split; [|done]. intros E. exfalso.
    pose proof (ptr_plug1_in s f ctx (N d c x a k (N d c2 m b k2 y))) as Hin. rewrite <-E in Hin. set_solver + Hin Hnd2. }
  assert (Hother : forall f ctx', ctx = f :: ctx' -> a <> ptr s (f_other f)).
  { intros f ctx' ->. apply ptr_ne; [set_solver + Hnd0|]. cbn [ctx_addrs] in *. set_solver + Hnd2. }
  (* the middle subtree *)
  assert (Hab : a <> b) by set_solver + Hnd3.
  unfold rotate. rewrite Hga. cbn [mbind option_bind]. rewrite (proj2 (child_side _ _ _ _ _ _)).
  assert (Hgb : get b t = Some (mk_side d k2 (ptr s m) (ptr s y) a c2)) by exact H5.
  rewrite Hgb. cbn [mbind option_bind]. rewrite (proj1 (child_side _ _ _ _ _ _)).
  rewrite (put_upd _ _ _ _ Hga). cbn [mbind option_bind]. set (na := set_child (opp d) (ptr s m) _).
  set (t1 := upd a na t). assert (Ht1 : alters [a] t t1) by (apply alters_upd; set_solver +).
  destruct (reparent t1 m b a s eq_refl) as (t2 & E2 & Hm2 & Ht2 & Hr2).
  { eapply tree_at_alters; [exact H6|exact Ht1|]. intros z Hz. set_solver + Hz Hnd3. } { set_solver + Hnd0. } { done. }
  change (rb_sentinel t1) with s. rewrite E2. cbn [mbind option_bind].
  assert (Hga2 : get a t2 = Some na) by (eapply get_alters; [apply get_upd_eq|exact Ht2|set_solver + Hnd3]).
  assert (Hgb2 : get b t2 = Some (mk_side d k2 (ptr s m) (ptr s y) a c2)).
  { eapply get_alters; [|exact Ht2|set_solver + Hnd6]. unfold t1. by rewrite get_upd_ne. }
  rewrite Hga2. cbn [mbind option_bind].
  replace (n_parent na) with (par_of p0 ctx) by (unfold na; by destruct d).
  rewrite (put_upd _ _ _ _ Hgb2). cbn [mbind option_bind]. set (nb := set_parent (par_of p0 ctx) _). set (t3 := upd b nb t2).
  assert (Ht3 : alters (a :: b :: addrs m) t t3).
  { eapply alters_trans; [|apply alters_upd; set_solver +].
    eapply alters_trans; [eapply alters_sub; [exact Ht1|set_solver +]|eapply alters_sub; [exact Ht2|set_solver +]]. }
  (* the node above *)
  rewrite relink_eq. assert (Hs3 : rb_sentinel t3 = s) by apply Ht3.
  destruct (relink_ctx d a b t3 p0 ctx) as (t4 & -> & Hc4 & Ht4 & Hr4); rewrite ?Hs3; try done.
  { set_solver + Hnd2. } { set_solver + Hnd0. }
  { eapply ctx_at_alters; [exact H2|exact Ht3|]. intros z Hz Hz'. apply (Hnd2 z Hz). set_solver + Hz'. }
  { change (rb_root t3) with (rb_root t2). rewrite Hr2. exact Hroot. }
  cbn [mbind option_bind].
  assert (Hgb4 : get b t4 = Some nb) by (eapply get_alters; [apply get_upd_eq|exact Ht4|set_solver + Hnd2]).
  rewrite (put_upd _ _ _ _ Hgb4). cbn [mbind option_bind]. set (t5 := upd b _ t4).
  assert (Hga5 : get a t5 = Some na).
  { unfold t5. rewrite get_upd_ne by done. eapply get_alters; [|exact Ht4|set_solver + Hnd2]. unfold t3. by rewrite get_upd_ne. }
  rewrite (put_upd _ _ _ _ Hga5). eexists. split; [done|]. set (t6 := upd a _ _).
  assert (Ht6 : alters [a; b] t4 t6) by (eapply alters_trans; apply alters_upd; set_solver +).
  assert (Hs6 : rb_sentinel t6 = s) by (rewrite (proj1 Ht6), (proj1 Ht4); exact Hs3).
  split.
  2: { eapply alters_perm; [symmetry; exact Hperm|]. eapply alters_trans; [eapply alters_sub; [exact Ht3|set_solver +]|].
       eapply alters_trans; [eapply alters_sub; [exact Ht4|set_solver +]|eapply alters_sub; [exact Ht6|set_solver +]]. }
  assert (Hout : forall par tr, tree_at s (rb_nodes t) par tr -> (forall z, z ∈ addrs tr -> z ∉ a :: b :: addrs m ++ ctx_addrs ctx) ->
    tree_at s (rb_nodes t6) par tr).
  { intros par tr Htr Hd. eapply (tree_at_alters [a; b]); [|exact Ht6|intros z Hz; specialize (Hd z Hz); set_solver + Hd].
    eapply tree_at_alters; [|exact Ht4|intros z Hz; specialize (Hd z Hz); set_solver + Hd].
    eapply tree_at_alters; [exact Htr|exact Ht3|intros z Hz; specialize (Hd z Hz); set_solver + Hd]. }
  constructor; rewrite ?Hs6.
  - change (rb_root t6) with (rb_root t4). rewrite Hr4. destruct ctx as [|f ctx]; [cbn [plug]; by rewrite ptr_N|].
    change (rb_root t3) with (rb_root t2). rewrite Hr2. change (rb_root t1) with (rb_root t). rewrite H1. apply ptr_plug1.
  - rewrite ptr_N. rewrite Hs3 in Hc4. eapply ctx_at_alters; [exact Hc4|exact Ht6|]. intros z Hz. specialize (Hnd2 z Hz). set_solver + Hnd2.
  - apply tree_at_N. rewrite ptr_N. split; [|split; [apply tree_at_N; split; [|split]|]].
    + change (get b t6 = Some (mk_side d k2 a (ptr s y) (par_of p0 ctx) c2)). unfold t6. rewrite get_upd_ne by done.
      unfold t5. rewrite get_upd_eq. unfold nb. by destruct d.
    + change (get a t6 = Some (mk_side d k (ptr s x) (ptr s m) b c)). unfold t6. rewrite get_upd_eq. unfold na. by destruct d.
    + apply Hout; [exact H4|]. intros z Hz. specialize (Hnd5 z Hz). set_solver + Hz Hnd5 Hnd3 Hnd2.
    + eapply (tree_at_alters [a; b]); [|exact Ht6|intros z Hz; set_solver + Hz Hnd3 Hnd6].
      eapply tree_at_alters; [|exact Ht4|intros z Hz; set_solver + Hz Hnd2].
      eapply (tree_at_alters [b]); [exact Hm2|apply alters_upd; set_solver +|]. intros z Hz. set_solver + Hz Hnd6.
    + apply Hout; [exact H7|]. intros z Hz. set_solver + Hz Hnd3 Hnd6 Hnd8 Hnd2.
  - by rewrite Hperm'.
  - destruct Hblack as (ns & Hs & Hb). exists ns. split; [|done]. fold s in Hs.
    eapply (get_alters [a; b]); [|exact Ht6|set_solver + Hnd0]. eapply get_alters; [|exact Ht4|set_solver + Hnd0].
    eapply get_alters; [exact Hs|exact Ht3|set_solver + Hnd0].
Qed.
