(* ===== verification/RbtreeInsert.v ===== *)
(** * Red-black trees: insertion

    The callback puts the node where its key belongs, as a red leaf; the loop of
    [ngx_rbtree_insert] makes the tree balanced again.  The keys in order are those
    of the stable insertion into a sorted list. *)

From Stdlib Require Import Sorting.Sorted.
From stdpp Require Import gmap.
From S2P Require Import Prelude Rbtree RbtreeSpec.

(** ** Balance *)

(** The color of the root and the number of black nodes on every path. *)
Inductive bal : bool -> nat -> rtree -> Prop :=
  | bal_E : bal false 0 E
  | bal_R n l a k r : bal false n l -> bal false n r -> bal true n (T true l a k r)
  | bal_B n c1 c2 l a k r : bal c1 n l -> bal c2 n r -> bal false (S n) (T false l a k r).

(** A position where a tree with this root and this height keeps the balance. *)
Inductive hole : bool -> nat -> list frame -> Prop :=
  | hole_top n : hole false n []
  | hole_R n f ctx : f_color f = true -> bal false n (f_other f) -> hole true n ctx -> hole false n (f :: ctx)
  | hole_B n c c' f ctx : f_color f = false -> bal c' n (f_other f) -> hole false (S n) ctx -> hole c n (f :: ctx).

#[export] Hint Constructors bal hole : rbtree.

Lemma bal_R_N d n x a k y : bal false n x -> bal false n y -> bal true n (N d true x a k y).
Proof. destruct d; cbn [N]; by constructor. Qed.

Lemma bal_B_N d n c1 c2 x a k y : bal c1 n x -> bal c2 n y -> bal false (S n) (N d false x a k y).
Proof. destruct d; cbn [N]; econstructor; eauto. Qed.

Lemma bal_N_inv d c0 c n x a k y :
  bal c0 n (N d c x a k y) ->
  c0 = c /\ (c = true /\ bal false n x /\ bal false n y \/
             c = false /\ exists m c1 c2, n = S m /\ bal c1 m x /\ bal c2 m y).
Proof.
  intros H. destruct d; cbn [N] in H; inversion H; subst; (split; [done|]);
    [left|right|left|right]; split; try done; eauto 6.
Qed.

Lemma hole_plug c n ctx t : hole c n ctx -> bal c n t -> exists m, bal false m (plug ctx t).
Proof.
  intros H. revert t. induction H as [n|n f ctx Hc Ho H IH|n c c' f ctx Hc Ho H IH]; intros t Ht; cbn [plug]; [by exists n| |];
    apply IH; unfold plug1; rewrite Hc; [by apply bal_R_N|by eapply bal_B_N].
Qed.

Lemma plug_hole m ctx : forall t, bal false m (plug ctx t) -> exists c n, bal c n t /\ hole c n ctx.
Proof.
  induction ctx as [|f ctx IH]; intros t H; cbn [plug] in H.
  - exists false, m. split; [done|constructor].
  - destruct (IH _ H) as (c & n & Hb & Hh). unfold plug1 in Hb.
    apply bal_N_inv in Hb as [-> [(Hc & H1 & H2)|(Hc & n' & c1 & c2 & -> & H1 & H2)]]; rewrite Hc in Hh.
    + exists false, n. split; [done|]. by apply hole_R.
    + exists c1, n'. split; [done|]. by eapply hole_B.
Qed.

Lemma bal_color c n t : bal c n t -> c = color t.
Proof. by intros []. Qed.

Lemma hole_weaken n ctx : hole true n ctx -> hole false n ctx.
Proof. intros H. inversion H; subst. eapply hole_B; eauto. Qed.

(** ** Keys in order *)

Fixpoint before (ctx : list frame) : list (Z * Z) :=
  match ctx with
  | [] => []
  | f :: ctx' =>
      match f_side f with
      | Lft => before ctx'
      | Rgt => before ctx' ++ entries (f_other f) ++ [(f_key f, f_addr f)]
      end
  end.

Fixpoint after (ctx : list frame) : list (Z * Z) :=
  match ctx with
  | [] => []
  | f :: ctx' =>
      match f_side f with
      | Lft => (f_key f, f_addr f) :: entries (f_other f) ++ after ctx'
      | Rgt => after ctx'
      end
  end.

Lemma entries_plug ctx t : entries (plug ctx t) = before ctx ++ entries t ++ after ctx.
Proof.
  revert t. induction ctx as [|f ctx IH]; intros t; cbn [plug before after]; [by rewrite app_nil_r|].
  rewrite IH. unfold plug1. destruct (f_side f); cbn [N entries]; by rewrite <-?app_assoc.
Qed.

Lemma entries_rotate d c x a k c2 m b k2 y c' c2' :
  entries (N d c x a k (N d c2 m b k2 y)) = entries (N d c2' (N d c' x a k m) b k2 y).
Proof. destruct d; cbn [N entries]; by rewrite <-?app_assoc. Qed.

Lemma entries_N d c c' x x' a k y y' :
  entries x = entries x' -> entries y = entries y' -> entries (N d c x a k y) = entries (N d c' x' a k y').
Proof. intros H1 H2. destruct d; cbn [N entries]; by rewrite H1, H2. Qed.

Lemma entries_plug_eq ctx t t' : entries t = entries t' -> entries (plug ctx t) = entries (plug ctx t').
Proof. intros H. by rewrite !entries_plug, H. Qed.

Lemma N_opp d c x a k y : N d c x a k y = N (opp d) c y a k x.
Proof. by destruct d. Qed.

Lemma opp_opp d : opp (opp d) = d.
Proof. by destruct d. Qed.

(** ** The loop *)

Definition insert_side (d : side) (n p g : rbnode) (node : Z) (t : rbtree) : option (Z * rbtree) :=
  let temp := child (opp d) g in
  red ← ngx_rbt_is_red temp t;
  if red : bool then
    t ← ngx_rbt_black (n_parent n) t;
    t ← ngx_rbt_black temp t;
    t ← ngx_rbt_red (n_parent p) t;
    Some (n_parent p, t)
  else
    '(node, t) ← (if node =? child (opp d) p then
                    t ← rotate d (n_parent n) t; Some (n_parent n, t)
                  else Some (node, t));
    n ← get node t;
    t ← ngx_rbt_black (n_parent n) t;
    p ← get (n_parent n) t;
    t ← ngx_rbt_red (n_parent p) t;
    t ← rotate (opp d) (n_parent p) t;
    Some (node, t).

Lemma insert_turn_side node t :
  insert_turn node t =
    n ← get node t;
    p ← get (n_parent n) t;
    g ← get (n_parent p) t;
    insert_side (if n_parent n =? n_left g then Lft else Rgt) n p g node t.
Proof.
  unfold insert_turn. destruct (get node t) as [n|]; [|done]. cbn [mbind option_bind].
  destruct (get (n_parent n) t) as [p|]; [|done]. cbn [mbind option_bind].
  destruct (get (n_parent p) t) as [g|]; [|done]. cbn [mbind option_bind].
  by destruct (n_parent n =? n_left g).
Qed.

Definition whole (ctx : list frame) (tr : rtree) : list Z := ctx_addrs ctx ++ addrs tr.

Lemma whole_plug1 f ctx tr : whole (f :: ctx) tr ≡ₚ whole ctx (plug1 f tr).
Proof. unfold whole, plug1. rewrite addrs_N. cbn [ctx_addrs]. solve_Permutation. Qed.

Lemma addrs_entries t : addrs t = map snd (entries t).
Proof. induction t as [|c l IHl a k r IHr]; [done|]. cbn [addrs entries]. by rewrite map_app, IHl, IHr. Qed.

Lemma whole_entries ctx t t' : entries t = entries t' -> whole ctx t = whole ctx t'.
Proof. intros H. unfold whole. by rewrite !addrs_entries, H. Qed.

Lemma rep_plug t p0 ctx tr : rep t p0 ctx tr <-> rep t p0 [] (plug ctx tr).
Proof. revert tr. induction ctx as [|f ctx IH]; intros tr; [done|]. rewrite rep_plug1. apply IH. Qed.

(** Below the root there is no root. *)
Lemma not_root t p0 f ctx tr : rep t p0 (f :: ctx) tr -> tr <> E -> ptr (rb_sentinel t) tr <> rb_root t.
Proof.
  intros H Htr. rewrite (rep_root _ _ _ _ H). intros Eq. pose proof (ptr_plug1_in (rb_sentinel t) f ctx tr) as Hin.
  rewrite <-Eq in Hin. pose proof (rep_nodup _ _ _ _ H) as Hnd. apply NoDup_cons in Hnd as [_ Hnd].
  apply NoDup_app in Hnd as (_ & Hnd & _). apply (Hnd _ Hin). destruct tr; [done|]. cbn [addrs ptr]. set_solver +.
Qed.

(** The last rotation: the parent takes the place of the grandparent. *)
Lemma insert_lift d t p0 ctx X p kp sib g kg u :
  X <> E -> rep t p0 ctx (N d false (N d true X p kp sib) g kg u) ->
  exists t', (n ← get (ptr (rb_sentinel t) X) t;
     t ← ngx_rbt_black (n_parent n) t;
     p ← get (n_parent n) t;
     t ← ngx_rbt_red (n_parent p) t;
     rotate (opp d) (n_parent p) t) = Some t' /\
    rep t' p0 ctx (N d false X p kp (N d true sib g kg u)) /\
    alters (whole ctx (N d false (N d true X p kp sib) g kg u)) t t'.
Proof.
  intros HX H. set (fg := mk_frame d false g kg u). set (fp := mk_frame d true p kp sib).
  assert (H1 : rep t p0 (fp :: fg :: ctx) X) by (by apply rep_plug1, rep_plug1).
  assert (Hx : exists n, get (ptr (rb_sentinel t) X) t = Some n /\ n_parent n = p).
  { destruct X as [|c l a k r]; [done|]. exists (mk_node k (ptr (rb_sentinel t) l) (ptr (rb_sentinel t) r) p c).
    split; [|done]. apply (rep_get t p0 (fp :: fg :: ctx) Lft c l a k r H1). }
  destruct Hx as (n & -> & Hp). cbn [mbind option_bind]. rewrite Hp.
  destruct (put_color d t p0 (fg :: ctx) true false X p kp sib) as (t1 & E1 & H2 & Ha1); [by apply rep_plug1|].
  unfold ngx_rbt_black. rewrite E1. cbn [mbind option_bind].
  rewrite (rep_get t1 p0 (fg :: ctx) d false X p kp sib H2). cbn [mbind option_bind].
  rewrite (proj1 (proj2 (side_fields _ _ _ _ _ _))). cbn [par_of fg f_addr].
  destruct (put_color d t1 p0 ctx false true (N d false X p kp sib) g kg u) as (t2 & E2 & H3 & Ha2).
  { by apply rep_plug1 in H2. }
  unfold ngx_rbt_red. rewrite E2. cbn [mbind option_bind].
  rewrite (N_opp d true), (N_opp d false) in H3.
  destruct (rotate_rep (opp d) t2 p0 ctx true u g kg false sib p kp X H3) as (t3 & -> & H4 & Ha3).
  exists t3. split; [done|]. rewrite (N_opp (opp d) true), (N_opp (opp d) false), opp_opp in H4. split; [exact H4|].
  assert (HA : forall c1 c2, whole ctx (N d c1 (N d c2 X p kp sib) g kg u) ≡ₚ whole ctx (N d false (N d true X p kp sib) g kg u)).
  { intros c1 c2. unfold whole. by rewrite !addrs_N. }
  eapply alters_trans; [|eapply alters_trans].
  - eapply alters_perm; [|exact Ha1]. change (whole (fg :: ctx) (N d true X p kp sib) ≡ₚ whole ctx (N d false (N d true X p kp sib) g kg u)).
    by rewrite whole_plug1.
  - eapply alters_perm; [|exact Ha2]. apply HA.
  - eapply alters_perm; [|exact Ha3]. rewrite <-(N_opp d false), <-(N_opp d true). apply HA.
Qed.

(** *** One turn

    The node is red, its parent [f] too, its grandparent [g] is black. *)

Lemma turn_reads t p0 f g ctx X :
  X <> E -> rep t p0 (f :: g :: ctx) X ->
  exists n p gn,
    get (ptr (rb_sentinel t) X) t = Some n /\ n_parent n = f_addr f /\
    get (f_addr f) t = Some p /\ n_parent p = f_addr g /\
    p = mk_side (f_side f) (f_key f) (ptr (rb_sentinel t) X) (ptr (rb_sentinel t) (f_other f)) (f_addr g) (f_color f) /\
    get (f_addr g) t = Some gn /\
    gn = mk_side (f_side g) (f_key g) (f_addr f) (ptr (rb_sentinel t) (f_other g)) (par_of p0 ctx) (f_color g).
Proof.
  intros HX H. destruct X as [|c l a k r]; [done|].
  pose proof (rep_get t p0 (f :: g :: ctx) Lft c l a k r H) as H1.
  pose proof (rep_get_parent t p0 f (g :: ctx) _ H) as H2. apply rep_plug1 in H.
  pose proof (rep_get_parent t p0 g ctx _ H) as H3. unfold plug1 in H3. rewrite ptr_N in H3.
  eexists _, _, _. split; [exact H1|]. split; [done|]. split; [exact H2|]. split; [by destruct (f_side f)|].
  split; [done|]. split; [exact H3|done].
Qed.

Lemma frame_ne t p0 f ctx X : rep t p0 (f :: ctx) X -> X <> E -> ptr (rb_sentinel t) X <> ptr (rb_sentinel t) (f_other f).
Proof.
  intros [_ _ _ H _] HX. destruct X as [|c l a k r]; [done|]. cbn [ctx_addrs addrs ptr] in *.
  cbn [app] in H. nodup_facts H. apply ptr_ne; [|]; intros E; [subst|]; set_solver.
Qed.

(** The uncle is red. *)
Lemma turn_recolor t p0 ctx d X p kp sib dg g kg ul ua uk ur (A := whole ctx (N dg false (N d true X p kp sib) g kg (T true ul ua uk ur))) :
  rep t p0 ctx (N dg false (N d true X p kp sib) g kg (T true ul ua uk ur)) ->
  exists t', (t ← ngx_rbt_black p t; t ← ngx_rbt_black ua t; ngx_rbt_red g t) = Some t' /\
    rep t' p0 ctx (N dg true (N d false X p kp sib) g kg (T false ul ua uk ur)) /\ alters A t t'.
Proof.
  intros H. set (fg := fun o => mk_frame dg false g kg o). set (fu := fun o => mk_frame (opp dg) false g kg o).
  destruct (put_color d t p0 (fg (T true ul ua uk ur) :: ctx) true false X p kp sib) as (t1 & E1 & H1 & Ha1); [by apply rep_plug1|].
  unfold ngx_rbt_black, ngx_rbt_red. rewrite E1. cbn [mbind option_bind]. apply rep_plug1 in H1. unfold plug1 in H1. cbn [fg f_side f_color f_addr f_key f_other] in H1.
  rewrite (N_opp dg) in H1.
  destruct (put_color Lft t1 p0 (fu (N d false X p kp sib) :: ctx) true false ul ua uk ur) as (t2 & E2 & H2 & Ha2); [by apply rep_plug1|].
  rewrite E2. cbn [mbind option_bind]. apply rep_plug1 in H2. unfold plug1 in H2. cbn [fu f_side f_color f_addr f_key f_other] in H2.
  rewrite <-(N_opp dg) in H2.
  destruct (put_color dg t2 p0 ctx false true _ g kg _ H2) as (t3 & E3 & H3 & Ha3). exists t3. split; [exact E3|]. split; [exact H3|].
  unfold A. eapply alters_trans; [|eapply alters_trans].
  - eapply alters_perm; [|exact Ha1]. change (whole (fg (T true ul ua uk ur) :: ctx) (N d true X p kp sib) ≡ₚ A). by rewrite whole_plug1.
  - eapply alters_perm; [|exact Ha2]. change (whole (fu (N d false X p kp sib) :: ctx) (T true ul ua uk ur) ≡ₚ A).
    unfold A, whole. cbn [ctx_addrs fu f_addr f_other]. rewrite !addrs_N; cbn [addrs]; solve_Permutation.
  - eapply alters_perm; [|exact Ha3]. unfold A, whole. rewrite !addrs_N; cbn [addrs]; solve_Permutation.
Qed.

(** The node is the inner grandchild. *)
Lemma turn_inner t p0 ctx d c x1 a k x2 p kp sib g kg u
    (A := whole ctx (N d false (N (opp d) true (N d c x1 a k x2) p kp sib) g kg u)) :
  rep t p0 ctx (N d false (N (opp d) true (N d c x1 a k x2) p kp sib) g kg u) ->
  exists t', rotate d p t = Some t' /\ rep t' p0 ctx (N d false (N d c (N d true sib p kp x1) a k x2) g kg u) /\ alters A t t'.
Proof.
  intros H. rewrite <-(N_opp d true) in H. set (fg := mk_frame d false g kg u).
  assert (H1 : rep t p0 (fg :: ctx) (N d true sib p kp (N d c x1 a k x2))) by by apply rep_plug1.
  destruct (rotate_rep d t p0 (fg :: ctx) true sib p kp c x1 a k x2 H1) as (t1 & E1 & H2 & Ha1).
  exists t1. split; [exact E1|]. split; [by apply rep_plug1 in H2|]. eapply alters_perm; [|exact Ha1].
  change (whole (fg :: ctx) (N d true sib p kp (N d c x1 a k x2)) ≡ₚ A). rewrite whole_plug1. unfold A.
  rewrite <-(N_opp d true). done.
Qed.

Lemma side_cases (d e : side) : d = e \/ d = opp e.
Proof. destruct d, e; auto. Qed.

(** What one turn leaves: a red node two levels up, or a red node below a black
    parent. *)
Definition turned (n : nat) (ctx : list frame) (keys : list (Z * Z)) (p0 : Z) (node : Z) (t : rbtree) : Prop :=
  (exists l a k r, rep t p0 ctx (T true l a k r) /\ bal true (S n) (T true l a k r) /\ node = a /\
     entries (T true l a k r) = keys) \/
  (exists f l a k r, rep t p0 (f :: ctx) (T true l a k r) /\ f_color f = false /\
     bal false (S n) (plug1 f (T true l a k r)) /\ node = a /\ entries (plug1 f (T true l a k r)) = keys).

Lemma N_T d c x a k y : exists l r, N d c x a k y = T c l a k r.
Proof. destruct d; eauto. Qed.

Lemma N_x d c l a k r :
  exists x1 x2, T c l a k r = N d c x1 a k x2 /\ (forall P : rtree -> Prop, P l -> P r -> P x1 /\ P x2).
Proof. destruct d; [exists l, r|exists r, l]; auto. Qed.

(** The rotations of one turn. *)
Lemma turn_rotate t p0 ctx n d d' p kp sib g kg u x1 a k x2
    (X := N d true x1 a k x2) (A := whole ctx (N d false (N d' true X p kp sib) g kg u)) :
  rep t p0 ctx (N d false (N d' true X p kp sib) g kg u) ->
  bal false n x1 -> bal false n x2 -> bal false n sib -> bal false n u ->
  exists node t',
    ('(node, t) ← (if a =? child (opp d) (mk_side d' kp a (ptr (rb_sentinel t) sib) g true) then
                     t ← rotate d p t; Some (p, t) else Some (a, t));
     n ← get node t;
     t ← ngx_rbt_black (n_parent n) t;
     p ← get (n_parent n) t;
     t ← ngx_rbt_red (n_parent p) t;
     t ← rotate (opp d) (n_parent p) t;
     Some (node, t)) = Some (node, t') /\ alters A t t' /\
    turned n ctx (entries (N d false (N d' true X p kp sib) g kg u)) p0 node t'.
Proof.
  intros H Hx1 Hx2 Hsib Hu. set (fg := mk_frame d false g kg u). set (fp := mk_frame d' true p kp sib).
  assert (Hfp : rep t p0 (fp :: fg :: ctx) X) by by apply rep_plug1, rep_plug1.
  assert (Hne : a <> ptr (rb_sentinel t) sib).
  { replace a with (ptr (rb_sentinel t) X) by apply ptr_N. apply (frame_ne t p0 fp (fg :: ctx) X Hfp). unfold X. by destruct d. }
  destruct (side_cases d' d) as [-> | ->].
  - rewrite (proj2 (child_side d kp a (ptr (rb_sentinel t) sib) g true)), (proj2 (Z.eqb_neq _ _) Hne). cbn [mbind option_bind].
    destruct (insert_lift d t p0 ctx X p kp sib g kg u) as (t' & E & H' & Ha); [unfold X; by destruct d|done|].
    exists a, t'. split; [|split; [exact Ha|]].
    + unfold X in E at 1. rewrite ptr_N in E. destruct (get a t) as [n0|]; [|done]. cbn [mbind option_bind] in E |- *.
      destruct (ngx_rbt_black (n_parent n0) t) as [t1|]; [|done]. cbn [mbind option_bind] in E |- *.
      destruct (get (n_parent n0) t1) as [n1|]; [|done]. cbn [mbind option_bind] in E |- *.
      destruct (ngx_rbt_red (n_parent n1) t1) as [t2|]; [|done]. cbn [mbind option_bind] in E |- *. by rewrite E.
    + right. destruct (N_T d true x1 a k x2) as (l & r & Hlr).
      exists (mk_frame d false p kp (N d true sib g kg u)), l, a, k, r. rewrite <-Hlr.
      split; [by apply rep_plug1|]. split; [done|].
      split; [unfold plug1; cbn [f_side f_color f_addr f_key f_other]; eapply bal_B_N; by apply bal_R_N|]. split; [done|].
      unfold plug1, X. cbn [f_side f_color f_addr f_key f_other]. destruct d; cbn [N entries]; by rewrite <-?app_assoc.
  - rewrite (proj1 (child_side (opp d) kp a (ptr (rb_sentinel t) sib) g true)), Z.eqb_refl.
    destruct (turn_inner t p0 ctx d true x1 a k x2 p kp sib g kg u H) as (t1 & -> & H1 & Ha1). cbn [mbind option_bind].
    destruct (insert_lift d t1 p0 ctx (N d true sib p kp x1) a k x2 g kg u) as (t' & E & H' & Ha); [by destruct d|done|].
    exists p, t'. split; [|split].
    + rewrite ptr_N in E. destruct (get p t1) as [n0|]; [|done]. cbn [mbind option_bind] in E |- *.
      destruct (ngx_rbt_black (n_parent n0) t1) as [t2|]; [|done]. cbn [mbind option_bind] in E |- *.
      destruct (get (n_parent n0) t2) as [n1|]; [|done]. cbn [mbind option_bind] in E |- *.
      destruct (ngx_rbt_red (n_parent n1) t2) as [t3|]; [|done]. cbn [mbind option_bind] in E |- *. by rewrite E.
    + eapply alters_trans; [exact Ha1|]. eapply alters_perm; [|exact Ha]. unfold A, whole, X. rewrite !addrs_N. solve_Permutation.
    + right. destruct (N_T d true sib p kp x1) as (l & r & Hlr).
      exists (mk_frame d false a k (N d true x2 g kg u)), l, p, kp, r. rewrite <-Hlr.
      split; [by apply rep_plug1|]. split; [done|].
      split; [unfold plug1; cbn [f_side f_color f_addr f_key f_other]; eapply bal_B_N; by apply bal_R_N|]. split; [done|].
      unfold plug1, X. cbn [f_side f_color f_addr f_key f_other]. destruct d; cbn [N opp entries]; repeat (rewrite <-?app_assoc; cbn [app]); done.
Qed.

Lemma insert_turn_rep t p0 f g ctx n l a k r cu :
  rep t p0 (f :: g :: ctx) (T true l a k r) -> bal true n (T true l a k r) ->
  f_color f = true -> f_color g = false -> bal false n (f_other f) -> bal cu n (f_other g) ->
  exists node t', insert_turn a t = Some (node, t') /\ alters (whole (f :: g :: ctx) (T true l a k r)) t t' /\
    turned n ctx (entries (plug1 g (plug1 f (T true l a k r)))) p0 node t'.
Proof.
  intros H HX Hf Hg Hof Hog. destruct f as [df cf p kp sib], g as [dg cg g kg u]. cbn [f_color f_other] in *. subst cf cg.
  destruct (turn_reads t p0 _ _ ctx (T true l a k r) ltac:(done) H) as (nn & pn & gn & E1 & Hp1 & E2 & Hp2 & Epn & E3 & Egn).
  cbn [f_side f_color f_addr f_key f_other ptr] in *. rewrite insert_turn_side, E1. cbn [mbind option_bind].
  rewrite Hp1, E2. cbn [mbind option_bind]. rewrite Hp2, E3. cbn [mbind option_bind].
  assert (H' : rep t p0 ctx (N dg false (N df true (T true l a k r) p kp sib) g kg u)) by (rewrite !rep_plug1 in H; exact H).
  assert (Hside : (if p =? n_left gn then Lft else Rgt) = dg).
  { assert (Hne : p <> ptr (rb_sentinel t) u).
    { pose proof (frame_ne t p0 (mk_frame dg false g kg u) ctx (N df true (T true l a k r) p kp sib)) as Hn. rewrite ptr_N in Hn.
      apply Hn; [by apply rep_plug1|by destruct df]. }
    rewrite Egn. destruct dg; cbn; [by rewrite Z.eqb_refl|by rewrite (proj2 (Z.eqb_neq _ _) Hne)]. }
  rewrite Hside. unfold insert_side. rewrite Egn, (proj2 (child_side _ _ _ _ _ _)).
  assert (HA : whole (mk_frame df true p kp sib :: mk_frame dg false g kg u :: ctx) (T true l a k r) ≡ₚ
    whole ctx (N dg false (N df true (T true l a k r) p kp sib) g kg u)) by (by rewrite !whole_plug1).
  assert (Hu : exists nu, get (ptr (rb_sentinel t) u) t = Some nu /\ n_color nu = color u).
  { rewrite N_opp in H'. apply (rep_color t p0 (mk_frame (opp dg) false g kg (N df true (T true l a k r) p kp sib) :: ctx) u).
    by apply rep_plug1. }
  destruct Hu as (nu & Eu & Hcu). unfold ngx_rbt_is_red. rewrite Eu. cbn [mbind option_bind]. rewrite Hcu.
  destruct (color u) eqn:Ecu.
  - destruct u as [|cu' ul ua uk ur]; [done|]. cbn [color] in Ecu. subst cu'. assert (Hun := Hog). inversion Hun as [|n' ? ? ? ? Hul Hur Ec En|]. subst n'.
    destruct (turn_recolor t p0 ctx df (T true l a k r) p kp sib dg g kg ul ua uk ur H') as (t' & E & Hr & Ha).
    rewrite Hp1, Hp2. cbn [ptr]. exists g, t'. split; [|split; [eapply alters_perm; [symmetry; exact HA|exact Ha]|]].
    + destruct (ngx_rbt_black p t) as [t1|]; [|done]. cbn [mbind option_bind] in E |- *.
      destruct (ngx_rbt_black ua t1) as [t2|]; [|done]. cbn [mbind option_bind] in E |- *. by rewrite E.
    + left. destruct (N_T dg true (N df false (T true l a k r) p kp sib) g kg (T false ul ua uk ur)) as (l' & r' & Hlr).
      exists l', g, kg, r'. rewrite <-Hlr. split; [done|].
      split; [apply bal_R_N; [by eapply bal_B_N|by eapply bal_B]|]. split; [done|].
      unfold plug1. cbn [f_side f_color f_addr f_key f_other]. apply entries_N; [by apply entries_N|done].
  - assert (Hub : bal false n u) by (pose proof (bal_color _ _ _ Hog) as Ec; by rewrite Ecu in Ec; subst cu).
    rewrite Hp1, Epn. assert (Hlr : bal false n l /\ bal false n r) by (by inversion HX). destruct Hlr as [Hbl Hbr].
    destruct (N_x dg true l a k r) as (x1 & x2 & Hx & Hxb). rewrite Hx in H', HA |- *.
    destruct (turn_rotate t p0 ctx n dg df p kp sib g kg u x1 a k x2 H') as (node & t' & E & Ha & Ht);
      [by apply (Hxb (bal false n))..|done|done|].
    exists node, t'. split; [exact E|]. split; [eapply alters_perm; [symmetry; exact HA|exact Ha]|exact Ht].
Qed.

Lemma insert_loop_rep fuel : forall t p0 ctx l a k r n,
  rep t p0 ctx (T true l a k r) -> bal true n (T true l a k r) -> hole false n ctx -> (length ctx < fuel)%nat ->
  exists t' tr', insert_loop fuel a t = Some t' /\ rep t' p0 [] tr' /\ alters (whole ctx (T true l a k r)) t t' /\
    (exists c m, bal c m tr') /\ entries tr' = entries (plug ctx (T true l a k r)).
Proof.
  induction fuel as [|fuel IH]; intros t p0 ctx l a k r n H HX Hh Hfuel; [lia|]. cbn [insert_loop].
  destruct ctx as [|f ctx].
  { rewrite (rep_root _ _ _ _ H). cbn [plug ptr]. rewrite Z.eqb_refl. eexists t, _. split; [done|]. split; [exact H|].
    split; [done|]. split; [by exists true, n|done]. }
  rewrite (proj2 (Z.eqb_neq a (rb_root t))) by (by apply (not_root _ _ _ _ _ H)).
  rewrite (rep_get t p0 (f :: ctx) Lft true l a k r H). cbn [mbind option_bind].
  unfold ngx_rbt_is_red. cbn [mk_side n_parent par_of]. rewrite (rep_get_parent _ _ _ _ _ H). cbn [mbind option_bind].
  rewrite (proj2 (proj2 (side_fields _ _ _ _ _ _))). destruct (f_color f) eqn:Ef.
  - inversion Hh as [|? ? ? Hc Ho Hh'|? ? ? ? ? Hc]; [|congruence]. subst.
    inversion Hh' as [| |? ? cu g ctx' Hg Hog Hh'']. subst.
    destruct (insert_turn_rep t p0 f g ctx' n l a k r cu H HX Ef Hg Ho Hog) as (node & t1 & -> & Ha1 & Ht). cbn [mbind option_bind].
    assert (HA : whole (f :: g :: ctx') (T true l a k r) ≡ₚ whole ctx' (plug1 g (plug1 f (T true l a k r)))) by (by rewrite !whole_plug1).
    destruct Ht as [(l1 & a1 & k1 & r1 & H1 & Hb1 & -> & He1)|(f1 & l1 & a1 & k1 & r1 & H1 & Hf1 & Hb1 & -> & He1)].
    + destruct (IH t1 p0 ctx' l1 a1 k1 r1 (S n) H1 Hb1 Hh'') as (t' & tr' & E & H' & Ha & Hb & He); [cbn [length] in Hfuel; lia|].
      exists t', tr'. split; [exact E|]. split; [done|]. split; [|split; [done|]].
      * eapply alters_trans; [exact Ha1|]. eapply alters_perm; [|exact Ha]. by rewrite HA, (whole_entries ctx' _ _ He1).
      * rewrite He. cbn [plug]. by apply entries_plug_eq.
    + unfold plug1 in Hb1. rewrite Hf1 in Hb1. apply bal_N_inv in Hb1 as [_ [(? & _)|(_ & m & c1 & c2 & [= <-] & Hbx & Hbo)]]; [done|].
      assert (Ec : c1 = true) by (apply bal_color in Hbx; done). subst c1.
      destruct (IH t1 p0 (f1 :: ctx') l1 a1 k1 r1 n H1 Hbx) as (t' & tr' & E & H' & Ha & Hb & He);
        [by eapply hole_B|cbn [length] in *; lia|].
      exists t', tr'. split; [exact E|]. split; [done|]. split; [|split; [done|]].
      * eapply alters_trans; [exact Ha1|]. eapply alters_perm; [|exact Ha]. by rewrite HA, whole_plug1, (whole_entries ctx' _ _ He1).
      * rewrite He. cbn [plug]. by apply entries_plug_eq.
  - exists t, (plug (f :: ctx) (T true l a k r)). split; [done|]. split; [by apply (proj1 (rep_plug t p0 (f :: ctx) _))|]. split; [done|]. split; [|done].
    destruct (hole_plug true n (f :: ctx) (T true l a k r)) as (m & Hm); [|done|by exists false, m].
    inversion Hh; subst; [congruence|]. by eapply hole_B.
Qed.

(** ** The callback *)

(** As many nodes in memory as in the tree. *)
Lemma tree_at_dom s h par tr x : tree_at s h par tr -> x ∈ addrs tr -> is_Some (h !! x).
Proof.
  revert par. induction tr as [|c l IHl a k r IHr]; intros par H Hx; cbn [addrs tree_at] in *; [set_solver|].
  destruct H as (Ha & Hl & Hr). apply elem_of_app in Hx as [Hx|Hx]; [by eapply IHl|].
  apply elem_of_cons in Hx as [-> | Hx]; [by eexists|by eapply IHr].
Qed.

Lemma nodes_enough t p0 ctx tr : rep t p0 ctx tr -> (length (whole ctx tr) < rb_fuel t)%nat.
Proof.
  intros H. assert (H0 : rep t p0 [] (plug ctx tr)) by (by apply (rep_plug t p0 ctx tr)).
  assert (Hl : length (whole ctx tr) = length (addrs (plug ctx tr))) by (unfold whole; by rewrite addrs_plug).
  rewrite Hl. unfold rb_fuel. destruct H0 as [_ _ Ht Hnd _]. cbn [ctx_addrs app] in Hnd. apply NoDup_cons in Hnd as [_ Hnd].
  rewrite <-size_dom. rewrite <-(size_list_to_set (C := gset Z) (addrs (plug ctx tr)) Hnd).
  apply Nat.lt_succ_r, subseteq_size. intros x Hx. apply elem_of_list_to_set in Hx. apply elem_of_dom.
  by eapply tree_at_dom.
Qed.

Lemma ctx_length ctx : (length ctx <= length (ctx_addrs ctx))%nat.
Proof. induction ctx as [|f ctx IH]; [done|]. cbn [ctx_addrs length]. rewrite length_app. lia. Qed.

Fixpoint depth (t : rtree) : nat :=
  match t with E => 0 | T _ l _ _ r => S (Nat.max (depth l) (depth r)) end.

Lemma depth_addrs t : (depth t <= length (addrs t))%nat.
Proof. induction t as [|c l IHl a k r IHr]; cbn [depth addrs]; [lia|]. rewrite length_app. cbn [length]. lia. Qed.

Section Callback.
Variable lefts : Z * Z -> bool.

(** Down from a position to a missing child, to the left of the entries that say
    so. *)
Fixpoint descend (ctx : list frame) (t : rtree) : list frame :=
  match t with
  | E => ctx
  | T c l a k r =>
      if lefts (k, a) then descend (mk_frame Lft c a k r :: ctx) l
      else descend (mk_frame Rgt c a k l :: ctx) r
  end.

Lemma descend_plug ctx t : plug (descend ctx t) E = plug ctx t.
Proof.
  revert ctx. induction t as [|c l IHl a k r IHr]; intros ctx; [done|]. cbn [descend].
  destruct (lefts (k, a)); [rewrite IHl|rewrite IHr]; done.
Qed.

(** What the comparison of a callback says of the entries. *)
Definition compares (less : Z -> rbnode -> option bool) (es : list (Z * Z)) : Prop :=
  forall k a x, (k, a) ∈ es -> n_key x = k -> less a x = Some (lefts (k, a)).

Lemma insert_down_rep fuel less : forall t p0 ctx c l a k r,
  rep t p0 ctx (T c l a k r) -> compares less (entries (T c l a k r)) -> (depth (T c l a k r) <= fuel)%nat ->
  exists f ctx', descend ctx (T c l a k r) = f :: ctx' /\
    insert_down fuel less a t = Some (f_addr f, if f_side f is Lft then true else false).
Proof.
  induction fuel as [|fuel IH]; intros t p0 ctx c l a k r H Hc Hf; cbn [depth] in Hf; [lia|].
  cbn [insert_down descend]. rewrite (rep_get t p0 ctx Lft c l a k r H). cbn [mbind option_bind].
  cbn [entries] in Hc. rewrite (Hc k a) by (done || set_solver +). cbn [mbind option_bind mk_side n_left n_right].
  assert (Hnd := rep_nodup _ _ _ _ H). cbn [addrs] in Hnd. apply NoDup_cons in Hnd as [Hs _].
  assert (Hptr : forall tr, (forall z, z ∈ addrs tr -> z ∈ addrs l ++ a :: addrs r) -> tr <> E ->
    (ptr (rb_sentinel t) tr =? rb_sentinel t) = false).
  { intros tr Htr He. apply Z.eqb_neq. destruct tr as [|c' l' a' k' r']; [done|]. cbn [ptr]. intros ->.
    specialize (Htr (rb_sentinel t)). cbn [addrs] in Htr. set_solver. }
  destruct (lefts (k, a)).
  - destruct l as [|c' l' a' k' r'].
    + cbn [ptr]. rewrite Z.eqb_refl. eexists _, _. done.
    + rewrite Hptr by (done || set_solver +). cbn [ptr].
      apply (IH t p0 _ c' l' a' k' r'); [by apply rep_plug1| |cbn [depth] in *; lia].
      intros k1 a1 x Hin. apply Hc. set_solver + Hin.
  - destruct r as [|c' l' a' k' r'].
    + cbn [ptr]. rewrite Z.eqb_refl. eexists _, _. done.
    + rewrite Hptr by (done || set_solver +). cbn [ptr].
      apply (IH t p0 _ c' l' a' k' r'); [by apply rep_plug1| |cbn [depth] in *; lia].
      intros k1 a1 x Hin. apply Hc. set_solver + Hin.
Qed.

(** The node becomes a red leaf. *)
Lemma attach_rep t p0 f ctx node n :
  rep t p0 (f :: ctx) E -> get node t = Some n -> node ∉ rb_sentinel t :: whole (f :: ctx) E ->
  exists t', (t ← put (f_addr f) (if f_side f is Lft then set_left node else set_right node) t;
      t ← put node (set_parent (f_addr f)) t;
      t ← put node (set_left (rb_sentinel t)) t;
      t ← put node (set_right (rb_sentinel t)) t;
      ngx_rbt_red node t) = Some t' /\
    rep t' p0 (f :: ctx) (T true E node (n_key n) E) /\ alters (node :: whole (f :: ctx) E) t t'.
Proof.
  intros H Hn Hnode. assert (Hp := rep_get_parent _ _ _ _ _ H). cbn [ptr] in Hp.
  unfold whole in Hnode. cbn [ctx_addrs addrs] in Hnode. rewrite app_nil_r in Hnode.
  rewrite (put_upd _ _ _ _ Hp). cbn [mbind option_bind]. set (t1 := upd (f_addr f) _ t).
  assert (Hn1 : get node t1 = Some n) by (unfold t1; rewrite get_upd_ne by set_solver + Hnode; done).
  rewrite (put_upd _ _ _ _ Hn1). cbn [mbind option_bind].
  rewrite (put_upd _ _ _ _ (get_upd_eq _ _ _)). cbn [mbind option_bind].
  rewrite (put_upd _ _ _ _ (get_upd_eq _ _ _)). cbn [mbind option_bind].
  unfold ngx_rbt_red. rewrite (put_upd _ _ _ _ (get_upd_eq _ _ _)). eexists. split; [done|].
  set (t' := upd node _ _).
  assert (Ha : alters [node; f_addr f] t t').
  { unfold t'. repeat (eapply alters_trans; [|apply alters_upd; set_solver +]). apply alters_refl. }
  split.
  2: { eapply alters_sub; [exact Ha|]. unfold whole. cbn [ctx_addrs]. set_solver +. }
  destruct H as [H1 (H2 & H3 & H4) H5 H6 (ns & Hns & Hb)]. cbn [ctx_addrs addrs] in H6. rewrite app_nil_r in H6.
  assert (Hnd := H6). nodup_facts Hnd.
  constructor; change (rb_sentinel t') with (rb_sentinel t).
  - change (rb_root t') with (rb_root t). rewrite H1. apply ptr_plug1.
  - cbn [ctx_at ptr]. split; [|split].
    + change (get (f_addr f) t' = Some (mk_side (f_side f) (f_key f) node (ptr (rb_sentinel t) (f_other f)) (par_of p0 ctx) (f_color f))).
      unfold t'. rewrite !get_upd_ne by (intros Eq; subst; set_solver + Hnode). unfold t1. rewrite get_upd_eq. by destruct (f_side f).
    + eapply tree_at_alters; [exact H3|exact Ha|]. intros z Hz. set_solver + Hz Hnode Hnd1.
    + eapply ctx_at_alters; [exact H4|exact Ha|]. intros z Hz. set_solver + Hz Hnode Hnd1.
  - cbn [tree_at par_of]. split; [|done]. change (get node t' = Some (mk_node (n_key n) (rb_sentinel t) (rb_sentinel t) (f_addr f) true)).
    unfold t'. by rewrite get_upd_eq.
  - assert (HP : rb_sentinel t :: ctx_addrs (f :: ctx) ++ addrs (T true E node (n_key n) E) ≡ₚ
      node :: rb_sentinel t :: f_addr f :: addrs (f_other f) ++ ctx_addrs ctx) by (cbn [ctx_addrs addrs app]; solve_Permutation).
    rewrite HP. by apply NoDup_cons.
  - exists ns. split; [|done]. eapply get_alters; [exact Hns|exact Ha|]. set_solver + Hnode Hnd0.
Qed.

End Callback.

(** A balanced tree in memory, with its keys and nodes from left to right. *)
Definition tree_of (t : rbtree) (es : list (Z * Z)) : Prop :=
  exists p0 tr m, rep t p0 [] tr /\ bal false m tr /\ entries tr = es.

Lemma blacken t p0 c m l a k r c0 :
  rep t p0 [] (T c0 l a k r) -> bal c m (T c0 l a k r) ->
  exists t' m', ngx_rbt_black (rb_root t) t = Some t' /\ rep t' p0 [] (T false l a k r) /\ bal false m' (T false l a k r) /\
    alters (addrs (T c0 l a k r)) t t'.
Proof.
  intros H Hb. rewrite (rep_root _ _ _ _ H). cbn [plug ptr].
  destruct (put_color Lft t p0 [] c0 false l a k r H) as (t' & E & H' & Ha). cbn [N ctx_addrs app] in *.
  inversion Hb; subst; eexists t', _; (split; [exact E|]); (split; [exact H'|]); (split; [|exact Ha]); by eapply bal_B.
Qed.

(** Into the empty tree. *)
Lemma insert_first insert t p0 node n :
  rep t p0 [] E -> get node t = Some n -> node <> rb_sentinel t ->
  exists t', ngx_rbtree_insert insert node t = Some t' /\ rep t' 0 [] (T false E node (n_key n) E) /\ alters [node] t t'.
Proof.
  intros H Hn Hns. unfold ngx_rbtree_insert. rewrite (rep_root _ _ _ _ H). cbn [plug ptr]. rewrite Z.eqb_refl.
  rewrite (put_upd _ _ _ _ Hn). cbn [mbind option_bind]. do 2 (rewrite (put_upd _ _ _ _ (get_upd_eq _ _ _)); cbn [mbind option_bind]).
  unfold ngx_rbt_black. rewrite (put_upd _ _ _ _ (get_upd_eq _ _ _)). cbn [mbind option_bind]. eexists. split; [done|].
  set (t' := set_root node _).
  assert (Ha : alters [node] t t').
  { unfold t'. eapply alters_trans; [|apply alters_root]. repeat (eapply alters_trans; [|apply alters_upd; set_solver +]). apply alters_refl. }
  split; [|exact Ha].
  destruct H as [_ _ _ _ (ns & Hsn & Hsb)]. constructor; change (rb_sentinel t') with (rb_sentinel t); try done.
  - cbn [tree_at par_of]. split; [|done]. change (get node t' = Some (mk_node (n_key n) (rb_sentinel t) (rb_sentinel t) 0 false)).
    unfold t'. change (get node (set_root node ?x)) with (get node x). by rewrite get_upd_eq.
  - cbn [ctx_addrs addrs app]. apply NoDup_cons. split; [set_solver + Hns|apply NoDup_singleton].
  - exists ns. split; [|done]. eapply get_alters; [exact Hsn|exact Ha|set_solver + Hns].
Qed.

Lemma insert_with_rep lefts less t p0 c l a k r node n :
  rep t p0 [] (T c l a k r) -> compares lefts less (entries (T c l a k r)) ->
  get node t = Some n -> node ∉ rb_sentinel t :: addrs (T c l a k r) ->
  exists t' f ctx, descend lefts [] (T c l a k r) = f :: ctx /\ insert_with less a node t = Some t' /\
    rep t' p0 (f :: ctx) (T true E node (n_key n) E) /\ alters (node :: addrs (T c l a k r)) t t'.
Proof.
  intros H Hc Hn Hnode. unfold insert_with. pose proof (nodes_enough t p0 [] _ H) as Hfuel. unfold whole in Hfuel. cbn [ctx_addrs app] in Hfuel.
  pose proof (depth_addrs (T c l a k r)).
  destruct (insert_down_rep lefts (rb_fuel t) less t p0 [] c l a k r H Hc ltac:(lia)) as (f & ctx & Hd & ->).
  cbn [mbind option_bind].
  assert (H1 : rep t p0 (f :: ctx) E) by (apply rep_plug; rewrite <-Hd, descend_plug; exact H).
  assert (Hw : whole (f :: ctx) E ≡ₚ addrs (T c l a k r)) by (unfold whole; by rewrite <-addrs_plug, <-Hd, descend_plug).
  destruct (attach_rep t p0 f ctx node n H1 Hn) as (t1 & E1 & H2 & Ha1); [by rewrite Hw|].
  exists t1, f, ctx. split; [done|]. split; [destruct (f_side f); exact E1|]. split; [done|].
  eapply alters_perm; [|exact Ha1]. by rewrite Hw.
Qed.

(** A callback that hangs the node into a missing child of the tree. *)
Lemma insert_at insert t t1 p0 m c l a k r node n f ctx (es := before (f :: ctx) ++ (n_key n, node) :: after (f :: ctx)) :
  rep t p0 [] (T c l a k r) -> bal false m (T c l a k r) -> plug (f :: ctx) E = T c l a k r ->
  insert a node t = Some t1 -> rep t1 p0 (f :: ctx) (T true E node (n_key n) E) -> alters (node :: addrs (T c l a k r)) t t1 ->
  exists t', ngx_rbtree_insert insert node t = Some t' /\ tree_of t' es /\ alters (node :: addrs (T c l a k r)) t t'.
Proof.
  intros H Hb Hplug E1 H1 Ha1.
  assert (Has : (a =? rb_sentinel t) = false).
  { apply Z.eqb_neq. intros ->. pose proof (rep_nodup _ _ _ _ H) as Hnd. apply NoDup_cons in Hnd as [Hnd _]. cbn [ctx_addrs addrs] in Hnd. set_solver + Hnd. }
  unfold ngx_rbtree_insert. rewrite (rep_root _ _ _ _ H). cbn [plug ptr]. rewrite Has, E1. cbn [mbind option_bind].
  assert (Hh : hole false 0 (f :: ctx)).
  { destruct (plug_hole m (f :: ctx) E) as (c0 & n0 & Hb0 & Hh0); [by rewrite Hplug|]. by inversion Hb0; subst. }
  pose proof (nodes_enough t1 p0 (f :: ctx) _ H1) as Hfuel. unfold whole in Hfuel. rewrite length_app in Hfuel. pose proof (ctx_length (f :: ctx)).
  destruct (insert_loop_rep (rb_fuel t1) t1 p0 (f :: ctx) E node (n_key n) E 0 H1 ltac:(repeat constructor) Hh ltac:(lia))
    as (t2 & tr2 & -> & H2 & Ha2 & (c2 & m2 & Hb2) & He2). cbn [mbind option_bind].
  assert (Hent : entries tr2 = es) by (rewrite He2, entries_plug; done).
  assert (Hw : whole (f :: ctx) (T true E node (n_key n) E) ≡ₚ node :: addrs (T c l a k r)).
  { unfold whole. rewrite <-Hplug, addrs_plug. cbn [addrs app]. rewrite app_nil_r. solve_Permutation. }
  assert (Hw2 : addrs tr2 = whole [] (plug (f :: ctx) (T true E node (n_key n) E))) by (unfold whole; cbn [ctx_addrs app]; by rewrite !addrs_entries, He2).
  unfold whole in Hw2. cbn [ctx_addrs app] in Hw2.
  destruct tr2 as [|c3 l3 a3 k3 r3]; [cbn [entries] in Hent; unfold es in Hent; by destruct (before (f :: ctx))|].
  destruct (blacken t2 p0 c2 m2 l3 a3 k3 r3 c3 H2 Hb2) as (t' & m' & -> & H3 & Hb3 & Ha3).
  exists t'. split; [done|]. split; [exists p0, (T false l3 a3 k3 r3), m'; done|].
  eapply alters_trans; [exact Ha1|eapply alters_trans].
  - eapply alters_perm; [exact Hw|exact Ha2].
  - eapply alters_perm; [|exact Ha3]. rewrite Hw2, addrs_plug. exact Hw.
Qed.

(** ** The place of a node in the list *)

Lemma sorted_app_inv (R : relation (Z * Z)) a b :
  StronglySorted R (a ++ b) -> StronglySorted R a /\ StronglySorted R b /\ forall x y, x ∈ a -> y ∈ b -> R x y.
Proof.
  induction a as [|z a IH]; cbn [app]; intros H; [split; [constructor|]; split; [done|]; set_solver|].
  apply StronglySorted_inv in H as [H Hz]. destruct (IH H) as (H1 & H2 & H3). apply Forall_app in Hz as [Hz1 Hz2].
  split; [by constructor|]. split; [done|]. intros x y Hx Hy. apply elem_of_cons in Hx as [-> | Hx]; [|by apply H3].
  rewrite Forall_forall in Hz2. by apply Hz2.
Qed.

Section Place.
Variable lefts : Z * Z -> bool.

(** Before the first entry that says so. *)
Fixpoint insert_before (e : Z * Z) (es : list (Z * Z)) : list (Z * Z) :=
  match es with
  | [] => [e]
  | x :: es' => if lefts x then e :: x :: es' else x :: insert_before e es'
  end.

Lemma insert_before_between e b a :
  Forall (fun x => lefts x = false) b -> Forall (fun x => lefts x = true) a -> insert_before e (b ++ a) = b ++ e :: a.
Proof.
  intros Hb Ha. induction Hb as [|x b Hx Hb IH]; cbn [app insert_before]; [|by rewrite Hx, IH].
  destruct Ha as [|y a Hy Ha]; [done|]. cbn [insert_before]. by rewrite Hy.
Qed.

(** Entries say so from some point on. *)
Definition upward (es : list (Z * Z)) : Prop := StronglySorted (fun x y => lefts x = true -> lefts y = true) es.

Lemma descend_between ctx t :
  upward (entries (plug ctx t)) ->
  Forall (fun x => lefts x = false) (before ctx) -> Forall (fun x => lefts x = true) (after ctx) ->
  let ctx' := descend lefts ctx t in
  Forall (fun x => lefts x = false) (before ctx') /\ Forall (fun x => lefts x = true) (after ctx').
Proof.
  revert ctx. induction t as [|c l IHl a k r IHr]; intros ctx Hs Hb Ha; [done|].
  cbn [descend]. assert (Hall := Hs). unfold upward in Hall. rewrite entries_plug in Hall. cbn [entries] in Hall.
  apply sorted_app_inv in Hall as (_ & Hall & _). apply sorted_app_inv in Hall as (Hall & _ & _).
  apply sorted_app_inv in Hall as (_ & Hkr & Hlk).
  apply StronglySorted_inv in Hkr as [_ Hkr]. rewrite Forall_forall in Hkr.
  destruct (lefts (k, a)) eqn:E.
  - apply IHl; [done..|]. cbn [after f_side f_key f_addr f_other]. constructor; [done|]. apply Forall_app. split; [|done].
    apply Forall_forall. intros x Hx. by apply Hkr.
  - apply IHr; [done..| |done]. cbn [before f_side f_key f_addr f_other]. rewrite !Forall_app, Forall_singleton.
    split; [done|]. split; [|done]. apply Forall_forall. intros x Hx. specialize (Hlk x (k, a) Hx ltac:(set_solver +)).
    rewrite E in Hlk. by destruct (lefts x); [specialize (Hlk eq_refl)|].
Qed.

Lemma insert_before_perm e es : insert_before e es ≡ₚ e :: es.
Proof.
  induction es as [|x es IH]; cbn [insert_before]; [done|]. destruct (lefts x); [done|]. rewrite IH. apply Permutation_swap.
Qed.

(** What [ngx_rbtree_insert] does with a callback. *)
Lemma tree_insert insert less t es node n :
  tree_of t es -> compares lefts less es -> upward es -> (forall temp, insert temp node t = insert_with less temp node t) ->
  get node t = Some n -> node <> rb_sentinel t -> node ∉ map snd es ->
  exists t', ngx_rbtree_insert insert node t = Some t' /\
    tree_of t' (insert_before (n_key n, node) es) /\ alters (node :: map snd es) t t'.
Proof.
  intros (p0 & tr & m & H & Hb & He) Hc Hu Hins Hn Hns Hnode.
  destruct tr as [|c l a k r].
  { destruct (insert_first insert t p0 node n H Hn Hns) as (t' & Eq & H' & Ha). cbn [entries] in He. subst es.
    exists t'. split; [exact Eq|]. split; [|exact Ha].
    exists 0, (T false E node (n_key n) E), 1%nat. split; [done|]. split; [by eapply (bal_B 0); constructor|done]. }
  assert (Haddr : addrs (T c l a k r) = map snd es) by (by rewrite addrs_entries, He).
  destruct (insert_with_rep lefts less t p0 c l a k r node n H) as (t1 & f & ctx & Hd & E1 & H1 & Ha1);
    [by rewrite He|done|rewrite Haddr; set_solver + Hns Hnode|].
  assert (Hplug : plug (f :: ctx) E = T c l a k r) by (by rewrite <-Hd, descend_plug).
  destruct (insert_at insert t t1 p0 m c l a k r node n f ctx) as (t' & E' & Ht & Ha); try done; [by rewrite Hins|].
  exists t'. split; [exact E'|]. rewrite Haddr in Ha. split; [|exact Ha].
  destruct (descend_between [] (T c l a k r)) as [Hbf Haf]; try constructor; cbn [plug]; [by rewrite He|].
  rewrite Hd in Hbf, Haf. rewrite <-He, <-Hplug, entries_plug. cbn [entries app]. by rewrite insert_before_between.
Qed.

End Place.

(** ** The order of the keys

    [lt] orders the valid keys by their rank: the keys themselves for
    [ngx_rbtree_insert_value]; for the timers the distance from some moment, of
    less than half the range. *)

Class Ordered (lt : Z -> Z -> bool) (valid : Z -> Prop) (rank : Z -> Z) : Prop :=
  lt_rank a b : valid a -> valid b -> lt a b = (rank a <? rank b).

#[export] Instance value_ordered : Ordered Z.ltb (fun _ => True) id.
Proof. by intros a b _ _. Qed.

Definition timer_valid (base k : Z) : Prop := u64 (k - base) < 2 ^ 63.
Definition timer_rank (base k : Z) : Z := u64 (k - base).

#[export] Instance timer_ordered base : Ordered timer_lt (timer_valid base) (timer_rank base).
Proof.
  intros a b Ha Hb. unfold timer_lt, timer_valid, timer_rank in *.
  assert (Hx : u64 (a - b) = u64 (u64 (a - base) - u64 (b - base))).
  { unfold u64. rewrite <-Zminus_mod. f_equal. lia. }
  rewrite Hx. pose proof (Z.mod_pos_bound (a - base) (2 ^ 64) ltac:(lia)) as H1.
  pose proof (Z.mod_pos_bound (b - base) (2 ^ 64) ltac:(lia)) as H2.
  unfold u64 in *. set (x := (a - base) mod 2 ^ 64) in *. set (y := (b - base) mod 2 ^ 64) in *. clearbody x y. clear Hx.
  unfold i64. destruct (x <? y) eqn:E.
  - rewrite <-(Z_mod_plus_full (x - y) 1), (Z.mod_small (x - y + 1 * 2 ^ 64)) by lia.
    rewrite <-(Z_mod_plus_full _ (-1)), Z.mod_small by lia. lia.
  - rewrite (Z.mod_small (x - y)), Z.mod_small by lia. lia.
Qed.

Section Order.
Context {lt : Z -> Z -> bool} {valid : Z -> Prop} {rank : Z -> Z} `{!Ordered lt valid rank}.

Definition key_le (x y : Z * Z) : Prop := rank (fst x) <= rank (fst y).

(** After the entries with the same key. *)
Fixpoint insert_entry (e : Z * Z) (es : list (Z * Z)) : list (Z * Z) :=
  match es with
  | [] => [e]
  | x :: es' => if lt (fst e) (fst x) then e :: x :: es' else x :: insert_entry e es'
  end.

Lemma insert_entry_before e es : insert_entry e es = insert_before (fun x => lt (fst e) (fst x)) e es.
Proof. induction es as [|x es IH]; cbn [insert_entry insert_before]; [done|]. by rewrite IH. Qed.

Lemma sorted_upward key es :
  valid key -> Forall (fun x => valid (fst x)) es -> StronglySorted key_le es -> upward (fun x => lt key (fst x)) es.
Proof.
  intros Hk Hv Hs. unfold upward. induction Hs as [|x es Hs IH Hx]; [constructor|]. apply Forall_cons in Hv as [Hvx Hv].
  constructor; [by apply IH|]. rewrite Forall_forall in Hx, Hv |- *. intros y Hy. specialize (Hx y Hy). specialize (Hv y Hy).
  rewrite !(lt_rank (lt := lt)) by done. unfold key_le in Hx. lia.
Qed.

Lemma insert_entry_sorted e es :
  valid (fst e) -> Forall (fun x => valid (fst x)) es -> StronglySorted key_le es ->
  StronglySorted key_le (insert_entry e es) /\ Forall (fun x => valid (fst x)) (insert_entry e es) /\
  insert_entry e es ≡ₚ e :: es.
Proof.
  intros He. induction es as [|x es IH]; intros Hv Hs; cbn [insert_entry]; [repeat constructor; done|].
  apply Forall_cons in Hv as [Hx Hv]. assert (Hs0 := Hs). apply StronglySorted_inv in Hs as [Hs Hxs].
  destruct (lt (fst e) (fst x)) eqn:E; rewrite lt_rank in E by done.
  - split; [|split; [by repeat constructor|done]]. constructor; [done|]. constructor; [unfold key_le; lia|].
    eapply Forall_impl; [exact Hxs|]. unfold key_le. lia.
  - destruct (IH Hv Hs) as (H1 & H2 & H3). split; [|split; [by constructor|rewrite H3; apply Permutation_swap]].
    constructor; [done|]. rewrite H3. constructor; [unfold key_le; lia|done].
Qed.

(** A red-black tree in memory, with its keys and nodes in order. *)
Definition is_rbtree (t : rbtree) (es : list (Z * Z)) : Prop :=
  tree_of t es /\ StronglySorted key_le es /\ Forall (fun x => valid (fst x)) es.

Lemma rbtree_insert_spec t es node n :
  is_rbtree t es -> get node t = Some n -> node <> rb_sentinel t -> node ∉ map snd es -> valid (n_key n) ->
  exists t', ngx_rbtree_insert (insert_key lt) node t = Some t' /\
    is_rbtree t' (insert_entry (n_key n, node) es) /\ alters (node :: map snd es) t t'.
Proof.
  intros (H & Hs & Hv) Hn Hns Hnode Hk.
  destruct (insert_entry_sorted (n_key n, node) es Hk Hv Hs) as (Hs' & Hv' & Hperm).
  destruct (tree_insert (fun x => lt (n_key n) (fst x)) (insert_key lt) (by_key lt node t) t es node n H) as (t' & E' & H' & Ha); [..|exact Hn|exact Hns|exact Hnode|].
  - intros k a x _ <-. unfold by_key. by rewrite Hn.
  - apply sorted_upward; [exact Hk|exact Hv|exact Hs].
  - done.
  - exists t'. split; [exact E'|]. split; [|exact Ha]. split; [|done]. by rewrite insert_entry_before.
Qed.

End Order.
