(* ===== verification/RbtreeFix.v ===== *)
(** * Red-black trees: the fixup after a deletion

    The loop at the end of [ngx_rbtree_delete]: a black tree that is one level too
    low, or a red one, at a position of the tree; each turn moves it up or ends. *)

From Stdlib Require Import Sorting.Sorted.
From stdpp Require Import gmap.
From S2P Require Import Prelude Rbtree RbtreeSpec RbtreeInsert.

#[local] Notation E := RbtreeSpec.E.

(** ** The fixup *)

(** Where [temp] is on side [d] of its parent. *)
Definition delete_side (d : side) (parent w : Z) (temp : Z) (t : rbtree) : option (Z * rbtree) :=
  red ← ngx_rbt_is_red w t;
  '(w, t) ← (if red : bool then
               t ← ngx_rbt_black w t;
               t ← ngx_rbt_red parent t;
               t ← rotate d parent t;
               n ← get temp t; p ← get (n_parent n) t;
               Some (child (opp d) p, t)
             else Some (w, t));
  wn ← get w t;
  bl ← ngx_rbt_is_black (n_left wn) t;
  both ← (if bl : bool then ngx_rbt_is_black (n_right wn) t else Some false);
  if both : bool then
    t ← ngx_rbt_red w t;
    n ← get temp t;
    Some (n_parent n, t)
  else
    far ← ngx_rbt_is_black (child (opp d) wn) t;
    '(w, t) ← (if far : bool then
                 t ← ngx_rbt_black (child d wn) t;
                 t ← ngx_rbt_red w t;
                 t ← rotate (opp d) w t;
                 n ← get temp t; p ← get (n_parent n) t;
                 Some (child (opp d) p, t)
               else Some (w, t));
    n ← get temp t;
    t ← ngx_rbt_copy_color w (n_parent n) t;
    t ← ngx_rbt_black (n_parent n) t;
    wn ← get w t;
    t ← ngx_rbt_black (child (opp d) wn) t;
    n ← get temp t;
    t ← rotate d (n_parent n) t;
    Some (rb_root t, t).

Lemma delete_turn_side temp t :
  delete_turn temp t =
    n ← get temp t;
    p ← get (n_parent n) t;
    let d := if temp =? n_left p then Lft else Rgt in
    delete_side d (n_parent n) (child (opp d) p) temp t.
Proof.
  unfold delete_turn. destruct (get temp t) as [n|]; [|done]. cbn [mbind option_bind].
  destruct (get (n_parent n) t) as [p|]; [|done]. cbn [mbind option_bind]. destruct (temp =? n_left p); cbv zeta; unfold delete_side.
  - cbn [child opp]. destruct (ngx_rbt_is_red (n_right p) t) as [red|]; [|done]. cbn [mbind option_bind]. by destruct red.
  - cbn [child opp]. destruct (ngx_rbt_is_red (n_left p) t) as [red|]; [|done]. cbn [mbind option_bind].
    destruct (if red then _ else _) as [[w t1]|]; [|by destruct red]. cbn [mbind option_bind].
    destruct (get w t1) as [wn|]; [|done]. cbn [mbind option_bind].
    destruct (ngx_rbt_is_black (n_left wn) t1) as [bl|]; [|done]. cbn [mbind option_bind].
    destruct (if bl then _ else _) as [both|]; [|done]. cbn [mbind option_bind]. by destruct both.
Qed.

(** The parent pointer at the position, the sentinel's too. *)
Definition linked (t : rbtree) (p0 : Z) (ctx : list frame) (tr : rtree) : Prop :=
  exists n, get (ptr (rb_sentinel t) tr) t = Some n /\ n_parent n = par_of p0 ctx.

Lemma linked_rep t p0 ctx tr : rep t p0 ctx tr -> tr <> E -> linked t p0 ctx tr.
Proof.
  intros H Htr. destruct tr as [|c l a k r]; [done|]. eexists. split; [exact (rep_get t p0 ctx Lft c l a k r H)|done].
Qed.

(** What does not touch the sentinel keeps it. *)
Lemma linked_alters A t t' p0 ctx ctx' tr :
  rep t' p0 ctx' tr -> linked t p0 ctx tr -> alters A t t' -> rb_sentinel t ∉ A -> par_of p0 ctx' = par_of p0 ctx ->
  linked t' p0 ctx' tr.
Proof.
  intros H (n & Hn & Hp) Ha Hs Hpar. destruct tr as [|c l a k r]; [|by apply linked_rep].
  exists n. rewrite Hpar. split; [|done]. cbn [ptr] in *. rewrite (proj1 Ha). by eapply get_alters.
Qed.

Lemma rep_sentinel t p0 ctx tr : rep t p0 ctx tr -> rb_sentinel t ∉ whole ctx tr.
Proof. intros H. pose proof (rep_nodup _ _ _ _ H) as Hnd. by apply NoDup_cons in Hnd as [? _]. Qed.

(** [temp] and the two nodes above it. *)
Lemma fix_reads t p0 f ctx tr :
  rep t p0 (f :: ctx) tr -> linked t p0 (f :: ctx) tr ->
  exists n p, get (ptr (rb_sentinel t) tr) t = Some n /\ n_parent n = f_addr f /\ get (f_addr f) t = Some p /\
    p = mk_side (f_side f) (f_key f) (ptr (rb_sentinel t) tr) (ptr (rb_sentinel t) (f_other f)) (par_of p0 ctx) (f_color f).
Proof.
  intros H (n & Hn & Hp). exists n. eexists. split; [exact Hn|]. split; [exact Hp|].
  split; [exact (rep_get_parent _ _ _ _ _ H)|done].
Qed.

(** The turn after the case of a red sibling. *)
Definition delete_tail (d : side) (w temp : Z) (t : rbtree) : option (Z * rbtree) :=
  wn ← get w t;
  bl ← ngx_rbt_is_black (n_left wn) t;
  both ← (if bl : bool then ngx_rbt_is_black (n_right wn) t else Some false);
  if both : bool then
    t ← ngx_rbt_red w t;
    n ← get temp t;
    Some (n_parent n, t)
  else
    far ← ngx_rbt_is_black (child (opp d) wn) t;
    '(w, t) ← (if far : bool then
                 t ← ngx_rbt_black (child d wn) t;
                 t ← ngx_rbt_red w t;
                 t ← rotate (opp d) w t;
                 n ← get temp t; p ← get (n_parent n) t;
                 Some (child (opp d) p, t)
               else Some (w, t));
    n ← get temp t;
    t ← ngx_rbt_copy_color w (n_parent n) t;
    t ← ngx_rbt_black (n_parent n) t;
    wn ← get w t;
    t ← ngx_rbt_black (child (opp d) wn) t;
    n ← get temp t;
    t ← rotate d (n_parent n) t;
    Some (rb_root t, t).

(** *** Colors and rotations near a node *)

(** The addresses of a tree do not depend on its shape. *)
Ltac same_addrs := unfold whole; rewrite ?addrs_N; cbn [addrs]; rewrite ?addrs_N; solve_Permutation.

Lemma paint_below d t p0 ctx c x a k e cy y1 b kb y2 c' (A := whole ctx (N d c x a k (N e cy y1 b kb y2))) :
  rep t p0 ctx (N d c x a k (N e cy y1 b kb y2)) ->
  exists t', put b (set_color c') t = Some t' /\ rep t' p0 ctx (N d c x a k (N e c' y1 b kb y2)) /\ alters A t t'.
Proof.
  intros H. rewrite N_opp in H.
  destruct (put_color e t p0 (mk_frame (opp d) c a k x :: ctx) cy c' y1 b kb y2) as (t' & Eq & H' & Ha); [by apply rep_plug1|].
  exists t'. split; [done|]. apply rep_plug1 in H'. unfold plug1 in H'. cbn [f_side f_color f_addr f_key f_other] in H'.
  rewrite <-N_opp in H'. split; [done|]. eapply alters_perm; [|exact Ha].
  change (whole (mk_frame (opp d) c a k x :: ctx) (N e cy y1 b kb y2) ≡ₚ A). rewrite whole_plug1. unfold A, plug1.
  cbn [f_side f_color f_addr f_key f_other]. by rewrite <-N_opp.
Qed.

Lemma paint_top d t p0 ctx c c' x a k y :
  rep t p0 ctx (N d c x a k y) ->
  exists t', put a (set_color c') t = Some t' /\ rep t' p0 ctx (N d c' x a k y) /\ alters (whole ctx (N d c x a k y)) t t'.
Proof. apply put_color. Qed.

(** At the other child. *)
Lemma focus_below d t p0 ctx c x a k y :
  rep t p0 ctx (N d c x a k y) <-> rep t p0 (mk_frame (opp d) c a k x :: ctx) y.
Proof. rewrite (rep_plug1 t p0 _ ctx y). unfold plug1. cbn [f_side f_color f_addr f_key f_other]. by rewrite <-N_opp. Qed.

Lemma whole_below d ctx c x a k y : whole (mk_frame (opp d) c a k x :: ctx) y ≡ₚ whole ctx (N d c x a k y).
Proof. rewrite whole_plug1. unfold plug1. cbn [f_side f_color f_addr f_key f_other]. by rewrite <-N_opp. Qed.

Lemma red_sibling d t p0 ctx c X p k cw w1 w kw w2 (A := whole ctx (N d c X p k (N d cw w1 w kw w2))) :
  rep t p0 ctx (N d c X p k (N d cw w1 w kw w2)) ->
  exists t', (t ← ngx_rbt_black w t; t ← ngx_rbt_red p t; rotate d p t) = Some t' /\
    rep t' p0 ctx (N d false (N d true X p k w1) w kw w2) /\ alters A t t'.
Proof.
  intros H. destruct (paint_below d t p0 ctx c X p k d cw w1 w kw w2 false H) as (t1 & E1 & H1 & Ha1).
  unfold ngx_rbt_black, ngx_rbt_red. rewrite E1. cbn [mbind option_bind].
  destruct (paint_top d t1 p0 ctx c true _ p k _ H1) as (t2 & E2 & H2 & Ha2). rewrite E2. cbn [mbind option_bind].
  destruct (rotate_rep d t2 p0 ctx true X p k false w1 w kw w2 H2) as (t3 & -> & H3 & Ha3). exists t3. split; [done|]. split; [done|].
  eapply alters_trans; [exact Ha1|]. eapply alters_trans; (eapply alters_perm; [|eassumption]); unfold A; same_addrs.
Qed.

Lemma black_far d t p0 ctx c X p k n1 a ka n2 w kw w2
    (A := whole ctx (N d c X p k (N d false (N d true n1 a ka n2) w kw w2))) :
  rep t p0 ctx (N d c X p k (N d false (N d true n1 a ka n2) w kw w2)) ->
  exists t', (t ← ngx_rbt_black a t; t ← ngx_rbt_red w t; rotate (opp d) w t) = Some t' /\
    rep t' p0 ctx (N d c X p k (N d false n1 a ka (N d true n2 w kw w2))) /\ alters A t t'.
Proof.
  intros H. apply focus_below in H. rewrite (N_opp d false) in H. set (ctx' := mk_frame (opp d) c p k X :: ctx) in *.
  destruct (paint_below (opp d) t p0 ctx' false w2 w kw d true n1 a ka n2 false H) as (t1 & E1 & H1 & Ha1).
  unfold ngx_rbt_black, ngx_rbt_red. rewrite E1. cbn [mbind option_bind].
  destruct (paint_top (opp d) t1 p0 ctx' false true _ w kw _ H1) as (t2 & E2 & H2 & Ha2). rewrite E2. cbn [mbind option_bind].
  rewrite (N_opp d false) in H2.
  destruct (rotate_rep (opp d) t2 p0 ctx' true w2 w kw false n2 a ka n1 H2) as (t3 & -> & H3 & Ha3).
  exists t3. split; [done|]. split.
  { rewrite <-(N_opp d true), <-(N_opp d false) in H3. by apply focus_below. }
  assert (HA : A ≡ₚ whole ctx' (N (opp d) false w2 w kw (N d true n1 a ka n2))).
  { unfold A, ctx'. rewrite whole_below. by rewrite <-(N_opp d false). }
  eapply alters_perm; [symmetry; exact HA|].
  eapply alters_trans; [exact Ha1|]. eapply alters_trans; (eapply alters_perm; [|eassumption]); same_addrs.
Qed.

Lemma far_colors d t p0 ctx c X p k w1 w kw e f1 f kf f2
    (A := whole ctx (N d c X p k (N d false w1 w kw (N e true f1 f kf f2)))) :
  rep t p0 ctx (N d c X p k (N d false w1 w kw (N e true f1 f kf f2))) ->
  exists t', (t ← ngx_rbt_copy_color w p t; t ← ngx_rbt_black p t; wn ← get w t; ngx_rbt_black (child (opp d) wn) t) = Some t' /\
    rep t' p0 ctx (N d false X p k (N d c w1 w kw (N e false f1 f kf f2))) /\ alters A t t'.
Proof.
  intros H. unfold ngx_rbt_copy_color. rewrite (rep_get t p0 ctx d _ _ _ _ _ H). cbn [mbind option_bind].
  rewrite (proj2 (proj2 (side_fields _ _ _ _ _ _))).
  destruct (paint_below d t p0 ctx c X p k d false w1 w kw _ c H) as (t1 & -> & H1 & Ha1). cbn [mbind option_bind].
  destruct (paint_top d t1 p0 ctx c false _ p k _ H1) as (t2 & E2 & H2 & Ha2). unfold ngx_rbt_black. rewrite E2. cbn [mbind option_bind].
  apply focus_below in H2. rewrite (rep_get t2 p0 _ d _ _ _ _ _ H2). cbn [mbind option_bind].
  rewrite (proj2 (child_side _ _ _ _ _ _)), ptr_N.
  destruct (paint_below d t2 p0 _ c w1 w kw e true f1 f kf f2 false H2) as (t3 & -> & H3 & Ha3).
  exists t3. split; [done|]. split; [by apply focus_below|]. eapply alters_trans; [exact Ha1|].
  eapply alters_trans; [eapply alters_perm; [|exact Ha2]; unfold A; same_addrs|].
  eapply alters_perm; [|exact Ha3]; rewrite whole_below; unfold A; same_addrs.
Qed.

(** *** One turn *)

(** The node and its parent pointer, through changes elsewhere. *)
Lemma linked_parent t p0 ctx tr : linked t p0 ctx tr ->
  (n ← get (ptr (rb_sentinel t) tr) t; Some (n_parent n)) = Some (par_of p0 ctx).
Proof. intros (n & -> & H). cbn [mbind option_bind]. by rewrite H. Qed.

Lemma is_black_color t p0 ctx tr : rep t p0 ctx tr -> ngx_rbt_is_black (ptr (rb_sentinel t) tr) t = Some (negb (color tr)).
Proof.
  intros H. destruct (rep_color _ _ _ _ H) as (n & E1 & E2). unfold ngx_rbt_is_black, ngx_rbt_is_red. rewrite E1.
  cbn [mbind option_bind]. by rewrite E2.
Qed.

(** The colors of the children of a node. *)
Lemma children_colors d t p0 ctx c x a k y :
  rep t p0 ctx (N d c x a k y) ->
  ngx_rbt_is_black (ptr (rb_sentinel t) x) t = Some (negb (color x)) /\
  ngx_rbt_is_black (ptr (rb_sentinel t) y) t = Some (negb (color y)).
Proof.
  intros H. split; [|by eapply is_black_color, focus_below].
  rewrite N_opp in H. by eapply is_black_color, focus_below.
Qed.

Lemma both_black d t p0 ctx c x a k y :
  rep t p0 ctx (N d c x a k y) ->
  exists wn bl, get a t = Some wn /\ child d wn = ptr (rb_sentinel t) x /\ child (opp d) wn = ptr (rb_sentinel t) y /\
    ngx_rbt_is_black (n_left wn) t = Some bl /\
    (if bl : bool then ngx_rbt_is_black (n_right wn) t else Some false) = Some (negb (color x) && negb (color y)).
Proof.
  intros H. destruct (children_colors d _ _ _ _ _ _ _ _ H) as [Hx Hy]. rewrite (rep_get t p0 ctx d _ _ _ _ _ H).
  eexists _, (negb (color (if d is Lft then x else y))). split; [done|]. split; [apply child_side|]. split; [apply child_side|].
  destruct d; cbn [mk_side n_left n_right]; (split; [eassumption|]); rewrite ?Hx, ?Hy; by destruct (color x), (color y).
Qed.

Lemma color_T t : color t = true -> exists l a k r, t = T true l a k r.
Proof. destruct t as [|[] l a k r]; cbn; intros [=]. eauto. Qed.

(** The frame above a position. *)
Definition above (d : side) (c : bool) (p k : Z) (w : rtree) : frame := mk_frame d c p k w.

Definition deficit (n : nat) (tr : rtree) : Prop := color tr = false /\ bal false n tr.

(** The last case: the nephews are not both black. *)
Lemma delete_last d t p0 ctx c X p k w1 w kw w2 n c1 c2 temp (A := whole ctx (N d c X p k (N d false w1 w kw w2))) :
  rep t p0 ctx (N d c X p k (N d false w1 w kw w2)) -> linked t p0 (above d c p k (N d false w1 w kw w2) :: ctx) X ->
  bal c1 n w1 -> bal c2 n w2 -> bal false n X -> color w2 = true -> temp = ptr (rb_sentinel t) X ->
  exists t' tr', (n ← get temp t;
      t ← ngx_rbt_copy_color w (n_parent n) t;
      t ← ngx_rbt_black (n_parent n) t;
      wn ← get w t;
      t ← ngx_rbt_black (child (opp d) wn) t;
      n ← get temp t;
      t ← rotate d (n_parent n) t;
      Some (rb_root t, t)) = Some (rb_root t', t') /\
    rep t' p0 ctx tr' /\ alters A t t' /\ entries tr' = entries (N d c X p k (N d false w1 w kw w2)) /\
    tr' <> E /\ (c = true -> bal true (S n) tr') /\ (c = false -> bal false (S (S n)) tr').
Proof.
  intros H HL H1 H2 HX Hc2 ->. destruct (color_T _ Hc2) as (f1 & f & kf & f2 & ->). change (T true f1 f kf f2) with (N Lft true f1 f kf f2) in *.
  inversion H2 as [|? ? ? ? ? Hf1 Hf2|]; subst.
  set (fr := fun w' => above d c p k w'). pose proof (linked_parent _ _ _ _ HL) as HL0. cbn [par_of above f_addr] in HL0.
  set (s := rb_sentinel t) in *. destruct (get (ptr s X) t) as [n0|]; [|done]. cbn [mbind option_bind] in HL0 |- *. injection HL0 as ->.
  destruct (far_colors d t p0 ctx c X p k w1 w kw Lft f1 f kf f2 H) as (t1 & E1 & Hr1 & Ha1).
  destruct (ngx_rbt_copy_color w p t) as [u1|]; [|done]. cbn [mbind option_bind] in E1 |- *.
  destruct (ngx_rbt_black p u1) as [u2|]; [|done]. cbn [mbind option_bind] in E1 |- *.
  destruct (get w u2) as [wn|]; [|done]. cbn [mbind option_bind] in E1 |- *. rewrite E1. cbn [mbind option_bind].
  assert (HL1 : linked t1 p0 (above d false p k (N d c w1 w kw (N Lft false f1 f kf f2)) :: ctx) X).
  { eapply linked_alters; [by apply rep_plug1|exact HL|exact Ha1|exact (rep_sentinel _ _ _ _ H)|done]. }
  apply linked_parent in HL1. rewrite (proj1 Ha1) in HL1. fold s in HL1. cbn [par_of above f_addr] in HL1.
  destruct (get (ptr s X) t1) as [n1|]; [|done]. cbn [mbind option_bind] in HL1 |- *. injection HL1 as ->.
  destruct (rotate_rep d t1 p0 ctx false X p k c w1 w kw _ Hr1) as (t2 & -> & Hr2 & Ha2). eexists t2, _. split; [done|].
  split; [exact Hr2|]. split; [eapply alters_trans; [exact Ha1|]; eapply alters_perm; [|exact Ha2]; unfold A; same_addrs|].
  split; [rewrite <-(entries_rotate d c X p k false); apply entries_N; [done|]; by apply entries_N|].
  split; [by destruct d|]. split; intros ->; [apply bal_R_N|eapply bal_B_N]; try (by eapply bal_B_N); by eapply (bal_B_N Lft).
Qed.

(** The red-red case of the parent is for the loop to end. *)
Lemma delete_tail_rep d t p0 ctx c X p k w1 w kw w2 n c1 c2 (fr := above d c p k (N d false w1 w kw w2)) (A := whole (fr :: ctx) X) :
  rep t p0 (fr :: ctx) X -> linked t p0 (fr :: ctx) X ->
  bal c1 n w1 -> bal c2 n w2 -> bal false n X ->
  exists temp t' tr', delete_tail d w (ptr (rb_sentinel t) X) t = Some (temp, t') /\
    rep t' p0 ctx tr' /\ alters A t t' /\ entries tr' = entries (plug1 fr X) /\
    (temp = p /\ tr' = N d c X p k (N d true w1 w kw w2) /\ color w1 = false /\ color w2 = false \/
     temp = rb_root t' /\ tr' <> E /\ (c = true -> bal true (S n) tr') /\ (c = false -> bal false (S (S n)) tr')).
Proof.
  intros H HL H1 H2 HX. assert (HL0 := linked_parent _ _ _ _ HL). cbn [par_of fr above f_addr] in HL0.
  assert (Hs := rep_sentinel _ _ _ _ H). set (s := rb_sentinel t) in *.
  assert (HA : A ≡ₚ whole ctx (N d c X p k (N d false w1 w kw w2))) by apply whole_plug1.
  assert (Hrep := H). apply rep_plug1 in H. unfold plug1 in H. cbn [fr above f_side f_color f_addr f_key f_other] in H.
  (* the position of X in what is made of the tree *)
  assert (Hlink : forall A' t' w', rep t' p0 ctx (N d c X p k w') -> A' ≡ₚ A -> alters A' t t' ->
    (n ← get (ptr s X) t'; Some (n_parent n)) = Some p).
  { intros A' t' w' H' HA' Ha'. assert (Hl' : linked t' p0 (above d c p k w' :: ctx) X).
    { eapply linked_alters; [|exact HL|exact Ha'|rewrite HA'; exact Hs|done]. by apply rep_plug1. }
    apply linked_parent in Hl'. by rewrite (proj1 Ha') in Hl'. }
  unfold delete_tail. assert (Hw := proj1 (focus_below d _ _ _ _ _ _ _ _) H).
  destruct (both_black d _ _ _ _ _ _ _ _ Hw) as (wn & bl & -> & Hcd & Hco & Ebl & Eboth). cbn [mbind option_bind].
  rewrite Ebl. cbn [mbind option_bind]. rewrite Eboth. cbn [mbind option_bind].
  destruct (negb (color w1) && negb (color w2)) eqn:Ec.
  - apply andb_true_iff in Ec as [Ec1%negb_true_iff Ec2%negb_true_iff].
    destruct (paint_below d t p0 ctx c X p k d false w1 w kw w2 true H) as (t1 & E1 & Hr1 & Ha1).
    unfold ngx_rbt_red. rewrite E1. cbn [mbind option_bind]. specialize (Hlink _ t1 _ Hr1 (Permutation_sym HA) Ha1).
    destruct (get (ptr s X) t1) as [n1|]; [|done]. cbn [mbind option_bind] in Hlink |- *. injection Hlink as ->.
    eexists p, t1, _. split; [done|]. split; [exact Hr1|]. split; [by rewrite HA|]. split; [|by left].
    unfold plug1. cbn [fr above f_side f_color f_addr f_key f_other]. apply entries_N; [done|]. by apply entries_N.
  - rewrite Hco, (proj2 (children_colors _ _ _ _ _ _ _ _ _ Hw)). cbn [mbind option_bind]. destruct (color w2) eqn:Ec2.
    + cbn [negb]. 
      destruct (delete_last d t p0 ctx c X p k w1 w kw w2 n c1 c2 (ptr s X) H HL H1 H2 HX Ec2 eq_refl) as (t' & tr' & E & H' & Ha & He & Hb).
      exists (rb_root t'), t', tr'. split; [exact E|]. split; [done|]. split; [by rewrite HA|]. split; [done|]. by right.
    + rewrite andb_true_r in Ec. apply negb_false_iff, color_T in Ec as (m1 & a & ka & m2 & ->).
      destruct (N_x d true m1 a ka m2) as (n1 & n2 & Hn & Hnb). rewrite Hn in *. cbn [negb].
      destruct (black_far d t p0 ctx c X p k n1 a ka n2 w kw w2 H) as (t1 & E1 & Hr1 & Ha1).
      rewrite Hcd, ptr_N. destruct (ngx_rbt_black a t) as [u1|]; [|done]. cbn [mbind option_bind] in E1 |- *.
      destruct (ngx_rbt_red w u1) as [u2|]; [|done]. cbn [mbind option_bind] in E1 |- *. rewrite E1. cbn [mbind option_bind].
      specialize (Hlink _ t1 _ Hr1 (Permutation_sym HA) Ha1).
      destruct (get (ptr s X) t1) as [nx|] eqn:Ex; [|done]. cbn [mbind option_bind] in Hlink |- *. injection Hlink as Epx.
      rewrite Epx, (rep_get t1 p0 ctx d _ _ _ _ _ Hr1). cbn [mbind option_bind].
      rewrite (proj2 (child_side _ _ _ _ _ _)), ptr_N.
      assert (Hi : c1 = true /\ bal false n n1 /\ bal false n n2).
      { apply bal_N_inv in H1 as [-> [(_ & ? & ?)|(? & _)]]; done. }
      destruct Hi as (-> & Hb1 & Hb2). 
      destruct (delete_last d t1 p0 ctx c X p k n1 a ka (N d true n2 w kw w2) n false true (ptr s X) Hr1) as (t' & tr' & E & H' & Ha & He & Hb); try done.
      { eapply linked_alters; [by apply rep_plug1|exact HL|exact Ha1|rewrite <-HA; exact Hs|done]. }
      { apply bal_R_N; [done|]. pose proof (bal_color _ _ _ H2) as Ec0. rewrite Ec2 in Ec0. by rewrite Ec0 in H2. }
      { by destruct d. }
      { by rewrite (proj1 Ha1). }
      exists (rb_root t'), t', tr'. rewrite Ex in E |- *. split; [exact E|]. split; [done|].
      split; [rewrite HA; eapply alters_trans; [exact Ha1|]; eapply alters_perm; [|exact Ha]; same_addrs|].
      split; [|by right]. rewrite He. unfold plug1. cbn [fr above f_side f_color f_addr f_key f_other]. apply entries_N; [done|].
      rewrite Hn. symmetry. destruct d; cbn [N opp entries]; repeat (rewrite <-?app_assoc; cbn [app]); done.
Qed.

(** *** The loop *)

Definition blackened (t : rtree) : rtree := match t with E => E | T _ l a k r => T false l a k r end.

Lemma entries_blackened t : entries (blackened t) = entries t.
Proof. by destruct t. Qed.

(** A black tree one level too low, or a red one for the end of the loop. *)
Definition short (n : nat) (tr : rtree) : Prop :=
  if color tr then bal false (S n) (blackened tr) else bal false n tr.

(** A turn leaves a position of less weight. *)
Definition weight (ctx : list frame) (tr : rtree) : nat := length ctx + if color tr then 0 else 1.

Definition fixing (keys : list (Z * Z)) (b : nat) (p0 temp : Z) (t : rbtree) : Prop :=
  exists ctx tr n, temp = ptr (rb_sentinel t) tr /\ rep t p0 ctx tr /\ entries (plug ctx tr) = keys /\ tr <> E /\
    short n tr /\ hole false (S n) ctx /\ (weight ctx tr <= b)%nat.

Lemma plug_ne ctx t : t <> E -> plug ctx t <> E.
Proof. revert t. induction ctx as [|f ctx IH]; intros t Ht; [done|]. apply IH. unfold plug1. by destruct (f_side f). Qed.

Lemma hole_inv n f ctx : hole false n (f :: ctx) ->
  exists c, bal c n (f_other f) /\ (f_color f = true -> c = false /\ hole true n ctx) /\ (f_color f = false -> hole false (S n) ctx).
Proof.
  intros H. inversion H as [|? ? ? Hc Ho Hh|? ? c' ? ? Hc Ho Hh]; subst; [exists false|exists c']; rewrite Hc; (split; [done|]); split; done.
Qed.

Lemma tail_fixing d t p0 ctx c X p k w1 w kw w2 n c1 c2 (fr := above d c p k (N d false w1 w kw w2)) (A := whole (fr :: ctx) X) :
  rep t p0 (fr :: ctx) X -> linked t p0 (fr :: ctx) X ->
  bal c1 n w1 -> bal c2 n w2 -> bal false n X ->
  (c = true -> hole true (S n) ctx) -> (c = false -> hole false (S (S n)) ctx) ->
  exists temp t', delete_tail d w (ptr (rb_sentinel t) X) t = Some (temp, t') /\ alters A t t' /\
    fixing (entries (plug (fr :: ctx) X)) (Nat.max 1 (length ctx + if c then 0 else 1)) p0 temp t'.
Proof.
  intros H HL H1 H2 HX Ht Hf.
  destruct (delete_tail_rep d t p0 ctx c X p k w1 w kw w2 n c1 c2 H HL H1 H2 HX) as (temp & t' & tr' & E & H' & Ha & He & Hcase).
  exists temp, t'. split; [exact E|]. split; [exact Ha|]. destruct Hcase as [(-> & -> & Hc1 & Hc2)|(-> & Hne & Hbt & Hbf)].
  - assert (Hb1 : bal false n w1) by (by rewrite (bal_color _ _ _ H1), Hc1 in H1).
    assert (Hb2 : bal false n w2) by (by rewrite (bal_color _ _ _ H2), Hc2 in H2).
    assert (Hred : bal true n (N d true w1 w kw w2)) by by apply bal_R_N.
    exists ctx, (N d c X p k (N d true w1 w kw w2)), (if c then n else S n).
    split; [by rewrite ptr_N|]. split; [done|]. split; [cbn [plug]; by apply entries_plug_eq|]. split; [by destruct d|].
    assert (Hcol : color (N d c X p k (N d true w1 w kw w2)) = c) by by destruct d. unfold short, weight. rewrite Hcol.
    assert (Hbl : bal false (S n) (N d false X p k (N d true w1 w kw w2))) by by eapply bal_B_N.
    destruct c; (split; [|split; [|lia]]); auto using hole_weaken.
    replace (blackened _) with (N d false X p k (N d true w1 w kw w2)) by (by destruct d). exact Hbl.
  - assert (Hw : exists m, bal false m (plug ctx tr')) by (destruct c; (eapply hole_plug; [|by auto]); auto).
    destruct Hw as (m & Hm). assert (Hr' : rep t' p0 [] (plug ctx tr')) by (by apply (rep_plug t' p0 ctx tr')).
    exists [], (plug ctx tr'), m. split; [exact (rep_root _ _ _ _ Hr')|]. split; [done|].
    split; [cbn [plug]; by apply entries_plug_eq|].
    split; [by apply plug_ne|].
    unfold short, weight. rewrite <-(bal_color _ _ _ Hm). split; [done|]. split; [constructor|]. cbn [length]. lia.
Qed.

Lemma bal_black_N d n w : bal false (S n) w ->
  exists v1 b kb v2 e1 e2, w = N d false v1 b kb v2 /\ bal e1 n v1 /\ bal e2 n v2.
Proof.
  intros H. inversion H as [| |? e1 e2 l b kb r H1 H2]; subst.
  destruct d; [exists l, b, kb, r, e1, e2|exists r, b, kb, l, e2, e1]; done.
Qed.

(** With a red sibling. *)
Lemma red_fixing d t p0 ctx c X p k v1 b kb v2 w kw w2 n e1 e2 (w1 := N d false v1 b kb v2) (fr := above d c p k (N d true w1 w kw w2)) (A := whole (fr :: ctx) X) temp :
  rep t p0 (fr :: ctx) X -> linked t p0 (fr :: ctx) X -> temp = ptr (rb_sentinel t) X ->
  bal e1 n v1 -> bal e2 n v2 -> bal false (S n) w2 -> bal false n X -> hole false (S (S n)) ctx ->
  exists temp' t',
    ('(w, t) ← (t ← ngx_rbt_black w t;
                t ← ngx_rbt_red p t;
                t ← rotate d p t;
                n ← get temp t; p ← get (n_parent n) t;
                Some (child (opp d) p, t));
     delete_tail d w temp t) = Some (temp', t') /\ alters A t t' /\
    fixing (entries (plug (fr :: ctx) X)) (S (length ctx)) p0 temp' t'.
Proof.
  intros H HL -> He1 He2 H2 HX Hh. assert (H1 : bal false (S n) w1) by by eapply bal_B_N.
  assert (Hs := rep_sentinel _ _ _ _ H). assert (Hrep := H). apply rep_plug1 in H.
  unfold plug1 in H. cbn [fr above f_side f_color f_addr f_key f_other] in H.
  destruct (red_sibling d t p0 ctx c X p k true w1 w kw w2 H) as (t1 & E1 & Hr1 & Ha1).
  assert (HA : A ≡ₚ whole ctx (N d c X p k (N d true w1 w kw w2))) by apply whole_plug1. rewrite <-HA in Ha1.
  set (f1 := above d true p k w1). set (f2 := above d false w kw w2).
  assert (H3 : rep t1 p0 (f1 :: f2 :: ctx) X) by by apply rep_plug1, rep_plug1.
  assert (HL3 : linked t1 p0 (f1 :: f2 :: ctx) X) by (eapply linked_alters; [exact H3|exact HL|exact Ha1|exact Hs|done]).
  destruct (fix_reads _ _ _ _ _ H3 HL3) as (nx & pn & E2 & Hp & E3 & Epn). rewrite (proj1 Ha1) in E2.
  destruct (ngx_rbt_black w t) as [u1|]; [|done]. cbn [mbind option_bind] in E1 |- *.
  destruct (ngx_rbt_red p u1) as [u2|]; [|done]. cbn [mbind option_bind] in E1 |- *. rewrite E1. cbn [mbind option_bind].
  rewrite E2. cbn [mbind option_bind]. rewrite Hp, E3. cbn [mbind option_bind]. rewrite Epn, (proj2 (child_side _ _ _ _ _ _)).
  cbn [f1 above f_other]. unfold w1. rewrite ptr_N, <-(proj1 Ha1).
  destruct (tail_fixing d t1 p0 (f2 :: ctx) true X p k v1 b kb v2 n e1 e2 H3 HL3 He1 He2 HX) as (temp' & t' & E & Ha & Hfx); [|done|].
  { intros _. eapply hole_B; [done|exact H2|exact Hh]. }
  exists temp', t'. split; [exact E|]. split.
  - eapply alters_trans; [exact Ha1|]. eapply alters_perm; [|exact Ha]. rewrite HA, !whole_plug1. unfold plug1, f1, f2.
    unfold w1. cbn [above f_side f_color f_addr f_key f_other]. same_addrs.
  - destruct Hfx as (ctx' & tr' & n' & ? & ? & He & ? & ? & ? & ?). exists ctx', tr', n'. repeat (split; [done|]).
    split. { rewrite He. cbn [plug]. apply entries_plug_eq. unfold plug1, f2, fr, w1. cbn [above f_side f_color f_addr f_key f_other].
             by rewrite <-(entries_rotate d c X p k true). }
    repeat (split; [done|]). cbn [length] in *. lia.
Qed.

Lemma delete_turn_rep t p0 f ctx X n :
  rep t p0 (f :: ctx) X -> linked t p0 (f :: ctx) X -> bal false n X -> hole false (S n) (f :: ctx) ->
  exists temp t', delete_turn (ptr (rb_sentinel t) X) t = Some (temp, t') /\ alters (whole (f :: ctx) X) t t' /\
    fixing (entries (plug (f :: ctx) X)) (S (length ctx)) p0 temp t'.
Proof.
  intros H HL HX Hh. destruct (fix_reads _ _ _ _ _ H HL) as (nx & pn & E1 & Hp & E2 & Epn).
  rewrite delete_turn_side, E1. cbn [mbind option_bind]. rewrite Hp, E2. cbn [mbind option_bind].
  destruct f as [d c p k w]. apply hole_inv in Hh as (cw & Hw & Hct & Hcf). cbn [f_side f_color f_addr f_key f_other] in *.
  destruct w as [|c1 wl a kw wr]; [by inversion Hw|]. destruct (N_x d c1 wl a kw wr) as (w1 & w2 & Ew & _). rewrite Ew in *.
  assert (Hrep := H). apply rep_plug1 in H. unfold plug1 in H. cbn [f_side f_color f_addr f_key f_other] in H.
  assert (Hside : (if ptr (rb_sentinel t) X =? n_left pn then Lft else Rgt) = d).
  { apply focus_below, frame_ne in H; [|by destruct d]. cbn [f_other] in H. rewrite Epn.
    destruct d; cbn [mk_side n_left]; [by rewrite Z.eqb_refl|]. by rewrite (proj2 (Z.eqb_neq _ _)). }
  rewrite Hside, Epn, (proj2 (child_side _ _ _ _ _ _)), ptr_N. unfold delete_side, ngx_rbt_is_red.
  rewrite (rep_get _ _ _ _ _ _ _ _ _ (proj1 (focus_below _ _ _ _ _ _ _ _ _) H)). cbn [mbind option_bind].
  rewrite (proj2 (proj2 (side_fields _ _ _ _ _ _))). destruct c1.
  - assert (Hcw := bal_color _ _ _ Hw). destruct c; [destruct (Hct eq_refl) as [Hf _]; rewrite Hf in Hcw; by destruct d|].
    apply bal_N_inv in Hw as [_ [(_ & Hb1 & Hb2)|[? _]]]; [|done].
    destruct (bal_black_N d n w1 Hb1) as (v1 & b & kb & v2 & e1 & e2 & -> & He1 & He2).
    destruct (red_fixing d t p0 ctx false X p k v1 b kb v2 a kw w2 n e1 e2 (ptr (rb_sentinel t) X)) as (temp & t' & E & Ha & Hfx); try done; [by apply Hcf|].
    exists temp, t'. split; [exact E|]. by split.
  - assert (Hcw := bal_color _ _ _ Hw).
    apply bal_N_inv in Hw as [-> [[? _]|(_ & m & b1 & b2 & [= <-] & Hb1 & Hb2)]]; [done|].
    destruct (tail_fixing d t p0 ctx c X p k w1 a kw w2 n b1 b2) as (temp & t' & E & Ha & Hfx); try done.
    { intros ->. by apply Hct. }
    exists temp, t'. split; [exact E|]. split; [exact Ha|]. destruct Hfx as (ctx' & tr' & n' & ? & ? & ? & ? & ? & ? & ?).
    exists ctx', tr', n'. repeat (split; [done|]). destruct c; lia.
Qed.

Lemma position_ne t p0 f ctx X : rep t p0 (f :: ctx) X -> ptr (rb_sentinel t) X <> rb_root t.
Proof.
  intros H. destruct X as [|c l a k r]; [|by apply (not_root _ _ _ _ _ H)]. cbn [ptr]. rewrite (rep_root _ _ _ _ H).
  intros Eq. apply (rep_sentinel _ _ _ _ H). unfold whole. rewrite Eq at 1. apply elem_of_app. left. apply ptr_plug1_in.
Qed.

Lemma delete_loop_rep fuel : forall t p0 ctx X n,
  rep t p0 ctx X -> linked t p0 ctx X -> short n X -> hole false (S n) ctx -> (X = E -> ctx <> []) -> (weight ctx X < fuel)%nat ->
  exists t' tr' m, ('(temp, t) ← delete_loop fuel (ptr (rb_sentinel t) X) t; ngx_rbt_black temp t) = Some t' /\
    rep t' p0 [] tr' /\ bal false m tr' /\ entries tr' = entries (plug ctx X) /\ alters (whole ctx X) t t'.
Proof.
  induction fuel as [|fuel IH]; intros t p0 ctx X n H HL Hsh Hh Hne Hw; [lia|]. cbn [delete_loop].
  assert (Hstop : X <> E -> color X = true \/ ctx = [] -> exists t' tr' m, ngx_rbt_black (ptr (rb_sentinel t) X) t = Some t' /\
    rep t' p0 [] tr' /\ bal false m tr' /\ entries tr' = entries (plug ctx X) /\ alters (whole ctx X) t t').
  { intros HX Hc. destruct X as [|c0 l a k r]; [done|]. cbn [ptr].
    destruct (put_color Lft t p0 ctx c0 false l a k r H) as (t' & E1 & H' & Ha). cbn [N] in *.
    assert (Hm : exists m, bal false m (plug ctx (T false l a k r))).
    { unfold short in Hsh. destruct c0; cbn [color blackened] in Hsh; [by eapply hole_plug|].
      destruct Hc as [? | ->]; [done|]. by exists n. }
    destruct Hm as (m & Hm). exists t', (plug ctx (T false l a k r)), m. split; [done|].
    split; [by apply (proj1 (rep_plug t' p0 ctx _))|]. split; [done|]. split; [by apply entries_plug_eq|done]. }
  destruct ctx as [|f ctx].
  - rewrite (rep_root _ _ _ _ H). cbn [plug]. rewrite Z.eqb_refl. cbn [mbind option_bind]. apply Hstop; [|by right].
    intros Eq. by apply Hne.
  - replace (ptr (rb_sentinel t) X =? rb_root t) with false by (symmetry; apply Z.eqb_neq; exact (position_ne _ _ _ _ _ H)). rewrite (is_black_color _ _ _ _ H). cbn [mbind option_bind].
    destruct (color X) eqn:Ec; cbn [negb]; [apply Hstop; [by intros -> |by left]|]. unfold short in Hsh. rewrite Ec in Hsh.
    destruct (delete_turn_rep t p0 f ctx X n H HL Hsh Hh) as (temp & t1 & -> & Ha1 & Hfx). cbn [mbind option_bind].
    destruct Hfx as (ctx1 & tr1 & n1 & -> & H1 & He1 & Hne1 & Hsh1 & Hh1 & Hw1).
    destruct (IH t1 p0 ctx1 tr1 n1 H1) as (t' & tr' & m & E & H' & Hb & He & Ha); try done; [by eapply linked_rep|unfold weight in Hw; rewrite Ec in Hw; cbn [length] in Hw; lia|].
    exists t', tr', m. split; [exact E|]. split; [done|]. split; [done|]. split; [by rewrite He|].
    eapply alters_trans; [exact Ha1|]. eapply alters_perm; [|exact Ha].
    unfold whole. rewrite <-!addrs_plug, !addrs_entries. by rewrite He1.
Qed.
