(* ===== verification/RbtreeSplice.v ===== *)
(** * Red-black trees: a node leaves its place

    The first half of [ngx_rbtree_delete]: the node, or the next one in order, is
    replaced by its only child, and the next one takes the place of the node. *)

From stdpp Require Import gmap.
From S2P Require Import Prelude Rbtree RbtreeSpec RbtreeInsert RbtreeFix.

#[local] Notation E := RbtreeSpec.E.

(** Memory that is not of the tree. *)
Lemma rep_alters A t t' p0 ctx X :
  rep t p0 ctx X -> alters A t t' -> (forall z, z ∈ rb_sentinel t :: whole ctx X -> z ∉ A) -> rb_root t' = rb_root t ->
  rep t' p0 ctx X.
Proof.
  intros [H1 H2 H3 H4 (ns & H5 & H6)] Ha Hd Hr. unfold whole in Hd. constructor; rewrite ?(proj1 Ha).
  - by rewrite Hr.
  - eapply ctx_at_alters; [exact H2|exact Ha|]. intros z Hz. apply Hd. set_solver + Hz.
  - eapply tree_at_alters; [exact H3|exact Ha|]. intros z Hz. apply Hd. set_solver + Hz.
  - exact H4.
  - exists ns. split; [|done]. eapply get_alters; [exact H5|exact Ha|]. apply Hd. set_solver +.
Qed.

Lemma delete_clear_rep t p0 ctx X a n :
  rep t p0 ctx X -> get a t = Some n -> a ∉ rb_sentinel t :: whole ctx X ->
  exists t', delete_clear a t = Some t' /\ rep t' p0 ctx X /\ alters [a] t t'.
Proof.
  intros H Hn Ha. unfold delete_clear. rewrite (put_upd _ _ _ _ Hn). cbn [mbind option_bind].
  do 2 (rewrite (put_upd _ _ _ _ (get_upd_eq _ _ _)); cbn [mbind option_bind]).
  rewrite (put_upd _ _ _ _ (get_upd_eq _ _ _)). eexists. split; [done|]. set (t' := upd a _ _).
  assert (Hal : alters [a] t t').
  { unfold t'. repeat (eapply alters_trans; [|apply alters_upd; set_solver +]). apply alters_refl. }
  split; [|exact Hal]. eapply rep_alters; [exact H|exact Hal| |done]. intros z Hz. set_solver + Hz Ha.
Qed.

(** ** The only child in the place of its parent *)

Definition black_sentinel (t : rbtree) : Prop := exists n, get (rb_sentinel t) t = Some n /\ n_color n = false.

(** [temp->parent = ...], also where [temp] is the sentinel. *)
Lemma put_parent t par X v s :
  s = rb_sentinel t -> tree_at s (rb_nodes t) par X -> black_sentinel t -> s ∉ addrs X -> NoDup (addrs X) ->
  exists t', put (ptr s X) (set_parent v) t = Some t' /\ tree_at s (rb_nodes t') v X /\
    (exists n, get (ptr s X) t' = Some n /\ n_parent n = v) /\ alters (s :: addrs X) t t' /\
    rb_root t' = rb_root t /\ black_sentinel t'.
Proof.
  intros -> HX (ns & Hns & Hb) Hs Hnd. destruct X as [|c l a k r]; cbn [ptr addrs] in *.
  - rewrite (put_upd _ _ _ _ Hns). eexists. split; [done|]. split; [done|].
    split; [exists (set_parent v ns); split; [apply get_upd_eq|done]|]. split; [apply alters_upd; set_solver +|]. split; [done|].
    exists (set_parent v ns). split; [apply get_upd_eq|done].
  - destruct HX as (Ha & Hl & Hr). rewrite (put_upd a _ t _ Ha). eexists. split; [done|]. nodup_facts Hnd.
    split; [|split; [eexists; split; [apply get_upd_eq|done]|split; [apply alters_upd; set_solver +|split; [done|]]]].
    + cbn [tree_at upd rb_nodes]. split; [by rewrite lookup_insert_eq|].
      split; (eapply tree_at_frame; [done|]); intros z Hz; apply lookup_insert_ne; intros <-; set_solver.
    + exists ns. split; [|done]. cbn [upd rb_sentinel]. rewrite get_upd_ne; [done|]. intros ->. set_solver + Hs.
Qed.

Lemma unlink_child t p0 f C d cs X m km :
  rep t p0 (f :: C) (N d cs X m km E) ->
  exists t', (p ← get (f_addr f) t;
      if m =? n_left p then put (f_addr f) (set_left (ptr (rb_sentinel t) X)) t
      else put (f_addr f) (set_right (ptr (rb_sentinel t) X)) t) = Some t' /\
    ctx_at (rb_sentinel t) (rb_nodes t') p0 (f :: C) (ptr (rb_sentinel t) X) /\
    alters (ctx_addrs (f :: C)) t t' /\ rb_root t' = rb_root t.
Proof.
  intros H. set (s := rb_sentinel t). assert (Hne := position_ne _ _ _ _ _ H). rewrite ptr_N in Hne.
  assert (Hsib : m <> ptr s (f_other f)).
  { pose proof (frame_ne _ _ _ _ _ H) as Hf. rewrite ptr_N in Hf. apply Hf. by destruct d. }
  assert (Hnd := rep_nodup _ _ _ _ H). rewrite addrs_N in Hnd. nodup_facts Hnd. destruct H as [_ Hc _ _ _]. rewrite ptr_N in Hc.
  destruct (relink_ctx Lft m (ptr s X) t p0 (f :: C)) as (t' & E1 & H1 & H2 & H3); try done.
  { apply ptr_ne; [intros ->|]; set_solver. } { set_solver. } { intros ->. set_solver. } { by intros f' C' [= <- <-]. }
  exists t'. split; [|done]. rewrite <-relink_eq in E1. by rewrite (proj2 (Z.eqb_neq _ _) Hne) in E1.
Qed.

(** The node has at most one child, and is not the root. *)
Lemma unlink_self t p0 f C d cs X m km (A := rb_sentinel t :: whole (f :: C) (N d cs X m km E)) :
  rep t p0 (f :: C) (N d cs X m km E) ->
  exists t', delete_unlink m m (ptr (rb_sentinel t) X) t = Some t' /\ rep t' p0 (f :: C) X /\ linked t' p0 (f :: C) X /\
    alters A t t' /\ get m t' = get m t.
Proof.
  intros H. assert (Hg := rep_get _ _ _ _ _ _ _ _ _ H). set (s := rb_sentinel t) in *. cbn [par_of] in Hg. unfold delete_unlink.
  rewrite Hg. cbn [mbind option_bind]. rewrite (proj1 (proj2 (side_fields _ _ _ _ _ _))).
  destruct (unlink_child t p0 f C d cs X m km H) as (t1 & E1 & Hc1 & Ha1 & Hr1). fold s in E1, Hc1.
  assert (Hnd := rep_nodup _ _ _ _ H). rewrite addrs_N in Hnd. assert (Hnd' := Hnd). nodup_facts Hnd.
  destruct (get (f_addr f) t) as [p|]; [|done]. cbn [mbind option_bind] in E1 |- *. rewrite E1, Z.eqb_refl. cbn [mbind option_bind].
  rewrite (get_alters _ _ _ _ _ Hg Ha1) by set_solver. cbn [mbind option_bind]. rewrite (proj1 (proj2 (side_fields _ _ _ _ _ _))).
  assert (HX : tree_at s (rb_nodes t) m X) by (destruct H as [_ _ (_ & ? & _)%tree_at_N _ _]; done).
  destruct (put_parent t1 m X (f_addr f) s) as (t2 & E2 & HX2 & Hl2 & Ha2 & Hr2 & Hb2); [by rewrite (proj1 Ha1)| | | | |].
  { eapply tree_at_alters; [exact HX|exact Ha1|]. set_solver. }
  { destruct (rep_black _ _ _ _ H) as (ns & Hns & Hb). exists ns. rewrite (proj1 Ha1). split; [|done]. eapply get_alters; [done|exact Ha1|set_solver]. }
  { set_solver. } { by rewrite app_nil_r in *. }
  exists t2. split; [exact E2|]. assert (Hs2 : rb_sentinel t2 = s) by (rewrite (proj1 Ha2); apply Ha1).
  split; [|split; [|split]].
  - constructor; rewrite ?Hs2; try done.
    + rewrite Hr2, Hr1, (rep_root _ _ _ _ H). apply ptr_plug1.
    + eapply ctx_at_alters; [exact Hc1|exact Ha2|]. intros z Hz. set_solver.
    + rewrite app_nil_r in *. apply NoDup_cons. split; [set_solver|]. apply NoDup_app. split; [done|]. split; [set_solver|done].
    + rewrite <-Hs2. exact Hb2.
  - unfold linked. rewrite Hs2. exact Hl2.
  - eapply alters_trans; (eapply alters_sub; [eassumption|]); intros z Hz; unfold A, whole; rewrite addrs_N; set_solver.
  - eapply get_alters; [|exact Ha2|set_solver]. eapply get_alters; [exact Hg|exact Ha1|set_solver].
Qed.

(** ** The next node in the place of the node *)

Lemma delete_replace_rep t p0 ctx c l a k r par m km nm (s := rb_sentinel t)
    (A := m :: whole ctx (T c l a k r)) :
  get a t = Some (mk_node k (ptr s l) (ptr s r) (par_of p0 ctx) c) -> ctx_at s (rb_nodes t) p0 ctx a ->
  tree_at s (rb_nodes t) a l -> tree_at s (rb_nodes t) par r ->
  rb_root t = ptr s (plug ctx (T c l a k r)) -> black_sentinel t ->
  NoDup (s :: m :: whole ctx (T c l a k r)) -> get m t = Some nm -> n_key nm = km ->
  exists t', delete_replace a m t = Some t' /\ rep t' p0 ctx (T c l m km r) /\ alters A t t' /\ get a t' = get a t.
Proof.
  intros Hga Hc Hl Hr Hroot (ns & Hns & Hbs) Hnd Hgm Hkm.
  assert (HP : s :: m :: whole ctx (T c l a k r) ≡ₚ s :: m :: a :: ctx_addrs ctx ++ addrs l ++ addrs r) by same_addrs.
  rewrite HP in Hnd. assert (Hnd' := Hnd). nodup_facts Hnd. unfold delete_replace. rewrite Hga. cbn [mbind option_bind n_left].
  assert (Hma : m <> a) by set_solver + Hnd1.
  assert (Hga' : forall v u, get a (upd m v u) = get a u) by (intros v u; by rewrite get_upd_ne).
  rewrite (put_upd _ _ _ _ Hgm). cbn [mbind option_bind]. rewrite !Hga', Hga. cbn [mbind option_bind n_right].
  rewrite (put_upd _ _ _ _ (get_upd_eq _ _ _)). cbn [mbind option_bind]. rewrite !Hga', Hga. cbn [mbind option_bind n_parent].
  rewrite (put_upd _ _ _ _ (get_upd_eq _ _ _)). cbn [mbind option_bind]. unfold ngx_rbt_copy_color.
  rewrite !Hga', Hga. cbn [mbind option_bind n_color].
  rewrite (put_upd _ _ _ _ (get_upd_eq _ _ _)). cbn [mbind option_bind].
  set (t4 := upd m _ _). assert (Ha4 : alters [m] t t4).
  { unfold t4. repeat (eapply alters_trans; [|apply alters_upd; set_solver +]). apply alters_refl. }
  assert (Hgm4 : get m t4 = Some (mk_node km (ptr s l) (ptr s r) (par_of p0 ctx) c)) by (unfold t4; rewrite get_upd_eq, <-Hkm; done).
  assert (Hr4 : rb_root t4 = rb_root t) by done. clearbody t4. assert (Hs4 := proj1 Ha4). fold s in Hs4.
  assert (Hga4 := get_alters _ _ _ _ _ Hga Ha4 ltac:(set_solver + Hma)).
  (* the node above *)
  assert (Hrootc : a = rb_root t4 <-> ctx = []).
  { rewrite Hr4, Hroot. destruct ctx as [|f ctx]; [done|]. split; [|done]. intros Eq. exfalso.
    pose proof (ptr_plug1_in s f ctx (T c l a k r)) as Hin. rewrite <-Eq in Hin. set_solver + Hin Hnd2. }
  destruct (relink_ctx Lft a m t4 p0 ctx) as (t5 & E5 & Hc5 & Ha5 & Hr5); rewrite ?Hs4; try done.
  { set_solver + Hnd2. } { set_solver + Hnd0. }
  { intros f ctx' ->. apply ptr_ne; [set_solver + Hnd0|]. cbn [ctx_addrs] in *. set_solver + Hnd2. }
  { eapply ctx_at_alters; [exact Hc|exact Ha4|]. set_solver + Hnd1. }
  rewrite <-relink_eq in E5. change (set_child Lft m) with (set_left m) in E5. change (set_child (opp Lft) m) with (set_right m) in E5.
  rewrite Hga4. cbn [mbind option_bind n_parent child] in E5 |- *. rewrite E5. cbn [mbind option_bind].
  assert (Hgm5 : get m t5 = Some (mk_node km (ptr s l) (ptr s r) (par_of p0 ctx) c)) by (eapply get_alters; [exact Hgm4|exact Ha5|set_solver + Hnd1]).
  rewrite Hgm5. cbn [mbind option_bind n_left].
  assert (Hs5 : rb_sentinel t5 = s) by (by rewrite (proj1 Ha5)).
  destruct (reparent t5 l a m s) as (t6 & E6 & Hl6 & Ha6 & Hr6); [done| |set_solver + Hnd0|done|].
  { eapply tree_at_alters; [|exact Ha5|set_solver + Hnd4]. eapply tree_at_alters; [exact Hl|exact Ha4|set_solver + Hnd1]. }
  rewrite Hs5, E6. cbn [mbind option_bind]. assert (Hs6 : rb_sentinel t6 = s) by (by rewrite (proj1 Ha6)).
  assert (Hgm6 : get m t6 = Some (mk_node km (ptr s l) (ptr s r) (par_of p0 ctx) c)) by (eapply get_alters; [exact Hgm5|exact Ha6|set_solver + Hnd1]).
  rewrite Hgm6. cbn [mbind option_bind n_right].
  destruct (reparent t6 r par m s) as (t7 & E7 & Hr7 & Ha7 & Hrt7); [done| |set_solver + Hnd0|done|].
  { eapply tree_at_alters; [|exact Ha6|set_solver + Hnd6]. eapply tree_at_alters; [|exact Ha5|set_solver + Hnd4].
    eapply tree_at_alters; [exact Hr|exact Ha4|set_solver + Hnd1]. }
  rewrite Hs6, E7. eexists. split; [done|]. assert (Hs7 : rb_sentinel t7 = s) by (by rewrite (proj1 Ha7)).
  assert (Hal : forall z, z <> m -> z ∉ ctx_addrs ctx ++ addrs l ++ addrs r -> get z t7 = get z t).
  { intros z Hz1 Hz2. rewrite (alters_get _ _ _ _ Ha7) by set_solver + Hz2. rewrite (alters_get _ _ _ _ Ha6) by set_solver + Hz2.
    rewrite (alters_get _ _ _ _ Ha5) by set_solver + Hz2. apply (alters_get _ _ _ _ Ha4). set_solver + Hz1. }
  split; [|split; [|rewrite <-Hga; apply Hal; [done|exact Hnd2]]].
  - constructor; rewrite ?Hs7.
    + rewrite Hrt7, Hr6, Hr5. destruct ctx as [|f ctx]; [done|]. rewrite Hr4, Hroot. apply ptr_plug1.
    + cbn [ptr]. eapply ctx_at_alters; [|exact Ha7|set_solver + Hnd4]. eapply ctx_at_alters; [|exact Ha6|set_solver + Hnd4].
      by rewrite Hs4 in Hc5.
    + cbn [tree_at]. split; [|split; [|exact Hr7]].
      * change (get m t7 = Some (mk_node km (ptr s l) (ptr s r) (par_of p0 ctx) c)).
        eapply get_alters; [exact Hgm6|exact Ha7|set_solver + Hnd1].
      * eapply tree_at_alters; [exact Hl6|exact Ha7|set_solver + Hnd6].
    + assert (HP' : s :: ctx_addrs ctx ++ addrs (T c l m km r) ≡ₚ s :: m :: ctx_addrs ctx ++ addrs l ++ addrs r)
        by (cbn [addrs]; solve_Permutation).
      rewrite HP'. apply NoDup_cons. split; [set_solver + Hnd0|]. apply NoDup_cons. split; [set_solver + Hnd1|].
      repeat (apply NoDup_app; split; [done|]; split; [done|]). done.
    + exists ns. split; [|done]. rewrite <-Hns. apply Hal; [intros Eq; rewrite <-Eq in Hnd0|]; set_solver + Hnd0.
  - eapply alters_trans; [eapply alters_sub; [exact Ha4|set_solver +]|]. unfold A, whole. cbn [addrs].
    eapply alters_trans; [eapply alters_sub; [exact Ha5|set_solver +]|].
    eapply alters_trans; (eapply alters_sub; [eassumption|set_solver +]).
Qed.

(** ** The next node *)

Definition lefts (ctx : list frame) : Prop := Forall (fun f => f_side f = Lft) ctx.

Lemma min_loop_rep fuel : forall t p0 C c l a k r,
  rep t p0 C (T c l a k r) -> (depth (T c l a k r) <= fuel)%nat ->
  exists cm cs m km rm, T c l a k r = plug cm (T cs E m km rm) /\ lefts cm /\ min_loop fuel a t = Some m.
Proof.
  induction fuel as [|fuel IH]; intros t p0 C c l a k r H Hf; cbn [depth] in Hf; [lia|].
  cbn [min_loop]. rewrite (rep_get t p0 C Lft c l a k r H). cbn [mbind option_bind mk_side n_left].
  destruct l as [|c' l' a' k' r'].
  - cbn [ptr]. rewrite Z.eqb_refl. exists [], c, a, k, r. split; [done|]. split; [constructor|done].
  - assert (H' : rep t p0 (mk_frame Lft c a k r :: C) (T c' l' a' k' r')) by by apply rep_plug1.
    cbn [ptr]. rewrite (proj2 (Z.eqb_neq a' _)).
    2: { intros ->. apply (rep_sentinel _ _ _ _ H'). unfold whole. cbn [addrs]. set_solver +. }
    destruct (IH t p0 _ c' l' a' k' r' H') as (cm & cs & m & km & rm & Eq & Hl & Em); [cbn [depth] in *; lia|].
    exists (cm ++ [mk_frame Lft c a k r]), cs, m, km, rm. split; [by rewrite plug_app, <-Eq|].
    split; [|exact Em]. apply Forall_app. split; [done|]. by constructor.
Qed.

Lemma before_lefts ctx : lefts ctx -> before ctx = [].
Proof. induction 1 as [|f ctx Hf _ IH]; [done|]. cbn [before]. by rewrite Hf. Qed.

Lemma rep_plug_app t p0 c1 c2 X : rep t p0 (c1 ++ c2) X <-> rep t p0 c2 (plug c1 X).
Proof. revert X. induction c1 as [|f c1 IH]; intros X; [done|]. cbn [app plug]. rewrite rep_plug1. apply IH. Qed.

Lemma plug_at_app s h p0 c1 c2 x :
  ctx_at s h p0 (c1 ++ c2) (ptr s x) /\ tree_at s h (par_of p0 (c1 ++ c2)) x <->
  ctx_at s h p0 c2 (ptr s (plug c1 x)) /\ tree_at s h (par_of p0 c2) (plug c1 x).
Proof.
  revert x. induction c1 as [|f c1 IH]; intros x; [done|]. cbn [app plug]. rewrite <-IH. cbn [ctx_at par_of].
  unfold plug1. rewrite ptr_N, tree_at_N. tauto.
Qed.

Lemma par_of_app p0 m c1 f c2 : f_addr f = m -> par_of p0 (c1 ++ f :: c2) = par_of m c1.
Proof. intros <-. by destruct c1. Qed.

Lemma ctx_addrs_app c1 c2 : ctx_addrs (c1 ++ c2) = ctx_addrs c1 ++ ctx_addrs c2.
Proof. induction c1 as [|f c1 IH]; [done|]. cbn [app ctx_addrs]. by rewrite IH, <-app_assoc. Qed.

Lemma unlink_below t p0 ctx c l a k cm cs m km rm (s := rb_sentinel t) (r := plug cm (T cs E m km rm)) :
  rep t p0 ctx (T c l a k r) ->
  exists t', (x ← get m t;
      p ← get (n_parent x) t;
      t ← (if m =? n_left p then put (n_parent x) (set_left (ptr s rm)) t else put (n_parent x) (set_right (ptr s rm)) t);
      x ← get m t;
      (if n_parent x =? a then put (ptr s rm) (set_parent m) t else put (ptr s rm) (set_parent (n_parent x)) t)) = Some t' /\
    ctx_at s (rb_nodes t') p0 (mk_frame Rgt c a k l :: ctx) (ptr s (plug cm rm)) /\
    tree_at s (rb_nodes t') (if cm is [] then m else a) (plug cm rm) /\
    (exists n, get (ptr s rm) t' = Some n /\ n_parent n = par_of m cm) /\ get m t' = get m t /\
    rb_root t' = rb_root t /\ black_sentinel t' /\ alters (s :: whole ctx (T c l a k r)) t t'.
Proof.
  intros H. set (fa := mk_frame Rgt c a k l). change (T c l a k r) with (plug1 fa r) in H. apply rep_plug1 in H.
  assert (HC : rep t p0 (cm ++ fa :: ctx) (N Rgt cs rm m km E)) by (by apply rep_plug_app).
  assert (Hw : whole (cm ++ fa :: ctx) (N Rgt cs rm m km E) ≡ₚ whole ctx (T c l a k r)).
  { unfold whole. rewrite <-!addrs_plug, plug_app. done. }
  assert (Hpar : forall v, par_of v (cm ++ fa :: ctx) = par_of a cm) by (intros v; by apply par_of_app).
  remember (cm ++ fa :: ctx) as C eqn:EC. destruct C as [|f C]; [by destruct cm|].
  assert (Hg := rep_get _ _ _ _ _ _ _ _ _ HC). rewrite Hg. cbn [mbind option_bind].
  rewrite (proj1 (proj2 (side_fields _ _ _ _ _ _))). cbn [par_of].
  destruct (unlink_child t p0 f C Rgt cs rm m km HC) as (t1 & E1 & Hc1 & Ha1 & Hr1).
  assert (Hnd := rep_nodup _ _ _ _ HC). rewrite addrs_N, app_nil_r in Hnd. fold s in Hnd, E1, Hc1.
  assert (HA : forall z, z ∈ s :: ctx_addrs (f :: C) ++ addrs rm -> z ∈ s :: whole ctx (T c l a k r)).
  { intros z Hz. rewrite elem_of_cons, <-Hw. unfold whole. rewrite addrs_N. set_solver + Hz. }
  assert (Hfa : f_addr f ∈ ctx_addrs (f :: C)) by (cbn; set_solver +).
  assert (Hfne : (f_addr f =? a) = if cm is [] then true else false).
  { destruct cm as [|f0 cm]; injection EC as -> ->; [apply Z.eqb_refl|]. apply Z.eqb_neq. intros Eq.
    cbn [ctx_addrs] in Hnd. apply NoDup_cons in Hnd as [_ Hnd]. cbn [app] in Hnd. apply NoDup_cons in Hnd as [Hnd _]. apply Hnd.
    rewrite Eq, ctx_addrs_app. cbn [ctx_addrs fa f_addr]. set_solver +. }
  rewrite NoDup_cons, NoDup_app, NoDup_cons in Hnd. destruct Hnd as (Hns & _ & Hnc & Hnm & Hnr).
  destruct (get (f_addr f) t) as [p|]; [|done]. cbn [mbind option_bind] in E1 |- *. rewrite E1. cbn [mbind option_bind].
  assert (Hm1 : m ∉ ctx_addrs (f :: C)) by set_solver + Hnc.
  assert (Hg1 := get_alters _ _ _ _ _ Hg Ha1 Hm1). rewrite Hg1. cbn [mbind option_bind].
  rewrite (proj1 (proj2 (side_fields _ _ _ _ _ _))). cbn [par_of]. rewrite Hfne.
  destruct (put_parent t1 m rm (par_of m cm) s) as (t2 & E2 & HX2 & Hl2 & Ha2 & Hr2 & Hb2); [by rewrite (proj1 Ha1)| | | |done|].
  { destruct HC as [_ _ (_ & HX & _)%tree_at_N _ _]. eapply tree_at_alters; [exact HX|exact Ha1|]. set_solver + Hnc. }
  { destruct (rep_black _ _ _ _ HC) as (ns & Hs & Hb). exists ns. rewrite (proj1 Ha1). split; [|done].
    eapply get_alters; [exact Hs|exact Ha1|set_solver + Hns]. }
  { set_solver + Hns. }
  assert (Ha : alters (s :: ctx_addrs (f :: C) ++ addrs rm) t t2).
  { eapply alters_trans; (eapply alters_sub; [eassumption|]); intros z Hz; set_solver + Hz. }
  assert (Hc2 : ctx_at s (rb_nodes t2) p0 (f :: C) (ptr s rm)).
  { eapply ctx_at_alters; [exact Hc1|exact Ha2|]. set_solver + Hns Hnc. }
  exists t2. split; [|split; [|split; [|split; [exact Hl2|split; [|split; [congruence|split; [exact Hb2|]]]]]]].
  - destruct cm as [|f0 cm]; [exact E2|]. injection EC as -> ->. exact E2.
  - destruct cm as [|f0 cm]; [injection EC as -> ->; exact Hc2|]. rewrite EC in Hc2.
    apply (proj1 (plug_at_app s (rb_nodes t2) p0 (f0 :: cm) (fa :: ctx) rm)). split; [exact Hc2|exact HX2].
  - destruct cm as [|f0 cm]; [exact HX2|]. rewrite EC in Hc2.
    apply (proj1 (plug_at_app s (rb_nodes t2) p0 (f0 :: cm) (fa :: ctx) rm)). split; [exact Hc2|exact HX2].
  - eapply get_alters; [exact Hg1|exact Ha2|]. intros Hz. apply elem_of_cons in Hz as [Hz|Hz]; [rewrite <-Hz in Hns|]; set_solver + Hns Hnm Hz.
  - eapply alters_sub; [exact Ha|exact HA].
Qed.

Lemma unlink_next t p0 ctx c l a k cm cs m km rm (s := rb_sentinel t) (r := plug cm (T cs E m km rm))
    (C := cm ++ mk_frame Rgt c m km l :: ctx) :
  rep t p0 ctx (T c l a k r) ->
  exists t' na, delete_unlink a m (ptr s rm) t = Some t' /\ rep t' p0 C rm /\ linked t' p0 C rm /\
    alters (s :: whole ctx (T c l a k r)) t t' /\ get a t' = Some na.
Proof.
  intros H. destruct (unlink_below t p0 ctx c l a k cm cs m km rm H) as (t1 & E1 & Hc1 & Hr1 & Hl1 & Hm1 & Hrt & Hb1 & Ha1).
  fold s in E1, Hc1, Hr1, Hl1, Ha1. fold r in Ha1.
  assert (Hg : get m t = Some (mk_node km s (ptr s rm) (par_of a cm) cs)).
  { assert (HC : rep t p0 (cm ++ mk_frame Rgt c a k l :: ctx) (N Rgt cs rm m km E)) by (apply rep_plug_app, rep_plug1; exact H).
    rewrite (rep_get _ _ _ _ _ _ _ _ _ HC). by rewrite (par_of_app p0 a). }
  assert (Hw : whole ctx (T c l a k r) ≡ₚ m :: whole ctx (T c l a k (plug cm rm))).
  { unfold whole, r. cbn [addrs]. rewrite !addrs_plug. cbn [addrs]. solve_Permutation. }
  assert (Hnd := rep_nodup _ _ _ _ H). change (NoDup (s :: whole ctx (T c l a k r))) in Hnd. rewrite Hw in Hnd.
  assert (Hma : m <> a).
  { apply NoDup_cons in Hnd as [_ Hnd]. apply NoDup_cons in Hnd as [Hnd _]. intros ->. apply Hnd. unfold whole. cbn [addrs]. set_solver +. }
  destruct Hc1 as (Hga & Hl & Hc). cbn [f_addr f_side f_key f_other f_color] in *. assert (Hs1 := proj1 Ha1).
  destruct (delete_replace_rep t1 p0 ctx c l a k (plug cm rm) (if cm is [] then m else a) m km (mk_node km s (ptr s rm) (par_of a cm) cs))
    as (t2 & E2 & H2 & Ha2 & Hga2); rewrite ?Hs1; try done.
  { rewrite Hrt, (rep_root _ _ _ _ H). by apply ptr_plug. }
  { by rewrite Hm1. }
  exists t2. eexists. split; [|split; [|split; [|split; [|rewrite Hga2; exact Hga]]]].
  - unfold delete_unlink. destruct (get m t) as [x|]; [|done]. cbn [mbind option_bind] in E1 |- *.
    destruct (get (n_parent x) t) as [p|]; [|done]. cbn [mbind option_bind] in E1 |- *.
    destruct (if m =? n_left p then _ else _) as [u|]; [|done]. cbn [mbind option_bind] in E1 |- *.
    rewrite (proj2 (Z.eqb_neq _ _) Hma). destruct (get m u) as [x'|]; [|done]. cbn [mbind option_bind] in E1 |- *.
    rewrite E1. exact E2.
  - apply rep_plug_app, rep_plug1. exact H2.
  - assert (H2' : rep t2 p0 C rm) by (apply rep_plug_app, rep_plug1; exact H2).
    destruct rm as [|c0 l0 a0 k0 r0] eqn:Erm; [|by apply linked_rep]. destruct Hl1 as (n & Hn & Hp). exists n.
    unfold C. rewrite (par_of_app p0 m) by done. split; [|exact Hp]. cbn [ptr] in *. rewrite (proj1 Ha2), Hs1.
    eapply get_alters; [exact Hn|exact Ha2|]. apply NoDup_cons in Hnd as [Hnd _]. exact Hnd.
  - eapply alters_trans; [exact Ha1|]. eapply alters_sub; [exact Ha2|]. intros z Hz. rewrite elem_of_cons, Hw. by right.
Qed.
