(* ===== verification/RbtreeDelete.v ===== *)
(** * Red-black trees: deletion

    [ngx_rbtree_delete]: a node, or the next one in its place, leaves the tree
    (RbtreeSplice.v), and the tree is made balanced again (RbtreeFix.v).  The keys
    that are left stay in order. *)

From Stdlib Require Import Sorting.Sorted.
From stdpp Require Import gmap.
From S2P Require Import Prelude Rbtree RbtreeSpec RbtreeInsert RbtreeFix RbtreeSplice.

#[local] Notation E := RbtreeSpec.E.

(** ** The balance without a node *)

Lemma leave_bal d cs X m km c0 n C :
  bal c0 n (N d cs X m km E) -> hole c0 n C ->
  (cs = true -> exists n', bal false n' X /\ hole false n' C) /\ (cs = false -> exists n', short n' X /\ hole false (S n') C).
Proof.
  intros Hb Hh. apply bal_N_inv in Hb as [-> [(-> & HX & _)|(-> & m' & c1 & c2 & -> & HX & HE)]]; (split; [|]); intros [=].
  - exists n. split; [done|by apply hole_weaken].
  - exists m'. split; [|done]. unfold short. inversion HE; subst. inversion HX; subst; cbn [color blackened]; try done. by eapply bal_B.
Qed.

Lemma hole_relabel d c a k a' k' o ctx cm : forall b n,
  hole b n (cm ++ mk_frame d c a k o :: ctx) -> hole b n (cm ++ mk_frame d c a' k' o :: ctx).
Proof.
  induction cm as [|f cm IH]; intros b n H; cbn [app] in *; inversion H; subst; cbn [f_color f_other] in *;
    solve [by apply hole_R; auto | by eapply hole_B; eauto].
Qed.

(** ** After the node has left *)

Lemma delete_finish t p0 f C X a n cs :
  rep t p0 (f :: C) X -> linked t p0 (f :: C) X -> get a t = Some n -> a ∉ rb_sentinel t :: whole (f :: C) X ->
  (cs = true -> exists n', bal false n' X /\ hole false n' (f :: C)) ->
  (cs = false -> exists n', short n' X /\ hole false (S n') (f :: C)) ->
  exists t' tr' m', (t1 ← delete_clear a t;
      if cs : bool then Some t1
      else '(temp, t) ← delete_loop (S (rb_fuel t1)) (ptr (rb_sentinel t) X) t1; ngx_rbt_black temp t) = Some t' /\
    rep t' p0 [] tr' /\ bal false m' tr' /\ entries tr' = entries (plug (f :: C) X) /\ alters (a :: whole (f :: C) X) t t'.
Proof.
  intros H HL Hn Ha Ht Hf. destruct (delete_clear_rep t p0 (f :: C) X a n H Hn Ha) as (t1 & -> & H1 & Ha1). cbn [mbind option_bind].
  assert (Ha1' : alters (a :: whole (f :: C) X) t t1) by (eapply alters_sub; [exact Ha1|set_solver +]).
  destruct cs.
  - destruct (Ht eq_refl) as (n' & Hb & Hh). destruct (hole_plug _ _ _ _ Hh Hb) as (m' & Hm).
    exists t1, (plug (f :: C) X), m'. split; [done|]. split; [by apply (proj1 (rep_plug t1 p0 (f :: C) X))|]. done.
  - destruct (Hf eq_refl) as (n' & Hs & Hh). rewrite <-(proj1 Ha1).
    assert (HL1 : linked t1 p0 (f :: C) X).
    { eapply linked_alters; [exact H1|exact HL|exact Ha1| |done]. set_solver + Ha. }
    destruct (delete_loop_rep (S (rb_fuel t1)) t1 p0 (f :: C) X n' H1 HL1 Hs Hh) as (t' & tr' & m' & E1 & H' & Hb & He & Ha'); [done| |].
    { pose proof (nodes_enough _ _ _ _ H1) as Hsz. unfold whole in Hsz. rewrite length_app in Hsz. pose proof (ctx_length (f :: C)).
      unfold weight. destruct (color X); lia. }
    exists t', tr', m'. split; [exact E1|]. split; [done|]. split; [done|]. split; [done|].
    eapply alters_trans; [exact Ha1'|]. eapply alters_sub; [exact Ha'|set_solver +].
Qed.

(** The root has at most one child. *)
Lemma delete_root t p0 d c X a k m :
  rep t p0 [] (N d c X a k E) -> bal false m (N d c X a k E) ->
  exists t' m', (t ← ngx_rbt_black (ptr (rb_sentinel t) X) (set_root (ptr (rb_sentinel t) X) t); delete_clear a t) = Some t' /\
    rep t' a [] (blackened X) /\ bal false m' (blackened X) /\ alters (rb_sentinel t :: whole [] (N d c X a k E)) t t'.
Proof.
  intros H Hb. set (s := rb_sentinel t).
  assert (Hg := rep_get _ _ _ _ _ _ _ _ _ H). assert (Hnd := rep_nodup _ _ _ _ H). rewrite addrs_N, app_nil_r in Hnd. cbn [ctx_addrs app] in Hnd.
  assert (H0 : rep (set_root (ptr s X) t) a [] X).
  { destruct H as [_ _ (_ & HX & _)%tree_at_N _ Hbl]. constructor; try done. cbn [ctx_addrs app].
    nodup_facts Hnd. apply NoDup_cons. split; [set_solver|done]. }
  assert (HB : exists t1, ngx_rbt_black (ptr s X) (set_root (ptr s X) t) = Some t1 /\ rep t1 a [] (blackened X) /\ alters (s :: addrs X) t t1).
  { destruct X as [|c1 l1 a1 k1 r1].
    - destruct (rep_black _ _ _ _ H0) as (ns & Hs & Hbs). exists (upd s (set_color false ns) (set_root s t)).
      split; [by apply put_upd|]. split; [|eapply alters_trans; [apply alters_root|apply alters_upd; set_solver +]]. destruct H0. constructor; try done.
      exists (set_color false ns). split; [apply get_upd_eq|done].
    - destruct (put_color Lft _ _ _ _ false _ _ _ _ H0) as (t1 & E1 & H1 & Ha1). exists t1. split; [exact E1|]. split; [exact H1|].
      eapply alters_trans; [apply alters_root|]. eapply alters_sub; [exact Ha1|]. set_solver +. }
  destruct HB as (t1 & -> & H1 & Ha1). cbn [mbind option_bind].
  assert (Hax : a ∉ s :: addrs X) by (fold s in Hnd; nodup_facts Hnd; set_solver).
  destruct (delete_clear_rep t1 a [] (blackened X) a _ H1 (get_alters _ _ _ _ _ Hg Ha1 Hax)) as (t' & E' & H' & Ha').
  { unfold whole. cbn [ctx_addrs app]. rewrite addrs_entries, entries_blackened, <-addrs_entries, (proj1 Ha1). exact Hax. }
  assert (Hb' : exists m', bal false m' (blackened X)).
  { apply bal_N_inv in Hb as [_ [(_ & HX & _)|(_ & m1 & c1 & c2 & _ & HX & _)]]; [|];
      (inversion HX; subst; cbn [blackened]; [exists 0%nat; constructor|..]); eexists; by eapply bal_B. }
  destruct Hb' as (m' & Hm'). exists t', m'. split; [exact E'|]. split; [exact H'|]. split; [exact Hm'|].
  eapply alters_trans; (eapply alters_sub; [eassumption|]); intros z Hz; unfold whole; rewrite addrs_N; fold s; set_solver + Hz.
Qed.

(** ** The whole of it *)

Definition deleted (t : rbtree) (a : Z) (A : list Z) (keys : list (Z * Z)) : Prop :=
  exists t' p0 tr m, ngx_rbtree_delete a t = Some t' /\ rep t' p0 [] tr /\ bal false m tr /\ entries tr = keys /\ alters A t t'.

Lemma addrs_of_N d c x a k y : a ∈ addrs (N d c x a k y).
Proof. rewrite addrs_N. set_solver +. Qed.

Lemma delete_single t p0 ctx m d c X a k :
  rep t p0 ctx (N d c X a k E) -> bal false m (plug ctx (N d c X a k E)) -> delete_subst a t = Some (a, ptr (rb_sentinel t) X) ->
  deleted t a (rb_sentinel t :: whole ctx (N d c X a k E)) (before ctx ++ entries X ++ after ctx).
Proof.
  intros H Hb Es. unfold deleted, ngx_rbtree_delete. rewrite Es. cbn [mbind option_bind]. destruct ctx as [|f C].
  - rewrite (rep_root _ _ _ _ H). cbn [plug]. rewrite ptr_N, Z.eqb_refl.
    destruct (delete_root t p0 d c X a k m H Hb) as (t' & m' & E1 & H1 & Hb1 & Ha1). exists t', a, (blackened X), m'.
    split; [exact E1|]. split; [done|]. split; [done|]. split; [cbn [before after app]; by rewrite app_nil_r, entries_blackened|done].
  - assert (Hne := position_ne _ _ _ _ _ H). rewrite ptr_N in Hne. rewrite (proj2 (Z.eqb_neq _ _) Hne).
    unfold ngx_rbt_is_red. rewrite (rep_get _ _ _ _ _ _ _ _ _ H). cbn [mbind option_bind]. rewrite (proj2 (proj2 (side_fields _ _ _ _ _ _))).
    destruct (unlink_self t p0 f C d c X a k H) as (t1 & -> & H1 & HL1 & Ha1 & Hg1). cbn [mbind option_bind].
    destruct (plug_hole m _ _ Hb) as (c0 & n0 & Hb0 & Hh0). destruct (leave_bal _ _ _ _ _ _ _ _ Hb0 Hh0) as [Ht Hf].
    rewrite (rep_get _ _ _ _ _ _ _ _ _ H) in Hg1.
    assert (Hnd := rep_nodup _ _ _ _ H). rewrite addrs_N, app_nil_r in Hnd.
    destruct (delete_finish t1 p0 f C X a _ c H1 HL1 Hg1) as (t' & tr' & m' & E1 & H' & Hb' & He' & Ha'); [|done|done|].
    { rewrite (proj1 Ha1). unfold whole. nodup_facts Hnd. set_solver. }
    rewrite (proj1 Ha1) in E1. exists t', p0, tr', m'. split; [exact E1|]. split; [done|]. split; [done|].
    split; [by rewrite He', entries_plug|]. eapply alters_trans; [exact Ha1|]. eapply alters_sub; [exact Ha'|].
    intros z Hz. unfold whole in *. rewrite addrs_N. set_solver + Hz.
Qed.

Lemma delete_next t p0 ctx n c l a k cm cs m km rm (r := plug cm (T cs E m km rm)) :
  rep t p0 ctx (T c l a k r) -> bal false n (plug ctx (T c l a k r)) -> lefts cm ->
  delete_subst a t = Some (m, ptr (rb_sentinel t) rm) ->
  deleted t a (rb_sentinel t :: whole ctx (T c l a k r)) (before ctx ++ entries l ++ entries r ++ after ctx).
Proof.
  intros H Hb Hl Es. unfold deleted, ngx_rbtree_delete. rewrite Es. cbn [mbind option_bind].
  set (C0 := cm ++ mk_frame Rgt c a k l :: ctx). set (C := cm ++ mk_frame Rgt c m km l :: ctx).
  assert (H0 : rep t p0 C0 (N Rgt cs rm m km E)) by (apply rep_plug_app, rep_plug1; exact H).
  assert (Hb0 : bal false n (plug C0 (N Rgt cs rm m km E))) by (unfold C0; rewrite plug_app; exact Hb).
  destruct (unlink_next t p0 ctx c l a k cm cs m km rm H) as (t1 & na & E1 & H1 & HL1 & Ha1 & Hg1). fold C in H1, HL1. fold r in Ha1.
  assert (Hm : m <> rb_root t /\ exists f C', C0 = f :: C').
  { unfold C0 in *. destruct cm as [|f cm]; cbn [app] in *; (split; [|eauto]); exact (position_ne _ _ _ _ _ H0). }
  destruct Hm as (Hne & _). rewrite (proj2 (Z.eqb_neq _ _) Hne). unfold ngx_rbt_is_red.
  rewrite (rep_get _ _ _ _ _ _ _ _ _ H0). cbn [mbind option_bind]. rewrite (proj2 (proj2 (side_fields _ _ _ _ _ _))).
  rewrite E1. cbn [mbind option_bind].
  destruct (plug_hole n _ _ Hb0) as (c0 & n0 & Hb1 & Hh0). apply (hole_relabel Rgt c a k m km l ctx cm) in Hh0. fold C in Hh0.
  destruct (leave_bal _ _ _ _ _ _ _ _ Hb1 Hh0) as [Ht Hf].
  assert (Hw : whole ctx (T c l a k r) ≡ₚ a :: whole C rm).
  { unfold whole. rewrite <-(addrs_plug C), <-(addrs_plug ctx). unfold C, r. rewrite plug_app. cbn [plug]. unfold plug1.
    cbn [f_side f_color f_addr f_key f_other N]. rewrite !addrs_plug. cbn [addrs]. rewrite !addrs_plug. cbn [addrs]. solve_Permutation. }
  assert (Hnd := rep_nodup _ _ _ _ H). change (NoDup (rb_sentinel t :: whole ctx (T c l a k r))) in Hnd. rewrite Hw in Hnd.
  assert (Hne0 : exists f C', C = f :: C') by (unfold C; destruct cm; eauto). destruct Hne0 as (f & C' & EC). rewrite EC in *.
  destruct (delete_finish t1 p0 f C' rm a na cs H1 HL1 Hg1) as (t' & tr' & m' & E2 & H' & Hb' & He' & Ha'); [|done|done|].
  { rewrite (proj1 Ha1). rewrite Permutation_swap in Hnd. apply NoDup_cons in Hnd as [Hnd _]. exact Hnd. }
  rewrite (proj1 Ha1) in E2. exists t', p0, tr', m'. split; [exact E2|]. split; [done|]. split; [done|]. split.
  - rewrite He', <-EC. unfold C, r. rewrite plug_app, !entries_plug. cbn [before after f_side f_color f_addr f_key f_other entries].
    rewrite (before_lefts cm Hl). cbn [app]. by rewrite <-!app_assoc.
  - eapply alters_trans; [exact Ha1|]. eapply alters_sub; [exact Ha'|]. intros z Hz. rewrite elem_of_cons, Hw. by right.
Qed.

Lemma delete_rep t p0 ctx n c l a k r :
  rep t p0 ctx (T c l a k r) -> bal false n (plug ctx (T c l a k r)) ->
  deleted t a (rb_sentinel t :: whole ctx (T c l a k r)) (before ctx ++ entries l ++ entries r ++ after ctx).
Proof.
  intros H Hb. assert (Hg := rep_get t p0 ctx Lft c l a k r H). set (s := rb_sentinel t) in *.
  assert (Hptr : forall x, (forall z, z ∈ addrs x -> z ∈ whole ctx (T c l a k r)) -> (ptr s x =? s) = if x is E then true else false).
  { intros [|c1 l1 a1 k1 r1] Hx; [apply Z.eqb_refl|]. apply Z.eqb_neq. cbn [ptr]. intros ->. apply (rep_sentinel _ _ _ _ H).
    apply Hx. cbn [addrs]. set_solver +. }
  assert (Hl := Hptr l ltac:(unfold whole; cbn [addrs]; set_solver +)).
  assert (Hr := Hptr r ltac:(unfold whole; cbn [addrs]; set_solver +)).
  assert (Es : delete_subst a t =
    if ptr s l =? s then Some (a, ptr s r) else if ptr s r =? s then Some (a, ptr s l)
    else subst ← ngx_rbtree_min (ptr s r) t; x ← get subst t; Some (subst, if negb (n_left x =? s) then n_left x else n_right x)).
  { unfold delete_subst. by rewrite Hg. }
  rewrite Hl, Hr in Es. destruct l as [|cl ll al kl rl].
  - exact (delete_single t p0 ctx n Rgt c r a k H Hb Es).
  - destruct r as [|cr lr ar kr rr].
    + exact (delete_single t p0 ctx n Lft c _ a k H Hb Es).
    + set (l := T cl ll al kl rl) in *.
      assert (Hrr : rep t p0 (mk_frame Rgt c a k l :: ctx) (T cr lr ar kr rr)) by by apply rep_plug1.
      destruct (min_loop_rep (rb_fuel t) t p0 _ _ _ _ _ _ Hrr) as (cm & cs & m & km & rm & Eq & Hlm & Em).
      { pose proof (nodes_enough _ _ _ _ Hrr) as Hsz. unfold whole in Hsz. rewrite length_app in Hsz. pose proof (depth_addrs (T cr lr ar kr rr)). lia. }
      cbn [ptr] in Es. unfold ngx_rbtree_min in Es. rewrite Em in Es. cbn [mbind option_bind] in Es. rewrite Eq in *.
      assert (H0 : rep t p0 (cm ++ mk_frame Rgt c a k l :: ctx) (N Rgt cs rm m km E)) by (apply rep_plug_app, rep_plug1; exact H).
      rewrite (rep_get _ _ _ _ _ _ _ _ _ H0) in Es. cbn [mbind option_bind mk_side n_left n_right ptr] in Es. fold s in Es.
      rewrite Z.eqb_refl in Es. by apply (delete_next t p0 ctx n c l a k cm cs m km rm).
Qed.

(** ** The tree *)

Lemma entry_position x tr : x ∈ entries tr -> exists ctx c l r, tr = plug ctx (T c l (snd x) (fst x) r).
Proof.
  induction tr as [|c l IHl a k r IHr]; cbn [entries]; [set_solver|]. rewrite elem_of_app, elem_of_cons.
  intros [Hx|[-> |Hx]].
  - destruct (IHl Hx) as (ctx & c' & l' & r' & ->). exists (ctx ++ [mk_frame Lft c a k r]), c', l', r'. by rewrite plug_app.
  - by exists [], c, l, r.
  - destruct (IHr Hx) as (ctx & c' & l' & r' & ->). exists (ctx ++ [mk_frame Rgt c a k l]), c', l', r'. by rewrite plug_app.
Qed.

Lemma pivot_eq {A} (b b' : list A) x a a' : b ++ x :: a = b' ++ x :: a' -> NoDup (b' ++ x :: a') -> b = b' /\ a = a'.
Proof.
  revert b'. induction b as [|y b IH]; intros [|y' b'] Heq Hnd; cbn [app] in *; [by injection Heq| | |].
  - injection Heq as -> ->. apply NoDup_cons in Hnd as [Hnd _]. set_solver.
  - injection Heq as -> <-. apply NoDup_cons in Hnd as [Hnd _]. set_solver.
  - injection Heq as -> Heq. apply NoDup_cons in Hnd as [_ Hnd]. destruct (IH b' Heq Hnd) as [-> ->]. done.
Qed.

Lemma delete_shape t es1 k a es2 :
  tree_of t (es1 ++ (k, a) :: es2) ->
  exists t', ngx_rbtree_delete a t = Some t' /\ tree_of t' (es1 ++ es2) /\
    alters (rb_sentinel t :: map snd (es1 ++ (k, a) :: es2)) t t'.
Proof.
  intros (p0 & tr & m & H & Hb & He).
  destruct (entry_position (k, a) tr) as (ctx & c & l & r & ->); [rewrite He; set_solver +|]. cbn [fst snd] in *.
  assert (Hnd := rep_nodup _ _ _ _ H). cbn [ctx_addrs app] in Hnd. apply NoDup_cons in Hnd as [_ Hnd].
  rewrite addrs_entries, He in Hnd. assert (HndL := NoDup_fmap_1 snd _ Hnd). apply rep_plug in H.
  assert (Hw : whole ctx (T c l a k r) ≡ₚ map snd (es1 ++ (k, a) :: es2)).
  { unfold whole. by rewrite <-addrs_plug, addrs_entries, He. }
  rewrite entries_plug in He. cbn [entries] in He.
  destruct (pivot_eq (before ctx ++ entries l) es1 (k, a) (entries r ++ after ctx) es2) as [E1 E2]; [|done|].
  { rewrite <-He, <-!app_assoc. done. }
  destruct (delete_rep t p0 ctx m c l a k r H Hb) as (t' & p0' & tr' & m' & E' & H' & Hb' & He' & Ha').
  exists t'. split; [exact E'|]. split; [|by rewrite Hw in Ha'].
  exists p0', tr', m'. split; [done|]. split; [done|]. by rewrite He', <-E1, <-E2, <-app_assoc.
Qed.

Section Order.
Context {lt : Z -> Z -> bool} {valid : Z -> Prop} {rank : Z -> Z} `{!Ordered lt valid rank}.

Lemma sorted_remove (b : list (Z * Z)) x a :
  StronglySorted (key_le (rank := rank)) (b ++ x :: a) -> StronglySorted (key_le (rank := rank)) (b ++ a).
Proof.
  induction b as [|y b IH]; cbn [app]; intros H; apply StronglySorted_inv in H as [H Hy]; [done|].
  constructor; [by apply IH|]. rewrite Forall_app, Forall_cons in Hy. apply Forall_app. tauto.
Qed.

Lemma rbtree_delete_spec t es1 k a es2 :
  is_rbtree (rank := rank) (valid := valid) t (es1 ++ (k, a) :: es2) ->
  exists t', ngx_rbtree_delete a t = Some t' /\ is_rbtree (rank := rank) (valid := valid) t' (es1 ++ es2) /\
    alters (rb_sentinel t :: map snd (es1 ++ (k, a) :: es2)) t t'.
Proof.
  intros (H & Hs & Hv). destruct (delete_shape t es1 k a es2 H) as (t' & E' & H' & Ha). exists t'. split; [exact E'|].
  split; [|exact Ha]. split; [exact H'|]. split; [by eapply sorted_remove|].
  rewrite Forall_app, Forall_cons in Hv. apply Forall_app. tauto.
Qed.

End Order.
