(* ===== verification/RbtreeTree.v ===== *)
(** * Red-black trees: the sorted list

    What [ngx_rbtree_insert] and [ngx_rbtree_delete] promise their callers: a list
    of nodes sorted by key, among equal keys by the order of insertion, whatever
    the sequence of calls; the least node; a height logarithmic in the number of
    nodes. *)

From Stdlib Require Import Sorting.Sorted.
From stdpp Require Import gmap.
From S2P Require Import Prelude Rbtree RbtreeSpec RbtreeInsert RbtreeFix RbtreeSplice RbtreeDelete.

#[local] Notation E := RbtreeSpec.E.

(** ** The calls *)

(** The callers write the key before they insert the node. *)
Inductive rb_op : Type :=
  | Insert (key node : Z)
  | Delete (node : Z).

Definition rb_step (lt : Z -> Z -> bool) (op : rb_op) (t : rbtree) : option rbtree :=
  match op with
  | Insert key node => t ← put node (set_key key) t; ngx_rbtree_insert (insert_key lt) node t
  | Delete node => ngx_rbtree_delete node t
  end.

Fixpoint rb_run (lt : Z -> Z -> bool) (ops : list rb_op) (t : rbtree) : option rbtree :=
  match ops with
  | [] => Some t
  | op :: ops' => t ← rb_step lt op t; rb_run lt ops' t
  end.

(** What they do to the list of keys and nodes. *)
Definition remove_node (node : Z) (es : list (Z * Z)) : list (Z * Z) := List.filter (fun e => negb (snd e =? node)) es.

Definition list_step (lt : Z -> Z -> bool) (op : rb_op) (es : list (Z * Z)) : list (Z * Z) :=
  match op with
  | Insert key node => insert_entry (lt := lt) (key, node) es
  | Delete node => remove_node node es
  end.

(** A node is inserted when it is not in the tree, and deleted when it is. *)
Definition op_ok (valid : Z -> Prop) (nodes : list Z) (es : list (Z * Z)) (op : rb_op) : Prop :=
  match op with
  | Insert key node => valid key /\ node ∈ nodes /\ node ∉ map snd es
  | Delete node => node ∈ map snd es
  end.

Fixpoint ops_ok (lt : Z -> Z -> bool) (valid : Z -> Prop) (nodes : list Z) (es : list (Z * Z)) (ops : list rb_op) : Prop :=
  match ops with
  | [] => True
  | op :: ops' => op_ok valid nodes es op /\ ops_ok lt valid nodes (list_step lt op es) ops'
  end.

(** The nodes a caller may use. *)
Definition usable (t : rbtree) (nodes : list Z) : Prop :=
  Forall (fun p => p <> rb_sentinel t /\ is_Some (get p t)) nodes.

Lemma remove_split es1 k a es2 : NoDup (map snd (es1 ++ (k, a) :: es2)) -> remove_node a (es1 ++ (k, a) :: es2) = es1 ++ es2.
Proof.
  rewrite map_app. cbn [map snd]. intros (_ & Hd & (Ha & _)%NoDup_cons)%NoDup_app. unfold remove_node.
  rewrite List.filter_app. cbn [List.filter snd]. rewrite Z.eqb_refl. cbn [negb].
  assert (Hid : forall es, a ∉ map snd es -> List.filter (fun e : Z * Z => negb (e.2 =? a)) es = es).
  { induction es as [|x es IH]; [done|]. cbn [map List.filter]. intros Hx. rewrite (proj2 (Z.eqb_neq _ _)) by set_solver.
    cbn [negb]. by rewrite IH by set_solver. }
  rewrite !Hid; [done|done|]. intros Hin. by apply (Hd a Hin), elem_of_cons; left.
Qed.

Lemma bal_depth c n t : bal c n t -> (depth t <= 2 * n + (if c then 1 else 0))%nat /\ (2 ^ n <= S (length (entries t)))%nat.
Proof.
  induction 1 as [|n l a k r Hl [IH1 IH2] Hr [IH3 IH4]|n c1 c2 l a k r Hl [IH1 IH2] Hr [IH3 IH4]]; cbn [depth entries length];
    rewrite ?length_app; cbn [length Nat.pow] in *; [lia|lia|]. destruct c1, c2; lia.
Qed.

Lemma depth_log t es p0 tr m :
  rep t p0 [] tr -> bal false m tr -> entries tr = es -> (depth tr <= 2 * Nat.log2 (length es + 1))%nat.
Proof.
  intros _ Hb <-. destruct (bal_depth _ _ _ Hb) as [H1 H2].
  assert (m <= Nat.log2 (length (entries tr) + 1))%nat; [|lia].
  apply Nat.log2_le_pow2; lia.
Qed.

Section Order.
Context {lt : Z -> Z -> bool} {valid : Z -> Prop} {rank : Z -> Z} `{!Ordered lt valid rank}.

Notation rbt := (is_rbtree (valid := valid) (rank := rank)).

Lemma usable_alters A t t' nodes : usable t nodes -> alters A t t' -> usable t' nodes.
Proof.
  intros H Ha. eapply Forall_impl; [exact H|]. intros p (H1 & H2). cbv beta. rewrite (proj1 Ha).
  split; [done|]. by eapply alters_some.
Qed.

Lemma is_rbtree_alters A t t' es :
  rbt t es -> alters A t t' -> (forall z, z ∈ rb_sentinel t :: map snd es -> z ∉ A) -> rb_root t' = rb_root t -> rbt t' es.
Proof.
  intros ((p0 & tr & m & H & Hb & <-) & Hs) Ha Hd Hr. split; [|done]. exists p0, tr, m. split; [|done].
  eapply rep_alters; [exact H|exact Ha| |exact Hr]. unfold whole. cbn [ctx_addrs app]. by rewrite addrs_entries.
Qed.

Lemma is_rbtree_nodup t es : rbt t es -> NoDup (rb_sentinel t :: map snd es).
Proof.
  intros ((p0 & tr & m & H & Hb & <-) & Hs). rewrite <-addrs_entries. exact (rep_nodup _ _ _ _ H).
Qed.

Lemma rb_step_spec nodes op t es :
  rbt t es -> usable t nodes -> op_ok valid nodes es op ->
  exists t', rb_step lt op t = Some t' /\ rbt t' (list_step lt op es) /\ usable t' nodes.
Proof.
  intros H Hu Hop. destruct op as [key node|node]; cbn [op_ok rb_step list_step] in *.
  - destruct Hop as (Hv & Hin & Hnot). unfold usable in Hu. assert (Hn := Hu). rewrite Forall_forall in Hn.
    destruct (Hn node Hin) as (Hs & n & Hg). rewrite (put_upd _ _ _ _ Hg). cbn [mbind option_bind].
    assert (Ha1 : alters [node] t (upd node (set_key key n) t)) by (apply alters_upd; set_solver +).
    assert (H1 : rbt (upd node (set_key key n) t) es).
    { eapply is_rbtree_alters; [exact H|exact Ha1| |done]. intros z Hz. set_solver + Hz Hs Hnot. }
    destruct (rbtree_insert_spec _ es node (set_key key n) H1 (get_upd_eq _ _ _) Hs Hnot Hv) as (t' & E1 & H' & Ha').
    exists t'. split; [exact E1|]. split; [exact H'|]. eapply usable_alters; [eapply usable_alters; [exact Hu|exact Ha1]|exact Ha'].
  - apply list_elem_of_fmap in Hop as ([k a] & -> & Hin). apply list_elem_of_split in Hin as (es1 & es2 & ->).
    destruct (rbtree_delete_spec t es1 k a es2 H) as (t' & E1 & H' & Ha'). exists t'. split; [exact E1|].
    pose proof (is_rbtree_nodup _ _ H) as Hnd. apply NoDup_cons in Hnd as [_ Hnd]. cbn [snd]. rewrite remove_split by done.
    split; [exact H'|]. by eapply usable_alters.
Qed.

(** ** Sequences of calls *)

Lemma rb_run_spec nodes ops : forall t es,
  rbt t es -> usable t nodes -> ops_ok lt valid nodes es ops ->
  exists t', rb_run lt ops t = Some t' /\ rbt t' (foldl (fun es op => list_step lt op es) es ops).
Proof.
  induction ops as [|op ops IH]; intros t es H Hu Hops; cbn [rb_run ops_ok foldl] in *; [by exists t|].
  destruct Hops as [Hop Hops]. destruct (rb_step_spec nodes op t es H Hu Hop) as (t1 & -> & H1 & Hu1). by apply IH.
Qed.

Lemma init_rbt s t : is_Some (get s t) ->
  exists t', ngx_rbtree_init s t = Some t' /\ rbt t' [] /\ rb_sentinel t' = s /\ forall p, is_Some (get p t) -> is_Some (get p t').
Proof.
  intros [n Hn]. unfold ngx_rbtree_init, ngx_rbt_black. rewrite (put_upd _ _ _ _ Hn). cbn [mbind option_bind].
  eexists. split; [done|]. split; [|split; [done|]].
  - split; [|repeat constructor]. exists 0, E, 0%nat. split; [|repeat constructor].
    constructor; cbn [rb_root rb_sentinel rb_nodes plug ptr ctx_at tree_at ctx_addrs addrs app]; try done.
    + apply NoDup_singleton.
    + exists (set_color false n). split; [exact (get_upd_eq s _ t)|done].
  - intros p Hp. refine (alters_some [s] t (upd s (set_color false n) t) p _ Hp). apply alters_upd. set_solver +.
Qed.

End Order.

(** The first node of a tree that is not empty. *)
Lemma min_first {valid : Z -> Prop} {rank : Z -> Z} t k a es :
  is_rbtree (valid := valid) (rank := rank) t ((k, a) :: es) ->
  (rb_root t =? rb_sentinel t) = false /\
  exists d, (d <= 2 * Nat.log2 (S (length es) + 1))%nat /\ (d <= rb_fuel t)%nat /\
    forall fuel, (d <= fuel)%nat -> min_loop fuel (rb_root t) t = Some a.
Proof.
  intros ((p0 & tr & m & H & Hb & He) & _). pose proof (depth_log t _ p0 tr m H Hb He) as Hd. cbn [length] in Hd.
  pose proof (nodes_enough _ _ _ _ H) as Hsz. unfold whole in Hsz. cbn [ctx_addrs app] in Hsz. pose proof (depth_addrs tr) as Hda.
  rewrite (rep_root _ _ _ _ H). cbn [plug]. destruct tr as [|c l a0 k0 r]; [done|]. cbn [ptr]. split.
  - apply Z.eqb_neq. intros ->. apply (rep_sentinel _ _ _ _ H). unfold whole. cbn [ctx_addrs app addrs]. set_solver +.
  - exists (depth (T c l a0 k0 r)). split; [exact Hd|]. split; [lia|]. intros fuel Hf.
    destruct (min_loop_rep fuel t p0 [] c l a0 k0 r H Hf) as (cm & cs & a' & k' & rm & Eq & Hl & ->).
    rewrite Eq, entries_plug, before_lefts in He by done. cbn [entries app] in He. by injection He as -> -> _.
Qed.

(** C10: the calls of a program: after any sequence of insertions and deletions, each
    of a node that is not in the tree and of one that is, the tree is the list the
    same calls make of a sorted list, with its nodes balanced in memory; no call
    reads or writes where there is no node. For every comparison that orders the
    keys, so for both insert callbacks. *)
Theorem rbtree_operations lt valid rank `{!Ordered lt valid rank} s t0 nodes ops :
  is_Some (get s t0) -> Forall (fun p => p <> s /\ is_Some (get p t0)) nodes -> ops_ok lt valid nodes [] ops ->
  exists t t', ngx_rbtree_init s t0 = Some t /\ rb_run lt ops t = Some t' /\
    is_rbtree (valid := valid) (rank := rank) t' (foldl (fun es op => list_step lt op es) [] ops).
Proof.
  intros Hs Hu Hops. destruct (init_rbt (valid := valid) (rank := rank) s t0 Hs) as (t & E1 & H & Es & Hsome).
  destruct (rb_run_spec nodes ops t [] H) as (t' & E2 & H'); [|exact Hops|by exists t, t'].
  unfold usable. rewrite Es. eapply Forall_impl; [exact Hu|]. intros p [Hp1 Hp2]. split; [done|by apply Hsome].
Qed.

(** The height: among n nodes, 2 log2(n + 1) turns of the loop of an insert
    callback reach the place of a key. *)
Theorem rbtree_height lt valid rank `{!Ordered lt valid rank} t es node n fuel :
  is_rbtree (valid := valid) (rank := rank) t es -> es <> [] -> get node t = Some n ->
  (2 * Nat.log2 (length es + 1) <= fuel)%nat -> is_Some (insert_down fuel (by_key lt node t) (rb_root t) t).
Proof.
  intros ((p0 & tr & m & H & Hb & He) & _) Hne Hn Hf. pose proof (depth_log t es p0 tr m H Hb He) as Hd.
  rewrite (rep_root _ _ _ _ H). cbn [plug]. destruct tr as [|c l a k r]; [by cbn [entries] in He; subst|].
  destruct (insert_down_rep (fun x => lt (n_key n) (fst x)) fuel (by_key lt node t) t p0 [] c l a k r H) as (f & ctx & _ & E1); [|lia|].
  { intros k0 a0 x _ <-. unfold by_key. by rewrite Hn. }
  cbn [ptr]. by rewrite E1.
Qed.

(** The least node: [ngx_rbtree_min] of a tree that is not empty is the first
    node of the list, after at most 2 log2(n + 1) turns. *)
Theorem rbtree_min valid rank t k a es fuel :
  is_rbtree (valid := valid) (rank := rank) t ((k, a) :: es) -> (2 * Nat.log2 (S (length es) + 1) <= fuel)%nat ->
  min_loop fuel (rb_root t) t = Some a.
Proof. intros H Hf. destruct (min_first t k a es H) as (_ & d & Hd & _ & Hmin). apply Hmin. lia. Qed.

(** ** Examples *)

Definition sample_ops : list rb_op :=
  [Insert 5 101; Insert 3 102; Insert 5 103; Insert 9 104; Delete 101; Insert 4 101; Insert 1 105; Delete 104; Delete 102].

Definition sample_tree : option rbtree :=
  t ← ngx_rbtree_init 108 (mk_rbtree 0 0 sample_nodes); rb_run Z.ltb sample_ops t.

Lemma rbtree_operations_witness :
  exists t t', ngx_rbtree_init 108 (mk_rbtree 0 0 sample_nodes) = Some t /\ rb_run Z.ltb sample_ops t = Some t' /\
    is_rbtree (valid := fun _ => True) (rank := id) t' [(1, 105); (4, 101); (5, 103)].
Proof.
  apply (rbtree_operations Z.ltb (fun _ => True) id 108 (mk_rbtree 0 0 sample_nodes) [101; 102; 103; 104; 105] sample_ops).
  - by eexists.
  - repeat constructor; done || by eexists.
  - cbn. repeat split; try done; set_solver.
Defined.

Lemma sample_tree_ok : exists t, sample_tree = Some t /\ is_Some (get 102 t) /\
  is_rbtree (valid := fun _ => True) (rank := id) t [(1, 105); (4, 101); (5, 103)].
Proof.
  destruct (init_rbt (valid := fun _ => True) (rank := id) 108 (mk_rbtree 0 0 sample_nodes)) as (t & E1 & H & Es & Hsome); [by eexists|].
  destruct (rb_run_spec (lt := Z.ltb) [101; 102; 103; 104; 105] sample_ops t [] H) as (t' & E2 & H').
  { unfold usable. rewrite Es. repeat constructor; try done; apply Hsome; by eexists. }
  { cbn. repeat split; try done; set_solver. }
  exists t'. assert (E3 : sample_tree = Some t') by (unfold sample_tree; rewrite E1; exact E2).
  split; [exact E3|]. split; [|exact H']. vm_compute in E3. injection E3 as <-. by eexists.
Qed.

Lemma rbtree_height_witness : exists t, sample_tree = Some t /\ is_Some (insert_down 4 (by_key Z.ltb 102 t) (rb_root t) t).
Proof.
  destruct sample_tree_ok as (t & E1 & Hn & H). destruct Hn as [n En]. exists t. split; [exact E1|].
  by apply (rbtree_height Z.ltb (fun _ => True) id t [(1, 105); (4, 101); (5, 103)] 102 n 4 H).
Defined.

Lemma rbtree_min_witness : exists t, sample_tree = Some t /\ min_loop 4 (rb_root t) t = Some 105.
Proof.
  destruct sample_tree_ok as (t & E1 & _ & H). exists t. split; [exact E1|].
  by apply (rbtree_min (fun _ => True) id t 1 105 [(4, 101); (5, 103)] 4 H).
Defined.
