(* ===== verification/Timers.v ===== *)
(** * Timers of events

    src/event/ngx_event_timer.c and ngx_event_timer.h: the red-black tree of the
    timers that are set, ordered by [ngx_rbtree_insert_timer_value], whose keys are
    milliseconds that wrap around.

    An event is the address of its [timer] node.  Its handler is code of the
    modules; what it does to the timers is a list of calls, a parameter. *)

From stdpp Require Import gmap.
From S2P Require Import Prelude Rbtree.

(** The flags of [ngx_event_t] the timers use. *)
Record event : Type := mk_event { ev_timer_set : bool; ev_timedout : bool; ev_cancelable : bool }.

(** [ngx_event_timer_rbtree], [ngx_current_msec] and the events. *)
Record timers : Type := mk_timers { tm_tree : rbtree; tm_now : Z; tm_events : gmap Z event }.

Definition set_tree t st := mk_timers t (tm_now st) (tm_events st).
Definition set_event ev (e : event) st := mk_timers (tm_tree st) (tm_now st) (<[ev := e]> (tm_events st)).

Definition NGX_TIMER_INFINITE : Z := 2 ^ 64 - 1.
Definition NGX_TIMER_LAZY_DELAY : Z := 300.

(** [(ngx_msec_int_t) (a - b)] *)
Definition msec_diff (a b : Z) : Z := i64 (u64 (a - b)).

Definition ngx_event_timer_init (sentinel : Z) (st : timers) : option timers :=
  t ← ngx_rbtree_init sentinel (tm_tree st); Some (set_tree t st).

Definition ngx_event_find_timer (st : timers) : option Z :=
  let t := tm_tree st in
  if rb_root t =? rb_sentinel t then Some NGX_TIMER_INFINITE
  else
    node ← ngx_rbtree_min (rb_root t) t;
    n ← get node t;
    let timer := msec_diff (n_key n) (tm_now st) in
    Some (u64 (if 0 <? timer then timer else 0)).

(** The build without [NGX_DEBUG]. *)
Definition ngx_event_del_timer (ev : Z) (st : timers) : option timers :=
  t ← ngx_rbtree_delete ev (tm_tree st);
  e ← tm_events st !! ev;
  Some (set_event ev (mk_event false (ev_timedout e) (ev_cancelable e)) (set_tree t st)).

Definition timer_insert (ev key : Z) (st : timers) : option timers :=
  t ← put ev (set_key key) (tm_tree st);
  t ← ngx_rbtree_insert ngx_rbtree_insert_timer_value ev t;
  e ← tm_events st !! ev;
  Some (set_event ev (mk_event true (ev_timedout e) (ev_cancelable e)) (set_tree t st)).

Definition ngx_event_add_timer (ev timer : Z) (st : timers) : option timers :=
  let key := u64 (tm_now st + timer) in
  e ← tm_events st !! ev;
  if ev_timer_set e then
    n ← get ev (tm_tree st);
    let diff := msec_diff key (n_key n) in
    if Z.abs diff <? NGX_TIMER_LAZY_DELAY then Some st
    else st ← ngx_event_del_timer ev st; timer_insert ev key st
  else timer_insert ev key st.

(** The calls of a handler. *)
Inductive call : Type :=
  | Add (ev timer : Z)
  | Del (ev : Z).

Definition run_call (c : call) (st : timers) : option timers :=
  match c with Add ev timer => ngx_event_add_timer ev timer st | Del ev => ngx_event_del_timer ev st end.

Fixpoint run_calls (cs : list call) (st : timers) : option timers :=
  match cs with [] => Some st | c :: cs' => st ← run_call c st; run_calls cs' st end.

Section Handlers.
(** [ev->handler(ev)] *)
Variable handler : Z -> timers -> list call.

(** The events whose handler has been called, in order. *)
Fixpoint ngx_event_expire_timers (fuel : nat) (st : timers) : option (list Z * timers) :=
  match fuel with
  | O => None
  | S fuel' =>
      let t := tm_tree st in
      if rb_root t =? rb_sentinel t then Some ([], st)
      else
        node ← ngx_rbtree_min (rb_root t) t;
        n ← get node t;
        if 0 <? msec_diff (n_key n) (tm_now st) then Some ([], st)
        else
          t ← ngx_rbtree_delete node t;
          e ← tm_events st !! node;
          let st := set_event node (mk_event false true (ev_cancelable e)) (set_tree t st) in
          st ← run_calls (handler node st) st;
          '(fired, st) ← ngx_event_expire_timers fuel' st;
          Some (node :: fired, st)
  end.

Fixpoint ngx_event_cancel_timers (fuel : nat) (st : timers) : option (list Z * timers) :=
  match fuel with
  | O => None
  | S fuel' =>
      let t := tm_tree st in
      if rb_root t =? rb_sentinel t then Some ([], st)
      else
        node ← ngx_rbtree_min (rb_root t) t;
        e ← tm_events st !! node;
        if negb (ev_cancelable e) then Some ([], st)
        else
          t ← ngx_rbtree_delete node t;
          let st := set_event node (mk_event false (ev_timedout e) (ev_cancelable e)) (set_tree t st) in
          st ← run_calls (handler node st) st;
          '(fired, st) ← ngx_event_cancel_timers fuel' st;
          Some (node :: fired, st)
  end.

End Handlers.

(** Five timers across the wrap of the clock; the handler of the first one sets it
    again and removes the third. *)
Definition sample_timers : timers :=
  mk_timers (mk_rbtree 0 0 (list_to_map (map (fun k => (k, mk_node 0 0 0 0 false)) [1; 2; 3; 4; 5; 9]))) (2 ^ 64 - 100)
    (list_to_map (map (fun k => (k, mk_event false false false)) [1; 2; 3; 4; 5])).

Definition sample_handler (ev : Z) (_ : timers) : list call := if ev =? 1 then [Add 1 5000; Del 3] else [].

Example timers_sample :
  (st ← ngx_event_timer_init 9 sample_timers;
   st ← run_calls [Add 1 20; Add 2 150; Add 3 90; Add 4 1000; Add 5 60] st;
   first ← ngx_event_find_timer st;
   let st := mk_timers (tm_tree st) 70 (tm_events st) in
   '(fired, st) ← ngx_event_expire_timers sample_handler 10 st;
   next ← ngx_event_find_timer st;
   Some (first, fired, next)) = Some (20, [1; 5; 2], 830).
Proof. vm_compute. reflexivity. Qed.
