(* ===== verification/TimersSpec.v ===== *)
(** * Timers: what they promise

    The events whose timers are set are a list sorted by time; setting and removing
    a timer, the time to the first one, and the timers that expire. *)

From Stdlib Require Import Sorting.Sorted.
From stdpp Require Import gmap.
From S2P Require Import Prelude Rbtree RbtreeSpec RbtreeInsert RbtreeFix RbtreeSplice RbtreeDelete RbtreeTree Timers.

(** ** Times around now *)

(** Keys from 2^62 milliseconds ago to 2^62 milliseconds ahead are in the order of
    the moments they stand for. *)
Definition in_reach (now : Z) : Z -> Prop := timer_valid (now - 2 ^ 62).
Definition moment (now : Z) : Z -> Z := timer_rank (now - 2 ^ 62).

Lemma msec_diff_moment now k : in_reach now k -> msec_diff k now = moment now k - 2 ^ 62.
Proof.
  unfold in_reach, timer_valid, moment, timer_rank, msec_diff. intros H.
  assert (Hx : u64 (k - now) = u64 (u64 (k - (now - 2 ^ 62)) - 2 ^ 62)).
  { unfold u64. rewrite Zminus_mod_idemp_l. f_equal. lia. }
  rewrite Hx. pose proof (Z.mod_pos_bound (k - (now - 2 ^ 62)) (2 ^ 64) ltac:(lia)) as Hb.
  unfold u64 in *. set (x := (k - (now - 2 ^ 62)) mod 2 ^ 64) in *. clearbody x. clear Hx. unfold i64.
  destruct (Z.ltb_spec x (2 ^ 62)) as [Hlt|Hge].
  - rewrite <-(Z_mod_plus_full (x - 2 ^ 62) 1), (Z.mod_small (x - 2 ^ 62 + 1 * 2 ^ 64)) by lia.
    rewrite <-(Z_mod_plus_full _ (-1)), Z.mod_small by lia. lia.
  - rewrite (Z.mod_small (x - 2 ^ 62)), Z.mod_small by lia. lia.
Qed.

Lemma reach_ahead now ms : 0 <= ms < 2 ^ 62 -> in_reach now (u64 (now + ms)) /\ moment now (u64 (now + ms)) = 2 ^ 62 + ms.
Proof.
  intros H. unfold in_reach, timer_valid, moment, timer_rank, u64. rewrite Zminus_mod_idemp_l.
  replace (now + ms - (now - 2 ^ 62)) with (2 ^ 62 + ms) by lia. rewrite Z.mod_small by lia. lia.
Qed.

(** ** The state *)

Notation timer_list now := (is_rbtree (valid := in_reach now) (rank := moment now)).

(** The events whose timers are set, with their times, in order. *)
Record timers_ok (st : timers) (es : list (Z * Z)) : Prop := mk_timers_ok {
  ok_tree : timer_list (tm_now st) (tm_tree st) es;
  ok_event ev e : tm_events st !! ev = Some e ->
    ev <> rb_sentinel (tm_tree st) /\ is_Some (get ev (tm_tree st)) /\ (ev_timer_set e = true <-> ev ∈ map snd es);
  ok_known ev : ev ∈ map snd es -> is_Some (tm_events st !! ev)
}.

Lemma entry_key {valid : Z -> Prop} {rank : Z -> Z} t es k a :
  is_rbtree (valid := valid) (rank := rank) t es -> (k, a) ∈ es -> exists n, get a t = Some n /\ n_key n = k.
Proof.
  intros ((p0 & tr & m & H & _ & <-) & _) Hin. destruct (entry_position (k, a) tr Hin) as (ctx & c & l & r & ->).
  apply rep_plug in H. cbn [fst snd] in H. eexists. split; [exact (rep_get t p0 ctx Lft c l a k r H)|done].
Qed.

Fixpoint key_of (ev : Z) (es : list (Z * Z)) : option Z :=
  match es with [] => None | (k, a) :: es' => if a =? ev then Some k else key_of ev es' end.

Lemma key_of_in ev es k : key_of ev es = Some k -> (k, ev) ∈ es.
Proof.
  induction es as [|[k' a] es IH]; [done|]. cbn [key_of]. destruct (Z.eqb_spec a ev) as [-> |Hne].
  - intros [= ->]. by apply elem_of_cons; left.
  - intros H. apply elem_of_cons. right. by apply IH.
Qed.

Lemma key_of_some ev es : ev ∈ map snd es -> exists k, key_of ev es = Some k.
Proof.
  induction es as [|[k a] es IH]; cbn [map key_of snd]; [set_solver|]. destruct (Z.eqb_spec a ev) as [-> |Hne]; [eauto|].
  intros H. apply IH. set_solver.
Qed.

Lemma key_of_none ev es : ev ∉ map snd es -> key_of ev es = None.
Proof.
  intros H. destruct (key_of ev es) as [k|] eqn:Ek; [|done]. apply key_of_in in Ek.
  destruct H. change ev with (snd (k, ev)). by apply list_elem_of_fmap_2.
Qed.

(** What a call does to the list. *)
Definition call_step (now : Z) (c : call) (es : list (Z * Z)) : list (Z * Z) :=
  match c with
  | Del ev => remove_node ev es
  | Add ev ms =>
      let key := u64 (now + ms) in
      match key_of ev es with
      | Some old =>
          if Z.abs (msec_diff key old) <? NGX_TIMER_LAZY_DELAY then es
          else insert_entry (lt := timer_lt) (key, ev) (remove_node ev es)
      | None => insert_entry (lt := timer_lt) (key, ev) es
      end
  end.

Lemma remove_not_in ev es : ev ∉ map snd (remove_node ev es).
Proof.
  intros ([k a] & -> & H)%list_elem_of_fmap. unfold remove_node in H. apply list_elem_of_In, List.filter_In in H as [_ H].
  cbn [snd] in H. by rewrite Z.eqb_refl in H.
Qed.

Lemma remove_in ev x es : x ∈ map snd (remove_node ev es) <-> x ∈ map snd es /\ x <> ev.
Proof.
  unfold remove_node. induction es as [|[k a] es IH]; cbn [List.filter map snd]; [set_solver|].
  destruct (Z.eqb_spec a ev) as [-> |Hne]; cbn [negb map snd]; rewrite !elem_of_cons, IH; naive_solver.
Qed.

Lemma insert_in (e : Z * Z) x es : x ∈ map snd (insert_entry (lt := timer_lt) e es) <-> x = snd e \/ x ∈ map snd es.
Proof.
  induction es as [|y es IH]; cbn [insert_entry map]; [set_solver|].
  destruct (timer_lt _ _); cbn [map]; rewrite !elem_of_cons, ?IH; naive_solver.
Qed.

(** ** The calls *)

Definition event_nodes (st : timers) : list Z := map fst (map_to_list (tm_events st)).

Lemma event_nodes_in st ev : ev ∈ event_nodes st <-> is_Some (tm_events st !! ev).
Proof.
  unfold event_nodes. rewrite list_elem_of_fmap. split.
  - intros ([x e] & -> & H). apply elem_of_map_to_list in H. by eexists.
  - intros [e H]. exists (ev, e). split; [done|by apply elem_of_map_to_list].
Qed.

Lemma ok_usable st es : timers_ok st es -> usable (tm_tree st) (event_nodes st).
Proof.
  intros H. apply Forall_forall. intros p [e Hp]%event_nodes_in. destruct (ok_event _ _ H p e Hp) as (? & ? & _). done.
Qed.

(** A step of the tree, with the flag of its event. *)
Lemma step_ok op st es ev e b :
  timers_ok st es -> op_ok (in_reach (tm_now st)) (event_nodes st) es op -> tm_events st !! ev = Some e ->
  (forall x, x ∈ map snd (list_step timer_lt op es) <-> if decide (x = ev) then ev_timer_set b = true else x ∈ map snd es) ->
  exists t', rb_step timer_lt op (tm_tree st) = Some t' /\
    timers_ok (set_event ev b (set_tree t' st)) (list_step timer_lt op es).
Proof.
  intros H Hop He Hin. destruct (rb_step_spec _ op _ es (ok_tree _ _ H) (ok_usable _ _ H) Hop) as (t' & E & H' & Hu').
  exists t'. split; [exact E|]. constructor; cbn [set_event set_tree tm_tree tm_now tm_events].
  - exact H'.
  - intros x ex Hx. unfold usable in Hu'. rewrite Forall_forall in Hu'.
    assert (Hk : is_Some (tm_events st !! x)) by (destruct (decide (x = ev)) as [-> |Hne]; [by eexists|rewrite lookup_insert_ne in Hx by done; by eexists]).
    destruct (Hu' x) as [H1 H2]; [by apply event_nodes_in|]. split; [done|]. split; [done|]. rewrite Hin.
    destruct (decide (x = ev)) as [-> |Hne]; [rewrite lookup_insert_eq in Hx; by injection Hx as ->|].
    rewrite lookup_insert_ne in Hx by done. by apply (ok_event _ _ H).
  - intros x Hx. destruct (decide (x = ev)) as [-> |Hne]; [rewrite lookup_insert_eq; by eexists|]. rewrite lookup_insert_ne by done.
    apply Hin in Hx. rewrite decide_False in Hx by done. by apply (ok_known _ _ H).
Qed.

(** The clock, the events and their other flags have not changed. *)
Definition same_events (st st' : timers) : Prop :=
  tm_now st' = tm_now st /\ forall x, match tm_events st !! x, tm_events st' !! x with
    | Some e, Some e' => ev_timedout e' = ev_timedout e /\ ev_cancelable e' = ev_cancelable e
    | None, None => True
    | _, _ => False
    end.

Lemma same_events_refl st : same_events st st.
Proof. split; [done|]. intros x. by destruct (tm_events st !! x). Qed.

Lemma same_events_trans st1 st2 st3 : same_events st1 st2 -> same_events st2 st3 -> same_events st1 st3.
Proof.
  intros [H1 H2] [H3 H4]. split; [congruence|]. intros x. specialize (H2 x). specialize (H4 x).
  destruct (tm_events st1 !! x), (tm_events st2 !! x), (tm_events st3 !! x); try done. destruct H2, H4. split; congruence.
Qed.

Lemma same_events_some st st' x : same_events st st' -> is_Some (tm_events st' !! x) <-> is_Some (tm_events st !! x).
Proof.
  intros [_ H]. specialize (H x). destruct (tm_events st !! x), (tm_events st' !! x); try done; split; intros [? ?]; by eexists.
Qed.

Lemma same_set_event st t ev e b :
  tm_events st !! ev = Some e -> same_events st (set_event ev (mk_event b (ev_timedout e) (ev_cancelable e)) (set_tree t st)).
Proof.
  intros H. split; [done|]. intros x. cbn [set_event set_tree tm_events].
  destruct (decide (x = ev)) as [-> |Hne]; [by rewrite lookup_insert_eq, H|rewrite lookup_insert_ne by done]. by destruct (tm_events st !! x).
Qed.

(** The least timer that is set leaves the tree, and its flags change. *)
Lemma delete_ok st es ev e b :
  timers_ok st es -> ev ∈ map snd es -> tm_events st !! ev = Some e -> ev_timer_set b = false ->
  exists t', ngx_rbtree_delete ev (tm_tree st) = Some t' /\ timers_ok (set_event ev b (set_tree t' st)) (remove_node ev es).
Proof.
  intros H Hin He Hb. apply (step_ok (Delete ev) st es ev e b H Hin He). intros x. cbn [list_step]. rewrite remove_in, Hb.
  case_decide; naive_solver.
Qed.

Lemma del_ok st es ev :
  timers_ok st es -> ev ∈ map snd es ->
  exists st', ngx_event_del_timer ev st = Some st' /\ timers_ok st' (remove_node ev es) /\ same_events st st'.
Proof.
  intros H Hin. destruct (ok_known _ _ H ev Hin) as [e He].
  destruct (delete_ok st es ev e (mk_event false (ev_timedout e) (ev_cancelable e)) H Hin He eq_refl) as (t' & E & H').
  unfold ngx_event_del_timer. rewrite E. cbn [mbind option_bind]. rewrite He. cbn [mbind option_bind]. eexists. split; [done|].
  split; [exact H'|]. by apply same_set_event.
Qed.

Lemma timer_insert_ok st es ev key :
  timers_ok st es -> is_Some (tm_events st !! ev) -> ev ∉ map snd es -> in_reach (tm_now st) key ->
  exists st', timer_insert ev key st = Some st' /\ timers_ok st' (insert_entry (lt := timer_lt) (key, ev) es) /\ same_events st st'.
Proof.
  intros H [e He] Hnot Hk.
  destruct (step_ok (Insert key ev) st es ev e (mk_event true (ev_timedout e) (ev_cancelable e)) H) as (t' & E & H'); [|exact He| |].
  { split; [exact Hk|]. split; [apply event_nodes_in; by eexists|exact Hnot]. }
  { intros x. cbn [list_step]. rewrite insert_in. cbn [snd ev_timer_set]. case_decide; naive_solver. }
  unfold timer_insert. cbn [rb_step] in E. destruct (put ev (set_key key) (tm_tree st)) as [t1|]; [|done]. cbn [mbind option_bind] in E |- *.
  unfold ngx_rbtree_insert_timer_value. rewrite E. cbn [mbind option_bind]. rewrite He. cbn [mbind option_bind].
  eexists. split; [done|]. split; [exact H'|]. by apply same_set_event.
Qed.

(** A timer is set less than 2^62 milliseconds ahead, and removed when it is set. *)
Definition call_ok (st : timers) (es : list (Z * Z)) (c : call) : Prop :=
  match c with
  | Add ev ms => is_Some (tm_events st !! ev) /\ 0 <= ms < 2 ^ 62
  | Del ev => ev ∈ map snd es
  end.

Lemma call_spec st es c :
  timers_ok st es -> call_ok st es c ->
  exists st', run_call c st = Some st' /\ timers_ok st' (call_step (tm_now st) c es) /\ same_events st st'.
Proof.
  intros H Hc. destruct c as [ev ms|ev]; [|by apply del_ok]. destruct Hc as ([e He] & Hms). cbn [run_call call_step].
  unfold ngx_event_add_timer. rewrite He. cbn [mbind option_bind].
  destruct (reach_ahead (tm_now st) ms Hms) as [Hreach _]. destruct (ok_event _ _ H ev e He) as (_ & _ & Hset).
  destruct (ev_timer_set e).
  - destruct (key_of_some ev es) as [old Hold]; [by apply Hset|].
    destruct (entry_key _ _ _ _ (ok_tree _ _ H) (key_of_in _ _ _ Hold)) as (n & -> & Hn). cbn [mbind option_bind]. rewrite Hold, Hn.
    destruct (Z.abs _ <? _); [exists st; split; [done|]; split; [done|apply same_events_refl]|].
    destruct (del_ok st es ev H ltac:(by apply Hset)) as (st1 & -> & H1 & Hs1). cbn [mbind option_bind].
    destruct (timer_insert_ok st1 (remove_node ev es) ev (u64 (tm_now st + ms)) H1) as (st2 & E2 & H2 & Hs2).
    { apply (same_events_some _ _ _ Hs1). by eexists. } { apply remove_not_in. } { by rewrite (proj1 Hs1). }
    exists st2. split; [exact E2|]. split; [exact H2|]. by eapply same_events_trans.
  - assert (Hnot : ev ∉ map snd es) by (intros Hin; by apply Hset in Hin). rewrite (key_of_none ev es Hnot).
    apply timer_insert_ok; [done|by eexists|done|done].
Qed.

Fixpoint calls_ok (st : timers) (es : list (Z * Z)) (cs : list call) : Prop :=
  match cs with
  | [] => True
  | c :: cs' => call_ok st es c /\ calls_ok st (call_step (tm_now st) c es) cs'
  end.

Lemma calls_ok_same st st' es cs : same_events st st' -> calls_ok st es cs -> calls_ok st' es cs.
Proof.
  intros H. revert es. induction cs as [|c cs IH]; intros es; cbn [calls_ok]; [done|]. rewrite (proj1 H).
  intros [Hc Hcs]. split; [|by apply IH]. destruct c as [ev ms|ev]; [|done]. cbn [call_ok] in *. by rewrite (same_events_some _ _ _ H).
Qed.

Lemma calls_spec cs : forall st es,
  timers_ok st es -> calls_ok st es cs ->
  exists st', run_calls cs st = Some st' /\
    timers_ok st' (foldl (fun es c => call_step (tm_now st) c es) es cs) /\ same_events st st'.
Proof.
  induction cs as [|c cs IH]; intros st es H Hc; cbn [run_calls calls_ok foldl] in *;
    [exists st; split; [done|]; split; [done|apply same_events_refl]|].
  destruct Hc as [Hc Hcs]. destruct (call_spec st es c H Hc) as (st1 & -> & H1 & Hs1). cbn [mbind option_bind].
  destruct (IH st1 _ H1 (calls_ok_same _ _ _ _ Hs1 Hcs)) as (st2 & E2 & H2 & Hs2). exists st2. split; [exact E2|].
  rewrite (proj1 Hs1) in H2. split; [exact H2|]. by eapply same_events_trans.
Qed.

(** ** The beginning, and the clock *)

Lemma init_ok s st :
  is_Some (get s (tm_tree st)) ->
  (forall ev e, tm_events st !! ev = Some e -> ev <> s /\ is_Some (get ev (tm_tree st)) /\ ev_timer_set e = false) ->
  exists st', ngx_event_timer_init s st = Some st' /\ timers_ok st' [] /\ same_events st st'.
Proof.
  intros Hs He. destruct (init_rbt (valid := in_reach (tm_now st)) (rank := moment (tm_now st)) s _ Hs) as (t & E & H & Es & Hsome).
  unfold ngx_event_timer_init. rewrite E. cbn [mbind option_bind]. eexists. split; [done|]. split; [|exact (same_events_refl st)].
  constructor; cbn [set_tree tm_tree tm_now tm_events map]; [exact H| |set_solver].
  intros ev e Hev. destruct (He ev e Hev) as (H1 & H2 & H3). rewrite Es, H3. split; [done|]. split; [by apply Hsome|]. split; [done|set_solver].
Qed.

(** Timers that are less than 2^62 milliseconds overdue keep their order. *)
Definition at_time (now : Z) (st : timers) : timers := mk_timers (tm_tree st) now (tm_events st).

Lemma moment_later now d k : 0 <= d <= moment now k -> moment now k < 2 ^ 63 ->
  moment (u64 (now + d)) k = moment now k - d.
Proof.
  unfold moment, timer_rank. intros H1 H2. set (x := u64 (k - (now - 2 ^ 62))) in *.
  assert (Hx : u64 (k - (u64 (now + d) - 2 ^ 62)) = u64 (x - d)).
  { unfold x, u64. rewrite Zminus_mod_idemp_l. replace (k - ((now + d) mod 2 ^ 64 - 2 ^ 62)) with (k + 2 ^ 62 - (now + d) mod 2 ^ 64) by lia.
    rewrite Zminus_mod_idemp_r. f_equal. lia. }
  rewrite Hx. unfold u64. apply Z.mod_small. lia.
Qed.

Lemma clock_ok st es d :
  timers_ok st es -> 0 <= d -> Forall (fun e => d - 2 ^ 62 <= msec_diff (fst e) (tm_now st)) es ->
  timers_ok (at_time (u64 (tm_now st + d)) st) es.
Proof.
  intros [(Hrep & Hs & Hv) He Hk] Hd Hlate.
  assert (Hm : Forall (fun e => in_reach (tm_now st) (fst e) /\ moment (u64 (tm_now st + d)) (fst e) = moment (tm_now st) (fst e) - d) es).
  { apply Forall_forall. intros e Hin. rewrite Forall_forall in Hv, Hlate. specialize (Hv e Hin). specialize (Hlate e Hin).
    cbv beta in Hlate, Hv. rewrite msec_diff_moment in Hlate by done. split; [done|]. apply moment_later; [lia|exact Hv]. }
  constructor; cbn [at_time tm_tree tm_now tm_events]; [|exact He|exact Hk]. split; [exact Hrep|]. split.
  - clear -Hs Hm. induction Hs as [|e es Hs IH Hes]; [constructor|]. apply Forall_cons in Hm as [[_ He] Hm]. constructor; [by apply IH|].
    rewrite Forall_forall in Hes, Hm |- *. intros x Hx. specialize (Hes x Hx). destruct (Hm x Hx) as [_ Hx']. unfold key_le in *. lia.
  - eapply Forall_impl; [exact Hm|]. intros e [H1 H2]. cbv beta in *. unfold in_reach, timer_valid in *. 
    change (moment (u64 (tm_now st + d)) (fst e) < 2 ^ 63). change (moment (tm_now st) (fst e) < 2 ^ 63) in H1. lia.
Qed.

(** ** The first timer *)

Lemma first_timer st k a es :
  timers_ok st ((k, a) :: es) ->
  (rb_root (tm_tree st) =? rb_sentinel (tm_tree st)) = false /\
  ngx_rbtree_min (rb_root (tm_tree st)) (tm_tree st) = Some a /\
  exists n, get a (tm_tree st) = Some n /\ n_key n = k.
Proof.
  intros H. destruct (min_first _ _ _ _ (ok_tree _ _ H)) as (Hs & d & _ & Hd & Hmin). split; [exact Hs|].
  split; [by apply Hmin|]. apply (entry_key _ _ _ _ (ok_tree _ _ H)). by apply elem_of_cons; left.
Qed.

Lemma no_timer st : timers_ok st [] -> (rb_root (tm_tree st) =? rb_sentinel (tm_tree st)) = true.
Proof.
  intros H. destruct (ok_tree _ _ H) as ((p0 & tr & m & Hr & Hb & He) & _). apply Z.eqb_eq. rewrite (rep_root _ _ _ _ Hr). cbn [plug].
  destruct tr as [|c l a0 k0 r]; [done|]. cbn [entries] in He. by apply app_eq_nil in He as [_ ?].
Qed.

(** ** Timers that are due *)

Definition is_due (now : Z) (e : Z * Z) : bool := msec_diff (fst e) now <=? 0.
Definition due (now : Z) (es : list (Z * Z)) : list (Z * Z) := List.filter (is_due now) es.

Lemma ok_sorted st k a es : timers_ok st ((k, a) :: es) ->
  in_reach (tm_now st) k /\ Forall (fun e => msec_diff k (tm_now st) <= msec_diff (fst e) (tm_now st)) es.
Proof.
  intros H. destruct (ok_tree _ _ H) as (_ & [_ Hs]%StronglySorted_inv & [Hk Hv]%Forall_cons). cbn [fst] in Hk. split; [done|].
  rewrite Forall_forall in Hs, Hv |- *. intros e He. specialize (Hs e He). unfold key_le in Hs. cbn [fst] in Hs.
  rewrite !msec_diff_moment by auto. lia.
Qed.

Lemma due_none now es : Forall (fun e => 0 < msec_diff (fst e) now) es -> due now es = [].
Proof.
  induction 1 as [|e es He _ IH]; [done|]. unfold due. cbn [List.filter]. unfold is_due at 1. by rewrite (proj2 (Z.leb_gt _ _)).
Qed.

Lemma due_first st k a es : timers_ok st ((k, a) :: es) -> 0 < msec_diff k (tm_now st) -> due (tm_now st) ((k, a) :: es) = [].
Proof.
  intros H Hk. destruct (ok_sorted _ _ _ _ H) as [_ Hs]. apply due_none. constructor; [done|].
  eapply Forall_impl; [exact Hs|]. cbv beta. lia.
Qed.

Lemma due_remove now ev es : due now (remove_node ev es) = remove_node ev (due now es).
Proof.
  unfold due, remove_node. induction es as [|e es IH]; [done|]. cbn [List.filter].
  destruct (snd e =? ev) eqn:E1; cbn [negb]; destruct (is_due now e) eqn:E2; cbn [List.filter]; rewrite ?E1, ?E2; cbn [negb]; by rewrite IH.
Qed.

Lemma due_insert now e es : is_due now e = false -> due now (insert_entry (lt := timer_lt) e es) = due now es.
Proof.
  intros He. unfold due. induction es as [|x es IH]; cbn [insert_entry List.filter]; [by rewrite He|].
  destruct (timer_lt _ _); cbn [List.filter]; [by rewrite He|]. by rewrite IH.
Qed.

Lemma remove_sublist ev es : remove_node ev es `sublist_of` es.
Proof.
  unfold remove_node. induction es as [|e es IH]; [constructor|]. cbn [List.filter]. destruct (negb _); by constructor.
Qed.

Lemma sublist_map {A B} (f : A -> B) l1 l2 : l1 `sublist_of` l2 -> map f l1 `sublist_of` map f l2.
Proof. induction 1; cbn [map]; by constructor. Qed.

Lemma remove_none ev es : ev ∉ map snd es -> remove_node ev es = es.
Proof.
  unfold remove_node. induction es as [|e es IH]; [done|]. cbn [map List.filter]. intros H.
  rewrite (proj2 (Z.eqb_neq _ _)) by set_solver. cbn [negb]. by rewrite IH by set_solver.
Qed.

Lemma key_of_insert key ev es : ev ∉ map snd es -> key_of ev (insert_entry (lt := timer_lt) (key, ev) es) = Some key.
Proof.
  induction es as [|[k a] es IH]; cbn [insert_entry key_of map snd]; [by rewrite Z.eqb_refl|]. intros H.
  destruct (timer_lt _ _); cbn [key_of]; [by rewrite Z.eqb_refl|]. rewrite (proj2 (Z.eqb_neq _ _)) by set_solver. apply IH. set_solver.
Qed.

Lemma remove_insert key ev es : remove_node ev (insert_entry (lt := timer_lt) (key, ev) es) = remove_node ev es.
Proof.
  unfold remove_node. induction es as [|x es IH]; cbn [insert_entry List.filter snd]; [by rewrite Z.eqb_refl|].
  destruct (timer_lt _ _); cbn [List.filter snd]; [by rewrite Z.eqb_refl|]. by rewrite IH.
Qed.

Definition call_event (c : call) : Z := match c with Add ev _ => ev | Del ev => ev end.

(** Timers are set for later. *)
Definition call_later (c : call) : Prop := match c with Add _ ms => 0 < ms | Del _ => True end.

Lemma due_call st es c :
  call_ok st es c -> call_later c ->
  due (tm_now st) (call_step (tm_now st) c es) `sublist_of` due (tm_now st) es /\
  (call_event c ∉ map snd (due (tm_now st) es) -> due (tm_now st) (call_step (tm_now st) c es) = due (tm_now st) es).
Proof.
  destruct c as [ev ms|ev]; cbn [call_ok call_later call_event call_step].
  - intros [_ Hms] Hpos. destruct (reach_ahead (tm_now st) ms Hms) as [Hr Hm].
    assert (Hnew : is_due (tm_now st) (u64 (tm_now st + ms), ev) = false).
    { unfold is_due. cbn [fst]. apply Z.leb_gt. rewrite msec_diff_moment by done. lia. }
    destruct (key_of ev es) as [old|]; [|by rewrite due_insert]. destruct (Z.abs _ <? _); [done|].
    rewrite due_insert, due_remove by done. split; [apply remove_sublist|apply remove_none].
  - intros _ _. rewrite due_remove. split; [apply remove_sublist|apply remove_none].
Qed.

Lemma due_calls cs : forall st es,
  calls_ok st es cs -> Forall call_later cs ->
  let es' := foldl (fun es c => call_step (tm_now st) c es) es cs in
  due (tm_now st) es' `sublist_of` due (tm_now st) es /\
  (Forall (fun c => call_event c ∉ map snd (due (tm_now st) es)) cs -> due (tm_now st) es' = due (tm_now st) es).
Proof.
  induction cs as [|c cs IH]; intros st es Hc Hl; cbn [foldl calls_ok] in *; [done|]. destruct Hc as [Hc Hcs].
  apply Forall_cons in Hl as [Hl Hls]. destruct (due_call st es c Hc Hl) as [H1 H2]. destruct (IH st _ Hcs Hls) as [H3 H4].
  split; [by etrans|]. intros [Hn Hns]%Forall_cons. specialize (H2 Hn). rewrite H4; [done|]. by rewrite H2.
Qed.

(** ** Expiry *)

Section Expiry.
Context (handler : Z -> timers -> list call).
Hypothesis handler_ok : forall ev st es, timers_ok st es -> calls_ok st es (handler ev st) /\ Forall call_later (handler ev st).

Lemma expire_none fuel st es :
  timers_ok st es -> due (tm_now st) es = [] -> ngx_event_expire_timers handler (S fuel) st = Some ([], st).
Proof.
  intros H Hd. cbn [ngx_event_expire_timers]. destruct es as [|[k a] es]; [by rewrite (no_timer _ H)|].
  destruct (first_timer _ _ _ _ H) as (-> & -> & n & Eg & Hn). cbn [mbind option_bind]. rewrite Eg. cbn [mbind option_bind]. rewrite Hn.
  destruct (Z.ltb_spec 0 (msec_diff k (tm_now st))) as [Hlt|Hge]; [done|]. exfalso. revert Hd. unfold due. cbn [List.filter].
  unfold is_due at 1. cbn [fst]. by rewrite (proj2 (Z.leb_le _ _)).
Qed.

(** One event expires. *)
Lemma expire_one st k a es :
  timers_ok st ((k, a) :: es) -> msec_diff k (tm_now st) <= 0 ->
  exists st' es', tm_now st' = tm_now st /\ timers_ok st' es' /\
    (forall fuel, ngx_event_expire_timers handler (S fuel) st =
       '(fired, st) ← ngx_event_expire_timers handler fuel st'; Some (a :: fired, st)) /\
    due (tm_now st) es' `sublist_of` due (tm_now st) es /\
    ((forall ev st1, Forall (fun c => call_event c ∉ map snd (due (tm_now st) es)) (handler ev st1)) ->
     due (tm_now st) es' = due (tm_now st) es).
Proof.
  intros H Hk. destruct (ok_known _ _ H a) as [e He]; [cbn; set_solver +|].
  set (b := mk_event false true (ev_cancelable e)).
  destruct (delete_ok st _ a e b H ltac:(cbn; set_solver +) He eq_refl) as (t1 & E1 & H1).
  assert (Hrem : remove_node a ((k, a) :: es) = es).
  { apply (remove_split []). cbn [app]. pose proof (is_rbtree_nodup _ _ (ok_tree _ _ H)) as Hnd. by apply NoDup_cons in Hnd as [_ ?]. }
  rewrite Hrem in H1. set (st1 := set_event a b (set_tree t1 st)) in *.
  destruct (handler_ok a st1 es H1) as [Hc Hl]. destruct (calls_spec _ st1 es H1 Hc) as (st2 & E2 & H2 & Hs2).
  destruct (due_calls _ st1 es Hc Hl) as [Hd1 Hd2]. change (tm_now st1) with (tm_now st) in *.
  exists st2. eexists. split; [apply Hs2|]. split; [exact H2|]. split; [|split; [exact Hd1|]].
  - intros fuel. destruct (first_timer _ _ _ _ H) as (E3 & E4 & n & Eg & Hn). cbn [ngx_event_expire_timers].
    rewrite E3, E4. cbn [mbind option_bind]. rewrite Eg. cbn [mbind option_bind]. rewrite Hn, (proj2 (Z.ltb_ge _ _)) by lia.
    rewrite E1. cbn [mbind option_bind]. rewrite He. cbn [mbind option_bind]. fold b st1. by rewrite E2.
  - intros Hn. apply Hd2, Hn.
Qed.

Lemma expire_all n : forall st es,
  timers_ok st es -> (length (due (tm_now st) es) <= n)%nat ->
  exists fired st' es', ngx_event_expire_timers handler (S n) st = Some (fired, st') /\ tm_now st' = tm_now st /\
    timers_ok st' es' /\ due (tm_now st) es' = [] /\ fired `sublist_of` map snd (due (tm_now st) es) /\
    ((forall ev st1, Forall (fun c => call_event c ∉ map snd (due (tm_now st) es)) (handler ev st1)) ->
     fired = map snd (due (tm_now st) es)).
Proof.
  induction n as [|n IH]; intros st es H Hlen.
  - assert (Hd : due (tm_now st) es = []) by (destruct (due _ es); [done|cbn [length] in Hlen; lia]).
    exists [], st, es. rewrite (expire_none 0 st es H Hd), Hd. repeat (split; [done|]). done.
  - destruct es as [|[k a] es]; [exists [], st, []; rewrite (expire_none (S n) st [] H eq_refl); repeat (split; [done|]); done|].
    destruct (Z.ltb_spec 0 (msec_diff k (tm_now st))) as [Hlt|Hge].
    { pose proof (due_first _ _ _ _ H Hlt) as Hd. exists [], st, ((k, a) :: es). rewrite (expire_none (S n) st _ H Hd), Hd.
      repeat (split; [done|]). done. }
    assert (Hd : due (tm_now st) ((k, a) :: es) = (k, a) :: due (tm_now st) es).
    { unfold due at 1. cbn [List.filter]. unfold is_due at 1. cbn [fst]. by rewrite (proj2 (Z.leb_le _ _)). }
    rewrite Hd in Hlen |- *. cbn [length map snd] in Hlen |- *.
    destruct (expire_one st k a es H Hge) as (st1 & es1 & Hnow & H1 & E1 & Hs1 & Hs2).
    destruct (IH st1 es1 H1) as (fired & st' & es' & E2 & Hn2 & H2 & Hd2 & Hf & Hall).
    { rewrite Hnow. apply sublist_length in Hs1. lia. }
    rewrite Hnow in *. exists (a :: fired), st', es'. rewrite E1, E2. split; [done|]. split; [done|]. split; [done|]. split; [done|].
    split; [apply sublist_skip; etrans; [exact Hf|]; by apply sublist_map|].
    intros Hno. assert (Hno' : forall ev st0, Forall (fun c => call_event c ∉ map snd (due (tm_now st) es)) (handler ev st0)).
    { intros ev st0. eapply Forall_impl; [apply Hno|]. cbv beta. intros c Hc. set_solver + Hc. }
    rewrite (Hs2 Hno') in Hall. by rewrite Hall.
Qed.

End Expiry.

(** What [ngx_event_add_timer] promises: the timer of the event is set, to fire
    less than 300 milliseconds from the time asked for, at that time exactly when it
    was not set before; the other timers are as they were. *)
Theorem add_timer_spec st es ev ms :
  timers_ok st es -> is_Some (tm_events st !! ev) -> 0 <= ms < 2 ^ 62 ->
  exists st' es' key, ngx_event_add_timer ev ms st = Some st' /\ timers_ok st' es' /\ key_of ev es' = Some key /\
    Z.abs (msec_diff (u64 (tm_now st + ms)) key) < NGX_TIMER_LAZY_DELAY /\
    (key_of ev es = None -> key = u64 (tm_now st + ms)) /\
    remove_node ev es' = remove_node ev es /\ tm_now st' = tm_now st.
Proof.
  intros H Hk Hms. destruct (call_spec st es (Add ev ms) H (conj Hk Hms)) as (st' & E & H' & Hs). exists st', (call_step (tm_now st) (Add ev ms) es). cbn [run_call] in E.
  cbn [call_step] in H' |- *. set (key := u64 (tm_now st + ms)) in *.
  assert (Hself : msec_diff key key = 0) by (unfold msec_diff; by rewrite Z.sub_diag).
  destruct (key_of ev es) as [old|] eqn:Eold; [destruct (Z.abs (msec_diff key old) <? NGX_TIMER_LAZY_DELAY) eqn:El|].
  - exists old. split; [exact E|]. split; [exact H'|]. split; [done|]. split; [by apply Z.ltb_lt|]. split; [done|]. by split; [|apply Hs].
  - exists key. split; [exact E|]. split; [exact H'|]. split; [apply key_of_insert, remove_not_in|]. split; [by rewrite Hself|].
    split; [done|]. split; [|apply Hs]. rewrite remove_insert. apply remove_none, remove_not_in.
  - exists key. split; [exact E|]. split; [exact H'|]. split; [by apply key_of_insert; intros [k Ek]%key_of_some; rewrite Ek in Eold|].
    split; [by rewrite Hself|]. split; [done|]. by split; [apply remove_insert|apply Hs].
Qed.

(** [ngx_event_find_timer] is the time until the first timer: no timer is due
    before it has passed, and with a timer set, one is then due; -1 without timers. *)
Theorem find_timer_spec st es :
  timers_ok st es ->
  exists d, ngx_event_find_timer st = Some d /\
    (es = [] -> d = NGX_TIMER_INFINITE) /\
    (es <> [] -> Forall (fun e => d <= Z.max 0 (msec_diff (fst e) (tm_now st))) es /\
                 Exists (fun e => d = Z.max 0 (msec_diff (fst e) (tm_now st))) es).
Proof.
  intros H. unfold ngx_event_find_timer. destruct es as [|[k a] es].
  - rewrite (no_timer _ H). eexists. split; [done|]. done.
  - destruct (first_timer _ _ _ _ H) as (-> & -> & n & Eg & Hn). cbn [mbind option_bind]. rewrite Eg. cbn [mbind option_bind]. rewrite Hn.
    destruct (ok_sorted _ _ _ _ H) as [Hk Hs]. eexists. split; [done|]. split; [done|]. intros _.
    assert (Hd : u64 (if 0 <? msec_diff k (tm_now st) then msec_diff k (tm_now st) else 0) = Z.max 0 (msec_diff k (tm_now st))).
    { rewrite msec_diff_moment by done. pose proof Hk as Hb. unfold in_reach, timer_valid in Hb. fold (moment (tm_now st) k) in Hb.
      change (moment (tm_now st) k < 2 ^ 63) in Hb. unfold u64. destruct (Z.ltb_spec 0 (moment (tm_now st) k - 2 ^ 62)); rewrite Z.mod_small by lia; lia. }
    rewrite Hd. split; [|by constructor]. constructor; [cbn [fst]; lia|]. eapply Forall_impl; [exact Hs|]. cbv beta. lia.
Qed.

(** C11: [ngx_event_expire_timers] ends, with handlers that set timers for later only:
    then no timer is due, the events whose handlers were called were due, each once
    and in the order of their times; and they are all that were due, when no handler
    sets or removes the timer of one of them. *)
Theorem expire_timers_spec handler st es :
  (forall ev st es, timers_ok st es -> calls_ok st es (handler ev st) /\ Forall call_later (handler ev st)) ->
  timers_ok st es ->
  exists fired st' es', ngx_event_expire_timers handler (S (length (due (tm_now st) es))) st = Some (fired, st') /\
    timers_ok st' es' /\ due (tm_now st) es' = [] /\ fired `sublist_of` map snd (due (tm_now st) es) /\
    ((forall ev st1, Forall (fun c => call_event c ∉ map snd (due (tm_now st) es)) (handler ev st1)) ->
     fired = map snd (due (tm_now st) es)).
Proof.
  intros Hh H. destruct (expire_all handler Hh _ st es H (le_n _)) as (fired & st' & es' & E & _ & H' & Hd & Hf & Hall).
  by exists fired, st', es'.
Qed.

(** ** Examples *)

Definition sample_calls : list call := [Add 1 20; Add 2 150; Add 3 90; Add 4 1000; Add 5 60].
Definition sample_start : option timers := st ← ngx_event_timer_init 9 sample_timers; run_calls sample_calls st.

(** A hundred seventy milliseconds later. *)
Definition sample_later : option timers := st ← sample_start; Some (at_time 70 st).

Definition sample_list : list (Z * Z) := [(2 ^ 64 - 80, 1); (2 ^ 64 - 40, 5); (2 ^ 64 - 10, 3); (50, 2); (900, 4)].

Lemma sample_start_ok : exists st, sample_start = Some st /\ timers_ok st sample_list /\ tm_now st = 2 ^ 64 - 100 /\
  forall ev, ev ∈ [1; 2; 3; 4; 5] -> is_Some (tm_events st !! ev).
Proof.
  destruct (init_ok 9 sample_timers) as (st & E1 & H1 & Hs1).
  { by eexists. }
  { intros ev e He. apply elem_of_list_to_map_2 in He. cbn [map] in He. split; [|split].
    - intros ->. set_solver + He.
    - repeat (apply elem_of_cons in He as [[= -> _]|He]; [by eexists|]). set_solver + He.
    - repeat (apply elem_of_cons in He as [[= _ ->]|He]; [done|]). set_solver + He. }
  assert (Hev : forall ev, ev ∈ [1; 2; 3; 4; 5] -> is_Some (tm_events st !! ev)).
  { intros ev Hev. apply (same_events_some _ _ _ Hs1). repeat (apply elem_of_cons in Hev as [-> |Hev]; [by eexists|]). set_solver + Hev. }
  destruct (calls_spec sample_calls st [] H1) as (st' & E2 & H2 & Hs2).
  { cbn [calls_ok sample_calls call_ok]. repeat (split; [split; [apply Hev; set_solver +|lia]|]). done. }
  exists st'. assert (E : sample_start = Some st') by (unfold sample_start; rewrite E1; exact E2).
  split; [exact E|]. split; [|split; [rewrite (proj1 Hs2); apply Hs1|]].
  - replace sample_list with (foldl (fun es c => call_step (tm_now st) c es) [] sample_calls); [exact H2|].
    rewrite (proj1 Hs1). vm_compute. reflexivity.
  - intros ev He. apply (same_events_some _ _ _ Hs2). by apply Hev.
Qed.

Lemma add_timer_spec_witness : exists st st' es' key, sample_start = Some st /\ ngx_event_add_timer 3 5000 st = Some st' /\
  timers_ok st' es' /\ key_of 3 es' = Some key.
Proof.
  destruct sample_start_ok as (st & E & H & Hnow & Hev).
  destruct (add_timer_spec st sample_list 3 5000 H) as (st' & es' & key & E' & H' & Hk & _); [apply Hev; set_solver +|lia|].
  exists st, st', es', key. split; [exact E|]. split; [exact E'|]. split; [exact H'|exact Hk].
Defined.

Lemma find_timer_spec_witness : exists st d, sample_start = Some st /\ ngx_event_find_timer st = Some d /\ d <= 20.
Proof.
  destruct sample_start_ok as (st & E & H & Hnow & Hev). destruct (find_timer_spec st sample_list H) as (d & E' & _ & Hd).
  exists st, d. split; [exact E|]. split; [exact E'|]. destruct (Hd ltac:(done)) as [Hd1 _]. rewrite Hnow in Hd1.
  apply Forall_cons in Hd1 as [Hd1 _].
  replace (Z.max 0 _) with 20 in Hd1 by (vm_compute; reflexivity). exact Hd1.
Defined.

(** A handler that sets its timer again when it can. *)
Definition again (ev : Z) (st : timers) : list call := if tm_events st !! ev is Some _ then [Add ev 5000] else [].

Lemma expire_timers_spec_witness : exists st fired st', sample_later = Some st /\
  ngx_event_expire_timers again 5 st = Some (fired, st') /\ fired `sublist_of` [1; 5; 3; 2].
Proof.
  destruct sample_start_ok as (st & E & H & Hnow & Hev).
  assert (H' : timers_ok (at_time 70 st) sample_list).
  { assert (Et : u64 (tm_now st + 170) = 70) by (rewrite Hnow; vm_compute; reflexivity). rewrite <-Et. apply clock_ok; [exact H|lia|]. rewrite Hnow.
    unfold sample_list. repeat (apply Forall_cons; split; [vm_compute; discriminate|]). apply Forall_nil_2. }
  destruct (expire_timers_spec again (at_time 70 st) sample_list) as (fired & st' & es' & E' & _ & _ & Hf & _); [|exact H'|].
  - clear E H H' Hnow Hev. intros ev st0 es0 _. unfold again. destruct (tm_events st0 !! ev) eqn:Ee; [|by split].
    cbn [calls_ok call_ok]. rewrite Ee. split; [split; [split; [by eexists|lia]|done]|]. constructor; [cbn [call_later]; lia|constructor].
  - exists (at_time 70 st), fired, st'. split; [unfold sample_later; rewrite E; reflexivity|].
    split; [exact E'|]. change (tm_now (at_time 70 st)) with 70 in Hf.
    replace (map snd (due 70 sample_list)) with [1; 5; 3; 2] in Hf by (vm_compute; reflexivity). exact Hf.
Defined.
