(* ===== verification/Hash.v ===== *)
(** * Hash tables

    src/core/ngx_hash.c: the static tables of names (headers, variables, server
    names, types), whose buckets are packed one after another into a piece of
    memory.

    Memory is addressed by bytes: a byte is one of the bytes of a stored value, and
    a value is read where it was stored and not overwritten since.  A write outside
    the allocated region or a read of anything else is a fault ([None]).  [NULL] is
    0; the address that [ngx_palloc] returns is an argument. *)

From stdpp Require Import gmap.
From S2P Require Import Prelude HeaderLine.

(** ** Memory *)

(** The byte [pt_index] of the [pt_size] bytes of a value. *)
Record part : Type := mk_part { pt_value : Z; pt_size : nat; pt_index : nat }.

#[export] Instance part_eq_dec : EqDecision part.
Proof. solve_decision. Defined.

(** The region [[m_lo, m_hi)]. *)
Record memory : Type := mk_memory { m_lo : Z; m_hi : Z; m_cells : gmap Z part }.

Definition load (n : nat) (a : Z) (m : memory) : option Z :=
  p ← m_cells m !! a;
  if forallb (fun i => bool_decide (m_cells m !! (a + Z.of_nat i) = Some (mk_part (pt_value p) n i))) (seq 0 n)
  then Some (pt_value p) else None.

Fixpoint put_parts (v : Z) (n i : nat) (k : nat) (a : Z) (cells : gmap Z part) : gmap Z part :=
  match k with
  | O => cells
  | S k' => <[a + Z.of_nat i := mk_part v n i]> (put_parts v n (S i) k' a cells)
  end.

Definition store (n : nat) (a v : Z) (m : memory) : option memory :=
  if (m_lo m <=? a) && (a + Z.of_nat n <=? m_hi m)
  then Some (mk_memory (m_lo m) (m_hi m) (put_parts v n 0 n a (m_cells m))) else None.

Fixpoint store_bytes (a : Z) (l : list Z) (m : memory) : option memory :=
  match l with
  | [] => Some m
  | c :: l' => m ← store 1 a c m; store_bytes (a + 1) l' m
  end.

(** ** Data *)

(** [ngx_align(d, a)]; a pointer on this machine has 8 bytes. *)
Definition ngx_align (d a : Z) : Z := Z.land (d + (a - 1)) (Z.lnot (a - 1)).

(** [ngx_hash_key_t]; the data of a key that is left out are [NULL]. *)
Record hash_key : Type := mk_hash_key { hk_key : list Z; hk_null : bool; hk_hash : Z; hk_value : Z }.

(** [ngx_hash_t] *)
Record hash : Type := mk_hash { hs_buckets : list Z; hs_size : Z; hs_mem : memory }.

(** [ngx_hash_elt_t]: [value] at 0, [len] at 8, [name] at 10. *)
Definition NGX_HASH_ELT_SIZE (name : hash_key) : Z := 8 + ngx_align (Z.of_nat (length (hk_key name)) + 2) 8.

(** ** Search *)

Fixpoint name_is (name : list Z) (a : Z) (m : memory) : option bool :=
  match name with
  | [] => Some true
  | c :: name' => b ← load 1 a m; if c =? b then name_is name' (a + 1) m else Some false
  end.

Fixpoint find_loop (fuel : nat) (elt : Z) (name : list Z) (m : memory) : option Z :=
  match fuel with
  | O => None
  | S fuel' =>
      value ← load 8 elt m;
      if value =? 0 then Some 0
      else
        len ← load 2 (elt + 8) m;
        same ← (if Z.of_nat (length name) =? len then name_is name (elt + 10) m else Some false);
        if same : bool then Some value else find_loop fuel' (ngx_align (elt + 10 + len) 8) name m
  end.

(** An element has more than one byte. *)
Definition find_fuel (h : hash) : nat := S (size (m_cells (hs_mem h))).

Definition ngx_hash_find (h : hash) (key : Z) (name : list Z) : option Z :=
  elt ← hs_buckets h !! Z.to_nat (key mod hs_size h);
  if elt =? 0 then Some 0 else find_loop (find_fuel h) elt name (hs_mem h).

(** ** Construction *)

Definition bucket_of (size : Z) (n : hash_key) : nat := Z.to_nat (hk_hash n mod size).

(** [test[key] = (u_short) (test[key] + NGX_HASH_ELT_SIZE(&names[n]))] *)
Definition test_add (size : Z) (n : hash_key) (test : list Z) : option (list Z) :=
  old ← test !! bucket_of size n;
  Some (<[bucket_of size n := u16 (old + NGX_HASH_ELT_SIZE n)]> test).

(** Every name finds room in its bucket. *)
Fixpoint fits (bucket_size size : Z) (names : list hash_key) (test : list Z) : option bool :=
  match names with
  | [] => Some true
  | n :: names' =>
      if hk_null n then fits bucket_size size names' test
      else
        test ← test_add size n test;
        now ← test !! bucket_of size n;
        if u16 bucket_size <? now then Some false else fits bucket_size size names' test
  end.

(** The least size that will do. *)
Fixpoint search_size (turns : nat) (bucket_size size : Z) (names : list hash_key) : option (option Z) :=
  match turns with
  | O => Some None
  | S turns' =>
      ok ← fits bucket_size size names (replicate (Z.to_nat size) 0);
      if ok : bool then Some (Some size) else search_size turns' bucket_size (size + 1) names
  end.

Definition start_size (max_size bucket_size nelts : Z) : option Z :=
  let per := bucket_size / 16 in
  if per =? 0 then None
  else
    let start := nelts / per in
    let start := if start =? 0 then 1 else start in
    Some (if (10000 <? max_size) && negb (nelts =? 0) && (max_size / nelts <? 100) then max_size - 1000 else start).

Definition chosen_size (max_size bucket_size : Z) (names : list hash_key) : option Z :=
  start ← start_size max_size bucket_size (Z.of_nat (length names));
  found ← search_size (Z.to_nat (max_size - start + 1)) bucket_size start names;
  Some (default max_size found).

(** [test[i] = sizeof(void * )], then the sizes of the names. *)
Fixpoint count_sizes (size : Z) (names : list hash_key) (test : list Z) : option (list Z) :=
  match names with
  | [] => Some test
  | n :: names' => test ← (if hk_null n then Some test else test_add size n test); count_sizes size names' test
  end.

(** Full cache lines for each bucket that is not empty. *)
Definition round_size (cacheline t : Z) : Z := if t =? 8 then t else u16 (ngx_align t cacheline).

Definition total_size (test : list Z) : Z := foldr (fun t len => if t =? 8 then len else t + len) 0 test.

Fixpoint place_buckets (elts : Z) (test : list Z) : list Z :=
  match test with
  | [] => []
  | t :: test' => if t =? 8 then 0 :: place_buckets elts test' else elts :: place_buckets (elts + t) test'
  end.

(** One name into its bucket. *)
Definition put_elt (elt : Z) (n : hash_key) (m : memory) : option memory :=
  m ← store 8 elt (hk_value n) m;
  m ← store 2 (elt + 8) (u16 (Z.of_nat (length (hk_key n)))) m;
  store_bytes (elt + 10) (ngx_strlow (hk_key n)) m.

Fixpoint fill (size : Z) (buckets : list Z) (names : list hash_key) (test : list Z) (m : memory) : option (list Z * memory) :=
  match names with
  | [] => Some (test, m)
  | n :: names' =>
      if hk_null n then fill size buckets names' test m
      else
        b ← buckets !! bucket_of size n;
        t ← test !! bucket_of size n;
        m ← put_elt (b + t) n m;
        test ← test_add size n test;
        fill size buckets names' test m
  end.

(** [NULL] behind the last element of each bucket. *)
Fixpoint terminate (buckets test : list Z) (m : memory) : option memory :=
  match buckets, test with
  | b :: buckets', t :: test' =>
      m ← (if b =? 0 then Some m else store 8 (b + t) 0 m); terminate buckets' test' m
  | _, _ => Some m
  end.

(** [Some None] is [NGX_ERROR]; [elts] is what [ngx_palloc] returns. *)
Definition ngx_hash_init (max_size bucket_size cacheline elts : Z) (names : list hash_key) : option (option hash) :=
  if max_size =? 0 then Some None
  else if existsb (fun n => bucket_size <? NGX_HASH_ELT_SIZE n + 8) names then Some None
  else
    size ← chosen_size max_size (u64 (bucket_size - 8)) names;
    test ← count_sizes size names (replicate (Z.to_nat size) 8);
    let test := map (round_size cacheline) test in
    let len := total_size test in
    let m := mk_memory elts (elts + len + cacheline) ∅ in
    let elts := ngx_align elts cacheline in
    let buckets := place_buckets elts test in
    '(test, m) ← fill size buckets names (replicate (Z.to_nat size) 0) m;
    m ← terminate buckets test m;
    Some (Some (mk_hash buckets size m)).

(** Three names, one of them left out. *)
Definition sample_name (s : string) (null : bool) (v : Z) : hash_key :=
  mk_hash_key (bytes s) null (ngx_hash_key_lc (bytes s)) v.

Definition sample_names : list hash_key :=
  [sample_name "Host" false 11; sample_name "Accept" true 12; sample_name "User-Agent" false 13; sample_name "Cookie" false 14].

Definition lookup_sample (s : string) : option Z :=
  h ← ngx_hash_init 512 64 64 100010 sample_names;
  h ← h;
  ngx_hash_find h (ngx_hash_key (bytes s)) (bytes s).

Example hash_sample : map lookup_sample ["host"; "accept"; "user-agent"; "cookie"; "Host"; ""]%string =
  [Some 11; Some 0; Some 13; Some 14; Some 0; Some 0].
Proof. vm_compute. reflexivity. Qed.

(** The sizes of the buckets are kept in 16 bits. When no size of the table is good
    enough the bucket size is ignored, and then a bucket of more than 65535 bytes
    gets the memory of what is left modulo 65536: the names run over the end of it. *)
Definition many_names (n : nat) : list hash_key :=
  map (fun i => mk_hash_key [97 + i mod 26; 97 + i / 26 mod 26; 97 + i / 676] false 0 1) (seqZ 0 (Z.of_nat n)).

Example hash_bucket_overrun : ngx_hash_init 1 64 64 100000 (many_names 4096) = None /\
  (h ← ngx_hash_init 1 64 64 100000 (many_names 4000); h ← h; ngx_hash_find h 0 (bytes "aaa")) = Some 1.
Proof. vm_compute. split; reflexivity. Qed.
