(* ===== verification/HashSpec.v ===== *)
(** * Hash tables: what they promise

    A table that [ngx_hash_init] has built is the list of its names: a search finds
    the first name that is equal, in lower case, to the one it looks for. *)

From stdpp Require Import gmap.
From S2P Require Import Prelude HeaderLine Hash.

(** ** Memory *)

Lemma put_parts_lookup v n k : forall i a cells x,
  put_parts v n i k a cells !! x =
  if (a + Z.of_nat i <=? x) && (x <? a + Z.of_nat (i + k)) then Some (mk_part v n (Z.to_nat (x - a))) else cells !! x.
Proof.
  induction k as [|k IH]; intros i a cells x; cbn [put_parts].
  - destruct (_ && _) eqn:E; [lia|done].
  - destruct (decide (x = a + Z.of_nat i)) as [-> |Hne].
    + rewrite lookup_insert_eq. replace (_ && _) with true by lia. do 2 f_equal. lia.
    + rewrite lookup_insert_ne by done. rewrite IH. replace (i + S k)%nat with (S i + k)%nat by lia.
      destruct (_ && _) eqn:E1, ((a + Z.of_nat i <=? x) && _) eqn:E2; try done; lia.
Qed.

Definition inside (n : nat) (a : Z) (m : memory) : Prop := m_lo m <= a /\ a + Z.of_nat n <= m_hi m.

(** The bytes from [a] to [b] are the same. *)
Definition same_region (m m' : memory) : Prop := m_lo m' = m_lo m /\ m_hi m' = m_hi m.

Definition writes (a b : Z) (m m' : memory) : Prop :=
  same_region m m' /\ forall x, x < a \/ b <= x -> m_cells m' !! x = m_cells m !! x.

Lemma writes_refl a b m : writes a b m m.
Proof. done. Qed.

Lemma writes_trans a b m1 m2 m3 : writes a b m1 m2 -> writes a b m2 m3 -> writes a b m1 m3.
Proof. intros [[H1 H2] H3] [[H4 H5] H6]. split; [split; congruence|]. intros x Hx. by rewrite H6, H3. Qed.

Lemma writes_wide a b a' b' m m' : writes a b m m' -> a' <= a -> b <= b' -> writes a' b' m m'.
Proof. intros [H1 H2] Ha Hb. split; [done|]. intros x Hx. apply H2. lia. Qed.

Lemma store_ok n a v m : inside n a m ->
  exists m', store n a v m = Some m' /\ writes a (a + Z.of_nat n) m m' /\
    forall i, (i < n)%nat -> m_cells m' !! (a + Z.of_nat i) = Some (mk_part v n i).
Proof.
  intros [H1 H2]. unfold store. replace (_ && _) with true by lia. eexists. split; [done|]. split.
  - split; [done|]. intros x Hx. cbn [m_cells]. rewrite put_parts_lookup. destruct (_ && _) eqn:E; [lia|done].
  - intros i Hi. cbn [m_cells]. rewrite put_parts_lookup. replace (_ && _) with true by lia. do 2 f_equal. lia.
Qed.

Definition holds (n : nat) (a v : Z) (m : memory) : Prop :=
  forall i, (i < n)%nat -> m_cells m !! (a + Z.of_nat i) = Some (mk_part v n i).

Lemma load_ok n a v m : holds n a v m -> (0 < n)%nat -> load n a m = Some v.
Proof.
  intros H Hn. unfold load. pose proof (H 0%nat Hn) as H0. rewrite Z.add_0_r in H0. rewrite H0. cbn [mbind option_bind pt_value].
  replace (forallb _ _) with true; [done|]. symmetry. apply forallb_forall. intros i [_ Hi]%in_seq. apply bool_decide_eq_true. apply H. lia.
Qed.

(** The bytes from [a] to [e] have not changed. *)
Definition same_on (a e : Z) (m m' : memory) : Prop := forall x, a <= x < e -> m_cells m' !! x = m_cells m !! x.

Lemma writes_same_on lo hi a e m m' : writes lo hi m m' -> e <= lo \/ hi <= a -> same_on a e m m'.
Proof. intros [_ Hw] Hd x Hx. apply Hw. lia. Qed.

Lemma same_on_sub a e a' e' m m' : same_on a e m m' -> a <= a' -> e' <= e -> same_on a' e' m m'.
Proof. intros H Ha He x Hx. apply H. lia. Qed.

Lemma holds_same n a v m m' : holds n a v m -> same_on a (a + Z.of_nat n) m m' -> holds n a v m'.
Proof. intros H Hs i Hi. rewrite Hs by lia. by apply H. Qed.

Lemma holds_writes n a v lo hi m m' : holds n a v m -> writes lo hi m m' -> a + Z.of_nat n <= lo \/ hi <= a -> holds n a v m'.
Proof. intros H Hw Hd. eapply holds_same; [exact H|]. by eapply writes_same_on. Qed.

Lemma inside_same n a m m' : same_region m m' -> inside n a m -> inside n a m'.
Proof. unfold same_region, inside. intros [-> ->]. done. Qed.

(** ** Text *)

Fixpoint text_in (m : memory) (a : Z) (l : list Z) : Prop :=
  match l with [] => True | c :: l' => holds 1 a c m /\ text_in m (a + 1) l' end.

Lemma store_bytes_ok l : forall a m, inside (length l) a m ->
  exists m', store_bytes a l m = Some m' /\ writes a (a + Z.of_nat (length l)) m m' /\ text_in m' a l.
Proof.
  induction l as [|c l IH]; intros a m H; cbn [store_bytes length text_in]; [exists m; done|].
  destruct (store_ok 1 a c m) as (m1 & -> & Hw1 & Hh1); [unfold inside in *; cbn [length] in H; lia|]. cbn [mbind option_bind].
  destruct (IH (a + 1) m1) as (m2 & -> & Hw2 & Ht); [eapply inside_same; [apply Hw1|]; unfold inside in *; cbn [length] in H; lia|].
  exists m2. split; [done|]. split.
  - eapply writes_trans; eapply writes_wide; [exact Hw1|lia|lia|exact Hw2|lia|lia].
  - split; [|done]. eapply holds_writes; [exact Hh1|exact Hw2|lia].
Qed.

Lemma text_same l : forall a m m', text_in m a l -> same_on a (a + Z.of_nat (length l)) m m' -> text_in m' a l.
Proof.
  induction l as [|c l IH]; intros a m m' H Hs; [done|]. destruct H as [Hc Hl]. cbn [length] in Hs. split.
  - eapply holds_same; [exact Hc|]. eapply same_on_sub; [exact Hs|lia|lia].
  - eapply IH; [exact Hl|]. eapply same_on_sub; [exact Hs|lia|lia].
Qed.

Lemma name_is_ok name l : forall a m, text_in m a l -> length name = length l -> name_is name a m = Some (bytes_eqb name l).
Proof.
  revert name. induction l as [|c l IH]; intros [|b name] a m H Hl; try done. destruct H as [Hc Ht]. cbn [name_is bytes_eqb].
  rewrite (load_ok 1 a c m) by (lia || done). cbn [mbind option_bind]. destruct (b =? c); [|done]. apply IH; [done|]. by injection Hl.
Qed.

(** ** The elements of a bucket *)

Lemma align_mult x k : 0 <= k -> ngx_align x (2 ^ k) = 2 ^ k * ((x + 2 ^ k - 1) / 2 ^ k).
Proof.
  intros Hk. unfold ngx_align. replace (2 ^ k - 1) with (Z.ones k) by (rewrite Z.ones_equiv; lia).
  rewrite <-Z.ldiff_land, Z.ldiff_ones_r, Z.shiftl_mul_pow2, Z.shiftr_div_pow2, Z.ones_equiv by lia.
  replace (x + Z.pred (2 ^ k)) with (x + 2 ^ k - 1) by lia. lia.
Qed.

Lemma align_bounds x k : 0 <= k -> x <= ngx_align x (2 ^ k) <= x + 2 ^ k - 1.
Proof.
  intros Hk. rewrite align_mult by done. assert (0 < 2 ^ k) by lia.
  pose proof (Z.div_mod (x + 2 ^ k - 1) (2 ^ k) ltac:(lia)). pose proof (Z.mod_pos_bound (x + 2 ^ k - 1) (2 ^ k) ltac:(lia)). lia.
Qed.

Lemma align8_mult x : ngx_align x 8 = 8 * ((x + 7) / 8).
Proof. change 8 with (2 ^ 3). rewrite align_mult by lia. do 2 f_equal. lia. Qed.

Lemma align8_bounds x : x <= ngx_align x 8 <= x + 7 /\ exists k, ngx_align x 8 = 8 * k.
Proof. split; [pose proof (align_bounds x 3 ltac:(lia)) as H; change (2 ^ 3) with 8 in H; lia|]. rewrite align8_mult. by eexists. Qed.

Lemma align8_add k x : ngx_align (8 * k + x) 8 = 8 * k + ngx_align x 8.
Proof. rewrite !align8_mult. replace (8 * k + x + 7) with (x + 7 + k * 8) by lia. rewrite Z.div_add by lia. lia. Qed.

Lemma elt_size_bounds n : 16 <= NGX_HASH_ELT_SIZE n /\ 10 + Z.of_nat (length (hk_key n)) <= NGX_HASH_ELT_SIZE n /\
  exists k, NGX_HASH_ELT_SIZE n = 8 * k.
Proof.
  unfold NGX_HASH_ELT_SIZE. destruct (align8_bounds (Z.of_nat (length (hk_key n)) + 2)) as [H (k & Hk)].
  split; [|split; [lia|exists (1 + k); lia]]. rewrite Hk in *. lia.
Qed.

Lemma next_elt k n : ngx_align (8 * k + 10 + Z.of_nat (length (hk_key n))) 8 = 8 * k + NGX_HASH_ELT_SIZE n.
Proof.
  unfold NGX_HASH_ELT_SIZE. replace (8 * k + 10 + Z.of_nat (length (hk_key n))) with (8 * (k + 1) + (Z.of_nat (length (hk_key n)) + 2)) by lia.
  rewrite align8_add. lia.
Qed.

Definition elt_at (m : memory) (a : Z) (n : hash_key) : Prop :=
  holds 8 a (hk_value n) m /\ holds 2 (a + 8) (Z.of_nat (length (hk_key n))) m /\ text_in m (a + 10) (ngx_strlow (hk_key n)).

(** From [a] to [e]. *)
Fixpoint elts_at (m : memory) (a : Z) (ns : list hash_key) (e : Z) : Prop :=
  match ns with
  | [] => a = e
  | n :: ns' => elt_at m a n /\ elts_at m (a + NGX_HASH_ELT_SIZE n) ns' e
  end.

Definition bytes_of (ns : list hash_key) : Z := foldr (fun n b => NGX_HASH_ELT_SIZE n + b) 0 ns.

Lemma bytes_of_app a b : bytes_of (a ++ b) = bytes_of a + bytes_of b.
Proof. unfold bytes_of. induction a as [|n a IH]; cbn [app foldr]; [done|]. rewrite IH. lia. Qed.

Lemma bytes_of_nonneg ns : 0 <= bytes_of ns.
Proof. unfold bytes_of. induction ns as [|n ns IH]; cbn [foldr]; [done|]. pose proof (elt_size_bounds n). lia. Qed.

Lemma elts_at_end m a ns e : elts_at m a ns e -> e = a + bytes_of ns.
Proof.
  revert a. induction ns as [|n ns IH]; intros a H; cbn [elts_at bytes_of foldr] in *; [lia|]. destruct H as [_ H].
  apply IH in H. unfold bytes_of in H. lia.
Qed.

Lemma elts_at_app m a ns1 e1 ns2 e2 : elts_at m a ns1 e1 -> elts_at m e1 ns2 e2 -> elts_at m a (ns1 ++ ns2) e2.
Proof.
  revert a. induction ns1 as [|n ns1 IH]; intros a H1 H2; cbn [elts_at app] in *; [by subst|]. destruct H1 as [H H1]. split; [done|by apply IH].
Qed.

Lemma elts_at_same m m' ns : forall a e, elts_at m a ns e -> same_on a e m m' -> elts_at m' a ns e.
Proof.
  induction ns as [|n ns IH]; intros a e H Hs; cbn [elts_at] in *; [done|]. destruct H as [(H1 & H2 & H3) H].
  pose proof (elts_at_end _ _ _ _ H) as He. pose proof (bytes_of_nonneg ns). destruct (elt_size_bounds n) as (Hb1 & Hb2 & _).
  assert (Hlen : length (ngx_strlow (hk_key n)) = length (hk_key n)) by apply length_map.
  split; [|eapply IH; [exact H|eapply same_on_sub; [exact Hs|lia|lia]]]. split; [|split].
  - eapply holds_same; [exact H1|eapply same_on_sub; [exact Hs|lia|lia]].
  - eapply holds_same; [exact H2|eapply same_on_sub; [exact Hs|lia|lia]].
  - eapply text_same; [exact H3|rewrite Hlen; eapply same_on_sub; [exact Hs|lia|lia]].
Qed.

Lemma put_elt_ok n a m :
  inside (Z.to_nat (NGX_HASH_ELT_SIZE n)) a m -> Z.of_nat (length (hk_key n)) < 2 ^ 16 ->
  exists m', put_elt a n m = Some m' /\ elt_at m' a n /\ writes a (a + NGX_HASH_ELT_SIZE n) m m'.
Proof.
  intros Hin Hlen. destruct (elt_size_bounds n) as (Hb1 & Hb2 & _). unfold inside in Hin.
  assert (Hl : length (ngx_strlow (hk_key n)) = length (hk_key n)) by apply length_map. unfold put_elt.
  destruct (store_ok 8 a (hk_value n) m) as (m1 & -> & Hw1 & Hh1); [unfold inside; lia|]. cbn [mbind option_bind].
  assert (Hu : u16 (Z.of_nat (length (hk_key n))) = Z.of_nat (length (hk_key n))) by (unfold u16; apply Z.mod_small; lia). rewrite Hu.
  destruct (store_ok 2 (a + 8) (Z.of_nat (length (hk_key n))) m1) as (m2 & -> & Hw2 & Hh2);
    [eapply inside_same; [apply Hw1|unfold inside; lia]|]. cbn [mbind option_bind].
  destruct (store_bytes_ok (ngx_strlow (hk_key n)) (a + 10) m2) as (m3 & -> & Hw3 & Ht3);
    [eapply inside_same; [apply Hw2|]; eapply inside_same; [apply Hw1|unfold inside; lia]|].
  exists m3. split; [done|]. split.
  - split; [|split; [|exact Ht3]].
    + eapply holds_writes; [|exact Hw3|lia]. eapply holds_writes; [exact Hh1|exact Hw2|lia].
    + eapply holds_writes; [exact Hh2|exact Hw3|lia].
  - eapply writes_trans; [eapply writes_wide; [exact Hw1|lia|lia]|].
    eapply writes_trans; eapply writes_wide; [exact Hw2|lia|lia|exact Hw3|lia|lia].
Qed.

(** ** Search in a bucket *)

Definition is_name (name : list Z) (n : hash_key) : bool := bytes_eqb name (ngx_strlow (hk_key n)).

(** The value of the first name that is equal. *)
Definition first_value (name : list Z) (ns : list hash_key) : Z :=
  match find (is_name name) ns with Some n => hk_value n | None => 0 end.

Definition good_name (n : hash_key) : Prop := hk_value n <> 0.

Lemma find_loop_ok m name ns : forall fuel k e,
  elts_at m (8 * k) ns e -> holds 8 e 0 m -> Forall good_name ns -> (length ns < fuel)%nat ->
  find_loop fuel (8 * k) name m = Some (first_value name ns).
Proof.
  induction ns as [|n ns IH]; intros fuel k e H He Hg Hf; (destruct fuel as [|fuel]; [cbn [length] in Hf; lia|]); cbn [find_loop elts_at] in *.
  - subst e. by rewrite (load_ok 8 _ 0 m) by (lia || exact He).
  - destruct H as [(H1 & H2 & H3) H]. apply Forall_cons in Hg as [Hn Hg]. rewrite (load_ok 8 _ _ m H1) by lia.
    cbn [mbind option_bind]. rewrite (proj2 (Z.eqb_neq _ _)) by exact Hn. rewrite (load_ok 2 _ _ m H2) by lia. cbn [mbind option_bind].
    unfold first_value. cbn [find]. unfold is_name at 1.
    assert (Hlen : length (ngx_strlow (hk_key n)) = length (hk_key n)) by apply length_map.
    assert (Hnext : find_loop fuel (ngx_align (8 * k + 10 + Z.of_nat (length (hk_key n))) 8) name m = Some (first_value name ns)).
    { rewrite next_elt. destruct (elt_size_bounds n) as (_ & _ & j & Hj). rewrite Hj in H |- *.
      replace (8 * k + 8 * j) with (8 * (k + j)) in * by lia. eapply IH; [exact H|exact He|exact Hg|cbn [length] in Hf; lia]. }
    destruct (Z.eqb_spec (Z.of_nat (length name)) (Z.of_nat (length (hk_key n)))) as [El|Nl]; cbn [mbind option_bind].
    + rewrite (name_is_ok name _ _ m H3) by lia. cbn [mbind option_bind]. by destruct (bytes_eqb name _).
    + rewrite (bytes_eqb_length name) by lia. exact Hnext.
Qed.

(** There are as many bytes in memory as elements. *)
Lemma elts_cells m ns : forall a e, elts_at m a ns e ->
  exists l, length l = length ns /\ NoDup l /\ Forall (fun x => a <= x /\ is_Some (m_cells m !! x)) l.
Proof.
  induction ns as [|n ns IH]; intros a e H; cbn [elts_at] in *; [exists []; by repeat constructor|].
  destruct H as [(H1 & _) H]. destruct (IH _ _ H) as (l & Hl & Hnd & Hall). destruct (elt_size_bounds n) as (Hb & _).
  exists (a :: l). cbn [length]. split; [by rewrite Hl|]. split.
  - apply NoDup_cons. split; [|done]. intros Hin. rewrite Forall_forall in Hall. apply Hall in Hin. lia.
  - constructor; [split; [lia|]; specialize (H1 0%nat ltac:(lia)); rewrite Z.add_0_r in H1; by rewrite H1|].
    eapply Forall_impl; [exact Hall|]. cbv beta. intros x [Hx1 Hx2]. split; [lia|done].
Qed.

Lemma elts_fuel m a ns e : elts_at m a ns e -> (length ns <= size (m_cells m))%nat.
Proof.
  intros H. destruct (elts_cells _ _ _ _ H) as (l & <- & Hnd & Hall).
  rewrite <-(size_list_to_set (C := gset Z) l Hnd), <-size_dom. apply subseteq_size.
  intros x Hx. apply elem_of_list_to_set in Hx. apply elem_of_dom. rewrite Forall_forall in Hall. by apply Hall in Hx as [_ ?].
Qed.

(** ** The layout of the buckets *)

Definition in_bucket (size : Z) (i : nat) (n : hash_key) : bool := negb (hk_null n) && (bucket_of size n =? i)%nat.
Definition bucket_names (size : Z) (i : nat) (names : list hash_key) : list hash_key := List.filter (in_bucket size i) names.

Lemma bucket_names_app size i a b : bucket_names size i (a ++ b) = bucket_names size i a ++ bucket_names size i b.
Proof. apply List.filter_app. Qed.

Lemma bucket_names_one size i n :
  bucket_names size i [n] = if negb (hk_null n) && (bucket_of size n =? i)%nat then [n] else [].
Proof. done. Qed.

(** Every bucket that is not empty has room of its own. *)
Record layout (size lo hi : Z) (bs cs : list Z) (names : list hash_key) : Prop := mk_layout {
  lay_length : length bs = Z.to_nat size;
  lay_caps : length cs = Z.to_nat size;
  lay_in i b c : bs !! i = Some b -> cs !! i = Some c -> b <> 0 -> lo <= b /\ b + c <= hi /\ exists k, b = 8 * k;
  lay_apart i j b c b' c' : bs !! i = Some b -> cs !! i = Some c -> bs !! j = Some b' -> cs !! j = Some c' ->
    b <> 0 -> b' <> 0 -> i <> j -> b + c <= b' \/ b' + c' <= b;
  lay_room i b c : bs !! i = Some b -> cs !! i = Some c -> bucket_names size i names <> [] ->
    b <> 0 /\ bytes_of (bucket_names size i names) + 8 <= c /\ c < 2 ^ 16;
  lay_empty i b c : bs !! i = Some b -> cs !! i = Some c -> b <> 0 -> bucket_names size i names <> []
}.

Section Fill.
Context (size lo hi : Z) (bs cs : list Z) (all : list hash_key) (L : layout size lo hi bs cs all).
Hypothesis Hsize : 0 < size.

(** The names so far are in their buckets. *)
Record filled (names : list hash_key) (test : list Z) (m : memory) : Prop := mk_filled {
  fl_region : m_lo m = lo /\ m_hi m = hi;
  fl_length : length test = Z.to_nat size;
  fl_test i t : test !! i = Some t -> t = bytes_of (bucket_names size i names);
  fl_elts i b : bs !! i = Some b -> b <> 0 -> elts_at m b (bucket_names size i names) (b + bytes_of (bucket_names size i names))
}.

Lemma bucket_lt n : (bucket_of size n < Z.to_nat size)%nat.
Proof. unfold bucket_of. pose proof (Z.mod_pos_bound (hk_hash n) size Hsize). lia. Qed.

Lemma bucket_bytes_le i a b : bytes_of (bucket_names size i a) <= bytes_of (bucket_names size i (a ++ b)).
Proof. rewrite bucket_names_app, bytes_of_app. pose proof (bytes_of_nonneg (bucket_names size i b)). lia. Qed.

Lemma fill_one names n rest test m :
  all = names ++ n :: rest -> filled names test m -> hk_null n = false ->
  exists b t m' test', bs !! bucket_of size n = Some b /\ test !! bucket_of size n = Some t /\ put_elt (b + t) n m = Some m' /\
    test_add size n test = Some test' /\ filled (names ++ [n]) test' m'.
Proof.
  intros Hall [[Hlo Hhi] Hlen Htest Helts] Hn. set (i := bucket_of size n). assert (Hi := bucket_lt n). fold i in Hi.
  destruct (lookup_lt_is_Some_2 bs i) as [b Hb]; [by rewrite (lay_length _ _ _ _ _ _ L)|].
  destruct (lookup_lt_is_Some_2 cs i) as [c Hc]; [by rewrite (lay_caps _ _ _ _ _ _ L)|].
  destruct (lookup_lt_is_Some_2 test i) as [t Ht]; [by rewrite Hlen|]. pose proof (Htest i t Ht) as Et.
  assert (Hone : bucket_names size i [n] = [n]) by (rewrite bucket_names_one, Hn; unfold i; by rewrite Nat.eqb_refl).
  assert (Hin : bucket_names size i all = bucket_names size i names ++ n :: bucket_names size i rest).
  { rewrite Hall. change (n :: rest) with ([n] ++ rest). by rewrite !bucket_names_app, Hone. }
  destruct (lay_room _ _ _ _ _ _ L i b c Hb Hc) as (Hb0 & Hroom & Hc16); [rewrite Hin; by destruct (bucket_names size i names)|].
  destruct (lay_in _ _ _ _ _ _ L i b c Hb Hc Hb0) as (Hl & Hh & _).
  rewrite Hin, bytes_of_app in Hroom. cbn [bytes_of foldr] in Hroom. fold (bytes_of (bucket_names size i rest)) in Hroom.
  pose proof (bytes_of_nonneg (bucket_names size i rest)) as Hr0. pose proof (bytes_of_nonneg (bucket_names size i names)) as Hn0.
  destruct (elt_size_bounds n) as (Hs1 & Hs2 & _).
  destruct (put_elt_ok n (b + t) m) as (m' & Em & He & Hw); [unfold inside; lia|lia|].
  exists b, t, m'. eexists. split; [exact Hb|]. split; [exact Ht|]. split; [exact Em|].
  split; [unfold test_add; fold i; rewrite Ht; done|].
  assert (Hu : u16 (t + NGX_HASH_ELT_SIZE n) = bytes_of (bucket_names size i (names ++ [n]))).
  { rewrite bucket_names_app, Hone, bytes_of_app. cbn [bytes_of foldr]. unfold u16. rewrite Z.mod_small; lia. }
  assert (Hother : forall j, j <> i -> bucket_names size j (names ++ [n]) = bucket_names size j names).
  { intros j Hj. rewrite bucket_names_app, bucket_names_one, Hn. fold i. rewrite (proj2 (Nat.eqb_neq i j)) by done. cbn [negb andb]. apply app_nil_r. }
  constructor.
  - destruct Hw as [[-> ->] _]. done.
  - fold i. by rewrite length_insert.
  - intros j tj. fold i. destruct (decide (j = i)) as [-> |Hj].
    + rewrite list_lookup_insert_eq by (rewrite Hlen; exact Hi). intros [= <-]. exact Hu.
    + rewrite list_lookup_insert_ne by done. rewrite Hother by done. apply Htest.
  - intros j bj Hbj Hbj0. destruct (decide (j = i)) as [-> |Hj].
    + rewrite Hb in Hbj. injection Hbj as <-. rewrite <-Hu, bucket_names_app, Hone. subst t.
      eapply elts_at_app; [eapply elts_at_same; [exact (Helts i b Hb Hb0)|eapply writes_same_on; [exact Hw|lia]]|].
      cbn [elts_at]. split; [exact He|]. rewrite Hu, bucket_names_app, Hone, bytes_of_app. cbn [bytes_of foldr]. lia.
    + rewrite Hother by done. destruct (lookup_lt_is_Some_2 cs j) as [cj Hcj].
      { rewrite (lay_caps _ _ _ _ _ _ L), <-(lay_length _ _ _ _ _ _ L). by eapply lookup_lt_Some. }
      destruct (lay_room _ _ _ _ _ _ L j bj cj Hbj Hcj (lay_empty _ _ _ _ _ _ L j bj cj Hbj Hcj Hbj0)) as (_ & Hroomj & _).
      assert (Hle : bytes_of (bucket_names size j names) <= bytes_of (bucket_names size j all)) by (rewrite Hall; apply bucket_bytes_le).
      eapply elts_at_same; [exact (Helts j bj Hbj Hbj0)|]. eapply writes_same_on; [exact Hw|].
      destruct (lay_apart _ _ _ _ _ _ L i j b c bj cj Hb Hc Hbj Hcj Hb0 Hbj0) as [Hd|Hd]; [done|right; lia|left; lia].
Qed.

Lemma fill_ok rest : forall names test m,
  all = names ++ rest -> filled names test m ->
  exists test' m', fill size bs rest test m = Some (test', m') /\ filled all test' m'.
Proof.
  induction rest as [|n rest IH]; intros names test m Hall H; cbn [fill].
  - rewrite app_nil_r in Hall. subst names. by exists test, m.
  - destruct (hk_null n) eqn:Hn.
    + apply (IH (names ++ [n])); [by rewrite <-app_assoc|]. destruct H as [H1 H2 H3 H4].
      assert (Hsame : forall i, bucket_names size i (names ++ [n]) = bucket_names size i names).
      { intros i. rewrite bucket_names_app, bucket_names_one, Hn. cbn [negb andb]. apply app_nil_r. }
      constructor; try done; intros i x; rewrite Hsame; [apply H3|apply H4].
    + destruct (fill_one names n rest test m Hall H Hn) as (b & t & m' & test' & -> & -> & E1 & -> & H'). cbn [mbind option_bind].
      rewrite E1. cbn [mbind option_bind]. apply (IH (names ++ [n])); [by rewrite <-app_assoc|done].
Qed.

End Fill.

(** ** The sizes *)

Lemma count_ok size all : 0 < size -> (forall i, 8 + bytes_of (bucket_names size i all) < 2 ^ 16) ->
  forall rest names test, all = names ++ rest -> length test = Z.to_nat size ->
  (forall i t, test !! i = Some t -> t = 8 + bytes_of (bucket_names size i names)) ->
  exists test', count_sizes size rest test = Some test' /\ length test' = Z.to_nat size /\
    forall i t, test' !! i = Some t -> t = 8 + bytes_of (bucket_names size i all).
Proof.
  intros Hsize Hb. induction rest as [|n rest IH]; intros names test Hall Hlen Ht; cbn [count_sizes].
  - rewrite app_nil_r in Hall. subst names. by exists test.
  - assert (Hall' : all = (names ++ [n]) ++ rest) by (by rewrite <-app_assoc). destruct (hk_null n) eqn:Hn; cbn [mbind option_bind].
    + apply (IH (names ++ [n]) test Hall' Hlen). intros i t Hi. rewrite bucket_names_app, bucket_names_one, Hn. cbn [negb andb].
      rewrite app_nil_r. by apply Ht.
    + pose proof (bucket_lt size Hsize n) as Hi. destruct (lookup_lt_is_Some_2 test (bucket_of size n)) as [t0 Ht0]; [by rewrite Hlen|].
      unfold test_add. rewrite Ht0. cbn [mbind option_bind]. apply (IH (names ++ [n]) _ Hall'); [by rewrite length_insert|].
      intros i t. rewrite bucket_names_app, bucket_names_one, Hn, bytes_of_app. cbn [negb andb].
      destruct (Nat.eqb_spec (bucket_of size n) i) as [<-|Hne].
      * rewrite list_lookup_insert_eq by (rewrite Hlen; exact Hi). intros [= <-]. rewrite (Ht _ _ Ht0). cbn [bytes_of foldr].
        specialize (Hb (bucket_of size n)). rewrite Hall' in Hb. pose proof (bucket_bytes_le size (bucket_of size n) (names ++ [n]) rest) as Hle.
        rewrite (bucket_names_app size _ names [n]), bucket_names_one, Hn, bytes_of_app in Hle. cbn [negb andb bytes_of foldr] in Hle.
        rewrite Nat.eqb_refl in Hle. cbn [foldr] in Hle. pose proof (bytes_of_nonneg (bucket_names size (bucket_of size n) names)).
        destruct (elt_size_bounds n) as [? _]. unfold bytes_of in *. unfold u16. rewrite Z.mod_small; lia.
      * rewrite list_lookup_insert_ne by done. intros Hi'. cbn [bytes_of foldr]. rewrite (Ht _ _ Hi'). lia.
Qed.

Lemma replicate_test size i (v t : Z) : replicate (Z.to_nat size) v !! i = Some t -> t = v.
Proof. intros H. by apply lookup_replicate in H as [-> _]. Qed.

(** ** The places of the buckets *)

Lemma total_take ts i c : ts !! i = Some c -> total_size (take (S i) ts) = total_size (take i ts) + (if c =? 8 then 0 else c).
Proof.
  revert i. induction ts as [|t ts IH]; intros [|i] H; cbn in H; [done..| |].
  - injection H as ->. unfold total_size. simpl. destruct (c =? 8); lia.
  - apply IH in H. cbn [take]. unfold total_size in *. cbn [foldr]. destruct (t =? 8); cbn [take] in *; lia.
Qed.

Lemma total_nonneg ts : Forall (fun t => 0 < t) ts -> 0 <= total_size ts.
Proof. unfold total_size. induction 1 as [|t ts Ht _ IH]; cbn [foldr]; [done|]. destruct (t =? 8); lia. Qed.

Lemma total_app a b : total_size (a ++ b) = total_size a + total_size b.
Proof. unfold total_size. induction a as [|t a IH]; cbn [app foldr]; [done|]. rewrite IH. destruct (t =? 8); lia. Qed.

Lemma total_mono ts i j : Forall (fun t => 0 < t) ts -> (i <= j)%nat -> total_size (take i ts) <= total_size (take j ts).
Proof.
  intros Hp Hij. rewrite <-(take_drop i (take j ts)), take_take, total_app, Nat.min_l by done.
  pose proof (total_nonneg (drop i (take j ts)) ltac:(by apply Forall_drop, Forall_take)). lia.
Qed.

Lemma place_lookup ts : forall elts i b c, place_buckets elts ts !! i = Some b -> ts !! i = Some c ->
  b = if c =? 8 then 0 else elts + total_size (take i ts).
Proof.
  induction ts as [|t ts IH]; intros elts [|i] b c Hb Hc; cbn [place_buckets] in Hb; [done..| |].
  - injection Hc as ->. unfold total_size. simpl. destruct (c =? 8); injection Hb as <-; lia.
  - cbn [take]. unfold total_size. cbn [foldr]. fold (total_size (take i ts)).
    destruct (t =? 8); cbn [lookup] in Hb, Hc; rewrite (IH _ _ _ _ Hb Hc); destruct (c =? 8); lia.
Qed.

Lemma length_place elts ts : length (place_buckets elts ts) = length ts.
Proof. revert elts. induction ts as [|t ts IH]; intros elts; cbn [place_buckets]; [done|]. destruct (t =? 8); cbn [length]; by rewrite IH. Qed.

Lemma place_apart elts ts i j b c b' c' :
  0 < elts -> Forall (fun t => 0 < t) ts -> place_buckets elts ts !! i = Some b -> ts !! i = Some c ->
  place_buckets elts ts !! j = Some b' -> ts !! j = Some c' -> b <> 0 -> b' <> 0 -> (i < j)%nat -> b + c <= b'.
Proof.
  intros He Hp Hb Hc Hb' Hc' Hb0 Hb0' Hij. apply (place_lookup _ _ _ _ _ Hb) in Hc as Eb. apply (place_lookup _ _ _ _ _ Hb') in Hc' as Eb'.
  pose proof (total_take ts i c Hc) as Ht. pose proof (total_mono ts (S i) j Hp Hij) as Hm.
  destruct (c =? 8); [done|]. destruct (c' =? 8); [done|]. lia.
Qed.

Lemma round_bounds cl t : 0 <= cl -> t + 2 ^ cl <= 2 ^ 16 -> 24 <= t ->
  t <= round_size (2 ^ cl) t < 2 ^ 16 /\ round_size (2 ^ cl) t = 2 ^ cl * ((t + 2 ^ cl - 1) / 2 ^ cl).
Proof.
  intros Hcl Ht H24. unfold round_size. rewrite (proj2 (Z.eqb_neq t 8)) by lia. pose proof (align_bounds t cl Hcl).
  unfold u16. rewrite Z.mod_small by lia. split; [lia|]. by apply align_mult.
Qed.

(** ** The ends of the buckets *)

Definition ends_apart (bs ts : list Z) : Prop :=
  forall i j b t b' t', bs !! i = Some b -> ts !! i = Some t -> bs !! j = Some b' -> ts !! j = Some t' ->
    b <> 0 -> b' <> 0 -> i <> j -> b + t + 8 <= b' + t' \/ b' + t' + 8 <= b + t.

Lemma terminate_ok bs : forall ts m,
  length bs = length ts -> ends_apart bs ts ->
  (forall i b t, bs !! i = Some b -> ts !! i = Some t -> b <> 0 -> inside 8 (b + t) m) ->
  exists m', terminate bs ts m = Some m' /\ same_region m m' /\
    (forall i b t, bs !! i = Some b -> ts !! i = Some t -> b <> 0 -> holds 8 (b + t) 0 m') /\
    (forall x, (forall i b t, bs !! i = Some b -> ts !! i = Some t -> b <> 0 -> x < b + t \/ b + t + 8 <= x) ->
       m_cells m' !! x = m_cells m !! x).
Proof.
  induction bs as [|b bs IH]; intros [|t ts] m Hlen Hap Hin; try done; cbn [terminate]; [by exists m|]. injection Hlen as Hlen.
  assert (Hap' : ends_apart bs ts) by (intros i j ? ? ? ? ? ? ? ? ? ? ?; apply (Hap (S i) (S j)); auto).
  assert (Hm1 : exists m1, (if b =? 0 then Some m else store 8 (b + t) 0 m) = Some m1 /\ same_region m m1 /\
    (b <> 0 -> holds 8 (b + t) 0 m1) /\ (forall x, (b <> 0 -> x < b + t \/ b + t + 8 <= x) -> m_cells m1 !! x = m_cells m !! x)).
  { destruct (Z.eqb_spec b 0) as [-> |Hb]; [by exists m|]. destruct (store_ok 8 (b + t) 0 m (Hin 0%nat b t eq_refl eq_refl Hb)) as (m1 & E & [Hr Hw] & Hh).
    exists m1. split; [exact E|]. split; [exact Hr|]. split; [intros _; exact Hh|]. intros x Hx. apply Hw. specialize (Hx Hb). lia. }
  destruct Hm1 as (m1 & -> & Hr1 & Hh1 & Hw1). cbn [mbind option_bind].
  destruct (IH ts m1 Hlen Hap') as (m' & E & Hr & Hh & Hw).
  { intros i b' t' Hb' Ht' Hn. eapply inside_same; [exact Hr1|]. by apply (Hin (S i)). }
  exists m'. split; [exact E|]. split; [destruct Hr1, Hr; split; congruence|]. split.
  - intros [|i] b' t' Hb' Ht' Hn; cbn in Hb', Ht'; [|by apply (Hh i)]. injection Hb' as <-. injection Ht' as <-.
    eapply holds_same; [by apply Hh1|]. intros x Hx. apply Hw. intros i b' t' Hb' Ht' Hn'.
    destruct (Hap 0%nat (S i) b t b' t' eq_refl eq_refl Hb' Ht' Hn Hn' ltac:(done)); lia.
  - intros x Hx. rewrite Hw; [apply Hw1; intros Hb; by apply (Hx 0%nat)|]. intros i b' t' Hb' Ht' Hn. by apply (Hx (S i)).
Qed.

(** ** The table *)

(** The first name in the table that is equal. *)
Definition listed (size key : Z) (name : list Z) (names : list hash_key) : Z :=
  first_value name (bucket_names size (Z.to_nat (key mod size)) names).

Record good_table (names : list hash_key) (h : hash) : Prop := mk_good_table {
  gt_size : 0 < hs_size h;
  gt_find key name : ngx_hash_find h key name = Some (listed (hs_size h) key name names)
}.

Lemma table_ok size lo hi bs cs names :
  0 < size -> layout size lo hi bs cs names -> Forall good_name names ->
  exists m, ('(test, m) ← fill size bs names (replicate (Z.to_nat size) 0) (mk_memory lo hi ∅); terminate bs test m) = Some m /\
    good_table names (mk_hash bs size m).
Proof.
  intros Hsize L Hg.
  destruct (fill_ok size lo hi bs cs names L Hsize names [] (replicate (Z.to_nat size) 0) (mk_memory lo hi ∅) eq_refl) as (test & m1 & -> & F).
  { constructor; [done|apply length_replicate|intros i t Ht; by apply replicate_test in Ht|]. intros i b _ _. cbn. lia. }
  cbn [mbind option_bind]. destruct F as [[Hlo Hhi] Hlen Htest Helts].
  assert (Hcs : forall i (b : Z), bs !! i = Some b -> exists c, cs !! i = Some c).
  { intros i b Hb. apply lookup_lt_is_Some_2. rewrite (lay_caps _ _ _ _ _ _ L), <-(lay_length _ _ _ _ _ _ L). by eapply lookup_lt_Some. }
  assert (Hroom : forall i b t, bs !! i = Some b -> test !! i = Some t -> b <> 0 -> exists c, cs !! i = Some c /\ t + 8 <= c /\ 0 <= t).
  { intros i b t Hb Ht Hb0. destruct (Hcs i b Hb) as [c Hc]. exists c. split; [done|]. rewrite (Htest i t Ht).
    destruct (lay_room _ _ _ _ _ _ L i b c Hb Hc (lay_empty _ _ _ _ _ _ L i b c Hb Hc Hb0)) as (_ & ? & _).
    pose proof (bytes_of_nonneg (bucket_names size i names)). lia. }
  destruct (terminate_ok bs test m1) as (m & E & Hr & Hh & Hw).
  { by rewrite (lay_length _ _ _ _ _ _ L). }
  { intros i j b t b' t' Hb Ht Hb' Ht' Hb0 Hb0' Hij. destruct (Hroom i b t Hb Ht Hb0) as (c & Hc & ? & ?).
    destruct (Hroom j b' t' Hb' Ht' Hb0') as (c' & Hc' & ? & ?).
    destruct (lay_apart _ _ _ _ _ _ L i j b c b' c' Hb Hc Hb' Hc' Hb0 Hb0' Hij); lia. }
  { intros i b t Hb Ht Hb0. destruct (Hroom i b t Hb Ht Hb0) as (c & Hc & ? & ?).
    destruct (lay_in _ _ _ _ _ _ L i b c Hb Hc Hb0) as (? & ? & _). unfold inside. lia. }
  exists m. split; [exact E|]. constructor; [done|]. intros key name. unfold ngx_hash_find, listed. cbn [hs_buckets hs_size hs_mem].
  set (i := Z.to_nat (key mod size)). assert (Hi : (i < Z.to_nat size)%nat) by (unfold i; pose proof (Z.mod_pos_bound key size Hsize); lia).
  destruct (lookup_lt_is_Some_2 bs i) as [b Hb]; [by rewrite (lay_length _ _ _ _ _ _ L)|]. rewrite Hb. cbn [mbind option_bind].
  destruct (lookup_lt_is_Some_2 test i) as [t Ht]; [by rewrite Hlen|]. destruct (Hcs i b Hb) as [c Hc].
  destruct (Z.eqb_spec b 0) as [Hb0|Hb0].
  - destruct (decide (bucket_names size i names = [])) as [-> |Hne]; [done|].
    by destruct (lay_room _ _ _ _ _ _ L i b c Hb Hc Hne).
  - destruct (lay_in _ _ _ _ _ _ L i b c Hb Hc Hb0) as (_ & _ & k & ->).
    assert (Hel : elts_at m (8 * k) (bucket_names size i names) (8 * k + bytes_of (bucket_names size i names))).
    { eapply elts_at_same; [exact (Helts i _ Hb Hb0)|]. intros x Hx. apply Hw. intros j b' t' Hb' Ht' Hb0'.
      destruct (decide (j = i)) as [-> |Hji].
      - rewrite Hb in Hb'. injection Hb' as <-. rewrite (Htest _ _ Ht'). lia.
      - destruct (Hroom j b' t' Hb' Ht' Hb0') as (c' & Hc' & ? & ?). destruct (Hroom i _ t Hb Ht Hb0) as (c1 & Hc1 & ? & ?).
        rewrite (Htest _ _ Ht) in *. destruct (lay_apart _ _ _ _ _ _ L j i b' c' (8 * k) c1 Hb' Hc' Hb Hc1 Hb0' Hb0 Hji); lia. }
    eapply find_loop_ok; [exact Hel| | |].
    + rewrite <-(Htest _ _ Ht). by apply (Hh i).
    + unfold bucket_names. apply Forall_forall. intros n Hn. rewrite Forall_forall in Hg. apply Hg.
      apply list_elem_of_In, List.filter_In in Hn as [Hn _]. by apply list_elem_of_In.
    + unfold find_fuel. cbn [hs_mem]. pose proof (elts_fuel _ _ _ _ Hel). lia.
Qed.

(** *** The search for a size *)

Definition sizes_ok (size : Z) (names : list hash_key) (test : list Z) : Prop :=
  length test = Z.to_nat size /\ forall i t, test !! i = Some t -> t = bytes_of (bucket_names size i names).

Lemma fits_total bucket size rest : 0 < size -> forall test, length test = Z.to_nat size -> is_Some (fits bucket size rest test).
Proof.
  intros Hsize. induction rest as [|n rest IH]; intros test Hlen; cbn [fits]; [by eexists|]. destruct (hk_null n); [by apply IH|].
  pose proof (bucket_lt size Hsize n) as Hi. destruct (lookup_lt_is_Some_2 test (bucket_of size n)) as [t Ht]; [by rewrite Hlen|].
  unfold test_add. rewrite Ht. cbn [mbind option_bind]. rewrite list_lookup_insert_eq by (rewrite Hlen; exact Hi). cbn [mbind option_bind].
  destruct (_ <? _); [by eexists|]. apply IH. by rewrite length_insert.
Qed.

Lemma fits_ok bucket size all : 0 < size -> 0 <= bucket < 2 ^ 15 -> Forall (fun n => NGX_HASH_ELT_SIZE n <= bucket) all ->
  forall rest names test, all = names ++ rest -> sizes_ok size names test ->
  (forall i, bytes_of (bucket_names size i names) <= bucket) -> fits bucket size rest test = Some true ->
  forall i, bytes_of (bucket_names size i all) <= bucket.
Proof.
  intros Hsize Hb Hall0. induction rest as [|n rest IH]; intros names test Hall [Hlen Ht] Hle Hf i; cbn [fits] in Hf.
  - rewrite app_nil_r in Hall. subst names. apply Hle.
  - assert (Hall' : all = (names ++ [n]) ++ rest) by (by rewrite <-app_assoc).
    assert (Hadd : forall j, bucket_names size j (names ++ [n]) = bucket_names size j names ++ bucket_names size j [n]) by (intros; apply bucket_names_app).
    destruct (hk_null n) eqn:Hn.
    + assert (Hnone : forall j, bucket_names size j [n] = []) by (intros j; rewrite bucket_names_one, Hn; done).
      apply (IH (names ++ [n]) test Hall'); [|intros j; rewrite Hadd, Hnone, app_nil_r; apply Hle|exact Hf].
      split; [exact Hlen|]. intros j t Hj. rewrite Hadd, Hnone, app_nil_r. by apply Ht.
    + pose proof (bucket_lt size Hsize n) as Hi. destruct (lookup_lt_is_Some_2 test (bucket_of size n)) as [t Htn]; [by rewrite Hlen|].
      unfold test_add in Hf. rewrite Htn in Hf. cbn [mbind option_bind] in Hf.
      rewrite list_lookup_insert_eq in Hf by (rewrite Hlen; exact Hi). cbn [mbind option_bind] in Hf.
      destruct (_ <? _) eqn:Ecmp; [done|]. apply Z.ltb_ge in Ecmp.
      assert (Hsz : NGX_HASH_ELT_SIZE n <= bucket).
      { rewrite Forall_forall in Hall0. apply Hall0. rewrite Hall. set_solver +. }
      destruct (elt_size_bounds n) as [Hs _]. pose proof (Hle (bucket_of size n)) as Hlen0. pose proof (bytes_of_nonneg (bucket_names size (bucket_of size n) names)).
      rewrite (Ht _ _ Htn) in *.
      assert (Hu : u16 (bytes_of (bucket_names size (bucket_of size n) names) + NGX_HASH_ELT_SIZE n) =
        bytes_of (bucket_names size (bucket_of size n) names) + NGX_HASH_ELT_SIZE n) by (unfold u16; apply Z.mod_small; lia).
      assert (Hub : u16 bucket = bucket) by (unfold u16; apply Z.mod_small; lia). rewrite Hu, Hub in Ecmp. rewrite Hu in Hf.
      assert (Hnew : forall j, bytes_of (bucket_names size j (names ++ [n])) =
        bytes_of (bucket_names size j names) + if (bucket_of size n =? j)%nat then NGX_HASH_ELT_SIZE n else 0).
      { intros j. rewrite Hadd, bytes_of_app, bucket_names_one, Hn. cbn [negb andb]. destruct (_ =? j)%nat; cbn [bytes_of foldr]; lia. }
      eapply (IH (names ++ [n]) _ Hall'); [|intros j; rewrite Hnew; destruct (Nat.eqb_spec (bucket_of size n) j) as [<-|]; [lia|specialize (Hle j); lia]|exact Hf].
      split; [by rewrite length_insert|]. intros j tj. rewrite Hnew. destruct (Nat.eqb_spec (bucket_of size n) j) as [<-|Hne].
      * rewrite list_lookup_insert_eq by (rewrite Hlen; exact Hi). by intros [= <-].
      * rewrite list_lookup_insert_ne by done. intros Hj. rewrite (Ht _ _ Hj). lia.
Qed.

Lemma search_total bucket names turns : forall size, 0 < size -> exists found, search_size turns bucket size names = Some found /\
  forall s, found = Some s -> size <= s < size + Z.of_nat turns /\ fits bucket s names (replicate (Z.to_nat s) 0) = Some true.
Proof.
  induction turns as [|turns IH]; intros size Hsize; cbn [search_size]; [by exists None|].
  destruct (fits_total bucket size names Hsize (replicate (Z.to_nat size) 0)) as [ok Hok]; [apply length_replicate|]. rewrite Hok. cbn [mbind option_bind].
  destruct ok; [exists (Some size); split; [done|]; intros s [= <-]; split; [lia|done]|].
  destruct (IH (size + 1) ltac:(lia)) as (found & E & Hs). exists found. split; [exact E|]. intros s Hfs. destruct (Hs s Hfs). split; [lia|done].
Qed.

Lemma chosen_ok max_size bucket names : 0 < max_size -> 16 <= bucket ->
  exists size, chosen_size max_size bucket names = Some size /\ 0 < size /\
    (fits bucket size names (replicate (Z.to_nat size) 0) = Some true \/ size = max_size).
Proof.
  intros Hm Hb. unfold chosen_size, start_size. pose proof (Z.div_le_mono 16 bucket 16 ltac:(lia) Hb) as Hper. change (16 / 16) with 1 in Hper.
  rewrite (proj2 (Z.eqb_neq (bucket / 16) 0)) by lia. cbn [mbind option_bind].
  set (start := if _ && _ then max_size - 1000 else _).
  assert (Hstart : 0 < start).
  { unfold start. pose proof (Z.div_pos (Z.of_nat (length names)) (bucket / 16) ltac:(lia) ltac:(lia)) as Hd.
    set (st := Z.of_nat (length names) / (bucket / 16)) in *.
    assert (0 < (if st =? 0 then 1 else st)) by (destruct (Z.eqb_spec st 0); lia).
    destruct (Z.ltb_spec 10000 max_size); cbn [andb]; [|done]. destruct (_ && _); [lia|done]. }
  destruct (search_total bucket names (Z.to_nat (max_size - start + 1)) start Hstart) as (found & -> & Hf). cbn [mbind option_bind].
  destruct found as [s|]; cbn [default]; eexists; (split; [done|]); [|by auto].
  unfold id. destruct (Hf s eq_refl). split; [lia|by left].
Qed.

(** ** Names and their hashes *)

(** [key_hash] is the hash of the name in lower case. *)
Definition hashed (n : hash_key) : Prop := hk_hash n = ngx_hash_key_lc (hk_key n).

(** The names that are not left out. *)
Definition present (names : list hash_key) : list hash_key := List.filter (fun n => negb (hk_null n)) names.

Lemma hash_lower l : ngx_hash_key_lc l = ngx_hash_key (ngx_strlow l).
Proof.
  unfold ngx_hash_key_lc, ngx_hash_key, ngx_strlow. generalize 0. induction l as [|c l IH]; intros z; [done|]. cbn [map fold_left]. apply IH.
Qed.

Lemma listed_present size name names :
  Forall hashed names -> listed size (ngx_hash_key name) name names = first_value name (present names).
Proof.
  intros H. unfold listed, first_value, bucket_names, present. induction H as [|n names Hn _ IH]; [done|]. cbn [List.filter].
  unfold in_bucket at 1. destruct (hk_null n); cbn [negb andb]; [exact IH|]. cbn [find].
  destruct (is_name name n) eqn:E.
  - assert (Hb : (bucket_of size n =? Z.to_nat (ngx_hash_key name mod size))%nat = true).
    { apply Nat.eqb_eq. unfold bucket_of. rewrite Hn, hash_lower. apply bytes_eqb_eq in E. by rewrite E. }
    rewrite Hb. cbn [find]. by rewrite E.
  - destruct (_ =? _)%nat; cbn [find]; [by rewrite E|exact IH].
Qed.

(** ** The layout that is made *)

Definition buckets_fit (size room : Z) (names : list hash_key) : Prop :=
  forall i, 8 + bytes_of (bucket_names size i names) + room <= 2 ^ 16.

Lemma bytes_zero ns : bytes_of ns = 0 -> ns = [].
Proof. destruct ns as [|n ns]; [done|]. cbn [bytes_of foldr]. destruct (elt_size_bounds n). pose proof (bytes_of_nonneg ns). unfold bytes_of in *. lia. Qed.

Lemma bytes_some ns : ns <> [] -> 16 <= bytes_of ns.
Proof. destruct ns as [|n ns]; [done|]. intros _. cbn [bytes_of foldr]. destruct (elt_size_bounds n). pose proof (bytes_of_nonneg ns). unfold bytes_of in *. lia. Qed.

Lemma total_mult u ts : (forall c, c ∈ ts -> c = 8 \/ exists k, c = u * k) -> exists k, total_size ts = u * k.
Proof.
  unfold total_size. induction ts as [|t ts IH]; intros H; cbn [foldr]; [exists 0; lia|].
  destruct IH as [k ->]; [intros c Hc; apply H; by apply elem_of_cons; right|].
  destruct (H t ltac:(by apply elem_of_cons; left)) as [-> |[k' ->]]; [by exists k|]. destruct (_ =? 8); [by exists k|exists (k' + k); lia].
Qed.

Lemma place_layout size cl elts names test (cs := map (round_size (2 ^ cl)) test) :
  0 < size -> 3 <= cl -> 0 < elts -> (exists k, elts = 2 ^ cl * k) -> buckets_fit size (2 ^ cl) names ->
  length test = Z.to_nat size -> (forall i t, test !! i = Some t -> t = 8 + bytes_of (bucket_names size i names)) ->
  forall lo hi, lo <= elts -> elts + total_size cs <= hi -> layout size lo hi (place_buckets elts cs) cs names.
Proof.
  intros Hsize Hcl He [ke Hke] Hfit Hlen Ht lo hi Hlo Hhi.
  assert (Hcap : forall i c, cs !! i = Some c ->
    (c = 8 /\ bucket_names size i names = []) \/
    (bucket_names size i names <> [] /\ 8 + bytes_of (bucket_names size i names) <= c < 2 ^ 16 /\ exists k, c = 2 ^ cl * k)).
  { intros i c Hc. unfold cs in Hc. rewrite list_lookup_fmap in Hc. apply fmap_Some in Hc as (t & Hti & ->). rewrite (Ht i t Hti).
    destruct (decide (bucket_names size i names = [])) as [E|E]; [left; by rewrite E|right]. split; [done|].
    pose proof (bytes_some _ E). destruct (round_bounds cl (8 + bytes_of (bucket_names size i names)) ltac:(lia) (Hfit i) ltac:(lia)) as [Hrb Hreq].
    split; [lia|]. rewrite Hreq. by eexists. }
  assert (Hpos : Forall (fun t => 0 < t) cs).
  { apply Forall_lookup. intros i c Hc. destruct (Hcap i c Hc) as [[-> _]|(E & ? & _)]; [lia|]. pose proof (bytes_some _ E). lia. }
  constructor.
  - rewrite length_place. unfold cs. by rewrite length_map.
  - unfold cs. by rewrite length_map.
  - intros i b c Hb Hc Hb0. pose proof (place_lookup _ _ _ _ _ Hb Hc) as Eb. pose proof (total_take cs i c Hc) as Htk.
    pose proof (total_mono cs 0 i Hpos ltac:(lia)) as H0. change (total_size (take 0 cs)) with 0 in H0.
    pose proof (total_mono cs (S i) (length cs) Hpos) as Hall. rewrite (take_ge cs (length cs)) in Hall by done.
    assert (Hi : (i < length cs)%nat) by (by eapply lookup_lt_Some). specialize (Hall ltac:(lia)).
    destruct (c =? 8); [done|]. split; [lia|]. split; [lia|].
    destruct (total_mult (2 ^ cl) (take i cs)) as [k Hk].
    { intros x Hx. assert (Hx' : x ∈ cs) by (eapply elem_of_sublist; [exact Hx|apply sublist_take]).
      apply list_elem_of_lookup_1 in Hx' as [j Hj]. destruct (Hcap j x Hj) as [[? _]|(_ & _ & ?)]; auto. }
    exists (2 ^ (cl - 3) * (ke + k)). rewrite Eb, Hke, Hk. replace (2 ^ cl) with (8 * 2 ^ (cl - 3)); [lia|].
    change 8 with (2 ^ 3). rewrite <-Z.pow_add_r by lia. f_equal. lia.
  - intros i j b c b' c' Hb Hc Hb' Hc' Hb0 Hb0' Hij. destruct (Nat.lt_total i j) as [Hlt|[Heq|Hlt]]; [left| |right].
    + exact (place_apart elts cs i j b c b' c' He Hpos Hb Hc Hb' Hc' Hb0 Hb0' Hlt).
    + done.
    + exact (place_apart elts cs j i b' c' b c He Hpos Hb' Hc' Hb Hc Hb0' Hb0 Hlt).
  - intros i b c Hb Hc Hne. destruct (Hcap i c Hc) as [[_ ?]|(_ & Hc1 & _)]; [done|]. pose proof (bytes_some _ Hne). split; [|lia].
    rewrite (place_lookup _ _ _ _ _ Hb Hc), (proj2 (Z.eqb_neq c 8)) by lia. pose proof (total_mono cs 0 i Hpos ltac:(lia)) as H0.
    change (total_size (take 0 cs)) with 0 in H0. lia.
  - intros i b c Hb Hc Hb0. destruct (Hcap i c Hc) as [[-> _]|(? & _)]; [|done]. by rewrite (place_lookup _ _ _ _ _ Hb Hc) in Hb0.
Qed.

(** *** The whole *)

Lemma table_init_ok max_size bucket_size cl elts names size :
  0 < max_size -> 24 <= bucket_size < 2 ^ 64 -> 3 <= cl -> 0 < elts -> Forall good_name names ->
  Forall (fun n => NGX_HASH_ELT_SIZE n + 8 <= bucket_size) names ->
  chosen_size max_size (bucket_size - 8) names = Some size -> 0 < size -> buckets_fit size (2 ^ cl) names ->
  exists h, ngx_hash_init max_size bucket_size (2 ^ cl) elts names = Some (Some h) /\ hs_size h = size /\ good_table names h.
Proof.
  intros Hm Hb Hcl He Hg Hsz Hch Hsize Hfit. unfold ngx_hash_init. rewrite (proj2 (Z.eqb_neq max_size 0)) by lia.
  replace (existsb _ names) with false.
  2: { symmetry. apply not_true_is_false. intros (n & Hn & Hlt)%existsb_exists. rewrite Forall_forall in Hsz.
       apply list_elem_of_In in Hn. specialize (Hsz n Hn). lia. }
  assert (Hu : u64 (bucket_size - 8) = bucket_size - 8) by (unfold u64; apply Z.mod_small; lia). rewrite Hu, Hch. cbn [mbind option_bind].
  assert (Hcl0 : 0 < 2 ^ cl) by lia.
  destruct (count_ok size names Hsize) with (rest := names) (names := @nil hash_key) (test := replicate (Z.to_nat size) 8)
    as (test & -> & Hlen & Ht); [intros i; specialize (Hfit i); lia|done|apply length_replicate| |].
  { intros i t Ht. apply replicate_test in Ht. done. }
  cbn [mbind option_bind]. set (cs := map _ test). pose proof (align_bounds elts cl ltac:(lia)) as Hal.
  assert (L : layout size elts (elts + total_size cs + 2 ^ cl) (place_buckets (ngx_align elts (2 ^ cl)) cs) cs names).
  { apply place_layout; try done; try lia; fold cs; [|lia]. rewrite align_mult by lia. by eexists. }
  destruct (table_ok size _ _ _ cs names Hsize L Hg) as (m & E & H).
  destruct (fill size _ names _ _) as [[test' m']|]; [|done]. cbn [mbind option_bind] in E |- *. rewrite E. cbn [mbind option_bind].
  eexists. split; [done|]. done.
Qed.

(** C12: a table of names: with a size for the buckets that holds every name, and no
    bucket above 64K (which the search for a good size sees to, for buckets of up to
    32K), [ngx_hash_init] builds a table without a write outside its memory, and
    [ngx_hash_find] of the hash of any name gives the value of the first name of the
    list that is equal to it in lower case, and [NULL] when there is none. *)
Theorem hash_init_find max_size bucket_size cl elts names :
  0 < max_size -> 24 <= bucket_size < 2 ^ 64 -> 3 <= cl <= 14 -> 0 < elts ->
  Forall (fun n => hk_value n <> 0 /\ hashed n /\ NGX_HASH_ELT_SIZE n + 8 <= bucket_size) names ->
  exists size, chosen_size max_size (bucket_size - 8) names = Some size /\
    (buckets_fit size (2 ^ cl) names \/ bucket_size <= 2 ^ 15 /\ fits (bucket_size - 8) size names (replicate (Z.to_nat size) 0) = Some true ->
     exists h, ngx_hash_init max_size bucket_size (2 ^ cl) elts names = Some (Some h) /\
       forall name, ngx_hash_find h (ngx_hash_key name) name = Some (first_value name (present names))).
Proof.
  intros Hm Hb Hcl He Hn. destruct (chosen_ok max_size (bucket_size - 8) names Hm ltac:(lia)) as (size & Hch & Hsize & _).
  exists size. split; [exact Hch|]. intros Hfit0. apply Forall_and in Hn as [Hg [Hh Hsz]%Forall_and].
  assert (Hfit : buckets_fit size (2 ^ cl) names).
  { destruct Hfit0 as [?|[Hb15 Hf]]; [done|]. intros i. pose proof (Z.pow_le_mono_r 2 cl 14 ltac:(lia) ltac:(lia)) as Hp.
    pose proof (fits_ok (bucket_size - 8) size names Hsize ltac:(lia) ltac:(eapply Forall_impl; [exact Hsz|cbv beta; lia]) names [] (replicate (Z.to_nat size) 0) eq_refl) as Hle.
    specialize (Hle ltac:(split; [apply length_replicate|intros j t Ht; by apply replicate_test in Ht])).
    specialize (Hle ltac:(intros j; cbn; lia) Hf i). lia. }
  destruct (table_init_ok max_size bucket_size cl elts names size) as (h & E & _ & H); try done; [lia|]. exists h. split; [exact E|].
  intros name. rewrite (gt_find _ _ H). f_equal. by apply listed_present.
Qed.

Lemma hash_init_find_witness : exists h, ngx_hash_init 512 64 64 100010 sample_names = Some (Some h) /\
  ngx_hash_find h (ngx_hash_key (bytes "user-agent")) (bytes "user-agent") = Some 13.
Proof.
  destruct (hash_init_find 512 64 6 100010 sample_names) as (size & E & H); [lia|lia|lia|lia| |].
  { unfold sample_names. repeat (apply Forall_cons; split; [split; [discriminate|split; [reflexivity|vm_compute; discriminate]]|]). constructor. }
  destruct H as (h & Eh & Hf).
  { right. split; [lia|]. vm_compute in E. injection E as <-. vm_compute. reflexivity. }
  exists h. split; [exact Eh|]. rewrite (Hf (bytes "user-agent")). vm_compute. reflexivity.
Defined.
