(* ===== verification/HashWild.v ===== *)
(** * Hash tables of wildcards

    src/core/ngx_hash.c: the tables of names with "*." in front or ".*" behind, a
    tree of hash tables by labels; the lists of names they are made of, with the
    search for conflicts.

    A value is an address whose two low bits are tags; the nested tables live in a
    heap, at the addresses that the pool returns, which are part of the state. *)

From stdpp Require Import gmap.
From S2P Require Import Prelude HeaderLine Strings Hash.

(** [ngx_hash_wildcard_t] *)
Record wildcard : Type := mk_wildcard { wc_hash : hash; wc_value : Z }.

Definition wildcards := gmap Z wildcard.

(** [(uintptr_t) value & (uintptr_t) ~3] *)
Definition untag (v : Z) : Z := Z.land v (Z.lnot 3).
Definition tag1 (v : Z) : bool := negb (Z.land v 1 =? 0).
Definition tag2 (v : Z) : bool := negb (Z.land v 2 =? 0).

(** ** Search *)

(** [while (n) { if (name[n - 1] == '.') break; n--; }] *)
Fixpoint last_dot (name : list Z) (n : nat) : nat :=
  match n with
  | O => O
  | S n' => if nth n' name 0 =? #"." then n else last_dot name n'
  end.

Fixpoint ngx_hash_find_wc_head (fuel : nat) (heap : wildcards) (hwc : wildcard) (name : list Z) : option Z :=
  match fuel with
  | O => None
  | S fuel' =>
      let n := last_dot name (length name) in
      let key := fold_left ngx_hash (drop n name) 0 in
      value ← ngx_hash_find (wc_hash hwc) key (drop n name);
      if negb (value =? 0) then
        if tag2 value then
          if (n =? 0)%nat then
            if tag1 value then Some 0
            else hwc ← heap !! untag value; Some (wc_value hwc)
          else
            hwc ← heap !! untag value;
            value ← ngx_hash_find_wc_head fuel' heap hwc (take (n - 1) name);
            if negb (value =? 0) then Some value else Some (wc_value hwc)
        else if tag1 value then
          if (n =? 0)%nat then Some 0 else Some (untag value)
        else Some value
      else Some (wc_value hwc)
  end.

(** The first label. *)
Fixpoint first_dot (name : list Z) : nat :=
  match name with [] => O | c :: name' => if c =? #"." then O else S (first_dot name') end.

Fixpoint ngx_hash_find_wc_tail (fuel : nat) (heap : wildcards) (hwc : wildcard) (name : list Z) : option Z :=
  match fuel with
  | O => None
  | S fuel' =>
      let i := first_dot name in
      let key := fold_left ngx_hash (take i name) 0 in
      if (i =? length name)%nat then Some 0
      else
        value ← ngx_hash_find (wc_hash hwc) key (take i name);
        if negb (value =? 0) then
          if tag2 value then
            hwc ← heap !! untag value;
            value ← ngx_hash_find_wc_tail fuel' heap hwc (drop (i + 1) name);
            if negb (value =? 0) then Some value else Some (wc_value hwc)
          else Some value
        else Some (wc_value hwc)
  end.

(** [ngx_hash_combined_t]: tables that are not there are [None]. *)
Record combined : Type := mk_combined { cb_hash : option hash; cb_head : option wildcard; cb_tail : option wildcard }.

Definition ngx_hash_find_combined (heap : wildcards) (h : combined) (key : Z) (name : list Z) : option Z :=
  value ← (if cb_hash h is Some t then ngx_hash_find t key name else Some 0);
  if negb (value =? 0) then Some value
  else if (length name =? 0)%nat then Some 0
  else
    value ← (if cb_head h is Some w then ngx_hash_find_wc_head (S (length name)) heap w name else Some 0);
    if negb (value =? 0) then Some value
    else
      value ← (if cb_tail h is Some w then ngx_hash_find_wc_tail (S (length name)) heap w name else Some 0);
      if negb (value =? 0) then Some value else Some 0.

(** ** Construction *)

(** The heap of tables, and the addresses that [ngx_pcalloc] and [ngx_palloc] will
    return; when there are none left they return [NULL]. *)
Record wc_state : Type := mk_wc_state { ws_heap : wildcards; ws_pool : list Z }.

(** [ngx_hash_init] with [hinit->hash == NULL]: the address of the new table. *)
Definition new_table (max_size bucket_size cacheline : Z) (names : list hash_key) (st : wc_state) : option (option (Z * wc_state)) :=
  match ws_pool st with
  | hash_addr :: elts :: pool =>
      h ← ngx_hash_init max_size bucket_size cacheline elts names;
      Some (match h with
            | Some h => Some (hash_addr, mk_wc_state (<[hash_addr := mk_wildcard h 0]> (ws_heap st)) pool)
            | None => None
            end)
  | _ => Some None
  end.

(** The names after the first one that go on with its first label. *)
Fixpoint take_group (first : list Z) (len : nat) (dot : bool) (rest : list (list Z * Z)) :
    option (list (list Z * Z) * list (list Z * Z)) :=
  match rest with
  | [] => Some ([], [])
  | (key, value) :: rest' =>
      c ← ngx_strncmp (first ++ [0]) (key ++ [0]) len;
      if negb (c =? 0) then Some ([], rest)
      else if negb dot && (len <? length key)%nat && negb (nth len key 0 =? #".") then Some ([], rest)
      else
        let dot_len := if dot then len else S len in
        if (length key <? dot_len)%nat then None
        else
          '(group, others) ← take_group first len dot rest';
          Some ((drop dot_len key, value) :: group, others)
  end.

Section Init.
Context (hinit_key : list Z -> Z) (max_size bucket_size cacheline : Z).

(** [names] has the keys and their values; [None] in the result is [NGX_ERROR]. *)
Fixpoint ngx_hash_wildcard_init (fuel : nat) (names : list (list Z * Z)) (st : wc_state) : option (option (Z * wc_state)) :=
  match fuel with
  | O => None
  | S fuel' =>
      let fix loop (turns : nat) (names : list (list Z * Z)) (curr : list hash_key) (st : wc_state) :=
        match turns with
        | O => None
        | S turns' =>
            match names with
            | [] => new_table max_size bucket_size cacheline (rev curr) st
            | (first, value) :: rest =>
                let len := first_dot first in
                let dot := (len <? length first)%nat in
                let label := take len first in
                let len := if dot then S len else len in
                '(group, others) ← take_group first len dot rest;
                let next_names := (if negb (length first =? len)%nat then [(drop len first, value)] else []) ++ group in
                match next_names with
                | [] =>
                    let v := if dot then Z.lor value 1 else value in
                    loop turns' others (mk_hash_key label false (hinit_key label) v :: curr) st
                | _ =>
                    sub ← ngx_hash_wildcard_init fuel' next_names st;
                    match sub with
                    | None => Some None
                    | Some (addr, st) =>
                        wdc ← ws_heap st !! addr;
                        let wdc := if (length first =? len)%nat then mk_wildcard (wc_hash wdc) value else wdc in
                        let st := mk_wc_state (<[addr := wdc]> (ws_heap st)) (ws_pool st) in
                        let v := Z.lor addr (if dot then 3 else 2) in
                        loop turns' others (mk_hash_key label false (hinit_key label) v :: curr) st
                    end
                end
            end
        end in
      loop (S (length names)) names [] st
  end.

End Init.

(** ** The lists of names *)

Definition NGX_HASH_WILDCARD_KEY : Z := 1.
Definition NGX_HASH_READONLY_KEY : Z := 2.

(** [ngx_hash_keys_arrays_t] *)
Record keys_arrays : Type := mk_keys_arrays {
  ha_hsize : Z;
  ha_keys : list hash_key; ha_keys_hash : list (list (list Z));
  ha_head : list hash_key; ha_head_hash : list (list (list Z));
  ha_tail : list hash_key; ha_tail_hash : list (list (list Z))
}.

Definition ngx_hash_keys_array_init (small : bool) : keys_arrays :=
  let hsize := if small then 107 else 10007 in
  let empty := replicate (Z.to_nat hsize) [] in
  mk_keys_arrays hsize [] empty [] empty [] empty.

(** [i] looks for what is not supported. The data of a key are followed by a byte. *)
Fixpoint check_wildcard (n : nat) (data : list Z) : bool :=
  match data with
  | [] => true
  | c :: data' =>
      let n := if c =? #"*" then S n else n in
      if (1 <? n)%nat then false
      else if (c =? #".") && (match data' with c' :: _ => c' =? #"." | [] => false end) then false
      else if c =? 0 then false
      else check_wildcard n data'
  end.

(** How a key is to be read: [skip], or exactly. *)
Inductive key_kind : Type := Exact | Wild (skip : nat).

Definition kind_of (data : list Z) : option key_kind :=
  if negb (check_wildcard 0 data) then None
  else
    let len := length data in
    if (1 <? len)%nat && (nth 0 data 0 =? #".") then Some (Wild 1)
    else if (2 <? len)%nat && ((nth 0 data 0 =? #"*") && (nth 1 data 0 =? #".")) then Some (Wild 2)
    else if (2 <? len)%nat && ((nth (len - 2) data 0 =? #".") && (nth (len - 1) data 0 =? #"*")) then Some (Wild 0)
    else if existsb (fun c => c =? #"*") data then None
    else Some Exact.

(** The loop over the names of a list that have the same length. *)
Definition conflict (data : list Z) (names : list (list Z)) : option bool :=
  foldr (fun name r => r ← r;
    if (r : bool) then Some true
    else if negb (length data =? length name)%nat then Some false
    else c ← ngx_strncmp (data ++ [0]) (name ++ [0]) (length data); Some (c =? 0)) (Some false) names.

(** "*.example.com" is "com.example.", ".example.com" is "com.example": [i] goes from
    the last byte down to the second one; [word] is what follows it. *)
Fixpoint reverse_labels (rev_data word : list Z) : list Z :=
  match rev_data with
  | [] => []
  | [_] => word
  | c :: rev_data' =>
      if c =? #"." then word ++ [ #"." ] ++ reverse_labels rev_data' [] else reverse_labels rev_data' (c :: word)
  end.

(** One list of names under a hash. *)
Definition push_name (k : nat) (name : list Z) (lists : list (list (list Z))) : list (list (list Z)) :=
  alter (fun l => l ++ [name]) k lists.

(** The answer, the lists, and the data of the key, which are changed to lower case. *)
Definition ngx_hash_add_key (flags value : Z) (data : list Z) (ha : keys_arrays) : option (Z * keys_arrays * list Z) :=
  let kind := if negb (Z.land flags NGX_HASH_WILDCARD_KEY =? 0) then kind_of data else Some Exact in
  match kind with
  | None => Some (NGX_DECLINED, ha, data)
  | Some Exact =>
      let data := if Z.land flags NGX_HASH_READONLY_KEY =? 0 then ngx_strlow data else data in
      let k := Z.to_nat (ngx_hash_key data mod ha_hsize ha) in
      names ← ha_keys_hash ha !! k;
      busy ← conflict data names;
      if busy : bool then Some (NGX_BUSY, ha, data)
      else Some (NGX_OK, mk_keys_arrays (ha_hsize ha)
                   (ha_keys ha ++ [mk_hash_key data false (ngx_hash_key data) value]) (push_name k data (ha_keys_hash ha))
                   (ha_head ha) (ha_head_hash ha) (ha_tail ha) (ha_tail_hash ha), data)
  | Some (Wild skip) =>
      let last := if (skip =? 0)%nat then (length data - 2)%nat else length data in
      let data := take skip data ++ ngx_strlow (take (last - skip) (drop skip data)) ++ drop last data in
      let k := Z.to_nat (ngx_hash_key (take (last - skip) (drop skip data)) mod ha_hsize ha) in
      names ← ha_keys_hash ha !! k;
      busy ← (if (skip =? 1)%nat then conflict (drop 1 data) names else Some false);
      if busy : bool then Some (NGX_BUSY, ha, data)
      else
        let keys_hash := if (skip =? 1)%nat then push_name k (drop 1 data) (ha_keys_hash ha) else ha_keys_hash ha in
        if negb (skip =? 0)%nat then
          let p := reverse_labels (rev data) [] in
          let name := drop skip data in
          names ← ha_head_hash ha !! k;
          busy ← conflict name names;
          if busy : bool then
            Some (NGX_BUSY, mk_keys_arrays (ha_hsize ha) (ha_keys ha) keys_hash (ha_head ha) (ha_head_hash ha) (ha_tail ha) (ha_tail_hash ha), data)
          else
            Some (NGX_OK, mk_keys_arrays (ha_hsize ha) (ha_keys ha) keys_hash
                    (ha_head ha ++ [mk_hash_key (take (last - 1) p) false 0 value]) (push_name k name (ha_head_hash ha))
                    (ha_tail ha) (ha_tail_hash ha), data)
        else
          let last := S last in
          p ← ngx_cpystrn data last;
          let name := take last data in
          names ← ha_tail_hash ha !! k;
          busy ← conflict name names;
          if busy : bool then
            Some (NGX_BUSY, mk_keys_arrays (ha_hsize ha) (ha_keys ha) keys_hash (ha_head ha) (ha_head_hash ha) (ha_tail ha) (ha_tail_hash ha), data)
          else
            Some (NGX_OK, mk_keys_arrays (ha_hsize ha) (ha_keys ha) keys_hash (ha_head ha) (ha_head_hash ha)
                    (ha_tail ha ++ [mk_hash_key (take (last - 1) p) false 0 value]) (push_name k name (ha_tail_hash ha)), data)
  end.

(** ** Examples *)

Definition add_all (names : list (string * Z)) : option (list Z * keys_arrays) :=
  foldl (fun r n => '(rs, ha) ← r; '(rc, ha, _) ← ngx_hash_add_key NGX_HASH_WILDCARD_KEY (snd n) (bytes (fst n)) ha; Some (rs ++ [rc], ha))
    (Some ([], ngx_hash_keys_array_init true)) names.

(** The keys of the list in the order of [ngx_http_cmp_dns_wildcards]. *)
Definition pairs (ks : list hash_key) : list (list Z * Z) := map (fun k => (hk_key k, hk_value k)) ks.

Definition server_names : list (string * Z) :=
  [("*.example.com", 16); ("*.sub.example.com", 24); (".Example.org", 20); ("www.example.*", 28); ("www.example.com", 32)]%string.

Definition server_tables : option (combined * wildcards) :=
  '(_, ha) ← add_all server_names;
  exact ← ngx_hash_init 512 64 64 1000000 (ha_keys ha);
  head ← ngx_hash_wildcard_init ngx_hash_key_lc 512 64 64 20 (pairs (ha_head ha)) (mk_wc_state ∅ [2000000; 2100000; 2200000; 2300000; 2400000; 2500000; 2600000; 2700000; 2800000; 2900000; 3000000; 3100000; 3200000; 3300000; 3400000; 3500000; 3600000; 3700000]);
  '(head, st) ← head;
  tail ← ngx_hash_wildcard_init ngx_hash_key_lc 512 64 64 20 (pairs (ha_tail ha)) st;
  '(tail, st) ← tail;
  h ← exact;
  Some (mk_combined (Some h) (ws_heap st !! head) (ws_heap st !! tail), ws_heap st).

Definition server_of (name : string) : option Z :=
  '(c, heap) ← server_tables; ngx_hash_find_combined heap c (ngx_hash_key (bytes name)) (bytes name).

(** The documented order: the exact name, the longest name that starts with "*", the
    longest one that ends with it. *)
Example combined_sample :
  map server_of ["www.example.com"; "a.example.com"; "a.b.example.com"; "x.sub.example.com"; "sub.example.com"; "example.com";
                 "example.org"; "a.example.org"; "www.example.net"; "www.example"; "org"]%string =
  map Some [32; 16; 16; 24; 16; 0; 20; 20; 28; 0; 0].
Proof. vm_compute. reflexivity. Qed.

Example add_key_sample :
  option_map fst (add_all [("www.*.com", 4); ("a..b", 4); (".example.com", 4); ("*.example.com", 8); ("example.com", 8); ("*.*", 4); ("www.example.*", 4); ("WWW.example.*", 4)]%string) =
  Some [NGX_DECLINED; NGX_DECLINED; NGX_OK; NGX_BUSY; NGX_BUSY; NGX_DECLINED; NGX_OK; NGX_BUSY].
Proof. vm_compute. reflexivity. Qed.
