(* ===== verification/Crc32.v ===== *)
(** * CRC32

    src/core/ngx_crc32.c and ngx_crc32.h: the checksum by bytes with a table of 256
    words, and by halves of bytes with a table of 16, for short strings (the keys of
    the zones).  Both are the checksum by single bits. *)

From S2P Require Import Prelude.

Definition ngx_crc32_table16 : list Z :=
  [0x00000000; 0x1db71064; 0x3b6e20c8; 0x26d930ac; 0x76dc4190; 0x6b6b51f4; 0x4db26158; 0x5005713c;
   0xedb88320; 0xf00f9344; 0xd6d6a3e8; 0xcb61b38c; 0x9b64c2b0; 0x86d3d2d4; 0xa00ae278; 0xbdbdf21c].

Definition ngx_crc32_table256 : list Z :=
  [0x00000000; 0x77073096; 0xee0e612c; 0x990951ba; 0x076dc419; 0x706af48f; 0xe963a535; 0x9e6495a3;
   0x0edb8832; 0x79dcb8a4; 0xe0d5e91e; 0x97d2d988; 0x09b64c2b; 0x7eb17cbd; 0xe7b82d07; 0x90bf1d91;
   0x1db71064; 0x6ab020f2; 0xf3b97148; 0x84be41de; 0x1adad47d; 0x6ddde4eb; 0xf4d4b551; 0x83d385c7;
   0x136c9856; 0x646ba8c0; 0xfd62f97a; 0x8a65c9ec; 0x14015c4f; 0x63066cd9; 0xfa0f3d63; 0x8d080df5;
   0x3b6e20c8; 0x4c69105e; 0xd56041e4; 0xa2677172; 0x3c03e4d1; 0x4b04d447; 0xd20d85fd; 0xa50ab56b;
   0x35b5a8fa; 0x42b2986c; 0xdbbbc9d6; 0xacbcf940; 0x32d86ce3; 0x45df5c75; 0xdcd60dcf; 0xabd13d59;
   0x26d930ac; 0x51de003a; 0xc8d75180; 0xbfd06116; 0x21b4f4b5; 0x56b3c423; 0xcfba9599; 0xb8bda50f;
   0x2802b89e; 0x5f058808; 0xc60cd9b2; 0xb10be924; 0x2f6f7c87; 0x58684c11; 0xc1611dab; 0xb6662d3d;
   0x76dc4190; 0x01db7106; 0x98d220bc; 0xefd5102a; 0x71b18589; 0x06b6b51f; 0x9fbfe4a5; 0xe8b8d433;
   0x7807c9a2; 0x0f00f934; 0x9609a88e; 0xe10e9818; 0x7f6a0dbb; 0x086d3d2d; 0x91646c97; 0xe6635c01;
   0x6b6b51f4; 0x1c6c6162; 0x856530d8; 0xf262004e; 0x6c0695ed; 0x1b01a57b; 0x8208f4c1; 0xf50fc457;
   0x65b0d9c6; 0x12b7e950; 0x8bbeb8ea; 0xfcb9887c; 0x62dd1ddf; 0x15da2d49; 0x8cd37cf3; 0xfbd44c65;
   0x4db26158; 0x3ab551ce; 0xa3bc0074; 0xd4bb30e2; 0x4adfa541; 0x3dd895d7; 0xa4d1c46d; 0xd3d6f4fb;
   0x4369e96a; 0x346ed9fc; 0xad678846; 0xda60b8d0; 0x44042d73; 0x33031de5; 0xaa0a4c5f; 0xdd0d7cc9;
   0x5005713c; 0x270241aa; 0xbe0b1010; 0xc90c2086; 0x5768b525; 0x206f85b3; 0xb966d409; 0xce61e49f;
   0x5edef90e; 0x29d9c998; 0xb0d09822; 0xc7d7a8b4; 0x59b33d17; 0x2eb40d81; 0xb7bd5c3b; 0xc0ba6cad;
   0xedb88320; 0x9abfb3b6; 0x03b6e20c; 0x74b1d29a; 0xead54739; 0x9dd277af; 0x04db2615; 0x73dc1683;
   0xe3630b12; 0x94643b84; 0x0d6d6a3e; 0x7a6a5aa8; 0xe40ecf0b; 0x9309ff9d; 0x0a00ae27; 0x7d079eb1;
   0xf00f9344; 0x8708a3d2; 0x1e01f268; 0x6906c2fe; 0xf762575d; 0x806567cb; 0x196c3671; 0x6e6b06e7;
   0xfed41b76; 0x89d32be0; 0x10da7a5a; 0x67dd4acc; 0xf9b9df6f; 0x8ebeeff9; 0x17b7be43; 0x60b08ed5;
   0xd6d6a3e8; 0xa1d1937e; 0x38d8c2c4; 0x4fdff252; 0xd1bb67f1; 0xa6bc5767; 0x3fb506dd; 0x48b2364b;
   0xd80d2bda; 0xaf0a1b4c; 0x36034af6; 0x41047a60; 0xdf60efc3; 0xa867df55; 0x316e8eef; 0x4669be79;
   0xcb61b38c; 0xbc66831a; 0x256fd2a0; 0x5268e236; 0xcc0c7795; 0xbb0b4703; 0x220216b9; 0x5505262f;
   0xc5ba3bbe; 0xb2bd0b28; 0x2bb45a92; 0x5cb36a04; 0xc2d7ffa7; 0xb5d0cf31; 0x2cd99e8b; 0x5bdeae1d;
   0x9b64c2b0; 0xec63f226; 0x756aa39c; 0x026d930a; 0x9c0906a9; 0xeb0e363f; 0x72076785; 0x05005713;
   0x95bf4a82; 0xe2b87a14; 0x7bb12bae; 0x0cb61b38; 0x92d28e9b; 0xe5d5be0d; 0x7cdcefb7; 0x0bdbdf21;
   0x86d3d2d4; 0xf1d4e242; 0x68ddb3f8; 0x1fda836e; 0x81be16cd; 0xf6b9265b; 0x6fb077e1; 0x18b74777;
   0x88085ae6; 0xff0f6a70; 0x66063bca; 0x11010b5c; 0x8f659eff; 0xf862ae69; 0x616bffd3; 0x166ccf45;
   0xa00ae278; 0xd70dd2ee; 0x4e048354; 0x3903b3c2; 0xa7672661; 0xd06016f7; 0x4969474d; 0x3e6e77db;
   0xaed16a4a; 0xd9d65adc; 0x40df0b66; 0x37d83bf0; 0xa9bcae53; 0xdebb9ec5; 0x47b2cf7f; 0x30b5ffe9;
   0xbdbdf21c; 0xcabac28a; 0x53b39330; 0x24b4a3a6; 0xbad03605; 0xcdd70693; 0x54de5729; 0x23d967bf;
   0xb3667a2e; 0xc4614ab8; 0x5d681b02; 0x2a6f2b94; 0xb40bbe37; 0xc30c8ea1; 0x5a05df1b; 0x2d02ef8d].

(** [ngx_crc32_table_init] moves the short table to a cache line: its words are the
    same. *)
Definition ngx_crc32_table_short : list Z := ngx_crc32_table16.

(** [crc = ngx_crc32_table_short[(crc ^ d) & 0xf] ^ (crc >> 4)] *)
Definition short_half (crc d : Z) : Z :=
  Z.lxor (nth (Z.to_nat (Z.land (Z.lxor crc d) 0xf)) ngx_crc32_table_short 0) (Z.shiftr crc 4).

Definition short_step (crc c : Z) : Z := short_half (short_half crc (Z.land c 0xf)) (Z.shiftr c 4).

Definition ngx_crc32_short (p : list Z) : Z := Z.lxor (fold_left short_step p 0xffffffff) 0xffffffff.

Definition long_step (crc c : Z) : Z :=
  Z.lxor (nth (Z.to_nat (Z.land (Z.lxor crc c) 0xff)) ngx_crc32_table256 0) (Z.shiftr crc 8).

Definition ngx_crc32_long (p : list Z) : Z := Z.lxor (fold_left long_step p 0xffffffff) 0xffffffff.

(** The checksum of a string in pieces. *)
Definition ngx_crc32_init : Z := 0xffffffff.
Definition ngx_crc32_update (crc : Z) (p : list Z) : Z := fold_left long_step p crc.
Definition ngx_crc32_final (crc : Z) : Z := Z.lxor crc 0xffffffff.

(** ** The checksum by bits *)

(** Division by the polynomial, one bit, the lowest first. *)
Definition crc_bit (x : Z) : Z := Z.lxor (Z.shiftr x 1) (if Z.odd x then 0xedb88320 else 0).

Definition crc_bits (n : nat) (x : Z) : Z := Nat.iter n crc_bit x.

Definition crc32 (p : list Z) : Z := Z.lxor (fold_left (fun crc c => crc_bits 8 (Z.lxor crc c)) p 0xffffffff) 0xffffffff.

Lemma crc_bit_lxor x y : crc_bit (Z.lxor x y) = Z.lxor (crc_bit x) (crc_bit y).
Proof.
  unfold crc_bit. rewrite Z.shiftr_lxor.
  assert (Ho : Z.odd (Z.lxor x y) = xorb (Z.odd x) (Z.odd y)) by (rewrite <-!Z.bit0_odd; apply Z.lxor_spec).
  rewrite Ho. apply Z.bits_inj'. intros i Hi.
  destruct (Z.odd x), (Z.odd y); cbn [xorb]; rewrite !Z.lxor_spec, ?Z.bits_0;
    destruct (Z.testbit (Z.shiftr x 1) i), (Z.testbit (Z.shiftr y 1) i), (Z.testbit 3988292384 i); reflexivity.
Qed.

Lemma crc_bits_lxor n x y : crc_bits n (Z.lxor x y) = Z.lxor (crc_bits n x) (crc_bits n y).
Proof. unfold crc_bits. induction n as [|n IH]; [done|]. rewrite !Nat.iter_succ, IH. apply crc_bit_lxor. Qed.

Lemma crc_bits_shiftl n x : crc_bits n (Z.shiftl x (Z.of_nat n)) = x.
Proof.
  revert x. induction n as [|n IH]; intros x; [by rewrite Z.shiftl_0_r|].
  unfold crc_bits. rewrite Nat.iter_succ_r. change (crc_bits n (crc_bit (Z.shiftl x (Z.of_nat (S n)))) = x).
  assert (crc_bit (Z.shiftl x (Z.of_nat (S n))) = Z.shiftl x (Z.of_nat n)) as ->; [|apply IH].
  unfold crc_bit. rewrite <-Z.bit0_odd, Z.shiftl_spec_low by lia. rewrite Z.lxor_0_r.
  rewrite Z.shiftr_shiftl_l by lia. f_equal. lia.
Qed.

Lemma split_low n x : 0 <= n -> x = Z.lxor (Z.land x (Z.ones n)) (Z.shiftl (Z.shiftr x n) n).
Proof.
  intros Hn. apply Z.bits_inj'. intros i Hi. rewrite Z.lxor_spec, Z.land_spec.
  destruct (Z.ltb_spec i n).
  - rewrite Z.ones_spec_low, Z.shiftl_spec_low by lia. by rewrite andb_true_r, xorb_false_r.
  - rewrite Z.ones_spec_high, Z.shiftl_spec, Z.shiftr_spec by lia. rewrite andb_false_r, xorb_false_l. f_equal. lia.
Qed.

Definition is_table (n : nat) (table : list Z) : bool :=
  forallb (fun i => nth (Z.to_nat i) table 0 =? crc_bits n i) (seqZ 0 (2 ^ Z.of_nat n)).

Lemma table16_ok : is_table 4 ngx_crc32_table16 = true.
Proof. vm_compute. reflexivity. Qed.

Lemma table256_ok : is_table 8 ngx_crc32_table256 = true.
Proof. vm_compute. reflexivity. Qed.

Lemma table_step n m o table x : m = Z.of_nat n -> o = Z.ones m -> is_table n table = true ->
  Z.lxor (nth (Z.to_nat (Z.land x o)) table 0) (Z.shiftr x m) = crc_bits n x.
Proof.
  intros -> -> H. unfold is_table in H. rewrite forallb_forall in H. specialize (H (Z.land x (Z.ones (Z.of_nat n)))).
  apply Z.eqb_eq in H; [rewrite H|].
  - rewrite (split_low (Z.of_nat n) x) at 3 by lia. by rewrite crc_bits_lxor, crc_bits_shiftl.
  - apply list_elem_of_In, elem_of_seqZ. rewrite Z.land_ones by lia. pose proof (Z.mod_pos_bound x (2 ^ Z.of_nat n)). lia.
Qed.

Lemma shiftr_low x c n : 0 <= n -> 0 <= c < 2 ^ n -> Z.shiftr (Z.lxor x c) n = Z.shiftr x n.
Proof. intros Hn Hc. rewrite Z.shiftr_lxor, (Z.shiftr_div_pow2 c), (Z.div_small c) by lia. apply Z.lxor_0_r. Qed.

Lemma long_step_bits crc c : is_byte c -> long_step crc c = crc_bits 8 (Z.lxor crc c).
Proof.
  intros Hc. unfold long_step. rewrite <-(table_step 8 8 0xff _ _ eq_refl eq_refl table256_ok).
  by rewrite shiftr_low by (unfold is_byte in Hc; lia).
Qed.

Lemma crc_bits_add n m x : crc_bits (n + m) x = crc_bits n (crc_bits m x).
Proof. apply Nat.iter_add. Qed.

(** The low bits first, then the others. *)
Lemma two_halves n m o crc c : m = Z.of_nat n -> o = Z.ones m ->
  crc_bits n (Z.lxor (crc_bits n (Z.lxor crc (Z.land c o))) (Z.shiftr c m)) = crc_bits (n + n) (Z.lxor crc c).
Proof.
  intros -> ->. rewrite <-(crc_bits_shiftl n (Z.shiftr c (Z.of_nat n))) at 1. rewrite <-crc_bits_lxor, <-crc_bits_add. f_equal.
  rewrite (split_low (Z.of_nat n) c) at 3 by lia. apply Z.lxor_assoc.
Qed.

Lemma short_half_bits crc d : 0 <= d < 2 ^ 4 -> short_half crc d = crc_bits 4 (Z.lxor crc d).
Proof.
  intros Hd. unfold short_half. rewrite <-(table_step 4 4 0xf _ _ eq_refl eq_refl table16_ok). by rewrite shiftr_low by lia.
Qed.

Lemma short_step_bits crc c : is_byte c -> short_step crc c = crc_bits 8 (Z.lxor crc c).
Proof.
  intros Hc. unfold is_byte in Hc. unfold short_step. rewrite !short_half_bits.
  - by rewrite (two_halves 4 4 0xf crc c).
  - change 0xf with (Z.ones 4). rewrite Z.land_ones by lia. apply Z.mod_pos_bound. lia.
  - rewrite Z.shiftr_div_pow2 by lia. split; [apply Z.div_pos; lia|apply Z.div_lt_upper_bound; lia].
Qed.

Lemma fold_step (step f : Z -> Z -> Z) p : (forall crc c, is_byte c -> step crc c = f crc c) -> Forall is_byte p ->
  forall crc, fold_left step p crc = fold_left f p crc.
Proof. intros H Hp. induction Hp as [|c p Hc Hp IH]; intros crc; cbn [fold_left]; [done|]. by rewrite H, IH. Qed.

(** Both loops, and the checksum in pieces, are the checksum by bits. *)
Theorem crc32_equal p q : Forall is_byte (p ++ q) ->
  ngx_crc32_short (p ++ q) = crc32 (p ++ q) /\ ngx_crc32_long (p ++ q) = crc32 (p ++ q) /\
  ngx_crc32_final (ngx_crc32_update (ngx_crc32_update ngx_crc32_init p) q) = crc32 (p ++ q).
Proof.
  intros H. unfold ngx_crc32_short, ngx_crc32_long, ngx_crc32_final, ngx_crc32_update, ngx_crc32_init, crc32.
  rewrite <-(fold_left_app long_step p q). rewrite (fold_step short_step _ _ short_step_bits H).
  by rewrite (fold_step long_step _ _ long_step_bits H).
Qed.

Lemma crc32_equal_witness : ngx_crc32_short (bytes "127.0.0.1") = crc32 (bytes "127.0.0.1") /\ crc32 (bytes "123456789") = 0xcbf43926.
Proof.
  split; [|vm_compute; reflexivity]. apply (crc32_equal (bytes "127.0") (bytes ".0.1")). by apply bytes_ok_spec.
Defined.
