(* ===== verification/StrTree.v ===== *)
(** * Red-black trees of strings

    The trees whose nodes carry a string, ordered by a hash and, where the hashes
    are equal, by the strings: [ngx_str_rbtree_insert_value] and
    [ngx_str_rbtree_lookup] of src/core/ngx_string.c, and the callbacks of the zones
    of src/http/modules/ngx_http_limit_conn_module.c and ngx_http_limit_req_module.c,
    which are the same code.

    The strings of the nodes are a function of their addresses.  [is_index] is what
    the trees promise the modules that use them: a map from a hash and a string to
    the node. *)

From Stdlib Require Import Sorting.Sorted.
From stdpp Require Import gmap.
From S2P Require Import Prelude Fsm Strings Rbtree RbtreeSpec RbtreeInsert RbtreeFix RbtreeSplice RbtreeDelete RbtreeTree.

#[local] Notation E := RbtreeSpec.E.

(** ** The code *)

(** Down to the node for which [order] says 0, or [NULL]. *)
Fixpoint lookup_loop (fuel : nat) (order : Z -> rbnode -> option Z) (node : Z) (t : rbtree) : option Z :=
  match fuel with
  | O => None
  | S fuel' =>
      if node =? rb_sentinel t then Some 0
      else
        x ← get node t;
        rc ← order node x;
        if rc =? 0 then Some node
        else lookup_loop fuel' order (if rc <? 0 then n_left x else n_right x) t
  end.

Section Code.
Variable strs : Z -> option (list Z).

(** [node->key], then the lengths, then [ngx_memcmp]. *)
Definition str_order (key : Z) (str : list Z) (temp : Z) (x : rbnode) : option Z :=
  if negb (key =? n_key x) then Some (if key <? n_key x then -1 else 1)
  else
    u ← strs temp;
    if negb (length str =? length u)%nat then Some (if (length str <? length u)%nat then -1 else 1)
    else ngx_memcmp str u (length str).

Definition str_less (node : Z) (t : rbtree) (temp : Z) (x : rbnode) : option bool :=
  n ← get node t; s ← strs node; rc ← str_order (n_key n) s temp x; Some (rc <? 0).

Definition ngx_str_rbtree_insert_value (temp node : Z) (t : rbtree) : option rbtree :=
  insert_with (str_less node t) temp node t.

Definition ngx_str_rbtree_lookup (val : list Z) (hash : Z) (t : rbtree) : option Z :=
  lookup_loop (S (rb_fuel t)) (str_order hash val) (rb_root t) t.

(** [node->key], then [ngx_memn2cmp]. *)
Definition zone_order (key : Z) (str : list Z) (temp : Z) (x : rbnode) : option Z :=
  if key <? n_key x then Some (-1)
  else if n_key x <? key then Some 1
  else u ← strs temp; ngx_memn2cmp str u (length str) (length u).

Definition zone_less (node : Z) (t : rbtree) (temp : Z) (x : rbnode) : option bool :=
  n ← get node t; s ← strs node; rc ← zone_order (n_key n) s temp x; Some (rc <? 0).

Definition ngx_http_limit_conn_rbtree_insert_value (temp node : Z) (t : rbtree) : option rbtree :=
  insert_with (zone_less node t) temp node t.

Definition ngx_http_limit_conn_lookup (key : list Z) (hash : Z) (t : rbtree) : option Z :=
  lookup_loop (S (rb_fuel t)) (zone_order hash key) (rb_root t) t.

End Code.

(** [ngx_slab_alloc_locked] has returned [p]: its bytes may be anything. *)
Definition slab_take (p : Z) (t : rbtree) : rbtree :=
  mk_rbtree (rb_root t) (rb_sentinel t) (<[p := mk_node 0 0 0 0 false]> (rb_nodes t)).

(** [ngx_slab_free_locked]: no read of the node from now on. *)
Definition slab_free (p : Z) (t : rbtree) : rbtree :=
  mk_rbtree (rb_root t) (rb_sentinel t) (delete p (rb_nodes t)).

(** ** Orders of strings *)

Class StrOrder (c : list Z -> list Z -> Z) : Prop := {
  so_sgn s u : Z.sgn (c s u) = c s u;
  so_zero s u : c s u = 0 <-> s = u;
  so_anti s u : c u s = - c s u;
  so_trans s u v : c s u = -1 -> c u v = -1 -> c s v = -1
}.

#[export] Instance lex_order : StrOrder lex.
Proof.
  split.
  - induction s as [|x s IH]; intros [|y u]; cbn [lex]; try done. case_ifs; try done.
  - induction s as [|x s IH]; intros [|y u]; cbn [lex]; try done. case_ifs; try (split; [lia|intros [= -> ->]; lia]).
    rewrite IH. split; [intros ->; f_equal; lia|by intros [= -> ->]].
  - induction s as [|x s IH]; intros [|y u]; cbn [lex]; try done. case_ifs; try lia. apply IH.
  - induction s as [|x s IH]; intros [|y u] [|z v]; cbn [lex]; try done. case_ifs; try lia. apply IH.
Qed.

(** Shorter strings first. *)
Definition len_lex (s u : list Z) : Z :=
  if negb (length s =? length u)%nat then (if (length s <? length u)%nat then -1 else 1) else lex s u.

#[export] Instance len_lex_order : StrOrder len_lex.
Proof.
  assert (Hsgn : forall s u, lex s u = -1 \/ lex s u = 0 \/ lex s u = 1).
  { intros s u. pose proof (so_sgn s u). lia. }
  split; unfold len_lex.
  - intros s u. pose proof (Hsgn s u). case_ifs; lia.
  - intros s u. case_ifs; [split; [lia|intros ->; lia]..|]. apply so_zero.
  - intros s u. pose proof (so_anti s u). case_ifs; lia.
  - intros s u v. pose proof (so_trans s u v). case_ifs; lia.
Qed.

(** ** Search *)

Lemma lookup_loop_rep order (sgn : Z * Z -> Z) fuel : forall t p0 ctx tr,
  rep t p0 ctx tr ->
  (forall k a x, (k, a) ∈ entries tr -> n_key x = k -> exists rc, order a x = Some rc /\ Z.sgn rc = sgn (k, a)) ->
  StronglySorted (fun x y => sgn x <= 0 -> sgn y = -1) (entries tr) -> (forall x, -1 <= sgn x <= 1) ->
  (depth tr < fuel)%nat ->
  exists r, lookup_loop fuel order (ptr (rb_sentinel t) tr) t = Some r /\
    ((exists k, (k, r) ∈ entries tr /\ sgn (k, r) = 0) \/ r = 0 /\ forall x, x ∈ entries tr -> sgn x <> 0).
Proof.
  induction fuel as [|fuel IH]; intros t p0 ctx tr H Ho Hs Hr Hf; [lia|]. cbn [lookup_loop].
  destruct tr as [|c l a k r]; cbn [ptr].
  { rewrite Z.eqb_refl. exists 0. split; [done|]. right. split; [done|]. set_solver +. }
  assert (Hnd := rep_nodup _ _ _ _ H). cbn [addrs] in Hnd. apply NoDup_cons in Hnd as [Hsn _].
  rewrite (proj2 (Z.eqb_neq _ _)) by (intros ->; set_solver + Hsn).
  rewrite (rep_get t p0 ctx Lft c l a k r H). cbn [mbind option_bind]. cbn [entries depth] in *.
  destruct (Ho k a (mk_side Lft k (ptr (rb_sentinel t) l) (ptr (rb_sentinel t) r) (par_of p0 ctx) c)) as (rc & -> & Hrc);
    [set_solver +|done|]. cbn [mbind option_bind mk_side n_left n_right].
  apply sorted_app_inv in Hs as (Hsl & Hsr & Hlr). apply StronglySorted_inv in Hsr as [Hsr Har]. rewrite Forall_forall in Har.
  destruct (rc =? 0) eqn:E0.
  { exists a. split; [done|]. left. exists k. split; [set_solver +|lia]. }
  destruct (rc <? 0) eqn:E1.
  - destruct (IH t p0 (mk_frame Lft c a k r :: ctx) l) as (v & Ev & Hv); [by apply rep_plug1| |done..|lia|].
    { intros k1 a1 x Hin. apply Ho. set_solver + Hin. }
    exists v. split; [exact Ev|]. destruct Hv as [(k1 & Hin & Hz)|[-> Hno]]; [left; exists k1; split; [set_solver + Hin|done]|].
    right. split; [done|]. intros x [Hx|[-> |Hx]%elem_of_cons]%elem_of_app; [by apply Hno|lia|]. specialize (Har x Hx). lia.
  - destruct (IH t p0 (mk_frame Rgt c a k l :: ctx) r) as (v & Ev & Hv); [by apply rep_plug1| |done..|lia|].
    { intros k1 a1 x Hin. apply Ho. set_solver + Hin. }
    exists v. split; [exact Ev|]. destruct Hv as [(k1 & Hin & Hz)|[-> Hno]]; [left; exists k1; split; [set_solver + Hin|done]|].
    right. split; [done|]. intros x [Hx|[-> |Hx]%elem_of_cons]%elem_of_app; [|lia|by apply Hno].
    specialize (Hlr x (k, a) Hx ltac:(set_solver +)). lia.
Qed.

(** ** The order of the nodes *)

Section Trees.
Context (c : list Z -> list Z -> Z) `{!StrOrder c}.

Definition ent_cmp (k : Z) (s : list Z) (k' : Z) (u : list Z) : Z :=
  if k <? k' then -1 else if k' <? k then 1 else c s u.

Lemma ent_sgn k s k' u : -1 <= ent_cmp k s k' u <= 1.
Proof. unfold ent_cmp. pose proof (so_sgn s u). case_ifs; lia. Qed.

Lemma ent_zero k s k' u : ent_cmp k s k' u = 0 <-> k = k' /\ s = u.
Proof. unfold ent_cmp. rewrite <-(so_zero s u). case_ifs; [split; lia..|]. split; [intros ->; split; [lia|done]|tauto]. Qed.

Lemma ent_anti k s k' u : ent_cmp k' u k s = - ent_cmp k s k' u.
Proof. unfold ent_cmp. pose proof (so_anti s u). case_ifs; lia. Qed.

Lemma ent_trans k s k' u k'' v : ent_cmp k s k' u = -1 -> ent_cmp k' u k'' v = -1 -> ent_cmp k s k'' v = -1.
Proof. unfold ent_cmp. pose proof (so_trans s u v). case_ifs; lia. Qed.

(** The comparison of the code. *)
Class StrCallback (order : (Z -> option (list Z)) -> Z -> list Z -> Z -> rbnode -> option Z) : Prop :=
  callback_order strs key str a x u : strs a = Some u ->
    exists rc, order strs key str a x = Some rc /\ Z.sgn rc = ent_cmp key str (n_key x) u.

Context (strs : Z -> option (list Z)).

Definition text (a : Z) : list Z := default [] (strs a).

Definition ent_to (k : Z) (s : list Z) (e : Z * Z) : Z := ent_cmp k s (fst e) (text (snd e)).

Definition ent_lt (x y : Z * Z) : Prop := ent_to (fst x) (text (snd x)) y = -1.

(** A tree whose nodes have strings, no two of them the same hash and string. *)
Definition is_strtree (t : rbtree) (es : list (Z * Z)) : Prop :=
  tree_of t es /\ StronglySorted ent_lt es /\ Forall (fun e => is_Some (strs (snd e))) es.

Lemma ent_to_mono k s x y : ent_lt x y -> ent_to k s x <= 0 -> ent_to k s y = -1.
Proof.
  unfold ent_lt, ent_to. intros H Hx. pose proof (ent_sgn k s (fst x) (text (snd x))).
  destruct (Z.eq_dec (ent_cmp k s (fst x) (text (snd x))) 0) as [Hz|Hz].
  - apply ent_zero in Hz as [-> ->]. exact H.
  - eapply ent_trans; [|exact H]. lia.
Qed.

Lemma sorted_mono (R S : relation (Z * Z)) es :
  (forall x y, x ∈ es -> y ∈ es -> R x y -> S x y) -> StronglySorted R es -> StronglySorted S es.
Proof.
  intros H Hs. induction Hs as [|x es Hs IH Hx]; constructor.
  - apply IH. intros y z Hy Hz. apply H; by right.
  - rewrite Forall_forall in Hx |- *. intros y Hy. apply H; [by left|by right|by apply Hx].
Qed.

Lemma ent_upward k s es : StronglySorted ent_lt es -> upward (fun e => ent_to k s e <? 0) es.
Proof.
  apply sorted_mono. intros x y _ _ H Hx. rewrite (ent_to_mono k s x y H); [done|lia].
Qed.

Context {order} `{!StrCallback order}.

Lemma order_entry k a x es s key : Forall (fun e => is_Some (strs (snd e))) es -> (k, a) ∈ es -> n_key x = k ->
  exists rc, order strs key s a x = Some rc /\ Z.sgn rc = ent_to key s (k, a).
Proof.
  rewrite Forall_forall. intros Hs Hin <-. destruct (Hs _ Hin) as [u Hu]. cbn [snd] in Hu.
  destruct (callback_order strs key s a x u Hu) as (rc & E1 & E2). exists rc. split; [done|].
  unfold ent_to, text. cbn [fst snd]. by rewrite Hu.
Qed.

Definition less_of (node : Z) (t : rbtree) (temp : Z) (x : rbnode) : option bool :=
  n ← get node t; s ← strs node; rc ← order strs (n_key n) s temp x; Some (rc <? 0).

Definition place (k a : Z) (es : list (Z * Z)) : list (Z * Z) := insert_before (fun e => ent_to k (text a) e <? 0) (k, a) es.

Lemma place_perm k a es : place k a es ≡ₚ (k, a) :: es.
Proof. apply insert_before_perm. Qed.

Lemma place_sorted k a es : Forall (fun e => ent_to k (text a) e <> 0) es -> StronglySorted ent_lt es -> StronglySorted ent_lt (place k a es).
Proof.
  unfold place. induction es as [|x es IH]; intros Hne Hs; cbn [insert_before]; [repeat constructor|].
  apply Forall_cons in Hne as [Hnx Hne]. assert (Hs0 := Hs). apply StronglySorted_inv in Hs as [Hs Hx].
  pose proof (ent_sgn k (text a) (fst x) (text (snd x))) as Hb. unfold ent_to in Hnx.
  destruct (ent_to k (text a) x <? 0) eqn:El; unfold ent_to in El.
  - constructor; [done|]. assert (Hkx : ent_lt (k, a) x) by (unfold ent_lt, ent_to; cbn [fst snd]; lia).
    constructor; [done|]. eapply Forall_impl; [exact Hx|]. intros y Hy. unfold ent_lt in *.
    apply (ent_to_mono _ _ x y Hy). cbn [fst snd] in *. lia.
  - constructor; [by apply IH|]. rewrite insert_before_perm. constructor; [|done].
    unfold ent_lt, ent_to in *. cbn [fst snd] in *. rewrite ent_anti. lia.
Qed.

Lemma strtree_insert insert t es node n s :
  is_strtree t es -> get node t = Some n -> strs node = Some s -> node <> rb_sentinel t -> node ∉ map snd es ->
  Forall (fun e => ent_to (n_key n) s e <> 0) es -> (forall temp, insert temp node t = insert_with (less_of node t) temp node t) ->
  exists t', ngx_rbtree_insert insert node t = Some t' /\ is_strtree t' (place (n_key n) node es) /\ alters (node :: map snd es) t t'.
Proof.
  intros (H & Hs & Hv) Hn Hstr Hns Hnode Hne Hins.
  assert (Ht : text node = s) by (unfold text; by rewrite Hstr).
  destruct (tree_insert (fun e => ent_to (n_key n) s e <? 0) insert (less_of node t) t es node n H) as (t' & E' & H' & Ha);
    [|by apply ent_upward|exact Hins|exact Hn|exact Hns|exact Hnode|].
  { intros k a x Hin Hk. unfold less_of. rewrite Hn, Hstr. cbn [mbind option_bind].
    destruct (order_entry k a x es s (n_key n) Hv Hin Hk) as (rc & -> & Hrc). cbn [mbind option_bind]. f_equal. lia. }
  exists t'. split; [exact E'|]. split; [|exact Ha]. unfold place. rewrite Ht. split; [exact H'|].
  assert (Hp := place_perm (n_key n) node es). assert (Hs' := place_sorted (n_key n) node es). unfold place in Hp, Hs'. rewrite Ht in Hp, Hs'.
  split; [by apply Hs'|]. rewrite Hp. constructor; [by eexists|done].
Qed.

Lemma strtree_lookup t es key s :
  is_strtree t es ->
  exists r, lookup_loop (S (rb_fuel t)) (order strs key s) (rb_root t) t = Some r /\
    ((key, r) ∈ es /\ strs r = Some s \/ r = 0 /\ forall a, (key, a) ∈ es -> strs a <> Some s).
Proof.
  intros ((p0 & tr & m & H & Hb & He) & Hs & Hv). rewrite (rep_root _ _ _ _ H). cbn [plug].
  pose proof (nodes_enough _ _ _ _ H) as Hsz. unfold whole in Hsz. cbn [ctx_addrs app] in Hsz. pose proof (depth_addrs tr).
  rewrite <-He in Hs, Hv.
  destruct (lookup_loop_rep (order strs key s) (ent_to key s) (S (rb_fuel t)) t p0 [] tr H) as (r & Er & Hr).
  - intros k a x Hin Hk. by eapply order_entry.
  - eapply sorted_mono; [|exact Hs]. intros x y _ _ Hxy. by apply ent_to_mono.
  - intros x. apply ent_sgn.
  - lia.
  - exists r. split; [exact Er|]. rewrite <-He. rewrite Forall_forall in Hv. destruct Hr as [(k & Hin & Hz)|[-> Hno]].
    + left. apply ent_zero in Hz as [-> ->]. cbn [fst snd] in *. split; [done|]. destruct (Hv _ Hin) as [u Hu]. cbn [snd] in Hu.
      unfold text. by rewrite Hu.
    + right. split; [done|]. intros a Hin Hstr. apply (Hno _ Hin), ent_zero. unfold text. cbn [fst snd]. by rewrite Hstr.
Qed.

Lemma strtree_delete t es1 k a es2 :
  is_strtree t (es1 ++ (k, a) :: es2) ->
  exists t', ngx_rbtree_delete a t = Some t' /\ is_strtree t' (es1 ++ es2) /\ alters (rb_sentinel t :: map snd (es1 ++ (k, a) :: es2)) t t'.
Proof.
  intros (H & Hs & Hv). destruct (delete_shape t es1 k a es2 H) as (t' & E' & H' & Ha). exists t'. split; [exact E'|].
  split; [|exact Ha]. split; [exact H'|]. split.
  - clear -Hs. induction es1 as [|y es1 IH]; cbn [app] in *; apply StronglySorted_inv in Hs as [Hs Hy]; [done|].
    constructor; [by apply IH|]. rewrite Forall_app, Forall_cons in Hy. apply Forall_app. tauto.
  - rewrite Forall_app, Forall_cons in Hv. apply Forall_app. tauto.
Qed.

End Trees.

(** The comparisons of both kinds of trees. *)
#[export] Instance str_callback : StrCallback len_lex str_order.
Proof.
  intros strs key str a x u Hu. unfold str_order, ent_cmp, len_lex. rewrite Hu. cbn [mbind option_bind].
  destruct (key =? n_key x) eqn:E; cbn [negb].
  - destruct (length str =? length u)%nat eqn:El; cbn [negb].
    + destruct (memcmp_spec (length str) str u ltac:(lia) ltac:(lia)) as (rc & -> & Hrc). exists rc. split; [done|].
      rewrite !firstn_all2 in Hrc by lia. case_ifs; lia.
    + eexists. split; [done|]. case_ifs; lia.
  - eexists. split; [done|]. case_ifs; lia.
Qed.

#[export] Instance zone_callback : StrCallback lex zone_order.
Proof.
  intros strs key str a x u Hu. unfold zone_order, ent_cmp. rewrite Hu. cbn [mbind option_bind].
  destruct (key <? n_key x); [by eexists|]. destruct (n_key x <? key); [by eexists|].
  exact (ngx_memn2cmp_order str u).
Qed.

(** ** What the trees promise *)

Section Index.
Context (c : list Z -> list Z -> Z) `{!StrOrder c} (strs : Z -> option (list Z)).

(** The map from a hash and a string to the node. *)
Definition is_index (t : rbtree) (M : gmap (Z * list Z) Z) : Prop :=
  exists es, is_strtree c strs t es /\ forall h s a, M !! (h, s) = Some a <-> (h, a) ∈ es /\ strs a = Some s.

(** A call leaves the other nodes in memory. *)
Definition keeps (t t' : rbtree) : Prop :=
  rb_sentinel t' = rb_sentinel t /\ forall x, is_Some (get x t) -> is_Some (get x t').

Lemma alters_keeps A t t' : alters A t t' -> keeps t t'.
Proof. intros (H1 & _ & H2). by split. Qed.

Context {order} `{!StrCallback c order}.

Lemma index_lookup t M h s : is_index t M ->
  lookup_loop (S (rb_fuel t)) (order strs h s) (rb_root t) t = Some (default 0 (M !! (h, s))).
Proof.
  intros (es & H & Hm). destruct (strtree_lookup c strs t es h s H) as (r & -> & [[Hin Hs]|[-> Hno]]).
  - by rewrite (proj2 (Hm h s r)).
  - destruct (M !! (h, s)) as [a|] eqn:E1; [|done]. apply Hm in E1 as [Hin Hs]. by apply Hno in Hin.
Qed.

Lemma index_insert insert t M node n s :
  is_index t M -> get node t = Some n -> strs node = Some s -> node <> rb_sentinel t ->
  (forall k, M !! k <> Some node) -> M !! (n_key n, s) = None ->
  (forall temp, insert temp node t = insert_with (less_of strs (order := order) node t) temp node t) ->
  exists t', ngx_rbtree_insert insert node t = Some t' /\ is_index t' (<[(n_key n, s) := node]> M) /\ keeps t t'.
Proof.
  intros (es & H & Hm) Hn Hstr Hns Hfresh Hnone Hins. pose proof H as (_ & _ & Hv). rewrite Forall_forall in Hv.
  assert (Hnin : node ∉ map snd es).
  { intros ([k a] & -> & Hin)%list_elem_of_fmap. cbn [snd] in *. destruct (Hv _ Hin) as [u Hu]. by apply (Hfresh (k, u)), Hm. }
  destruct (strtree_insert c strs insert t es node n s H Hn Hstr Hns Hnin) as (t' & E1 & H' & Ha); [|exact Hins|].
  { apply Forall_forall. intros [k a] Hin Hz. unfold ent_to in Hz. cbn [fst snd] in Hz. apply ent_zero in Hz as [<- Hz]; [|done].
    destruct (Hv _ Hin) as [u Hu]. unfold text in Hz. cbn [snd] in Hu. rewrite Hu in Hz. cbn in Hz. subst u.
    assert (M !! (n_key n, s) = Some a) as E by (by apply Hm). congruence. }
  exists t'. split; [exact E1|]. split; [|by eapply alters_keeps]. eexists. split; [exact H'|].
  intros h u a. rewrite place_perm, elem_of_cons. destruct (decide ((n_key n, s) = (h, u))) as [[= <- <-]|Hne].
  - rewrite lookup_insert_eq. split; [intros [= <-]; auto|]. intros [[[= ->]|Hin] Hs]; [done|].
    assert (M !! (n_key n, s) = Some a) as E by (by apply Hm). congruence.
  - rewrite lookup_insert_ne by done. rewrite Hm. split; [tauto|]. intros [[[= -> ->]|Hin] Hs]; [|done]. congruence.
Qed.

Lemma index_delete t M h s a : is_index t M -> M !! (h, s) = Some a ->
  exists t', ngx_rbtree_delete a t = Some t' /\ is_index t' (delete (h, s) M) /\ keeps t t'.
Proof.
  intros (es & H & Hm) Ha. pose proof (proj1 (Hm h s a) Ha) as [Hin Hs].
  apply list_elem_of_split in Hin as (es1 & es2 & ->).
  destruct (strtree_delete c strs t es1 h a es2 H) as (t' & E1 & H' & Hal). exists t'. split; [exact E1|].
  split; [|by eapply alters_keeps]. eexists. split; [exact H'|]. intros h' s' a'.
  destruct H as ((p0 & tr & m & Hr & _ & He) & _ & _). assert (Hnd := rep_nodup _ _ _ _ Hr). cbn [ctx_addrs app] in Hnd.
  rewrite addrs_entries, He, map_app in Hnd. cbn [map snd] in Hnd. apply NoDup_cons in Hnd as [_ Hnd].
  apply NoDup_app in Hnd as (_ & Hd & Hnd). apply NoDup_cons in Hnd as [Hna _].
  assert (Hnot : forall k, (k, a) ∉ es1 ++ es2).
  { intros k Hk. apply (list_elem_of_fmap_2 snd) in Hk. rewrite fmap_app in Hk. apply elem_of_app in Hk as [Hk|Hk]; [|done].
    apply (Hd a Hk). apply elem_of_cons; by left. }
  rewrite lookup_delete_Some, Hm, elem_of_app, elem_of_cons. split.
  - intros [Hne [[Hin|[[= -> ->]|Hin]] Hs']]; [by split; [apply elem_of_app; left|]| |by split; [apply elem_of_app; right|]].
    congruence.
  - intros [Hin Hs']. split; [|apply elem_of_app in Hin; tauto]. intros [= <- <-].
    assert (M !! (h, s) = Some a') as E by (apply Hm; split; [set_solver + Hin|done]). rewrite Ha in E. injection E as <-. by apply (Hnot h).
Qed.

(** Different keys have different nodes, none of which is the sentinel. *)
Lemma index_inj t M k1 k2 a : is_index t M -> M !! k1 = Some a -> M !! k2 = Some a -> k1 = k2.
Proof.
  destruct k1 as [h1 s1], k2 as [h2 s2]. intros (es & ((p0 & tr & m & Hr & _ & He) & _ & _) & Hm) [H1 S1]%Hm [H2 S2]%Hm.
  assert (Hnd := rep_nodup _ _ _ _ Hr). cbn [ctx_addrs app] in Hnd. apply NoDup_cons in Hnd as [_ Hnd].
  rewrite addrs_entries, He in Hnd. rewrite S1 in S2. injection S2 as <-. f_equal.
  apply list_elem_of_split in H1 as (es1 & es2 & ->). rewrite map_app in Hnd. cbn [map snd] in Hnd.
  apply NoDup_app in Hnd as (_ & Hd & Hnd). apply NoDup_cons in Hnd as [Hna _].
  apply elem_of_app in H2 as [H2|[[= ->]|H2]%elem_of_cons]; [|done|]; apply (list_elem_of_fmap_2 snd) in H2; cbn [snd] in H2; [|done].
  exfalso. apply (Hd a H2), elem_of_cons. by left.
Qed.

Lemma index_sentinel t M k a : is_index t M -> M !! k = Some a -> a <> rb_sentinel t.
Proof.
  destruct k as [h s]. intros (es & ((p0 & tr & m & Hr & _ & He) & _ & _) & Hm) [H1 _]%Hm ->.
  assert (Hnd := rep_nodup _ _ _ _ Hr). cbn [ctx_addrs app] in Hnd. apply NoDup_cons in Hnd as [Hnd _].
  apply Hnd. rewrite addrs_entries, He. by apply (list_elem_of_fmap_2 snd) in H1.
Qed.

Lemma index_empty s t : is_Some (get s t) ->
  exists t', ngx_rbtree_init s t = Some t' /\ is_index t' ∅ /\ rb_sentinel t' = s.
Proof.
  intros Hs. destruct (init_rbt (valid := fun _ => True) (rank := id) s t Hs) as (t' & E1 & (H & _) & E2 & _).
  exists t'. split; [done|]. split; [|done]. exists []. split; [split; [exact H|repeat constructor]|].
  intros h u a. rewrite lookup_empty. split; [done|]. set_solver +.
Qed.

(** Memory of other nodes. *)
Lemma index_frame t t' M : is_index t M -> rb_root t' = rb_root t -> rb_sentinel t' = rb_sentinel t ->
  (forall x, x = rb_sentinel t \/ (exists k, M !! k = Some x) -> get x t' = get x t) -> is_index t' M.
Proof.
  intros (es & ((p0 & tr & m & H & Hb & He) & Hs & Hv) & Hm) Hr Hsn Hg. exists es. split; [|exact Hm]. split; [|done].
  exists p0, tr, m. split; [|done]. destruct H as [H1 H2 H3 H4 (ns & H5 & H6)]. rewrite Forall_forall in Hv.
  constructor; rewrite ?Hsn; try done; [by rewrite Hr| |].
  - eapply tree_at_frame; [exact H3|]. intros x Hx. apply Hg. right. rewrite addrs_entries, He in Hx.
    apply list_elem_of_fmap in Hx as ([k a] & -> & Hin). destruct (Hv _ Hin) as [u Hu]. exists (k, u). by apply Hm.
  - exists ns. split; [|done]. rewrite Hg by (by left). done.
Qed.

End Index.

Lemma index_strs c strs strs' t M : (forall k a, M !! k = Some a -> strs' a = strs a) -> is_index c strs t M -> is_index c strs' t M.
Proof.
  intros Heq (es & (H & Hs & Hv) & Hm). exists es.
  assert (Hin : forall e, e ∈ es -> strs' (snd e) = strs (snd e)).
  { intros [k a] He. rewrite Forall_forall in Hv. destruct (Hv _ He) as [u Hu]. eapply (Heq (k, u)), Hm. done. }
  split; [split; [done|split]|].
  - eapply sorted_mono; [|exact Hs]. intros x y Hx Hy. unfold ent_lt, ent_to, text. by rewrite !Hin.
  - rewrite Forall_forall in Hv |- *. intros e He. rewrite Hin by done. by apply Hv.
  - intros h s a. rewrite Hm. split; intros [He Hstr]; (split; [done|]); specialize (Hin _ He); cbn [snd] in Hin; congruence.
Qed.

(** A node that is not in the tree may come and go. *)
Lemma index_slab c strs t M p v : is_index c strs t M -> p <> rb_sentinel t -> (forall k, M !! k <> Some p) ->
  is_index c strs (mk_rbtree (rb_root t) (rb_sentinel t) (partial_alter v p (rb_nodes t))) M.
Proof.
  intros H Hs Hp. eapply (index_frame c strs t); [exact H|done|done|]. intros x Hx. cbn [rb_nodes].
  apply lookup_partial_alter_ne. intros ->. destruct Hx as [->|[k Hk]]; [done|by apply (Hp k)].
Qed.

(** The trees of [ngx_str_node_t] are maps: what is looked up is what was inserted. *)
Theorem str_rbtree_map strs t M : is_index len_lex strs t M ->
  (forall h s, ngx_str_rbtree_lookup strs s h t = Some (default 0 (M !! (h, s)))) /\
  forall node n s, get node t = Some n -> strs node = Some s -> node <> rb_sentinel t -> (forall k, M !! k <> Some node) ->
    M !! (n_key n, s) = None ->
    exists t', ngx_rbtree_insert (ngx_str_rbtree_insert_value strs) node t = Some t' /\
      is_index len_lex strs t' (<[(n_key n, s) := node]> M).
Proof.
  intros H. split; [intros h s; exact (index_lookup len_lex strs t M h s H)|]. intros node n s Hn Hs Hne Hf Hnone.
  destruct (index_insert len_lex strs (ngx_str_rbtree_insert_value strs) t M node n s H Hn Hs Hne Hf Hnone) as (t' & E & H' & _); [done|].
  by exists t'.
Qed.

Definition sample_strs (a : Z) : option (list Z) := (list_to_map [(101, bytes "b"); (102, bytes "aa"); (103, bytes "a")] : gmap Z (list Z)) !! a.

Example str_rbtree_sample :
  (t ← ngx_rbtree_init 108 (mk_rbtree 0 0 sample_nodes);
   t ← foldl (fun t k => t ← t; t ← put k (set_key 5) t; ngx_rbtree_insert (ngx_str_rbtree_insert_value sample_strs) k t) (Some t) [101; 102; 103];
   Some (map (fun s => ngx_str_rbtree_lookup sample_strs (bytes s) 5 t) ["a"; "b"; "aa"; "ab"]%string)) =
  Some [Some 103; Some 101; Some 102; Some 0].
Proof. vm_compute. reflexivity. Qed.
