(* ===== verification/LimitConn.v ===== *)
(** * Limits of connections

    src/http/modules/ngx_http_limit_conn_module.c: a zone of shared memory counts
    the requests that are being processed for each value of a key; a request takes
    its place in every zone before it is processed, and a cleanup of its pool gives
    it back.

    A zone is a red-black tree of nodes and what lies behind their heads; what
    [ngx_slab_alloc_locked] returns is an argument of each call, as are the value of
    the key and whether [ngx_pool_cleanup_add] succeeds. *)

From stdpp Require Import gmap.
From S2P Require Import Prelude Fsm Strings Crc32 Rbtree StrTree.

(** ** Zones *)

(** [ngx_http_limit_conn_node_t]; the color is in the node of the tree, [len] is the
    length of the data. *)
Record conn_node : Type := mk_conn_node { lc_conn : Z; lc_data : list Z }.

Record conn_zone : Type := mk_conn_zone { cz_tree : rbtree; cz_nodes : gmap Z conn_node }.

Definition conn_data (z : conn_zone) (a : Z) : option (list Z) := lc_data <$> cz_nodes z !! a.

(** The critical section of the handler for one zone: [None] inside is the refusal,
    for the limit or for memory. *)
Definition limit_conn_enter (key : list Z) (hash conn : Z) (alloc : conn_zone -> Z) (z : conn_zone) : option (option Z * conn_zone) :=
  node ← ngx_http_limit_conn_lookup (conn_data z) key hash (cz_tree z);
  if node =? 0 then
    let node := alloc z in
    if node =? 0 then Some (None, z)
    else
      t ← put node (set_key hash) (slab_take node (cz_tree z));
      let nodes := <[node := mk_conn_node 1 key]> (cz_nodes z) in
      t ← ngx_rbtree_insert (ngx_http_limit_conn_rbtree_insert_value (fun a => lc_data <$> nodes !! a)) node t;
      Some (Some node, mk_conn_zone t nodes)
  else
    lc ← cz_nodes z !! node;
    if conn <=? lc_conn lc then Some (None, z)
    else Some (Some node, mk_conn_zone (cz_tree z) (<[node := mk_conn_node (u16 (lc_conn lc + 1)) (lc_data lc)]> (cz_nodes z))).

(** The critical section of [ngx_http_limit_conn_cleanup]. *)
Definition limit_conn_leave (node : Z) (z : conn_zone) : option conn_zone :=
  lc ← cz_nodes z !! node;
  let conn := u16 (lc_conn lc - 1) in
  if conn =? 0 then
    t ← ngx_rbtree_delete node (cz_tree z);
    Some (mk_conn_zone (slab_free node t) (delete node (cz_nodes z)))
  else Some (mk_conn_zone (cz_tree z) (<[node := mk_conn_node conn (lc_data lc)]> (cz_nodes z))).

(** ** Requests *)

(** The cleanups of a pool: those of this module, and of others. *)
Inductive cleanup : Type := ConnCleanup (zone node : Z) | OtherCleanup.

(** The zones, and of the request [r->main->limit_conn_set] and [r->pool->cleanup]. *)
Record conn_state : Type := mk_conn_state { cs_zones : gmap Z conn_zone; cs_set : bool; cs_cleanup : list cleanup }.

Definition ngx_http_limit_conn_cleanup (zone node : Z) (zones : gmap Z conn_zone) : option (gmap Z conn_zone) :=
  z ← zones !! zone; z ← limit_conn_leave node z; Some (<[zone := z]> zones).

Fixpoint ngx_http_limit_conn_cleanup_all (cln : list cleanup) (zones : gmap Z conn_zone) : option (list cleanup * gmap Z conn_zone) :=
  match cln with
  | ConnCleanup zone node :: cln' =>
      zones ← ngx_http_limit_conn_cleanup zone node zones; ngx_http_limit_conn_cleanup_all cln' zones
  | _ => Some (cln, zones)
  end.

(** [ngx_http_limit_conn_limit_t], with the value of the key ([None]: an error) and
    the answers of the allocators. *)
Record conn_limit : Type := mk_conn_limit {
  li_zone : Z; li_conn : Z; li_key : option (list Z); li_alloc : conn_zone -> Z; li_cleanup : bool }.

Definition NGX_HTTP_INTERNAL_SERVER_ERROR : Z := 500.

Section Handler.
(** [lccf->status_code] *)
Variable status_code : Z.

Fixpoint limit_conn_limits (limits : list conn_limit) (st : conn_state) : option (Z * conn_state) :=
  match limits with
  | [] => Some (NGX_DECLINED, st)
  | l :: limits' =>
      z ← cs_zones st !! li_zone l;
      match li_key l with
      | None => Some (NGX_HTTP_INTERNAL_SERVER_ERROR, st)
      | Some key =>
          if (length key =? 0)%nat then limit_conn_limits limits' st
          else if 255 <? Z.of_nat (length key) then limit_conn_limits limits' st
          else
            '(node, z) ← limit_conn_enter key (ngx_crc32_short key) (li_conn l) (li_alloc l) z;
            let zones := <[li_zone l := z]> (cs_zones st) in
            match node with
            | None =>
                '(cln, zones) ← ngx_http_limit_conn_cleanup_all (cs_cleanup st) zones;
                Some (status_code, mk_conn_state zones true cln)
            | Some node =>
                if negb (li_cleanup l) then Some (NGX_HTTP_INTERNAL_SERVER_ERROR, mk_conn_state zones true (cs_cleanup st))
                else limit_conn_limits limits' (mk_conn_state zones true (ConnCleanup (li_zone l) node :: cs_cleanup st))
            end
      end
  end.

Definition ngx_http_limit_conn_handler (limits : list conn_limit) (st : conn_state) : option (Z * conn_state) :=
  if cs_set st then Some (NGX_DECLINED, st) else limit_conn_limits limits st.

End Handler.

(** A new zone: the tree with its sentinel. *)
Definition limit_conn_init_zone (sentinel : Z) : option conn_zone :=
  t ← ngx_rbtree_init sentinel (slab_take sentinel (mk_rbtree 0 0 ∅)); Some (mk_conn_zone t ∅).

(** ** Examples *)

(** An address that is not in use. *)
Definition next_alloc (z : conn_zone) : Z := fresh ({[0; rb_sentinel (cz_tree z)]} ∪ dom (cz_nodes z) : gset Z).

Definition sample_limit (zone conn : Z) (key : string) : conn_limit := mk_conn_limit zone conn (Some (bytes key)) next_alloc true.

(** Two requests of one client with a limit of 2, a third one that is refused, one
    of another client; then the first request ends. *)
Definition sample_run : option (list Z * list nat) :=
  z ← limit_conn_init_zone 1;
  let zones : gmap Z conn_zone := {[ 7 := z ]} in
  let request key (zones : gmap Z conn_zone) := ngx_http_limit_conn_handler 503 [sample_limit 7 2 key] (mk_conn_state zones false []) in
  '(r1, s1) ← request "10.0.0.1"%string zones;
  '(r2, s2) ← request "10.0.0.1"%string (cs_zones s1);
  '(r3, s3) ← request "10.0.0.1"%string (cs_zones s2);
  '(r4, s4) ← request "10.0.0.2"%string (cs_zones s3);
  '(_, zones) ← ngx_http_limit_conn_cleanup_all (cs_cleanup s1) (cs_zones s4);
  '(_, zones) ← ngx_http_limit_conn_cleanup_all (cs_cleanup s4) zones;
  '(r5, s5) ← request "10.0.0.1"%string zones;
  Some ([r1; r2; r3; r4; r5], map (fun s : conn_state => default 9%nat (z ← cs_zones s !! 7; Some (size (cz_nodes z)))) [s1; s3; s4; s5]).

Example limit_conn_sample : sample_run = Some ([NGX_DECLINED; NGX_DECLINED; 503; NGX_DECLINED; NGX_DECLINED], [1; 1; 2; 1]%nat).
Proof. vm_compute. reflexivity. Qed.

(** When there is no memory for the cleanup, the place of the request is never given
    back. *)
Definition leak_limit : conn_limit := mk_conn_limit 7 1 (Some (bytes "10.0.0.1")) next_alloc false.

Example limit_conn_leak :
  (z ← limit_conn_init_zone 1;
   '(r1, s1) ← ngx_http_limit_conn_handler 503 [leak_limit] (mk_conn_state {[ 7 := z ]} false []);
   '(_, zones) ← ngx_http_limit_conn_cleanup_all (cs_cleanup s1) (cs_zones s1);
   '(r2, _) ← ngx_http_limit_conn_handler 503 [sample_limit 7 1 "10.0.0.1"] (mk_conn_state zones false []);
   Some (r1, cs_cleanup s1, r2)) = Some (NGX_HTTP_INTERNAL_SERVER_ERROR, [], 503).
Proof. vm_compute. reflexivity. Qed.
