(* ===== verification/LimitConnSpec.v ===== *)
(** * Limits of connections: the counts

    Whatever the order in which the workers go through their critical sections, the
    count of a node is the number of requests that hold it, a node is freed when the
    last of them ends, and no key is held by more requests than its limit. *)

From stdpp Require Import gmap.
From S2P Require Import Prelude Fsm Strings Crc32 Rbtree RbtreeSpec RbtreeInsert RbtreeTree StrTree LimitConn.

Abbreviation is_conn_index z := (is_index lex (conn_data z) (cz_tree z)).

Definition holders_of (a : Z) (hs : list Z) : Z := Z.of_nat (count_occ Z.eq_dec hs a).

(** [hs] has the node of each request that is being processed. *)
Record conn_ok (z : conn_zone) (M : gmap (Z * list Z) Z) (hs : list Z) : Prop := mk_conn_ok {
  co_index : is_conn_index z M;
  co_node h s a : M !! (h, s) = Some a -> a <> 0 /\ cz_nodes z !! a = Some (mk_conn_node (holders_of a hs) s) /\ 0 < holders_of a hs < 2 ^ 16;
  co_held a : a ∈ hs -> exists k, M !! k = Some a;
  co_dom a : is_Some (cz_nodes z !! a) -> exists k, M !! k = Some a
}.

(** What the slab allocator returns is not in use. *)
Definition slab_fresh (alloc : conn_zone -> Z) : Prop :=
  forall z, alloc z <> 0 -> alloc z <> rb_sentinel (cz_tree z) /\ cz_nodes z !! alloc z = None.

Lemma holders_cons a b hs : holders_of a (b :: hs) = holders_of a hs + (if decide (a = b) then 1 else 0).
Proof. unfold holders_of. cbn [count_occ]. destruct (Z.eq_dec b a), (decide (a = b)); try congruence; lia. Qed.

Lemma holders_zero a hs : a ∉ hs -> holders_of a hs = 0.
Proof. intros H. unfold holders_of. rewrite (proj1 (count_occ_not_In Z.eq_dec hs a)); [done|]. by rewrite <-list_elem_of_In. Qed.

Lemma holders_perm a hs hs' : hs ≡ₚ hs' -> holders_of a hs = holders_of a hs'.
Proof. intros H. unfold holders_of. by rewrite (proj1 (Permutation_count_occ Z.eq_dec hs hs') H). Qed.

(** ** The critical sections *)

Lemma enter_new z M hs key hash p :
  conn_ok z M hs -> M !! (hash, key) = None -> p <> 0 -> p <> rb_sentinel (cz_tree z) -> cz_nodes z !! p = None ->
  exists t0 t1, put p (set_key hash) (slab_take p (cz_tree z)) = Some t0 /\
    let nodes := <[p := mk_conn_node 1 key]> (cz_nodes z) in
    ngx_rbtree_insert (ngx_http_limit_conn_rbtree_insert_value (fun a => lc_data <$> nodes !! a)) p t0 = Some t1 /\
    conn_ok (mk_conn_zone t1 nodes) (<[(hash, key) := p]> M) (p :: hs) /\ rb_sentinel t1 = rb_sentinel (cz_tree z).
Proof.
  intros [Hi Hn Hh Hd] Hnone Hp Hps Hfresh. set (nodes := <[p := _]> _).
  assert (HM : forall k, M !! k <> Some p).
  { intros [h s] E. destruct (Hn h s p E) as (_ & E' & _). congruence. }
  assert (Hput : put p (set_key hash) (slab_take p (cz_tree z)) =
    Some (upd p (mk_node hash 0 0 0 false) (slab_take p (cz_tree z)))) by exact (put_upd p _ _ _ (get_upd_eq p _ (cz_tree z))).
  set (t0 := upd p (mk_node hash 0 0 0 false) (slab_take p (cz_tree z))) in *. exists t0.
  assert (H0 : is_index lex (fun a => lc_data <$> nodes !! a) t0 M).
  { apply (index_slab lex _ (slab_take p (cz_tree z)) M p (fun _ => Some _)); [|done|done].
    apply (index_slab lex _ (cz_tree z) M p (fun _ => Some _)); [|done|done].
    eapply index_strs; [|exact Hi]. intros k a E. unfold conn_data, nodes. rewrite lookup_insert_ne; [done|]. intros <-. by apply (HM k). }
  destruct (index_insert lex (fun a => lc_data <$> nodes !! a) (ngx_http_limit_conn_rbtree_insert_value (fun a => lc_data <$> nodes !! a))
    t0 M p (mk_node hash 0 0 0 false) key) as (t1 & E1 & H1 & Hk); [done|apply get_upd_eq| |done|done|done|done|].
  { unfold nodes. by rewrite lookup_insert_eq. }
  exists t1. split; [done|]. split; [exact E1|]. split; [|by apply Hk].
  assert (Hnot : p ∉ hs) by (intros (k & E)%Hh; by apply (HM k)).
  constructor; cbn [cz_nodes cz_tree].
  - exact H1.
  - intros h s a. destruct (decide ((hash, key) = (h, s))) as [[= <- <-]|Hne].
    + cbn [n_key]. rewrite lookup_insert_eq. intros [= <-]. split; [done|].
      rewrite holders_cons, decide_True, holders_zero by done. split; [|lia]. unfold nodes. by rewrite lookup_insert_eq.
    + cbn [n_key]. rewrite lookup_insert_ne by done. intros E. destruct (Hn h s a E) as (Ha & En & Hb).
      assert (a <> p) by (intros ->; by apply (HM (h, s))). rewrite holders_cons, decide_False, Z.add_0_r by done.
      split; [done|]. split; [|done]. unfold nodes. by rewrite lookup_insert_ne.
  - intros a [->|Ha]%elem_of_cons; [exists (hash, key); apply lookup_insert_eq|]. destruct (Hh a Ha) as [k E]. exists k.
    cbn [n_key]. rewrite lookup_insert_ne; [done|]. intros <-. congruence.
  - intros a [v Ha]. unfold nodes in Ha. apply lookup_insert_Some in Ha as [[<- _]|[Hne Ha]]; [exists (hash, key); apply lookup_insert_eq|].
    destruct (Hd a) as [k E]; [by eexists|]. exists k. cbn [n_key]. rewrite lookup_insert_ne; [done|]. intros <-. congruence.
Qed.

Lemma enter_again z M hs key hash a :
  conn_ok z M hs -> M !! (hash, key) = Some a -> holders_of a hs + 1 < 2 ^ 16 ->
  conn_ok (mk_conn_zone (cz_tree z) (<[a := mk_conn_node (holders_of a hs + 1) key]> (cz_nodes z))) M (a :: hs).
Proof.
  intros [Hi Hn Hh Hd] E Hb. destruct (Hn hash key a E) as (Ha & En & Hp). constructor; cbn [cz_nodes cz_tree].
  - eapply index_strs; [|exact Hi]. intros k x _. unfold conn_data. cbn [cz_nodes]. destruct (decide (x = a)) as [->|Hne].
    + by rewrite lookup_insert_eq, En.
    + by rewrite lookup_insert_ne.
  - intros h s x E'. destruct (Hn h s x E') as (Hx & En' & Hp'). split; [done|]. rewrite holders_cons.
    destruct (decide (x = a)) as [->|Hne].
    + rewrite lookup_insert_eq. split; [|lia]. rewrite En in En'. injection En' as ->. done.
    + rewrite lookup_insert_ne, Z.add_0_r by done. done.
  - intros x [->|Hx]%elem_of_cons; [by eexists|by apply Hh].
  - intros x [v Hx]. apply lookup_insert_Some in Hx as [[<- _]|[_ Hx]]; [by eexists|]. apply Hd. by eexists.
Qed.

Lemma enter_ok z M hs key hash conn alloc :
  conn_ok z M hs -> slab_fresh alloc -> 0 < conn < 2 ^ 16 ->
  exists r z', limit_conn_enter key hash conn alloc z = Some (r, z') /\ rb_sentinel (cz_tree z') = rb_sentinel (cz_tree z) /\
    match r with
    | None => z' = z /\ match M !! (hash, key) with Some a => conn <= holders_of a hs | None => alloc z = 0 end
    | Some a => exists M', conn_ok z' M' (a :: hs) /\ M' = <[(hash, key) := a]> M /\
                  (M !! (hash, key) = Some a \/ M !! (hash, key) = None) /\ holders_of a (a :: hs) <= conn
    end.
Proof.
  intros H Hal Hc. unfold limit_conn_enter, ngx_http_limit_conn_lookup. rewrite (index_lookup lex _ _ M hash key (co_index _ _ _ H)).
  cbn [mbind option_bind]. destruct (M !! (hash, key)) as [a|] eqn:E; cbn [default].
  - destruct (co_node _ _ _ H hash key a E) as (Ha & En & Hp). cbn. rewrite (proj2 (Z.eqb_neq a 0)) by done. rewrite En. cbn [mbind option_bind lc_conn lc_data].
    destruct (conn <=? holders_of a hs) eqn:El; [eexists _, _; split; [done|]; split; [done|]; split; [done|lia]|].
    eexists _, _. split; [done|]. split; [done|]. exists M. unfold u16. rewrite Z.mod_small by lia.
    split; [apply (enter_again z M hs key hash a); [done|done|lia]|]. split; [by rewrite insert_id|]. split; [by left|].
    rewrite holders_cons, decide_True by done. lia.
  - cbn [Z.eqb]. destruct (alloc z =? 0) eqn:Ea; [eexists _, _; split; [done|]; split; [done|]; split; [done|lia]|].
    destruct (Hal z ltac:(lia)) as [Hs Hf].
    destruct (enter_new z M hs key hash (alloc z) H E ltac:(lia) Hs Hf) as (t0 & t1 & -> & E1 & H1 & Hsn).
    cbn [mbind option_bind]. cbv zeta in E1. rewrite E1. cbn [mbind option_bind]. eexists _, _. split; [done|]. split; [exact Hsn|].
    eexists. split; [exact H1|]. split; [done|]. split; [by right|].
    rewrite holders_cons, decide_True by done. rewrite holders_zero; [lia|].
    intros Hin. destruct (co_held _ _ _ H _ Hin) as ([h s] & Ek). destruct (co_node _ _ _ H h s _ Ek) as (_ & En & _). congruence.
Qed.

Lemma leave_ok z M a hs :
  conn_ok z M (a :: hs) -> exists z' M', limit_conn_leave a z = Some z' /\ conn_ok z' M' hs /\
    rb_sentinel (cz_tree z') = rb_sentinel (cz_tree z) /\ (forall k b, M' !! k = Some b -> M !! k = Some b).
Proof.
  intros H. destruct (co_held _ _ _ H a) as ([h s] & E); [by left|]. destruct (co_node _ _ _ H h s a E) as (Ha & En & Hp).
  rewrite holders_cons, decide_True in En, Hp by done. unfold limit_conn_leave. rewrite En. cbn [mbind option_bind lc_conn lc_data].
  replace (holders_of a hs + 1 - 1) with (holders_of a hs) by lia. unfold u16. rewrite Z.mod_small by lia.
  assert (Hother : forall h' s' b, M !! (h', s') = Some b -> b <> a ->
    b <> 0 /\ cz_nodes z !! b = Some (mk_conn_node (holders_of b hs) s') /\ 0 < holders_of b hs < 2 ^ 16).
  { intros h' s' b E' Hne. destruct (co_node _ _ _ H h' s' b E') as (Hb & En' & Hp').
    rewrite holders_cons, decide_False, Z.add_0_r in En', Hp' by done. done. }
  destruct (holders_of a hs =? 0) eqn:E0.
  - destruct (index_delete lex _ _ M h s a (co_index _ _ _ H) E) as (t' & -> & Hi' & Hsn & _). cbn [mbind option_bind].
    assert (HM : forall k, delete (h, s) M !! k <> Some a).
    { intros k [Hne Hk]%lookup_delete_Some. by apply Hne, (index_inj lex _ _ M _ _ a (co_index _ _ _ H)). }
    eexists _, (delete (h, s) M). split; [done|]. split; [|split; [exact Hsn|by intros k b [_ Hk]%lookup_delete_Some]]. constructor; cbn [cz_nodes cz_tree].
    + apply (index_slab lex _ t' _ a (fun _ => None)); [|rewrite Hsn; by apply (index_sentinel lex _ _ M (h, s) a (co_index _ _ _ H))|exact HM].
      eapply index_strs; [|exact Hi']. intros k b Hk. unfold conn_data. cbn [cz_nodes].
      rewrite lookup_delete_ne; [done|]. intros <-. by apply (HM k).
    + intros h' s' b Hk. assert (b <> a) by (intros ->; by apply (HM (h', s'))). apply lookup_delete_Some in Hk as [_ Hk].
      rewrite lookup_delete_ne by done. by apply (Hother h').
    + intros b Hb. destruct (co_held _ _ _ H b) as [k Ek]; [by right|]. exists k. apply lookup_delete_Some. split; [|done].
      intros <-. rewrite E in Ek. injection Ek as <-. pose proof (holders_cons a a []).
      assert (0 < holders_of a hs); [|lia]. unfold holders_of. apply list_elem_of_In, (count_occ_In Z.eq_dec) in Hb. lia.
    + intros b [v [Hne Hb]%lookup_delete_Some]. destruct (co_dom _ _ _ H b) as [k Ek]; [by eexists|]. exists k. apply lookup_delete_Some.
      split; [|done]. intros <-. congruence.
  - eexists _, M. split; [done|]. split; [|split; [done|by intros k b]]. constructor; cbn [cz_nodes cz_tree].
    + eapply index_strs; [|exact (co_index _ _ _ H)]. intros k x _. unfold conn_data. cbn [cz_nodes]. destruct (decide (x = a)) as [->|Hne].
      * by rewrite lookup_insert_eq, En.
      * by rewrite lookup_insert_ne.
    + intros h' s' b Hk. destruct (decide (b = a)) as [->|Hne].
      * rewrite lookup_insert_eq. assert ((h', s') = (h, s)) as [= -> ->] by (by apply (index_inj lex _ _ M _ _ a (co_index _ _ _ H))).
        split; [done|]. split; [done|]. lia.
      * rewrite lookup_insert_ne by done. by apply (Hother h').
    + intros b Hb. apply (co_held _ _ _ H). by right.
    + intros b [v Hb]. apply lookup_insert_Some in Hb as [[<- _]|[_ Hb]]; [by eexists|]. apply (co_dom _ _ _ H). by eexists.
Qed.

Lemma conn_ok_perm z M hs hs' : hs ≡ₚ hs' -> conn_ok z M hs -> conn_ok z M hs'.
Proof.
  intros HP [Hi Hn Hh Hd]. constructor; [done| | |done].
  - intros h s a. rewrite <-(holders_perm a hs hs' HP). apply Hn.
  - intros a. rewrite <-HP. apply Hh.
Qed.

#[export] Instance conn_ok_proper z M : Proper (Permutation ==> iff) (conn_ok z M).
Proof. intros hs hs' HP. split; apply conn_ok_perm; [done|by symmetry]. Qed.

Lemma init_zone_ok s : exists z, limit_conn_init_zone s = Some z /\ conn_ok z ∅ [] /\ cz_nodes z = ∅.
Proof.
  unfold limit_conn_init_zone. destruct (index_empty lex (fun _ => None) s (slab_take s (mk_rbtree 0 0 ∅))) as (t & -> & Hi & _).
  { eexists. unfold slab_take, get. cbn [rb_nodes]. apply lookup_insert_eq. }
  cbn [mbind option_bind]. eexists. split; [done|]. split; [|done]. constructor; cbn [cz_tree cz_nodes].
  - exact Hi.
  - intros h u a. by rewrite lookup_empty.
  - set_solver +.
  - intros a [v Ha]. by rewrite lookup_empty in Ha.
Qed.

(** ** Any order of the critical sections *)

(** A zone and the requests in it, with their keys and nodes: a request enters with
    a limit of at most [n], and one that is there leaves. *)
Inductive reach (n : Z) : conn_zone -> list (list Z * Z) -> Prop :=
  | reach_init s z : limit_conn_init_zone s = Some z -> reach n z []
  | reach_enter z hs key conn alloc r z' :
      reach n z hs -> slab_fresh alloc -> 0 < conn <= n ->
      limit_conn_enter key (ngx_crc32_short key) conn alloc z = Some (r, z') ->
      reach n z' (match r with Some a => (key, a) :: hs | None => hs end)
  | reach_leave z hs hs1 hs2 key a z' :
      reach n z hs -> hs = hs1 ++ (key, a) :: hs2 -> limit_conn_leave a z = Some z' -> reach n z' (hs1 ++ hs2).

Definition with_key (key : list Z) (hs : list (list Z * Z)) : Z := Z.of_nat (length (List.filter (fun h => bytes_eqb (fst h) key) hs)).

Definition zone_inv (n : Z) (z : conn_zone) (M : gmap (Z * list Z) Z) (hs : list (list Z * Z)) : Prop :=
  conn_ok z M (map snd hs) /\ Forall (fun h => M !! (ngx_crc32_short (fst h), fst h) = Some (snd h)) hs /\
  forall a, holders_of a (map snd hs) <= n.

Lemma reach_inv n z hs : 0 < n < 2 ^ 16 -> reach n z hs -> exists M, zone_inv n z M hs.
Proof.
  intros Hn. induction 1 as [s z E|z hs key conn alloc r z' H (M & Hok & Hk & Hb) Hal Hc E|z hs hs1 hs2 key a z' H (M & Hok & Hk & Hb) -> E].
  - destruct (init_zone_ok s) as (z0 & E0 & Hok & _). rewrite E in E0. injection E0 as <-. exists ∅. split; [done|]. split; [constructor|].
    intros a. unfold holders_of. cbn. lia.
  - destruct (enter_ok z M (map snd hs) key (ngx_crc32_short key) conn alloc Hok Hal ltac:(lia)) as (r' & z1 & E' & _ & Hr).
    rewrite E in E'. injection E' as <- <-. destruct r as [a|].
    + destruct Hr as (M' & Hok' & -> & Hor & Hle). eexists. split; [exact Hok'|]. split.
      * constructor; [by rewrite lookup_insert_eq|]. eapply Forall_impl; [exact Hk|]. intros [k b] Hkb. cbn [fst snd] in *.
        destruct (decide ((ngx_crc32_short key, key) = (ngx_crc32_short k, k))) as [[= _ ->]|Hne]; [|by rewrite lookup_insert_ne].
        rewrite lookup_insert_eq. destruct Hor as [Hor|Hor]; congruence.
      * intros b. cbn [map snd]. rewrite holders_cons. specialize (Hb b). rewrite holders_cons, decide_True in Hle by done.
        destruct (decide (b = a)) as [->|]; lia.
    + destruct Hr as [-> _]. exists M. by split.
  - rewrite map_app in Hok. cbn [map snd] in Hok. rewrite <-Permutation_middle in Hok.
    destruct (leave_ok z M a (map snd hs1 ++ map snd hs2) Hok) as (z1 & M' & E' & Hok' & _ & Hsub). rewrite E in E'. injection E' as <-.
    assert (Hk' : Forall (fun h => M !! (ngx_crc32_short (fst h), fst h) = Some (snd h)) (hs1 ++ hs2)).
    { rewrite Forall_app, Forall_cons in Hk. apply Forall_app. tauto. }
    exists M'. split; [by rewrite map_app|]. split.
    + rewrite Forall_forall in Hk' |- *. intros [k b] Hin. specialize (Hk' _ Hin). cbn [fst snd] in *.
      destruct (co_held _ _ _ Hok' b) as [k' Ek]; [rewrite <-map_app; by apply (list_elem_of_fmap_2 snd) in Hin|].
      by rewrite <-(index_inj lex _ _ M k' _ b (co_index _ _ _ Hok) (Hsub _ _ Ek) Hk').
    + intros b. specialize (Hb b). rewrite map_app in Hb |- *. cbn [map snd] in Hb.
      rewrite <-(holders_perm b _ _ (Permutation_middle (map snd hs1) (map snd hs2) a)), holders_cons in Hb. destruct (decide (b = a)); lia.
Qed.

(** The requests with a key are those that hold its node. *)
Lemma with_key_holders z M hs key : conn_ok z M (map snd hs) ->
  Forall (fun h => M !! (ngx_crc32_short (fst h), fst h) = Some (snd h)) hs ->
  with_key key hs = match M !! (ngx_crc32_short key, key) with Some a => holders_of a (map snd hs) | None => 0 end.
Proof.
  intros Hok. pose proof (fun k b => index_inj lex _ _ M k (ngx_crc32_short key, key) b (co_index _ _ _ Hok)) as Hinj. clear Hok. unfold with_key.
  induction 1 as [|[k b] hs Hb Hs IH]; cbn [List.filter map snd fst] in *; [by destruct (M !! _)|].
  destruct (bytes_eqb k key) eqn:E.
  - apply bytes_eqb_eq in E as ->. rewrite Hb in IH |- *. cbn [length]. rewrite holders_cons, decide_True by done. lia.
  - rewrite IH. destruct (M !! (ngx_crc32_short key, key)) as [a|] eqn:Ea; [|done]. rewrite holders_cons, decide_False; [lia|].
    intros <-. specialize (Hinj _ a Hb eq_refl) as [= _ ->]. by rewrite bytes_eqb_refl in E.
Qed.

(** C13: in whatever order the requests of all workers enter and leave a zone, with
    limits of at most [n]: no critical section reads or writes a node that has been
    freed, no key has more than [n] requests in the zone, a request with a key is
    refused only when the key has as many as its limit or there is no memory, and
    when the last request has left the zone is empty. *)
Theorem limit_conn_bound n z hs : 0 < n < 2 ^ 16 -> reach n z hs ->
  (forall key, with_key key hs <= n) /\
  (forall key conn alloc, slab_fresh alloc -> 0 < conn <= n ->
     exists r z', limit_conn_enter key (ngx_crc32_short key) conn alloc z = Some (r, z') /\
       (r = None -> z' = z /\ (conn <= with_key key hs \/ with_key key hs = 0 /\ alloc z = 0))) /\
  (forall key a, (key, a) ∈ hs -> is_Some (limit_conn_leave a z)) /\
  (hs = [] -> cz_nodes z = ∅).
Proof.
  intros Hn H. destruct (reach_inv n z hs Hn H) as (M & Hok & Hk & Hb).
  pose proof (fun key => with_key_holders z M hs key Hok Hk) as Hw. split; [|split; [|split]].
  - intros key. rewrite Hw. destruct (M !! _); [apply Hb|lia].
  - intros key conn alloc Hal Hc. destruct (enter_ok z M (map snd hs) key (ngx_crc32_short key) conn alloc Hok Hal ltac:(lia)) as (r & z' & -> & _ & Hr).
    exists r, z'. split; [done|]. intros ->. rewrite Hw. destruct Hr as [-> Hr]. split; [done|].
    destruct (M !! _); [by left|by right].
  - intros key a Hin. apply (list_elem_of_fmap_2 snd) in Hin. cbn [snd] in Hin. apply list_elem_of_split in Hin as (l1 & l2 & Hp).
    assert (Hok' : conn_ok z M (a :: l1 ++ l2)) by (by rewrite Permutation_middle, <-Hp).
    destruct (leave_ok z M a (l1 ++ l2) Hok') as (z' & _ & -> & _). by eexists.
  - intros ->. apply map_eq. intros a. rewrite lookup_empty. destruct (cz_nodes z !! a) as [v|] eqn:E; [|done].
    destruct (co_dom _ _ _ Hok a) as [[h s] Ek]; [by eexists|]. destruct (co_node _ _ _ Hok h s a Ek) as (_ & _ & H0 & _). change (0 < 0) in H0. lia.
Qed.

(** ** The handler *)

(** The nodes of a zone that the cleanups hold. *)
Definition held (i : Z) (cl : list cleanup) : list Z :=
  omap (fun c => if c is ConnCleanup j a then if i =? j then Some a else None else None) cl.

(** All zones, with the cleanups of all requests. *)
Definition zones_ok (zones : gmap Z conn_zone) (cl : list cleanup) : Prop :=
  (forall i z, zones !! i = Some z -> exists M, conn_ok z M (held i cl)) /\
  forall i a, ConnCleanup i a ∈ cl -> is_Some (zones !! i).

Definition is_conn (c : cleanup) : bool := if c is ConnCleanup _ _ then true else false.

(** No cleanup of this module at the head. *)
Definition foreign_head (cl : list cleanup) : Prop := match cl with c :: _ => is_conn c = false | [] => True end.

Lemma held_ne i j a cl : i <> j -> held i (ConnCleanup j a :: cl) = held i cl.
Proof. intros H. unfold held. cbn. by rewrite (proj2 (Z.eqb_neq i j)). Qed.

Lemma held_eq i a cl : held i (ConnCleanup i a :: cl) = a :: held i cl.
Proof. unfold held. cbn. by rewrite Z.eqb_refl. Qed.

Lemma cleanup_ok zones i a cl : zones_ok zones (ConnCleanup i a :: cl) ->
  exists zones', ngx_http_limit_conn_cleanup i a zones = Some zones' /\ zones_ok zones' cl /\ dom zones' = dom zones.
Proof.
  intros [H1 H2]. destruct (H2 i a) as [z Hz]; [by left|]. unfold ngx_http_limit_conn_cleanup. rewrite Hz. cbn [mbind option_bind].
  destruct (H1 i z Hz) as (M & Hok). rewrite held_eq in Hok. destruct (leave_ok z M a _ Hok) as (z' & M' & -> & Hok' & _).
  cbn [mbind option_bind]. eexists. split; [done|]. split; [split|].
  - intros j y Hy. destruct (decide (i = j)) as [<-|Hne].
    + rewrite lookup_insert_eq in Hy. injection Hy as <-. by exists M'.
    + rewrite lookup_insert_ne in Hy by done. destruct (H1 j y Hy) as (My & Hoky). rewrite held_ne in Hoky by done. by exists My.
  - intros j b Hb. apply lookup_insert_is_Some'. right. apply (H2 j b). by right.
  - rewrite dom_insert_L. apply elem_of_dom_2 in Hz. set_solver + Hz.
Qed.

Lemma cleanup_all_ok cln others : forall zones, zones_ok zones (cln ++ others) ->
  exists taken cln' zones', ngx_http_limit_conn_cleanup_all cln zones = Some (cln', zones') /\ zones_ok zones' (cln' ++ others) /\
    cln = taken ++ cln' /\ Forall is_conn taken /\ foreign_head cln' /\ dom zones' = dom zones.
Proof.
  induction cln as [|[i a|] cln IH]; intros zones H; cbn [ngx_http_limit_conn_cleanup_all].
  - by exists [], [], zones.
  - cbn [app] in H. destruct (cleanup_ok zones i a _ H) as (zones1 & -> & H1 & Hd). cbn [mbind option_bind].
    destruct (IH zones1 H1) as (taken & cln' & zones' & -> & H2 & -> & H3 & H4 & Hd2).
    exists (ConnCleanup i a :: taken), cln', zones'. split; [done|]. split; [done|]. split; [done|]. split; [by constructor|]. split; [done|congruence].
  - by exists [], (OtherCleanup :: cln), zones.
Qed.

(** The limits of a location, each with its zone and an answer for each allocation. *)
Definition limits_ok (zones : gmap Z conn_zone) (limits : list conn_limit) : Prop :=
  Forall (fun l => li_zone l ∈ dom zones /\ 0 < li_conn l < 2 ^ 16 /\ slab_fresh (li_alloc l) /\ li_cleanup l = true) limits.

Lemma zones_enter zones cl i z z' M' a : zones_ok zones cl -> zones !! i = Some z -> conn_ok z' M' (a :: held i cl) ->
  zones_ok (<[i := z']> zones) (ConnCleanup i a :: cl).
Proof.
  intros [H1 H2] Hz Hok. split.
  - intros j y Hy. destruct (decide (i = j)) as [<-|Hne].
    + rewrite lookup_insert_eq in Hy. injection Hy as <-. rewrite held_eq. by exists M'.
    + rewrite lookup_insert_ne in Hy by done. rewrite held_ne by done. by apply H1.
  - intros j b [[= -> ->]|Hb]%elem_of_cons; apply lookup_insert_is_Some'; [by left|right; by eapply H2].
Qed.

(** The zones in which a request with these limits takes a place. *)
Definition counted (l : conn_limit) : bool :=
  match li_key l with Some key => negb (length key =? 0)%nat && negb (255 <? Z.of_nat (length key)) | None => false end.

Definition taken_in (taken : list cleanup) (limits : list conn_limit) : Prop :=
  map (fun c => if c is ConnCleanup i _ then i else 0) (rev taken) = map li_zone (List.filter counted limits) /\ Forall is_conn taken.

Lemma limits_spec status limits others : forall st, zones_ok (cs_zones st) (cs_cleanup st ++ others) -> limits_ok (cs_zones st) limits ->
  exists rc st', limit_conn_limits status limits st = Some (rc, st') /\ zones_ok (cs_zones st') (cs_cleanup st' ++ others) /\
    ((exists before after taken, limits = before ++ after /\ cs_cleanup st' = taken ++ cs_cleanup st /\ taken_in taken before /\
        match after with [] => rc = NGX_DECLINED | l :: _ => rc = NGX_HTTP_INTERNAL_SERVER_ERROR /\ li_key l = None end) \/
     rc = status /\ exists taken, cs_cleanup st = taken ++ cs_cleanup st' /\ Forall is_conn taken /\ foreign_head (cs_cleanup st')).
Proof.
  induction limits as [|l limits IH]; intros st H Hl; cbn [limit_conn_limits].
  { exists NGX_DECLINED, st. split; [done|]. split; [done|]. left. by exists [], [], []. }
  apply Forall_cons in Hl as [(Hz & Hc & Hal & Hcl) Hl]. apply elem_of_dom in Hz as [z Hz]. rewrite Hz. cbn [mbind option_bind].
  destruct (li_key l) as [key|] eqn:Ek.
  2: { exists NGX_HTTP_INTERNAL_SERVER_ERROR, st. split; [done|]. split; [done|]. left. by exists [], (l :: limits), []. }
  assert (Hskip : counted l = false -> exists rc st', limit_conn_limits status limits st = Some (rc, st') /\ zones_ok (cs_zones st') (cs_cleanup st' ++ others) /\
    ((exists before after taken, l :: limits = before ++ after /\ cs_cleanup st' = taken ++ cs_cleanup st /\ taken_in taken before /\
        match after with [] => rc = NGX_DECLINED | l :: _ => rc = NGX_HTTP_INTERNAL_SERVER_ERROR /\ li_key l = None end) \/
     rc = status /\ exists taken, cs_cleanup st = taken ++ cs_cleanup st' /\ Forall is_conn taken /\ foreign_head (cs_cleanup st'))).
  { intros Hno. destruct (IH st H Hl) as (rc & st' & E & H' & Hr). exists rc, st'. split; [exact E|]. split; [exact H'|].
    destruct Hr as [(b & af & taken & -> & E2 & [E3 E4] & E5)|Hr]; [left|by right]. exists (l :: b), af, taken. split; [done|]. split; [done|].
    split; [|done]. split; [|done]. cbn [List.filter]. by rewrite Hno. }
  unfold counted in Hskip. rewrite Ek in Hskip. destruct (length key =? 0)%nat eqn:E0; [by apply Hskip|].
  destruct (255 <? Z.of_nat (length key)) eqn:E1; [by apply Hskip|]. clear Hskip.
  destruct (proj1 H (li_zone l) z Hz) as (M & Hok).
  destruct (enter_ok z M _ key (ngx_crc32_short key) (li_conn l) (li_alloc l) Hok Hal Hc) as (r & z' & -> & _ & Hr). cbn [mbind option_bind].
  destruct r as [a|].
  - destruct Hr as (M' & Hok' & _). rewrite Hcl. cbn [negb].
    pose proof (zones_enter _ _ (li_zone l) z z' M' a H Hz Hok') as H1.
    destruct (IH (mk_conn_state (<[li_zone l := z']> (cs_zones st)) true (ConnCleanup (li_zone l) a :: cs_cleanup st)) H1) as (rc & st' & E & H' & Hr').
    { eapply Forall_impl; [exact Hl|]. intros l' (Hz' & Hrest). split; [|done]. cbn [cs_zones]. rewrite dom_insert_L. set_solver + Hz'. }
    exists rc, st'. split; [exact E|]. split; [exact H'|]. cbn [cs_cleanup] in Hr'. destruct Hr' as [(b & af & taken & -> & E2 & [E3 E4] & E5)|(-> & taken & E2 & E3 & E4)].
    + left. exists (l :: b), af, (taken ++ [ConnCleanup (li_zone l) a]). split; [done|]. split; [by rewrite <-app_assoc|]. split; [|done]. split.
      * rewrite rev_app_distr. cbn [rev app map List.filter]. unfold counted at 1. rewrite Ek, E0, E1. cbn [negb andb map]. by rewrite E3.
      * apply Forall_app. split; [done|]. by repeat constructor.
    + right. split; [done|]. destruct taken as [|c taken]; cbn [app] in E2.
      * rewrite <-E2 in E4. by cbn in E4.
      * injection E2 as _ E2. apply Forall_cons in E3 as [_ E3]. by exists taken.
  - destruct Hr as [-> _]. rewrite insert_id by done.
    destruct (cleanup_all_ok (cs_cleanup st) others (cs_zones st) H) as (taken & cln' & zones' & -> & H1 & H2 & H3 & H4 & _). cbn [mbind option_bind].
    exists status, (mk_conn_state zones' true cln'). split; [done|]. split; [exact H1|]. right. split; [done|]. by exists taken.
Qed.

(** What a request holds: a handler that declines has taken a place for each
    limit whose key has 1 to 255 bytes, each with its cleanup; one that refuses the
    request has given all of its places back; an error of a key leaves the places
    taken before to the cleanups. The counts of all zones remain those of the
    cleanups of all requests, when [ngx_pool_cleanup_add] does not fail. *)
Theorem limit_conn_handler_spec status limits st others :
  cs_set st = false -> foreign_head (cs_cleanup st) ->
  zones_ok (cs_zones st) (cs_cleanup st ++ others) -> limits_ok (cs_zones st) limits ->
  exists rc st', ngx_http_limit_conn_handler status limits st = Some (rc, st') /\ zones_ok (cs_zones st') (cs_cleanup st' ++ others) /\
    ((exists before after taken, limits = before ++ after /\ cs_cleanup st' = taken ++ cs_cleanup st /\ taken_in taken before /\
        match after with [] => rc = NGX_DECLINED | l :: _ => rc = NGX_HTTP_INTERNAL_SERVER_ERROR /\ li_key l = None end) \/
     rc = status /\ cs_cleanup st' = cs_cleanup st).
Proof.
  intros Hset Hf H Hl. unfold ngx_http_limit_conn_handler. rewrite Hset.
  destruct (limits_spec status limits others st H Hl) as (rc & st' & E & H' & [Hr|(-> & taken & E2 & E3 & _)]).
  - exists rc, st'. split; [exact E|]. split; [exact H'|]. by left.
  - exists status, st'. split; [exact E|]. split; [exact H'|]. right. split; [done|].
    destruct taken as [|c taken]; [done|]. rewrite E2 in Hf. apply Forall_cons in E3 as [Hc _]. cbn [app foreign_head] in Hf.
    by destruct (is_conn c).
Qed.

(** ** Examples *)

Lemma next_alloc_fresh : slab_fresh next_alloc.
Proof.
  intros z _. unfold next_alloc. pose proof (is_fresh ({[0; rb_sentinel (cz_tree z)]} ∪ dom (cz_nodes z) : gset Z)) as H.
  split; [set_solver + H|]. apply not_elem_of_dom. set_solver + H.
Qed.

(** Requests with these keys, one after another. *)
Fixpoint enter_all (conn : Z) (keys : list (list Z)) (s : conn_zone * list (list Z * Z)) : option (conn_zone * list (list Z * Z)) :=
  match keys with
  | [] => Some s
  | key :: keys' =>
      '(r, z) ← limit_conn_enter key (ngx_crc32_short key) conn next_alloc (fst s);
      enter_all conn keys' (z, match r with Some a => (key, a) :: snd s | None => snd s end)
  end.

Lemma enter_all_reach n conn keys : 0 < conn <= n -> forall s s', reach n (fst s) (snd s) -> enter_all conn keys s = Some s' -> reach n (fst s') (snd s').
Proof.
  intros Hc. induction keys as [|key keys IH]; intros s s' H; cbn [enter_all]; [by intros [= <-]|].
  destruct (limit_conn_enter _ _ _ _ _) as [[r z]|] eqn:E; [|done]. cbn [mbind option_bind]. apply IH.
  exact (reach_enter n _ _ key conn next_alloc r z H next_alloc_fresh Hc E).
Qed.

Definition sample_zone : option (conn_zone * list (list Z * Z)) :=
  z ← limit_conn_init_zone 1; enter_all 2 [bytes "a"; bytes "b"; bytes "a"; bytes "a"] (z, []).

Lemma sample_reach : match sample_zone with Some s => reach 2 (fst s) (snd s) | None => False end.
Proof.
  unfold sample_zone. destruct (limit_conn_init_zone 1) as [z|] eqn:E; [|by vm_compute in E]. cbn [mbind option_bind].
  destruct (enter_all 2 _ (z, [])) as [s|] eqn:E2.
  - eapply (enter_all_reach 2 2); [lia| |exact E2]. exact (reach_init 2 1 z E).
  - vm_compute in E. injection E as <-. by vm_compute in E2.
Qed.

Lemma limit_conn_bound_witness : exists z hs, sample_zone = Some (z, hs) /\ with_key (bytes "a") hs = 2 /\ with_key (bytes "a") hs <= 2 /\
  cz_nodes z <> ∅ /\ is_Some (limit_conn_leave (snd (hd ([], 0) hs)) z).
Proof.
  pose proof sample_reach as H. destruct sample_zone as [[z hs]|] eqn:E; [|destruct H]. cbn [fst snd] in H. exists z, hs. split; [reflexivity|].
  destruct (limit_conn_bound 2 z hs ltac:(lia) H) as (Hb & _ & Hl & _).
  vm_compute in E. injection E as <- <-. split; [reflexivity|]. split; [exact (Hb (bytes "a"))|]. split; [discriminate|].
  eapply Hl. left.
Defined.

Lemma limit_conn_handler_spec_witness : exists z rc st',
  limit_conn_init_zone 1 = Some z /\
  ngx_http_limit_conn_handler 503 [sample_limit 7 2 "10.0.0.1"] (mk_conn_state {[ 7 := z ]} false [OtherCleanup]) = Some (rc, st') /\
  zones_ok (cs_zones st') (cs_cleanup st' ++ []).
Proof.
  destruct (init_zone_ok 1) as (z & E & Hok & _). exists z.
  destruct (limit_conn_handler_spec 503 [sample_limit 7 2 "10.0.0.1"] (mk_conn_state {[ 7 := z ]} false [OtherCleanup]) []) as (rc & st' & E' & H' & _).
  - reflexivity.
  - reflexivity.
  - split.
    + intros i y Hy. cbn [cs_zones] in Hy. apply lookup_singleton_Some in Hy as [<- <-]. by exists ∅.
    + intros i a. cbn. set_solver +.
  - apply Forall_cons. split; [|constructor]. split; [cbn; set_solver +|]. split; [cbn; lia|]. split; [exact next_alloc_fresh|reflexivity].
  - exists rc, st'. split; [exact E|]. split; [exact E'|exact H'].
Defined.
