(* ===== verification/LimitReq.v ===== *)
(** * Limits of the rate of requests

    src/http/modules/ngx_http_limit_req_module.c: for each value of a key a zone of
    shared memory has a leaky bucket, the excess over the rate in thousandths of a
    request; a request goes through the buckets of all zones, and the last one
    counts it.

    A zone is a red-black tree of strings, the queue of its nodes with the last used
    one at the head, and what the nodes hold.  The time in milliseconds, the answers
    of [ngx_slab_alloc_locked] and the value of the key are arguments of a call. *)

From stdpp Require Import gmap.
From S2P Require Import Prelude Fsm Strings Crc32 Queue Rbtree StrTree LimitConn.

(** ** Zones *)

(** [ngx_http_limit_req_node_t]: the color is in the node of the tree, the links in
    the queue, [len] is the length of the data. *)
Record req_node : Type := mk_req_node { lr_last : Z; lr_excess : Z; lr_count : Z; lr_data : list Z }.

(** [ngx_http_limit_req_shctx_t], with the address of [sh->queue]. *)
Record req_zone : Type := mk_req_zone { rz_tree : rbtree; rz_head : Z; rz_queue : queue_heap; rz_nodes : gmap Z req_node }.

Definition set_req_node (a : Z) (lr : req_node) (z : req_zone) : req_zone :=
  mk_req_zone (rz_tree z) (rz_head z) (rz_queue z) (<[a := lr]> (rz_nodes z)).

Definition set_req_queue (q : queue_heap) (z : req_zone) : req_zone := mk_req_zone (rz_tree z) (rz_head z) q (rz_nodes z).

Definition req_data (z : req_zone) (a : Z) : option (list Z) := lr_data <$> rz_nodes z !! a.

(** [ms = (ngx_msec_int_t) (now - lr->last)], then [ngx_abs(ms)] *)
Definition elapsed (now : Z) (lr : req_node) : Z := Z.abs (i64 (u64 (now - lr_last lr))).

(** [ctx->rate * ms / 1000] *)
Definition leak (rate ms : Z) : Z := u64 (rate * ms) / 1000.

(** [lr->excess - ctx->rate * ngx_abs(ms) / 1000 + 1000], not below 0 *)
Definition next_excess (rate now : Z) (lr : req_node) : Z :=
  let excess := i64 (u64 (lr_excess lr - leak rate (elapsed now lr) + 1000)) in
  if excess <? 0 then 0 else excess.

Section Zone.
(** [ctx->rate] *)
Variable rate : Z.

(** The loop of [ngx_http_limit_req_expire], from [n] up to 3. *)
Fixpoint expire_loop (turns : nat) (now : Z) (n : Z) (z : req_zone) : option req_zone :=
  match turns with
  | O => Some z
  | S turns' =>
      empty ← ngx_queue_empty (rz_head z) (rz_queue z);
      if empty : bool then Some z
      else
        q ← ngx_queue_last (rz_head z) (rz_queue z);
        lr ← rz_nodes z !! q;
        if negb (lr_count lr =? 0) then Some z
        else if negb (n =? 0) && (elapsed now lr <? 60000) then Some z
        else if negb (n =? 0) && (0 <? i64 (u64 (lr_excess lr - leak rate (elapsed now lr)))) then Some z
        else
          h ← ngx_queue_remove q (rz_queue z);
          t ← ngx_rbtree_delete q (rz_tree z);
          expire_loop turns' now (n + 1) (mk_req_zone (slab_free q t) (rz_head z) h (delete q (rz_nodes z)))
  end.

Definition ngx_http_limit_req_expire (now n : Z) (z : req_zone) : option req_zone := expire_loop (Z.to_nat (3 - n)) now n z.

(** [ngx_http_limit_req_rbtree_insert_value]: the same code as the callback of
    limit_conn. *)
Definition ngx_http_limit_req_rbtree_insert_value : (Z -> option (list Z)) -> Z -> Z -> rbtree -> option rbtree :=
  ngx_http_limit_conn_rbtree_insert_value.

(** A node for a key that has none. *)
Definition limit_req_new (node hash : Z) (key : list Z) (lr : req_node) (z : req_zone) : option req_zone :=
  t ← put node (set_key hash) (slab_take node (rz_tree z));
  let nodes := <[node := lr]> (rz_nodes z) in
  t ← ngx_rbtree_insert (ngx_http_limit_req_rbtree_insert_value (fun a => lr_data <$> nodes !! a)) node t;
  q ← ngx_queue_insert_head (rz_head z) node (rz_queue z);
  Some (mk_req_zone t (rz_head z) q nodes).

(** The answers of the allocator before and after an entry is removed by force. *)
Record slab_answers : Type := mk_slab_answers { sa_first : req_zone -> Z; sa_second : req_zone -> Z }.

(** The result, the excess, the zone and [ctx->node] if it is set. *)
Definition ngx_http_limit_req_lookup (burst now hash : Z) (key : list Z) (account : bool) (slab : slab_answers) (z : req_zone) :
    option (Z * Z * option Z * req_zone) :=
  node ← lookup_loop (S (rb_fuel (rz_tree z))) (zone_order (req_data z) hash key) (rb_root (rz_tree z)) (rz_tree z);
  if negb (node =? 0) then
    q ← ngx_queue_remove node (rz_queue z);
    q ← ngx_queue_insert_head (rz_head z) node q;
    let z := set_req_queue q z in
    lr ← rz_nodes z !! node;
    let excess := next_excess rate now lr in
    if burst <? excess then Some (NGX_BUSY, excess, None, z)
    else if account then
      Some (NGX_OK, excess, None, set_req_node node (mk_req_node now excess (lr_count lr) (lr_data lr)) z)
    else
      Some (NGX_AGAIN, excess, Some node, set_req_node node (mk_req_node (lr_last lr) (lr_excess lr) (u64 (lr_count lr + 1)) (lr_data lr)) z)
  else
    z ← ngx_http_limit_req_expire now 1 z;
    let node := sa_first slab z in
    '(node, z) ← (if node =? 0 then z ← ngx_http_limit_req_expire now 0 z; Some (sa_second slab z, z) else Some (node, z));
    if node =? 0 then Some (NGX_ERROR, 0, None, z)
    else if account then
      z ← limit_req_new node hash key (mk_req_node now 0 0 key) z; Some (NGX_OK, 0, None, z)
    else
      z ← limit_req_new node hash key (mk_req_node 0 0 1 key) z; Some (NGX_AGAIN, 0, Some node, z).

(** The critical section of [ngx_http_limit_req_account]: the new excess. *)
Definition account_node (now node : Z) (z : req_zone) : option (Z * req_zone) :=
  lr ← rz_nodes z !! node;
  let excess := next_excess rate now lr in
  Some (excess, set_req_node node (mk_req_node now excess (u64 (lr_count lr - 1)) (lr_data lr)) z).

(** The critical section for a request that is refused by a later limit. *)
Definition release_node (node : Z) (z : req_zone) : option req_zone :=
  lr ← rz_nodes z !! node;
  Some (set_req_node node (mk_req_node (lr_last lr) (lr_excess lr) (u64 (lr_count lr - 1)) (lr_data lr)) z).

End Zone.

(** [ngx_http_limit_req_init_zone] of a new zone. *)
Definition limit_req_init_zone (sentinel head : Z) : option req_zone :=
  t ← ngx_rbtree_init sentinel (slab_take sentinel (mk_rbtree 0 0 ∅));
  Some (mk_req_zone t head (ngx_queue_init head (mk_queue_heap ∅ ∅)) ∅).

(** ** Requests *)

(** [ngx_http_limit_req_ctx_t]: the zone is shared, [ctx->node] belongs to the
    worker. *)
Record req_ctx : Type := mk_req_ctx { cx_rate : Z; cx_node : Z; cx_zone : req_zone }.

(** [ngx_http_limit_req_limit_t], with the value of the key ([None]: an error). *)
Record req_limit : Type := mk_req_limit { rl_zone : Z; rl_burst : Z; rl_nodelay : bool; rl_key : option (list Z); rl_slab : slab_answers }.

(** The loop over the limits: the last result, the number of limits before the one
    that ended the loop, the excess and that limit; [None] inside is an error of a
    key. *)
Fixpoint limit_req_loop (now : Z) (limits : list req_limit) (n : nat) (rc excess : Z) (limit : option req_limit) (ctxs : gmap Z req_ctx) :
    option (option (Z * nat * Z * option req_limit) * gmap Z req_ctx) :=
  match limits with
  | [] => Some (Some (rc, n, excess, limit), ctxs)
  | l :: limits' =>
      ctx ← ctxs !! rl_zone l;
      match rl_key l with
      | None => Some (None, ctxs)
      | Some key =>
          if (length key =? 0)%nat then limit_req_loop now limits' (S n) rc excess (Some l) ctxs
          else if 65535 <? Z.of_nat (length key) then limit_req_loop now limits' (S n) rc excess (Some l) ctxs
          else
            '(rc, excess, node, z) ← ngx_http_limit_req_lookup (cx_rate ctx) (rl_burst l) now (ngx_crc32_short key) key
                                       (match limits' with [] => true | _ => false end) (rl_slab l) (cx_zone ctx);
            let ctxs := <[rl_zone l := mk_req_ctx (cx_rate ctx) (default (cx_node ctx) node) z]> ctxs in
            if negb (rc =? NGX_AGAIN) then Some (Some (rc, n, excess, Some l), ctxs)
            else limit_req_loop now limits' (S n) rc excess (Some l) ctxs
      end
  end.

(** The limits before the one that refused, the last first. *)
Fixpoint release_limits (limits : list req_limit) (ctxs : gmap Z req_ctx) : option (gmap Z req_ctx) :=
  match limits with
  | [] => Some ctxs
  | l :: limits' =>
      ctx ← ctxs !! rl_zone l;
      if cx_node ctx =? 0 then release_limits limits' ctxs
      else
        z ← release_node (cx_node ctx) (cx_zone ctx);
        release_limits limits' (<[rl_zone l := mk_req_ctx (cx_rate ctx) 0 z]> ctxs)
  end.

(** The loop of [ngx_http_limit_req_account], with [max_delay]. *)
Fixpoint account_limits (now : Z) (limits : list req_limit) (max_delay : Z) (ctxs : gmap Z req_ctx) : option (Z * gmap Z req_ctx) :=
  match limits with
  | [] => Some (max_delay, ctxs)
  | l :: limits' =>
      ctx ← ctxs !! rl_zone l;
      if cx_node ctx =? 0 then account_limits now limits' max_delay ctxs
      else
        '(excess, z) ← account_node (cx_rate ctx) now (cx_node ctx) (cx_zone ctx);
        let ctxs := <[rl_zone l := mk_req_ctx (cx_rate ctx) 0 z]> ctxs in
        if rl_nodelay l then account_limits now limits' max_delay ctxs
        else account_limits now limits' (Z.max max_delay (u64 (excess * 1000) / cx_rate ctx)) ctxs
  end.

Definition ngx_http_limit_req_account (now : Z) (limits : list req_limit) (n : nat) (excess : Z) (limit : option req_limit)
    (ctxs : gmap Z req_ctx) : option (Z * gmap Z req_ctx) :=
  max_delay ← (if excess =? 0 then Some 0
               else l ← limit; if rl_nodelay l then Some 0 else ctx ← ctxs !! rl_zone l; Some (u64 (excess * 1000) / cx_rate ctx));
  account_limits now (rev (take n limits)) max_delay ctxs.

(** The answer and the delay, [r->main->limit_req_set], the zones; [status_code] is
    [lrcf->status_code], [read] the answer of [ngx_handle_read_event]. *)
Definition ngx_http_limit_req_handler (status_code now : Z) (read : bool) (limits : list req_limit) (set : bool) (ctxs : gmap Z req_ctx) :
    option (Z * Z * bool * gmap Z req_ctx) :=
  if set then Some (NGX_DECLINED, 0, true, ctxs)
  else
    '(r, ctxs) ← limit_req_loop now limits 0 NGX_DECLINED 0 None ctxs;
    match r with
    | None => Some (NGX_HTTP_INTERNAL_SERVER_ERROR, 0, false, ctxs)
    | Some (rc, n, excess, limit) =>
        if rc =? NGX_DECLINED then Some (NGX_DECLINED, 0, false, ctxs)
        else if (rc =? NGX_BUSY) || (rc =? NGX_ERROR) then
          ctxs ← release_limits (rev (take n limits)) ctxs;
          Some (status_code, 0, true, ctxs)
        else
          let excess := if rc =? NGX_AGAIN then 0 else excess in
          '(delay, ctxs) ← ngx_http_limit_req_account now limits n excess limit ctxs;
          if delay =? 0 then Some (NGX_DECLINED, 0, true, ctxs)
          else if negb read then Some (NGX_HTTP_INTERNAL_SERVER_ERROR, 0, true, ctxs)
          else Some (NGX_AGAIN, delay, true, ctxs)
    end.

(** ** Examples *)

Definition next_slab (z : req_zone) : Z := fresh ({[0; rb_sentinel (rz_tree z); rz_head z]} ∪ dom (rz_nodes z) : gset Z).

Definition sample_slab : slab_answers := mk_slab_answers next_slab next_slab.

Definition req_of (key : string) : req_limit := mk_req_limit 7 2000 false (Some (bytes key)) sample_slab.

Fixpoint req_run (reqs : list (Z * req_limit)) (ctxs : gmap Z req_ctx) : option (list (Z * Z) * gmap Z req_ctx) :=
  match reqs with
  | [] => Some ([], ctxs)
  | (now, l) :: reqs' =>
      '(rc, delay, _, ctxs) ← ngx_http_limit_req_handler 503 now true [l] false ctxs;
      '(rs, ctxs) ← req_run reqs' ctxs; Some ((rc, delay) :: rs, ctxs)
  end.

(** One request per second, a burst of two: the third request at once waits two
    seconds, the fourth is refused. *)
Example limit_req_sample :
  (z ← limit_req_init_zone 1 2;
   '(rs, _) ← req_run (map (fun x => (fst x, req_of (snd x)))
     [(1000, "a"); (1000, "b"); (1000, "a"); (1000, "a"); (1000, "a"); (1500, "a"); (2000, "a"); (200000, "a")]%string) {[ 7 := mk_req_ctx 1000 0 z ]};
   Some rs) =
  Some [(NGX_DECLINED, 0); (NGX_DECLINED, 0); (NGX_AGAIN, 1000); (NGX_AGAIN, 2000); (503, 0); (503, 0); (NGX_AGAIN, 2000); (NGX_DECLINED, 0)].
Proof. vm_compute. reflexivity. Qed.

(** When the key of a later limit cannot be evaluated, the request is never given up
    in the zones it has gone through: its node keeps its count, and when it is the
    last one nothing is removed from the queue any more. *)
Definition leak_limits : list req_limit := [mk_req_limit 7 2000 false (Some (bytes "a")) sample_slab; mk_req_limit 8 2000 false None sample_slab].

Example limit_req_leak :
  (z ← limit_req_init_zone 1 2;
   '(rc, _, _, ctxs) ← ngx_http_limit_req_handler 503 1000 true leak_limits false {[ 7 := mk_req_ctx 1000 0 z; 8 := mk_req_ctx 1000 0 z ]};
   '(_, ctxs) ← req_run [(600000, req_of "b"); (1200000, req_of "c"); (1800000, req_of "d")] ctxs;
   ctx ← ctxs !! 7; Some (rc, map (fun p => (lr_data (snd p), lr_count (snd p))) (map_to_list (rz_nodes (cx_zone ctx))))) =
  Some (NGX_HTTP_INTERNAL_SERVER_ERROR, [(bytes "c", 0); (bytes "a", 1); (bytes "d", 0); (bytes "b", 0)]).
Proof. vm_compute. reflexivity. Qed.
