(* ===== verification/LimitReqSpec.v ===== *)
(** * Limits of the rate of requests: the list

    A zone is the list of its nodes, the last used first: [req_rep].  Each critical
    section does to the list what it says, so no node is freed while a request that
    has still to be counted points to it. *)

From stdpp Require Import gmap.
From S2P Require Import Prelude Fsm Strings Crc32 Queue Rbtree RbtreeSpec StrTree LimitConn LimitConnSpec LimitReq.

Notation req_list := (list (Z * req_node)) (only parsing).

Record req_rep (z : req_zone) (M : gmap (Z * list Z) Z) (l : req_list) : Prop := mk_req_rep {
  rr_index : is_index lex (req_data z) (rz_tree z) M;
  rr_map h s a : M !! (h, s) = Some a <-> h = ngx_crc32_short s /\ exists lr, (a, lr) ∈ l /\ lr_data lr = s;
  rr_nodes a lr : rz_nodes z !! a = Some lr <-> (a, lr) ∈ l;
  rr_ring : ring (rz_queue z) (rz_head z) (map fst l);
  rr_null : 0 ∉ map fst l
}.

(** What the allocator returns is not in use. *)
Definition slab_unused (alloc : req_zone -> Z) : Prop :=
  forall z, alloc z <> 0 -> alloc z <> rb_sentinel (rz_tree z) /\ alloc z <> rz_head z /\ rz_nodes z !! alloc z = None.

(** ** The list *)

Definition find_key (key : list Z) (l : req_list) : option (Z * req_node) := List.find (fun e => bytes_eqb (lr_data (snd e)) key) l.

Definition remove_addr (a : Z) (l : req_list) : req_list := List.filter (fun e => negb (fst e =? a)) l.

Lemma find_key_Some key l a lr : find_key key l = Some (a, lr) -> (a, lr) ∈ l /\ lr_data lr = key.
Proof. intros H. apply List.find_some in H as [H1 H2]. split; [by apply list_elem_of_In|]. by apply bytes_eqb_eq. Qed.

Lemma find_key_None key l a lr : find_key key l = None -> (a, lr) ∈ l -> lr_data lr <> key.
Proof.
  intros H Hin <-. apply list_elem_of_In in Hin. pose proof (List.find_none _ _ H _ Hin) as E. cbn [snd] in E. by rewrite bytes_eqb_refl in E.
Qed.

Lemma remove_addr_split (l1 l2 : req_list) a lr : NoDup (map fst (l1 ++ (a, lr) :: l2)) -> remove_addr a (l1 ++ (a, lr) :: l2) = l1 ++ l2.
Proof.
  rewrite map_app. cbn [map fst]. intros (_ & Hd & (Ha & _)%NoDup_cons)%NoDup_app. unfold remove_addr.
  rewrite List.filter_app. cbn [List.filter fst]. rewrite Z.eqb_refl. cbn [negb].
  assert (Hid : forall es : req_list, a ∉ map fst es -> List.filter (fun e => negb (fst e =? a)) es = es).
  { induction es as [|x es IH]; [done|]. cbn [map List.filter]. intros Hx. rewrite (proj2 (Z.eqb_neq _ _)) by set_solver.
    cbn [negb]. by rewrite IH by set_solver. }
  rewrite !Hid; [done|done|]. intros Hin. by apply (Hd a Hin), elem_of_cons; left.
Qed.

Section Rep.
Context {z : req_zone} {M : gmap (Z * list Z) Z} {l : req_list} (R : req_rep z M l).

Lemma rep_nodup_addrs : NoDup (map fst l).
Proof. pose proof (proj1 (rr_ring _ _ _ R)) as H. by apply NoDup_cons in H as [_ H]. Qed.

Lemma rep_index_key a lr : (a, lr) ∈ l -> M !! (ngx_crc32_short (lr_data lr), lr_data lr) = Some a.
Proof. intros H. apply (rr_map _ _ _ R). split; [done|]. by exists lr. Qed.

Lemma rep_unique a lr lr' : (a, lr) ∈ l -> (a, lr') ∈ l -> lr = lr'.
Proof. intros H1 H2. apply (rr_nodes _ _ _ R) in H1, H2. congruence. Qed.

Lemma rep_find key : M !! (ngx_crc32_short key, key) = fst <$> find_key key l.
Proof.
  destruct (find_key key l) as [[a lr]|] eqn:E.
  - apply find_key_Some in E as [H <-]. cbn. by apply rep_index_key.
  - destruct (M !! _) as [a|] eqn:Ea; [|done]. apply (rr_map _ _ _ R) in Ea as (_ & lr & Hin & Hd). by apply (find_key_None _ _ _ _ E) in Hin.
Qed.

Lemma rep_lookup key :
  lookup_loop (S (rb_fuel (rz_tree z))) (zone_order (req_data z) (ngx_crc32_short key) key) (rb_root (rz_tree z)) (rz_tree z) =
  Some (default 0 (fst <$> find_key key l)).
Proof. rewrite (index_lookup lex _ _ M _ _ (rr_index _ _ _ R)). by rewrite rep_find. Qed.

Lemma rep_addr_in a : (exists k, M !! k = Some a) -> a ∈ map fst l.
Proof. intros ([h s] & H). apply (rr_map _ _ _ R) in H as (_ & lr & Hin & _). by apply (list_elem_of_fmap_2 fst) in Hin. Qed.

(** A node that is used goes to the head of the queue. *)
Lemma rep_touch a lr : (a, lr) ∈ l ->
  exists q1 q2, ngx_queue_remove a (rz_queue z) = Some q1 /\ ngx_queue_insert_head (rz_head z) a q1 = Some q2 /\
    req_rep (set_req_queue q2 z) M ((a, lr) :: remove_addr a l).
Proof.
  intros Hin. pose proof rep_nodup_addrs as Hnd. pose proof (rr_ring _ _ _ R) as Hr.
  assert (HP : l ≡ₚ (a, lr) :: remove_addr a l).
  { apply list_elem_of_split in Hin as (l1 & l2 & El). rewrite El in Hnd |- *. rewrite remove_addr_split by done. symmetry. apply Permutation_middle. }
  assert (Hsplit : exists l1 l2, l = l1 ++ (a, lr) :: l2) by by apply list_elem_of_split.
  destruct Hsplit as (l1 & l2 & El). assert (Hrm : remove_addr a l = l1 ++ l2) by (rewrite El in Hnd |- *; by apply remove_addr_split).
  assert (Hn0 := proj1 Hr). rewrite El, map_app in Hr, Hn0. cbn [map fst] in Hr, Hn0.
  destruct (ring_remove _ _ _ _ _ Hr) as (q1 & E1 & Hr1). exists q1.
  destruct (ring_insert_head q1 (rz_head z) (map fst l1 ++ map fst l2) a Hr1) as (q2 & E2 & Hr2).
  { apply NoDup_cons in Hn0 as [Hh Hn0]. apply NoDup_app in Hn0 as (_ & Hd & Hn0). apply NoDup_cons in Hn0 as [Ha _].
    intros [->|[H|H]%elem_of_app]%elem_of_cons; [set_solver + Hh| |done]. apply (Hd a H), elem_of_cons. by left. }
  exists q2. split; [done|]. split; [done|]. destruct R as [R1 R2 R3 R4 R5]. constructor; cbn [set_req_queue rz_tree rz_head rz_queue rz_nodes].
  - exact R1.
  - intros h s b. rewrite R2. split; intros [-> (lr' & Hb & Hs)]; (split; [done|]); exists lr'; (split; [|done]); [by rewrite <-HP|by rewrite HP].
  - intros b lr'. rewrite R3. by rewrite <-HP.
  - rewrite Hrm. cbn [map fst]. by rewrite map_app.
  - by rewrite <-HP.
Qed.

(** A write to a node that keeps its key. *)
Definition write_list (a : Z) (lr' : req_node) (l : req_list) : req_list := map (fun e => if fst e =? a then (a, lr') else e) l.

Lemma write_addrs a lr' (l' : req_list) : map fst (write_list a lr' l') = map fst l'.
Proof.
  unfold write_list. rewrite map_map. apply map_ext. intros [b lr]. cbn [fst]. destruct (b =? a) eqn:E; cbn [fst]; [lia|done].
Qed.

Lemma write_in a lr' (l' : req_list) b x : a ∈ map fst l' ->
  (b, x) ∈ write_list a lr' l' <-> b = a /\ x = lr' \/ b <> a /\ (b, x) ∈ l'.
Proof.
  intros Ha. unfold write_list. rewrite list_elem_of_fmap. split.
  - intros ([c y] & E & Hin). cbn [fst] in E. destruct (c =? a) eqn:Ec; injection E as -> ->; [by left|right]. split; [lia|done].
  - intros [[-> ->]|[Hne Hin]].
    + apply list_elem_of_fmap in Ha as ([c y] & -> & Hin). exists (c, y). cbn [fst]. by rewrite Z.eqb_refl.
    + exists (b, x). cbn [fst]. by rewrite (proj2 (Z.eqb_neq b a)).
Qed.

Lemma rep_write a lr lr' : (a, lr) ∈ l -> lr_data lr' = lr_data lr -> req_rep (set_req_node a lr' z) M (write_list a lr' l).
Proof.
  intros Hin Hd. assert (Ha : a ∈ map fst l) by (by apply (list_elem_of_fmap_2 fst) in Hin).
  destruct R as [R1 R2 R3 R4 R5]. constructor; cbn [set_req_node rz_tree rz_head rz_queue rz_nodes].
  - eapply index_strs; [|exact R1]. intros k b _. unfold req_data. cbn [set_req_node rz_nodes]. destruct (decide (b = a)) as [->|Hne].
    + rewrite lookup_insert_eq. apply R3 in Hin. rewrite Hin. cbn. by f_equal.
    + by rewrite lookup_insert_ne.
  - intros h s b. rewrite R2. split; intros [-> (x & Hb & Hs)]; (split; [done|]).
    + destruct (decide (b = a)) as [->|Hne].
      * exists lr'. rewrite write_in by done. split; [by left|]. rewrite Hd. apply R3 in Hb, Hin. congruence.
      * exists x. rewrite write_in by done. split; [by right|done].
    + apply write_in in Hb as [[-> ->]|[Hne Hb]]; [|by exists x|done]. exists lr. split; [done|]. by rewrite <-Hd.
  - intros b x. rewrite write_in by done. destruct (decide (b = a)) as [->|Hne].
    + rewrite lookup_insert_eq. split; [intros [= ->]; by left|]. intros [[_ ->]|[? _]]; done.
    + rewrite lookup_insert_ne by done. rewrite R3. tauto.
  - by rewrite write_addrs.
  - by rewrite write_addrs.
Qed.

(** A new node. *)
Lemma rep_new a hash key lr : find_key key l = None -> hash = ngx_crc32_short key -> lr_data lr = key ->
  a <> 0 -> a <> rb_sentinel (rz_tree z) -> a <> rz_head z -> rz_nodes z !! a = None ->
  exists z' M', limit_req_new a hash key lr z = Some z' /\ req_rep z' M' ((a, lr) :: l) /\ rz_head z' = rz_head z /\ rb_sentinel (rz_tree z') = rb_sentinel (rz_tree z).
Proof.
  intros Hnone -> Hd Ha Hs Hh Hfresh. unfold limit_req_new. set (hash := ngx_crc32_short key).
  assert (Hput : put a (set_key hash) (slab_take a (rz_tree z)) = Some (upd a (mk_node hash 0 0 0 false) (slab_take a (rz_tree z))))
    by exact (put_upd a _ _ _ (get_upd_eq a _ (rz_tree z))).
  rewrite Hput. set (t0 := upd a _ _) in *. cbn [mbind option_bind]. set (nodes := <[a := lr]> (rz_nodes z)).
  assert (Hnot : a ∉ map fst l). { intros Hin. apply list_elem_of_fmap in Hin as ([b x] & -> & Hin). apply (rr_nodes _ _ _ R) in Hin. cbn [fst] in *. congruence. }
  assert (HM : forall k, M !! k <> Some a) by (intros k Hk; apply Hnot, rep_addr_in; by exists k).
  assert (H0 : is_index lex (fun x => lr_data <$> nodes !! x) t0 M).
  { apply (index_slab lex _ (slab_take a (rz_tree z)) M a (fun _ => Some _)); [|done|done].
    apply (index_slab lex _ (rz_tree z) M a (fun _ => Some _)); [|done|done].
    eapply index_strs; [|exact (rr_index _ _ _ R)]. intros k b E. unfold req_data, nodes. rewrite lookup_insert_ne; [done|]. intros <-. by apply (HM k). }
  destruct (index_insert lex (fun x => lr_data <$> nodes !! x) (ngx_http_limit_req_rbtree_insert_value (fun x => lr_data <$> nodes !! x))
    t0 M a (mk_node hash 0 0 0 false) key) as (t1 & -> & H1 & Hk); [done|apply get_upd_eq| |done|done| |done|].
  { unfold nodes. rewrite lookup_insert_eq. cbn. by f_equal. }
  { cbn [n_key]. unfold hash. by rewrite rep_find, Hnone. }
  cbn [mbind option_bind]. destruct (ring_insert_head _ _ _ a (rr_ring _ _ _ R)) as (q & -> & Hq); [set_solver + Hnot Hh|].
  cbn [mbind option_bind]. eexists _, _. split; [done|]. split; [|split; [done|by apply Hk]].
  destruct R as [R1 R2 R3 R4 R5]. constructor; cbn [rz_tree rz_head rz_queue rz_nodes].
  - exact H1.
  - cbn [n_key]. intros h s b. destruct (decide ((hash, key) = (h, s))) as [[= <- <-]|Hne].
    + rewrite lookup_insert_eq. split; [intros [= <-]; split; [done|]; exists lr; split; [by left|done]|].
      intros [_ (x & [[= -> _]|Hx]%elem_of_cons & Hxd)]; [done|]. by apply (find_key_None _ _ _ _ Hnone) in Hx.
    + rewrite lookup_insert_ne, R2 by done. split; intros [-> (x & Hx & Hxd)]; (split; [done|]); exists x; (split; [|done]); [by right|].
      apply elem_of_cons in Hx as [[= -> ->]|Hx]; [|done]. exfalso. apply Hne. unfold hash. congruence.
  - intros b x. rewrite elem_of_cons. unfold nodes. destruct (decide (b = a)) as [->|Hne].
    + rewrite lookup_insert_eq. split; [intros [= ->]; by left|]. intros [[= ->]|Hx]; [done|]. apply R3 in Hx. congruence.
    + rewrite lookup_insert_ne, R3 by done. split; [by right|]. intros [[= -> _]|Hx]; done.
  - exact Hq.
  - set_solver + R5 Ha.
Qed.

(** The last node goes. *)
Lemma rep_drop l1 a lr : l = l1 ++ [(a, lr)] ->
  exists q t M', ngx_queue_remove a (rz_queue z) = Some q /\ ngx_rbtree_delete a (rz_tree z) = Some t /\
    req_rep (mk_req_zone (slab_free a t) (rz_head z) q (delete a (rz_nodes z))) M' l1 /\ rb_sentinel t = rb_sentinel (rz_tree z).
Proof.
  intros El. assert (Hin : (a, lr) ∈ l) by (rewrite El; set_solver +). pose proof rep_nodup_addrs as Hnd. rewrite El, map_app in Hnd.
  apply NoDup_app in Hnd as (_ & Hd & _). cbn [map fst] in Hd. assert (Hnot : a ∉ map fst l1) by (intros H; apply (Hd a H); set_solver +). clear Hd.
  pose proof (rr_ring _ _ _ R) as Hr. rewrite El, map_app in Hr. cbn [map fst] in Hr.
  destruct (ring_remove _ _ _ _ _ Hr) as (q & -> & Hq). rewrite app_nil_r in Hq. exists q.
  set (key := lr_data lr). set (hash := ngx_crc32_short key). pose proof (rep_index_key a lr Hin) as Ek. fold key in Ek. fold hash in Ek.
  destruct (index_delete lex _ _ M hash key a (rr_index _ _ _ R) Ek) as (t & -> & Hi & Hs & _). exists t, (delete (hash, key) M).
  split; [done|]. split; [done|]. split; [|done].
  assert (HM : forall k, delete (hash, key) M !! k <> Some a).
  { intros k [Hne Hk]%lookup_delete_Some. by apply Hne, (index_inj lex _ _ M _ _ a (rr_index _ _ _ R)). }
  assert (Hsn : a <> rb_sentinel t) by (rewrite Hs; by apply (index_sentinel lex _ _ M _ a (rr_index _ _ _ R) Ek)).
  destruct R as [R1 R2 R3 R4 R5]. subst l. constructor; cbn [rz_tree rz_head rz_queue rz_nodes].
  - apply (index_slab lex _ t _ a (fun _ => None)); [|done|exact HM].
    eapply index_strs; [|exact Hi]. intros k b Hk. unfold req_data. cbn [rz_nodes]. rewrite lookup_delete_ne; [done|]. intros <-. by apply (HM k).
  - intros h s b. rewrite lookup_delete_Some, R2. split.
    + intros [Hne [-> (x & Hx & Hxs)]]. split; [done|]. exists x. split; [|done]. apply elem_of_app in Hx as [Hx|[[= -> ->]|Hx]%elem_of_cons]; [done| |set_solver + Hx].
      exfalso. apply Hne. unfold hash, key. by rewrite Hxs.
    + intros [-> (x & Hx & Hxs)]. split; [|split; [done|]; exists x; split; [set_solver + Hx|done]]. intros [= _ Es].
      apply Hnot. apply (list_elem_of_fmap_2 fst) in Hx as Hb. cbn [fst] in Hb.
      assert (M !! (hash, key) = Some b) as E; [|rewrite Ek in E; by injection E as ->]. apply R2. split; [done|]. exists x. split; [set_solver + Hx|congruence].
  - intros b x. rewrite lookup_delete_Some, R3, elem_of_app, list_elem_of_singleton. split.
    + intros [Hne [Hx|[= -> ->]]]; done.
    + intros Hx. split; [|by left]. intros <-. by apply (list_elem_of_fmap_2 fst) in Hx.
  - exact Hq.
  - intros H0. apply R5. rewrite map_app. set_solver + H0.
Qed.

End Rep.

(** ** The critical sections *)

Section Sections.
Context (rate : Z).

(** Why [ngx_http_limit_req_expire] stops at a node. *)
Definition stays (now n : Z) (lr : req_node) : bool :=
  negb (lr_count lr =? 0) || negb (n =? 0) && ((elapsed now lr <? 60000) || (0 <? i64 (u64 (lr_excess lr - leak rate (elapsed now lr))))).

(** From the end of the list. *)
Fixpoint expire_list (turns : nat) (now n : Z) (l : req_list) : req_list :=
  match turns with
  | O => l
  | S turns' =>
      match rev l with
      | [] => l
      | (a, lr) :: l1 => if stays now n lr then l else expire_list turns' now (n + 1) (rev l1)
      end
  end.

(** What is removed was not counted on. *)
Lemma expire_prefix turns now : forall n l, exists l2, l = expire_list turns now n l ++ l2 /\ Forall (fun e => lr_count (snd e) = 0) l2.
Proof.
  induction turns as [|turns IH]; intros n l; cbn [expire_list]; [exists []; by rewrite app_nil_r|].
  destruct l as [|[a lr] l _] using rev_ind; [by exists []|]. rewrite rev_app_distr. cbn [rev app]. rewrite rev_involutive.
  destruct (stays now n lr) eqn:E; [exists []; by rewrite app_nil_r|]. unfold stays in E.
  destruct (IH (n + 1) l) as (l2 & El & Hl2). exists (l2 ++ [(a, lr)]). rewrite app_assoc, <-El. split; [done|].
  apply Forall_app. split; [done|]. repeat constructor. cbn [snd]. destruct (lr_count lr =? 0) eqn:E0; [lia|done].
Qed.

Lemma expire_spec turns now : forall n z M l, req_rep z M l ->
  exists z' M', expire_loop rate turns now n z = Some z' /\ req_rep z' M' (expire_list turns now n l).
Proof.
  induction turns as [|turns IH]; intros n z M l R; cbn [expire_loop expire_list]; [by exists z, M|].
  rewrite (ring_empty _ _ _ (rr_ring _ _ _ R)). cbn [mbind option_bind].
  destruct l as [|[a lr] l _] using rev_ind; cbn [map]; [by exists z, M|]. rewrite rev_app_distr. cbn [rev app]. rewrite rev_involutive.
  assert (Hne : exists b bs, map fst (l ++ [(a, lr)]) = b :: bs) by (destruct l as [|[b x] l]; cbn; eauto).
  destruct Hne as (b & bs & ->). rewrite (ring_last _ _ _ (rr_ring _ _ _ R)), map_app. cbn [map fst]. rewrite last_last. cbn [mbind option_bind].
  assert (Hin : (a, lr) ∈ l ++ [(a, lr)]) by set_solver +. apply (rr_nodes _ _ _ R) in Hin. rewrite Hin. cbn [mbind option_bind].
  unfold stays. destruct (lr_count lr =? 0) eqn:E0; cbn [negb orb]; [|by exists z, M].
  destruct (n =? 0) eqn:En; cbn [negb andb].
  - destruct (rep_drop R l a lr eq_refl) as (q & t & M' & -> & -> & R' & _). cbn [mbind option_bind]. by apply (IH (n + 1) _ M').
  - destruct (elapsed now lr <? 60000) eqn:Ee; cbn [orb]; [by exists z, M|].
    destruct (0 <? i64 (u64 (lr_excess lr - leak rate (elapsed now lr)))) eqn:Ex; [by exists z, M|].
    destruct (rep_drop R l a lr eq_refl) as (q & t & M' & -> & -> & R' & _). cbn [mbind option_bind]. by apply (IH (n + 1) _ M').
Qed.

Definition slab_ok (slab : slab_answers) : Prop := slab_unused (sa_first slab) /\ slab_unused (sa_second slab).

(** The list after a node for a key has been looked for in vain. *)
Definition expired (now : Z) (l l' : req_list) : Prop :=
  l' = expire_list 2 now 1 l \/ l' = expire_list 3 now 0 (expire_list 2 now 1 l).

Definition lookup_result (burst now : Z) (key : list Z) (account : bool) (l : req_list) (rc ep : Z) (node : option Z) (l' : req_list) : Prop :=
  match find_key key l with
  | Some (a, lr) =>
      let excess := next_excess rate now lr in
      ep = excess /\
      if burst <? excess then rc = NGX_BUSY /\ node = None /\ l' = (a, lr) :: remove_addr a l
      else if account then
        rc = NGX_OK /\ node = None /\ l' = (a, mk_req_node now excess (lr_count lr) key) :: remove_addr a l
      else
        rc = NGX_AGAIN /\ node = Some a /\ l' = (a, mk_req_node (lr_last lr) (lr_excess lr) (u64 (lr_count lr + 1)) key) :: remove_addr a l
  | None =>
      ep = 0 /\ exists l1, expired now l l1 /\
      (rc = NGX_ERROR /\ node = None /\ l' = l1 \/
       exists a, a ∉ map fst l1 /\
         if account then rc = NGX_OK /\ node = None /\ l' = (a, mk_req_node now 0 0 key) :: l1
         else rc = NGX_AGAIN /\ node = Some a /\ l' = (a, mk_req_node 0 0 1 key) :: l1)
  end.

Lemma write_head a lr lr' l : a ∉ map fst l -> write_list a lr' ((a, lr) :: l) = (a, lr') :: l.
Proof.
  intros H. unfold write_list. cbn [map fst]. rewrite Z.eqb_refl. f_equal. transitivity (map id l); [|apply map_id].
  apply map_ext_in. intros [b x] Hin%list_elem_of_In. cbn [fst]. rewrite (proj2 (Z.eqb_neq b a)); [done|]. intros ->.
  by apply (list_elem_of_fmap_2 fst) in Hin.
Qed.

Lemma remove_addr_not_in a l : a ∉ map fst (remove_addr a l).
Proof.
  intros H. apply list_elem_of_fmap in H as ([b x] & -> & Hin). unfold remove_addr in Hin. apply list_elem_of_In, List.filter_In in Hin as [_ Hin].
  cbn [fst] in Hin. by rewrite Z.eqb_refl in Hin.
Qed.

Lemma find_key_prefix key l1 l2 : find_key key (l1 ++ l2) = None -> find_key key l1 = None.
Proof. unfold find_key. induction l1 as [|e l1 IH]; cbn [app List.find]; [done|]. by destruct (bytes_eqb _ _). Qed.

Lemma expired_prefix now l l1 : expired now l l1 -> exists l2, l = l1 ++ l2 /\ Forall (fun e => lr_count (snd e) = 0) l2.
Proof.
  intros [-> | ->]; [apply expire_prefix|]. destruct (expire_prefix 2 now 1 l) as (l2 & E & H2).
  destruct (expire_prefix 3 now 0 (expire_list 2 now 1 l)) as (l3 & E3 & H3). exists (l3 ++ l2).
  rewrite app_assoc, <-E3, <-E. split; [done|]. by apply Forall_app.
Qed.

Lemma find_key_expired key now l l1 : find_key key l = None -> expired now l l1 -> find_key key l1 = None.
Proof. intros H (l2 & -> & _)%expired_prefix. by apply find_key_prefix in H. Qed.

Lemma lookup_known burst now key account slab z M l a lr : req_rep z M l -> find_key key l = Some (a, lr) ->
  exists rc ep node z' l', ngx_http_limit_req_lookup rate burst now (ngx_crc32_short key) key account slab z = Some (rc, ep, node, z') /\
    lookup_result burst now key account l rc ep node l' /\ req_rep z' M l'.
Proof.
  intros R E. unfold ngx_http_limit_req_lookup, lookup_result. rewrite (rep_lookup R), E. cbn [fmap option_fmap option_map default fst mbind option_bind id].
  destruct (find_key_Some _ _ _ _ E) as [Hin Hkey].
  assert (Ha : a <> 0) by (intros ->; apply (list_elem_of_fmap_2 fst) in Hin; by apply (rr_null _ _ _ R)).
  rewrite (proj2 (Z.eqb_neq a 0)) by done. cbn [negb].
  destruct (rep_touch R a lr Hin) as (q1 & q2 & -> & E2 & R2). cbn [mbind option_bind]. rewrite E2. cbn [mbind option_bind].
  assert (Hin2 : (a, lr) ∈ (a, lr) :: remove_addr a l) by set_solver +.
  pose proof Hin2 as Hn. apply (rr_nodes _ _ _ R2) in Hn. rewrite Hn. cbn [mbind option_bind].
  destruct (burst <? next_excess rate now lr) eqn:Eb.
  { eexists _, _, _, _, _. split; [done|]. split; [|exact R2]. by repeat split. }
  assert (Hw : forall lr', lr_data lr' = lr_data lr -> req_rep (set_req_node a lr' (set_req_queue q2 z)) M ((a, lr') :: remove_addr a l)).
  { intros lr' Hd. rewrite <-(write_head a lr lr' (remove_addr a l)) by apply remove_addr_not_in. by apply (rep_write R2 a lr). }
  rewrite Hkey in *. destruct account.
  - eexists _, _, _, _, _. split; [done|]. split; [by repeat split|]. by apply Hw.
  - eexists _, _, _, _, _. split; [done|]. split; [by repeat split|]. by apply Hw.
Qed.

(** A node that the allocator has found room for. *)
Lemma lookup_new now key account slab z M l node : req_rep z M l -> find_key key l = None -> slab_unused slab -> slab z = node -> node <> 0 ->
  exists z' M', (if account : bool then
       z ← limit_req_new node (ngx_crc32_short key) key (mk_req_node now 0 0 key) z; Some (NGX_OK, 0, None, z)
     else z ← limit_req_new node (ngx_crc32_short key) key (mk_req_node 0 0 1 key) z; Some (NGX_AGAIN, 0, Some node, z)) =
      Some (if account then (NGX_OK, 0, None, z') else (NGX_AGAIN, 0, Some node, z')) /\
    node ∉ map fst l /\ req_rep z' M' ((node, if account then mk_req_node now 0 0 key else mk_req_node 0 0 1 key) :: l).
Proof.
  intros R Hnone Hslab <- Hne. destruct (Hslab z Hne) as (Hs & Hh & Hf).
  assert (Hnot : slab z ∉ map fst l).
  { intros ([b x] & E & Hin)%list_elem_of_fmap. apply (rr_nodes _ _ _ R) in Hin. cbn [fst] in E. congruence. }
  destruct account.
  - destruct (rep_new R (slab z) _ key (mk_req_node now 0 0 key) Hnone eq_refl eq_refl Hne Hs Hh Hf) as (z' & M' & -> & R' & _). by exists z', M'.
  - destruct (rep_new R (slab z) _ key (mk_req_node 0 0 1 key) Hnone eq_refl eq_refl Hne Hs Hh Hf) as (z' & M' & -> & R' & _). by exists z', M'.
Qed.

Lemma lookup_unknown burst now key account slab z M l : req_rep z M l -> slab_ok slab -> find_key key l = None ->
  exists rc ep node z' M' l', ngx_http_limit_req_lookup rate burst now (ngx_crc32_short key) key account slab z = Some (rc, ep, node, z') /\
    lookup_result burst now key account l rc ep node l' /\ req_rep z' M' l'.
Proof.
  intros R [Hs1 Hs2] E. unfold ngx_http_limit_req_lookup, lookup_result. rewrite (rep_lookup R), E. cbn [fmap option_fmap option_map default mbind option_bind id].
  cbn [Z.eqb negb]. unfold ngx_http_limit_req_expire. change (Z.to_nat (3 - 1)) with 2%nat. change (Z.to_nat (3 - 0)) with 3%nat.
  destruct (expire_spec 2 now 1 z M l R) as (z1 & M1 & -> & R1). cbn [mbind option_bind].
  pose proof (find_key_expired key now l _ E (or_introl eq_refl)) as Hn1.
  assert (Hfin : forall z2 M2 l2 slab0, expired now l l2 -> req_rep z2 M2 l2 -> slab_unused slab0 -> slab0 z2 <> 0 ->
    exists rc ep nd z' M' l', (if account : bool then
       z ← limit_req_new (slab0 z2) (ngx_crc32_short key) key (mk_req_node now 0 0 key) z2; Some (NGX_OK, 0, None, z)
     else z ← limit_req_new (slab0 z2) (ngx_crc32_short key) key (mk_req_node 0 0 1 key) z2; Some (NGX_AGAIN, 0, Some (slab0 z2), z)) = Some (rc, ep, nd, z') /\
    (ep = 0 /\ exists l1, expired now l l1 /\ (rc = NGX_ERROR /\ nd = None /\ l' = l1 \/
       exists a, a ∉ map fst l1 /\ if account then rc = NGX_OK /\ nd = None /\ l' = (a, mk_req_node now 0 0 key) :: l1
         else rc = NGX_AGAIN /\ nd = Some a /\ l' = (a, mk_req_node 0 0 1 key) :: l1)) /\ req_rep z' M' l').
  { intros z2 M2 l2 slab0 He R2 Hsl Hne. pose proof (find_key_expired key now l l2 E He) as Hn2.
    destruct (lookup_new now key account slab0 z2 M2 l2 _ R2 Hn2 Hsl eq_refl Hne) as (z' & M' & -> & Hnot & R').
    destruct account; eexists _, _, _, _, _, _; (split; [done|]); (split; [|exact R']); (split; [done|]); exists l2; (split; [done|]);
      right; by exists (slab0 z2). }
  destruct (sa_first slab z1 =? 0) eqn:E1.
  - destruct (expire_spec 3 now 0 z1 M1 _ R1) as (z2 & M2 & -> & R2). cbn [mbind option_bind].
    destruct (sa_second slab z2 =? 0) eqn:E2.
    + eexists _, _, _, _, _, _. split; [done|]. split; [|exact R2]. split; [done|]. exists (expire_list 3 now 0 (expire_list 2 now 1 l)). split; [by right|by left].
    + apply (Hfin z2 M2 (expire_list 3 now 0 (expire_list 2 now 1 l)) (sa_second slab)); [by right|done|done|lia].
  - cbn [mbind option_bind]. rewrite E1. apply (Hfin z1 M1 (expire_list 2 now 1 l) (sa_first slab)); [by left|done|done|lia].
Qed.

Lemma lookup_spec burst now key account slab z M l : req_rep z M l -> slab_ok slab ->
  exists rc ep node z' M' l', ngx_http_limit_req_lookup rate burst now (ngx_crc32_short key) key account slab z = Some (rc, ep, node, z') /\
    lookup_result burst now key account l rc ep node l' /\ req_rep z' M' l'.
Proof.
  intros R Hs. destruct (find_key key l) as [[a lr]|] eqn:E; [|by apply (lookup_unknown burst now key account slab z M l)].
  destruct (lookup_known burst now key account slab z M l a lr R E) as (rc & ep & node & z' & l' & H). by exists rc, ep, node, z', M, l'.
Qed.

Lemma account_node_spec now a lr z M l : req_rep z M l -> (a, lr) ∈ l ->
  exists z', account_node rate now a z = Some (next_excess rate now lr, z') /\
    req_rep z' M (write_list a (mk_req_node now (next_excess rate now lr) (u64 (lr_count lr - 1)) (lr_data lr)) l).
Proof.
  intros R Hin. unfold account_node. pose proof Hin as Hn. apply (rr_nodes _ _ _ R) in Hn. rewrite Hn. cbn [mbind option_bind].
  eexists. split; [done|]. by apply (rep_write R a lr).
Qed.

Lemma release_spec a lr z M l : req_rep z M l -> (a, lr) ∈ l ->
  exists z', release_node a z = Some z' /\
    req_rep z' M (write_list a (mk_req_node (lr_last lr) (lr_excess lr) (u64 (lr_count lr - 1)) (lr_data lr)) l).
Proof.
  intros R Hin. unfold release_node. pose proof Hin as Hn. apply (rr_nodes _ _ _ R) in Hn. rewrite Hn. cbn [mbind option_bind].
  eexists. split; [done|]. by apply (rep_write R a lr).
Qed.


(** ** Requests that have still to be counted *)

(** [pins] has the node of each worker whose request has gone through this zone but
    not yet through the others. *)
Definition counts_ok (l : req_list) (pins : list Z) : Prop :=
  (forall a lr, (a, lr) ∈ l -> lr_count lr = holders_of a pins) /\ forall a, a ∈ pins -> a ∈ map fst l.

Lemma counts_moved l a lr lr' pins pins' : NoDup (map fst l) -> counts_ok l pins -> (a, lr) ∈ l ->
  (forall b, b <> a -> holders_of b pins' = holders_of b pins) -> lr_count lr' = holders_of a pins' ->
  (forall b, b ∈ pins' -> b = a \/ b ∈ pins) -> counts_ok ((a, lr') :: remove_addr a l) pins'.
Proof.
  intros Hnd [H1 H2] Hin Hh Hc Hp. apply list_elem_of_split in Hin as (l1 & l2 & ->).
  assert (Hne : forall b x, (b, x) ∈ l1 ++ l2 -> b <> a).
  { intros b x Hx ->. apply (list_elem_of_fmap_2 fst) in Hx. change (a ∈ map fst (l1 ++ l2)) in Hx.
    rewrite map_app in Hnd. cbn [map fst] in Hnd. rewrite <-Permutation_middle in Hnd. apply NoDup_cons in Hnd as [Hnd _].
    apply Hnd. by rewrite map_app in Hx. }
  rewrite remove_addr_split by done. split.
  - intros b x [[= -> ->]|Hx]%elem_of_cons; [done|]. rewrite Hh by by eapply Hne. apply H1. set_solver + Hx.
  - intros b Hb. cbn [map fst]. destruct (Hp b Hb) as [->|Hb']; [set_solver +|]. specialize (H2 b Hb').
    rewrite map_app in H2 |- *. cbn [map fst] in H2. set_solver + H2.
Qed.

Lemma holders_le a pins : holders_of a pins <= Z.of_nat (length pins).
Proof. unfold holders_of. pose proof (count_occ_bound Z.eq_dec a pins). lia. Qed.

Lemma lookup_counts burst now key account l rc ep node l' pins : NoDup (map fst l) -> counts_ok l pins -> Z.of_nat (length pins) + 1 < 2 ^ 64 ->
  lookup_result burst now key account l rc ep node l' -> counts_ok l' (match node with Some a => a :: pins | None => pins end).
Proof.
  intros Hnd H Hlen Hr. unfold lookup_result in Hr. destruct (find_key key l) as [[a lr]|] eqn:E.
  - destruct (find_key_Some _ _ _ _ E) as [Hin _]. pose proof (proj1 H a lr Hin) as Hc. pose proof (holders_le a pins).
    cbv zeta in Hr. destruct Hr as [_ Hr]. destruct (burst <? _); [|destruct account]; destruct Hr as (_ & -> & ->).
    + apply (counts_moved l a lr lr pins pins); auto.
    + apply (counts_moved l a lr _ pins pins); auto.
    + apply (counts_moved l a lr _ pins (a :: pins)); [done..| | |].
      * intros b Hb. rewrite holders_cons, decide_False by done. lia.
      * cbn [lr_count]. rewrite holders_cons, decide_True, Hc by done. unfold u64. rewrite Z.mod_small; [done|]. pose proof (Nat2Z.is_nonneg (count_occ Z.eq_dec pins a)). unfold holders_of in *. lia.
      * intros b Hb. set_solver + Hb.
  - destruct Hr as (_ & l1 & He & Hr). destruct (expired_prefix now l l1 He) as (l2 & -> & H0). destruct H as [H1 H2].
    assert (Hl1 : counts_ok l1 pins).
    { split; [intros a lr Hin; apply H1; set_solver + Hin|]. intros a Ha. specialize (H2 a Ha). rewrite map_app in H2. apply elem_of_app in H2 as [H2|H2]; [done|].
      apply list_elem_of_fmap in H2 as ([b x] & -> & Hin). rewrite Forall_forall in H0. specialize (H0 _ Hin). cbn [snd fst] in *.
      specialize (H1 b x ltac:(set_solver + Hin)). apply list_elem_of_In, (count_occ_In Z.eq_dec) in Ha. unfold holders_of in H1. lia. }
    destruct Hr as [(_ & -> & ->)|(a & Hnot & Hr)]; [done|]. destruct Hl1 as [H3 H4].
    assert (Hpin : a ∉ pins) by (intros Ha; by apply Hnot, H4).
    destruct account; destruct Hr as (_ & -> & ->).
    + split; [|intros b Hb; cbn [map fst]; specialize (H4 b Hb); set_solver + H4].
      intros b x [[= -> ->]|Hx]%elem_of_cons; [cbn; by rewrite holders_zero|by apply H3].
    + split; [|intros b Hb; cbn [map fst]; apply elem_of_cons in Hb as [->|Hb]; [set_solver +|specialize (H4 b Hb); set_solver + H4]].
      intros b x [[= -> ->]|Hx]%elem_of_cons; rewrite holders_cons; [rewrite decide_True, holders_zero; done|].
      rewrite decide_False, Z.add_0_r; [by apply H3|]. intros ->. apply Hnot. by apply (list_elem_of_fmap_2 fst) in Hx.
Qed.

Lemma write_counts a lr lr' l p1 p2 : NoDup (map fst l) -> counts_ok l (p1 ++ a :: p2) -> Z.of_nat (length (p1 ++ a :: p2)) < 2 ^ 64 ->
  (a, lr) ∈ l -> lr_count lr' = u64 (lr_count lr - 1) -> counts_ok (write_list a lr' l) (p1 ++ p2).
Proof.
  intros Hnd [H1 H2] Hlen Hin Hc. pose proof (fun b => holders_perm b _ _ (Permutation_middle p1 p2 a)) as HP.
  assert (Ha : a ∈ map fst l) by by apply (list_elem_of_fmap_2 fst) in Hin.
  split.
  - intros b x [[-> ->]|[Hne Hb]]%write_in; [| |done].
    + rewrite Hc, (H1 a lr Hin), <-HP, holders_cons, decide_True by done. replace (holders_of a (p1 ++ p2) + 1 - 1) with (holders_of a (p1 ++ p2)) by lia.
      unfold u64. rewrite Z.mod_small; [done|]. pose proof (holders_le a (p1 ++ p2)). rewrite length_app in *. cbn [length] in Hlen. unfold holders_of in *. lia.
    + rewrite (H1 b x Hb), <-HP, holders_cons, decide_False by done. lia.
  - intros b Hb. rewrite write_addrs. apply H2. set_solver + Hb.
Qed.

(** A zone, and the workers in the middle of a request: lookups of any requests, and
    each worker goes on to count its request or to give it up. *)
Inductive req_reach : req_zone -> list Z -> Prop :=
  | req_reach_init s h z : limit_req_init_zone s h = Some z -> req_reach z []
  | req_reach_lookup z pins burst now key account slab rc ep node z' :
      req_reach z pins -> slab_ok slab -> Z.of_nat (length pins) + 1 < 2 ^ 64 ->
      ngx_http_limit_req_lookup rate burst now (ngx_crc32_short key) key account slab z = Some (rc, ep, node, z') ->
      req_reach z' (match node with Some a => a :: pins | None => pins end)
  | req_reach_account z p1 a p2 now e z' :
      req_reach z (p1 ++ a :: p2) -> account_node rate now a z = Some (e, z') -> req_reach z' (p1 ++ p2)
  | req_reach_release z p1 a p2 z' :
      req_reach z (p1 ++ a :: p2) -> release_node a z = Some z' -> req_reach z' (p1 ++ p2).

Lemma init_req_rep s h : exists z, limit_req_init_zone s h = Some z /\ req_rep z ∅ [].
Proof.
  unfold limit_req_init_zone. destruct (index_empty lex (fun _ => None) s (slab_take s (mk_rbtree 0 0 ∅))) as (t & -> & Hi & _).
  { eexists. unfold slab_take, get. cbn [rb_nodes]. apply lookup_insert_eq. }
  cbn [mbind option_bind]. eexists. split; [done|]. constructor; cbn [rz_tree rz_nodes rz_queue rz_head map].
  - exact Hi.
  - intros x u a. rewrite lookup_empty. split; [done|]. intros (_ & lr & Hin & _). set_solver + Hin.
  - intros a lr. rewrite lookup_empty. split; [done|]. set_solver +.
  - apply ring_init.
  - set_solver +.
Qed.

Lemma pinned_in l pins a : counts_ok l pins -> a ∈ pins -> exists lr, (a, lr) ∈ l.
Proof. intros [_ H] Ha. apply H, list_elem_of_fmap in Ha as ([b lr] & -> & Hin). by exists lr. Qed.

Lemma req_reach_inv z pins : req_reach z pins -> exists M l, req_rep z M l /\ counts_ok l pins /\ Z.of_nat (length pins) < 2 ^ 64.
Proof.
  induction 1 as [s h z E|z pins burst now key account slab rc ep node z' H (M & l & R & Hc & Hlen) Hs Hb E|
    z p1 a p2 now e z' H (M & l & R & Hc & Hlen) E|z p1 a p2 z' H (M & l & R & Hc & Hlen) E].
  - destruct (init_req_rep s h) as (z0 & E0 & R). rewrite E in E0. injection E0 as <-. exists ∅, []. split; [done|].
    split; [split; [set_solver +|set_solver +]|cbn; lia].
  - destruct (lookup_spec burst now key account slab z M l R Hs) as (rc' & ep' & node' & z1 & M' & l' & E' & Hr & R').
    rewrite E in E'. injection E' as <- <- <- <-. exists M', l'. split; [done|]. split; [|destruct node; cbn [length]; lia].
    eapply lookup_counts; [exact (rep_nodup_addrs R)|done|done|exact Hr].
  - destruct (pinned_in l _ a Hc) as [lr Hin]; [set_solver +|].
    destruct (account_node_spec now a lr z M l R Hin) as (z1 & E1 & R1). rewrite E in E1. injection E1 as -> <-.
    eexists _, _. split; [exact R1|]. split; [|rewrite length_app in *; cbn [length] in Hlen; lia].
    eapply write_counts; [exact (rep_nodup_addrs R)|exact Hc|exact Hlen|exact Hin|done].
  - destruct (pinned_in l _ a Hc) as [lr Hin]; [set_solver +|].
    destruct (release_spec a lr z M l R Hin) as (z1 & E1 & R1). rewrite E in E1. injection E1 as <-.
    eexists _, _. split; [exact R1|]. split; [|rewrite length_app in *; cbn [length] in Hlen; lia].
    eapply write_counts; [exact (rep_nodup_addrs R)|exact Hc|exact Hlen|exact Hin|done].
Qed.

(** C15: no freed memory: in whatever order the workers go through their critical
    sections of a zone, each of them succeeds; in particular the node that a request
    has left in [ctx->node] is there when the request is counted or given up, with a
    count that is the number of such requests, however many entries have been removed
    in the meantime, by age or by force. *)
Theorem limit_req_safe z pins : req_reach z pins ->
  (forall burst now key account slab, slab_ok slab ->
     is_Some (ngx_http_limit_req_lookup rate burst now (ngx_crc32_short key) key account slab z)) /\
  forall a, a ∈ pins -> (forall now, is_Some (account_node rate now a z)) /\ is_Some (release_node a z) /\
    exists lr, rz_nodes z !! a = Some lr /\ lr_count lr = Z.of_nat (count_occ Z.eq_dec pins a).
Proof.
  intros H. destruct (req_reach_inv z pins H) as (M & l & R & Hc & _). split.
  - intros burst now key account slab Hs. destruct (lookup_spec burst now key account slab z M l R Hs) as (? & ? & ? & ? & ? & ? & -> & _). by eexists.
  - intros a Ha. destruct (pinned_in l _ a Hc Ha) as [lr Hin]. split; [|split].
    + intros now. destruct (account_node_spec now a lr z M l R Hin) as (? & -> & _). by eexists.
    + destruct (release_spec a lr z M l R Hin) as (? & -> & _). by eexists.
    + exists lr. split; [by apply (rr_nodes _ _ _ R)|]. by apply (proj1 Hc).
Qed.

End Sections.
