(* ===== verification/LimitReqRate.v ===== *)
(** * Limits of the rate of requests: the rate

    How many requests with a key a zone lets through in a period of time. *)

From stdpp Require Import gmap.
From S2P Require Import Prelude Fsm Strings Crc32 Queue Rbtree RbtreeSpec StrTree LimitConn LimitConnSpec LimitReq LimitReqSpec.

(** A request: the time, the key and the answers of the allocator. *)
Record arrival : Type := mk_arrival { ar_now : Z; ar_key : list Z; ar_slab : slab_answers }.

Section Rate.
Context (rate burst : Z).

(** The requests with [key] that have been let through, and the nodes that have been
    made for them. *)
Fixpoint run (key : list Z) (reqs : list arrival) (z : req_zone) : option (Z * Z * req_zone) :=
  match reqs with
  | [] => Some (0, 0, z)
  | r :: reqs' =>
      let hash := ngx_crc32_short (ar_key r) in
      node ← lookup_loop (S (rb_fuel (rz_tree z))) (zone_order (req_data z) hash (ar_key r)) (rb_root (rz_tree z)) (rz_tree z);
      '(rc, _, _, z) ← ngx_http_limit_req_lookup rate burst (ar_now r) hash (ar_key r) true (ar_slab r) z;
      '(passed, made, z) ← run key reqs' z;
      let mine := bytes_eqb (ar_key r) key && (rc =? NGX_OK) in
      Some (passed + (if mine then 1 else 0), made + (if mine && (node =? 0) then 1 else 0), z)
  end.

(** Requests come one after another, none before [t0], none after [t1]. *)
Fixpoint in_time (t0 : Z) (reqs : list arrival) (t1 : Z) : Prop :=
  match reqs with
  | [] => t0 <= t1
  | r :: reqs' => t0 <= ar_now r /\ slab_ok (ar_slab r) /\ in_time (ar_now r) reqs' t1
  end.

(** The buckets of a zone at a moment. *)
Definition buckets_ok (now : Z) (l : req_list) : Prop :=
  Forall (fun e => 0 <= lr_excess (snd e) <= burst /\ lr_last (snd e) <= now) l.

(** ** One bucket *)

Lemma abs_i64 x : 0 <= x -> 0 <= Z.abs (i64 (u64 x)) <= x.
Proof.
  intros H. unfold i64, u64. split; [lia|].
  destruct (Z_lt_dec x (2 ^ 63)) as [Hx|Hx].
  - rewrite (Z.mod_small x), Z.mod_small by lia. lia.
  - pose proof (Z.mod_pos_bound (x mod 2 ^ 64 + 2 ^ 63) (2 ^ 64) ltac:(lia)). lia.
Qed.

Lemma leak_bounds ms : 0 <= rate -> 0 <= ms -> 0 <= leak rate ms < 2 ^ 55 /\ 1000 * leak rate ms <= rate * ms.
Proof.
  intros Hr Hm. unfold leak, u64. pose proof (Z.mod_pos_bound (rate * ms) (2 ^ 64) ltac:(lia)) as Hb.
  assert (Hle : (rate * ms) mod 2 ^ 64 <= rate * ms) by (apply Z.mod_le; nia).
  set (x := (rate * ms) mod 2 ^ 64) in *. pose proof (Z.div_mod x 1000 ltac:(lia)). pose proof (Z.mod_pos_bound x 1000 ltac:(lia)). lia.
Qed.

(** The excess grows by a request less what has leaked. *)
Lemma next_excess_grows now lr : 0 <= rate -> 0 <= burst < 2 ^ 62 -> 0 <= lr_excess lr <= burst -> lr_last lr <= now ->
  0 <= next_excess rate now lr /\ 1000 * (lr_excess lr + 1000) - rate * (now - lr_last lr) <= 1000 * next_excess rate now lr.
Proof.
  intros Hr Hb He Hl. unfold next_excess, elapsed. pose proof (abs_i64 (now - lr_last lr) ltac:(lia)) as Ha.
  set (ms := Z.abs (i64 (u64 (now - lr_last lr)))) in *. destruct (leak_bounds ms Hr ltac:(lia)) as [Hk1 Hk2].
  assert (Hms : rate * ms <= rate * (now - lr_last lr)) by nia.
  assert (E : i64 (u64 (lr_excess lr - leak rate ms + 1000)) = lr_excess lr - leak rate ms + 1000).
  { set (x := lr_excess lr - leak rate ms + 1000) in *. assert (- 2 ^ 56 < x < 2 ^ 63) as Hx by (unfold x; lia). clearbody x.
    unfold i64, u64. rewrite Zplus_mod_idemp_l, Z.mod_small by lia. lia. }
  rewrite E. destruct (_ <? 0) eqn:En; lia.
Qed.

(** ** The list of buckets *)

Lemma find_key_cons key a lr l : find_key key ((a, lr) :: l) = if bytes_eqb (lr_data lr) key then Some (a, lr) else find_key key l.
Proof. done. Qed.

Lemma find_key_other key l key' : bytes_eqb key' key = false -> forall a lr, lr_data lr = key' -> find_key key ((a, lr) :: l) = find_key key l.
Proof. intros H a lr <-. by rewrite find_key_cons, H. Qed.

Lemma find_remove key l a lr : (a, lr) ∈ l -> NoDup (map fst l) -> bytes_eqb (lr_data lr) key = false -> find_key key (remove_addr a l) = find_key key l.
Proof.
  intros Hin Hnd Hne. apply list_elem_of_split in Hin as (l1 & l2 & ->). rewrite remove_addr_split by done.
  unfold find_key. induction l1 as [|e l1 IH]; cbn [app List.find snd]; [by rewrite Hne|].
  destruct (bytes_eqb (lr_data (snd e)) key); [done|]. apply IH. cbn [app map] in Hnd. by apply NoDup_cons in Hnd as [_ Hnd].
Qed.

Lemma find_prefix key l1 l2 x : find_key key l1 = Some x -> find_key key (l1 ++ l2) = Some x.
Proof. unfold find_key. induction l1 as [|e l1 IH]; cbn [app List.find]; [done|]. by destruct (bytes_eqb _ _). Qed.

Lemma buckets_later now now' l : now <= now' -> buckets_ok now l -> buckets_ok now' l.
Proof. intros H Hb. eapply Forall_impl; [exact Hb|]. intros e. cbv beta. lia. Qed.

Lemma buckets_remove now a l : buckets_ok now l -> buckets_ok now (remove_addr a l).
Proof.
  unfold buckets_ok, remove_addr. rewrite !Forall_forall. intros H e He. apply list_elem_of_In, List.filter_In in He as [He _].
  by apply H, list_elem_of_In.
Qed.

Lemma buckets_expired now t l l1 : expired rate t l l1 -> buckets_ok now l -> buckets_ok now l1.
Proof. intros (l2 & -> & _)%expired_prefix H. by apply Forall_app in H as [H _]. Qed.

(** The requests of a key since [t0], in the lives of its nodes: the node that was
    there, if one was, and those that have been made. *)
Definition spent (t0 now : Z) (key : list Z) (l : req_list) (passed made : Z) : Prop :=
  passed = 0 /\ made = 0 \/
  exists lives, 1 <= lives <= made + 1 /\
  match find_key key l with
  | Some (_, lr) => 1000000 * (passed - lives) <= 1000 * ((lives - 1) * burst + lr_excess lr) + rate * (lr_last lr - t0)
  | None => 1000000 * (passed - lives) <= 1000 * (lives * burst) + rate * (now - t0)
  end.

Context (rate_nonneg : 0 <= rate) (burst_bound : 0 <= burst < 2 ^ 62).

Lemma spent_later t0 t now key l l' passed made : t <= now -> find_key key l' = find_key key l ->
  spent t0 t key l passed made -> spent t0 now key l' passed made.
Proof.
  intros Ht Hf [H|(lives & Hl & H)]; [by left|]. right. exists lives. split; [done|]. rewrite Hf.
  destruct (find_key key l) as [[a lr]|]; [done|]. nia.
Qed.

Lemma bucket_in t key l a lr : buckets_ok t l -> find_key key l = Some (a, lr) -> 0 <= lr_excess lr <= burst /\ lr_last lr <= t.
Proof. intros H E. apply find_key_Some in E as [Hin _]. unfold buckets_ok in H. rewrite Forall_forall in H. by apply (H (a, lr)). Qed.

(** An entry that is removed had no more than the burst. *)
Lemma spent_expired t0 t now key l l1 l2 passed made : t <= now -> l = l1 ++ l2 -> buckets_ok t l ->
  spent t0 t key l passed made -> spent t0 now key l1 passed made.
Proof.
  intros Ht -> Hb H. destruct (find_key key l1) as [x|] eqn:E1.
  { eapply spent_later; [exact Ht| |exact H]. by rewrite E1, (find_prefix _ _ _ _ E1). }
  destruct H as [H|(lives & Hl & H)]; [by left|]. right. exists lives. split; [done|]. rewrite E1.
  destruct (find_key key (l1 ++ l2)) as [[a lr]|] eqn:E.
  - destruct (bucket_in t key _ a lr Hb E). nia.
  - nia.
Qed.

(** What a request with the key does. *)
Lemma spent_mine t0 t now key l rc ep node l' passed made :
  t0 <= t <= now -> buckets_ok t l -> 0 <= passed -> 0 <= made -> spent t0 t key l passed made ->
  lookup_result rate burst now key true l rc ep node l' ->
  spent t0 now key l' (passed + (if rc =? NGX_OK then 1 else 0))
    (made + (if (rc =? NGX_OK) && (if find_key key l is Some _ then false else true) then 1 else 0)).
Proof.
  intros Ht Hb Hp Hm Hs Hr. unfold lookup_result in Hr. destruct (find_key key l) as [[a lr]|] eqn:E.
  - destruct (bucket_in t key l a lr Hb E) as [He Hl]. destruct (find_key_Some _ _ _ _ E) as [_ Hk]. rewrite andb_false_r, Z.add_0_r.
    destruct (next_excess_grows now lr rate_nonneg burst_bound He ltac:(lia)) as [Hn1 Hn2].
    destruct Hr as [_ Hr]. destruct (burst <? next_excess rate now lr); destruct Hr as (-> & _ & ->).
    + change (NGX_BUSY =? NGX_OK) with false. cbn iota. rewrite Z.add_0_r. eapply spent_later; [|  |exact Hs]; [lia|].
      by rewrite find_key_cons, Hk, bytes_eqb_refl, E.
    + change (NGX_OK =? NGX_OK) with true. cbn iota. right. unfold spent in Hs. rewrite E in Hs. destruct Hs as [[-> ->]|(lives & Hl1 & Hs)].
      * exists 1. split; [lia|]. rewrite find_key_cons. cbn [lr_data]. rewrite bytes_eqb_refl. cbn [lr_excess lr_last]. nia.
      * exists lives. split; [lia|]. rewrite find_key_cons. cbn [lr_data]. rewrite bytes_eqb_refl. cbn [lr_excess lr_last]. lia.
  - destruct Hr as (_ & l1 & Hx & Hr). pose proof (find_key_expired rate key now l l1 E Hx) as E1.
    destruct (expired_prefix rate now l l1 Hx) as (l2 & El & _).
    pose proof (spent_expired t0 t now key l l1 l2 passed made ltac:(lia) El Hb Hs) as Hs1. rewrite andb_true_r.
    destruct Hr as [(-> & _ & ->)|(a & _ & -> & _ & ->)].
    + change (NGX_ERROR =? NGX_OK) with false. cbn iota. by rewrite !Z.add_0_r.
    + change (NGX_OK =? NGX_OK) with true. cbn iota. right. unfold spent in Hs1. rewrite E1 in Hs1. destruct Hs1 as [[-> ->]|(lives & Hl1 & Hs1)].
      * exists 1. split; [lia|]. rewrite find_key_cons. cbn [lr_data]. rewrite bytes_eqb_refl. cbn [lr_excess lr_last]. nia.
      * exists (lives + 1). split; [lia|]. rewrite find_key_cons. cbn [lr_data]. rewrite bytes_eqb_refl. cbn [lr_excess lr_last]. nia.
Qed.

(** What a request with another key does. *)
Lemma spent_other t0 t now key k l rc ep node l' passed made :
  t0 <= t <= now -> NoDup (map fst l) -> buckets_ok t l -> bytes_eqb k key = false -> spent t0 t key l passed made ->
  lookup_result rate burst now k true l rc ep node l' -> spent t0 now key l' passed made.
Proof.
  intros Ht Hnd Hb Hne Hs Hr. unfold lookup_result in Hr. destruct (find_key k l) as [[a lr]|] eqn:E.
  - destruct (find_key_Some _ _ _ _ E) as [Hin Hk]. destruct Hr as [_ Hr].
    assert (Hf : find_key key (remove_addr a l) = find_key key l) by (apply (find_remove key l a lr Hin Hnd); by rewrite Hk).
    eapply spent_later; [| |exact Hs]; [lia|]. destruct (burst <? _); destruct Hr as (_ & _ & ->); rewrite (find_key_other key _ k Hne); done.
  - destruct Hr as (_ & l1 & Hx & Hr). destruct (expired_prefix rate now l l1 Hx) as (l2 & El & _).
    pose proof (spent_expired t0 t now key l l1 l2 passed made ltac:(lia) El Hb Hs) as Hs1.
    destruct Hr as [(_ & _ & ->)|(a & _ & _ & _ & ->)]; [done|]. eapply spent_later; [reflexivity| |exact Hs1]. by rewrite (find_key_other key l1 k Hne).
Qed.

Lemma lookup_buckets t now k l rc ep node l' : t <= now -> buckets_ok t l ->
  lookup_result rate burst now k true l rc ep node l' -> buckets_ok now l'.
Proof.
  intros Ht Hb0 Hr. pose proof (buckets_later t now l Ht Hb0) as Hb. unfold lookup_result in Hr. destruct (find_key k l) as [[a lr]|] eqn:E.
  - destruct (bucket_in t k l a lr Hb0 E) as [He Hl]. destruct Hr as [_ Hr].
    destruct (next_excess_grows now lr rate_nonneg burst_bound He ltac:(lia)) as [Hn1 _].
    destruct (burst <? next_excess rate now lr) eqn:El; destruct Hr as (_ & _ & ->); (constructor; [|by apply buckets_remove]); cbn [snd lr_excess lr_last]; lia.
  - destruct Hr as (_ & l1 & Hx & Hr). pose proof (buckets_expired now now l l1 Hx Hb) as Hb1.
    destruct Hr as [(_ & _ & ->)|(a & _ & _ & _ & ->)]; [done|]. constructor; [cbn; lia|done].
Qed.

Lemma lookup_null z M l k : req_rep z M l ->
  (default 0 (fst <$> find_key k l) =? 0) = (if find_key k l is Some _ then false else true).
Proof.
  intros R. destruct (find_key k l) as [[a lr]|] eqn:E; [|done]. apply find_key_Some in E as [Hin _]. cbn. apply Z.eqb_neq. intros ->.
  apply (list_elem_of_fmap_2 fst) in Hin. by apply (rr_null _ _ _ R).
Qed.

Lemma run_spent key reqs : forall z M l t0 t t1 p m,
  req_rep z M l -> buckets_ok t l -> in_time t reqs t1 -> t0 <= t -> 0 <= p -> 0 <= m -> spent t0 t key l p m ->
  exists passed made z' M' l', run key reqs z = Some (passed, made, z') /\ req_rep z' M' l' /\ buckets_ok t1 l' /\
    spent t0 t1 key l' (p + passed) (m + made) /\ 0 <= passed /\ 0 <= made.
Proof.
  induction reqs as [|r reqs IH]; intros z M l t0 t t1 p m R Hb Ht H0 Hp Hm Hs; cbn [run in_time] in *.
  { exists 0, 0, z, M, l. split; [done|]. split; [done|]. split; [by eapply buckets_later|]. rewrite !Z.add_0_r. split; [|done].
    by eapply spent_later. }
  destruct Ht as (Ht & Hsl & Hrest). rewrite (rep_lookup R). cbn [mbind option_bind].
  destruct (lookup_spec rate burst (ar_now r) (ar_key r) true (ar_slab r) z M l R Hsl) as (rc & ep & node & z1 & M1 & l1 & -> & Hr & R1).
  cbn [mbind option_bind]. rewrite (lookup_null z M l (ar_key r) R).
  pose proof (lookup_buckets t _ _ _ _ _ _ _ Ht Hb Hr) as Hb1.
  set (mine := bytes_eqb (ar_key r) key && (rc =? NGX_OK)). set (fresh := if find_key (ar_key r) l is Some _ then false else true).
  assert (Hs1 : spent t0 (ar_now r) key l1 (p + (if mine then 1 else 0)) (m + (if mine && fresh then 1 else 0))).
  { unfold mine, fresh. destruct (bytes_eqb (ar_key r) key) eqn:Ek; cbn [andb].
    - apply bytes_eqb_eq in Ek. rewrite Ek in *. eapply spent_mine; [|exact Hb|done|done|exact Hs|exact Hr]. lia.
    - rewrite !Z.add_0_r. eapply spent_other; [|exact (rep_nodup_addrs R)|exact Hb|exact Ek|exact Hs|exact Hr]. lia. }
  destruct (IH z1 M1 l1 t0 (ar_now r) t1 (p + (if mine then 1 else 0)) (m + (if mine && fresh then 1 else 0)) R1 Hb1 Hrest) as
    (passed & made & z' & M' & l' & -> & R' & Hb' & Hs' & Hp' & Hm'); [lia|destruct mine; lia|destruct (mine && fresh); lia|exact Hs1|].
  cbn [mbind option_bind]. eexists _, _, z', M', l'. split; [done|]. split; [done|]. split; [done|].
  replace (p + (passed + (if mine then 1 else 0))) with (p + (if mine then 1 else 0) + passed) by lia.
  replace (m + (made + (if mine && fresh then 1 else 0))) with (m + (if mine && fresh then 1 else 0) + made) by lia.
  split; [done|]. destruct mine, fresh; cbn [andb]; lia.
Qed.

(** C14: the limit: of the requests that come to a zone between [t0] and [t1], where
    this limit is the only or the last one, those that are let through with a key are
    at most one and the burst, and the rate times the period, for each node that the
    key has had: the one that was there and those made after an entry has been
    removed. ([burst] and [rate] are in thousandths of a request and of a request per
    second, times are in milliseconds.) *)
Theorem limit_req_rate key reqs z M l t0 t1 :
  req_rep z M l -> buckets_ok t0 l -> in_time t0 reqs t1 ->
  exists passed made z', run key reqs z = Some (passed, made, z') /\
    1000000 * passed <= (made + 1) * (1000000 + 1000 * burst) + rate * (t1 - t0).
Proof.
  intros R Hb Ht. destruct (run_spent key reqs z M l t0 t0 t1 0 0 R Hb Ht ltac:(lia) ltac:(lia) ltac:(lia)) as
    (passed & made & z' & M' & l' & E & R' & Hb' & Hs & Hp & Hm); [by left|].
  exists passed, made, z'. split; [done|]. assert (H01 : t0 <= t1).
  { clear -Ht. revert t0 Ht. induction reqs as [|r reqs IH]; intros t0 Ht; cbn [in_time] in Ht; [done|]. destruct Ht as (H & _ & Ht). specialize (IH _ Ht). lia. }
  rewrite !Z.add_0_l in Hs. destruct Hs as [[-> ->]|(lives & Hl & Hs)]; [nia|]. destruct (find_key key l') as [[a lr]|] eqn:Ef.
  - destruct (bucket_in t1 key l' a lr Hb' Ef). nia.
  - nia.
Qed.

End Rate.

(** ** Examples *)

Lemma next_slab_unused : slab_unused next_slab.
Proof.
  intros z _. unfold next_slab. pose proof (is_fresh ({[0; rb_sentinel (rz_tree z); rz_head z]} ∪ dom (rz_nodes z) : gset Z)) as H.
  split; [set_solver + H|]. split; [set_solver + H|]. apply not_elem_of_dom. set_solver + H.
Qed.

Lemma sample_slab_ok : slab_ok sample_slab.
Proof. split; exact next_slab_unused. Qed.

(** Ten requests at once, with a burst of three. *)
Definition sample_reqs : list arrival := replicate 10 (mk_arrival 5000 (bytes "a") sample_slab) ++ [mk_arrival 6000 (bytes "b") sample_slab; mk_arrival 6000 (bytes "a") sample_slab].

Lemma limit_req_rate_witness : exists z z', limit_req_init_zone 1 2 = Some z /\
  run 1000 3000 (bytes "a") sample_reqs z = Some (5, 1, z') /\ 1000000 * 5 <= (1 + 1) * (1000000 + 1000 * 3000) + 1000 * (6000 - 5000).
Proof.
  destruct (init_req_rep 1 2) as (z & E & R). exists z.
  destruct (limit_req_rate 1000 3000 ltac:(lia) ltac:(lia) (bytes "a") sample_reqs z ∅ [] 5000 6000 R) as (p & m & z' & Er & Hb).
  - constructor.
  - cbn [sample_reqs replicate app in_time]. repeat (split; [cbn; lia|]; split; [exact sample_slab_ok|]). cbn. lia.
  - exists z'. split; [exact E|]. assert (Hpm : (p, m) = (5, 1)).
    { vm_compute in E. injection E as <-. vm_compute in Er. by injection Er as <- <- _. }
    injection Hpm as -> ->. split; [exact Er|exact Hb].
Defined.

(** A request in the middle of two limits. *)
Lemma limit_req_safe_witness : exists z a, req_reach 1000 z [a] /\ is_Some (account_node 1000 6000 a z) /\ is_Some (release_node a z).
Proof.
  destruct (limit_req_init_zone 1 2) as [z0|] eqn:E0; [|by vm_compute in E0]. pose proof (req_reach_init 1000 1 2 z0 E0) as H0.
  destruct (ngx_http_limit_req_lookup 1000 2000 5000 (ngx_crc32_short (bytes "a")) (bytes "a") false sample_slab z0) as [[[[rc ep] node] z1]|] eqn:E1.
  - pose proof (req_reach_lookup 1000 z0 [] 2000 5000 (bytes "a") false sample_slab rc ep node z1 H0 sample_slab_ok ltac:(cbn; lia) E1) as H1.
    assert (Hn : exists a, node = Some a) by (clear -E0 E1; vm_compute in E0; injection E0 as <-; vm_compute in E1; injection E1 as _ _ <- _; eauto).
    destruct Hn as [a ->]. exists z1, a. split; [exact H1|]. destruct (limit_req_safe 1000 z1 [a] H1) as [_ Hp].
    destruct (Hp a ltac:(by left)) as (Ha & Hr & _). split; [exact (Ha 6000)|exact Hr].
  - exfalso. clear -E0 E1. vm_compute in E0. injection E0 as <-. by vm_compute in E1.
Defined.
