(* ===== verification/Range.v ===== *)
(** * Byte ranges

    [ngx_http_range_parse] and the header and body filters of
    [src/http/modules/ngx_http_range_filter_module.c].  The header value is the
    list of its bytes, followed by the NUL at which [*p] reads 0; offsets
    ([off_t]) are 64-bit signed numbers.  [ok n] tells whether the [n]-th
    allocation of a function from the request's pool succeeds. *)

From S2P Require Import Prelude Fsm RequestLine Sprintf ChunkedFilter Strings Times StringNum.

(** ** Data *)

(** [ngx_http_range_t] *)
Record range : Type := mk_range {
  rg_start : Z;
  rg_end : Z;
  rg_content_range : list Z
}.

(** [ngx_http_range_filter_ctx_t] *)
Record range_ctx : Type := mk_range_ctx {
  rc_offset : Z;
  rc_boundary_header : list Z;
  rc_ranges : list range
}.

Definition NGX_HTTP_VERSION_10 : Z := 1000.
Definition NGX_HTTP_OK : Z := 200.
Definition NGX_HTTP_PARTIAL_CONTENT : Z := 206.
Definition NGX_HTTP_RANGE_NOT_SATISFIABLE : Z := 416.

(** ** ngx_http_range_parse *)

(** [*p], the NUL at the end included. *)
Definition cur (p : list Z) : Z := default 0 (head p).

Definition cutoff : Z := NGX_MAX_OFF_T_VALUE / 10.
Definition cutlim : Z := NGX_MAX_OFF_T_VALUE mod 10.

(** [while ( *p >= '0' && *p <= '9') { ... }]; [None] is the return of 416. *)
Fixpoint range_digits (v : Z) (p : list Z) : option (Z * list Z) :=
  match p with
  | c :: p' =>
      if (#"0" <=? c) && (c <=? #"9") then
        if (cutoff <=? v) && ((cutoff <? v) || (cutlim <? c - #"0")) then None
        else range_digits (i64 (v * 10 + c - #"0")) p'
      else Some (v, p)
  | [] => Some (v, [])
  end.

(** The range that ends at [p]: the bounds of the [if (suffix)] and the
    clipping after it. *)
Definition close_range (content_length : Z) (suffix : bool) (start end_ : Z) : Z * Z :=
  let (start, end_) :=
    if suffix then (i64 (content_length - end_), i64 (content_length - 1)) else (start, end_) in
  (start, if content_length <=? end_ then content_length else end_ + 1).

(** The second number of a range, its end and what follows, up to [found]. *)
Definition range_last (content_length : Z) (suffix : bool) (start : Z) (p : list Z)
    : option (Z * Z * list Z) :=
  if (cur p <? #"0") || (#"9" <? cur p) then None
  else match range_digits 0 p with
       | None => None
       | Some (end_, p) =>
           let p := skip_spaces p in
           if negb (cur p =? #",") && negb (cur p =? 0) then None
           else Some (close_range content_length suffix start end_, p)
       end.

(** One range, from the head of the loop to [found]: its bounds and [p]. *)
Definition range_spec (content_length : Z) (p : list Z) : option (Z * Z * list Z) :=
  let p := skip_spaces p in
  if cur p =? #"-" then range_last content_length true 0 (tail p)
  else if (cur p <? #"0") || (#"9" <? cur p) then None
  else match range_digits 0 p with
       | None => None
       | Some (start, p) =>
           let p := skip_spaces p in
           if negb (cur p =? #"-") then None
           else
             let p := skip_spaces (tail p) in
             if (cur p =? #",") || (cur p =? 0) then Some (start, content_length, p)
             else range_last content_length false start p
       end.

(** [for ( ;; )]: the ranges pushed so far, in their order, and the return
    code; [ok n] tells whether the array can grow when it holds [n] ranges. *)
Fixpoint parse_loop (fuel : nat) (ok : nat -> bool) (content_length : Z) (ranges size : Z)
    (out : list range) (p : list Z) : option (Z * list range) :=
  match fuel with
  | O => None
  | S fuel =>
      match range_spec content_length p with
      | None => Some (NGX_HTTP_RANGE_NOT_SATISFIABLE, out)
      | Some (start, end_, p) =>
          let next out ranges size :=
            if cur p =? #"," then parse_loop fuel ok content_length ranges size out (tail p)
            else if Nat.eqb (length out) 0 then Some (NGX_HTTP_RANGE_NOT_SATISFIABLE, out)
            else if content_length <? size then Some (NGX_DECLINED, out)
            else Some (NGX_OK, out) in
          if start <? end_ then
            if negb (ok (length out)) then Some (NGX_ERROR, out)
            else
              let out := out ++ [mk_range start end_ []] in
              let size := i64 (size + i64 (end_ - start)) in
              if ranges =? 0 then Some (NGX_DECLINED, out)
              else next out (u64 (ranges - 1)) size
          else next out ranges size
      end
  end.

(** [main_ctx] is the context of the main request, for a subrequest that finds
    one; [value] is [r->headers_in.range->value]. *)
Definition ngx_http_range_parse (ok : nat -> bool) (main_ctx : option range_ctx)
    (value : list Z) (content_length ranges : Z) : option (Z * list range) :=
  match main_ctx with
  | Some mctx => Some (NGX_OK, rc_ranges mctx)
  | None => parse_loop (S (length value)) ok content_length ranges 0 [] (drop 6 value)
  end.

(** ** The request, as the filters see it *)

(** An entry of the list [headers_out.headers]. *)
Record out_header : Type := mk_out_header {
  oh_hash : Z;
  oh_key : list Z;
  oh_value : list Z
}.

Record range_request : Type := mk_range_request {
  rr_http_version : Z;
  rr_main : bool;                       (** [r == r->main] *)
  rr_subrequest_ranges : bool;
  rr_single_range : bool;
  rr_allow_ranges : bool;
  rr_range : option (list Z);           (** [headers_in.range->value] *)
  rr_if_range : option (list Z);        (** [headers_in.if_range->value] *)
  rr_status : Z;                        (** [headers_out.status], and so on *)
  rr_status_line : list Z;
  rr_content_length_n : Z;
  rr_content_offset : Z;
  rr_content_length : option nat;       (** an entry of [rr_headers] *)
  rr_content_range : option nat;
  rr_accept_ranges : option nat;
  rr_etag : option (list Z);
  rr_last_modified_time : Z;
  rr_content_type : list Z;
  rr_content_type_lowcase : option (list Z);
  rr_content_type_len : Z;
  rr_charset : list Z;
  rr_headers : list out_header
}.

(** Assignments to a field. *)
Definition set_status (v : Z) (r : range_request) : range_request :=
  mk_range_request (rr_http_version r) (rr_main r) (rr_subrequest_ranges r) (rr_single_range r)
    (rr_allow_ranges r) (rr_range r) (rr_if_range r) v (rr_status_line r)
    (rr_content_length_n r) (rr_content_offset r) (rr_content_length r) (rr_content_range r)
    (rr_accept_ranges r) (rr_etag r) (rr_last_modified_time r) (rr_content_type r)
    (rr_content_type_lowcase r) (rr_content_type_len r) (rr_charset r) (rr_headers r).
Definition set_status_line (v : list Z) (r : range_request) : range_request :=
  mk_range_request (rr_http_version r) (rr_main r) (rr_subrequest_ranges r) (rr_single_range r)
    (rr_allow_ranges r) (rr_range r) (rr_if_range r) (rr_status r) v (rr_content_length_n r)
    (rr_content_offset r) (rr_content_length r) (rr_content_range r) (rr_accept_ranges r)
    (rr_etag r) (rr_last_modified_time r) (rr_content_type r) (rr_content_type_lowcase r)
    (rr_content_type_len r) (rr_charset r) (rr_headers r).
Definition set_content_length_n (v : Z) (r : range_request) : range_request :=
  mk_range_request (rr_http_version r) (rr_main r) (rr_subrequest_ranges r) (rr_single_range r)
    (rr_allow_ranges r) (rr_range r) (rr_if_range r) (rr_status r) (rr_status_line r) v
    (rr_content_offset r) (rr_content_length r) (rr_content_range r) (rr_accept_ranges r)
    (rr_etag r) (rr_last_modified_time r) (rr_content_type r) (rr_content_type_lowcase r)
    (rr_content_type_len r) (rr_charset r) (rr_headers r).
Definition set_content_offset (v : Z) (r : range_request) : range_request :=
  mk_range_request (rr_http_version r) (rr_main r) (rr_subrequest_ranges r) (rr_single_range r)
    (rr_allow_ranges r) (rr_range r) (rr_if_range r) (rr_status r) (rr_status_line r)
    (rr_content_length_n r) v (rr_content_length r) (rr_content_range r) (rr_accept_ranges r)
    (rr_etag r) (rr_last_modified_time r) (rr_content_type r) (rr_content_type_lowcase r)
    (rr_content_type_len r) (rr_charset r) (rr_headers r).
Definition set_content_length (v : option nat) (r : range_request) : range_request :=
  mk_range_request (rr_http_version r) (rr_main r) (rr_subrequest_ranges r) (rr_single_range r)
    (rr_allow_ranges r) (rr_range r) (rr_if_range r) (rr_status r) (rr_status_line r)
    (rr_content_length_n r) (rr_content_offset r) v (rr_content_range r) (rr_accept_ranges r)
    (rr_etag r) (rr_last_modified_time r) (rr_content_type r) (rr_content_type_lowcase r)
    (rr_content_type_len r) (rr_charset r) (rr_headers r).
Definition set_content_range (v : option nat) (r : range_request) : range_request :=
  mk_range_request (rr_http_version r) (rr_main r) (rr_subrequest_ranges r) (rr_single_range r)
    (rr_allow_ranges r) (rr_range r) (rr_if_range r) (rr_status r) (rr_status_line r)
    (rr_content_length_n r) (rr_content_offset r) (rr_content_length r) v (rr_accept_ranges r)
    (rr_etag r) (rr_last_modified_time r) (rr_content_type r) (rr_content_type_lowcase r)
    (rr_content_type_len r) (rr_charset r) (rr_headers r).
Definition set_accept_ranges (v : option nat) (r : range_request) : range_request :=
  mk_range_request (rr_http_version r) (rr_main r) (rr_subrequest_ranges r) (rr_single_range r)
    (rr_allow_ranges r) (rr_range r) (rr_if_range r) (rr_status r) (rr_status_line r)
    (rr_content_length_n r) (rr_content_offset r) (rr_content_length r) (rr_content_range r) v
    (rr_etag r) (rr_last_modified_time r) (rr_content_type r) (rr_content_type_lowcase r)
    (rr_content_type_len r) (rr_charset r) (rr_headers r).
Definition set_content_type (v : list Z) (r : range_request) : range_request :=
  mk_range_request (rr_http_version r) (rr_main r) (rr_subrequest_ranges r) (rr_single_range r)
    (rr_allow_ranges r) (rr_range r) (rr_if_range r) (rr_status r) (rr_status_line r)
    (rr_content_length_n r) (rr_content_offset r) (rr_content_length r) (rr_content_range r)
    (rr_accept_ranges r) (rr_etag r) (rr_last_modified_time r) v (rr_content_type_lowcase r)
    (rr_content_type_len r) (rr_charset r) (rr_headers r).
Definition set_content_type_lowcase (v : option (list Z)) (r : range_request) : range_request :=
  mk_range_request (rr_http_version r) (rr_main r) (rr_subrequest_ranges r) (rr_single_range r)
    (rr_allow_ranges r) (rr_range r) (rr_if_range r) (rr_status r) (rr_status_line r)
    (rr_content_length_n r) (rr_content_offset r) (rr_content_length r) (rr_content_range r)
    (rr_accept_ranges r) (rr_etag r) (rr_last_modified_time r) (rr_content_type r) v
    (rr_content_type_len r) (rr_charset r) (rr_headers r).
Definition set_content_type_len (v : Z) (r : range_request) : range_request :=
  mk_range_request (rr_http_version r) (rr_main r) (rr_subrequest_ranges r) (rr_single_range r)
    (rr_allow_ranges r) (rr_range r) (rr_if_range r) (rr_status r) (rr_status_line r)
    (rr_content_length_n r) (rr_content_offset r) (rr_content_length r) (rr_content_range r)
    (rr_accept_ranges r) (rr_etag r) (rr_last_modified_time r) (rr_content_type r)
    (rr_content_type_lowcase r) v (rr_charset r) (rr_headers r).
Definition set_charset (v : list Z) (r : range_request) : range_request :=
  mk_range_request (rr_http_version r) (rr_main r) (rr_subrequest_ranges r) (rr_single_range r)
    (rr_allow_ranges r) (rr_range r) (rr_if_range r) (rr_status r) (rr_status_line r)
    (rr_content_length_n r) (rr_content_offset r) (rr_content_length r) (rr_content_range r)
    (rr_accept_ranges r) (rr_etag r) (rr_last_modified_time r) (rr_content_type r)
    (rr_content_type_lowcase r) (rr_content_type_len r) v (rr_headers r).
Definition set_headers (v : list out_header) (r : range_request) : range_request :=
  mk_range_request (rr_http_version r) (rr_main r) (rr_subrequest_ranges r) (rr_single_range r)
    (rr_allow_ranges r) (rr_range r) (rr_if_range r) (rr_status r) (rr_status_line r)
    (rr_content_length_n r) (rr_content_offset r) (rr_content_length r) (rr_content_range r)
    (rr_accept_ranges r) (rr_etag r) (rr_last_modified_time r) (rr_content_type r)
    (rr_content_type_lowcase r) (rr_content_type_len r) (rr_charset r) v.

(** [ngx_list_push(&r->headers_out.headers)] with the fields set after it. *)
Definition push_header (key value : list Z) (r : range_request) : range_request :=
  set_headers (rr_headers r ++ [mk_out_header 1 key value]) r.

(** [if (r->headers_out.content_length) { ...->hash = 0; ... = NULL; }] *)
Definition drop_content_length (r : range_request) : range_request :=
  match rr_content_length r with
  | None => r
  | Some i =>
      set_content_length None
        (set_headers
           (alter (fun h => mk_out_header 0 (oh_key h) (oh_value h)) i (rr_headers r)) r)
  end.

(** [ngx_http_clear_content_length] *)
Definition clear_content_length (r : range_request) : range_request :=
  drop_content_length (set_content_length_n (-1) r).

(** How a header filter returns: through [ngx_http_next_header_filter], or with
    a code of its own; with the context it leaves. *)
Inductive filtered : Type :=
| Next_filter (r : range_request) (ctx : option range_ctx)
| Filter_return (rc : Z) (r : range_request) (ctx : option range_ctx).

(** ** The header filter

    [room] is the distance from a buffer to the end of the address space, which
    [ngx_sprintf] takes for its limit. *)

Definition ngx_http_range_singlepart_header (room : Z) (ok : nat -> bool)
    (r : range_request) (ctx : range_ctx) : option filtered :=
  if negb (rr_main r) then Some (Next_filter r (Some ctx))
  else if negb (ok 0%nat) then Some (Filter_return NGX_ERROR r (Some ctx))
  else
    match head (rc_ranges ctx) with
    | None => None
    | Some range =>
        if negb (ok 1%nat) then
          Some (Filter_return NGX_ERROR
                  (set_content_range (Some (length (rr_headers r)))
                     (push_header (bytes "Content-Range") [] r)) (Some ctx))
        else
          match vslprintf room (bytes "bytes %O-%O/%O")
                  [VNum (rg_start range); VNum (rg_end range - 1);
                   VNum (rr_content_length_n r)] with
          | None => None
          | Some value =>
              let r :=
                set_content_range (Some (length (rr_headers r)))
                  (push_header (bytes "Content-Range") value r) in
              let r := set_content_length_n (i64 (rg_end range - rg_start range)) r in
              let r := set_content_offset (rg_start range) r in
              Some (Next_filter (drop_content_length r) (Some ctx))
          end
    end.

(** The boundary header of the ranges, by the three formats of the code. *)
Definition boundary_header (room : Z) (r : range_request) (boundary : Z) : option (list Z) :=
  if (rr_content_type_len r =? Z.of_nat (length (rr_content_type r)))
     && negb (Nat.eqb (length (rr_charset r)) 0) then
    vslprintf room (CRLF ++ bytes "--%0muA" ++ CRLF
                    ++ bytes "Content-Type: %V; charset=%V" ++ CRLF
                    ++ bytes "Content-Range: bytes ")
      [VNum boundary; VStr (rr_content_type r); VStr (rr_charset r)]
  else if negb (Nat.eqb (length (rr_content_type r)) 0) then
    vslprintf room (CRLF ++ bytes "--%0muA" ++ CRLF ++ bytes "Content-Type: %V" ++ CRLF
                    ++ bytes "Content-Range: bytes ")
      [VNum boundary; VStr (rr_content_type r)]
  else
    vslprintf room (CRLF ++ bytes "--%0muA" ++ CRLF ++ bytes "Content-Range: bytes ")
      [VNum boundary].

(** The bytes allocated for it. *)
Definition boundary_header_size (r : range_request) : Z :=
  4 + NGX_ATOMIC_T_LEN + 16 + Z.of_nat (length (rr_content_type r)) + 23
  + (if (rr_content_type_len r =? Z.of_nat (length (rr_content_type r)))
        && negb (Nat.eqb (length (rr_charset r)) 0)
     then 10 + Z.of_nat (length (rr_charset r)) else 0).

(** The loop over the ranges: their [content_range] and the sum [len], a
    [size_t]; [None] on the left is [NGX_ERROR], the [n]-th allocation failed. *)
Fixpoint range_parts (room : Z) (ok : nat -> bool) (n : nat) (header_len content_length : Z)
    (len : Z) (ranges : list range) : option (option Z * list range) :=
  match ranges with
  | [] => Some (Some len, [])
  | rg :: ranges =>
      if negb (ok n) then Some (None, rg :: ranges)
      else
        match vslprintf room (bytes "%O-%O/%O" ++ CRLF ++ CRLF)
                [VNum (rg_start rg); VNum (rg_end rg - 1); VNum content_length] with
        | None => None
        | Some text =>
            let len := u64 (len + (header_len + Z.of_nat (length text)
                                   + u64 (rg_end rg - rg_start rg))) in
            match range_parts room ok (S n) header_len content_length len ranges with
            | None => None
            | Some (len, ranges) =>
                Some (len, mk_range (rg_start rg) (rg_end rg) text :: ranges)
            end
        end
  end.

(** [boundary] is [ngx_next_temp_number(0)].  When the second allocation fails
    [content_type.data] is NULL as the request ends. *)
Definition ngx_http_range_multipart_header (room : Z) (ok : nat -> bool) (boundary : Z)
    (r : range_request) (ctx : range_ctx) : option filtered :=
  if negb (ok 0%nat) then Some (Filter_return NGX_ERROR r (Some ctx))
  else
    match boundary_header room r boundary,
          vslprintf room (bytes "multipart/byteranges; boundary=%0muA") [VNum boundary] with
    | Some header, Some content_type =>
        let ctx := mk_range_ctx (rc_offset ctx) header (rc_ranges ctx) in
        if negb (ok 1%nat) then Some (Filter_return NGX_ERROR r (Some ctx))
        else
          let r' := set_content_type content_type (set_content_type_lowcase None r) in
          let r' := set_content_type_len (Z.of_nat (length content_type)) r' in
          let r' := set_charset [] r' in
          match range_parts room ok 2 (Z.of_nat (length header)) (rr_content_length_n r')
                  (4 + NGX_ATOMIC_T_LEN + 4) (rc_ranges ctx) with
          | None => None
          | Some (len, ranges) =>
              let ctx := mk_range_ctx (rc_offset ctx) header ranges in
              match len with
              | None => Some (Filter_return NGX_ERROR r' (Some ctx))
              | Some len =>
                  Some (Next_filter (drop_content_length (set_content_length_n (i64 len) r'))
                          (Some ctx))
              end
          end
    | _, _ => None
    end.

Definition ngx_http_range_not_satisfiable (room : Z) (ok : nat -> bool) (r : range_request)
    : option filtered :=
  let r := set_status NGX_HTTP_RANGE_NOT_SATISFIABLE r in
  if negb (ok 0%nat) then Some (Filter_return NGX_ERROR r None)
  else
    let at_ := Some (length (rr_headers r)) in
    if negb (ok 1%nat) then
      Some (Filter_return NGX_ERROR
              (set_content_range at_ (push_header (bytes "Content-Range") [] r)) None)
    else
      match vslprintf room (bytes "bytes */%O") [VNum (rr_content_length_n r)] with
      | None => None
      | Some value =>
          let r := set_content_range at_ (push_header (bytes "Content-Range") value r) in
          Some (Filter_return NGX_HTTP_RANGE_NOT_SATISFIABLE (clear_content_length r) None)
      end.

(** The conditions of If-Range: [true] for [goto parse], [false] for
    [goto next_filter]; [None] if a comparison reads past the strings. *)
Definition if_range_matches (r : range_request) : option bool :=
  match rr_if_range r with
  | None => Some true
  | Some if_range =>
      let len := Z.of_nat (length if_range) in
      if (2 <=? len) && (byte_at if_range (len - 1) =? 34) then
        match rr_etag r with
        | None => Some false
        | Some etag =>
            if negb (Nat.eqb (length if_range) (length etag)) then Some false
            else match ngx_strncmp if_range etag (length etag) with
                 | None => None
                 | Some c => Some (c =? 0)
                 end
        end
      else if rr_last_modified_time r =? -1 then Some false
      else match ngx_parse_http_time if_range with
           | None => None
           | Some if_range_time => Some (if_range_time =? rr_last_modified_time r)
           end
  end.

(** [next_filter:] *)
Definition accept_bytes (push : bool) (r : range_request) : filtered :=
  if negb push then Filter_return NGX_ERROR (set_accept_ranges None r) None
  else
    Next_filter
      (set_accept_ranges (Some (length (rr_headers r)))
         (push_header (bytes "Accept-Ranges") (bytes "bytes") r)) None.

(** The allocations of one call: of the context and its array (0 and 1), of the
    array's growth, of the header functions, and of the entry Accept-Ranges. *)
Record range_allocs : Type := mk_range_allocs {
  al_ctx : bool;
  al_array : bool;
  al_push : nat -> bool;
  al_header : nat -> bool;
  al_accept : bool
}.

(** [main_ctx] is the context of this module in [r->main], [max_ranges] that of
    the location. *)
Definition ngx_http_range_header_filter (room : Z) (al : range_allocs) (boundary max_ranges : Z)
    (main_ctx : option range_ctx) (r : range_request) : option filtered :=
  if (rr_http_version r <? NGX_HTTP_VERSION_10)
     || negb (rr_status r =? NGX_HTTP_OK)
     || (negb (rr_main r) && negb (rr_subrequest_ranges r))
     || (rr_content_length_n r =? -1)
     || negb (rr_allow_ranges r)
  then Some (Next_filter r None)
  else if max_ranges =? 0 then Some (Next_filter r None)
  else
    match rr_range r with
    | None => Some (accept_bytes (al_accept al) r)
    | Some value =>
        if Z.of_nat (length value) <? 7 then Some (accept_bytes (al_accept al) r)
        else
          match ngx_strncasecmp value (bytes "bytes=") 6, if_range_matches r with
          | None, _ => None
          | Some c, go =>
              if negb (c =? 0) then Some (accept_bytes (al_accept al) r)
              else
                match go with
                | None => None
                | Some false => Some (accept_bytes (al_accept al) r)
                | Some true =>
                    if negb (al_ctx al && al_array al) then Some (Filter_return NGX_ERROR r None)
                    else
                      let ranges := if rr_single_range r then 1 else max_ranges in
                      match ngx_http_range_parse (al_push al)
                              (if rr_main r then None else main_ctx)
                              value (rr_content_length_n r) ranges with
                      | None => None
                      | Some (rc, out) =>
                          if rc =? NGX_OK then
                            let ctx := mk_range_ctx (rr_content_offset r) [] out in
                            let r := set_status_line []
                                       (set_status NGX_HTTP_PARTIAL_CONTENT r) in
                            if Nat.eqb (length out) 1 then
                              ngx_http_range_singlepart_header room (al_header al) r ctx
                            else
                              ngx_http_range_multipart_header room (al_header al) boundary r ctx
                          else if rc =? NGX_HTTP_RANGE_NOT_SATISFIABLE then
                            ngx_http_range_not_satisfiable room (al_header al) r
                          else if rc =? NGX_ERROR then Some (Filter_return NGX_ERROR r None)
                          else Some (accept_bytes (al_accept al) r)
                      end
                end
          end
    end.

(** ** The body filter *)

(** [ngx_buf_t]: [bf_pos] and [bf_last] point into the memory [bf_mem],
    [bf_file_pos] and [bf_file_last] are offsets in the file [bf_file]. *)
Record buf : Type := mk_buf {
  bf_mem : list Z; bf_pos : Z; bf_last : Z;
  bf_file : list Z; bf_file_pos : Z; bf_file_last : Z;
  bf_temporary : bool; bf_memory : bool; bf_mmap : bool; bf_in_file : bool;
  bf_flush : bool; bf_sync : bool; bf_last_buf : bool
}.

Definition ngx_buf_in_memory (b : buf) : bool := bf_temporary b || bf_memory b || bf_mmap b.

Definition ngx_buf_special (b : buf) : bool :=
  (bf_flush b || bf_last_buf b || bf_sync b) && negb (ngx_buf_in_memory b)
  && negb (bf_in_file b).

Definition ngx_buf_size (b : buf) : Z :=
  if ngx_buf_in_memory b then bf_last b - bf_pos b else bf_file_last b - bf_file_pos b.

(** Assignments to the positions, and to the flags [sync] and [last_buf]. *)
Definition set_mem (pos last : Z) (b : buf) : buf :=
  mk_buf (bf_mem b) pos last (bf_file b) (bf_file_pos b) (bf_file_last b) (bf_temporary b)
    (bf_memory b) (bf_mmap b) (bf_in_file b) (bf_flush b) (bf_sync b) (bf_last_buf b).
Definition set_file (pos last : Z) (b : buf) : buf :=
  mk_buf (bf_mem b) (bf_pos b) (bf_last b) (bf_file b) pos last (bf_temporary b)
    (bf_memory b) (bf_mmap b) (bf_in_file b) (bf_flush b) (bf_sync b) (bf_last_buf b).
Definition set_ends (sync last_buf : bool) (b : buf) : buf :=
  mk_buf (bf_mem b) (bf_pos b) (bf_last b) (bf_file b) (bf_file_pos b) (bf_file_last b)
    (bf_temporary b) (bf_memory b) (bf_mmap b) (bf_in_file b) (bf_flush b) sync last_buf.

(** A buffer outside the range: consumed. *)
Definition skip_buf (b : buf) : buf :=
  let b := if bf_in_file b then set_file (bf_file_last b) (bf_file_last b) b else b in
  set_ends true (bf_last_buf b) (set_mem (bf_last b) (bf_last b) b).

(** [if (range->start > start)] *)
Definition cut_head (n : Z) (b : buf) : buf :=
  let b := if bf_in_file b then set_file (bf_file_pos b + n) (bf_file_last b) b else b in
  if ngx_buf_in_memory b then set_mem (bf_pos b + n) (bf_last b) b else b.

(** [if (range->end <= last)] *)
Definition cut_tail (n : Z) (b : buf) : buf :=
  let b := if bf_in_file b then set_file (bf_file_pos b) (bf_file_last b - n) b else b in
  if ngx_buf_in_memory b then set_mem (bf_pos b) (bf_last b - n) b else b.

(** [for (cl = in; cl; cl = cl->next)]: [ctx->offset], the buffers of [in] as
    they are left, and the chain [out]. *)
Fixpoint singlepart_loop (rg : range) (offset : Z) (in_ : list buf)
    : Z * list buf * list buf :=
  match in_ with
  | [] => (offset, [], [])
  | b :: in_' =>
      let start := offset in
      let last := offset + ngx_buf_size b in
      let rest b' out :=
        match singlepart_loop rg last in_' with
        | (offset, left_, out') => (offset, b' :: left_, out ++ out')
        end in
      if ngx_buf_special b then rest b [b]
      else if (rg_end rg <=? start) || (last <=? rg_start rg) then rest (skip_buf b) []
      else
        let b := if start <? rg_start rg then cut_head (rg_start rg - start) b else b in
        if rg_end rg <=? last then
          let b := cut_tail (last - rg_end rg) b in
          let b := set_ends (bf_sync b) true b in
          (last, b :: in_', [b])
        else rest b [b]
  end.

(** What a body filter passes on: the chain given to
    [ngx_http_next_body_filter], or nothing and a return code. *)
Inductive passed : Type :=
| Next_body (out : list buf)
| Body_return (rc : Z).

Definition set_offset (v : Z) (ctx : range_ctx) : range_ctx :=
  mk_range_ctx v (rc_boundary_header ctx) (rc_ranges ctx).

Definition ngx_http_range_singlepart_body (ctx : range_ctx) (in_ : list buf)
    : option (range_ctx * list buf * passed) :=
  match head (rc_ranges ctx) with
  | None => None
  | Some rg =>
      let '(offset, left_, out) := singlepart_loop rg (rc_offset ctx) in_ in
      Some (set_offset offset ctx, left_,
            match out with [] => Body_return NGX_OK | _ => Next_body out end)
  end.

(** [NGX_ERROR] for [goto overlapped]. *)
Definition ngx_http_range_test_overlapped (ctx : range_ctx) (b : buf) : Z * range_ctx :=
  if negb (rc_offset ctx =? 0) then (NGX_ERROR, ctx)
  else
    let start := rc_offset ctx in
    let last := rc_offset ctx + ngx_buf_size b in
    if negb (bf_last_buf b)
       && existsb (fun rg => (rg_start rg <? start) || (last <? rg_end rg)) (rc_ranges ctx)
    then (NGX_ERROR, ctx)
    else (NGX_OK, set_offset (ngx_buf_size b) ctx).

(** The three buffers of a range: its boundary header, "SSSS-EEEE/TTTT" and its
    data; [ngx_calloc_buf] clears the fields that are not set. *)
Definition header_buf (text : list Z) : buf :=
  mk_buf text 0 (Z.of_nat (length text)) [] 0 0 false true false false false false false.
Definition content_range_buf (text : list Z) : buf :=
  mk_buf text 0 (Z.of_nat (length text)) [] 0 0 true false false false false false false.
Definition data_buf (b : buf) (rg : range) : buf :=
  let d := mk_buf (bf_mem b) 0 0 (bf_file b) 0 0 (bf_temporary b) (bf_memory b) (bf_mmap b)
             (bf_in_file b) false false false in
  let d := if bf_in_file b
           then set_file (bf_file_pos b + rg_start rg) (bf_file_pos b + rg_end rg) d else d in
  if ngx_buf_in_memory b then set_mem (bf_pos b + rg_start rg) (bf_pos b + rg_end rg) d else d.

(** The last boundary: 24 bytes of the header copied, and "--" CRLF. *)
Definition last_boundary (header : list Z) : list Z :=
  take (4 + Z.to_nat NGX_ATOMIC_T_LEN) header ++ [ #"-"; #"-" ] ++ CRLF.
Definition last_boundary_buf (header : list Z) : buf :=
  let text := last_boundary header in
  mk_buf text 0 (Z.of_nat (length text)) [] 0 0 true false false false false false true.

(** Six allocations for each range and three for the end; [None] is
    [NGX_ERROR]. *)
Fixpoint multipart_loop (ok : nat -> bool) (n : nat) (header : list Z) (b : buf)
    (ranges : list range) : option (list buf) :=
  match ranges with
  | [] =>
      if ok n && ok (n + 1)%nat && ok (n + 2)%nat then Some [last_boundary_buf header] else None
  | rg :: ranges =>
      if ok n && ok (n + 1)%nat && ok (n + 2)%nat && ok (n + 3)%nat && ok (n + 4)%nat
         && ok (n + 5)%nat then
        match multipart_loop ok (n + 6) header b ranges with
        | None => None
        | Some out =>
            Some (header_buf header :: content_range_buf (rg_content_range rg)
                  :: data_buf b rg :: out)
        end
      else None
  end.

Definition ngx_http_range_multipart_body (ok : nat -> bool) (ctx : range_ctx) (b : buf)
    : passed :=
  match multipart_loop ok 0 (rc_boundary_header ctx) b (rc_ranges ctx) with
  | None => Body_return NGX_ERROR
  | Some out => Next_body out
  end.

(** [r]'s context is [ctx]; the result is the context and the buffers of [in_]
    as the call leaves them, and what it passes on. *)
Definition ngx_http_range_body_filter (ok : nat -> bool) (ctx : option range_ctx)
    (in_ : list buf) : option (option range_ctx * list buf * passed) :=
  match in_, ctx with
  | [], _ | _, None => Some (ctx, in_, Next_body in_)
  | b :: _, Some ctx =>
      if Nat.eqb (length (rc_ranges ctx)) 1 then
        match ngx_http_range_singlepart_body ctx in_ with
        | None => None
        | Some (ctx, left_, out) => Some (Some ctx, left_, out)
        end
      else if ngx_buf_special b then Some (Some ctx, in_, Next_body in_)
      else
        match ngx_http_range_test_overlapped ctx b with
        | (rc, ctx) =>
            if negb (rc =? NGX_OK) then Some (Some ctx, in_, Body_return NGX_ERROR)
            else Some (Some ctx, in_, ngx_http_range_multipart_body ok ctx b)
        end
  end.

(** ** Examples *)

Definition sample_request (value : string) (length_ : Z) : range_request :=
  mk_range_request 1001 true false false true (Some (bytes value)) None 200 [] length_ 0
    (Some 0%nat) None None None (-1) (bytes "text/plain") None 10 []
    [mk_out_header 1 (bytes "Content-Length") (bytes "10")].

Definition all_ok : range_allocs := mk_range_allocs true true (fun _ => true) (fun _ => true) true.

Definition sample_header (value : string) (length_ : Z) : option filtered :=
  ngx_http_range_header_filter (2 ^ 40) all_ok 17 (2 ^ 64 - 1) None (sample_request value length_).

Definition sample_ranges (f : option filtered) : option (Z * list (Z * Z) * list (list Z)) :=
  match f with
  | Some (Next_filter r (Some ctx)) =>
      Some (rr_content_length_n r, map (fun rg => (rg_start rg, rg_end rg)) (rc_ranges ctx),
            map oh_value (rr_headers r))
  | _ => None
  end.

Example range_single : sample_ranges (sample_header "bytes=2-4" 10) =
  Some (3, [(2, 5)], [bytes "10"; bytes "bytes 2-4/10"]).
Proof. vm_compute. reflexivity. Qed.

Example range_suffix : sample_ranges (sample_header "Bytes= 2 - 4 , -3" 10) =
  Some (200, [(2, 5); (7, 10)], [bytes "10"]).
Proof. vm_compute. reflexivity. Qed.

Definition multi_body (value : string) (body : list Z) : option (list Z) :=
  match sample_header value (Z.of_nat (length body)) with
  | Some (Next_filter r ctx) =>
      match ngx_http_range_body_filter (fun _ => true) ctx
              [mk_buf body 0 (Z.of_nat (length body)) [] 0 0 true false false false false false
                 true] with
      | Some (_, _, Next_body out) =>
          Some (concat (map (fun b => slice (bf_mem b) (bf_pos b) (bf_last b)) out))
      | _ => None
      end
  | _ => None
  end.

Example range_multi : multi_body "bytes=0-1,-2" (bytes "0123456789") =
  Some (CRLF ++ bytes "--00000000000000000017" ++ CRLF ++ bytes "Content-Type: text/plain"
        ++ CRLF ++ bytes "Content-Range: bytes 0-1/10" ++ CRLF ++ CRLF ++ bytes "01"
        ++ CRLF ++ bytes "--00000000000000000017" ++ CRLF ++ bytes "Content-Type: text/plain"
        ++ CRLF ++ bytes "Content-Range: bytes 8-9/10" ++ CRLF ++ CRLF ++ bytes "89"
        ++ CRLF ++ bytes "--00000000000000000017--" ++ CRLF).
Proof. vm_compute. reflexivity. Qed.
