(* ===== verification/RangeParse.v ===== *)
(** * The ranges a header asks for

    What [ngx_http_range_parse] accepts and returns: on any header, that the
    ranges lie in the body as long as their sizes do not overflow an [off_t];
    on a list of range specifications, which ranges it serves. *)

From S2P Require Import Prelude Fsm RequestLine Sprintf ChunkedFilter Strings Times StringNum Range.

Ltac Zify.zify_post_hook ::= Z.to_euclidean_division_equations.

(** ** Numbers and spaces *)

(** Text that does not continue a number. *)
Definition no_digit (p : list Z) : Prop := digitb (cur p) = false.

Lemma range_digits_spec ds : forall v p,
  0 <= v <= NGX_MAX_OFF_T_VALUE -> forallb digitb ds = true -> no_digit p ->
  range_digits v (ds ++ p) =
    if dec_from v ds <=? NGX_MAX_OFF_T_VALUE then Some (dec_from v ds, p) else None.
Proof.
  induction ds as [|c ds IH]; intros v p Hv Hds Hp.
  - cbn [dec_from fold_left app]. assert ((v <=? NGX_MAX_OFF_T_VALUE) = true) as -> by lia.
    destruct p as [|c p]; [done|]. unfold no_digit, digitb, cur in Hp. cbn in Hp.
    cbn [range_digits]. by rewrite Hp.
  - cbn [forallb] in Hds. apply andb_true_iff in Hds as [Hc Hds]. unfold digitb in Hc.
    cbn [app range_digits]. rewrite Hc. unfold cutoff, cutlim.
    rewrite cutoff_exact by (unfold NGX_MAX_OFF_T_VALUE; lia).
    change (dec_from v (c :: ds)) with (dec_from (v * 10 + (c - 48)) ds).
    destruct (NGX_MAX_OFF_T_VALUE <? v * 10 + (c - 48)) eqn:E.
    + pose proof (dec_from_grows ds (v * 10 + (c - 48)) ltac:(lia) Hds).
      by assert ((dec_from (v * 10 + (c - 48)) ds <=? NGX_MAX_OFF_T_VALUE) = false) as -> by lia.
    + replace (i64 (v * 10 + c - 48)) with (v * 10 + (c - 48)).
      * apply IH; [lia|done|done].
      * unfold i64. unfold NGX_MAX_OFF_T_VALUE in E. rewrite Z.mod_small; lia.
Qed.

Lemma range_digits_bounds p : forall v v' p',
  0 <= v <= NGX_MAX_OFF_T_VALUE -> range_digits v p = Some (v', p') ->
  0 <= v' <= NGX_MAX_OFF_T_VALUE /\ (length p' <= length p)%nat.
Proof.
  induction p as [|c p IH]; intros v v' p' Hv; cbn [range_digits]; [intros [= <- <-]; cbn; lia|].
  case_ifs; try done.
  - intros H. unfold cutoff, cutlim in *. rewrite cutoff_exact in * by (unfold NGX_MAX_OFF_T_VALUE; lia).
    assert (Hi : 0 <= i64 (v * 10 + c - 48) <= NGX_MAX_OFF_T_VALUE).
    { unfold i64, NGX_MAX_OFF_T_VALUE in *. rewrite Z.mod_small; lia. }
    destruct (IH _ _ _ Hi H). cbn [length]. lia.
  - intros [= <- <-]. cbn. lia.
Qed.

(** [n] spaces before text that does not start with one. *)
Lemma skip_spaces_app n p :
  cur p <> #" " -> skip_spaces (replicate n (#" ") ++ p) = p.
Proof.
  intros H. induction n as [|n IH]; [|exact IH]. destruct p as [|c p]; [done|].
  unfold cur in H. cbn in *. by destruct (c =? 32) eqn:E; [lia|].
Qed.

(** ** One range *)

Lemma length_tail_lt (p : list Z) : cur p <> 0 -> (length (tail p) < length p)%nat.
Proof. destruct p; cbn; [done|lia]. Qed.

(** What a range that is pushed satisfies: it ends in the body, and it starts
    there too unless it is a suffix longer than the body. *)
Definition range_ok (content_length : Z) (start end_ : Z) : Prop :=
  start < end_ -> end_ <= content_length /\ end_ - start <= NGX_MAX_OFF_T_VALUE
                  /\ (0 <= start \/ end_ = content_length).

Lemma range_last_bounds cl suffix start p s e p' :
  0 <= cl <= NGX_MAX_OFF_T_VALUE -> 0 <= start <= NGX_MAX_OFF_T_VALUE ->
  range_last cl suffix start p = Some (s, e, p') ->
  range_ok cl s e /\ (length p' <= length p)%nat.
Proof.
  intros Hcl Hs. unfold range_last. case_ifs; try done.
  destruct (range_digits 0 p) as [[v p1]|] eqn:E; [|done].
  apply range_digits_bounds in E as [Hv Hl]; [|unfold NGX_MAX_OFF_T_VALUE; lia].
  case_ifs; try done. intros [= Hc <-]. pose proof (skip_spaces_length p1).
  split; [|lia]. unfold close_range in Hc. unfold range_ok, NGX_MAX_OFF_T_VALUE in *.
  destruct suffix.
  - unfold i64 in Hc. rewrite !Z.mod_small in Hc by lia.
    injection Hc as <- <-. case_ifs; lia.
  - injection Hc as <- <-. case_ifs; lia.
Qed.

Lemma range_spec_bounds cl p s e p' :
  0 <= cl <= NGX_MAX_OFF_T_VALUE -> range_spec cl p = Some (s, e, p') ->
  range_ok cl s e /\ (length p' < length p)%nat.
Proof.
  intros Hcl. unfold range_spec. pose proof (skip_spaces_length p) as Hp.
  destruct (cur (skip_spaces p) =? 45) eqn:E0.
  { intros H. pose proof (length_tail_lt (skip_spaces p) ltac:(lia)).
    apply range_last_bounds in H as [H Hl]; [split; [done|lia]|done|unfold NGX_MAX_OFF_T_VALUE; lia]. }
  case_ifs; try done.
  destruct (range_digits 0 _) as [[v p1]|] eqn:E; [|done].
  apply range_digits_bounds in E as [Hv Hl]; [|unfold NGX_MAX_OFF_T_VALUE; lia].
  pose proof (skip_spaces_length p1) as Hp1.
  destruct (cur (skip_spaces p1) =? 45) eqn:E1; [|done]. cbn [negb].
  pose proof (length_tail_lt (skip_spaces p1) ltac:(lia)).
  pose proof (skip_spaces_length (tail (skip_spaces p1))).
  destruct ((_ =? #",") || _).
  - intros [= <- <- <-]. split; [unfold range_ok; lia|lia].
  - intros H2. apply range_last_bounds in H2 as [H2 Hl2]; [split; [done|lia]|done|lia].
Qed.

(** ** The sizes *)

Definition total (out : list range) : Z :=
  foldr (fun rg s => rg_end rg - rg_start rg + s) 0 out.

Lemma total_cons rg out : total (rg :: out) = rg_end rg - rg_start rg + total out.
Proof. done. Qed.

Lemma range_total_app out1 out2 : total (out1 ++ out2) = total out1 + total out2.
Proof. induction out1 as [|rg out1 IH]; [done|]. cbn [app]. rewrite !total_cons. lia. Qed.

Lemma off_small x : - 2 ^ 63 <= x < 2 ^ 63 -> i64 x = x.
Proof. intros. unfold i64. rewrite Z.mod_small; lia. Qed.

Lemma i64_add x y : i64 (i64 x + y) = i64 (x + y).
Proof.
  unfold i64. f_equal.
  replace ((x + 2 ^ 63) mod 2 ^ 64 - 2 ^ 63 + y + 2 ^ 63)
    with ((x + 2 ^ 63) mod 2 ^ 64 + y) by lia.
  rewrite Zplus_mod_idemp_l. f_equal. lia.
Qed.

Lemma u64_pred n : 0 <= n < 2 ^ 64 -> n <> 0 -> u64 (n - 1) = n - 1.
Proof. intros. unfold u64. rewrite Z.mod_small; lia. Qed.

(** ** Any header *)

(** A range as it is pushed. *)
Definition pushed (cl : Z) (rg : range) : Prop :=
  rg_start rg < rg_end rg /\ range_ok cl (rg_start rg) (rg_end rg).

(** What the loop returns, when [n] more ranges may be pushed after [out]. *)
Definition parsed (cl n : Z) (out : list range) (r : option (Z * list range)) : Prop :=
  exists rc more, r = Some (rc, out ++ more) /\ Forall (pushed cl) more /\
    (rc = NGX_OK -> out ++ more <> [] /\ Z.of_nat (length more) <= n /\
      i64 (total (out ++ more)) <= cl).

Lemma parsed_here cl n out rc :
  rc <> NGX_OK -> parsed cl n out (Some (rc, out)).
Proof. intros. exists rc, []. rewrite app_nil_r. split_and!; [done|constructor|done]. Qed.

Lemma parsed_push cl n m out rg r :
  pushed cl rg -> m = n - 1 -> parsed cl m (out ++ [rg]) r -> parsed cl n out r.
Proof.
  intros Hrg -> (rc & more & -> & Hm & Hok). exists rc, (rg :: more).
  rewrite <-app_assoc in *. split_and!; [done|by constructor|].
  intros H. apply Hok in H as (H1 & H2 & H3). split_and!; [done|cbn [length]; lia|done].
Qed.

Lemma parse_loop_parsed ok cl fuel : 0 <= cl <= NGX_MAX_OFF_T_VALUE -> forall n size out p,
  (length p < fuel)%nat -> 0 <= n < 2 ^ 64 -> size = i64 (total out) ->
  parsed cl n out (parse_loop fuel ok cl n size out p).
Proof.
  intros Hcl. induction fuel as [|fuel IH]; intros n size out p Hf Hn Hsize; [lia|].
  cbn [parse_loop].
  destruct (range_spec cl p) as [[[s e] p']|] eqn:E; [|by apply parsed_here].
  apply range_spec_bounds in E as [Hr Hl]; [|done].
  assert (Hnext : forall out n size, 0 <= n < 2 ^ 64 -> size = i64 (total out) ->
    parsed cl n out
      (if cur p' =? 44 then parse_loop fuel ok cl n size out (tail p')
       else if Nat.eqb (length out) 0 then Some (NGX_HTTP_RANGE_NOT_SATISFIABLE, out)
       else if cl <? size then Some (NGX_DECLINED, out) else Some (NGX_OK, out))).
  { clear out n size Hn Hsize. intros out n size Hn Hsize.
    destruct (cur p' =? 44) eqn:Ec.
    - apply IH; [|done|done]. destruct p'; cbn in *; lia.
    - case_ifs; [by apply parsed_here..|].
      exists NGX_OK, []. rewrite app_nil_r. split_and!; [done|constructor|].
      intros _. split_and!; [by destruct out|cbn; lia|lia]. }
  destruct (s <? e) eqn:Ese; [|by apply Hnext].
  destruct (ok (length out)); [|by apply parsed_here]. cbn [negb].
  assert (Hp : pushed cl (mk_range s e [])) by (split; [cbn; lia|exact Hr]).
  destruct (n =? 0) eqn:En.
  { apply (parsed_push _ _ (n - 1) _ _ _ Hp eq_refl). by apply parsed_here. }
  apply (parsed_push _ _ (n - 1) _ _ _ Hp eq_refl).
  rewrite (u64_pred n Hn) by lia. apply Hnext; [lia|].
  rewrite range_total_app, Hsize, i64_add. f_equal.
  destruct (Hr ltac:(lia)) as (_ & Hse & _).
  unfold NGX_MAX_OFF_T_VALUE in *. rewrite off_small by lia. cbn. lia.
Qed.

Lemma total_pushed cl out : Forall (pushed cl) out -> 0 <= total out.
Proof.
  induction 1 as [|rg out [H _] _ IH]; [done|]. rewrite total_cons. lia.
Qed.

Lemma pushed_inside cl out :
  Forall (pushed cl) out -> total out <= cl ->
  Forall (fun rg => 0 <= rg_start rg < rg_end rg /\ rg_end rg <= cl) out.
Proof.
  intros H. induction H as [|rg out [H1 H2] H IH]; [constructor|].
  pose proof (total_pushed _ _ H). rewrite total_cons. intros Ht.
  destruct (H2 H1) as (? & ? & ?). constructor; [lia|]. apply IH. lia.
Qed.

Lemma parse_inside ok value cl max_ranges :
  0 <= cl <= NGX_MAX_OFF_T_VALUE -> 0 <= max_ranges < 2 ^ 64 ->
  exists rc out, ngx_http_range_parse ok None value cl max_ranges = Some (rc, out) /\
    Forall (fun rg => rg_start rg < rg_end rg <= cl) out /\
    (rc = NGX_OK -> out <> [] /\ Z.of_nat (length out) <= max_ranges /\
      (total out < 2 ^ 63 \/ length out = 1%nat ->
       total out <= cl /\ Forall (fun rg => 0 <= rg_start rg) out)).
Proof.
  intros Hcl Hn. unfold ngx_http_range_parse.
  destruct (parse_loop_parsed ok cl (S (length value)) Hcl max_ranges 0 [] (drop 6 value))
    as (rc & out & -> & Hp & Hok); [rewrite length_drop; lia|done|done|].
  exists rc, out. cbn [app] in *. split_and!; [done| |].
  - eapply Forall_impl; [exact Hp|]. intros rg [H1 H2]. destruct (H2 H1). lia.
  - intros H. destruct (Hok H) as (Hne & Hl & Ht). split_and!; [done|done|].
    intros Hsum. pose proof (total_pushed _ _ Hp).
    assert (Hlt : total out < 2 ^ 63).
    { destruct Hsum as [|H1]; [done|]. destruct out as [|rg [|]]; try done.
      inversion Hp as [|? ? [Ha Hb] _]; subst. destruct (Hb Ha) as (_ & Hse & _).
      rewrite total_cons. unfold NGX_MAX_OFF_T_VALUE in *. cbn. lia. }
    rewrite off_small in Ht by lia. split; [done|].
    eapply Forall_impl; [exact (pushed_inside _ _ Hp Ht)|]. cbn. intros; lia.
Qed.

(** Whatever the header, the parser ends; each range it has pushed is not
    empty and ends in the body.  When it accepts, there is a range, there are
    at most [max_ranges], and as long as the sum of their sizes is below 2^63
    every range starts in the body too: that covers any header with a single
    range. *)
Theorem range_parse_inside ok value cl max_ranges :
  0 <= cl <= NGX_MAX_OFF_T_VALUE -> 0 <= max_ranges < 2 ^ 64 ->
  exists rc out, ngx_http_range_parse ok None value cl max_ranges = Some (rc, out) /\
    Forall (fun rg => rg_start rg < rg_end rg <= cl) out /\
    (rc = NGX_OK -> out <> [] /\ Z.of_nat (length out) <= max_ranges /\
      (total out < 2 ^ 63 \/ length out = 1%nat ->
       total out <= cl /\ Forall (fun rg => 0 <= rg_start rg) out)).
Proof. apply parse_inside. Qed.

Lemma range_parse_inside_witness :
  exists rc out, ngx_http_range_parse (fun _ => true) None (bytes "bytes=0-1,-2") 10 5
                 = Some (rc, out) /\
    Forall (fun rg => rg_start rg < rg_end rg <= 10) out /\
    (rc = NGX_OK -> out <> [] /\ Z.of_nat (length out) <= 5 /\
      (total out < 2 ^ 63 \/ length out = 1%nat ->
       total out <= 10 /\ Forall (fun rg => 0 <= rg_start rg) out)).
Proof. apply range_parse_inside; unfold NGX_MAX_OFF_T_VALUE; lia. Defined.

(** Two suffixes whose sizes add up to more than 2^63: the sum is negative and
    the header is accepted, with ranges that start far before the body. *)
Theorem range_size_overflow :
  ngx_http_range_parse (fun _ => true) None
    (bytes "bytes=-600,-9223372036854775208") 500 5 =
  Some (NGX_OK, [mk_range (-100) 500 []; mk_range (-9223372036854774708) 500 []]).
Proof. vm_compute. reflexivity. Qed.

(** ** Lists of range specifications *)

(** A specification, its numbers as digits: [a-b], [a-] or [-n]. *)
Inductive rspec : Type :=
| From_to (a b : list Z)
| From (a : list Z)
| Suffix (n : list Z).

(** A specification and the spaces around its parts. *)
Record spaced : Type := mk_spaced {
  sp_before : nat; sp_dash : nat; sp_last : nat; sp_after : nat;
  sp_spec : rspec
}.

Definition sp (n : nat) : list Z := replicate n (#" ").

Definition spec_text (s : spaced) : list Z :=
  sp (sp_before s) ++
  match sp_spec s with
  | From_to a b => a ++ sp (sp_dash s) ++ [ #"-" ] ++ sp (sp_last s) ++ b ++ sp (sp_after s)
  | From a => a ++ sp (sp_dash s) ++ [ #"-" ] ++ sp (sp_last s)
  | Suffix n => [ #"-" ] ++ n ++ sp (sp_after s)
  end.

Fixpoint specs_text (ss : list spaced) : list Z :=
  match ss with
  | [] => []
  | [s] => spec_text s
  | s :: ss => spec_text s ++ [ #"," ] ++ specs_text ss
  end.

Definition number_ok (ds : list Z) : Prop :=
  digits_ok ds /\ dec_value ds <= NGX_MAX_OFF_T_VALUE.

Definition spec_ok (s : spaced) : Prop :=
  match sp_spec s with
  | From_to a b => number_ok a /\ number_ok b
  | From a => number_ok a
  | Suffix n => number_ok n
  end.

(** What a specification asks of a body of [cl] bytes: from the first byte it
    names to the one after the last.  The end is clipped to the body; the start
    of a suffix is not, and negative when the suffix is longer than the body. *)
Definition spec_range (cl : Z) (s : spaced) : range :=
  match sp_spec s with
  | From_to a b => mk_range (dec_value a) (Z.min (dec_value b + 1) cl) []
  | From a => mk_range (dec_value a) cl []
  | Suffix n => mk_range (cl - dec_value n) cl []
  end.

Definition not_empty (rg : range) : bool := rg_start rg <? rg_end rg.

(** The ranges of a list of specifications that are not empty. *)
Definition asked (cl : Z) (ss : list spaced) : list range :=
  List.filter not_empty (map (spec_range cl) ss).

(** Where a specification ends. *)
Definition ended (p : list Z) : Prop := cur p = #"," \/ cur p = 0.

Lemma number_cur ds p : digits_ok ds -> digitb (cur (ds ++ p)) = true.
Proof. intros [H1 H2]. destruct ds as [|c ds]; [done|]. cbn in *. by apply andb_true_iff in H2 as [??]. Qed.

Lemma cur_app_sp n p : digitb (cur p) = false -> no_digit (sp n ++ p).
Proof. intros H. unfold no_digit. by destruct n. Qed.

Lemma range_digits_number ds p :
  number_ok ds -> no_digit p -> range_digits 0 (ds ++ p) = Some (dec_value ds, p).
Proof.
  intros [[_ H1] H2] Hp. rewrite range_digits_spec by (done || unfold NGX_MAX_OFF_T_VALUE; lia).
  fold (dec_value ds). by assert ((dec_value ds <=? NGX_MAX_OFF_T_VALUE) = true) as -> by lia.
Qed.

Lemma range_last_text cl suffix start ds n p :
  number_ok ds -> ended p ->
  range_last cl suffix start (ds ++ sp n ++ p) =
    Some (close_range cl suffix start (dec_value ds), p).
Proof.
  intros Hds Hp. unfold range_last. pose proof (number_cur ds (sp n ++ p) (proj1 Hds)) as Hc.
  unfold digitb in Hc.
  assert ((cur (ds ++ sp n ++ p) <? 48) || (57 <? cur (ds ++ sp n ++ p)) = false) as -> by lia.
  rewrite range_digits_number; [|done|].
  - unfold sp. rewrite skip_spaces_app by (destruct Hp as [-> | ->]; lia).
    by destruct Hp as [-> | ->].
  - apply cur_app_sp. by destruct Hp as [-> | ->].
Qed.

Lemma close_range_from cl start v :
  close_range cl false start v = (start, Z.min (v + 1) cl).
Proof. unfold close_range. f_equal. case_ifs; lia. Qed.

Lemma close_range_suffix cl v :
  0 <= cl <= NGX_MAX_OFF_T_VALUE -> 0 <= v <= NGX_MAX_OFF_T_VALUE ->
  close_range cl true 0 v = (cl - v, cl).
Proof.
  unfold NGX_MAX_OFF_T_VALUE. intros. unfold close_range. rewrite !off_small by lia.
  f_equal. case_ifs; lia.
Qed.

Lemma number_ok_range ds : number_ok ds -> 0 <= dec_value ds <= NGX_MAX_OFF_T_VALUE.
Proof. intros [[_ H1] H2]. split; [by apply dec_value_nonneg|done]. Qed.

(** A number, the dash after it and the spaces around the dash. *)
Lemma range_spec_first cl n a m k p :
  number_ok a -> cur p <> #" " ->
  range_spec cl (sp n ++ a ++ sp m ++ [ #"-" ] ++ sp k ++ p) =
    if (cur p =? #",") || (cur p =? 0) then Some (dec_value a, cl, p)
    else range_last cl false (dec_value a) p.
Proof.
  intros Ha Hp. unfold range_spec, sp.
  pose proof (number_cur a (sp m ++ [45] ++ sp k ++ p) (proj1 Ha)) as Hc.
  unfold digitb, sp in Hc. rewrite skip_spaces_app by lia.
  assert ((cur (a ++ replicate m 32 ++ [45] ++ replicate k 32 ++ p) =? 45) = false) as -> by lia.
  assert ((cur (a ++ replicate m 32 ++ [45] ++ replicate k 32 ++ p) <? 48)
    || (57 <? cur (a ++ replicate m 32 ++ [45] ++ replicate k 32 ++ p)) = false) as -> by lia.
  rewrite range_digits_number; [|done|by apply cur_app_sp].
  rewrite (skip_spaces_app m) by done. cbn [app cur head default Z.eqb Pos.eqb negb tail].
  rewrite skip_spaces_app by done. done.
Qed.

Lemma range_spec_text cl s p :
  0 <= cl <= NGX_MAX_OFF_T_VALUE -> spec_ok s -> ended p ->
  range_spec cl (spec_text s ++ p) =
    Some (rg_start (spec_range cl s), rg_end (spec_range cl s), p).
Proof.
  intros Hcl Hs Hp. unfold spec_text, spec_ok, spec_range in *.
  assert (Hsp : cur p <> 32) by (destruct Hp as [-> | ->]; lia).
  destruct (sp_spec s) as [a b|a|ds]; rewrite <-!app_assoc.
  - destruct Hs as [Ha Hb]. pose proof (number_cur b (sp (sp_after s) ++ p) (proj1 Hb)) as Hc.
    unfold digitb in Hc. rewrite range_spec_first by (done || lia).
    assert ((cur (b ++ sp (sp_after s) ++ p) =? 44) = false) as -> by lia.
    assert ((cur (b ++ sp (sp_after s) ++ p) =? 0) = false) as -> by lia.
    cbn [orb]. rewrite range_last_text by done. by rewrite close_range_from.
  - rewrite range_spec_first by done. by destruct Hp as [-> | ->].
  - unfold range_spec. rewrite (skip_spaces_app (sp_before s)) by done.
    cbn [app cur head default Z.eqb Pos.eqb tail tl id]. rewrite range_last_text by done.
    by rewrite close_range_suffix by (done || by apply number_ok_range).
Qed.

(** ** The list *)

(** The loop at the end of the list: its return. *)
Definition finish (cl : Z) (out : list range) (size : Z) : Z * list range :=
  if Nat.eqb (length out) 0 then (NGX_HTTP_RANGE_NOT_SATISFIABLE, out)
  else if cl <? size then (NGX_DECLINED, out) else (NGX_OK, out).

(** What the loop does with [rgs], the bounds the specifications ask for, when
    it may push [n] more ranges. *)
Definition served (cl n : Z) (out rgs : list range) : Z * list range :=
  let rgs := List.filter not_empty rgs in
  if n <? Z.of_nat (length rgs) then (NGX_DECLINED, out ++ take (S (Z.to_nat n)) rgs)
  else finish cl (out ++ rgs) (i64 (total (out ++ rgs))).

Lemma served_skip cl n out rg rgs :
  not_empty rg = false -> served cl n out (rg :: rgs) = served cl n out rgs.
Proof. intros H. unfold served. cbn [List.filter]. by rewrite H. Qed.

Lemma served_push cl n out rg rgs :
  not_empty rg = true -> 0 < n ->
  served cl n out (rg :: rgs) = served cl (n - 1) (out ++ [rg]) rgs.
Proof.
  intros H Hn. unfold served. cbn [List.filter]. rewrite H. cbn [length].
  rewrite <-!app_assoc. cbn [app].
  replace (n <? Z.of_nat (S (length (List.filter not_empty rgs))))
    with (n - 1 <? Z.of_nat (length (List.filter not_empty rgs))) by lia.
  replace (Z.to_nat n) with (S (Z.to_nat (n - 1))) by lia. done.
Qed.

Lemma served_full cl out rg rgs :
  not_empty rg = true -> served cl 0 out (rg :: rgs) = (NGX_DECLINED, out ++ [rg]).
Proof.
  intros H. unfold served. cbn [List.filter]. rewrite H. cbn [length].
  assert ((0 <? Z.of_nat (S (length (List.filter not_empty rgs)))) = true) as -> by lia. done.
Qed.

Lemma spec_range_size cl s :
  0 <= cl <= NGX_MAX_OFF_T_VALUE -> spec_ok s -> not_empty (spec_range cl s) = true ->
  0 <= rg_end (spec_range cl s) - rg_start (spec_range cl s) < 2 ^ 63.
Proof.
  unfold spec_ok, spec_range, not_empty. intros Hcl Hs H.
  destruct (sp_spec s); cbn in *.
  - destruct Hs as [?%number_ok_range _]. unfold NGX_MAX_OFF_T_VALUE in *. lia.
  - apply number_ok_range in Hs. unfold NGX_MAX_OFF_T_VALUE in *. lia.
  - apply number_ok_range in Hs. unfold NGX_MAX_OFF_T_VALUE in *. lia.
Qed.

Lemma spec_range_mk cl s :
  mk_range (rg_start (spec_range cl s)) (rg_end (spec_range cl s)) [] = spec_range cl s.
Proof. unfold spec_range. by destruct (sp_spec s). Qed.

(** One turn of the loop, on a specification. *)
Lemma parse_loop_spec cl fuel s p n size out :
  0 <= cl <= NGX_MAX_OFF_T_VALUE -> spec_ok s -> ended p -> 0 <= n < 2 ^ 64 ->
  size = i64 (total out) ->
  let rg := spec_range cl s in
  let next out n :=
    if cur p =? #"," then parse_loop fuel (fun _ => true) cl n (i64 (total out)) out (tail p)
    else Some (finish cl out (i64 (total out))) in
  parse_loop (S fuel) (fun _ => true) cl n size out (spec_text s ++ p) =
    if not_empty rg then
      if n =? 0 then Some (NGX_DECLINED, out ++ [rg]) else next (out ++ [rg]) (n - 1)
    else next out n.
Proof.
  intros Hcl Hs Hp Hn -> rg next. cbn [parse_loop].
  rewrite range_spec_text by done. fold rg. fold (not_empty rg).
  assert (Hnext : forall out, (if Nat.eqb (length out) 0
      then Some (NGX_HTTP_RANGE_NOT_SATISFIABLE, out)
      else if cl <? i64 (total out) then Some (NGX_DECLINED, out) else Some (NGX_OK, out)) =
    Some (finish cl out (i64 (total out)))) by (intros; unfold finish; by case_ifs).
  destruct (not_empty rg) eqn:E; cbn [negb]; [|by rewrite Hnext].
  pose proof (spec_range_size cl s Hcl Hs E) as Hsz. fold rg in Hsz.
  assert (mk_range (rg_start rg) (rg_end rg) [] = rg) as -> by apply spec_range_mk.
  destruct (n =? 0) eqn:En; [done|].
  rewrite (u64_pred n Hn) by lia.
  assert (i64 (i64 (total out) + i64 (rg_end rg - rg_start rg)) = i64 (total (out ++ [rg]))) as ->.
  { rewrite range_total_app, total_cons, i64_add, (off_small (rg_end rg - rg_start rg)) by lia.
    f_equal. cbn. lia. }
  by rewrite Hnext.
Qed.

Lemma parse_loop_specs cl ss : 0 <= cl <= NGX_MAX_OFF_T_VALUE -> forall fuel s n size out,
  Forall spec_ok (s :: ss) -> (length ss < fuel)%nat -> 0 <= n < 2 ^ 64 ->
  size = i64 (total out) ->
  parse_loop fuel (fun _ => true) cl n size out (specs_text (s :: ss)) =
    Some (served cl n out (map (spec_range cl) (s :: ss))).
Proof.
  intros Hcl. induction ss as [|s' ss IH]; intros fuel s n size out Hok Hf Hn Hsize;
    (destruct fuel as [|fuel]; [cbn in Hf; lia|]);
    inversion Hok as [|? ? Hs Hss]; subst size; cbn [map].
  - cbn [specs_text]. rewrite <-(app_nil_r (spec_text s)).
    rewrite (parse_loop_spec cl fuel s [] n _ out) by (done || by right). cbn [cur head default id].
    cbn [Z.eqb]. destruct (not_empty (spec_range cl s)) eqn:E.
    + destruct (n =? 0) eqn:En; [assert (n = 0) as -> by lia; by rewrite served_full|].
      rewrite served_push by (done || lia). unfold served. cbn [List.filter length].
      assert ((n - 1 <? Z.of_nat 0) = false) as -> by lia. by rewrite app_nil_r.
    + rewrite served_skip by done. unfold served. cbn [List.filter length].
      assert ((n <? Z.of_nat 0) = false) as -> by lia. by rewrite app_nil_r.
  - change (specs_text (s :: s' :: ss)) with (spec_text s ++ #"," :: specs_text (s' :: ss)).
    rewrite (parse_loop_spec cl fuel s _ n _ out) by (done || by left).
    change (cur (44 :: specs_text (s' :: ss)) =? 44) with true.
    change (tail (44 :: specs_text (s' :: ss))) with (specs_text (s' :: ss)).
    cbn [length] in Hf. change (spec_range cl s' :: map (spec_range cl) ss)
      with (map (spec_range cl) (s' :: ss)).
    destruct (not_empty (spec_range cl s)) eqn:E; cbv beta iota zeta.
    + destruct (n =? 0) eqn:En; [assert (n = 0) as -> by lia; by rewrite served_full|].
      rewrite served_push by (done || lia). apply IH; [done|lia|lia|done].
    + rewrite served_skip by done. apply IH; [done|lia|lia|done].
Qed.

Lemma length_specs_text ss : forall s, (length ss <= length (specs_text (s :: ss)))%nat.
Proof.
  induction ss as [|s' ss IH]; intros s; [cbn; lia|].
  change (specs_text (s :: s' :: ss)) with (spec_text s ++ #"," :: specs_text (s' :: ss)).
  rewrite length_app. cbn [length]. specialize (IH s'). lia.
Qed.

(** C18: the header [bytes=] and a list of specifications, with any spaces
    around their numbers, yields the ranges they ask for, in their order, those
    that are empty left out.  A range from one byte to another is clipped at the
    end of the body; a suffix is not clipped: one longer than the body starts
    before it, at a negative offset.  More than [max_ranges] ranges, or a sum of
    their sizes, as an [off_t], above the size of the body, as for a single
    suffix that is too long, and the header is ignored ([NGX_DECLINED]); no
    range, and it is 416. *)
Theorem range_parse_specs unit_ s ss cl max_ranges :
  length unit_ = 6%nat -> Forall spec_ok (s :: ss) ->
  0 <= cl <= NGX_MAX_OFF_T_VALUE -> 0 <= max_ranges < 2 ^ 64 ->
  let rgs := asked cl (s :: ss) in
  ngx_http_range_parse (fun _ => true) None (unit_ ++ specs_text (s :: ss)) cl max_ranges =
    Some (if max_ranges <? Z.of_nat (length rgs)
          then (NGX_DECLINED, take (S (Z.to_nat max_ranges)) rgs)
          else if bool_decide (rgs = []) then (NGX_HTTP_RANGE_NOT_SATISFIABLE, [])
          else if cl <? i64 (total rgs) then (NGX_DECLINED, rgs) else (NGX_OK, rgs)).
Proof.
  intros Hu Hok Hcl Hn rgs. unfold ngx_http_range_parse.
  rewrite drop_app_length' by done. pose proof (length_specs_text ss s).
  rewrite parse_loop_specs by (done || rewrite length_app; lia).
  unfold served, finish. fold (asked cl (s :: ss)). fold rgs. cbn [app]. f_equal.
  destruct (max_ranges <? _); [done|]. by destruct rgs.
Qed.

Lemma range_parse_specs_witness :
  let s := mk_spaced 1 1 0 0 (From_to (bytes "2") (bytes "04")) in
  let s' := mk_spaced 0 0 0 2 (Suffix (bytes "3")) in
  let rgs := asked 10 [s; s'] in
  ngx_http_range_parse (fun _ => true) None (bytes "bytes=" ++ specs_text [s; s']) 10 5 =
    Some (if 5 <? Z.of_nat (length rgs) then (NGX_DECLINED, take (S (Z.to_nat 5)) rgs)
          else if bool_decide (rgs = []) then (NGX_HTTP_RANGE_NOT_SATISFIABLE, [])
          else if 10 <? i64 (total rgs) then (NGX_DECLINED, rgs) else (NGX_OK, rgs)).
Proof.
  apply (range_parse_specs (bytes "bytes=")); [done| |unfold NGX_MAX_OFF_T_VALUE; lia|lia].
  repeat constructor; done.
Defined.
