(* ===== verification/RangeBody.v ===== *)
(** * The body of one range

    The body filter on a response with a single range: over any division of
    the body into buffers and calls, what it passes on is the range. *)

From S2P Require Import Prelude Fsm RequestLine Sprintf ChunkedFilter Strings Times StringNum Range RangeParse.

(** ** Buffers *)

Definition mem_bytes (b : buf) : list Z := slice (bf_mem b) (bf_pos b) (bf_last b).
Definition file_bytes (b : buf) : list Z := slice (bf_file b) (bf_file_pos b) (bf_file_last b).

(** The bytes of a buffer, as a writer takes them. *)
Definition content (b : buf) : list Z :=
  if ngx_buf_in_memory b then mem_bytes b else if bf_in_file b then file_bytes b else [].

(** The positions are in their regions, and a buffer both in memory and in a
    file has the same bytes there. *)
Definition buf_wf (b : buf) : Prop :=
  (ngx_buf_in_memory b = true -> 0 <= bf_pos b <= bf_last b /\
     bf_last b <= Z.of_nat (length (bf_mem b))) /\
  (bf_in_file b = true -> 0 <= bf_file_pos b <= bf_file_last b /\
     bf_file_last b <= Z.of_nat (length (bf_file b))) /\
  (ngx_buf_in_memory b = true -> bf_in_file b = true -> mem_bytes b = file_bytes b) /\
  (ngx_buf_in_memory b = false -> bf_in_file b = false -> bf_file_pos b = bf_file_last b).

Lemma buf_size_content b : buf_wf b -> ngx_buf_size b = Z.of_nat (length (content b)).
Proof.
  intros (Hm & Hf & _ & He). unfold ngx_buf_size, content, mem_bytes, file_bytes.
  destruct (ngx_buf_in_memory b), (bf_in_file b); cbn [length].
  1,2: rewrite length_slice by (destruct (Hm eq_refl); lia); lia.
  - rewrite length_slice by (destruct (Hf eq_refl); lia). lia.
  - specialize (He eq_refl eq_refl). lia.
Qed.

Lemma slice_drop mem i j n : 0 <= i -> 0 <= n -> slice mem (i + n) j = drop (Z.to_nat n) (slice mem i j).
Proof.
  intros. unfold slice. rewrite skipn_firstn_comm, drop_drop. f_equal; [lia|]. f_equal. lia.
Qed.

Lemma slice_take mem i j n : 0 <= n <= j - i ->
  slice mem i (j - n) = take (Z.to_nat (j - i - n)) (slice mem i j).
Proof. intros. unfold slice. rewrite take_take. f_equal. lia. Qed.

(** Both views of a buffer whose positions move. *)
Lemma cut_head_spec n b :
  buf_wf b -> 0 <= n <= ngx_buf_size b ->
  buf_wf (cut_head n b) /\ content (cut_head n b) = drop (Z.to_nat n) (content b).
Proof.
  intros (Hm & Hf & Hb & He) Hn. destruct b as [mem pos last file fpos flast t m mm f fl sy lb].
  unfold buf_wf, content, cut_head, ngx_buf_size, ngx_buf_in_memory, mem_bytes, file_bytes in *.
  cbn in *. destruct (t || m || mm) eqn:Em, f; cbn in *; rewrite ?Em in *; cbn in *.
  - specialize (Hm eq_refl). specialize (Hf eq_refl). specialize (Hb eq_refl eq_refl).
    pose proof (f_equal (fun l => Z.of_nat (length l)) Hb) as Hl. cbn beta in Hl.
    rewrite !length_slice in Hl by lia.
    rewrite !slice_drop by lia. rewrite Hb. rewrite ?Em. split_and!; done || lia.
  - specialize (Hm eq_refl). rewrite slice_drop by lia. rewrite ?Em. split_and!; done || lia.
  - specialize (Hf eq_refl). rewrite slice_drop by lia. rewrite ?Em. split_and!; done || lia.
  - rewrite Em, drop_nil. by split_and!.
Qed.

Lemma cut_tail_spec n b :
  buf_wf b -> 0 <= n <= ngx_buf_size b ->
  buf_wf (cut_tail n b) /\
  content (cut_tail n b) = take (Z.to_nat (ngx_buf_size b - n)) (content b).
Proof.
  intros (Hm & Hf & Hb & He) Hn. destruct b as [mem pos last file fpos flast t m mm f fl sy lb].
  unfold buf_wf, content, cut_tail, ngx_buf_size, ngx_buf_in_memory, mem_bytes, file_bytes in *.
  cbn in *. destruct (t || m || mm) eqn:Em, f; cbn in *; rewrite ?Em in *; cbn in *.
  - specialize (Hm eq_refl). specialize (Hf eq_refl). specialize (Hb eq_refl eq_refl).
    pose proof (f_equal (fun l => Z.of_nat (length l)) Hb) as Hl. cbn beta in Hl.
    rewrite !length_slice in Hl by lia.
    rewrite !slice_take by lia. rewrite Hb, Hl. rewrite ?Em. split_and!; done || lia.
  - specialize (Hm eq_refl). rewrite slice_take by lia. rewrite ?Em. split_and!; done || lia.
  - specialize (Hf eq_refl). rewrite slice_take by lia. rewrite ?Em. split_and!; done || lia.
  - rewrite Em, take_nil. by split_and!.
Qed.

Lemma set_ends_spec sync last_buf b :
  buf_wf b -> buf_wf (set_ends sync last_buf b) /\ content (set_ends sync last_buf b) = content b.
Proof. by destruct b. Qed.

Lemma special_content b : ngx_buf_special b = true -> content b = [].
Proof.
  unfold ngx_buf_special, content. by destruct (ngx_buf_in_memory b), (bf_in_file b), (bf_flush b),
    (bf_last_buf b), (bf_sync b).
Qed.

(** ** The part of a stream in a range *)

(** Of the bytes [data] at [off], those in [rg]. *)
Definition part (rg : range) (off : Z) (data : list Z) : list Z :=
  drop (Z.to_nat (rg_start rg - off)) (take (Z.to_nat (rg_end rg - off)) data).

Lemma part_nil rg off : part rg off [] = [].
Proof. unfold part. by rewrite take_nil, drop_nil. Qed.

Lemma part_after rg off data : rg_end rg <= off -> part rg off data = [].
Proof. intros. unfold part. replace (Z.to_nat (rg_end rg - off)) with 0%nat by lia. apply drop_nil. Qed.

Lemma part_before rg off data :
  off + Z.of_nat (length data) <= rg_start rg -> part rg off data = [].
Proof. intros. unfold part. apply drop_ge. rewrite length_take. lia. Qed.

Lemma part_app rg off d1 d2 :
  rg_start rg <= rg_end rg ->
  part rg off (d1 ++ d2) = part rg off d1 ++ part rg (off + Z.of_nat (length d1)) d2.
Proof.
  intros H. unfold part. rewrite take_app, drop_app, length_take. f_equal.
  destruct (Z.to_nat (rg_end rg - off) - length d1)%nat as [|k] eqn:E.
  - replace (Z.to_nat (rg_end rg - (off + Z.of_nat (length d1)))) with 0%nat by lia.
    by rewrite !firstn_O, !drop_nil.
  - rewrite <-E. f_equal; [lia|]. f_equal. lia.
Qed.

(** ** One call *)

Definition wire (bs : list buf) : list Z := concat (map content bs).

Lemma wire_cons b bs : wire (b :: bs) = content b ++ wire bs.
Proof. done. Qed.

Lemma wire_app bs1 bs2 : wire (bs1 ++ bs2) = wire bs1 ++ wire bs2.
Proof. unfold wire. by rewrite map_app, concat_app. Qed.

(** The buffer of a turn of the loop that goes on, cut at its head. *)
Lemma turn_head rg off b :
  buf_wf b -> off < rg_end rg -> rg_start rg < off + ngx_buf_size b ->
  let b' := if off <? rg_start rg then cut_head (rg_start rg - off) b else b in
  buf_wf b' /\ content b' = drop (Z.to_nat (rg_start rg - off)) (content b).
Proof.
  intros Hb H1 H2 b'. subst b'. case_ifs.
  - apply cut_head_spec; [done|lia].
  - replace (Z.to_nat (rg_start rg - off)) with 0%nat by lia. done.
Qed.

Lemma turn_whole rg off b :
  buf_wf b -> off < rg_end rg -> rg_start rg < off + ngx_buf_size b ->
  off + ngx_buf_size b < rg_end rg ->
  let b' := if off <? rg_start rg then cut_head (rg_start rg - off) b else b in
  buf_wf b' /\ content b' = part rg off (content b).
Proof.
  intros Hb H1 H2 H3 b'. destruct (turn_head rg off b Hb H1 H2) as [Hw Hc]. split; [done|].
  unfold b'. rewrite Hc. unfold part. rewrite take_ge; [done|].
  rewrite buf_size_content in H3 by done. lia.
Qed.

Lemma turn_last rg off b :
  buf_wf b -> off < rg_end rg -> rg_start rg < off + ngx_buf_size b ->
  rg_end rg <= off + ngx_buf_size b -> rg_start rg < rg_end rg ->
  let b' := if off <? rg_start rg then cut_head (rg_start rg - off) b else b in
  let b'' := cut_tail (off + ngx_buf_size b - rg_end rg) b' in
  buf_wf b'' /\ content b'' = part rg off (content b).
Proof.
  intros Hb H1 H2 H3 H4 b' b''. destruct (turn_head rg off b Hb H1 H2) as [Hw Hc].
  fold b' in Hw, Hc.
  assert (Hs : ngx_buf_size b' = ngx_buf_size b - Z.max 0 (rg_start rg - off)).
  { rewrite (buf_size_content b'), Hc, length_drop, (buf_size_content b) in * by done. lia. }
  destruct (cut_tail_spec (off + ngx_buf_size b - rg_end rg) b' Hw ltac:(lia)) as [Hw' Hc'].
  split; [done|]. unfold b''. rewrite Hc', Hc, Hs. unfold part.
  rewrite firstn_skipn_comm. f_equal. f_equal. lia.
Qed.

(** A buffer that is not marked as the last. *)
Definition unmarked (b : buf) : Prop := bf_last_buf b = false.

(** The range ends in the data from [off] to [last_]. *)
Definition ends_in (rg : range) (off last_ : Z) : Prop := off < rg_end rg <= last_.

(** What a call on [in_] from [off] does, with [offset] and [out] its result:
    the offset moves over the data, unless the range has ended; what is passed
    on is well formed and is the part of the data in the range.  If the range
    ends in the data, what is passed on ends with the buffer with its last byte,
    which is marked as the last; no other buffer gets marked. *)
Definition turned (rg : range) (off : Z) (in_ : list buf) (offset : Z) (out : list buf) : Prop :=
  let last_ := off + Z.of_nat (length (wire in_)) in
  wire out = part rg off (wire in_) /\ Forall buf_wf out /\
  (offset = last_ \/ rg_end rg <= offset <= last_) /\
  (ends_in rg off last_ ->
   exists pre b, out = pre ++ [b] /\ bf_last_buf b = true /\ content b <> [] /\
     (Forall unmarked in_ -> Forall unmarked pre)) /\
  (~ ends_in rg off last_ -> Forall unmarked in_ -> Forall unmarked out).

Lemma turned_cons rg off b in_ offset out out0 :
  rg_start rg < rg_end rg ->
  turned rg (off + Z.of_nat (length (content b))) in_ offset out ->
  wire out0 = part rg off (content b) -> Forall buf_wf out0 ->
  (rg_end rg <= off \/ off + Z.of_nat (length (content b)) < rg_end rg) ->
  (unmarked b -> Forall unmarked out0) ->
  turned rg off (b :: in_) offset (out0 ++ out).
Proof.
  intros Hrg (H1 & H2 & H3 & H4 & H5) Hw Hwf Hend Hm. unfold turned. cbv zeta.
  rewrite wire_cons, wire_app, part_app, H1, Hw, length_app, Nat2Z.inj_add by lia.
  unfold ends_in in *. split_and!.
  - done.
  - by apply Forall_app.
  - lia.
  - intros H. destruct H4 as (pre & l & -> & Hl & Hc & Hu); [lia|]. exists (out0 ++ pre), l.
    rewrite app_assoc. split_and!; [done|done|done|]. intros Hi. inversion Hi; subst.
    apply Forall_app. split; [by apply Hm|by apply Hu].
  - intros H Hi. inversion Hi; subst. apply Forall_app. split; [by apply Hm|]. apply H5; [lia|done].
Qed.

(** The part of the buffer with which the range ends is not empty. *)
Lemma part_last rg off data :
  off < rg_end rg <= off + Z.of_nat (length data) -> rg_start rg < rg_end rg ->
  part rg off data <> [].
Proof.
  intros H1 H2 E. apply (f_equal length) in E. unfold part in E.
  rewrite length_drop, length_take in E. cbn [length] in E. lia.
Qed.

Lemma head_unmarked rg off b :
  unmarked b -> unmarked (if off <? rg_start rg then cut_head (rg_start rg - off) b else b).
Proof. destruct b. unfold unmarked, cut_head. intros H. case_ifs; done. Qed.

Lemma singlepart_loop_spec rg in_ : rg_start rg < rg_end rg -> forall off offset left_ out,
  Forall buf_wf in_ -> singlepart_loop rg off in_ = (offset, left_, out) ->
  turned rg off in_ offset out.
Proof.
  intros Hrg. induction in_ as [|b in_ IH]; intros off offset left_ out Hwf.
  { intros [= <- <- <-]. unfold turned, ends_in. cbn [wire map concat length]. rewrite part_nil.
    split_and!; [done|constructor|left; lia|intros; lia|intros; constructor]. }
  inversion Hwf as [|? ? Hb Hin]; subst. cbn [singlepart_loop].
  pose proof (buf_size_content b Hb) as Hsz.
  destruct (singlepart_loop rg (off + ngx_buf_size b) in_) as [[offset' left'] out'] eqn:E.
  apply IH in E; [|done]. rewrite Hsz in E. clear IH.
  destruct (ngx_buf_special b) eqn:Es.
  { intros [= <- <- <-]. pose proof (special_content b Es) as Hc.
    change (b :: out') with ([b] ++ out'). apply turned_cons; [done|done| | | |].
    - rewrite Hc, part_nil. cbn. by rewrite Hc.
    - by constructor.
    - rewrite Hc. cbn. lia.
    - by constructor. }
  destruct ((rg_end rg <=? off) || (off + ngx_buf_size b <=? rg_start rg)) eqn:Eo.
  { intros [= <- <- <-]. change out' with ([] ++ out').
    apply turned_cons; [done|done| |constructor|lia|constructor].
    destruct (rg_end rg <=? off) eqn:Ee; [by rewrite part_after by lia|].
    by rewrite part_before by lia. }
  destruct (rg_end rg <=? off + ngx_buf_size b) eqn:El.
  - intros [= <- <- <-].
    destruct (turn_last rg off b Hb ltac:(lia) ltac:(lia) ltac:(lia) Hrg) as [Hw Hc].
    cbv zeta in *.
    destruct (set_ends_spec (bf_sync (cut_tail (off + ngx_buf_size b - rg_end rg)
      (if off <? rg_start rg then cut_head (rg_start rg - off) b else b))) true _ Hw) as [Hw' Hc'].
    unfold turned, ends_in. cbv zeta. rewrite (wire_cons b in_), length_app. split_and!.
    + rewrite wire_cons, Hc', Hc, part_app by lia. f_equal. symmetry. apply part_after. lia.
    + by constructor.
    + right. lia.
    + intros _. eexists [], _. split; [reflexivity|]. split_and!; [done| |constructor].
      rewrite Hc', Hc. apply part_last; lia.
    + intros Hn. exfalso. apply Hn. lia.
  - destruct (turn_whole rg off b Hb ltac:(lia) ltac:(lia) ltac:(lia)) as [Hw Hc].
    cbv zeta in *. intros [= <- <- <-].
    match goal with |- context [?b' :: out'] => change (b' :: out') with ([b'] ++ out') end.
    apply turned_cons; [done|done| | |lia|].
    + rewrite wire_cons, Hc. apply app_nil_r.
    + by constructor.
    + intros Hm. constructor; [by apply head_unmarked|constructor].
Qed.

(** ** All the calls of a response *)

Definition chain_of (p : passed) : list buf :=
  match p with Next_body out => out | Body_return _ => [] end.

(** The body filter on the calls of a response, one after the other: all that
    it passes on. *)
Fixpoint send_body (ok : nat -> bool) (ctx : option range_ctx) (calls : list (list buf))
    : option (list buf) :=
  match calls with
  | [] => Some []
  | in_ :: calls =>
      match ngx_http_range_body_filter ok ctx in_ with
      | None => None
      | Some (ctx, _, p) =>
          match send_body ok ctx calls with
          | None => None
          | Some out => Some (chain_of p ++ out)
          end
      end
  end.

Definition data_of (calls : list (list buf)) : list Z := concat (map wire calls).

(** Where the context stands in the stream: at [pos], or beyond the range. *)
Definition stands (rg : range) (ctx : range_ctx) (pos : Z) : Prop :=
  rc_ranges ctx = [rg] /\
  (rc_offset ctx = pos \/ (rg_end rg <= rc_offset ctx /\ rg_end rg <= pos)).

Lemma part_stands rg ctx pos data :
  stands rg ctx pos -> part rg (rc_offset ctx) data = part rg pos data.
Proof. intros [_ [->|[H1 H2]]]; [done|]. by rewrite !part_after. Qed.

Lemma body_filter_single ok rg ctx pos in_ :
  rg_start rg < rg_end rg -> stands rg ctx pos -> Forall buf_wf in_ ->
  exists ctx' left_ p offset,
    ngx_http_range_body_filter ok (Some ctx) in_ = Some (Some ctx', left_, p) /\
    stands rg ctx' (pos + Z.of_nat (length (wire in_))) /\ turned rg pos in_ offset (chain_of p).
Proof.
  intros Hrg Hst Hwf. pose proof (part_stands rg ctx pos (wire in_) Hst) as Hp.
  destruct Hst as [Hr Ho]. unfold ngx_http_range_body_filter.
  destruct in_ as [|b in_].
  { exists ctx, [], (Next_body []), pos. unfold turned, ends_in. cbn [wire map concat length].
    rewrite part_nil. split_and!; [done|by split; [|lia]|done|constructor|left; lia|intros; lia|intros; constructor]. }
  rewrite Hr. cbn [length Nat.eqb]. unfold ngx_http_range_singlepart_body. rewrite Hr. cbn [head].
  destruct (singlepart_loop rg (rc_offset ctx) (b :: in_)) as [[offset left_] out] eqn:E.
  apply singlepart_loop_spec in E as (H1 & H2 & H3 & H4 & H5); [|done|done].
  eexists _, _, _, (pos + Z.of_nat (length (wire (b :: in_)))). split; [done|].
  assert (Hc : chain_of match out with [] => Body_return NGX_OK | _ => Next_body out end = out)
    by (by destruct out).
  rewrite Hc. unfold turned, ends_in in *. split_and!; [|congruence|done|by left| |].
  - split; [done|]. cbn [set_offset rc_offset]. lia.
  - intros H. apply H4. lia.
  - intros H. apply H5. lia.
Qed.

(** All the calls from [pos] on. *)
Lemma send_body_single ok rg calls : rg_start rg < rg_end rg -> forall ctx pos,
  stands rg ctx pos -> Forall (Forall buf_wf) calls ->
  let last_ := pos + Z.of_nat (length (data_of calls)) in
  exists out, send_body ok (Some ctx) calls = Some out /\
    wire out = part rg pos (data_of calls) /\ Forall buf_wf out /\
    (ends_in rg pos last_ ->
     exists pre b post, out = pre ++ b :: post /\ bf_last_buf b = true /\ content b <> [] /\
       wire post = [] /\ (Forall (Forall unmarked) calls -> Forall unmarked (pre ++ post))) /\
    (~ ends_in rg pos last_ -> Forall (Forall unmarked) calls -> Forall unmarked out).
Proof.
  intros Hrg. induction calls as [|in_ calls IH]; intros ctx pos Hst Hwf.
  { exists []. unfold ends_in. cbn [data_of map concat length]. rewrite part_nil.
    split_and!; [done|done|constructor|intros; lia|intros; constructor]. }
  inversion Hwf as [|? ? Hin Hcalls]; subst.
  destruct (body_filter_single ok rg ctx pos in_ Hrg Hst Hin)
    as (ctx' & left_ & p & offset & E & Hst' & Hw & Hf & _ & Hl & Hu).
  destruct (IH ctx' _ Hst' Hcalls) as (out & Eo & Hwo & Hfo & Hlo & Huo).
  cbv zeta in *. exists (chain_of p ++ out). cbn [send_body]. rewrite E, Eo.
  unfold data_of in *. cbn [map concat].
  rewrite wire_app, Hw, Hwo, part_app, length_app, Nat2Z.inj_add by lia. unfold ends_in in *.
  split_and!; [done|done|by apply Forall_app| |].
  - intros H.
    destruct (Z.le_gt_cases (rg_end rg) (pos + Z.of_nat (length (wire in_)))) as [Hle|Hgt].
    + destruct (Hl ltac:(lia)) as (pre & b & Hc & Hb & Hn & Hp). exists pre, b, out.
      rewrite Hc, <-app_assoc. split_and!; [done|done|done|by rewrite Hwo, part_after|].
      intros Hm. inversion Hm; subst. apply Forall_app. split; [by apply Hp|]. apply Huo; [lia|done].
    + destruct (Hlo ltac:(lia)) as (pre & b & post & -> & Hb & Hn & Hp & Hm).
      exists (chain_of p ++ pre), b, post. rewrite <-!app_assoc. split_and!; [done..|].
      intros Hm'. inversion Hm'; subst. apply Forall_app. split; [apply Hu; [lia|done]|by apply Hm].
  - intros H Hm. inversion Hm; subst. apply Forall_app. split; [apply Hu; [lia|done]|].
    apply Huo; [lia|done].
Qed.
