(* ===== verification/RangeResponse.v ===== *)
(** * Responses with ranges

    The two filters of the module together: what the header announces and what
    the body filter then passes on, for one range and for several. *)

From S2P Require Import Prelude Fsm RequestLine Sprintf ChunkedFilter Strings Times StringNum Range RangeParse RangeBody.

(** ** What the header filter leaves *)

Lemma range_parts_ranges room ok cl : forall ranges n hl len len' ranges',
  range_parts room ok n hl cl len ranges = Some (Some len', ranges') ->
  map rg_start ranges' = map rg_start ranges /\ map rg_end ranges' = map rg_end ranges.
Proof.
  induction ranges as [|rg ranges IH]; intros n hl len len' ranges'; cbn [range_parts].
  { by intros [= <- <-]. }
  destruct (ok n); [|done]. cbn [negb].
  destruct (vslprintf _ _ _) as [text|]; [|done].
  destruct (range_parts _ _ _ _ _ _ _) as [[len1 ranges1]|] eqn:E; [|done].
  intros [= -> <-]. apply IH in E as [H1 H2]. cbn. by rewrite H1, H2.
Qed.

(** The request as the filter changes it before it asks for the headers. *)
Definition partial (r : range_request) : range_request :=
  set_status_line [] (set_status NGX_HTTP_PARTIAL_CONTENT r).

(** A context is left only after the parser has accepted the header. *)
Lemma header_filter_accepts room al boundary max_ranges main_ctx r r' ctx :
  ngx_http_range_header_filter room al boundary max_ranges main_ctx r =
    Some (Next_filter r' (Some ctx)) ->
  exists value out ranges, rr_range r = Some value /\
    ranges = (if rr_single_range r then 1 else max_ranges) /\ rr_content_length_n r <> -1 /\
    ngx_http_range_parse (al_push al) (if rr_main r then None else main_ctx) value
      (rr_content_length_n r) ranges = Some (NGX_OK, out) /\
    let ctx0 := mk_range_ctx (rr_content_offset r) [] out in
    (if Nat.eqb (length out) 1
     then ngx_http_range_singlepart_header room (al_header al) (partial r) ctx0
     else ngx_http_range_multipart_header room (al_header al) boundary (partial r) ctx0) =
      Some (Next_filter r' (Some ctx)).
Proof.
  unfold ngx_http_range_header_filter.
  assert (Ha : forall b, Some (accept_bytes b r) <> Some (Next_filter r' (Some ctx)))
    by (intros []; by unfold accept_bytes).
  match goal with |- context [if ?b then _ else _] => destruct b eqn:E0; [done|] end.
  destruct (max_ranges =? 0); [done|].
  destruct (rr_range r) as [value|] eqn:Er; [|by intros ?%Ha].
  destruct (_ <? 7); [by intros ?%Ha|].
  destruct (ngx_strncasecmp _ _ _) as [c|]; [|done].
  destruct (negb (c =? 0)); [by intros ?%Ha|].
  destruct (if_range_matches r) as [[]|]; [|by intros ?%Ha|done].
  destruct (negb (al_ctx al && al_array al)); [done|]. cbv zeta.
  destruct (ngx_http_range_parse _ _ _ _ _) as [[rc out]|] eqn:Ep; [|done].
  destruct (rc =? NGX_OK) eqn:Erc.
  - intros H. exists value, out, (if rr_single_range r then 1 else max_ranges).
    assert (rc = NGX_OK) as -> by lia. split_and!; [done|done| |exact Ep|exact H].
    rewrite !orb_false_iff in E0. lia.
  - destruct (rc =? NGX_HTTP_RANGE_NOT_SATISFIABLE).
    { unfold ngx_http_range_not_satisfiable. case_ifs; try done; by destruct (vslprintf _ _ _). }
    destruct (rc =? NGX_ERROR); [done|by intros ?%Ha].
Qed.

Lemma drop_content_length_n r : rr_content_length_n (drop_content_length r) = rr_content_length_n r.
Proof. unfold drop_content_length. by destruct (rr_content_length r). Qed.

Lemma drop_content_length_status r : rr_status (drop_content_length r) = rr_status r.
Proof. unfold drop_content_length. by destruct (rr_content_length r). Qed.

(** ** One range *)

Lemma singlepart_header_next room ok r ctx0 r' ctx :
  ngx_http_range_singlepart_header room ok r ctx0 = Some (Next_filter r' (Some ctx)) ->
  rr_main r = true ->
  exists rg, head (rc_ranges ctx0) = Some rg /\ ctx = ctx0 /\ rr_status r' = rr_status r /\
    rr_content_length_n r' = i64 (rg_end rg - rg_start rg).
Proof.
  unfold ngx_http_range_singlepart_header. intros H Hm. rewrite Hm in H. cbn [negb] in H.
  destruct (ok 0%nat); [|done]. cbn [negb] in H.
  destruct (head (rc_ranges ctx0)) as [rg|]; [|done].
  destruct (ok 1%nat); [|done]. cbn [negb] in H.
  destruct (vslprintf _ _ _); [|done].
  injection H as <- <-. exists rg. rewrite drop_content_length_n, drop_content_length_status.
  done.
Qed.

Lemma multipart_header_length room ok boundary r ctx0 r' ctx :
  ngx_http_range_multipart_header room ok boundary r ctx0 = Some (Next_filter r' (Some ctx)) ->
  length (rc_ranges ctx) = length (rc_ranges ctx0).
Proof.
  unfold ngx_http_range_multipart_header. destruct (ok 0%nat); [|done]. cbn [negb].
  destruct (boundary_header _ _ _) as [header|]; [|done].
  destruct (vslprintf _ _ _) as [ct|]; [|done]. destruct (ok 1%nat); [|done]. cbn [negb].
  destruct (range_parts _ _ _ _ _ _ _) as [[[len|] ranges]|] eqn:E; [|done|done].
  intros [= _ <-]. apply range_parts_ranges in E as [E _]. cbn.
  by rewrite <-(length_map rg_start ranges), E, length_map.
Qed.

Lemma part_slice rg data :
  0 <= rg_start rg -> part rg 0 data = slice data (rg_start rg) (rg_end rg).
Proof.
  intros. unfold part, slice. rewrite skipn_firstn_comm. f_equal; [lia|]. f_equal. lia.
Qed.

(** C17: when the header filter accepts the header of a main request with one
    range, for a whole body (at offset 0) of the length announced, the response is 206 and what the body filter passes on, over any
    buffers and any calls that carry the body, is exactly the bytes of the
    range, as many as the length announced; the range is in the body.  The
    buffer with the last byte of the range is marked as the last one; nothing
    but empty buffers follow it, and no other buffer is marked unless some of
    the body's own are. *)
Theorem range_single_response room al boundary max_ranges r r' ctx rg ok calls :
  ngx_http_range_header_filter room al boundary max_ranges None r =
    Some (Next_filter r' (Some ctx)) ->
  rr_main r = true -> rr_content_offset r = 0 -> rc_ranges ctx = [rg] ->
  0 <= max_ranges < 2 ^ 64 ->
  rr_content_length_n r = Z.of_nat (length (data_of calls)) ->
  rr_content_length_n r <= NGX_MAX_OFF_T_VALUE ->
  Forall (Forall buf_wf) calls ->
  rr_status r' = NGX_HTTP_PARTIAL_CONTENT /\
  0 <= rg_start rg < rg_end rg /\ rg_end rg <= rr_content_length_n r /\
  exists out, send_body ok (Some ctx) calls = Some out /\
    wire out = slice (data_of calls) (rg_start rg) (rg_end rg) /\
    Z.of_nat (length (wire out)) = rr_content_length_n r' /\
    exists pre b post, out = pre ++ b :: post /\ bf_last_buf b = true /\ content b <> [] /\
      wire post = [] /\ (Forall (Forall unmarked) calls -> Forall unmarked (pre ++ post)).
Proof.
  intros H Hmain Hoff Hrg Hmax Hlen Hcl Hwf.
  apply header_filter_accepts in H as (value & out & ranges & _ & -> & Hn & Hp & H).
  rewrite Hmain in Hp. cbv zeta in H.
  destruct (parse_inside (al_push al) value (rr_content_length_n r)
    (if rr_single_range r then 1 else max_ranges) ltac:(lia)) as (rc & out' & Hp' & Hin & Hok);
    [by destruct (rr_single_range r)|].
  rewrite Hp in Hp'. injection Hp' as <- <-. destruct (Hok eq_refl) as (_ & _ & Hsafe).
  destruct (Nat.eqb (length out) 1) eqn:E1.
  - apply Nat.eqb_eq in E1.
    apply singlepart_header_next in H as (rg' & Hh & -> & Hs & Hc); [|done].
    cbn [rc_ranges] in *. subst out. injection Hh as <-.
    destruct (Hsafe (or_intror E1)) as [_ Hst]. inversion Hst as [|? ? Hst0 _]; subst.
    inversion Hin as [|? ? Hin0 _]; subst. unfold NGX_MAX_OFF_T_VALUE in *.
    rewrite Hs. split_and!; [done|lia|lia|lia|].
    destruct (send_body_single ok rg calls ltac:(lia) (mk_range_ctx (rr_content_offset r) [] [rg]) 0)
      as (out & E & Hw & _ & Hl & _); [split; [done|by left]|done|].
    exists out. rewrite part_slice in Hw by lia. split_and!; [done|done| |apply Hl; unfold ends_in; lia].
    rewrite Hw, length_slice, Hc, off_small by lia. done.
  - apply multipart_header_length in H. cbn [rc_ranges] in H. rewrite Hrg in H. cbn in H.
    rewrite <-H in E1. done.
Qed.

(** A body of ten bytes in three buffers, sent in two calls. *)
Definition text_buf (s : string) (last_buf : bool) : buf :=
  mk_buf (bytes s) 0 (Z.of_nat (String.length s)) [] 0 0 true false false false false false last_buf.

Definition sample_calls : list (list buf) :=
  [[text_buf "012" false; text_buf "345" false]; [text_buf "6789" true]].

Definition sample_single : range_request * range_ctx :=
  match sample_header "bytes=2-4" 10 with
  | Some (Next_filter r (Some ctx)) => (r, ctx)
  | _ => (sample_request "" 0, mk_range_ctx 0 [] [])
  end.

Lemma sample_calls_wf : Forall (Forall buf_wf) sample_calls.
Proof.
  assert (forall s lb, buf_wf (text_buf s lb)) as H; [|by repeat constructor].
  intros s lb. unfold buf_wf, text_buf, ngx_buf_in_memory; cbn. split_and!; try done.
  intros _. assert (length (bytes s) = String.length s) as ->; [|lia].
  induction s; cbn; congruence.
Qed.

Lemma range_single_response_witness :
  let (r', ctx) := sample_single in
  rr_status r' = NGX_HTTP_PARTIAL_CONTENT /\
  exists out, send_body (fun _ => true) (Some ctx) sample_calls = Some out /\
    wire out = bytes "234".
Proof.
  assert (H : ngx_http_range_header_filter (2 ^ 40) all_ok 17 (2 ^ 64 - 1) None
    (sample_request "bytes=2-4" 10) = Some (Next_filter (fst sample_single) (Some (snd sample_single))))
    by (vm_compute; reflexivity).
  destruct (range_single_response (2 ^ 40) all_ok 17 (2 ^ 64 - 1) _ _ _ (mk_range 2 5 [])
    (fun _ => true) sample_calls H eq_refl eq_refl eq_refl ltac:(lia) eq_refl ltac:(by vm_compute)
    sample_calls_wf) as (Hs & _ & _ & out & Ho & Hw & _).
  destruct sample_single as [r' ctx]. split; [exact Hs|]. by exists out.
Defined.
