(* ===== verification/RangeMulti.v ===== *)
(** * Responses with several ranges

    The boundary header of a multipart response as [ngx_sprintf] writes it, and
    the two filters together: the body that is passed on has the length that is
    announced. *)

From S2P Require Import Prelude Fsm RequestLine Sprintf ChunkedFilter Strings Times StringNum TimeText Range RangeParse RangeBody RangeResponse.

(** ** The boundary header *)

Definition literal (l : list Z) : bool := forallb (fun c => negb (c =? #"%")) l.

Lemma vl_literal l : forall f cap out fmt args,
  literal l = true -> (length l <= f)%nat -> Z.of_nat (length (out ++ l)) <= cap ->
  vslprintf_loop f cap out (l ++ fmt) args =
    vslprintf_loop (f - length l) cap (out ++ l) fmt args.
Proof.
  induction l as [|c l IH]; intros f cap out fmt args Hl Hf Hc.
  { by rewrite app_nil_r, Nat.sub_0_r. }
  unfold literal in Hl. cbn [forallb] in Hl. apply andb_true_iff in Hl as [H1 H2].
  rewrite length_app in Hc. cbn [length] in Hc, Hf. destruct f as [|f]; [lia|].
  cbn [length app Nat.sub]. rewrite vl_char by (destruct (c =? 37); [done|lia] || lia).
  rewrite (IH f cap (out ++ [c]) fmt args H2) by (rewrite ?length_app; cbn; lia).
  by rewrite <-app_assoc.
Qed.

(** Twenty digits: [NGX_ATOMIC_T_LEN]. *)
Definition boundary_digits (boundary : Z) : list Z :=
  padded 20 (#"0") (default [] (num_text 0 (u64 boundary))).

Lemma boundary_digits_length boundary : length (boundary_digits boundary) = 20%nat.
Proof.
  unfold boundary_digits, padded, u64.
  destruct (num_text_value 0 (boundary mod 2 ^ 64)) as (ds & E & Hl & _);
    [apply Z.mod_pos_bound; lia|].
  unfold NGX_INT64_LEN in Hl. rewrite E. cbn [default id]. rewrite length_app, length_replicate. lia.
Qed.

Lemma vl_boundary f cap out boundary fmt args :
  (0 < f)%nat -> Z.of_nat (length out) + 20 <= cap ->
  vslprintf_loop f cap out (bytes "%0muA" ++ fmt) (VNum boundary :: args) =
    vslprintf_loop (f - 1) cap (out ++ boundary_digits boundary) fmt args.
Proof.
  intros Hf Hc. destruct f as [|f]; [lia|]. rewrite Nat.sub_1_r. cbn [Nat.pred].
  change (bytes "%0muA" ++ fmt) with (37 :: 48 :: 109 :: 117 :: 65 :: fmt).
  cbn [vslprintf_loop]. assert ((Z.of_nat (length out) <? cap) = true) as -> by lia.
  change (fmt_number 0 (48 :: 109 :: 117 :: 65 :: fmt)) with (0, 109 :: 117 :: 65 :: fmt).
  cbn [Z.eqb Pos.eqb].
  change (fmt_flags (mk_conv 48 0 true 0 false 0 None) (VNum boundary :: args)
            (109 :: 117 :: 65 :: fmt))
    with (Some (mk_conv 48 0 false 0 true 0 None, VNum boundary :: args, 65 :: fmt)).
  cbv beta iota.
  assert (convert cap out (mk_conv 48 0 false 0 true 0 None) (VNum boundary :: args) 65 =
    match put_num cap out (mk_conv 48 20 false 0 true 0 None) false (u64 boundary) with
    | Some out' => Some (out', args) | None => None end) as -> by reflexivity.
  unfold put_num. cbn [andb cv_zero cv_hex cv_width].
  destruct (num_text_value 0 (u64 boundary)) as (ds & E & _);
    [unfold u64; apply Z.mod_pos_bound; lia|].
  assert (u64 (u64 boundary) = u64 boundary) as ->
    by (unfold u64; apply Z.mod_mod; lia).
  rewrite (sprintf_num_taken cap out _ 48 0 20 ds) by (done || lia).
  pose proof (boundary_digits_length boundary) as Hl.
  assert (boundary_digits boundary = replicate (Z.to_nat (20 - Z.of_nat (length ds))) 48 ++ ds) as Hb
    by (unfold boundary_digits; by rewrite E).
  rewrite <-Hb, taken_short by (rewrite length_app; lia). done.
Qed.

Lemma vl_ngx_str f cap out s fmt args :
  (0 < f)%nat -> Z.of_nat (length (out ++ s)) <= cap -> Z.of_nat (length out) < cap ->
  vslprintf_loop f cap out (bytes "%V" ++ fmt) (VStr s :: args) =
    vslprintf_loop (f - 1) cap (out ++ s) fmt args.
Proof.
  intros Hf Hl Hl'. destruct f as [|f]; [lia|]. rewrite Nat.sub_1_r. cbn [Nat.pred].
  change (bytes "%V" ++ fmt) with (37 :: 86 :: fmt). cbn [vslprintf_loop].
  assert ((Z.of_nat (length out) <? cap) = true) as -> by lia.
  cbn -[copy]. by rewrite copy_out, taken_short by lia.
Qed.

(** The Content-Type line of the parts. *)
Definition type_line (r : range_request) : list Z :=
  if (rr_content_type_len r =? Z.of_nat (length (rr_content_type r)))
     && negb (Nat.eqb (length (rr_charset r)) 0) then
    bytes "Content-Type: " ++ rr_content_type r ++ bytes "; charset=" ++ rr_charset r ++ CRLF
  else if negb (Nat.eqb (length (rr_content_type r)) 0) then
    bytes "Content-Type: " ++ rr_content_type r ++ CRLF
  else [].

Definition boundary_text (r : range_request) (boundary : Z) : list Z :=
  CRLF ++ bytes "--" ++ boundary_digits boundary ++ CRLF ++ type_line r
  ++ bytes "Content-Range: bytes ".

Lemma boundary_text_length r boundary :
  Z.of_nat (length (boundary_text r boundary)) <= boundary_header_size r.
Proof.
  unfold boundary_text, type_line, boundary_header_size, NGX_ATOMIC_T_LEN.
  rewrite !length_app, boundary_digits_length.
  destruct (_ && _) eqn:E; [rewrite ?length_app; cbn; lia|].
  destruct (negb (Nat.eqb (length (rr_content_type r)) 0)); [rewrite ?length_app; cbn; lia|cbn; lia].
Qed.

(** The lengths of the pieces of a format. *)
Ltac len := rewrite ?length_app, ?boundary_digits_length; cbn [length bytes CRLF]; lia.

Lemma vl_finish f cap out args : (0 < f)%nat -> vslprintf_loop f cap out [] args = Some out.
Proof. destruct f; [lia|done]. Qed.

(** [ngx_sprintf] writes this text, which fits the bytes allocated. *)
Lemma boundary_header_text room r boundary :
  boundary_header_size r < room ->
  boundary_header room r boundary = Some (boundary_text r boundary).
Proof.
  intros Hroom.
  unfold boundary_header, boundary_text, type_line, boundary_header_size, NGX_ATOMIC_T_LEN in *.
  destruct (_ && _) eqn:E; [|destruct (negb (Nat.eqb (length (rr_content_type r)) 0)) eqn:E1].
  - change (CRLF ++ bytes "--%0muA" ++ CRLF ++ bytes "Content-Type: %V; charset=%V" ++ CRLF
            ++ bytes "Content-Range: bytes ")
      with ((CRLF ++ bytes "--") ++ bytes "%0muA" ++ (CRLF ++ bytes "Content-Type: ")
            ++ bytes "%V" ++ bytes "; charset=" ++ bytes "%V"
            ++ (CRLF ++ bytes "Content-Range: bytes ") ++ []).
    unfold vslprintf.
    rewrite (vl_literal (CRLF ++ bytes "--")) by (done || len).
    rewrite vl_boundary by len. rewrite vl_literal by (done || len).
    rewrite vl_ngx_str by len. rewrite vl_literal by (done || len).
    rewrite vl_ngx_str by len. rewrite vl_literal by (done || len).
    rewrite vl_finish by len. by rewrite <-!app_assoc.
  - change (CRLF ++ bytes "--%0muA" ++ CRLF ++ bytes "Content-Type: %V" ++ CRLF
            ++ bytes "Content-Range: bytes ")
      with ((CRLF ++ bytes "--") ++ bytes "%0muA" ++ (CRLF ++ bytes "Content-Type: ")
            ++ bytes "%V" ++ (CRLF ++ bytes "Content-Range: bytes ") ++ []).
    unfold vslprintf.
    rewrite (vl_literal (CRLF ++ bytes "--")) by (done || len).
    rewrite vl_boundary by len. rewrite vl_literal by (done || len).
    rewrite vl_ngx_str by len. rewrite vl_literal by (done || len).
    rewrite vl_finish by len. by rewrite <-!app_assoc.
  - change (CRLF ++ bytes "--%0muA" ++ CRLF ++ bytes "Content-Range: bytes ")
      with ((CRLF ++ bytes "--") ++ bytes "%0muA" ++ (CRLF ++ bytes "Content-Range: bytes ") ++ []).
    unfold vslprintf.
    rewrite (vl_literal (CRLF ++ bytes "--")) by (done || len).
    rewrite vl_boundary by len. rewrite vl_literal by (done || len).
    rewrite vl_finish by len. by rewrite <-!app_assoc.
Qed.

(** ** The Content-Range of a part *)

(** The decimal digits of a number (see [num_text_value]). *)
Definition dec (v : Z) : list Z := default [] (num_text 0 v).

Lemma dec_facts v : 0 <= v < 2 ^ 63 ->
  num_text 0 v = Some (dec v) /\ (1 <= length (dec v) <= 20)%nat /\ num_value 10 (dec v) = v.
Proof.
  intros Hv. destruct (num_text_value 0 v) as (ds & E & Hl & Hval & _); [lia|].
  unfold NGX_INT64_LEN in Hl. unfold dec. rewrite E. cbn [default id].
  split_and!; [done|lia|lia|exact Hval].
Qed.

Lemma vl_off f cap out n fmt args :
  (0 < f)%nat -> 0 <= n < 2 ^ 63 ->
  Z.of_nat (length (out ++ dec n)) <= cap -> Z.of_nat (length out) < cap ->
  vslprintf_loop f cap out (bytes "%O" ++ fmt) (VNum n :: args) =
    vslprintf_loop (f - 1) cap (out ++ dec n) fmt args.
Proof.
  intros Hf Hn Hl Hl'. destruct f as [|f]; [lia|]. rewrite Nat.sub_1_r. cbn [Nat.pred].
  change (bytes "%O" ++ fmt) with (37 :: 79 :: fmt). cbn [vslprintf_loop].
  assert ((Z.of_nat (length out) <? cap) = true) as -> by lia. cbn -[put_num i64].
  rewrite off_small by lia. unfold put_num. assert ((n <? 0) = false) as -> by lia.
  rewrite andb_false_r. cbn [cv_zero cv_hex cv_width].
  assert (u64 n = n) as -> by (unfold u64; rewrite Z.mod_small; lia).
  destruct (dec_facts n Hn) as (E & Hd & _). rewrite length_app in Hl.
  rewrite (sprintf_num_taken cap out n 32 0 0 (dec n)) by (done || lia).
  replace (Z.to_nat (0 - Z.of_nat (length (dec n)))) with 0%nat by lia. cbn [replicate app].
  by rewrite taken_short by (rewrite length_app; lia).
Qed.

(** "SSSS-EEEE/TTTT" CRLF CRLF: the first byte, the last one and the length. *)
Definition content_range_text (start end_ content_length : Z) : list Z :=
  dec start ++ bytes "-" ++ dec (end_ - 1) ++ bytes "/" ++ dec content_length ++ CRLF ++ CRLF.

Lemma content_range_printed room start end_ cl :
  66 < room -> 0 <= start < end_ -> end_ <= cl < 2 ^ 63 ->
  vslprintf room (bytes "%O-%O/%O" ++ CRLF ++ CRLF) [VNum start; VNum (end_ - 1); VNum cl] =
    Some (content_range_text start end_ cl).
Proof.
  intros Hroom Hs He.
  destruct (dec_facts start ltac:(lia)) as (_ & L1 & _).
  destruct (dec_facts (end_ - 1) ltac:(lia)) as (_ & L2 & _).
  destruct (dec_facts cl ltac:(lia)) as (_ & L3 & _).
  change (bytes "%O-%O/%O" ++ CRLF ++ CRLF)
    with (bytes "%O" ++ bytes "-" ++ bytes "%O" ++ bytes "/" ++ bytes "%O" ++ (CRLF ++ CRLF) ++ []).
  unfold vslprintf, content_range_text.
  rewrite vl_off by (lia || len). rewrite vl_literal by (done || len).
  rewrite vl_off by (lia || len). rewrite vl_literal by (done || len).
  rewrite vl_off by (lia || len). rewrite vl_literal by (done || len).
  rewrite vl_finish by len. by rewrite <-!app_assoc.
Qed.

(** Of each range that lies in the body. *)
Definition described (cl : Z) (rg : range) : Prop :=
  0 <= rg_start rg < rg_end rg -> rg_end rg <= cl < 2 ^ 63 ->
  rg_content_range rg = content_range_text (rg_start rg) (rg_end rg) cl.

Lemma range_parts_described room ok cl hl : 66 < room -> forall ranges n len len' ranges',
  range_parts room ok n hl cl len ranges = Some (Some len', ranges') -> Forall (described cl) ranges'.
Proof.
  intros Hroom. induction ranges as [|rg ranges IH]; intros n len len' ranges'; cbn [range_parts].
  { intros [= _ <-]. constructor. }
  destruct (ok n); [|done]. cbn [negb]. destruct (vslprintf _ _ _) as [text|] eqn:Et; [|done].
  destruct (range_parts _ _ _ _ _ _ ranges) as [[len1 ranges1]|] eqn:E; [|done].
  intros [= -> <-]. constructor; [|by eapply IH].
  intros Hs He. cbn [rg_start rg_end rg_content_range] in *.
  rewrite content_range_printed in Et by done. by injection Et.
Qed.

(** ** The parts *)

Definition part_size (hl : Z) (rg : range) : Z :=
  hl + Z.of_nat (length (rg_content_range rg)) + (rg_end rg - rg_start rg).
Definition parts_size (hl : Z) (rgs : list range) : Z :=
  foldr (fun rg s => part_size hl rg + s) 0 rgs.

(** The sum of the loop, as a [size_t]. *)
Lemma range_parts_size room ok cl hl : forall ranges n len len' ranges',
  range_parts room ok n hl cl len ranges = Some (Some len', ranges') ->
  u64 len = len -> len' = u64 (len + parts_size hl ranges').
Proof.
  induction ranges as [|rg ranges IH]; intros n len len' ranges'; cbn [range_parts].
  { intros [= <- <-] Hl. cbn. by rewrite Z.add_0_r. }
  destruct (ok n); [|done]. cbn [negb]. destruct (vslprintf _ _ _) as [text|]; [|done].
  destruct (range_parts _ _ _ _ _ _ ranges) as [[len1 ranges1]|] eqn:E; [|done].
  intros [= -> <-] Hl. apply IH in E; [|unfold u64; apply Z.mod_mod; lia].
  rewrite E. cbn [parts_size foldr]. fold (parts_size hl ranges1).
  unfold part_size. cbn [rg_content_range rg_start rg_end]. unfold u64.
  rewrite Zplus_mod_idemp_l.
  replace (len + (hl + Z.of_nat (length text) + (rg_end rg - rg_start rg) mod 2 ^ 64)
           + parts_size hl ranges1)
    with ((rg_end rg - rg_start rg) mod 2 ^ 64
          + (len + hl + Z.of_nat (length text) + parts_size hl ranges1)) by lia.
  rewrite Zplus_mod_idemp_l. f_equal. lia.
Qed.

Lemma multipart_header_next room ok boundary r ctx0 r' ctx :
  boundary_header_size r < room -> 66 < room ->
  ngx_http_range_multipart_header room ok boundary r ctx0 = Some (Next_filter r' (Some ctx)) ->
  rc_offset ctx = rc_offset ctx0 /\ rc_boundary_header ctx = boundary_text r boundary /\
  map rg_start (rc_ranges ctx) = map rg_start (rc_ranges ctx0) /\
  map rg_end (rc_ranges ctx) = map rg_end (rc_ranges ctx0) /\
  Forall (described (rr_content_length_n r)) (rc_ranges ctx) /\
  rr_status r' = rr_status r /\
  rr_content_length_n r' =
    i64 (28 + parts_size (Z.of_nat (length (rc_boundary_header ctx))) (rc_ranges ctx)).
Proof.
  intros Hroom Hroom'. unfold ngx_http_range_multipart_header. destruct (ok 0%nat); [|done]. cbn [negb].
  rewrite boundary_header_text by done.
  destruct (vslprintf _ _ _) as [ct|]; [|done]. destruct (ok 1%nat); [|done]. cbn [negb].
  destruct (range_parts _ _ _ _ _ _ _) as [[[len|] ranges]|] eqn:E; [|done|done].
  intros [= <- <-]. pose proof (range_parts_ranges _ _ _ _ _ _ _ _ _ E) as [H1 H2].
  pose proof (range_parts_described _ _ _ _ Hroom' _ _ _ _ _ E) as Hdesc.
  apply range_parts_size in E; [|done]. cbn [rc_offset rc_boundary_header rc_ranges].
  rewrite drop_content_length_n, drop_content_length_status. split_and!; try done.
  cbn [set_content_length_n rr_content_length_n]. rewrite E. unfold i64, u64, NGX_ATOMIC_T_LEN.
  f_equal. rewrite <-Zplus_mod_idemp_l. rewrite Z.mod_mod by lia.
  rewrite Zplus_mod_idemp_l. done.
Qed.

(** The bytes of a part: its header, its "SSSS-EEEE/TTTT" and its data. *)
Definition part_text (header data : list Z) (rg : range) : list Z :=
  header ++ rg_content_range rg ++ slice data (rg_start rg) (rg_end rg).

Lemma whole_buf_content text t m lb :
  t || m = true ->
  content (mk_buf text 0 (Z.of_nat (length text)) [] 0 0 t m false false false false lb) = text.
Proof.
  intros H. unfold content, ngx_buf_in_memory, mem_bytes. cbn. rewrite orb_false_r, H.
  unfold slice. rewrite Z.sub_0_r, Nat2Z.id. apply take_ge. cbn. lia.
Qed.

Lemma slice_slice mem i j a c :
  0 <= i -> 0 <= a -> c <= j - i -> slice (slice mem i j) a c = slice mem (i + a) (i + c).
Proof.
  intros. unfold slice. rewrite skipn_firstn_comm, drop_drop, take_take.
  f_equal; [lia|]. f_equal. lia.
Qed.

(** The data of a range that is in the buffer. *)
Lemma data_buf_content b rg :
  buf_wf b -> 0 <= rg_start rg -> rg_end rg <= ngx_buf_size b ->
  content (data_buf b rg) = slice (content b) (rg_start rg) (rg_end rg).
Proof.
  intros (Hm & Hf & _ & He) H1 H2.
  destruct b as [mem pos last file fpos flast t m mm f fl sy lb].
  unfold content, data_buf, ngx_buf_size, ngx_buf_in_memory, mem_bytes, file_bytes in *.
  cbn in *. destruct (t || m || mm) eqn:Em, f; cbn in *; rewrite ?Em in *; cbn in *.
  - specialize (Hm eq_refl). by rewrite slice_slice by lia.
  - specialize (Hm eq_refl). by rewrite slice_slice by lia.
  - specialize (Hf eq_refl). by rewrite slice_slice by lia.
  - unfold slice. by rewrite drop_nil, take_nil.
Qed.

Lemma multipart_loop_wire header b ranges : buf_wf b ->
  Forall (fun rg => 0 <= rg_start rg /\ rg_end rg <= ngx_buf_size b) ranges -> forall n,
  exists out, multipart_loop (fun _ => true) n header b ranges = Some out /\
    wire out = concat (map (part_text header (content b)) ranges) ++ last_boundary header.
Proof.
  intros Hb. induction 1 as [|rg ranges [H1 H2] _ IH]; intros n; cbn [multipart_loop].
  - eexists. split; [done|]. rewrite wire_cons. unfold last_boundary_buf.
    rewrite whole_buf_content by done. apply app_nil_r.
  - cbn [andb]. destruct (IH (n + 6)%nat) as (out & -> & Hw). eexists. split; [done|].
    rewrite !wire_cons, Hw, data_buf_content by done. unfold header_buf, content_range_buf.
    rewrite !whole_buf_content by done. cbn [map concat]. unfold part_text at 2.
    by rewrite <-!app_assoc.
Qed.

Lemma parts_length header data ranges :
  Forall (fun rg => 0 <= rg_start rg <= rg_end rg /\ rg_end rg <= Z.of_nat (length data)) ranges ->
  Z.of_nat (length (concat (map (part_text header data) ranges))) =
    parts_size (Z.of_nat (length header)) ranges.
Proof.
  induction 1 as [|rg ranges [H1 H2] _ IH]; [done|]. cbn [map concat].
  rewrite length_app, Nat2Z.inj_add, IH. cbn [parts_size foldr].
  fold (parts_size (Z.of_nat (length header)) ranges). unfold part_text, part_size.
  rewrite !length_app, !Nat2Z.inj_add, length_slice by lia. lia.
Qed.

Lemma last_boundary_text r boundary :
  last_boundary (boundary_text r boundary) =
    CRLF ++ bytes "--" ++ boundary_digits boundary ++ bytes "--" ++ CRLF.
Proof.
  unfold last_boundary, boundary_text. rewrite (app_assoc CRLF), (app_assoc (CRLF ++ _)).
  rewrite take_app_length' by (rewrite !length_app, boundary_digits_length; done).
  by rewrite <-!app_assoc.
Qed.

(** ** The response *)

(** Two lists of the same bounds. *)
Definition same_bounds (rgs rgs' : list range) : Prop :=
  Forall2 (fun rg rg' => rg_start rg = rg_start rg' /\ rg_end rg = rg_end rg') rgs rgs'.

Lemma same_bounds_maps rgs : forall rgs',
  map rg_start rgs = map rg_start rgs' -> map rg_end rgs = map rg_end rgs' -> same_bounds rgs rgs'.
Proof.
  induction rgs as [|rg rgs IH]; intros [|rg' rgs']; try done; [constructor|].
  cbn. intros [= ? ?] [= ? ?]. constructor; [done|by apply IH].
Qed.

Lemma same_bounds_total rgs rgs' : same_bounds rgs rgs' -> total rgs = total rgs'.
Proof. induction 1 as [|rg rg' ? ? [H1 H2] _ IH]; [done|]. rewrite !total_cons. lia. Qed.

Lemma same_bounds_inside cl rgs rgs' :
  same_bounds rgs rgs' ->
  Forall (fun rg => rg_start rg < rg_end rg <= cl) rgs' -> Forall (fun rg => 0 <= rg_start rg) rgs' ->
  Forall (fun rg => 0 <= rg_start rg < rg_end rg /\ rg_end rg <= cl) rgs.
Proof.
  induction 1 as [|rg rg' ? ? [H1 H2] _ IH]; [constructor|].
  intros Ha Hb. inversion Ha; inversion Hb; subst. constructor; [lia|by apply IH].
Qed.

Lemma body_filter_multi ctx b :
  rc_offset ctx = 0 -> length (rc_ranges ctx) <> 1%nat -> ngx_buf_special b = false ->
  buf_wf b ->
  Forall (fun rg => 0 <= rg_start rg < rg_end rg /\
    rg_end rg <= Z.of_nat (length (content b))) (rc_ranges ctx) ->
  exists ctx' out,
    ngx_http_range_body_filter (fun _ => true) (Some ctx) [b] =
      Some (Some ctx', [b], Next_body out) /\
    wire out = concat (map (part_text (rc_boundary_header ctx) (content b)) (rc_ranges ctx))
               ++ last_boundary (rc_boundary_header ctx).
Proof.
  intros Ho Hl Hs Hb Hin. rewrite <-buf_size_content in Hin by done.
  destruct (multipart_loop_wire (rc_boundary_header ctx) b (rc_ranges ctx) Hb) with 0%nat
    as (out & Hm & Hw); [by eapply Forall_impl; [exact Hin|cbn; intros; lia]|].
  exists (set_offset (ngx_buf_size b) ctx), out. split; [|done].
  unfold ngx_http_range_body_filter. apply Nat.eqb_neq in Hl. rewrite Hl, Hs.
  unfold ngx_http_range_test_overlapped. rewrite Ho. cbn [Z.eqb negb].
  assert (existsb (fun rg => (rg_start rg <? 0) || (0 + ngx_buf_size b <? rg_end rg))
            (rc_ranges ctx) = false) as ->.
  { clear -Hin. induction Hin as [|rg rgs [H1 H2] _ IH]; [done|]. cbn [existsb]. rewrite IH.
    assert ((rg_start rg <? 0) = false) as -> by lia.
    by assert ((0 + ngx_buf_size b <? rg_end rg) = false) as -> by lia. }
  rewrite andb_false_r. cbn [Z.eqb NGX_OK negb].
  unfold ngx_http_range_multipart_body. cbn [set_offset rc_boundary_header rc_ranges].
  by rewrite Hm.
Qed.

(** A part of the response: the boundary and the headers, of which the
    Content-Range gives the first and the last byte of the range and the length
    of the body, and the bytes. *)
Definition range_part (header data : list Z) (rg : range) : list Z :=
  header ++ content_range_text (rg_start rg) (rg_end rg) (Z.of_nat (length data))
  ++ slice data (rg_start rg) (rg_end rg).

Lemma part_texts header data ranges :
  Z.of_nat (length data) < 2 ^ 63 ->
  Forall (fun rg => 0 <= rg_start rg < rg_end rg /\ rg_end rg <= Z.of_nat (length data)) ranges ->
  Forall (described (Z.of_nat (length data))) ranges ->
  map (part_text header data) ranges = map (range_part header data) ranges.
Proof.
  intros Hl Hin Hd. induction Hin as [|rg ranges [H1 H2] _ IH]; [done|].
  inversion Hd as [|? ? Hrg Hd']; subst. cbn [map]. rewrite IH by done. f_equal.
  unfold part_text, range_part. by rewrite Hrg by lia.
Qed.

(** C16: when the header filter accepts the header of a main request with
    several ranges, for a whole body (at offset 0) of the length announced, the
    sum of the sizes of the ranges is below 2^63 and the headers of a part fit
    the memory, the response is 206 and a body in one buffer, in memory or in a file, yields for each range
    in turn the boundary and the Content-Type, the Content-Range with the first
    and the last byte of the range and the length of the body in decimal, and
    exactly the bytes of the range, then the last boundary; all that is as long
    as the length announced. *)
Theorem range_multi_response room al boundary max_ranges r r' ctx b :
  ngx_http_range_header_filter room al boundary max_ranges None r =
    Some (Next_filter r' (Some ctx)) ->
  rr_main r = true -> rr_content_offset r = 0 -> length (rc_ranges ctx) <> 1%nat ->
  boundary_header_size r < room -> 66 < room -> 0 <= max_ranges < 2 ^ 64 ->
  rr_content_length_n r = Z.of_nat (length (content b)) ->
  rr_content_length_n r <= NGX_MAX_OFF_T_VALUE ->
  buf_wf b -> ngx_buf_special b = false -> total (rc_ranges ctx) < 2 ^ 63 ->
  rr_status r' = NGX_HTTP_PARTIAL_CONTENT /\
  Forall (fun rg => 0 <= rg_start rg < rg_end rg /\ rg_end rg <= rr_content_length_n r)
    (rc_ranges ctx) /\
  exists ctx' out,
    ngx_http_range_body_filter (fun _ => true) (Some ctx) [b] =
      Some (Some ctx', [b], Next_body out) /\
    wire out =
      concat (map (range_part (boundary_text r boundary) (content b)) (rc_ranges ctx))
      ++ CRLF ++ bytes "--" ++ boundary_digits boundary ++ bytes "--" ++ CRLF /\
    rr_content_length_n r' = i64 (Z.of_nat (length (wire out))).
Proof.
  intros H Hmain Hoff Hl Hroom Hroom' Hmax Hlen Hcl Hwf Hsp Htot.
  apply header_filter_accepts in H as (value & out & ranges & _ & -> & Hn & Hp & H).
  rewrite Hmain in Hp. cbv zeta in H.
  destruct (parse_inside (al_push al) value (rr_content_length_n r)
    (if rr_single_range r then 1 else max_ranges) ltac:(lia)) as (rc & out' & Hp' & Hin & Hok);
    [by destruct (rr_single_range r)|].
  rewrite Hp in Hp'. injection Hp' as <- <-. destruct (Hok eq_refl) as (_ & _ & Hsafe).
  destruct (Nat.eqb (length out) 1) eqn:E1.
  { apply singlepart_header_next in H as (rg & _ & -> & _); [|done].
    apply Nat.eqb_eq in E1. done. }
  apply multipart_header_next in H as (Ho & Hh & H1 & H2 & Hd & Hs & Hc); [|exact Hroom|exact Hroom'].
  cbn [rc_offset rc_ranges] in *. pose proof (same_bounds_maps _ _ H1 H2) as Hsame.
  destruct Hsafe as [_ Hst]; [left; by rewrite <-(same_bounds_total _ _ Hsame)|].
  pose proof (same_bounds_inside _ _ _ Hsame Hin Hst) as Hins. rewrite Hs.
  split; [done|]. split; [done|]. rewrite Hlen in Hins.
  destruct (body_filter_multi ctx b) as (ctx' & bs & Hb & Hw); [congruence|done..|].
  exists ctx', bs. split; [done|]. rewrite Hc, Hw, Hh.
  change (rr_content_length_n (partial r)) with (rr_content_length_n r) in Hd. rewrite Hlen in Hd, Hcl.
  rewrite <-(part_texts (boundary_text r boundary)) by (done || (unfold NGX_MAX_OFF_T_VALUE in Hcl; lia)).
  change (boundary_text (partial r) boundary) with (boundary_text r boundary).
  rewrite last_boundary_text. split; [done|]. f_equal.
  rewrite length_app, Nat2Z.inj_add, parts_length.
  - rewrite !length_app, boundary_digits_length. cbn. lia.
  - eapply Forall_impl; [exact Hins|]. cbn. intros; lia.
Qed.

Definition sample_multi : range_request * range_ctx :=
  match sample_header "bytes=0-1,-2" 10 with
  | Some (Next_filter r (Some ctx)) => (r, ctx)
  | _ => (sample_request "" 0, mk_range_ctx 0 [] [])
  end.

Lemma range_multi_response_witness :
  let (r', ctx) := sample_multi in
  let b := text_buf "0123456789" true in
  rr_status r' = NGX_HTTP_PARTIAL_CONTENT /\ map rg_start (rc_ranges ctx) = [0; 8] /\
  exists ctx' out,
    ngx_http_range_body_filter (fun _ => true) (Some ctx) [b] =
      Some (Some ctx', [b], Next_body out) /\
    rr_content_length_n r' = i64 (Z.of_nat (length (wire out))).
Proof.
  assert (Hwf : buf_wf (text_buf "0123456789" true)).
  { unfold buf_wf. cbn. split_and!; done || (intros _; lia). }
  assert (Hl : length (rc_ranges (snd sample_multi)) <> 1%nat) by (vm_compute; discriminate).
  assert (Hsize : boundary_header_size (sample_request "bytes=0-1,-2" 10) < 2 ^ 40)
    by (vm_compute; reflexivity).
  assert (Hroom : 66 < 2 ^ 40) by lia.
  assert (Htot : total (rc_ranges (snd sample_multi)) < 2 ^ 63) by (vm_compute; reflexivity).
  assert (Hcl : 10 <= NGX_MAX_OFF_T_VALUE) by (vm_compute; discriminate).
  assert (Hmax : 0 <= 2 ^ 64 - 1 < 2 ^ 64) by lia.
  assert (H : ngx_http_range_header_filter (2 ^ 40) all_ok 17 (2 ^ 64 - 1) None
    (sample_request "bytes=0-1,-2" 10) =
      Some (Next_filter (fst sample_multi) (Some (snd sample_multi))))
    by (vm_compute; reflexivity).
  destruct (range_multi_response (2 ^ 40) all_ok 17 (2 ^ 64 - 1) _ _ _
    (text_buf "0123456789" true) H eq_refl eq_refl Hl Hsize Hroom Hmax eq_refl Hcl Hwf eq_refl Htot)
    as (Hs & _ & ctx' & out & Hb & _ & Hc).
  assert (map rg_start (rc_ranges (snd sample_multi)) = [0; 8]) as Hr by (vm_compute; reflexivity).
  clear H Hl Hsize Htot. destruct sample_multi as [r' ctx].
  split; [exact Hs|]. split; [exact Hr|]. exists ctx', out. split; [exact Hb|exact Hc].
Defined.

(** The header of [range_size_overflow]: the response is 206, and the parts
    passed on start before the buffer. *)
Theorem range_overflow_reads :
  exists r' ctx ctx' bs out,
    sample_header "bytes=-600,-9223372036854775208" 500 = Some (Next_filter r' (Some ctx)) /\
    ngx_http_range_body_filter (fun _ => true) (Some ctx)
      [mk_buf (replicate 500 (#"x")) 0 500 [] 0 0 true false false false false false true] =
      Some (Some ctx', bs, Next_body out) /\
    map bf_pos out = [0; 0; -100; 0; 0; -9223372036854774708; 0].
Proof.
  eexists _, _, _, _, _. split; [vm_compute; reflexivity|].
  split; [vm_compute; reflexivity|]. vm_compute. reflexivity.
Qed.
