(* ===== verification/Dns.v ===== *)
(** * Names in DNS messages

    The queries that [src/core/ngx_resolver.c] writes and the names it reads in
    the responses: [ngx_resolver_create_name_query], [ngx_resolver_create_srv_query],
    [ngx_resolver_create_addr_query], [ngx_resolver_copy], and the parts of
    [ngx_resolver_process_response] and [ngx_resolver_process_ptr] that find the
    question and the address in it.  A message is the memory it was received
    into, of which the first [n] bytes are the message. *)

From S2P Require Import Prelude HeaderLine Sprintf Strings StringNum.

(** ** Queries *)

Definition NGX_RESOLVE_A : Z := 1.
Definition NGX_RESOLVE_PTR : Z := 12.
Definition NGX_RESOLVE_AAAA : Z := 28.
Definition NGX_RESOLVE_SRV : Z := 33.

(** [sizeof(ngx_resolver_hdr_t)] *)
Definition HDR : Z := 12.

(** The header of a query: recursion, one question. *)
Definition query_hdr (ident : Z) : list Z :=
  [Z.land (Z.shiftr ident 8) 0xff; Z.land ident 0xff; 1; 0; 0; 1; 0; 0; 0; 0; 0; 0].

(** [ngx_resolver_qs_t] *)
Definition query_qs (type : Z) : list Z := [0; type; 0; 1].

(** The loop from the end of the name to its beginning: [name] is what is left
    of it, the last byte first, and [out] what is written from [p + 1] on.
    [None] is [NGX_DECLINED]. *)
Fixpoint name_loop (name : list Z) (len : Z) (out : list Z) : option (list Z) :=
  match name with
  | [] => if (len =? 0) || (255 <? len) then None else Some (u8 len :: out)
  | c :: name =>
      if negb (c =? #".") then name_loop name (len + 1) (c :: out)
      else if (len =? 0) || (255 <? len) then None
      else name_loop name 0 (u8 len :: out)
  end.

(** "\3www\7example\3com\0" *)
Definition encode_name (name : list Z) : option (list Z) :=
  match name with
  | [] => None
  | _ => name_loop (rev name) 0 [0]
  end.

(** What a query leaves in its node: [rn->query], [rn->query6] and [rn->qlen]. *)
Record query : Type := mk_query {
  qr_query : list Z;
  qr_query6 : option (list Z);
  qr_qlen : Z
}.

(** The length of the message, of which the name takes [nlen]. *)
Definition query_len (name : list Z) : Z :=
  HDR + (if Nat.eqb (length name) 0 then 1 else 1 + Z.of_nat (length name) + 1) + 4.

(** [alloc] tells whether the message can be allocated; [ident] and [ident6]
    are the two results of [ngx_random]. *)
Definition ngx_resolver_create_name_query (alloc ipv6 : bool) (ident ident6 : Z)
    (name : list Z) : Z * option query :=
  if negb alloc then (NGX_ERROR, None)
  else match encode_name name with
       | None => (NGX_DECLINED, None)
       | Some qname =>
           let msg := query_hdr ident ++ qname ++ query_qs NGX_RESOLVE_A in
           let msg6 := query_hdr ident6 ++ qname ++ query_qs NGX_RESOLVE_AAAA in
           (NGX_OK, Some (mk_query msg (if ipv6 then Some msg6 else None)
                            (u16 (query_len name))))
       end.

Definition ngx_resolver_create_srv_query (alloc : bool) (ident : Z) (name : list Z)
    : Z * option query :=
  if negb alloc then (NGX_ERROR, None)
  else match encode_name name with
       | None => (NGX_DECLINED, None)
       | Some qname =>
           (NGX_OK, Some (mk_query (query_hdr ident ++ qname ++ query_qs NGX_RESOLVE_SRV) None
                            (u16 (query_len name))))
       end.

(** An address: an [in_addr_t] in the order of the host, or sixteen bytes. *)
Inductive addr : Type :=
| Addr4 (a : Z)
| Addr6 (bs : list Z).

(** [d = ngx_sprintf(&p[1], "%ud", ...); *p = (u_char) (d - &p[1])]; [room] is
    the distance to the end of the address space. *)
Definition octet_label (room octet : Z) : option (list Z) :=
  match vslprintf room (bytes "%ud") [VNum octet] with
  | None => None
  | Some d => Some (u8 (Z.of_nat (length d)) :: d)
  end.

(** [for (n = 0; n < 32; n += 8)] *)
Fixpoint octet_labels (room a : Z) (ns : list Z) : option (list Z) :=
  match ns with
  | [] => Some []
  | n :: ns =>
      match octet_label room (Z.land (Z.shiftr a n) 0xff), octet_labels room a ns with
      | Some l, Some ls => Some (l ++ ls)
      | _, _ => None
      end
  end.

(** [ngx_sprintf(p, "\1%xd\1%xd", ...)] for the bytes [bs], the last first. *)
Fixpoint nibble_labels (room : Z) (bs : list Z) : option (list Z) :=
  match bs with
  | [] => Some []
  | b :: bs =>
      match vslprintf room ([1] ++ bytes "%xd" ++ [1] ++ bytes "%xd")
              [VNum (Z.land b 0xf); VNum (Z.land (Z.shiftr b 4) 0xf)], nibble_labels room bs with
      | Some l, Some ls => Some (l ++ ls)
      | _, _ => None
      end
  end.

Definition in_addr_arpa : list Z := [7] ++ bytes "in-addr" ++ [4] ++ bytes "arpa".
Definition ip6_arpa : list Z := [3] ++ bytes "ip6" ++ [4] ++ bytes "arpa".

Definition ngx_resolver_create_addr_query (alloc : bool) (room ident : Z) (a : addr)
    : option (Z * option query) :=
  if negb alloc then Some (NGX_ERROR, None)
  else
    match match a with
          | Addr6 bs => option_map (fun l => l ++ ip6_arpa ++ [0]) (nibble_labels room (rev bs))
          | Addr4 a => option_map (fun l => l ++ in_addr_arpa ++ [0])
                         (octet_labels room a [0; 8; 16; 24])
          end with
    | None => None
    | Some qname =>
        let msg := query_hdr ident ++ qname ++ [0; 12; 0; 1] in
        Some (NGX_OK, Some (mk_query msg None (u16 (Z.of_nat (length msg)))))
    end.

(** ** ngx_resolver_copy *)

(** The first loop: 128 turns.  [None] is a read outside the memory,
    [Some None] the jump to [invalid], and [Some (Some len)] that to [done]. *)
Fixpoint copy_scan (turns : nat) (buf : list Z) (last p len : Z) : option (option Z) :=
  match turns with
  | O => Some None
  | S turns =>
      match rd buf p with
      | None => None
      | Some n =>
          if n =? 0 then Some (Some len)
          else if negb (Z.land n 0xc0 =? 0) then
            match rd buf (p + 1) with
            | None => None
            | Some c =>
                let p := Z.shiftl (Z.land n 0x3f) 8 + c in
                if last <=? p then Some None else copy_scan turns buf last p len
            end
          else
            let p := p + 1 + n in
            if last <=? p then Some None else copy_scan turns buf last p (len + (1 + n))
      end
  end.

(** The second loop: [n] is the byte before [src], [dst] what is written so
    far. *)
Fixpoint copy_write (fuel : nat) (buf : list Z) (src n : Z) (dst : list Z) : option (list Z) :=
  match fuel with
  | O => None
  | S fuel =>
      if negb (Z.land n 0xc0 =? 0) then
        match rd buf src with
        | None => None
        | Some c =>
            let src := Z.shiftl (Z.land n 0x3f) 8 + c in
            match rd buf src with
            | None => None
            | Some n => if n =? 0 then Some dst else copy_write fuel buf (src + 1) n dst
            end
        end
      else
        match rd buf (src + n) with
        | None => None
        | Some n' =>
            let dst := dst ++ ngx_strlow (slice buf src (src + n)) in
            if n' =? 0 then Some dst
            else copy_write fuel buf (src + n + 1) n' (dst ++ [ #"." ])
        end
  end.

(** The name: null, or [data] written to [size] bytes that were allocated. *)
Inductive copied : Type :=
| Name_null
| Name_copied (size : Z) (data : list Z).

(** [None] is a read outside the memory; [want] tells whether [name] is not
    NULL. *)
Definition ngx_resolver_copy (alloc want : bool) (buf : list Z) (src last : Z)
    : option (Z * option copied) :=
  match copy_scan 128 buf last src (-1) with
  | None => None
  | Some None => Some (NGX_ERROR, None)
  | Some (Some len) =>
      if negb want then Some (NGX_OK, None)
      else if len =? -1 then Some (NGX_OK, Some Name_null)
      else if negb alloc then Some (NGX_ERROR, None)
      else
        match rd buf src with
        | None => None
        | Some n =>
            match copy_write 128 buf (src + 1) n [] with
            | None => None
            | Some data => Some (NGX_OK, Some (Name_copied len data))
            end
        end
  end.

(** ** Responses *)

(** [while (i < (ngx_uint_t) n)] of [ngx_resolver_process_response]: where the
    question's name ends; [None] is [short_response]. *)
Fixpoint question_end (fuel : nat) (buf : list Z) (n i : Z) : option Z :=
  match fuel with
  | O => None
  | S fuel =>
      if i <? n then
        if byte_at buf i =? 0 then Some i
        else question_end fuel buf n (i + (1 + byte_at buf i))
      else None
  end.

(** What [ngx_resolver_process_response] reads of a response it hands on, to
    [ngx_resolver_process_a], [_srv] or [_ptr] by the type. *)
Record resp_head : Type := mk_resp_head {
  rh_ident : Z; rh_code : Z; rh_nan : Z; rh_trunc : bool; rh_qtype : Z; rh_ans : Z
}.

Definition NGX_RESOLVE_FORMERR : Z := 1.
Definition NGX_RESOLVE_REFUSED : Z := 5.

(** Two bytes, the high one first. *)
Definition word_at (buf : list Z) (i : Z) : Z := Z.shiftl (byte_at buf i) 8 + byte_at buf (i + 1).

(** [None] when the response is only logged. *)
Definition ngx_resolver_process_response (tcp : bool) (buf : list Z) (n : Z) : option resp_head :=
  if n <? HDR then None
  else
    let ident := word_at buf 0 in
    let flags := word_at buf 2 in
    let nqs := word_at buf 4 in
    let nan := word_at buf 6 in
    let trunc := negb (Z.land flags 0x0200 =? 0) in
    if negb (Z.land flags 0xf870 =? 0x8000) || (trunc && tcp) then None
    else
      let code := Z.land flags 0xf in
      if (code =? NGX_RESOLVE_FORMERR) || (NGX_RESOLVE_REFUSED <? code) then None
      else if negb (nqs =? 1) then None
      else
        match question_end (S (Z.to_nat n)) buf n HDR with
        | None => None
        | Some i =>
            if i =? HDR then None
            else
              let i := i + 1 in
              if n <? i + 4 + nan * (2 + 10) then None
              else
                let qtype := word_at buf i in
                let qclass := word_at buf (i + 2) in
                if negb (qclass =? 1) then None
                else if (qtype =? NGX_RESOLVE_A) || (qtype =? NGX_RESOLVE_AAAA)
                        || (qtype =? NGX_RESOLVE_SRV) || (qtype =? NGX_RESOLVE_PTR)
                then Some (mk_resp_head ident code nan trunc qtype (i + 4))
                else None
        end.

(** The four octets; [Some None] is the jump to [invalid_in_addr_arpa]. *)
Fixpoint ptr_octets (buf : list Z) (masks : list Z) (i a : Z) : option (option (Z * Z)) :=
  match masks with
  | [] => Some (Some (a, i))
  | mask :: masks =>
      match rd buf i with
      | None => None
      | Some len =>
          let octet := ngx_atoi (slice buf (i + 1) (i + 1 + len)) in
          if (octet =? NGX_ERROR) || (255 <? octet) then Some None
          else ptr_octets buf masks (i + 1 + len) (u32 (a + Z.shiftl octet mask))
      end
  end.

(** The digits of an IPv6 address, [k] bytes of which are left: [bs] are those
    read so far, in their order in the address. *)
Fixpoint ptr_nibbles (buf : list Z) (k : nat) (i : Z) (bs : list Z) : option (option (list Z * Z)) :=
  match k with
  | O => Some (Some (bs, i))
  | S k =>
      match rd buf i, rd buf (i + 1), rd buf (i + 2), rd buf (i + 3) with
      | Some one, lo, one', hi =>
          if negb (one =? 1) then Some None
          else match lo with
               | None => None
               | Some lo =>
                   if ngx_hextoi [lo] =? NGX_ERROR then Some None
                   else match one' with
                        | None => None
                        | Some one' =>
                            if negb (one' =? 1) then Some None
                            else match hi with
                                 | None => None
                                 | Some hi =>
                                     if ngx_hextoi [hi] =? NGX_ERROR then Some None
                                     else ptr_nibbles buf k (i + 4)
                                            (u8 (u8 (ngx_hextoi [lo]) + u8 (ngx_hextoi [hi] * 16))
                                             :: bs)
                                 end
                        end
               end
      | None, _, _, _ => None
      end
  end.

(** The comparison of the rest of the name with [text] and its NUL. *)
Definition rest_is (buf : list Z) (i : Z) (text : list Z) : option bool :=
  match ngx_strcasecmp (drop (Z.to_nat i) buf) (text ++ [0]) with
  | None => None
  | Some c => Some (c =? 0)
  end.

(** The address that a response to a query for a name is about and where its
    name ends: [Some None] is the error of line 3181. *)
Definition ptr_addr6 (buf : list Z) : option (option (addr * Z)) :=
  match ptr_nibbles buf 16 HDR [] with
  | None => None
  | Some None => Some None
  | Some (Some (bs, i)) =>
      match rest_is buf i ip6_arpa with
      | None => None
      | Some false => Some None
      | Some true => Some (Some (Addr6 bs, i + 10))
      end
  end.

Definition ptr_addr (buf : list Z) : option (option (addr * Z)) :=
  match ptr_octets buf [0; 8; 16; 24] HDR 0 with
  | None => None
  | Some None => ptr_addr6 buf
  | Some (Some (a, i)) =>
      match rest_is buf i in_addr_arpa with
      | None => None
      | Some false => ptr_addr6 buf
      | Some true => Some (Some (Addr4 a, i + 14))
      end
  end.

(** ** Examples *)

Definition sample_query (name : string) : list Z :=
  match ngx_resolver_create_name_query true false 0x1234 0 (bytes name) with
  | (_, Some q) => qr_query q
  | _ => []
  end.

Example dns_query : sample_query "www.nginx.org" =
  query_hdr 0x1234 ++ [3] ++ bytes "www" ++ [5] ++ bytes "nginx" ++ [3] ++ bytes "org"
  ++ [0; 0; 1; 0; 1].
Proof. vm_compute. reflexivity. Qed.

Example dns_copy : ngx_resolver_copy true true (sample_query "WWW.nginx.org") 12 31 =
  Some (NGX_OK, Some (Name_copied 13 (bytes "www.nginx.org"))).
Proof. vm_compute. reflexivity. Qed.

Definition sample_ptr (a : addr) : option (option (addr * Z)) :=
  match ngx_resolver_create_addr_query true (2 ^ 40) 7 a with
  | Some (_, Some q) => ptr_addr (qr_query q)
  | _ => None
  end.

Example dns_ptr : sample_ptr (Addr4 0x7f000001) = Some (Some (Addr4 0x7f000001, 12 + 10 + 14)).
Proof. vm_compute. reflexivity. Qed.

(** A label and a pointer to a zero byte: eight bytes are allocated for the
    name, and nine are written. *)
Theorem resolver_copy_overrun :
  ngx_resolver_copy true true (repeat 0 12 ++ [8] ++ bytes "aaaaaaaa" ++ [0xc0; 4; 0; 1; 0; 1])
    12 27 =
  Some (NGX_OK, Some (Name_copied 8 (bytes "aaaaaaaa."))).
Proof. vm_compute. reflexivity. Qed.

(** A label of 64 bytes is put into a query, where its length is a pointer: the
    name of the query cannot be read. *)
Theorem resolver_long_label :
  let r := ngx_resolver_create_name_query true false 7 0 (repeat (#"a") 64) in
  fst r = NGX_OK /\
  option_map (fun q => ngx_resolver_copy true true (qr_query q ++ [0]) 12
                         (Z.of_nat (length (qr_query q)))) (snd r) =
    Some (Some (NGX_ERROR, None)).
Proof. vm_compute. split; reflexivity. Qed.
