(* ===== verification/DnsSpec.v ===== *)
(** * What the resolver reads is what it asked for

    Names written into queries and read back from responses, addresses in
    PTR queries, and the bounds of [ngx_resolver_copy] on any message. *)

From S2P Require Import Prelude HeaderLine Sprintf Strings StringNum Dns.

(** ** ngx_resolver_copy on any message *)

(** What the second loop writes, [w], for a sum [len] of the first: the sum
    counts a byte more for each label, or as many bytes when the last label is
    followed by a pointer to the end. *)
Definition measured (len : Z) (w : list Z) : Prop :=
  len = Z.of_nat (length w) + 1 \/
  (len = Z.of_nat (length w) /\ (w = [] \/ last w = Some (#"."))).

Lemma measured_label l w len :
  measured len w -> measured (len + (1 + Z.of_nat (length l))) ((l ++ [ #"." ]) ++ w).
Proof.
  intros [H|[H H1]]; [left|right]; rewrite !length_app; cbn [length]; [lia|].
  split; [lia|right]. destruct H1 as [->|H1]; [|by rewrite last_app, H1].
  by rewrite app_nil_r, last_snoc.
Qed.

Lemma rd_at buf p n : rd buf p = Some n -> 0 <= p < Z.of_nat (length buf).
Proof.
  unfold rd. case_ifs; [done|]. intros H%lookup_lt_Some. lia.
Qed.

Lemma length_lower_slice buf i j :
  0 <= i <= j -> j <= Z.of_nat (length buf) -> Z.of_nat (length (ngx_strlow (slice buf i j))) = j - i.
Proof. intros. unfold ngx_strlow. rewrite length_map. by apply length_slice. Qed.

Lemma copy_scan_end buf last_ turns p len :
  rd buf p = Some 0 -> copy_scan (S turns) buf last_ p len = Some (Some len).
Proof. intros H. cbn [copy_scan]. by rewrite H. Qed.

Section any_message.
Context (buf : list Z) (last_ : Z).
Hypothesis Hbytes : Forall is_byte buf.
Hypothesis Hlast : last_ < Z.of_nat (length buf).

Lemma rd_byte p n : rd buf p = Some n -> 0 <= n < 256.
Proof.
  unfold rd. case_ifs; [done|]. intros H. by apply (proj1 (Forall_lookup _ _) Hbytes) in H.
Qed.

Lemma rd_inside p : 0 <= p < Z.of_nat (length buf) -> exists n, rd buf p = Some n.
Proof. intros H. eexists. by apply rd_Some. Qed.

Lemma pointer_nonneg n c : 0 <= n -> 0 <= c -> 0 <= Z.shiftl (Z.land n 0x3f) 8 + c.
Proof.
  intros. assert (0 <= Z.land n 63) by (apply Z.land_nonneg; lia).
  pose proof (Z.shiftl_nonneg (Z.land n 63) 8). lia.
Qed.

(** The first loop reads only the memory. *)
Lemma copy_scan_total turns : forall p len, 0 <= p < last_ ->
  exists r, copy_scan turns buf last_ p len = Some r.
Proof.
  induction turns as [|turns IH]; intros p len Hp; cbn [copy_scan]; [by eexists|].
  destruct (rd_inside p ltac:(lia)) as [n Hn]. rewrite Hn.
  pose proof (rd_byte _ _ Hn). destruct (n =? 0); [by eexists|].
  destruct (negb _).
  - destruct (rd_inside (p + 1) ltac:(lia)) as [c Hc]. rewrite Hc.
    pose proof (rd_byte _ _ Hc). pose proof (pointer_nonneg n c ltac:(lia) ltac:(lia)).
    destruct (last_ <=? _) eqn:E; [by eexists|]. apply IH. lia.
  - destruct (last_ <=? p + 1 + n) eqn:E; [by eexists|]. apply IH. lia.
Qed.

(** The second loop follows the first. *)
Lemma copy_follows turns : forall p len len' n dst, 0 <= p < last_ ->
  copy_scan turns buf last_ p len = Some (Some len') -> rd buf p = Some n -> n <> 0 ->
  exists w, copy_write turns buf (p + 1) n dst = Some (dst ++ w) /\ measured (len' - len) w.
Proof.
  induction turns as [|turns IH]; intros p len len' n dst Hp Hscan Hn Hn0; [done|].
  cbn [copy_scan] in Hscan. rewrite Hn in Hscan. pose proof (rd_byte _ _ Hn) as Hb.
  destruct (n =? 0) eqn:E0; [lia|]. cbn [copy_write]. destruct (negb _).
  - destruct (rd buf (p + 1)) as [c|] eqn:Hc; [|done]. pose proof (rd_byte _ _ Hc).
    pose proof (pointer_nonneg n c ltac:(lia) ltac:(lia)) as Hp'.
    destruct (last_ <=? _) eqn:El; [done|].
    destruct (rd_inside (Z.shiftl (Z.land n 63) 8 + c) ltac:(lia)) as [n' Hn']. rewrite Hn'.
    destruct (n' =? 0) eqn:E'.
    + destruct turns; [done|]. cbn [copy_scan] in Hscan. rewrite Hn', E' in Hscan.
      injection Hscan as <-. exists []. rewrite app_nil_r. split; [done|].
      right. split; [cbn; lia|by left].
    + apply (IH _ _ _ n' dst) in Hscan; [exact Hscan|lia|done|lia].
  - destruct (last_ <=? p + 1 + n) eqn:El; [done|].
    destruct (rd_inside (p + 1 + n) ltac:(lia)) as [n' Hn']. rewrite Hn'.
    pose proof (length_lower_slice buf (p + 1) (p + 1 + n) ltac:(lia) ltac:(lia)) as Hl.
    destruct (n' =? 0) eqn:E'.
    + destruct turns; [done|]. cbn [copy_scan] in Hscan. rewrite Hn', E' in Hscan.
      injection Hscan as <-. eexists. split; [done|]. left. lia.
    + apply (IH _ _ _ n' ((dst ++ ngx_strlow (slice buf (p + 1) (p + 1 + n))) ++ [46]))
        in Hscan as (w & Hw & Hm); [|lia|done|lia].
      exists ((ngx_strlow (slice buf (p + 1) (p + 1 + n)) ++ [46]) ++ w).
      rewrite Hw, <-!app_assoc. split; [done|].
      replace (len' - len) with (len' - (len + (1 + n)) + (1 + n)) by lia.
      replace n with (Z.of_nat (length (ngx_strlow (slice buf (p + 1) (p + 1 + n))))) at 2 by lia.
      rewrite app_assoc. by apply measured_label.
Qed.
End any_message.

(** C20: on any message, with pointers in whatever way, [ngx_resolver_copy]
    ends, and reads nothing outside the memory if there is one byte more than
    the message.  Of a name it writes as many bytes as it has allocated, or one
    more: a dot, after a last label that is followed by a pointer to a zero. *)
Theorem resolver_copy_bounds alloc want buf src last_ :
  Forall is_byte buf -> last_ < Z.of_nat (length buf) -> 0 <= src < last_ ->
  exists rc res, ngx_resolver_copy alloc want buf src last_ = Some (rc, res) /\
    (rc = NGX_OK \/ rc = NGX_ERROR) /\
    forall size data, res = Some (Name_copied size data) ->
      Z.of_nat (length data) = size \/
      (Z.of_nat (length data) = size + 1 /\ last data = Some (#".")).
Proof.
  intros Hb Hl Hs. unfold ngx_resolver_copy.
  destruct (copy_scan_total buf last_ Hb Hl 128 src (-1) Hs) as [[len|] E]; rewrite E;
    [|eexists _, _; split_and!; [done|by right|done]].
  destruct want; [|eexists _, _; split_and!; [done|by left|done]]. cbn [negb].
  destruct (len =? -1) eqn:Elen; [eexists _, _; split_and!; [done|by left|done]|].
  destruct alloc; [|eexists _, _; split_and!; [done|by right|done]]. cbn [negb].
  destruct (rd_inside buf src ltac:(lia)) as [n Hn]. rewrite Hn.
  destruct (Z.eq_dec n 0) as [->|Hn0].
  { rewrite (copy_scan_end buf last_ 127 src (-1) Hn) in E. injection E as <-. lia. }
  destruct (copy_follows buf last_ Hb Hl 128 src (-1) len n [] Hs E Hn Hn0) as (w & Hw & Hm).
  cbn [app] in Hw. rewrite Hw. eexists _, _. split_and!; [done|by left|].
  intros size data [= <- <-]. destruct Hm as [H|[H [->|H1]]]; [left; lia|cbn in H; lia|].
  right. split; [lia|done].
Qed.

Lemma resolver_copy_bounds_witness :
  exists rc res, ngx_resolver_copy true true (repeat 0 12 ++ [1; 97; 0xc0; 4; 0]) 12 16 =
      Some (rc, res) /\
    forall size data, res = Some (Name_copied size data) ->
      Z.of_nat (length data) = size \/
      (Z.of_nat (length data) = size + 1 /\ last data = Some (#".")).
Proof.
  destruct (resolver_copy_bounds true true (repeat 0 12 ++ [1; 97; 0xc0; 4; 0]) 12 16)
    as (rc & res & H1 & _ & H2); [by apply bytes_ok_spec|vm_compute; reflexivity|lia|].
  by exists rc, res.
Defined.

(** ** Names *)

Definition label_ok (l : list Z) : Prop :=
  (1 <= length l <= 63)%nat /\ Forall (fun c => c <> #".") l.

(** Labels and dots. *)
Fixpoint join (ls : list (list Z)) : list Z :=
  match ls with
  | [] => []
  | [l] => l
  | l :: ls => l ++ #"." :: join ls
  end.

Definition enc (ls : list (list Z)) : list Z :=
  concat (map (fun l => Z.of_nat (length l) :: l) ls).

Lemma enc_cons l ls : enc (l :: ls) = Z.of_nat (length l) :: l ++ enc ls.
Proof. done. Qed.

Lemma enc_app ls ls' : enc (ls ++ ls') = enc ls ++ enc ls'.
Proof. unfold enc. by rewrite map_app, concat_app. Qed.

Lemma join_snoc ls l : ls <> [] -> join (ls ++ [l]) = join ls ++ #"." :: l.
Proof.
  induction ls as [|l0 [|l1 ls] IH]; intros H; [done|done|].
  change (join ((l0 :: l1 :: ls) ++ [l])) with (l0 ++ #"." :: join ((l1 :: ls) ++ [l])).
  rewrite IH by done. change (join (l0 :: l1 :: ls)) with (l0 ++ #"." :: join (l1 :: ls)).
  by rewrite <-app_assoc.
Qed.

Lemma length_join ls : ls <> [] -> Z.of_nat (length (join ls)) = Z.of_nat (length (enc ls)) - 1.
Proof.
  induction ls as [|l [|l1 ls] IH]; intros H; [done|cbn; rewrite length_app; cbn; lia|].
  change (join (l :: l1 :: ls)) with (l ++ #"." :: join (l1 :: ls)).
  rewrite enc_cons. cbn [length]. rewrite !length_app. cbn [length]. specialize (IH ltac:(done)). lia.
Qed.

Lemma name_loop_label l : forall rs k out, Forall (fun c => c <> #".") l ->
  name_loop (rev l ++ rs) k out = name_loop rs (k + Z.of_nat (length l)) (l ++ out).
Proof.
  induction l as [|c l IH]; intros rs k out Hl; [cbn; f_equal; lia|].
  inversion Hl as [|? ? Hc Hl']; subst. cbn [rev]. rewrite <-app_assoc. cbn [app].
  rewrite IH by done. cbn [name_loop]. destruct (c =? 46) eqn:E; [lia|]. cbn [negb length].
  f_equal. lia.
Qed.

Lemma name_loop_labels ls : forall out, ls <> [] -> Forall label_ok ls ->
  name_loop (rev (join ls)) 0 out = Some (enc ls ++ out).
Proof.
  induction ls as [|l ls IH] using rev_ind; intros out Hne Hok; [done|].
  apply Forall_app in Hok as [Hls Hl]. inversion Hl as [|? ? [Hlen Hdot] _]; subst.
  assert (Hu : u8 (0 + Z.of_nat (length l)) = Z.of_nat (length l))
    by (unfold u8; rewrite Z.mod_small; lia).
  assert (Ht : ((0 + Z.of_nat (length l) =? 0) || (255 <? 0 + Z.of_nat (length l))) = false) by lia.
  destruct ls as [|l0 ls].
  - cbn [app join]. rewrite <-(app_nil_r (rev l)), name_loop_label by done.
    cbn [name_loop]. rewrite Ht, Hu. unfold enc. cbn. by rewrite app_nil_r.
  - rewrite join_snoc by done. rewrite rev_app_distr. cbn [rev]. rewrite <-!app_assoc.
    rewrite name_loop_label by done. cbn [app name_loop Z.eqb Pos.eqb negb]. rewrite Ht, Hu.
    rewrite IH by done. rewrite (enc_app (l0 :: ls) [l] : enc (l0 :: ls ++ [l]) = _), <-app_assoc. f_equal. f_equal. unfold enc. cbn.
    by rewrite app_nil_r.
Qed.

Definition name_ok (ls : list (list Z)) : Prop :=
  ls <> [] /\ Forall label_ok ls /\ (length ls <= 127)%nat.

Lemma encode_join ls : name_ok ls -> encode_name (join ls) = Some (enc ls ++ [0]).
Proof.
  intros (Hne & Hok & _). unfold encode_name.
  pose proof (name_loop_labels ls [0] Hne Hok) as H.
  destruct (join ls) as [|c name] eqn:E; [|done].
  pose proof (length_join ls Hne) as Hl. rewrite E in Hl.
  destruct ls as [|l ls]; [done|]. inversion Hok as [|? ? [Hlen _] _]; subst.
  rewrite enc_cons in Hl. cbn [length] in Hl. rewrite length_app in Hl. lia.
Qed.

(** ** Reading a name back *)

Lemma rd_middle l1 b l2 p : Z.of_nat (length l1) = p -> rd (l1 ++ b :: l2) p = Some b.
Proof.
  intros <-. unfold rd. case_ifs; [lia|]. rewrite Nat2Z.id. by apply list_lookup_middle.
Qed.

Lemma label_mask (l : list Z) : (length l <= 63)%nat -> Z.land (Z.of_nat (length l)) 0xc0 = 0.
Proof.
  intros H.
  assert (Hc : forallb (fun k => Z.land (Z.of_nat k) 0xc0 =? 0) (seq 0 64) = true)
    by (vm_compute; reflexivity).
  rewrite forallb_forall in Hc. apply Z.eqb_eq, Hc, in_seq. lia.
Qed.

Lemma scan_labels ls : forall turns pre rest last_ len,
  Forall label_ok ls -> (length ls < turns)%nat ->
  Z.of_nat (length pre) + Z.of_nat (length (enc ls)) < last_ ->
  copy_scan turns (pre ++ enc ls ++ 0 :: rest) last_ (Z.of_nat (length pre)) len =
    Some (Some (len + Z.of_nat (length (enc ls)))).
Proof.
  induction ls as [|l ls IH]; intros turns pre rest last_ len Hok Ht Hlast;
    (destruct turns as [|turns]; [cbn in Ht; lia|]); cbn [copy_scan].
  - cbn [app enc map concat]. rewrite rd_middle by done. cbn. f_equal. f_equal. lia.
  - inversion Hok as [|? ? [Hlen _] Hok']; subst. rewrite enc_cons in *. cbn [app length] in *.
    rewrite length_app in Hlast. rewrite rd_middle by done.
    rewrite label_mask by lia. cbn [Z.eqb negb].
    destruct (Z.of_nat (length l) =? 0) eqn:E0; [lia|].
    destruct (last_ <=? _) eqn:El; [lia|].
    replace (pre ++ Z.of_nat (length l) :: (l ++ enc ls) ++ 0 :: rest)
      with ((pre ++ Z.of_nat (length l) :: l) ++ enc ls ++ 0 :: rest)
      by (rewrite <-?app_assoc; cbn [app]; by rewrite <-?app_assoc).
    replace (Z.of_nat (length pre) + 1 + Z.of_nat (length l))
      with (Z.of_nat (length (pre ++ Z.of_nat (length l) :: l))) by (rewrite length_app; cbn; lia).
    rewrite IH; [|done|lia|rewrite length_app; cbn [length]; lia].
    rewrite length_app. do 2 f_equal. lia.
Qed.

Lemma write_labels ls : forall turns pre rest l dst,
  Forall label_ok (l :: ls) -> (length ls < turns)%nat ->
  copy_write turns (pre ++ enc (l :: ls) ++ 0 :: rest) (Z.of_nat (length pre) + 1)
    (Z.of_nat (length l)) dst = Some (dst ++ ngx_strlow (join (l :: ls))).
Proof.
  induction ls as [|l1 ls IH]; intros turns pre rest l dst Hok Ht;
    (destruct turns as [|turns]; [cbn in Ht; lia|]); cbn [copy_write];
    inversion Hok as [|? ? [Hlen _] Hok']; subst;
    rewrite label_mask by lia; cbn [Z.eqb negb]; rewrite enc_cons.
  - change (enc []) with (@nil Z). rewrite app_nil_r.
    replace (pre ++ (Z.of_nat (length l) :: l) ++ 0 :: rest)
      with ((pre ++ [Z.of_nat (length l)]) ++ l ++ 0 :: rest) by (by rewrite <-app_assoc).
    rewrite slice_mid by (rewrite ?length_app; cbn; lia). rewrite app_assoc.
    rewrite rd_middle by (rewrite !length_app; cbn; lia). done.
  - inversion Hok' as [|? ? [Hlen1 _] _]; subst.
    assert (Hb : pre ++ (Z.of_nat (length l) :: l ++ enc (l1 :: ls)) ++ 0 :: rest =
      (pre ++ Z.of_nat (length l) :: l) ++ enc (l1 :: ls) ++ 0 :: rest)
      by (rewrite <-?app_assoc; cbn [app]; by rewrite <-?app_assoc).
    rewrite Hb. rewrite (enc_cons l1 ls) at 1. cbn [app].
    rewrite rd_middle by (rewrite length_app; cbn; lia).
    destruct (Z.of_nat (length l1) =? 0) eqn:E0; [lia|].
    assert (Hs : slice ((pre ++ Z.of_nat (length l) :: l) ++ enc (l1 :: ls) ++ 0 :: rest)
      (Z.of_nat (length pre) + 1) (Z.of_nat (length pre) + 1 + Z.of_nat (length l)) = l).
    { replace ((pre ++ Z.of_nat (length l) :: l) ++ enc (l1 :: ls) ++ 0 :: rest)
        with ((pre ++ [Z.of_nat (length l)]) ++ l ++ enc (l1 :: ls) ++ 0 :: rest)
        by (rewrite <-!app_assoc; done).
      apply slice_mid; rewrite ?length_app; cbn; lia. }
    rewrite Hs.
    replace (Z.of_nat (length pre) + 1 + Z.of_nat (length l) + 1)
      with (Z.of_nat (length (pre ++ Z.of_nat (length l) :: l)) + 1) by (rewrite length_app; cbn; lia).
    rewrite IH by (done || cbn in Ht; lia). unfold ngx_strlow.
    change (join (l :: l1 :: ls)) with (l ++ #"." :: join (l1 :: ls)).
    by rewrite map_app, <-!app_assoc.
Qed.

(** The name of a question, at the place [pre] of a message, is read whole. *)
Lemma copy_name ls pre rest last_ :
  name_ok ls -> Z.of_nat (length pre) + Z.of_nat (length (enc ls)) < last_ ->
  ngx_resolver_copy true true (pre ++ enc ls ++ 0 :: rest) (Z.of_nat (length pre)) last_ =
    Some (NGX_OK, Some (Name_copied (Z.of_nat (length (join ls))) (ngx_strlow (join ls)))).
Proof.
  intros (Hne & Hok & Hl) Hlast. unfold ngx_resolver_copy.
  rewrite scan_labels by (done || lia). cbn [negb].
  pose proof (length_join ls Hne) as Hj. destruct ls as [|l ls]; [done|].
  destruct (_ =? -1) eqn:E.
  { rewrite enc_cons in Hj, E. cbn [length] in E. lia. }
  rewrite enc_cons at 1. cbn [app]. rewrite rd_middle by done.
  rewrite write_labels by (done || cbn in Hl; lia).
  rewrite Hj. do 4 f_equal.
Qed.

Lemma question_labels ls : forall fuel pre rest n,
  Forall label_ok ls -> (length ls < fuel)%nat ->
  Z.of_nat (length pre) + Z.of_nat (length (enc ls)) < n ->
  question_end fuel (pre ++ enc ls ++ 0 :: rest) n (Z.of_nat (length pre)) =
    Some (Z.of_nat (length pre) + Z.of_nat (length (enc ls))).
Proof.
  induction ls as [|l ls IH]; intros fuel pre rest n Hok Hf Hn;
    (destruct fuel as [|fuel]; [cbn in Hf; lia|]); cbn [question_end].
  - cbn [enc map concat app length] in *. destruct (_ <? n) eqn:E; [|lia].
    rewrite byte_at_middle by done. cbn. f_equal. lia.
  - inversion Hok as [|? ? [Hlen _] Hok']; subst. rewrite enc_cons in *. cbn [app length] in *.
    rewrite length_app in Hn. destruct (_ <? n) eqn:E; [|lia].
    rewrite byte_at_middle by done. destruct (Z.of_nat (length l) =? 0) eqn:E0; [lia|].
    replace (pre ++ Z.of_nat (length l) :: (l ++ enc ls) ++ 0 :: rest)
      with ((pre ++ Z.of_nat (length l) :: l) ++ enc ls ++ 0 :: rest)
      by (rewrite <-?app_assoc; cbn [app]; by rewrite <-?app_assoc).
    replace (Z.of_nat (length pre) + (1 + Z.of_nat (length l)))
      with (Z.of_nat (length (pre ++ Z.of_nat (length l) :: l))) by (rewrite length_app; cbn; lia).
    rewrite IH; [|done|lia|rewrite length_app; cbn [length]; lia].
    rewrite !length_app. cbn [length]. f_equal. lia.
Qed.

(** ** A response to a query for a name *)

Lemma word_at_middle l1 a b l2 i :
  i = Z.of_nat (length l1) -> word_at (l1 ++ a :: b :: l2) i = Z.shiftl a 8 + b.
Proof.
  intros ->. unfold word_at. rewrite byte_at_middle by done.
  replace (l1 ++ a :: b :: l2) with ((l1 ++ [a]) ++ b :: l2) by (by rewrite <-app_assoc).
  rewrite byte_at_middle by (rewrite length_app; cbn; lia). done.
Qed.

(** The header of a response that [ngx_resolver_process_response] hands on. *)
Definition head_ok (tcp : bool) (buf : list Z) : Prop :=
  Z.land (word_at buf 2) 0xf870 = 0x8000 /\
  (negb (Z.land (word_at buf 2) 0x0200 =? 0) && tcp) = false /\
  Z.land (word_at buf 2) 0xf <> NGX_RESOLVE_FORMERR /\
  Z.land (word_at buf 2) 0xf <= NGX_RESOLVE_REFUSED /\ word_at buf 4 = 1.

Lemma response_read tcp hdr ls type rest n :
  length hdr = 12%nat -> name_ok ls ->
  type = NGX_RESOLVE_A \/ type = NGX_RESOLVE_AAAA \/ type = NGX_RESOLVE_SRV \/ type = NGX_RESOLVE_PTR ->
  let buf := hdr ++ enc ls ++ 0 :: query_qs type ++ rest in
  head_ok tcp buf -> 0 <= word_at buf 6 ->
  Z.of_nat (length (enc ls)) + 17 + 12 * word_at buf 6 <= n ->
  ngx_resolver_process_response tcp buf n =
    Some (mk_resp_head (word_at buf 0) (Z.land (word_at buf 2) 0xf) (word_at buf 6)
            (negb (Z.land (word_at buf 2) 0x0200 =? 0)) type (Z.of_nat (length (enc ls)) + 17)).
Proof.
  intros Hh (Hne & Hok & Hll) Ht buf (H1 & H2 & H3 & H4 & H5) H6 Hn.
  assert (Hq : question_end (S (Z.to_nat n)) buf n HDR = Some (12 + Z.of_nat (length (enc ls)))).
  { assert (HDR = Z.of_nat (length hdr)) as -> by (rewrite Hh; done). unfold buf.
    rewrite question_labels; [rewrite Hh; done|done| |rewrite Hh; lia].
    pose proof (length_join ls Hne). clear -Hn H6 Hok.
    assert (Z.of_nat (length ls) <= Z.of_nat (length (enc ls))); [|lia].
    clear -Hok. induction Hok as [|l ls [Hl _] _ IH]; [done|].
    rewrite enc_cons. cbn [length]. rewrite length_app. lia. }
  assert (Hty : word_at buf (12 + Z.of_nat (length (enc ls)) + 1) = type /\
                word_at buf (12 + Z.of_nat (length (enc ls)) + 1 + 2) = 1).
  { unfold buf, query_qs. split.
    - replace (hdr ++ enc ls ++ 0 :: [0; type; 0; 1] ++ rest)
        with ((hdr ++ enc ls ++ [0]) ++ 0 :: type :: 0 :: 1 :: rest) by (by rewrite <-!app_assoc).
      rewrite word_at_middle by (rewrite !length_app, Hh; cbn; lia).
      destruct Ht as [->|[->|[->| ->]]]; done.
    - replace (hdr ++ enc ls ++ 0 :: [0; type; 0; 1] ++ rest)
        with ((hdr ++ enc ls ++ [0; 0; type]) ++ 0 :: 1 :: rest) by (by rewrite <-!app_assoc).
      rewrite word_at_middle by (rewrite !length_app, Hh; cbn; lia). done. }
  destruct Hty as [Hty Hcl]. unfold ngx_resolver_process_response. unfold HDR at 1.
  destruct (n <? 12) eqn:E0; [lia|]. rewrite H1, H2. cbn [Z.eqb Pos.eqb negb orb].
  destruct (Z.land (word_at buf 2) 15 =? NGX_RESOLVE_FORMERR) eqn:E1; [lia|].
  destruct (NGX_RESOLVE_REFUSED <? Z.land (word_at buf 2) 15) eqn:E2; [lia|]. cbn [orb].
  rewrite H5. cbn [Z.eqb Pos.eqb negb]. rewrite Hq.
  assert (0 < Z.of_nat (length (enc ls))) by (pose proof (length_join ls Hne); destruct ls; [done|];
    rewrite enc_cons; cbn [length]; lia).
  destruct (_ =? HDR) eqn:E3; [unfold HDR in E3; lia|].
  assert ((n <? 12 + Z.of_nat (length (enc ls)) + 1 + 4 + word_at buf 6 * (2 + 10)) = false) as ->
    by lia.
  rewrite Hty, Hcl. cbn [Z.eqb Pos.eqb negb].
  replace ((type =? NGX_RESOLVE_A) || (type =? NGX_RESOLVE_AAAA) || (type =? NGX_RESOLVE_SRV)
           || (type =? NGX_RESOLVE_PTR)) with true
    by (destruct Ht as [->|[->|[->| ->]]]; done).
  f_equal. f_equal. lia.
Qed.

(** C19: a query for a name of at most 127 labels of 1 to 63 bytes carries that
    name.  In any message that repeats its question whole after twelve bytes of
    header, whatever these are, [ngx_resolver_copy] reads the name back, in lower
    case, into exactly as many bytes as it allocates.  If moreover the header is
    that of an answer to a standard query (not truncated over TCP), with a code
    that is not FORMERR and at most REFUSED, exactly one question, and no more
    answers than the message has room for, [ngx_resolver_process_response] hands
    it on with the type A and the place of the answers. *)
Theorem dns_name_answered ls ident hdr rest tcp n :
  name_ok ls -> length hdr = 12%nat ->
  exists q, ngx_resolver_create_name_query true false ident 0 (join ls) = (NGX_OK, Some q) /\
    let question := drop 12 (qr_query q) in
    let buf := hdr ++ question ++ rest in
    (12 + Z.of_nat (length question) <= n ->
     ngx_resolver_copy true true buf 12 n =
       Some (NGX_OK, Some (Name_copied (Z.of_nat (length (join ls))) (ngx_strlow (join ls))))) /\
    (head_ok tcp buf -> 0 <= word_at buf 6 ->
     12 + Z.of_nat (length question) + 12 * word_at buf 6 <= n ->
     ngx_resolver_process_response tcp buf n =
       Some (mk_resp_head (word_at buf 0) (Z.land (word_at buf 2) 0xf) (word_at buf 6)
               (negb (Z.land (word_at buf 2) 0x0200 =? 0)) NGX_RESOLVE_A
               (12 + Z.of_nat (length question)))).
Proof.
  intros Hls Hh. eexists (mk_query _ None _). split.
  { unfold ngx_resolver_create_name_query. rewrite encode_join by done. reflexivity. }
  intros question buf.
  assert (Hq : question = (enc ls ++ [0]) ++ query_qs NGX_RESOLVE_A)
    by (unfold question; cbn [qr_query]; unfold query_hdr; by rewrite drop_app_length').
  clearbody question. subst question.
  set (question := (enc ls ++ [0]) ++ query_qs NGX_RESOLVE_A) in *.
  assert (Hbuf : buf = hdr ++ enc ls ++ 0 :: query_qs NGX_RESOLVE_A ++ rest)
    by (unfold buf, question; by rewrite <-!app_assoc).
  assert (Hlen : Z.of_nat (length question) = Z.of_nat (length (enc ls)) + 5)
    by (unfold question; rewrite !length_app; cbn; lia).
  split.
  - intros Hn. rewrite Hbuf. replace 12 with (Z.of_nat (length hdr)) by (rewrite Hh; done).
    apply copy_name; [done|rewrite Hh; lia].
  - intros Hhead Hnan Hn. rewrite Hlen, Hbuf in *.
    replace (12 + (Z.of_nat (length (enc ls)) + 5)) with (Z.of_nat (length (enc ls)) + 17) by lia.
    apply response_read; [done|done|by left|done|done|lia].
Qed.

Definition sample_labels : list (list Z) := [bytes "WWW"; bytes "nginx"; bytes "org"].

Lemma sample_labels_ok : name_ok sample_labels.
Proof.
  split_and!; [done| |cbn; lia].
  repeat constructor; cbn; lia.
Qed.

Lemma dns_name_answered_witness :
  exists q, ngx_resolver_create_name_query true false 7 0 (bytes "WWW.nginx.org") =
      (NGX_OK, Some q) /\
    let question := drop 12 (qr_query q) in
    let buf := [0; 7; 0x81; 0x80; 0; 1; 0; 0; 0; 0; 0; 0] ++ question ++ [] in
    (12 + Z.of_nat (length question) <= 31 ->
     ngx_resolver_copy true true buf 12 31 =
       Some (NGX_OK, Some (Name_copied 13 (bytes "www.nginx.org")))).
Proof.
  destruct (dns_name_answered sample_labels 7 [0; 7; 0x81; 0x80; 0; 1; 0; 0; 0; 0; 0; 0] [] false 31
    sample_labels_ok eq_refl) as (q & Hq & Hc & _).
  exists q. split; [exact Hq|exact Hc].
Defined.
