(* ===== verification/DnsPtr.v ===== *)
(** * Addresses in PTR queries

    The name that [ngx_resolver_create_addr_query] writes for an address is
    read back as that address by [ngx_resolver_process_ptr]. *)

From S2P Require Import Prelude HeaderLine Sprintf Strings StringNum TimeText Dns DnsSpec.

(** ** The numbers that are written *)

(** A conversion without sign, width or padding writes the digits. *)
Lemma put_plain cap out hex n ds :
  0 <= n < 2 ^ 64 -> num_text hex n = Some ds ->
  Z.of_nat (length out) + Z.of_nat (length ds) <= cap ->
  put_num cap out (mk_conv (#" ") 0 false hex false 0 None) false n = Some (out ++ ds).
Proof.
  intros Hn Hds Hc. unfold put_num. cbn [andb cv_zero cv_hex cv_width].
  assert (u64 n = n) as -> by (unfold u64; rewrite Z.mod_small; lia).
  rewrite (sprintf_num_taken cap out n _ _ 0 ds) by (done || lia).
  replace (Z.to_nat (0 - Z.of_nat (length ds))) with 0%nat by lia. cbn [replicate app].
  by rewrite taken_short by (rewrite length_app; lia).
Qed.

Lemma vl_ud f cap out n ds fmt args :
  0 <= n < 2 ^ 32 -> num_text 0 n = Some ds ->
  Z.of_nat (length out) + Z.of_nat (length ds) <= cap -> Z.of_nat (length out) < cap ->
  vslprintf_loop (S f) cap out (bytes "%ud" ++ fmt) (VNum n :: args) =
    vslprintf_loop f cap (out ++ ds) fmt args.
Proof.
  intros Hn Hds Hc Hl. change (bytes "%ud" ++ fmt) with (37 :: 117 :: 100 :: fmt).
  cbn [vslprintf_loop]. assert ((Z.of_nat (length out) <? cap) = true) as -> by lia.
  cbn -[put_num u32]. assert (u32 n = n) as -> by (unfold u32; rewrite Z.mod_small; lia).
  by rewrite (put_plain cap out 0 n ds) by (done || lia).
Qed.

Lemma vl_xd f cap out n ds fmt args :
  0 <= n < 2 ^ 32 -> num_text 1 n = Some ds ->
  Z.of_nat (length out) + Z.of_nat (length ds) <= cap -> Z.of_nat (length out) < cap ->
  vslprintf_loop (S f) cap out (bytes "%xd" ++ fmt) (VNum n :: args) =
    vslprintf_loop f cap (out ++ ds) fmt args.
Proof.
  intros Hn Hds Hc Hl. change (bytes "%xd" ++ fmt) with (37 :: 120 :: 100 :: fmt).
  cbn [vslprintf_loop]. assert ((Z.of_nat (length out) <? cap) = true) as -> by lia.
  cbn -[put_num u32]. assert (u32 n = n) as -> by (unfold u32; rewrite Z.mod_small; lia).
  by rewrite (put_plain cap out 1 n ds) by (done || lia).
Qed.

(** An octet is written with one to three digits, which [ngx_atoi] reads. *)
Definition octet_text (o : Z) : list Z := default [] (num_text 0 o).

Lemma octet_facts o : 0 <= o < 256 ->
  num_text 0 o = Some (octet_text o) /\ (1 <= length (octet_text o) <= 3)%nat /\
  ngx_atoi (octet_text o) = o.
Proof.
  intros Ho.
  pose proof (check_range (fun o => match num_text 0 o with
    | Some ds => (1 <=? length ds)%nat && (length ds <=? 3)%nat && (ngx_atoi ds =? o)
    | None => false end) 256 ltac:(vm_compute; reflexivity) o Ho) as H. cbv beta in H.
  unfold octet_text. destruct (num_text 0 o) as [ds|]; [|done]. cbn [default id].
  rewrite !andb_true_iff, !Nat.leb_le, Z.eqb_eq in H. destruct H as [[H1 H2] H3].
  split_and!; done || lia.
Qed.

(** A hexadecimal digit. *)
Definition nibble (o : Z) : Z := default 0 (head (default [] (num_text 1 o))).

Lemma nibble_facts o : 0 <= o < 16 ->
  num_text 1 o = Some [nibble o] /\ ngx_hextoi [nibble o] = o.
Proof.
  intros Ho.
  pose proof (check_range (fun o => match num_text 1 o with
    | Some [c] => (ngx_hextoi [c] =? o)
    | _ => false end) 16 ltac:(vm_compute; reflexivity) o Ho) as H. cbv beta in H.
  unfold nibble. destruct (num_text 1 o) as [[|c [|]]|]; try done. cbn [default head id hd_error].
  split; [done|]. by apply Z.eqb_eq.
Qed.

Lemma octet_of a n : 0 <= n -> 0 <= Z.land (Z.shiftr a n) 0xff < 256.
Proof.
  intros. change 255 with (Z.ones 8). rewrite Z.land_ones by lia. apply Z.mod_pos_bound. lia.
Qed.

(** ** IPv4 *)

Definition octet_at (a n : Z) : Z := Z.land (Z.shiftr a n) 0xff.

Lemma octet_label_text room o : 4 <= room -> 0 <= o < 256 ->
  octet_label room o = Some (Z.of_nat (length (octet_text o)) :: octet_text o).
Proof.
  intros Hr Ho. destruct (octet_facts o Ho) as (Ht & Hl & _). unfold octet_label, vslprintf.
  rewrite <-(app_nil_r (bytes "%ud")).
  rewrite (vl_ud _ room [] o (octet_text o)) by (done || cbn [length]; lia).
  cbn [app vslprintf_loop length bytes]. unfold u8. by rewrite Z.mod_small by lia.
Qed.

Lemma ptr_octets_read room a ns : 4 <= room -> Forall (Z.le 0) ns -> exists ls,
  octet_labels room a ns = Some ls /\ forall pre rest acc,
    ptr_octets (pre ++ ls ++ rest) ns (Z.of_nat (length pre)) acc =
      Some (Some (fold_left (fun acc n => u32 (acc + Z.shiftl (octet_at a n) n)) ns acc,
                  Z.of_nat (length pre) + Z.of_nat (length ls))).
Proof.
  intros Hr. induction 1 as [|n ns Hn _ (ls & IH & Hread)].
  { exists []. split; [done|]. intros pre rest acc. cbn. do 3 f_equal. lia. }
  pose proof (octet_of a n Hn) as Ho. destruct (octet_facts _ Ho) as (_ & Hl & Hatoi).
  cbn [octet_labels]. rewrite (octet_label_text room _ Hr Ho), IH. eexists. split; [done|].
  intros pre rest acc. cbn [app ptr_octets fold_left]. rewrite rd_middle by done.
  set (t := octet_text (Z.land (Z.shiftr a n) 255)) in *.
  assert (Hb : pre ++ Z.of_nat (length t) :: (t ++ ls) ++ rest =
    (pre ++ [Z.of_nat (length t)]) ++ t ++ ls ++ rest) by (by rewrite <-!app_assoc).
  rewrite Hb. rewrite slice_mid by (rewrite ?length_app; cbn; lia). rewrite Hatoi.
  assert (Hc : (Z.land (Z.shiftr a n) 255 =? NGX_ERROR) || (255 <? Z.land (Z.shiftr a n) 255) = false)
    by (unfold NGX_ERROR; lia).
  rewrite Hc. rewrite (app_assoc (pre ++ _)).
  replace (Z.of_nat (length pre) + 1 + Z.of_nat (length t))
    with (Z.of_nat (length ((pre ++ [Z.of_nat (length t)]) ++ t)))
    by (rewrite !length_app; cbn; lia).
  rewrite Hread. do 3 f_equal. rewrite !length_app. cbn [length]. rewrite length_app. lia.
Qed.

Lemma octet_mod a n : 0 <= n -> octet_at a n = (a / 2 ^ n) mod 256.
Proof.
  intros. unfold octet_at. change 255 with (Z.ones 8). by rewrite Z.land_ones, Z.shiftr_div_pow2 by lia.
Qed.

Lemma octets_whole a : 0 <= a < 2 ^ 32 ->
  fold_left (fun acc n => u32 (acc + Z.shiftl (octet_at a n) n)) [0; 8; 16; 24] 0 = a.
Proof.
  intros Ha. cbn [fold_left]. rewrite !octet_mod, !Z.shiftl_mul_pow2 by lia.
  change (2 ^ 24) with (2 ^ 8 * 2 ^ 8 * 2 ^ 8). change (2 ^ 16) with (2 ^ 8 * 2 ^ 8).
  rewrite <-!Z.div_div by lia. change (2 ^ 0) with 1. rewrite Z.div_1_r. change (2 ^ 8) with 256.
  pose proof (Z.div_mod a 256 ltac:(lia)). pose proof (Z.mod_pos_bound a 256 ltac:(lia)).
  set (q1 := a / 256) in *.
  pose proof (Z.div_mod q1 256 ltac:(lia)). pose proof (Z.mod_pos_bound q1 256 ltac:(lia)).
  set (q2 := q1 / 256) in *.
  pose proof (Z.div_mod q2 256 ltac:(lia)). pose proof (Z.mod_pos_bound q2 256 ltac:(lia)).
  set (q3 := q2 / 256) in *.
  rewrite (Z.mod_small q3) by lia.
  clearbody q3. clearbody q2. clearbody q1. remember (a mod 256) as r0 eqn:E0.
  remember (q1 mod 256) as r1 eqn:E1. remember (q2 mod 256) as r2 eqn:E2. clear E0 E1 E2.
  unfold u32. rewrite (Z.mod_small (0 + r0 * 1)) by lia.
  rewrite (Z.mod_small (0 + r0 * 1 + r1 * 256)) by lia.
  rewrite (Z.mod_small (0 + r0 * 1 + r1 * 256 + r2 * (256 * 256))) by lia.
  rewrite Z.mod_small; lia.
Qed.

(** ** IPv6 *)

Definition nibble_text (b : Z) : list Z :=
  [1; nibble (Z.land b 0xf); 1; nibble (Z.land (Z.shiftr b 4) 0xf)].

Lemma length_nibbles bs : length (concat (map nibble_text bs)) = (4 * length bs)%nat.
Proof. induction bs as [|b bs IH]; [done|]. cbn [map concat]. rewrite length_app, IH. cbn. lia. Qed.

Lemma byte_nibbles b : is_byte b ->
  0 <= Z.land b 0xf < 16 /\ 0 <= Z.land (Z.shiftr b 4) 0xf < 16 /\
  u8 (u8 (Z.land b 0xf) + u8 (Z.land (Z.shiftr b 4) 0xf * 16)) = b.
Proof.
  intros Hb. change 15 with (Z.ones 4). rewrite !Z.land_ones by lia.
  split_and!; [apply Z.mod_pos_bound; lia..|].
  apply Z.eqb_eq. change (2 ^ 4) with 16.
  exact (check_range (fun b => u8 (u8 (b mod 16) + u8 (Z.shiftr b 4 mod 16 * 16)) =? b) 256
    ltac:(vm_compute; reflexivity) b Hb).
Qed.

Lemma nibble_labels_text room bs : 8 <= room -> Forall is_byte bs ->
  nibble_labels room bs = Some (concat (map nibble_text bs)).
Proof.
  intros Hr. induction 1 as [|b bs Hb _ IH]; [done|]. cbn [nibble_labels map concat].
  destruct (byte_nibbles b Hb) as (H1 & H2 & _).
  destruct (nibble_facts _ H1) as [E1 _]. destruct (nibble_facts _ H2) as [E2 _].
  rewrite IH. unfold vslprintf.
  change ([1] ++ bytes "%xd" ++ [1] ++ bytes "%xd")
    with (1 :: bytes "%xd" ++ 1 :: bytes "%xd" ++ []).
  change (S (length (1 :: bytes "%xd" ++ 1 :: bytes "%xd" ++ []))) with 9%nat.
  rewrite vl_char by (done || (cbn [length app]; lia)).
  rewrite vl_xd with (ds := [nibble (Z.land b 15)])
    by (exact E1 || (cbn [length app]; lia)).
  rewrite vl_char by (done || (cbn [length app]; lia)).
  rewrite vl_xd with (ds := [nibble (Z.land (Z.shiftr b 4) 15)])
    by (exact E2 || (cbn [length app]; lia)). done.
Qed.

Lemma ptr_nibbles_read bs : Forall is_byte bs -> forall pre rest acc,
  ptr_nibbles (pre ++ concat (map nibble_text bs) ++ rest) (length bs) (Z.of_nat (length pre)) acc =
    Some (Some (rev bs ++ acc, Z.of_nat (length pre) + 4 * Z.of_nat (length bs))).
Proof.
  induction 1 as [|b bs Hb _ IH]; intros pre rest acc.
  { cbn. do 3 f_equal. lia. }
  destruct (byte_nibbles b Hb) as (H1 & H2 & H3).
  destruct (nibble_facts _ H1) as [_ E1]. destruct (nibble_facts _ H2) as [_ E2].
  cbn [length map concat ptr_nibbles].
  set (x := nibble (Z.land b 15)) in *. set (y := nibble (Z.land (Z.shiftr b 4) 15)) in *.
  assert (Hbuf : pre ++ (nibble_text b ++ concat (map nibble_text bs)) ++ rest =
    pre ++ 1 :: x :: 1 :: y :: concat (map nibble_text bs) ++ rest) by done.
  rewrite Hbuf. rewrite (rd_middle pre) by done.
  assert (Hr : forall l c l2 k, k = Z.of_nat (length pre) + Z.of_nat (length l) ->
    rd (pre ++ l ++ c :: l2) k = Some c).
  { intros l c l2 k ->. rewrite app_assoc. apply rd_middle. rewrite length_app. lia. }
  rewrite (Hr [1] x (1 :: y :: concat (map nibble_text bs) ++ rest)) by (cbn; lia).
  rewrite (Hr [1; x] 1 (y :: concat (map nibble_text bs) ++ rest)) by (cbn; lia).
  rewrite (Hr [1; x; 1] y (concat (map nibble_text bs) ++ rest)) by (cbn; lia).
  cbn [Z.eqb Pos.eqb negb]. rewrite E1, E2, H3.
  assert (forall v, 0 <= v < 16 -> (v =? NGX_ERROR) = false) as Hne by (unfold NGX_ERROR; lia).
  rewrite !Hne by done.
  replace (pre ++ 1 :: x :: 1 :: y :: concat (map nibble_text bs) ++ rest)
    with ((pre ++ [1; x; 1; y]) ++ concat (map nibble_text bs) ++ rest) by (by rewrite <-app_assoc).
  replace (Z.of_nat (length pre) + 4) with (Z.of_nat (length (pre ++ [1; x; 1; y])))
    by (rewrite length_app; cbn; lia).
  rewrite IH. cbn [rev]. rewrite <-app_assoc. do 3 f_equal. rewrite length_app. cbn [length]. lia.
Qed.

(** A name of labels of one byte is no name of octets followed by "in-addr". *)
Lemma ptr_octets_ones masks : forall pre cs rest acc,
  length cs = length masks -> exists r,
  ptr_octets (pre ++ concat (map (fun c => [1; c]) cs) ++ rest) masks (Z.of_nat (length pre)) acc =
    Some r /\
  (r = None \/ exists a, r = Some (a, Z.of_nat (length pre) + 2 * Z.of_nat (length masks))).
Proof.
  induction masks as [|mask masks IH]; intros pre [|c cs] rest acc Hl; try done.
  { eexists. split; [done|]. right. exists acc. f_equal. f_equal. cbn. lia. }
  cbn [map concat]. cbn [ptr_octets].
  assert (Hb : pre ++ ([1; c] ++ concat (map (fun c => [1; c]) cs)) ++ rest =
    pre ++ 1 :: c :: concat (map (fun c => [1; c]) cs) ++ rest) by done.
  rewrite Hb, rd_middle by done.
  destruct (_ || _); [eexists; split; [done|by left]|].
  replace (pre ++ 1 :: c :: concat (map (fun c => [1; c]) cs) ++ rest)
    with ((pre ++ [1; c]) ++ concat (map (fun c => [1; c]) cs) ++ rest) by (by rewrite <-app_assoc).
  replace (Z.of_nat (length pre) + 1 + 1) with (Z.of_nat (length (pre ++ [1; c])))
    by (rewrite length_app; cbn; lia).
  match goal with |- context [ptr_octets _ _ _ ?a] =>
    destruct (IH (pre ++ [1; c]) cs rest a ltac:(by injection Hl)) as (r & Hr & Hc) end.
  exists r. split; [exact Hr|]. destruct Hc as [->|[a ->]]; [by left|right]. exists a.
  f_equal. f_equal. rewrite length_app. cbn [length]. lia.
Qed.

(** ** The round trip *)

Definition addr_ok (a : addr) : Prop :=
  match a with
  | Addr4 a => 0 <= a < 2 ^ 32
  | Addr6 bs => length bs = 16%nat /\ Forall is_byte bs
  end.

Lemma rest_is_here pre text rest :
  ngx_strcasecmp (text ++ 0 :: rest) (text ++ [0]) = Some 0 ->
  rest_is (pre ++ text ++ 0 :: rest) (Z.of_nat (length pre)) text = Some true.
Proof. intros H. unfold rest_is. rewrite Nat2Z.id, drop_app_length, H. done. Qed.

Lemma ptr_addr4 hdr room a rest :
  length hdr = 12%nat -> 4 <= room -> 0 <= a < 2 ^ 32 ->
  exists ls, octet_labels room a [0; 8; 16; 24] = Some ls /\
    ptr_addr (hdr ++ ls ++ in_addr_arpa ++ 0 :: rest) =
      Some (Some (Addr4 a, 12 + Z.of_nat (length ls) + 14)).
Proof.
  intros Hh Hr Ha.
  destruct (ptr_octets_read room a [0; 8; 16; 24] Hr ltac:(repeat constructor; lia)) as (ls & Hls & Hread).
  exists ls. split; [done|]. unfold ptr_addr.
  replace HDR with (Z.of_nat (length hdr)) by (rewrite Hh; done).
  rewrite Hread, octets_whole by done. rewrite app_assoc.
  replace (Z.of_nat (length hdr) + Z.of_nat (length ls)) with (Z.of_nat (length (hdr ++ ls)))
    by (rewrite length_app; lia).
  rewrite rest_is_here by reflexivity. rewrite length_app, Hh. do 3 f_equal. lia.
Qed.

Lemma ptr_addr6_read hdr bs rest :
  length hdr = 12%nat -> length bs = 16%nat -> Forall is_byte bs ->
  ptr_addr (hdr ++ concat (map nibble_text (rev bs)) ++ ip6_arpa ++ 0 :: rest) =
    Some (Some (Addr6 bs, 12 + 64 + 10)).
Proof.
  intros Hh Hl Hb.
  assert (H6 : ptr_addr6 (hdr ++ concat (map nibble_text (rev bs)) ++ ip6_arpa ++ 0 :: rest) =
    Some (Some (Addr6 bs, 12 + 64 + 10))).
  { unfold ptr_addr6. replace HDR with (Z.of_nat (length hdr)) by (rewrite Hh; done).
    rewrite <-Hl, <-(length_rev bs), ptr_nibbles_read by (by apply Forall_rev).
    rewrite rev_involutive, app_nil_r, length_rev, Hl, Hh.
    assert (Hlen : length (concat (map nibble_text (rev bs))) = 64%nat)
      by (rewrite length_nibbles, length_rev; lia).
    replace (Z.of_nat 12 + 4 * Z.of_nat 16)
      with (Z.of_nat (length (hdr ++ concat (map nibble_text (rev bs)))))
      by (rewrite length_app, Hlen, Hh; done).
    rewrite app_assoc, rest_is_here by reflexivity. rewrite length_app, Hlen, Hh. done. }
  unfold ptr_addr. rewrite H6.
  rewrite <-(length_rev bs) in Hl. destruct (rev bs) as [|b0 [|b1 bs']] eqn:E; [done|done|].
  cbn [map concat]. unfold nibble_text at 1 2.
  match goal with |- context [hdr ++ ([1; ?c0; 1; ?c1] ++ [1; ?c2; 1; ?c3] ++ ?t) ++ ?r] =>
    destruct (ptr_octets_ones [0; 8; 16; 24] hdr [c0; c1; c2; c3] (t ++ r) 0 eq_refl) as (v & Hv & Hc);
    replace (hdr ++ ([1; c0; 1; c1] ++ [1; c2; 1; c3] ++ t) ++ r)
      with (hdr ++ concat (map (fun c => [1; c]) [c0; c1; c2; c3]) ++ t ++ r) by done
  end.
  replace HDR with (Z.of_nat (length hdr)) by (rewrite Hh; done). rewrite Hv.
  destruct Hc as [->|[acc ->]]; [done|]. destruct bs' as [|b2 bs']; [done|].
  assert (Hi : Z.of_nat (length hdr) + 2 * Z.of_nat (length [0; 8; 16; 24]) = 20) by (rewrite Hh; done).
  rewrite Hi. cbn [map concat]. unfold rest_is.
  do 12 (destruct hdr as [|? hdr]; [done|]). destruct hdr; [|done]. reflexivity.
Qed.

(** The query for the name of an address, IPv4 or IPv6, is about that
    address: in any message that repeats its question [ngx_resolver_process_ptr]
    finds the same address, and the end of the name. *)
Theorem ptr_round_trip room ident a hdr rest :
  8 <= room -> addr_ok a -> length hdr = 12%nat ->
  exists q, ngx_resolver_create_addr_query true room ident a = Some (NGX_OK, Some q) /\
    ptr_addr (hdr ++ drop 12 (qr_query q) ++ rest) =
      Some (Some (a, 12 + Z.of_nat (length (drop 12 (qr_query q))) - 4)).
Proof.
  intros Hr Ha Hh. unfold ngx_resolver_create_addr_query. cbn [negb]. destruct a as [a|bs].
  - destruct (ptr_addr4 hdr room a ([0; 12; 0; 1] ++ rest) Hh ltac:(lia) Ha) as (ls & -> & Hp).
    cbn [option_map]. eexists. split; [done|]. cbn [qr_query]. unfold query_hdr.
    rewrite drop_app_length' by done.
    replace ((ls ++ in_addr_arpa ++ [0]) ++ [0; 12; 0; 1]) with
      (ls ++ in_addr_arpa ++ [0; 0; 12; 0; 1]) by (by rewrite <-!app_assoc).
    rewrite <-!app_assoc. change ([0; 0; 12; 0; 1] ++ rest) with (0 :: [0; 12; 0; 1] ++ rest).
    rewrite Hp, length_app. do 3 f_equal. cbn. lia.
  - destruct Ha as [Hl Hb]. rewrite nibble_labels_text by (lia || by apply Forall_rev).
    cbn [option_map]. eexists. split; [done|]. cbn [qr_query]. unfold query_hdr.
    rewrite drop_app_length' by done.
    replace ((concat (map nibble_text (rev bs)) ++ ip6_arpa ++ [0]) ++ [0; 12; 0; 1]) with
      (concat (map nibble_text (rev bs)) ++ ip6_arpa ++ [0; 0; 12; 0; 1]) by (by rewrite <-!app_assoc).
    rewrite <-!app_assoc. change ([0; 0; 12; 0; 1] ++ rest) with (0 :: [0; 12; 0; 1] ++ rest).
    rewrite ptr_addr6_read by done.
    assert (length (concat (map nibble_text (rev bs))) = 64%nat) as Hlen
      by (rewrite length_nibbles, length_rev; lia).
    rewrite length_app, Hlen. done.
Qed.

Lemma ptr_round_trip_witness :
  exists q, ngx_resolver_create_addr_query true (2 ^ 40) 7 (Addr4 0x7f000001) = Some (NGX_OK, Some q) /\
    ptr_addr (repeat 0 12 ++ drop 12 (qr_query q) ++ []) =
      Some (Some (Addr4 0x7f000001, 12 + Z.of_nat (length (drop 12 (qr_query q))) - 4)).
Proof. apply ptr_round_trip; [lia|cbn; lia|done]. Defined.
